(* ===== verification/_CoqProject ===== *)
-Q . S2P
Prelude.v
CInt.v
Mem.v
Data.v
Keys.v
Hash.v
Pack.v
Super.v
Blk.v
Search.v
Apply.v
Layer.v
Path.v
Leaf.v
Pivot.v
Tree.v
Scan.v
Upsert.v
Lookup.v
Alloc.v
Io.v
Cache.v
Log.v
Arenas.v
Queue.v
Epoch.v
Mst.v
Kv.v
Entry.v
File.v
Users.v
Stat.v
Chan.v
Srv.v
Serve.v
ServeOk.v
Namespace.v
Access.v
Dead.v
DeadOk.v
DeadTree.v
DeadEx.v
Reclaim.v
Kill.v
Snap.v
SnapOk.v
Snaplist.v
Sync.v
SyncOk.v
Crash.v
Load.v
Recover.v
Port.v
PortCache.v
PortTree.v
PortTreeOk.v
PortWrite.v
PortWriteOk.v
PortOpen.v
PortFs.v
PortReam.v
PortOk.v
