(* ===== verification/Prelude.v ===== *)
(** * GEFS: a verification development of the Good Enough File System

    GEFS is a copy-on-write file system for Plan 9: a B-epsilon tree of keys
    and messages on checksummed blocks, with snapshots, served over 9P.  This
    development translates src/src/*.c into Rocq functions and step
    relations and proves what makes them correct, from the bytes of a block
    up to the requests.  Where the code does not do what it means to, the
    theorem says what it does.

    ** The program and where it is modelled

    Bytes and formats.
    - [CInt]: machine integers, the PACK/UNPACK macros (fns.h).  [Mem]:
      buffers.  [Data]: constants, keys, values, messages, block pointers
      (dat.h).  [Keys]: [keycmp] and the sort of a batch (tree.c).  [Hash]:
      the block hash (hash.c; gefs_storage.c has a variant).  [Pack], [Stat]:
      keys and values on disk and in 9P (pack.c).  [Super]: superblock and
      arena headers (pack.c).
    - [Blk], [Search]: leaves and pivots as slotted pages and the search in
      them (tree.c, blk.c).

    The tree (tree.c).
    - [Apply]: what a message makes of a value.  [Layer]: the block layer the
      tree calls, as a class.  [Path], [Leaf], [Pivot], [Tree], [Scan]: the
      parts of an upsert, the upsert, lookups and scans.  [Upsert], [Lookup]:
      what they do to the map that the tree stands for.

    Storage (blk.c, cache.c, load.c, fs.c).
    - [Alloc], [Log], [Arenas]: free ranges, the allocation log, the choice of
      an arena.  [Io], [Cache]: reading and writing blocks, the block cache
      with its pointers and interleavings.  [Queue], [Epoch]: the syncers'
      queues, deferred frees.  [Sync], [SyncOk], [Crash]: bringing a snapshot
      to the disk, and what a crash leaves.  [Load], [Recover]: loading a
      device, and what that finds after a crash.

    Snapshots (snap.c, fs.c).
    - [Dead], [DeadOk], [DeadTree], [DeadEx], [Reclaim], [Kill]: deadlists,
      killing a block and reclaiming a deleted snapshot.  [Snap], [SnapOk],
      [Snaplist]: labels and the list of snapshots.

    The server (fs.c, user.c, cons.c, main.c, error.c).
    - [Mst]: errors as control flow ([waserror], [error], [nexterror]).
      [Users]: users, groups, permissions.  [Chan]: the channels between the
      processes.  [Srv]: fids, open entries, mounts and connections as a
      heap.  [Entry], [File]: directory entries and file contents.  [Serve]:
      every handler of a request, the mutator, the readers and the sweeper;
      [ServeOk], [Namespace], [Access]: what they do.

    The POSIX port (gefs_storage.c, gefs_storage.h, gefs_ream.c), which reads
    and writes images without the rest of the program.
    - [Port]: formats and superblock.  [PortCache]: the image file, the block
      cache and the context.  [PortTree], [PortWrite]: look-ups and scans; the
      update, block allocation and the sync.  [PortOpen], [PortFs]: opening an
      image, snapshots, and the operations on paths.  [PortReam]: formatting.
      [PortTreeOk], [PortWriteOk], [PortOk]: look-ups agree with those of the
      tree, and what an update does to a tree of one leaf and to a higher one.

    ** How the parts meet

    A component is proved against what it may rely on, which is a class:
    [Layer.BlkLayer] (the tree over the allocator and the cache; its laws are
    [BlkLayerOk], and those of finding stored blocks again are [BlkStore];
    [Layer.MemS] is a store in memory that satisfies both),
    [Kv.MsgTree] (a tree of messages as fs.c, snap.c and user.c use it; its
    laws are those that [Lookup] and [Leaf] prove of the tree, and the map of
    keys is an instance; an upsert that fails may have taken a part of its
    messages, since btupsert installs a root per round, and leaves the tree
    [tfail]; [Kv.atomic] says that it never does), [File.DataBlks] (raw data
    blocks),
    [Dead.SnapAlloc] and [Dead.SnapTree] (the allocation of log blocks and
    the tree of snapshots), [DeadTree.Other] (the keys of that tree that are
    no deadlists), [Srv.Snapshots] (opening and closing a snapshot by name).

    State is explicit.  A function that can fail returns [res]: [Err Eassert]
    is a failed assertion, [Err Eoob] an access out of bounds or through a bad
    pointer, the other errors are the strings of error.c.  In [Mst] a command
    also returns the state at the error, as a handler sees it; no handler
    catches an assertion.  A call that would sleep returns [None].  Threads
    are step relations: [Cache.cstep], [Epoch.estep], [Chan.kstep] and
    [Sync.sstep] interleave the atomic sections of the code.

    ** What is proved

    - The formats round-trip and the searches stay in their block; a
      superblock with 256 arenas is written but not read back ([Super]).
    - [updateleaf] writes the merge of a leaf and its messages
      ([Leaf.updateleaf_refines_merge]); [fastupsert] merges a batch into the
      root, so that a lookup afterwards gives the old value changed by the
      messages ([Upsert], [Lookup]).
    - Allocation hands out free blocks, and replaying the log at any time
      restores the free ranges as of the last barrier ([Log], [Arenas]).
    - The cache refines a finite map with a list of idle blocks under all
      interleavings ([Cache]); a failed read leaks its buffer.
    - A block in limbo is not freed while a worker that was active when it
      was put there is at work, with one cleaner and whatever the threads'
      delays ([Epoch.epoch_safe]); with two cleaners it can be
      ([Epoch.epochclean_race]).
    - A sync leaves a superblock with matching headers on the disk at every
      moment, and every run of it with its syncer ends with all of it written
      ([Crash]); what a crash leaves loads to the superblock on the disk and to
      the space that was free at its barrier ([Recover]).
    - Reclaiming one snapshot frees exactly what only it used, unless it is
      the last of its list; two in a row may lose blocks ([Reclaim]); the
      list of snapshots is kept by labelling and removing, unless a snapshot
      had two labels ([Snaplist]).
    - Reads and writes are those of a byte sequence; a write that fails in the
      tree leaves the length grown ([File]); the requests change the entries
      they should and nothing else ([Namespace]);
      permissions are those of the rules ([Users.fsaccess_correct]); a fid
      that was never opened can be written to ([Access]).
    - The port's update loses everything below the root of a tree that is
      higher than one leaf ([PortOk]).

    ** Bounds and fuel

    Loops without a structural measure take fuel, and each has a lemma that
    enough fuel gives a result: [getarena] needs the number of arenas and
    two more rounds, [blkalloc_loop] two rounds over the arenas, the hash one
    unit per 32 bytes, the sift loops of [Queue] the length of the heap, the
    chains of [Cache] the number of buffers, the parsers of [Users] the
    length of the input, [loadlog] the blocks of the log, the hang-up of a
    connection the number of its fids.  The fuel of [PortOpen.load_log] bounds
    a chain that the code would follow for ever.  Integers are [Z]; where the C
    type can wrap, the definition reduces or the theorem has the bound.

    ** Not modelled

    - Locks, as far as they only make the sections atomic that the step
      relations take as atomic; the debug fields and traces.
    - [malloc] failures; the reading of messages from a connection and the
      authentication protocol, which are the system's.
    - Some steps are taken earlier or later than in the code: [Queue.qput]
      stamps an entry when it is stored, not before a wait for room;
      [Srv.clunkmount] frees a mount at once, not through limbo;
      [Serve.truncwait] stops where only a request of another process could
      go on.
    - The console (cons.c, apart from the printing of users), dump.c, the
      start of the processes (main.c), formatting under Plan 9 (ream.c), the
      checkers (check.c, gefs_check.c), and the FUSE and command line front
      ends of the port, which only call libraries. *)
From stdpp Require Export base list numbers option decidable sorting fin_maps gmap.
From Stdlib Require Export ZArith Lia Permutation.

#[global] Open Scope Z_scope.

(** ** Errors and the result monad

    The C code leaves a function early in three ways: [error(E)] and
    [broke(E)] jump to the closest handler with an error string,
    [assert], [abort] and [fatal] stop the program, and an access outside a
    buffer is undefined.  A computation that can do any of these returns a
    [res]. *)

Inductive err : Type :=
  (* src/error.c *)
  | Efs            (** "internal error" *)
  | Ecorrupt       (** "block contents corrupted" *)
  | Efsvers        (** "unknown fs version" *)
  | Eimpl          (** "not implemented" *)
  | Ebotch         (** "protocol botch" *)
  | Eio            (** "i/o error" *)
  | Enofid         (** "unknown fid" *)
  | Efid           (** "fid in use" *)
  | Etype          (** "invalid fid type" *)
  | Edscan         (** "invalid dir scan offset" *)
  | Esrch          (** "directory entry not found" *)
  | Eexist         (** "create/wstat -- file exists" *)
  | Emode          (** "open/create -- unknown mode" *)
  | Efull          (** "file system full" *)
  | Estuffed       (** "emergency blocks exhausted" *)
  | Eauth          (** "authentication failed" *)
  | Elength        (** "name too long" *)
  | Eperm          (** "permission denied" *)
  | Einuse         (** "resource in use" *)
  | Ebadf          (** "invalid file" *)
  | Ename          (** "create/wstat -- bad character in file name" *)
  | Enomem         (** "out of memory" *)
  | Eattach        (** "attach required" *)
  | Enosnap        (** "attach -- bad specifier" *)
  | Edir           (** "invalid directory" *)
  | Esyntax        (** "syntax error" *)
  | Enouser        (** "user does not exist" *)
  | Enogrp         (** "group does not exist" *)
  | Efsize         (** "file too big" *)
  | Ebadu          (** "attach -- unknown user or failed authentication" *)
  | Erdonly        (** "file system read only" *)
  | Elocked        (** "open/create -- file is locked" *)
  | Eauthp         (** "authread -- auth protocol not finished" *)
  | Eauthd         (** "authread -- not enough data" *)
  | Eauthph        (** "auth phase error" *)
  | Enone          (** "auth -- user 'none' requires no authentication" *)
  | Enoauth        (** "auth -- authentication disabled" *)
  | Ephase         (** "phase error -- use after remove" *)
  | Ewstatb        (** "wstat -- unknown bits in qid.type/mode" *)
  | Ewstatd        (** "wstat -- attempt to change directory" *)
  | Ewstatg        (** "wstat -- not in group" *)
  | Ewstatl        (** "wstat -- attempt to make length negative" *)
  | Ewstatm        (** "wstat -- attempt to change muid" *)
  | Ewstato        (** "wstat -- not owner or group leader" *)
  | Ewstatp        (** "wstat -- attempt to change qid.path" *)
  | Ewstatq        (** "wstat -- qid.type/dir.mode mismatch" *)
  | Ewstatu        (** "wstat -- not owner" *)
  | Ewstatv        (** "wstat -- attempt to change qid.vers" *)
  | Enempty        (** "directory is not empty" *)
  (* messages built where they are raised *)
  | Ebadtype       (** "invalid block type ..." *)
  | Esuper         (** "corrupt superblock: ..." *)
  (* not an error string *)
  | Eassert        (** a failed [assert], [abort()] or [fatal()] *)
  | Eoob           (** an access outside a buffer *)
  | Euninit        (** a read of an uninitialised variable *)
  | Estuck         (** a wait for something that nobody will do *)
  | Efuel.         (** the fuel of a loop ran out *)

#[export] Instance err_eq_dec : EqDecision err.
Proof. solve_decision. Defined.

Inductive res (A : Type) : Type :=
  | Ok (a : A)
  | Err (e : err).
Arguments Ok {A} a.
Arguments Err {A} e.

Definition rbind {A B} (r : res A) (k : A -> res B) : res B :=
  match r with Ok a => k a | Err e => Err e end.

Declare Scope gefs_scope.
Delimit Scope gefs_scope with gefs.
Notation "'let!' x := e 'in' k" := (rbind e (fun x => k))
  (at level 10, x pattern, e at level 100, k at level 200) : gefs_scope.
Notation "'assert!' b 'in' k" := (if b then k else Err Eassert)
  (at level 10, b at level 100, k at level 200) : gefs_scope.
#[global] Open Scope gefs_scope.

(** [postE E r Q]: [r] returns a value that satisfies [Q], or it raises an
    error of the set [E].  With an empty [E] this is total correctness. *)
Definition postE {A} (E : err -> Prop) (r : res A) (Q : A -> Prop) : Prop :=
  match r with Ok a => Q a | Err e => E e end.

Lemma postE_bind {A B} E (r : res A) (k : A -> res B) Q Q' :
  postE E r Q -> (forall a, Q a -> postE E (k a) Q') -> postE E (rbind r k) Q'.
Proof. destruct r; simpl; auto. Qed.

Lemma postE_mono {A} E (r : res A) (Q Q' : A -> Prop) :
  postE E r Q -> (forall a, Q a -> Q' a) -> postE E r Q'.
Proof. destruct r; simpl; auto. Qed.

Lemma postE_weaken {A} (E E' : err -> Prop) (r : res A) Q :
  (forall e, E e -> E' e) -> postE E r Q -> postE E' r Q.
Proof. destruct r; simpl; auto. Qed.

Lemma postE_total {A} (r : res A) Q :
  postE (fun _ => False) r Q -> exists a, r = Ok a /\ Q a.
Proof. destruct r; simpl; [eauto|done]. Qed.

Lemma rbind_ok {A B} (r : res A) (k : A -> res B) b :
  rbind r k = Ok b <-> exists a, r = Ok a /\ k a = Ok b.
Proof.
  destruct r as [a|e]; simpl; split.
  - intros H. by exists a.
  - intros (a' & [= <-] & H). done.
  - discriminate.
  - intros (a' & ? & _). discriminate.
Qed.

(** Unlike [injection], this leaves the value as it is. *)
Lemma Ok_inj {A} (x y : A) : Ok x = Ok y -> x = y.
Proof. by intros [= ->]. Qed.

(** ** Tactics *)

(** Invert every [rbind _ _ = Ok _] and guarded [Ok] of the context. *)
Ltac inv_ok :=
  repeat match goal with
  | H : rbind _ _ = Ok _ |- _ =>
      let a := fresh "a" in let E := fresh "E" in
      apply rbind_ok in H as (a & E & H)
  | H : Ok _ = Ok _ |- _ => injection H as H; subst
  | H : Err _ = Ok _ |- _ => discriminate H
  | H : (if ?b then _ else Err _) = Ok _ |- _ =>
      let E := fresh "E" in destruct b eqn:E; [|discriminate H]
  | H : (match ?p with (_, _) => _ end) = Ok _ |- _ => destruct p eqn:?
  end.

(** Name the value of the first computation of [H : rbind _ _ = Ok _] and
    its equation. *)
Tactic Notation "bind_inv" ident(H) "as" simple_intropattern(p) ident(E) :=
  apply rbind_ok in H as (p & E & H); cbv beta iota zeta in H.

(** Go past the first computation of [H]. *)
Ltac bind_skip H :=
  let a := fresh "a" in let E := fresh "E" in
  apply rbind_ok in H as (a & E & H); clear E.

(** Turn boolean comparisons of the context and the goal into propositions. *)
Ltac zb :=
  repeat match goal with
  | H : _ && _ = true |- _ => apply andb_true_iff in H as [? ?]
  | H : _ && _ = false |- _ => apply andb_false_iff in H
  | H : _ || _ = false |- _ => apply orb_false_iff in H as [? ?]
  | H : negb _ = true |- _ => apply negb_true_iff in H
  | H : negb _ = false |- _ => apply negb_false_iff in H
  | H : (_ <=? _) = true |- _ => apply Z.leb_le in H
  | H : (_ <=? _) = false |- _ => apply Z.leb_gt in H
  | H : (_ <? _) = true |- _ => apply Z.ltb_lt in H
  | H : (_ <? _) = false |- _ => apply Z.ltb_ge in H
  | H : (_ =? _) = true |- _ => apply Z.eqb_eq in H
  | H : (_ =? _) = false |- _ => apply Z.eqb_neq in H
  end.

(** Two results of one computation are the same. *)
Ltac same_ok :=
  repeat match goal with H1 : ?x = Ok ?a, H2 : ?x = Ok ?b |- _ =>
    rewrite H1 in H2; apply Ok_inj in H2; simplify_eq end.

(** Decide the boolean comparison of the first [if] of the goal. *)
Ltac zif :=
  match goal with
  | |- context [if ?b then _ else _] =>
      let E := fresh "E" in destruct b eqn:E; zb
  end.

Create HintDb gefs discriminated.
Create Rewrite HintDb zlen.

(** ** Lists indexed by Z *)

Definition zlen {A} (l : list A) : Z := Z.of_nat (length l).

Lemma zlen_nil {A} : zlen (@nil A) = 0.
Proof. done. Qed.
Lemma zlen_cons {A} (x : A) l : zlen (x :: l) = 1 + zlen l.
Proof. unfold zlen. simpl. lia. Qed.
Lemma zlen_app {A} (l k : list A) : zlen (l ++ k) = zlen l + zlen k.
Proof. unfold zlen. rewrite length_app. lia. Qed.
Lemma zlen_nonneg {A} (l : list A) : 0 <= zlen l.
Proof. unfold zlen. lia. Qed.
Lemma zlen_replicate {A} n (x : A) : zlen (replicate n x) = Z.of_nat n.
Proof. unfold zlen. by rewrite length_replicate. Qed.
Lemma zlen_0 {A} (l : list A) : zlen l = 0 -> l = [].
Proof. destruct l; [done|]. unfold zlen. simpl. lia. Qed.

#[export] Hint Rewrite @zlen_nil @zlen_cons @zlen_app @zlen_replicate : zlen.

(** [l[i]] of the code, an access outside the array being an error. *)
Definition znth {A} (l : list A) (i : Z) : res A :=
  if 0 <=? i then
    match l !! Z.to_nat i with Some x => Ok x | None => Err Eoob end
  else Err Eoob.

Lemma znth_ok {A} (l : list A) i x :
  znth l i = Ok x <-> 0 <= i /\ l !! Z.to_nat i = Some x.
Proof.
  unfold znth. destruct (0 <=? i) eqn:E; zb.
  - destruct (l !! Z.to_nat i) as [y|]; split.
    + intros [= ->]. done.
    + intros [_ [= ->]]. done.
    + discriminate.
    + intros [_ ?]. discriminate.
  - split; [done|lia].
Qed.

Lemma znth_lt {A} (l : list A) i :
  0 <= i < zlen l -> exists x, znth l i = Ok x /\ l !! Z.to_nat i = Some x.
Proof.
  intros Hi. destruct (lookup_lt_is_Some_2 l (Z.to_nat i)) as [x Hx].
  { unfold zlen in Hi. lia. }
  exists x. split; [|done]. apply znth_ok. split; [lia|done].
Qed.
