(* ===== verification/CInt.v ===== *)
(** * Machine integers and the big-endian PACK/UNPACK macros

    Integers are [Z]; a value stored in a w-bit C object is reduced with
    [uN] (unsigned) or [sN] (two's complement).  The macros of src/fns.h
    [PACKn]/[UNPACKn] write and read big-endian integers byte by byte.  They
    are read with the promotion rule of the Plan 9 C compilers this part of
    the code is written for, where [uchar] promotes to an unsigned type, so
    that a byte shifted by 24 is not sign extended. *)
From S2P Require Import Prelude.

Create Rewrite HintDb unpack.

(** ** Width reductions *)

Definition u8 (z : Z) : Z := z mod 2 ^ 8.
Definition u16 (z : Z) : Z := z mod 2 ^ 16.
Definition u32 (z : Z) : Z := z mod 2 ^ 32.
Definition u64 (z : Z) : Z := z mod 2 ^ 64.

Definition swrap (w z : Z) : Z := (z + 2 ^ (w - 1)) mod 2 ^ w - 2 ^ (w - 1).
Definition s8 (z : Z) : Z := swrap 8 z.
Definition s16 (z : Z) : Z := swrap 16 z.
Definition s32 (z : Z) : Z := swrap 32 z.
Definition s64 (z : Z) : Z := swrap 64 z.

Definition is_byte (z : Z) : Prop := 0 <= z < 256.
Definition is_bytes (l : list Z) : Prop := Forall is_byte l.

(** ** The macros of src/fns.h *)

Definition byte_at (p : list Z) (i : nat) : Z := nth i p 0.

Definition UNPACK8 (p : list Z) : Z := byte_at p 0.
Definition UNPACK16 (p : list Z) : Z :=
  Z.lor (Z.shiftl (byte_at p 0) 8) (byte_at p 1).
Definition UNPACK32 (p : list Z) : Z :=
  Z.lor (Z.lor (Z.lor (Z.shiftl (byte_at p 0) 24) (Z.shiftl (byte_at p 1) 16))
               (Z.shiftl (byte_at p 2) 8))
        (byte_at p 3).
Definition UNPACK64 (p : list Z) : Z :=
  Z.lor (Z.shiftl (UNPACK32 p) 32) (UNPACK32 (drop 4 p)).

Definition PACK8 (v : Z) : list Z := [u8 v].
Definition PACK16 (v : Z) : list Z := [u8 (Z.shiftr v 8); u8 v].
Definition PACK32 (v : Z) : list Z :=
  [u8 (Z.shiftr v 24); u8 (Z.shiftr v 16); u8 (Z.shiftr v 8); u8 v].
Definition PACK64 (v : Z) : list Z :=
  [u8 (Z.shiftr v 56); u8 (Z.shiftr v 48); u8 (Z.shiftr v 40); u8 (Z.shiftr v 32);
   u8 (Z.shiftr v 24); u8 (Z.shiftr v 16); u8 (Z.shiftr v 8); u8 v].

(** ** The big-endian reference *)

Definition be_comb (l : list Z) : Z := foldl (fun a b => a * 256 + b) 0 l.

Fixpoint be_split (n : nat) (v : Z) : list Z :=
  match n with
  | O => []
  | S n' => be_split n' (v / 256) ++ [v mod 256]
  end.

Lemma u8_byte z : is_byte (u8 z).
Proof. unfold is_byte, u8. apply Z.mod_pos_bound. lia. Qed.

Lemma u64_range z : 0 <= u64 z < 2 ^ 64.
Proof. apply Z.mod_pos_bound. lia. Qed.

Lemma u32_range z : 0 <= u32 z < 2 ^ 32.
Proof. apply Z.mod_pos_bound. lia. Qed.

Lemma u64_small z : 0 <= z < 2 ^ 64 -> u64 z = z.
Proof. apply Z.mod_small. Qed.
Lemma u32_small z : 0 <= z < 2 ^ 32 -> u32 z = z.
Proof. apply Z.mod_small. Qed.
Lemma u16_small z : 0 <= z < 2 ^ 16 -> u16 z = z.
Proof. apply Z.mod_small. Qed.
Lemma u8_small z : is_byte z -> u8 z = z.
Proof. apply Z.mod_small. Qed.

Lemma swrap_small w z : 0 < w -> - 2 ^ (w - 1) <= z < 2 ^ (w - 1) -> swrap w z = z.
Proof.
  intros Hw Hz. unfold swrap. rewrite Z.mod_small; [lia|].
  replace (2 ^ w) with (2 * 2 ^ (w - 1)); [lia|].
  rewrite <- Z.pow_succ_r by lia. f_equal. lia.
Qed.

Lemma swrap_mod w z : 0 < w -> swrap w (z mod 2 ^ w) = swrap w z.
Proof.
  intros Hw. unfold swrap. f_equal. by rewrite Z.add_mod_idemp_l by lia.
Qed.

Lemma s64_range z : - 2 ^ 63 <= s64 z < 2 ^ 63.
Proof. unfold s64, swrap. pose proof (Z.mod_pos_bound (z + 2 ^ (64 - 1)) (2 ^ 64) ltac:(lia)). lia. Qed.
Lemma s32_range z : - 2 ^ 31 <= s32 z < 2 ^ 31.
Proof. unfold s32, swrap. pose proof (Z.mod_pos_bound (z + 2 ^ (32 - 1)) (2 ^ 32) ltac:(lia)). lia. Qed.

Lemma s16_small z : - 2 ^ 15 <= z < 2 ^ 15 -> s16 z = z.
Proof. intros. apply swrap_small; [lia|]. exact H. Qed.
Lemma s32_small z : - 2 ^ 31 <= z < 2 ^ 31 -> s32 z = z.
Proof. intros. apply swrap_small; [lia|]. exact H. Qed.
Lemma s64_small z : - 2 ^ 63 <= z < 2 ^ 63 -> s64 z = z.
Proof. intros. apply swrap_small; [lia|]. exact H. Qed.
Lemma s64_u64 z : s64 (u64 z) = s64 z.
Proof. apply swrap_mod. lia. Qed.
Lemma s32_u32 z : s32 (u32 z) = s32 z.
Proof. apply swrap_mod. lia. Qed.
Lemma s16_u16 z : s16 (u16 z) = s16 z.
Proof. apply swrap_mod. lia. Qed.

Lemma byte_at_byte p i : is_bytes p -> is_byte (byte_at p i).
Proof.
  intros H. revert i. induction H; intros [|i]; unfold byte_at in *; simpl;
    auto; unfold is_byte; lia.
Qed.

Lemma lor_shiftl_add a b n :
  0 <= n -> 0 <= b < 2 ^ n -> Z.lor (Z.shiftl a n) b = a * 2 ^ n + b.
Proof.
  intros Hn Hb.
  assert (Hl : Z.land (Z.shiftl a n) b = 0).
  { apply Z.bits_inj'. intros i Hi. rewrite Z.land_spec, Z.bits_0.
    destruct (Z.lt_ge_cases i n).
    - by rewrite Z.shiftl_spec_low.
    - destruct (decide (b = 0)) as [->|]; [by rewrite Z.bits_0, andb_false_r|].
      rewrite (Z.bits_above_log2 b i); [by rewrite andb_false_r|lia|].
      apply Z.log2_lt_pow2; [lia|].
      eapply Z.lt_le_trans; [apply Hb|]. apply Z.pow_le_mono_r; lia. }
  rewrite <- Z.lxor_lor, <- Z.add_nocarry_lxor by done.
  by rewrite Z.shiftl_mul_pow2.
Qed.

Lemma UNPACK32_eq p :
  is_bytes p ->
  UNPACK32 p = ((byte_at p 0 * 256 + byte_at p 1) * 256 + byte_at p 2) * 256 + byte_at p 3.
Proof.
  intros H.
  assert (Hb : forall i, 0 <= byte_at p i < 2 ^ 8) by (intros i; by apply byte_at_byte).
  unfold UNPACK32.
  replace (Z.shiftl (byte_at p 0) 24) with (Z.shiftl (Z.shiftl (byte_at p 0) 8) 16)
    by (by rewrite Z.shiftl_shiftl).
  rewrite <- Z.shiftl_lor, (lor_shiftl_add (byte_at p 0)) by (first [apply Hb | lia]).
  replace (Z.shiftl (byte_at p 0 * 2 ^ 8 + byte_at p 1) 16)
    with (Z.shiftl (Z.shiftl (byte_at p 0 * 2 ^ 8 + byte_at p 1) 8) 8)
    by (by rewrite Z.shiftl_shiftl).
  rewrite <- Z.shiftl_lor, lor_shiftl_add by (first [apply Hb | lia]).
  rewrite lor_shiftl_add by (first [apply Hb | lia]). lia.
Qed.

Lemma UNPACK16_eq p :
  is_bytes p -> UNPACK16 p = byte_at p 0 * 256 + byte_at p 1.
Proof.
  intros H. unfold UNPACK16.
  rewrite lor_shiftl_add; [lia|lia|]. by apply (byte_at_byte p 1).
Qed.

Lemma UNPACK32_range p : is_bytes p -> 0 <= UNPACK32 p < 2 ^ 32.
Proof.
  intros H. rewrite UNPACK32_eq by done.
  pose proof (byte_at_byte p 0 H). pose proof (byte_at_byte p 1 H).
  pose proof (byte_at_byte p 2 H). pose proof (byte_at_byte p 3 H).
  unfold is_byte in *. lia.
Qed.

Lemma UNPACK64_eq p :
  is_bytes p -> UNPACK64 p = UNPACK32 p * 2 ^ 32 + UNPACK32 (drop 4 p).
Proof.
  intros H. unfold UNPACK64. apply lor_shiftl_add; [lia|].
  apply UNPACK32_range. by apply Forall_drop.
Qed.

(** ** Each macro is the big-endian encoding of its width *)

Lemma be_split_length n v : length (be_split n v) = n.
Proof.
  revert v. induction n as [|n IH]; intros v; [done|].
  simpl. rewrite length_app, IH. simpl. lia.
Qed.

Lemma be_split_bytes n v : is_bytes (be_split n v).
Proof.
  revert v. induction n as [|n IH]; intros v; simpl; [constructor|].
  apply Forall_app. split; [apply IH|]. constructor; [|constructor].
  apply Z.mod_pos_bound. lia.
Qed.

Lemma be_comb_snoc l x : be_comb (l ++ [x]) = be_comb l * 256 + x.
Proof. unfold be_comb. by rewrite foldl_app. Qed.

Lemma pow8_succ n : 2 ^ (8 * Z.of_nat (S n)) = 256 * 2 ^ (8 * Z.of_nat n).
Proof.
  replace (8 * Z.of_nat (S n)) with (8 + 8 * Z.of_nat n) by lia.
  rewrite Z.pow_add_r by lia. lia.
Qed.

Lemma be_comb_split n v : be_comb (be_split n v) = v mod 2 ^ (8 * Z.of_nat n).
Proof.
  revert v. induction n as [|n IH]; intros v.
  - simpl. by rewrite Z.mod_1_r.
  - cbn [be_split]. rewrite be_comb_snoc, IH, pow8_succ.
    rewrite Z.rem_mul_r by lia. lia.
Qed.

Lemma shiftr_8 v n m : 0 <= n -> m = n + 8 -> Z.shiftr v m = Z.shiftr v n / 256.
Proof.
  intros ? ->. rewrite <- Z.shiftr_shiftr by lia. by rewrite (Z.shiftr_div_pow2 _ 8) by lia.
Qed.

Lemma PACK16_be v : PACK16 v = be_split 2 v.
Proof. unfold PACK16, u8. cbn. by rewrite (Z.shiftr_div_pow2 v 8) by lia. Qed.

Lemma PACK32_be v : PACK32 v = be_split 4 v.
Proof.
  unfold PACK32, u8. cbn [be_split app].
  rewrite (shiftr_8 v 16 24), (shiftr_8 v 8 16), (Z.shiftr_div_pow2 v 8) by lia. done.
Qed.

Lemma PACK64_be v : PACK64 v = be_split 8 v.
Proof.
  unfold PACK64, u8. cbn [be_split app].
  rewrite (shiftr_8 v 48 56), (shiftr_8 v 40 48), (shiftr_8 v 32 40),
    (shiftr_8 v 24 32), (shiftr_8 v 16 24), (shiftr_8 v 8 16), (Z.shiftr_div_pow2 v 8) by lia. done.
Qed.

Lemma PACK8_bytes v : is_bytes (PACK8 v).
Proof. constructor; [apply u8_byte|constructor]. Qed.
Lemma PACK16_bytes v : is_bytes (PACK16 v).
Proof. rewrite PACK16_be. apply be_split_bytes. Qed.
Lemma PACK32_bytes v : is_bytes (PACK32 v).
Proof. rewrite PACK32_be. apply be_split_bytes. Qed.
Lemma PACK64_bytes v : is_bytes (PACK64 v).
Proof. rewrite PACK64_be. apply be_split_bytes. Qed.

Lemma UNPACK16_be p : is_bytes p -> length p = 2%nat -> UNPACK16 p = be_comb p.
Proof.
  intros Hb Hl. rewrite UNPACK16_eq by done.
  destruct p as [|a [|b [|]]]; try done. 
Qed.

Lemma UNPACK32_be p : is_bytes p -> length p = 4%nat -> UNPACK32 p = be_comb p.
Proof.
  intros Hb Hl. rewrite UNPACK32_eq by done.
  destruct p as [|a [|b [|c [|d [|]]]]]; try done.
Qed.

Lemma UNPACK64_be p : is_bytes p -> length p = 8%nat -> UNPACK64 p = be_comb p.
Proof.
  intros Hb Hl. rewrite UNPACK64_eq, !UNPACK32_eq by (done || by apply Forall_drop).
  do 9 (destruct p as [|? p]; try discriminate Hl). cbn -[Z.mul Z.add Z.pow]. lia.
Qed.

(** ** Round trips *)

Lemma UNPACK8_PACK8 v : UNPACK8 (PACK8 v) = u8 v.
Proof. done. Qed.
Lemma UNPACK16_PACK16 v : UNPACK16 (PACK16 v) = u16 v.
Proof.
  rewrite UNPACK16_be, PACK16_be, be_comb_split by (apply PACK16_bytes || done). done.
Qed.
Lemma UNPACK32_PACK32 v : UNPACK32 (PACK32 v) = u32 v.
Proof.
  rewrite UNPACK32_be, PACK32_be, be_comb_split by (apply PACK32_bytes || done). done.
Qed.
Lemma UNPACK64_PACK64 v : UNPACK64 (PACK64 v) = u64 v.
Proof.
  rewrite UNPACK64_be, PACK64_be, be_comb_split by (apply PACK64_bytes || done). done.
Qed.

(** ** The macros only look at the bytes of their width *)

Lemma byte_at_app p q i : (i < length p)%nat -> byte_at (p ++ q) i = byte_at p i.
Proof. intros. unfold byte_at. by rewrite app_nth1. Qed.

Lemma UNPACK16_app p q : length p = 2%nat -> UNPACK16 (p ++ q) = UNPACK16 p.
Proof. intros H. unfold UNPACK16. rewrite !byte_at_app by lia. done. Qed.
Lemma UNPACK32_app p q : length p = 4%nat -> UNPACK32 (p ++ q) = UNPACK32 p.
Proof. intros H. unfold UNPACK32. rewrite !byte_at_app by lia. done. Qed.
Lemma UNPACK64_app p q : length p = 8%nat -> UNPACK64 (p ++ q) = UNPACK64 p.
Proof.
  intros H. unfold UNPACK64.
  do 9 (destruct p as [|? p]; try discriminate H). done.
Qed.

(** ** Order: the encoding compares like the numbers *)

Lemma be_split_inj n v w :
  be_split n v = be_split n w -> v mod 2 ^ (8 * Z.of_nat n) = w mod 2 ^ (8 * Z.of_nat n).
Proof. intros H. by rewrite <- !be_comb_split, H. Qed.

Lemma PACK64_inj v w : PACK64 v = PACK64 w -> u64 v = u64 w.
Proof. rewrite !PACK64_be. apply be_split_inj. Qed.

#[export] Hint Resolve PACK8_bytes PACK16_bytes PACK32_bytes PACK64_bytes : gefs.
#[export] Hint Rewrite UNPACK8_PACK8 UNPACK16_PACK16 UNPACK32_PACK32 UNPACK64_PACK64 : unpack.
