(* ===== verification/Mem.v ===== *)
(** * Buffers

    A C buffer is the list of its bytes.  [rd] reads [n] bytes at an offset
    and [wr] overwrites bytes at an offset ([memmove], [PACKn] through a
    pointer); both report an access that leaves the buffer.  [at_ m o bs]
    says that the bytes [bs] are at offset [o] of [m]: the frame lemmas of
    the block formats are stated with it. *)
From S2P Require Import Prelude CInt.

Definition rd (m : list Z) (o n : Z) : res (list Z) :=
  if (0 <=? o) && (0 <=? n) && (o + n <=? zlen m)
  then Ok (take (Z.to_nat n) (drop (Z.to_nat o) m))
  else Err Eoob.

Definition wr (m : list Z) (o : Z) (bs : list Z) : res (list Z) :=
  if (0 <=? o) && (o + zlen bs <=? zlen m)
  then Ok (take (Z.to_nat o) m ++ bs ++ drop (Z.to_nat o + length bs) m)
  else Err Eoob.

Definition rd16 (m : list Z) (o : Z) : res Z :=
  let! p := rd m o 2 in Ok (UNPACK16 p).
Definition rd32 (m : list Z) (o : Z) : res Z :=
  let! p := rd m o 4 in Ok (UNPACK32 p).
Definition rd64 (m : list Z) (o : Z) : res Z :=
  let! p := rd m o 8 in Ok (UNPACK64 p).

Definition at_ (m : list Z) (o : Z) (bs : list Z) : Prop :=
  0 <= o /\ o + zlen bs <= zlen m /\
  take (length bs) (drop (Z.to_nat o) m) = bs.

Lemma rd_in m o n :
  0 <= o -> 0 <= n -> o + n <= zlen m ->
  rd m o n = Ok (take (Z.to_nat n) (drop (Z.to_nat o) m)).
Proof.
  intros. unfold rd.
  by rewrite (proj2 (Z.leb_le 0 o)), (proj2 (Z.leb_le 0 n)), (proj2 (Z.leb_le _ (zlen m))).
Qed.

Lemma rd_inv m o n bs :
  rd m o n = Ok bs ->
  0 <= o /\ 0 <= n /\ o + n <= zlen m /\ bs = take (Z.to_nat n) (drop (Z.to_nat o) m).
Proof. unfold rd. intros H. inv_ok. zb. auto. Qed.

Lemma rd_err m o n e : rd m o n = Err e -> e = Eoob.
Proof. unfold rd. destruct (_ && _); congruence. Qed.

Lemma wr_in m o bs :
  0 <= o -> o + zlen bs <= zlen m ->
  wr m o bs = Ok (take (Z.to_nat o) m ++ bs ++ drop (Z.to_nat o + length bs) m).
Proof.
  intros. unfold wr.
  by rewrite (proj2 (Z.leb_le 0 o)), (proj2 (Z.leb_le _ (zlen m))).
Qed.

Lemma wr_inv m o bs m' :
  wr m o bs = Ok m' ->
  0 <= o /\ o + zlen bs <= zlen m /\
  m' = take (Z.to_nat o) m ++ bs ++ drop (Z.to_nat o + length bs) m.
Proof. unfold wr. intros H. inv_ok. zb. auto. Qed.

Lemma to_nat_zlen {A} (l : list A) : Z.to_nat (zlen l) = length l.
Proof. unfold zlen. lia. Qed.

Lemma rd_at m o bs : rd m o (zlen bs) = Ok bs <-> at_ m o bs.
Proof.
  split.
  - intros (? & ? & ? & E)%rd_inv. rewrite to_nat_zlen in E. by repeat split.
  - intros (? & ? & E). rewrite rd_in, to_nat_zlen, E; [done|lia| |lia].
    apply zlen_nonneg.
Qed.

Lemma rd_at_n m o n bs : n = zlen bs -> at_ m o bs -> rd m o n = Ok bs.
Proof. intros ->. apply rd_at. Qed.

Lemma rd_zlen m o n bs : rd m o n = Ok bs -> zlen bs = n.
Proof.
  intros (? & ? & ? & ->)%rd_inv. unfold zlen in *.
  rewrite length_take, length_drop. lia.
Qed.

Lemma rd_ok m o n :
  0 <= o -> 0 <= n -> o + n <= zlen m -> exists bs, rd m o n = Ok bs /\ zlen bs = n.
Proof.
  intros. rewrite rd_in by done. eexists. split; [done|].
  eapply rd_zlen. by rewrite rd_in.
Qed.

Lemma wr_zlen m o bs m' : wr m o bs = Ok m' -> zlen m' = zlen m.
Proof.
  intros (? & ? & ->)%wr_inv. unfold zlen in *.
  rewrite !length_app, length_take, length_drop. lia.
Qed.

Lemma wr_ok m o bs :
  0 <= o -> o + zlen bs <= zlen m -> exists m', wr m o bs = Ok m' /\ zlen m' = zlen m.
Proof.
  intros. destruct (wr m o bs) as [m'|] eqn:E.
  - eauto using wr_zlen.
  - by rewrite wr_in in E.
Qed.

Lemma at_zlen m o bs : at_ m o bs -> 0 <= o /\ o + zlen bs <= zlen m.
Proof. intros (? & ? & ?). done. Qed.

(** Writing bytes puts them there. *)
Lemma wr_at m o bs m' : wr m o bs = Ok m' -> at_ m' o bs.
Proof.
  intros H. pose proof (wr_zlen _ _ _ _ H). apply wr_inv in H as (? & ? & ->).
  split; [done|]. split; [lia|].
  rewrite drop_app_length'. 2:{ unfold zlen in *. rewrite length_take. lia. }
  by rewrite take_app_length.
Qed.

(** Bytes outside the written range stay. *)
Lemma wr_frame m o bs m' o' bs' :
  wr m o bs = Ok m' -> at_ m o' bs' ->
  o' + zlen bs' <= o \/ o + zlen bs <= o' ->
  at_ m' o' bs'.
Proof.
  intros Hw Ha Hd. pose proof (wr_zlen _ _ _ _ Hw).
  apply wr_inv in Hw as (? & ? & ->). destruct Ha as (? & ? & E).
  split; [done|]. split; [lia|]. rewrite <- E at 2. unfold zlen in *.
  apply list_eq. intros i.
  destruct (decide (i < length bs')%nat) as [Hi|Hi].
  2:{ rewrite !lookup_take_ge by lia. done. }
  rewrite !lookup_take_lt, !lookup_drop by lia.
  destruct Hd as [Hd|Hd].
  - rewrite lookup_app_l by (rewrite length_take; lia).
    rewrite lookup_take_lt by lia. done.
  - rewrite lookup_app_r by (rewrite length_take; lia).
    rewrite lookup_app_r by (rewrite length_take; lia).
    rewrite length_take, lookup_drop. f_equal. lia.
Qed.

(** A sequence is somewhere when its halves are, one after the other. *)
Lemma at_app m o a b : at_ m o (a ++ b) <-> at_ m o a /\ at_ m (o + zlen a) b.
Proof.
  unfold at_. rewrite zlen_app. pose proof (zlen_nonneg a). pose proof (zlen_nonneg b).
  rewrite length_app. split.
  - intros (? & ? & E). rewrite <- take_take_drop in E.
    apply app_inj_1 in E as [E1 E2].
    2:{ rewrite length_take, length_drop. unfold zlen in *. lia. }
    rewrite drop_drop in E2.
    replace (Z.to_nat (o + zlen a)) with (Z.to_nat o + length a)%nat by (unfold zlen in *; lia).
    repeat split; try done; lia.
  - intros [(? & ? & E1) (? & ? & E2)].
    replace (Z.to_nat (o + zlen a)) with (Z.to_nat o + length a)%nat in E2 by (unfold zlen in *; lia).
    split; [done|]. split; [lia|].
    rewrite <- take_take_drop, drop_drop. by rewrite E1, E2.
Qed.

Lemma rd16_at m o v :
  at_ m o (PACK16 v) -> rd16 m o = Ok (u16 v).
Proof.
  intros H. unfold rd16. rewrite (rd_at_n m o 2 (PACK16 v) eq_refl H). cbn [rbind].
  by rewrite UNPACK16_PACK16.
Qed.

Lemma zlen_PACK8 v : zlen (PACK8 v) = 1. Proof. done. Qed.
Lemma zlen_PACK16 v : zlen (PACK16 v) = 2. Proof. done. Qed.
Lemma zlen_PACK32 v : zlen (PACK32 v) = 4. Proof. done. Qed.
Lemma zlen_PACK64 v : zlen (PACK64 v) = 8. Proof. done. Qed.
#[export] Hint Rewrite zlen_PACK8 zlen_PACK16 zlen_PACK32 zlen_PACK64 : zlen.

(** ** Reading back a packed record *)

Lemma rd_head a m n : n = zlen a -> rd (a ++ m) 0 n = Ok a.
Proof.
  intros ->. apply rd_at. split; [done|]. rewrite zlen_app.
  pose proof (zlen_nonneg m). split; [lia|]. by rewrite drop_0, take_app_length.
Qed.

Lemma rd_all a n : n = zlen a -> rd a 0 n = Ok a.
Proof. rewrite <- (app_nil_r a) at 2. apply rd_head. Qed.

Lemma rd_skip a m o n o' :
  o' = o - zlen a -> zlen a <= o -> rd (a ++ m) o n = rd m o' n.
Proof.
  intros -> H. pose proof (zlen_nonneg a). unfold rd. rewrite zlen_app.
  replace (0 <=? o - zlen a) with true by (symmetry; apply Z.leb_le; lia).
  replace (0 <=? o) with true by (symmetry; apply Z.leb_le; lia).
  replace (o - zlen a + n <=? zlen m) with (o + n <=? zlen a + zlen m).
  2:{ destruct (Z.leb_spec (o + n) (zlen a + zlen m)),
        (Z.leb_spec (o - zlen a + n) (zlen m)); lia || done. }
  rewrite drop_app_ge by (unfold zlen in *; lia).
  replace (Z.to_nat o - length a)%nat with (Z.to_nat (o - zlen a)) by (unfold zlen in *; lia).
  done.
Qed.

Lemma rd_app_in a m o n bs : rd a o n = Ok bs -> rd (a ++ m) o n = Ok bs.
Proof.
  intros (? & ? & ? & ->)%rd_inv. pose proof (zlen_nonneg m).
  rewrite rd_in by (rewrite ?zlen_app; lia). f_equal.
  rewrite drop_app_le by (unfold zlen in *; lia).
  rewrite take_app_le; [done|]. rewrite length_drop. unfold zlen in *. lia.
Qed.

(** Walk to the field at a literal offset of a [PACKn a ++ PACKn b ++ ...]. *)
Ltac rd_field :=
  repeat match goal with
  | |- context [rd (?a ++ ?m) 0 ?n] => rewrite (rd_head a m n) by reflexivity
  | |- context [rd (?a ++ ?m) ?o ?n] =>
      let z := eval lazy in (o - zlen a) in
      rewrite (rd_skip a m o n z) by (first [reflexivity | by vm_compute])
  | |- context [rd ?a 0 ?n] => rewrite (rd_all a n) by reflexivity
  end; cbn [rbind].
