(* ===== verification/Data.v ===== *)
(** * Shared data and constants of src/dat.h

    Keys and values are byte lists: the [nk]/[nv] fields of the C structs
    are the lengths of the lists [k] and [v]. *)
From S2P Require Import Prelude CInt.

(** ** Format constants *)

Definition KiB : Z := 1024.
Definition Lgblk : Z := 14.
Definition Blksz : Z := Z.shiftl 1 Lgblk.
Definition Maxent : Z := 256.
Definition Keymax : Z := Maxent.
Definition Inlmax : Z := 512.
Definition Ptrsz : Z := 24.
Definition Offksz : Z := 17.
Definition Snapsz : Z := 9.
Definition Dlksz : Z := 1 + 8 + 8.
Definition Dlvsz : Z := Ptrsz + Ptrsz.
Definition Dlkvpsz : Z := Dlksz + Dlvsz.
Definition Treesz : Z := 4 + 4 + 4 + 4 + 8 + 8 + 8 + 8 + Ptrsz.
Definition Kvmax : Z := Keymax + Inlmax.
Definition Kpmax : Z := Keymax + Ptrsz.
Definition Arenasz : Z := 8 + 8 + 8 + 8.
Definition Pivhdsz : Z := 10.
Definition Leafhdsz : Z := 6.
Definition Loghdsz : Z := 2 + 2 + 8 + Ptrsz.
Definition Bufspc : Z := (Blksz - Pivhdsz) / 2.
Definition Pivspc : Z := Blksz - Pivhdsz - Bufspc.
Definition Logspc : Z := Blksz - Loghdsz.
Definition Logslop : Z := 16 + 16 + 8.
Definition Leafspc : Z := Blksz - Leafhdsz.
Definition Msgmax : Z := 1 + Z.max Kvmax Kpmax.

(** Key tags *)
Definition Kdat : Z := 0.
Definition Kent : Z := 1.
Definition Kup : Z := 2.
Definition Klabel : Z := 3.
Definition Ksnap : Z := 4.
Definition Kdlist : Z := 5.

(** Label flags *)
Definition Lmut : Z := 1.
Definition Lauto : Z := 2.
Definition Ltsnap : Z := 4.

(** Block types *)
Definition Tdat : Z := 0.
Definition Tpivot : Z := 1.
Definition Tleaf : Z := 2.
Definition Tlog : Z := 3.
Definition Tdlist : Z := 4.
Definition Tarena : Z := 5.
Definition Tsuper : Z := 0x6765.

(** Flags of [getblk] *)
Definition GBraw : Z := 1.
Definition GBwrite : Z := 2.
Definition GBnochk : Z := 4.
Definition GBsoftchk : Z := 8.

(** Message operations *)
Definition Onop : Z := 0.
Definition Oinsert : Z := 1.
Definition Odelete : Z := 2.
Definition Oclearb : Z := 3.
Definition Oclobber : Z := 4.
Definition Owstat : Z := 5.
Definition Orelink : Z := 6.
Definition Oreprev : Z := 7.
Definition Nmsgtype : Z := 8.

(** Wstat flags *)
Definition Owsize : Z := 1.
Definition Owmode : Z := 2.
Definition Owmtime : Z := 4.
Definition Owatime : Z := 8.
Definition Owuid : Z := 16.
Definition Owgid : Z := 32.
Definition Owmuid : Z := 64.

(** Allocation log operations *)
Definition LogNop : Z := 0.
Definition LogAlloc1 : Z := 1.
Definition LogFree1 : Z := 2.
Definition LogSync : Z := 3.
Definition LogAlloc : Z := 4.
Definition LogFree : Z := 5.
Definition Log2wide : Z := LogAlloc.

(** ** Records *)

Record Bptr := mkBptr { bp_addr : Z; bp_hash : Z; bp_gen : Z }.

Record Kvp := mkKvp { kv_k : list Z; kv_v : list Z }.

Record Msg := mkMsg { m_op : Z; m_k : list Z; m_v : list Z }.

Definition kv_of_msg (m : Msg) : Kvp := mkKvp (m_k m) (m_v m).

#[export] Instance Bptr_eq_dec : EqDecision Bptr.
Proof. solve_decision. Defined.
#[export] Instance Kvp_eq_dec : EqDecision Kvp.
Proof. solve_decision. Defined.
#[export] Instance Msg_eq_dec : EqDecision Msg.
Proof. solve_decision. Defined.

Record Qid := mkQid { q_path : Z; q_vers : Z; q_type : Z }.

(** [Xdir]; the name is the byte string without its terminator. *)
Record Xdir := mkXdir {
  d_flag : Z;
  d_qid : Qid;
  d_mode : Z;
  d_atime : Z;
  d_mtime : Z;
  d_length : Z;
  d_uid : Z;
  d_gid : Z;
  d_muid : Z;
  d_name : list Z }.

(** [Tree]: the fields used by the modelled code; [t_snap] is the test
    [t == &fs->snap]. *)
Record Tree := mkTree {
  t_snap : bool;
  t_memref : Z;
  t_memgen : Z;
  t_dirty : Z;
  t_nref : Z;
  t_nlbl : Z;
  t_ht : Z;
  t_flag : Z;
  t_bp : Bptr;
  t_gen : Z;
  t_pred : Z;
  t_succ : Z;
  t_base : Z }.

(** [-1] in the unsigned [hash], and [Zb]. *)
Definition nohash : Z := 2 ^ 64 - 1.
Definition Zb : Bptr := mkBptr (-1) nohash (-1).

(** A buffer of zeros. *)
Definition zbuf : list Z := replicate (Z.to_nat Blksz) 0.

Lemma zlen_zbuf : zlen zbuf = Blksz.
Proof. unfold zbuf. by rewrite zlen_replicate, Z2Nat.id. Qed.

(** An empty tree, for examples. *)
Definition tree0 : Tree := mkTree false 0 0 0 1 1 1 0 (mkBptr 0 0 0) 0 0 0 0.
