(* ===== verification/Keys.v ===== *)
(** * Keys: comparison and the message sort (src/tree.c)

    [keycmp] orders keys by their bytes and then by their length; it is a
    total order on byte strings.  [stablesort] is the insertion sort that
    [btupsert] runs on a batch of messages: it must keep messages with equal
    keys in the order the caller gave them. *)
From S2P Require Import Prelude CInt Mem Data.

(** ** Comparison *)

(** [memcmp] on the first [n] bytes of two buffers that have them. *)
Fixpoint memcmp (a b : list Z) (n : nat) : Z :=
  match n, a, b with
  | S n', x :: a', y :: b' => if x =? y then memcmp a' b' n' else if x <? y then -1 else 1
  | _, _, _ => 0
  end.

Definition keycmp (a b : list Z) : Z :=
  let n := if zlen a <? zlen b then length a else length b in
  let c := memcmp a b n in
  if negb (c =? 0) then (if c <? 0 then -1 else 1)
  else if zlen a <? zlen b then -1
  else if zlen b <? zlen a then 1
  else 0.

Definition klt (a b : list Z) : Prop := keycmp a b = -1.
Definition kle (a b : list Z) : Prop := keycmp a b <= 0.

(** The lexicographic comparison, the reference of [keycmp]. *)
Fixpoint lexcmp (a b : list Z) : Z :=
  match a, b with
  | [], [] => 0
  | [], _ :: _ => -1
  | _ :: _, [] => 1
  | x :: a', y :: b' => if x =? y then lexcmp a' b' else if x <? y then -1 else 1
  end.

Lemma keycmp_lex a b : keycmp a b = lexcmp a b.
Proof.
  revert b. induction a as [|x a IH]; intros [|y b]; try done.
  specialize (IH b). unfold keycmp in *. rewrite !zlen_cons.
  assert (Hb : (1 + zlen a <? 1 + zlen b) = (zlen a <? zlen b)).
  { destruct (Z.ltb_spec (zlen a) (zlen b)), (Z.ltb_spec (1 + zlen a) (1 + zlen b)); lia || done. }
  assert (Hb' : (1 + zlen b <? 1 + zlen a) = (zlen b <? zlen a)).
  { destruct (Z.ltb_spec (zlen b) (zlen a)), (Z.ltb_spec (1 + zlen b) (1 + zlen a)); lia || done. }
  rewrite Hb, Hb'. simpl.
  destruct (zlen a <? zlen b); simpl; destruct (x =? y); try exact IH;
    destruct (x <? y); done.
Qed.

Lemma lexcmp_cases a b : lexcmp a b = -1 \/ lexcmp a b = 0 \/ lexcmp a b = 1.
Proof.
  revert b. induction a as [|x a IH]; intros [|y b]; simpl; auto.
  destruct (x =? y); [apply IH|]. destruct (x <? y); auto.
Qed.

Lemma lexcmp_eq a b : lexcmp a b = 0 <-> a = b.
Proof.
  revert b. induction a as [|x a IH]; intros [|y b]; simpl; try done.
  destruct (Z.eqb_spec x y) as [->|Hne].
  - rewrite IH. split; [by intros ->|by intros [= ->]].
  - destruct (x <? y); split; try discriminate; congruence.
Qed.

Lemma lexcmp_antisym a b : lexcmp b a = - lexcmp a b.
Proof.
  revert b. induction a as [|x a IH]; intros [|y b]; simpl; try done.
  rewrite (Z.eqb_sym y x). destruct (Z.eqb_spec x y) as [->|Hne]; [apply IH|].
  destruct (Z.ltb_spec x y), (Z.ltb_spec y x); lia.
Qed.

Lemma lexcmp_trans a b c : lexcmp a b = -1 -> lexcmp b c = -1 -> lexcmp a c = -1.
Proof.
  revert b c. induction a as [|x a IH]; intros [|y b] [|z c]; simpl; try done.
  destruct (Z.eqb_spec x y) as [->|], (Z.eqb_spec y z) as [->|]; intros H1 H2.
  - rewrite ?Z.eqb_refl. eauto.
  - destruct (Z.eqb_spec y z); [done|]. done.
  - destruct (Z.eqb_spec x z); [done|]. done.
  - destruct (Z.ltb_spec x y); [|done]. destruct (Z.ltb_spec y z); [|done].
    destruct (Z.eqb_spec x z); [lia|]. destruct (Z.ltb_spec x z); [done|lia].
Qed.

Lemma keycmp_cases a b : keycmp a b = -1 \/ keycmp a b = 0 \/ keycmp a b = 1.
Proof. rewrite keycmp_lex. apply lexcmp_cases. Qed.
Lemma keycmp_eq a b : keycmp a b = 0 <-> a = b.
Proof. rewrite keycmp_lex. apply lexcmp_eq. Qed.
Lemma keycmp_refl a : keycmp a a = 0.
Proof. by apply keycmp_eq. Qed.
Lemma keycmp_antisym a b : keycmp b a = - keycmp a b.
Proof. rewrite !keycmp_lex. apply lexcmp_antisym. Qed.
Lemma keycmp_gt a b : keycmp a b = 1 <-> klt b a.
Proof. unfold klt. rewrite (keycmp_antisym a b). lia. Qed.

#[export] Instance klt_strict : StrictOrder klt.
Proof.
  split.
  - intros a H. unfold klt in H. by rewrite keycmp_refl in H.
  - intros a b c. unfold klt. rewrite !keycmp_lex. apply lexcmp_trans.
Qed.

Lemma kle_lt_eq a b : kle a b <-> klt a b \/ a = b.
Proof.
  unfold kle, klt. rewrite <- keycmp_eq.
  destruct (keycmp_cases a b) as [->|[->| ->]]; lia.
Qed.

#[export] Instance kle_preorder : PreOrder kle.
Proof.
  split.
  - intros a. apply kle_lt_eq. by right.
  - intros a b c. rewrite !kle_lt_eq. intros [H1| ->] [H2| ->]; eauto.
    left. by etrans.
Qed.

Lemma kle_antisym a b : kle a b -> kle b a -> a = b.
Proof.
  unfold kle. rewrite (keycmp_antisym a b), <- (keycmp_eq a b). lia.
Qed.

Lemma klt_kle a b : klt a b -> kle a b.
Proof. rewrite kle_lt_eq. auto. Qed.
Lemma klt_irrefl a : ~ klt a a.
Proof. apply irreflexivity. apply klt_strict. Qed.
Lemma klt_trans a b c : klt a b -> klt b c -> klt a c.
Proof. apply transitivity. Qed.
Lemma kle_klt_trans a b c : kle a b -> klt b c -> klt a c.
Proof. rewrite kle_lt_eq. intros [H| ->]; eauto using klt_trans. Qed.
Lemma klt_kle_trans a b c : klt a b -> kle b c -> klt a c.
Proof. rewrite kle_lt_eq. intros H [H'| ->]; eauto using klt_trans. Qed.
Lemma not_klt a b : ~ klt a b <-> kle b a.
Proof.
  unfold klt, kle. rewrite (keycmp_antisym a b).
  destruct (keycmp_cases a b) as [->|[->| ->]]; lia.
Qed.
Lemma klt_not_kle a b : klt a b -> ~ kle b a.
Proof. intros H H'. eapply klt_irrefl, klt_kle_trans; eauto. Qed.

#[export] Hint Resolve klt_kle klt_trans kle_klt_trans klt_kle_trans keycmp_refl : gefs.

Inductive keycmp_spec (a b : list Z) : Z -> Prop :=
  | keycmp_is_lt : klt a b -> keycmp_spec a b (-1)
  | keycmp_is_eq : a = b -> keycmp_spec a b 0
  | keycmp_is_gt : klt b a -> keycmp_spec a b 1.

(** The three-way case analysis of the [switch(keycmp(..))]s. *)
Lemma keycmpP a b : keycmp_spec a b (keycmp a b).
Proof.
  destruct (keycmp_cases a b) as [H|[H|H]]; rewrite H; constructor.
  - done.
  - by apply keycmp_eq.
  - by apply keycmp_gt.
Qed.

(** ** The stable insertion sort of a message batch *)

(** The inner loop, from index [j] down to 1. *)
Fixpoint sift (m : list Msg) (j : nat) : list Msg :=
  match j with
  | O => m
  | S j' =>
      match m !! j', m !! j with
      | Some a, Some b =>
          if keycmp (m_k a) (m_k b) <=? 0 then m
          else sift (<[j' := b]> (<[j := a]> m)) j'
      | _, _ => m
      end
  end.

(** [for(i = 1; i < nm; i++)] *)
Definition stablesort (m : list Msg) : list Msg :=
  foldl sift m (seq 1 (length m - 1)).

Definition mkle (a b : Msg) : Prop := kle (m_k a) (m_k b).

#[export] Instance mkle_preorder : PreOrder mkle.
Proof. split; intros a *; unfold mkle; [reflexivity|]. intros; by etrans. Qed.

(** Messages with a given key, in order. *)
Definition with_key (k : list Z) (l : list Msg) : list Msg :=
  filter (fun m => m_k m = k) l.

Lemma mkle_total a b : ~ mkle a b -> mkle b a.
Proof.
  unfold mkle. intros H. apply klt_kle. 
  destruct (keycmpP (m_k b) (m_k a)) as [| |H']; [done|..]; exfalso; apply H.
  - by rewrite kle_lt_eq; right.
  - by apply klt_kle.
Qed.

Lemma with_key_app k l l' : with_key k (l ++ l') = with_key k l ++ with_key k l'.
Proof. apply filter_app. Qed.

(** Moving the last message of a sorted prefix to its place. *)
Lemma sift_spec l x r :
  StronglySorted mkle l ->
  exists l', sift (l ++ x :: r) (length l) = l' ++ r /\
    Permutation l' (l ++ [x]) /\ StronglySorted mkle l' /\
    (forall k, with_key k l' = with_key k (l ++ [x])).
Proof.
  revert x r. induction l as [|a l IH] using rev_ind; intros x r Hs.
  { exists [x]. repeat split; try done. by repeat constructor. }
  rewrite length_app, Nat.add_1_r. cbn [sift].
  rewrite <- app_assoc. cbn [app].
  rewrite (list_lookup_middle l (x :: r) a (length l)) by done.
  rewrite (lookup_app_r l) by lia.
  replace (S (length l) - length l)%nat with 1%nat by lia. cbn [lookup list_lookup].
  pose proof Hs as Hs'. apply StronglySorted_app in Hs' as (Hla & Hsl & _).
  destruct (Z.leb_spec (keycmp (m_k a) (m_k x)) 0) as [Hle|Hgt].
  - exists ((l ++ [a]) ++ [x]). split; [by rewrite <- !app_assoc|].
    split; [done|]. split; [|done].
    apply StronglySorted_app. split; [|split; [done|by repeat constructor]].
    intros y z Hy Hz%list_elem_of_singleton. subst z.
    apply elem_of_app in Hy as [Hy|Hy%list_elem_of_singleton].
    + etrans; [|exact Hle]. eapply Hla; [done|]. by apply list_elem_of_singleton.
    + by subst y.
  - rewrite insert_app_r_alt by lia.
    replace (S (length l) - length l)%nat with 1%nat by lia.
    rewrite insert_app_r_alt by lia. rewrite Nat.sub_diag. cbn [insert list_insert].
    destruct (IH x (a :: r) Hsl) as (l' & E & HP & HS & HF).
    exists (l' ++ [a]). split; [by rewrite <- app_assoc|].
    assert (Hxa : klt (m_k x) (m_k a)).
    { destruct (keycmpP (m_k a) (m_k x)); lia || done. }
    split; [|split].
    + rewrite HP, <- !app_assoc. apply Permutation_app_head. apply perm_swap.
    + apply StronglySorted_app. split; [|split; [done|by repeat constructor]].
      intros y z Hy Hz%list_elem_of_singleton. subst z.
      rewrite HP in Hy. apply elem_of_app in Hy as [Hy|Hy%list_elem_of_singleton].
      * eapply Hla; [done|]. by apply list_elem_of_singleton.
      * subst y. by apply klt_kle.
    + intros k. rewrite !with_key_app, HF, with_key_app, <- !app_assoc. f_equal.
      unfold with_key. rewrite !filter_cons, !filter_nil.
      destruct (decide (m_k x = k)) as [<-|]; [|by rewrite app_nil_r].
      rewrite decide_False; [done|]. intros Hax. rewrite Hax in Hxa. by eapply klt_irrefl.
Qed.

Lemma foldl_sift n l r :
  StronglySorted mkle l -> length r = n ->
  exists l', foldl sift (l ++ r) (seq (length l) n) = l' /\
    Permutation l' (l ++ r) /\ StronglySorted mkle l' /\
    (forall k, with_key k l' = with_key k (l ++ r)).
Proof.
  revert l r. induction n as [|n IH]; intros l r Hs Hr.
  { destruct r; [|done]. rewrite app_nil_r. by exists l. }
  destruct r as [|x r]; [done|]. injection Hr as Hr. cbn [seq foldl].
  destruct (sift_spec l x r Hs) as (l1 & -> & HP & HS & HF).
  assert (Hl1 : length l1 = S (length l)).
  { rewrite (Permutation_length HP), length_app. simpl. lia. }
  destruct (IH l1 r HS Hr) as (l2 & E & HP2 & HS2 & HF2).
  rewrite Hl1 in E. exists l2. split; [done|]. split; [|split; [done|]].
  - rewrite HP2, HP, <- app_assoc. done.
  - intros k. rewrite HF2, !with_key_app, HF, with_key_app, <- app_assoc.
    by rewrite <- with_key_app.
Qed.

Lemma stablesort_aux m :
  Permutation (stablesort m) m /\ StronglySorted mkle (stablesort m) /\
  (forall k, with_key k (stablesort m) = with_key k m).
Proof.
  unfold stablesort. destruct m as [|x m]; [repeat split; constructor|].
  cbn [length]. rewrite Nat.sub_succ, Nat.sub_0_r.
  destruct (foldl_sift (length m) [x] m) as (l' & E & HP & HS & HF);
    [by repeat constructor|done|].
  cbn [app length] in *. rewrite E. auto.
Qed.

Lemma stablesort_perm m : Permutation (stablesort m) m.
Proof. apply stablesort_aux. Qed.
Lemma stablesort_sorted m : StronglySorted mkle (stablesort m).
Proof. apply stablesort_aux. Qed.
Lemma stablesort_with_key m k : with_key k (stablesort m) = with_key k m.
Proof. apply stablesort_aux. Qed.
Lemma stablesort_length m : length (stablesort m) = length m.
Proof. apply Permutation_length, stablesort_perm. Qed.

(** ** Theorems *)

(** [keycmp] is the lexicographic order on byte strings, a total order:
    it is 0 only on equal keys, swapping the arguments changes the sign, and
    "before" is transitive. *)
Theorem keycmp_total_order a b c :
  keycmp a b = lexcmp a b /\ (keycmp a b = 0 <-> a = b) /\ keycmp b a = - keycmp a b /\
  keycmp a b ∈ [-1; 0; 1] /\ (keycmp a b = -1 -> keycmp b c = -1 -> keycmp a c = -1).
Proof.
  split; [apply keycmp_lex|]. split; [apply keycmp_eq|]. split; [apply keycmp_antisym|].
  split; [|apply klt_trans]. destruct (keycmp_cases a b) as [->|[->| ->]]; set_solver.
Qed.

(** [stablesort] sorts a batch of messages by key and is stable: the
    result is a permutation, it is sorted, and the messages of each key keep
    the order in which the caller gave them. *)
Theorem stablesort_stable m :
  Permutation (stablesort m) m /\ StronglySorted mkle (stablesort m) /\
  forall k, with_key k (stablesort m) = with_key k m.
Proof. apply stablesort_aux. Qed.
