(* ===== verification/Hash.v ===== *)
(** * Block and buffer hashes (src/hash.c)

    MetroHash64 as both programs of the repository compute it:
    [metrohash64_1] of src/hash.c and [metrohash64] of src/gefs_storage.c.
    The loads go through native pointers; the model is that of a
    little-endian host.  Every load is bounds checked by [rd], so the
    theorems of this file say that the hash of a buffer reads only that
    buffer. *)
From S2P Require Import Prelude CInt Mem Data.

Definition le_comb (l : list Z) : Z := foldr (fun b a => b + 256 * a) 0 l.

Definition read_u64 (key : list Z) (ptr : Z) : res Z :=
  let! p := rd key ptr 8 in Ok (le_comb p).
Definition read_u32 (key : list Z) (ptr : Z) : res Z :=
  let! p := rd key ptr 4 in Ok (le_comb p).
Definition read_u16 (key : list Z) (ptr : Z) : res Z :=
  let! p := rd key ptr 2 in Ok (le_comb p).
Definition read_u8 (key : list Z) (ptr : Z) : res Z :=
  let! p := rd key ptr 1 in Ok (le_comb p).

Definition k0 : Z := 0xC83A91E1.
Definition k1 : Z := 0x8648DBDB.
Definition k2 : Z := 0x7BDEC03B.
Definition k3 : Z := 0x2F5870A5.

(** 64-bit wrap-around arithmetic *)
Definition add64 (a b : Z) : Z := u64 (a + b).
Definition mul64 (a b : Z) : Z := u64 (a * b).

Definition rotate_right (v k : Z) : Z :=
  u64 (Z.lor (Z.shiftr v k) (Z.shiftl v (64 - k))).

(** The four lanes [v[0..3]]. *)
Definition lanes : Type := (Z * Z * Z * Z)%type.

(** ** src/hash.c *)

(** [do { ... } while(ptr <= (end - 32))] *)
Fixpoint metro_bulk (fuel : nat) (key : list Z) (len ptr : Z) (v : lanes) : res (Z * lanes) :=
  match fuel with
  | O => Err Efuel
  | S fuel' =>
      let '(v0, v1, v2, v3) := v in
      let! x0 := read_u64 key ptr in
      let v0 := add64 (rotate_right (add64 v0 (mul64 x0 k0)) 29) v2 in
      let! x1 := read_u64 key (ptr + 8) in
      let v1 := add64 (rotate_right (add64 v1 (mul64 x1 k1)) 29) v3 in
      let! x2 := read_u64 key (ptr + 16) in
      let v2 := add64 (rotate_right (add64 v2 (mul64 x2 k2)) 29) v0 in
      let! x3 := read_u64 key (ptr + 24) in
      let v3 := add64 (rotate_right (add64 v3 (mul64 x3 k3)) 29) v1 in
      let ptr := ptr + 32 in
      if ptr <=? len - 32 then metro_bulk fuel' key len ptr (v0, v1, v2, v3)
      else Ok (ptr, (v0, v1, v2, v3))
  end.

(** The mixing of the lanes after the loop. *)
Definition metro_lanes (hash : Z) (v : lanes) : Z :=
  let '(v0, v1, v2, v3) := v in
  let v2 := Z.lxor v2 (mul64 (rotate_right (add64 (mul64 (add64 v0 v3) k0) v1) 33) k1) in
  let v3 := Z.lxor v3 (mul64 (rotate_right (add64 (mul64 (add64 v1 v2) k1) v0) 33) k0) in
  let v0 := Z.lxor v0 (mul64 (rotate_right (add64 (mul64 (add64 v0 v2) k0) v3) 33) k1) in
  let v1 := Z.lxor v1 (mul64 (rotate_right (add64 (mul64 (add64 v1 v3) k1) v2) 33) k0) in
  add64 hash (Z.lxor v0 v1).

Definition metro_tail16 (key : list Z) (len ptr hash : Z) : res (Z * Z) :=
  if 16 <=? len - ptr then
    let! x0 := read_u64 key ptr in
    let v0 := mul64 (rotate_right (add64 hash (mul64 x0 k0)) 33) k1 in
    let! x1 := read_u64 key (ptr + 8) in
    let v1 := mul64 (rotate_right (add64 hash (mul64 x1 k1)) 33) k2 in
    let v0 := Z.lxor v0 (add64 (rotate_right (mul64 v0 k0) 35) v1) in
    let v1 := Z.lxor v1 (add64 (rotate_right (mul64 v1 k3) 35) v0) in
    Ok (ptr + 16, add64 hash v1)
  else Ok (ptr, hash).

Definition metro_tail8 (key : list Z) (len ptr hash : Z) : res (Z * Z) :=
  if 8 <=? len - ptr then
    let! x := read_u64 key ptr in
    let hash := add64 hash (mul64 x k3) in
    Ok (ptr + 8, Z.lxor hash (mul64 (rotate_right hash 33) k1))
  else Ok (ptr, hash).

Definition metro_tail4 (key : list Z) (len ptr hash : Z) : res (Z * Z) :=
  if 4 <=? len - ptr then
    let! x := read_u32 key ptr in
    let hash := add64 hash (mul64 x k3) in
    Ok (ptr + 4, Z.lxor hash (mul64 (rotate_right hash 15) k1))
  else Ok (ptr, hash).

Definition metro_tail2 (key : list Z) (len ptr hash : Z) : res (Z * Z) :=
  if 2 <=? len - ptr then
    let! x := read_u16 key ptr in
    let hash := add64 hash (mul64 x k3) in
    Ok (ptr + 2, Z.lxor hash (mul64 (rotate_right hash 13) k1))
  else Ok (ptr, hash).

Definition metro_tail1 (key : list Z) (len ptr hash : Z) : res Z :=
  if 1 <=? len - ptr then
    let! x := read_u8 key ptr in
    let hash := add64 hash (mul64 x k3) in
    Ok (Z.lxor hash (mul64 (rotate_right hash 25) k1))
  else Ok hash.

Definition metrohash64_1 (key : list Z) (len seed : Z) : res Z :=
  let hash := add64 (mul64 (add64 seed k2) k0) len in
  let! (ptr, hash) :=
    if 32 <=? len then
      let! (ptr, v) := metro_bulk (Z.to_nat (len / 32)) key len 0 (hash, hash, hash, hash) in
      Ok (ptr, metro_lanes hash v)
    else Ok (0, hash) in
  let! (ptr, hash) := metro_tail16 key len ptr hash in
  let! (ptr, hash) := metro_tail8 key len ptr hash in
  let! (ptr, hash) := metro_tail4 key len ptr hash in
  let! (ptr, hash) := metro_tail2 key len ptr hash in
  let! hash := metro_tail1 key len ptr hash in
  let hash := Z.lxor hash (rotate_right hash 33) in
  let hash := mul64 hash k0 in
  Ok (Z.lxor hash (rotate_right hash 33)).

Definition bufhash (src : list Z) (len : Z) : res Z := metrohash64_1 src len 0x6765.

(** [blkhash(b)] hashes the whole of [b->buf]. *)
Definition blkhash (buf : list Z) : res Z := metrohash64_1 buf Blksz 0x6765.

(** [ihash], the hash of block addresses and deadlist generations. *)
Definition ihash (x : Z) : Z :=
  let x := mul64 (Z.lxor x (Z.shiftr x 30)) 0xbf58476d1ce4e5b9 in
  let x := mul64 (Z.lxor x (Z.shiftr x 27)) 0x94d049bb133111eb in
  let x := Z.lxor x (Z.shiftr x 31) in
  u32 x.

(** ** src/gefs_storage.c *)

Definition ROTATE (x b : Z) : Z :=
  u64 (Z.lor (Z.shiftl x b) (Z.shiftr x (64 - b))).

Fixpoint pmetro_bulk (fuel : nat) (key : list Z) (len ptr : Z) (v : lanes) : res (Z * lanes) :=
  match fuel with
  | O => Err Efuel
  | S fuel' =>
      let '(v0, v1, v2, v3) := v in
      let! x0 := read_u64 key ptr in
      let v0 := add64 (ROTATE (add64 v0 (mul64 x0 k0)) 29) v2 in
      let! x1 := read_u64 key (ptr + 8) in
      let v1 := add64 (ROTATE (add64 v1 (mul64 x1 k1)) 29) v3 in
      let! x2 := read_u64 key (ptr + 16) in
      let v2 := add64 (ROTATE (add64 v2 (mul64 x2 k2)) 29) v0 in
      let! x3 := read_u64 key (ptr + 24) in
      let v3 := add64 (ROTATE (add64 v3 (mul64 x3 k3)) 29) v1 in
      let ptr := ptr + 32 in
      if ptr <=? len - 32 then pmetro_bulk fuel' key len ptr (v0, v1, v2, v3)
      else Ok (ptr, (v0, v1, v2, v3))
  end.

Definition pmetro_lanes (hash : Z) (v : lanes) : Z :=
  let '(v0, v1, v2, v3) := v in
  let v2 := Z.lxor v2 (mul64 (ROTATE (add64 (mul64 (add64 v0 v3) k0) v1) 37) k1) in
  let v3 := Z.lxor v3 (mul64 (ROTATE (add64 (mul64 (add64 v1 v2) k1) v0) 37) k0) in
  let v0 := Z.lxor v0 (mul64 (ROTATE (add64 (mul64 (add64 v0 v2) k0) v3) 37) k1) in
  let v1 := Z.lxor v1 (mul64 (ROTATE (add64 (mul64 (add64 v1 v3) k1) v2) 37) k0) in
  add64 hash (Z.lxor v0 v1).

Definition pmetro_tail16 (key : list Z) (len ptr hash : Z) : res (Z * Z) :=
  if 16 <=? len - ptr then
    let! x0 := read_u64 key ptr in
    let v0 := mul64 (ROTATE (add64 hash (mul64 x0 k2)) 29) k3 in
    let! x1 := read_u64 key (ptr + 8) in
    let v1 := mul64 (ROTATE (add64 hash (mul64 x1 k2)) 29) k3 in
    let v0 := Z.lxor v0 (mul64 (ROTATE (mul64 v0 k2) 37) k3) in
    Ok (ptr + 16, add64 hash (Z.lxor v0 v1))
  else Ok (ptr, hash).

(** The four remaining tails differ only in the load and the rotation. *)
Definition pmetro_tail (n r : Z) (key : list Z) (len ptr hash : Z) : res (Z * Z) :=
  if n <=? len - ptr then
    let! p := rd key ptr n in
    let hash := add64 hash (mul64 (le_comb p) k3) in
    Ok (ptr + n, Z.lxor hash (mul64 (ROTATE hash r) k1))
  else Ok (ptr, hash).

Definition metrohash64 (key : list Z) (len seed : Z) : res Z :=
  let hash := add64 (mul64 (add64 seed k2) k0) len in
  let! (ptr, hash) :=
    if 32 <=? len then
      let! (ptr, v) := pmetro_bulk (Z.to_nat (len / 32)) key len 0 (hash, hash, hash, hash) in
      Ok (ptr, pmetro_lanes hash v)
    else Ok (0, hash) in
  let! (ptr, hash) := pmetro_tail16 key len ptr hash in
  let! (ptr, hash) := pmetro_tail 8 55 key len ptr hash in
  let! (ptr, hash) := pmetro_tail 4 26 key len ptr hash in
  let! (ptr, hash) := pmetro_tail 2 48 key len ptr hash in
  let! (ptr, hash) := pmetro_tail 1 37 key len ptr hash in
  let hash := Z.lxor hash (ROTATE hash 28) in
  let hash := mul64 hash k0 in
  Ok (Z.lxor hash (ROTATE hash 29)).

Definition gefs_bufhash (src : list Z) (len : Z) : res Z := metrohash64 src len 0x6765.

(** ** The loads stay inside the buffer and the loops end *)

Lemma read_rd_ok key ptr n :
  0 <= ptr -> 0 <= n -> ptr + n <= zlen key -> exists p, rd key ptr n = Ok p.
Proof. intros. destruct (rd_ok key ptr n) as (p & E & _); eauto. Qed.

(** Discharge the next load of the goal. *)
Ltac load_ok :=
  match goal with
  | |- context [rd ?k ?o ?n] =>
      let p := fresh "p" in let E := fresh "E" in
      destruct (read_rd_ok k o n) as [p E]; [lia|lia|lia|rewrite E; cbn [rbind]]
  end.

Lemma metro_bulk_ok fuel key ptr v :
  0 <= ptr -> ptr + 32 <= zlen key -> (Z.to_nat ((zlen key - ptr) / 32) <= fuel)%nat ->
  exists ptr' v', metro_bulk fuel key (zlen key) ptr v = Ok (ptr', v') /\
    zlen key - 32 < ptr' <= zlen key.
Proof.
  revert ptr v. induction fuel as [|fuel IH]; intros ptr [[[v0 v1] v2] v3] H0 H1 Hf.
  { pose proof (Z.div_le_lower_bound (zlen key - ptr) 32 1). lia. }
  cbn [metro_bulk]. unfold read_u64. do 4 load_ok.
  destruct (Z.leb_spec (ptr + 32) (zlen key - 32)).
  - apply IH; [lia..|].
    replace (zlen key - (ptr + 32)) with (zlen key - ptr + (-1) * 32) by lia.
    rewrite Z.div_add by lia. lia.
  - do 2 eexists. split; [done|lia].
Qed.

Lemma pmetro_bulk_ok fuel key ptr v :
  0 <= ptr -> ptr + 32 <= zlen key -> (Z.to_nat ((zlen key - ptr) / 32) <= fuel)%nat ->
  exists ptr' v', pmetro_bulk fuel key (zlen key) ptr v = Ok (ptr', v') /\
    zlen key - 32 < ptr' <= zlen key.
Proof.
  revert ptr v. induction fuel as [|fuel IH]; intros ptr [[[v0 v1] v2] v3] H0 H1 Hf.
  { pose proof (Z.div_le_lower_bound (zlen key - ptr) 32 1). lia. }
  cbn [pmetro_bulk]. unfold read_u64. do 4 load_ok.
  destruct (Z.leb_spec (ptr + 32) (zlen key - 32)).
  - apply IH; [lia..|].
    replace (zlen key - (ptr + 32)) with (zlen key - ptr + (-1) * 32) by lia.
    rewrite Z.div_add by lia. lia.
  - do 2 eexists. split; [done|lia].
Qed.

(** A tail stage of either hash: it leaves [ptr] inside the buffer. *)
Ltac tail_ok :=
  intros; unfold metro_tail16, metro_tail8, metro_tail4, metro_tail2, metro_tail1,
    pmetro_tail16, pmetro_tail, read_u64, read_u32, read_u16, read_u8;
  match goal with |- context [?n <=? ?x] => destruct (Z.leb_spec n x) end;
  [repeat load_ok; repeat eexists; lia | repeat eexists; lia].

Lemma metro_tail16_ok key ptr h : 0 <= ptr <= zlen key ->
  exists p' h', metro_tail16 key (zlen key) ptr h = Ok (p', h') /\ 0 <= p' <= zlen key.
Proof. tail_ok. Qed.
Lemma metro_tail8_ok key ptr h : 0 <= ptr <= zlen key ->
  exists p' h', metro_tail8 key (zlen key) ptr h = Ok (p', h') /\ 0 <= p' <= zlen key.
Proof. tail_ok. Qed.
Lemma metro_tail4_ok key ptr h : 0 <= ptr <= zlen key ->
  exists p' h', metro_tail4 key (zlen key) ptr h = Ok (p', h') /\ 0 <= p' <= zlen key.
Proof. tail_ok. Qed.
Lemma metro_tail2_ok key ptr h : 0 <= ptr <= zlen key ->
  exists p' h', metro_tail2 key (zlen key) ptr h = Ok (p', h') /\ 0 <= p' <= zlen key.
Proof. tail_ok. Qed.
Lemma metro_tail1_ok key ptr h : 0 <= ptr <= zlen key ->
  exists h', metro_tail1 key (zlen key) ptr h = Ok h' /\ 0 <= ptr.
Proof. tail_ok. Qed.
Lemma pmetro_tail16_ok key ptr h : 0 <= ptr <= zlen key ->
  exists p' h', pmetro_tail16 key (zlen key) ptr h = Ok (p', h') /\ 0 <= p' <= zlen key.
Proof. tail_ok. Qed.
Lemma pmetro_tail_ok n r key ptr h : 0 <= n -> 0 <= ptr <= zlen key ->
  exists p' h', pmetro_tail n r key (zlen key) ptr h = Ok (p', h') /\ 0 <= p' <= zlen key.
Proof. tail_ok. Qed.

Lemma lxor_u64_range a b :
  0 <= a < 2 ^ 64 -> 0 <= b < 2 ^ 64 -> 0 <= Z.lxor a b < 2 ^ 64.
Proof.
  intros Ha Hb. split; [apply Z.lxor_nonneg; lia|].
  destruct (decide (Z.lxor a b = 0)) as [->|Hne]; [lia|].
  assert (0 <= Z.lxor a b) by (apply Z.lxor_nonneg; lia).
  apply Z.log2_lt_pow2; [lia|].
  eapply Z.le_lt_trans; [apply Z.log2_lxor; lia|].
  apply Z.max_lub_lt.
  - destruct (decide (a = 0)) as [->|]; [done|]. apply Z.log2_lt_pow2; lia.
  - destruct (decide (b = 0)) as [->|]; [done|]. apply Z.log2_lt_pow2; lia.
Qed.

Lemma metrohash64_1_aux key seed :
  exists h, metrohash64_1 key (zlen key) seed = Ok h /\ 0 <= h < 2 ^ 64.
Proof.
  unfold metrohash64_1. set (h0 := add64 _ _).
  assert (exists p h, (if 32 <=? zlen key then
      let! (ptr, v) := metro_bulk (Z.to_nat (zlen key / 32)) key (zlen key) 0 (h0, h0, h0, h0) in
      Ok (ptr, metro_lanes h0 v) else Ok (0, h0)) = Ok (p, h) /\ 0 <= p <= zlen key)
    as (p & h & -> & Hp).
  { pose proof (zlen_nonneg key). destruct (Z.leb_spec 32 (zlen key)); [|repeat eexists; lia].
    destruct (metro_bulk_ok (Z.to_nat (zlen key / 32)) key 0 (h0, h0, h0, h0)) as (p & v & -> & ?);
      [lia|lia|by rewrite Z.sub_0_r|]. repeat eexists; lia. }
  cbn [rbind].
  destruct (metro_tail16_ok key p h Hp) as (p1 & h1 & -> & H1). cbn [rbind].
  destruct (metro_tail8_ok key p1 h1 H1) as (p2 & h2 & -> & H2). cbn [rbind].
  destruct (metro_tail4_ok key p2 h2 H2) as (p3 & h3 & -> & H3). cbn [rbind].
  destruct (metro_tail2_ok key p3 h3 H3) as (p4 & h4 & -> & H4). cbn [rbind].
  destruct (metro_tail1_ok key p4 h4 H4) as (h5 & -> & H5). cbn [rbind].
  eexists. split; [done|]. apply lxor_u64_range; apply u64_range.
Qed.

Lemma metrohash64_aux key seed :
  exists h, metrohash64 key (zlen key) seed = Ok h /\ 0 <= h < 2 ^ 64.
Proof.
  unfold metrohash64. set (h0 := add64 _ _).
  assert (exists p h, (if 32 <=? zlen key then
      let! (ptr, v) := pmetro_bulk (Z.to_nat (zlen key / 32)) key (zlen key) 0 (h0, h0, h0, h0) in
      Ok (ptr, pmetro_lanes h0 v) else Ok (0, h0)) = Ok (p, h) /\ 0 <= p <= zlen key)
    as (p & h & -> & Hp).
  { pose proof (zlen_nonneg key). destruct (Z.leb_spec 32 (zlen key)); [|repeat eexists; lia].
    destruct (pmetro_bulk_ok (Z.to_nat (zlen key / 32)) key 0 (h0, h0, h0, h0)) as (p & v & -> & ?);
      [lia|lia|by rewrite Z.sub_0_r|]. repeat eexists; lia. }
  cbn [rbind].
  destruct (pmetro_tail16_ok key p h Hp) as (p1 & h1 & -> & H1). cbn [rbind].
  destruct (pmetro_tail_ok 8 55 key p1 h1 ltac:(lia) H1) as (p2 & h2 & -> & H2). cbn [rbind].
  destruct (pmetro_tail_ok 4 26 key p2 h2 ltac:(lia) H2) as (p3 & h3 & -> & H3). cbn [rbind].
  destruct (pmetro_tail_ok 2 48 key p3 h3 ltac:(lia) H3) as (p4 & h4 & -> & H4). cbn [rbind].
  destruct (pmetro_tail_ok 1 37 key p4 h4 ltac:(lia) H4) as (p5 & h5 & -> & H5). cbn [rbind].
  eexists. split; [done|]. apply lxor_u64_range; apply u64_range.
Qed.

Lemma bufhash_ok src : exists h, bufhash src (zlen src) = Ok h /\ 0 <= h < 2 ^ 64.
Proof. apply metrohash64_1_aux. Qed.

Lemma blkhash_ok buf : zlen buf = Blksz -> exists h, blkhash buf = Ok h /\ 0 <= h < 2 ^ 64.
Proof. intros H. unfold blkhash. rewrite <- H. apply metrohash64_1_aux. Qed.

(** ** Theorems *)

(** Hashing a buffer never reads outside it and always gives a 64-bit
    value, for every length: the bulk loop ends and each tail case stays
    within the bytes that are left. *)
Theorem metrohash64_1_total key seed :
  exists h, metrohash64_1 key (zlen key) seed = Ok h /\ 0 <= h < 2 ^ 64.
Proof. apply metrohash64_1_aux. Qed.

(** The port hashes blocks with another function: on the bytes 1, 2, 3
    [gefs_bufhash] and [bufhash] disagree, so neither side accepts the log
    blocks and superblocks the other writes. *)
Theorem port_hash_differs :
  exists h h', bufhash [1; 2; 3] 3 = Ok h /\ gefs_bufhash [1; 2; 3] 3 = Ok h' /\ h <> h'.
Proof. exists 12350107885685002921, 18208466965522016387. by vm_compute. Qed.
