(* ===== verification/Pack.v ===== *)
(** * Keys and values on disk (src/pack.c)

    A packer returns the bytes it writes at its buffer pointer; [sz] is the
    room behind the pointer.  An unpacker reads the bytes of a key or a
    value at the offsets where the C pointer stands. *)
From S2P Require Import Prelude CInt Mem Data Hash.

(** ** Strings *)

(** The bytes of a C string, up to its terminator. *)
Fixpoint cstr (p : list Z) : list Z :=
  match p with
  | [] => []
  | c :: p' => if c =? 0 then [] else c :: cstr p'
  end.

Definition is_name (s : list Z) : Prop :=
  Forall (fun c => 0 < c < 256) s.

(** The bytes [bs] written into [sz] bytes of room. *)
Definition emit (sz : Z) (bs : list Z) : res (list Z) :=
  if zlen bs <=? sz then Ok bs else Err Eoob.

(** [unpackstr(p, e, &s)]: the string and the bytes after it. *)
Definition unpackstr (p : list Z) : res (list Z * list Z) :=
  assert! 3 <=? zlen p in
  let! n := rd16 p 0 in
  if zlen p <? n + 3 then Err Efs else
  let! t := rd p (n + 2) 1 in
  if negb (UNPACK8 t =? 0) then Err Efs else
  Ok (cstr (drop 2 p), drop (Z.to_nat (3 + n)) p).

Definition packstr (sz : Z) (s : list Z) : res (list Z) :=
  let n := zlen s in
  assert! n + 3 <=? sz in
  Ok (PACK16 n ++ s ++ [0]).

(** ** Directory entries *)

Definition packdkey (sz : Z) (up : Z) (name : option (list Z)) : res (list Z) :=
  let! p := emit sz (PACK8 Kent ++ PACK64 up) in
  match name with
  | None => Ok p
  | Some s => let! q := packstr (sz - 9) s in Ok (p ++ q)
  end.

(** The parent and the name in an entry key. *)
Definition unpackdkey (p : list Z) : res (Z * list Z) :=
  assert! 9 <? zlen p in
  let! key := rd p 0 1 in
  let! up := rd64 p 1 in
  assert! UNPACK8 key =? Kent in
  let! (name, _) := unpackstr (drop 9 p) in
  Ok (s64 up, name).

Definition packsuper (sz : Z) (up : Z) : res (list Z) :=
  emit sz (PACK8 Kup ++ PACK64 up).

(** The bytes of an entry's value. *)
Definition dval_bytes (d : Xdir) : list Z :=
  PACK64 (d_flag d) ++ PACK64 (q_path (d_qid d)) ++ PACK32 (q_vers (d_qid d)) ++
  PACK8 (q_type (d_qid d)) ++ PACK32 (d_mode d) ++ PACK64 (d_atime d) ++
  PACK64 (d_mtime d) ++ PACK64 (d_length d) ++ PACK32 (d_uid d) ++
  PACK32 (d_gid d) ++ PACK32 (d_muid d).

Definition packdval (sz : Z) (d : Xdir) : res (list Z) := emit sz (dval_bytes d).

Definition dir2kv (up : Z) (d : Xdir) (nbuf : Z) : res Kvp :=
  let! k := packdkey nbuf up (Some (d_name d)) in
  let! v := packdval (nbuf - zlen k) d in
  Ok (mkKvp k v).

Definition kv2dir (kv : Kvp) : res Xdir :=
  assert! 9 <=? zlen (kv_k kv) in
  let! (name, rest) := unpackstr (drop 9 (kv_k kv)) in
  let v := kv_v kv in
  let! flag := rd64 v 0 in
  let! path := rd64 v 8 in
  let! vers := rd32 v 16 in
  let! type := rd v 20 1 in
  let! mode := rd32 v 21 in
  let! atime := rd64 v 25 in
  let! mtime := rd64 v 33 in
  let! length := rd64 v 41 in
  let! uid := rd32 v 49 in
  let! gid := rd32 v 53 in
  let! muid := rd32 v 57 in
  if negb (zlen rest =? 0) then Err Efs else
  if negb (zlen v =? 61) then Err Efs else
  Ok (mkXdir flag (mkQid path vers (UNPACK8 type)) mode (s64 atime) (s64 mtime)
        length (s32 uid) (s32 gid) (s32 muid) name).

(** [kv2qid] loads the path and, from the next eight bytes, the version,
    which is a 32-bit field: the low half of the load is kept. *)
Definition kv2qid (kv : Kvp) (q : Qid) : res Qid :=
  let! path := rd64 (kv_v kv) 0 in
  let! vers := rd64 (kv_v kv) 8 in
  Ok (mkQid path (u32 vers) (q_type q)).

(** ** Block pointers *)

Definition bp_bytes (bp : Bptr) : list Z :=
  PACK64 (bp_addr bp) ++ PACK64 (bp_hash bp) ++ PACK64 (bp_gen bp).

Definition packbp (sz : Z) (bp : Bptr) : res (list Z) :=
  assert! Ptrsz <=? sz in Ok (bp_bytes bp).

(** [sz] is the length the caller passes; the bytes come from [p]. *)
Definition unpackbp (p : list Z) (sz : Z) : res Bptr :=
  assert! Ptrsz <=? sz in
  let! addr := rd64 p 0 in
  let! hash := rd64 p 8 in
  let! gen := rd64 p 16 in
  Ok (mkBptr (s64 addr) hash (s64 gen)).

(** ** Deadlists *)

(** The fields of [Dlist] that are stored. *)
Record Dlist := mkDlist { dl_gen : Z; dl_bgen : Z; dl_hd : Bptr; dl_tl : Bptr }.

Definition kv2dlist (kv : Kvp) : res Dlist :=
  let! gen := rd64 (kv_k kv) 1 in
  let! bgen := rd64 (kv_k kv) 9 in
  let! hd := unpackbp (kv_v kv) (zlen (kv_v kv)) in
  let! tl := unpackbp (drop 24 (kv_v kv)) (zlen (kv_v kv) - Ptrsz) in
  Ok (mkDlist (s64 gen) (s64 bgen) hd tl).

Definition dlist2kv (dl : Dlist) (nbuf : Z) : res Kvp :=
  assert! Dlkvpsz <=? nbuf in
  let k := [Kdlist] ++ PACK64 (dl_gen dl) ++ PACK64 (dl_bgen dl) in
  let! hd := packbp (nbuf - zlen k) (dl_hd dl) in
  let! tl := packbp (nbuf - zlen k - zlen hd) (dl_tl dl) in
  Ok (mkKvp k (hd ++ tl)).

(** ** Snapshots and labels *)

Definition packsnap (sz : Z) (id : Z) : res (list Z) :=
  assert! Snapsz <=? sz in Ok ([Ksnap] ++ PACK64 id).

Definition packlbl (sz : Z) (name : list Z) : res (list Z) :=
  assert! zlen name + 1 <=? sz in Ok ([Klabel] ++ name).

Definition unpacktree (p : list Z) (sz : Z) : res Tree :=
  assert! Treesz <=? sz in
  let! nref := rd32 p 0 in
  let! nlbl := rd32 p 4 in
  let! ht := rd32 p 8 in
  let! flag := rd32 p 12 in
  let! gen := rd64 p 16 in
  let! pred := rd64 p 24 in
  let! succ := rd64 p 32 in
  let! base := rd64 p 40 in
  let! addr := rd64 p 48 in
  let! hash := rd64 p 56 in
  let! bgen := rd64 p 64 in
  Ok (mkTree false 0 0 0 (s32 nref) (s32 nlbl) (s32 ht) flag
        (mkBptr (s64 addr) hash (s64 bgen)) (s64 gen) (s64 pred) (s64 succ) (s64 base)).

(** The bytes of a stored tree. *)
Definition tree_bytes (t : Tree) : list Z :=
  PACK32 (t_nref t) ++ PACK32 (t_nlbl t) ++ PACK32 (t_ht t) ++ PACK32 (t_flag t) ++
  PACK64 (t_gen t) ++ PACK64 (t_pred t) ++ PACK64 (t_succ t) ++ PACK64 (t_base t) ++
  PACK64 (bp_addr (t_bp t)) ++ PACK64 (bp_hash (t_bp t)) ++ PACK64 (bp_gen (t_bp t)).

Definition packtree (sz : Z) (t : Tree) : res (list Z) :=
  assert! Treesz <=? sz in Ok (tree_bytes t).

Definition tree2kv (t : Tree) (nbuf : Z) : res Kvp :=
  let! k := packsnap nbuf (t_gen t) in
  let! v := packtree (nbuf - zlen k) t in
  Ok (mkKvp k v).

Definition retag2kv (gen link dlbl dref nbuf : Z) : res Kvp :=
  assert! 8 + 1 + 1 <=? nbuf in
  let! k := packsnap nbuf gen in
  let! v := emit (nbuf - zlen k) (PACK64 link ++ PACK8 dlbl ++ PACK8 dref) in
  Ok (mkKvp k v).

Definition lbl2kv (lbl : list Z) (gen flg nbuf : Z) : res Kvp :=
  let n := zlen lbl in
  assert! 1 + n + 1 + 8 + 4 <=? nbuf in
  Ok (mkKvp ([Klabel] ++ lbl) ([Ksnap] ++ PACK64 gen ++ PACK32 flg)).

(** ** Well-formedness: what fits the C types *)

Definition wf_bptr (bp : Bptr) : Prop :=
  - 2 ^ 63 <= bp_addr bp < 2 ^ 63 /\ 0 <= bp_hash bp < 2 ^ 64 /\
  - 2 ^ 63 <= bp_gen bp < 2 ^ 63.

Definition wf_xdir (d : Xdir) : Prop :=
  0 <= d_flag d < 2 ^ 64 /\ 0 <= q_path (d_qid d) < 2 ^ 64 /\
  0 <= q_vers (d_qid d) < 2 ^ 32 /\ is_byte (q_type (d_qid d)) /\
  0 <= d_mode d < 2 ^ 32 /\
  - 2 ^ 63 <= d_atime d < 2 ^ 63 /\ - 2 ^ 63 <= d_mtime d < 2 ^ 63 /\
  0 <= d_length d < 2 ^ 64 /\
  - 2 ^ 31 <= d_uid d < 2 ^ 31 /\ - 2 ^ 31 <= d_gid d < 2 ^ 31 /\
  - 2 ^ 31 <= d_muid d < 2 ^ 31 /\
  is_name (d_name d) /\ zlen (d_name d) < 2 ^ 16.

Definition wf_tree (t : Tree) : Prop :=
  - 2 ^ 31 <= t_nref t < 2 ^ 31 /\ - 2 ^ 31 <= t_nlbl t < 2 ^ 31 /\
  - 2 ^ 31 <= t_ht t < 2 ^ 31 /\ 0 <= t_flag t < 2 ^ 32 /\ wf_bptr (t_bp t) /\
  - 2 ^ 63 <= t_gen t < 2 ^ 63 /\ - 2 ^ 63 <= t_pred t < 2 ^ 63 /\
  - 2 ^ 63 <= t_succ t < 2 ^ 63 /\ - 2 ^ 63 <= t_base t < 2 ^ 63.

(** A stored tree has no in-memory state. *)
Definition disk_tree (t : Tree) : Tree :=
  mkTree false 0 0 0 (t_nref t) (t_nlbl t) (t_ht t) (t_flag t) (t_bp t)
    (t_gen t) (t_pred t) (t_succ t) (t_base t).

(** ** Round trips *)

Lemma rd64_eq p o : rd64 p o = let! q := rd p o 8 in Ok (UNPACK64 q).
Proof. done. Qed.
Lemma rd32_eq p o : rd32 p o = let! q := rd p o 4 in Ok (UNPACK32 q).
Proof. done. Qed.
Lemma rd16_eq p o : rd16 p o = let! q := rd p o 2 in Ok (UNPACK16 q).
Proof. done. Qed.

(** Read back the fields of a packed record, one after the other. *)
Ltac unpack_fields :=
  rewrite ?rd64_eq, ?rd32_eq, ?rd16_eq; rd_field; autorewrite with unpack.

(** Remove the reductions to the width of a field that fits. *)
Ltac fits :=
  repeat first
    [ rewrite s64_u64 | rewrite s32_u32
    | rewrite s64_small by lia | rewrite s32_small by lia
    | rewrite u64_small by lia | rewrite u32_small by lia
    | rewrite u16_small by lia | rewrite u8_small by (unfold is_byte; lia) ].

Lemma cstr_name s r : is_name s -> cstr (s ++ 0 :: r) = s.
Proof.
  induction 1 as [|c s Hc Hs IH]; [done|]. simpl.
  rewrite (proj2 (Z.eqb_neq c 0)) by lia. by rewrite IH.
Qed.

Lemma unpackstr_pack s r :
  is_name s -> zlen s < 2 ^ 16 ->
  unpackstr ((PACK16 (zlen s) ++ s ++ [0]) ++ r) = Ok (s, r).
Proof.
  intros Hs Hl. pose proof (zlen_nonneg s). pose proof (zlen_nonneg r).
  unfold unpackstr. rewrite !zlen_app, zlen_PACK16.
  rewrite (proj2 (Z.leb_le _ _)) by (change (zlen [0]) with 1; lia).
  rewrite rd16_eq, <- app_assoc. rewrite rd_head by done. cbn [rbind].
  rewrite UNPACK16_PACK16, u16_small by lia.
  rewrite (proj2 (Z.ltb_ge _ _)) by (change (zlen [0]) with 1; lia).
  rewrite (rd_skip _ _ _ _ (zlen s)) by (rewrite zlen_PACK16; lia).
  rewrite <- app_assoc, (rd_skip _ _ _ _ 0) by lia.
  rewrite rd_head by done. cbn [rbind]. f_equal. f_equal.
  - change (drop 2 (PACK16 (zlen s) ++ s ++ [0] ++ r)) with (s ++ 0 :: r).
    by apply cstr_name.
  - replace (Z.to_nat (3 + zlen s)) with (2 + (length s + 1))%nat by (unfold zlen; lia).
    rewrite <- drop_drop. cbn [PACK16 app drop].
    rewrite drop_0, <- drop_drop. by rewrite drop_app_length.
Qed.

Lemma packdkey_eq sz up s :
  12 + zlen s <= sz ->
  packdkey sz up (Some s) =
  Ok ((PACK8 Kent ++ PACK64 up) ++ PACK16 (zlen s) ++ s ++ [0]).
Proof.
  intros Hsz. pose proof (zlen_nonneg s). unfold packdkey, emit, packstr.
  change (zlen (PACK8 Kent ++ PACK64 up)) with 9.
  rewrite (proj2 (Z.leb_le 9 sz)) by lia. cbn [rbind].
  rewrite (proj2 (Z.leb_le _ _)) by lia. done.
Qed.

Lemma zlen_dval_bytes d : zlen (dval_bytes d) = 61.
Proof. done. Qed.

Lemma packdval_inv sz d v : packdval sz d = Ok v -> v = dval_bytes d /\ 61 <= sz.
Proof.
  unfold packdval, emit. rewrite zlen_dval_bytes.
  destruct (Z.leb_spec 61 sz); [|done]. by intros [= <-].
Qed.

Lemma packdval_ok sz d : 61 <= sz -> packdval sz d = Ok (dval_bytes d).
Proof.
  intros. unfold packdval, emit. by rewrite (proj2 (Z.leb_le _ _)).
Qed.

Lemma zlen_tree_bytes t : zlen (tree_bytes t) = Treesz.
Proof. done. Qed.

Lemma zlen_bp_bytes bp : zlen (bp_bytes bp) = Ptrsz.
Proof. done. Qed.

Lemma unpackbp_bytes bp r sz :
  wf_bptr bp -> Ptrsz <= sz -> unpackbp (bp_bytes bp ++ r) sz = Ok bp.
Proof.
  intros (? & ? & ?) Hsz. unfold unpackbp. rewrite (proj2 (Z.leb_le _ _)) by done.
  unfold bp_bytes. rewrite <- !app_assoc.
  unpack_fields. fits. by destruct bp.
Qed.

(** [kv2dir] on a key and a value with the bytes of an entry. *)
Lemma kv2dir_bytes up d :
  wf_xdir d ->
  kv2dir (mkKvp ((PACK8 Kent ++ PACK64 up) ++ PACK16 (zlen (d_name d)) ++ d_name d ++ [0])
            (dval_bytes d)) = Ok d.
Proof.
  intros (? & ? & ? & Ht & ? & ? & ? & ? & ? & ? & ? & Hn & Hl).
  unfold kv2dir. cbn [kv_k kv_v]. pose proof (zlen_nonneg (d_name d)).
  rewrite (proj2 (Z.leb_le _ _)).
  2:{ autorewrite with zlen. lia. }
  change (drop 9 ((PACK8 Kent ++ PACK64 up) ++ PACK16 (zlen (d_name d)) ++ d_name d ++ [0]))
    with (PACK16 (zlen (d_name d)) ++ d_name d ++ [0]).
  rewrite <- (app_nil_r (PACK16 _ ++ _ ++ [0])), unpackstr_pack by done. cbn [rbind].
  rewrite zlen_dval_bytes. unfold dval_bytes, is_byte in *.
  unpack_fields. cbn [negb Z.eqb Pos.eqb zlen length Z.of_nat].
  fits. by destruct d as [? [] ? ? ? ? ? ? ? ?].
Qed.

Lemma unpacktree_bytes t r sz :
  wf_tree t -> Treesz <= sz -> unpacktree (tree_bytes t ++ r) sz = Ok (disk_tree t).
Proof.
  intros (? & ? & ? & ? & (? & ? & ?) & ? & ? & ? & ?) Hsz.
  unfold unpacktree. rewrite (proj2 (Z.leb_le _ _)) by done.
  unfold tree_bytes. rewrite <- !app_assoc.
  unpack_fields. fits. unfold disk_tree. by destruct t as [? ? ? ? ? ? ? ? []].
Qed.

Lemma dir2kv_eq up d nbuf :
  73 + zlen (d_name d) <= nbuf ->
  dir2kv up d nbuf =
  Ok (mkKvp ((PACK8 Kent ++ PACK64 up) ++ PACK16 (zlen (d_name d)) ++ d_name d ++ [0])
        (dval_bytes d)).
Proof.
  intros Hn. unfold dir2kv. rewrite packdkey_eq by lia. cbn [rbind].
  rewrite packdval_ok; [done|]. autorewrite with zlen. lia.
Qed.

(** ** Theorems *)

(** A directory entry that [dir2kv] packs into a key and a value unpacks
    to the same entry with [kv2dir], whatever its parent. *)
Theorem kv2dir_dir2kv up d nbuf :
  wf_xdir d -> 73 + zlen (d_name d) <= nbuf ->
  exists kv, dir2kv up d nbuf = Ok kv /\ kv2dir kv = Ok d.
Proof. intros. eexists. split; [by apply dir2kv_eq|]. by apply kv2dir_bytes. Qed.

(** A directory key names its entry: [unpackdkey] gives back the parent
    and the name that [packdkey] was called with. *)
Theorem unpackdkey_packdkey sz up name k :
  - 2 ^ 63 <= up < 2 ^ 63 -> is_name name -> zlen name < 2 ^ 16 ->
  12 + zlen name <= sz -> packdkey sz up (Some name) = Ok k ->
  unpackdkey k = Ok (up, name).
Proof.
  intros Hup Hn Hl Hsz. rewrite packdkey_eq by done. intros H. apply Ok_inj in H as <-.
  unfold unpackdkey. pose proof (zlen_nonneg name).
  rewrite (proj2 (Z.ltb_lt _ _)) by (autorewrite with zlen; lia).
  rewrite <- app_assoc. unpack_fields. cbn [negb]. change (u8 Kent =? Kent) with true. cbv iota.
  change (drop 9 (PACK8 Kent ++ PACK64 up ++ PACK16 (zlen name) ++ name ++ [0]))
    with (PACK16 (zlen name) ++ name ++ [0]).
  rewrite <- (app_nil_r (PACK16 _ ++ _ ++ [0])), unpackstr_pack by done. cbn [rbind]. by fits.
Qed.

(** The descriptor of a tree survives [tree2kv] and [unpacktree]; the
    fields that live in memory only come back as zero. *)
Theorem unpacktree_tree2kv t nbuf :
  wf_tree t -> Snapsz + Treesz <= nbuf ->
  exists kv, tree2kv t nbuf = Ok kv /\ unpacktree (kv_v kv) (zlen (kv_v kv)) = Ok (disk_tree t).
Proof.
  intros Ht Hn. change Snapsz with 9 in Hn. change Treesz with 72 in Hn.
  unfold tree2kv, packsnap, packtree. change Snapsz with 9. change Treesz with 72.
  rewrite (proj2 (Z.leb_le 9 nbuf)) by lia. cbn [rbind].
  change (zlen ([Ksnap] ++ PACK64 (t_gen t))) with 9.
  rewrite (proj2 (Z.leb_le _ _)) by lia. cbn [rbind].
  eexists. split; [done|]. cbn [kv_v]. rewrite zlen_tree_bytes, <- (app_nil_r (tree_bytes t)).
  by apply unpacktree_bytes.
Qed.

(** [kv2qid] does not read the qid of an entry: the path it returns is
    the flag word and the version is the low half of the path. *)
Theorem kv2qid_reads_flag up d nbuf kv q :
  wf_xdir d -> 73 + zlen (d_name d) <= nbuf -> dir2kv up d nbuf = Ok kv ->
  kv2qid kv q = Ok (mkQid (d_flag d) (u32 (q_path (d_qid d))) (q_type q)).
Proof.
  intros (? & ? & _) Hn. rewrite dir2kv_eq by done. intros E. apply Ok_inj in E as <-.
  unfold kv2qid. cbn [kv_v].
  unfold dval_bytes. unpack_fields. fits. done.
Qed.

(** ** Witnesses *)

Definition dir_ex : Xdir :=
  mkXdir 1 (mkQid 77 3 128) 493 1 2 4096 5 6 7 [98; 105; 110].

Lemma wf_dir_ex : wf_xdir dir_ex.
Proof.
  unfold wf_xdir, is_name, is_byte. cbn. repeat split; try lia.
  repeat constructor; lia.
Qed.

Lemma kv2dir_dir2kv_witness :
  exists kv, dir2kv 9 dir_ex 128 = Ok kv /\ kv2dir kv = Ok dir_ex.
Proof. apply (kv2dir_dir2kv 9 dir_ex 128); [apply wf_dir_ex|vm_compute; discriminate]. Defined.

Lemma unpackdkey_packdkey_witness :
  unpackdkey [1; 0; 0; 0; 0; 0; 0; 0; 9; 0; 3; 98; 105; 110; 0] = Ok (9, [98; 105; 110]).
Proof.
  apply (unpackdkey_packdkey 64 9 [98; 105; 110]);
    [lia|repeat constructor; lia|reflexivity|vm_compute; discriminate|reflexivity].
Defined.

Lemma unpacktree_tree2kv_witness :
  exists kv, tree2kv tree0 128 = Ok kv /\
    unpacktree (kv_v kv) (zlen (kv_v kv)) = Ok (disk_tree tree0).
Proof.
  apply (unpacktree_tree2kv tree0 128); [|vm_compute; discriminate].
  unfold wf_tree, wf_bptr. cbn. lia.
Defined.

Lemma kv2qid_reads_flag_witness :
  exists kv, dir2kv 9 dir_ex 128 = Ok kv /\
    kv2qid kv (mkQid 0 0 0) = Ok (mkQid 1 77 0).
Proof.
  eexists. split; [reflexivity|].
  apply (kv2qid_reads_flag 9 dir_ex 128); [apply wf_dir_ex|vm_compute; discriminate|reflexivity].
Defined.
