(* ===== verification/Super.v ===== *)
(** * Superblock and arena headers (src/pack.c)

    [packsb]/[unpacksb] and [packarena]/[unpackarena].  The superblock ends
    with the hash of all its fields; [unpacksb] accepts a buffer only when
    the hash matches. *)
From S2P Require Import Prelude CInt Mem Data Hash Pack.

(** The fields of [Gefs] that the superblock stores: [snap.ht], [snap.bp],
    [snapdl.hd], [snapdl.tl], [snapdl.gen] and the counters. *)
Record Gefs := mkGefs {
  g_blksz : Z; g_bufspc : Z; g_narena : Z;
  g_snap_ht : Z; g_snap_bp : Bptr;
  g_dl_hd : Bptr; g_dl_tl : Bptr; g_dl_gen : Z;
  g_flag : Z; g_nextqid : Z; g_nextgen : Z; g_qgen : Z;
  g_arenabp : list Bptr }.

(** "gefs9.00" *)
Definition sb_magic : list Z := [103; 101; 102; 115; 57; 46; 48; 48].

Definition ah_bytes (bp : Bptr) : list Z := PACK64 (bp_addr bp) ++ PACK64 (bp_hash bp).

Fixpoint ah_table (l : list Bptr) : list Z :=
  match l with [] => [] | bp :: l' => ah_bytes bp ++ ah_table l' end.

(** Everything before the arena table. *)
Definition sb_head (fi : Gefs) : list Z :=
  sb_magic ++ PACK32 Blksz ++ PACK32 Bufspc ++ PACK32 (g_narena fi) ++
  PACK32 (g_snap_ht fi) ++
  PACK64 (bp_addr (g_snap_bp fi)) ++ PACK64 (bp_hash (g_snap_bp fi)) ++
  PACK64 (bp_addr (g_dl_hd fi)) ++ PACK64 (bp_hash (g_dl_hd fi)) ++
  PACK64 (bp_addr (g_dl_tl fi)) ++ PACK64 (bp_hash (g_dl_tl fi)) ++
  PACK64 (g_flag fi) ++ PACK64 (g_nextqid fi) ++ PACK64 (g_nextgen fi) ++
  PACK64 (g_qgen fi).

(** The whole buffer [p0] after the call; the arena table has to have
    [narena] entries. *)
Definition packsb (p0 : list Z) (sz : Z) (fi : Gefs) : res (list Z) :=
  assert! sz =? Blksz in
  assert! g_narena fi <? 512 in
  if zlen (g_arenabp fi) <? g_narena fi then Err Eoob else
  let p := sb_head fi ++
           ah_table (take (Z.to_nat (g_narena fi)) (g_arenabp fi)) in
  let! h := bufhash p (zlen p) in
  wr p0 0 (p ++ PACK64 h).

Fixpoint rd_arenabp (p0 : list Z) (off : Z) (n : nat) : res (list Bptr) :=
  match n with
  | O => Ok []
  | S n' =>
      let! addr := rd64 p0 off in
      let! hash := rd64 p0 (off + 8) in
      let! l := rd_arenabp p0 (off + 16) n' in
      Ok (mkBptr (s64 addr) hash (-1) :: l)
  end.

(** [fi] is the state before the call: [snapdl.tl.gen] is not assigned. *)
Definition unpacksb (fi : Gefs) (p0 : list Z) (sz : Z) : res Gefs :=
  assert! sz =? Blksz in
  let! magic := rd p0 0 8 in
  if negb (bool_decide (magic = sb_magic)) then Err Efsvers else
  let! blksz := rd32 p0 8 in
  let! bufspc := rd32 p0 12 in
  let! narena := rd32 p0 16 in
  let! ht := rd32 p0 20 in
  let! saddr := rd64 p0 24 in
  let! shash := rd64 p0 32 in
  let! haddr := rd64 p0 40 in
  let! hhash := rd64 p0 48 in
  let! taddr := rd64 p0 56 in
  let! thash := rd64 p0 64 in
  let! flag := rd64 p0 72 in
  let! nextqid := rd64 p0 80 in
  let! nextgen := rd64 p0 88 in
  let! qgen := rd64 p0 96 in
  let narena := s32 narena in
  if narena <? 0 then Err Enomem else
  let! arenabp := rd_arenabp p0 104 (Z.to_nat narena) in
  let n := 104 + 16 * narena in
  let! body := rd p0 0 n in
  let! xh := bufhash body n in
  let! dh := rd64 p0 n in
  if negb (dh =? xh) then Err Esuper else
  assert! narena <? 256 in
  Ok (mkGefs (s32 blksz) (s32 bufspc) narena (s32 ht)
        (mkBptr (s64 saddr) shash (-1))
        (mkBptr (s64 haddr) hhash (-1))
        (mkBptr (s64 taddr) thash (bp_gen (g_dl_tl fi))) (-1)
        (s64 flag) (s64 nextqid) (s64 nextgen) (s64 qgen) arenabp).

(** ** Arena headers *)

(** The fields of [Arena] that the header stores. *)
Record AHdr := mkAHdr { ah_loghd : Bptr; ah_size : Z; ah_used : Z }.

Definition packarena (sz : Z) (a : AHdr) : res (list Z) :=
  assert! Arenasz <=? sz in
  Ok (PACK64 (bp_addr (ah_loghd a)) ++ PACK64 (bp_hash (ah_loghd a)) ++
      PACK64 (ah_size a) ++ PACK64 (ah_used a)).

Definition unpackarena (p : list Z) (sz : Z) : res AHdr :=
  assert! Arenasz <=? sz in
  let! addr := rd64 p 0 in
  let! hash := rd64 p 8 in
  let! size := rd64 p 16 in
  let! used := rd64 p 24 in
  Ok (mkAHdr (mkBptr (s64 addr) hash (-1)) (s64 size) (s64 used)).

(** ** Round trips *)

Definition wf_gefs (fi : Gefs) : Prop :=
  0 <= g_narena fi /\ zlen (g_arenabp fi) = g_narena fi /\
  - 2 ^ 31 <= g_snap_ht fi < 2 ^ 31 /\
  wf_bptr (g_snap_bp fi) /\ wf_bptr (g_dl_hd fi) /\ wf_bptr (g_dl_tl fi) /\
  - 2 ^ 63 <= g_flag fi < 2 ^ 63 /\ - 2 ^ 63 <= g_nextqid fi < 2 ^ 63 /\
  - 2 ^ 63 <= g_nextgen fi < 2 ^ 63 /\ - 2 ^ 63 <= g_qgen fi < 2 ^ 63 /\
  Forall wf_bptr (g_arenabp fi).

Definition no_gen (bp : Bptr) : Bptr := mkBptr (bp_addr bp) (bp_hash bp) (-1).

(** What a load gives back: the generations are not stored. *)
Definition sb_loaded (fi0 fi : Gefs) : Gefs :=
  mkGefs Blksz Bufspc (g_narena fi) (g_snap_ht fi) (no_gen (g_snap_bp fi))
    (no_gen (g_dl_hd fi))
    (mkBptr (bp_addr (g_dl_tl fi)) (bp_hash (g_dl_tl fi)) (bp_gen (g_dl_tl fi0))) (-1)
    (g_flag fi) (g_nextqid fi) (g_nextgen fi) (g_qgen fi) (no_gen <$> g_arenabp fi).

Lemma zlen_sb_head fi : zlen (sb_head fi) = 104.
Proof. done. Qed.

Lemma zlen_ah_table l : zlen (ah_table l) = 16 * zlen l.
Proof.
  induction l as [|bp l IH]; [done|]. cbn [ah_table].
  rewrite zlen_app, zlen_cons, IH. change (zlen (ah_bytes bp)) with 16. lia.
Qed.

Lemma rd_arenabp_table l a r off :
  Forall wf_bptr l -> off = zlen a ->
  rd_arenabp (a ++ ah_table l ++ r) off (length l) = Ok (no_gen <$> l).
Proof.
  intros Hl. revert a off. induction Hl as [|bp l (? & ? & ?) Hl IH]; intros a off ->; [done|].
  cbn [length rd_arenabp fmap list_fmap ah_table].
  rewrite !rd64_eq. rewrite (rd_skip a _ (zlen a) 8 0), (rd_skip a _ (zlen a + 8) 8 8) by lia.
  rewrite <- !app_assoc. unfold ah_bytes at 1 2. rewrite <- !app_assoc.
  rd_field. autorewrite with unpack. fits.
  specialize (IH (a ++ ah_bytes bp) (zlen a + 16)).
  rewrite <- !app_assoc in IH. rewrite IH; [done|]. rewrite zlen_app. done.
Qed.

Lemma packsb_inv p0 fi p :
  packsb p0 Blksz fi = Ok p -> zlen (g_arenabp fi) = g_narena fi ->
  exists h, bufhash (sb_head fi ++ ah_table (g_arenabp fi)) (104 + 16 * g_narena fi) = Ok h /\
    0 <= h < 2 ^ 64 /\ g_narena fi < 512 /\
    exists r, p = (sb_head fi ++ ah_table (g_arenabp fi)) ++ PACK64 h ++ r.
Proof.
  unfold packsb. intros H Hl. rewrite Z.eqb_refl in H.
  destruct (Z.ltb_spec (g_narena fi) 512); [|done].
  rewrite Hl, Z.ltb_irrefl in H.
  rewrite (take_ge (g_arenabp fi)) in H by (unfold zlen in Hl; lia).
  set (q := sb_head fi ++ ah_table (g_arenabp fi)) in *.
  assert (Hq : zlen q = 104 + 16 * g_narena fi).
  { unfold q. rewrite zlen_app, zlen_ah_table, zlen_sb_head. lia. }
  destruct (bufhash_ok q) as (h & Eh & Hh). rewrite Eh in H. cbn [rbind] in H.
  exists h. rewrite <- Hq. split; [done|]. split; [done|]. split; [done|].
  apply wr_inv in H as (_ & _ & ->). cbn [Z.to_nat]. rewrite take_0. cbn [app].
  eexists. rewrite <- app_assoc. done.
Qed.

(** Read [n] bytes at a literal offset of the fixed part. *)
Ltac sb_read o n :=
  match goal with
  | Hr : forall o n bs, rd (sb_head ?fi) o n = Ok bs -> _ |- _ =>
      erewrite (Hr o n) by (unfold sb_head; rd_field; reflexivity)
  end; cbn [rbind].

Lemma unpacksb_packed fi0 fi h r :
  wf_gefs fi -> 0 <= h < 2 ^ 64 ->
  bufhash (sb_head fi ++ ah_table (g_arenabp fi)) (104 + 16 * g_narena fi) = Ok h ->
  g_narena fi < 512 ->
  unpacksb fi0 ((sb_head fi ++ ah_table (g_arenabp fi)) ++ PACK64 h ++ r) Blksz =
  if g_narena fi <? 256 then Ok (sb_loaded fi0 fi) else Err Eassert.
Proof.
  intros (? & Hl & ? & (? & ? & ?) & (? & ? & ?) & (? & ? & ?) & ? & ? & ? & ? & Ha) Hh Eh Hn.
  set (p := (sb_head fi ++ ah_table (g_arenabp fi)) ++ PACK64 h ++ r).
  assert (Hq : zlen (sb_head fi ++ ah_table (g_arenabp fi)) = 104 + 16 * g_narena fi).
  { rewrite zlen_app, zlen_ah_table, zlen_sb_head. lia. }
  assert (Ep : p = sb_head fi ++ ah_table (g_arenabp fi) ++ PACK64 h ++ r)
    by (unfold p; by rewrite <- !app_assoc).
  assert (Hr : forall o n bs, rd (sb_head fi) o n = Ok bs -> rd p o n = Ok bs).
  { intros. rewrite Ep. by apply rd_app_in. }
  assert (Et : rd_arenabp p 104 (Z.to_nat (g_narena fi)) = Ok (no_gen <$> g_arenabp fi)).
  { rewrite Ep, <- Hl, to_nat_zlen. by apply rd_arenabp_table. }
  assert (Eb : rd p 0 (104 + 16 * g_narena fi) = Ok (sb_head fi ++ ah_table (g_arenabp fi)))
    by (by apply rd_head).
  assert (Ec : rd p (104 + 16 * g_narena fi) 8 = Ok (PACK64 h)).
  { unfold p. rewrite (rd_skip _ _ _ _ 0) by lia. by apply rd_head. }
  unfold unpacksb. rewrite Z.eqb_refl. rewrite !rd64_eq, !rd32_eq.
  sb_read 0 8. rewrite bool_decide_true by done. cbn [negb].
  sb_read 8 4. sb_read 12 4. sb_read 16 4. sb_read 20 4. sb_read 24 8. sb_read 32 8.
  sb_read 40 8. sb_read 48 8. sb_read 56 8. sb_read 64 8. sb_read 72 8. sb_read 80 8.
  sb_read 88 8. sb_read 96 8.
  autorewrite with unpack. fits.
  rewrite (proj2 (Z.ltb_ge _ _)) by lia.
  rewrite Et. cbn [rbind]. rewrite Eb. cbn [rbind]. rewrite Eh. cbn [rbind].
  rewrite rd64_eq, Ec. cbn [rbind]. rewrite UNPACK64_PACK64, u64_small by lia.
  rewrite Z.eqb_refl. cbn [negb].
  destruct (g_narena fi <? 256); [|done]. rewrite (s32_small (g_snap_ht fi)) by lia. by destruct fi.
Qed.

Definition wf_ahdr (a : AHdr) : Prop :=
  wf_bptr (ah_loghd a) /\ - 2 ^ 63 <= ah_size a < 2 ^ 63 /\ - 2 ^ 63 <= ah_used a < 2 ^ 63.

Definition ahdr_bytes (a : AHdr) : list Z :=
  PACK64 (bp_addr (ah_loghd a)) ++ PACK64 (bp_hash (ah_loghd a)) ++
  PACK64 (ah_size a) ++ PACK64 (ah_used a).

Lemma unpackarena_bytes a r :
  wf_ahdr a ->
  unpackarena (ahdr_bytes a ++ r) Arenasz =
  Ok (mkAHdr (no_gen (ah_loghd a)) (ah_size a) (ah_used a)).
Proof.
  intros ((? & ? & ?) & ? & ?).
  unfold unpackarena, ahdr_bytes. rewrite Z.leb_refl, !rd64_eq, <- !app_assoc.
  rd_field. autorewrite with unpack. fits. done.
Qed.

(** ** Theorems *)

(** C38: what [packsb] writes, [unpacksb] accepts, and the file system it
    loads has the stored fields (generations are not stored); a superblock
    with 256 to 511 arenas is written but cannot be loaded. *)
Theorem unpacksb_packsb fi0 fi p0 p :
  wf_gefs fi -> packsb p0 Blksz fi = Ok p ->
  unpacksb fi0 p Blksz =
  if g_narena fi <? 256 then Ok (sb_loaded fi0 fi) else Err Eassert.
Proof.
  intros Hw Hp. pose proof Hw as (_ & Hl & _).
  destruct (packsb_inv _ _ _ Hp Hl) as (h & Eh & Hh & Hn & r & ->).
  by apply unpacksb_packed.
Qed.

(** A superblock whose stored hash is not the hash of its fields is
    rejected, and nothing is loaded from it. *)
Theorem unpacksb_rejects fi0 p0 narena body xh dh fi :
  rd32 p0 16 = Ok narena -> rd p0 0 (104 + 16 * s32 narena) = Ok body ->
  bufhash body (104 + 16 * s32 narena) = Ok xh ->
  rd64 p0 (104 + 16 * s32 narena) = Ok dh -> dh <> xh ->
  unpacksb fi0 p0 Blksz <> Ok fi.
Proof.
  intros E1 E2 E3 E4 Hne H. unfold unpacksb in H. rewrite Z.eqb_refl in H.
  bind_inv H as magic Em. destruct (negb _); [done|].
  do 2 bind_skip H. rewrite E1 in H. cbn [rbind] in H. do 11 bind_skip H.
  destruct (s32 narena <? 0); [done|]. bind_skip H.
  rewrite E2 in H. cbn [rbind] in H. rewrite E3 in H. cbn [rbind] in H.
  rewrite E4 in H. cbn [rbind] in H. by rewrite (proj2 (Z.eqb_neq _ _) Hne) in H.
Qed.

(** The header of an arena survives [packarena] and [unpackarena], the
    generation of the log pointer apart. *)
Theorem unpackarena_packarena a p r :
  wf_ahdr a -> packarena Arenasz a = Ok p ->
  unpackarena (p ++ r) Arenasz = Ok (mkAHdr (no_gen (ah_loghd a)) (ah_size a) (ah_used a)).
Proof.
  intros Ha E. unfold packarena in E. rewrite Z.leb_refl in E. apply Ok_inj in E as <-.
  by apply unpackarena_bytes.
Qed.

(** ** Witnesses *)

Definition gefs_ex : Gefs :=
  mkGefs 16384 8187 1 1 (mkBptr 32768 7 1) (mkBptr 49152 8 1) (mkBptr 65536 9 1) 1 0 5 6 7
    [mkBptr 0 3 1].

Lemma wf_gefs_ex : wf_gefs gefs_ex.
Proof. unfold wf_gefs, wf_bptr. cbn. repeat split; try lia. repeat constructor; cbn; lia. Qed.

Lemma unpacksb_packsb_witness :
  exists p, packsb zbuf Blksz gefs_ex = Ok p /\
    unpacksb gefs_ex p Blksz = Ok (sb_loaded gefs_ex gefs_ex).
Proof.
  destruct (packsb zbuf Blksz gefs_ex) as [p|] eqn:E.
  - exists p. split; [done|].
    exact (unpacksb_packsb gefs_ex gefs_ex _ p wf_gefs_ex E).
  - exfalso. revert E. unfold packsb.
    destruct (wr_ok zbuf 0
      (sb_head gefs_ex ++ ah_table (take 1 (g_arenabp gefs_ex)) ++ PACK64 0)) as (p' & E' & _);
      [lia|rewrite zlen_zbuf; vm_compute; discriminate|].
    destruct (bufhash_ok (sb_head gefs_ex ++ ah_table (take (Z.to_nat (g_narena gefs_ex)) (g_arenabp gefs_ex))))
      as (h & Eh & _).
    change (Blksz =? Blksz) with true. change (g_narena gefs_ex <? 512) with true.
    change (zlen (g_arenabp gefs_ex) <? g_narena gefs_ex) with false. cbv iota zeta.
    rewrite Eh. cbn [rbind].
    match goal with |- wr _ _ ?q = _ -> _ =>
      destruct (wr_ok zbuf 0 q) as (p2 & E2 & _) end;
      [lia|rewrite zlen_zbuf; vm_compute; discriminate|].
    rewrite E2. discriminate.
Defined.

(** One arena, hash 0 where the right one is not 0. *)
Lemma unpacksb_rejects_witness :
  unpacksb gefs_ex (sb_head gefs_ex ++ ah_table (g_arenabp gefs_ex) ++ PACK64 0) Blksz <>
  Ok gefs_ex.
Proof.
  eapply (unpacksb_rejects gefs_ex _ 1); [reflexivity|reflexivity| |reflexivity|].
  - vm_compute. reflexivity.
  - vm_compute. discriminate.
Defined.

Lemma unpackarena_packarena_witness :
  exists p, packarena Arenasz (mkAHdr (mkBptr 5 6 7) 8 9) = Ok p /\
    unpackarena (p ++ []) Arenasz = Ok (mkAHdr (mkBptr 5 6 (-1)) 8 9).
Proof.
  eexists. split; [reflexivity|].
  apply (unpackarena_packarena (mkAHdr (mkBptr 5 6 7) 8 9)); [|reflexivity].
  unfold wf_ahdr, wf_bptr. cbn. lia.
Defined.
