(* ===== verification/Blk.v ===== *)
(** * Blocks: leaves and pivots as slotted pages (src/tree.c, src/blk.c)

    A block is its header fields and its [Blksz] bytes.  A leaf keeps a table
    of 16-bit offsets that grows up from the start of its data and entries
    that grow down from the end; a pivot keeps two such areas, one for its
    children and one for its buffered messages.  [vals_repr] and [msgs_repr]
    say which lists the bytes represent. *)
From S2P Require Import Prelude CInt Mem Data Keys Hash Pack.

(** Block flags *)
Definition Bdirty : Z := 1.
Definition Bfinal : Z := 2.
Definition Bfreed : Z := 4.
Definition Bcached : Z := 8.
Definition Bqueued : Z := 16.
Definition Blimbo : Z := 32.
Definition Bstatic : Z := 64.

Record Blk := mkBlk {
  b_type : Z; b_nval : Z; b_valsz : Z; b_nbuf : Z; b_bufsz : Z;
  b_logsz : Z; b_logh : Z; b_logp : Bptr;
  b_bp : Bptr; b_flag : Z; b_buf : list Z }.

Definition set_buf (b : Blk) (buf : list Z) : Blk :=
  mkBlk (b_type b) (b_nval b) (b_valsz b) (b_nbuf b) (b_bufsz b)
    (b_logsz b) (b_logh b) (b_logp b) (b_bp b) (b_flag b) buf.

Definition set_vals (b : Blk) (nval valsz : Z) : Blk :=
  mkBlk (b_type b) nval valsz (b_nbuf b) (b_bufsz b)
    (b_logsz b) (b_logh b) (b_logp b) (b_bp b) (b_flag b) (b_buf b).

Definition set_msgs (b : Blk) (nbuf bufsz : Z) : Blk :=
  mkBlk (b_type b) (b_nval b) (b_valsz b) nbuf bufsz
    (b_logsz b) (b_logh b) (b_logp b) (b_bp b) (b_flag b) (b_buf b).

(** [checkflag] and [setflag], on the flag word. *)
Definition checkflag (flag set clr : Z) : bool := Z.land flag (Z.lor set clr) =? set.
Definition setflag (flag set clr : Z) : Z := Z.lor (Z.land flag (Z.lnot clr)) set.

(** [b->data - b->buf] *)
Definition hdsz (ty : Z) : Z :=
  if ty =? Tpivot then Pivhdsz
  else if ty =? Tleaf then Leafhdsz
  else if (ty =? Tlog) || (ty =? Tdlist) then Loghdsz
  else if ty =? Tarena then 2
  else 0.

Definition data_off (b : Blk) : Z := hdsz (b_type b).

(** The room of the value area. *)
Definition val_spc (ty : Z) : Z := if ty =? Tleaf then Leafspc else Pivspc.

(** ** Sizes *)

(** [disp + op + klen + key + vlen + v] *)
Definition msgsz (m : Msg) : Z := 2 + 1 + 2 + zlen (m_k m) + 2 + zlen (m_v m).

Definition valsz (kv : Kvp) : Z := 2 + 2 + zlen (kv_k kv) + 2 + zlen (kv_v kv).

Definition blkfill (b : Blk) : res Z :=
  if b_type b =? Tpivot then
    Ok (u16 (2 * b_nbuf b + b_bufsz b + 2 * b_nval b + b_valsz b))
  else if b_type b =? Tleaf then Ok (u16 (2 * b_nval b + b_valsz b))
  else Err Eassert.

Definition buffill (b : Blk) : res Z :=
  assert! b_type b =? Tpivot in Ok (2 * b_nbuf b + b_bufsz b).

Definition filledbuf (b : Blk) (nmsg needed : Z) : res bool :=
  assert! b_type b =? Tpivot in
  Ok (Bufspc <? 2 * (b_nbuf b + nmsg) + b_bufsz b + needed).

Definition filledleaf (b : Blk) (needed : Z) : res bool :=
  assert! b_type b =? Tleaf in
  Ok (Leafspc <? 2 * (b_nval b + 1) + b_valsz b + needed).

Definition filledpiv (b : Blk) (reserve : Z) : res bool :=
  assert! b_type b =? Tpivot in
  Ok (Pivspc <? 2 * (b_nval b + 1) + b_valsz b + reserve * Kpmax).

(** ** Access *)

Definition getval (b : Blk) (i : Z) : res Kvp :=
  assert! (0 <=? i) && (i <? b_nval b) in
  let d := data_off b in
  let! o := rd16 (b_buf b) (d + 2 * i) in
  let! nk := rd16 (b_buf b) (d + o) in
  let! k := rd (b_buf b) (d + o + 2) nk in
  let! nv := rd16 (b_buf b) (d + o + 2 + nk) in
  let! v := rd (b_buf b) (d + o + 2 + nk + 2) (s16 nv) in
  Ok (mkKvp k v).

(** The child pointer and its fill in a pivot entry. *)
Definition getptr (kv : Kvp) : res (Bptr * Z) :=
  assert! (zlen (kv_v kv) =? Ptrsz) || (zlen (kv_v kv) =? Ptrsz + 2) in
  let! fill := rd16 (kv_v kv) Ptrsz in
  let! bp := unpackbp (kv_v kv) (zlen (kv_v kv)) in
  Ok (bp, fill).

Definition kv_bytes (kv : Kvp) : list Z :=
  PACK16 (zlen (kv_k kv)) ++ kv_k kv ++ PACK16 (zlen (kv_v kv)) ++ kv_v kv.

Definition setval (b : Blk) (kv : Kvp) : res Blk :=
  let spc := val_spc (b_type b) in
  let valsz := s16 (b_valsz b + (2 + zlen (kv_k kv) + 2 + zlen (kv_v kv))) in
  let off := spc - valsz in
  assert! 2 * (b_nval b + 1) + valsz <=? spc in
  assert! 2 * (b_nval b + 1) <=? off in
  let d := data_off b in
  let! buf := wr (b_buf b) (d + 2 * b_nval b) (PACK16 off) in
  let! buf := wr buf (d + off) (kv_bytes kv) in
  Ok (set_vals (set_buf b buf) (s16 (b_nval b + 1)) valsz).

(** A child entry: the pointer and the fill of the child. *)
Definition ptr_bytes (bp : Bptr) (fill : Z) : list Z := bp_bytes bp ++ PACK16 fill.

Definition setptr (b : Blk) (k : list Z) (bp : Bptr) (fill : Z) : res Blk :=
  setval b (mkKvp k (ptr_bytes bp fill)).

Definition msg_bytes (m : Msg) : list Z :=
  PACK8 (m_op m) ++ PACK16 (zlen (m_k m)) ++ m_k m ++ PACK16 (zlen (m_v m)) ++ m_v m.

Definition setmsg (b : Blk) (m : Msg) : res Blk :=
  assert! b_type b =? Tpivot in
  let bufsz := s16 (b_bufsz b + (msgsz m - 2)) in
  let d := data_off b in
  let o := Bufspc - bufsz in
  let! buf := wr (b_buf b) (d + Pivspc + 2 * b_nbuf b) (PACK16 o) in
  let! buf := wr buf (d + Pivspc + o) (msg_bytes m) in
  Ok (set_msgs (set_buf b buf) (s16 (b_nbuf b + 1)) bufsz).

Definition getmsg (b : Blk) (i : Z) : res Msg :=
  assert! b_type b =? Tpivot in
  assert! (0 <=? i) && (i <? b_nbuf b) in
  let d := data_off b in
  let! o := rd16 (b_buf b) (d + Pivspc + 2 * i) in
  let! op := rd (b_buf b) (d + Pivspc + o) 1 in
  let! nk := rd16 (b_buf b) (d + Pivspc + o + 1) in
  let! k := rd (b_buf b) (d + Pivspc + o + 1 + 2) nk in
  let! nv := rd16 (b_buf b) (d + Pivspc + o + 1 + 2 + nk) in
  let! v := rd (b_buf b) (d + Pivspc + o + 1 + 2 + nk + 2) (s16 nv) in
  Ok (mkMsg (s8 (UNPACK8 op)) k v).

(** ** Initialisation and finalisation *)

(** [initblk]: the fields are reset, the bytes are those the block had; the
    chain is reset in a log or a deadlist.  (That the address is not cached,
    the "double alloc" test, is a property of Cache.v.) *)
Definition initblk (b : Blk) (addr gen ty : Z) : Blk :=
  mkBlk ty 0 0 0 0 0 (b_logh b) (if (ty =? Tdlist) || (ty =? Tlog) then Zb else b_logp b)
    (mkBptr addr nohash gen) (setflag (b_flag b) Bdirty 0) (b_buf b).

(** A block out of the cache's pool before its first use. *)
Definition blkz : Blk := mkBlk 0 0 0 0 0 0 0 (mkBptr 0 0 0) (mkBptr 0 0 0) 0 zbuf.

(** The header [finalize] writes before it hashes the block. *)
Definition header_bytes (b : Blk) (logh : Z) : res (list Z) :=
  let ty := b_type b in
  if ty =? Tpivot then
    Ok (PACK16 ty ++ PACK16 (b_nval b) ++ PACK16 (b_valsz b) ++ PACK16 (b_nbuf b) ++
        PACK16 (b_bufsz b))
  else if ty =? Tleaf then Ok (PACK16 ty ++ PACK16 (b_nval b) ++ PACK16 (b_valsz b))
  else if (ty =? Tdlist) || (ty =? Tlog) then
    Ok (PACK16 ty ++ PACK16 (b_logsz b) ++ PACK64 logh ++ bp_bytes (b_logp b))
  else if ty =? Tdat then Ok []
  else if (ty =? Tarena) || (ty =? Tsuper) then Ok (PACK16 ty)
  else Err Eassert.

Definition finalize (b : Blk) : res Blk :=
  let! logh :=
    if (b_type b =? Tdlist) || (b_type b =? Tlog) then
      let! body := rd (b_buf b) Loghdsz (b_logsz b) in bufhash body (b_logsz b)
    else Ok (b_logh b) in
  let! h := header_bytes b logh in
  let! buf := wr (b_buf b) 0 h in
  let! hash := blkhash buf in
  Ok (mkBlk (b_type b) (b_nval b) (b_valsz b) (b_nbuf b) (b_bufsz b)
        (b_logsz b) logh (b_logp b) (mkBptr (bp_addr (b_bp b)) hash (bp_gen (b_bp b)))
        (setflag (b_flag b) (Z.lor Bdirty Bfinal) 0) buf).

(** ** Slotted areas

    [region buf base cap es]: the area of [cap] bytes at [base] holds the
    entries [es]: slot [i] holds the offset of entry [i], and the entries
    fill the end of the area. *)

Definition total (es : list (list Z)) : Z := foldr (fun e n => zlen e + n) 0 es.

Lemma setflag_bit f s c i : 0 <= i ->
  Z.testbit (setflag f s c) i = Z.testbit f i && negb (Z.testbit c i) || Z.testbit s i.
Proof. intros Hi. unfold setflag. by rewrite Z.lor_spec, Z.land_spec, Z.lnot_spec. Qed.

Lemma total_app es es' : total (es ++ es') = total es + total es'.
Proof. induction es as [|e es IH]; simpl; [done|]. rewrite IH. lia. Qed.
Lemma total_nonneg es : 0 <= total es.
Proof. induction es as [|e es IH]; simpl; [done|]. pose proof (zlen_nonneg e). lia. Qed.
Lemma total_lookup es i e : es !! i = Some e -> zlen e <= total es.
Proof.
  intros H. apply list_elem_of_split_length in H as (l1 & l2 & -> & _).
  rewrite total_app. simpl. pose proof (total_nonneg l1). pose proof (total_nonneg l2). lia.
Qed.

Record region (buf : list Z) (base cap : Z) (es : list (list Z)) : Prop := {
  rg_base : 0 <= base;
  rg_cap : cap < 2 ^ 15;
  rg_in : base + cap <= zlen buf;
  rg_room : 2 * zlen es + total es <= cap;
  rg_slot : forall i e, es !! i = Some e -> exists o,
    at_ buf (base + 2 * Z.of_nat i) (PACK16 o) /\
    cap - total es <= o /\ o + zlen e <= cap /\ at_ buf (base + o) e }.

Lemma region_slot buf base cap es i e :
  region buf base cap es -> es !! i = Some e ->
  exists o, rd16 buf (base + 2 * Z.of_nat i) = Ok o /\ 0 <= o /\ at_ buf (base + o) e.
Proof.
  intros H Hi. destruct (rg_slot _ _ _ _ H i e Hi) as (o & H1 & H2 & H3 & H4).
  exists o. pose proof (rg_room _ _ _ _ H). pose proof (rg_cap _ _ _ _ H).
  pose proof (zlen_nonneg es). pose proof (zlen_nonneg e).
  split; [|split; [lia|done]].
  rewrite (rd16_at _ _ o) by done. rewrite u16_small; [done|lia].
Qed.

Lemma region_frame buf buf' base cap es :
  region buf base cap es -> zlen buf' = zlen buf ->
  (forall o bs, base <= o -> o + zlen bs <= base + cap -> at_ buf o bs -> at_ buf' o bs) ->
  region buf' base cap es.
Proof.
  intros H Hl Hf. destruct H as [H1 H2 H3 H4 H5]. constructor; [done|done|lia|done|].
  intros i e Hi. destruct (H5 i e Hi) as (o & A & B & C & D). exists o.
  pose proof (zlen_nonneg es). pose proof (lookup_lt_Some _ _ _ Hi).
  pose proof (total_nonneg es). pose proof (total_lookup _ _ _ Hi).
  pose proof (zlen_nonneg e). unfold zlen in H4.
  split; [|split; [done|split; [done|]]]; apply Hf; try done;
    rewrite ?zlen_PACK16; unfold zlen in *; lia.
Qed.

Lemma region_nil buf base cap :
  0 <= base -> 0 <= cap < 2 ^ 15 -> base + cap <= zlen buf -> region buf base cap [].
Proof. intros. constructor; [lia|lia|lia|unfold zlen; simpl; lia|done]. Qed.

(** Adding an entry below the others and its slot after the others. *)
Lemma region_add buf base cap es e :
  region buf base cap es ->
  2 * (zlen es + 1) + total es + zlen e <= cap ->
  exists buf1 buf2,
    wr buf (base + 2 * zlen es) (PACK16 (cap - (total es + zlen e))) = Ok buf1 /\
    wr buf1 (base + (cap - (total es + zlen e))) e = Ok buf2 /\
    zlen buf2 = zlen buf /\ region buf2 base cap (es ++ [e]) /\
    (forall o bs, o + zlen bs <= base \/ base + cap <= o -> at_ buf o bs -> at_ buf2 o bs).
Proof.
  intros [H1 H2 H3 H4 H5] Hroom.
  pose proof (zlen_nonneg es). pose proof (total_nonneg es). pose proof (zlen_nonneg e).
  set (off := cap - (total es + zlen e)) in *.
  destruct (wr_ok buf (base + 2 * zlen es) (PACK16 off)) as (buf1 & E1 & L1);
    [lia|rewrite zlen_PACK16; lia|].
  destruct (wr_ok buf1 (base + off) e) as (buf2 & E2 & L2); [lia|lia|].
  exists buf1, buf2. split; [done|]. split; [done|]. split; [lia|].
  assert (Hkeep : forall o bs, at_ buf o bs ->
    o + zlen bs <= base + 2 * zlen es \/ base + 2 * zlen es + 2 <= o ->
    o + zlen bs <= base + off \/ base + off + zlen e <= o -> at_ buf2 o bs).
  { intros o bs Ha D1 D2. eapply wr_frame; [exact E2| |exact D2].
    eapply wr_frame; [exact E1|exact Ha|]. rewrite zlen_PACK16. done. }
  assert (Ht : total (es ++ [e]) = total es + zlen e).
  { rewrite total_app. simpl. lia. }
  split.
  - constructor; [done|done|lia| |].
    { rewrite Ht, zlen_app. change (zlen [e]) with 1. lia. }
    intros i e' Hi. rewrite Ht. apply lookup_app_Some in Hi as [Hi|[Hge Hi]].
    + destruct (H5 i e' Hi) as (o & A & B & C & D). exists o.
      pose proof (lookup_lt_Some _ _ _ Hi). pose proof (zlen_nonneg e').
      split; [|split; [lia|split; [lia|]]].
      * apply Hkeep; [done|..]; rewrite zlen_PACK16; unfold zlen in *; lia.
      * apply Hkeep; [done|..]; lia.
    + apply list_lookup_singleton_Some in Hi as [Hi <-].
      exists off. replace (Z.of_nat i) with (zlen es) by (unfold zlen; lia).
      split; [|split; [lia|split; [lia|]]].
      * eapply wr_frame; [exact E2|by eapply wr_at|]. rewrite zlen_PACK16. lia.
      * by eapply wr_at.
  - intros o bs Hd Ha. apply Hkeep; [done|lia|lia].
Qed.

(** ** What a block represents *)

Definition msg_ok (m : Msg) : Prop := - 128 <= m_op m < 128.

Record vals_repr (b : Blk) (vs : list Kvp) : Prop := {
  vr_type : b_type b = Tleaf \/ b_type b = Tpivot;
  vr_len : zlen (b_buf b) = Blksz;
  vr_nval : b_nval b = zlen vs;
  vr_valsz : b_valsz b = total (kv_bytes <$> vs);
  vr_region : region (b_buf b) (data_off b) (val_spc (b_type b)) (kv_bytes <$> vs) }.

Record msgs_repr (b : Blk) (ms : list Msg) : Prop := {
  mr_type : b_type b = Tpivot;
  mr_len : zlen (b_buf b) = Blksz;
  mr_nbuf : b_nbuf b = zlen ms;
  mr_bufsz : b_bufsz b = total (msg_bytes <$> ms);
  mr_ok : Forall msg_ok ms;
  mr_region : region (b_buf b) (data_off b + Pivspc) Bufspc (msg_bytes <$> ms) }.

Definition kvsz (kv : Kvp) : Z := 2 + zlen (kv_k kv) + 2 + zlen (kv_v kv).

Lemma zlen_kv_bytes kv : zlen (kv_bytes kv) = kvsz kv.
Proof. unfold kv_bytes, kvsz. rewrite !zlen_app, !zlen_PACK16. lia. Qed.
Lemma zlen_msg_bytes m : zlen (msg_bytes m) = msgsz m - 2.
Proof. unfold msg_bytes, msgsz. rewrite !zlen_app, !zlen_PACK16, zlen_PACK8. lia. Qed.
Lemma zlen_fmap {A B} (f : A -> B) l : zlen (f <$> l) = zlen l.
Proof. unfold zlen. by rewrite length_fmap. Qed.

Lemma fmap_lookup_some {A B} (f : A -> B) (l : list A) i x :
  l !! i = Some x -> (f <$> l) !! i = Some (f x).
Proof. intros H. by rewrite list_lookup_fmap, H. Qed.

Lemma val_spc_bound ty : 0 <= val_spc ty < 2 ^ 15.
Proof. unfold val_spc. by destruct (ty =? Tleaf). Qed.

Lemma getval_repr b vs i kv :
  vals_repr b vs -> vs !! i = Some kv -> getval b (Z.of_nat i) = Ok kv.
Proof.
  intros [Ht Hl Hn Hs Hr] Hi. unfold getval.
  pose proof (lookup_lt_Some _ _ _ Hi). rewrite Hn.
  rewrite (proj2 (Z.leb_le _ _)), (proj2 (Z.ltb_lt _ _)) by (unfold zlen; lia). cbn [andb].
  destruct (region_slot _ _ _ _ i (kv_bytes kv) Hr) as (o & -> & Ho & Ha).
  { by apply fmap_lookup_some. }
  cbn [rbind].
  assert (Hsz : kvsz kv < 2 ^ 15).
  { pose proof (total_lookup _ _ _ (fmap_lookup_some kv_bytes _ _ _ Hi)).
    rewrite zlen_kv_bytes in *. pose proof (rg_room _ _ _ _ Hr).
    pose proof (val_spc_bound (b_type b)). rewrite zlen_fmap in *.
    pose proof (zlen_nonneg vs). lia. }
  unfold kvsz in Hsz. pose proof (zlen_nonneg (kv_k kv)). pose proof (zlen_nonneg (kv_v kv)).
  unfold kv_bytes in Ha.
  apply at_app in Ha as [A1 Ha]. apply at_app in Ha as [A2 Ha]. apply at_app in Ha as [A3 A4].
  repeat rewrite zlen_PACK16 in A2; repeat rewrite zlen_PACK16 in A3; repeat rewrite zlen_PACK16 in A4.
  rewrite (rd16_at _ _ _ A1). cbn [rbind]. rewrite (u16_small (zlen (kv_k kv))) by lia.
  apply rd_at in A2. rewrite A2. cbn [rbind].
  rewrite (rd16_at _ _ _ A3). cbn [rbind].
  rewrite s16_u16, s16_small by lia.
  apply rd_at in A4. rewrite A4. cbn [rbind]. by destruct kv.
Qed.

Lemma getmsg_repr b ms i m :
  msgs_repr b ms -> ms !! i = Some m -> getmsg b (Z.of_nat i) = Ok m.
Proof.
  intros [Ht Hl Hn Hs Hok Hr] Hi. unfold getmsg. rewrite Ht at 1.
  change (Tpivot =? Tpivot) with true. cbv iota.
  pose proof (lookup_lt_Some _ _ _ Hi). rewrite Hn.
  rewrite (proj2 (Z.leb_le _ _)), (proj2 (Z.ltb_lt _ _)) by (unfold zlen; lia). cbn [andb].
  destruct (region_slot _ _ _ _ i (msg_bytes m) Hr) as (o & -> & Ho & Ha).
  { by apply fmap_lookup_some. }
  cbn [rbind].
  assert (Hsz : msgsz m < 2 ^ 15).
  { pose proof (total_lookup _ _ _ (fmap_lookup_some msg_bytes _ _ _ Hi)).
    rewrite zlen_msg_bytes in *. pose proof (rg_room _ _ _ _ Hr).
    rewrite zlen_fmap in *. pose proof (zlen_nonneg ms).
    change Bufspc with 8187 in *. lia. }
  unfold msgsz in Hsz. pose proof (zlen_nonneg (m_k m)). pose proof (zlen_nonneg (m_v m)).
  assert (Hop : msg_ok m) by (rewrite Forall_lookup in Hok; eauto). unfold msg_ok in Hop.
  unfold msg_bytes in Ha.
  apply at_app in Ha as [A0 Ha]. apply at_app in Ha as [A1 Ha].
  apply at_app in Ha as [A2 Ha]. apply at_app in Ha as [A3 A4].
  rewrite zlen_PACK8 in A1, A2, A3, A4. repeat rewrite zlen_PACK16 in A2; repeat rewrite zlen_PACK16 in A3; repeat rewrite zlen_PACK16 in A4.
  apply rd_at in A0. rewrite zlen_PACK8 in A0. rewrite A0. cbn [rbind].
  rewrite (rd16_at _ _ _ A1). cbn [rbind]. rewrite (u16_small (zlen (m_k m))) by lia.
  apply rd_at in A2. rewrite A2. cbn [rbind].
  rewrite (rd16_at _ _ _ A3). cbn [rbind].
  rewrite s16_u16, s16_small by lia.
  apply rd_at in A4. rewrite A4. cbn [rbind].
  rewrite UNPACK8_PACK8.
  replace (s8 (u8 (m_op m))) with (m_op m); [by destruct m|].
  unfold s8, u8. rewrite swrap_mod, swrap_small by lia. done.
Qed.

(** Two blocks with the same identity. *)
Definition blk_same (b b' : Blk) : Prop :=
  b_type b' = b_type b /\ b_bp b' = b_bp b /\ b_flag b' = b_flag b.

#[export] Instance blk_same_preorder : PreOrder blk_same.
Proof. split; [by intros b|]. intros a b c (? & ? & ?) (? & ? & ?). repeat split; congruence. Qed.

Lemma total_snoc es e : total (es ++ [e]) = total es + zlen e.
Proof. rewrite total_app. simpl. lia. Qed.

Lemma setval_repr b vs kv :
  vals_repr b vs ->
  2 * (zlen vs + 1) + b_valsz b + kvsz kv <= val_spc (b_type b) ->
  exists b', setval b kv = Ok b' /\ vals_repr b' (vs ++ [kv]) /\ blk_same b b' /\
    b_valsz b' = b_valsz b + kvsz kv /\
    (forall ms, msgs_repr b ms -> msgs_repr b' ms).
Proof.
  intros [Ht Hl Hn Hs Hr] Hroom. unfold setval.
  pose proof (val_spc_bound (b_type b)). pose proof (zlen_nonneg vs).
  pose proof (zlen_nonneg (kv_k kv)). pose proof (zlen_nonneg (kv_v kv)).
  pose proof (total_nonneg (kv_bytes <$> vs)) as Htn.
  rewrite s16_small by (unfold kvsz in Hroom; lia).
  fold (kvsz kv). rewrite Hn.
  rewrite (proj2 (Z.leb_le _ _)), (proj2 (Z.leb_le _ _)) by lia.
  destruct (region_add _ _ _ _ (kv_bytes kv) Hr) as (b1 & b2 & E1 & E2 & L & Hr2 & Hf).
  { rewrite zlen_fmap, zlen_kv_bytes. lia. }
  rewrite zlen_fmap, zlen_kv_bytes, <- Hs in *.
  rewrite E1. cbn [rbind]. rewrite E2. cbn [rbind].
  eexists. split; [done|].
  assert (Hty : val_spc (b_type b) <= Pivspc \/ b_type b = Tleaf).
  { unfold val_spc. destruct (Z.eqb_spec (b_type b) Tleaf); [by right|left; lia]. }
  split; [|split; [done|split; [done|]]].
  - constructor; cbn [set_vals set_buf b_type b_buf b_nval b_valsz]; try done.
    + lia.
    + rewrite zlen_app, s16_small; [done|]. unfold kvsz in *. lia.
    + rewrite fmap_app. cbn [fmap list_fmap]. rewrite total_snoc, zlen_kv_bytes. lia.
    + by rewrite fmap_app.
  - intros ms [Mt Ml Mn Ms Mo Mr].
    constructor; cbn [set_vals set_buf b_type b_buf b_nbuf b_bufsz]; try done; [lia|].
    apply (region_frame _ _ _ _ _ Mr); [lia|].
    intros o bs Ho1 Ho2 Ha. apply Hf; [|done]. right.
    unfold data_off, val_spc in *. rewrite Mt in *. cbn -[Pivspc] in *. lia.
Qed.

Lemma setmsg_repr b ms m :
  msgs_repr b ms -> msg_ok m ->
  2 * (zlen ms + 1) + b_bufsz b + (msgsz m - 2) <= Bufspc ->
  exists b', setmsg b m = Ok b' /\ msgs_repr b' (ms ++ [m]) /\ blk_same b b' /\
    b_bufsz b' = b_bufsz b + (msgsz m - 2) /\
    (forall vs, vals_repr b vs -> vals_repr b' vs).
Proof.
  intros [Ht Hl Hn Hs Ho Hr] Hm Hroom. unfold setmsg.
  pose proof (zlen_nonneg ms).
  pose proof (zlen_nonneg (m_k m)). pose proof (zlen_nonneg (m_v m)).
  pose proof (total_nonneg (msg_bytes <$> ms)) as Htn.
  assert (HB : Bufspc = 8187) by done.
  rewrite Ht. change (Tpivot =? Tpivot) with true. cbv iota.
  rewrite s16_small by (unfold msgsz in *; lia). rewrite Hn.
  destruct (region_add _ _ _ _ (msg_bytes m) Hr) as (b1 & b2 & E1 & E2 & L & Hr2 & Hf).
  { rewrite zlen_fmap, zlen_msg_bytes. lia. }
  rewrite zlen_fmap, zlen_msg_bytes, <- Hs in *.
  rewrite E1. cbn [rbind]. rewrite E2. cbn [rbind].
  eexists. split; [done|].
  split; [|split; [done|split; [done|]]].
  - constructor; cbn [set_msgs set_buf b_type b_buf b_nbuf b_bufsz]; try done.
    + lia.
    + rewrite zlen_app, s16_small; [done|]. change (zlen [m]) with 1. unfold msgsz in *. lia.
    + rewrite fmap_app. cbn [fmap list_fmap]. rewrite total_snoc, zlen_msg_bytes. lia.
    + apply Forall_app. split; [done|]. by constructor.
    + by rewrite fmap_app.
  - intros vs [Vt Vl Vn Vs Vr].
    constructor; cbn [set_msgs set_buf b_type b_buf b_nval b_valsz]; try done; [lia|].
    apply (region_frame _ _ _ _ _ Vr); [lia|].
    intros o bs Ho1 Ho2 Ha. apply Hf; [|done]. left.
    unfold data_off, val_spc in *. rewrite Ht in *. cbn -[Pivspc] in *. lia.
Qed.

(** An empty leaf or pivot. *)
Lemma vals_repr_init b addr gen ty :
  zlen (b_buf b) = Blksz -> ty = Tleaf \/ ty = Tpivot ->
  vals_repr (initblk b addr gen ty) [].
Proof.
  intros Hl Ht. constructor; cbn [initblk b_type b_buf b_nval b_valsz]; try done; try exact Hl.
  unfold data_off, val_spc. cbn [initblk b_type].
  destruct Ht as [-> | ->]; apply region_nil; rewrite ?Hl; vm_compute; done || (split; done).
Qed.

Lemma msgs_repr_init b addr gen :
  zlen (b_buf b) = Blksz -> msgs_repr (initblk b addr gen Tpivot) [].
Proof.
  intros Hl. constructor; cbn [initblk b_type b_buf b_nbuf b_bufsz]; try done; try exact Hl.
  apply region_nil; unfold data_off; cbn [initblk b_type]; rewrite ?Hl; vm_compute;
    done || (split; done).
Qed.

Lemma vals_size b vs :
  vals_repr b vs -> 2 * b_nval b + b_valsz b <= val_spc (b_type b).
Proof.
  intros [? ? Hn Hs Hr]. rewrite Hn, Hs. pose proof (rg_room _ _ _ _ Hr).
  by rewrite zlen_fmap in *.
Qed.

Lemma msgs_size b ms :
  msgs_repr b ms -> 2 * b_nbuf b + b_bufsz b <= Bufspc.
Proof.
  intros [? ? Hn Hs Ho Hr]. rewrite Hn, Hs. pose proof (rg_room _ _ _ _ Hr).
  by rewrite zlen_fmap in *.
Qed.

(** Every list that fits has a block: the invariants are satisfiable. *)
Lemma setvals_exist b vs vs' :
  vals_repr b vs ->
  2 * zlen (vs ++ vs') + total (kv_bytes <$> vs ++ vs') <= val_spc (b_type b) ->
  exists b', vals_repr b' (vs ++ vs') /\ blk_same b b' /\
    (forall ms, msgs_repr b ms -> msgs_repr b' ms).
Proof.
  revert b vs. induction vs' as [|v vs' IH]; intros b vs Hb Hs.
  { exists b. rewrite app_nil_r. by split. }
  assert (Hz : zlen (vs ++ v :: vs') = zlen vs + 1 + zlen vs').
  { rewrite zlen_app, zlen_cons. lia. }
  assert (Ht : total (kv_bytes <$> vs ++ v :: vs') =
    b_valsz b + kvsz v + total (kv_bytes <$> vs')).
  { rewrite fmap_app, total_app, (vr_valsz _ _ Hb), fmap_cons, <- zlen_kv_bytes.
    change (total (kv_bytes v :: (kv_bytes <$> vs'))) with (zlen (kv_bytes v) + total (kv_bytes <$> vs')).
    lia. }
  rewrite Hz, Ht in Hs. pose proof (zlen_nonneg vs').
  pose proof (total_nonneg (kv_bytes <$> vs')).
  destruct (setval_repr _ _ v Hb) as (b1 & _ & Hb1 & Hs1 & Hv1 & Hm1); [lia|].
  destruct (IH b1 (vs ++ [v]) Hb1) as (b2 & Hb2 & Hs2 & Hm2).
  { rewrite <- app_assoc. cbn [app]. rewrite Hz, Ht. destruct Hs1 as [-> _]. lia. }
  exists b2. rewrite <- app_assoc in Hb2. split; [done|]. split; [by etrans|]. auto.
Qed.

Lemma leaf_exists vs :
  2 * zlen vs + total (kv_bytes <$> vs) <= Leafspc ->
  exists b, vals_repr b vs /\ b_type b = Tleaf.
Proof.
  intros Hs. destruct (setvals_exist (initblk blkz 0 0 Tleaf) [] vs)
    as (b & Hb & Ht & _); [apply vals_repr_init; [apply zlen_zbuf|by left]|done|].
  exists b. split; [done|]. by destruct Ht as [-> _].
Qed.

Lemma setmsgs_exist b ms ms' :
  msgs_repr b ms -> Forall msg_ok ms' ->
  2 * zlen (ms ++ ms') + total (msg_bytes <$> ms ++ ms') <= Bufspc ->
  exists b', msgs_repr b' (ms ++ ms') /\ blk_same b b' /\
    (forall vs, vals_repr b vs -> vals_repr b' vs).
Proof.
  revert b ms. induction ms' as [|m ms' IH]; intros b ms Hb Ho Hs.
  { exists b. rewrite app_nil_r. by split. }
  apply Forall_cons in Ho as [Hom Ho].
  assert (Hz : zlen (ms ++ m :: ms') = zlen ms + 1 + zlen ms').
  { rewrite zlen_app, zlen_cons. lia. }
  assert (Ht : total (msg_bytes <$> ms ++ m :: ms') =
    b_bufsz b + (msgsz m - 2) + total (msg_bytes <$> ms')).
  { rewrite fmap_app, total_app, (mr_bufsz _ _ Hb), fmap_cons, <- zlen_msg_bytes.
    change (total (msg_bytes m :: (msg_bytes <$> ms'))) with (zlen (msg_bytes m) + total (msg_bytes <$> ms')).
    lia. }
  rewrite Hz, Ht in Hs. pose proof (zlen_nonneg ms').
  pose proof (total_nonneg (msg_bytes <$> ms')).
  destruct (setmsg_repr _ _ m Hb Hom) as (b1 & _ & Hb1 & Hs1 & Hv1 & Hm1); [lia|].
  destruct (IH b1 (ms ++ [m]) Hb1 Ho) as (b2 & Hb2 & Hs2 & Hm2).
  { rewrite <- app_assoc. cbn [app]. rewrite Hz, Ht. lia. }
  exists b2. rewrite <- app_assoc in Hb2. split; [done|]. split; [by etrans|]. auto.
Qed.

(** A block represents one list of values. *)
Lemma vals_repr_fun b vs ws : vals_repr b vs -> vals_repr b ws -> vs = ws.
Proof.
  intros Hv Hw. assert (Hl : length vs = length ws).
  { pose proof (vr_nval _ _ Hv). pose proof (vr_nval _ _ Hw). unfold zlen in *. lia. }
  apply list_eq. intros i. destruct (vs !! i) as [v|] eqn:Ev.
  - destruct (lookup_lt_is_Some_2 ws i) as [w Ew].
    { rewrite <- Hl. by eapply lookup_lt_Some. }
    pose proof (getval_repr _ _ _ _ Hv Ev) as E. rewrite (getval_repr _ _ _ _ Hw Ew) in E.
    injection E as ->. done.
  - apply lookup_ge_None in Ev. symmetry. apply lookup_ge_None. lia.
Qed.

Lemma pivot_exists vs ms :
  2 * zlen vs + total (kv_bytes <$> vs) <= Pivspc ->
  2 * zlen ms + total (msg_bytes <$> ms) <= Bufspc -> Forall msg_ok ms ->
  exists b, vals_repr b vs /\ msgs_repr b ms /\ b_type b = Tpivot.
Proof.
  intros Hv Hm Ho. set (b0 := initblk blkz 0 0 Tpivot).
  assert (Hm0 : msgs_repr b0 []) by apply msgs_repr_init, zlen_zbuf.
  destruct (setvals_exist b0 [] vs) as (b1 & Hb1 & Ht1 & Hm1);
    [apply vals_repr_init; [apply zlen_zbuf|by right]|done|].
  destruct (setmsgs_exist b1 [] ms (Hm1 _ Hm0) Ho Hm) as (b2 & Hb2 & Ht2 & Hv2).
  exists b2. split; [by apply Hv2|]. split; [done|].
  destruct Ht1 as [Ht1 _], Ht2 as [Ht2 _]. by rewrite Ht2, Ht1.
Qed.

(** ** Theorems *)

(** [setval] appends to the slotted page: when the entry fits, it
    succeeds, every earlier value and the new one are read back by [getval],
    and the buffered messages of a pivot are untouched. *)
Theorem setval_getval b vs kv :
  vals_repr b vs ->
  2 * (zlen vs + 1) + b_valsz b + (2 + zlen (kv_k kv) + 2 + zlen (kv_v kv)) <= val_spc (b_type b) ->
  exists b', setval b kv = Ok b' /\ vals_repr b' (vs ++ [kv]) /\
    (forall i w, (vs ++ [kv]) !! i = Some w -> getval b' (Z.of_nat i) = Ok w) /\
    (forall ms i m, msgs_repr b ms -> ms !! i = Some m -> getmsg b' (Z.of_nat i) = Ok m).
Proof.
  intros Hb Hs. destruct (setval_repr b vs kv Hb Hs) as (b' & E & Hb' & _ & _ & Hm).
  exists b'. split; [done|]. split; [done|]. split.
  - intros i w. by apply getval_repr.
  - intros ms i m Hms. by apply getmsg_repr, Hm.
Qed.

(** [setmsg] appends to the message buffer of a pivot: when the message
    fits, it and every earlier message are read back by [getmsg], and the
    children are untouched. *)
Theorem setmsg_getmsg b ms m :
  msgs_repr b ms -> msg_ok m ->
  2 * (zlen ms + 1) + b_bufsz b + (msgsz m - 2) <= Bufspc ->
  exists b', setmsg b m = Ok b' /\ msgs_repr b' (ms ++ [m]) /\
    (forall i w, (ms ++ [m]) !! i = Some w -> getmsg b' (Z.of_nat i) = Ok w) /\
    (forall vs i kv, vals_repr b vs -> vs !! i = Some kv -> getval b' (Z.of_nat i) = Ok kv).
Proof.
  intros Hb Ho Hs. destruct (setmsg_repr b ms m Hb Ho Hs) as (b' & E & Hb' & _ & _ & Hv).
  exists b'. split; [done|]. split; [done|]. split.
  - intros i w. by apply getmsg_repr.
  - intros vs i kv Hvs. by apply getval_repr, Hv.
Qed.

(** ** Witnesses *)

Definition kv_ex : Kvp := mkKvp [2; 5] [1].
Definition msg_ex : Msg := mkMsg Oinsert [2; 6] [9].

Lemma setval_getval_witness :
  exists b b', vals_repr b [kv_ex] /\ setval b (mkKvp [2; 7] [2]) = Ok b' /\
    getval b' 1 = Ok (mkKvp [2; 7] [2]).
Proof.
  destruct (leaf_exists [kv_ex]) as (b & Hb & Ht); [vm_compute; discriminate|].
  destruct (setval_getval b [kv_ex] (mkKvp [2; 7] [2]) Hb) as (b' & E & _ & Hg & _).
  { rewrite (vr_valsz _ _ Hb), Ht. vm_compute. discriminate. }
  exists b, b'. split; [done|]. split; [done|]. by apply (Hg 1%nat).
Defined.

Lemma setmsg_getmsg_witness :
  exists b b', msgs_repr b [msg_ex] /\ setmsg b msg_ex = Ok b' /\ getmsg b' 0 = Ok msg_ex.
Proof.
  destruct (pivot_exists [kv_ex] [msg_ex]) as (b & _ & Hb & _);
    [vm_compute; discriminate|vm_compute; discriminate|repeat constructor; done|].
  destruct (setmsg_getmsg b [msg_ex] msg_ex Hb) as (b' & E & _ & Hg & _).
  { split; done. }
  { rewrite (mr_bufsz _ _ Hb). vm_compute. discriminate. }
  exists b, b'. split; [done|]. split; [done|]. by apply (Hg 0%nat).
Defined.
