(* ===== verification/Search.v ===== *)
(** * Binary search in a block (src/tree.c: [bufsearch], [blksearch]) *)
From S2P Require Import Prelude CInt Mem Data Keys Blk.

(** The loop both functions share: [get mid] loads the key at [mid]. *)
Fixpoint search_loop (fuel : nat) (get : Z -> res (list Z)) (k : list Z)
    (lo hi ri : Z) : res (Z * Z) :=
  if hi <? lo then Ok (lo, ri) else
  match fuel with
  | O => Err Efuel
  | S fuel' =>
      let mid := (hi + lo) / 2 in
      let! cmp := get mid in
      let r := keycmp k cmp in
      if r =? -1 then search_loop fuel' get k lo (mid - 1) ri
      else if r =? 0 then search_loop fuel' get k lo (mid - 1) mid
      else search_loop fuel' get k (mid + 1) hi ri
  end.

(** The index, [*same], and [*m] when it is written. *)
Definition bufsearch (b : Blk) (k : list Z) : res (Z * bool * option Msg) :=
  let! (lo, ri) := search_loop (Z.to_nat (b_nbuf b))
    (fun mid => let! cmp := getmsg b mid in Ok (m_k cmp)) k 0 (b_nbuf b - 1) (-1) in
  let (ri, same) := if ri =? -1 then (lo - 1, false) else (ri, true) in
  if 0 <=? ri then let! m := getmsg b ri in Ok (ri, same, Some m)
  else Ok (ri, same, None).

Definition blksearch (b : Blk) (k : list Z) : res (Z * bool * option Kvp) :=
  let! (lo, ri) := search_loop (Z.to_nat (b_nval b))
    (fun mid => let! cmp := getval b mid in Ok (kv_k cmp)) k 0 (b_nval b - 1) (-1) in
  let (ri, same) := if ri =? -1 then (lo - 1, false) else (ri, true) in
  if 0 <=? ri then let! kv := getval b ri in Ok (ri, same, Some kv)
  else Ok (ri, same, None).

(** ** The specification: the position of a key *)

Definition ksorted (ks : list (list Z)) : Prop := StronglySorted kle ks.

(** [n] keys are below [k], and all the others are not. *)
Definition is_rank (ks : list (list Z)) (k : list Z) (n : nat) : Prop :=
  (n <= length ks)%nat /\
  (forall i x, ks !! i = Some x -> (i < n)%nat -> klt x k) /\
  (forall i x, ks !! i = Some x -> (n <= i)%nat -> kle k x).

Lemma sorted_lookup {A} (R : A -> A -> Prop) l i j x y :
  StronglySorted R l -> (i < j)%nat -> l !! i = Some x -> l !! j = Some y -> R x y.
Proof.
  intros Hs Hij Hi Hj. apply list_elem_of_split_length in Hi as (l1 & l2 & -> & ->).
  apply StronglySorted_app in Hs as (_ & _ & Hs). apply StronglySorted_cons in Hs as [Hf _].
  rewrite lookup_app_r in Hj by lia.
  destruct (j - length l1)%nat as [|j'] eqn:E; [lia|].
  rewrite Forall_lookup in Hf. eauto.
Qed.

Lemma ksorted_lookup ks i j x y :
  ksorted ks -> (i <= j)%nat -> ks !! i = Some x -> ks !! j = Some y -> kle x y.
Proof.
  intros Hs Hij Hi Hj. destruct (decide (i = j)) as [->|Hne].
  - rewrite Hi in Hj. injection Hj as ->. reflexivity.
  - eapply (sorted_lookup kle ks i j); eauto. lia.
Qed.

(** What the two searches return. *)
Definition found (ks : list (list Z)) (k : list Z) (ri : Z) (same : bool) : Prop :=
  exists n, is_rank ks k n /\
    if same then ri = Z.of_nat n /\ ks !! n = Some k
    else ri = Z.of_nat n - 1 /\ k ∉ ks.

(** The loop invariant: everything before [lo] is below [k], everything
    after [hi] is not, and [ri] is the last hit. *)
Record sinv (ks : list (list Z)) (k : list Z) (lo hi ri : Z) : Prop := {
  si_bounds : 0 <= lo <= hi + 1 /\ hi < zlen ks;
  si_low : forall i x, ks !! i = Some x -> Z.of_nat i < lo -> klt x k;
  si_high : forall i x, ks !! i = Some x -> hi < Z.of_nat i -> kle k x;
  si_ri : (ri = -1 /\ forall i x, ks !! i = Some x -> hi < Z.of_nat i -> klt k x) \/
          (ri = hi + 1 /\ ks !! Z.to_nat ri = Some k) }.

Lemma search_loop_spec ks k get fuel lo hi ri :
  ksorted ks ->
  (forall i x, ks !! i = Some x -> get (Z.of_nat i) = Ok x) ->
  sinv ks k lo hi ri -> hi - lo + 1 <= Z.of_nat fuel ->
  exists lo' ri', search_loop fuel get k lo hi ri = Ok (lo', ri') /\ sinv ks k lo' (lo' - 1) ri'.
Proof.
  intros Hs Hget. revert lo hi ri. induction fuel as [|fuel IH]; intros lo hi ri Hi Hf;
    pose proof (si_bounds _ _ _ _ _ Hi) as [Hb1 Hb2]; cbn [search_loop].
  { rewrite (proj2 (Z.ltb_lt _ _)) by lia. exists lo, ri. split; [done|].
    by replace (lo - 1) with hi by lia. }
  destruct (Z.ltb_spec hi lo) as [Hlt|Hge].
  { exists lo, ri. split; [done|]. by replace (lo - 1) with hi by lia. }
  set (mid := (hi + lo) / 2).
  assert (Hm : lo <= mid <= hi) by (unfold mid; Z.to_euclidean_division_equations; lia).
  destruct (lookup_lt_is_Some_2 ks (Z.to_nat mid)) as [x Hx]; [unfold zlen in *; lia|].
  assert (Hg : get mid = Ok x) by (rewrite <- (Z2Nat.id mid) by lia; by apply Hget).
  rewrite Hg. cbn [rbind].
  assert (Hdown : kle k x -> forall i y, ks !! i = Some y -> mid - 1 < Z.of_nat i -> kle k y).
  { intros Hkx i y Hy Hgt. etrans; [exact Hkx|]. eapply ksorted_lookup; [done| |done|done]. lia. }
  destruct (keycmpP k x) as [Hc|Hc|Hc]; cbn [Z.eqb Pos.eqb].
  - apply IH; [|lia]. destruct Hi as [_ Hl Hh Hr]. constructor; [lia|done|by apply Hdown, klt_kle|].
    destruct Hr as [[-> Hr]|[-> Hr]].
    + left. split; [done|]. intros i y Hy Hgt. eapply klt_kle_trans; [exact Hc|].
      eapply ksorted_lookup; [done| |done|done]. lia.
    + exfalso. apply (klt_not_kle _ _ Hc). eapply (ksorted_lookup ks); [done| |exact Hx|exact Hr]. lia.
  - subst x. apply IH; [|lia]. destruct Hi as [_ Hl Hh Hr].
    constructor; [lia|done|apply Hdown; reflexivity|]. right. split; [lia|done].
  - apply IH; [|lia]. destruct Hi as [_ Hl Hh Hr]. constructor; [lia| |done|done].
    intros i y Hy Hlt. eapply kle_klt_trans; [|exact Hc].
    eapply ksorted_lookup; [done| |done|done]. lia.
Qed.

Lemma search_found ks k lo ri :
  sinv ks k lo (lo - 1) ri ->
  let (ri, same) := if ri =? -1 then (lo - 1, false) else (ri, true) in
  found ks k ri same /\ -1 <= ri < zlen ks.
Proof.
  intros [[Hb1 Hb2] Hl Hh Hr].
  assert (Hrank : is_rank ks k (Z.to_nat lo)).
  { split; [unfold zlen in *; lia|]. split; intros i x Hx Hi; [eapply Hl|eapply Hh]; eauto; lia. }
  destruct Hr as [[-> Hr]|[-> Hr]].
  - cbn [Z.eqb]. split; [|lia]. exists (Z.to_nat lo). split; [done|]. split; [lia|].
    intros [i Hi]%list_elem_of_lookup. destruct (Z.lt_ge_cases (Z.of_nat i) lo).
    + eapply klt_irrefl, Hl; eauto.
    + eapply klt_irrefl, (Hr i); eauto. lia.
  - rewrite (proj2 (Z.eqb_neq _ _)) by lia.
    replace (lo - 1 + 1) with lo in * by lia.
    pose proof (lookup_lt_Some _ _ _ Hr). split; [|unfold zlen; lia].
    exists (Z.to_nat lo). split; [done|]. split; [lia|done].
Qed.

Lemma search_start ks k : sinv ks k 0 (zlen ks - 1) (-1).
Proof.
  pose proof (zlen_nonneg ks). constructor; [lia|lia| |left; split; [done|]];
    intros i x Hx Hi; apply lookup_lt_Some in Hx; unfold zlen in Hi; lia.
Qed.

Definition vkeys (vs : list Kvp) : list (list Z) := kv_k <$> vs.
Definition mkeys (ms : list Msg) : list (list Z) := m_k <$> ms.

Lemma blksearch_repr b vs k :
  vals_repr b vs -> ksorted (vkeys vs) ->
  exists ri same, found (vkeys vs) k ri same /\
    blksearch b k = Ok (ri, same, if 0 <=? ri then vs !! Z.to_nat ri else None) /\
    -1 <= ri < zlen vs.
Proof.
  intros Hr Hs. unfold blksearch. rewrite (vr_nval _ _ Hr).
  destruct (search_loop_spec (vkeys vs) k
    (fun mid => let! cmp := getval b mid in Ok (kv_k cmp)) (Z.to_nat (zlen vs))
    0 (zlen vs - 1) (-1) Hs) as (lo & ri & -> & Hi).
  - intros i x (kv & -> & Hkv)%list_lookup_fmap_Some. by rewrite (getval_repr _ _ _ _ Hr Hkv).
  - replace (zlen vs) with (zlen (vkeys vs)) by apply zlen_fmap. apply search_start.
  - pose proof (zlen_nonneg vs). lia.
  - cbn [rbind]. apply search_found in Hi. destruct (if ri =? -1 then _ else _) as [ri' same].
    destruct Hi as [Hf Hb]. unfold vkeys in Hb. rewrite zlen_fmap in Hb.
    exists ri', same. split; [done|]. split; [|done].
    destruct (Z.leb_spec 0 ri'); [|done].
    destruct (znth_lt vs ri' ltac:(lia)) as (kv & _ & Hkv).
    pose proof (getval_repr _ _ _ _ Hr Hkv) as Hg. rewrite Z2Nat.id in Hg by done.
    by rewrite Hg, Hkv.
Qed.

Lemma bufsearch_repr b ms k :
  msgs_repr b ms -> ksorted (mkeys ms) ->
  exists ri same, found (mkeys ms) k ri same /\
    bufsearch b k = Ok (ri, same, if 0 <=? ri then ms !! Z.to_nat ri else None) /\
    -1 <= ri < zlen ms.
Proof.
  intros Hr Hs. unfold bufsearch. rewrite (mr_nbuf _ _ Hr).
  destruct (search_loop_spec (mkeys ms) k
    (fun mid => let! cmp := getmsg b mid in Ok (m_k cmp)) (Z.to_nat (zlen ms))
    0 (zlen ms - 1) (-1) Hs) as (lo & ri & -> & Hi).
  - intros i x (m & -> & Hm)%list_lookup_fmap_Some. by rewrite (getmsg_repr _ _ _ _ Hr Hm).
  - replace (zlen ms) with (zlen (mkeys ms)) by apply zlen_fmap. apply search_start.
  - pose proof (zlen_nonneg ms). lia.
  - cbn [rbind]. apply search_found in Hi. destruct (if ri =? -1 then _ else _) as [ri' same].
    destruct Hi as [Hf Hb]. unfold mkeys in Hb. rewrite zlen_fmap in Hb.
    exists ri', same. split; [done|]. split; [|done].
    destruct (Z.leb_spec 0 ri'); [|done].
    destruct (znth_lt ms ri' ltac:(lia)) as (m & _ & Hm).
    pose proof (getmsg_repr _ _ _ _ Hr Hm) as Hg. rewrite Z2Nat.id in Hg by done.
    by rewrite Hg, Hm.
Qed.

(** ** Theorems *)

(** [blksearch] finds the place of a key in a sorted block: it returns
    the index of the first value with the key and [same], or the index of the
    last value below the key (-1 when there is none), and loads that value. *)
Theorem blksearch_rank b vs k :
  vals_repr b vs -> ksorted (vkeys vs) ->
  exists ri same, found (vkeys vs) k ri same /\ -1 <= ri < zlen vs /\
    blksearch b k = Ok (ri, same, if 0 <=? ri then vs !! Z.to_nat ri else None).
Proof.
  intros Hb Hs. destruct (blksearch_repr b vs k Hb Hs) as (ri & same & ? & ? & ?). by exists ri, same.
Qed.

(** [bufsearch] does the same in the message buffer of a pivot; among
    several messages with the key it finds the oldest. *)
Theorem bufsearch_rank b ms k :
  msgs_repr b ms -> ksorted (mkeys ms) ->
  exists ri same, found (mkeys ms) k ri same /\ -1 <= ri < zlen ms /\
    bufsearch b k = Ok (ri, same, if 0 <=? ri then ms !! Z.to_nat ri else None).
Proof.
  intros Hb Hs. destruct (bufsearch_repr b ms k Hb Hs) as (ri & same & ? & ? & ?). by exists ri, same.
Qed.

(** ** Witnesses *)

Lemma blksearch_rank_witness :
  exists b ri same, vals_repr b [kv_ex] /\ found (vkeys [kv_ex]) [2; 5] ri same /\
    blksearch b [2; 5] = Ok (ri, same, if 0 <=? ri then [kv_ex] !! Z.to_nat ri else None).
Proof.
  destruct (leaf_exists [kv_ex]) as (b & Hb & _); [vm_compute; discriminate|].
  destruct (blksearch_rank b [kv_ex] [2; 5] Hb) as (ri & same & Hf & _ & E);
    [repeat constructor|].
  by exists b, ri, same.
Defined.

Lemma bufsearch_rank_witness :
  exists b ri same, msgs_repr b [msg_ex] /\ found (mkeys [msg_ex]) [2; 6] ri same /\
    bufsearch b [2; 6] = Ok (ri, same, if 0 <=? ri then [msg_ex] !! Z.to_nat ri else None).
Proof.
  destruct (pivot_exists [kv_ex] [msg_ex]) as (b & _ & Hb & _);
    [vm_compute; discriminate|vm_compute; discriminate|repeat constructor; done|].
  destruct (bufsearch_rank b [msg_ex] [2; 6] Hb) as (ri & same & Hf & _ & E);
    [repeat constructor|].
  by exists b, ri, same.
Defined.
