(* ===== verification/Apply.v ===== *)
(** * Applying messages to values (src/tree.c: [cpkvp], [statupdate], [apply])

    The first half translates the functions; the second defines what a run
    of messages does to one key, the reference of the leaf update and of
    lookups. *)
From S2P Require Import Prelude CInt Mem Data Keys Pack Blk.

(** [cpkvp]: the copy has the key and the value of the source. *)
Definition cpkvp (src : Kvp) (nbuf : Z) : res Kvp :=
  assert! zlen (kv_k src) + zlen (kv_v src) <=? nbuf in Ok src.

Definition set_vers (d : Xdir) (v : Z) : Xdir :=
  mkXdir (d_flag d) (mkQid (q_path (d_qid d)) v (q_type (d_qid d))) (d_mode d) (d_atime d)
    (d_mtime d) (d_length d) (d_uid d) (d_gid d) (d_muid d) (d_name d).
Definition set_length (d : Xdir) (v : Z) : Xdir :=
  mkXdir (d_flag d) (d_qid d) (d_mode d) (d_atime d)
    (d_mtime d) v (d_uid d) (d_gid d) (d_muid d) (d_name d).
Definition set_mode (d : Xdir) (v : Z) : Xdir :=
  mkXdir (d_flag d) (mkQid (q_path (d_qid d)) (q_vers (d_qid d)) (u8 (Z.shiftr v 24))) v
    (d_atime d) (d_mtime d) (d_length d) (d_uid d) (d_gid d) (d_muid d) (d_name d).
Definition set_mtime (d : Xdir) (v : Z) : Xdir :=
  mkXdir (d_flag d) (d_qid d) (d_mode d) (d_atime d)
    v (d_length d) (d_uid d) (d_gid d) (d_muid d) (d_name d).
Definition set_atime (d : Xdir) (v : Z) : Xdir :=
  mkXdir (d_flag d) (d_qid d) (d_mode d) v
    (d_mtime d) (d_length d) (d_uid d) (d_gid d) (d_muid d) (d_name d).
Definition set_uid (d : Xdir) (v : Z) : Xdir :=
  mkXdir (d_flag d) (d_qid d) (d_mode d) (d_atime d)
    (d_mtime d) (d_length d) v (d_gid d) (d_muid d) (d_name d).
Definition set_gid (d : Xdir) (v : Z) : Xdir :=
  mkXdir (d_flag d) (d_qid d) (d_mode d) (d_atime d)
    (d_mtime d) (d_length d) (d_uid d) v (d_muid d) (d_name d).
Definition set_muid (d : Xdir) (v : Z) : Xdir :=
  mkXdir (d_flag d) (d_qid d) (d_mode d) (d_atime d)
    (d_mtime d) (d_length d) (d_uid d) (d_gid d) v (d_name d).

(** One optional field of a wstat message: [w] bytes at the cursor [p]. *)
Definition wstat64 (v : list Z) (op flag : Z) (f : Xdir -> Z -> Xdir) (st : Xdir * Z)
  : res (Xdir * Z) :=
  let '(d, p) := st in
  if negb (Z.land op flag =? 0) then let! x := rd64 v p in Ok (f d x, p + 8) else Ok st.

Definition wstat32 (v : list Z) (op flag : Z) (f : Xdir -> Z -> Xdir) (st : Xdir * Z)
  : res (Xdir * Z) :=
  let '(d, p) := st in
  if negb (Z.land op flag =? 0) then let! x := rd32 v p in Ok (f d x, p + 4) else Ok st.

(** The value is repacked in place. *)
Definition statupdate (kv : Kvp) (m : Msg) : res Kvp :=
  let v := m_v m in
  let! opb := rd v 0 1 in
  let op := s8 (UNPACK8 opb) in
  let! d := kv2dir kv in
  let d := set_vers d (u32 (q_vers (d_qid d) + 1)) in
  let! st := wstat64 v op Owsize set_length (d, 1) in
  let! st := wstat32 v op Owmode set_mode st in
  let! st := wstat64 v op Owmtime (fun d x => set_mtime d (s64 x)) st in
  let! st := wstat64 v op Owatime (fun d x => set_atime d (s64 x)) st in
  let! st := wstat32 v op Owuid (fun d x => set_uid d (s32 x)) st in
  let! st := wstat32 v op Owgid (fun d x => set_gid d (s32 x)) st in
  let! (d, p) := wstat32 v op Owmuid (fun d x => set_muid d (s32 x)) st in
  if negb (p =? zlen v) then Err Eassert else
  let! w := packdval (zlen (kv_v kv)) d in
  Ok (mkKvp (kv_k kv) w).

Definition set_link (op : Z) (t : Tree) (x : Z) : Tree :=
  mkTree (t_snap t) (t_memref t) (t_memgen t) (t_dirty t) (t_nref t) (t_nlbl t) (t_ht t)
    (t_flag t) (t_bp t) (t_gen t)
    (if op =? Orelink then t_pred t else x) (if op =? Orelink then x else t_succ t) (t_base t).

Definition set_counts (t : Tree) (nlbl nref : Z) : Tree :=
  mkTree (t_snap t) (t_memref t) (t_memgen t) (t_dirty t) nref nlbl (t_ht t)
    (t_flag t) (t_bp t) (t_gen t) (t_pred t) (t_succ t) (t_base t).

(** [Orelink]/[Oreprev]: a new neighbour and two signed count changes. *)
Definition retag (kv : Kvp) (m : Msg) : res Kvp :=
  let! t := unpacktree (kv_v kv) (zlen (kv_v kv)) in
  let! link := rd64 (m_v m) 0 in
  let! dl := rd (m_v m) 8 1 in
  let! dr := rd (m_v m) 9 1 in
  let t := set_link (m_op m) t (s64 link) in
  let nlbl := s32 (t_nlbl t + s8 (UNPACK8 dl)) in
  let nref := s32 (t_nref t + s8 (UNPACK8 dr)) in
  assert! (0 <=? nlbl) && (0 <=? nref) in
  assert! zlen (m_v m) =? 10 in
  let! w := packtree (zlen (kv_v kv)) (set_counts t nlbl nref) in
  Ok (mkKvp (kv_k kv) (w ++ drop (Z.to_nat Treesz) (kv_v kv))).

(** The result flag says whether the key has a value afterwards. *)
Definition apply (kv : Kvp) (m : Msg) (nbuf : Z) : res (bool * Kvp) :=
  let op := m_op m in
  if op =? Odelete then
    assert! keycmp (kv_k kv) (m_k m) =? 0 in Ok (false, kv)
  else if (op =? Oclearb) || (op =? Oclobber) then Ok (false, kv)
  else if op =? Oinsert then let! kv := cpkvp (kv_of_msg m) nbuf in Ok (true, kv)
  else if op =? Owstat then
    assert! keycmp (kv_k kv) (m_k m) =? 0 in
    let! kv := statupdate kv m in Ok (true, kv)
  else if (op =? Orelink) || (op =? Oreprev) then
    let! kv := retag kv m in Ok (true, kv)
  else Err Eassert.

(** ** Runs of messages for one key *)

(** The data block a message makes unreachable: the code frees it when a
    data pointer is overwritten, cleared or deleted. *)
Definition freed_by (kv : Kvp) (m : Msg) : res (list Bptr) :=
  if bool_decide (head (kv_k kv) = Some Kdat) &&
     ((m_op m =? Oclearb) || (m_op m =? Oinsert) || (m_op m =? Odelete))
  then let! bp := unpackbp (kv_v kv) (zlen (kv_v kv)) in Ok [bp]
  else Ok [].

(** The state of a key: does it have a value, and the working copy. *)
Definition start_absent (m : Msg) : bool * Kvp :=
  (negb ((m_op m =? Oclearb) || (m_op m =? Oclobber)), kv_of_msg m).

(** Apply the leading messages with the key of the working copy; give back
    the state, the freed pointers and the rest. *)
Fixpoint run (ok : bool) (v : Kvp) (ms : list Msg) (nbuf : Z)
  : res (bool * Kvp * list Bptr * list Msg) :=
  match ms with
  | [] => Ok (ok, v, [], [])
  | m :: ms' =>
      if keycmp (kv_k v) (m_k m) =? 0 then
        let! fr := if ok then freed_by v m else Ok [] in
        let! (ok, v) := apply v m nbuf in
        let! (ok, v, fr', rest) := run ok v ms' nbuf in
        Ok (ok, v, fr ++ fr', rest)
      else Ok (ok, v, [], m :: ms')
  end.

(** ** Facts about [apply] *)

Lemma kv2dir_len kv d : kv2dir kv = Ok d -> zlen (kv_v kv) = 61.
Proof.
  unfold kv2dir. intros H.
  destruct (9 <=? zlen (kv_k kv)); [|done].
  bind_inv H as [name rest] E0. cbv beta iota zeta in H.
  do 11 bind_skip H.
  destruct (zlen rest =? 0); [|done]. cbn [negb] in H.
  destruct (Z.eqb_spec (zlen (kv_v kv)) 61); [done|]. done.
Qed.

Lemma statupdate_shape kv m kv' :
  statupdate kv m = Ok kv' -> kv_k kv' = kv_k kv /\ zlen (kv_v kv') = zlen (kv_v kv).
Proof.
  unfold statupdate. intros H.
  bind_inv H as opb Eb. bind_inv H as d Hd.
  cbv zeta in H.
  do 6 bind_skip H. bind_inv H as [d' p] Ep.
  destruct (negb _); [done|]. bind_inv H as w Hw. injection H as <-.
  apply packdval_inv in Hw as [-> _]. cbn [kv_k kv_v].
  split; [done|]. rewrite zlen_dval_bytes. symmetry. by eapply kv2dir_len.
Qed.

Lemma retag_shape kv m kv' :
  retag kv m = Ok kv' -> kv_k kv' = kv_k kv /\ zlen (kv_v kv') = zlen (kv_v kv).
Proof.
  unfold retag. intros H.
  bind_inv H as t Ht.
  do 3 bind_skip H. cbv zeta in H.
  destruct (_ && _); [|done]. destruct (_ =? 10); [|done].
  bind_inv H as w Hw. injection H as <-.
  unfold packtree in Hw. unfold unpacktree in Ht.
  destruct (Z.leb_spec Treesz (zlen (kv_v kv))) as [Hle|]; [|done]. injection Hw as <-.
  cbn [kv_k kv_v]. split; [done|].
  rewrite zlen_app. change (zlen _) with Treesz at 1.
  unfold zlen in *. rewrite length_drop. change Treesz with 72 in *. lia.
Qed.

Definition kvlen (kv : Kvp) : Z := zlen (kv_k kv) + zlen (kv_v kv).

Lemma kvsz_kvlen kv : kvsz kv = 4 + kvlen kv.
Proof. unfold kvsz, kvlen. lia. Qed.
Lemma msgsz_kvlen m : msgsz m = 7 + kvlen (kv_of_msg m).
Proof. unfold msgsz, kvlen. cbn [kv_of_msg kv_k kv_v]. lia. Qed.

Lemma cpkvp_inv kv nbuf kv' : cpkvp kv nbuf = Ok kv' -> kv' = kv /\ kvlen kv <= nbuf.
Proof.
  unfold cpkvp. fold (kvlen kv). destruct (Z.leb_spec (kvlen kv) nbuf); [|done].
  by intros [= <-].
Qed.
Lemma cpkvp_ok kv nbuf : kvlen kv <= nbuf -> cpkvp kv nbuf = Ok kv.
Proof. intros. unfold cpkvp. fold (kvlen kv). by rewrite (proj2 (Z.leb_le _ _)). Qed.

(** [apply] keeps the key, and never makes a value longer than the value it
    had or the message it applies. *)
Lemma apply_shape v m nbuf ok v' :
  apply v m nbuf = Ok (ok, v') -> kv_k v = m_k m ->
  kv_k v' = kv_k v /\ kvlen v' <= Z.max (kvlen v) (kvlen (kv_of_msg m)).
Proof.
  unfold apply. intros H Hk.
  destruct (m_op m =? Odelete).
  { destruct (_ =? 0); [|done]. injection H as <- <-. split; [done|lia]. }
  destruct (_ || _); [injection H as <- <-; split; [done|lia]|].
  destruct (m_op m =? Oinsert).
  { bind_inv H as c Ec. apply cpkvp_inv in Ec as [-> ?]. injection H as <- <-.
    split; [done|lia]. }
  destruct (m_op m =? Owstat).
  { destruct (_ =? 0); [|done]. bind_inv H as c Ec. apply statupdate_shape in Ec as [E1 E2].
    injection H as <- <-. split; [done|]. unfold kvlen. rewrite E1, E2. lia. }
  destruct (_ || _); [|done].
  bind_inv H as c Ec. apply retag_shape in Ec as [E1 E2]. injection H as <- <-.
  split; [done|]. unfold kvlen. rewrite E1, E2. lia.
Qed.

Lemma run_key ok v ms nbuf ok' v' fr rest :
  run ok v ms nbuf = Ok (ok', v', fr, rest) -> kv_k v' = kv_k v.
Proof.
  revert ok v fr ok' v' rest.
  induction ms as [|m ms IH]; intros ok v fr ok' v' rest H; cbn [run] in H.
  { by injection H as <- <- _ _. }
  destruct (Z.eqb_spec (keycmp (kv_k v) (m_k m)) 0) as [Hc|].
  2:{ by injection H as <- <- _ _. }
  bind_inv H as fr0 E0. bind_inv H as [ok1 v1] Ha.
  bind_inv H as [[[ok2 v2] fr2] rest2] Hr. injection H as <- <- _ _.
  apply keycmp_eq in Hc. apply apply_shape in Ha as [Hk _]; [|done].
  rewrite (IH _ _ _ _ _ _ Hr). done.
Qed.

(** Total size of messages in a buffer, slots included. *)
Definition msgs_tot (ms : list Msg) : Z := foldr (fun m n => msgsz m + n) 0 ms.

Lemma msgsz_pos m : 7 <= msgsz m.
Proof.
  unfold msgsz. pose proof (zlen_nonneg (m_k m)). pose proof (zlen_nonneg (m_v m)). lia.
Qed.
Lemma msgs_tot_app ms ms' : msgs_tot (ms ++ ms') = msgs_tot ms + msgs_tot ms'.
Proof. induction ms as [|m ms IH]; simpl; [done|]. rewrite IH. lia. Qed.
Lemma msgs_tot_nonneg ms : 0 <= msgs_tot ms.
Proof. induction ms as [|m ms IH]; simpl; [done|]. pose proof (msgsz_pos m). lia. Qed.

(** What a run consumes, and how large the value can get. *)
Lemma run_split ok v ms nbuf ok' v' fr rest :
  run ok v ms nbuf = Ok (ok', v', fr, rest) ->
  exists seg, ms = seg ++ rest /\ Forall (fun m => m_k m = kv_k v) seg /\
    (forall m, head rest = Some m -> m_k m <> kv_k v) /\
    kvlen v' <= kvlen v + msgs_tot seg /\
    (seg = [] -> ok' = ok /\ v' = v /\ fr = []).
Proof.
  revert ok v fr ok' v' rest.
  induction ms as [|m ms IH]; intros ok v fr ok' v' rest H; cbn [run] in H.
  { injection H as <- <- <- <-. exists []. repeat split; [constructor|done|simpl; lia]. }
  destruct (Z.eqb_spec (keycmp (kv_k v) (m_k m)) 0) as [Hc|Hc].
  2:{ injection H as <- <- <- <-. exists []. split; [done|]. split; [constructor|].
      split; [|split; [simpl; lia|done]]. intros m' [= <-] E. by rewrite E, keycmp_refl in Hc. }
  bind_inv H as fr0 Ef. bind_inv H as [ok1 v1] Ha.
  bind_inv H as [[[ok2 v2] fr2] rest2] Hr. injection H as <- <- _ <-.
  apply keycmp_eq in Hc. apply apply_shape in Ha as [Hk Hl]; [|done].
  destruct (IH _ _ _ _ _ _ Hr) as (seg & -> & Hs & Hh & Hl2 & _).
  exists (m :: seg). rewrite Hk in *. split; [done|]. split; [by constructor|].
  split; [done|]. split; [|done]. cbn [msgs_tot foldr].
  fold (msgs_tot seg). rewrite msgsz_kvlen. 
  pose proof (zlen_nonneg (kv_k v)). pose proof (zlen_nonneg (kv_v v)).
  unfold kvlen in *. cbn [kv_of_msg kv_k kv_v] in *.
  pose proof (zlen_nonneg (m_k m)). pose proof (zlen_nonneg (m_v m)). lia.
Qed.
