(* ===== verification/Layer.v ===== *)
(** * The block layer as the tree code sees it

    src/tree.c calls the allocator, the cache and the deferred frees of
    src/blk.c through a few functions.  The class lists them as state
    transformers over the file system state [S]; the tree code is proved
    against it. *)
From S2P Require Import Prelude CInt Mem Data Keys Pack Blk.

Class BlkLayer (S : Type) := {
  (** [newblk(t, ty)]: an allocated, initialised block. *)
  newblk : Tree -> Z -> S -> res (Blk * S);
  (** [dupblk(t, b)]: a new block with a copy of the fields and the bytes. *)
  dupblk : Tree -> Blk -> S -> res (Blk * S);
  (** [getblk(bp, flg)] *)
  getblk : Bptr -> Z -> S -> res (Blk * S);
  (** [enqueue(b)]: finalise, cache and queue the block for writing; the
      result is the block with its hash. *)
  enqueue : Blk -> S -> res (Blk * S);
  (** [freeblk(t, b)] *)
  freeblk : Tree -> Blk -> S -> res S;
  (** [freebp(t, bp)] *)
  freebp : Tree -> Bptr -> S -> res S;
  (** [holdblk(b)] and [dropblk(b)], the reference counts. *)
  holdblk : Blk -> S -> res S;
  dropblk : Blk -> S -> res S }.

Section Layer.
Context {S : Type} `{BlkLayer S}.

(** Free a list of data pointers, in order. *)
Fixpoint freebps (t : Tree) (l : list Bptr) (s : S) : res S :=
  match l with
  | [] => Ok s
  | bp :: l' => let! s := freebp t bp s in freebps t l' s
  end.

Lemma freebps_app t l l' s :
  freebps t (l ++ l') s = let! s' := freebps t l s in freebps t l' s'.
Proof.
  revert s. induction l as [|bp l IH]; intros s; [done|]. cbn [freebps app].
  destruct (freebp t bp s); [apply IH|done].
Qed.

(** [setb]: an empty block is given back, any other is queued. *)
Definition setb (t : Tree) (b : Blk) (s : S) : res (option Blk * S) :=
  if b_nval b =? 0 then let! s := freeblk t b s in Ok (None, s)
  else let! (b, s) := enqueue b s in Ok (Some b, s).
End Layer.

(** What the tree code relies on: a new block is empty, and a queued block
    still represents what it represented. *)
Class BlkLayerOk (S : Type) `{BlkLayer S} := {
  newblk_vals : forall t ty s b s', ty = Tleaf \/ ty = Tpivot ->
    newblk t ty s = Ok (b, s') -> vals_repr b [] /\ b_type b = ty;
  newblk_msgs : forall t s b s',
    newblk t Tpivot s = Ok (b, s') -> msgs_repr b [];
  dupblk_ok : forall t b s b' s',
    dupblk t b s = Ok (b', s') ->
    (forall vs, vals_repr b vs -> vals_repr b' vs) /\
    (forall ms, msgs_repr b ms -> msgs_repr b' ms) /\ b_type b' = b_type b;
  enqueue_vals : forall b s b' s' vs,
    enqueue b s = Ok (b', s') -> vals_repr b vs -> vals_repr b' vs /\ b_type b' = b_type b;
  enqueue_msgs : forall b s b' s' ms,
    enqueue b s = Ok (b', s') -> msgs_repr b ms -> msgs_repr b' ms }.

(** What the tree code relies on to find blocks again: [stored s bp b] says
    that reading [bp] gives [b]. *)
Class BlkStore (S : Type) `{BlkLayer S} := {
  stored : S -> Bptr -> Blk -> Prop;
  getblk_stored : forall s bp b, stored s bp b ->
    exists s', getblk bp 0 s = Ok (b, s') /\ forall bp' b', stored s bp' b' -> stored s' bp' b';
  holdblk_stored : forall s b,
    exists s', holdblk b s = Ok s' /\ forall bp' b', stored s bp' b' -> stored s' bp' b';
  dropblk_stored : forall s b,
    exists s', dropblk b s = Ok s' /\ forall bp' b', stored s bp' b' -> stored s' bp' b';
  dupblk_stored : forall t b s r s', dupblk t b s = Ok (r, s') ->
    forall bp' b', stored s bp' b' -> stored s' bp' b';
  enqueue_stored : forall b s b' s', enqueue b s = Ok (b', s') ->
    stored s' (b_bp b') b' /\ bp_addr (b_bp b') = bp_addr (b_bp b) /\
    forall bp c, stored s bp c -> bp_addr bp <> bp_addr (b_bp b) -> stored s' bp c;
  freeblk_stored : forall t b s s', freeblk t b s = Ok s' ->
    forall bp c, stored s bp c -> bp_addr bp <> bp_addr (b_bp b) -> stored s' bp c }.

(** ** A layer in memory

    The smallest implementation: a counter of fresh blocks, the queued
    blocks by address, the freed addresses. *)
Record MemS := mkMemS { ms_next : Z; ms_blks : gmap Z Blk; ms_freed : list Z }.

Definition free_addr (a : Z) (s : MemS) : res MemS :=
  Ok (mkMemS (ms_next s) (ms_blks s) (a :: ms_freed s)).

#[export] Instance mem_layer : BlkLayer MemS := {
  newblk t ty s :=
    Ok (initblk blkz (ms_next s) (t_memgen t) ty,
        mkMemS (ms_next s + Blksz) (ms_blks s) (ms_freed s));
  dupblk t b s :=
    Ok (mkBlk (b_type b) (b_nval b) (b_valsz b) (b_nbuf b) (b_bufsz b) (b_logsz b) 0 (mkBptr 0 0 0)
          (mkBptr (ms_next s) 0 (t_memgen t)) 0 (b_buf b),
        mkMemS (ms_next s + Blksz) (ms_blks s) (ms_freed s));
  getblk bp flg s :=
    match ms_blks s !! bp_addr bp with Some b => Ok (b, s) | None => Err Eio end;
  enqueue b s := Ok (b, mkMemS (ms_next s) (<[bp_addr (b_bp b) := b]> (ms_blks s)) (ms_freed s));
  freeblk t b s := free_addr (bp_addr (b_bp b)) s;
  freebp t bp s := free_addr (bp_addr bp) s;
  holdblk b s := Ok s;
  dropblk b s := Ok s }.

#[export] Instance mem_layer_ok : BlkLayerOk MemS.
Proof.
  split.
  - intros t ty s b s' Ht [= <- <-]. split; [|done]. apply vals_repr_init; [apply zlen_zbuf|done].
  - intros t s b s' [= <- <-]. apply msgs_repr_init, zlen_zbuf.
  - intros t b s b' s' [= <- <-].
    split; [|split; [|done]].
    + by intros vs [].
    + by intros ms [].
  - by intros b s b' s' vs [= <- <-].
  - by intros b s b' s' ms [= <- <-].
Qed.

#[export] Instance mem_store : BlkStore MemS.
Proof.
  refine (Build_BlkStore MemS mem_layer
    (fun s bp b => ms_blks s !! bp_addr bp = Some b) _ _ _ _ _ _).
  - intros s bp b Hs. exists s. unfold getblk. cbn. by rewrite Hs.
  - intros s b. by exists s.
  - intros s b. by exists s.
  - by intros t b s r s' [= <- <-].
  - intros b s b' s' [= <- <-]. cbn. rewrite lookup_insert, decide_True by done.
    split; [done|]. split; [done|]. intros bp c Hs Hne.
    rewrite lookup_insert, decide_False by done. done.
  - by intros t b s s' [= <-].
Defined.

Definition mem0 : MemS := mkMemS 0 ∅ [].
