(* ===== verification/Path.v ===== *)
(** * The descent path of an upsert (src/tree.c: [Path], [pullmsg]) *)
From S2P Require Import Prelude CInt Mem Data Keys Pack Blk Apply Layer.

Definition POmod : Z := 0.
Definition POrot : Z := 1.
Definition POsplit : Z := 2.
Definition POmerge : Z := 3.

Record Path := mkPath {
  (* flowing down *)
  p_ins : option (list Msg); p_b : option Blk; p_idx : Z;
  p_lo : Z; p_hi : Z; p_sz : Z;
  (* flowing up *)
  p_op : Z; p_m : option Blk; p_nl : option Blk; p_nr : option Blk;
  p_midx : Z; p_npull : Z; p_pullsz : Z }.

(** [p->ins[i]], or message [i] of the block. *)
Definition upmsg (p : Path) (i : Z) : res Msg :=
  match p_ins p with
  | Some l => znth l i
  | None => match p_b p with Some b => getmsg b i | None => Err Eoob end
  end.

(** The comparison with [v], the message if it was loaded, and [*full]. *)
Definition pullmsg (p : Path) (i : Z) (v : option (list Z)) (full : bool) (spc : Z)
  : res (Z * option Msg * bool) :=
  if (i <? 0) || (p_hi p <=? i) || full then Ok (-1, None, full)
  else
    let! m := upmsg p i in
    if msgsz m <=? spc
    then Ok (match v with None => 0 | Some k => keycmp k (m_k m) end, Some m, full)
    else Ok (-1, Some m, true).

(** [m] after a call that may have stored to it. *)
Definition loaded (m om : option Msg) : option Msg :=
  match om with Some x => Some x | None => m end.

(** The messages [lo..hi) of a path element. *)
Record up_repr (up : Path) (seg : list Msg) : Prop := {
  up_lo : 0 <= p_lo up;
  up_hi : p_hi up = p_lo up + zlen seg;
  up_msg : forall i m, seg !! i = Some m -> upmsg up (p_lo up + Z.of_nat i) = Ok m }.

Lemma pullmsg_ok up seg i k m spc :
  up_repr up seg -> seg !! i = Some m -> msgsz m <= spc ->
  pullmsg up (p_lo up + Z.of_nat i) (Some k) false spc =
  Ok (keycmp k (m_k m), Some m, false).
Proof.
  intros [H1 H2 H3] Hi Hm. pose proof (lookup_lt_Some _ _ _ Hi). unfold pullmsg.
  rewrite (proj2 (Z.ltb_ge _ _)) by lia.
  rewrite (proj2 (Z.leb_gt _ _)) by (unfold zlen in *; lia). cbn [orb].
  rewrite (H3 _ _ Hi). cbn [rbind]. by rewrite (proj2 (Z.leb_le _ _)).
Qed.
