(* ===== verification/Leaf.v ===== *)
(** * Leaf updates (src/tree.c: [updateleaf], [splitleaf])

    [updateleaf] copies a leaf into a new block and applies the messages
    coming down from the parent on the way; [splitleaf] does the same into
    two blocks.  The reference [leaf_merge] merges the two sorted lists. *)
From S2P Require Import Prelude CInt Mem Data Keys Pack Blk Search Apply Layer Path.

Section Leaf.
Context {S : Type} `{BlkLayer S}.

(** Free the data block a message makes unreachable. *)
Definition free_data (t : Tree) (v : Kvp) (m : Msg) (s : S) : res S :=
  if bool_decide (head (kv_k v) = Some Kdat) &&
     ((m_op m =? Oclearb) || (m_op m =? Oinsert) || (m_op m =? Odelete))
  then let! bp := unpackbp (kv_v v) (zlen (kv_v v)) in freebp t bp s
  else Ok s.

(** The loop at [Copyloop]; the result is [j], [m], [v], [ok], [full] and
    [p->pullsz]. *)
Fixpoint copyloop (fuel : nat) (t : Tree) (up : Path) (j : Z) (m : option Msg) (v : Kvp)
    (ok full : bool) (spc pullsz : Z) (s : S)
  : res (Z * option Msg * Kvp * bool * bool * Z * S) :=
  if negb (j <? p_hi up) then Ok (j, m, v, ok, full, pullsz, s) else
  match fuel with
  | O => Err Efuel
  | Datatypes.S fuel' =>
      let! (c, om, full) := pullmsg up j (Some (kv_k v)) full spc in
      let m := loaded m om in
      if negb (c =? 0) then Ok (j, m, v, ok, full, pullsz, s)
      else
        match m with
        | None => Err Euninit
        | Some x =>
            let! s := if ok then free_data t v x s else Ok s in
            let pullsz := pullsz + msgsz x in
            let! (ok, v) := apply v x Msgmax in
            copyloop fuel' t up (j + 1) m v ok full spc pullsz s
        end
  end.

(** The cases 0 and 1 of both switches up to [goto Copyloop]; the result is
    [i], [v], [ok], [spc] and [p->pullsz]. *)
Definition leaf_case (t : Tree) (c i : Z) (ov : option Kvp) (x : Msg) (spc pullsz : Z) (s : S)
  : res (Z * Kvp * bool * Z * Z * S) :=
  if c =? 0 then
    match ov with
    | None => Err Euninit
    | Some v =>
        let! v := cpkvp v Msgmax in
        let! s := free_data t v x s in
        let! (ok, v) := apply v x Msgmax in
        Ok (i + 1, v, ok, spc, pullsz, s)
    end
  else
    let! v := cpkvp (kv_of_msg x) Msgmax in
    if (m_op x =? Oclearb) || (m_op x =? Oclobber) then Ok (i, v, false, spc, pullsz, s)
    else Ok (i, v, true, spc - valsz (kv_of_msg x), pullsz + msgsz x, s).

(** The top of the loop of [updateleaf]: [c], [v] when it is loaded, [m] and
    [full]. *)
Definition leaf_peek (up : Path) (b : Blk) (i j : Z) (m : option Msg) (full : bool) (spc : Z)
  : res (Z * option Kvp * option Msg * bool) :=
  if b_nval b <=? i then Ok (1, None, m, full)
  else
    let! v := getval b i in
    if j <? p_hi up then
      let! x := upmsg up j in
      if msgsz x <=? spc then Ok (keycmp (kv_k v) (m_k x), Some v, Some x, full)
      else Ok (-1, Some v, Some x, true)
    else Ok (-1, Some v, m, full).

(** The main loop; the result is [j], the new block and [p->pullsz]. *)
Fixpoint leaf_loop (fuel : nat) (t : Tree) (up : Path) (b : Blk) (i j : Z) (m : option Msg)
    (n : Blk) (full : bool) (spc pullsz : Z) (s : S) : res (Z * Blk * Z * S) :=
  if negb ((i <? b_nval b) || (j <? p_hi up)) then Ok (j, n, pullsz, s) else
  match fuel with
  | O => Err Efuel
  | Datatypes.S fuel' =>
      let! (c, ov, m, full) := leaf_peek up b i j m full spc in
      if c =? -1 then
        match ov with
        | None => Err Euninit
        | Some v =>
            let! n := setval n v in
            leaf_loop fuel' t up b (i + 1) j m n full spc pullsz s
        end
      else
        match m with
        | None => Err Euninit
        | Some x =>
            let! (i, v, ok, spc, pullsz, s) := leaf_case t c i ov x spc pullsz s in
            let! (j, m, v, ok, full, pullsz, s) :=
              copyloop (Z.to_nat (p_hi up - (j + 1))) t up (j + 1) m v ok full spc pullsz s in
            let! n := if (ok : bool) then setval n v else Ok n in
            leaf_loop fuel' t up b i j m n full spc pullsz s
        end
  end.

(** The result is the path element with its upward fields set. *)
Definition updateleaf (t : Tree) (up p : Path) (s : S) : res (Path * S) :=
  match p_b p with
  | None => Err Eoob
  | Some b =>
      let! fill := blkfill b in
      let spc := Leafspc - fill in
      let! (n, s) := newblk t (b_type b) s in
      assert! 0 <=? p_lo up in
      let! (j, n, pullsz, s) :=
        leaf_loop (Z.to_nat (b_nval b + (p_hi up - p_lo up))) t up b 0 (p_lo up) None n
          false spc (p_pullsz p) s in
      let! (nl, s) := setb t n s in
      Ok (mkPath (p_ins p) (p_b p) (p_idx p) (p_lo p) (p_hi p) (p_sz p)
            POmod (p_m p) nl (p_nr p) (p_midx p) (j - p_lo up) pullsz, s)
  end.

(** The loop of [splitleaf]: the two halves, the flag that says which one
    is filled, [copied] and [mid]. *)
Fixpoint splitleaf_loop (fuel : nat) (t : Tree) (up : Path) (b : Blk) (i j : Z)
    (l r : Blk) (rgt full : bool) (spc copied halfsz pullsz : Z) (mid : option Kvp) (s : S)
  : res (Z * Blk * Blk * option Kvp * Z * S) :=
  if negb (i <? b_nval b) then Ok (j, l, r, mid, pullsz, s) else
  match fuel with
  | O => Err Efuel
  | Datatypes.S fuel' =>
      let! (rgt, spc, mid) :=
        if negb rgt && ((i =? b_nval b - 2) || ((2 <=? i) && (halfsz <=? copied))) then
          let! k := getval b i in Ok (true, Leafspc - (halfsz + Msgmax), Some k)
        else Ok (rgt, spc, mid) in
      let! v := getval b i in
      let! (c, om, full) := pullmsg up j (Some (kv_k v)) full spc in
      if c =? -1 then
        let! (l, r) := if (rgt : bool) then let! r := setval r v in Ok (l, r)
                       else let! l := setval l v in Ok (l, r) in
        splitleaf_loop fuel' t up b (i + 1) j l r rgt full spc (copied + valsz v) halfsz
          pullsz mid s
      else
        match om with
        | None => Err Euninit
        | Some x =>
            let! (i, v', ok, spc, pullsz, s) := leaf_case t c i (Some v) x spc pullsz s in
            let copied := copied + valsz (if c =? 0 then v else kv_of_msg x) in
            let! (j, m, v, ok, full, pullsz, s) :=
              copyloop (Z.to_nat (p_hi up - (j + 1))) t up (j + 1) om v' ok full spc pullsz s in
            let! (l, r) :=
              if (ok : bool) then
                if (rgt : bool) then let! r := setval r v in Ok (l, r)
                else let! l := setval l v in Ok (l, r)
              else Ok (l, r) in
            splitleaf_loop fuel' t up b i j l r rgt full spc copied halfsz pullsz mid s
        end
  end.

Definition splitleaf (t : Tree) (up p : Path) (s : S) : res (Path * option Kvp * S) :=
  match p_b p with
  | None => Err Eoob
  | Some b =>
      let! (l, s) := newblk t (b_type b) s in
      let! (r, s) := newblk t (b_type b) s in
      let halfsz := Z.min (Z.quot (2 * b_nval b + b_valsz b + p_sz up) 2) (Leafspc / 2) in
      assert! 4 <=? b_nval b in
      let! (j, l, r, mid, pullsz, s) :=
        splitleaf_loop (Z.to_nat (b_nval b + (p_hi up - p_lo up))) t up b 0 (p_lo up) l r
          false false (Leafspc - (halfsz + Msgmax)) 0 halfsz (p_pullsz p) None s in
      let! (nl, s) := setb t l s in
      let! (nr, s) := setb t r s in
      Ok (mkPath (p_ins p) (p_b p) (p_idx p) (p_lo p) (p_hi p) (p_sz p)
            POsplit (p_m p) nl nr (p_midx p) (j - p_lo up) pullsz, mid, s)
  end.

End Leaf.

(** ** The reference

    [leaf_merge] walks the values and the messages, both sorted by key; the
    second result lists the data pointers that are freed, in order. *)

(** A run of messages for a key that has no value. *)
Definition run_absent (m : Msg) (ms : list Msg) : res (bool * Kvp * list Bptr * list Msg) :=
  run (start_absent m).1 (start_absent m).2 ms Msgmax.

Definition emit (rec : list Msg -> res (list Kvp * list Bptr))
    (r : res (bool * Kvp * list Bptr * list Msg)) : res (list Kvp * list Bptr) :=
  let! (ok, v, fr, rest) := r in
  let! (out, fr') := rec rest in
  Ok ((if (ok : bool) then [v] else []) ++ out, fr ++ fr').

Fixpoint leaf_merge (fuel : nat) (vs : list Kvp) (ms : list Msg)
  : res (list Kvp * list Bptr) :=
  match fuel with
  | O => match vs, ms with [], [] => Ok ([], []) | _, _ => Err Efuel end
  | S fuel' =>
      match vs, ms with
      | [], [] => Ok ([], [])
      | v :: vs', [] => let! (out, fr) := leaf_merge fuel' vs' [] in Ok (v :: out, fr)
      | [], m :: ms' => emit (leaf_merge fuel' []) (run_absent m ms')
      | v :: vs', m :: ms' =>
          let c := keycmp (kv_k v) (m_k m) in
          if c =? -1 then let! (out, fr) := leaf_merge fuel' vs' ms in Ok (v :: out, fr)
          else if c =? 0 then emit (leaf_merge fuel' vs') (run true v ms Msgmax)
          else emit (leaf_merge fuel' vs) (run_absent m ms')
      end
  end.

Section LeafProofs.
Context {S : Type} `{BlkLayer S}.
Implicit Types (s : S) (t : Tree).

Lemma free_data_freed t v m s :
  free_data t v m s = let! fr := freed_by v m in freebps t fr s.
Proof.
  unfold free_data, freed_by. destruct (_ && _); [|done].
  destruct (unpackbp _ _); [|done]. cbn [rbind freebps]. by destruct (freebp _ _ _).
Qed.

(** The position of the remaining messages [mr] in the element [up]. *)
Definition rest_of (up : Path) (seg : list Msg) (j : Z) (mr : list Msg) : Prop :=
  exists pre, seg = pre ++ mr /\ j = p_lo up + zlen pre.

Lemma rest_start up seg : rest_of up seg (p_lo up) seg.
Proof. exists []. split; [done|]. rewrite zlen_nil. lia. Qed.

Lemma rest_hi up seg j mr :
  up_repr up seg -> rest_of up seg j mr -> p_hi up = j + zlen mr.
Proof. intros Hu (pre & -> & ->). rewrite (up_hi _ _ Hu), zlen_app. lia. Qed.

Lemma rest_ltb up seg j mr :
  up_repr up seg -> rest_of up seg j mr -> (j <? p_hi up) = negb (bool_decide (mr = [])).
Proof.
  intros Hu Hr. rewrite (rest_hi _ _ _ _ Hu Hr). destruct mr.
  - rewrite zlen_nil. by apply Z.ltb_ge; lia.
  - rewrite zlen_cons. pose proof (zlen_nonneg mr). by apply Z.ltb_lt; lia.
Qed.

Lemma rest_cons up seg j m mr :
  rest_of up seg j (m :: mr) -> rest_of up seg (j + 1) mr.
Proof.
  intros (pre & -> & ->). exists (pre ++ [m]). rewrite <- app_assoc. split; [done|].
  rewrite zlen_app. unfold zlen at 3. simpl. lia.
Qed.

Lemma rest_msg up seg j m mr :
  up_repr up seg -> rest_of up seg j (m :: mr) -> upmsg up j = Ok m.
Proof.
  intros Hu (pre & -> & ->). unfold zlen. apply (up_msg _ _ Hu).
  rewrite lookup_app_r, Nat.sub_diag by lia. done.
Qed.

Lemma rest_pull up seg j m mr k spc :
  up_repr up seg -> rest_of up seg j (m :: mr) -> msgsz m <= spc ->
  pullmsg up j (Some k) false spc = Ok (keycmp k (m_k m), Some m, false).
Proof.
  intros Hu (pre & -> & ->) Hm. unfold zlen. eapply pullmsg_ok; [done| |done].
  rewrite lookup_app_r, Nat.sub_diag by lia. done.
Qed.

(** The inner loop is [run]. *)
Lemma copyloop_run t up seg fuel : forall j mr m ok v spc pullsz ok' v' fr rest,
  up_repr up seg -> rest_of up seg j mr -> (length mr <= fuel)%nat ->
  msgs_tot mr <= spc ->
  run ok v mr Msgmax = Ok (ok', v', fr, rest) ->
  exists m' j', rest_of up seg j' rest /\ (forall x, head rest = Some x -> m' = Some x) /\
    forall s, copyloop fuel t up j m v ok false spc pullsz s =
      let! s := freebps t fr s in
      Ok (j', m', v', ok', false, pullsz + (msgs_tot mr - msgs_tot rest), s).
Proof.
  induction fuel as [|fuel IH]; intros j mr m ok v spc pullsz ok' v' fr rest Hu Hr Hf Hs Hrun;
    cbn [copyloop]; rewrite (rest_ltb _ _ _ _ Hu Hr).
  { destruct mr; [|simpl in Hf; lia]. injection Hrun as <- <- <- <-.
    exists m, j. split; [done|]. split; [done|]. intros s. cbn. do 3 f_equal. lia. }
  destruct mr as [|x mr].
  { injection Hrun as <- <- <- <-.
    exists m, j. split; [done|]. split; [done|]. intros s. cbn. do 3 f_equal. lia. }
  cbn [run msgs_tot foldr] in *. fold (msgs_tot mr) in *.
  pose proof (msgs_tot_nonneg mr). pose proof (msgsz_pos x).
  rewrite bool_decide_eq_false_2 by done. cbn [negb].
  rewrite (rest_pull _ _ _ _ _ _ _ Hu Hr) by lia. cbn [rbind].
  destruct (keycmp (kv_k v) (m_k x) =? 0) eqn:Ec; cbn [negb].
  2:{ injection Hrun as <- <- <- <-. exists (Some x), j. split; [done|]. split; [by intros ? [= ->]|].
      intros s. cbn. fold (msgs_tot mr). do 3 f_equal. lia. }
  cbn [loaded]. bind_inv Hrun as fr0 Ef. bind_inv Hrun as [ok1 v1] Ea.
  bind_inv Hrun as [[[ok2 v2] fr2] rest2] Er. injection Hrun as <- <- <- <-.
  destruct (IH (j + 1) mr (Some x) ok1 v1 spc (pullsz + msgsz x) ok2 v2 fr2 rest2)
    as (m' & j' & Hj' & Hm' & Heq); try done; [by eapply rest_cons|simpl in Hf; lia|lia|].
  exists m', j'. split; [done|]. split; [done|]. intros s.
  assert (Hfree : (if ok then free_data t v x s else Ok s) = freebps t fr0 s).
  { destruct ok; [by rewrite free_data_freed, Ef|by injection Ef as <-]. }
  rewrite Hfree, freebps_app. destruct (freebps t fr0 s) as [s1|]; [|done]. cbn [rbind].
  rewrite Ea. cbn [rbind]. rewrite Heq. destruct (freebps t fr2 s1); [|done].
  cbn [rbind]. do 3 f_equal. lia.
Qed.

(** The slots and entries of a list of values. *)
Definition vals_tot (vs : list Kvp) : Z := foldr (fun v n => valsz v + n) 0 vs.

Lemma valsz_kvlen v : valsz v = 6 + kvlen v.
Proof. unfold valsz, kvlen. lia. Qed.
Lemma valsz_kvsz v : valsz v = 2 + kvsz v.
Proof. unfold valsz, kvsz. lia. Qed.
Lemma valsz_pos v : 6 <= valsz v.
Proof.
  unfold valsz. pose proof (zlen_nonneg (kv_k v)). pose proof (zlen_nonneg (kv_v v)). lia.
Qed.
Lemma vals_tot_app vs vs' : vals_tot (vs ++ vs') = vals_tot vs + vals_tot vs'.
Proof. induction vs as [|v vs IH]; simpl; [done|]. rewrite IH. lia. Qed.
Lemma vals_tot_nonneg vs : 0 <= vals_tot vs.
Proof. induction vs as [|v vs IH]; simpl; [done|]. pose proof (valsz_pos v). lia. Qed.

Lemma vals_repr_tot b vs : vals_repr b vs -> 2 * b_nval b + b_valsz b = vals_tot vs.
Proof.
  intros [_ _ -> -> _]. induction vs as [|v vs IH]; [done|].
  rewrite fmap_cons. change (total (kv_bytes v :: (kv_bytes <$> vs))) with (zlen (kv_bytes v) + total (kv_bytes <$> vs)).
  change (vals_tot (v :: vs)) with (valsz v + vals_tot vs).
  rewrite zlen_cons, zlen_kv_bytes, valsz_kvsz. lia.
Qed.

Lemma setval_if (ok : bool) n vs v :
  vals_repr n vs -> vals_tot vs + valsz v <= val_spc (b_type n) ->
  exists n', (if ok then setval n v else Ok n) = Ok n' /\
    vals_repr n' (vs ++ if ok then [v] else []) /\ blk_same n n'.
Proof.
  intros Hr Hs. destruct ok; [|exists n; rewrite app_nil_r; split; [done|]; by split].
  rewrite <- (vals_repr_tot _ _ Hr), valsz_kvsz, (vr_nval _ _ Hr) in Hs.
  destruct (setval_repr _ _ v Hr) as (n' & ? & ? & ? & _); [lia|]. by exists n'.
Qed.

(** The messages that start a run of a key without a value. *)
Lemma case_absent t i c ov x spc pullsz :
  c <> 0 -> kvlen (kv_of_msg x) <= Msgmax ->
  exists pz, pullsz <= pz <= pullsz + msgsz x /\
    forall s, leaf_case t c i ov x spc pullsz s =
      Ok (i, (start_absent x).2, (start_absent x).1,
          (if (start_absent x).1 then spc - valsz (kv_of_msg x) else spc), pz, s).
Proof.
  intros Hc Hk. exists (if (start_absent x).1 then pullsz + msgsz x else pullsz).
  unfold leaf_case, start_absent. rewrite (proj2 (Z.eqb_neq _ _) Hc).
  rewrite cpkvp_ok by done. cbn [rbind fst snd]. pose proof (msgsz_pos x).
  destruct (_ || _); cbn [negb]; (split; [lia|done]).
Qed.

(** Case 0: the first message of the run is applied before the loop. *)
Lemma case_present t i v x mr spc pullsz ok' v' fr rest :
  kvlen v <= Msgmax -> keycmp (kv_k v) (m_k x) = 0 ->
  run true v (x :: mr) Msgmax = Ok (ok', v', fr, rest) ->
  exists fr1 fr2 ok1 v1, fr = fr1 ++ fr2 /\ run ok1 v1 mr Msgmax = Ok (ok', v', fr2, rest) /\
    kv_k v1 = kv_k v /\
    forall s, leaf_case t 0 i (Some v) x spc pullsz s =
      let! s := freebps t fr1 s in Ok (i + 1, v1, ok1, spc, pullsz, s).
Proof.
  intros Hv Hc Hrun. cbn [run] in Hrun. rewrite Hc in Hrun. cbn [Z.eqb] in Hrun.
  bind_inv Hrun as fr1 Ef. bind_inv Hrun as [ok1 v1] Ea.
  bind_inv Hrun as [[[ok2 v2] fr2] rest2] Er. injection Hrun as <- <- <- <-.
  exists fr1, fr2, ok1, v1. split; [done|]. split; [done|].
  apply keycmp_eq in Hc. pose proof (apply_shape _ _ _ _ _ Ea Hc) as [Hk _].
  split; [done|].
  intros s. unfold leaf_case. cbn [Z.eqb]. rewrite cpkvp_ok by done. cbn [rbind].
  rewrite free_data_freed, Ef. cbn [rbind]. destruct (freebps t fr1 s); [|done].
  cbn [rbind]. by rewrite Ea.
Qed.

(** A state of the main loop: [vr] and [mr] are left, [done] is written. *)
Record leaf_inv (up : Path) (b : Blk) (vs : list Kvp) (seg : list Msg) (i j : Z)
    (vr : list Kvp) (mr : list Msg) (m : option Msg) (n : Blk) (done : list Kvp)
    (spc : Z) : Prop := {
  li_vs : exists pre, vs = pre ++ vr /\ i = zlen pre;
  li_ms : rest_of up seg j mr;
  li_n : vals_repr n done;
  li_leaf : b_type n = Tleaf;
  li_spc : msgs_tot mr <= spc;
  li_room : vals_tot done + vals_tot vr + msgs_tot mr <= Leafspc;
  li_vals : Forall (fun v => kvlen v <= Msgmax) vr;
  li_msgs : Forall (fun m => kvlen (kv_of_msg m) <= Msgmax) mr;
  li_peek : vr = [] -> forall x, head mr = Some x -> m = Some x }.

(** The run the switch starts with message [x]. *)
Definition case_run (c : Z) (ov : option Kvp) (x : Msg) (mr : list Msg) :=
  match ov with
  | Some v => if c =? 0 then run true v (x :: mr) Msgmax else run_absent x mr
  | None => run_absent x mr
  end.

(** The cases 0 and 1 and the inner loop together, when the messages fit:
    [k] is the code after the loop. *)
Lemma case_emit {A} t up seg i j c ov x mr spc pz ok' v' fr rest :
  up_repr up seg -> rest_of up seg j (x :: mr) -> msgsz x + msgs_tot mr <= spc ->
  kvlen (kv_of_msg x) <= Msgmax ->
  (c = 0 -> exists v, ov = Some v /\ kvlen v <= Msgmax /\ keycmp (kv_k v) (m_k x) = 0) ->
  case_run c ov x mr = Ok (ok', v', fr, rest) ->
  exists j' m' spc' pz',
    rest_of up seg j' rest /\ (forall y, head rest = Some y -> m' = Some y) /\
    msgs_tot rest <= spc' <= spc /\
    pz <= pz' <= pz + msgsz x + msgs_tot mr - msgs_tot rest /\
    (forall y, y ∈ rest -> y ∈ mr) /\ (length rest <= length mr)%nat /\
    valsz v' + msgs_tot rest <=
      msgs_tot mr + msgsz x + (if c =? 0 then match ov with Some v => valsz v | None => 0 end else 0) /\
    forall s (k : Z -> Z -> option Msg -> Kvp -> bool -> bool -> Z -> Z -> S -> res A),
      (let! (i, v, ok, spc, pullsz, s) := leaf_case t c i ov x spc pz s in
       let! (j, m, v, ok, full, pullsz, s) :=
         copyloop (Z.to_nat (p_hi up - (j + 1))) t up (j + 1) (Some x) v ok false spc pullsz s in
       k i j m v ok full spc pullsz s) =
      let! s := freebps t fr s in
      k (if c =? 0 then i + 1 else i) j' m' v' ok' false spc' pz' s.
Proof.
  intros Hu Hr Hspc Hx Hc Hrun.
  pose proof (rest_cons _ _ _ _ _ Hr) as Hr'. pose proof (rest_hi _ _ _ _ Hu Hr') as Hhi.
  pose proof (msgsz_pos x). pose proof (msgs_tot_nonneg mr).
  assert (Hpre : exists fr1 fr2 ok1 v1 spc' pz', fr = fr1 ++ fr2 /\
    run ok1 v1 mr Msgmax = Ok (ok', v', fr2, rest) /\
    msgs_tot mr <= spc' <= spc /\ pz <= pz' <= pz + msgsz x /\
    forall s, leaf_case t c i ov x spc pz s =
      let! s := freebps t fr1 s in
      Ok (if c =? 0 then i + 1 else i, v1, ok1, spc', pz', s)).
  { destruct (Z.eqb_spec c 0) as [->|Hne].
    - destruct Hc as (v & -> & Hv & Hk); [done|]. cbn [case_run Z.eqb] in Hrun.
      destruct (case_present t i v x mr spc pz _ _ _ _ Hv Hk Hrun)
        as (fr1 & fr2 & ok1 & v1 & -> & Hrun' & _ & Heq).
      exists fr1, fr2, ok1, v1, spc, pz. repeat split; (lia || done).
    - destruct (case_absent t i c ov x spc pz Hne Hx) as (pz' & Hpz & Heq).
      exists [], fr, (start_absent x).1, (start_absent x).2,
        (if (start_absent x).1 then spc - valsz (kv_of_msg x) else spc), pz'.
      split; [done|]. split.
      { unfold case_run in Hrun. rewrite (proj2 (Z.eqb_neq _ _) Hne) in Hrun.
        by destruct ov. }
      pose proof (valsz_kvlen (kv_of_msg x)). pose proof (msgsz_kvlen x).
      pose proof (valsz_pos (kv_of_msg x)).
      split; [destruct (start_absent x).1; lia|]. split; [lia|done]. }
  destruct Hpre as (fr1 & fr2 & ok1 & v1 & spc' & pz' & -> & Hrun' & Hspc' & Hpz & Heq).
  destruct (copyloop_run t up seg (Z.to_nat (p_hi up - (j + 1))) (j + 1) mr (Some x) ok1 v1
    spc' pz' ok' v' fr2 rest Hu Hr') as (m' & j' & Hj' & Hm' & Hloop); [|lia|exact Hrun'|].
  { rewrite Hhi. unfold zlen. lia. }
  destruct (run_split _ _ _ _ _ _ _ _ Hrun') as (pre & -> & _).
  rewrite msgs_tot_app in *. pose proof (msgs_tot_nonneg pre).
  exists j', m', spc', (pz' + (msgs_tot pre + msgs_tot rest - msgs_tot rest)).
  split; [done|]. split; [done|]. split; [lia|]. split; [lia|].
  split; [intros y ?; apply elem_of_app; by right|]. split; [rewrite length_app; lia|]. split.
  { unfold case_run in Hrun. rewrite valsz_kvlen.
    assert (Hab : run_absent x (pre ++ rest) = Ok (ok', v', fr1 ++ fr2, rest) ->
      6 + kvlen v' + msgs_tot rest <= msgs_tot pre + msgs_tot rest + msgsz x).
    { intros Hab. apply run_split in Hab as (pre' & E & _ & _ & Hl & _).
      apply app_inv_tail in E as <-. rewrite msgsz_kvlen. cbn [start_absent snd] in Hl. lia. }
    destruct ov as [v|]; [|specialize (Hab Hrun); destruct (c =? 0); lia].
    destruct (c =? 0); [|specialize (Hab Hrun); lia].
    apply run_split in Hrun as (pre' & E & _ & _ & Hl & _).
    rewrite app_comm_cons in E. apply app_inv_tail in E as <-. cbn [msgs_tot foldr] in Hl.
    fold (msgs_tot pre) in Hl. rewrite valsz_kvlen. lia. }
  intros s k. rewrite Heq, freebps_app. destruct (freebps t fr1 s) as [s1|]; [|done].
  cbn [rbind]. rewrite Hloop. by destruct (freebps t fr2 s1).
Qed.

Lemma leaf_peek_head t b up vs seg i j v vr mr m n done spc :
  vals_repr b vs -> up_repr up seg ->
  leaf_inv up b vs seg i j (v :: vr) mr m n done spc ->
  leaf_peek up b i j m false spc =
    Ok (match mr with [] => -1 | x :: _ => keycmp (kv_k v) (m_k x) end, Some v,
        match mr with [] => m | x :: _ => Some x end, false).
Proof.
  intros Hb Hu [(pre & -> & ->) Hr _ _ Hs _ _ _ _]. unfold leaf_peek.
  rewrite (vr_nval _ _ Hb), zlen_app, zlen_cons.
  pose proof (zlen_nonneg vr). rewrite (proj2 (Z.leb_gt _ _)) by lia.
  unfold zlen at 1. rewrite (getval_repr b (pre ++ v :: vr) (length pre) v Hb).
  2:{ by rewrite lookup_app_r, Nat.sub_diag by lia. }
  cbn [rbind]. rewrite (rest_ltb _ _ _ _ Hu Hr). destruct mr as [|x mr]; [done|].
  rewrite bool_decide_eq_false_2 by done. cbn [negb].
  rewrite (rest_msg _ _ _ _ _ Hu Hr). cbn [rbind]. cbn [msgs_tot foldr] in Hs.
  fold (msgs_tot mr) in Hs. pose proof (msgs_tot_nonneg mr).
  by rewrite (proj2 (Z.leb_le _ _)) by lia.
Qed.

Lemma leaf_peek_end b up vs seg i j mr m n done spc :
  vals_repr b vs -> leaf_inv up b vs seg i j [] mr m n done spc ->
  leaf_peek up b i j m false spc = Ok (1, None, m, false).
Proof.
  intros Hb [(pre & -> & ->) _ _ _ _ _ _ _ _]. unfold leaf_peek.
  rewrite (vr_nval _ _ Hb), app_nil_r. by rewrite (proj2 (Z.leb_le _ _)) by lia.
Qed.

Lemma leaf_continue up b vs seg i j vr mr m n done spc :
  vals_repr b vs -> up_repr up seg -> leaf_inv up b vs seg i j vr mr m n done spc ->
  ((i <? b_nval b) || (j <? p_hi up)) = negb (bool_decide (vr = [] /\ mr = [])).
Proof.
  intros Hb Hu Hi. rewrite (rest_ltb _ _ _ _ Hu (li_ms _ _ _ _ _ _ _ _ _ _ _ _ Hi)).
  destruct (li_vs _ _ _ _ _ _ _ _ _ _ _ _ Hi) as (pre & -> & ->).
  rewrite (vr_nval _ _ Hb), zlen_app. pose proof (zlen_nonneg vr).
  destruct vr as [|v vr].
  - rewrite zlen_nil. rewrite (proj2 (Z.ltb_ge _ _)) by lia. by destruct mr.
  - rewrite zlen_cons in *. pose proof (zlen_nonneg vr).
    by rewrite (proj2 (Z.ltb_lt _ _)) by lia.
Qed.

(** The value before the message is copied. *)
Lemma leaf_inv_copy up b vs seg i j v vr mr m m' n done spc :
  leaf_inv up b vs seg i j (v :: vr) mr m n done spc ->
  (forall x, head mr = Some x -> m' = Some x) ->
  exists n', setval n v = Ok n' /\ blk_same n n' /\
    leaf_inv up b vs seg (i + 1) j vr mr m' n' (done ++ [v]) spc.
Proof.
  intros [(pre & -> & ->) Hms Hn Hl Hs Hroom Hv Hm _] Hm'.
  change (vals_tot (v :: vr)) with (valsz v + vals_tot vr) in Hroom.
  pose proof (vals_tot_nonneg vr). pose proof (msgs_tot_nonneg mr).
  destruct (setval_if true n done v Hn) as (n' & E & Hr' & Hb).
  { rewrite Hl. change (val_spc Tleaf) with Leafspc. lia. }
  exists n'. split; [done|]. split; [done|]. constructor; try done.
  - exists (pre ++ [v]). rewrite <- app_assoc. split; [done|]. rewrite zlen_app. done.
  - destruct Hb as [Ht _]. by rewrite Ht.
  - rewrite vals_tot_app. simpl. lia.
  - by inversion Hv.
Qed.

Lemma leaf_loop_merge t up b vs seg fuel : forall i j vr mr m n done spc pz out fr,
  vals_repr b vs -> up_repr up seg ->
  leaf_inv up b vs seg i j vr mr m n done spc ->
  leaf_merge fuel vr mr = Ok (out, fr) ->
  exists n' pz', vals_repr n' (done ++ out) /\ blk_same n n' /\
    pz <= pz' <= pz + msgs_tot mr /\
    forall s, leaf_loop fuel t up b i j m n false spc pz s =
      let! s := freebps t fr s in Ok (p_hi up, n', pz', s).
Proof.
  induction fuel as [|fuel IH]; intros i j vr mr m n done spc pz out fr Hb Hu Hi Hmerge;
    cbn [leaf_loop]; rewrite (leaf_continue _ _ _ _ _ _ _ _ _ _ _ _ Hb Hu Hi).
  { destruct vr, mr; try done. injection Hmerge as <- <-. rewrite app_nil_r.
    rewrite (rest_hi _ _ _ _ Hu (li_ms _ _ _ _ _ _ _ _ _ _ _ _ Hi)), (zlen_nil (A:=Msg)), (Z.add_0_r j).
    exists n, pz. split; [apply Hi|]. split; [done|]. split; [simpl; lia|done]. }
  assert (Hemit : forall c ov x mr',
    mr = x :: mr' ->
    (c = 0 -> exists v, ov = Some v /\ head vr = Some v /\ keycmp (kv_k v) (m_k x) = 0) ->
    emit (leaf_merge fuel (if c =? 0 then tail vr else vr)) (case_run c ov x mr') = Ok (out, fr) ->
    exists n' pz', vals_repr n' (done ++ out) /\ blk_same n n' /\
      pz <= pz' <= pz + msgs_tot mr /\
      forall s, (let! (i, v, ok, spc, pullsz, s) := leaf_case t c i ov x spc pz s in
         let! (j, m, v, ok, full, pullsz, s) :=
           copyloop (Z.to_nat (p_hi up - (j + 1))) t up (j + 1) (Some x) v ok false spc pullsz s in
         let! n := if (ok : bool) then setval n v else Ok n in
         leaf_loop fuel t up b i j m n full spc pullsz s) =
        let! s := freebps t fr s in Ok (p_hi up, n', pz', s)).
  { intros c ov x mr' -> Hc He. unfold emit in He.
    bind_inv He as [[[ok' v'] fr1] rest] Erun. bind_inv He as [out' fr2] Erest.
    injection He as <- <-.
    destruct Hi as [(pre & -> & ->) Hms Hn Hl Hs Hroom Hv Hm _].
    cbn [msgs_tot foldr] in Hs, Hroom |- *. fold (msgs_tot mr') in *.
    apply Forall_cons in Hm as [Hx Hm].
    destruct (case_emit (A := Z * Blk * Z * S) t up seg (zlen pre) j c ov x mr' spc pz ok' v' fr1 rest Hu Hms Hs Hx)
      as (j' & m' & spc' & pz1 & Hr' & Hm' & Hspc & Hpz & Hin & _ & Hsz & Heq); [|done|].
    { intros ->. destruct Hc as (v & -> & Hh & Hk); [done|]. exists v. split; [done|].
      split; [|done]. destruct vr; [done|]. injection Hh as ->. by apply Forall_cons in Hv as [? _]. }
    assert (Hvt : vals_tot (if c =? 0 then tail vr else vr) +
      (if c =? 0 then match ov with Some v => valsz v | None => 0 end else 0) = vals_tot vr).
    { destruct (Z.eqb_spec c 0) as [->|]; [|lia]. destruct Hc as (v & -> & Hh & _); [done|].
      destruct vr; [done|]. injection Hh as ->. simpl. lia. }
    pose proof (vals_tot_nonneg (if c =? 0 then tail vr else vr)). pose proof (msgs_tot_nonneg rest).
    destruct (setval_if ok' n done v' Hn) as (n1 & En & Hn1 & Hb1).
    { rewrite Hl. change (val_spc Tleaf) with Leafspc. lia. }
    destruct (IH (if c =? 0 then zlen pre + 1 else zlen pre) j' (if c =? 0 then tail vr else vr)
      rest m' n1 (done ++ if ok' then [v'] else []) spc' pz1 out' fr2 Hb Hu)
      as (n' & pz' & Hn' & Hb' & Hpz' & Hloop); [|done|].
    { constructor; try done.
      - destruct (Z.eqb_spec c 0) as [->|]; [|by exists pre].
        destruct Hc as (v & _ & Hh & _); [done|]. destruct vr as [|v0 vr]; [done|].
        exists (pre ++ [v0]). rewrite <- app_assoc. split; [done|]. by rewrite zlen_app.
      - destruct Hb1 as [Ht _]. by rewrite Ht.
      - lia.
      - rewrite vals_tot_app. pose proof (valsz_pos v').
        destruct ok'; cbn [vals_tot foldr]; lia.
      - destruct (c =? 0); [|done]. destruct vr; [done|]. by apply Forall_cons in Hv as [_ ?].
      - rewrite Forall_forall in Hm |- *. eauto. }
    exists n', pz'. rewrite app_assoc. split; [done|]. split; [by etrans|]. split; [lia|].
    intros s. rewrite (Heq s (fun i j m v ok full spc pullsz s =>
      let! n := if (ok : bool) then setval n v else Ok n in
      leaf_loop fuel t up b i j m n full spc pullsz s)).
    rewrite freebps_app. destruct (freebps t fr1 s) as [s1|]; [|done]. cbn [rbind].
    rewrite En. cbn [rbind]. apply Hloop. }
  cbn [leaf_merge] in Hmerge.
  assert (Hcopy : forall v vr', vr = v :: vr' -> forall out', leaf_merge fuel vr' mr = Ok (out', fr) ->
    out = v :: out' -> forall m', (forall x, head mr = Some x -> m' = Some x) ->
    exists n' pz', vals_repr n' (done ++ out) /\ blk_same n n' /\
      pz <= pz' <= pz + msgs_tot mr /\
      forall s, (let! n := setval n v in leaf_loop fuel t up b (i + 1) j m' n false spc pz s) =
        let! s := freebps t fr s in Ok (p_hi up, n', pz', s)).
  { intros v vr' -> out' Hm1 -> m' Hm'.
    destruct (leaf_inv_copy _ _ _ _ _ _ _ _ _ _ _ _ _ _ Hi Hm') as (n1 & En & Hb1 & Hi1).
    destruct (IH _ _ _ _ _ _ _ _ pz _ _ Hb Hu Hi1 Hm1) as (n' & pz' & Hn' & Hb' & Hpz & Heq).
    exists n', pz'. rewrite <- app_assoc in Hn'. split; [done|]. split; [by etrans|].
    split; [done|]. intros s. rewrite En. cbn [rbind]. apply Heq. }
  destruct vr as [|v vr].
  - destruct mr as [|x mr].
    + injection Hmerge as <- <-. rewrite app_nil_r.
      rewrite (rest_hi _ _ _ _ Hu (li_ms _ _ _ _ _ _ _ _ _ _ _ _ Hi)), (zlen_nil (A:=Msg)), (Z.add_0_r j).
      exists n, pz. split; [apply Hi|]. split; [done|]. split; [simpl; lia|done].
    + rewrite bool_decide_eq_false_2 by (intros [? ?]; done). cbn [negb].
      rewrite (leaf_peek_end _ _ _ _ _ _ _ _ _ _ _ Hb Hi). cbn [rbind Z.eqb Pos.eqb].
      pose proof (li_peek _ _ _ _ _ _ _ _ _ _ _ _ Hi eq_refl x eq_refl) as ->.
      apply (Hemit 1 None x mr); done.
  - rewrite bool_decide_eq_false_2 by (intros [? ?]; done). cbn [negb].
    rewrite (leaf_peek_head t _ _ _ _ _ _ _ _ _ _ _ _ _ Hb Hu Hi). cbn [rbind].
    destruct mr as [|x mr].
    + cbn [Z.eqb Pos.eqb]. bind_inv Hmerge as [out' fr'] Em. injection Hmerge as <- <-.
      by eapply Hcopy.
    + destruct (keycmp (kv_k v) (m_k x) =? -1) eqn:E1.
      * bind_inv Hmerge as [out' fr'] Em. injection Hmerge as <- <-.
        by eapply Hcopy.
      * destruct (keycmp (kv_k v) (m_k x) =? 0) eqn:E0; zb.
        -- rewrite E0. apply (Hemit 0 (Some v) x mr); try done.
           intros _. by exists v.
        -- apply (Hemit (keycmp (kv_k v) (m_k x)) (Some v) x mr); try done.
           unfold case_run. by rewrite (proj2 (Z.eqb_neq _ _) E0).
Qed.

Lemma pivot_or_leaf b vs : vals_repr b vs -> b_type b <> Tpivot -> b_type b = Tleaf.
Proof. intros Hb Hn. by destruct (vr_type _ _ Hb). Qed.

Lemma blkfill_leaf b vs :
  vals_repr b vs -> b_type b = Tleaf -> blkfill b = Ok (vals_tot vs).
Proof.
  intros Hb Ht. unfold blkfill. rewrite Ht. cbn -[u16 Z.mul].
  rewrite <- (vals_repr_tot _ _ Hb), u16_small; [done|].
  pose proof (vals_size _ _ Hb). rewrite Ht in *. change (val_spc Tleaf) with Leafspc in *.
  change Leafspc with 16378 in *.
  rewrite (vals_repr_tot _ _ Hb) in *. pose proof (vals_tot_nonneg vs). lia.
Qed.

Lemma updateleaf_spec `{!BlkLayerOk S} t up p b vs seg out fr s n s1 :
  p_b p = Some b -> vals_repr b vs -> b_type b = Tleaf -> vs <> [] ->
  up_repr up seg -> vals_tot vs + msgs_tot seg <= Leafspc ->
  Forall (fun v => kvlen v <= Msgmax) vs ->
  Forall (fun m => kvlen (kv_of_msg m) <= Msgmax) seg ->
  leaf_merge (length vs + length seg) vs seg = Ok (out, fr) ->
  newblk t Tleaf s = Ok (n, s1) ->
  exists n' pz, vals_repr n' out /\ b_type n' = Tleaf /\
    p_pullsz p <= pz <= p_pullsz p + msgs_tot seg /\
    updateleaf t up p s =
      let! s := freebps t fr s1 in
      let! (nl, s) := setb t n' s in
      Ok (mkPath (p_ins p) (p_b p) (p_idx p) (p_lo p) (p_hi p) (p_sz p)
            POmod (p_m p) nl (p_nr p) (p_midx p) (zlen seg) pz, s).
Proof.
  intros Hp Hb Ht Hne Hu Hroom Hv Hm Hmerge Hn.
  destruct (newblk_vals _ _ _ _ _ (or_introl eq_refl) Hn) as [Hn0 Hnt].
  unfold updateleaf. rewrite Hp, (blkfill_leaf _ _ Hb Ht), Ht, Hn. cbn [rbind].
  pose proof (up_lo _ _ Hu). rewrite (proj2 (Z.leb_le _ _)) by done.
  destruct (leaf_loop_merge t up b vs seg (length vs + length seg) 0 (p_lo up) vs seg None n []
    (Leafspc - vals_tot vs) (p_pullsz p) out fr) as (n' & pz & Hn' & Hbs & Hpz & Heq); try done.
  { constructor; try done; [by exists []|apply rest_start|lia]. }
  replace (Z.to_nat (b_nval b + (p_hi up - p_lo up))) with (length vs + length seg)%nat.
  2:{ rewrite (vr_nval _ _ Hb), (up_hi _ _ Hu). unfold zlen. lia. }
  exists n', pz. split; [done|]. split; [by destruct Hbs as [-> _]|]. split; [done|].
  rewrite Heq. destruct (freebps t fr s1) as [s2|]; [|done]. cbn [rbind].
  destruct (setb t n' s2) as [[nl s3]|]; [|done]. cbn [rbind]. do 3 f_equal.
  rewrite (up_hi _ _ Hu). lia.
Qed.
End LeafProofs.

(** ** What the merge does to each key *)

Fixpoint klookup (k : list Z) (vs : list Kvp) : option Kvp :=
  match vs with
  | [] => None
  | v :: vs' => if decide (kv_k v = k) then Some v else klookup k vs'
  end.

(** The value of a key after its messages, oldest first. *)
Definition key_result (vo : option Kvp) (ms : list Msg) : res (option Kvp) :=
  match vo, ms with
  | None, [] => Ok None
  | None, m :: ms' =>
      let! (ok, v, fr, rest) := run_absent m ms' in Ok (if (ok : bool) then Some v else None)
  | Some v, ms =>
      let! (ok, v, fr, rest) := run true v ms Msgmax in Ok (if (ok : bool) then Some v else None)
  end.

Definition kstrict (ks : list (list Z)) : Prop := StronglySorted klt ks.

Lemma klookup_none k vs : Forall (fun v => klt k (kv_k v)) vs -> klookup k vs = None.
Proof.
  induction 1 as [|v vs Hv _ IH]; [done|]. cbn [klookup].
  rewrite decide_False; [done|]. intros E. rewrite E in Hv. by eapply klt_irrefl.
Qed.

Lemma with_key_nil k ms : Forall (fun m => klt k (m_k m)) ms -> with_key k ms = [].
Proof.
  induction 1 as [|m ms Hm _ IH]; [done|]. unfold with_key. rewrite filter_cons.
  rewrite decide_False; [done|]. intros E. rewrite E in Hm. by eapply klt_irrefl.
Qed.

(** In a sorted list the messages of the smallest key come first. *)
Lemma run_prefix ms : forall ok v nbuf ok' v' fr rest,
  StronglySorted mkle ms -> Forall (fun m => kle (kv_k v) (m_k m)) ms ->
  run ok v ms nbuf = Ok (ok', v', fr, rest) ->
  ms = with_key (kv_k v) ms ++ rest /\ StronglySorted mkle rest /\
  Forall (fun m => klt (kv_k v) (m_k m)) rest /\
  run ok v (with_key (kv_k v) ms) nbuf = Ok (ok', v', fr, []) /\
  kv_k v' = kv_k v.
Proof.
  induction ms as [|m ms IH]; intros ok v nbuf ok' v' fr rest Hs Hk Hrun.
  { by injection Hrun as <- <- <- <-. }
  apply StronglySorted_cons in Hs as [Hm Hs]. apply Forall_cons in Hk as [Hkm Hk].
  cbn [run] in Hrun. unfold with_key. rewrite filter_cons. fold (with_key (kv_k v) ms).
  destruct (Z.eqb_spec (keycmp (kv_k v) (m_k m)) 0) as [Hc|Hc].
  - bind_inv Hrun as fr0 Ef. bind_inv Hrun as [ok1 v1] Ea.
    bind_inv Hrun as [[[ok2 v2] fr2] rest2] Er. injection Hrun as <- <- <- <-.
    apply keycmp_eq in Hc. pose proof (apply_shape _ _ _ _ _ Ea Hc) as [Hk1 _].
    rewrite <- Hk1 in Hk. destruct (IH _ _ _ _ _ _ _ Hs Hk Er) as (E & Hr & Hlt & Hrun & Hk2).
    rewrite Hk1 in *. rewrite decide_True by done. split; [by rewrite E at 1|].
    split; [done|]. split; [done|]. split; [|congruence].
    cbn [run]. rewrite Hc, keycmp_refl. cbn [Z.eqb]. rewrite <- Hc, Ef. cbn [rbind].
    rewrite Ea. cbn [rbind]. by rewrite Hrun.
  - injection Hrun as <- <- <- <-.
    assert (Hlt : klt (kv_k v) (m_k m)).
    { apply kle_lt_eq in Hkm as [?|E]; [done|]. by rewrite E, keycmp_refl in Hc. }
    assert (Hall : Forall (fun m => klt (kv_k v) (m_k m)) (m :: ms)).
    { constructor; [done|]. rewrite Forall_forall in Hm |- *. intros y Hy.
      eapply klt_kle_trans; [done|]. by apply Hm. }
    assert (Hnil : with_key (kv_k v) ms = []).
    { apply with_key_nil. by apply Forall_cons in Hall as [_ ?]. }
    rewrite decide_False by (intros E; by rewrite E, keycmp_refl in Hc).
    rewrite Hnil. repeat split; try done. by apply StronglySorted_cons.
Qed.

Lemma ksorted_mkeys ms : StronglySorted mkle ms -> ksorted (mkeys ms).
Proof.
  induction 1 as [|m ms Hs IH Hm]; [constructor|]. constructor; [done|].
  change (Forall (kle (m_k m)) (m_k <$> ms)). by apply Forall_fmap.
Qed.

(** The keys of a merge come from its inputs. *)
Definition above (lo : list Z) (vs : list Kvp) (ms : list Msg) : Prop :=
  Forall (fun v => klt lo (kv_k v)) vs /\ Forall (fun m => klt lo (m_k m)) ms.

Record merge_in (vs : list Kvp) (ms : list Msg) : Prop := {
  mi_vs : kstrict (vkeys vs);
  mi_ms : StronglySorted mkle ms }.

(** The specification of the merge. *)
Record merge_spec (vs : list Kvp) (ms : list Msg) (out : list Kvp) : Prop := {
  ms_sorted : kstrict (vkeys out);
  ms_above : forall lo, above lo vs ms -> above lo out [];
  ms_lookup : forall k, key_result (klookup k vs) (with_key k ms) = Ok (klookup k out) }.

Lemma kstrict_cons v vs :
  kstrict (vkeys (v :: vs)) <-> kstrict (vkeys vs) /\ Forall (fun w => klt (kv_k v) (kv_k w)) vs.
Proof.
  unfold kstrict, vkeys. cbn [fmap list_fmap]. rewrite StronglySorted_cons, Forall_fmap.
  split; intros [? ?]; split; done.
Qed.

Lemma key_result_nil vo : key_result vo [] = Ok vo.
Proof. by destruct vo. Qed.

Lemma merge_copy v vs ms out :
  kstrict (vkeys (v :: vs)) -> Forall (fun m => klt (kv_k v) (m_k m)) ms ->
  merge_spec vs ms out -> merge_spec (v :: vs) ms (v :: out).
Proof.
  intros [Hs Hv]%kstrict_cons Hm [H1 H2 H3].
  assert (Hab : above (kv_k v) out []) by (apply H2; done). destruct Hab as [Hab _].
  split.
  - by apply kstrict_cons.
  - intros lo [Hlo ?]. apply Forall_cons in Hlo as [? ?].
    split; [|done]. constructor; [done|]. by apply H2.
  - intros k. cbn [klookup]. destruct (decide (kv_k v = k)) as [<-|]; [|apply H3].
    by rewrite with_key_nil.
Qed.

(** One emitted key: [mk] are its messages, [rest] the others. *)
Lemma merge_emit k ok v (vs0 vs : list Kvp) mk rest out :
  kstrict (vkeys vs) -> Forall (fun w => klt k (kv_k w)) vs ->
  Forall (fun m => klt k (m_k m)) rest -> Forall (fun m => m_k m = k) mk ->
  (vs0 = vs \/ exists w, vs0 = w :: vs /\ kv_k w = k) -> mk <> [] \/ vs0 <> vs ->
  kv_k v = k ->
  key_result (klookup k vs0) mk = Ok (if (ok : bool) then Some v else None) ->
  merge_spec vs rest out ->
  merge_spec vs0 (mk ++ rest) ((if ok then [v] else []) ++ out).
Proof.
  intros Hs Hv Hr Hmk Hvs0 Hne Hk Hres [H1 H2 H3].
  assert (Hab : Forall (fun w => klt k (kv_k w)) out) by (by apply H2).
  split.
  - destruct ok; [|done]. apply kstrict_cons. rewrite Hk. done.
  - intros lo [Hlo Hlm]. apply Forall_app in Hlm as [Hl1 Hl2].
    assert (Hlk : klt lo k).
    { destruct Hne as [Hne|Hne].
      - destruct mk as [|m mk]; [done|]. apply Forall_cons in Hmk as [<- _].
        by apply Forall_cons in Hl1 as [? _].
      - destruct Hvs0 as [->|(w & -> & <-)]; [done|]. by apply Forall_cons in Hlo as [? _]. }
    assert (Hlv : above lo vs rest).
    { split; [|done]. destruct Hvs0 as [->|(w & -> & _)]; [done|]. by apply Forall_cons in Hlo as [_ ?]. }
    split; [|done]. destruct ok; [|by apply H2]. constructor; [by rewrite Hk|by apply H2].
  - intros k'. rewrite with_key_app. destruct (decide (k' = k)) as [->|Hk'].
    + rewrite (with_key_nil k rest Hr), app_nil_r.
      replace (with_key k mk) with mk.
      2:{ clear -Hmk. induction Hmk as [|m mk Hm _ IH]; [done|]. unfold with_key.
          rewrite filter_cons, decide_True by done. by f_equal. }
      rewrite Hres. destruct ok; cbn [app klookup]; [by rewrite decide_True|].
      by rewrite klookup_none.
    + replace (with_key k' mk) with (@nil Msg).
      2:{ clear -Hmk Hk'. induction Hmk as [|m mk Hm _ IH]; [done|]. unfold with_key.
          rewrite filter_cons, decide_False by congruence. done. }
      cbn [app].
      replace (klookup k' vs0) with (klookup k' vs).
      2:{ destruct Hvs0 as [->|(w & -> & Hw)]; [done|]. cbn [klookup].
          by rewrite decide_False by congruence. }
      rewrite H3. destruct ok; cbn [app klookup]; [|done].
      by rewrite decide_False by congruence.
Qed.

Lemma with_key_all k ms : Forall (fun m => m_k m = k) (with_key k ms).
Proof.
  induction ms as [|m ms IH]; [constructor|]. unfold with_key. rewrite filter_cons.
  destruct (decide (m_k m = k)); [by constructor|done].
Qed.

Lemma merge_absent m ms (vs : list Kvp) ok v fr rest out :
  kstrict (vkeys vs) -> Forall (fun w => klt (m_k m) (kv_k w)) vs ->
  StronglySorted mkle (m :: ms) ->
  run_absent m ms = Ok (ok, v, fr, rest) ->
  (StronglySorted mkle rest -> merge_spec vs rest out) ->
  merge_spec vs (m :: ms) ((if ok then [v] else []) ++ out).
Proof.
  intros Hv Hlv [Hm1 Hm2]%StronglySorted_cons Hr Hrest. pose proof Hr as Hr0.
  apply run_prefix in Hr as (E & Hsr & Hlt & Hrun & Hk); [|done|done].
  cbn [start_absent snd kv_of_msg kv_k] in *. rewrite E, app_comm_cons.
  eapply (merge_emit (m_k m)); try done; [..|by apply Hrest].
  - constructor; [done|apply with_key_all].
  - by left.
  - by left.
  - rewrite klookup_none by done. cbn [key_result]. unfold run_absent in *.
    cbn [start_absent fst snd] in *. by rewrite Hrun.
Qed.

Lemma merge_present v m ms vs ok v' fr rest out :
  kstrict (vkeys (v :: vs)) -> kv_k v = m_k m -> StronglySorted mkle (m :: ms) ->
  run true v (m :: ms) Msgmax = Ok (ok, v', fr, rest) ->
  (StronglySorted mkle rest -> merge_spec vs rest out) ->
  merge_spec (v :: vs) (m :: ms) ((if ok then [v'] else []) ++ out).
Proof.
  intros [Hs Hv]%kstrict_cons Hk Hm Hr Hrest. pose proof Hm as [Hm1 Hm2]%StronglySorted_cons.
  apply run_prefix in Hr as (E & Hsr & Hlt & Hrun & Hk'); [|done|].
  2:{ constructor; [by rewrite Hk|]. by rewrite Hk. }
  rewrite E. eapply (merge_emit (kv_k v)); try done; [apply with_key_all|by right; exists v| | |].
  - right. intros E'. apply (f_equal length) in E'. simpl in E'. lia.
  - cbn [klookup]. rewrite decide_True by done. cbn [key_result]. by rewrite Hrun.
  - by apply Hrest.
Qed.

Lemma above_head m ms (v : Kvp) :
  StronglySorted mkle (m :: ms) -> klt (kv_k v) (m_k m) ->
  Forall (fun x => klt (kv_k v) (m_k x)) (m :: ms).
Proof.
  intros [Hm _]%StronglySorted_cons Hlt. constructor; [done|].
  rewrite Forall_forall in Hm |- *. intros x Hx. eapply klt_kle_trans; [done|]. by apply Hm.
Qed.

Lemma leaf_merge_spec fuel : forall vs ms out fr,
  kstrict (vkeys vs) -> StronglySorted mkle ms ->
  leaf_merge fuel vs ms = Ok (out, fr) -> merge_spec vs ms out.
Proof.
  induction fuel as [|fuel IH]; intros vs ms out fr Hv Hm H.
  { destruct vs, ms; try done. by injection H as <- <-. }
  destruct vs as [|v vs], ms as [|m ms]; cbn [leaf_merge] in H.
  - by injection H as <- <-.
  - unfold emit in H. bind_inv H as [[[ok v'] fr1] rest] Er. bind_inv H as [out' fr2] Eo.
    injection H as <- <-. eapply merge_absent; try done. intros. by eapply IH.
  - bind_inv H as [out' fr'] Eo. injection H as <- <-.
    apply merge_copy; [done|done|]. apply kstrict_cons in Hv as [Hv _]. by eapply IH.
  - pose proof Hv as [Hvs Hvl]%kstrict_cons.
    destruct (keycmpP (kv_k v) (m_k m)) as [Hc|Hc|Hc]; cbn [Z.eqb Pos.eqb] in H.
    + bind_inv H as [out' fr'] Eo. injection H as <- <-.
      apply merge_copy; [done|by apply above_head|by eapply IH].
    + unfold emit in H. bind_inv H as [[[ok v'] fr1] rest] Er. bind_inv H as [out' fr2] Eo.
      injection H as <- <-. eapply merge_present; try done. intros. by eapply IH.
    + unfold emit in H. bind_inv H as [[[ok v'] fr1] rest] Er. bind_inv H as [out' fr2] Eo.
      injection H as <- <-. eapply merge_absent; try done; [|intros; by eapply IH].
      constructor; [done|]. rewrite Forall_forall in Hvl |- *. eauto using klt_trans.
Qed.

(** ** Theorems *)

Section LeafTheorems.
Context {S : Type} `{BlkLayerOk S}.

(** C1: [updateleaf] refines the merge of the leaf with the messages above
    it.  When [flush] finds that the leaf is not filled, every message is
    pulled ([npull] is their number), the new block represents the merge,
    it is queued (or given back when it is empty), and the data blocks the
    messages make unreachable are freed, in order, and no others. *)
Theorem updateleaf_refines_merge t up p b vs seg out fr s n s1 :
  p_b p = Some b -> vals_repr b vs -> b_type b = Tleaf -> vs <> [] ->
  up_repr up seg -> msgs_tot seg <= p_sz up -> filledleaf b (p_sz up) = Ok false ->
  Forall (fun v => kvlen v <= Msgmax) vs ->
  Forall (fun m => kvlen (kv_of_msg m) <= Msgmax) seg ->
  leaf_merge (length vs + length seg) vs seg = Ok (out, fr) ->
  newblk t Tleaf s = Ok (n, s1) ->
  exists n' pz, vals_repr n' out /\ b_type n' = Tleaf /\
    p_pullsz p <= pz <= p_pullsz p + msgs_tot seg /\
    updateleaf t up p s =
      let! s := freebps t fr s1 in
      let! (nl, s) := setb t n' s in
      Ok (mkPath (p_ins p) (p_b p) (p_idx p) (p_lo p) (p_hi p) (p_sz p)
            POmod (p_m p) nl (p_nr p) (p_midx p) (zlen seg) pz, s).
Proof.
  intros Hp Hb Ht Hne Hu Hsz Hfill Hv Hm Hmerge Hn.
  eapply updateleaf_spec; try done.
  unfold filledleaf in Hfill. rewrite Ht in Hfill. cbn -[Z.mul Leafspc] in Hfill.
  injection Hfill as Hfill. zb. pose proof (vals_repr_tot _ _ Hb). lia.
Qed.
End LeafTheorems.

(** The merge computes, for every key, the value the messages of that key
    leave when they are applied in order to the value the leaf had, and its
    result is strictly sorted. *)
Theorem leaf_merge_correct fuel vs ms out fr :
  kstrict (vkeys vs) -> StronglySorted mkle ms ->
  leaf_merge fuel vs ms = Ok (out, fr) ->
  kstrict (vkeys out) /\
  forall k, key_result (klookup k vs) (with_key k ms) = Ok (klookup k out).
Proof. intros Hv Hm H. by destruct (leaf_merge_spec _ _ _ _ _ Hv Hm H). Qed.

(** ** Witnesses *)

Definition leaf_vs : list Kvp := [mkKvp [2; 5] [1]; mkKvp [2; 7] [2]; mkKvp [2; 9] [3]].
Definition leaf_ms : list Msg :=
  [mkMsg Oinsert [2; 6] [9]; mkMsg Odelete [2; 7] []; mkMsg Oinsert [2; 7] [4];
   mkMsg Oclobber [2; 9] []].
Definition leaf_out : list Kvp := [mkKvp [2; 5] [1]; mkKvp [2; 6] [9]; mkKvp [2; 7] [4]].
Definition leaf_up : Path := mkPath (Some leaf_ms) None (-1) 0 4 39 0 None None None (-1) 0 0.
Definition leaf_path (b : Blk) : Path :=
  mkPath None (Some b) (-1) 0 0 0 0 None None None (-1) 0 0.

Lemma leaf_up_repr : up_repr leaf_up leaf_ms.
Proof.
  split; [done|done|]. intros i m Hi. unfold upmsg. cbn [leaf_up p_ins].
  apply znth_ok. split; [cbn; lia|]. cbn [leaf_up p_lo]. by rewrite Z.add_0_l, Nat2Z.id.
Qed.

Lemma updateleaf_refines_merge_witness :
  exists b n' pz, vals_repr b leaf_vs /\ vals_repr n' leaf_out /\
    exists s', updateleaf tree0 leaf_up (leaf_path b) mem0 =
      Ok (mkPath None (Some b) (-1) 0 0 0 POmod None (Some n') None (-1) 4 pz, s').
Proof.
  destruct (leaf_exists leaf_vs) as (b & Hb & Ht); [done|].
  edestruct (updateleaf_refines_merge tree0 leaf_up (leaf_path b) b leaf_vs leaf_ms leaf_out []
    mem0) as (n' & pz & Hn' & _ & _ & E); try done.
  - apply leaf_up_repr.
  - unfold filledleaf. rewrite Ht, (vr_nval _ _ Hb), (vr_valsz _ _ Hb). done.
  - repeat constructor; done.
  - repeat constructor; done.
  - exists b, n', pz. split; [done|]. split; [done|]. rewrite E. cbn [freebps rbind].
    unfold setb. rewrite (vr_nval _ _ Hn'). cbn. eauto.
Defined.

Lemma leaf_merge_correct_witness :
  kstrict (vkeys leaf_out) /\
  forall k, key_result (klookup k leaf_vs) (with_key k leaf_ms) = Ok (klookup k leaf_out).
Proof.
  apply (leaf_merge_correct 7 leaf_vs leaf_ms leaf_out []);
    [repeat constructor; done|repeat constructor; done|reflexivity].
Defined.
