(* ===== verification/Pivot.v ===== *)
(** * Pivot updates (src/tree.c: [copyup], [updatepiv], [splitpiv], [merge],
    [rotate] and the balancing code) *)
From S2P Require Import Prelude CInt Mem Data Keys Pack Blk Search Apply Layer Path.

(** ** Copying the new children of a path element into its parent *)

(** The key of a child: its first value or its first message. *)
Definition copykey (c : Blk) : res Kvp :=
  let! kv := getval c 0 in
  if 0 <? b_nbuf c then
    let! m := getmsg c 0 in
    if 0 <? keycmp (kv_k kv) (m_k m) then Ok (mkKvp (m_k m) (kv_v kv)) else Ok kv
  else Ok kv.

Definition copyone (n : Blk) (oc : option Blk) (nbytes : Z) : res (Blk * Z) :=
  match oc with
  | None => Ok (n, nbytes)
  | Some c =>
      let! kv := copykey c in
      let! fill := blkfill c in
      let! n := setptr n (kv_k kv) (b_bp c) fill in
      Ok (n, nbytes + valsz kv)
  end.

Definition copyup (n : Blk) (pp : Path) (nbytes : Z) : res (Blk * Z) :=
  let! (n, nbytes) := copyone n (p_nl pp) nbytes in
  copyone n (p_nr pp) nbytes.

(** ** [updatepiv] *)

(** The first loop copies the children. *)
Fixpoint piv_vals (fuel : nat) (b n : Blk) (midx : Z) (pp : option Path) (i : Z) : res Blk :=
  if negb (i <? b_nval b) then Ok n else
  match fuel with
  | O => Err Efuel
  | S fuel' =>
      match pp with
      | Some pp' =>
          if i =? midx then
            let! (n, _) := copyup n pp' 0 in
            let i := if (p_op pp' =? POrot) || (p_op pp' =? POmerge) then i + 1 else i in
            piv_vals fuel' b n midx pp (i + 1)
          else
            let! m := getval b i in
            let! n := setval n m in
            piv_vals fuel' b n midx pp (i + 1)
      | None =>
          let! m := getval b i in
          let! n := setval n m in
          piv_vals fuel' b n midx pp (i + 1)
      end
  end.

(** The innermost loop: the messages with the key [k].  The result is [j],
    the block, [full], [spc], [sz] and [p->pullsz]. *)
Fixpoint pull_same (fuel : nat) (up : Path) (k : list Z) (j : Z) (n : Blk) (full : bool)
    (spc sz pullsz : Z) : res (Z * Blk * bool * Z * Z * Z) :=
  let! (c, ou, full) := pullmsg up j (Some k) full spc in
  if negb (c =? 0) then Ok (j, n, full, spc, sz, pullsz) else
  match fuel, ou with
  | O, _ => Err Efuel
  | _, None => Err Euninit
  | S fuel', Some u =>
      let! n := setmsg n u in
      let sz := msgsz u in
      pull_same fuel' up k (j + 1) n full (spc - sz) sz (pullsz + sz)
  end.

(** The second loop merges the buffer with the messages from above. *)
Fixpoint piv_msgs (fuel : nat) (up : Path) (b : Blk) (lo : Z) (pp : option Path) (i j : Z) (n : Blk)
    (full : bool) (spc sz pullsz : Z) : res (Z * Blk * bool * Z * Z) :=
  if negb (i <? b_nbuf b) then Ok (j, n, full, spc, pullsz) else
  let! i := if i =? lo then match pp with Some pp' => Ok (i + p_npull pp') | None => Err Eoob end
            else Ok i in
  if i =? b_nbuf b then Ok (j, n, full, spc, pullsz) else
  let! m := getmsg b i in
  let! (c, ou, full) := pullmsg up j (Some (m_k m)) full (spc - sz) in
  match fuel with
  | O => Err Efuel
  | S fuel' =>
      if c =? 1 then
        match ou with
        | None => Err Euninit
        | Some u =>
            let! v := cpkvp (kv_of_msg u) Msgmax in
            let! (j, n, full, spc, sz, pullsz) :=
              pull_same (Z.to_nat (p_hi up - j)) up (kv_k v) j n full spc sz pullsz in
            piv_msgs fuel' up b lo pp i j n full spc sz pullsz
        end
      else
        let! n := setmsg n m in
        piv_msgs fuel' up b lo pp (i + 1) j n full spc sz pullsz
  end.

(** The last loop takes the messages that are left. *)
Fixpoint pull_rest (fuel : nat) (up : Path) (j : Z) (n : Blk) (full : bool) (spc pullsz : Z)
  : res (Z * Blk * Z) :=
  if negb (j <? p_hi up) then Ok (j, n, pullsz) else
  let! (c, ou, full) := pullmsg up j None full spc in
  if (full : bool) then Ok (j, n, pullsz) else
  match fuel, ou with
  | O, _ => Err Efuel
  | _, None => Err Euninit
  | S fuel', Some u =>
      let! n := setmsg n u in
      let sz := msgsz u in
      pull_rest fuel' up (j + 1) n full (spc - sz) (pullsz + sz)
  end.

Section Pivot.
Context {S : Type} `{BlkLayer S}.

Definition updatepiv (t : Tree) (up p : Path) (pp : option Path) (s : S) : res (Path * S) :=
  match p_b p with
  | None => Err Eoob
  | Some b =>
      let! (n, s) := newblk t (b_type b) s in
      let! n := piv_vals (Z.to_nat (b_nval b)) b n (p_midx p) pp 0 in
      let! fill := buffill b in
      let spc := Bufspc - fill + match pp with Some pp' => p_pullsz pp' | None => 0 end in
      let! (j, n, full, spc, pullsz) :=
        piv_msgs (Z.to_nat (b_nbuf b + (p_hi up - p_lo up))) up b (p_lo p) pp 0 (p_lo up) n
          false spc 0 (p_pullsz p) in
      let! (j, n, pullsz) := pull_rest (Z.to_nat (p_hi up - j)) up j n full spc pullsz in
      let! (nl, s) := setb t n s in
      Ok (mkPath (p_ins p) (p_b p) (p_idx p) (p_lo p) (p_hi p) (p_sz p)
            POmod (p_m p) nl (p_nr p) (p_midx p) (j - p_lo up) pullsz, s)
  end.
End Pivot.

(** ** [splitpiv] *)

(** Write to the left block until the split, to the right one after it. *)
Definition put (rgt : bool) (f : Blk -> res Blk) (l r : Blk) : res (Blk * Blk) :=
  if rgt then let! r := f r in Ok (l, r) else let! l := f l in Ok (l, r).

(** The children; the result is the two blocks and [mid]. *)
Fixpoint split_vals (fuel : nat) (b : Blk) (idx : Z) (pp : option Path) (i : Z) (l r : Blk)
    (rgt : bool) (copied halfsz : Z) (mid : option Kvp) : res (Blk * Blk * option Kvp) :=
  if negb (i <? b_nval b) then Ok (l, r, mid) else
  match fuel with
  | O => Err Efuel
  | S fuel' =>
      let! (rgt, mid) :=
        if negb rgt && ((i =? b_nval b - 2) || ((2 <=? i) && (halfsz <=? copied))) then
          let! k := getval b i in Ok (true, Some k)
        else Ok (rgt, mid) in
      if i =? idx then
        match pp with
        | None => Err Eoob
        | Some pp' =>
            let! (d, copied) := copyup (if (rgt : bool) then r else l) pp' copied in
            let (l, r) := if (rgt : bool) then (l, d) else (d, r) in
            split_vals fuel' b idx pp (i + 1) l r rgt copied halfsz mid
        end
      else
        let! tk := getval b i in
        let! (l, r) := put rgt (fun d => setval d tk) l r in
        split_vals fuel' b idx pp (i + 1) l r rgt (copied + valsz tk) halfsz mid
  end.

(** The buffer. *)
Fixpoint split_msgs (fuel : nat) (b : Blk) (lo : Z) (pp : option Path) (i : Z) (l r : Blk)
    (rgt : bool) (mid : Kvp) : res (Blk * Blk) :=
  if negb (i <? b_nbuf b) then Ok (l, r) else
  let! i := if i =? lo then match pp with Some pp' => Ok (i + p_npull pp') | None => Err Eoob end
            else Ok i in
  if i =? b_nbuf b then Ok (l, r) else
  match fuel with
  | O => Err Efuel
  | S fuel' =>
      let! m := getmsg b i in
      let rgt := rgt || (0 <=? keycmp (m_k m) (kv_k mid)) in
      let! (l, r) := put rgt (fun d => setmsg d m) l r in
      split_msgs fuel' b lo pp (i + 1) l r rgt mid
  end.

Section Split.
Context {S : Type} `{BlkLayer S}.

Definition splitpiv (t : Tree) (p : Path) (pp : option Path) (s : S) : res (Path * Kvp * S) :=
  match p_b p with
  | None => Err Eoob
  | Some b =>
      let! (l, s) := newblk t (b_type b) s in
      let! (r, s) := newblk t (b_type b) s in
      let halfsz := Z.quot (2 * b_nval b + b_valsz b) 2 in
      assert! 4 <=? b_nval b in
      let! (l, r, mid) :=
        split_vals (Z.to_nat (b_nval b)) b (p_idx p) pp 0 l r false 0 halfsz None in
      match mid with
      | None => Err Euninit
      | Some mid =>
          let! (l, r) := split_msgs (Z.to_nat (b_nbuf b)) b (p_lo p) pp 0 l r false mid in
          let! (nl, s) := setb t l s in
          let! (nr, s) := setb t r s in
          Ok (mkPath (p_ins p) (p_b p) (p_idx p) (p_lo p) (p_hi p) (p_sz p)
                POsplit (p_m p) nl nr (p_midx p) (p_npull p) (p_pullsz p), mid, s)
      end
  end.
End Split.

(** ** Balancing *)

(** [for(i = 0; i < a->nval; i++)] over one block. *)
Fixpoint copy_vals (fuel : nat) (a : Blk) (i : Z) (d : Blk) : res Blk :=
  if negb (i <? b_nval a) then Ok d else
  match fuel with
  | O => Err Efuel
  | S fuel' => let! m := getval a i in let! d := setval d m in copy_vals fuel' a (i + 1) d
  end.

Fixpoint copy_msgs (fuel : nat) (a : Blk) (i : Z) (d : Blk) : res Blk :=
  if negb (i <? b_nbuf a) then Ok d else
  match fuel with
  | O => Err Efuel
  | S fuel' => let! m := getmsg a i in let! d := setmsg d m in copy_msgs fuel' a (i + 1) d
  end.

Definition set_midx (p : Path) (i : Z) : Path :=
  mkPath (p_ins p) (p_b p) (p_idx p) (p_lo p) (p_hi p) (p_sz p)
    (p_op p) (p_m p) (p_nl p) (p_nr p) i (p_npull p) (p_pullsz p).

Definition set_new (p : Path) (op : Z) (nl nr : option Blk) : Path :=
  mkPath (p_ins p) (p_b p) (p_idx p) (p_lo p) (p_hi p) (p_sz p)
    op (p_m p) nl nr (p_midx p) (p_npull p) (p_pullsz p).

(** [spillscan]: would we spill, and [*idx]. *)
Fixpoint spill_loop (fuel : nat) (b : Blk) (k : list Z) (i o used idx : Z) : res (bool * Z) :=
  if negb (i <? b_nbuf b) then Ok (false, b_nbuf b) else
  match fuel with
  | O => Err Efuel
  | S fuel' =>
      let! n := getmsg b i in
      if keycmp k (m_k n) <=? 0 then Ok (false, i + o)
      else if Bufspc <? used + msgsz n then Ok (true, idx)
      else spill_loop fuel' b k (i + 1) o (used + msgsz n) idx
  end.

Definition spillscan (d b : Blk) (k : list Z) (idx o : Z) : res (bool * Z) :=
  spill_loop (Z.to_nat (b_nbuf b)) b k idx o (2 * b_nbuf d + b_bufsz d) idx.

Definition spillsbuf (d l r : Blk) (k : list Z) (idx : Z) : res (bool * Z) :=
  if b_type l =? Tleaf then Ok (false, idx) else
  let! (spill, idx) :=
    if idx <? b_nbuf l then spillscan d l k idx 0 else Ok (false, idx) in
  if (spill : bool) then Ok (true, idx)
  else if b_nbuf l <=? idx then spillscan d r k idx (b_nbuf l)
  else Ok (false, idx).

(** One of the two value loops of [rotate]; [src] is [a] or [b]. *)
Fixpoint rot_vals (fuel : nat) (a b src : Blk) (i : Z) (l r : Blk) (rgt : bool)
    (cp sp idx halfpiv : Z) : res (Blk * Blk * bool * Z * Z * Z) :=
  if negb (i <? b_nval src) then Ok (l, r, rgt, cp, sp, idx) else
  match fuel with
  | O => Err Efuel
  | S fuel' =>
      let! m := getval src i in
      let! (rgt, sp, idx) :=
        if rgt then Ok (rgt, sp, idx)
        else if halfpiv <=? cp then Ok (true, idx, idx)
        else
          let! (spill, idx) := spillsbuf l a b (kv_k m) idx in
          Ok (if (spill : bool) then (true, idx, idx) else (false, sp, idx)) in
      let! (l, r) := put rgt (fun d => setval d m) l r in
      rot_vals fuel' a b src (i + 1) l r rgt (cp + valsz m) sp idx halfpiv
  end.

(** One of the two message loops of [rotate]. *)
Fixpoint rot_msgs (fuel : nat) (src : Blk) (i : Z) (l r : Blk) (rgt : bool) (o sp : Z)
  : res (Blk * Blk * bool * Z) :=
  if negb (i <? b_nbuf src) then Ok (l, r, rgt, o) else
  match fuel with
  | O => Err Efuel
  | S fuel' =>
      let (rgt, o) := if o =? sp then (true, 0) else (rgt, o) in
      let! m := getmsg src i in
      let! (l, r) := put rgt (fun d => setmsg d m) l r in
      rot_msgs fuel' src (i + 1) l r rgt (o + 1) sp
  end.

Section Balance.
Context {S : Type} `{BlkLayer S}.

(** The new [p] and [pp]. *)
Definition merge (t : Tree) (p pp : Path) (idx : Z) (a b : Blk) (s : S)
  : res (Path * Path * S) :=
  let! (d, s) := newblk t (b_type a) s in
  let! d := copy_vals (Z.to_nat (b_nval a)) a 0 d in
  let! d := copy_vals (Z.to_nat (b_nval b)) b 0 d in
  let! d :=
    if b_type a =? Tpivot then
      let! d := copy_msgs (Z.to_nat (b_nbuf a)) a 0 d in
      copy_msgs (Z.to_nat (b_nbuf b)) b 0 d
    else Ok d in
  let! (nl, s) := setb t d s in
  Ok (set_midx p idx, set_new pp POmerge nl (p_nr pp), s).

Definition rotate (t : Tree) (p pp : Path) (midx : Z) (a b : Blk) (halfpiv : Z) (s : S)
  : res (Path * Path * S) :=
  let! (l, s) := newblk t (b_type a) s in
  let! (r, s) := newblk t (b_type a) s in
  let! (l, r, rgt, cp, sp, idx) :=
    rot_vals (Z.to_nat (b_nval a)) a b a 0 l r false 0 (-1) 0 halfpiv in
  let! (l, r, rgt, cp, sp, idx) :=
    rot_vals (Z.to_nat (b_nval b)) a b b 0 l r rgt cp sp idx halfpiv in
  let! (l, r) :=
    if b_type a =? Tpivot then
      let! (l, r, rgt, o) := rot_msgs (Z.to_nat (b_nbuf a)) a 0 l r false 0 sp in
      let! (l, r, rgt, o) := rot_msgs (Z.to_nat (b_nbuf b)) b 0 l r rgt o sp in
      Ok (l, r)
    else Ok (l, r) in
  let! (nl, s) := setb t l s in
  let! (nr, s) := setb t r s in
  Ok (set_midx p midx, set_new pp POrot nl nr, s).

Definition rotmerge (t : Tree) (p pp : Path) (idx : Z) (a b : Blk) (s : S)
  : res (Path * Path * S) :=
  assert! b_type a =? b_type b in
  let na := 2 * b_nval a + b_valsz a in
  let nb := 2 * b_nval b + b_valsz b in
  let ma := if b_type a =? Tleaf then 0 else 2 * b_nbuf a + b_bufsz a in
  let mb := if b_type a =? Tleaf then 0 else 2 * b_nbuf b + b_bufsz b in
  let imbalance := Z.abs (na - nb) in
  if (na + nb <? Pivspc - 4 * Msgmax) && (ma + mb <? Bufspc) then merge t p pp idx a b s
  else if 4 * Msgmax <? imbalance then rotate t p pp idx a b (Z.quot (na + nb) 2) s
  else Ok (p, pp, s).

(** The new [p] and [pp]. *)
Definition trybalance (t : Tree) (p : Path) (pp : option Path) (idx : Z) (s : S)
  : res (Path * option Path * S) :=
  match pp with
  | None => Ok (p, pp, s)
  | Some pp' =>
      match p_nl pp' with
      | None => Ok (p, pp, s)
      | Some m =>
          if p_idx p =? -1 then Ok (p, pp, s)
          else if negb (p_op pp' =? POmod) || negb (p_op pp' =? POmerge) then Ok (p, pp, s)
          else
            let! s := holdblk m s in
            match p_b p with
            | None => Err Eoob
            | Some pb =>
                let spc := if b_type m =? Tleaf then Leafspc else Pivspc in
                let! mfill := blkfill m in
                let! lft :=
                  if 0 <=? idx - 1 then
                    let! kl := getval pb (idx - 1) in
                    let! (bp, fill) := getptr kl in
                    Ok (if fill + mfill <? spc then Some bp else None)
                  else Ok None in
                match lft with
                | Some bp =>
                    let! (l, s) := getblk bp 0 s in
                    let! (p, pp', s) := rotmerge t p pp' (idx - 1) l m s in
                    let! s := dropblk m s in
                    let! s := dropblk l s in
                    Ok (p, Some pp', s)
                | None =>
                    let! rgt :=
                      if idx + 1 <? b_nval pb then
                        let! kr := getval pb (idx + 1) in
                        let! (bp, fill) := getptr kr in
                        Ok (if fill + mfill <? spc then Some bp else None)
                      else Ok None in
                    match rgt with
                    | Some bp =>
                        let! (r, s) := getblk bp 0 s in
                        let! (p, pp', s) := rotmerge t p pp' idx m r s in
                        let! s := dropblk m s in
                        let! s := dropblk r s in
                        Ok (p, Some pp', s)
                    | None => let! s := dropblk m s in Ok (p, Some pp', s)
                    end
                end
            end
      end
  end.
End Balance.
