(* ===== verification/Tree.v ===== *)
(** * The message tree (src/tree.c: [victim], [fastupsert], [flush],
    [btupsert], [btlookup]) *)
From S2P Require Import Prelude CInt Mem Data Keys Pack Blk Search Apply Layer Path Leaf Pivot.

(** ** Choosing what to flush *)

(** The inner loop of [victim]: the messages below the next separator;
    [j] and [cursz]. *)
Fixpoint victim_seg (fuel : nat) (b : Blk) (sep : option (list Z)) (j cursz : Z) : res (Z * Z) :=
  if negb (j <? b_nbuf b) then Ok (j, cursz) else
  match fuel with
  | O => Err Efuel
  | S fuel' =>
      let! m := getmsg b j in
      if match sep with Some k => 0 <=? keycmp (m_k m) k | None => false end
      then Ok (j, cursz)
      else victim_seg fuel' b sep (j + 1) (cursz + msgsz m)
  end.

Definition path0 : Path := mkPath None None 0 0 0 0 0 None None None 0 0 0.

Definition set_b (p : Path) (b : Blk) : Path :=
  mkPath (p_ins p) (Some b) (p_idx p) (p_lo p) (p_hi p) (p_sz p)
    (p_op p) (p_m p) (p_nl p) (p_nr p) (p_midx p) (p_npull p) (p_pullsz p).

Fixpoint victim_loop (fuel : nat) (b : Blk) (i j maxsz : Z) (p : Path) : res Path :=
  if negb (i <=? b_nval b) then Ok p else
  match fuel with
  | O => Err Efuel
  | S fuel' =>
      let! sep := if i <? b_nval b then let! kv := getval b i in Ok (Some (kv_k kv)) else Ok None in
      let! (j', cursz) := victim_seg (Z.to_nat (b_nbuf b)) b sep j 0 in
      if maxsz <? cursz then
        victim_loop fuel' b (i + 1) j' cursz
          (mkPath (p_ins p) (p_b p) (i - 1) j j' cursz POmod (p_m p) (p_nl p) (p_nr p)
             (i - 1) 0 0)
      else victim_loop fuel' b (i + 1) j' maxsz p
  end.

Definition victim (b : Blk) : res Path :=
  victim_loop (Z.to_nat (b_nval b)) b 1 0 0 (set_b path0 b).

(** ** The fast path: room in the root *)

Fixpoint set_all (r : Blk) (ms : list Msg) : res Blk :=
  match ms with [] => Ok r | m :: ms' => let! r := setmsg r m in set_all r ms' end.

(** The binary search for the position after the last equal key: [ri] and
    [hi]. *)
Fixpoint upper_loop (fuel : nat) (r : Blk) (k : list Z) (lo hi ri : Z) : res (Z * Z) :=
  if negb (lo <=? hi) then Ok (ri, hi) else
  match fuel with
  | O => Err Efuel
  | S fuel' =>
      let mid := (hi + lo) / 2 in
      let! cmp := getmsg r mid in
      let c := keycmp k (m_k cmp) in
      if c =? -1 then upper_loop fuel' r k lo (mid - 1) ri
      else if c =? 0 then upper_loop fuel' r k (mid + 1) hi (mid + 1)
      else upper_loop fuel' r k (mid + 1) hi ri
  end.

(** Move slot [n] to position [ri]. *)
Definition move_slot (r : Blk) (n ri : Z) : res Blk :=
  let d := data_off r + Pivspc in
  let! o := rd16 (b_buf r) (d + 2 * n) in
  let! slots := rd (b_buf r) (d + 2 * ri) (2 * (n - ri)) in
  let! buf := wr (b_buf r) (d + 2 * ri + 2) slots in
  let! buf := wr buf (d + 2 * ri) (PACK16 o) in
  Ok (set_buf r buf).

Fixpoint insert_slots (r : Blk) (n : Z) (ms : list Msg) : res Blk :=
  match ms with
  | [] => Ok r
  | m :: ms' =>
      let! (ri, hi) := upper_loop (Z.to_nat n) r (m_k m) 0 (n - 1) (-1) in
      let ri := if ri =? -1 then hi + 1 else ri in
      let! r := move_slot r n ri in
      insert_slots r (n + 1) ms'
  end.

Definition set_root (t : Tree) (bp : Bptr) (dh : Z) : Tree :=
  mkTree (t_snap t) (t_memref t) (t_memgen t) 1 (t_nref t) (t_nlbl t) (t_ht t + dh)
    (t_flag t) bp (t_gen t) (t_pred t) (t_succ t) (t_base t).

Section Tree.
Context {S : Type} `{BlkLayer S}.

Definition fastupsert (t : Tree) (b : Blk) (msg : list Msg) (s : S) : res (Tree * S) :=
  let! (r, s) := dupblk t b s in
  let nbuf := b_nbuf r in
  let! r := set_all r msg in
  let! r := insert_slots r nbuf msg in
  let! (r, s) := enqueue r s in
  let t := set_root t (b_bp r) 0 in
  let! s := freeblk t b s in
  let! s := dropblk b s in
  let! s := dropblk r s in
  Ok (t, s).

(** ** The slow path *)

(** The loop of [flush] above the last element: [rest] is the path from [p]
    up to [path[0]], [below] the elements under [pp].  The result is the
    path from the top, [rp], and whether the root was merged. *)
Fixpoint flush_loop (t : Tree) (rest : list Path) (pp : option Path) (below : list Path)
    (rp : option Path) (s : S) : res (list Path * option Path * bool * S) :=
  match rest with
  | [] => Err Eassert
  | [p0] => Ok (p0 :: from_option (fun p => [p]) [] pp ++ below, rp, false, s)
  | p :: ((up :: top) as rest') =>
      match p_b p with
      | None => Err Eoob
      | Some b =>
          let! filled := filledpiv b 1 in
          if negb filled then
            let! (p, pp, s) := trybalance t p pp (p_idx p) s in
            if match top, pp with
               | [], Some pp' => (p_op pp' =? POmerge) && (b_nval b =? 2)
               | _, _ => false
               end
            then Ok (reverse (p :: rest') ++ from_option (fun p => [p]) [] pp ++ below, pp, true, s)
            else
              let! (p, s) := updatepiv t up p pp s in
              flush_loop t rest' (Some p) (from_option (fun p => [p]) [] pp ++ below) (Some p) s
          else
            let! (p, _, s) := splitpiv t p pp s in
            flush_loop t rest' (Some p) (from_option (fun p => [p]) [] pp ++ below) rp s
      end
  end.

(** The new path and [rp]. *)
Definition flush (t : Tree) (path : list Path) (s : S) : res (list Path * option Path * S) :=
  assert! 2 <=? zlen path in
  match reverse path with
  | p :: ((up :: top) as rest) =>
      match p_b p with
      | None => Err Eoob
      | Some b =>
          let! (path, rp, out, s) :=
            if b_type b =? Tleaf then
              let! filled := filledleaf b (p_sz up) in
              if negb filled then
                let! (p, s) := updateleaf t up p s in
                let p := set_midx p (-1) in
                flush_loop t rest (Some p) [] (Some p) s
              else
                let! (p, _, s) := splitleaf t up p s in
                flush_loop t rest (Some (set_midx p (-1))) [] None s
            else flush_loop t (p :: rest) None [] None s in
          if (out : bool) then Ok (path, rp, s)
          else
            match path with
            | p0 :: ((pp :: below) as path') =>
                match p_nl pp, p_nr pp with
                | Some _, Some _ =>
                    let! (nl, s) := newblk t Tpivot s in
                    let! (nl, _) := copyup nl pp 0 in
                    let! (nl, s) := enqueue nl s in
                    let rp := mkPath (p_ins p0) (p_b p0) (p_idx p0) (p_lo p0) (p_hi p0) (p_sz p0)
                      (p_op p0) (p_m p0) (Some nl) (p_nr p0) (p_midx p0) (p_npull pp) (p_pullsz pp) in
                    Ok (rp :: path', Some rp, s)
                | _, _ => Ok (path, rp, s)
                end
            | _ => Err Eoob
            end
      end
  | _ => Err Eassert
  end.

Definition dropopt (ob : option Blk) (s : S) : res S :=
  match ob with Some b => dropblk b s | None => Ok s end.

Fixpoint freepath (t : Tree) (path : list Path) (s : S) : res S :=
  match path with
  | [] => Ok s
  | p :: path' =>
      let! s := match p_b p with Some b => freeblk t b s | None => Ok s end in
      let! s :=
        match p_m p with
        | Some _ => match p_b p with Some b => freeblk t b s | None => Err Eoob end
        | None => Ok s
        end in
      let! s := dropopt (p_b p) s in
      let! s := dropopt (p_nl p) s in
      let! s := dropopt (p_nr p) s in
      freepath t path' s
  end.

Definition getroot (t : Tree) (s : S) : res (Blk * Z * S) :=
  let! (b, s) := getblk (t_bp t) 0 s in Ok (b, t_ht t, s).

(** The descent; [path] is built in reverse and [room] is what is left of
    the array. *)
Fixpoint descend (room : nat) (b : Blk) (nmsg : Z) (path : list Path) (s : S)
  : res (Blk * list Path * S) :=
  match room with
  | O => Err Eoob
  | Datatypes.S room' =>
      if b_type b =? Tpivot then
        let! filled := filledbuf b nmsg (match path with p :: _ => p_sz p | [] => 0 end) in
        if negb filled then Ok (b, path, s)
        else
          let! p := victim b in
          let! sep := getval b (p_idx p) in
          let! bp := unpackbp (kv_v sep) (zlen (kv_v sep)) in
          let! (b, s) := getblk bp 0 s in
          descend room' b nmsg (p :: path) s
      else Ok (b, path, s)
  end.

Definition dheight (path : list Path) : res Z :=
  let has i := match path !! i with Some p => bool_decide (p_nl p <> None) | None => false end in
  if has 0%nat then Ok 1
  else if has 1%nat then Ok 0
  else if has 2%nat then Ok (-1)
  else Err Eassert.

Fixpoint btupsert_loop (fuel : nat) (t : Tree) (msg : list Msg) (sz npull : Z) (s : S)
  : res (Tree * S) :=
  match fuel with
  | O => Err Efuel
  | Datatypes.S fuel' =>
      let! (b, height, s) := getroot t s in
      let! fast :=
        if (npull =? 0) && (b_type b =? Tpivot) then
          let! filled := filledbuf b (zlen msg) sz in Ok (negb filled)
        else Ok false in
      if (fast : bool) then fastupsert t b msg s
      else
        let p0 := mkPath (Some msg) None (-1) npull (zlen msg) sz 0 None None None (-1) 0 0 in
        let! (b, rpath, s) := descend (Z.to_nat (height + 1)) b (zlen msg) [p0] s in
        let last := mkPath None (Some b) (-1) (-1) (-1) 0 0 None None None (-1) 0 0 in
        let! (path, rp, s) := flush t (reverse (last :: rpath)) s in
        match rp with
        | None => Err Eoob
        | Some rp =>
            let! dh := dheight path in
            match p_nl rp with
            | None => Err Eoob
            | Some rb =>
                assert! negb (bp_addr (b_bp rb) =? 0) in
                let t := set_root t (b_bp rb) dh in
                let npull := npull + p_npull rp in
                let! s := freepath t path s in
                if negb (npull =? zlen msg) then btupsert_loop fuel' t msg sz npull s
                else Ok (t, s)
            end
        end
  end.

Definition btupsert (fuel : nat) (t : Tree) (msg : list Msg) (s : S) : res (Tree * S) :=
  let msg := stablesort msg in
  btupsert_loop fuel t msg (msgs_tot msg) 0 s.

(** ** Lookup *)

(** Load the children; [p] holds the blocks from the root, [None] below a
    block where the search fell off.  [r] is the last entry loaded. *)
Fixpoint load_path (n : nat) (b : option Blk) (k : list Z) (r : option Kvp) (s : S)
  : res (list (option Blk) * option Kvp * S) :=
  match n with
  | O => Ok ([], r, s)
  | Datatypes.S n' =>
      match b with
      | None => let! (p, r, s) := load_path n' None k r s in Ok (None :: p, r, s)
      | Some b =>
          let! (ri, same, m) := blksearch b k in
          if ri =? -1 then
            let! (p, r, s) := load_path n' None k r s in Ok (None :: p, r, s)
          else
            match m with
            | None => Err Euninit
            | Some e =>
                let! bp := unpackbp (kv_v e) (zlen (kv_v e)) in
                let! (c, s) := getblk bp 0 s in
                let! (p, r, s) := load_path n' (Some c) k (Some e) s in
                Ok (Some c :: p, r, s)
            end
      end
  end.

(** [apply] to a result that may not have been loaded yet. *)
Definition apply_opt (r : option Kvp) (m : Msg) (nbuf : Z) : res (bool * option Kvp) :=
  match r with
  | Some v => let! (ok, v) := apply v m nbuf in Ok (ok, Some v)
  | None =>
      if m_op m =? Oinsert then
        let! (ok, v) := apply (kv_of_msg m) m nbuf in Ok (ok, Some v)
      else if (m_op m =? Oclearb) || (m_op m =? Oclobber) then Ok (false, None)
      else Err Euninit
  end.

(** The messages after the first one of the key. *)
Fixpoint apply_more (fuel : nat) (b : Blk) (k : list Z) (j : Z) (ok : bool) (r : option Kvp)
    (nbuf : Z) : res (bool * option Kvp) :=
  if negb (j <? b_nbuf b) then Ok (ok, r) else
  match fuel with
  | O => Err Efuel
  | Datatypes.S fuel' =>
      let! m := getmsg b j in
      if negb (keycmp k (m_k m) =? 0) then Ok (ok, r)
      else
        let! (ok, r) := apply_opt r m nbuf in
        apply_more fuel' b k (j + 1) ok r nbuf
  end.

(** The messages of one pivot. *)
Definition apply_level (b : Blk) (k : list Z) (ok : bool) (r : option Kvp) (nbuf : Z)
  : res (bool * option Kvp) :=
  let! (j, same, om) := bufsearch b k in
  if (j <? 0) || negb same then Ok (ok, r)
  else
    match om with
    | None => Err Euninit
    | Some m =>
        let! (ok, r) :=
          if ok || (m_op m =? Oinsert) then apply_opt r m nbuf
          else if negb (m_op m =? Oclearb) && negb (m_op m =? Oclobber) then Err Eassert
          else Ok (ok, r) in
        apply_more (Z.to_nat (b_nbuf b)) b k (j + 1) ok r nbuf
    end.

(** From the leaf's parent up to the root: [ps] is in that order. *)
Fixpoint apply_levels (ps : list (option Blk)) (k : list Z) (ok : bool) (r : option Kvp) (nbuf : Z)
  : res (bool * option Kvp) :=
  match ps with
  | [] => Ok (ok, r)
  | None :: ps' => apply_levels ps' k ok r nbuf
  | Some b :: ps' =>
      let! (ok, r) := apply_level b k ok r nbuf in
      apply_levels ps' k ok r nbuf
  end.

Fixpoint dropblks (ps : list (option Blk)) (s : S) : res S :=
  match ps with
  | [] => Ok s
  | ob :: ps' => let! s := dropopt ob s in dropblks ps' s
  end.

(** Whether the key was found, and the entry. *)
Definition btlookup (t : Tree) (k : list Z) (nbuf : Z) (s : S) : res (bool * option Kvp * S) :=
  let! (b, h, s) := getroot t s in
  if h <? 1 then Err Eoob else
  let! s := holdblk b s in
  let! (p, r, s) := load_path (Z.to_nat (h - 1)) (Some b) k None s in
  let p := Some b :: p in
  let! (ok, r) :=
    match last p with
    | Some (Some leaf) =>
        let! (ri, same, e) := blksearch leaf k in
        Ok (same, match e with Some e => Some e | None => r end)
    | _ => Ok (false, r)
    end in
  let! r :=
    match ok, r with
    | true, Some e => let! e := cpkvp e nbuf in Ok (Some e)
    | true, None => Err Euninit
    | false, _ => Ok r
    end in
  let! (ok, r) := apply_levels (tail (reverse p)) k ok r nbuf in
  let! s := dropblks p s in
  let! s := dropblk b s in
  Ok (ok, r, s).
End Tree.
