(* ===== verification/Scan.v ===== *)
(** * Scans (src/tree.c: [btnewscan], [btenter], [btnext], [btexit])

    A scan walks the keys with a prefix in order.  It keeps one position in
    the values and one in the buffered messages of every block on the path. *)
From S2P Require Import Prelude CInt Mem Data Keys Pack Blk Search Apply Layer Path Leaf Pivot Tree.

Record Scanp := mkScanp { sp_bi : Z; sp_vi : Z; sp_b : option Blk }.

Record Scan := mkScan {
  sc_offset : Z; sc_first : bool; sc_donescan : bool; sc_ht : Z;
  sc_kv : Kvp; sc_pfx : list Z; sc_path : list Scanp }.

Definition btnewscan (pfx : list Z) : Scan :=
  mkScan 0 true false 0 (mkKvp pfx []) pfx [].

Definition set_path (s : Scan) (h : Z) (p : list Scanp) : Scan :=
  mkScan (sc_offset s) false (sc_donescan s) h (sc_kv s) (sc_pfx s) p.

Definition set_done (s : Scan) (p : list Scanp) : Scan :=
  mkScan (sc_offset s) (sc_first s) true (sc_ht s) (sc_kv s) (sc_pfx s) p.

(** Skip the messages with the key [k] from index [i]. *)
Fixpoint skip_same (fuel : nat) (b : Blk) (k : list Z) (i : Z) : res Z :=
  if negb (i <? b_nbuf b) then Ok i else
  match fuel with
  | O => Err Efuel
  | S fuel' =>
      let! c := getmsg b i in
      if negb (keycmp k (m_k c) =? 0) then Ok i else skip_same fuel' b k (i + 1)
  end.

Definition enter_buf (b : Blk) (k : list Z) (first : bool) : res Z :=
  let! (bi, same, om) := bufsearch b k in
  if bi =? -1 then Ok 0
  else if negb same || negb first then
    match om with
    | Some m => skip_same (Z.to_nat (b_nbuf b)) b (m_k m) bi
    | None => Err Euninit
    end
  else Ok bi.

(** [*i]: the block at index [i] of the path list. *)
Definition at_path (p : list Scanp) (i : nat) : res Scanp :=
  match p !! i with Some x => Ok x | None => Err Eoob end.

Definition step_vi (x : Scanp) : Scanp := mkScanp (sp_bi x) (sp_vi x + 1) (sp_b x).
Definition step_bi (x : Scanp) : Scanp := mkScanp (sp_bi x + 1) (sp_vi x) (sp_b x).

Section Scan.
Context {S : Type} `{BlkLayer S}.

(** The loop of [btenter]: [n] levels from the block [b] down. *)
Fixpoint enter_loop (n : nat) (b : Blk) (k : list Z) (first : bool) (s : S)
  : res (list Scanp * S) :=
  match n with
  | O => Ok ([], s)
  | Datatypes.S n' =>
      let! (vi, same, ov) := blksearch b k in
      if b_type b =? Tpivot then
        let! (vi, ov) :=
          if vi =? -1 then let! v := getval b 0 in Ok (0, Some v) else Ok (vi, ov) in
        let! bi := enter_buf b k first in
        match ov with
        | None => Err Euninit
        | Some v =>
            let! bp := unpackbp (kv_v v) (zlen (kv_v v)) in
            let! (c, s) := getblk bp 0 s in
            match n' with
            | O => Err Eoob
            | _ =>
                let! (p, s) := enter_loop n' c k first s in
                Ok (mkScanp bi vi (Some b) :: p, s)
            end
        end
      else
        let vi := if (vi =? -1) || negb same || negb first then vi + 1 else vi in
        Ok (mkScanp 0 vi (Some b) :: replicate n' (mkScanp 0 0 None), s)
  end.

Definition btenter (t : Tree) (sc : Scan) (s : S) : res (Scan * S) :=
  if sc_donescan sc then Ok (sc, s) else
  let! (b, h, s) := getroot t s in
  let! (p, s) := enter_loop (Z.to_nat h) b (kv_k (sc_kv sc)) (sc_first sc) s in
  Ok (set_path sc h p, s).

(** Leave the blocks that are used up; [None] at the end of the scan. *)
Fixpoint back_up (i : nat) (p : list Scanp) (start : nat) (s : S)
  : res (option nat * list Scanp * S) :=
  let! x := at_path p i in
  if match sp_b x with
     | Some b => (sp_vi x <? b_nval b) || (sp_bi x <? b_nbuf b)
     | None => false
     end
  then Ok (Some start, p, s)
  else
    match i with
    | O => Ok (None, p, s)
    | Datatypes.S i' =>
        let! s := dropopt (sp_b x) s in
        let p := alter step_vi i' (<[i := mkScanp 0 0 None]> p) in
        back_up i' p i s
    end.

(** [for(i = start; i < h; i++)] *)
Fixpoint load_down (n i : nat) (p : list Scanp) (s : S) : res (list Scanp * S) :=
  match n with
  | O => Ok (p, s)
  | Datatypes.S n' =>
      let! x := at_path p (i - 1) in
      match sp_b x with
      | None => Err Eoob
      | Some b =>
          let! kv := getval b (sp_vi x) in
          let! bp := unpackbp (kv_v kv) (zlen (kv_v kv)) in
          let! (c, s) := getblk bp 0 s in
          let p := alter (fun y => mkScanp (sp_bi y) (sp_vi y) (Some c)) i p in
          load_down n' (Datatypes.S i) p s
      end
  end.

(** The smallest key of the levels below [n], the lowest level first. *)
Fixpoint min_msg (n : nat) (p : list Scanp) (m : Msg) (src : option nat) : res (Msg * option nat) :=
  match n with
  | O => Ok (m, src)
  | Datatypes.S i =>
      let! x := at_path p i in
      match sp_b x with
      | None => min_msg i p m src
      | Some b =>
          if sp_bi x =? b_nbuf b then min_msg i p m src
          else
            let! y := getmsg b (sp_bi x) in
            if keycmp (m_k y) (m_k m) <? 0 then min_msg i p y (Some i)
            else min_msg i p m src
      end
  end.

(** The messages of one level that apply to [r]. *)
Fixpoint next_level (fuel : nat) (b : Blk) (j : Z) (ok : bool) (r : Kvp) : res (Z * bool * Kvp) :=
  if negb (j <? b_nbuf b) then Ok (j, ok, r) else
  match fuel with
  | O => Err Efuel
  | Datatypes.S fuel' =>
      let! m := getmsg b j in
      if negb (keycmp (kv_k r) (m_k m) =? 0) then Ok (j, ok, r)
      else
        let! (ok, r) := apply r m Kvmax in
        next_level fuel' b (j + 1) ok r
  end.

Fixpoint next_levels (n : nat) (p : list Scanp) (ok : bool) (r : Kvp) : res (list Scanp * bool * Kvp) :=
  match n with
  | O => Ok (p, ok, r)
  | Datatypes.S i =>
      let! x := at_path p i in
      match sp_b x with
      | None => next_levels i p ok r
      | Some b =>
          let! (j, ok, r) := next_level (Z.to_nat (b_nbuf b)) b (sp_bi x) ok r in
          next_levels i (<[i := mkScanp j (sp_vi x) (Some b)]> p) ok r
      end
  end.

Definition has_prefix (pfx k : list Z) : bool :=
  (zlen pfx <=? zlen k) && (memcmp k pfx (length pfx) =? 0).

(** The result is the next entry, or [None] when the scan is done. *)
Fixpoint btnext (fuel : nat) (sc : Scan) (s : S) : res (option Kvp * Scan * S) :=
  match fuel with
  | O => Err Efuel
  | Datatypes.S fuel' =>
      if sc_donescan sc then Ok (None, sc, s) else
      let h := Z.to_nat (sc_ht sc) in
      let! (start, p, s) := back_up (h - 1) (sc_path sc) h s in
      match start with
      | None => Ok (None, set_done sc p, s)
      | Some start =>
          let! x := at_path p (start - 1) in
          match sp_b x with
          | None => Err Eoob
          | Some xb =>
              let! (p, m, src, s) :=
                if sp_vi x <? b_nval xb then
                  let! (p, s) := load_down (h - start) start p s in
                  let! y := at_path p (h - 1) in
                  match sp_b y with
                  | None => Err Eoob
                  | Some yb =>
                      let! kv := getval yb (sp_vi y) in
                      Ok (p, mkMsg Oinsert (kv_k kv) (kv_v kv), None, s)
                  end
                else
                  let! m := getmsg xb (sp_bi x) in
                  assert! m_op m =? Oinsert in
                  Ok (p, m, Some (start - 1)%nat, s) in
              let! (m, src) := min_msg (h - 1) p m src in
              if negb (has_prefix (sc_pfx sc) (m_k m)) then Ok (None, set_done sc p, s)
              else
                let! r := cpkvp (kv_of_msg m) Kvmax in
                let p := match src with
                         | None => alter step_vi (h - 1)%nat p
                         | Some i => alter step_bi i p
                         end in
                let! (p, ok, r) := next_levels (h - 1) p true r in
                let sc := mkScan (sc_offset sc) (sc_first sc) (sc_donescan sc) (sc_ht sc)
                  (sc_kv sc) (sc_pfx sc) p in
                if (ok : bool) then Ok (Some r, sc, s) else btnext fuel' sc s
          end
      end
  end.

Fixpoint btexit (p : list Scanp) (s : S) : res S :=
  match p with
  | [] => Ok s
  | x :: p' => let! s := dropopt (sp_b x) s in btexit p' s
  end.
End Scan.
