(* ===== verification/Upsert.v ===== *)
(** * The fast path of an upsert: [fastupsert] merges a batch into the
    message buffer of the root (src/tree.c)

    The messages are appended, then their slots are moved, one by one, behind
    the older messages with the same key.  [moved] is the list a move makes;
    the buffer ends up sorted and, for every key, in the order of arrival. *)
From S2P Require Import Prelude CInt Mem Data Keys Pack Blk Search Apply Layer Path Leaf Pivot Tree.

(** ** Moving a slot *)

(** Bytes inside a copied range are found in the copy. *)
Lemma at_copy m p n bs k w m' q :
  rd m p n = Ok bs -> at_ m (p + k) w -> 0 <= k -> k + zlen w <= n ->
  at_ m' q bs -> at_ m' (q + k) w.
Proof.
  intros Hr (Hw1 & Hw2 & Hw3) Hk Hkn (Hb1 & Hb2 & Hb3).
  apply rd_inv in Hr as (R1 & R2 & R3 & ->). pose proof (zlen_nonneg w).
  set (bs := take (Z.to_nat n) (drop (Z.to_nat p) m)) in *.
  assert (Hbl : zlen bs = n).
  { unfold bs, zlen in *. rewrite length_take, length_drop. lia. }
  split; [lia|]. split; [lia|].
  rewrite <- Hw3 at 2.
  assert (E : drop (Z.to_nat k) bs = take (Z.to_nat (n - k)) (drop (Z.to_nat (p + k)) m)).
  { unfold bs. rewrite skipn_firstn_comm, drop_drop. f_equal; [lia|]. f_equal. lia. }
  assert (E2 : drop (Z.to_nat (q + k)) m' = drop (Z.to_nat k) (drop (Z.to_nat q) m')).
  { rewrite drop_drop. f_equal. lia. }
  rewrite E2. rewrite <- Hb3 in E.
  assert (E3 : take (length w) (drop (Z.to_nat k) (drop (Z.to_nat q) m')) =
    take (length w) (drop (Z.to_nat k) (take (length bs) (drop (Z.to_nat q) m')))).
  { rewrite skipn_firstn_comm, take_take. f_equal. unfold zlen in *. lia. }
  rewrite E3, E, take_take. f_equal. unfold zlen in *. lia.
Qed.

Lemma total_perm es es' : Permutation es es' -> total es = total es'.
Proof. induction 1; simpl; lia. Qed.

Definition move_bytes (buf : list Z) (base n ri : Z) : res (list Z) :=
  let! o := rd16 buf (base + 2 * n) in
  let! slots := rd buf (base + 2 * ri) (2 * (n - ri)) in
  let! buf := wr buf (base + 2 * ri + 2) slots in
  wr buf (base + 2 * ri) (PACK16 o).

Lemma region_move buf base cap l1 l2 x l3 :
  region buf base cap (l1 ++ l2 ++ x :: l3) ->
  exists buf', move_bytes buf base (zlen l1 + zlen l2) (zlen l1) = Ok buf' /\
    zlen buf' = zlen buf /\ region buf' base cap (l1 ++ x :: l2 ++ l3) /\
    (forall o bs, o + zlen bs <= base \/ base + cap <= o -> at_ buf o bs -> at_ buf' o bs).
Proof.
  intros [H1 H2 H3 H4 H5].
  set (es := l1 ++ l2 ++ x :: l3) in *.
  set (es' := l1 ++ x :: l2 ++ l3).
  assert (HP : Permutation es es').
  { unfold es, es'. apply Permutation_app_head. symmetry. apply Permutation_middle. }
  assert (Hz : zlen es = zlen l1 + zlen l2 + 1 + zlen l3).
  { unfold es. autorewrite with zlen. lia. }
  pose proof (zlen_nonneg l1). pose proof (zlen_nonneg l2). pose proof (zlen_nonneg l3).
  pose proof (total_nonneg es).
  destruct (H5 (length l1 + length l2)%nat x) as (o & A & B & C & D).
  { unfold es. rewrite lookup_app_r by lia. rewrite lookup_app_r by lia.
    by replace (_ - _ - _)%nat with 0%nat by lia. }
  assert (Eo : base + 2 * Z.of_nat (length l1 + length l2) = base + 2 * (zlen l1 + zlen l2)).
  { unfold zlen. lia. }
  rewrite Eo in A.
  assert (Hx : zlen x <= total es).
  { apply (total_lookup es (length l1 + length l2)%nat). unfold es.
    rewrite lookup_app_r by lia. rewrite lookup_app_r by lia.
    by replace (_ - _ - _)%nat with 0%nat by lia. }
  pose proof (zlen_nonneg x).
  unfold move_bytes. rewrite (rd16_at _ _ _ A), u16_small by lia. cbn [rbind].
  destruct (rd_ok buf (base + 2 * zlen l1) (2 * (zlen l1 + zlen l2 - zlen l1))) as (sl & Esl & Lsl);
    [lia|lia|lia|]. rewrite Esl. cbn [rbind].
  destruct (wr_ok buf (base + 2 * zlen l1 + 2) sl) as (buf1 & E1 & L1); [lia|lia|].
  rewrite E1. cbn [rbind].
  destruct (wr_ok buf1 (base + 2 * zlen l1) (PACK16 o)) as (buf2 & E2 & L2);
    [lia|rewrite ?zlen_PACK16; lia|].
  exists buf2. split; [done|]. split; [lia|].
  assert (Hkeep : forall p bs, at_ buf p bs ->
    p + zlen bs <= base + 2 * zlen l1 \/ base + 2 * (zlen l1 + zlen l2) + 2 <= p -> at_ buf2 p bs).
  { intros p bs Ha Hd. eapply wr_frame; [exact E2| |rewrite ?zlen_PACK16; lia].
    eapply wr_frame; [exact E1|exact Ha|lia]. }
  assert (Hslot : forall i p, at_ buf (base + 2 * i) (PACK16 p) -> zlen l1 <= i < zlen l1 + zlen l2 ->
    at_ buf2 (base + 2 * (i + 1)) (PACK16 p)).
  { intros i p Ha Hi. eapply wr_frame; [exact E2| |rewrite ?zlen_PACK16; lia].
    replace (base + 2 * (i + 1)) with (base + 2 * zlen l1 + 2 + 2 * (i - zlen l1)) by lia.
    eapply at_copy; [exact Esl| |lia|rewrite ?zlen_PACK16; lia|by eapply wr_at].
    by replace (base + 2 * zlen l1 + 2 * (i - zlen l1)) with (base + 2 * i) by lia. }
  split.
  - constructor; [done|done|lia| |].
    { rewrite <- (total_perm _ _ HP). replace (zlen es') with (zlen es); [done|].
      unfold zlen. by rewrite (Permutation_length HP). }
    intros i e Hi. rewrite <- (total_perm _ _ HP).
    assert (Hold : forall j, es !! j = Some e ->
      (forall p, at_ buf (base + 2 * Z.of_nat j) (PACK16 p) -> at_ buf2 (base + 2 * Z.of_nat i) (PACK16 p)) ->
      exists o, at_ buf2 (base + 2 * Z.of_nat i) (PACK16 o) /\
        cap - total es <= o /\ o + zlen e <= cap /\ at_ buf2 (base + o) e).
    { intros j Hj Hmv. destruct (H5 j e Hj) as (p & P1 & P2 & P3 & P4). exists p.
      split; [by apply Hmv|]. split; [done|]. split; [done|]. apply Hkeep; [done|]. lia. }
    unfold es' in Hi. apply lookup_app_Some in Hi as [Hi|[Hge Hi]].
    + pose proof (lookup_lt_Some _ _ _ Hi). apply (Hold i).
      * unfold es. by rewrite lookup_app_l by done.
      * intros p Hp. apply Hkeep; [done|]. rewrite zlen_PACK16. unfold zlen. lia.
    + destruct (i - length l1)%nat as [|j] eqn:Ej.
      * injection Hi as ->. exists o. split.
        { replace (Z.of_nat i) with (zlen l1) by (unfold zlen; lia). by eapply wr_at. }
        split; [done|]. split; [done|]. apply Hkeep; [done|]. lia.
      * cbn [lookup list_lookup] in Hi. apply lookup_app_Some in Hi as [Hi|[Hge2 Hi]].
        -- pose proof (lookup_lt_Some _ _ _ Hi). apply (Hold (length l1 + j)%nat).
           ++ unfold es. rewrite lookup_app_r by lia. rewrite lookup_app_l by lia.
              by replace (length l1 + j - length l1)%nat with j by lia.
           ++ intros p Hp. replace (Z.of_nat i) with (Z.of_nat (length l1 + j) + 1) by lia.
              apply Hslot; [done|]. unfold zlen. lia.
        -- apply (Hold i).
           ++ unfold es. rewrite lookup_app_r by lia. rewrite lookup_app_r by lia.
              replace (i - length l1 - length l2)%nat with (S (j - length l2)) by lia. done.
           ++ intros p Hp. apply Hkeep; [done|]. unfold zlen. lia.
  - intros p bs Hd Ha. apply Hkeep; [done|]. lia.
Qed.

Lemma move_slot_repr r l1 l2 x l3 :
  msgs_repr r (l1 ++ l2 ++ x :: l3) ->
  exists r', move_slot r (zlen l1 + zlen l2) (zlen l1) = Ok r' /\
    msgs_repr r' (l1 ++ x :: l2 ++ l3) /\ blk_same r r' /\
    (forall vs, vals_repr r vs -> vals_repr r' vs).
Proof.
  intros [Ht Hl Hn Hs Ho Hr]. rewrite !fmap_app, fmap_cons in Hr.
  destruct (region_move _ _ _ _ _ _ _ Hr) as (buf & E & L & Hr' & Hf).
  rewrite !zlen_fmap in E. unfold move_bytes in E. unfold move_slot.
  bind_inv E as o Eo. rewrite Eo. cbn [rbind]. bind_inv E as sl Es. rewrite Es. cbn [rbind].
  bind_inv E as b1 E1. rewrite E1. cbn [rbind]. rewrite E. cbn [rbind].
  eexists. split; [done|].
  assert (HP : Permutation (l1 ++ l2 ++ x :: l3) (l1 ++ x :: l2 ++ l3)).
  { apply Permutation_app_head. symmetry. apply Permutation_middle. }
  split; [|split; [done|]].
  - constructor; cbn [set_buf b_type b_buf b_nbuf b_bufsz]; [done|lia| | | |].
    + rewrite Hn. unfold zlen. by rewrite (Permutation_length HP).
    + rewrite Hs. apply total_perm. by apply fmap_Permutation.
    + by rewrite <- HP.
    + by rewrite fmap_app, fmap_cons, fmap_app.
  - intros vs [Vt Vl Vn Vs Vr]. constructor; cbn [set_buf b_type b_buf b_nval b_valsz]; try done; [lia|].
    apply (region_frame _ _ _ _ _ Vr); [done|]. intros p bs Hp1 Hp2 Ha. apply Hf; [|done].
    left. unfold data_off, val_spc in *. rewrite Ht in *. cbn -[Pivspc] in *. lia.
Qed.

(** ** The position after the last equal key *)

(** [n] keys are at most [k], and the others are above it. *)
Definition is_upper (ks : list (list Z)) (k : list Z) (n : nat) : Prop :=
  (n <= length ks)%nat /\
  (forall i x, ks !! i = Some x -> (i < n)%nat -> kle x k) /\
  (forall i x, ks !! i = Some x -> (n <= i)%nat -> klt k x).

Record uinv (ks : list (list Z)) (k : list Z) (lo hi ri : Z) : Prop := {
  ui_bounds : 0 <= lo <= hi + 1 /\ hi < zlen ks;
  ui_low : forall i x, ks !! i = Some x -> Z.of_nat i < lo -> kle x k;
  ui_high : forall i x, ks !! i = Some x -> hi < Z.of_nat i -> klt k x;
  ui_ri : ri = -1 \/ ri = lo }.

Lemma upper_loop_spec r ms k (n : nat) fuel lo hi ri :
  msgs_repr r ms -> (n <= length ms)%nat -> ksorted (take n (mkeys ms)) ->
  uinv (take n (mkeys ms)) k lo hi ri -> hi - lo + 1 <= Z.of_nat fuel ->
  (0 <= ri -> exists i, Z.of_nat i = ri - 1 /\ take n (mkeys ms) !! i = Some k) ->
  exists lo' ri', upper_loop fuel r k lo hi ri = Ok (ri', lo' - 1) /\
    uinv (take n (mkeys ms)) k lo' (lo' - 1) ri'.
Proof.
  intros Hr Hn Hs. revert lo hi ri. set (ks := take n (mkeys ms)) in *.
  induction fuel as [|fuel IH]; intros lo hi ri Hi Hf Hk;
    pose proof (ui_bounds _ _ _ _ _ Hi) as [Hb1 Hb2]; cbn [upper_loop].
  { rewrite (proj2 (Z.leb_gt _ _)) by lia. exists lo, ri.
    replace (lo - 1) with hi by lia. done. }
  destruct (Z.leb_spec lo hi) as [Hle|Hgt]; cbn [negb].
  2:{ exists lo, ri. replace (lo - 1) with hi by lia. done. }
  set (mid := (hi + lo) / 2).
  assert (Hm : lo <= mid <= hi) by (unfold mid; Z.to_euclidean_division_equations; lia).
  destruct (lookup_lt_is_Some_2 ks (Z.to_nat mid)) as [x Hx]; [unfold zlen in *; lia|].
  assert (Hg : exists m, getmsg r mid = Ok m /\ m_k m = x).
  { unfold ks, mkeys in Hx. apply lookup_take_Some in Hx as [Hx _].
    apply list_lookup_fmap_Some in Hx as (m & -> & Hm').
    exists m. split; [|done]. rewrite <- (Z2Nat.id mid) by lia. by eapply getmsg_repr. }
  destruct Hg as (m & -> & Ek). cbn [rbind]. rewrite Ek.
  destruct Hi as [_ Hl Hh Hri].
  destruct (keycmpP k x) as [Hc|Hc|Hc]; cbn [Z.eqb Pos.eqb].
  - apply IH; [|lia|done]. constructor; [lia|done| |done].
    intros i y Hy Hi. eapply klt_kle_trans; [exact Hc|]. eapply ksorted_lookup; [done| |done|done]. lia.
  - subst x. rewrite <- Hc in Hx. apply IH; [|lia|].
    + constructor; [lia| |done|by right].
      intros i y Hy Hi. eapply ksorted_lookup; [done| |exact Hy|exact Hx]. lia.
    + intros _. exists (Z.to_nat mid). split; [lia|done].
  - destruct (Z.lt_ge_cases ri 0) as [Hneg|Hpos].
    + apply IH; [|lia|lia]. constructor; [lia| |done|left; lia].
      intros i y Hy Hi. apply klt_kle. eapply kle_klt_trans; [|exact Hc].
      eapply ksorted_lookup; [done| |exact Hy|exact Hx]. lia.
    + exfalso. destruct (Hk Hpos) as (i & Hi1 & Hi2).
      eapply klt_irrefl, klt_kle_trans; [exact Hc|].
      eapply ksorted_lookup; [done| |exact Hi2|exact Hx]. lia.
Qed.

Lemma upper_pos r ms k n :
  msgs_repr r ms -> (n <= length ms)%nat -> ksorted (take n (mkeys ms)) ->
  exists ri hi, upper_loop n r k 0 (Z.of_nat n - 1) (-1) = Ok (ri, hi) /\
    exists p, (if ri =? -1 then hi + 1 else ri) = Z.of_nat p /\ is_upper (take n (mkeys ms)) k p.
Proof.
  intros Hr Hn Hs.
  assert (Hlen : zlen (take n (mkeys ms)) = Z.of_nat n).
  { unfold zlen, mkeys. rewrite length_take, length_fmap. lia. }
  destruct (upper_loop_spec r ms k n n 0 (Z.of_nat n - 1) (-1) Hr Hn Hs) as (lo & ri & -> & Hi);
    [|lia|lia|].
  { constructor; [lia|lia| |by left]. intros i x Hx Hi. apply lookup_lt_Some in Hx.
    unfold zlen in Hlen. lia. }
  exists ri, (lo - 1). split; [done|]. destruct Hi as [[Hb1 Hb2] Hl Hh Hri].
  exists (Z.to_nat lo). split.
  { destruct (Z.eqb_spec ri (-1)); [lia|]. destruct Hri; lia. }
  split; [unfold zlen in *; lia|]. split.
  - intros i x Hx Hi. eapply Hl; [done|lia].
  - intros i x Hx Hi. eapply Hh; [done|lia].
Qed.

(** ** Appending and sorting *)

Lemma set_all_repr ms : forall r old,
  msgs_repr r old -> Forall msg_ok ms ->
  2 * zlen old + b_bufsz r + msgs_tot ms <= Bufspc ->
  exists r', set_all r ms = Ok r' /\ msgs_repr r' (old ++ ms) /\ blk_same r r' /\
    b_nbuf r' = zlen old + zlen ms /\ (forall vs, vals_repr r vs -> vals_repr r' vs).
Proof.
  induction ms as [|m ms IH]; intros r old Hr Ho Hs; cbn [set_all].
  { exists r. rewrite app_nil_r. split; [done|]. split; [done|]. split; [done|].
    rewrite (mr_nbuf _ _ Hr). split; [unfold zlen; simpl; lia|done]. }
  apply Forall_cons in Ho as [Hm Ho]. change (msgs_tot (m :: ms)) with (msgsz m + msgs_tot ms) in Hs.
  pose proof (msgs_tot_nonneg ms).
  destruct (setmsg_repr r old m Hr Hm) as (r1 & -> & Hr1 & Hb1 & Hsz & Hv1); [lia|]. cbn [rbind].
  destruct (IH r1 (old ++ [m]) Hr1 Ho) as (r2 & E & Hr2 & Hb2 & Hn & Hv2).
  { rewrite zlen_app. change (zlen [m]) with 1. lia. }
  exists r2. rewrite <- app_assoc in Hr2. split; [done|]. split; [done|]. split; [by etrans|].
  rewrite zlen_app in Hn. change (zlen [m]) with 1 in Hn. rewrite zlen_cons. split; [lia|]. auto.
Qed.

(** The new list with [x] behind its equals. *)
Lemma insert_sorted l1 l2 x :
  StronglySorted mkle (l1 ++ l2) ->
  Forall (fun y => kle (m_k y) (m_k x)) l1 -> Forall (fun y => klt (m_k x) (m_k y)) l2 ->
  StronglySorted mkle (l1 ++ x :: l2) /\
  (forall k, with_key k (l1 ++ x :: l2) = with_key k ((l1 ++ l2) ++ [x])).
Proof.
  intros Hs H1 H2. apply StronglySorted_app in Hs as (Hc & Hs1 & Hs2).
  rewrite Forall_forall in H1. rewrite Forall_forall in H2. split.
  - apply StronglySorted_app. split; [|split; [done|]].
    + intros y z Hy [->|Hz]%elem_of_cons; [by apply H1|by apply Hc].
    + apply StronglySorted_cons. split; [|done]. apply Forall_forall.
      intros y Hy. by apply klt_kle, H2.
  - intros k. change (x :: l2) with ([x] ++ l2). rewrite !with_key_app, <- app_assoc. f_equal.
    destruct (decide (m_k x = k)) as [<-|Hne].
    + rewrite (with_key_nil (m_k x) l2) by (by apply Forall_forall). by rewrite app_nil_r.
    + assert (E : with_key k [x] = []) by (unfold with_key; by rewrite filter_cons, decide_False).
      by rewrite E, app_nil_r.
Qed.

Lemma insert_slots_spec ms : forall r dn,
  msgs_repr r (dn ++ ms) -> StronglySorted mkle dn ->
  exists r' L, insert_slots r (zlen dn) ms = Ok r' /\ msgs_repr r' L /\ blk_same r r' /\
    (forall vs, vals_repr r vs -> vals_repr r' vs) /\
    Permutation L (dn ++ ms) /\ StronglySorted mkle L /\
    (forall k, with_key k L = with_key k (dn ++ ms)).
Proof.
  induction ms as [|x ms IH]; intros r dn Hr Hs; cbn [insert_slots].
  { rewrite app_nil_r in *. exists r, dn. do 3 (split; [done|]). do 2 (split; [done|]). by split. }
  assert (Ht : take (length dn) (mkeys (dn ++ x :: ms)) = mkeys dn).
  { unfold mkeys. by rewrite fmap_app, <- (length_fmap m_k dn), take_app_length. }
  destruct (upper_pos r (dn ++ x :: ms) (m_k x) (length dn) Hr) as (ri & hi & E & p & Ep & Hp).
  { rewrite length_app. lia. }
  { rewrite Ht. by apply ksorted_mkeys. }
  rewrite Ht in Hp. destruct Hp as (Hp1 & Hp2 & Hp3).
  unfold mkeys in Hp1. rewrite length_fmap in Hp1.
  rewrite to_nat_zlen. change (zlen dn - 1) with (Z.of_nat (length dn) - 1). rewrite E. cbn [rbind].
  rewrite Ep.
  set (l1 := take p dn). set (l2 := drop p dn).
  assert (Edn : dn = l1 ++ l2) by (symmetry; apply take_drop).
  assert (Z1 : zlen l1 = Z.of_nat p) by (unfold l1, zlen; rewrite length_take; lia).
  assert (Z2 : zlen dn = zlen l1 + zlen l2) by (rewrite Edn, zlen_app; done).
  destruct (move_slot_repr r l1 l2 x ms) as (r1 & E1 & Hr1 & Hb1 & Hv1).
  { by rewrite app_assoc, <- Edn. }
  rewrite <- Z2, Z1 in E1. rewrite E1. cbn [rbind].
  destruct (insert_sorted l1 l2 x) as [Hs' Hk'].
  { by rewrite <- Edn. }
  { apply Forall_lookup. intros i y Hi. unfold l1 in Hi. apply lookup_take_Some in Hi as [Hi Hip].
    eapply Hp2; [|exact Hip]. unfold mkeys. by rewrite list_lookup_fmap, Hi. }
  { apply Forall_lookup. intros i y Hi. unfold l2 in Hi. rewrite lookup_drop in Hi.
    eapply (Hp3 (p + i)%nat); [|lia]. unfold mkeys. by rewrite list_lookup_fmap, Hi. }
  destruct (IH r1 (l1 ++ x :: l2)) as (r2 & L & E2 & Hr2 & Hb2 & Hv2 & HP & HS & HK).
  { by rewrite <- app_assoc. }
  { done. }
  replace (zlen dn + 1) with (zlen (l1 ++ x :: l2)).
  2:{ rewrite Z2. autorewrite with zlen. lia. }
  exists r2, L. split; [done|]. split; [done|]. split; [by etrans|]. split; [auto|].
  split; [|split; [done|]].
  - rewrite HP, Edn, <- !app_assoc. apply Permutation_app_head. cbn [app].
    by rewrite Permutation_middle.
  - intros k. rewrite HK, with_key_app, Hk', <- Edn, <- with_key_app, <- app_assoc. done.
Qed.

Section Upsert.
Context {S : Type} `{BlkLayerOk S}.

(** The new root and what [fastupsert] does with it. *)
Lemma fastupsert_run t b vs old msg s r0 s0 :
  vals_repr b vs -> msgs_repr b old -> StronglySorted mkle old -> Forall msg_ok msg ->
  filledbuf b (zlen msg) (msgs_tot msg) = Ok false ->
  dupblk t b s = Ok (r0, s0) ->
  exists r L, vals_repr r vs /\ msgs_repr r L /\ blk_same r0 r /\
    Permutation L (old ++ msg) /\ StronglySorted mkle L /\
    (forall k, with_key k L = with_key k old ++ with_key k msg) /\
    fastupsert t b msg s =
      let! (r, s) := enqueue r s0 in
      let! s := freeblk (set_root t (b_bp r) 0) b s in
      let! s := dropblk b s in
      let! s := dropblk r s in
      Ok (set_root t (b_bp r) 0, s).
Proof.
  intros Hv Hm Hs Ho Hfill Hd. destruct (dupblk_ok _ _ _ _ _ Hd) as (Dv & Dm & Dt).
  specialize (Dv _ Hv). specialize (Dm _ Hm).
  unfold filledbuf in Hfill. rewrite (mr_type _ _ Hm) in Hfill. cbn -[Z.mul] in Hfill.
  injection Hfill as Hfill. zb.
  destruct (set_all_repr msg r0 old Dm Ho) as (r1 & E1 & Hr1 & Hb1 & _ & Hv1).
  { rewrite (mr_nbuf _ _ Hm), (mr_bufsz _ _ Hm) in Hfill. rewrite (mr_bufsz _ _ Dm).
    pose proof (zlen_nonneg msg). change (Blksz - Pivhdsz) with 16374 in *. lia. }
  destruct (insert_slots_spec msg r1 old Hr1 Hs) as (r2 & L & E2 & Hr2 & Hb2 & Hv2 & HP & HS & HK).
  exists r2, L. split; [auto|]. split; [done|]. split; [by etrans|].
  split; [done|]. split; [done|]. split.
  { intros k. by rewrite HK, with_key_app. }
  unfold fastupsert. rewrite Hd. cbn [rbind]. rewrite E1. cbn [rbind].
  rewrite (mr_nbuf _ _ Dm), E2. cbn [rbind]. done.
Qed.

(** ** Theorems *)

(** C10: when the batch fits into the buffer of the root, [fastupsert] makes
    a new root with the same children whose buffer is the old one merged with
    the batch: a permutation of both, sorted, and for every key the old
    messages followed by the new ones in the order they were given.  The tree
    points to the new root and the old root is freed. *)
Theorem fastupsert_merges t b vs old msg s r0 s0 :
  vals_repr b vs -> msgs_repr b old -> StronglySorted mkle old -> Forall msg_ok msg ->
  filledbuf b (zlen msg) (msgs_tot msg) = Ok false ->
  dupblk t b s = Ok (r0, s0) ->
  exists r L, vals_repr r vs /\ msgs_repr r L /\
    Permutation L (old ++ msg) /\ StronglySorted mkle L /\
    (forall k, with_key k L = with_key k old ++ with_key k msg) /\
    fastupsert t b msg s =
      let! (r, s) := enqueue r s0 in
      let! s := freeblk (set_root t (b_bp r) 0) b s in
      let! s := dropblk b s in
      let! s := dropblk r s in
      Ok (set_root t (b_bp r) 0, s).
Proof.
  intros. edestruct fastupsert_run as (r & L & ? & ? & _ & ? & ? & ? & ?); eauto.
  exists r, L. auto 10.
Qed.
End Upsert.

(** ** Witnesses *)

Definition old_ex : list Msg := [mkMsg Oinsert [2; 4] [1]; mkMsg Oinsert [2; 6] [2]].
Definition new_ex : list Msg := [mkMsg Oinsert [2; 6] [3]; mkMsg Odelete [2; 4] []].

Lemma fastupsert_merges_witness :
  exists b r L, msgs_repr b old_ex /\ msgs_repr r L /\
    (forall k, with_key k L = with_key k old_ex ++ with_key k new_ex) /\
    exists t' s', fastupsert tree0 b new_ex mem0 = Ok (t', s').
Proof.
  destruct (pivot_exists [kv_ex] old_ex) as (b & Hv & Hm & Ht);
    [vm_compute; discriminate|vm_compute; discriminate|repeat constructor; done|].
  destruct (fastupsert_merges tree0 b [kv_ex] old_ex new_ex mem0
    (mkBlk (b_type b) (b_nval b) (b_valsz b) (b_nbuf b) (b_bufsz b) (b_logsz b) 0 (mkBptr 0 0 0)
          (mkBptr 0 0 (t_memgen tree0)) 0 (b_buf b))
    (mkMemS (0 + Blksz) ∅ [])) as (r & L & Hr1 & Hr2 & HP & HS & HK & E);
    [done|done| |repeat constructor; done| |done|].
  { apply Sorted_StronglySorted; [intros x y z; apply (transitivity (R := kle))|].
    repeat constructor; vm_compute; discriminate. }
  { unfold filledbuf. rewrite Ht, (mr_nbuf _ _ Hm), (mr_bufsz _ _ Hm). reflexivity. }
  exists b, r, L. split; [done|]. split; [done|]. split; [done|]. rewrite E. by eexists _, _.
Defined.
