(* ===== verification/Lookup.v ===== *)
(** * Lookups (src/tree.c: [btlookup])

    The value of a key is the value its leaf has, changed by the messages for
    the key that are buffered on the path, the lowest level first and the
    oldest first within a level.  [kvals] is that reference; [kpath] says
    which path a key has in the stored tree. *)
From S2P Require Import Prelude CInt Mem Data Keys Pack Blk Search Apply Layer Path Leaf Pivot Tree Upsert.

(** ** The value of a key under a list of messages *)

(** A key without a value takes an insertion; clearing it has no effect;
    anything else is an error of the caller. *)
Definition kval_step (vo : option Kvp) (m : Msg) (nbuf : Z) : res (option Kvp) :=
  match vo with
  | Some v => let! (ok, v) := apply v m nbuf in Ok (if (ok : bool) then Some v else None)
  | None =>
      if m_op m =? Oinsert then let! v := cpkvp (kv_of_msg m) nbuf in Ok (Some v)
      else if (m_op m =? Oclearb) || (m_op m =? Oclobber) then Ok None
      else Err Eassert
  end.

Fixpoint kvals (vo : option Kvp) (ms : list Msg) (nbuf : Z) : res (option Kvp) :=
  match ms with
  | [] => Ok vo
  | m :: ms' => let! vo := kval_step vo m nbuf in kvals vo ms' nbuf
  end.

Lemma kvals_app vo ms ms' nbuf :
  kvals vo (ms ++ ms') nbuf = let! vo := kvals vo ms nbuf in kvals vo ms' nbuf.
Proof.
  revert vo. induction ms as [|m ms IH]; intros vo; [done|]. cbn [kvals app].
  destruct (kval_step vo m nbuf); [apply IH|done].
Qed.

(** ** The messages of a key in a sorted buffer are contiguous *)

Lemma sorted_split k ms :
  StronglySorted mkle ms -> exists pre post, ms = pre ++ with_key k ms ++ post /\
    Forall (fun m => klt (m_k m) k) pre /\ Forall (fun m => klt k (m_k m)) post.
Proof.
  induction 1 as [|m ms Hs IH Hm]; [by exists [], []|].
  destruct (keycmpP (m_k m) k) as [Hc|Hc|Hc].
  - destruct IH as (pre & post & E & H1 & H2). exists (m :: pre), post.
    unfold with_key. rewrite filter_cons, decide_False by (intros E0; rewrite E0 in Hc; by eapply klt_irrefl).
    fold (with_key k ms). rewrite E at 1. split; [done|]. split; [by constructor|done].
  - destruct IH as (pre & post & E & H1 & H2). exists [], post.
    unfold with_key. rewrite filter_cons, decide_True by done. fold (with_key k ms).
    assert (Hpre : pre = []).
    { destruct pre as [|p pre]; [done|]. exfalso. apply Forall_cons in H1 as [H1 _].
      rewrite Forall_forall in Hm. eapply klt_irrefl, klt_kle_trans; [exact H1|].
      rewrite <- Hc. apply Hm. rewrite E. by left. }
    subst pre. cbn [app] in *. rewrite E at 1. split; [done|]. split; [constructor|done].
  - exists [], (m :: ms).
    assert (Hall : Forall (fun x => klt k (m_k x)) (m :: ms)).
    { constructor; [done|]. rewrite Forall_forall in Hm |- *. intros x Hx.
      eapply klt_kle_trans; [done|]. by apply Hm. }
    rewrite with_key_nil by done. split; [done|]. split; [constructor|done].
Qed.

Lemma is_rank_unique ks k n n' : is_rank ks k n -> is_rank ks k n' -> n = n'.
Proof.
  assert (Hlt : forall n n', is_rank ks k n -> is_rank ks k n' -> (n < n')%nat -> False).
  { clear. intros n n' (H1 & _ & H3) (H1' & H2' & _) Hlt.
    destruct (lookup_lt_is_Some_2 ks n) as [x Hx]; [lia|].
    eapply klt_irrefl, kle_klt_trans; [eapply H3; [done|lia]|]. by eapply H2'. }
  intros H H'. destruct (Nat.lt_trichotomy n n') as [?|[?|?]]; [|done|]; exfalso; eauto.
Qed.

Lemma found_unique ks k ri same ri' same' :
  found ks k ri same -> found ks k ri' same' -> ri = ri' /\ same = same'.
Proof.
  intros (n & Hn & H) (n' & Hn' & H'). assert (n = n') as <- by by eapply is_rank_unique.
  destruct same, same'.
  - destruct H as [-> _], H' as [-> _]. done.
  - exfalso. destruct H as [_ Hx], H' as [_ Hx']. by apply Hx', list_elem_of_lookup_2 with n.
  - exfalso. destruct H as [_ Hx], H' as [_ Hx']. by apply Hx, list_elem_of_lookup_2 with n.
  - destruct H as [-> _], H' as [-> _]. done.
Qed.

(** The rank of a key in a buffer is where its messages start. *)
Lemma found_split k pre mk post ri same :
  Forall (fun m => klt (m_k m) k) pre -> Forall (fun m => m_k m = k) mk ->
  Forall (fun m => klt k (m_k m)) post ->
  found (mkeys (pre ++ mk ++ post)) k ri same ->
  if same then ri = zlen pre /\ mk <> [] else mk = [].
Proof.
  intros H1 H2 H3 Hf.
  assert (Hr : is_rank (mkeys (pre ++ mk ++ post)) k (length pre)).
  { split; [unfold mkeys; rewrite length_fmap, length_app; lia|].
    split; intros i x Hx Hi; unfold mkeys in Hx; apply list_lookup_fmap_Some in Hx as (m & -> & Hm).
    - rewrite lookup_app_l in Hm by done. rewrite Forall_lookup in H1. eauto.
    - rewrite lookup_app_r in Hm by done. apply lookup_app_Some in Hm as [Hm|[_ Hm]].
      + rewrite Forall_lookup in H2. rewrite (H2 _ _ Hm). reflexivity.
      + rewrite Forall_lookup in H3. apply klt_kle. eauto. }
  destruct Hf as (n & Hn & Hs). rewrite (is_rank_unique _ _ _ _ Hn Hr) in Hs.
  destruct same.
  - destruct Hs as [-> Hk]. split; [done|]. intros ->.
    unfold mkeys in Hk. apply list_lookup_fmap_Some in Hk as (m & -> & Hm).
    rewrite lookup_app_r, Nat.sub_diag in Hm by done. cbn [app] in Hm.
    rewrite Forall_lookup in H3. by eapply klt_irrefl, (H3 0%nat).
  - destruct Hs as [_ Hk]. destruct mk as [|m mk]; [done|]. exfalso. apply Hk.
    apply Forall_cons in H2 as [<- _]. unfold mkeys. apply list_elem_of_fmap_2.
    apply elem_of_app. right. by left.
Qed.

(** ** One level of [btlookup] *)

(** The flag and the working copy stand for a value. *)
Definition agree (vo : option Kvp) (ok : bool) (r : option Kvp) : Prop :=
  match vo with Some v => ok = true /\ r = Some v | None => ok = false end.

Lemma apply_opt_step vo ok r m nbuf vo' :
  agree vo ok r -> kval_step vo m nbuf = Ok vo' ->
  exists ok' r', apply_opt r m nbuf = Ok (ok', r') /\ agree vo' ok' r'.
Proof.
  intros Ha Hs. destruct vo as [v|]; cbn [kval_step] in Hs.
  - destruct Ha as [-> ->]. cbn [apply_opt]. bind_inv Hs as [ok v'] E.
    injection Hs as <-. rewrite E. cbn [rbind]. exists ok, (Some v'). by destruct ok.
  - cbn in Ha. subst ok. destruct (m_op m =? Oinsert) eqn:Ei.
    + bind_inv Hs as v E. injection Hs as <-. exists true, (Some v). split; [|done].
      zb. unfold apply_opt, apply. rewrite Ei. destruct r; cbn [Z.eqb Pos.eqb];
        change (Oinsert =? Odelete) with false; change (Oinsert =? Oclearb) with false;
        change (Oinsert =? Oclobber) with false; change (Oinsert =? Oinsert) with true;
        cbn [orb]; by rewrite E.
    + destruct ((m_op m =? Oclearb) || (m_op m =? Oclobber)) eqn:Ec; [|done].
      injection Hs as <-. exists false, r. split; [|done].
      unfold apply_opt, apply. rewrite Ei, Ec. destruct r; [|done].
      destruct (Z.eqb_spec (m_op m) Odelete) as [E|]; [|done].
      rewrite E in Ec. done.
Qed.

Lemma apply_more_run b ms k nbuf : forall mk fuel pre post vo ok r vo',
  msgs_repr b ms -> ms = pre ++ mk ++ post -> Forall (fun m => m_k m = k) mk ->
  Forall (fun m => klt k (m_k m)) post -> (length mk + 1 <= fuel)%nat ->
  agree vo ok r -> kvals vo mk nbuf = Ok vo' ->
  exists ok' r', apply_more fuel b k (zlen pre) ok r nbuf = Ok (ok', r') /\ agree vo' ok' r'.
Proof.
  induction mk as [|m mk IH]; intros fuel pre post vo ok r vo' Hb E Hk Hp Hf Ha Hv;
    (destruct fuel as [|fuel]; [simpl in Hf; lia|]); cbn [apply_more].
  - injection Hv as <-. rewrite (mr_nbuf _ _ Hb), E. cbn [app].
    destruct post as [|p post].
    + rewrite app_nil_r, Z.ltb_irrefl. by exists ok, r.
    + rewrite zlen_app, zlen_cons. pose proof (zlen_nonneg post).
      rewrite (proj2 (Z.ltb_lt _ _)) by lia. cbn [negb].
      assert (Hg : getmsg b (zlen pre) = Ok p).
      { apply (getmsg_repr b ms (length pre)); [done|]. rewrite E. cbn [app].
        by rewrite lookup_app_r, Nat.sub_diag by lia. }
      rewrite Hg. cbn [rbind]. apply Forall_cons in Hp as [Hp _].
      destruct (Z.eqb_spec (keycmp k (m_k p)) 0) as [Hc|]; [|by exists ok, r].
      apply keycmp_eq in Hc. rewrite <- Hc in Hp. exfalso. by eapply klt_irrefl.
  - bind_inv Hv as vo1 Es. apply Forall_cons in Hk as [Hk Hks].
    rewrite (mr_nbuf _ _ Hb), E, zlen_app. cbn [app]. rewrite zlen_cons.
    pose proof (zlen_nonneg (mk ++ post)). rewrite (proj2 (Z.ltb_lt _ _)) by lia. cbn [negb].
    assert (Hg : getmsg b (zlen pre) = Ok m).
      { apply (getmsg_repr b ms (length pre)); [done|]. rewrite E. cbn [app].
        by rewrite lookup_app_r, Nat.sub_diag by lia. }
      rewrite Hg. cbn [rbind]. rewrite Hk, keycmp_refl. cbn [Z.eqb negb].
    destruct (apply_opt_step _ _ _ _ _ _ Ha Es) as (ok1 & r1 & -> & Ha1). cbn [rbind].
    replace (zlen pre + 1) with (zlen (pre ++ [m])) by (rewrite zlen_app; done).
    eapply (IH fuel (pre ++ [m]) post); try done.
    + rewrite <- app_assoc. by rewrite E.
    + simpl in Hf. lia.
Qed.

Lemma apply_level_ok b ms k vo ok r nbuf vo' :
  msgs_repr b ms -> StronglySorted mkle ms -> agree vo ok r ->
  kvals vo (with_key k ms) nbuf = Ok vo' ->
  exists ok' r', apply_level b k ok r nbuf = Ok (ok', r') /\ agree vo' ok' r'.
Proof.
  intros Hb Hs Ha Hv. unfold apply_level.
  destruct (bufsearch_repr b ms k Hb (ksorted_mkeys _ Hs)) as (j & same & Hf & E & Hj).
  rewrite E. cbn [rbind]. destruct (sorted_split k ms Hs) as (pre & post & Em & H1 & H2).
  rewrite Em in Hf. apply found_split in Hf; [|done|apply with_key_all|done].
  destruct same.
  2:{ rewrite orb_true_r. rewrite Hf in Hv. injection Hv as <-. by exists ok, r. }
  destruct Hf as [-> Hne]. rewrite orb_false_r.
  pose proof (zlen_nonneg pre). rewrite (proj2 (Z.ltb_ge _ _)), (proj2 (Z.leb_le _ _)) by lia.
  pose proof (with_key_all k ms) as Hall.
  destruct (with_key k ms) as [|m mk] eqn:Ew; [done|]. clear Hne.
  rewrite to_nat_zlen.
  assert (Hm : ms !! length pre = Some m) by (rewrite Em; by rewrite lookup_app_r, Nat.sub_diag by lia).
  rewrite Hm. cbn [kvals] in Hv. bind_inv Hv as vo1 Es.
  destruct (apply_opt_step _ _ _ _ _ _ Ha Es) as (ok1 & r1 & Eo & Ha1).
  assert (Hfirst : exists ok1 r1,
    (if ok || (m_op m =? Oinsert) then apply_opt r m nbuf
     else if negb (m_op m =? Oclearb) && negb (m_op m =? Oclobber) then Err Eassert
     else Ok (ok, r)) = Ok (ok1, r1) /\ agree vo1 ok1 r1).
  { destruct (ok || (m_op m =? Oinsert)) eqn:Eok; [by exists ok1, r1|].
    apply orb_false_iff in Eok as [-> Ei]. destruct vo as [v|]; [by destruct Ha|].
    cbn [kval_step] in Es. rewrite Ei in Es.
    destruct ((m_op m =? Oclearb) || (m_op m =? Oclobber)) eqn:Ec; [|done].
    injection Es as <-. exists false, r. split; [|done].
    rewrite <- negb_orb, Ec. done. }
  destruct Hfirst as (ok2 & r2 & -> & Ha2). cbn [rbind].
  apply Forall_cons in Hall as [Hk Hall].
  replace (zlen pre + 1) with (zlen (pre ++ [m])) by (rewrite zlen_app; done).
  eapply (apply_more_run b ms k nbuf mk _ (pre ++ [m]) post vo1 ok2 r2 vo'); try done.
  - rewrite <- app_assoc. by rewrite Em.
  - rewrite (mr_nbuf _ _ Hb), to_nat_zlen, Em, !length_app. simpl. lia.
Qed.

(** ** Paths *)

Record pivot_ok (b : Blk) (vs : list Kvp) (ms : list Msg) : Prop := {
  po_vals : vals_repr b vs;
  po_msgs : msgs_repr b ms;
  po_vsorted : ksorted (vkeys vs);
  po_msorted : StronglySorted mkle ms }.

Section Lookup.
Context {S : Type} {L : BlkLayer S} `{!BlkStore S}.

(** [kpath s k n b mss vo addrs]: below the block [b] of height [n] the key
    [k] meets the buffers [mss], from the root, and has the value [vo] in its
    leaf; [addrs] are the blocks that are read. *)
Inductive kpath (s : S) (k : list Z)
  : nat -> Blk -> list (list Msg) -> option Kvp -> list Z -> Prop :=
  | kp_leaf b vs ri same :
      vals_repr b vs -> ksorted (vkeys vs) -> found (vkeys vs) k ri same ->
      kpath s k 1 b [] (if same then vs !! Z.to_nat ri else None) []
  | kp_down n b vs ms ri same e bp c mss vo addrs :
      pivot_ok b vs ms -> found (vkeys vs) k ri same -> 0 <= ri ->
      vs !! Z.to_nat ri = Some e -> unpackbp (kv_v e) (zlen (kv_v e)) = Ok bp ->
      stored s bp c -> kpath s k (Datatypes.S n) c mss vo addrs ->
      kpath s k (Datatypes.S (Datatypes.S n)) b (ms :: mss) vo (bp_addr bp :: addrs)
  | kp_off n b vs ms same :
      pivot_ok b vs ms -> found (vkeys vs) k (-1) same ->
      kpath s k (Datatypes.S (Datatypes.S n)) b [ms] None [].

(** All the messages of the key on the path, the lowest buffer first. *)
Definition path_msgs (k : list Z) (mss : list (list Msg)) : list Msg :=
  concat (reverse (with_key k <$> mss)).

Lemma path_msgs_cons k ms mss : path_msgs k (ms :: mss) = path_msgs k mss ++ with_key k ms.
Proof.
  unfold path_msgs. cbn [fmap list_fmap]. rewrite reverse_cons, concat_app. simpl.
  by rewrite app_nil_r.
Qed.

(** The blocks [load_path] collects. *)
Inductive loads (k : list Z) : list (option Blk) -> list (list Msg) -> option Kvp -> Prop :=
  | ld_leaf b vs ri same :
      vals_repr b vs -> ksorted (vkeys vs) -> found (vkeys vs) k ri same ->
      loads k [Some b] [] (if same then vs !! Z.to_nat ri else None)
  | ld_down b vs ms p ps mss vo :
      pivot_ok b vs ms -> loads k (p :: ps) mss vo ->
      loads k (Some b :: p :: ps) (ms :: mss) vo
  | ld_off b vs ms n :
      pivot_ok b vs ms -> loads k (Some b :: replicate (Datatypes.S n) None) [ms] None.

Lemma load_none n k r s :
  load_path n None k r s = Ok (replicate n None, r, s).
Proof. induction n as [|n IH]; [done|]. cbn [load_path]. by rewrite IH. Qed.

Lemma load_path_ok s0 k n b mss vo addrs :
  kpath s0 k n b mss vo addrs -> forall s r,
  (forall bp c, stored s0 bp c -> stored s bp c) ->
  exists p r' s', load_path (n - 1) (Some b) k r s = Ok (p, r', s') /\
    loads k (Some b :: p) mss vo /\ (forall bp c, stored s bp c -> stored s' bp c).
Proof.
  induction 1 as [b vs ri same Hb Hs Hf
    | n b vs ms ri same e bp c mss vo addrs Hp Hf Hri He Hbp Hst _ IH
    | n b vs ms same Hp Hf]; intros s r Hsame.
  - exists [], r, s. cbn [Nat.sub load_path]. split; [done|]. split; [|done]. by eapply ld_leaf.
  - replace (Datatypes.S (Datatypes.S n) - 1)%nat with (Datatypes.S n) by lia. cbn [load_path].
    destruct (blksearch_repr b vs k (po_vals _ _ _ Hp) (po_vsorted _ _ _ Hp)) as (ri' & same' & Hf' & E & _).
    destruct (found_unique _ _ _ _ _ _ Hf Hf') as [<- <-]. rewrite E. cbn [rbind].
    rewrite (proj2 (Z.eqb_neq _ _)) by lia. rewrite (proj2 (Z.leb_le _ _) Hri), He, Hbp. cbn [rbind].
    destruct (getblk_stored s bp c (Hsame _ _ Hst)) as (s1 & -> & H1). cbn [rbind].
    destruct (IH s1 (Some e)) as (p & r' & s' & E' & Hl & H2); [auto|].
    replace (Datatypes.S n - 1)%nat with n in E' by lia. rewrite E'. cbn [rbind].
    exists (Some c :: p), r', s'. split; [done|]. split; [by eapply ld_down|auto].
  - replace (Datatypes.S (Datatypes.S n) - 1)%nat with (Datatypes.S n) by lia. cbn [load_path].
    destruct (blksearch_repr b vs k (po_vals _ _ _ Hp) (po_vsorted _ _ _ Hp)) as (ri' & same' & Hf' & E & _).
    destruct (found_unique _ _ _ _ _ _ Hf Hf') as [<- <-]. rewrite E. cbn [rbind].
    change (-1 =? -1) with true. cbv iota. rewrite load_none. cbn [rbind].
    exists (None :: replicate n None), r, s. split; [done|]. split; [|done]. by eapply (ld_off k b vs ms n).
Qed.

Lemma apply_levels_app ps ps' k ok r nbuf :
  apply_levels (ps ++ ps') k ok r nbuf =
  let! (ok, r) := apply_levels ps k ok r nbuf in apply_levels ps' k ok r nbuf.
Proof.
  revert ok r. induction ps as [|[b|] ps IH]; intros ok r; [done| |apply IH].
  cbn [app apply_levels]. destruct (apply_level b k ok r nbuf) as [[ok1 r1]|]; [apply IH|done].
Qed.

Lemma apply_levels_none n k ok r nbuf : apply_levels (replicate n None) k ok r nbuf = Ok (ok, r).
Proof. induction n; done. Qed.

Lemma tail_reverse_cons {A} (b p : A) ps :
  tail (reverse (b :: p :: ps)) = tail (reverse (p :: ps)) ++ [b].
Proof.
  rewrite (reverse_cons (p :: ps)). destruct (reverse (p :: ps)) as [|q qs] eqn:E; [|done].
  apply (f_equal length) in E. rewrite length_reverse in E. done.
Qed.

Lemma reverse_replicate_none n : reverse (replicate n (@None Blk)) = replicate n None.
Proof. apply reverse_replicate. Qed.

(** The leaf and the levels above it. *)
Lemma loads_apply k p mss vo nbuf vo' r :
  loads k p mss vo -> kvals vo (path_msgs k mss) nbuf = Ok vo' ->
  (forall v, vo = Some v -> kvlen v <= nbuf) ->
  exists ok0 r0 ok r',
    (let! (ok, r) :=
       match last p with
       | Some (Some leaf) =>
           let! (ri, same, e) := blksearch leaf k in
           Ok (same, match e with Some e => Some e | None => r end)
       | _ => Ok (false, r)
       end in
     let! r :=
       match ok, r with
       | true, Some e => let! e := cpkvp e nbuf in Ok (Some e)
       | true, None => Err Euninit
       | false, _ => Ok r
       end in Ok (ok, r)) = Ok (ok0, r0) /\
    apply_levels (tail (reverse p)) k ok0 r0 nbuf = Ok (ok, r') /\ agree vo' ok r'.
Proof.
  intros Hl. revert vo'. induction Hl as [b vs ri same Hb Hs Hf
    | b vs ms p ps mss vo Hp _ IH | b vs ms n Hp]; intros vo' Hv Hsz.
  - cbn [last]. destruct (blksearch_repr b vs k Hb Hs) as (ri' & same' & Hf' & E & Hri).
    destruct (found_unique _ _ _ _ _ _ Hf Hf') as [<- <-]. rewrite E. cbn [rbind].
    injection Hv as <-. destruct same.
    + destruct Hf as (n & _ & -> & Hk). rewrite Nat2Z.id in *.
      rewrite (proj2 (Z.leb_le _ _)) by lia.
      unfold vkeys in Hk. apply list_lookup_fmap_Some in Hk as (v & Ek & Hv). rewrite Hv.
      rewrite cpkvp_ok by (by apply Hsz). cbn [rbind].
      exists true, (Some v), true, (Some v). split; [done|]. split; [done|]. by split.
    + cbn [rbind]. eexists false, _, false, _. split; [done|]. split; [done|]. done.
  - rewrite path_msgs_cons, kvals_app in Hv. bind_inv Hv as vo1 E1.
    destruct (IH vo1 E1 Hsz) as (ok0 & r0 & ok1 & r1 & E0 & Ea & Hag).
    change (last (Some b :: p :: ps)) with (last (p :: ps)).
    destruct (apply_level_ok b ms k vo1 ok1 r1 nbuf vo' (po_msgs _ _ _ Hp) (po_msorted _ _ _ Hp) Hag Hv)
      as (ok2 & r2 & E2 & Hag2).
    exists ok0, r0, ok2, r2. split; [done|]. split; [|done].
    rewrite tail_reverse_cons, apply_levels_app, Ea. cbn [rbind apply_levels].
    by rewrite E2.
  - rewrite path_msgs_cons, kvals_app in Hv. cbn [path_msgs fmap list_fmap reverse rev_append concat kvals rbind] in Hv.
    assert (El : last (Some b :: replicate (Datatypes.S n) None) = Some None).
    { cbn [replicate]. clear. induction n as [|n IH]; [done|]. cbn [replicate].
      by change (last (Some b :: None :: None :: replicate n None)) with
        (last (Some b :: None :: replicate n None)). }
    rewrite El. cbn [rbind].
    destruct (apply_level_ok b ms k None false r nbuf vo' (po_msgs _ _ _ Hp) (po_msorted _ _ _ Hp) eq_refl Hv)
      as (ok2 & r2 & E2 & Hag2).
    exists false, r, ok2, r2. split; [done|]. split; [|done].
    rewrite reverse_cons, reverse_replicate_none. cbn [replicate app tail].
    rewrite apply_levels_app, apply_levels_none. cbn [rbind apply_levels]. by rewrite E2.
Qed.

Lemma dropblks_ok p s :
  exists s', dropblks p s = Ok s' /\ forall bp c, stored s bp c -> stored s' bp c.
Proof.
  revert s. induction p as [|[b|] p IH]; intros s; cbn [dropblks dropopt].
  - by exists s.
  - destruct (dropblk_stored s b) as (s1 & -> & H1). cbn [rbind].
    destruct (IH s1) as (s2 & E & H2). exists s2. auto.
  - apply IH.
Qed.

Lemma btlookup_spec t k nbuf s b mss vo addrs vo' :
  stored s (t_bp t) b -> 1 <= t_ht t -> kpath s k (Z.to_nat (t_ht t)) b mss vo addrs ->
  (forall v, vo = Some v -> kvlen v <= nbuf) ->
  kvals vo (path_msgs k mss) nbuf = Ok vo' ->
  exists ok r s', btlookup t k nbuf s = Ok (ok, r, s') /\ agree vo' ok r /\
    forall bp c, stored s bp c -> stored s' bp c.
Proof.
  intros Hroot Hh Hp Hsz Hv. unfold btlookup, getroot.
  destruct (getblk_stored s _ b Hroot) as (s1 & -> & H1). cbn [rbind].
  rewrite (proj2 (Z.ltb_ge _ _)) by lia.
  destruct (holdblk_stored s1 b) as (s2 & -> & H2). cbn [rbind].
  destruct (load_path_ok _ _ _ _ _ _ _ Hp s2 None) as (p & r & s3 & E & Hl & H3); [auto|].
  replace (Z.to_nat (t_ht t - 1)) with (Z.to_nat (t_ht t) - 1)%nat by lia. rewrite E. cbn [rbind].
  destruct (loads_apply _ _ _ _ nbuf vo' r Hl Hv Hsz) as (ok0 & r0 & ok & r' & E0 & Ea & Hag).
  bind_inv E0 as [ok1 r1] E1. bind_inv E0 as r2 E2. injection E0 as -> ->.
  rewrite E1. cbn [rbind]. rewrite E2. cbn [rbind]. rewrite Ea. cbn [rbind].
  destruct (dropblks_ok (Some b :: p) s3) as (s4 & -> & H4). cbn [rbind].
  destruct (dropblk_stored s4 b) as (s5 & -> & H5). cbn [rbind].
  exists ok, r', s5. split; [done|]. split; [done|]. auto 10.
Qed.

(** A path depends only on the blocks it reads. *)
Lemma kpath_frame s s' k n b mss vo addrs :
  kpath s k n b mss vo addrs ->
  (forall bp c, stored s bp c -> In (bp_addr bp) addrs -> stored s' bp c) ->
  kpath s' k n b mss vo addrs.
Proof.
  induction 1 as [b vs ri same Hb Hs Hf
    | n b vs ms ri same e bp c mss vo addrs Hp Hf Hri He Hbp Hst _ IH
    | n b vs ms same Hp Hf]; intros Hk.
  - by apply kp_leaf.
  - eapply kp_down; try done.
    + apply Hk; [done|by left].
    + apply IH. intros bp' c' Hc Hin. apply Hk; [done|by right].
  - by eapply kp_off.
Qed.

(** The path of a key after its root buffer has changed. *)
Lemma kpath_root s k n b r old new vs mss vo addrs :
  kpath s k n b (old :: mss) vo addrs -> msgs_repr b old ->
  (forall vs, vals_repr b vs -> vals_repr r vs) ->
  vals_repr b vs -> msgs_repr r new -> StronglySorted mkle new ->
  kpath s k n r (new :: mss) vo addrs.
Proof.
  intros Hp Hm Hv Hb Hr HL. inversion Hp; subst.
  - match goal with H : pivot_ok b _ _ |- _ => destruct H end.
    eapply kp_down; try done. constructor; auto.
  - match goal with H : pivot_ok b _ _ |- _ => destruct H end.
    eapply kp_off; try done. constructor; auto.
Qed.

(** ** Theorems *)

(** C2: [btlookup] returns the value the leaf has for the key, changed by the
    messages for the key that are buffered on the path: those of the lowest
    pivot first, and in one pivot in the order they were added.  It reports
    "not found" exactly when the last of them leaves no value. *)
Theorem btlookup_correct t k nbuf s b mss vo addrs vo' :
  stored s (t_bp t) b -> 1 <= t_ht t -> kpath s k (Z.to_nat (t_ht t)) b mss vo addrs ->
  (forall v, vo = Some v -> kvlen v <= nbuf) ->
  kvals vo (path_msgs k mss) nbuf = Ok vo' ->
  exists ok r s', btlookup t k nbuf s = Ok (ok, r, s') /\
    match vo' with Some v => ok = true /\ r = Some v | None => ok = false end.
Proof.
  intros. edestruct btlookup_spec as (ok & r & s' & E & Ha & _); eauto.
Qed.

(** C3: a lookup after [fastupsert] sees the batch: the value of a key is the
    one it had before, changed by the messages of the batch for this key in
    the order they were given. *)
Theorem fastupsert_lookup `{!BlkLayerOk S} t b vs old msg k nbuf s r0 s0 t' s' mss vo addrs v1 v2 :
  vals_repr b vs -> msgs_repr b old -> StronglySorted mkle old -> Forall msg_ok msg ->
  filledbuf b (zlen msg) (msgs_tot msg) = Ok false ->
  dupblk t b s = Ok (r0, s0) ->
  kpath s k (Z.to_nat (t_ht t)) b (old :: mss) vo addrs ->
  ~ In (bp_addr (b_bp b)) addrs -> ~ In (bp_addr (b_bp r0)) addrs ->
  bp_addr (b_bp r0) <> bp_addr (b_bp b) ->
  (forall v, vo = Some v -> kvlen v <= nbuf) ->
  kvals vo (path_msgs k (old :: mss)) nbuf = Ok v1 ->
  kvals v1 (with_key k msg) nbuf = Ok v2 ->
  fastupsert t b msg s = Ok (t', s') ->
  exists ok r s2, btlookup t' k nbuf s' = Ok (ok, r, s2) /\ agree v2 ok r.
Proof.
  intros Hv Hm Hs Ho Hfill Hd Hp Hnb Hnr Hne Hsz Hk1 Hk2 Hup.
  destruct (fastupsert_run t b vs old msg s r0 s0 Hv Hm Hs Ho Hfill Hd)
    as (r & new & Rv & Rm & (_ & Rbp & _) & _ & RS & RK & E). rewrite E in Hup.
  bind_inv Hup as [r' s1] E1. bind_inv Hup as s3 E3. bind_inv Hup as s4 E4. bind_inv Hup as s5 E5.
  injection Hup as <- <-.
  destruct (enqueue_vals _ _ _ _ _ E1 Rv) as [Rv' _]. pose proof (enqueue_msgs _ _ _ _ _ E1 Rm) as Rm'.
  destruct (enqueue_stored _ _ _ _ E1) as (St & Sa & Sk).
  pose proof (freeblk_stored _ _ _ _ E3) as Fk.
  destruct (dropblk_stored s3 b) as (x & Ex & Dk). rewrite E4 in Ex. injection Ex as <-.
  destruct (dropblk_stored s4 r') as (x & Ex & Dk'). rewrite E5 in Ex. injection Ex as <-.
  assert (Hp' : kpath s5 k (Z.to_nat (t_ht (set_root t (b_bp r') 0))) r' (new :: mss) vo addrs).
  { cbn [set_root t_ht]. rewrite Z.add_0_r.
    eapply (kpath_root _ _ _ b r' old new vs); try done.
    - eapply kpath_frame; [exact Hp|]. intros bp c Hst Hin.
      apply Dk', Dk, Fk; [|congruence]. apply Sk; [|congruence].
      eapply dupblk_stored; [exact Hd|done].
    - intros ws Hws. by rewrite (vals_repr_fun _ _ _ Hws Hv). }
  assert (Hh : 1 <= t_ht (set_root t (b_bp r') 0)).
  { cbn [set_root t_ht]. inversion Hp; lia. }
  destruct (btlookup_spec (set_root t (b_bp r') 0) k nbuf s5 r' (new :: mss) vo addrs v2)
    as (ok & rr & s6 & El & Ha & _); try done.
  - cbn [set_root t_bp]. apply Dk', Dk, Fk; [done|congruence].
  - rewrite path_msgs_cons, RK, app_assoc, kvals_app, <- path_msgs_cons, Hk1. done.
  - by exists ok, rr, s6.
Qed.
End Lookup.

(** ** Witnesses

    A tree of height two: a leaf with one value below a root that buffers
    two messages. *)

Definition leaf_bp : Bptr := mkBptr 65536 0 0.
Definition root_bp : Bptr := mkBptr 81920 0 0.
Definition tree2 : Tree := mkTree false 0 0 0 1 1 2 0 root_bp 0 0 0 0.
Definition leaf_vs : list Kvp := [mkKvp [2; 4] [7]].
Definition root_vs : list Kvp := [mkKvp [2; 4] (bp_bytes leaf_bp)].
Definition set_bp (b : Blk) (bp : Bptr) : Blk :=
  mkBlk (b_type b) (b_nval b) (b_valsz b) (b_nbuf b) (b_bufsz b) (b_logsz b)
    (b_logh b) (b_logp b) bp (b_flag b) (b_buf b).
Definition store2 (leaf root : Blk) : MemS :=
  mkMemS 98304 {[65536 := leaf; 81920 := root]} [].

Lemma found_above : found [[2; 4]] [2; 6] 0 false.
Proof.
  exists 1%nat. split; [|split; [done|]].
  - split; [done|]. split; intros [|i] x Hx Hi; [|done|lia|done].
    injection Hx as <-. by vm_compute.
  - intros [E|E]%elem_of_cons; [done|by apply elem_of_nil in E].
Qed.

Lemma old_sorted : StronglySorted mkle old_ex.
Proof.
  apply Sorted_StronglySorted; [intros x y z; apply (transitivity (R := kle))|].
  repeat constructor; vm_compute; discriminate.
Qed.

Lemma store2_path :
  exists leaf root, vals_repr root root_vs /\ msgs_repr root old_ex /\ b_type root = Tpivot /\
    b_bp root = root_bp /\ stored (store2 leaf root) root_bp root /\
    kpath (store2 leaf root) [2; 6] 2 root [old_ex] None [65536].
Proof.
  destruct (leaf_exists leaf_vs) as (leaf & Hl & _); [vm_compute; discriminate|].
  destruct (pivot_exists root_vs old_ex) as (b & Hv & Hm & Ht);
    [vm_compute; discriminate|vm_compute; discriminate|repeat constructor; done|].
  assert (Hv' : vals_repr (set_bp b root_bp) root_vs) by by destruct Hv.
  assert (Hm' : msgs_repr (set_bp b root_bp) old_ex) by by destruct Hm.
  exists leaf, (set_bp b root_bp). split; [done|]. split; [done|]. split; [done|]. split; [done|].
  split; [done|].
  eapply (kp_down _ _ _ _ root_vs old_ex 0 false _ leaf_bp leaf); try done.
  - constructor; [done|done| |apply old_sorted]. repeat constructor.
  - apply found_above.
  - apply (kp_leaf _ _ leaf leaf_vs 0 false); [done|repeat constructor|apply found_above].
Qed.

Lemma btlookup_correct_witness :
  exists s ok s', btlookup tree2 [2; 6] 100 s = Ok (ok, Some (mkKvp [2; 6] [2]), s') /\ ok = true.
Proof.
  destruct store2_path as (leaf & root & Hv & Hm & Ht & Hb & Hs & Hp).
  destruct (btlookup_correct tree2 [2; 6] 100 (store2 leaf root) root [old_ex] None [65536]
    (Some (mkKvp [2; 6] [2])) Hs ltac:(vm_compute; discriminate) Hp ltac:(done) eq_refl)
    as (ok & r & s' & E & -> & ->).
  by exists (store2 leaf root), true, s'.
Defined.

Lemma fastupsert_lookup_witness :
  exists root s t' s' ok s2, fastupsert tree2 root new_ex s = Ok (t', s') /\
    btlookup t' [2; 6] 100 s' = Ok (ok, Some (mkKvp [2; 6] [3]), s2) /\ ok = true.
Proof.
  destruct store2_path as (leaf & root & Hv & Hm & Ht & Hb & Hs & Hp).
  set (s := store2 leaf root) in *.
  assert (Hf : filledbuf root (zlen new_ex) (msgs_tot new_ex) = Ok false).
  { unfold filledbuf. rewrite Ht, (mr_nbuf _ _ Hm), (mr_bufsz _ _ Hm). reflexivity. }
  destruct (dupblk tree2 root s) as [[r0 s0]|] eqn:Ed; [|done].
  pose proof Ed as Ed'. injection Ed' as Er Es.
  assert (Ho : Forall msg_ok new_ex) by (repeat constructor; done).
  destruct (fastupsert tree2 root new_ex s) as [[t' s']|] eqn:Eu.
  2:{ exfalso. destruct (fastupsert_run tree2 root root_vs old_ex new_ex s r0 s0 Hv Hm old_sorted Ho Hf Ed)
        as (? & ? & _ & _ & _ & _ & _ & _ & E). by rewrite E in Eu. }
  destruct (fastupsert_lookup tree2 root root_vs old_ex new_ex [2; 6] 100 s r0 s0 t' s' [] None [65536]
    (Some (mkKvp [2; 6] [2])) (Some (mkKvp [2; 6] [3])))
    as (ok & r & s2 & E & -> & ->); try done.
  - apply old_sorted.
  - rewrite Hb. cbn. lia.
  - rewrite <- Er. cbn. lia.
  - rewrite <- Er, Hb. cbn. lia.
  - exists root, s, t', s', true, s2. by split.
Defined.
