(* ===== verification/Alloc.v ===== *)
(** * The free ranges of an arena (src/blk.c: [freerange], [grabrange],
    [blkalloc_lk]; src/load.c: [rangecmp])

    An arena keeps its free space in an ordered tree of ranges, keyed by
    offset with [rangecmp].  The tree is the C library's; here it is the list
    of its nodes in order: [avlmin] is the head, [avlmax] the last element,
    [avlprev] and [avlnext] the neighbours, [avllookup(t, k, -1)] the last
    node that is not above [k]. *)
From S2P Require Import Prelude CInt Mem Data.

Record Arange := mkRange { ar_off : Z; ar_len : Z }.

#[export] Instance Arange_eq_dec : EqDecision Arange.
Proof. solve_decision. Defined.

Definition rangecmp (a b : Arange) : Z :=
  if ar_off a <? ar_off b then -1 else if ar_off b <? ar_off a then 1 else 0.

(** ** The code *)

(** Insert in order; the result is the nodes before, nearest first, and the
    nodes after.  An equal key fails the assertion of [freerange]. *)
Fixpoint place (pre : list Arange) (r : Arange) (t : list Arange) : res (list Arange * list Arange) :=
  match t with
  | [] => Ok (pre, [])
  | s :: t' =>
      if rangecmp s r =? -1 then place (s :: pre) r t'
      else if rangecmp s r =? 0 then Err Eassert
      else Ok (pre, t)
  end.

(** The loop at [Again]: [r] with its neighbours on both sides. *)
Fixpoint coalesce (fuel : nat) (pre : list Arange) (r : Arange) (post : list Arange)
  : res (list Arange) :=
  match fuel with
  | O => Err Efuel
  | S fuel' =>
      let next :=
        match post with
        | s :: post' =>
            if ar_off r + ar_len r =? ar_off s then
              coalesce fuel' pre (mkRange (ar_off r) (ar_len s + ar_len r)) post'
            else Ok (rev_append pre (r :: post))
        | [] => Ok (rev_append pre (r :: post))
        end in
      match pre with
      | s :: pre' =>
          if ar_off s + ar_len s =? ar_off r then
            coalesce fuel' pre' (mkRange (ar_off s) (ar_len s + ar_len r)) post
          else next
      | [] => next
      end
  end.

Definition freerange (t : list Arange) (off len : Z) : res (list Arange) :=
  assert! Z.rem len Blksz =? 0 in
  let r := mkRange off len in
  let! (pre, post) := place [] r t in
  coalesce (S (length t)) pre r post.

(** The last node that is not above the offset. *)
Fixpoint lookup_le (pre : list Arange) (off : Z) (t : list Arange)
  : option (list Arange * Arange * list Arange) :=
  match t with
  | [] => None
  | s :: t' =>
      if off <? ar_off s then None
      else
        match lookup_le (s :: pre) off t' with
        | Some x => Some x
        | None => Some (pre, s, t')
        end
  end.

Definition grabrange (t : list Arange) (off len : Z) : res (list Arange) :=
  assert! Z.rem len Blksz =? 0 in
  match lookup_le [] off t with
  | None => Err Eassert
  | Some (pre, r, post) =>
      if ar_off r + ar_len r <? off + len then Err Eassert else
      let! (r, s) :=
        if off =? ar_off r then Ok (mkRange (ar_off r + len) (ar_len r - len), [])
        else if off + len =? ar_off r + ar_len r then
          Ok (mkRange (ar_off r) (ar_len r - len), [])
        else if (ar_off r <? off) && (off + len <? ar_off r + ar_len r) then
          let l := ar_len r in
          let r' := mkRange (ar_off r) (off - ar_off r) in
          Ok (r', [mkRange (off + len) (l - ar_len r' - len)])
        else Err Eassert in
      Ok (rev_append pre ((if ar_len r =? 0 then [] else [r]) ++ s ++ post))
  end.

(** [avlmin]/[avlmax] and the cut of one block; [None] when the tree is
    empty.  The result is the block and the new tree. *)
Definition take_min (t : list Arange) : option (Z * list Arange) :=
  match t with
  | [] => None
  | r :: t' =>
      let r' := mkRange (ar_off r + Blksz) (ar_len r - Blksz) in
      Some (ar_off r, (if ar_len r' =? 0 then [] else [r']) ++ t')
  end.

Definition take_max (t : list Arange) : option (Z * list Arange) :=
  match rev t with
  | [] => None
  | r :: pre =>
      let r' := mkRange (ar_off r) (ar_len r - Blksz) in
      Some (ar_off r' + ar_len r', rev_append pre (if ar_len r' =? 0 then [] else [r']))
  end.

(** ** The invariant: disjoint, ordered, coalesced ranges above [lo] *)

Fixpoint ranges (lo : Z) (t : list Arange) : Prop :=
  match t with
  | [] => True
  | r :: t' => lo < ar_off r /\ 0 < ar_len r /\ ranges (ar_off r + ar_len r) t'
  end.

(** The free addresses and their number. *)
Definition free_at (t : list Arange) (x : Z) : Prop :=
  exists r, r ∈ t /\ ar_off r <= x < ar_off r + ar_len r.

Definition free_size (t : list Arange) : Z := foldr (fun r n => ar_len r + n) 0 t.

(** The end of the last range of a reversed prefix. *)
Fixpoint ranges_rev (lo : Z) (pre : list Arange) (hi : Z) : Prop :=
  match pre with
  | [] => lo < hi
  | s :: pre' => 0 < ar_len s /\ ar_off s + ar_len s < hi /\ ranges_rev lo pre' (ar_off s)
  end.

Lemma ranges_weaken lo lo' t : lo' <= lo -> ranges lo t -> ranges lo' t.
Proof. destruct t; [done|]. simpl. intros ? (? & ? & ?). split; [lia|done]. Qed.

Lemma free_at_cons r t x :
  free_at (r :: t) x <-> (ar_off r <= x < ar_off r + ar_len r) \/ free_at t x.
Proof.
  unfold free_at. split.
  - intros (s & [->|Hs]%elem_of_cons & Hx); [by left|right; eauto].
  - intros [?|(s & Hs & Hx)]; [exists r|exists s]; (split; [|done]); by constructor.
Qed.
Lemma free_at_nil x : free_at [] x <-> False.
Proof. split; [|done]. by intros (? & ?%elem_of_nil & _). Qed.
Lemma free_at_app t t' x : free_at (t ++ t') x <-> free_at t x \/ free_at t' x.
Proof.
  induction t as [|r t IH]; simpl; [rewrite free_at_nil; tauto|].
  rewrite !free_at_cons, IH. tauto.
Qed.
Lemma free_size_app t t' : free_size (t ++ t') = free_size t + free_size t'.
Proof. induction t as [|r t IH]; simpl; [done|]. rewrite IH. lia. Qed.

Lemma ranges_above lo t x : ranges lo t -> free_at t x -> lo < x.
Proof.
  revert lo. induction t as [|r t IH]; intros lo; [by rewrite free_at_nil|].
  intros (H1 & H2 & H3) [?|Hx]%free_at_cons; [lia|]. specialize (IH _ H3 Hx). lia.
Qed.

(** A zipper of ranges. *)
Lemma ranges_zip lo pre t hi :
  ranges_rev lo pre hi -> ranges hi t \/ (exists r t', t = r :: t' /\ hi = ar_off r /\
    0 < ar_len r /\ ranges (ar_off r + ar_len r) t') -> ranges lo (rev_append pre t).
Proof.
  revert t hi. induction pre as [|s pre IH]; intros t hi Hp Ht; cbn [rev_append].
  - destruct Ht as [Ht|(r & t' & -> & -> & ? & ?)]; [|done].
    cbn in Hp. eapply ranges_weaken; [|done]. lia.
  - destruct Hp as (H1 & H2 & H3). apply (IH (s :: t) (ar_off s)); [done|]. right.
    exists s, t. repeat split; [done|].
    destruct Ht as [Ht|(r & t' & -> & -> & ? & ?)]; [|done].
    eapply ranges_weaken; [|done]. lia.
Qed.

Lemma rev_append_free pre t x : free_at (rev_append pre t) x <-> free_at pre x \/ free_at t x.
Proof.
  revert t. induction pre as [|s pre IH]; intros t; cbn [rev_append].
  - rewrite free_at_nil. tauto.
  - rewrite IH, !free_at_cons. tauto.
Qed.
Lemma rev_append_size pre t : free_size (rev_append pre t) = free_size pre + free_size t.
Proof. revert t. induction pre as [|s pre IH]; intros t; simpl; [done|]. rewrite IH. simpl. lia. Qed.

(** The range [r] between two zipper halves that may touch it. *)
Record gap (lo : Z) (pre : list Arange) (r : Arange) (post : list Arange) : Prop := {
  gap_len : 0 < ar_len r;
  gap_lo : lo < ar_off r;
  gap_pre : match pre with
            | [] => True
            | s :: pre' => 0 < ar_len s /\ ar_off s + ar_len s <= ar_off r /\
                           ranges_rev lo pre' (ar_off s)
            end;
  gap_post : match post with
             | [] => True
             | s :: post' => ar_off r + ar_len r <= ar_off s /\ 0 < ar_len s /\
                             ranges (ar_off s + ar_len s) post'
             end }.

Lemma coalesce_spec fuel lo pre r post :
  gap lo pre r post -> (length pre + length post < fuel)%nat ->
  exists t, coalesce fuel pre r post = Ok t /\ ranges lo t /\
    (forall x, free_at t x <-> free_at pre x \/ free_at (r :: post) x) /\
    free_size t = free_size pre + free_size (r :: post).
Proof.
  revert pre r post. induction fuel as [|fuel IH]; intros pre r post Hg Hf; [lia|].
  destruct Hg as [Hlen Hlo Hpre Hpost].
  assert (Hnext : match pre with [] => True | s :: _ => ar_off s + ar_len s < ar_off r end ->
    exists t, (match post with
        | s :: post' =>
            if ar_off r + ar_len r =? ar_off s then
              coalesce fuel pre (mkRange (ar_off r) (ar_len s + ar_len r)) post'
            else Ok (rev_append pre (r :: post))
        | [] => Ok (rev_append pre (r :: post))
        end) = Ok t /\ ranges lo t /\
    (forall x, free_at t x <-> free_at pre x \/ free_at (r :: post) x) /\
    free_size t = free_size pre + free_size (r :: post)).
  { intros Hlt.
    assert (Hrev : ranges_rev lo pre (ar_off r)).
    { destruct pre as [|s pre']; [done|]. destruct Hpre as (? & ? & ?). done. }
    assert (Hend : match post with [] => True | s :: _ => ar_off r + ar_len r < ar_off s end ->
      ranges lo (rev_append pre (r :: post))).
    { intros Hp. eapply ranges_zip; [done|]. right. exists r, post. repeat split; [done|].
      destruct post; [done|]. destruct Hpost as (? & ? & ?). done. }
    destruct post as [|s post'].
    - eexists. split; [done|]. split; [by apply Hend|]. split; [apply rev_append_free|].
      apply rev_append_size.
    - destruct Hpost as (H1 & H2 & H3).
      destruct (Z.eqb_spec (ar_off r + ar_len r) (ar_off s)) as [He|He].
      + destruct (IH pre (mkRange (ar_off r) (ar_len s + ar_len r)) post') as (t & -> & Ht & Hx & Hs).
        { constructor; cbn [ar_off ar_len]; [lia|lia| |].
          - destruct pre as [|s0 pre']; [done|]. destruct Hpre as (? & ? & ?). done.
          - destruct post' as [|s1 post'']; [done|]. destruct H3 as (? & ? & ?). split; [lia|done]. }
        { simpl in Hf. lia. }
        exists t. split; [done|]. split; [done|]. split.
        * intros x. rewrite Hx, !free_at_cons. cbn [ar_off ar_len].
          intuition lia.
        * rewrite Hs. simpl. lia.
      + eexists. split; [done|]. split; [apply Hend; lia|]. split; [apply rev_append_free|].
        apply rev_append_size. }
  cbn [coalesce]. destruct pre as [|s pre']; [by apply Hnext|].
  destruct Hpre as (H1 & H2 & H3).
  destruct (Z.eqb_spec (ar_off s + ar_len s) (ar_off r)) as [He|He]; [|apply Hnext; lia].
  destruct (IH pre' (mkRange (ar_off s) (ar_len s + ar_len r)) post) as (t & -> & Ht & Hx & Hs).
  { constructor; cbn [ar_off ar_len]; [lia| | |].
    - clear -H3. revert H3. generalize (ar_off s). induction pre' as [|s0 pre' IH]; intros z; [done|].
      intros (? & ? & ?). specialize (IH _ H1). lia.
    - destruct pre' as [|s0 pre'']; [done|]. destruct H3 as (? & ? & ?). split; [done|]. split; [lia|done].
    - destruct post as [|s1 post']; [done|]. destruct Hpost as (? & ? & ?). split; [lia|done]. }
  { simpl in Hf. lia. }
  exists t. split; [done|]. split; [done|]. split.
  - intros x. rewrite Hx, !free_at_cons. cbn [ar_off ar_len]. intuition lia.
  - rewrite Hs. simpl. lia.
Qed.

Lemma rangecmp_cases a b :
  (ar_off a < ar_off b /\ rangecmp a b = -1) \/ (ar_off a = ar_off b /\ rangecmp a b = 0) \/
  (ar_off b < ar_off a /\ rangecmp a b = 1).
Proof.
  unfold rangecmp. destruct (Z.ltb_spec (ar_off a) (ar_off b)); [by left|].
  destruct (Z.ltb_spec (ar_off b) (ar_off a)); right; [by right|left]. split; [lia|done].
Qed.

(** The new range touches no free address. *)
Definition disjoint_range (t : list Arange) (off len : Z) : Prop :=
  forall x, off <= x < off + len -> ~ free_at t x.

Lemma disjoint_head r t off len :
  0 < len -> 0 < ar_len r -> disjoint_range (r :: t) off len ->
  ar_off r + ar_len r <= off \/ off + len <= ar_off r.
Proof.
  intros Hl Hr Hd. 
  destruct (Z.le_gt_cases (ar_off r + ar_len r) off); [by left|].
  destruct (Z.le_gt_cases (off + len) (ar_off r)); [by right|]. exfalso.
  apply (Hd (Z.max off (ar_off r))); [lia|]. apply free_at_cons. left. lia.
Qed.

(** A reversed prefix of ranges that end by [off]. *)
Definition before (lo : Z) (pre : list Arange) (off : Z) : Prop :=
  match pre with
  | [] => lo < off
  | s :: pre' => 0 < ar_len s /\ ar_off s + ar_len s <= off /\ ranges_rev lo pre' (ar_off s)
  end.

(** [before], and the lower bound it gives to what follows. *)
Definition last_end (lo : Z) (pre : list Arange) : Z :=
  match pre with [] => lo | s :: _ => ar_off s + ar_len s end.

Lemma before_lo lo pre off : before lo pre off -> lo < off.
Proof.
  destruct pre as [|s pre]; [done|]. cbn. intros (? & ? & H).
  revert H. assert (Hs : ar_off s < off) by lia. revert Hs. generalize (ar_off s).
  induction pre as [|s0 pre IH]; intros z Hz; cbn [ranges_rev]; [lia|].
  intros (? & ? & Hr). apply (IH (ar_off s0)); [lia|done].
Qed.

Lemma before_push lo pre off r :
  before lo pre off -> last_end lo pre < ar_off r -> 0 < ar_len r -> ar_off r + ar_len r <= off ->
  before lo (r :: pre) off.
Proof.
  intros Hb Hl Hr Ho. cbn. split; [done|]. split; [done|].
  destruct pre as [|s pre]; [done|]. cbn in *. destruct Hb as (? & ? & ?). done.
Qed.

Lemma place_spec lo off len t : forall pre,
  0 < len -> before lo pre off -> ranges (last_end lo pre) t -> disjoint_range t off len ->
  exists pre' post, place pre (mkRange off len) t = Ok (pre', post) /\
    gap lo pre' (mkRange off len) post /\ rev_append pre' post = rev_append pre t.
Proof.
  induction t as [|s t IH]; intros pre Hlen Hb Ht Hd; cbn [place].
  { exists pre, []. split; [done|]. split; [|done]. constructor; try done. by eapply before_lo.
    by destruct pre. }
  destruct Ht as (H1 & H2 & H3).
  destruct (disjoint_head _ _ _ _ Hlen H2 Hd) as [Hle|Hle].
  - destruct (rangecmp_cases s (mkRange off len)) as [[? ->]|[[? ->]|[? ->]]]; cbn [ar_off] in *; [|lia|lia].
    cbn [Z.eqb Pos.eqb]. destruct (IH (s :: pre)) as (pre' & post & -> & Hg & E); [done| |done| |].
    + by apply before_push.
    + intros x Hx Hf. apply (Hd x Hx). apply free_at_cons. by right.
    + by exists pre', post.
  - destruct (rangecmp_cases s (mkRange off len)) as [[? ->]|[[? ->]|[? ->]]]; cbn [ar_off] in *; [lia|lia|].
    cbn [Z.eqb Pos.eqb]. exists pre, (s :: t). split; [done|]. split; [|done].
    constructor; cbn [ar_off ar_len]; [done|by eapply before_lo|by destruct pre|done].
Qed.

Lemma freerange_spec lo t off len :
  ranges lo t -> lo < off -> 0 < len -> Z.rem len Blksz = 0 -> disjoint_range t off len ->
  exists t', freerange t off len = Ok t' /\ ranges lo t' /\
    (forall x, free_at t' x <-> free_at t x \/ off <= x < off + len) /\
    free_size t' = free_size t + len.
Proof.
  intros Ht Hlo Hlen Hrem Hd. unfold freerange. rewrite Hrem, Z.eqb_refl.
  destruct (place_spec lo off len t [] Hlen Hlo Ht Hd) as (pre & post & -> & Hg & E). cbn [rbind].
  cbn [rev_append] in E.
  destruct (coalesce_spec (S (length t)) lo pre (mkRange off len) post Hg) as (t' & -> & Ht' & Hx & Hs).
  { rewrite <- E, rev_append_rev, length_app, length_rev. lia. }
  exists t'. split; [done|]. split; [done|]. split.
  - intros x. rewrite Hx, free_at_cons, <- E, rev_append_free. cbn [ar_off ar_len]. tauto.
  - rewrite Hs, <- E, rev_append_size. simpl. lia.
Qed.

Lemma lookup_le_split off t : forall pre pre' r post,
  lookup_le pre off t = Some (pre', r, post) ->
  ar_off r <= off /\ rev_append pre' (r :: post) = rev_append pre t.
Proof.
  induction t as [|s t IH]; intros pre pre' r post; cbn [lookup_le]; [done|].
  destruct (Z.ltb_spec off (ar_off s)); [done|].
  destruct (lookup_le (s :: pre) off t) as [[[pre1 r1] post1]|] eqn:E.
  - intros [= -> -> ->]. by apply (IH _ _ _ _ E).
  - intros [= -> -> ->]. done.
Qed.

(** Split sorted ranges back into a zipper. *)
Lemma ranges_unzip lo pre r post :
  ranges lo (rev_append pre (r :: post)) ->
  before lo pre (ar_off r) /\ last_end lo pre < ar_off r /\ 0 < ar_len r /\
  ranges (ar_off r + ar_len r) post.
Proof.
  revert r post. induction pre as [|s pre IH]; intros r post H; cbn [rev_append] in H.
  - destruct H as (? & ? & ?). done.
  - apply IH in H as (Hb & Hl & H1 & H2 & H3 & H4). cbn. split; [|done].
    split; [done|]. split; [lia|]. destruct pre; [done|]. cbn in *. destruct Hb as (? & ? & ?). done.
Qed.

(** Where the addresses [off..off+len) are all free, one range has them. *)
Lemma free_contiguous lo t off len :
  0 < len -> ranges lo t -> (forall x, off <= x < off + len -> free_at t x) ->
  exists r, r ∈ t /\ ar_off r <= off /\ off + len <= ar_off r + ar_len r.
Proof.
  intros Hlen. revert lo. induction t as [|s t IH]; intros lo Ht Hx.
  { exfalso. eapply free_at_nil, (Hx off). lia. }
  destruct Ht as (H1 & H2 & H3).
  destruct (Z.le_gt_cases (ar_off s + ar_len s) off) as [Hle|Hgt].
  - destruct (IH _ H3) as (r & Hr & ?); [|exists r; split; [by right|done]].
    intros x Hox. destruct (proj1 (free_at_cons _ _ _) (Hx x Hox)); [lia|done].
  - exists s. split; [by left|].
    assert (Hoff : ar_off s <= off).
    { destruct (proj1 (free_at_cons _ _ _) (Hx off ltac:(lia))) as [?|Hf]; [lia|].
      pose proof (ranges_above _ _ _ H3 Hf). lia. }
    split; [done|]. apply Z.nlt_ge. intros Hlt.
    destruct (proj1 (free_at_cons _ _ _) (Hx (ar_off s + ar_len s) ltac:(lia))) as [?|Hf]; [lia|].
    pose proof (ranges_above _ _ _ H3 Hf). lia.
Qed.

Lemma lookup_le_found lo off len t r :
  ranges lo t -> r ∈ t -> 0 < len -> ar_off r <= off -> off + len <= ar_off r + ar_len r ->
  forall pre, exists pre' post, lookup_le pre off t = Some (pre', r, post).
Proof.
  revert lo. induction t as [|s t IH]; intros lo Ht Hr Hlen H1 H2 pre; [by apply elem_of_nil in Hr|].
  destruct Ht as (A & B & C). cbn [lookup_le]. apply elem_of_cons in Hr as [->|Hr].
  - rewrite (proj2 (Z.ltb_ge _ _)) by lia.
    destruct (lookup_le (s :: pre) off t) as [[[p q] u]|] eqn:E; [|by eauto].
    exfalso. destruct t as [|s' t]; [done|]. cbn [lookup_le] in E. destruct C as (? & ? & ?).
    rewrite (proj2 (Z.ltb_lt _ _)) in E by lia. done.
  - assert (ar_off s + ar_len s < ar_off r).
    { clear -C Hr. revert C. generalize (ar_off s + ar_len s).
      induction t as [|a t IH]; intros z; [by apply elem_of_nil in Hr|]. intros (? & ? & ?).
      apply elem_of_cons in Hr as [->|Hr]; [done|]. specialize (IH Hr _ H1). lia. }
    rewrite (proj2 (Z.ltb_ge _ _)) by lia.
    destruct (IH _ C Hr Hlen H1 H2 (s :: pre)) as (pre' & post & ->). eauto.
Qed.

Lemma grabrange_spec lo t off len :
  ranges lo t -> 0 < len -> Z.rem len Blksz = 0 ->
  (forall x, off <= x < off + len -> free_at t x) ->
  exists t', grabrange t off len = Ok t' /\ ranges lo t' /\
    (forall x, free_at t' x <-> free_at t x /\ ~ off <= x < off + len) /\
    free_size t' = free_size t - len.
Proof.
  intros Ht Hlen Hrem Hx. unfold grabrange. rewrite Hrem, Z.eqb_refl.
  destruct (free_contiguous _ _ _ _ Hlen Ht Hx) as (r & Hr & Hr1 & Hr2).
  destruct (lookup_le_found _ _ _ _ _ Ht Hr Hlen Hr1 Hr2 []) as (pre & post & E). rewrite E.
  apply lookup_le_split in E as [_ E]. cbn [rev_append] in E. rewrite <- E in Ht |- *.
  apply ranges_unzip in Ht as (Hb & Hl & Hl0 & Hp).
  rewrite (proj2 (Z.ltb_ge _ _)) by lia.
  assert (Hzip : forall mid, ranges (last_end lo pre) (mid ++ post) ->
    ranges lo (rev_append pre (mid ++ post))).
  { intros mid Hm. destruct pre as [|s pre]; [done|]. cbn [last_end rev_append] in *.
    destruct Hb as (B1 & B2 & B3). apply (ranges_zip lo pre _ (ar_off s)); [done|]. right.
    by exists s, (mid ++ post). }
  assert (Hpost : forall x, free_at post x -> ar_off r + ar_len r < x) by (intros x; by apply ranges_above).
  assert (Hpre : forall x, free_at pre x -> x < ar_off r).
  { intros x (s & Hs & Hsx). clear -Hb Hs Hsx.
    destruct pre as [|s0 pre]; [by apply elem_of_nil in Hs|]. destruct Hb as (? & ? & Hrv).
    apply elem_of_cons in Hs as [->|Hs]; [lia|].
    revert Hrv. assert (ar_off s0 <= ar_off r) by lia. revert H1. generalize (ar_off s0).
    induction pre as [|s1 pre IH]; intros z Hz; [by apply elem_of_nil in Hs|]. intros (? & ? & ?).
    apply elem_of_cons in Hs as [->|Hs]; [lia|]. eapply (IH Hs (ar_off s1)); [lia|done]. }
  assert (Hgoal : forall mid,
    ranges (last_end lo pre) (mid ++ post) ->
    (forall x, free_at mid x <-> ar_off r <= x < ar_off r + ar_len r /\ ~ off <= x < off + len) ->
    free_size mid = ar_len r - len ->
    exists t', Ok (rev_append pre (mid ++ post)) = Ok t' /\ ranges lo t' /\
      (forall x, free_at t' x <-> free_at (rev_append pre (r :: post)) x /\ ~ off <= x < off + len) /\
      free_size t' = free_size (rev_append pre (r :: post)) - len).
  { intros mid Hm Hmx Hms. eexists. split; [done|]. split; [by apply Hzip|]. split.
    - intros x. rewrite !rev_append_free, free_at_app, free_at_cons, Hmx.
      specialize (Hpre x). specialize (Hpost x). split.
      + intros [?|[?|?]]; intuition lia.
      + tauto.
    - rewrite !rev_append_size, free_size_app, Hms. simpl. lia. }
  destruct (off =? ar_off r) eqn:E1; zb; [|
    destruct (off + len =? ar_off r + ar_len r) eqn:E2; zb; [|
    rewrite (proj2 (Z.ltb_lt (ar_off r) off)), (proj2 (Z.ltb_lt (off + len) _)) by lia]];
    cbn [andb rbind ar_off ar_len].
  - destruct (ar_len r - len =? 0) eqn:E3; zb; [apply (Hgoal [])|apply (Hgoal [_])]; cbn [app].
    + eapply ranges_weaken; [|exact Hp]. lia.
    + intros x. rewrite free_at_nil. lia.
    + cbn. lia.
    + cbn [ranges ar_off ar_len]. split; [lia|]. split; [lia|].
      eapply ranges_weaken; [|exact Hp]. lia.
    + intros x. rewrite free_at_cons, free_at_nil. cbn [ar_off ar_len]. lia.
    + cbn. lia.
  - rewrite (proj2 (Z.eqb_neq _ _)) by lia. apply (Hgoal [_]); cbn [app].
    + cbn [ranges ar_off ar_len]. split; [lia|]. split; [lia|].
      eapply ranges_weaken; [|exact Hp]. lia.
    + intros x. rewrite free_at_cons, free_at_nil. cbn [ar_off ar_len]. lia.
    + cbn. lia.
  - rewrite (proj2 (Z.eqb_neq _ _)) by lia. apply (Hgoal [_; _]); cbn [app].
    + cbn [ranges ar_off ar_len]. split; [lia|]. split; [lia|]. split; [lia|]. split; [lia|].
      eapply ranges_weaken; [|exact Hp]. lia.
    + intros x. rewrite !free_at_cons, free_at_nil. cbn [ar_off ar_len]. lia.
    + cbn. lia.
Qed.

(** Two range lists with the same free addresses are equal: the tree is a
    canonical representation of the free set. *)
Lemma ranges_head lo r t x :
  ranges lo (r :: t) -> free_at (r :: t) x -> ar_off r <= x.
Proof.
  intros (H1 & H2 & H3) [?|Hf]%free_at_cons; [lia|].
  pose proof (ranges_above _ _ _ H3 Hf). lia.
Qed.

Lemma ranges_ext t : forall lo t', ranges lo t -> ranges lo t' ->
  (forall x, free_at t x <-> free_at t' x) -> t = t'.
Proof.
  induction t as [|r t IH]; intros lo [|s t'] Ht Ht' Hx; [done|..].
  - exfalso. destruct Ht' as (? & ? & ?). eapply free_at_nil, (Hx (ar_off s)).
    apply free_at_cons. left. lia.
  - exfalso. destruct Ht as (? & ? & ?). eapply free_at_nil, (Hx (ar_off r)).
    apply free_at_cons. left. lia.
  - pose proof Ht as (H1 & H2 & H3). pose proof Ht' as (H1' & H2' & H3').
    assert (Ho : ar_off r = ar_off s).
    { apply Z.le_antisymm.
      - eapply (ranges_head lo r t); [done|]. apply Hx, free_at_cons. left. lia.
      - eapply (ranges_head lo s t'); [done|]. apply Hx, free_at_cons. left. lia. }
    assert (He : ar_off r + ar_len r = ar_off s + ar_len s).
    { apply Z.le_antisymm; apply Z.nlt_ge; intros Hlt.
      - assert (Hf : free_at (s :: t') (ar_off s + ar_len s)).
        { apply Hx, free_at_cons. left. lia. }
        apply free_at_cons in Hf as [?|Hf]; [lia|]. apply (ranges_above _ _ _ H3') in Hf. lia.
      - assert (Hf : free_at (r :: t) (ar_off r + ar_len r)).
        { apply Hx, free_at_cons. left. lia. }
        apply free_at_cons in Hf as [?|Hf]; [lia|]. apply (ranges_above _ _ _ H3) in Hf. lia. }
    assert (Hrs : r = s) by (destruct r, s; cbn in *; f_equal; lia). subst s. f_equal.
    apply (IH (ar_off r + ar_len r)); [done|done|]. intros x. specialize (Hx x).
    rewrite !free_at_cons in Hx. split; intros Hf.
    + pose proof (ranges_above _ _ _ H3 Hf). destruct (proj1 Hx (or_intror Hf)); [lia|done].
    + pose proof (ranges_above _ _ _ H3' Hf). destruct (proj2 Hx (or_intror Hf)); [lia|done].
Qed.

(** The ranges are made of whole blocks. *)
Definition blocks (t : list Arange) : Prop := Forall (fun r => Blksz <= ar_len r) t.

Lemma take_min_spec lo t b t' :
  ranges lo t -> blocks t -> take_min t = Some (b, t') ->
  ranges lo t' /\ (forall x, b <= x < b + Blksz -> free_at t x) /\
  (forall x, free_at t' x <-> free_at t x /\ ~ b <= x < b + Blksz) /\
  free_size t' = free_size t - Blksz /\ lo < b.
Proof.
  intros Ht Hb. destruct t as [|r t]; [done|]. intros [= <- <-].
  destruct Ht as (H1 & H2 & H3). apply Forall_cons in Hb as [Hr _].
  assert (HB : Blksz = 16384) by done. cbn [ar_len].
  assert (Hin : forall x, ar_off r <= x < ar_off r + Blksz -> free_at (r :: t) x).
  { intros x Hx. apply free_at_cons. left. lia. }
  pose proof (fun x => ranges_above _ _ x H3) as Hab.
  destruct (Z.eqb_spec (ar_len r - Blksz) 0) as [He|He]; cbn [app].
  - split; [eapply ranges_weaken; [|exact H3]; lia|]. split; [done|]. split; [|split; [simpl; lia|lia]].
    intros x. rewrite free_at_cons. specialize (Hab x). split; [|intuition lia].
    intros Hf. specialize (Hab Hf). split; [by right|lia].
  - split; [cbn; split; [lia|]; split; [lia|]; eapply ranges_weaken; [|exact H3]; lia|].
    split; [done|]. split; [|split; [simpl; lia|lia]].
    intros x. rewrite !free_at_cons. cbn [ar_off ar_len]. specialize (Hab x). split; [|intuition lia].
    intros [?|Hf]; [split; [left|]; lia|]. specialize (Hab Hf). split; [by right|lia].
Qed.

Lemma take_max_spec lo t b t' :
  ranges lo t -> blocks t -> take_max t = Some (b, t') ->
  ranges lo t' /\ (forall x, b <= x < b + Blksz -> free_at t x) /\
  (forall x, free_at t' x <-> free_at t x /\ ~ b <= x < b + Blksz) /\
  free_size t' = free_size t - Blksz /\ lo < b.
Proof.
  intros Ht Hb. unfold take_max. destruct (rev t) as [|r pre] eqn:E; [done|].
  intros H. injection H as <- <-. cbn [ar_off ar_len].
  assert (Et : t = rev_append pre [r]).
  { rewrite <- (rev_involutive t), E. simpl. by rewrite rev_append_rev. }
  subst t. clear E. assert (HB : Blksz = 16384) by done.
  assert (Hr : Blksz <= ar_len r).
  { unfold blocks in Hb. rewrite rev_append_rev in Hb. apply Forall_app in Hb as [_ Hb].
    by apply Forall_cons in Hb as [? _]. }
  apply ranges_unzip in Ht as (Hbe & Hl & Hlen & _). pose proof (before_lo _ _ _ Hbe).
  set (b := ar_off r + (ar_len r - Blksz)).
  assert (Hpre : forall x, free_at pre x -> x < ar_off r).
  { intros x (s & Hs & Hsx). clear -Hbe Hs Hsx.
    destruct pre as [|s0 pre]; [by apply elem_of_nil in Hs|]. destruct Hbe as (? & ? & Hrv).
    apply elem_of_cons in Hs as [->|Hs]; [lia|].
    revert Hrv. assert (ar_off s0 <= ar_off r) by lia. revert H1. generalize (ar_off s0).
    induction pre as [|s1 pre IH]; intros z Hz; [by apply elem_of_nil in Hs|]. intros (? & ? & ?).
    apply elem_of_cons in Hs as [->|Hs]; [lia|]. eapply (IH Hs (ar_off s1)); [lia|done]. }
  assert (Hin : forall x, b <= x < b + Blksz -> free_at (rev_append pre [r]) x).
  { intros x Hx. rewrite rev_append_free, free_at_cons. unfold b in Hx. right. left. lia. }
  assert (Hzip : forall mid, ranges (last_end lo pre) mid -> ranges lo (rev_append pre mid)).
  { intros mid Hm. destruct pre as [|s pre]; [done|]. cbn [last_end rev_append] in *.
    destruct Hbe as (B1 & B2 & B3). apply (ranges_zip lo pre _ (ar_off s)); [done|]. right.
    by exists s, mid. }
  destruct (Z.eqb_spec (ar_len r - Blksz) 0) as [He|He].
  - split; [by apply Hzip|]. split; [done|]. split; [|split; [rewrite !rev_append_size; simpl; lia|lia]].
    intros x. rewrite !rev_append_free, free_at_cons, !free_at_nil. specialize (Hpre x). unfold b.
    intuition lia.
  - split; [apply Hzip; cbn; split; [lia|]; split; [lia|done]|]. split; [done|].
    split; [|split; [rewrite !rev_append_size; simpl; lia|lia]].
    intros x. rewrite !rev_append_free, !free_at_cons, !free_at_nil. cbn [ar_off ar_len].
    specialize (Hpre x). unfold b. intuition lia.
Qed.

(** ** Arenas *)

(** [Arena]: [a_addr] is [h0->bp.addr]; the log buffers are in Log.v. *)
Record Arena := mkArena {
  a_addr : Z; a_size : Z; a_used : Z; a_reserve : Z; a_free : list Arange }.

Definition set_free (a : Arena) (used : Z) (t : list Arange) : Arena :=
  mkArena (a_addr a) (a_size a) used (a_reserve a) t.

(** The block, or [None] for -1, and the new arena. *)
Definition blkalloc_lk (usereserve : bool) (a : Arena) (seq : bool) : res (option Z * Arena) :=
  if negb usereserve && (a_size a - a_used a <=? a_reserve a) then Ok (None, a) else
  match if seq then take_min (a_free a) else take_max (a_free a) with
  | None => Err Estuffed
  | Some (b, t) => Ok (Some b, set_free a (a_used a + Blksz) t)
  end.

(** The start of the block an address is in, counted from [a]. *)
Definition blkfloor (a x : Z) : Z := a + Blksz * ((x - a) / Blksz).

(** The free set is made of whole blocks. *)
Definition aligned (a : Z) (t : list Arange) : Prop :=
  forall x, free_at t (blkfloor a x) <-> free_at t x.

(** The invariant of an arena: the ranges are canonical, made of blocks
    inside the arena, and [used] counts what is not free. *)
Record arena_ok (a : Arena) : Prop := {
  ao_ranges : ranges (a_addr a - 1) (a_free a);
  ao_aligned : aligned (a_addr a) (a_free a);
  ao_end : forall x, free_at (a_free a) x -> x < a_addr a + a_size a + 2 * Blksz;
  ao_used : a_used a + free_size (a_free a) = a_size a }.

Lemma ranges_not_end lo t r : ranges lo t -> r ∈ t -> ~ free_at t (ar_off r + ar_len r).
Proof.
  revert lo. induction t as [|s t IH]; intros lo Ht Hr; [by apply elem_of_nil in Hr|].
  destruct Ht as (H1 & H2 & H3). apply elem_of_cons in Hr as [->|Hr].
  - intros [?|Hf]%free_at_cons; [lia|]. apply (ranges_above _ _ _ H3) in Hf. lia.
  - intros [?|Hf]%free_at_cons; [|by eapply IH].
    assert (Hr0 : free_at t (ar_off r)).
    { exists r. split; [done|]. clear -H3 Hr. revert H3. generalize (ar_off s + ar_len s).
      induction t as [|a t IH]; intros z; [by apply elem_of_nil in Hr|]. intros (? & ? & ?).
      apply elem_of_cons in Hr as [->|Hr]; [lia|]. by eapply IH. }
    assert (0 < ar_len r).
    { clear -H3 Hr. revert H3. generalize (ar_off s + ar_len s).
      induction t as [|a t IH]; intros z; [by apply elem_of_nil in Hr|]. intros (? & ? & ?).
      apply elem_of_cons in Hr as [->|Hr]; [lia|]. by eapply IH. }
    apply (ranges_above _ _ _ H3) in Hr0. lia.
Qed.

Lemma ranges_not_start lo t r : ranges lo t -> r ∈ t -> ~ free_at t (ar_off r - 1).
Proof.
  revert lo. induction t as [|s t IH]; intros lo Ht Hr; [by apply elem_of_nil in Hr|].
  destruct Ht as (H1 & H2 & H3). apply elem_of_cons in Hr as [->|Hr].
  - intros [?|Hf]%free_at_cons; [lia|]. apply (ranges_above _ _ _ H3) in Hf. lia.
  - intros [?|Hf]%free_at_cons; [|by eapply IH].
    assert (ar_off s + ar_len s < ar_off r).
    { clear -H3 Hr. revert H3. generalize (ar_off s + ar_len s).
      induction t as [|a t IH]; intros z; [by apply elem_of_nil in Hr|]. intros (? & ? & ?).
      apply elem_of_cons in Hr as [->|Hr]; [lia|]. specialize (IH Hr _ H1). lia. }
    lia.
Qed.

Lemma ranges_pos lo t r : ranges lo t -> r ∈ t -> 0 < ar_len r.
Proof.
  revert lo. induction t as [|s t IH]; intros lo Ht Hr; [by apply elem_of_nil in Hr|].
  destruct Ht as (? & ? & ?). apply elem_of_cons in Hr as [->|Hr]; [done|by eapply IH].
Qed.

Lemma blkfloor_bounds a x : blkfloor a x <= x < blkfloor a x + Blksz.
Proof.
  unfold blkfloor. change Blksz with 16384.
  pose proof (Z.div_mod (x - a) 16384 ltac:(lia)). pose proof (Z.mod_pos_bound (x - a) 16384 ltac:(lia)).
  lia.
Qed.

Lemma blkfloor_same a x y : blkfloor a x <= y < blkfloor a x + Blksz -> blkfloor a y = blkfloor a x.
Proof.
  unfold blkfloor. change Blksz with 16384. intros H. f_equal. f_equal.
  symmetry. apply (Z.div_unique _ _ _ (y - a - 16384 * ((x - a) / 16384))); lia.
Qed.

(** The ranges of an aligned free set start and end at blocks. *)
Lemma aligned_range a lo t r :
  ranges lo t -> aligned a t -> r ∈ t ->
  blkfloor a (ar_off r) = ar_off r /\ blkfloor a (ar_off r + ar_len r) = ar_off r + ar_len r /\
  Blksz <= ar_len r.
Proof.
  intros Ht Ha Hr. pose proof (ranges_pos _ _ _ Ht Hr) as Hp.
  assert (Hoff : blkfloor a (ar_off r) = ar_off r).
  { pose proof (blkfloor_bounds a (ar_off r)).
    destruct (Z.eq_dec (blkfloor a (ar_off r)) (ar_off r)) as [|Hne]; [done|]. exfalso.
    apply (ranges_not_start _ _ _ Ht Hr). apply Ha.
    rewrite (blkfloor_same a (ar_off r)) by lia. apply Ha. exists r. split; [done|lia]. }
  assert (Hend : blkfloor a (ar_off r + ar_len r) = ar_off r + ar_len r).
  { pose proof (blkfloor_bounds a (ar_off r + ar_len r)).
    destruct (Z.eq_dec (blkfloor a (ar_off r + ar_len r)) (ar_off r + ar_len r)) as [|Hne]; [done|].
    exfalso. apply (ranges_not_end _ _ _ Ht Hr). apply Ha.
    rewrite <- (blkfloor_same a (ar_off r + ar_len r) (ar_off r + ar_len r - 1)) by lia.
    apply Ha. exists r. split; [done|lia]. }
  split; [done|]. split; [done|].
  destruct (Z.le_gt_cases Blksz (ar_len r)); [done|]. exfalso.
  assert (He : blkfloor a (ar_off r + ar_len r) = blkfloor a (ar_off r)).
  { apply blkfloor_same. lia. }
  lia.
Qed.

Lemma aligned_blocks a lo t : ranges lo t -> aligned a t -> blocks t.
Proof.
  intros Ht Ha. apply Forall_forall. intros r Hr. by apply (aligned_range a lo t r).
Qed.

(** Taking out or giving back one block keeps the set aligned. *)
Lemma aligned_remove a b t t' :
  aligned a t -> blkfloor a b = b ->
  (forall x, free_at t' x <-> free_at t x /\ ~ b <= x < b + Blksz) -> aligned a t'.
Proof.
  intros Ha Hb Ht' x. rewrite !Ht', (Ha x).
  assert (Hx : (b <= blkfloor a x < b + Blksz) <-> (b <= x < b + Blksz)).
  { pose proof (blkfloor_bounds a x). split; intros H'.
    - assert (E : blkfloor a (blkfloor a x) = blkfloor a b) by (apply blkfloor_same; lia).
      rewrite (blkfloor_same a x) in E by lia. lia.
    - assert (E : blkfloor a x = blkfloor a b) by (apply blkfloor_same; lia). lia. }
  by rewrite Hx.
Qed.

Lemma aligned_add a b t t' :
  aligned a t -> blkfloor a b = b ->
  (forall x, free_at t' x <-> free_at t x \/ b <= x < b + Blksz) -> aligned a t'.
Proof.
  intros Ha Hb Ht' x. rewrite !Ht', (Ha x).
  assert (Hx : (b <= blkfloor a x < b + Blksz) <-> (b <= x < b + Blksz)).
  { pose proof (blkfloor_bounds a x). split; intros H'.
    - assert (E : blkfloor a (blkfloor a x) = blkfloor a b) by (apply blkfloor_same; lia).
      rewrite (blkfloor_same a x) in E by lia. lia.
    - assert (E : blkfloor a x = blkfloor a b) by (apply blkfloor_same; lia). lia. }
  by rewrite Hx.
Qed.

Lemma take_min_floor a lo t b t' :
  ranges lo t -> aligned a t -> take_min t = Some (b, t') -> blkfloor a b = b.
Proof.
  intros Ht Ha. destruct t as [|r t]; [done|]. intros [= <- _].
  apply (aligned_range a lo (r :: t) r); [done|done|by left].
Qed.

Lemma take_max_floor a lo t b t' :
  ranges lo t -> aligned a t -> take_max t = Some (b, t') -> blkfloor a b = b.
Proof.
  intros Ht Ha. unfold take_max. destruct (rev t) as [|r pre] eqn:E; [done|].
  intros H. injection H as <- _. cbn [ar_off ar_len].
  assert (Hr : r ∈ t).
  { rewrite <- (rev_involutive t), E. simpl. apply elem_of_app. right. by left. }
  destruct (aligned_range a lo t r Ht Ha Hr) as (_ & H2 & H3).
  unfold blkfloor in *. change Blksz with 16384 in *.
  replace (ar_off r + (ar_len r - 16384) - a) with (ar_off r + ar_len r - a + (-1) * 16384) by lia.
  rewrite Z.div_add by lia. lia.
Qed.

Lemma take_none t : (take_min t = None <-> t = []) /\ (take_max t = None <-> t = []).
Proof.
  split; [by destruct t|]. unfold take_max. split; [|by intros ->].
  destruct (rev t) eqn:E; [|done]. intros _. by rewrite <- (rev_involutive t), E.
Qed.

(** One block is taken: what both ends of the tree have in common. *)
Lemma take_spec (seq : bool) a b t' :
  arena_ok a -> (if seq then take_min (a_free a) else take_max (a_free a)) = Some (b, t') ->
  arena_ok (set_free a (a_used a + Blksz) t') /\ blkfloor (a_addr a) b = b /\
  a_addr a <= b /\ (forall x, b <= x < b + Blksz -> free_at (a_free a) x) /\
  (forall x, free_at t' x <-> free_at (a_free a) x /\ ~ b <= x < b + Blksz).
Proof.
  intros [Hr Ha He Hu] H. pose proof (aligned_blocks _ _ _ Hr Ha) as Hb.
  assert (Hspec : ranges (a_addr a - 1) t' /\ (forall x, b <= x < b + Blksz -> free_at (a_free a) x) /\
    (forall x, free_at t' x <-> free_at (a_free a) x /\ ~ b <= x < b + Blksz) /\
    free_size t' = free_size (a_free a) - Blksz /\ a_addr a - 1 < b).
  { destruct seq; [by apply take_min_spec|by apply take_max_spec]. }
  destruct Hspec as (S1 & S2 & S3 & S4 & S5).
  assert (Hf : blkfloor (a_addr a) b = b).
  { destruct seq; [exact (take_min_floor _ _ _ _ _ Hr Ha H)|exact (take_max_floor _ _ _ _ _ Hr Ha H)]. }
  split; [|split; [done|]; split; [lia|]; done].
  constructor; cbn [set_free a_addr a_size a_used a_free].
  - done.
  - by eapply aligned_remove.
  - intros x Hx. apply He. by apply S3.
  - lia.
Qed.

(** ** Theorems *)

(** Giving a free range back keeps the tree ordered, disjoint and
    coalesced, adds exactly its addresses to the free set and its length to
    the free space; the double-free assertion does not fire for a range that
    is not free. *)
Theorem freerange_correct lo t off len :
  ranges lo t -> lo < off -> 0 < len -> Z.rem len Blksz = 0 -> disjoint_range t off len ->
  exists t', freerange t off len = Ok t' /\ ranges lo t' /\
    (forall x, free_at t' x <-> free_at t x \/ off <= x < off + len) /\
    free_size t' = free_size t + len.
Proof. apply freerange_spec. Qed.

(** Taking a free range out of the tree removes exactly its addresses,
    and giving it back restores the very same tree: the coalesced tree is a
    canonical representation of the free set. *)
Theorem grabrange_freerange lo t off len :
  ranges lo t -> lo < off -> 0 < len -> Z.rem len Blksz = 0 ->
  (forall x, off <= x < off + len -> free_at t x) ->
  exists t', grabrange t off len = Ok t' /\ ranges lo t' /\
    (forall x, free_at t' x <-> free_at t x /\ ~ off <= x < off + len) /\
    freerange t' off len = Ok t.
Proof.
  intros Ht Hlo Hlen Hrem Hx.
  destruct (grabrange_spec lo t off len Ht Hlen Hrem Hx) as (t' & E & Hr & Hf & _).
  exists t'. split; [done|]. split; [done|]. split; [done|].
  destruct (freerange_spec lo t' off len Hr Hlo Hlen Hrem) as (t2 & E2 & Hr2 & Hf2 & _).
  { intros x Hox Hfx. apply Hf in Hfx as [_ ?]. done. }
  rewrite E2. f_equal. apply (ranges_ext t2 lo t Hr2 Ht). intros x.
  rewrite Hf2, Hf. split; [intros [[? _]|?]; [done|by apply Hx]|].
  intros Hfx. destruct (decide (off <= x < off + len)); [by right|by left].
Qed.

(** Allocation from an arena keeps its invariant: the block was free, is
    aligned, lies in the arena and is not free any more; it fails with -1
    only at the reserve, and with [Estuffed] only when nothing is free.
    Replaying the allocation with [grabrange], as [loadlog] does, gives the
    same tree. *)
Theorem blkalloc_lk_correct usereserve a seq :
  arena_ok a ->
  match blkalloc_lk usereserve a seq with
  | Ok (Some b, a') =>
      arena_ok a' /\ blkfloor (a_addr a) b = b /\ a_addr a <= b /\
      b < a_addr a + a_size a + 2 * Blksz /\
      (forall x, free_at (a_free a') x <-> free_at (a_free a) x /\ ~ b <= x < b + Blksz) /\
      free_at (a_free a) b /\ grabrange (a_free a) b Blksz = Ok (a_free a')
  | Ok (None, a') => usereserve = false /\ a_size a - a_used a <= a_reserve a /\ a' = a
  | Err e => e = Estuffed /\ a_free a = []
  end.
Proof.
  intros Hok. unfold blkalloc_lk.
  destruct (negb usereserve && (a_size a - a_used a <=? a_reserve a)) eqn:E.
  { apply andb_true_iff in E as [E1 E2]. zb. by destruct usereserve. }
  destruct (if seq then _ else _) as [[b t']|] eqn:Et.
  2:{ split; [done|]. destruct (take_none (a_free a)) as [H1 H2].
      destruct seq; [by apply H1|by apply H2]. }
  destruct (take_spec seq a b t' Hok Et) as (Hok' & Hf & Hlo & Hin & Hx).
  cbn [set_free a_free]. split; [done|]. split; [done|]. split; [done|].
  assert (Hfb : free_at (a_free a) b) by (apply Hin; change Blksz with 16384; lia).
  split; [by apply (ao_end _ Hok)|]. split; [done|]. split; [done|].
  destruct (grabrange_spec (a_addr a - 1) (a_free a) b Blksz (ao_ranges _ Hok)) as (t2 & E2 & Hr2 & Hx2 & _);
    [done|done|done|].
  rewrite E2. f_equal. apply (ranges_ext t2 (a_addr a - 1)); [done|apply Hok'|].
  intros x. by rewrite Hx2, Hx.
Qed.

(** ** Witnesses *)

Definition free_ex : list Arange := [mkRange 0 32768; mkRange 65536 16384].

Lemma ranges_ex : ranges (-1) free_ex.
Proof. cbn. lia. Qed.

Lemma freerange_correct_witness :
  exists t', freerange free_ex 32768 32768 = Ok t' /\ t' = [mkRange 0 81920].
Proof.
  destruct (freerange_correct (-1) free_ex 32768 32768 ranges_ex) as (t' & E & _);
    [lia|lia|done| |].
  - intros x Hx. unfold free_ex. rewrite !free_at_cons, free_at_nil. cbn [ar_off ar_len]. lia.
  - exists t'. split; [done|]. vm_compute in E. by injection E as <-.
Defined.

Lemma grabrange_freerange_witness :
  exists t', grabrange free_ex 16384 16384 = Ok t' /\ freerange t' 16384 16384 = Ok free_ex.
Proof.
  destruct (grabrange_freerange (-1) free_ex 16384 16384 ranges_ex) as (t' & E & _ & _ & E2);
    [lia|lia|done| |by exists t'].
  intros x Hx. unfold free_ex. rewrite free_at_cons. left. cbn. lia.
Defined.

Definition arena_ex : Arena := mkArena 0 81920 32768 0 free_ex.

Lemma arena_ok_ex : arena_ok arena_ex.
Proof.
  constructor; [apply ranges_ex| | |done].
  - intros x. cbn [arena_ex a_free a_addr]. unfold free_ex.
    rewrite !free_at_cons, !free_at_nil. cbn [ar_off ar_len].
    pose proof (blkfloor_bounds 0 x) as Hb.
    assert (E : exists q, blkfloor 0 x = 16384 * q) by (by eexists). destruct E as [q E].
    change Blksz with 16384 in *. lia.
  - intros x. cbn [arena_ex a_free a_addr a_size]. unfold free_ex.
    rewrite !free_at_cons, free_at_nil. cbn [ar_off ar_len]. change Blksz with 16384. lia.
Qed.

Lemma blkalloc_lk_correct_witness :
  blkalloc_lk false arena_ex false = Ok (Some 65536, set_free arena_ex 49152 [mkRange 0 32768]) /\
  arena_ok (set_free arena_ex 49152 [mkRange 0 32768]).
Proof.
  pose proof (blkalloc_lk_correct false arena_ex false arena_ok_ex) as H.
  split; [reflexivity|]. exact (proj1 H).
Defined.
