(* ===== verification/Io.v ===== *)
(** * Reading and writing blocks (src/blk.c: [syncblk], [readblk])

    The device is the map of its blocks.  [finalize] is in Blk.v. *)
From S2P Require Import Prelude CInt Mem Data Hash Pack Blk.

(** The blocks of the device, by address. *)
Abbreviation Disk := (gmap Z (list Z)).

(** [pread] of one block. *)
Definition pread (d : Disk) (off : Z) : res (list Z) :=
  match d !! off with
  | Some buf => if zlen buf =? Blksz then Ok buf else Err Eio
  | None => Err Eio
  end.

Definition syncblk (b : Blk) (d : Disk) : res (Blk * Disk) :=
  assert! checkflag (b_flag b) Bfinal 0 in
  assert! 0 <=? bp_addr (b_bp b) in
  Ok (mkBlk (b_type b) (b_nval b) (b_valsz b) (b_nbuf b) (b_bufsz b) (b_logsz b) (b_logh b)
        (b_logp b) (b_bp b) (setflag (b_flag b) 0 Bdirty) (b_buf b),
      <[bp_addr (b_bp b) := b_buf b]> d).

(** The header fields of the type [ty]. *)
Definition readhdr (b : Blk) (buf : list Z) (bp : Bptr) (ty : Z) : res Blk :=
  let blk nval valsz nbuf bufsz logsz logh logp :=
    mkBlk ty nval valsz nbuf bufsz logsz logh logp (mkBptr (bp_addr bp) nohash (-1))
      (b_flag b) buf in
  if (ty =? Tdat) || (ty =? Tsuper) || (ty =? Tarena) then
    Ok (blk 0 0 0 0 0 (b_logh b) (b_logp b))
  else if (ty =? Tdlist) || (ty =? Tlog) then
    let! logsz := rd16 buf 2 in
    let! logh := rd64 buf 4 in
    let! p := rd buf 12 Ptrsz in
    let! logp := unpackbp p Ptrsz in
    Ok (blk 0 0 0 0 logsz logh logp)
  else if ty =? Tpivot then
    let! nval := rd16 buf 2 in
    let! valsz := rd16 buf 4 in
    let! nbuf := rd16 buf 6 in
    let! bufsz := rd16 buf 8 in
    Ok (blk (s16 nval) (s16 valsz) (s16 nbuf) (s16 bufsz) 0 (b_logh b) (b_logp b))
  else if ty =? Tleaf then
    let! nval := rd16 buf 2 in
    let! valsz := rd16 buf 4 in
    Ok (blk (s16 nval) (s16 valsz) 0 0 0 (b_logh b) (b_logp b))
  else Err Ebadtype.

(** The hash the block should have, and the one it has. *)
Definition blksums (b : Blk) (bp : Bptr) : res (Z * Z) :=
  if (b_type b =? Tlog) || (b_type b =? Tdlist) then
    let! body := rd (b_buf b) Loghdsz (b_logsz b) in
    let! ck := bufhash body (b_logsz b) in
    Ok (b_logh b, ck)
  else
    let! ck := blkhash (b_buf b) in
    Ok (u64 (bp_hash bp), ck).

Definition cnot (x : Z) : Z := if x =? 0 then 1 else 0.

(** [b] is the buffer that is filled; [(!flg&GBnochk)] as it is written. *)
Definition readblk (b : Blk) (bp : Bptr) (flg : Z) (d : Disk) : res Blk :=
  let! buf := pread d (bp_addr bp) in
  let! ty := if negb (Z.land flg GBraw =? 0) then Ok Tdat
             else let! t := rd16 buf 0 in Ok (s16 t) in
  let! b := readhdr b buf bp ty in
  let! (xh, ck) := blksums b bp in
  if negb (Z.land (cnot flg) GBnochk =? 0) && negb (ck =? xh) then Err Ecorrupt
  else Ok b.

(** ** Round trip *)

(** The fields are in the range of their types. *)
Record wf_blk (b : Blk) : Prop := {
  wb_buf : zlen (b_buf b) = Blksz;
  wb_nval : -2 ^ 15 <= b_nval b < 2 ^ 15;
  wb_valsz : -2 ^ 15 <= b_valsz b < 2 ^ 15;
  wb_nbuf : -2 ^ 15 <= b_nbuf b < 2 ^ 15;
  wb_bufsz : -2 ^ 15 <= b_bufsz b < 2 ^ 15;
  wb_logsz : 0 <= b_logsz b <= Logspc;
  wb_logp : wf_bptr (b_logp b) }.

(** The fields that are on disk and their reset values. *)
Definition stored_blk (b : Blk) (flag : Z) (logh : Z) (logp : Bptr) : Blk :=
  let ty := b_type b in
  let vals := (ty =? Tpivot) || (ty =? Tleaf) in
  let msgs := ty =? Tpivot in
  let log := (ty =? Tlog) || (ty =? Tdlist) in
  mkBlk ty (if vals then b_nval b else 0) (if vals then b_valsz b else 0)
    (if msgs then b_nbuf b else 0) (if msgs then b_bufsz b else 0)
    (if log then b_logsz b else 0) (if log then b_logh b else logh)
    (if log then b_logp b else logp)
    (mkBptr (bp_addr (b_bp b)) nohash (-1)) flag (b_buf b).

Lemma rd64_at m o v : at_ m o (PACK64 v) -> rd64 m o = Ok (u64 v).
Proof.
  intros H. unfold rd64. rewrite (rd_at_n m o 8 (PACK64 v) eq_refl H). cbn [rbind].
  by rewrite UNPACK64_PACK64.
Qed.

(** What [finalize] does: the header is at the start of the block, the rest
    of the bytes is unchanged. *)
Lemma finalize_inv b b' :
  finalize b = Ok b' -> exists h,
    header_bytes b (b_logh b') = Ok h /\ at_ (b_buf b') 0 h /\
    zlen (b_buf b') = zlen (b_buf b) /\
    (forall o bs, zlen h <= o -> at_ (b_buf b) o bs -> at_ (b_buf b') o bs) /\
    b' = mkBlk (b_type b) (b_nval b) (b_valsz b) (b_nbuf b) (b_bufsz b) (b_logsz b)
           (b_logh b') (b_logp b) (b_bp b') (setflag (b_flag b) (Z.lor Bdirty Bfinal) 0) (b_buf b') /\
    bp_addr (b_bp b') = bp_addr (b_bp b) /\ bp_gen (b_bp b') = bp_gen (b_bp b) /\
    blkhash (b_buf b') = Ok (bp_hash (b_bp b')) /\
    (b_type b = Tlog \/ b_type b = Tdlist -> exists body,
      rd (b_buf b) Loghdsz (b_logsz b) = Ok body /\ bufhash body (b_logsz b) = Ok (b_logh b')).
Proof.
  unfold finalize. intros H. bind_inv H as logh El. bind_inv H as h Eh.
  bind_inv H as buf Eb. bind_inv H as hash Ehs. injection H as <-.
  exists h. cbn [b_logh b_buf b_bp bp_addr bp_gen bp_hash].
  split; [done|]. split; [by eapply wr_at|]. split; [by eapply wr_zlen|]. split.
  { intros o bs Ho Ha. eapply wr_frame; [done|done|]. right. lia. }
  split; [done|]. split; [done|]. split; [done|]. split; [done|].
  intros Ht. replace ((b_type b =? Tdlist) || (b_type b =? Tlog)) with true in El.
  2:{ destruct Ht as [-> | ->]; done. }
  bind_inv El as body E. by exists body.
Qed.

Lemma finalize_ok b :
  zlen (b_buf b) = Blksz -> 0 <= b_logsz b <= Logspc ->
  b_type b ∈ [Tdat; Tpivot; Tleaf; Tlog; Tdlist; Tarena; Tsuper] ->
  exists b', finalize b = Ok b'.
Proof.
  intros Hl Hs Ht. unfold finalize.
  assert (El : exists logh, (if (b_type b =? Tdlist) || (b_type b =? Tlog) then
      let! body := rd (b_buf b) Loghdsz (b_logsz b) in bufhash body (b_logsz b)
    else Ok (b_logh b)) = Ok logh).
  { destruct (_ || _); [|by eauto].
    destruct (rd_ok (b_buf b) Loghdsz (b_logsz b)) as (body & E & Hz);
      [done|lia|rewrite Hl; change Logspc with 16348 in Hs; change Loghdsz with 36;
       change Blksz with 16384; lia|].
    rewrite E. cbn [rbind]. rewrite <- Hz. destruct (bufhash_ok body) as (h & -> & _). by eauto. }
  destruct El as (logh & ->). cbn [rbind].
  assert (Eh : exists h, header_bytes b logh = Ok h /\ zlen h <= 36).
  { unfold header_bytes. set_unfold in Ht.
    destruct Ht as [E|[E|[E|[E|[E|[E|[E|[]]]]]]]]; rewrite E; cbn -[PACK16 PACK64 bp_bytes];
      (eexists; split; [reflexivity|]); unfold bp_bytes; autorewrite with zlen; lia. }
  destruct Eh as (h & -> & Hh). cbn [rbind].
  destruct (wr_ok (b_buf b) 0 h) as (buf & -> & Hb); [lia|rewrite Hl; change Blksz with 16384; lia|].
  cbn [rbind]. destruct (blkhash_ok buf) as (hash & -> & _); [congruence|]. cbn [rbind]. by eauto.
Qed.

(** What the header reader finds in a finalised block. *)
Lemma readhdr_finalize b b' b0 :
  wf_blk b -> finalize b = Ok b' ->
  b_type b ∈ [Tpivot; Tleaf; Tlog; Tdlist; Tarena; Tsuper] ->
  0 <= b_logh b' < 2 ^ 64 ->
  rd16 (b_buf b') 0 = Ok (b_type b) /\
  readhdr b0 (b_buf b') (b_bp b') (b_type b) =
    Ok (stored_blk b' (b_flag b0) (b_logh b0) (b_logp b0)).
Proof.
  intros [W1 W2 W3 W4 W5 W6 W7] Hf Ht Hlh.
  apply finalize_inv in Hf as (h & Eh & Ha & Hl & _ & Eb & Hbp & _).
  revert Eh Ha Eb Hlh Hl Hbp. generalize (b_logh b') (b_buf b') (b_bp b').
  intros logh buf bp Eh Ha -> Hlh Hl Hbp. cbn [b_bp].
  change Logspc with 16348 in W6.
  unfold header_bytes in Eh. set_unfold in Ht.
  assert (Hlog : forall ty, ty = Tlog \/ ty = Tdlist ->
    at_ buf 0 (PACK16 ty ++ PACK16 (b_logsz b) ++ PACK64 logh ++ bp_bytes (b_logp b)) ->
    rd16 buf 0 = Ok (u16 ty) /\ rd16 buf 2 = Ok (b_logsz b) /\ rd64 buf 4 = Ok logh /\
    exists p, rd buf 12 Ptrsz = Ok p /\ unpackbp p Ptrsz = Ok (b_logp b)).
  { intros ty _ H. apply at_app in H as [H0 H]. apply at_app in H as [H1 H].
    apply at_app in H as [H2 H3]. split; [by apply rd16_at|]. split.
    { rewrite (rd16_at buf 2 (b_logsz b) H1), u16_small; [done|lia]. }
    split; [by rewrite (rd64_at buf 4 logh H2), u64_small|].
    exists (bp_bytes (b_logp b)). split; [by apply (rd_at_n buf 12 Ptrsz)|].
    rewrite <- (app_nil_r (bp_bytes _)). by apply unpackbp_bytes. }
  assert (Hval : forall o x, at_ buf o (PACK16 x) -> -2 ^ 15 <= x < 2 ^ 15 ->
    exists y, rd16 buf o = Ok y /\ s16 y = x).
  { intros o x H Hx. exists (u16 x). split; [by apply rd16_at|].
    by rewrite s16_u16, s16_small. }
  destruct Ht as [E|[E|[E|[E|[E|[E|[]]]]]]]; rewrite E in Eh |- *;
    cbn -[PACK16 PACK64 bp_bytes app] in Eh; apply Ok_inj in Eh; subst h;
    unfold readhdr, stored_blk; cbn [b_type b_nval b_valsz b_nbuf b_bufsz b_logsz b_logh b_logp b_bp b_buf];
    rewrite ?E; cbn -[rd16 rd64 rd unpackbp s16].
  - apply at_app in Ha as [H0 Ha]. apply at_app in Ha as [H1 Ha].
    apply at_app in Ha as [H2 Ha]. apply at_app in Ha as [H3 H4].
    split; [by apply (rd16_at buf 0 Tpivot)|].
    destruct (Hval 2 _ H1 W2) as (y1 & -> & <-), (Hval 4 _ H2 W3) as (y2 & -> & <-),
      (Hval 6 _ H3 W4) as (y3 & -> & <-), (Hval 8 _ H4 W5) as (y4 & -> & <-). done.
  - apply at_app in Ha as [H0 Ha]. apply at_app in Ha as [H1 H2].
    split; [by apply (rd16_at buf 0 Tleaf)|].
    destruct (Hval 2 _ H1 W2) as (y1 & -> & <-), (Hval 4 _ H2 W3) as (y2 & -> & <-). done.
  - destruct (Hlog Tlog (or_introl eq_refl) Ha) as (H0 & -> & -> & p & -> & Hp).
    split; [done|]. cbn -[unpackbp]. by rewrite Hp.
  - destruct (Hlog Tdlist (or_intror eq_refl) Ha) as (H0 & -> & -> & p & -> & Hp).
    split; [done|]. cbn -[unpackbp]. by rewrite Hp.
  - split; [by apply (rd16_at buf 0 Tarena)|done].
  - split; [by apply (rd16_at buf 0 Tsuper)|done].
Qed.

Lemma zlen_header b logh h : header_bytes b logh = Ok h -> 0 <= zlen h <= 36.
Proof.
  unfold header_bytes. intros H.
  repeat (match type of H with (if ?c then _ else _) = _ => destruct c end;
    [apply Ok_inj in H; subst h; unfold bp_bytes; autorewrite with zlen; lia|]).
  done.
Qed.

(** The hash a reader computes is the one [finalize] stored. *)
Lemma blksums_finalize b b' flag lh lp :
  wf_blk b -> finalize b = Ok b' ->
  b_type b ∈ [Tpivot; Tleaf; Tlog; Tdlist; Tarena; Tsuper] ->
  exists x, blksums (stored_blk b' flag lh lp) (b_bp b') = Ok (x, x).
Proof.
  intros W Hf Ht. pose proof (finalize_inv _ _ Hf) as (h & Eh & _ & Hl & Hfr & Eb & _ & _ & Hhash & Hlog).
  assert (Hty : b_type b' = b_type b) by (rewrite Eb; done).
  assert (Hls : b_logsz b' = b_logsz b) by (rewrite Eb; done).
  unfold blksums, stored_blk. cbn [b_type b_buf b_logsz b_logh]. rewrite Hty, Hls.
  destruct ((b_type b =? Tlog) || (b_type b =? Tdlist)) eqn:El.
  - destruct Hlog as (body & Hrd & Hbh).
    { apply orb_true_iff in El as [?%Z.eqb_eq|?%Z.eqb_eq]; auto. }
    assert (Ha : at_ (b_buf b') Loghdsz body).
    { apply Hfr; [apply zlen_header in Eh; change Loghdsz with 36; lia|].
      apply rd_at. by rewrite (rd_zlen _ _ _ _ Hrd). }
    apply rd_at in Ha. rewrite (rd_zlen _ _ _ _ Hrd) in Ha. rewrite Ha. cbn [rbind].
    rewrite Hbh. cbn [rbind]. by eauto.
  - rewrite Hhash. cbn [rbind].
    destruct (blkhash_ok (b_buf b')) as (x & Ex & Hr); [rewrite Hl; apply W|].
    rewrite Hhash in Ex. injection Ex as ->. rewrite u64_small by done. by eauto.
Qed.

Lemma logh_range b b' :
  wf_blk b -> finalize b = Ok b' -> 0 <= b_logh b < 2 ^ 64 -> 0 <= b_logh b' < 2 ^ 64.
Proof.
  intros W Hf Hb. unfold finalize in Hf. bind_inv Hf as logh El. bind_inv Hf as h Eh.
  bind_inv Hf as buf Eb. bind_inv Hf as hash Ehs. injection Hf as <-. cbn [b_logh].
  destruct (_ || _); [|by injection El as <-].
  bind_inv El as body E. destruct (bufhash_ok body) as (x & Ex & Hr).
  rewrite (rd_zlen _ _ _ _ E) in Ex. rewrite Ex in El. by injection El as <-.
Qed.

(** The computation returns. *)
Definition succeeds {A} (r : res A) : Prop := match r with Ok _ => True | Err _ => False end.

(** What is on the device after [finalize] and [syncblk] is read back. *)
Lemma readblk_stored b b1 d bp b0 :
  wf_blk b -> 0 <= b_logh b < 2 ^ 64 ->
  b_type b ∈ [Tpivot; Tleaf; Tlog; Tdlist; Tarena; Tsuper] ->
  finalize b = Ok b1 -> d !! bp_addr (b_bp b) = Some (b_buf b1) -> bp_addr bp = bp_addr (b_bp b) ->
  readblk b0 bp 0 d = Ok (stored_blk b1 (b_flag b0) (b_logh b0) (b_logp b0)).
Proof.
  intros W Hlh Ht Hf Hd Hbp.
  pose proof (blksums_finalize _ _ (b_flag b0) (b_logh b0) (b_logp b0) W Hf Ht) as (x & Hx).
  unfold readblk, pread. rewrite Hbp, Hd.
  pose proof (finalize_inv _ _ Hf) as (h & _ & _ & Hl & _ & _ & Ha & _ & _).
  rewrite Hl, (wb_buf _ W). cbn [Z.eqb Pos.eqb rbind]. change (Z.land 0 GBraw =? 0) with true.
  destruct (readhdr_finalize b b1 b0 W Hf Ht (logh_range _ _ W Hf Hlh)) as [E1 E2].
  change (Blksz =? Blksz) with true. cbn [negb rbind]. rewrite E1. cbn [rbind].
  replace (s16 (b_type b)) with (b_type b).
  2:{ set_unfold in Ht. by destruct Ht as [->|[->|[->|[->|[->|[->|[]]]]]]]. }
  assert (E3 : readhdr b0 (b_buf b1) bp (b_type b) = readhdr b0 (b_buf b1) (b_bp b1) (b_type b)).
  { unfold readhdr. by rewrite Hbp, Ha. }
  rewrite E3, E2. cbn [rbind].
  assert (E4 : forall r, succeeds (blksums r bp) <-> succeeds (blksums r (b_bp b1))).
  { intros r. unfold blksums. destruct (_ || _); [done|]. by destruct (blkhash (b_buf r)). }
  destruct (blksums _ bp) as [[xh ck]|] eqn:E5.
  - cbn [rbind]. change (negb (Z.land (cnot 0) GBnochk =? 0)) with false. done.
  - exfalso. specialize (E4 (stored_blk b1 (b_flag b0) (b_logh b0) (b_logp b0))).
    rewrite E5, Hx in E4. by apply E4.
Qed.

(** ** Theorems *)

(** A block that is finalised and written reads back as it was: the
    header fields of its type survive, the bytes are those that were written,
    and the checksum the reader computes is the one that was stored. *)
Theorem readblk_syncblk b b1 b2 d d' b0 :
  wf_blk b -> 0 <= b_logh b < 2 ^ 64 -> 0 <= bp_addr (b_bp b) ->
  b_type b ∈ [Tpivot; Tleaf; Tlog; Tdlist; Tarena; Tsuper] ->
  finalize b = Ok b1 -> syncblk b1 d = Ok (b2, d') ->
  let r := stored_blk b1 (b_flag b0) (b_logh b0) (b_logp b0) in
  readblk b0 (b_bp b1) 0 d' = Ok r /\ exists x, blksums r (b_bp b1) = Ok (x, x).
Proof.
  intros W Hlh Had Ht Hf Hs r.
  pose proof (blksums_finalize _ _ (b_flag b0) (b_logh b0) (b_logp b0) W Hf Ht) as (x & Hx).
  split; [|by exists x]. unfold syncblk in Hs.
  destruct (checkflag _ _ _); [|done]. destruct (_ <=? _); [|done]. injection Hs as <- <-.
  pose proof (finalize_inv _ _ Hf) as (h & _ & _ & _ & _ & _ & Ha & _ & _).
  eapply readblk_stored; try done. by rewrite <- Ha, lookup_insert, decide_True by done.
Qed.

(** [readblk] accepts a block whatever its checksum and whatever the
    flags: the test is written [(!flg&GBnochk)], which C parses as
    [(!flg)&GBnochk], and that is always 0.  Corrupted data reaches the
    callers. *)
Theorem readblk_never_checks b bp flg d buf r xh ck :
  pread d (bp_addr bp) = Ok buf ->
  (let! ty := if negb (Z.land flg GBraw =? 0) then Ok Tdat
             else let! t := rd16 buf 0 in Ok (s16 t) in readhdr b buf bp ty) = Ok r ->
  blksums r bp = Ok (xh, ck) ->
  readblk b bp flg d = Ok r.
Proof.
  intros Hp Hh Hs. unfold readblk. rewrite Hp. cbn [rbind].
  bind_inv Hh as ty Et. rewrite Et. cbn [rbind]. rewrite Hh. cbn [rbind]. rewrite Hs. cbn [rbind].
  assert (Hc : (Z.land (cnot flg) GBnochk =? 0) = true) by (unfold cnot; by destruct (flg =? 0)).
  by rewrite Hc.
Qed.

(** ** Witnesses *)

Definition zero_log : list Z := PACK16 Tlog ++ replicate (Z.to_nat (Blksz - 2)) 0.
Definition blk0 : Blk := initblk blkz 0 0 Tlog.

Definition zero_read : Blk :=
  mkBlk Tlog 0 0 0 0 0 0 (mkBptr 0 0 0) (mkBptr 0 nohash (-1)) (b_flag blk0) zero_log.

(** A log block of zeros: the stored hash is 0, the right one is not. *)
Lemma readblk_never_checks_witness :
  exists ck, blksums zero_read (mkBptr 0 0 0) = Ok (0, ck) /\ ck <> 0 /\
    readblk blk0 (mkBptr 0 0 0) 0 {[0 := zero_log]} = Ok zero_read.
Proof.
  exists 3878237832255214895. split; [vm_compute; reflexivity|]. split; [done|].
  apply (readblk_never_checks blk0 (mkBptr 0 0 0) 0 {[0 := zero_log]} zero_log zero_read 0
    3878237832255214895);
    [vm_compute; reflexivity|vm_compute; reflexivity|vm_compute; reflexivity].
Defined.

Lemma readblk_syncblk_witness :
  exists b1 b2 d', finalize blk0 = Ok b1 /\ syncblk b1 ∅ = Ok (b2, d') /\
    readblk blk0 (b_bp b1) 0 d' = Ok (stored_blk b1 (b_flag blk0) (b_logh blk0) (b_logp blk0)).
Proof.
  assert (W : wf_blk blk0).
  { constructor; [exact zlen_zbuf|..]; try done; split; done. }
  assert (H1 : 0 <= b_logh blk0 < 2 ^ 64) by (split; done).
  assert (H2 : 0 <= bp_addr (b_bp blk0)) by done.
  assert (H3 : b_type blk0 ∈ [Tpivot; Tleaf; Tlog; Tdlist; Tarena; Tsuper]).
  { change (b_type blk0) with Tlog. set_unfold. tauto. }
  assert (H4 : b_type blk0 ∈ [Tdat; Tpivot; Tleaf; Tlog; Tdlist; Tarena; Tsuper]).
  { change (b_type blk0) with Tlog. set_unfold. tauto. }
  destruct (finalize_ok blk0) as (b1 & Hf); [exact zlen_zbuf|split; done|done|].
  pose proof (finalize_inv _ _ Hf) as (h & _ & _ & _ & _ & E & Ha & _).
  assert (Hfl : b_flag b1 = setflag (b_flag blk0) (Z.lor Bdirty Bfinal) 0) by by rewrite E.
  clear E. revert W H1 H2 H3 Hf Ha Hfl. generalize blk0. intros b W H1 H2 H3 Hf Ha Hfl.
  assert (Hs : exists b2 d', syncblk b1 ∅ = Ok (b2, d')).
  { unfold syncblk, checkflag. rewrite Ha, Hfl, (proj2 (Z.leb_le _ _) H2). 
    replace (Z.land _ _ =? _) with true; [by eauto|]. symmetry. apply Z.eqb_eq.
    unfold setflag. apply Z.bits_inj'. intros n Hn.
    rewrite Z.land_spec, !Z.lor_spec, Z.bits_0, orb_false_r.
    by destruct (Z.testbit Bfinal n); rewrite ?orb_true_r, ?andb_false_r. }
  destruct Hs as (b2 & d' & Hs). exists b1, b2, d'. split; [done|]. split; [done|].
  pose proof (readblk_syncblk b b1 b2 ∅ d' b W H1 H2 H3 Hf Hs) as [Hr _]. exact Hr.
Defined.
