(* ===== verification/Cache.v ===== *)
(** * The block cache (src/cache.c; [getblk], [holdblk], [dropblk] of src/blk.c)

    The blocks of [blkbuf] are a store indexed by their number.  A block is
    in at most one bucket of the hash table, chained through [hnext], when it
    is cached, and in the doubly linked LRU list when nobody holds it.  The
    pointer manipulations are translated as they are; [lru_ok] and [hash_ok]
    say which list and which buckets the pointers represent, and the
    operations are shown to act on those as their names say.

    The debug fields ([lasthold], [cached], [freed], [magic], ...) are left
    out, and a dereference of a bad pointer is [Eoob].  Every function runs
    under [lrulk]; [cstep] interleaves them. *)
From stdpp Require Import relations.
From S2P Require Import Prelude CInt Mem Data Hash Blk Io.

Record CBlk := mkCBlk {
  c_blk : Blk;
  c_ref : Z;
  c_next : option nat;      (** [cnext] *)
  c_prev : option nat;      (** [cprev] *)
  c_hnext : option nat }.   (** [hnext] *)

Record Cache := mkCache {
  blks : gmap nat CBlk;
  chead : option nat;
  ctail : option nat;
  bcache : list (option nat) }.

(** ** Field access *)

Definition deref (c : Cache) (p : nat) : res CBlk :=
  match blks c !! p with Some b => Ok b | None => Err Eoob end.

Definition upd (c : Cache) (p : nat) (f : CBlk -> CBlk) : res Cache :=
  let! b := deref c p in
  Ok (mkCache (<[p := f b]> (blks c)) (chead c) (ctail c) (bcache c)).

Definition set_next (n : option nat) (b : CBlk) : CBlk :=
  mkCBlk (c_blk b) (c_ref b) n (c_prev b) (c_hnext b).
Definition set_prev (n : option nat) (b : CBlk) : CBlk :=
  mkCBlk (c_blk b) (c_ref b) (c_next b) n (c_hnext b).
Definition set_hnext (n : option nat) (b : CBlk) : CBlk :=
  mkCBlk (c_blk b) (c_ref b) (c_next b) (c_prev b) n.
Definition add_ref (n : Z) (b : CBlk) : CBlk :=
  mkCBlk (c_blk b) (c_ref b + n) (c_next b) (c_prev b) (c_hnext b).
Definition set_blk (x : Blk) (b : CBlk) : CBlk :=
  mkCBlk x (c_ref b) (c_next b) (c_prev b) (c_hnext b).

Definition with_flag (x : Blk) (flag : Z) : Blk :=
  mkBlk (b_type x) (b_nval x) (b_valsz x) (b_nbuf x) (b_bufsz x) (b_logsz x) (b_logh x)
    (b_logp x) (b_bp x) flag (b_buf x).
Definition set_flag (flag : Z) (b : CBlk) : CBlk := set_blk (with_flag (c_blk b) flag) b.

Definition set_chead (c : Cache) (p : option nat) : Cache :=
  mkCache (blks c) p (ctail c) (bcache c).
Definition set_ctail (c : Cache) (p : option nat) : Cache :=
  mkCache (blks c) (chead c) p (bcache c).

Definition c_flag (b : CBlk) : Z := b_flag (c_blk b).
Definition c_addr (b : CBlk) : Z := bp_addr (b_bp (c_blk b)).

(** ** The LRU list *)

Definition lrudel (c : Cache) (p : nat) : res Cache :=
  let! b := deref c p in
  let c := if decide (chead c = Some p) then set_chead c (c_next b) else c in
  let c := if decide (ctail c = Some p) then set_ctail c (c_prev b) else c in
  let! c := match c_next b with Some n => upd c n (set_prev (c_prev b)) | None => Ok c end in
  let! c := match c_prev b with Some n => upd c n (set_next (c_next b)) | None => Ok c end in
  let! c := upd c p (set_next None) in
  upd c p (set_prev None).

Definition lrutop (c : Cache) (p : nat) : res Cache :=
  let! b := deref c p in
  assert! checkflag (c_flag b) 0 Bstatic in
  if negb (c_ref b =? 0) then Ok c else
  let! c := lrudel c p in
  let! c := match chead c with Some h => upd c h (set_prev (Some p)) | None => Ok c end in
  let c := match ctail c with None => set_ctail c (Some p) | Some _ => c end in
  let! c := upd c p (set_next (chead c)) in
  Ok (set_chead c (Some p)).

Definition lrubot (c : Cache) (p : nat) : res Cache :=
  let! b := deref c p in
  assert! checkflag (c_flag b) 0 Bstatic in
  if negb (c_ref b =? 0) then Ok c else
  let! c := lrudel c p in
  let! c := match ctail c with Some t => upd c t (set_next (Some p)) | None => Ok c end in
  let c := match chead c with None => set_chead c (Some p) | Some _ => c end in
  let! c := upd c p (set_prev (ctail c)) in
  Ok (set_ctail c (Some p)).

(** ** The hash table *)

(** [ihash(addr) % fs->cmax] *)
Definition bucket (n : nat) (addr : Z) : nat := Z.to_nat (ihash (u64 addr) mod Z.of_nat n).

Definition bkt (c : Cache) (addr : Z) : nat := bucket (length (bcache c)) addr.

Definition get_bucket (c : Cache) (h : nat) : res (option nat) :=
  match bcache c !! h with Some p => Ok p | None => Err Eoob end.
Definition set_bucket (c : Cache) (h : nat) (p : option nat) : Cache :=
  mkCache (blks c) (chead c) (ctail c) (<[h := p]> (bcache c)).

(** No chain is longer than the number of blocks. *)
Definition chain_fuel (c : Cache) : nat := S (size (blks c)).

(** The assertions of the loop in [cacheins]. *)
Fixpoint ins_check (fuel : nat) (c : Cache) (p : nat) (addr : Z) (bb : option nat) : res unit :=
  match bb, fuel with
  | None, _ => Ok tt
  | Some _, O => Err Efuel
  | Some q, S fuel' =>
      let! b := deref c q in
      assert! negb (bool_decide (p = q)) && negb (c_addr b =? addr) in
      ins_check fuel' c p addr (c_hnext b)
  end.

Definition cacheins (c : Cache) (p : nat) : res Cache :=
  let! b := deref c p in
  let h := bkt c (c_addr b) in
  assert! checkflag (c_flag b) 0 (Z.lor Bstatic Bcached) in
  let! c := upd c p (set_flag (setflag (c_flag b) Bcached 0)) in
  assert! bool_decide (c_hnext b = None) in
  let! bb := get_bucket c h in
  let! _ := ins_check (chain_fuel c) c p (c_addr b) bb in
  let! c := upd c p (set_hnext bb) in
  Ok (set_bucket c h (Some p)).

(** [prev] is the cell [*p]: the bucket itself or the [hnext] of a block. *)
Fixpoint cachedel_loop (fuel : nat) (c : Cache) (h : nat) (prev cur : option nat) (addr : Z)
  : res Cache :=
  match cur, fuel with
  | None, _ => Ok c
  | Some _, O => Err Efuel
  | Some q, S fuel' =>
      let! b := deref c q in
      if c_addr b =? addr then
        assert! checkflag (c_flag b) Bcached Bstatic in
        let! c := match prev with
                  | None => Ok (set_bucket c h (c_hnext b))
                  | Some r => upd c r (set_hnext (c_hnext b))
                  end in
        let! c := upd c q (set_hnext None) in
        upd c q (set_flag (setflag (c_flag b) 0 Bcached))
      else cachedel_loop fuel' c h (Some q) (c_hnext b) addr
  end.

Definition cachedel_lk (c : Cache) (addr : Z) : res Cache :=
  if addr =? -1 then Ok c else
  let h := bkt c addr in
  let! b := get_bucket c h in
  cachedel_loop (chain_fuel c) c h None b addr.

Definition cachedel (c : Cache) (addr : Z) : res Cache := cachedel_lk c addr.

Definition holdblk (c : Cache) (p : nat) : res Cache := upd c p (add_ref 1).

Fixpoint cacheget_loop (fuel : nat) (c : Cache) (cur : option nat) (addr : Z)
  : res (option nat * Cache) :=
  match cur, fuel with
  | None, _ => Ok (None, c)
  | Some _, O => Err Efuel
  | Some q, S fuel' =>
      let! b := deref c q in
      if c_addr b =? addr then
        let! c := holdblk c q in
        let! c := lrudel c q in
        Ok (Some q, c)
      else cacheget_loop fuel' c (c_hnext b) addr
  end.

Definition cacheget (c : Cache) (addr : Z) : res (option nat * Cache) :=
  let! b := get_bucket c (bkt c addr) in
  cacheget_loop (chain_fuel c) c b addr.

(** [None] when the list is empty: the code sleeps until [lrutop] or
    [lrubot] wakes it up. *)
Definition cachepluck (c : Cache) : res (option (nat * Cache)) :=
  match ctail c with
  | None => Ok None
  | Some p =>
      let! b := deref c p in
      assert! c_ref b =? 0 in
      let! c := if checkflag (c_flag b) Bcached 0 then cachedel_lk c (c_addr b) else Ok c in
      let! b := deref c p in
      assert! checkflag (c_flag b) 0 Bcached in
      let! c := lrudel c p in
      let! c := upd c p (set_flag 0) in
      let! c := upd c p (set_hnext None) in
      let! c := holdblk c p in
      Ok (Some (p, c))
  end.

(** ** Holding and dropping *)

Definition dropblk (c : Cache) (p : option nat) : res Cache :=
  match p with
  | None => Ok c
  | Some p =>
      let! c := upd c p (add_ref (-1)) in
      let! b := deref c p in
      if negb (c_ref b =? 0) then Ok c
      else if checkflag (c_flag b) Bfreed 0 then lrubot c p
      else lrutop c p
  end.

(** [getblk]: the inner result is the block or the error it raises, with
    the state it leaves; [None] when [cachepluck] has to wait. *)
Definition getblk (c : Cache) (d : Disk) (bp : Bptr) (flg : Z)
  : res (option (Cache * res nat)) :=
  let! (o, c) := cacheget c (bp_addr bp) in
  match o with
  | Some p =>
      let! b := deref c p in
      assert! checkflag (c_flag b) 0 Bfreed in
      Ok (Some (c, Ok p))
  | None =>
      let! r := cachepluck c in
      match r with
      | None => Ok None
      | Some (p, c) =>
          let! b := deref c p in
          match readblk (c_blk b) bp flg d with
          | Err e => Ok (Some (c, Err e))
          | Ok x =>
              let x := mkBlk (b_type x) (b_nval x) (b_valsz x) (b_nbuf x) (b_bufsz x)
                         (b_logsz x) (b_logh x) (b_logp x)
                         (mkBptr (bp_addr (b_bp x)) (bp_hash (b_bp x)) (bp_gen bp))
                         (b_flag x) (b_buf x) in
              let! c := upd c p (set_blk x) in
              let! c := cacheins c p in
              Ok (Some (c, Ok p))
          end
      end
  end.

(** ** What the pointers represent *)

Definition links (c : Cache) : gmap nat (option nat * option nat) :=
  (fun b => (c_prev b, c_next b)) <$> blks c.

(** The list of the LRU, most recently dropped first. *)
Record lru_ok (lk : gmap nat (option nat * option nat)) (hd tl : option nat) (L : list nat)
  : Prop := {
  lo_head : hd = head L;
  lo_tail : tl = last L;
  lo_nodup : NoDup L;
  lo_in : forall A q B, L = A ++ q :: B -> lk !! q = Some (last A, head B);
  lo_out : forall q x, lk !! q = Some x -> q ∉ L -> x = (None, None) }.

Definition lru_is (c : Cache) (L : list nat) : Prop := lru_ok (links c) (chead c) (ctail c) L.

(** The list without a block. *)
Definition lrm (p : nat) (L : list nat) : list nat := filter (fun q => q ≠ p) L.

(** Everything but the LRU pointers. *)
Definition strip (b : CBlk) : CBlk := set_prev None (set_next None b).

Definition lsame (c c' : Cache) : Prop :=
  strip <$> blks c' = strip <$> blks c /\ bcache c' = bcache c.

Lemma lrm_notin p L : p ∉ L -> lrm p L = L.
Proof.
  intros H. unfold lrm. induction L as [|q L IH]; [done|].
  apply not_elem_of_cons in H as [H1 H2]. rewrite filter_cons_True by congruence.
  by rewrite IH.
Qed.

Lemma lrm_split p A B : NoDup (A ++ p :: B) -> lrm p (A ++ p :: B) = A ++ B.
Proof.
  intros H. apply NoDup_app in H as (_ & HA & HB). apply NoDup_cons in HB as [HB _].
  unfold lrm. rewrite filter_app, filter_cons_False by (intros E; by apply E).
  f_equal; [apply (lrm_notin p A)|by apply (lrm_notin p B)].
  intros Hp. apply (HA p Hp). by left.
Qed.

Lemma elem_of_lrm p q L : q ∈ lrm p L <-> q ≠ p /\ q ∈ L.
Proof. unfold lrm. rewrite list_elem_of_filter. done. Qed.

Lemma NoDup_lrm p L : NoDup L -> NoDup (lrm p L).
Proof. apply NoDup_filter. Qed.

(** The decompositions of an append. *)
Lemma app_split {A} (A1 B1 A2 B2 : list A) (q : A) :
  A2 ++ q :: B2 = A1 ++ B1 ->
  (exists m, A1 = A2 ++ q :: m /\ B2 = m ++ B1) \/
  (exists m, B1 = m ++ q :: B2 /\ A2 = A1 ++ m).
Proof.
  intros E. apply app_eq_app in E as (l & [[-> E]|[-> E]]).
  - right. exists l. split; [done|done].
  - destruct l as [|x l].
    + right. exists []. cbn in E. subst B1. by rewrite !app_nil_r.
    + injection E as <- ->. left. by exists l.
Qed.

Lemma lsame_refl c : lsame c c.
Proof. done. Qed.

Lemma lsame_trans c1 c2 c3 : lsame c1 c2 -> lsame c2 c3 -> lsame c1 c3.
Proof. intros [H1 H2] [H3 H4]. split; congruence. Qed.

Lemma lsame_lookup c c' q :
  lsame c c' -> strip <$> (blks c' !! q) = strip <$> (blks c !! q).
Proof. intros [H _]. rewrite <- !lookup_fmap. by rewrite H. Qed.

Lemma links_lookup c q : links c !! q = (fun b => (c_prev b, c_next b)) <$> (blks c !! q).
Proof. unfold links. by rewrite lookup_fmap. Qed.

Lemma upd_ok c p f b :
  blks c !! p = Some b ->
  upd c p f = Ok (mkCache (<[p := f b]> (blks c)) (chead c) (ctail c) (bcache c)).
Proof. intros H. unfold upd, deref. by rewrite H. Qed.

Lemma deref_ok c p b : blks c !! p = Some b -> deref c p = Ok b.
Proof. intros H. unfold deref. by rewrite H. Qed.

(** An update of the pointers of the LRU list. *)
Lemma upd_links c p f b :
  blks c !! p = Some b -> (forall b, strip (f b) = strip b) ->
  exists c', upd c p f = Ok c' /\ lsame c c' /\ chead c' = chead c /\ ctail c' = ctail c /\
    links c' = <[p := (c_prev (f b), c_next (f b))]> (links c).
Proof.
  intros H Hf. rewrite (upd_ok c p f b H). eexists. split; [done|].
  split; [|split; [done|split; [done|]]].
  - split; [|done]. cbn. rewrite fmap_insert, Hf. apply insert_id.
    by rewrite lookup_fmap, H.
  - unfold links. cbn. by rewrite fmap_insert.
Qed.

Lemma blks_of_links c p x :
  links c !! p = Some x -> exists b, blks c !! p = Some b /\ x = (c_prev b, c_next b).
Proof.
  rewrite links_lookup. intros (b & ? & ->)%fmap_Some. eauto.
Qed.

Lemma lru_cases c L p b :
  lru_is c L -> blks c !! p = Some b ->
  ((p ∉ L) /\ c_prev b = None /\ c_next b = None) \/
  (exists A B, L = A ++ p :: B /\ c_prev b = last A /\ c_next b = head B).
Proof.
  intros H Hb. pose proof (links_lookup c p) as E. rewrite Hb in E. cbn in E.
  destruct (decide (p ∈ L)) as [Hin|Hout].
  - right. apply list_elem_of_split in Hin as (A & B & ->). exists A, B.
    rewrite (lo_in _ _ _ _ H A p B eq_refl) in E. injection E as -> ->. done.
  - left. pose proof (lo_out _ _ _ _ H p _ E Hout) as E2. injection E2 as -> ->. done.
Qed.

(** One optional neighbour. *)
Lemma upd_opt c (o : option nat) f :
  (forall p, o = Some p -> is_Some (blks c !! p)) -> (forall b, strip (f b) = strip b) ->
  exists c', (match o with Some n => upd c n f | None => Ok c end) = Ok c' /\
    lsame c c' /\ chead c' = chead c /\ ctail c' = ctail c /\
    forall q, links c' !! q =
      if decide (o = Some q) then (fun b => (c_prev (f b), c_next (f b))) <$> (blks c !! q)
      else links c !! q.
Proof.
  intros Ho Hf. destruct o as [p|].
  - destruct (Ho p eq_refl) as [b Hb].
    destruct (upd_links c p f b Hb Hf) as (c' & E & Hs & H1 & H2 & H3).
    exists c'. split; [done|]. split; [done|]. split; [done|]. split; [done|].
    intros q. rewrite H3. destruct (decide (Some p = Some q)) as [[= ->]|Hne].
    + by rewrite lookup_insert, decide_True, Hb.
    + by rewrite lookup_insert_ne by congruence.
  - exists c. split; [done|]. split; [done|]. split; [done|]. split; [done|].
    intros q. by rewrite decide_False.
Qed.

Lemma lru_neighbours c A p B :
  lru_is c (A ++ p :: B) ->
  (forall n, head B = Some n -> is_Some (blks c !! n)) /\
  (forall n, last A = Some n -> is_Some (blks c !! n)).
Proof.
  intros H. split; intros n Hn.
  - destruct B as [|n' B]; [done|]. injection Hn as ->.
    pose proof (lo_in _ _ _ _ H (A ++ [p]) n B ltac:(by rewrite <- app_assoc)) as E.
    apply blks_of_links in E as (b & ? & _). eauto.
  - apply last_Some in Hn as (A' & ->).
    pose proof (lo_in _ _ _ _ H A' n (p :: B) ltac:(by rewrite <- app_assoc)) as E.
    apply blks_of_links in E as (b & ? & _). eauto.
Qed.

Lemma last_in {A} (l : list A) q : last l = Some q -> q ∈ l.
Proof. intros (l' & ->)%last_Some. apply elem_of_app. right. by left. Qed.

Lemma head_in {A} (l : list A) q : head l = Some q -> q ∈ l.
Proof. destruct l; [done|]. intros [= ->]. by left. Qed.

(** [lrudel] on the pointers of the list. *)
Lemma lru_ok_delete lk lk' hd tl A p B :
  lru_ok lk hd tl (A ++ p :: B) ->
  (forall q, lk' !! q =
     if decide (q = p) then Some (None, None)
     else if decide (last A = Some q) then (fun x => (x.1, head B)) <$> (lk !! q)
     else if decide (head B = Some q) then (fun x => (last A, x.2)) <$> (lk !! q)
     else lk !! q) ->
  lru_ok lk' (head (A ++ B)) (last (A ++ B)) (A ++ B).
Proof.
  intros [_ _ Hnd Hin Hout] Hlk.
  pose proof Hnd as (HA & HAB & HB)%NoDup_app. apply NoDup_cons in HB as [HpB HB].
  assert (HpA : p ∉ A) by (intros Hp; apply (HAB p Hp); by left).
  assert (HAB' : forall x, x ∈ A -> x ∉ B) by (intros x Hx Hx'; apply (HAB x Hx); by right).
  constructor; [done|done| | |].
  - apply NoDup_app. done.
  - intros A2 q B2 E. rewrite Hlk. symmetry in E.
    apply app_split in E as [(m & -> & ->)|(m & -> & ->)].
    + assert (Hq : q ∈ A2 ++ q :: m) by (apply elem_of_app; right; by left).
      rewrite decide_False by (intros ->; done).
      pose proof (Hin A2 q (m ++ p :: B) ltac:(by rewrite <- app_assoc)) as Hq'.
      rewrite Hq'. rewrite last_app. destruct m as [|x m].
      * cbn. by rewrite decide_True.
      * assert (Hl : last (q :: x :: m) = last (x :: m)) by done. rewrite Hl.
        rewrite decide_False.
        2:{ intros E. apply NoDup_app in HA as (_ & _ & HA). apply NoDup_cons in HA as [HA _].
            apply HA. destruct (last (x :: m)) eqn:E2; [|by apply last_None in E2].
            injection E as ->. by apply last_in. }
        rewrite decide_False; [done|]. intros E. apply (HAB' q Hq).
        by apply head_in.
    + assert (Hq : q ∈ m ++ q :: B2) by (apply elem_of_app; right; by left).
      rewrite decide_False by (intros ->; done).
      pose proof (Hin (A ++ p :: m) q B2 ltac:(by rewrite <- app_assoc)) as Hq'.
      rewrite Hq'. rewrite decide_False.
      2:{ intros E. apply (HAB' q); [|done]. by apply last_in. }
      destruct m as [|x m]; cbn [head app].
      * rewrite decide_True by done. cbn. by rewrite app_nil_r.
      * rewrite decide_False.
        2:{ intros [= ->]. apply NoDup_cons in HB as [HB _]. apply HB.
            apply elem_of_app. right. by left. }
        do 2 f_equal. rewrite !last_app. cbn [last]. by destruct m.
  - intros q x Hx Hq. rewrite Hlk in Hx.
    destruct (decide (q = p)) as [->|Hne]; [by injection Hx as <-|].
    assert (HqA : q ∉ A) by (intros Ha; apply Hq, elem_of_app; by left).
    assert (HqB : q ∉ B) by (intros Ha; apply Hq, elem_of_app; by right).
    rewrite decide_False in Hx.
    2:{ intros E. by apply HqA, last_in. }
    rewrite decide_False in Hx.
    2:{ intros E. by apply HqB, head_in. }
    apply (Hout q x Hx). rewrite elem_of_app. intros [?|[->|?]%elem_of_cons]; done.
Qed.

Lemma lru_in_blks c L p : lru_is c L -> p ∈ L -> is_Some (blks c !! p).
Proof.
  intros H (A & B & ->)%list_elem_of_split.
  pose proof (lo_in _ _ _ _ H A p B eq_refl) as E.
  apply blks_of_links in E as (b & ? & _). eauto.
Qed.

(** The ends of the list after the first two tests of [lrudel]. *)
Definition lrudel_ends (c : Cache) (p : nat) (b : CBlk) : Cache :=
  mkCache (blks c) (if decide (chead c = Some p) then c_next b else chead c)
    (if decide (ctail c = Some p) then c_prev b else ctail c) (bcache c).

Lemma lrudel_unfold c p b :
  blks c !! p = Some b ->
  lrudel c p =
    let! c1 := match c_next b with
               | Some n => upd (lrudel_ends c p b) n (set_prev (c_prev b))
               | None => Ok (lrudel_ends c p b) end in
    let! c2 := match c_prev b with Some n => upd c1 n (set_next (c_next b)) | None => Ok c1 end in
    let! c3 := upd c2 p (set_next None) in upd c3 p (set_prev None).
Proof.
  intros Hb. unfold lrudel. rewrite (deref_ok c p b Hb). cbn [rbind].
  unfold lrudel_ends, set_chead, set_ctail.
  destruct (decide (chead c = Some p)); cbn; destruct (decide (ctail c = Some p)); done || by destruct c.
Qed.

(** The last two assignments. *)
Lemma clear_links c p b :
  blks c !! p = Some b ->
  exists c', (let! c3 := upd c p (set_next None) in upd c3 p (set_prev None)) = Ok c' /\
    lsame c c' /\ chead c' = chead c /\ ctail c' = ctail c /\
    links c' = <[p := (None, None)]> (links c).
Proof.
  intros Hb.
  destruct (upd_links c p (set_next None) b Hb ltac:(done)) as (c3 & E3 & S3 & H3 & T3 & L3).
  rewrite E3. cbn [rbind].
  assert (Hp3 : exists b3, blks c3 !! p = Some b3 /\ c_next b3 = None).
  { assert (E : links c3 !! p = Some (c_prev b, None)).
    { rewrite L3, lookup_insert, decide_True by done. done. }
    apply blks_of_links in E as (b3 & ? & [= E1 E2]). exists b3. split; congruence. }
  destruct Hp3 as (b3 & Hb3 & En3).
  destruct (upd_links c3 p (set_prev None) b3 Hb3 ltac:(done)) as (c4 & E4 & S4 & H4 & T4 & L4).
  exists c4. split; [done|]. split; [eauto using lsame_trans|]. split; [congruence|].
  split; [congruence|]. rewrite L4, L3. cbn. by rewrite insert_insert, decide_True, En3.
Qed.

Lemma lrudel_out c L p b :
  lru_is c L -> blks c !! p = Some b -> p ∉ L ->
  exists c', lrudel c p = Ok c' /\ lsame c c' /\ lru_is c' L.
Proof.
  intros H Hb Hout. rewrite (lrudel_unfold c p b Hb).
  destruct (lru_cases c L p b H Hb) as [(_ & Ep & En)|(A & B & -> & _)].
  2:{ exfalso. apply Hout, elem_of_app. right. by left. }
  rewrite Ep, En. cbn [rbind].
  destruct (clear_links (lrudel_ends c p b) p b Hb) as (c4 & E4 & S4 & H4 & T4 & L4).
  exists c4. split; [done|]. split; [exact S4|].
  assert (Hl4 : links c4 = links c).
  { rewrite L4. change (links (lrudel_ends c p b)) with (links c).
    apply insert_id. rewrite links_lookup, Hb. cbn. by rewrite Ep, En. }
  unfold lru_is. rewrite Hl4, H4, T4. cbn.
  rewrite !decide_False; [done| |].
  - rewrite (lo_tail _ _ _ _ H). intros E. by apply Hout, last_in.
  - rewrite (lo_head _ _ _ _ H). intros E. by apply Hout, head_in.
Qed.

(** The ends when the block is in the list. *)
Lemma lrudel_ends_in c A B p b :
  lru_is c (A ++ p :: B) -> c_prev b = last A -> c_next b = head B ->
  chead (lrudel_ends c p b) = head (A ++ B) /\ ctail (lrudel_ends c p b) = last (A ++ B).
Proof.
  intros H Ep En. pose proof (lo_nodup _ _ _ _ H) as Hnd. cbn. split.
  - rewrite (lo_head _ _ _ _ H), En. destruct A as [|y A]; cbn.
    + by rewrite decide_True.
    + rewrite decide_False; [done|]. intros [= ->]. apply NoDup_cons in Hnd as [Hnd _].
      apply Hnd, elem_of_app. right. by left.
  - rewrite (lo_tail _ _ _ _ H), Ep. rewrite !last_app. destruct B as [|y B].
    + cbn. rewrite decide_True by done. by destruct (last A).
    + assert (El : last (p :: y :: B) = last (y :: B)) by done. rewrite El.
      rewrite decide_False; [by destruct (last (y :: B))|].
      destruct (last (y :: B)) eqn:E; [|by apply last_None in E]. intros [= ->].
      apply NoDup_app in Hnd as (_ & _ & Hnd). apply NoDup_cons in Hnd as [Hnd _].
      by apply Hnd, last_in.
Qed.

Lemma lrudel_in c A B p b :
  lru_is c (A ++ p :: B) -> blks c !! p = Some b ->
  exists c', lrudel c p = Ok c' /\ lsame c c' /\ lru_is c' (A ++ B).
Proof.
  intros H Hb. rewrite (lrudel_unfold c p b Hb).
  pose proof (lo_in _ _ _ _ H A p B eq_refl) as Hl. rewrite links_lookup, Hb in Hl.
  injection Hl as Ep En.
  pose proof (lru_neighbours c A p B H) as [HnB HnA].
  destruct (lrudel_ends_in c A B p b H Ep En) as [CH2 CT2]. rewrite Ep, En.
  set (c2 := lrudel_ends c p b) in *.
  assert (S2 : lsame c c2) by done.
  assert (Bq : forall q, links c2 !! q = links c !! q) by done.
  destruct (upd_opt c2 (head B) (set_prev (last A)) HnB ltac:(done)) as (c3 & E3 & S3 & H3 & T3 & L3).
  rewrite E3. cbn [rbind].
  assert (Hdom : forall c', lsame c c' -> forall x, is_Some (blks c !! x) -> is_Some (blks c' !! x)).
  { intros c' Hs x [y Hy]. pose proof (lsame_lookup c c' x Hs) as E.
    rewrite Hy in E. destruct (blks c' !! x); [eauto|done]. }
  destruct (upd_opt c3 (last A) (set_next (head B))) as (c4 & E4 & S4 & H4 & T4 & L4);
    [intros; eapply Hdom; eauto using lsame_trans|done|].
  rewrite E4. cbn [rbind].
  destruct (Hdom c4 (lsame_trans _ _ _ S2 (lsame_trans _ _ _ S3 S4)) p ltac:(eauto)) as [b4 Hb4].
  destruct (clear_links c4 p b4 Hb4) as (c6 & E6 & S6 & H6 & T6 & L6).
  exists c6. split; [done|]. split; [eauto 10 using lsame_trans|].
  unfold lru_is. rewrite H6, T6, H4, T4, H3, T3, CH2, CT2.
  eapply lru_ok_delete; [exact H|]. intros q. rewrite L6.
  destruct (decide (q = p)) as [->|Hne].
  { rewrite lookup_insert. by rewrite decide_True. }
  rewrite lookup_insert_ne by congruence.
  pose proof (links_lookup c q) as Lq.
  pose proof (lo_nodup _ _ _ _ H) as (_ & Hdis & _)%NoDup_app.
  rewrite L4. destruct (decide (last A = Some q)) as [EA|EA].
  - assert (Hq3 : links c3 !! q = links c !! q).
    { rewrite L3, decide_False; [done|]. intros EB. apply (Hdis q); [by apply last_in|].
      right. by apply head_in. }
    rewrite links_lookup in Hq3. rewrite Lq in Hq3 |- *.
    destruct (blks c3 !! q) as [x3|], (blks c !! q) as [x|]; try done.
    cbn in *. by injection Hq3 as -> _.
  - rewrite L3. destruct (decide (head B = Some q)) as [EB|EB]; [|by rewrite Bq].
    change (blks c2) with (blks c). rewrite Lq. by destruct (blks c !! q).
Qed.

(** Unlinking a block removes it from the list. *)
Lemma lrudel_ok c L p b :
  lru_is c L -> blks c !! p = Some b ->
  exists c', lrudel c p = Ok c' /\ lsame c c' /\ lru_is c' (lrm p L).
Proof.
  intros H Hb. destruct (decide (p ∈ L)) as [(A & B & ->)%list_elem_of_split|Hout].
  - rewrite lrm_split by apply (lo_nodup _ _ _ _ H). eauto using lrudel_in.
  - rewrite lrm_notin by done. eauto using lrudel_out.
Qed.

(** The pointers after an insertion at either end. *)
Lemma lru_ok_push lk lk' hd tl p L :
  lru_ok lk hd tl L -> p ∉ L ->
  (forall q, lk' !! q =
     if decide (q = p) then Some (None, head L)
     else if decide (head L = Some q) then (fun x => (Some p, x.2)) <$> (lk !! q)
     else lk !! q) ->
  lru_ok lk' (Some p) (match last L with None => Some p | t => t end) (p :: L).
Proof.
  intros [_ _ Hnd Hin Hout] Hp Hlk. constructor; [done| | | |].
  - destruct L as [|y L]; [done|]. change (last (p :: y :: L)) with (last (y :: L)).
    destruct (last (y :: L)) eqn:E; [done|by apply last_None in E].
  - by apply NoDup_cons.
  - intros A q B E. rewrite Hlk. destruct A as [|x A].
    + injection E as <- <-. by rewrite decide_True.
    + injection E as <- ->. rewrite decide_False.
      2:{ intros ->. apply Hp, elem_of_app. right. by left. }
      rewrite (Hin A q B eq_refl). destruct A as [|y A].
      * cbn. by rewrite decide_True.
      * cbn [head app]. rewrite decide_False; [done|]. intros [= ->].
        apply NoDup_cons in Hnd as [Hnd _]. apply Hnd, elem_of_app. right. by left.
  - intros q x Hx Hq. apply not_elem_of_cons in Hq as [Hne Hq]. rewrite Hlk in Hx.
    rewrite decide_False in Hx by done. rewrite decide_False in Hx.
    2:{ intros E. by apply Hq, head_in. }
    eauto.
Qed.

Lemma lru_ok_append lk lk' hd tl p L :
  lru_ok lk hd tl L -> p ∉ L ->
  (forall q, lk' !! q =
     if decide (q = p) then Some (last L, None)
     else if decide (last L = Some q) then (fun x => (x.1, Some p)) <$> (lk !! q)
     else lk !! q) ->
  lru_ok lk' (match head L with None => Some p | h => h end) (Some p) (L ++ [p]).
Proof.
  intros [_ _ Hnd Hin Hout] Hp Hlk. constructor.
  - by destruct L.
  - by rewrite last_snoc.
  - apply NoDup_app. split; [done|]. split; [|apply NoDup_singleton].
    intros x Hx ->%list_elem_of_singleton. done.
  - intros A q B E. rewrite Hlk. symmetry in E.
    apply app_split in E as [(m & -> & ->)|(m & E & ->)].
    + rewrite decide_False.
      2:{ intros ->. apply Hp, elem_of_app. right. by left. }
      rewrite (Hin A q m eq_refl). destruct m as [|y m].
      * rewrite last_snoc. by rewrite decide_True.
      * assert (El : last (A ++ q :: y :: m) = last (y :: m)).
        { rewrite last_app. change (last (q :: y :: m)) with (last (y :: m)).
          destruct (last (y :: m)) eqn:E; [done|by apply last_None in E]. }
        rewrite El, decide_False; [done|]. intros E%last_in.
        apply NoDup_app in Hnd as (_ & _ & Hnd). apply NoDup_cons in Hnd as [Hnd _]. done.
    + destruct m as [|y [|]]; try discriminate. injection E as <- <-.
      by rewrite decide_True, app_nil_r.
  - intros q x Hx Hq. apply not_elem_of_app in Hq as [Hq Hne].
    apply not_elem_of_cons in Hne as [Hne _]. rewrite Hlk in Hx.
    rewrite decide_False in Hx by done. rewrite decide_False in Hx.
    2:{ intros E. by apply Hq, last_in. }
    eauto.
Qed.

Lemma lsame_is_Some c c' q : lsame c c' -> is_Some (blks c !! q) -> is_Some (blks c' !! q).
Proof.
  intros Hs [y Hy]. pose proof (lsame_lookup c c' q Hs) as E.
  rewrite Hy in E. destruct (blks c' !! q); [eauto|done].
Qed.

Lemma lru_out_links c L p : lru_is c L -> is_Some (blks c !! p) -> p ∉ L ->
  links c !! p = Some (None, None).
Proof.
  intros H [b Hb] Hp. pose proof (links_lookup c p) as E. rewrite Hb in E.
  rewrite E. cbn. f_equal. eapply (lo_out _ _ _ _ H); [|done]. exact E.
Qed.

(** A block whose last holder leaves goes to the top of the LRU, out of its
    former place. *)
Lemma lrutop_ok c L p b :
  lru_is c L -> blks c !! p = Some b -> checkflag (c_flag b) 0 Bstatic = true -> c_ref b = 0 ->
  exists c', lrutop c p = Ok c' /\ lsame c c' /\ lru_is c' (p :: lrm p L).
Proof.
  intros H Hb Hf Hr. unfold lrutop. rewrite (deref_ok c p b Hb). cbn [rbind].
  rewrite Hf, Hr. cbn [Z.eqb negb].
  destruct (lrudel_ok c L p b H Hb) as (c1 & E1 & S1 & H1). rewrite E1. cbn [rbind].
  assert (Hp : p ∉ lrm p L) by (rewrite elem_of_lrm; tauto).
  assert (Hhd : chead c1 = head (lrm p L)) by apply (lo_head _ _ _ _ H1).
  assert (Htl : ctail c1 = last (lrm p L)) by apply (lo_tail _ _ _ _ H1).
  rewrite Hhd. destruct (upd_opt c1 (head (lrm p L)) (set_prev (Some p))) as (c2 & E2 & S2 & H2 & T2 & L2);
    [intros q Hq%head_in; by eapply lru_in_blks|done|].
  rewrite E2. cbn [rbind]. rewrite T2, Htl.
  set (c3 := match last (lrm p L) with Some _ => c2 | None => _ end).
  assert (Hc3 : blks c3 = blks c2 /\ bcache c3 = bcache c2 /\ chead c3 = chead c2 /\
    ctail c3 = match last (lrm p L) with None => Some p | t => t end).
  { unfold c3. destruct (last (lrm p L)) eqn:E; [|done]. by rewrite T2, Htl. }
  destruct Hc3 as (B3 & BC3 & H3 & T3). clearbody c3. rewrite H3, H2, Hhd.
  assert (Hpb : is_Some (blks c3 !! p)).
  { rewrite B3. eapply lsame_is_Some; [exact (lsame_trans _ _ _ S1 S2)|eauto]. }
  destruct Hpb as [b3 Hb3].
  destruct (upd_links c3 p (set_next (head (lrm p L))) b3 Hb3 ltac:(done)) as (c4 & E4 & S4 & H4 & T4 & L4).
  rewrite E4. cbn [rbind]. eexists. split; [done|]. split.
  { destruct S4 as [S4 S4']. destruct (lsame_trans _ _ _ S1 S2) as [S5 S5'].
    split; cbn; [rewrite S4, B3; done|congruence]. }
  unfold lru_is. cbn. rewrite T4, T3.
  apply (lru_ok_push (links c1) (links c4) (chead c1) (ctail c1)); [done|done|].
  intros q. rewrite L4.
  assert (Eq : forall q, links c3 !! q = links c2 !! q) by (intros; unfold links; by rewrite B3).
  assert (Hpl : links c3 !! p = Some (None, None)).
  { rewrite Eq, L2, decide_False; [|by intros Hq%head_in].
    eapply lru_out_links; [done| |done]. by eapply lsame_is_Some. }
  destruct (decide (q = p)) as [->|Hne].
  - rewrite lookup_insert, decide_True by done.
    rewrite links_lookup, Hb3 in Hpl. injection Hpl as E _. cbn. by rewrite E.
  - rewrite lookup_insert_ne, Eq, L2 by congruence.
    destruct (decide (head (lrm p L) = Some q)); [|done].
    rewrite links_lookup. by destruct (blks c1 !! q).
Qed.

(** ... and to the bottom, for early reuse, when it was freed. *)
Lemma lrubot_ok c L p b :
  lru_is c L -> blks c !! p = Some b -> checkflag (c_flag b) 0 Bstatic = true -> c_ref b = 0 ->
  exists c', lrubot c p = Ok c' /\ lsame c c' /\ lru_is c' (lrm p L ++ [p]).
Proof.
  intros H Hb Hf Hr. unfold lrubot. rewrite (deref_ok c p b Hb). cbn [rbind].
  rewrite Hf, Hr. cbn [Z.eqb negb].
  destruct (lrudel_ok c L p b H Hb) as (c1 & E1 & S1 & H1). rewrite E1. cbn [rbind].
  assert (Hp : p ∉ lrm p L) by (rewrite elem_of_lrm; tauto).
  assert (Hhd : chead c1 = head (lrm p L)) by apply (lo_head _ _ _ _ H1).
  assert (Htl : ctail c1 = last (lrm p L)) by apply (lo_tail _ _ _ _ H1).
  rewrite Htl. destruct (upd_opt c1 (last (lrm p L)) (set_next (Some p))) as (c2 & E2 & S2 & H2 & T2 & L2);
    [intros q Hq%last_in; by eapply lru_in_blks|done|].
  rewrite E2. cbn [rbind]. rewrite H2, Hhd.
  set (c3 := match head (lrm p L) with Some _ => c2 | None => _ end).
  assert (Hc3 : blks c3 = blks c2 /\ bcache c3 = bcache c2 /\ ctail c3 = ctail c2 /\
    chead c3 = match head (lrm p L) with None => Some p | t => t end).
  { unfold c3. destruct (head (lrm p L)) eqn:E; [|done]. by rewrite H2, Hhd. }
  destruct Hc3 as (B3 & BC3 & T3 & H3). clearbody c3. rewrite T3, T2, Htl.
  assert (Hpb : is_Some (blks c3 !! p)).
  { rewrite B3. eapply lsame_is_Some; [exact (lsame_trans _ _ _ S1 S2)|eauto]. }
  destruct Hpb as [b3 Hb3].
  destruct (upd_links c3 p (set_prev (last (lrm p L))) b3 Hb3 ltac:(done)) as (c4 & E4 & S4 & H4 & T4 & L4).
  rewrite E4. cbn [rbind]. eexists. split; [done|]. split.
  { destruct S4 as [S4 S4']. destruct (lsame_trans _ _ _ S1 S2) as [S5 S5'].
    split; cbn; [rewrite S4, B3; done|congruence]. }
  unfold lru_is. cbn. rewrite H4, H3.
  apply (lru_ok_append (links c1) (links c4) (chead c1) (ctail c1)); [done|done|].
  intros q. rewrite L4.
  assert (Eq : forall q, links c3 !! q = links c2 !! q) by (intros; unfold links; by rewrite B3).
  assert (Hpl : links c3 !! p = Some (None, None)).
  { rewrite Eq, L2, decide_False; [|by intros Hq%last_in].
    eapply lru_out_links; [done| |done]. by eapply lsame_is_Some. }
  destruct (decide (q = p)) as [->|Hne].
  - rewrite lookup_insert, decide_True by done.
    rewrite links_lookup, Hb3 in Hpl. injection Hpl as _ E. cbn. by rewrite E.
  - rewrite lookup_insert_ne, Eq, L2 by congruence.
    destruct (decide (last (lrm p L) = Some q)); [|done].
    rewrite links_lookup. by destruct (blks c1 !! q).
Qed.

(** ** Flag bits *)

Lemma checkflag_iff f s c :
  checkflag f s c = true <->
  forall i, 0 <= i -> Z.testbit s i || Z.testbit c i = true -> Z.testbit f i = Z.testbit s i.
Proof.
  unfold checkflag. rewrite Z.eqb_eq. split.
  - intros H i Hi Hb. rewrite <- H, Z.land_spec, Z.lor_spec, Hb. by rewrite andb_true_r.
  - intros H. apply Z.bits_inj'. intros i Hi. rewrite Z.land_spec, Z.lor_spec.
    specialize (H i Hi). destruct (Z.testbit s i), (Z.testbit c i), (Z.testbit f i); try done; cbn in *; auto.
    all: by specialize (H eq_refl).
Qed.

Lemma checkflag_is f n : 0 <= n -> checkflag f (2 ^ n) 0 = Z.testbit f n.
Proof.
  intros Hn. apply eq_bool_prop_intro. rewrite !Is_true_true, checkflag_iff. split.
  - intros H. rewrite (H n Hn); rewrite Z.pow2_bits_eqb, Z.eqb_refl by done; done.
  - intros H i Hi. rewrite Z.bits_0, orb_false_r, Z.pow2_bits_eqb by done.
    intros E. rewrite E. zb. congruence.
Qed.

Lemma checkflag_not f n : 0 <= n -> checkflag f 0 (2 ^ n) = negb (Z.testbit f n).
Proof.
  intros Hn. apply eq_bool_prop_intro. rewrite !Is_true_true, checkflag_iff, negb_true_iff. split.
  - intros H. rewrite (H n Hn); rewrite ?Z.bits_0, ?Z.pow2_bits_eqb, ?Z.eqb_refl by done; done.
  - intros H i Hi. rewrite Z.bits_0, orb_false_l, Z.pow2_bits_eqb by done.
    intros E. zb. congruence.
Qed.

Lemma checkflag_split f s c : Z.land s c = 0 ->
  checkflag f s c = checkflag f s 0 && checkflag f 0 c.
Proof.
  intros Hd. apply eq_bool_prop_intro. rewrite !Is_true_true, andb_true_iff, !checkflag_iff.
  assert (Hb : forall i, Z.testbit s i && Z.testbit c i = false).
  { intros i. rewrite <- Z.land_spec, Hd. apply Z.bits_0. }
  split.
  - intros H. split; intros i Hi; rewrite Z.bits_0; specialize (H i Hi); specialize (Hb i);
      destruct (Z.testbit s i), (Z.testbit c i), (Z.testbit f i); cbn in *; auto.
  - intros [H1 H2] i Hi. specialize (H1 i Hi). specialize (H2 i Hi). specialize (Hb i).
    rewrite Z.bits_0 in *.
    destruct (Z.testbit s i), (Z.testbit c i), (Z.testbit f i); cbn in *; auto.
Qed.

(** Bits of the flag word of a block. *)
Definition is_cached (b : CBlk) : bool := Z.testbit (c_flag b) 3.
Definition is_static (b : CBlk) : bool := Z.testbit (c_flag b) 6.

(** ** The buckets the pointers represent *)

Definition hview (c : Cache) : gmap nat (option nat * bool * Z) :=
  (fun b => (c_hnext b, is_cached b, c_addr b)) <$> blks c.

Record hash_ok (hv : gmap nat (option nat * bool * Z)) (bs : list (option nat))
  (H : list (list nat)) : Prop := {
  ho_len : length H = length bs;
  ho_pos : (0 < length bs)%nat;
  ho_head : forall h l, H !! h = Some l -> bs !! h = Some (head l);
  ho_nodup : forall h l, H !! h = Some l -> NoDup l;
  ho_chain : forall h l A q B, H !! h = Some l -> l = A ++ q :: B ->
    exists a, hv !! q = Some (head B, true, a) /\ bucket (length bs) a = h /\ a ≠ -1;
  ho_all : forall q (x : option nat) (c : bool) a, hv !! q = Some (x, c, a) ->
    if c then exists l : list nat, H !! bucket (length bs) a = Some l /\ q ∈ l else x = None;
  ho_inj : forall p q x y a, hv !! p = Some (x, true, a) -> hv !! q = Some (y, true, a) -> p = q }.

Definition hash_is (c : Cache) (H : list (list nat)) : Prop := hash_ok (hview c) (bcache c) H.

(** The block [q] is the cached copy of address [a]. *)
Definition cached_at (c : Cache) (a : Z) (q : nat) : Prop :=
  exists b, blks c !! q = Some b /\ is_cached b = true /\ c_addr b = a.

Lemma hview_lookup c q :
  hview c !! q = (fun b => (c_hnext b, is_cached b, c_addr b)) <$> (blks c !! q).
Proof. unfold hview. by rewrite lookup_fmap. Qed.

Lemma cached_hview c a q : cached_at c a q <-> exists x, hview c !! q = Some (x, true, a).
Proof.
  unfold cached_at. rewrite hview_lookup. split.
  - intros (b & -> & E & <-). exists (c_hnext b). cbn -[is_cached c_addr]. by rewrite E.
  - intros (x & (b & Hb & E)%fmap_Some). injection E as E1 E2 E3. eauto.
Qed.

Lemma bucket_lt n a : (0 < n)%nat -> (bucket n a < n)%nat.
Proof.
  intros Hn. unfold bucket. pose proof (Z.mod_pos_bound (ihash (u64 a)) (Z.of_nat n)). lia.
Qed.

Lemma bucket_list hv bs H a : hash_ok hv bs H -> exists l, H !! bucket (length bs) a = Some l.
Proof.
  intros Ho. apply lookup_lt_is_Some_2. rewrite (ho_len _ _ _ Ho).
  apply bucket_lt, (ho_pos _ _ _ Ho).
Qed.

(** A list of distinct blocks is no longer than the store. *)
Lemma length_le_size (m : gmap nat CBlk) l :
  NoDup l -> (forall q, q ∈ l -> is_Some (m !! q)) -> (length l <= size m)%nat.
Proof.
  intros Hnd Hl. rewrite <- (size_list_to_set (C := gset nat) l Hnd).
  rewrite <- (size_dom (D := gset nat) m).
  apply subseteq_size. intros q Hq%elem_of_list_to_set. by apply elem_of_dom, Hl.
Qed.

Lemma chain_fuel_ok c H h l :
  hash_is c H -> H !! h = Some l -> (length l < chain_fuel c)%nat.
Proof.
  intros Ho Hl. unfold chain_fuel. apply Nat.lt_succ_r, length_le_size.
  - by apply (ho_nodup _ _ _ Ho h).
  - intros q (A & B & E)%list_elem_of_split.
    destruct (ho_chain _ _ _ Ho h l A q B Hl E) as (a & Hq & _).
    rewrite hview_lookup in Hq. destruct (blks c !! q); [eauto|done].
Qed.

(** What a block of a chain looks like. *)
Lemma chain_blk c H h l A q B :
  hash_is c H -> H !! h = Some l -> l = A ++ q :: B ->
  exists b, blks c !! q = Some b /\ c_hnext b = head B /\ is_cached b = true /\
    bkt c (c_addr b) = h /\ c_addr b ≠ -1.
Proof.
  intros Ho Hl E. destruct (ho_chain _ _ _ Ho h l A q B Hl E) as (a & Hq & Hb & Ha).
  rewrite hview_lookup in Hq. destruct (blks c !! q) as [b|]; [|done].
  injection Hq as E1 E2 <-. by exists b.
Qed.

Lemma get_bucket_ok c H a :
  hash_is c H -> exists l, H !! bkt c a = Some l /\ get_bucket c (bkt c a) = Ok (head l).
Proof.
  intros Ho. destruct (bucket_list _ _ _ a Ho) as (l & Hl). exists l. split; [done|].
  unfold get_bucket, bkt. by rewrite (ho_head _ _ _ Ho _ _ Hl).
Qed.

Lemma cached_in c H a q l :
  hash_is c H -> H !! bkt c a = Some l -> cached_at c a q -> q ∈ l.
Proof.
  intros Ho Hl (x & Hq)%cached_hview.
  pose proof (ho_all _ _ _ Ho q x true a Hq) as (l' & Hl' & Hin).
  unfold bkt in Hl. congruence.
Qed.

(** The chain of an address up to its cached copy, if it has one. *)
Lemma chain_search c H a l :
  hash_is c H -> H !! bkt c a = Some l ->
  (exists A q B, l = A ++ q :: B /\ (forall r, r ∈ A -> ~ cached_at c a r) /\ cached_at c a q) \/
  (forall q, ~ cached_at c a q).
Proof.
  intros Ho Hl.
  assert (G : forall B A, l = A ++ B -> (forall r, r ∈ A -> ~ cached_at c a r) ->
    (exists A q B, l = A ++ q :: B /\ (forall r, r ∈ A -> ~ cached_at c a r) /\ cached_at c a q) \/
    (forall q, ~ cached_at c a q)).
  { induction B as [|q B IH]; intros A E HA.
    - right. intros q Hq. rewrite app_nil_r in E. subst A. apply (HA q); [|done].
      by eapply cached_in.
    - destruct (chain_blk c H _ l A q B Ho Hl E) as (b & Hb & _ & Hc & _).
      destruct (decide (c_addr b = a)) as [Ea|Hne].
      + left. exists A, q, B. split; [done|]. split; [done|]. by exists b.
      + apply (IH (A ++ [q])); [by rewrite <- app_assoc|].
        intros r [Hr| ->%list_elem_of_singleton]%elem_of_app; [by apply HA|].
        intros (b' & Hb' & _ & Ea). congruence. }
  apply (G l []); [done|]. by intros r ?%not_elem_of_nil.
Qed.

(** One comparison in a loop over a chain. *)
Lemma chain_head c H a h l A (A1 : list nat) q (B : list nat) :
  hash_is c H -> H !! h = Some l -> l = A ++ q :: B ->
  (forall r, r ∈ A1 -> ~ cached_at c a r) -> q ∈ A1 ->
  exists b, blks c !! q = Some b /\ c_hnext b = head B /\ (c_addr b =? a) = false.
Proof.
  intros Ho Hl E HA Hq. destruct (chain_blk c H h l A q B Ho Hl E) as (b & Hb & Hn & Hc & _).
  exists b. split; [done|]. split; [done|]. apply Z.eqb_neq. intros Ea.
  apply (HA q Hq). by exists b.
Qed.

Lemma cacheget_found c H a l A1 : forall A0 q B fuel,
  hash_is c H -> H !! bkt c a = Some l -> l = A0 ++ A1 ++ q :: B ->
  (forall r, r ∈ A1 -> ~ cached_at c a r) -> cached_at c a q -> (length A1 < fuel)%nat ->
  cacheget_loop fuel c (head (A1 ++ q :: B)) a =
    let! c := holdblk c q in let! c := lrudel c q in Ok (Some q, c).
Proof.
  induction A1 as [|r A1 IH]; intros A0 q B fuel Ho Hl E HA Hq Hf;
    (destruct fuel as [|fuel]; [cbn in Hf; lia|]); cbn [app head cacheget_loop].
  - destruct Hq as (b & Hb & _ & Ea). rewrite (deref_ok c q b Hb). cbn [rbind].
    by rewrite (proj2 (Z.eqb_eq _ _) Ea).
  - destruct (chain_head c H a _ l A0 (r :: A1) r (A1 ++ q :: B) Ho Hl E HA ltac:(by left))
      as (b & Hb & Hn & Ea).
    rewrite (deref_ok c r b Hb). cbn [rbind]. rewrite Ea, Hn.
    apply (IH (A0 ++ [r])); [done|done|by rewrite <- app_assoc| |done|cbn in Hf; lia].
    intros x Hx. apply HA. by right.
Qed.

Lemma cacheget_missing c H a l A1 : forall A0 fuel,
  hash_is c H -> H !! bkt c a = Some l -> l = A0 ++ A1 ->
  (forall r, ~ cached_at c a r) -> (length A1 <= fuel)%nat ->
  cacheget_loop fuel c (head A1) a = Ok (None, c).
Proof.
  induction A1 as [|r A1 IH]; intros A0 fuel Ho Hl E HA Hf; [by destruct fuel|].
  destruct fuel as [|fuel]; [cbn in Hf; lia|]. cbn [head cacheget_loop].
  destruct (chain_head c H a _ l A0 (r :: A1) r A1 Ho Hl E ltac:(auto) ltac:(by left))
    as (b & Hb & Hn & Ea).
  rewrite (deref_ok c r b Hb). cbn [rbind]. rewrite Ea, Hn.
  apply (IH (A0 ++ [r])); [done|done|by rewrite <- app_assoc|done|cbn in Hf; lia].
Qed.

(** The loop of [cachedel_lk] reaches the copy with the pointer to its
    predecessor. *)
Lemma cachedel_found c H a l A1 : forall A0 q B fuel h,
  hash_is c H -> H !! bkt c a = Some l -> l = A0 ++ A1 ++ q :: B ->
  (forall r, r ∈ A1 -> ~ cached_at c a r) -> cached_at c a q -> (length A1 < fuel)%nat ->
  cachedel_loop fuel c h (last A0) (head (A1 ++ q :: B)) a =
  cachedel_loop 1 c h (last (A0 ++ A1)) (Some q) a.
Proof.
  induction A1 as [|r A1 IH]; intros A0 q B fuel h Ho Hl E HA Hq Hf;
    (destruct fuel as [|fuel]; [cbn in Hf; lia|]); cbn [app head cachedel_loop].
  - destruct Hq as (b & Hb & _ & Ea). rewrite (deref_ok c q b Hb). cbn [rbind].
    by rewrite (proj2 (Z.eqb_eq _ _) Ea), app_nil_r.
  - destruct (chain_head c H a _ l A0 (r :: A1) r (A1 ++ q :: B) Ho Hl E HA ltac:(by left))
      as (b & Hb & Hn & Ea).
    rewrite (deref_ok c r b Hb). cbn [rbind]. rewrite Ea, Hn.
    rewrite <- (last_snoc r A0) at 1. replace (A0 ++ r :: A1) with ((A0 ++ [r]) ++ A1)
      by (by rewrite <- app_assoc).
    apply (IH (A0 ++ [r])); [done|done|by rewrite <- app_assoc| |done|cbn in Hf; lia].
    intros x Hx. apply HA. by right.
Qed.

Lemma cachedel_missing c H a l A1 : forall A0 fuel h,
  hash_is c H -> H !! bkt c a = Some l -> l = A0 ++ A1 ->
  (forall r, ~ cached_at c a r) -> (length A1 <= fuel)%nat ->
  cachedel_loop fuel c h (last A0) (head A1) a = Ok c.
Proof.
  induction A1 as [|r A1 IH]; intros A0 fuel h Ho Hl E HA Hf; [by destruct fuel|].
  destruct fuel as [|fuel]; [cbn in Hf; lia|]. cbn [head cachedel_loop].
  destruct (chain_head c H a _ l A0 (r :: A1) r A1 Ho Hl E ltac:(auto) ltac:(by left))
    as (b & Hb & Hn & Ea).
  rewrite (deref_ok c r b Hb). cbn [rbind]. rewrite Ea, Hn.
  rewrite <- (last_snoc r A0).
  apply (IH (A0 ++ [r])); [done|done|by rewrite <- app_assoc|done|cbn in Hf; lia].
Qed.

Lemma ins_check_ok c p a l fuel :
  (forall A q B, l = A ++ q :: B -> exists b, blks c !! q = Some b /\ c_hnext b = head B /\
     q ≠ p /\ c_addr b ≠ a) ->
  (length l <= fuel)%nat -> ins_check fuel c p a (head l) = Ok tt.
Proof.
  revert fuel. induction l as [|q l IH]; intros fuel Hl Hf; [by destruct fuel|].
  destruct fuel as [|fuel]; [cbn in Hf; lia|]. cbn [head ins_check].
  destruct (Hl [] q l eq_refl) as (b & Hb & Hn & Hq & Ha).
  rewrite (deref_ok c q b Hb). cbn [rbind]. rewrite bool_decide_false by congruence.
  rewrite (proj2 (Z.eqb_neq _ _) Ha). cbn [negb andb]. rewrite Hn.
  apply IH; [|cbn in Hf; lia]. intros A r B ->. apply (Hl (q :: A)). done.
Qed.

(** ** Insertion into and removal from a bucket *)

Lemma hash_ok_insert hv bs H h l p a :
  hash_ok hv bs H -> H !! h = Some l -> bucket (length bs) a = h -> a ≠ -1 ->
  hv !! p = Some (None, false, a) -> (forall q x, hv !! q ≠ Some (x, true, a)) ->
  hash_ok (<[p := (head l, true, a)]> hv) (<[h := Some p]> bs) (<[h := p :: l]> H).
Proof.
  intros [H1 H2 H3 H4 H5 H6 H7] Hl Hb Ha Hp Hno.
  assert (Hlt : (h < length H)%nat) by (by eapply lookup_lt_Some).
  assert (Hpl : p ∉ l).
  { intros (A & B & E)%list_elem_of_split.
    destruct (H5 h l A p B Hl E) as (a' & Hp' & _). congruence. }
  constructor.
  - by rewrite !length_insert.
  - by rewrite length_insert.
  - intros h' l' Hl'. destruct (decide (h' = h)) as [->|Hne].
    + rewrite list_lookup_insert_eq in Hl' by done. injection Hl' as <-.
      apply list_lookup_insert_eq. lia.
    + rewrite list_lookup_insert_ne in Hl' by congruence.
      rewrite list_lookup_insert_ne by congruence. by apply H3.
  - intros h' l' Hl'. destruct (decide (h' = h)) as [->|Hne].
    + rewrite list_lookup_insert_eq in Hl' by done. injection Hl' as <-.
      apply NoDup_cons. split; [done|]. by apply (H4 h).
    + rewrite list_lookup_insert_ne in Hl' by congruence. by apply (H4 h').
  - rewrite length_insert. intros h' l' A q B Hl' E. destruct (decide (h' = h)) as [->|Hne].
    + rewrite list_lookup_insert_eq in Hl' by done. injection Hl' as <-.
      destruct A as [|x A]; injection E as Ex E; subst.
      * exists a. rewrite lookup_insert, decide_True by done. done.
      * destruct (H5 _ _ A q B Hl eq_refl) as (a' & Hq & ? & ?). exists a'.
        rewrite lookup_insert_ne; [done|]. intros ->. congruence.
    + rewrite list_lookup_insert_ne in Hl' by congruence.
      destruct (H5 h' l' A q B Hl' E) as (a' & Hq & ? & ?). exists a'.
      rewrite lookup_insert_ne; [done|]. intros ->. congruence.
  - rewrite length_insert. intros q x c a' Hq. destruct (decide (q = p)) as [->|Hne].
    + rewrite lookup_insert, decide_True in Hq by done. injection Hq as <- <- <-.
      exists (p :: l). rewrite Hb, list_lookup_insert_eq by done. split; [done|by left].
    + rewrite lookup_insert_ne in Hq by congruence. specialize (H6 q x c a' Hq).
      destruct c; [|done]. destruct H6 as (l' & Hl' & Hin).
      destruct (decide (bucket (length bs) a' = h)) as [E|Hne'].
      * exists (p :: l). rewrite E, list_lookup_insert_eq by done. split; [done|].
        right. rewrite E, Hl in Hl'. by injection Hl' as ->.
      * exists l'. by rewrite list_lookup_insert_ne by congruence.
  - intros q r x y a' Hq Hr.
    destruct (decide (q = p)) as [->|Hqp], (decide (r = p)) as [->|Hrp]; [done| | |];
      rewrite ?lookup_insert, ?decide_True in Hq by done;
      rewrite ?lookup_insert, ?decide_True in Hr by done.
    + injection Hq as <- <-. rewrite decide_False in Hr by congruence. by apply Hno in Hr.
    + injection Hr as <- <-. rewrite decide_False in Hq by congruence. by apply Hno in Hq.
    + rewrite decide_False in Hq by congruence. rewrite decide_False in Hr by congruence.
      by eapply H7.
Qed.

Lemma hash_ok_delete hv hv' bs bs' H h A q B a :
  hash_ok hv bs H -> H !! h = Some (A ++ q :: B) ->
  hv !! q = Some (head B, true, a) ->
  bs' = (if A is [] then <[h := head B]> bs else bs) ->
  (forall r, hv' !! r =
     if decide (r = q) then Some (None, false, a)
     else if decide (last A = Some r) then (fun x => (head B, x.1.2, x.2)) <$> (hv !! r)
     else hv !! r) ->
  hash_ok hv' bs' (<[h := A ++ B]> H).
Proof.
  intros [H1 H2 H3 H4 H5 H6 H7] Hl Hq -> Hv.
  assert (Hlt : (h < length H)%nat) by (by eapply lookup_lt_Some).
  set (bs' := if A is [] then _ else _).
  assert (Hbl : length bs' = length bs) by (unfold bs'; destruct A; [apply length_insert|done]).
  pose proof (H4 h _ Hl) as Hnd.
  assert (Hsplit : NoDup (A ++ B) /\ q ∉ A ++ B).
  { apply NoDup_app in Hnd as (HA & HAB & HB). apply NoDup_cons in HB as [HqB HB].
    split.
    - apply NoDup_app. split; [done|]. split; [|done]. intros x Hx Hx'. apply (HAB x Hx). by right.
    - intros [Hx|Hx]%elem_of_app; [|done]. apply (HAB q Hx). by left. }
  destruct Hsplit as [Hnd' HqAB].
  (* the other fields of a block do not change *)
  assert (Hkeep : forall r, r ≠ q -> (fun x => (x.1.2, x.2)) <$> (hv' !! r) =
                            (fun x => (x.1.2, x.2)) <$> (hv !! r)).
  { intros r Hr. rewrite Hv, decide_False by done. destruct (decide _); [|done].
    by destruct (hv !! r) as [[[? ?] ?]|]. }
  constructor.
  - by rewrite length_insert, Hbl.
  - by rewrite Hbl.
  - intros h' l' Hl'. unfold bs'. destruct (decide (h' = h)) as [->|Hne].
    + rewrite list_lookup_insert_eq in Hl' by done. injection Hl' as <-.
      destruct A as [|x A]; [apply list_lookup_insert_eq; lia|]. by rewrite (H3 h _ Hl).
    + rewrite list_lookup_insert_ne in Hl' by congruence.
      destruct A; [rewrite list_lookup_insert_ne by congruence|]; by apply H3.
  - intros h' l' Hl'. destruct (decide (h' = h)) as [->|Hne].
    + rewrite list_lookup_insert_eq in Hl' by done. by injection Hl' as <-.
    + rewrite list_lookup_insert_ne in Hl' by congruence. by apply (H4 h').
  - rewrite Hbl. intros h' l' A' r B' Hl' E. destruct (decide (h' = h)) as [->|Hne].
    + rewrite list_lookup_insert_eq in Hl' by done. injection Hl' as <-. symmetry in E.
      assert (Hrq : r ≠ q).
      { intros ->. apply HqAB. rewrite <- E. apply elem_of_app. right. by left. }
      rewrite Hv, decide_False by done.
      apply app_split in E as [(m & -> & ->)|(m & -> & ->)].
      * destruct (H5 h _ A' r (m ++ q :: B) Hl ltac:(by rewrite <- app_assoc)) as (a' & Hr & ? & ?).
        exists a'. split; [|done]. rewrite Hr. destruct m as [|x m].
        -- rewrite last_snoc. by rewrite decide_True.
        -- rewrite decide_False; [done|]. intros El.
           apply NoDup_app in Hnd' as (Hnd' & _). apply NoDup_app in Hnd' as (_ & _ & Hnd').
           apply NoDup_cons in Hnd' as [Hnd' _]. apply Hnd'.
           rewrite last_app in El. change (last (r :: x :: m)) with (last (x :: m)) in El.
           destruct (last (x :: m)) eqn:E2; [|by apply last_None in E2].
           injection El as ->. by apply last_in.
      * destruct (H5 h _ (A ++ q :: m) r B' Hl ltac:(by rewrite <- app_assoc)) as (a' & Hr & ? & ?).
        exists a'. split; [|done]. rewrite decide_False; [done|]. intros El%last_in.
        apply NoDup_app in Hnd' as (_ & Hdis & _). apply (Hdis r El).
        apply elem_of_app. right. by left.
    + rewrite list_lookup_insert_ne in Hl' by congruence.
      destruct (H5 h' l' A' r B' Hl' E) as (a' & Hr & Hb & ?). exists a'. split; [|done].
      assert (Hnotin : r ∉ A ++ q :: B).
      { intros (A2 & B2 & E2)%list_elem_of_split.
        destruct (H5 h _ A2 r B2 Hl E2) as (a2 & Hr2 & Hb2 & _).
        rewrite Hr in Hr2. injection Hr2 as _ <-. congruence. }
      rewrite Hv, decide_False.
      2:{ intros ->. apply Hnotin, elem_of_app. right. by left. }
      rewrite decide_False; [done|]. intros El%last_in. apply Hnotin, elem_of_app. by left.
  - rewrite Hbl. intros r x c a' Hr. destruct (decide (r = q)) as [->|Hne].
    { rewrite Hv, decide_True in Hr by done. by injection Hr as <- <- _. }
    pose proof (Hkeep r Hne) as Hk. rewrite Hr in Hk. cbn in Hk.
    destruct (hv !! r) as [[[x0 c0] a0]|] eqn:E0; [|done]. cbn in Hk. injection Hk as <- <-.
    specialize (H6 r x0 c a' E0). destruct c.
    + destruct H6 as (l' & Hl' & Hin). destruct (decide (bucket (length bs) a' = h)) as [E|Hne'].
      * exists (A ++ B). rewrite E, list_lookup_insert_eq by done. split; [done|].
        rewrite E, Hl in Hl'. injection Hl' as <-.
        apply elem_of_app in Hin as [Hin|[->|Hin]%elem_of_cons]; [|done|];
          apply elem_of_app; auto.
      * exists l'. by rewrite list_lookup_insert_ne by congruence.
    + subst x0. rewrite Hv, decide_False in Hr by done. destruct (decide (last A = Some r)) as [El|].
      * apply last_in in El as Hin.
        apply list_elem_of_split in Hin as (A2 & B2 & E2).
        destruct (H5 h _ A2 r (B2 ++ q :: B) Hl) as (a2 & Hr2 & _).
        { by rewrite E2, <- app_assoc. }
        congruence.
      * congruence.
  - intros r s x y a' Hr Hs.
    assert (Hrq : r ≠ q) by (intros ->; rewrite Hv, decide_True in Hr by done; congruence).
    assert (Hsq : s ≠ q) by (intros ->; rewrite Hv, decide_True in Hs by done; congruence).
    pose proof (Hkeep r Hrq) as Hk. rewrite Hr in Hk. cbn in Hk.
    destruct (hv !! r) as [[[x0 c0] a0]|] eqn:E0; [|done]. cbn in Hk. injection Hk as <- <-.
    pose proof (Hkeep s Hsq) as Hk. rewrite Hs in Hk. cbn in Hk.
    destruct (hv !! s) as [[[x1 c1] a1]|] eqn:E1; [|done]. cbn in Hk. injection Hk as <- <-.
    by eapply H7.
Qed.

(** ** The state invariant *)

Record cache_ok (c : Cache) (L : list nat) (H : list (list nat)) : Prop := {
  ck_lru : lru_is c L;
  ck_hash : hash_is c H;
  ck_static : forall p b, blks c !! p = Some b -> is_static b = false;
  ck_ref : forall p b, blks c !! p = Some b -> 0 <= c_ref b;
  ck_idle : forall p b, p ∈ L -> blks c !! p = Some b -> c_ref b = 0 }.

(** A block but for its cache pointers and the cached flag. *)
Definition uncached (b : CBlk) : Z * Blk :=
  (c_ref b, with_flag (c_blk b) (setflag (c_flag b) 0 Bcached)).

Lemma setflag_setflag f s c s' : Z.land s c = s -> setflag (setflag f s 0) s' c = setflag f s' c.
Proof.
  intros Hs. apply Z.bits_inj'. intros i Hi. rewrite !setflag_bit by done.
  assert (E : Z.testbit s i && Z.testbit c i = Z.testbit s i) by (rewrite <- Z.land_spec; by rewrite Hs).
  rewrite Z.bits_0. destruct (Z.testbit s i), (Z.testbit c i), (Z.testbit f i), (Z.testbit s' i); done.
Qed.

Lemma setflag_clear2 f c : setflag (setflag f 0 c) 0 c = setflag f 0 c.
Proof.
  apply Z.bits_inj'. intros i Hi. rewrite !setflag_bit by done. rewrite Z.bits_0.
  destruct (Z.testbit c i), (Z.testbit f i); done.
Qed.

(** Two states with the same holders, contents and LRU list. *)
Definition hsame (c c' : Cache) : Prop :=
  uncached <$> blks c' = uncached <$> blks c /\ links c' = links c /\
  chead c' = chead c /\ ctail c' = ctail c.

Lemma hsame_lookup c c' q :
  hsame c c' -> uncached <$> (blks c' !! q) = uncached <$> (blks c !! q).
Proof. intros (H & _). rewrite <- !lookup_fmap. by rewrite H. Qed.

Lemma uncached_static b b' : uncached b = uncached b' -> is_static b = is_static b'.
Proof.
  intros E. unfold is_static.
  assert (Ef : setflag (c_flag b) 0 Bcached = setflag (c_flag b') 0 Bcached).
  { change (b_flag (uncached b).2 = b_flag (uncached b').2). by rewrite E. }
  assert (Eb : Z.testbit (setflag (c_flag b) 0 Bcached) 6 = Z.testbit (setflag (c_flag b') 0 Bcached) 6)
    by (by rewrite Ef).
  rewrite !setflag_bit in Eb by done.
  change (Z.testbit Bcached 6) with false in Eb. change (Z.testbit 0 6) with false in Eb.
  by rewrite !orb_false_r, !andb_true_r in Eb.
Qed.

(** The invariant after a change of the hash table only. *)
Lemma cache_ok_hsame c c' L H H' :
  cache_ok c L H -> hsame c c' -> hash_is c' H' -> cache_ok c' L H'.
Proof.
  intros [H1 H2 H3 H4 H5] Hs Hh. pose proof Hs as (_ & El & Eh & Et).
  assert (Hb : forall p b', blks c' !! p = Some b' ->
    exists b, blks c !! p = Some b /\ uncached b' = uncached b).
  { intros p b' Hp. pose proof (hsame_lookup c c' p Hs) as E. rewrite Hp in E.
    destruct (blks c !! p) as [b|]; [|done]. apply (inj Some) in E. eauto. }
  constructor; [|done| | |].
  - unfold lru_is. by rewrite El, Eh, Et.
  - intros p b' Hp. destruct (Hb p b' Hp) as (b & Hpb & E). rewrite (uncached_static _ _ E). eauto.
  - intros p b' Hp. destruct (Hb p b' Hp) as (b & Hpb & E).
    change (c_ref b') with (uncached b').1. rewrite E. by apply (H4 p).
  - intros p b' Hin Hp. destruct (Hb p b' Hp) as (b & Hpb & E).
    change (c_ref b') with (uncached b').1. rewrite E. by apply (H5 p).
Qed.

Lemma upd_blks c p f b :
  blks c !! p = Some b -> exists c', upd c p f = Ok c' /\ blks c' = <[p := f b]> (blks c) /\
    chead c' = chead c /\ ctail c' = ctail c /\ bcache c' = bcache c.
Proof. intros H. rewrite (upd_ok c p f b H). eexists. done. Qed.

(** A change of a block that keeps [g] keeps it for the store. *)
Lemma fmap_upd {B} (g : CBlk -> B) (m : gmap nat CBlk) p b b' :
  m !! p = Some b -> g b' = g b -> g <$> <[p := b']> m = g <$> m.
Proof.
  intros Hb E. rewrite fmap_insert, E. apply insert_id. by rewrite lookup_fmap, Hb.
Qed.

(** Inserting a block that is not cached and whose address is not. *)
Lemma cacheins_ok c L H p b :
  cache_ok c L H -> blks c !! p = Some b -> is_cached b = false -> c_addr b ≠ -1 ->
  (forall q, ~ cached_at c (c_addr b) q) ->
  exists c' H', cacheins c p = Ok c' /\ cache_ok c' L H' /\ hsame c c' /\
    (forall a q, cached_at c' a q <-> cached_at c a q \/ (q = p /\ a = c_addr b)).
Proof.
  intros Hok Hb Hc Ha Hno. pose proof (ck_hash _ _ _ Hok) as Hh.
  unfold cacheins. rewrite (deref_ok c p b Hb). cbn [rbind].
  assert (Hfl : checkflag (c_flag b) 0 (Z.lor Bstatic Bcached) = true).
  { apply checkflag_iff. intros i Hi. rewrite Z.bits_0, orb_false_l, Z.lor_spec.
    change Bstatic with (2 ^ 6). change Bcached with (2 ^ 3). rewrite !Z.pow2_bits_eqb by done.
    intros [E%Z.eqb_eq|E%Z.eqb_eq]%orb_true_iff; subst i; [by apply (ck_static _ _ _ Hok p)|done]. }
  rewrite Hfl. clear Hfl.
  set (b1 := set_flag (setflag (c_flag b) Bcached 0) b).
  destruct (upd_blks c p (set_flag (setflag (c_flag b) Bcached 0)) b Hb) as (c1 & E1 & B1 & CH1 & CT1 & BC1).
  rewrite E1. cbn [rbind]. fold b1 in B1.
  assert (Hvp : hview c !! p = Some (None, false, c_addr b)).
  { rewrite hview_lookup, Hb. cbn -[is_cached c_addr]. rewrite Hc. do 2 f_equal. f_equal.
    pose proof (hview_lookup c p) as E. rewrite Hb in E. cbn -[is_cached c_addr] in E. rewrite Hc in E.
    by pose proof (ho_all _ _ _ Hh _ _ _ _ E). }
  assert (Hn : c_hnext b = None).
  { pose proof (hview_lookup c p) as E. rewrite Hb, Hvp in E. by injection E as <-. }
  rewrite Hn, bool_decide_true by done.
  destruct (get_bucket_ok c H (c_addr b) Hh) as (l & Hl & Eg).
  replace (get_bucket c1 (bkt c (c_addr b))) with (get_bucket c (bkt c (c_addr b)))
    by (unfold get_bucket; by rewrite BC1).
  rewrite Eg. cbn [rbind].
  assert (Hpl : p ∉ l).
  { intros (A & B & E)%list_elem_of_split.
    destruct (chain_blk c H _ l A p B Hh Hl E) as (b' & Hb' & _ & Hc' & _). congruence. }
  assert (Ec : ins_check (chain_fuel c1) c1 p (c_addr b) (head l) = Ok tt).
  { apply ins_check_ok.
    - intros A q B E. destruct (chain_blk c H _ l A q B Hh Hl E) as (b' & Hb' & Hn' & Hc' & _).
      assert (Hq : q ≠ p) by (intros ->; congruence).
      exists b'. rewrite B1, lookup_insert_ne by congruence. split; [done|]. split; [done|].
      split; [done|]. intros Ea. apply (Hno q). by exists b'.
    - unfold chain_fuel. rewrite B1. rewrite map_size_insert_Some by eauto.
      pose proof (chain_fuel_ok c H _ l Hh Hl). unfold chain_fuel in *. lia. }
  rewrite Ec. cbn [rbind].
  destruct (upd_blks c1 p (set_hnext (head l)) b1) as (c2 & E2 & B2 & CH2 & CT2 & BC2).
  { by rewrite B1, lookup_insert, decide_True. }
  rewrite E2. cbn [rbind].
  assert (Hb2 : blks c2 = <[p := set_hnext (head l) b1]> (blks c)).
  { rewrite B2, B1, insert_insert. by rewrite decide_True. }
  assert (Hc1 : is_cached b1 = true).
  { change (Z.testbit (setflag (c_flag b) Bcached 0) 3 = true). by rewrite setflag_bit, orb_true_r. }
  assert (Hview : hview (set_bucket c2 (bkt c (c_addr b)) (Some p)) =
                    <[p := (head l, true, c_addr b)]> (hview c)).
  { unfold hview. cbn [set_bucket blks]. rewrite Hb2, fmap_insert. do 2 f_equal. cbn -[is_cached].
    change (is_cached (set_hnext (head l) b1)) with (is_cached b1). by rewrite Hc1. }
  assert (Hs : hsame c (set_bucket c2 (bkt c (c_addr b)) (Some p))).
  { split; [|split; [|split]]; cbn; [| |congruence|congruence].
    - rewrite Hb2. apply (fmap_upd _ _ _ b); [done|].
      unfold uncached, b1. cbn. f_equal. f_equal. by apply setflag_setflag.
    - unfold links. cbn. rewrite Hb2. by apply (fmap_upd _ _ _ b). }
  eexists _, _. split; [done|]. split; [|split; [exact Hs|]].
  - eapply cache_ok_hsame; [exact Hok|exact Hs|].
    unfold hash_is. rewrite Hview. cbn [set_bucket bcache]. rewrite BC2, BC1.
    apply (hash_ok_insert _ _ H _ l p (c_addr b) Hh Hl); [done|done|done|].
    intros q x Hq. apply (Hno q), cached_hview. eauto.
  - intros a q. rewrite !cached_hview, Hview. destruct (decide (q = p)) as [->|Hne].
    + rewrite lookup_insert, decide_True by done. split.
      * intros (x & E). injection E as _ <-. by right.
      * intros [(x & E)|[_ ->]]; [congruence|eauto].
    + rewrite lookup_insert_ne by congruence. split; [by left|]. by intros [?|[? _]].
Qed.

(** The state after the copy [q] of a chain [A ++ q :: B] is unlinked. *)
Lemma unlink_ok c H h A q B b :
  hash_is c H -> H !! h = Some (A ++ q :: B) -> blks c !! q = Some b ->
  checkflag (c_flag b) Bcached Bstatic = true ->
  exists c', cachedel_loop 1 c h (last A) (Some q) (c_addr b) = Ok c' /\ hsame c c' /\
    hash_is c' (<[h := A ++ B]> H) /\
    (forall a r, cached_at c' a r <-> cached_at c a r /\ r ≠ q).
Proof.
  intros Hh Hl Hb Hf. cbn [cachedel_loop]. rewrite (deref_ok c q b Hb). cbn [rbind].
  rewrite Z.eqb_refl, Hf.
  destruct (chain_blk c H h _ A q B Hh Hl eq_refl) as (b0 & Hb0 & Hn & Hc & _).
  rewrite Hb in Hb0. injection Hb0 as <-. rewrite Hn.
  assert (Hnd := ho_nodup _ _ _ Hh h _ Hl).
  (* the cell that pointed to the block *)
  assert (E1 : exists c1, match last A with
                 | None => Ok (set_bucket c h (head B))
                 | Some r => upd c r (set_hnext (head B)) end = Ok c1 /\
     bcache c1 = (if A is [] then <[h := head B]> (bcache c) else bcache c) /\
     chead c1 = chead c /\ ctail c1 = ctail c /\
     forall r, blks c1 !! r = if decide (last A = Some r) then set_hnext (head B) <$> (blks c !! r)
                              else blks c !! r).
  { destruct (last A) as [r|] eqn:El.
    - pose proof El as (A' & ->)%last_Some.
      destruct (chain_blk c H h _ A' r (q :: B) Hh Hl ltac:(by rewrite <- app_assoc))
        as (br & Hbr & _).
      destruct (upd_blks c r (set_hnext (head B)) br Hbr) as (c1 & E1 & B1 & CH1 & CT1 & BC1).
      exists c1. split; [done|]. split; [rewrite BC1; by destruct A'|]. split; [done|]. split; [done|].
      intros s. rewrite B1. destruct (decide (Some r = Some s)) as [[= ->]|Hne].
      + by rewrite lookup_insert, decide_True, Hbr.
      + by rewrite lookup_insert_ne by congruence.
    - apply last_None in El as ->. eexists. split; [done|]. done. }
  destruct E1 as (c1 & E1 & BC1 & CH1 & CT1 & B1). rewrite E1. cbn [rbind].
  assert (HqA : last A ≠ Some q).
  { intros El%last_in. apply NoDup_app in Hnd as (_ & Hdis & _). apply (Hdis q El). by left. }
  assert (Hb1 : blks c1 !! q = Some b) by (by rewrite B1, decide_False).
  destruct (upd_blks c1 q (set_hnext None) b Hb1) as (c2 & E2 & B2 & CH2 & CT2 & BC2).
  rewrite E2. cbn [rbind].
  destruct (upd_blks c2 q (set_flag (setflag (c_flag b) 0 Bcached)) (set_hnext None b))
    as (c3 & E3 & B3 & CH3 & CT3 & BC3).
  { by rewrite B2, lookup_insert, decide_True. }
  rewrite E3. set (b' := set_flag (setflag (c_flag b) 0 Bcached) (set_hnext None b)) in *.
  assert (Hb3 : forall r, blks c3 !! r = if decide (r = q) then Some b'
      else if decide (last A = Some r) then set_hnext (head B) <$> (blks c !! r) else blks c !! r).
  { intros r. rewrite B3, B2, insert_insert, decide_True by done.
    destruct (decide (r = q)) as [->|Hne]; [by rewrite lookup_insert, decide_True|].
    rewrite lookup_insert_ne by congruence. apply B1. }
  assert (Hc' : is_cached b' = false).
  { change (Z.testbit (setflag (c_flag b) 0 Bcached) 3 = false). by rewrite setflag_bit, andb_false_r. }
  assert (Hv : forall r, hview c3 !! r = if decide (r = q) then Some (None, false, c_addr b)
      else if decide (last A = Some r) then (fun x => (head B, x.1.2, x.2)) <$> (hview c !! r)
      else hview c !! r).
  { intros r. rewrite !hview_lookup, Hb3. destruct (decide (r = q)).
    - cbn -[is_cached c_addr]. by rewrite Hc'.
    - destruct (decide _); [|done]. by destruct (blks c !! r). }
  exists c3. split; [done|]. split; [|split].
  - split; [|split; [|split; congruence]].
    + apply map_eq. intros r. rewrite !lookup_fmap, Hb3. destruct (decide (r = q)) as [->|].
      * rewrite Hb. cbn. unfold uncached, b'. cbn. by rewrite setflag_clear2.
      * destruct (decide _); [|done]. by destruct (blks c !! r).
    + apply map_eq. intros r. rewrite !links_lookup, Hb3. destruct (decide (r = q)) as [->|].
      * by rewrite Hb.
      * destruct (decide _); [|done]. by destruct (blks c !! r).
  - eapply hash_ok_delete; [exact Hh|exact Hl| |congruence|exact Hv].
    rewrite hview_lookup, Hb. cbn -[is_cached c_addr]. by rewrite Hn, Hc.
  - intros a r. rewrite !cached_hview, Hv. destruct (decide (r = q)) as [->|Hne].
    + split; [by intros (x & E)|]. by intros [_ ?].
    + destruct (decide _); [|split; [by intros ?|by intros [? _]]].
      destruct (hview c !! r) as [[[x y] z]|]; cbn.
      * split; [intros (x' & E); injection E as _ -> ->|intros [(x' & E) _]; injection E as _ -> ->]; eauto.
      * split; [by intros (? & ?)|by intros [(? & ?) _]].
Qed.

(** [cachedel] forgets the copy of the address and nothing else. *)
Lemma cachedel_ok c L H a :
  cache_ok c L H ->
  exists c' H', cachedel_lk c a = Ok c' /\ cache_ok c' L H' /\ hsame c c' /\
    (forall a' q, cached_at c' a' q <-> cached_at c a' q /\ a' ≠ a).
Proof.
  intros Hok. pose proof (ck_hash _ _ _ Hok) as Hh. unfold cachedel_lk.
  assert (Hhs : hsame c c) by done.
  destruct (Z.eqb_spec a (-1)) as [->|Ha].
  { exists c, H. split; [done|]. split; [done|]. split; [done|]. intros a' q. split; [|tauto].
    intros Hq. split; [done|]. intros ->. pose proof Hq as (x & Hx)%cached_hview.
    destruct (ho_all _ _ _ Hh _ _ _ _ Hx) as (l & Hl & (A & B & E)%list_elem_of_split).
    destruct (ho_chain _ _ _ Hh _ _ _ _ _ Hl E) as (a' & Hq' & _ & ?). congruence. }
  destruct (get_bucket_ok c H a Hh) as (l & Hl & Eg). rewrite Eg. cbn [rbind].
  pose proof (chain_fuel_ok c H _ l Hh Hl) as Hf.
  destruct (chain_search c H a l Hh Hl) as [(A & q & B & -> & HA & Hq)|Hno].
  - rewrite (cachedel_found c H a _ A [] q B _ _ Hh Hl eq_refl HA Hq).
    2:{ rewrite length_app in Hf. lia. }
    cbn [app]. pose proof Hq as (b & Hb & Hc & <-).
    destruct (unlink_ok c H _ A q B b Hh Hl Hb) as (c' & E & Hs & Hh' & Hcc).
    { rewrite checkflag_split by done. change Bcached with (2 ^ 3). change Bstatic with (2 ^ 6).
      rewrite checkflag_is, checkflag_not by done.
      pose proof (ck_static _ _ _ Hok q b Hb) as Hst. unfold is_cached, is_static in *.
      by rewrite Hc, Hst. }
    eexists _, _. split; [exact E|]. split; [by eapply cache_ok_hsame|]. split; [done|].
    intros a' r. rewrite Hcc. split; intros [Hr Hne]; (split; [done|]).
    + intros ->. apply Hne. pose proof Hq as (x & Hx)%cached_hview.
      pose proof Hr as (y & Hy)%cached_hview. by eapply (ho_inj _ _ _ Hh).
    + intros ->. destruct Hr as (b2 & Hb2 & _ & <-). congruence.
  - pose proof (cachedel_missing c H a l l [] (chain_fuel c) (bkt c a) Hh Hl eq_refl Hno) as E.
    change (last (@nil nat)) with (@None nat) in E. rewrite E by lia.
    exists c, H. split; [done|]. split; [done|]. split; [done|]. intros a' q. split; [|tauto].
    intros Hq. split; [done|]. intros ->. by apply (Hno q).
Qed.

(** ** Taking and giving back references *)

Lemma upd_ref c L H p b n :
  lru_is c L -> hash_is c H -> blks c !! p = Some b ->
  exists c', upd c p (add_ref n) = Ok c' /\ lru_is c' L /\ hash_is c' H /\
    blks c' = <[p := add_ref n b]> (blks c).
Proof.
  intros Hl Hh Hb. destruct (upd_blks c p (add_ref n) b Hb) as (c' & E & B & CH & CT & BC).
  exists c'. split; [done|]. split; [|split; [|done]].
  - unfold lru_is, links. rewrite B, CH, CT, (fmap_upd _ _ p b) by done. exact Hl.
  - unfold hash_is, hview. rewrite B, BC, (fmap_upd _ _ p b) by done. exact Hh.
Qed.

Lemma hash_lsame c c' H : lsame c c' -> hash_is c H -> hash_is c' H.
Proof.
  intros [Hs Hb] Hh. unfold hash_is. rewrite Hb.
  replace (hview c') with (hview c); [done|].
  apply map_eq. intros q. rewrite !hview_lookup.
  assert (E : strip <$> (blks c' !! q) = strip <$> (blks c !! q)) by (by apply lsame_lookup).
  destruct (blks c' !! q) as [x|], (blks c !! q) as [y|]; try done.
  apply (inj Some) in E.
  change (Some (c_hnext (strip y), is_cached (strip y), c_addr (strip y)) =
          Some (c_hnext (strip x), is_cached (strip x), c_addr (strip x))).
  by rewrite E.
Qed.

(** The store after the reference count of [p] changed by [n]. *)
Definition reffed (c c' : Cache) (p : nat) (n : Z) : Prop :=
  forall q, strip <$> (blks c' !! q) =
    (if decide (q = p) then fun b => strip (add_ref n b) else strip) <$> (blks c !! q).

Lemma reffed_inv c c' p n q b' :
  reffed c c' p n -> blks c' !! q = Some b' -> exists b, blks c !! q = Some b /\
    c_blk b' = c_blk b /\ c_ref b' = (if decide (q = p) then c_ref b + n else c_ref b).
Proof.
  intros Hr Hb. specialize (Hr q). rewrite Hb in Hr. destruct (blks c !! q) as [b|]; [|by destruct (decide _)].
  exists b. split; [done|]. destruct (decide (q = p)); apply (inj Some) in Hr.
  - change (c_blk (strip b') = c_blk b /\ c_ref (strip b') = c_ref b + n). by rewrite Hr.
  - change (c_blk (strip b') = c_blk b /\ c_ref (strip b') = c_ref b). by rewrite Hr.
Qed.

Lemma reffed_cached c c' p n a q : reffed c c' p n -> cached_at c' a q <-> cached_at c a q.
Proof.
  intros Hr. unfold cached_at, is_cached, c_addr, c_flag. specialize (Hr q).
  destruct (blks c' !! q) as [b'|], (blks c !! q) as [b|]; try (by destruct (decide (q = p))).
  - assert (E : c_blk b' = c_blk b).
    { change (c_blk (strip b') = c_blk b). destruct (decide (q = p)); apply (inj Some) in Hr; by rewrite Hr. }
    split; intros (x & [= <-] & H1 & H2); eexists; (split; [done|]); rewrite ?E in *; [done|].
    by rewrite <- E in H1, H2 |- *.
Qed.

Lemma reffed_upd c c1 c' p b n :
  blks c !! p = Some b -> blks c1 = <[p := add_ref n b]> (blks c) -> lsame c1 c' ->
  reffed c c' p n.
Proof.
  intros Hb B Hs q. rewrite (lsame_lookup c1 c' q Hs), B. destruct (decide (q = p)) as [->|Hne].
  - by rewrite lookup_insert, decide_True, Hb.
  - by rewrite lookup_insert_ne by congruence.
Qed.

(** A new holder takes a block out of the LRU list. *)
Lemma take_ok c L H p b :
  cache_ok c L H -> blks c !! p = Some b ->
  exists c', (let! c1 := holdblk c p in lrudel c1 p) = Ok c' /\
    cache_ok c' (lrm p L) H /\ reffed c c' p 1.
Proof.
  intros [H1 H2 H3 H4 H5] Hb. unfold holdblk.
  destruct (upd_ref c L H p b 1 H1 H2 Hb) as (c1 & E1 & L1 & Hh1 & B1). rewrite E1. cbn [rbind].
  destruct (lrudel_ok c1 L p (add_ref 1 b) L1) as (c2 & E2 & S2 & L2).
  { by rewrite B1, lookup_insert, decide_True. }
  assert (Hr : reffed c c2 p 1) by (by eapply reffed_upd).
  exists c2. split; [done|]. split; [|done].
  constructor; [done|by eapply hash_lsame| | |].
  - intros q b' Hq. destruct (reffed_inv _ _ _ _ _ _ Hr Hq) as (b0 & Hb0 & E & _).
    unfold is_static, c_flag. rewrite E. by apply (H3 q).
  - intros q b' Hq. destruct (reffed_inv _ _ _ _ _ _ Hr Hq) as (b0 & Hb0 & _ & E).
    specialize (H4 q b0 Hb0). rewrite E. destruct (decide _); lia.
  - intros q b' [Hne Hin]%elem_of_lrm Hq. destruct (reffed_inv _ _ _ _ _ _ Hr Hq) as (b0 & Hb0 & _ & E).
    rewrite E, decide_False by done. by apply (H5 q).
Qed.

Lemma cacheget_ok c L H a :
  cache_ok c L H ->
  (exists q c', cacheget c a = Ok (Some q, c') /\ cached_at c a q /\
     cache_ok c' (lrm q L) H /\ reffed c c' q 1) \/
  (cacheget c a = Ok (None, c) /\ forall q, ~ cached_at c a q).
Proof.
  intros Hok. pose proof (ck_hash _ _ _ Hok) as Hh. unfold cacheget.
  destruct (get_bucket_ok c H a Hh) as (l & Hl & Eg). rewrite Eg. cbn [rbind].
  pose proof (chain_fuel_ok c H _ l Hh Hl) as Hf.
  destruct (chain_search c H a l Hh Hl) as [(A & q & B & -> & HA & Hq)|Hno].
  - left. rewrite (cacheget_found c H a _ A [] q B _ Hh Hl eq_refl HA Hq).
    2:{ rewrite length_app in Hf. lia. }
    pose proof Hq as (b & Hb & _). destruct (take_ok c L H q b Hok Hb) as (c' & E & Hok' & Hr).
    exists q, c'. split; [|done]. apply rbind_ok in E as (c1 & E1 & E2). rewrite E1. cbn [rbind].
    by rewrite E2.
  - right. split; [|done].
    apply (cacheget_missing c H a l l [] (chain_fuel c) Hh Hl eq_refl Hno). lia.
Qed.

(** The tail of the LRU list is evicted and handed out with one reference
    and no flags. *)
Record plucked (c c' : Cache) (p : nat) : Prop := {
  pl_new : exists b', blks c' !! p = Some b' /\ c_ref b' = 1 /\ c_flag b' = 0;
  pl_refs : forall q, q ≠ p -> c_ref <$> (blks c' !! q) = c_ref <$> (blks c !! q);
  pl_cached : forall a q, cached_at c' a q <-> cached_at c a q /\ q ≠ p }.

(** The last assignments of [cachepluck] on an unlinked, uncached block. *)
Lemma reset_ok c L H p b :
  cache_ok c L H -> p ∉ L -> blks c !! p = Some b -> is_cached b = false -> c_ref b = 0 ->
  exists c' b', (let! c := upd c p (set_flag 0) in let! c := upd c p (set_hnext None) in holdblk c p) = Ok c' /\
    cache_ok c' L H /\ blks c' = <[p := b']> (blks c) /\ c_ref b' = 1 /\ c_flag b' = 0 /\
    hview c' = hview c.
Proof.
  intros [H1 H2 H3 H4 H5] Hp Hb Hc Hr.
  destruct (upd_blks c p (set_flag 0) b Hb) as (c1 & E1 & B1 & CH1 & CT1 & BC1). rewrite E1. cbn [rbind].
  destruct (upd_blks c1 p (set_hnext None) (set_flag 0 b)) as (c2 & E2 & B2 & CH2 & CT2 & BC2).
  { by rewrite B1, lookup_insert, decide_True. }
  rewrite E2. cbn [rbind]. unfold holdblk.
  destruct (upd_blks c2 p (add_ref 1) (set_hnext None (set_flag 0 b))) as (c3 & E3 & B3 & CH3 & CT3 & BC3).
  { by rewrite B2, lookup_insert, decide_True. }
  set (b' := add_ref 1 (set_hnext None (set_flag 0 b))) in *.
  assert (B : blks c3 = <[p := b']> (blks c)) by (by rewrite B3, B2, insert_insert_eq, B1, insert_insert_eq).
  assert (Hn : c_hnext b = None).
  { pose proof (hview_lookup c p) as E. rewrite Hb in E. cbn -[is_cached c_addr] in E. rewrite Hc in E.
    by pose proof (ho_all _ _ _ H2 _ _ _ _ E). }
  assert (Hv : hview c3 = hview c).
  { unfold hview. rewrite B. apply (fmap_upd _ _ p b b' Hb). unfold b'. cbn -[is_cached c_addr].
    rewrite Hn, Hc. done. }
  exists c3, b'. split; [exact E3|].
  split; [|split; [exact B|split; [unfold b'; cbn; lia|split; [reflexivity|exact Hv]]]].
  constructor.
  - unfold lru_is, links. rewrite B, CH3, CH2, CH1, CT3, CT2, CT1, (fmap_upd _ _ p b) by done. exact H1.
  - unfold hash_is. rewrite Hv, BC3, BC2, BC1. exact H2.
  - rewrite B. intros q x Hq. destruct (decide (q = p)) as [->|Hne].
    + rewrite lookup_insert, decide_True in Hq by done. by injection Hq as <-.
    + rewrite lookup_insert_ne in Hq by congruence. by apply (H3 q).
  - rewrite B. intros q x Hq. destruct (decide (q = p)) as [->|Hne].
    + rewrite lookup_insert, decide_True in Hq by done. injection Hq as <-. cbn. lia.
    + rewrite lookup_insert_ne in Hq by congruence. by apply (H4 q).
  - rewrite B. intros q x Hin Hq. rewrite lookup_insert_ne in Hq by congruence. by apply (H5 q).
Qed.

Lemma cache_ok_lsame c c' L L' H :
  cache_ok c L H -> lsame c c' -> lru_is c' L' ->
  (forall p b, p ∈ L' -> blks c !! p = Some b -> c_ref b = 0) -> cache_ok c' L' H.
Proof.
  intros [H1 H2 H3 H4 H5] Hs Hl Hin.
  assert (Hb : forall q b', blks c' !! q = Some b' ->
    exists b, blks c !! q = Some b /\ c_blk b' = c_blk b /\ c_ref b' = c_ref b).
  { intros q b' Hq. pose proof (lsame_lookup c c' q Hs) as E. rewrite Hq in E.
    destruct (blks c !! q) as [b|]; [|done]. apply (inj Some) in E. exists b. split; [done|].
    change (c_blk (strip b') = c_blk b /\ c_ref (strip b') = c_ref b). by rewrite E. }
  constructor; [done|by eapply hash_lsame| | |].
  - intros q b' Hq. destruct (Hb q b' Hq) as (b & Hqb & E & _). unfold is_static, c_flag. rewrite E.
    by apply (H3 q).
  - intros q b' Hq. destruct (Hb q b' Hq) as (b & Hqb & _ & ->). by apply (H4 q).
  - intros q b' Hq' Hq. destruct (Hb q b' Hq) as (b & Hqb & _ & ->). apply (Hin q); auto.
Qed.

Lemma hsame_ref c c' q : hsame c c' -> c_ref <$> (blks c' !! q) = c_ref <$> (blks c !! q).
Proof.
  intros Hs. pose proof (hsame_lookup c c' q Hs) as E.
  destruct (blks c' !! q) as [x|], (blks c !! q) as [y|]; try done.
  apply (inj Some) in E. change (Some (uncached x).1 = Some (uncached y).1). by rewrite E.
Qed.

Lemma lsame_cached c c' a q : lsame c c' -> cached_at c' a q <-> cached_at c a q.
Proof.
  intros Hs. assert (Hr : reffed c c' q 0).
  { intros r. rewrite (lsame_lookup c c' r Hs). destruct (decide (r = q)); [|done].
    destruct (blks c !! r) as [b|]; [|done]. cbn. do 2 f_equal. destruct b. unfold strip, add_ref. cbn.
    by rewrite Z.add_0_r. }
  by eapply reffed_cached.
Qed.

Lemma cachepluck_ok c L H :
  cache_ok c L H ->
  (L = [] /\ cachepluck c = Ok None) \/
  (exists L0 p c' H', L = L0 ++ [p] /\ cachepluck c = Ok (Some (p, c')) /\
     cache_ok c' L0 H' /\ plucked c c' p).
Proof.
  intros Hok. unfold cachepluck. rewrite (lo_tail _ _ _ _ (ck_lru _ _ _ Hok)).
  destruct (last L) as [p|] eqn:El; [|left; by apply last_None in El]. right.
  pose proof El as (L0 & ->)%last_Some.
  destruct (lru_in_blks c _ p (ck_lru _ _ _ Hok)) as [b Hb]; [by apply last_in|].
  assert (Hr : c_ref b = 0) by (apply (ck_idle _ _ _ Hok p); [by apply last_in|done]).
  rewrite (deref_ok c p b Hb). cbn [rbind]. rewrite Hr. cbn [Z.eqb].
  change Bcached with (2 ^ 3). rewrite checkflag_is by done. change (Z.testbit (c_flag b) 3) with (is_cached b).
  assert (E1 : exists c1 H1, (if is_cached b then cachedel_lk c (c_addr b) else Ok c) = Ok c1 /\
    cache_ok c1 (L0 ++ [p]) H1 /\ hsame c c1 /\
    forall a q, cached_at c1 a q <-> cached_at c a q /\ q ≠ p).
  { destruct (is_cached b) eqn:Ec.
    - destruct (cachedel_ok c _ H (c_addr b) Hok) as (c1 & H1 & E & Hok1 & Hs & Hcc).
      exists c1, H1. split; [done|]. split; [done|]. split; [done|]. intros a q. rewrite Hcc.
      assert (Hp : cached_at c (c_addr b) p) by (by exists b).
      split; intros [Hq Hne]; (split; [done|]); intros ->; apply Hne.
      + destruct Hq as (b2 & Hb2 & _ & <-). congruence.
      + apply cached_hview in Hp as (x & Hx). apply cached_hview in Hq as (y & Hy).
        by eapply (ho_inj _ _ _ (ck_hash _ _ _ Hok)).
    - exists c, H. split; [done|]. split; [done|]. split; [done|]. intros a q.
      split; [|tauto]. intros Hq. split; [done|]. intros ->.
      destruct Hq as (b2 & Hb2 & E2 & _). congruence. }
  destruct E1 as (c1 & H1 & E1 & Hok1 & Hs1 & Hc1). rewrite E1. cbn [rbind].
  pose proof (hsame_ref c c1 p Hs1) as Hr1. rewrite Hb in Hr1.
  destruct (blks c1 !! p) as [b1|] eqn:Hb1; [|done]. cbn in Hr1. injection Hr1 as Hr1.
  rewrite (deref_ok c1 p b1 Hb1). cbn [rbind]. rewrite checkflag_not by done.
  change (Z.testbit (c_flag b1) 3) with (is_cached b1).
  assert (Hcb : is_cached b1 = false).
  { destruct (is_cached b1) eqn:E; [|done]. destruct (Hc1 (c_addr b1) p) as [Hx _].
    destruct Hx as [_ ?]; [by exists b1|done]. }
  rewrite Hcb. cbn [negb].
  destruct (lrudel_ok c1 _ p b1 (ck_lru _ _ _ Hok1) Hb1) as (c2 & E2 & S2 & L2). rewrite E2. cbn [rbind].
  rewrite lrm_split, app_nil_r in L2 by apply (lo_nodup _ _ _ _ (ck_lru _ _ _ Hok1)).
  assert (Hok2 : cache_ok c2 L0 H1).
  { eapply cache_ok_lsame; [exact Hok1|exact S2|exact L2|]. intros q bq Hq. apply (ck_idle _ _ _ Hok1). apply elem_of_app. by left. }
  pose proof (lsame_lookup c1 c2 p S2) as Hb2. rewrite Hb1 in Hb2.
  destruct (blks c2 !! p) as [b2|] eqn:Eb2; [|done]. apply (inj Some) in Hb2.
  destruct (reset_ok c2 L0 H1 p b2 Hok2) as (c3 & b3 & E3 & Hok3 & B3 & Hr3 & Hf3 & Hv3); [|done| | |].
  { pose proof (lo_nodup _ _ _ _ (ck_lru _ _ _ Hok)) as (_ & Hd & _)%NoDup_app.
    intros Hp. apply (Hd p Hp). by left. }
  { change (is_cached (strip b2) = false). by rewrite Hb2. }
  { change (c_ref (strip b2) = 0). rewrite Hb2. cbn. congruence. }
  exists L0, p, c3, H1. split; [done|].
  apply rbind_ok in E3 as (ca & Ea & E3). rewrite Ea. cbn [rbind].
  apply rbind_ok in E3 as (cb & Eb & E3). rewrite Eb. cbn [rbind]. rewrite E3. cbn [rbind].
  split; [done|]. split; [done|]. constructor.
  - exists b3. rewrite B3, lookup_insert, decide_True by done. done.
  - intros q Hq. rewrite B3, lookup_insert_ne by congruence.
    rewrite <- (hsame_ref c c1 q Hs1). pose proof (lsame_lookup c1 c2 q S2) as E.
    destruct (blks c2 !! q) as [x|], (blks c1 !! q) as [y|]; try done.
    apply (inj Some) in E. change (Some (c_ref (strip x)) = Some (c_ref (strip y))). by rewrite E.
  - intros a q. rewrite <- Hc1, <- (lsame_cached c1 c2 a q S2), !cached_hview, Hv3. done.
Qed.

Lemma reffed_static c c' p n : reffed c c' p n ->
  (forall q b, blks c !! q = Some b -> is_static b = false) ->
  forall q b, blks c' !! q = Some b -> is_static b = false.
Proof.
  intros Hr H3 q b' Hq. destruct (reffed_inv _ _ _ _ _ _ Hr Hq) as (b0 & Hb0 & E & _).
  unfold is_static, c_flag. rewrite E. by apply (H3 q).
Qed.

(** One reference fewer, without the LRU list. *)
Lemma dec_ok c L H p b :
  cache_ok c L H -> blks c !! p = Some b -> 0 < c_ref b ->
  exists c', upd c p (add_ref (-1)) = Ok c' /\ cache_ok c' L H /\ reffed c c' p (-1) /\
    blks c' !! p = Some (add_ref (-1) b).
Proof.
  intros [H1 H2 H3 H4 H5] Hb Hr.
  destruct (upd_ref c L H p b (-1) H1 H2 Hb) as (c' & E & L1 & Hh1 & B).
  assert (Hrf : reffed c c' p (-1)) by (by eapply reffed_upd).
  exists c'. split; [done|]. split; [|split; [done|by rewrite B, lookup_insert, decide_True]].
  constructor; [done|done|by eapply reffed_static| |].
  - intros q b' Hq. destruct (reffed_inv _ _ _ _ _ _ Hrf Hq) as (b0 & Hb0 & _ & E').
    specialize (H4 q b0 Hb0). rewrite E'. destruct (decide (q = p)) as [->|]; [|done].
    rewrite Hb in Hb0. injection Hb0 as <-. lia.
  - intros q b' Hin Hq. destruct (reffed_inv _ _ _ _ _ _ Hrf Hq) as (b0 & Hb0 & _ & E').
    specialize (H5 q b0 Hin Hb0). rewrite E'. destruct (decide (q = p)) as [->|]; [|done].
    rewrite Hb in Hb0. injection Hb0 as <-. lia.
Qed.

(** One reference more: the block is held already. *)
Lemma inc_ok c L H p b :
  cache_ok c L H -> blks c !! p = Some b -> 0 < c_ref b ->
  exists c', holdblk c p = Ok c' /\ cache_ok c' L H /\ reffed c c' p 1.
Proof.
  intros [H1 H2 H3 H4 H5] Hb Hr. unfold holdblk.
  destruct (upd_ref c L H p b 1 H1 H2 Hb) as (c' & E & L1 & Hh1 & B).
  assert (Hrf : reffed c c' p 1) by (by eapply reffed_upd).
  exists c'. split; [done|]. split; [|done].
  constructor; [done|done|by eapply reffed_static| |].
  - intros q b' Hq. destruct (reffed_inv _ _ _ _ _ _ Hrf Hq) as (b0 & Hb0 & _ & E').
    specialize (H4 q b0 Hb0). rewrite E'. destruct (decide (q = p)); lia.
  - intros q b' Hin Hq. destruct (reffed_inv _ _ _ _ _ _ Hrf Hq) as (b0 & Hb0 & _ & E').
    specialize (H5 q b0 Hin Hb0). rewrite E'. destruct (decide (q = p)) as [->|]; [|done].
    rewrite Hb in Hb0. injection Hb0 as <-. lia.
Qed.

Lemma static_flag c L H p b : cache_ok c L H -> blks c !! p = Some b -> checkflag (c_flag b) 0 Bstatic = true.
Proof.
  intros Hok Hb. change Bstatic with (2 ^ 6). rewrite checkflag_not by done.
  pose proof (ck_static _ _ _ Hok p b Hb) as E. unfold is_static in E. by rewrite E.
Qed.

(** Putting an unheld block into the list, and leaving a held one alone. *)
Lemma relink_ok (top : bool) c L H p b :
  cache_ok c L H -> blks c !! p = Some b ->
  exists c', (if top then lrutop c p else lrubot c p) = Ok c' /\ lsame c c' /\
    cache_ok c' (if c_ref b =? 0 then if top then p :: lrm p L else lrm p L ++ [p] else L) H.
Proof.
  intros Hok Hb. pose proof (static_flag c L H p b Hok Hb) as Hf.
  destruct (Z.eqb_spec (c_ref b) 0) as [Hr|Hr].
  - assert (Hx : exists c', (if top then lrutop c p else lrubot c p) = Ok c' /\ lsame c c' /\
      lru_is c' (if top then p :: lrm p L else lrm p L ++ [p])).
    { pose proof (ck_lru _ _ _ Hok). destruct top; [by eapply lrutop_ok|by eapply lrubot_ok]. }
    destruct Hx as (c' & E & S & Hl). exists c'. split; [done|]. split; [done|].
    eapply cache_ok_lsame; [exact Hok|exact S|exact Hl|]. intros q bq Hq Hbq.
    assert (Hqp : q = p \/ q ∈ L).
    { destruct top; rewrite ?elem_of_cons, ?elem_of_app, ?elem_of_lrm, ?list_elem_of_singleton in Hq; tauto. }
    destruct Hqp as [->|Hin]; [congruence|]. by apply (ck_idle _ _ _ Hok q).
  - exists c. split; [|split; [done|exact Hok]]. unfold lrutop, lrubot. rewrite (deref_ok c p b Hb). cbn [rbind].
    rewrite Hf. apply Z.eqb_neq in Hr. rewrite Hr. by destruct top.
Qed.

Lemma dropblk_ok c L H p b :
  cache_ok c L H -> blks c !! p = Some b -> 0 < c_ref b ->
  exists c' L', dropblk c (Some p) = Ok c' /\ cache_ok c' L' H /\
    L' = (if c_ref b =? 1 then if checkflag (c_flag b) Bfreed 0 then lrm p L ++ [p] else p :: lrm p L
          else L) /\
    (forall q, c_ref <$> (blks c' !! q) = (if decide (q = p) then fun b => c_ref b - 1 else c_ref) <$> (blks c !! q)) /\
    (forall a q, cached_at c' a q <-> cached_at c a q).
Proof.
  intros Hok Hb Hr. unfold dropblk.
  destruct (dec_ok c L H p b Hok Hb Hr) as (c1 & E1 & Hok1 & Hrf & Hb1). rewrite E1. cbn [rbind].
  rewrite (deref_ok c1 p _ Hb1). cbn [rbind].
  change (c_ref (add_ref (-1) b)) with (c_ref b + -1).
  change (c_flag (add_ref (-1) b)) with (c_flag b).
  assert (Hcnt : forall c', lsame c1 c' -> forall q, c_ref <$> (blks c' !! q) =
    (if decide (q = p) then fun b => c_ref b - 1 else c_ref) <$> (blks c !! q)).
  { intros c' Hs q. pose proof (lsame_lookup c1 c' q Hs) as E. rewrite (Hrf q) in E.
    destruct (blks c' !! q) as [x|], (blks c !! q) as [y|]; try (by destruct (decide (q = p))).
    destruct (decide (q = p)); apply (inj Some) in E; change (Some (c_ref (strip x)) = Some (c_ref (strip y) - 1)) ||
      change (Some (c_ref (strip x)) = Some (c_ref (strip y))); by rewrite E. }
  assert (Hcc : forall c', lsame c1 c' -> forall a q, cached_at c' a q <-> cached_at c a q).
  { intros c' Hs a q. rewrite (lsame_cached c1 c' a q Hs). by eapply reffed_cached. }
  destruct (Z.eqb_spec (c_ref b + -1) 0) as [E0|E0]; cbn [negb].
  - replace (c_ref b =? 1) with true by (symmetry; apply Z.eqb_eq; lia).
    destruct (relink_ok (negb (checkflag (c_flag b) Bfreed 0)) c1 L H p _ Hok1 Hb1) as (c2 & E2 & S2 & Hok2).
    change (c_ref (add_ref (-1) b)) with (c_ref b + -1) in Hok2.
    rewrite E0 in Hok2. cbn [Z.eqb] in Hok2.
    exists c2. destruct (checkflag (c_flag b) Bfreed 0); cbn [negb] in *; eexists;
      (split; [exact E2|]; split; [exact Hok2|]; split; [done|]; split; [by apply Hcnt|by apply Hcc]).
  - replace (c_ref b =? 1) with false by (symmetry; apply Z.eqb_neq; lia).
    exists c1, L. split; [done|]. split; [done|]. split; [done|].
    split; [by apply Hcnt|by apply Hcc].
Qed.

(** A change of the contents of a block that keeps the address and the
    cached and static flags. *)
Lemma write_ok c L H p b x :
  cache_ok c L H -> blks c !! p = Some b ->
  Z.testbit (b_flag x) 3 = is_cached b -> Z.testbit (b_flag x) 6 = false ->
  (is_cached b = true -> bp_addr (b_bp x) = c_addr b) ->
  exists c', upd c p (set_blk x) = Ok c' /\ cache_ok c' L H /\
    blks c' = <[p := set_blk x b]> (blks c) /\
    (forall a q, cached_at c' a q <-> cached_at c a q).
Proof.
  intros [H1 H2 H3 H4 H5] Hb Hc Hst Ha.
  destruct (upd_blks c p (set_blk x) b Hb) as (c' & E & B & CH & CT & BC).
  assert (Hn : is_cached b = false -> c_hnext b = None).
  { intros Hcf. pose proof (hview_lookup c p) as Ev. rewrite Hb in Ev. cbn -[is_cached c_addr] in Ev.
    rewrite Hcf in Ev. by pose proof (ho_all _ _ _ H2 _ _ _ _ Ev). }
  assert (Hv : hview c' = <[p := (c_hnext b, is_cached b, bp_addr (b_bp x))]> (hview c)).
  { unfold hview. rewrite B, fmap_insert.
    change (is_cached (set_blk x b) = is_cached b) in Hc. by rewrite Hc. }
  assert (Hvs : is_cached b = true -> hview c' = hview c).
  { intros Hct. rewrite Hv, Ha by done. apply insert_id.
    rewrite hview_lookup, Hb. cbn -[is_cached c_addr]. done. }
  exists c'. split; [done|]. split; [|split; [done|]].
  2:{ intros a q. rewrite !cached_hview. destruct (is_cached b) eqn:Ecb; [by rewrite Hvs|].
      rewrite Hv. destruct (decide (q = p)) as [->|Hne]; [|by rewrite lookup_insert_ne by congruence].
      rewrite lookup_insert, decide_True, hview_lookup, Hb by done. cbn -[is_cached c_addr].
      rewrite Ecb. split; intros (y & Hy); discriminate Hy. }
  constructor.
  - unfold lru_is, links. rewrite B, CH, CT, (fmap_upd _ _ p b) by done. exact H1.
  - unfold hash_is. rewrite BC. destruct (is_cached b) eqn:Ecb; [by rewrite Hvs|].
    rewrite Hv. destruct H2 as [G1 G2 G3 G4 G5 G6 G7].
    assert (Hvp : hview c !! p = Some (None, false, c_addr b)).
    { rewrite hview_lookup, Hb. cbn -[is_cached c_addr]. by rewrite Hn, Ecb. }
    constructor; try done.
    + intros h l A q B' Hl El. destruct (G5 h l A q B' Hl El) as (a & Hq & Hx). exists a.
      rewrite lookup_insert_ne; [done|]. intros ->. congruence.
    + intros q y cc a Hq. destruct (decide (q = p)) as [->|Hne].
      * rewrite lookup_insert, decide_True in Hq by done. injection Hq as <- <- <-. by rewrite Hn.
      * rewrite lookup_insert_ne in Hq by congruence. by apply (G6 q).
    + intros q r y z a Hq Hr.
      assert (q ≠ p). { intros ->. rewrite lookup_insert, decide_True in Hq by done. discriminate. }
      assert (r ≠ p). { intros ->. rewrite lookup_insert, decide_True in Hr by done. discriminate. }
      rewrite lookup_insert_ne in Hq by congruence. rewrite lookup_insert_ne in Hr by congruence.
      by eapply G7.
  - rewrite B. intros q y Hq. destruct (decide (q = p)) as [->|Hne].
    + rewrite lookup_insert, decide_True in Hq by done. by injection Hq as <-.
    + rewrite lookup_insert_ne in Hq by congruence. by apply (H3 q).
  - rewrite B. intros q y Hq. destruct (decide (q = p)) as [->|Hne].
    + rewrite lookup_insert, decide_True in Hq by done. injection Hq as <-. by apply (H4 p b).
    + rewrite lookup_insert_ne in Hq by congruence. by apply (H4 q).
  - rewrite B. intros q y Hin Hq. destruct (decide (q = p)) as [->|Hne].
    + rewrite lookup_insert, decide_True in Hq by done. injection Hq as <-. by apply (H5 p b).
    + rewrite lookup_insert_ne in Hq by congruence. by apply (H5 q).
Qed.

(** ** Interleaving

    The threads of the program take turns at the sections that [lrulk]
    protects and at the atomic changes of [ref].  [s_hold] lists the
    references that threads hold, [s_drop] the blocks whose count a thread
    has brought to zero and that it is about to put into the LRU list.  The
    static blocks (superblocks and headers), which keep a reference for ever
    and are not in the table, take no part.  [cache_safe] shows that a step is
    never missing because its operation fails: under the condition of its
    step an operation succeeds; an insertion needs its block and its address
    not to be cached, which [getblk] has from a look-up under the lock of the
    address. *)

Record Sys := mkSys { s_c : Cache; s_hold : list nat; s_drop : list nat }.

Inductive cstep : Sys -> Sys -> Prop :=
  | step_get c c' hs ds a q :
      cacheget c a = Ok (Some q, c') -> cstep (mkSys c hs ds) (mkSys c' (q :: hs) ds)
  | step_pluck c c' hs ds p :
      cachepluck c = Ok (Some (p, c')) -> cstep (mkSys c hs ds) (mkSys c' (p :: hs) ds)
  | step_hold c c' hs ds p :
      p ∈ hs -> holdblk c p = Ok c' -> cstep (mkSys c hs ds) (mkSys c' (p :: hs) ds)
  | step_dec c c' hs hs' ds p b :
      Permutation hs (p :: hs') -> upd c p (add_ref (-1)) = Ok c' -> blks c' !! p = Some b ->
      cstep (mkSys c hs ds) (mkSys c' hs' (if c_ref b =? 0 then p :: ds else ds))
  | step_lru (top : bool) c c' hs ds ds' p :
      Permutation ds (p :: ds') -> (if top then lrutop c p else lrubot c p) = Ok c' ->
      cstep (mkSys c hs ds) (mkSys c' hs ds')
  | step_ins c c' hs ds p b :
      p ∈ hs -> blks c !! p = Some b -> c_addr b ≠ -1 -> cacheins c p = Ok c' ->
      cstep (mkSys c hs ds) (mkSys c' hs ds)
  | step_del c c' hs ds a :
      cachedel c a = Ok c' -> cstep (mkSys c hs ds) (mkSys c' hs ds)
  | step_write c c' hs ds p b x :
      p ∈ hs -> blks c !! p = Some b ->
      Z.testbit (b_flag x) 3 = is_cached b -> Z.testbit (b_flag x) 6 = false ->
      (is_cached b = true -> bp_addr (b_bp x) = c_addr b) ->
      upd c p (set_blk x) = Ok c' -> cstep (mkSys c hs ds) (mkSys c' hs ds).

(** The references to a block in a list. *)
Definition holders (p : nat) (hs : list nat) : Z := Z.of_nat (length (filter (fun q => q = p) hs)).

Record sys_ok (s : Sys) (L : list nat) (H : list (list nat)) : Prop := {
  so_cache : cache_ok (s_c s) L H;
  so_dom : forall p, p ∈ s_hold s \/ p ∈ s_drop s -> is_Some (blks (s_c s) !! p);
  so_ref : forall p b, blks (s_c s) !! p = Some b -> c_ref b = holders p (s_hold s);
  so_idle : forall p b, blks (s_c s) !! p = Some b -> c_ref b = 0 -> p ∈ L \/ p ∈ s_drop s }.

Lemma holders_cons p q hs : holders p (q :: hs) = (if decide (q = p) then 1 else 0) + holders p hs.
Proof.
  unfold holders. rewrite filter_cons. destruct (decide (q = p)); [|lia]. cbn [length]. lia.
Qed.

Lemma holders_perm p hs hs' : Permutation hs hs' -> holders p hs = holders p hs'.
Proof. intros HP. unfold holders. f_equal. apply Permutation_length. by rewrite HP. Qed.

Lemma holders_pos p hs : p ∈ hs -> 0 < holders p hs.
Proof.
  intros (A & B & ->)%list_elem_of_split.
  rewrite (holders_perm p _ (p :: A ++ B)) by (symmetry; apply Permutation_middle).
  rewrite holders_cons, decide_True by done. unfold holders. lia.
Qed.

Lemma holders_zero p hs : holders p hs = 0 <-> p ∉ hs.
Proof.
  split; [intros E Hp; apply holders_pos in Hp; lia|].
  intros Hp. unfold holders. replace (filter (fun q => q = p) hs) with (@nil nat); [done|].
  symmetry. induction hs as [|q hs IH]; [done|]. apply not_elem_of_cons in Hp as [? ?].
  rewrite filter_cons_False by congruence. by apply IH.
Qed.

Lemma ins_check_inv c p a l fuel :
  (forall A q B, l = A ++ q :: B -> exists b, blks c !! q = Some b /\ c_hnext b = head B) ->
  ins_check fuel c p a (head l) = Ok tt ->
  forall q b, q ∈ l -> blks c !! q = Some b -> c_addr b ≠ a.
Proof.
  revert fuel. induction l as [|r l IH]; intros fuel Hl E q b Hq Hb.
  { by apply not_elem_of_nil in Hq. }
  destruct fuel as [|fuel]; [done|]. cbn [head ins_check] in E.
  destruct (Hl [] r l eq_refl) as (br & Hbr & Hn). rewrite (deref_ok c r br Hbr) in E. cbn [rbind] in E.
  destruct (negb (bool_decide (p = r)) && negb (c_addr br =? a)) eqn:Ec; [|done].
  rewrite Hn in E. apply andb_true_iff in Ec as [_ Ec]. zb.
  apply elem_of_cons in Hq as [->|Hq]; [congruence|].
  eapply (IH fuel); [|exact E|exact Hq|exact Hb]. intros A s B ->. apply (Hl (r :: A)). done.
Qed.

(** The assertions of [cacheins] say that neither the block nor its address
    was cached. *)
Lemma cacheins_inv c L H p b c' :
  cache_ok c L H -> blks c !! p = Some b -> cacheins c p = Ok c' ->
  is_cached b = false /\ forall q, ~ cached_at c (c_addr b) q.
Proof.
  intros Hok Hb E. pose proof (ck_hash _ _ _ Hok) as Hh.
  unfold cacheins in E. rewrite (deref_ok c p b Hb) in E. cbn [rbind] in E.
  destruct (checkflag (c_flag b) 0 (Z.lor Bstatic Bcached)) eqn:Ef; [|done].
  assert (Hc : is_cached b = false).
  { apply (proj1 (checkflag_iff _ _ _)) with (i := 3) in Ef; [exact Ef|done|done]. }
  split; [done|].
  destruct (upd_blks c p (set_flag (setflag (c_flag b) Bcached 0)) b Hb) as (c1 & E1 & B1 & CH1 & CT1 & BC1).
  rewrite E1 in E. cbn [rbind] in E.
  destruct (bool_decide (c_hnext b = None)); [|done].
  destruct (get_bucket_ok c H (c_addr b) Hh) as (l & Hl & Eg).
  replace (get_bucket c1 (bkt c (c_addr b))) with (get_bucket c (bkt c (c_addr b))) in E
    by (unfold get_bucket; by rewrite BC1).
  rewrite Eg in E. cbn [rbind] in E. bind_inv E as u Ec. destruct u.
  assert (Hpl : forall q, q ∈ l -> q ≠ p).
  { intros q (A & B & El)%list_elem_of_split ->.
    destruct (chain_blk c H _ l A p B Hh Hl El) as (b' & Hb' & _ & Hc' & _). congruence. }
  intros q Hq. pose proof (cached_in c H _ q l Hh Hl Hq) as Hin.
  destruct Hq as (bq & Hbq & _ & Ea).
  eapply (ins_check_inv c1 p _ l); [|exact Ec|exact Hin| |exact Ea].
  - intros A r B El. destruct (chain_blk c H _ l A r B Hh Hl El) as (b' & Hb' & Hn & _).
    exists b'. rewrite B1, lookup_insert_ne; [done|]. apply not_eq_sym, Hpl. rewrite El.
    apply elem_of_app. right. by left.
  - rewrite B1, lookup_insert_ne; [done|]. by apply not_eq_sym, Hpl.
Qed.

Lemma upd_inv c p f c' : upd c p f = Ok c' ->
  exists b, blks c !! p = Some b /\ blks c' = <[p := f b]> (blks c).
Proof.
  unfold upd, deref. intros E. destruct (blks c !! p) as [b|]; [|done].
  injection E as <-. eauto.
Qed.

Lemma lookup_upd_ref (m : gmap nat CBlk) p b q b' n :
  m !! p = Some b -> <[p := add_ref n b]> m !! q = Some b' ->
  exists b0, m !! q = Some b0 /\ c_ref b' = (if decide (p = q) then n else 0) + c_ref b0.
Proof.
  intros Hb Hq. destruct (decide (p = q)) as [->|Hne].
  - rewrite lookup_insert, decide_True in Hq by done. injection Hq as <-. exists b.
    split; [done|]. cbn. lia.
  - rewrite lookup_insert_ne in Hq by done. eauto.
Qed.

(** The bookkeeping after one reference was taken ([n = 1]). *)
Lemma so_ref_reffed c c' p hs :
  reffed c c' p 1 ->
  (forall q b, blks c !! q = Some b -> c_ref b = holders q hs) ->
  forall q b, blks c' !! q = Some b -> c_ref b = holders q (p :: hs).
Proof.
  intros Hr Hh q b' Hq. destruct (reffed_inv _ _ _ _ _ _ Hr Hq) as (b & Hb & _ & ->).
  rewrite holders_cons, <- (Hh q b Hb). destruct (decide (q = p)) as [->|].
  - rewrite decide_True by done. lia.
  - rewrite decide_False by congruence. lia.
Qed.

Lemma reffed_dom c c' p n q : reffed c c' p n -> is_Some (blks c !! q) <-> is_Some (blks c' !! q).
Proof.
  intros Hr. specialize (Hr q). destruct (blks c' !! q), (blks c !! q); by destruct (decide (q = p)).
Qed.

(** The bookkeeping when every count is the same. *)
Lemma so_same c c' hs ds L L' H' :
  sys_ok (mkSys c hs ds) L H' -> forall H, cache_ok c' L' H ->
  (forall q, c_ref <$> (blks c' !! q) = c_ref <$> (blks c !! q)) ->
  (forall q, q ∈ L -> q ∈ L') -> sys_ok (mkSys c' hs ds) L' H.
Proof.
  intros [_ H2 H3 H4] H Hok Hr Hin. cbn in *.
  assert (Hb : forall q b', blks c' !! q = Some b' -> exists b, blks c !! q = Some b /\ c_ref b' = c_ref b).
  { intros q b' Hq. specialize (Hr q). rewrite Hq in Hr. destruct (blks c !! q) as [b|]; [|done].
    injection Hr as Hr. eauto. }
  constructor; cbn; [done| | |].
  - intros q Hq. destruct (H2 q Hq) as [b Hb']. specialize (Hr q). rewrite Hb' in Hr.
    destruct (blks c' !! q); [eauto|done].
  - intros q b' Hq. destruct (Hb q b' Hq) as (b & Hqb & ->). by apply H3.
  - intros q b' Hq E. destruct (Hb q b' Hq) as (b & Hqb & E'). destruct (H4 q b Hqb); [congruence| |]; auto.
Qed.

Lemma step_get_ok c c' hs ds a q L H :
  sys_ok (mkSys c hs ds) L H -> cacheget c a = Ok (Some q, c') ->
  sys_ok (mkSys c' (q :: hs) ds) (lrm q L) H.
Proof.
  intros [H1 H2 H3 H4] E. cbn in *.
  destruct (cacheget_ok c L H a H1) as [(q' & c2 & E2 & Hc & Hok & Hr)|[E2 _]];
    rewrite E in E2; [|discriminate]. injection E2 as <- <-.
  constructor; cbn; [done| |by eapply so_ref_reffed|].
  - intros p Hp. apply (reffed_dom _ _ _ _ p Hr). rewrite elem_of_cons in Hp.
    destruct Hp as [[->|Hp]|Hp]; [|by apply H2; left|by apply H2; right].
    destruct Hc as (b & Hb & _). eauto.
  - intros p b Hp E0. destruct (reffed_inv _ _ _ _ _ _ Hr Hp) as (b0 & Hb0 & _ & Er).
    rewrite elem_of_lrm. destruct (decide (p = q)) as [->|Hne].
    + pose proof (ck_ref _ _ _ H1 q b0 Hb0). lia.
    + destruct (H4 p b0 Hb0); [congruence|by left|by right].
Qed.

Lemma step_pluck_ok c c' hs ds p L H :
  sys_ok (mkSys c hs ds) L H -> cachepluck c = Ok (Some (p, c')) ->
  (p ∉ hs) /\ exists L' H', sys_ok (mkSys c' (p :: hs) ds) L' H'.
Proof.
  intros [H1 H2 H3 H4] E. cbn in *.
  destruct (cachepluck_ok c L H H1) as [[_ E2]|(L0 & p' & c2 & H' & -> & E2 & Hok & Hpl)];
    rewrite E in E2; [discriminate|]. injection E2 as <- <-.
  destruct (lru_in_blks c _ p (ck_lru _ _ _ H1)) as [b Hb]; [apply elem_of_app; right; by left|].
  assert (Hr : c_ref b = 0) by (apply (ck_idle _ _ _ H1 p); [apply elem_of_app; right; by left|done]).
  assert (Hph : p ∉ hs) by (apply holders_zero; rewrite <- (H3 p b Hb); done).
  split; [done|]. exists L0, H'. destruct Hpl as [(b' & Hb' & Hr' & _) Hrefs _].
  assert (Hb2 : forall q x, q ≠ p -> blks c' !! q = Some x -> exists y, blks c !! q = Some y /\ c_ref x = c_ref y).
  { intros q x Hne Hq. specialize (Hrefs q Hne). rewrite Hq in Hrefs.
    destruct (blks c !! q) as [y|]; [|done]. injection Hrefs as Hrefs. eauto. }
  constructor; cbn; [done| | |].
  - intros q Hq. destruct (decide (q = p)) as [->|Hne]; [eauto|].
    specialize (Hrefs q Hne). rewrite elem_of_cons in Hq.
    destruct (H2 q) as [y Hy]; [tauto|]. rewrite Hy in Hrefs. destruct (blks c' !! q); [eauto|done].
  - intros q x Hq. rewrite holders_cons. destruct (decide (p = q)) as [<-|Hne].
    + rewrite Hb' in Hq. injection Hq as <-. apply holders_zero in Hph. lia.
    + destruct (Hb2 q x) as (y & Hy & ->); [congruence|done|]. by rewrite (H3 q y Hy).
  - intros q x Hq E0. destruct (decide (q = p)) as [->|Hne].
    + rewrite Hb' in Hq. injection Hq as <-. lia.
    + destruct (Hb2 q x Hne Hq) as (y & Hy & Er). destruct (H4 q y Hy) as [Hin|]; [congruence| |by right].
      apply elem_of_app in Hin as [Hin|Hin%list_elem_of_singleton]; [by left|done].
Qed.

Lemma step_dec_ok c c' hs hs' ds p b L H :
  sys_ok (mkSys c hs ds) L H -> Permutation hs (p :: hs') ->
  upd c p (add_ref (-1)) = Ok c' -> blks c' !! p = Some b ->
  sys_ok (mkSys c' hs' (if c_ref b =? 0 then p :: ds else ds)) L H.
Proof.
  intros [H1 H2 H3 H4] HP E Hb'. cbn in *.
  assert (Hin : p ∈ hs) by (rewrite HP; by left).
  destruct (H2 p) as [b0 Hb0]; [by left|].
  pose proof (holders_pos p hs Hin) as Hpos. rewrite <- (H3 p b0 Hb0) in Hpos.
  destruct (dec_ok c L H p b0 H1 Hb0 Hpos) as (c2 & E2 & Hok & Hr & Hbp).
  rewrite E in E2. injection E2 as <-. rewrite Hb' in Hbp. injection Hbp as ->.
  set (ds' := if _ =? 0 then p :: ds else ds).
  assert (Hds : forall q, q ∈ ds -> q ∈ ds') by (intros q Hq; unfold ds'; destruct (_ =? 0); [by right|done]).
  constructor; cbn; [done| | |].
  - intros q Hq. apply (reffed_dom _ _ _ _ q Hr). unfold ds' in Hq.
    destruct Hq as [Hq|Hq]; [apply H2; left; rewrite HP; by right|].
    destruct (_ =? 0); [apply elem_of_cons in Hq as [->|Hq]; [eauto|]|]; apply H2; by right.
  - intros q x Hq. destruct (reffed_inv _ _ _ _ _ _ Hr Hq) as (y & Hy & _ & ->).
    rewrite (H3 q y Hy), (holders_perm q hs _ HP), holders_cons.
    destruct (decide (q = p)) as [->|]; [rewrite decide_True by done; lia|].
    rewrite decide_False by congruence. lia.
  - intros q x Hq E0. destruct (decide (q = p)) as [->|Hne].
    + right. rewrite Hb' in Hq. injection Hq as <-. unfold ds'. rewrite E0. by left.
    + destruct (reffed_inv _ _ _ _ _ _ Hr Hq) as (y & Hy & _ & Er). rewrite decide_False in Er by done.
      destruct (H4 q y Hy); [congruence|by left|right; by apply Hds].
Qed.

Lemma lsame_ref c c' q : lsame c c' -> c_ref <$> (blks c' !! q) = c_ref <$> (blks c !! q).
Proof.
  intros Hs. pose proof (lsame_lookup c c' q Hs) as E.
  destruct (blks c' !! q) as [x|], (blks c !! q) as [y|]; try done.
  apply (inj Some) in E. change (Some (c_ref (strip x)) = Some (c_ref (strip y))). by rewrite E.
Qed.

Lemma step_lru_ok (top : bool) c c' hs ds ds' p L H :
  sys_ok (mkSys c hs ds) L H -> Permutation ds (p :: ds') ->
  (if top then lrutop c p else lrubot c p) = Ok c' ->
  exists L', sys_ok (mkSys c' hs ds') L' H.
Proof.
  intros [H1 H2 H3 H4] HP E. cbn in *.
  destruct (H2 p) as [b Hb]; [right; rewrite HP; by left|].
  destruct (relink_ok top c L H p b H1 Hb) as (c2 & E2 & Hs & Hok).
  rewrite E in E2. injection E2 as <-. eexists. constructor; cbn; [exact Hok| | |].
  - intros q Hq. eapply lsame_is_Some; [exact Hs|]. apply H2.
    destruct Hq as [Hq|Hq]; [by left|right; rewrite HP; by right].
  - intros q x Hq. pose proof (lsame_ref c c' q Hs) as Er. rewrite Hq in Er.
    destruct (blks c !! q) as [y|] eqn:Hy; [|done]. injection Er as ->. by apply H3.
  - intros q x Hq E0. pose proof (lsame_ref c c' q Hs) as Er. rewrite Hq in Er.
    destruct (blks c !! q) as [y|] eqn:Hy; [|done]. injection Er as Er. rewrite E0 in Er.
    destruct (decide (q = p)) as [->|Hne].
    + left. rewrite Hb in Hy. injection Hy as <-. rewrite <- Er. cbn [Z.eqb].
      destruct top; [by left|]. apply elem_of_app. right. by left.
    + destruct (H4 q y Hy) as [Hin|Hin]; [done|left|].
      2:{ right. rewrite HP in Hin. by apply elem_of_cons in Hin as [?|?]. }
      destruct (c_ref b =? 0); [|done]. destruct top.
      * right. by apply elem_of_lrm.
      * apply elem_of_app. left. by apply elem_of_lrm.
Qed.

Lemma cstep_ok s s' L H : sys_ok s L H -> cstep s s' -> exists L' H', sys_ok s' L' H'.
Proof.
  intros Hs Hst. pose proof (so_cache _ _ _ Hs) as Hok. destruct Hst; cbn in *.
  - eexists _, _. by eapply step_get_ok.
  - by eapply step_pluck_ok.
  - destruct (so_dom _ _ _ Hs p) as [b Hb]; [by left|].
    pose proof (holders_pos p hs ltac:(done)) as Hpos. pose proof (so_ref _ _ _ Hs p b Hb) as Er0. cbn in Er0. rewrite <- Er0 in Hpos.
    destruct (inc_ok c L H p b Hok Hb Hpos) as (c2 & E & Hok2 & Hr). same_ok.
    exists L, H. destruct Hs as [G1 G2 G3 G4]. cbn in *. constructor; cbn; [done| |by eapply so_ref_reffed|].
    + intros q Hq. apply (reffed_dom _ _ _ _ q Hr). rewrite elem_of_cons in Hq.
      destruct Hq as [[->|Hq]|Hq]; [eauto|apply G2; by left|apply G2; by right].
    + intros q x Hq E0. destruct (reffed_inv _ _ _ _ _ _ Hr Hq) as (y & Hy & _ & Er).
      apply (G4 q y Hy). pose proof (ck_ref _ _ _ Hok q y Hy). destruct (decide (q = p)); lia.
  - eexists _, _. by eapply step_dec_ok.
  - destruct (step_lru_ok top c c' hs ds ds' p L H) as (L' & ?); [done..|]. eauto.
  - destruct (cacheins_inv c L H p b c' Hok) as [Hc Hno]; [done..|].
    destruct (cacheins_ok c L H p b Hok) as (c2 & H' & E & Hok2 & Hsm & _); [done..|]. same_ok.
    exists L, H'. eapply so_same; [exact Hs|done| |done]. intros q. by apply hsame_ref.
  - destruct (cachedel_ok c L H a Hok) as (c2 & H' & E & Hok2 & Hsm & _). unfold cachedel in *. same_ok.
    exists L, H'. eapply so_same; [exact Hs|done| |done]. intros q. by apply hsame_ref.
  - destruct (write_ok c L H p b x Hok) as (c2 & E & Hok2 & B & _); [done..|]. same_ok.
    exists L, H. eapply so_same; [exact Hs|done| |done]. intros q. rewrite B.
    destruct (decide (q = p)) as [->|Hne].
    + rewrite lookup_insert, decide_True by done. by replace (blks c !! p) with (Some b).
    + by rewrite lookup_insert_ne by congruence.
Qed.

(** ** The initial state (src/main.c: [initfs]) *)

Definition blk0 : CBlk :=
  mkCBlk (mkBlk 0 0 0 0 0 0 0 (mkBptr 0 0 0) Zb 0 zbuf) 0 None None None.

Definition initcache (cmax : nat) : res Cache :=
  foldl (fun r p => let! c := r in lrutop c p)
    (Ok (mkCache (list_to_map ((fun p => (p, blk0)) <$> seq 0 cmax)) None None
           (replicate cmax None)))
    (seq 0 cmax).

Lemma init_blks n p :
  (list_to_map ((fun p => (p, blk0)) <$> seq 0 n) : gmap nat CBlk) !! p =
  if decide (p < n)%nat then Some blk0 else None.
Proof.
  destruct (decide (p < n)%nat) as [Hlt|Hge].
  - apply elem_of_list_to_map_1.
    + rewrite <- list_fmap_compose. cbn.
      replace ((fst ∘ (fun p => (p, blk0))) <$> seq 0 n) with (seq 0 n); [apply NoDup_ListNoDup, seq_NoDup|].
      symmetry. apply list_fmap_id.
    + apply list_elem_of_fmap. exists p. split; [done|]. apply elem_of_seq. lia.
  - apply not_elem_of_list_to_map_1. intros Hin. apply list_elem_of_fmap in Hin as ([q x] & -> & Hin).
    apply list_elem_of_fmap in Hin as (r & [= -> ->] & Hr). apply elem_of_seq in Hr. cbn in *. lia.
Qed.

(** Both lists are empty at the start. *)
Lemma init_empty n : (0 < n)%nat ->
  cache_ok (mkCache (list_to_map ((fun p => (p, blk0)) <$> seq 0 n)) None None (replicate n None))
    [] (replicate n []).
Proof.
  intros Hn. set (c := mkCache _ _ _ _).
  assert (Hb : forall p b, blks c !! p = Some b -> b = blk0).
  { intros p b. unfold c. cbn [blks]. rewrite init_blks. destruct (decide _); congruence. }
  constructor.
  - constructor; [done|done|constructor| |].
    + intros A q B E. by destruct A.
    + intros q x Hq _. rewrite links_lookup in Hq. destruct (blks c !! q) as [b|] eqn:E; [|done].
      rewrite (Hb q b E) in Hq. by injection Hq as <-.
  - assert (Hrep : forall h (l : list nat), replicate n [] !! h = Some l -> l = [] /\ (h < n)%nat).
    { intros h l. apply lookup_replicate. }
    constructor.
    + unfold c. cbn. by rewrite !length_replicate.
    + unfold c. cbn. by rewrite length_replicate.
    + intros h l Hl. apply Hrep in Hl as [-> Hh]. unfold c. cbn [bcache head].
      apply lookup_replicate. done.
    + intros h l Hl. apply Hrep in Hl as [-> _]. constructor.
    + intros h l A q B Hl E. apply Hrep in Hl as [-> _]. by destruct A.
    + intros q x cc a Hq. rewrite hview_lookup in Hq. destruct (blks c !! q) as [b|] eqn:E; [|done].
      rewrite (Hb q b E) in Hq. by injection Hq as <- <- _.
    + intros p q x y a Hp _. rewrite hview_lookup in Hp. destruct (blks c !! p) as [b|] eqn:E; [|done].
      rewrite (Hb p b E) in Hp. discriminate Hp.
  - intros p b Hp. by rewrite (Hb p b Hp).
  - intros p b Hp. by rewrite (Hb p b Hp).
  - intros p b Hp. by apply not_elem_of_nil in Hp.
Qed.

Lemma init_loop k n H c :
  cache_ok c [] H -> (forall p, (p < n)%nat -> exists b, blks c !! p = Some b /\ c_ref b = 0) ->
  (k <= n)%nat ->
  exists c', foldl (fun r p => let! c := r in lrutop c p) (Ok c) (seq 0 k) = Ok c' /\
    lsame c c' /\ cache_ok c' (rev (seq 0 k)) H.
Proof.
  intros Hok Hb. induction k as [|k IH]; intros Hk; [by exists c|].
  destruct IH as (c1 & E1 & S1 & Hok1); [lia|].
  rewrite seq_S, foldl_app, E1. cbn [foldl rbind Nat.add].
  destruct (Hb k) as (b & Hbk & Hr); [lia|].
  pose proof (lsame_ref c c1 k S1) as Er. rewrite Hbk in Er.
  destruct (blks c1 !! k) as [b1|] eqn:Hb1; [|done]. injection Er as Er.
  destruct (relink_ok true c1 (rev (seq 0 k)) H k b1 Hok1 Hb1) as (c2 & E2 & S2 & Hok2).
  exists c2. split; [done|]. split; [by eapply lsame_trans|].
  rewrite Er, Hr in Hok2. cbn [Z.eqb] in Hok2. rewrite rev_app_distr. cbn.
  rewrite lrm_notin in Hok2; [done|].
  rewrite list_elem_of_In, <- in_rev, in_seq. lia.
Qed.

Lemma initcache_ok n : (0 < n)%nat -> exists c H,
  initcache n = Ok c /\ cache_ok c (rev (seq 0 n)) H /\ sys_ok (mkSys c [] []) (rev (seq 0 n)) H /\
  (forall a q, ~ cached_at c a q).
Proof.
  intros Hn. unfold initcache. set (c0 := mkCache _ _ _ _).
  pose proof (init_empty n Hn : cache_ok c0 _ _) as Hok.
  destruct (init_loop n n (replicate n []) c0 Hok) as (c & E & S & Hok'); [|lia|].
  { intros p Hp. exists blk0. split; [|done]. unfold c0. cbn [blks]. rewrite init_blks.
    by rewrite decide_True. }
  assert (Hb : forall p b, blks c !! p = Some b -> (p < n)%nat /\ c_ref b = 0 /\ is_cached b = false).
  { intros p b Hp. pose proof (lsame_lookup c0 c p S) as El. rewrite Hp in El.
    change (blks c0 !! p) with ((list_to_map ((fun p => (p, blk0)) <$> seq 0 n) : gmap nat CBlk) !! p) in El.
    rewrite init_blks in El. destruct (decide (p < n)%nat); [|done]. split; [done|].
    apply (inj Some) in El.
    change (c_ref (strip b) = 0 /\ is_cached (strip b) = false). by rewrite El. }
  exists c, (replicate n []). split; [done|]. split; [done|]. split.
  - constructor; cbn; [done| | |].
    + intros p [Hp|Hp]; by apply not_elem_of_nil in Hp.
    + intros p b Hp. by destruct (Hb p b Hp) as (_ & -> & _).
    + intros p b Hp _. left. destruct (Hb p b Hp) as (Hlt & _).
      rewrite list_elem_of_In, <- in_rev, in_seq. lia.
  - intros a q (b & Hq & Hc & _). destruct (Hb q b Hq) as (_ & _ & E'). congruence.
Qed.

(** ** The abstract cache: a finite map and a list *)

Definition cache_repr (c : Cache) (L : list nat) (M : gmap Z nat) : Prop :=
  (exists H, cache_ok c L H) /\ forall a q, M !! a = Some q <-> cached_at c a q.

(** The map without the entries of a block. *)
Definition evict (p : nat) (M : gmap Z nat) : gmap Z nat := filter (fun x => x.2 ≠ p) M.

Lemma evict_lookup p M a q : evict p M !! a = Some q <-> M !! a = Some q /\ q ≠ p.
Proof. unfold evict. rewrite map_lookup_filter_Some. done. Qed.

Lemma get_refines c L M a :
  cache_repr c L M -> exists c', cacheget c a = Ok (M !! a, c') /\
    cache_repr c' (match M !! a with Some q => lrm q L | None => L end) M /\
    match M !! a with Some q => reffed c c' q 1 | None => c' = c end.
Proof.
  intros [[H Hok] HM]. destruct (cacheget_ok c L H a Hok) as [(q & c' & E & Hc & Hok' & Hr)|[E Hno]].
  - apply HM in Hc. exists c'. rewrite Hc, E. split; [done|]. split; [|done]. split; [eauto|].
    intros a' r. rewrite HM. symmetry. by eapply reffed_cached.
  - exists c. assert (En : M !! a = None).
    { destruct (M !! a) as [q|] eqn:Em; [|done]. by apply HM in Em as ?%Hno. }
    rewrite En, E. split; [done|]. split; [|done]. split; [eauto|done].
Qed.

Lemma pluck_refines c L M :
  cache_repr c L M ->
  match last L with
  | None => cachepluck c = Ok None
  | Some p => exists c' b, cachepluck c = Ok (Some (p, c')) /\ cache_repr c' (lrm p L) (evict p M) /\
      blks c' !! p = Some b /\ c_ref b = 1 /\ c_flag b = 0
  end.
Proof.
  intros [[H Hok] HM]. destruct (cachepluck_ok c L H Hok) as [[-> E]|(L0 & p & c' & H' & -> & E & Hok' & Hp)].
  - done.
  - rewrite last_snoc. destruct Hp as [(b & Hb & Hr & Hf) _ Hc]. exists c', b. split; [done|].
    split; [|done]. split.
    + exists H'. rewrite lrm_split, app_nil_r; [done|]. apply (lo_nodup _ _ _ _ (ck_lru _ _ _ Hok)).
    + intros a q. by rewrite evict_lookup, HM, Hc.
Qed.

Lemma ins_refines c L M p b :
  cache_repr c L M -> blks c !! p = Some b -> c_addr b ≠ -1 -> M !! c_addr b = None ->
  (forall a, M !! a ≠ Some p) ->
  exists c', cacheins c p = Ok c' /\ cache_repr c' L (<[c_addr b := p]> M) /\ hsame c c'.
Proof.
  intros [[H Hok] HM] Hb Ha Hn Hp.
  assert (Hc : is_cached b = false).
  { destruct (is_cached b) eqn:E; [|done]. exfalso. apply (Hp (c_addr b)), HM. by exists b. }
  destruct (cacheins_ok c L H p b Hok Hb Hc Ha) as (c' & H' & E & Hok' & Hs & Hcc).
  { intros q Hq. apply HM in Hq. congruence. }
  exists c'. split; [done|]. split; [|done]. split; [eauto|]. intros a q. rewrite Hcc, <- HM.
  destruct (decide (a = c_addr b)) as [->|Hne].
  - rewrite lookup_insert, decide_True by done. split; [by intros [= ->]; right|].
    intros [?|[-> _]]; congruence.
  - rewrite lookup_insert_ne by congruence. split; [by left|]. by intros [?|[_ ?]].
Qed.

Lemma readblk_keeps b bp flg d x :
  readblk b bp flg d = Ok x ->
  b_flag x = b_flag b /\ bp_addr (b_bp x) = bp_addr bp.
Proof.
  unfold readblk. intros E. bind_inv E as buf E1. bind_inv E as ty E2. bind_inv E as y E3.
  bind_inv E as [xh ck] E4. destruct (_ && _); [done|]. injection E as ->.
  revert E3. unfold readhdr. destruct (_ || _); [by intros [= <-]|].
  destruct (_ || _); [intros E3; do 4 bind_skip E3; by injection E3 as <-|].
  destruct (ty =? Tpivot); [intros E3; do 4 bind_skip E3; by injection E3 as <-|].
  destruct (ty =? Tleaf); [intros E3; do 2 bind_skip E3; by injection E3 as <-|done].
Qed.

(** The block [getblk] fills from what [readblk] gives. *)
Definition with_gen (x : Blk) (gen : Z) : Blk :=
  mkBlk (b_type x) (b_nval x) (b_valsz x) (b_nbuf x) (b_bufsz x) (b_logsz x) (b_logh x)
    (b_logp x) (mkBptr (bp_addr (b_bp x)) (bp_hash (b_bp x)) gen) (b_flag x) (b_buf x).

Lemma getblk_hit_spec c L M d bp flg q b :
  cache_repr c L M -> M !! bp_addr bp = Some q -> blks c !! q = Some b ->
  checkflag (c_flag b) 0 Bfreed = true ->
  exists c', getblk c d bp flg = Ok (Some (c', Ok q)) /\ cache_repr c' (lrm q L) M /\ reffed c c' q 1.
Proof.
  intros HR Hq Hb Hf. destruct (get_refines c L M (bp_addr bp) HR) as (c' & E & HR' & Hr).
  rewrite Hq in *. exists c'. split; [|done]. unfold getblk. rewrite E. cbn [rbind].
  assert (Hb' : exists b', blks c' !! q = Some b') by (apply (reffed_dom _ _ _ _ q Hr); eauto).
  destruct Hb' as [b' Hb']. rewrite (deref_ok c' q b' Hb'). cbn [rbind].
  destruct (reffed_inv _ _ _ _ _ _ Hr Hb') as (b0 & Hb0 & Ex & _).
  rewrite Hb in Hb0. injection Hb0 as <-. unfold c_flag in *. by rewrite Ex, Hf.
Qed.

Lemma getblk_miss_spec c L M d bp flg :
  cache_repr c L M -> M !! bp_addr bp = None -> bp_addr bp ≠ -1 ->
  match last L with
  | None => getblk c d bp flg = Ok None
  | Some p => exists b, b_flag b = 0 /\
      match readblk b bp flg d with
      | Ok x => exists c' b', getblk c d bp flg = Ok (Some (c', Ok p)) /\
          cache_repr c' (lrm p L) (<[bp_addr bp := p]> (evict p M)) /\
          blks c' !! p = Some b' /\ c_ref b' = 1 /\
          with_flag (c_blk b') 0 = with_gen x (bp_gen bp)
      | Err e => exists c' b', getblk c d bp flg = Ok (Some (c', Err e)) /\
          cache_repr c' (lrm p L) (evict p M) /\ blks c' !! p = Some b' /\ c_ref b' = 1
      end
  end.
Proof.
  intros HR Hn Ha. destruct (get_refines c L M (bp_addr bp) HR) as (c1 & E & _ & Ec).
  rewrite Hn in E, Ec. subst c1. unfold getblk. rewrite E. cbn [rbind].
  pose proof (pluck_refines c L M HR) as Hp. destruct (last L) as [p|] eqn:El; [|by rewrite Hp].
  destruct Hp as (c1 & b & Ep & [[H Hok] HM] & Hb & Hr & Hf). rewrite Ep. cbn [rbind].
  rewrite (deref_ok c1 p b Hb). cbn [rbind]. exists (c_blk b). split; [done|].
  destruct (readblk (c_blk b) bp flg d) as [x|e] eqn:Ex.
  2:{ exists c1, b. split; [done|]. split; [by split; [eauto|]|]. done. }
  destruct (readblk_keeps _ _ _ _ _ Ex) as [Hxf Hxa].
  change (b_flag (c_blk b)) with (c_flag b) in Hxf. rewrite Hf in Hxf.
  assert (Hcb : is_cached b = false) by (unfold is_cached; by rewrite Hf).
  destruct (write_ok c1 (lrm p L) H p b (with_gen x (bp_gen bp)) Hok Hb) as (c2 & E2 & Hok2 & B2 & Hc2).
  { rewrite Hcb. cbn. by rewrite Hxf. }
  { cbn. by rewrite Hxf. }
  { rewrite Hcb. discriminate. }
  fold (with_gen x (bp_gen bp)). rewrite E2. cbn [rbind].
  set (b2 := set_blk (with_gen x (bp_gen bp)) b) in *.
  assert (Hb2 : blks c2 !! p = Some b2) by (by rewrite B2, lookup_insert, decide_True).
  assert (HR2 : cache_repr c2 (lrm p L) (evict p M)).
  { split; [eauto|]. intros a q. by rewrite Hc2. }
  assert (Hba : c_addr b2 = bp_addr bp) by (unfold c_addr, b2; cbn; exact Hxa).
  destruct (ins_refines c2 (lrm p L) (evict p M) p b2 HR2 Hb2) as (c3 & E3 & HR3 & Hs3).
  { by rewrite Hba. }
  { rewrite Hba. destruct (evict p M !! bp_addr bp) eqn:Ev; [|done].
    apply evict_lookup in Ev as [Ev _]. congruence. }
  { intros a Ev. by apply evict_lookup in Ev as [_ ?]. }
  rewrite E3. cbn [rbind]. rewrite Hba in HR3.
  pose proof (hsame_lookup c2 c3 p Hs3) as El3. rewrite Hb2 in El3.
  destruct (blks c3 !! p) as [b3|] eqn:Hb3; [|done]. apply (inj Some) in El3.
  exists c3, b3. split; [done|]. split; [done|]. split; [done|]. split.
  - change ((uncached b3).1 = 1). rewrite El3. exact Hr.
  - change (with_flag (c_blk b3) 0 = with_gen x (bp_gen bp)).
    assert (Ew : with_flag (uncached b3).2 0 = with_flag (uncached b2).2 0) by (by rewrite El3).
    change (with_flag (c_blk b3) 0 = with_flag (with_gen x (bp_gen bp)) 0) in Ew. rewrite Ew.
    unfold with_flag, with_gen. cbn. by rewrite Hxf.
Qed.

Lemma initcache_repr n : (0 < n)%nat ->
  exists c, initcache n = Ok c /\ cache_repr c (rev (seq 0 n)) ∅.
Proof.
  intros Hn. destruct (initcache_ok n Hn) as (c & H & E & Hok & _ & Hno).
  exists c. split; [done|]. split; [eauto|]. intros a q. rewrite lookup_empty.
  split; [done|]. by intros ?%Hno.
Qed.

(** Reads that all fail with an i/o error, one after the other. *)
Fixpoint failing (c : Cache) (d : Disk) (bps : list Bptr) : res Cache :=
  match bps with
  | [] => Ok c
  | bp :: bps' =>
      let! r := getblk c d bp 0 in
      match r with
      | Some (c', Err Eio) => failing c' d bps'
      | _ => Err Eassert
      end
  end.

Lemma evict_empty p : evict p ∅ = ∅.
Proof. unfold evict. apply map_filter_empty. Qed.

Lemma failing_ok d bps : forall c L,
  cache_repr c L ∅ -> NoDup L -> length bps = length L ->
  Forall (fun bp => d !! bp_addr bp = None /\ bp_addr bp ≠ -1) bps ->
  exists c', failing c d bps = Ok c' /\ cache_repr c' [] ∅.
Proof.
  induction bps as [|bp bps IH]; intros c L HR Hnd Hlen Hd.
  { destruct L; [|done]. by exists c. }
  apply Forall_cons in Hd as [[Hno Ha] Hd].
  pose proof (getblk_miss_spec c L ∅ d bp 0 HR ltac:(by rewrite lookup_empty) Ha) as Hg.
  destruct (last L) as [p|] eqn:El.
  2:{ apply last_None in El as ->. done. }
  destruct Hg as (b & _ & Hg). unfold readblk, pread in Hg. rewrite Hno in Hg. cbn [rbind] in Hg.
  destruct Hg as (c' & b' & E & HR' & _). cbn [failing]. rewrite E. cbn [rbind].
  rewrite evict_empty in HR'. apply last_Some in El as (L0 & ->).
  rewrite lrm_split, app_nil_r in HR' by done. apply NoDup_app in Hnd as [Hnd _].
  apply (IH c' L0); [done|done| |done]. rewrite length_app in Hlen. cbn in Hlen. lia.
Qed.

(** ** Theorems *)


(** C17: the hash chains and the doubly linked list implement a finite map from
    addresses to blocks and a list of idle blocks: lookup returns the entry
    and takes it out of the list, deletion and insertion change the map only,
    eviction takes the last block of the list out of both, and dropping the
    last reference puts the block at the front, or at the back when it was
    freed. *)
Theorem cache_refines c L M :
  cache_repr c L M ->
  (forall a, exists c', cacheget c a = Ok (M !! a, c') /\
     cache_repr c' (match M !! a with Some q => lrm q L | None => L end) M) /\
  (forall a, exists c', cachedel c a = Ok c' /\ cache_repr c' L (delete a M)) /\
  (forall p b, blks c !! p = Some b -> c_addr b ≠ -1 -> M !! c_addr b = None ->
     (forall a, M !! a ≠ Some p) ->
     exists c', cacheins c p = Ok c' /\ cache_repr c' L (<[c_addr b := p]> M)) /\
  match last L with
  | None => cachepluck c = Ok None
  | Some p => exists c', cachepluck c = Ok (Some (p, c')) /\ cache_repr c' (lrm p L) (evict p M)
  end /\
  (forall p b, blks c !! p = Some b -> 0 < c_ref b ->
     exists c', dropblk c (Some p) = Ok c' /\
       cache_repr c' (if c_ref b =? 1
                      then if checkflag (c_flag b) Bfreed 0 then lrm p L ++ [p] else p :: lrm p L
                      else L) M).
Proof.
  intros HR. pose proof HR as [[H Hok] HM]. split; [|split; [|split; [|split]]].
  - intros a. destruct (get_refines c L M a HR) as (c' & E & HR' & _). eauto.
  - intros a. destruct (cachedel_ok c L H a Hok) as (c' & H' & E & Hok' & _ & Hc).
    exists c'. split; [done|]. split; [eauto|]. intros a' q.
    rewrite lookup_delete_Some, HM, Hc. intuition congruence.
  - intros p b Hb Ha Hn Hp. destruct (ins_refines c L M p b HR Hb Ha Hn Hp) as (c' & E & HR' & _). eauto.
  - pose proof (pluck_refines c L M HR) as Hp. destruct (last L) as [p|]; [|done].
    destruct Hp as (c' & b & E & HR' & _). eauto.
  - intros p b Hb Hr. destruct (dropblk_ok c L H p b Hok Hb Hr) as (c' & L' & E & Hok' & -> & _ & Hc).
    exists c'. split; [done|]. split; [eauto|]. intros a q. by rewrite HM, Hc.
Qed.

(** [getblk] gives a held copy of the block: the cached one when there is
    one, without reading the device, and otherwise the block [readblk] makes
    of the device in the least recently used buffer, which is then cached; it
    waits only when every buffer is in use. *)
Theorem getblk_correct c L M d bp flg :
  cache_repr c L M -> bp_addr bp ≠ -1 ->
  match M !! bp_addr bp, last L with
  | Some q, _ => forall b, blks c !! q = Some b -> checkflag (c_flag b) 0 Bfreed = true ->
      exists c' b', getblk c d bp flg = Ok (Some (c', Ok q)) /\ cache_repr c' (lrm q L) M /\
        blks c' !! q = Some b' /\ c_blk b' = c_blk b /\ c_ref b' = c_ref b + 1
  | None, None => getblk c d bp flg = Ok None
  | None, Some p => exists b, b_flag b = 0 /\
      match readblk b bp flg d with
      | Ok x => exists c' b', getblk c d bp flg = Ok (Some (c', Ok p)) /\
          cache_repr c' (lrm p L) (<[bp_addr bp := p]> (evict p M)) /\
          blks c' !! p = Some b' /\ c_ref b' = 1 /\ with_flag (c_blk b') 0 = with_gen x (bp_gen bp)
      | Err e => exists c', getblk c d bp flg = Ok (Some (c', Err e)) /\
          cache_repr c' (lrm p L) (evict p M)
      end
  end.
Proof.
  intros HR Ha. destruct (M !! bp_addr bp) as [q|] eqn:Em.
  - intros b Hb Hf. destruct (getblk_hit_spec c L M d bp flg q b HR Em Hb Hf) as (c' & E & HR' & Hr).
    assert (Hb' : exists b', blks c' !! q = Some b') by (apply (reffed_dom _ _ _ _ q Hr); eauto).
    destruct Hb' as [b' Hb']. exists c', b'. split; [done|]. split; [done|]. split; [done|].
    destruct (reffed_inv _ _ _ _ _ _ Hr Hb') as (b0 & Hb0 & Ex & Er).
    rewrite Hb in Hb0. injection Hb0 as <-. rewrite decide_True in Er by done. done.
  - pose proof (getblk_miss_spec c L M d bp flg HR Em Ha) as Hg.
    destruct (last L) as [p|]; [|done]. destruct Hg as (b & Hf & Hg). exists b. split; [done|].
    destruct (readblk b bp flg d) as [x|e]; [done|].
    destruct Hg as (c' & b' & E & HR' & _). eauto.
Qed.

(** C40: a read that fails keeps the buffer it took: nobody holds it and it is
    in neither list, so that as many failing reads as there are buffers leave
    [getblk] waiting for ever.  (The error handler of [getblk] releases the
    lock, not the block.) *)
Theorem getblk_error_leaks n d bps :
  (0 < n)%nat -> length bps = n ->
  Forall (fun bp => d !! bp_addr bp = None /\ bp_addr bp ≠ -1) bps ->
  exists c c', initcache n = Ok c /\ failing c d bps = Ok c' /\
    forall bp flg, bp_addr bp ≠ -1 -> getblk c' d bp flg = Ok None.
Proof.
  intros Hn Hlen Hd. destruct (initcache_repr n Hn) as (c & E & HR).
  destruct (failing_ok d bps c (rev (seq 0 n)) HR) as (c' & Ef & HR').
  { apply NoDup_ListNoDup, NoDup_rev, seq_NoDup. }
  { by rewrite length_rev, length_seq. }
  { done. }
  exists c, c'. split; [done|]. split; [done|]. intros bp flg Ha.
  apply (getblk_miss_spec c' [] ∅ d bp flg HR'); [by rewrite lookup_empty|done].
Qed.

(** ** Witnesses *)


Lemma cache_refines_witness : exists c, initcache 2 = Ok c /\
  exists c', cacheget c 16384 = Ok (None, c').
Proof.
  destruct (initcache_repr 2 ltac:(lia)) as (c & E & HR). exists c. split; [exact E|].
  destruct (proj1 (cache_refines c _ _ HR) 16384) as (c' & E' & _). exists c'. exact E'.
Defined.

Lemma getblk_correct_witness : exists c, initcache 2 = Ok c /\
  exists c', getblk c ∅ (mkBptr 16384 0 1) 0 = Ok (Some (c', Err Eio)).
Proof.
  destruct (initcache_repr 2 ltac:(lia)) as (c & E & HR). exists c. split; [exact E|].
  destruct (getblk_correct c _ _ ∅ (mkBptr 16384 0 1) 0 HR ltac:(done)) as (b & _ & Hg).
  destruct Hg as (c' & Eg & _). exists c'. exact Eg.
Defined.

Lemma getblk_error_leaks_witness : exists c c', initcache 1 = Ok c /\
  failing c ∅ [mkBptr 16384 0 1] = Ok c' /\
  forall bp flg, bp_addr bp ≠ -1 -> getblk c' ∅ bp flg = Ok None.
Proof.
  apply (getblk_error_leaks 1 ∅ [mkBptr 16384 0 1]); [lia|reflexivity|].
  repeat constructor; done.
Defined.
