(* ===== verification/Log.v ===== *)
(** * The allocation log (src/blk.c: [mklogblk], [logappend], [loadlog],
    [flushlog], [logbarrier], [compresslog], [blkdealloc_lk])

    An arena writes every allocation and every free to a log: a chain of
    blocks of entries, from [loghd] to the open block [logtl], which is one of
    two preallocated buffers.  Loading an arena replays the log. *)
From S2P Require Import Prelude CInt Mem Data Hash Pack Blk Alloc Io.

(** ** State *)

(** The log fields of [Arena]; [l_tl] says which buffer [logtl] points to. *)
Record LArena := mkLArena {
  l_a : Arena; l_b0 : Blk; l_b1 : Blk; l_tl : option bool;
  l_hd : Bptr; l_nlog : Z; l_lastlogsz : Z }.

Definition logbuf (l : LArena) (i : bool) : Blk := if i then l_b1 l else l_b0 l.

Definition set_logbuf (l : LArena) (i : bool) (b : Blk) : LArena :=
  mkLArena (l_a l) (if i then l_b0 l else b) (if i then b else l_b1 l) (l_tl l)
    (l_hd l) (l_nlog l) (l_lastlogsz l).

Definition set_arena (l : LArena) (a : Arena) : LArena :=
  mkLArena a (l_b0 l) (l_b1 l) (l_tl l) (l_hd l) (l_nlog l) (l_lastlogsz l).

Definition set_logtl (l : LArena) (i : bool) (nlog : Z) : LArena :=
  mkLArena (l_a l) (l_b0 l) (l_b1 l) (Some i) (l_hd l) nlog (l_lastlogsz l).

Definition set_flag (b : Blk) (set clr : Z) : Blk :=
  mkBlk (b_type b) (b_nval b) (b_valsz b) (b_nbuf b) (b_bufsz b) (b_logsz b) (b_logh b)
    (b_logp b) (b_bp b) (setflag (b_flag b) set clr) (b_buf b).

Definition set_logsz (b : Blk) (logsz : Z) : Blk :=
  mkBlk (b_type b) (b_nval b) (b_valsz b) (b_nbuf b) (b_bufsz b) logsz (b_logh b)
    (b_logp b) (b_bp b) (b_flag b) (b_buf b).

Definition set_logp (b : Blk) (bp : Bptr) : Blk :=
  mkBlk (b_type b) (b_nval b) (b_valsz b) (b_nbuf b) (b_bufsz b) (b_logsz b) (b_logh b)
    bp (b_bp b) (b_flag b) (b_buf b).

(** [{o, -1, -1}] *)
Definition nobp (addr : Z) : Bptr := mkBptr addr nohash (-1).

(** ** Writing the log *)

(** The buffer that is not the tail, as an empty log block at [o]. *)
Definition mklogblk (l : LArena) (o : Z) : bool * LArena :=
  let i := match l_tl l with Some false => true | _ => false end in
  let b := logbuf l i in
  let b := mkBlk (b_type b) (b_nval b) (b_valsz b) (b_nbuf b) (b_bufsz b) (b_logsz b) (b_logh b)
    (b_logp b) (b_bp b) Bstatic (b_buf b) in
  (i, set_logbuf l i (initblk b o (-1) Tlog)).

(** [p = lb->data + lb->logsz; PACK64(p, v); lb->logsz += 8] *)
Definition logput (b : Blk) (v : Z) : res Blk :=
  let! buf := wr (b_buf b) (data_off b + b_logsz b) (PACK64 v) in
  Ok (set_logsz (set_buf b buf) (b_logsz b + 8)).

(** One or two words. *)
Definition logent (b : Blk) (op off len : Z) : res Blk :=
  let! b := logput b (Z.lor off op) in
  if Log2wide <=? op then logput b len else Ok b.

Definition narrow (op len : Z) : Z :=
  if len =? Blksz then
    if op =? LogAlloc then LogAlloc1 else if op =? LogFree then LogFree1 else op
  else op.

(** [finalize(b); syncblk(b)] *)
Definition putblk (b : Blk) (d : Disk) : res (Blk * Disk) :=
  let! b := finalize b in syncblk b d.

Definition logappend (usereserve : bool) (l : LArena) (off len op : Z) (d : Disk)
  : res (LArena * Disk) :=
  assert! Z.land off 0xff =? 0 in
  assert! (op =? LogAlloc) || (op =? LogFree) || (op =? LogSync) in
  assert! (op =? LogSync) ||
    (a_addr (l_a l) <=? off) && (off <? a_addr (l_a l) + a_size (l_a l) + 2 * Blksz) in
  match l_tl l with
  | None => Err Euninit
  | Some tl =>
      let lb := logbuf l tl in
      assert! b_type lb =? Tlog in
      assert! 0 <=? b_logsz lb in
      let lb := if checkflag (b_flag lb) 0 Bdirty then set_flag lb Bdirty Bfinal else lb in
      if Logspc - Logslop <=? b_logsz lb then
        let! (o, a) := blkalloc_lk usereserve (l_a l) false in
        match o with
        | None => Err Efull
        | Some o =>
            let! lb := logput lb (Z.lor o LogAlloc1) in
            let lb := set_logp lb (nobp o) in
            let (i, l) := mklogblk (set_logbuf (set_arena l a) tl lb) o in
            let! nb := logent (logbuf l i) (narrow op len) off len in
            let! (nb, d) := putblk nb d in
            let! (lb, d) := putblk (logbuf l tl) d in
            Ok (set_logtl (set_logbuf (set_logbuf l i nb) tl lb) i (l_nlog l + 1), d)
        end
      else
        let! lb := logent lb (narrow op len) off len in
        Ok (set_logbuf l tl lb, d)
  end.

Definition logbarrier (usereserve : bool) (l : LArena) (gen : Z) (d : Disk) : res (LArena * Disk) :=
  logappend usereserve l (Z.shiftl gen 8) 0 LogSync d.

Definition flushlog (l : LArena) (d : Disk) : res (LArena * Disk) :=
  match l_tl l with
  | None => Err Euninit
  | Some tl =>
      let b := logbuf l tl in
      if checkflag (b_flag b) 0 (Z.lor Bdirty Bstatic) then Ok (l, d)
      else let! (b, d) := putblk b d in Ok (set_logbuf l tl b, d)
  end.

(** [blkdealloc_lk], less [cachedel]. *)
Definition blkdealloc_lk (usereserve : bool) (l : LArena) (b : Z) (d : Disk) : res (LArena * Disk) :=
  let! (l, d) := logappend usereserve l b Blksz LogFree d in
  let! t := freerange (a_free (l_a l)) b Blksz in
  Ok (set_arena l (set_free (l_a l) (a_used (l_a l) - Blksz) t), d).

(** The part of [blkalloc] that runs with the arena locked. *)
Definition blkalloc_in (usereserve : bool) (l : LArena) (seq : bool) (d : Disk)
  : res (option Z * LArena * Disk) :=
  let! (b, a) := blkalloc_lk usereserve (l_a l) seq in
  match b with
  | None => Ok (None, l, d)
  | Some b =>
      let! (l, d) := logappend usereserve (set_arena l a) b Blksz LogAlloc d in
      Ok (Some b, l, d)
  end.

(** ** Replaying the log *)

(** The entries of one block; [Some i]: a barrier at or after [qgen] at
    offset [i]. *)
Fixpoint replay_blk (fuel : nat) (qgen : Z) (b : Blk) (i : Z) (t : list Arange) (used : Z)
  : res (option Z * list Arange * Z) :=
  if negb (i <? b_logsz b) then Ok (None, t, used) else
  match fuel with
  | O => Err Efuel
  | S fuel' =>
      let d := data_off b + i in
      let! ent := rd64 (b_buf b) d in
      let ent := s64 ent in
      let op := Z.land ent 0xff in
      let off := Z.land ent (Z.lnot 0xff) in
      let n := if Log2wide <=? op then 16 else 8 in
      if op =? LogSync then
        if qgen <=? Z.shiftr ent 8 then Ok (Some i, t, used)
        else replay_blk fuel' qgen b (i + n) t used
      else
        let! len := if Log2wide <=? op then rd64 (b_buf b) (d + 8) else Ok Blksz in
        let len := s64 len in
        if (op =? LogAlloc) || (op =? LogAlloc1) then
          let! t := grabrange t (Z.land off (Z.lnot 0xff)) len in
          replay_blk fuel' qgen b (i + n) t (used + len)
        else if (op =? LogFree) || (op =? LogFree1) then
          let! t := freerange t (Z.land off (Z.lnot 0xff)) len in
          replay_blk fuel' qgen b (i + n) t (used - len)
        else Err Eassert
  end.

(** [fuel] bounds the blocks of the chain. *)
Fixpoint loadlog (fuel : nat) (qgen : Z) (l : LArena) (bp : Bptr) (d : Disk) : res LArena :=
  match fuel with
  | O => Err Efuel
  | S fuel' =>
      assert! checkflag (b_flag (l_b0 l)) Bstatic Bcached in
      let! b := readblk (l_b0 l) bp 0 d in
      let! (stop, t, used) :=
        replay_blk (Z.to_nat (b_logsz b)) qgen b 0 (a_free (l_a l)) (a_used (l_a l)) in
      let l := mkLArena (set_free (l_a l) used t) b (l_b1 l) (l_tl l) (l_hd l) (l_nlog l + 1)
        (l_lastlogsz l) in
      match stop with
      | Some i =>
          match l_tl l with
          | None => Ok (set_logtl (set_logbuf l false (set_flag (set_logsz b i) Bdirty 0)) false (l_nlog l))
          | Some _ => Ok l
          end
      | None =>
          if bp_addr (b_logp b) =? -1 then Ok (set_logtl l false (l_nlog l))
          else loadlog fuel' qgen l (b_logp b) d
      end
  end.

(** ** Rewriting the log *)

Fixpoint alloc_n (n : nat) (usereserve : bool) (a : Arena) : res (list Z * Arena) :=
  match n with
  | O => Ok ([], a)
  | S n' =>
      let! (b, a) := blkalloc_lk usereserve a true in
      match b with
      | None => Err Efull
      | Some b => let! (bs, a) := alloc_n n' usereserve a in Ok (b :: bs, a)
      end
  end.

(** The ranges, one entry each; the result has the blocks that are left. *)
Fixpoint compress_fill (rs : list Arange) (l : LArena) (i : bool) (blks : list Z) (nlog : Z)
    (d : Disk) : res (LArena * list Z * Z * Disk) :=
  match rs with
  | [] => Ok (l, blks, nlog, d)
  | r :: rs' =>
      let! (l, blks, nlog, d) :=
        if Logspc - Logslop <=? b_logsz (logbuf l i) then
          let! o := znth blks 0 in
          let! (b, d) := putblk (set_logp (logbuf l i) (nobp o)) d in
          let (_, l) := mklogblk (set_logbuf l i b) o in
          Ok (l, drop 1 blks, nlog + 1, d)
        else Ok (l, blks, nlog, d) in
      let! b := logput (logbuf l i) (Z.lor (ar_off r) LogFree) in
      let! b := logput b (ar_len r) in
      compress_fill rs' (set_logbuf l i b) i blks nlog d
  end.

Fixpoint dealloc_all (usereserve : bool) (l : LArena) (bs : list Z) (d : Disk) : res (LArena * Disk) :=
  match bs with
  | [] => Ok (l, d)
  | b :: bs' =>
      let! (l, d) := blkdealloc_lk usereserve l b d in
      dealloc_all usereserve l bs' d
  end.

Definition compress_nblks (nr : Z) : Z :=
  (16 * nr + Logspc) / (Logspc - Logslop) + 16 * nr / (Logspc - Logslop) + 1.

Definition compresslog (usereserve : bool) (l : LArena) (d : Disk) : res (LArena * Disk) :=
  let! (l, d) := flushlog l d in
  let nblks := compress_nblks (zlen (a_free (l_a l))) in
  let! (blks, a) := alloc_n (Z.to_nat nblks) usereserve (l_a l) in
  let l := set_arena l a in
  let! b0 := znth blks 0 in
  let (i, l) := mklogblk l b0 in
  let! (l, rest, nlog, d) := compress_fill (a_free (l_a l)) l i (drop 1 blks) 0 d in
  let l := mkLArena (l_a l) (l_b0 l) (l_b1 l) (Some i) (nobp b0) nlog nlog in
  dealloc_all usereserve l rest d.

(** ** Entries *)

Record Lent := mkLent { le_op : Z; le_off : Z; le_len : Z }.

Definition lent_bytes (e : Lent) : list Z :=
  PACK64 (Z.lor (le_off e) (le_op e)) ++ if Log2wide <=? le_op e then PACK64 (le_len e) else [].

Record lent_ok (e : Lent) : Prop := {
  lk_op : le_op e ∈ [LogAlloc1; LogFree1; LogSync; LogAlloc; LogFree];
  lk_off : 0 <= le_off e < 2 ^ 63;
  lk_low : Z.land (le_off e) 0xff = 0;
  lk_len : 0 <= le_len e < 2 ^ 63;
  lk_one : le_op e = LogAlloc1 \/ le_op e = LogFree1 -> le_len e = Blksz }.

(** What an entry does to the free ranges and the space in use. *)
Definition replay1 (e : Lent) (s : list Arange * Z) : res (list Arange * Z) :=
  if le_op e =? LogSync then Ok s
  else if (le_op e =? LogAlloc) || (le_op e =? LogAlloc1) then
    let! t := grabrange (fst s) (le_off e) (le_len e) in Ok (t, snd s + le_len e)
  else let! t := freerange (fst s) (le_off e) (le_len e) in Ok (t, snd s - le_len e).

Fixpoint replay (es : list Lent) (s : list Arange * Z) : res (list Arange * Z) :=
  match es with
  | [] => Ok s
  | e :: es' => let! s := replay1 e s in replay es' s
  end.

Lemma replay_app es es' s : replay (es ++ es') s = let! s := replay es s in replay es' s.
Proof.
  revert s. induction es as [|e es IH]; intros s; [done|]. cbn [app replay].
  destruct (replay1 e s); [apply IH|done].
Qed.

(** The barriers a load at generation [qgen] stops at. *)
Definition stops (qgen : Z) (e : Lent) : bool :=
  (le_op e =? LogSync) && (qgen <=? Z.shiftr (le_off e) 8).

Fixpoint cut (qgen : Z) (es : list Lent) : list Lent * bool :=
  match es with
  | [] => ([], false)
  | e :: es' => if stops qgen e then ([], true)
                else let (pre, b) := cut qgen es' in (e :: pre, b)
  end.

Definition ents_bytes (es : list Lent) : list Z := concat (lent_bytes <$> es).

Lemma ents_bytes_app es es' : ents_bytes (es ++ es') = ents_bytes es ++ ents_bytes es'.
Proof. unfold ents_bytes. by rewrite fmap_app, concat_app. Qed.
Lemma ents_bytes_cons e es : ents_bytes (e :: es) = lent_bytes e ++ ents_bytes es.
Proof. done. Qed.

Lemma zlen_lent e : zlen (lent_bytes e) = if Log2wide <=? le_op e then 16 else 8.
Proof. unfold lent_bytes. by destruct (Log2wide <=? le_op e). Qed.

(** The word of an entry gives back its parts. *)
Lemma ent_word off op :
  0 <= off < 2 ^ 63 -> Z.land off 0xff = 0 -> 0 <= op < 256 ->
  s64 (u64 (Z.lor off op)) = Z.lor off op /\ Z.land (Z.lor off op) 0xff = op /\
  Z.land (Z.lor off op) (Z.lnot 0xff) = off /\ Z.shiftr (Z.lor off op) 8 = Z.shiftr off 8.
Proof.
  intros Ho Hl Hop. change 0xff with (Z.ones 8) in *.
  assert (Hb : forall n, 0 <= n < 8 -> Z.testbit off n = false).
  { intros n Hn. pose proof (f_equal (fun z => Z.testbit z n) Hl) as E. cbv beta in E.
    rewrite Z.land_spec, Z.ones_spec_low, andb_true_r, Z.bits_0 in E by lia. done. }
  assert (Hp : forall n, 8 <= n -> Z.testbit op n = false).
  { intros n Hn. destruct (Z.eq_dec op 0) as [->|]; [apply Z.bits_0|].
    apply Z.bits_above_log2; [lia|]. apply Z.log2_lt_pow2; [lia|].
    apply Z.lt_le_trans with (2 ^ 8); [lia|]. apply Z.pow_le_mono_r; lia. }
  assert (E2 : Z.land (Z.lor off op) (Z.ones 8) = op).
  { rewrite Z.land_lor_distr_l, Hl, Z.lor_0_l, Z.land_ones by lia. apply Z.mod_small. lia. }
  assert (E3 : Z.land (Z.lor off op) (Z.lnot (Z.ones 8)) = off).
  { apply Z.bits_inj'. intros n Hn. rewrite Z.land_spec, Z.lor_spec, Z.lnot_spec by lia.
    destruct (Z.lt_ge_cases n 8).
    - rewrite Z.ones_spec_low, Hb by lia. cbn. by rewrite andb_false_r.
    - rewrite Z.ones_spec_high, Hp by lia. cbn. by rewrite orb_false_r, andb_true_r. }
  assert (E4 : Z.shiftr (Z.lor off op) 8 = Z.shiftr off 8).
  { rewrite Z.shiftr_lor. replace (Z.shiftr op 8) with 0; [apply Z.lor_0_r|].
    symmetry. rewrite Z.shiftr_div_pow2 by lia. apply Z.div_small. lia. }
  split; [|done]. rewrite s64_u64. apply s64_small. split.
  - apply Z.le_trans with 0; [lia|]. apply Z.lor_nonneg. lia.
  - assert (E : Z.lor off op = off + op).
    { rewrite Z.add_nocarry_lxor, Z.lxor_lor; [done| |]; apply Z.bits_inj'; intros n Hn;
        rewrite Z.land_spec, Z.bits_0; destruct (Z.lt_ge_cases n 8);
        rewrite ?Hb, ?Hp, ?andb_false_r by lia; done. }
    rewrite E. assert (off mod 256 = 0).
    { by rewrite <- Hl, Z.land_ones by lia. }
    change (2 ^ 63) with (36028797018963968 * 256) in *.
    Z.to_euclidean_division_equations. lia.
Qed.

(** ** Log blocks *)

Record log_repr (b : Blk) (es : list Lent) : Prop := {
  lr_type : b_type b = Tlog;
  lr_wf : wf_blk b;
  lr_logh : 0 <= b_logh b < 2 ^ 64;
  lr_logsz : b_logsz b = zlen (ents_bytes es);
  lr_at : at_ (b_buf b) Loghdsz (ents_bytes es);
  lr_ok : Forall lent_ok es }.

Lemma replay_blk_spec qgen b es : log_repr b es -> forall rest fuel dn t u,
  es = dn ++ rest -> (length rest <= fuel)%nat ->
  replay_blk fuel qgen b (zlen (ents_bytes dn)) t u =
    let! (t', u') := replay (fst (cut qgen rest)) (t, u) in
    Ok (if snd (cut qgen rest) then Some (zlen (ents_bytes (dn ++ fst (cut qgen rest)))) else None, t', u').
Proof.
  intros [Ht Hw Hlh Hs Ha Ho]. induction rest as [|e rest IH]; intros fuel dn t u E Hf.
  { rewrite app_nil_r in E. subst dn. destruct fuel; cbn [replay_blk];
      rewrite Hs, Z.ltb_irrefl; done. }
  destruct fuel as [|fuel]; [simpl in Hf; lia|]. cbn [replay_blk].
  assert (Hx : ents_bytes es = ents_bytes dn ++ lent_bytes e ++ ents_bytes rest).
  { by rewrite E, ents_bytes_app, ents_bytes_cons. }
  pose proof (zlen_nonneg (ents_bytes rest)).
  assert (Hz : zlen (lent_bytes e) = if Log2wide <=? le_op e then 16 else 8) by apply zlen_lent.
  rewrite Hs, Hx, !zlen_app, (proj2 (Z.ltb_lt _ _)) by (rewrite Hz; destruct (_ <=? _); lia).
  cbn [negb]. rewrite Hx in Ha. apply at_app in Ha as [_ Ha]. apply at_app in Ha as [Ha _].
  assert (Hdo : data_off b = Loghdsz) by (unfold data_off; by rewrite Ht). rewrite Hdo.
  rewrite E, Forall_app, Forall_cons in Ho. destruct Ho as (_ & [Hop Hoff Hlow Hlen Hone] & _).
  unfold lent_bytes in Ha. apply at_app in Ha as [Ha1 Ha2]. rewrite zlen_PACK64 in Ha2.
  rewrite (rd64_at _ _ _ Ha1). cbn [rbind].
  assert (Hb : 0 <= le_op e < 256).
  { set_unfold in Hop. destruct Hop as [->|[->|[->|[->|[->|[]]]]]]; split; done. }
  destruct (ent_word (le_off e) (le_op e) Hoff Hlow Hb) as (-> & -> & E3 & ->). rewrite E3.
  assert (E4 : Z.land (le_off e) (Z.lnot 0xff) = le_off e).
  { rewrite <- E3 at 1. rewrite <- Z.land_assoc, Z.land_diag. done. }
  rewrite E4.
  assert (Hnext : forall t u, replay_blk fuel qgen b
      (zlen (ents_bytes dn) + (if Log2wide <=? le_op e then 16 else 8)) t u =
    let! (t', u') := replay (fst (cut qgen rest)) (t, u) in
    Ok (if snd (cut qgen rest)
        then Some (zlen (ents_bytes (dn ++ e :: fst (cut qgen rest)))) else None, t', u')).
  { intros t1 u1. rewrite <- Hz, <- zlen_app.
    replace (ents_bytes dn ++ lent_bytes e) with (ents_bytes (dn ++ [e])).
    2:{ by rewrite ents_bytes_app, ents_bytes_cons, app_nil_r. }
    rewrite (IH fuel (dn ++ [e]) t1 u1); [by rewrite <- app_assoc|by rewrite <- app_assoc|simpl in Hf; lia]. }
  cbn [cut]. unfold stops. destruct (Z.eqb_spec (le_op e) LogSync) as [Es|Es].
  - cbn [andb]. destruct (Z.leb_spec qgen (Z.shiftr (le_off e) 8)) as [Hg|Hg].
    + cbn [fst snd replay rbind]. by rewrite app_nil_r.
    + rewrite Hnext. destruct (cut qgen rest) as [pre bb]. cbn [fst snd replay].
      unfold replay1. by rewrite Es.
  - cbn [andb].
    assert (Hl : (let! len := if Log2wide <=? le_op e then rd64 (b_buf b) (Loghdsz + zlen (ents_bytes dn) + 8)
                  else Ok Blksz in Ok (s64 len)) = Ok (le_len e)).
    { destruct (Z.leb_spec Log2wide (le_op e)) as [Hw2|Hw2].
      - rewrite (rd64_at _ _ _ Ha2). cbn [rbind]. by rewrite s64_u64, s64_small by lia.
      - cbn [rbind]. f_equal. symmetry. rewrite Hone; [done|].
        set_unfold in Hop. destruct Hop as [E0|[E0|[E0|[E0|[E0|[]]]]]]; rewrite ?E0 in Es, Hw2 |- *; auto; done. }
    bind_inv Hl as len El. injection Hl as Hl. rewrite El. cbn [rbind]. rewrite Hl.
    destruct (cut qgen rest) as [pre bb] eqn:Ec. cbn [fst snd replay] in Hnext |- *. unfold replay1.
    rewrite (proj2 (Z.eqb_neq _ _) Es). cbn [fst snd].
    destruct ((le_op e =? LogAlloc) || (le_op e =? LogAlloc1)) eqn:Ea.
    + destruct (grabrange t (le_off e) (le_len e)) as [t1|]; [|done]. cbn [rbind]. by rewrite Hnext.
    + assert (Ef : (le_op e =? LogFree) || (le_op e =? LogFree1) = true).
      { set_unfold in Hop. destruct Hop as [E0|[E0|[E0|[E0|[E0|[]]]]]]; rewrite E0 in *; done. }
      rewrite Ef. destruct (freerange t (le_off e) (le_len e)) as [t1|]; [|done].
      cbn [rbind]. by rewrite Hnext.
Qed.

(** *** Appending an entry *)

Lemma logput_bytes b v bs :
  b_type b = Tlog -> zlen (b_buf b) = Blksz -> b_logsz b = zlen bs -> at_ (b_buf b) Loghdsz bs ->
  zlen bs + 8 <= Logspc ->
  exists buf, logput b v = Ok (set_logsz (set_buf b buf) (zlen (bs ++ PACK64 v))) /\
    zlen buf = Blksz /\ at_ buf Loghdsz (bs ++ PACK64 v).
Proof.
  intros Ht Hl Hs Ha Hz. unfold logput, data_off. rewrite Ht. change (hdsz Tlog) with Loghdsz.
  rewrite Hs. pose proof (zlen_nonneg bs).
  destruct (wr_ok (b_buf b) (Loghdsz + zlen bs) (PACK64 v)) as (buf & E & Hb).
  { change Loghdsz with 36. lia. }
  { rewrite zlen_PACK64, Hl. change Loghdsz with 36. change Blksz with 16384.
    change Logspc with 16348 in Hz. lia. }
  rewrite E. cbn [rbind]. exists buf. rewrite zlen_app, zlen_PACK64. split; [done|].
  split; [congruence|]. apply at_app. split; [|by eapply wr_at].
  eapply wr_frame; [exact E|done|]. left. lia.
Qed.

Definition same_but_log (b b' : Blk) : Prop :=
  b_bp b' = b_bp b /\ b_logp b' = b_logp b /\ b_flag b' = b_flag b.

Lemma logent_repr b es op off len :
  log_repr b es -> lent_ok (mkLent op off len) ->
  zlen (ents_bytes es) + zlen (lent_bytes (mkLent op off len)) <= Logspc ->
  exists b', logent b op off len = Ok b' /\ log_repr b' (es ++ [mkLent op off len]) /\
    same_but_log b b'.
Proof.
  intros [Ht Hw Hlh Hs Ha Ho] He Hz. rewrite zlen_lent in Hz. cbn [le_op] in Hz.
  unfold logent. pose proof (zlen_nonneg (ents_bytes es)).
  destruct (logput_bytes b (Z.lor off op) (ents_bytes es) Ht (wb_buf _ Hw) Hs Ha) as (buf & -> & Hb & Ha1).
  { destruct (_ <=? _); lia. }
  cbn [rbind]. set (bs := ents_bytes es ++ PACK64 (Z.lor off op)) in *.
  assert (Hbs : zlen bs = zlen (ents_bytes es) + 8) by (unfold bs; by rewrite zlen_app, zlen_PACK64).
  assert (Hfin : forall buf bs', zlen buf = Blksz -> at_ buf Loghdsz bs' ->
    bs' = ents_bytes (es ++ [mkLent op off len]) -> zlen bs' <= Logspc ->
    log_repr (set_logsz (set_buf b buf) (zlen bs')) (es ++ [mkLent op off len])).
  { intros buf' bs' Hb' Ha' -> Hz'. constructor; cbn [set_logsz set_buf b_type b_logh b_logsz b_buf]; try done.
    - destruct Hw. constructor; cbn [set_logsz set_buf b_nval b_valsz b_nbuf b_bufsz b_logsz b_buf b_logp];
        try done. pose proof (zlen_nonneg (ents_bytes (es ++ [mkLent op off len]))). lia.
    - apply Forall_app. split; [done|]. by constructor. }
  assert (Hent : ents_bytes (es ++ [mkLent op off len]) =
    bs ++ if Log2wide <=? op then PACK64 len else []).
  { unfold bs. rewrite ents_bytes_app, ents_bytes_cons. unfold lent_bytes. cbn [le_op le_off le_len].
    change (ents_bytes []) with (@nil Z). by rewrite app_nil_r, app_assoc. }
  destruct (Log2wide <=? op).
  - destruct (logput_bytes (set_logsz (set_buf b buf) (zlen bs)) len bs Ht Hb eq_refl Ha1)
      as (buf2 & -> & Hb2 & Ha2); [lia|].
    eexists. split; [done|]. split; [|done].
    eapply (Hfin buf2); [done|exact Ha2|done|rewrite zlen_app, zlen_PACK64; lia].
  - eexists. split; [done|]. split; [|done]. apply (Hfin buf); [done|done|by rewrite Hent, app_nil_r|lia].
Qed.

(** *** Blocks on the device *)

(** The bytes at [addr] read back as the log block [es] with the chain [next]. *)
Definition image (addr : Z) (buf : list Z) (es : list Lent) (next : Bptr) : Prop :=
  forall b0 bp d, bp_addr bp = addr -> d !! addr = Some buf -> 0 <= b_logh b0 < 2 ^ 64 ->
  exists r, readblk b0 bp 0 d = Ok r /\ log_repr r es /\ b_logp r = next /\
    b_bp r = nobp addr /\ b_flag r = b_flag b0.

Lemma final_flag f : checkflag (setflag f (Z.lor Bdirty Bfinal) 0) Bfinal 0 = true.
Proof.
  unfold checkflag, setflag. apply Z.eqb_eq, Z.bits_inj'. intros n Hn.
  rewrite Z.land_spec, !Z.lor_spec, Z.bits_0, orb_false_r.
  by destruct (Z.testbit Bfinal n); rewrite ?orb_true_r, ?andb_false_r.
Qed.

Lemma finalize_log b b' es :
  log_repr b es -> finalize b = Ok b' -> log_repr b' es.
Proof.
  intros [Ht Hw Hlh Hs Ha Ho] Hf. pose proof (logh_range _ _ Hw Hf Hlh) as Hr.
  apply finalize_inv in Hf as (h & Eh & _ & Hl & Hfr & Eb & _).
  apply zlen_header in Eh. rewrite Eb.
  constructor; cbn [b_type b_logh b_logsz b_buf]; try done.
  - destruct Hw. constructor; cbn [b_nval b_valsz b_nbuf b_bufsz b_logsz b_buf b_logp]; try done.
    congruence.
  - apply Hfr; [|done]. change Loghdsz with 36. lia.
Qed.

Lemma Tlog_kinds b : b_type b = Tlog ->
  b_type b ∈ [Tpivot; Tleaf; Tlog; Tdlist; Tarena; Tsuper] /\
  b_type b ∈ [Tdat; Tpivot; Tleaf; Tlog; Tdlist; Tarena; Tsuper].
Proof. intros ->. split; set_unfold; tauto. Qed.

Lemma putblk_log b es d :
  log_repr b es -> 0 <= bp_addr (b_bp b) ->
  exists b', putblk b d = Ok (b', <[bp_addr (b_bp b) := b_buf b']> d) /\
    log_repr b' es /\ image (bp_addr (b_bp b)) (b_buf b') es (b_logp b) /\
    bp_addr (b_bp b') = bp_addr (b_bp b) /\ b_logp b' = b_logp b /\
    b_flag b' = setflag (setflag (b_flag b) (Z.lor Bdirty Bfinal) 0) 0 Bdirty.
Proof.
  intros Hr Ha. destruct (Tlog_kinds _ (lr_type _ _ Hr)) as [T1 T2].
  destruct (finalize_ok b) as (b1 & Hf); [apply Hr|apply Hr|done|].
  pose proof (finalize_log _ _ _ Hr Hf) as Hr1.
  pose proof (finalize_inv _ _ Hf) as (h & _ & _ & _ & _ & Eb & Hbp & _).
  unfold putblk. rewrite Hf. cbn [rbind]. unfold syncblk.
  assert (Hfl : b_flag b1 = setflag (b_flag b) (Z.lor Bdirty Bfinal) 0) by by rewrite Eb.
  assert (Hlp : b_logp b1 = b_logp b) by by rewrite Eb.
  rewrite Hfl, final_flag, Hbp, (proj2 (Z.leb_le _ _) Ha).
  match goal with |- exists b', Ok (?x, _) = _ /\ _ => exists x end. split; [done|]. cbn [b_bp b_logp b_flag b_buf].
  split; [|split; [|split; [done|split; [done|done]]]].
  - destruct Hr1 as [? [] ? ? ? ?]. by constructor.
  - intros b0 bp d0 Hbp' Hd Hb0.
    eexists. split; [by eapply readblk_stored; [apply Hr|apply Hr|done|exact Hf|exact Hd|exact Hbp']|].
    destruct Hr1 as [Ht1 [] ? ? ? ?].
    unfold stored_blk. cbn [b_type b_nval b_valsz b_nbuf b_bufsz b_logsz b_logh b_logp b_bp b_flag b_buf bp_addr].
    rewrite Ht1, Hbp. split; [|done].
    by constructor.
Qed.

(** ** The invariant of the log *)

Definition static (b : Blk) : Prop := Z.testbit (b_flag b) 6 = true.

(** Full blocks, from the first one to the address of the next. *)
Inductive sealed (d : Disk) : Z -> list (list Lent) -> list Z -> Z -> Prop :=
  | se_nil a : sealed d a [] [] a
  | se_cons a buf es next ess addrs fin :
      d !! a = Some buf -> image a buf es next -> bp_addr next <> -1 ->
      sealed d (bp_addr next) ess addrs fin ->
      sealed d a (es :: ess) (a :: addrs) fin.

Lemma sealed_frame d d' a ess addrs fin :
  sealed d a ess addrs fin -> (forall x, x ∈ addrs -> d' !! x = d !! x) -> sealed d' a ess addrs fin.
Proof.
  induction 1 as [a|a buf es next ess addrs fin Hd Hi Hn _ IH]; intros Hx; [constructor|].
  eapply se_cons; [|exact Hi|done|].
  - rewrite Hx; [done|]. by left.
  - apply IH. intros x Hin. apply Hx. by right.
Qed.

Lemma sealed_snoc d a ess addrs fin buf es next :
  sealed d a ess addrs fin -> d !! fin = Some buf -> image fin buf es next -> bp_addr next <> -1 ->
  sealed d a (ess ++ [es]) (addrs ++ [fin]) (bp_addr next).
Proof.
  induction 1 as [a|a buf0 es0 next0 ess addrs fin Hd Hi Hn _ IH]; intros Hd' Hi' Hn'.
  - eapply se_cons; try done. constructor.
  - eapply se_cons; try done. by apply IH.
Qed.

(** The block is one the arena hands out. *)
Record blk_of (a : Arena) (b : Z) : Prop := {
  bo_lo : a_addr a <= b;
  bo_hi : b + Blksz <= a_addr a + a_size a + 2 * Blksz;
  bo_al : blkfloor (a_addr a) b = b }.

Lemma blk_of_same a a' b :
  blk_of a b -> a_addr a' = a_addr a -> a_size a' = a_size a -> blk_of a' b.
Proof. intros [] E1 E2. constructor; by rewrite ?E1, ?E2. Qed.

(** What the log holds: full blocks [g_ess] at [g_addrs], the entries [g_est]
    of the open block, of which [g_esp] are on the device. *)
Record Ghost := mkGhost {
  g_tl : bool; g_ess : list (list Lent); g_addrs : list Z; g_est : list Lent; g_esp : list Lent }.

Definition g_all (g : Ghost) : list Lent := concat (g_ess g) ++ g_est g.
Definition g_dur (g : Ghost) : list Lent := concat (g_ess g) ++ g_esp g.

Definition tail_img (d : Disk) (a : Z) (es : list Lent) : Prop :=
  es = [] \/ exists buf next, d !! a = Some buf /\ image a buf es next.

Definition tailaddr (l : LArena) (g : Ghost) : Z := bp_addr (b_bp (logbuf l (g_tl g))).

Record log_st (l : LArena) (d : Disk) (g : Ghost) : Prop := {
  ls_tl : l_tl l = Some (g_tl g);
  ls_tail : log_repr (logbuf l (g_tl g)) (g_est g);
  ls_static : static (logbuf l (g_tl g));
  ls_room : zlen (ents_bytes (g_est g)) + 8 <= Logspc;
  ls_other : zlen (b_buf (logbuf l (negb (g_tl g)))) = Blksz /\
    0 <= b_logh (logbuf l (negb (g_tl g))) < 2 ^ 64;
  ls_sealed : sealed d (bp_addr (l_hd l)) (g_ess g) (g_addrs g) (tailaddr l g);
  ls_nodup : NoDup (tailaddr l g :: g_addrs g);
  ls_inuse : forall x, x ∈ tailaddr l g :: g_addrs g -> 0 <= x /\ ~ free_at (a_free (l_a l)) x;
  ls_blk : forall x, x ∈ tailaddr l g :: g_addrs g -> blk_of (l_a l) x;
  ls_prefix : g_esp g `prefix_of` g_est g;
  ls_img : tail_img d (tailaddr l g) (g_esp g) }.

(** Arenas lie at multiples of the block size. *)
Record arena_pos (a : Arena) : Prop := {
  ap_lo : 0 <= a_addr a;
  ap_hi : a_addr a + a_size a + 2 * Blksz < 2 ^ 63;
  ap_al : a_addr a mod Blksz = 0 }.

(** The log may have grown by a block. *)
Definition chained (usereserve : bool) (a a' : Arena) (extra : list Lent) : Prop :=
  (extra = [] /\ a' = a) \/
  exists o, blkalloc_lk usereserve a false = Ok (Some o, a') /\ extra = [mkLent LogAlloc1 o Blksz].

Lemma blk_low a x : arena_pos a -> blkfloor (a_addr a) x = x -> Z.land x 0xff = 0.
Proof.
  intros [? ? Hal] Hf. change 0xff with (Z.ones 8). rewrite Z.land_ones by lia. rewrite <- Hf.
  unfold blkfloor. change Blksz with (64 * 256) in *. change (2 ^ 8) with 256.
  revert Hal. generalize ((x - a_addr a) / (64 * 256)). intros q Hal.
  Z.to_euclidean_division_equations. lia.
Qed.

Lemma alloc_spec usereserve a seq o a' :
  arena_ok a -> blkalloc_lk usereserve a seq = Ok (Some o, a') ->
  arena_ok a' /\ blk_of a o /\ free_at (a_free a) o /\
  a_addr a' = a_addr a /\ a_size a' = a_size a /\ a_used a' = a_used a + Blksz /\
  (forall x, free_at (a_free a') x <-> free_at (a_free a) x /\ ~ o <= x < o + Blksz) /\
  (forall x, o <= x < o + Blksz -> free_at (a_free a) x).
Proof.
  intros Hok. unfold blkalloc_lk.
  destruct (negb usereserve && _); [done|].
  destruct (if seq then _ else _) as [[b t']|] eqn:Et; [|done]. intros [= -> <-].
  destruct (take_spec seq a o t' Hok Et) as (Hok' & Hf & Hlo & Hin & Hx).
  assert (Hfo : free_at (a_free a) o) by (apply Hin; change Blksz with 16384; lia).
  split; [done|]. split; [|by split].
  split; [done| |done].
  assert (Hfe : free_at (a_free a) (o + Blksz - 1)) by (apply Hin; change Blksz with 16384; lia).
  apply (ao_end _ Hok) in Hfe. lia.
Qed.

Lemma lent_ok_alloc1 a o : arena_pos a -> blk_of a o -> lent_ok (mkLent LogAlloc1 o Blksz).
Proof.
  intros Hp [Hl Hh Ha]. pose proof (blk_low _ _ Hp Ha). destruct Hp.
  assert (0 < Blksz) by done.
  constructor; cbn [le_op le_off le_len]; [set_unfold; tauto|lia|done|split; done|done].
Qed.

Lemma wf_nobp o : 0 <= o < 2 ^ 63 -> wf_bptr (nobp o).
Proof.
  intros Ho. unfold wf_bptr. cbn [nobp bp_addr bp_hash bp_gen].
  split; [lia|]. split; [split; done|]. split; done.
Qed.

Lemma logbuf_set l i b : logbuf (set_logbuf l i b) i = b.
Proof. by destruct i. Qed.
Lemma logbuf_set_ne l i b : logbuf (set_logbuf l i b) (negb i) = logbuf l (negb i).
Proof. by destruct i. Qed.

Lemma set_flag_repr b es set clr : log_repr b es -> log_repr (set_flag b set clr) es.
Proof. intros [? [] ? ? ? ?]. by constructor. Qed.

Lemma set_logp_repr b es bp : log_repr b es -> wf_bptr bp -> log_repr (set_logp b bp) es.
Proof. intros [? [] ? ? ? ?] ?. by constructor. Qed.

(** A fresh log block in the other buffer. *)
Lemma mklogblk_spec l tl o :
  l_tl l = Some tl -> zlen (b_buf (logbuf l (negb tl))) = Blksz ->
  0 <= b_logh (logbuf l (negb tl)) < 2 ^ 64 ->
  exists b, mklogblk l o = (negb tl, set_logbuf l (negb tl) b) /\ log_repr b [] /\
    b_bp b = mkBptr o nohash (-1) /\ b_logp b = Zb /\ static b.
Proof.
  intros Ht Hb Hl. unfold mklogblk. rewrite Ht. exists
    (initblk (mkBlk (b_type (logbuf l (negb tl))) (b_nval (logbuf l (negb tl)))
      (b_valsz (logbuf l (negb tl))) (b_nbuf (logbuf l (negb tl))) (b_bufsz (logbuf l (negb tl)))
      (b_logsz (logbuf l (negb tl))) (b_logh (logbuf l (negb tl))) (b_logp (logbuf l (negb tl)))
      (b_bp (logbuf l (negb tl))) Bstatic (b_buf (logbuf l (negb tl)))) o (-1) Tlog).
  split; [by destruct tl|]. split; [|done].
  constructor; cbn [initblk b_type b_logh b_logsz b_buf]; try done.
  split; [done|]. split; [|done]. rewrite Hb. done.
Qed.

(** ** [logappend] *)

(** The entry [logappend] writes, and the calls it accepts. *)
Definition entry (op off len : Z) : Lent := mkLent (narrow op len) off len.

Record append_ok (a : Arena) (op off len : Z) : Prop := {
  pk_op : op = LogAlloc \/ op = LogFree \/ op = LogSync;
  pk_off : op = LogSync \/ a_addr a <= off < a_addr a + a_size a + 2 * Blksz;
  pk_ent : lent_ok (entry op off len) }.

Lemma append_ok_blk a op b :
  arena_pos a -> blk_of a b -> op = LogAlloc \/ op = LogFree -> append_ok a op b Blksz.
Proof.
  intros Hp [Hl Hh Ha] Hop. pose proof (blk_low _ _ Hp Ha). destruct Hp. assert (0 < Blksz) by done.
  constructor; [tauto|right; lia|]. unfold entry.
  assert (Hn : narrow op Blksz = LogAlloc1 \/ narrow op Blksz = LogFree1) by (destruct Hop as [-> | ->]; auto).
  constructor; cbn [le_op le_off le_len]; [set_unfold; tauto|lia|done|split; done|done].
Qed.

Lemma append_ok_sync a gen : 0 <= gen < 2 ^ 55 -> append_ok a LogSync (Z.shiftl gen 8) 0.
Proof.
  intros Hg. constructor; [tauto|by left|].
  constructor; cbn [entry le_op le_off le_len]; [set_unfold; tauto| | |split; done|].
  - rewrite Z.shiftl_mul_pow2 by lia. change (2 ^ 63) with (2 ^ 55 * 2 ^ 8). lia.
  - change 0xff with (Z.ones 8). rewrite Z.land_ones by lia. rewrite Z.shiftl_mul_pow2 by lia.
    by apply Z.mod_mul.
  - by intros [?|?].
Qed.

(** The tail with its flags set for writing. *)
Definition touched (b : Blk) : Blk :=
  if checkflag (b_flag b) 0 Bdirty then set_flag b Bdirty Bfinal else b.

Lemma touched_repr b es :
  log_repr b es -> log_repr (touched b) es /\ b_bp (touched b) = b_bp b /\ b_logp (touched b) = b_logp b /\
    (static b -> static (touched b)).
Proof.
  intros Hr. unfold touched. destruct (checkflag _ _ _); [|done]. split; [by apply set_flag_repr|].
  split; [done|]. split; [done|]. unfold static. intros Hs. cbn [set_flag b_flag].
  by rewrite setflag_bit, Hs.
Qed.

(** What [logappend] does when it is called as it should. *)
Lemma logappend_unfold usereserve l off len op d g :
  log_st l d g -> append_ok (l_a l) op off len ->
  logappend usereserve l off len op d =
    let lb := touched (logbuf l (g_tl g)) in
    if Logspc - Logslop <=? zlen (ents_bytes (g_est g)) then
      let! (o, a) := blkalloc_lk usereserve (l_a l) false in
      match o with
      | None => Err Efull
      | Some o =>
          let! lb := logput lb (Z.lor o LogAlloc1) in
          let lb := set_logp lb (nobp o) in
          let (i, l) := mklogblk (set_logbuf (set_arena l a) (g_tl g) lb) o in
          let! nb := logent (logbuf l i) (narrow op len) off len in
          let! (nb, d) := putblk nb d in
          let! (lb, d) := putblk (logbuf l (g_tl g)) d in
          Ok (set_logtl (set_logbuf (set_logbuf l i nb) (g_tl g) lb) i (l_nlog l + 1), d)
      end
    else
      let! lb := logent lb (narrow op len) off len in
      Ok (set_logbuf l (g_tl g) lb, d).
Proof.
  intros Hs [Hop Hoff Hent]. pose proof (ls_tail _ _ _ Hs) as Hr.
  destruct (touched_repr _ _ Hr) as (Hr' & _).
  unfold logappend. pose proof (lk_low _ Hent) as Hl. cbn [entry le_off] in Hl. rewrite Hl, Z.eqb_refl.
  replace ((op =? LogAlloc) || (op =? LogFree) || (op =? LogSync)) with true by (by destruct Hop as [->|[->| ->]]).
  replace ((op =? LogSync) || _) with true.
  2:{ destruct Hoff as [->|[H1 H2]]; [done|].
      rewrite (proj2 (Z.leb_le _ _) H1), (proj2 (Z.ltb_lt _ _) H2), orb_true_r. done. }
  rewrite (ls_tl _ _ _ Hs). rewrite (lr_type _ _ Hr), (lr_logsz _ _ Hr).
  rewrite (proj2 (Z.leb_le 0 _)) by apply zlen_nonneg. change (Tlog =? Tlog) with true. cbv iota zeta.
  fold (touched (logbuf l (g_tl g))). rewrite (lr_logsz _ _ Hr'). done.
Qed.

Lemma lent_size e : zlen (lent_bytes e) <= 16.
Proof. rewrite zlen_lent. destruct (_ <=? _); lia. Qed.

(** There is room in the open block. *)
Lemma logappend_room usereserve l off len op d g :
  log_st l d g -> append_ok (l_a l) op off len ->
  zlen (ents_bytes (g_est g)) < Logspc - Logslop ->
  exists l' g', logappend usereserve l off len op d = Ok (l', d) /\ log_st l' d g' /\
    g' = mkGhost (g_tl g) (g_ess g) (g_addrs g) (g_est g ++ [entry op off len]) (g_esp g) /\
    l_a l' = l_a l /\ l_hd l' = l_hd l /\ tailaddr l' g' = tailaddr l g.
Proof.
  intros Hs Hk Hz. rewrite (logappend_unfold _ _ _ _ _ _ _ Hs Hk). cbv zeta.
  rewrite (proj2 (Z.leb_gt _ _) Hz). destruct Hs as [H1 H2 HS H3 H4 H5 H6 H7 HB H8 H9].
  destruct (touched_repr _ _ H2) as (Hr & Hb & Hp & Hst).
  pose proof (lent_size (entry op off len)). change Logspc with 16348 in *. change Logslop with 40 in *.
  destruct (logent_repr _ _ _ _ _ Hr (pk_ent _ _ _ _ Hk)) as (b & E & Hr' & Hb' & _ & Hfl).
  { change Logspc with 16348. change (mkLent _ _ _) with (entry op off len). lia. }
  rewrite E. cbn [rbind].
  set (g' := mkGhost _ _ _ _ _). set (l' := set_logbuf _ _ _).
  assert (Ht : tailaddr l' g' = tailaddr l g).
  { unfold tailaddr, l', g'. cbn [g_tl]. by rewrite logbuf_set, Hb', Hb. }
  exists l', g'. split; [done|]. split; [|done].
  constructor; rewrite ?Ht; try done.
  - unfold l', g'. cbn [g_tl g_est]. by rewrite logbuf_set.
  - unfold l', g'. cbn [g_tl]. rewrite logbuf_set. unfold static. rewrite Hfl. by apply Hst.
  - unfold g'. cbn [g_est]. rewrite ents_bytes_app, zlen_app, ents_bytes_cons.
    change (ents_bytes []) with (@nil Z). rewrite app_nil_r. change Logspc with 16348. lia.
  - unfold l', g'. cbn [g_tl]. by rewrite logbuf_set_ne.
  - unfold g'. cbn [g_est g_esp]. by apply prefix_app_r.
Qed.

Lemma logput_alloc1 b o : logput b (Z.lor o LogAlloc1) = logent b LogAlloc1 o Blksz.
Proof. unfold logent. change (Log2wide <=? LogAlloc1) with false. by destruct (logput b _). Qed.

(** The open block is full: a new one is chained to it. *)
Definition chain_ghost (l : LArena) (g : Ghost) (o : Z) (e : Lent) : Ghost :=
  mkGhost (negb (g_tl g)) (g_ess g ++ [g_est g ++ [mkLent LogAlloc1 o Blksz]])
    (g_addrs g ++ [tailaddr l g]) [e] [e].

Lemma g_all_chain l g o e :
  g_all (chain_ghost l g o e) = g_all g ++ [mkLent LogAlloc1 o Blksz] ++ [e].
Proof.
  unfold g_all, chain_ghost. cbn [g_ess g_est]. rewrite concat_app. cbn [concat].
  by rewrite app_nil_r, <- !app_assoc.
Qed.

Lemma g_dur_chain l g o e : g_esp g `prefix_of` g_est g -> g_dur g `prefix_of` g_dur (chain_ghost l g o e).
Proof.
  intros [k E]. unfold g_dur, chain_ghost. cbn [g_ess g_est g_esp]. rewrite concat_app, E. cbn [concat].
  exists (k ++ [mkLent LogAlloc1 o Blksz] ++ [e]). by rewrite app_nil_r, <- !app_assoc.
Qed.

(** The state after the chain, from its pieces. *)
Lemma chain_st l d g o a nb lb e nlog :
  log_st l d g -> 0 <= o -> o ∉ tailaddr l g :: g_addrs g ->
  (forall x, free_at (a_free a) x -> free_at (a_free (l_a l)) x) -> ~ free_at (a_free a) o ->
  blk_of (l_a l) o -> a_addr a = a_addr (l_a l) -> a_size a = a_size (l_a l) ->
  log_repr nb [e] -> static nb -> image o (b_buf nb) [e] Zb -> bp_addr (b_bp nb) = o ->
  zlen (b_buf lb) = Blksz -> 0 <= b_logh lb < 2 ^ 64 ->
  image (tailaddr l g) (b_buf lb) (g_est g ++ [mkLent LogAlloc1 o Blksz]) (nobp o) ->
  let l' := set_logtl (set_logbuf (set_logbuf (set_arena l a) (negb (g_tl g)) nb) (g_tl g) lb)
              (negb (g_tl g)) nlog in
  log_st l' (<[tailaddr l g := b_buf lb]> (<[o := b_buf nb]> d)) (chain_ghost l g o e) /\
  tailaddr l' (chain_ghost l g o e) = o.
Proof.
  intros [H1 H2 HS H3 H4 H5 H6 H7 HB H8 H9] Ho Hno Hfree Hof Hbf Had Hsz Hnb Hsn Hin Hao Hlb Hlh Hil l'.
  set (g' := chain_ghost l g o e). apply not_elem_of_cons in Hno as [Hne Hno].
  assert (Hbuf : logbuf l' (negb (g_tl g)) = nb) by (unfold l'; by destruct (g_tl g)).
  assert (Hbuf2 : logbuf l' (g_tl g) = lb) by (unfold l'; by destruct (g_tl g)).
  assert (Ht : tailaddr l' g' = o) by (unfold tailaddr, g'; cbn [chain_ghost g_tl]; by rewrite Hbuf).
  split; [|done]. apply NoDup_cons in H6 as [H6 H6'].
  assert (Hold : forall x, x ∈ o :: g_addrs g ++ [tailaddr l g] -> x = o \/ x ∈ tailaddr l g :: g_addrs g).
  { intros x Hx. rewrite elem_of_cons, elem_of_app, list_elem_of_singleton in Hx.
    rewrite elem_of_cons. tauto. }
  constructor; rewrite ?Ht; unfold g'; cbn [chain_ghost g_tl g_ess g_addrs g_est g_esp].
  - done.
  - by rewrite Hbuf.
  - by rewrite Hbuf.
  - pose proof (lent_size e). rewrite ents_bytes_cons, zlen_app. change (zlen (ents_bytes [])) with 0.
    change Logspc with 16348. lia.
  - by rewrite negb_involutive, Hbuf2.
  - change o with (bp_addr (nobp o)). eapply sealed_snoc; [| |exact Hil|cbn; lia].
    + eapply sealed_frame; [exact H5|]. intros x Hx.
      rewrite lookup_insert_ne by (by intros E; subst x). rewrite lookup_insert_ne; [done|]. by intros E; subst x.
    + by rewrite lookup_insert, decide_True.
  - apply NoDup_cons. split; [|apply NoDup_app; split; [done|]; split; [|apply NoDup_singleton]].
    + rewrite elem_of_app, list_elem_of_singleton. by intros [?| ?].
    + intros x Hx ->%list_elem_of_singleton. done.
  - intros x Hx. destruct (Hold x Hx) as [->|Hx']; [done|]. apply H7 in Hx' as [? Hx']. split; [done|].
    intros Hf. by apply Hx', Hfree.
  - intros x Hx. assert (Hbx : blk_of (l_a l) x).
    { destruct (Hold x Hx) as [->|Hx']; [done|]. by apply HB. }
    change (l_a l') with a. by apply (blk_of_same (l_a l)).
  - done.
  - right. exists (b_buf nb), Zb. split; [|done].
    rewrite lookup_insert_ne by done. by rewrite lookup_insert, decide_True.
Qed.

Lemma logappend_chain usereserve l off len op d g o a :
  log_st l d g -> append_ok (l_a l) op off len -> arena_pos (l_a l) -> arena_ok (l_a l) ->
  Logspc - Logslop <= zlen (ents_bytes (g_est g)) ->
  blkalloc_lk usereserve (l_a l) false = Ok (Some o, a) ->
  exists l' d', logappend usereserve l off len op d = Ok (l', d') /\
    log_st l' d' (chain_ghost l g o (entry op off len)) /\ l_a l' = a /\ l_hd l' = l_hd l /\
    tailaddr l' (chain_ghost l g o (entry op off len)) = o /\
    (forall x, x <> o -> x <> tailaddr l g -> d' !! x = d !! x).
Proof.
  intros Hs Hk Hp Hok Hz Ha. rewrite (logappend_unfold _ _ _ _ _ _ _ Hs Hk). cbv zeta.
  rewrite (proj2 (Z.leb_le _ _) Hz), Ha. cbn [rbind].
  destruct (alloc_spec _ _ _ _ _ Hok Ha) as (_ & Hbo & Hfo & Haa & Hss & _ & Hx & _).
  pose proof (lent_ok_alloc1 _ _ Hp Hbo) as Hlo.
  assert (Hor : 0 <= o < 2 ^ 63) by apply (lk_off _ Hlo).
  pose proof Hs as [H1 H2 HS H3 H4 H5 H6 H7 HB H8 H9].
  destruct (touched_repr _ _ H2) as (Hr & Hb & Hlp & _).
  destruct (logent_repr _ _ _ _ _ Hr Hlo) as (b1 & E1 & Hr1 & Hb1 & _).
  { rewrite zlen_lent. cbn [le_op]. change (Log2wide <=? LogAlloc1) with false. cbv iota. lia. }
  rewrite logput_alloc1, E1. cbn [rbind].
  set (lb := set_logp b1 (nobp o)). set (l1 := set_logbuf (set_arena l a) (g_tl g) lb).
  assert (Hrl : log_repr lb (g_est g ++ [mkLent LogAlloc1 o Blksz])) by (by apply set_logp_repr, wf_nobp).
  assert (Hoth : logbuf l1 (negb (g_tl g)) = logbuf l (negb (g_tl g))) by (unfold l1; by destruct (g_tl g)).
  destruct H4 as [H4 H4'].
  destruct (mklogblk_spec l1 (g_tl g) o) as (nb0 & -> & Hn0 & Hbp0 & Hlp0 & Hs0); [done|by rewrite Hoth|by rewrite Hoth|].
  rewrite logbuf_set.
  destruct (logent_repr _ _ _ _ _ Hn0 (pk_ent _ _ _ _ Hk)) as (nb1 & E2 & Hn1 & Hbp1 & Hlp1 & Hf1).
  { pose proof (lent_size (entry op off len)). change (zlen (ents_bytes [])) with 0.
    change (mkLent _ _ _) with (entry op off len). change Logspc with 16348. lia. }
  rewrite E2. cbn [rbind]. rewrite app_nil_l in Hn1. change (mkLent _ _ _) with (entry op off len) in Hn1.
  destruct (putblk_log nb1 _ d Hn1) as (nb2 & -> & Hn2 & Hi2 & Ha2 & _ & Hf2); [rewrite Hbp1, Hbp0; cbn; lia|].
  rewrite Hbp1, Hbp0 in Hi2, Ha2 |- *. rewrite Hlp1, Hlp0 in Hi2. cbn [rbind bp_addr] in Hi2, Ha2 |- *.
  replace (logbuf (set_logbuf l1 (negb (g_tl g)) nb0) (g_tl g)) with lb by (unfold l1; by destruct (g_tl g)).
  assert (Hta : bp_addr (b_bp lb) = tailaddr l g) by (unfold tailaddr, lb; cbn; by rewrite Hb1, Hb).
  destruct (putblk_log lb _ (<[o := b_buf nb2]> d) Hrl) as (lb2 & -> & Hl2 & Hil & _).
  { rewrite Hta. apply H7. by left. }
  rewrite Hta in Hil |- *. change (b_logp lb) with (nobp o) in Hil. cbn [rbind].
  destruct (chain_st l d g o a nb2 lb2 (entry op off len) (l_nlog l + 1) Hs) as [Hst Hta']; try done.
  - lia.
  - intros Hin. by apply H7 in Hin as [_ Hin].
  - intros x Hxx. by apply Hx in Hxx as [? _].
  - intros Hxx. apply Hx in Hxx as [_ Hxx]. apply Hxx. change Blksz with 16384. lia.
  - unfold static. rewrite Hf2, Hf1, !setflag_bit by done. by rewrite Hs0.
  - destruct (lr_wf _ _ Hl2). done.
  - apply Hl2.
  - eexists _, _. split; [done|].
    set (l3 := set_logtl _ _ _). set (l4 := set_logtl _ _ _) in Hst, Hta'.
    replace l3 with l4 by (unfold l3, l4, l1; by destruct (g_tl g)).
    split; [done|]. split; [done|]. split; [done|]. split; [done|].
    intros x Hx1 Hx2. by rewrite !lookup_insert_ne by congruence.
Qed.

(** *** Every case of [logappend] *)

Definition alloc_fails (usereserve : bool) (a : Arena) (e : err) : Prop :=
  (e = Efull /\ usereserve = false /\ a_size a - a_used a <= a_reserve a) \/
  (e = Estuffed /\ a_free a = []).

Lemma alloc_cases usereserve a seq :
  postE (alloc_fails usereserve a) (blkalloc_lk usereserve a seq)
    (fun '(o, a') => match o with Some _ => True | None => alloc_fails usereserve a Efull /\ a' = a end).
Proof.
  unfold blkalloc_lk. destruct (negb usereserve && _) eqn:E.
  { zb. destruct usereserve; [done|]. split; [|done]. by left. }
  destruct (if seq then _ else _) as [[b t]|] eqn:Et; [done|].
  right. split; [done|]. destruct seq; by apply take_none in Et.
Qed.

(** The addresses the log uses. *)
Definition log_addrs (l : LArena) (g : Ghost) : list Z := tailaddr l g :: g_addrs g.

Record appended (usereserve : bool) (l : LArena) (g : Ghost) (e : Lent) (d : Disk)
    (l' : LArena) (d' : Disk) (g' : Ghost) (extra : list Lent) : Prop := {
  ap_st : log_st l' d' g';
  ap_all : g_all g' = g_all g ++ extra ++ [e];
  ap_dur : g_dur g `prefix_of` g_dur g';
  ap_chain : chained usereserve (l_a l) (l_a l') extra;
  ap_hd : l_hd l' = l_hd l;
  ap_disk : forall x, x ∉ log_addrs l' g' -> d' !! x = d !! x;
  ap_addrs : forall x, x ∈ log_addrs l' g' -> x ∈ log_addrs l g \/ free_at (a_free (l_a l)) x }.

Lemma logappend_ok usereserve l off len op d g :
  log_st l d g -> append_ok (l_a l) op off len -> arena_pos (l_a l) -> arena_ok (l_a l) ->
  postE (alloc_fails usereserve (l_a l)) (logappend usereserve l off len op d)
    (fun '(l', d') => exists g' extra, appended usereserve l g (entry op off len) d l' d' g' extra).
Proof.
  intros Hs Hk Hp Hok.
  destruct (Z.lt_ge_cases (zlen (ents_bytes (g_est g))) (Logspc - Logslop)) as [Hz|Hz].
  - destruct (logappend_room usereserve _ _ _ _ _ _ Hs Hk Hz) as (l' & g' & -> & Hs' & -> & Ha & Hh & Ht).
    cbn [postE]. eexists _, []. split; [exact Hs'| |done|by left|done|done|].
    + unfold g_all. cbn [g_ess g_est]. by rewrite app_assoc.
    + unfold log_addrs. rewrite Ht. auto.
  - pose proof (alloc_cases usereserve (l_a l) false) as Hc.
    destruct (blkalloc_lk usereserve (l_a l) false) as [[[o|] a]|e] eqn:Ea.
    + destruct (logappend_chain _ _ _ _ _ _ _ _ _ Hs Hk Hp Hok Hz Ea) as (l' & d' & -> & Hs' & Haa & Hh & Ht & Hdk).
      cbn [postE]. eexists _, [mkLent LogAlloc1 o Blksz]. split; [exact Hs'|apply g_all_chain| | |done| |].
      * apply g_dur_chain, Hs.
      * right. exists o. by rewrite Haa.
      * unfold log_addrs. rewrite Ht. cbn [chain_ghost g_addrs]. intros x [Hx1 Hx2]%not_elem_of_cons.
        apply Hdk; [done|]. intros ->. apply Hx2, elem_of_app. right. by left.
      * unfold log_addrs. rewrite Ht. cbn [chain_ghost g_addrs].
        destruct (alloc_spec _ _ _ _ _ Hok Ea) as (_ & _ & Hfo & _).
        intros x [->|[Hx|Hx%list_elem_of_singleton]%elem_of_app]%elem_of_cons; [by right|left; by right|].
        left. subst x. by left.
    + rewrite (logappend_unfold _ _ _ _ _ _ _ Hs Hk). cbv zeta.
      rewrite (proj2 (Z.leb_le _ _) Hz), Ea. cbn [rbind]. by destruct Hc.
    + rewrite (logappend_unfold _ _ _ _ _ _ _ Hs Hk). cbv zeta.
      rewrite (proj2 (Z.leb_le _ _) Hz), Ea. exact Hc.
Qed.

(** ** The log and the free ranges *)

(** Replaying the log gives the ranges in memory. *)
Record log_ok (l : LArena) (d : Disk) (g : Ghost) : Prop := {
  lo_st : log_st l d g;
  lo_arena : arena_ok (l_a l);
  lo_pos : arena_pos (l_a l);
  lo_replay : replay (g_all g) ([], a_size (l_a l)) = Ok (a_free (l_a l), a_used (l_a l)) }.

Lemma arena_pos_same a a' :
  arena_pos a -> a_addr a' = a_addr a -> a_size a' = a_size a -> arena_pos a'.
Proof. intros [] E1 E2. constructor; rewrite ?E1, ?E2; done. Qed.

(** An allocation is what [grabrange] does to the ranges. *)
Lemma alloc_grab usereserve a seq o a' :
  arena_ok a -> blkalloc_lk usereserve a seq = Ok (Some o, a') ->
  grabrange (a_free a) o Blksz = Ok (a_free a').
Proof.
  intros Hok Ha. destruct (alloc_spec _ _ _ _ _ Hok Ha) as (Hok' & _ & _ & Had & _ & _ & Hx & Hin).
  destruct (grabrange_spec (a_addr a - 1) (a_free a) o Blksz (ao_ranges _ Hok)) as (t & E & Hr & Hxt & _);
    [done|done|done|].
  rewrite E. f_equal. apply (ranges_ext t (a_addr a - 1)); [done| |].
  - rewrite <- Had. apply Hok'.
  - intros x. by rewrite Hxt, Hx.
Qed.

Lemma chained_spec usereserve a a' extra :
  arena_ok a -> chained usereserve a a' extra ->
  arena_ok a' /\ a_addr a' = a_addr a /\ a_size a' = a_size a /\
  replay extra (a_free a, a_used a) = Ok (a_free a', a_used a') /\
  (forall x, free_at (a_free a') x -> free_at (a_free a) x).
Proof.
  intros Hok [[-> ->]|(o & Ha & ->)]; [done|].
  destruct (alloc_spec _ _ _ _ _ Hok Ha) as (Hok' & _ & _ & Had & Hsz & Hu & Hx & _).
  split; [done|]. split; [done|]. split; [done|]. split.
  - cbn [replay]. unfold replay1. cbn [le_op le_off le_len fst snd].
    change (LogAlloc1 =? LogSync) with false. change ((LogAlloc1 =? LogAlloc) || _) with true. cbv iota.
    rewrite (alloc_grab _ _ _ _ _ Hok Ha). cbn [rbind]. by rewrite Hu.
  - intros x Hf. by apply Hx in Hf as [? _].
Qed.

(** Taking two blocks in either order leaves the same ranges. *)
Lemma grab_twice lo t b o t1 t2 :
  ranges lo t -> (forall x, b <= x < b + Blksz -> free_at t x) ->
  (forall x, o <= x < o + Blksz -> free_at t x /\ ~ b <= x < b + Blksz) ->
  grabrange t b Blksz = Ok t1 -> grabrange t1 o Blksz = Ok t2 ->
  exists t', grabrange t o Blksz = Ok t' /\ grabrange t' b Blksz = Ok t2.
Proof.
  intros Hr Hb Ho E1 E2.
  destruct (grabrange_spec lo t b Blksz Hr) as (x1 & X1 & R1 & F1 & _); [done|done|done|].
  rewrite E1 in X1. injection X1 as <-.
  destruct (grabrange_spec lo t1 o Blksz R1) as (x2 & X2 & R2 & F2 & _); [done|done| |].
  { intros x Hx. apply F1. by apply Ho. }
  rewrite E2 in X2. injection X2 as <-.
  destruct (grabrange_spec lo t o Blksz Hr) as (t' & X3 & R3 & F3 & _); [done|done| |].
  { intros x Hx. by apply Ho. }
  exists t'. split; [done|].
  destruct (grabrange_spec lo t' b Blksz R3) as (t3 & X4 & R4 & F4 & _); [done|done| |].
  { intros x Hx. apply F3. split; [by apply Hb|]. intros Hx'. by apply Ho in Hx' as [_ ?]. }
  rewrite X4. f_equal. apply (ranges_ext t3 lo); [done|done|].
  intros x. rewrite F4, F3, F2, F1. tauto.
Qed.

(** An allocation that is chained in between is replayed before it. *)
Lemma replay_alloc usereserve seq a b a1 a2 extra :
  arena_ok a -> blkalloc_lk usereserve a seq = Ok (Some b, a1) -> chained usereserve a1 a2 extra ->
  replay (extra ++ [mkLent LogAlloc1 b Blksz]) (a_free a, a_used a) = Ok (a_free a2, a_used a2).
Proof.
  intros Hok Ha Hc. destruct (alloc_spec _ _ _ _ _ Hok Ha) as (Hok1 & _ & _ & _ & _ & Hu & Hx & Hin).
  pose proof (alloc_grab _ _ _ _ _ Hok Ha) as Hg.
  assert (H1 : forall t u, replay [mkLent LogAlloc1 b Blksz] (t, u) =
    let! t := grabrange t b Blksz in Ok (t, u + Blksz)).
  { intros t u. cbn [replay]. unfold replay1. cbn [le_op le_off le_len fst snd].
    change (LogAlloc1 =? LogSync) with false. change ((LogAlloc1 =? LogAlloc) || _) with true. cbv iota.
    by destruct (grabrange t b Blksz). }
  rewrite replay_app. destruct Hc as [[-> ->]|(o & Ho & ->)].
  - change (replay [mkLent LogAlloc1 b Blksz] (a_free a, a_used a) = Ok (a_free a1, a_used a1)).
    rewrite H1, Hg. cbn [rbind]. by rewrite Hu.
  - destruct (alloc_spec _ _ _ _ _ Hok1 Ho) as (Hok2 & _ & _ & _ & _ & Hu2 & Hx2 & Hin2).
    pose proof (alloc_grab _ _ _ _ _ Hok1 Ho) as Hg2.
    destruct (grab_twice (a_addr a - 1) (a_free a) b o (a_free a1) (a_free a2)) as (t' & E1 & E2);
      [apply Hok|done| |done|done|].
    { intros x Hxo. by apply Hx, Hin2. }
    cbn [replay]. unfold replay1. cbn [le_op le_off le_len fst snd].
    change (LogAlloc1 =? LogSync) with false. change ((LogAlloc1 =? LogAlloc) || _) with true. cbv iota.
    rewrite E1. cbn [rbind fst snd]. rewrite E2. cbn [rbind]. f_equal. f_equal. lia.
Qed.

(** ** The operations keep the invariant *)

(** What later states have in common with earlier ones. *)
Record grows (l : LArena) (d : Disk) (g : Ghost) (l' : LArena) (d' : Disk) (g' : Ghost) : Prop := {
  gr_dur : g_dur g `prefix_of` g_dur g';
  gr_hd : l_hd l' = l_hd l;
  gr_addrs : forall x, x ∈ log_addrs l' g' -> x ∈ log_addrs l g \/ free_at (a_free (l_a l)) x;
  gr_addr : a_addr (l_a l') = a_addr (l_a l);
  gr_size : a_size (l_a l') = a_size (l_a l);
  gr_disk : forall x, x ∉ log_addrs l' g' -> d' !! x = d !! x }.

Definition full (e : err) : Prop := e = Efull \/ e = Estuffed.

Lemma alloc_fails_full usereserve a e : alloc_fails usereserve a e -> full e.
Proof. intros [(-> & _)|(-> & _)]; [by left|by right]. Qed.

Lemma log_st_arena l d g a :
  log_st l d g -> a_addr a = a_addr (l_a l) -> a_size a = a_size (l_a l) ->
  (forall x, x ∈ log_addrs l g -> ~ free_at (a_free a) x) -> log_st (set_arena l a) d g.
Proof.
  intros [H1 H2 HS H3 H4 H5 H6 H7 HB H8 H9] Ha Hsz Hx. constructor; try done.
  - intros x Hin. split; [by apply H7|by apply Hx].
  - intros x Hin. apply (blk_of_same (l_a l)); [by apply HB|done|done].
Qed.

Lemma blkalloc_in_ok usereserve l seq d g :
  log_ok l d g ->
  postE full (blkalloc_in usereserve l seq d) (fun '(ob, l', d') =>
    match ob with
    | None => l' = l /\ d' = d /\ alloc_fails usereserve (l_a l) Efull
    | Some b => exists g', log_ok l' d' g' /\ grows l d g l' d' g' /\ blk_of (l_a l) b /\
        (forall x, b <= x < b + Blksz -> free_at (a_free (l_a l)) x /\ ~ free_at (a_free (l_a l')) x) /\
        b ∉ log_addrs l' g'
    end).
Proof.
  intros [Hs Hok Hp Hr]. unfold blkalloc_in.
  pose proof (alloc_cases usereserve (l_a l) seq) as Hc.
  destruct (blkalloc_lk usereserve (l_a l) seq) as [[[b|] a]|e] eqn:Ea; cbn [rbind].
  2:{ destruct Hc as [Hc ->]. done. }
  2:{ by eapply alloc_fails_full. }
  destruct (alloc_spec _ _ _ _ _ Hok Ea) as (Hok1 & Hbo & Hfb & Had & Hsz & Hu & Hx & Hin).
  assert (Hs1 : log_st (set_arena l a) d g).
  { apply log_st_arena; [done|done|done|]. intros x Hxl Hf. apply Hx in Hf as [Hf _].
    by eapply (ls_inuse _ _ _ Hs). }
  assert (Hp1 : arena_pos a) by by eapply arena_pos_same.
  assert (Hbo1 : blk_of a b) by (destruct Hbo; constructor; by rewrite ?Had, ?Hsz).
  pose proof (logappend_ok usereserve (set_arena l a) b Blksz LogAlloc d g Hs1
    (append_ok_blk a LogAlloc b Hp1 Hbo1 ltac:(by left)) Hp1 Hok1) as H.
  destruct (logappend _ _ _ _ _ _) as [[l' d']|e]; cbn [postE rbind] in *; [|by eapply alloc_fails_full].
  destruct H as (g' & extra & [A1 A2 A3 A4 A5 AD A6]). change (l_a (set_arena l a)) with a in *.
  destruct (chained_spec _ _ _ _ Hok1 A4) as (C1 & C2 & C3 & C4 & C5).
  assert (Hadr : forall x, x ∈ log_addrs l' g' -> x ∈ log_addrs l g \/ free_at (a_free a) x) by done.
  exists g'. split; [|split; [|split; [done|split]]].
  - constructor; [done|done|by eapply arena_pos_same|].
    rewrite A2, replay_app, C3, Hsz, Hr. cbn [rbind]. by eapply replay_alloc.
  - constructor; [done|done| |congruence|congruence|done].
    intros x Hxl. apply Hadr in Hxl as [?|Hf]; [by left|right]. by apply Hx in Hf as [? _].
  - intros x Hbx. split; [by apply Hin|]. intros Hf. apply C5, Hx in Hf as [_ ?]. done.
  - intros Hb. apply Hadr in Hb as [Hb|Hb].
    + by apply (ls_inuse _ _ _ Hs) in Hb as [_ Hb].
    + apply Hx in Hb as [_ Hb]. apply Hb. change Blksz with 16384. lia.
Qed.

Lemma blkdealloc_lk_ok usereserve l b d g :
  log_ok l d g -> blk_of (l_a l) b -> disjoint_range (a_free (l_a l)) b Blksz -> b ∉ log_addrs l g ->
  postE full (blkdealloc_lk usereserve l b d) (fun '(l', d') =>
    exists g', log_ok l' d' g' /\ grows l d g l' d' g' /\
      (forall x, b <= x < b + Blksz -> free_at (a_free (l_a l')) x)).
Proof.
  intros [Hs Hok Hp Hr] Hb Hd Hbl. unfold blkdealloc_lk.
  pose proof (logappend_ok usereserve l b Blksz LogFree d g Hs
    (append_ok_blk _ LogFree b Hp Hb ltac:(by right)) Hp Hok) as H.
  destruct (logappend _ _ _ _ _ _) as [[l' d']|e]; cbn [postE rbind] in *; [|by eapply alloc_fails_full].
  destruct H as (g' & extra & [A1 A2 A3 A4 A5 AD A6]).
  destruct (chained_spec _ _ _ _ Hok A4) as (C1 & C2 & C3 & C4 & C5).
  assert (Hd' : disjoint_range (a_free (l_a l')) b Blksz).
  { intros x Hx Hf. by apply (Hd x Hx), C5. }
  destruct (freerange_spec (a_addr (l_a l') - 1) (a_free (l_a l')) b Blksz (ao_ranges _ C1))
    as (t & E & Ht & Hx & Hsz); [destruct Hb; lia|done|done|done|].
  rewrite E. cbn [rbind postE]. exists g'.
  set (l2 := set_arena l' (set_free (l_a l') (a_used (l_a l') - Blksz) t)).
  assert (Hs2 : log_st l2 d' g').
  { apply log_st_arena; [done|done|done|]. intros x Hxl Hf. apply Hx in Hf as [Hf|Hf].
    - by eapply (ls_inuse _ _ _ A1).
    - pose proof (bo_al _ _ (ls_blk _ _ _ A1 x Hxl)) as Hbx. rewrite C2 in Hbx.
      assert (Hbb : blkfloor (a_addr (l_a l)) b = b) by apply Hb.
      rewrite (blkfloor_same _ b x) in Hbx by lia. rewrite Hbb in Hbx. subst x.
      apply A6 in Hxl as [?|Hfr]; [done|]. apply (Hd b); [lia|done]. }
  split; [|split].
  - constructor; [done| |by eapply arena_pos_same|].
    + constructor; cbn [l2 set_arena l_a set_free a_addr a_size a_used a_free]; [done| | |].
      * eapply aligned_add; [apply C1| |exact Hx]. rewrite C2. apply Hb.
      * intros x [Hf|Hf]%Hx; [by apply (ao_end _ C1)|]. destruct Hb. rewrite C2, C3. lia.
      * pose proof (ao_used _ C1). lia.
    + rewrite A2, replay_app. change (a_size (l_a l2)) with (a_size (l_a l')). rewrite C3, Hr. cbn [rbind].
      rewrite replay_app, C4. cbn [rbind replay]. unfold replay1, entry.
      cbn [le_op le_off le_len fst snd]. change (narrow LogFree Blksz) with LogFree1.
      change (LogFree1 =? LogSync) with false. change ((LogFree1 =? LogAlloc) || _) with false. cbv iota.
      by rewrite E.
  - by constructor.
  - intros x Hbx. apply Hx. by right.
Qed.

Lemma narrow_sync len : len <> Blksz -> narrow LogSync len = LogSync.
Proof. intros H. unfold narrow. by rewrite (proj2 (Z.eqb_neq _ _) H). Qed.

Definition barrier (gen : Z) : Lent := mkLent LogSync (Z.shiftl gen 8) 0.

Lemma logbarrier_ok usereserve l gen d g :
  log_ok l d g -> 0 <= gen < 2 ^ 55 ->
  postE full (logbarrier usereserve l gen d) (fun '(l', d') =>
    exists g' extra, log_ok l' d' g' /\ grows l d g l' d' g' /\
      g_all g' = g_all g ++ extra ++ [barrier gen] /\ Forall (fun e => le_op e = LogAlloc1) extra).
Proof.
  intros [Hs Hok Hp Hr] Hg. unfold logbarrier.
  pose proof (logappend_ok usereserve l (Z.shiftl gen 8) 0 LogSync d g Hs (append_ok_sync _ gen Hg) Hp Hok) as H.
  destruct (logappend _ _ _ _ _ _) as [[l' d']|e]; cbn [postE] in *; [|by eapply alloc_fails_full].
  destruct H as (g' & extra & [A1 A2 A3 A4 A5 AD A6]).
  destruct (chained_spec _ _ _ _ Hok A4) as (C1 & C2 & C3 & C4 & C5).
  exists g', extra. split; [|split; [by constructor|split; [done|]]].
  - constructor; [done|done|by eapply arena_pos_same|].
    rewrite A2, replay_app, C3, Hr. cbn [rbind]. rewrite replay_app, C4. done.
  - destruct A4 as [[-> _]|(o & _ & ->)]; by repeat constructor.
Qed.

Lemma flushlog_ok l d g :
  log_ok l d g -> exists l' d' g', flushlog l d = Ok (l', d') /\ log_ok l' d' g' /\
    grows l d g l' d' g' /\ g_all g' = g_all g /\ g_dur g' = g_all g /\ l_a l' = l_a l.
Proof.
  intros [[H1 H2 HS H3 H4 H5 H6 H7 HB H8 H9] Hok Hp Hr]. unfold flushlog. rewrite H1.
  assert (Hfl : checkflag (b_flag (logbuf l (g_tl g))) 0 (Z.lor Bdirty Bstatic) = false).
  { unfold checkflag. apply Z.eqb_neq. intros E. apply (f_equal (fun z => Z.testbit z 6)) in E.
    rewrite Z.land_spec, HS in E. done. }
  rewrite Hfl. assert (Ht : 0 <= bp_addr (b_bp (logbuf l (g_tl g)))) by (apply H7; by left).
  destruct (putblk_log _ _ d H2 Ht) as (b & -> & Hb & Hi & Ha & Hl & Hf). cbn [rbind].
  set (l' := set_logbuf _ _ _). set (g' := mkGhost (g_tl g) (g_ess g) (g_addrs g) (g_est g) (g_est g)).
  assert (Hta : tailaddr l' g' = tailaddr l g) by (unfold tailaddr, l', g'; cbn [g_tl]; by rewrite logbuf_set).
  exists l'. eexists. exists g'. split; [done|].
  assert (Hst : log_st l' (<[tailaddr l g := b_buf b]> d) g').
  { constructor; rewrite ?Hta; try done; unfold g', l'; cbn [g_tl g_est g_esp g_ess g_addrs].
    - by rewrite logbuf_set.
    - rewrite logbuf_set. unfold static. rewrite Hf, !setflag_bit by done. by rewrite HS.
    - by rewrite logbuf_set_ne.
    - eapply sealed_frame; [exact H5|]. intros x Hx. rewrite lookup_insert_ne; [done|].
      intros E. subst x. by apply NoDup_cons in H6 as [? _].
    - right. exists (b_buf b), (b_logp (logbuf l (g_tl g))). by rewrite lookup_insert, decide_True. }
  split; [by constructor|]. split; [|done].
  constructor; try done.
  - unfold g_dur, g'. cbn [g_ess g_esp]. by apply prefix_app.
  - unfold log_addrs. rewrite Hta. auto.
  - unfold log_addrs. rewrite Hta. intros x [Hx _]%not_elem_of_cons. by rewrite lookup_insert_ne.
Qed.

(** The invariant is about the log's blocks only. *)
Lemma log_ok_frame l d d' g :
  log_ok l d g -> (forall x, x ∈ log_addrs l g -> d' !! x = d !! x) -> log_ok l d' g.
Proof.
  intros [[H1 H2 HS H3 H4 H5 H6 H7 HB H8 H9] Hok Hp Hr] Hx.
  constructor; [|done|done|done]. constructor; try done.
  - eapply sealed_frame; [exact H5|]. intros x Hin. apply Hx. by right.
  - destruct H9 as [?|(b & n & Hb & Hi)]; [by left|right]. exists b, n. rewrite Hx; [done|]. by left.
Qed.

Lemma data_ok l d g a buf :
  log_ok l d g -> a ∉ log_addrs l g -> log_ok l (<[a := buf]> d) g.
Proof.
  intros Hok Ha. eapply log_ok_frame; [done|]. intros x Hx. rewrite lookup_insert_ne; [done|].
  by intros E; subst x.
Qed.

(** ** Steps of the running file system *)

Definition log_owns (l : LArena) (d : Disk) (a : Z) : Prop :=
  exists g, log_ok l d g /\ a ∈ log_addrs l g.

(** One step on an arena and its device: the operations on the log, and a
    write to a block that is not the log's. *)
Inductive lstep : LArena * Disk -> LArena * Disk -> Prop :=
  | st_alloc usereserve seq b l d l' d' :
      blkalloc_in usereserve l seq d = Ok (Some b, l', d') -> lstep (l, d) (l', d')
  | st_free usereserve b l d l' d' :
      blk_of (l_a l) b -> disjoint_range (a_free (l_a l)) b Blksz -> ~ log_owns l d b ->
      blkdealloc_lk usereserve l b d = Ok (l', d') -> lstep (l, d) (l', d')
  | st_barrier usereserve gen l d l' d' :
      0 <= gen < 2 ^ 55 -> logbarrier usereserve l gen d = Ok (l', d') -> lstep (l, d) (l', d')
  | st_flush l d l' d' : flushlog l d = Ok (l', d') -> lstep (l, d) (l', d')
  | st_data a buf l d : ~ log_owns l d a -> lstep (l, d) (l, <[a := buf]> d).

Inductive lsteps : LArena * Disk -> LArena * Disk -> Prop :=
  | ls_refl s : lsteps s s
  | ls_step s1 s2 s3 : lstep s1 s2 -> lsteps s2 s3 -> lsteps s1 s3.

Lemma lstep_ok l d l' d' g :
  lstep (l, d) (l', d') -> log_ok l d g ->
  exists g', log_ok l' d' g' /\ g_dur g `prefix_of` g_dur g' /\ l_hd l' = l_hd l.
Proof.
  intros Hs Hok. inversion Hs as [ur seq b ? ? ? ? E|ur b ? ? ? ? Hb Hd Hn E|ur gen ? ? ? ? Hg E|? ? ? ? E|a buf ? ? Hn]; subst.
  - pose proof (blkalloc_in_ok ur l seq d g Hok) as H. rewrite E in H.
    destruct H as (g' & H & [] & _). by exists g'.
  - pose proof (blkdealloc_lk_ok ur l b d g Hok Hb Hd) as H. rewrite E in H.
    destruct H as (g' & H & [] & _); [|by exists g']. intros Hin. apply Hn. by exists g.
  - pose proof (logbarrier_ok ur l gen d g Hok Hg) as H. rewrite E in H.
    destruct H as (g' & extra & H & [] & _). by exists g'.
  - destruct (flushlog_ok l d g Hok) as (l2 & d2 & g' & E' & H & [] & _). rewrite E in E'.
    injection E' as <- <-. by exists g'.
  - exists g. split; [|done]. apply data_ok; [done|]. intros Hin. apply Hn. by exists g.
Qed.

Lemma lsteps_ok s s' : lsteps s s' -> forall g, log_ok (fst s) (snd s) g ->
  exists g', log_ok (fst s') (snd s') g' /\ g_dur g `prefix_of` g_dur g' /\ l_hd (fst s') = l_hd (fst s).
Proof.
  induction 1 as [s|[l1 d1] [l2 d2] s3 H1 _ IH]; intros g Hg; [by exists g|].
  destruct (lstep_ok _ _ _ _ _ H1 Hg) as (g2 & Hg2 & Hp2 & Hh2).
  destruct (IH g2 Hg2) as (g3 & Hg3 & Hp3 & Hh3). exists g3. split; [done|].
  split; [by etrans|]. cbn [fst] in *. congruence.
Qed.

(** ** Loading *)

Lemma cut_app q es es' :
  cut q (es ++ es') = if snd (cut q es) then cut q es
                      else (fst (cut q es) ++ fst (cut q es'), snd (cut q es')).
Proof.
  induction es as [|e es IH]; cbn [app cut fst snd]; [by destruct (cut q es')|].
  destruct (stops q e); [done|]. rewrite IH.
  destruct (cut q es) as [p b]. cbn [fst snd]. destruct b; [done|]. by destruct (cut q es').
Qed.

Lemma cut_pre q es : fst (cut q es) `prefix_of` es.
Proof.
  induction es as [|e es IH]; cbn [cut]; [done|]. destruct (stops q e); [apply prefix_nil|].
  destruct (cut q es) as [p b]. cbn [fst] in *. by apply prefix_cons.
Qed.

Lemma cut_none q es : snd (cut q es) = false -> fst (cut q es) = es.
Proof.
  induction es as [|e es IH]; cbn [cut]; [done|]. destruct (stops q e); [done|].
  destruct (cut q es) as [p b]. cbn [fst snd] in *. intros H. by rewrite IH.
Qed.

Lemma zlen_ents es : Z.of_nat (length es) <= zlen (ents_bytes es).
Proof.
  induction es as [|e es IH]; [done|]. rewrite ents_bytes_cons, zlen_app, zlen_lent.
  cbn [length]. destruct (_ <=? _); lia.
Qed.

(** An arena as [loadarena] leaves it: nothing is free, the buffers are
    static and no tail is known. *)
Record fresh (l : LArena) : Prop := {
  fr_tl : l_tl l = None;
  fr_free : a_free (l_a l) = [];
  fr_used : a_used (l_a l) = a_size (l_a l);
  fr_flag : checkflag (b_flag (l_b0 l)) Bstatic Bcached = true;
  fr_logh : 0 <= b_logh (l_b0 l) < 2 ^ 64 }.

(** One block of the chain. *)
Lemma loadlog_block fuel q l bp d buf es next t u :
  d !! bp_addr bp = Some buf -> image (bp_addr bp) buf es next -> l_tl l = None ->
  checkflag (b_flag (l_b0 l)) Bstatic Bcached = true -> 0 <= b_logh (l_b0 l) < 2 ^ 64 ->
  replay (fst (cut q es)) (a_free (l_a l), a_used (l_a l)) = Ok (t, u) ->
  exists r, log_repr r es /\ b_logp r = next /\ b_bp r = nobp (bp_addr bp) /\ b_flag r = b_flag (l_b0 l) /\
    let l' := mkLArena (set_free (l_a l) u t) r (l_b1 l) None (l_hd l) (l_nlog l + 1) (l_lastlogsz l) in
    loadlog (S fuel) q l bp d =
      if snd (cut q es) then
        Ok (set_logtl (set_logbuf l' false
              (set_flag (set_logsz r (zlen (ents_bytes (fst (cut q es))))) Bdirty 0)) false (l_nlog l'))
      else if bp_addr next =? -1 then Ok (set_logtl l' false (l_nlog l'))
      else loadlog fuel q l' next d.
Proof.
  intros Hd Hi Ht Hf Hh Hr. destruct (Hi (l_b0 l) bp d eq_refl Hd Hh) as (r & Hrd & Hlr & Hn & Hb & Hfl).
  exists r. do 4 (split; [done|]). intros l'. cbn [loadlog]. rewrite Hf, Hrd. cbn [rbind].
  pose proof (replay_blk_spec q r es Hlr es (Z.to_nat (b_logsz r)) [] (a_free (l_a l)) (a_used (l_a l)) eq_refl) as E.
  change (zlen (ents_bytes [])) with 0 in E. rewrite E.
  2:{ rewrite (lr_logsz _ _ Hlr). pose proof (zlen_ents es). lia. }
  rewrite Hr. cbn [rbind app]. destruct (snd (cut q es)); rewrite Ht; [done|]. by rewrite Hn.
Qed.

(** The chain up to the barrier. *)
Lemma loadlog_spec q d a ess addrs fin : sealed d a ess addrs fin ->
  forall esp l bp t u fuel, bp_addr bp = a -> tail_img d fin esp -> l_tl l = None ->
  checkflag (b_flag (l_b0 l)) Bstatic Bcached = true -> 0 <= b_logh (l_b0 l) < 2 ^ 64 ->
  snd (cut q (concat ess ++ esp)) = true ->
  replay (fst (cut q (concat ess ++ esp))) (a_free (l_a l), a_used (l_a l)) = Ok (t, u) ->
  (length ess < fuel)%nat ->
  exists r, loadlog fuel q l bp d = Ok r /\ a_free (l_a r) = t /\ a_used (l_a r) = u /\
    l_tl r = Some false.
Proof.
  induction 1 as [a|a buf es next ess addrs fin Hd Hi Hn _ IH];
    intros esp l bp t u fuel Hbp Him Ht Hf Hh Hc Hr Hfu; (destruct fuel as [|fuel]; [simpl in Hfu; lia|]).
  - destruct Him as [->|(buf & next & Hb & Hi)]; [done|]. cbn [concat app] in Hc, Hr.
    rewrite <- Hbp in Hb, Hi.
    destruct (loadlog_block fuel q l bp d buf esp next t u Hb Hi Ht Hf Hh Hr) as (r & _ & _ & _ & _ & E).
    cbv zeta in E. rewrite Hc in E. rewrite E. eexists. by repeat split.
  - cbn [concat] in Hc, Hr. rewrite <- app_assoc, cut_app in Hc, Hr. rewrite <- Hbp in Hd, Hi.
    destruct (snd (cut q es)) eqn:Es.
    + destruct (loadlog_block fuel q l bp d buf es next t u Hd Hi Ht Hf Hh Hr) as (r & _ & _ & _ & _ & E).
      cbv zeta in E. rewrite Es in E. rewrite E. eexists. by repeat split.
    + cbn [fst snd] in Hc, Hr. rewrite replay_app in Hr. bind_inv Hr as [t1 u1] E1.
      destruct (loadlog_block fuel q l bp d buf es next t1 u1 Hd Hi Ht Hf Hh E1) as (r & Hlr & _ & _ & Hfl & E).
      cbv zeta in E. rewrite Es, (proj2 (Z.eqb_neq _ _) Hn) in E. rewrite E.
      apply IH with (esp := esp); try done.
      * cbn [l_b0]; by rewrite Hfl.
      * apply Hlr.
      * simpl in Hfu. lia.
Qed.

(** A barrier that nothing of its generation or later precedes. *)
Lemma cut_barrier q pre post :
  Forall (fun e => stops q e = false) pre -> 0 <= q -> cut q (pre ++ barrier q :: post) = (pre, true).
Proof.
  intros Hp Hq. rewrite cut_app. assert (E : cut q pre = (pre, false)).
  { induction Hp as [|e pre He _ IH]; [done|]. cbn [cut]. by rewrite He, IH. }
  rewrite E. cbn [fst snd cut]. unfold stops, barrier. cbn [le_op le_off].
  rewrite Z.shiftr_shiftl_l by lia. change (8 - 8) with 0. rewrite Z.shiftl_0_r, Z.leb_refl.
  cbn [andb fst snd]. change (LogSync =? LogSync) with true. cbn. by rewrite app_nil_r.
Qed.

(** ** Theorems *)

(** C4: the log makes allocation crash safe.  Once the barrier of generation
    [gen] is written and flushed, then whatever the file system does next
    (allocations, frees, barriers, flushes, and writes to blocks that are
    not the log's) and wherever it stops, loading the log that is on the
    device at generation [gen] ends, and gives exactly the free ranges and
    the space in use at the barrier. *)
Theorem loadlog_recovers usereserve l d g gen l1 d1 l2 d2 l3 d3 l0 :
  log_ok l d g -> 0 <= gen < 2 ^ 55 -> Forall (fun e => stops gen e = false) (g_all g) ->
  logbarrier usereserve l gen d = Ok (l1, d1) -> flushlog l1 d1 = Ok (l2, d2) ->
  lsteps (l2, d2) (l3, d3) ->
  fresh l0 -> a_size (l_a l0) = a_size (l_a l) ->
  exists n, forall fuel, (n < fuel)%nat ->
    exists r, loadlog fuel gen l0 (l_hd l3) d3 = Ok r /\
      a_free (l_a r) = a_free (l_a l1) /\ a_used (l_a r) = a_used (l_a l1).
Proof.
  intros Hok Hg Hns Eb Ef Hst [F1 F2 F3 F4 F5] Hsz.
  pose proof (logbarrier_ok usereserve l gen d g Hok Hg) as H. rewrite Eb in H.
  destruct H as (g1 & extra & Hok1 & [_ _ _ _ Hs1 _] & Hall & Hex).
  destruct (flushlog_ok l1 d1 g1 Hok1) as (x & y & g2 & E & Hok2 & _ & _ & Hdur & _).
  rewrite Ef in E. injection E as <- <-.
  destruct (lsteps_ok _ _ Hst g2 Hok2) as (g3 & Hok3 & Hpre & _). cbn [fst snd] in *.
  rewrite Hdur, Hall in Hpre. destruct Hpre as [post Hpre].
  assert (Hc : cut gen (g_dur g3) = (g_all g ++ extra, true)).
  { rewrite Hpre, <- !app_assoc. cbn [app]. rewrite app_assoc. apply cut_barrier; [|lia].
    apply Forall_app. split; [done|]. eapply Forall_impl; [exact Hex|]. intros e He. unfold stops. by rewrite He. }
  exists (length (g_ess g3)). intros fuel Hf.
  destruct (loadlog_spec gen d3 _ _ _ _ (ls_sealed _ _ _ (lo_st _ _ _ Hok3)) (g_esp g3) l0 (l_hd l3)
    (a_free (l_a l1)) (a_used (l_a l1)) fuel) as (r & Er & ? & ? & _); try done.
  - apply Hok3.
  - change (concat (g_ess g3) ++ g_esp g3) with (g_dur g3). by rewrite Hc.
  - change (concat (g_ess g3) ++ g_esp g3) with (g_dur g3). rewrite Hc. cbn [fst].
    rewrite F2, F3, Hsz, <- Hs1. pose proof (lo_replay _ _ _ Hok1) as Hr1.
    rewrite Hall, app_assoc, replay_app in Hr1. bind_inv Hr1 as s E. rewrite E.
    cbn [replay] in Hr1. unfold replay1, barrier in Hr1. cbn [le_op] in Hr1.
    change (LogSync =? LogSync) with true in Hr1. cbn [rbind] in Hr1. done.
  - by exists r.
Qed.

(** Allocating a block through the log: it was free, it is not the
    log's, it is free no longer, and the log still replays to the ranges in
    memory, even when the log itself had to take a block for the entry.  The
    only failures are a full arena. *)
Theorem blkalloc_in_correct usereserve l seq d g :
  log_ok l d g ->
  postE full (blkalloc_in usereserve l seq d) (fun '(ob, l', d') =>
    match ob with
    | None => l' = l /\ d' = d /\ alloc_fails usereserve (l_a l) Efull
    | Some b => exists g', log_ok l' d' g' /\ blk_of (l_a l) b /\
        (forall x, b <= x < b + Blksz -> free_at (a_free (l_a l)) x /\ ~ free_at (a_free (l_a l')) x) /\
        b ∉ log_addrs l' g'
    end).
Proof.
  intros Hok. eapply postE_mono; [by apply blkalloc_in_ok|].
  intros [[[b|] l'] d']; [|done]. intros (g' & H1 & _ & H2). by exists g'.
Qed.

(** Freeing a block through the log makes it free, never trips the
    double-free assertion, and the log still replays to the ranges in
    memory. *)
Theorem blkdealloc_lk_correct usereserve l b d g :
  log_ok l d g -> blk_of (l_a l) b -> disjoint_range (a_free (l_a l)) b Blksz -> b ∉ log_addrs l g ->
  postE full (blkdealloc_lk usereserve l b d) (fun '(l', d') =>
    exists g', log_ok l' d' g' /\ (forall x, b <= x < b + Blksz -> free_at (a_free (l_a l')) x)).
Proof.
  intros H1 H2 H3 H4. eapply postE_mono; [by apply (blkdealloc_lk_ok _ _ _ _ g)|].
  intros [l' d'] (g' & ? & _ & ?). by exists g'.
Qed.

(** ** Witnesses

    A small arena at [base] with the log [initarena] writes: everything
    behind the two headers is freed, the log's own block is taken, barrier 0. *)

Definition log_ex (base : Z) : list Lent :=
  [mkLent LogFree (base + 32768) 98304; mkLent LogAlloc (base + 32768) 16384; mkLent LogSync 0 0].
Definition larena_ex (base : Z) : Arena := mkArena base 131072 49152 0 [mkRange (base + 49152) 81920].
Definition ghost_ex (base : Z) : Ghost := mkGhost false [] [] (log_ex base) [].
Definition l_ex (base : Z) (b : Blk) : LArena :=
  mkLArena (larena_ex base) b blkz (Some false) (nobp (base + 32768)) 1 1.
Definition l_fresh : LArena :=
  mkLArena (mkArena 16384 131072 131072 0 []) (set_flag blkz Bstatic 0) blkz None (nobp 49152) 0 0.

(** The bases of two such arenas. *)
Definition ex_base (base : Z) : Prop := base = 16384 \/ base = 180224.

Lemma larena_ex_ok base : ex_base base -> arena_ok (larena_ex base).
Proof.
  intros Hb. constructor; [cbn; lia| | |cbn; lia].
  - intros x. cbn [larena_ex a_free a_addr]. rewrite !free_at_cons, !free_at_nil. cbn [ar_off ar_len].
    pose proof (blkfloor_bounds base x) as Hbb.
    assert (E : exists q, blkfloor base x = base + 16384 * q) by (by eexists). destruct E as [q E].
    change Blksz with 16384 in *. lia.
  - intros x. cbn [larena_ex a_free a_addr a_size].
    rewrite !free_at_cons, free_at_nil. cbn [ar_off ar_len]. change Blksz with 16384. lia.
Qed.

Lemma log_block es : forall b dn, log_repr b dn -> Forall lent_ok es ->
  zlen (ents_bytes (dn ++ es)) <= Logspc -> exists b', log_repr b' (dn ++ es) /\ same_but_log b b'.
Proof.
  induction es as [|e es IH]; intros b dn Hb Ho Hz; [exists b; by rewrite app_nil_r|].
  apply Forall_cons in Ho as [He Ho]. destruct e as [op off len].
  destruct (logent_repr b dn op off len Hb He) as (b1 & _ & Hb1 & S1 & S2 & S3).
  { rewrite ents_bytes_app, ents_bytes_cons, !zlen_app in Hz.
    pose proof (zlen_nonneg (ents_bytes es)). lia. }
  destruct (IH b1 (dn ++ [mkLent op off len]) Hb1 Ho) as (b2 & Hb2 & T1 & T2 & T3);
    [by rewrite <- app_assoc|]. rewrite <- app_assoc in Hb2.
  exists b2. split; [done|]. split; [congruence|]. split; congruence.
Qed.

Lemma log_ex_ents base : ex_base base -> Forall lent_ok (log_ex base).
Proof.
  intros [-> | ->]; repeat constructor; cbn [le_op le_off le_len]; try (set_unfold; tauto); try done;
    by intros [?|?].
Qed.

Lemma log_ex_ok base : ex_base base -> exists b, log_ok (l_ex base b) ∅ (ghost_ex base).
Proof.
  intros Hbase.
  destruct (mklogblk_spec (l_ex base blkz) false (base + 32768)) as (b0 & _ & Hb0 & Hbp & _ & Hst);
    [done|exact zlen_zbuf|split; done|].
  destruct (log_block (log_ex base) b0 [] Hb0 (log_ex_ents base Hbase)) as (b & Hb & S1 & S2 & S3);
    [by destruct Hbase as [-> | ->]|].
  assert (Ht : tailaddr (l_ex base b) (ghost_ex base) = base + 32768) by (unfold tailaddr; cbn; by rewrite S1, Hbp).
  exists b. constructor; [|by apply larena_ex_ok|by destruct Hbase as [-> | ->]|by destruct Hbase as [-> | ->]].
  constructor; rewrite ?Ht; try done.
  - unfold static. cbn [logbuf l_ex ghost_ex g_tl l_b0]. by rewrite S3.
  - apply se_nil.
  - apply NoDup_singleton.
  - intros x ->%list_elem_of_singleton. split; [destruct Hbase; lia|].
    cbn [l_ex l_a larena_ex a_free]. rewrite free_at_cons, free_at_nil. cbn [ar_off ar_len]. lia.
  - intros x ->%list_elem_of_singleton. by destruct Hbase as [-> | ->].
  - apply prefix_nil.
  - by left.
Qed.

Lemma blkalloc_in_correct_witness :
  exists b l' d' g', blkalloc_in false (l_ex 16384 b) false ∅ = Ok (Some 131072, l', d') /\ log_ok l' d' g'.
Proof.
  destruct (log_ex_ok 16384 ltac:(by left)) as (b & Hok).
  pose proof (blkalloc_in_correct false (l_ex 16384 b) false ∅ (ghost_ex 16384) Hok) as H.
  destruct (logappend_room false (set_arena (l_ex 16384 b) (set_free (larena_ex 16384) 65536 [mkRange 65536 65536]))
    131072 Blksz LogAlloc ∅ (ghost_ex 16384)) as (l' & g' & E & _).
  { apply log_st_arena; [apply Hok|done|done|]. intros x Hx Hf. apply (ls_inuse _ _ _ (lo_st _ _ _ Hok) x Hx).
    cbn [l_ex l_a larena_ex a_free set_free] in *.
    rewrite free_at_cons, free_at_nil in Hf |- *. cbn [ar_off ar_len] in *. lia. }
  { apply append_ok_blk; [constructor; done|constructor; by vm_compute|by left]. }
  { by vm_compute. }
  assert (Ea : blkalloc_in false (l_ex 16384 b) false ∅ =
    let! (l, d) := logappend false (set_arena (l_ex 16384 b) (set_free (larena_ex 16384) 65536 [mkRange 65536 65536]))
       131072 Blksz LogAlloc ∅ in Ok (Some 131072, l, d)) by reflexivity.
  rewrite E in Ea. rewrite Ea in H. destruct H as (g2 & H & _).
  by exists b, l', ∅, g2.
Defined.

Lemma blkdealloc_lk_correct_witness :
  exists b l' d' g', blkdealloc_lk false (l_ex 16384 b) 16384 ∅ = Ok (l', d') /\ log_ok l' d' g'.
Proof.
  destruct (log_ex_ok 16384 ltac:(by left)) as (b & Hok). exists b.
  assert (Hb : blk_of (l_a (l_ex 16384 b)) 16384) by (constructor; by vm_compute).
  assert (Hd : disjoint_range (a_free (l_a (l_ex 16384 b))) 16384 Blksz).
  { intros x Hx. cbn [l_ex l_a larena_ex a_free]. rewrite free_at_cons, free_at_nil.
    cbn [ar_off ar_len]. change Blksz with 16384 in Hx. lia. }
  assert (Hn : 16384 ∉ log_addrs (l_ex 16384 b) (ghost_ex 16384)).
  { intros [E|E]%elem_of_cons; [|by apply elem_of_nil in E].
    pose proof (ls_sealed _ _ _ (lo_st _ _ _ Hok)) as Hse. inversion Hse as [a0 Ha0|].
    rewrite <- E in *. done. }
  pose proof (blkdealloc_lk_correct false (l_ex 16384 b) 16384 ∅ (ghost_ex 16384) Hok Hb Hd Hn) as H.
  destruct (logappend_room false (l_ex 16384 b) 16384 Blksz LogFree ∅ (ghost_ex 16384)) as (l' & g' & E & _ & _ & Ea & _);
    [apply Hok|apply append_ok_blk; [constructor; done|done|by right]|by vm_compute|].
  unfold blkdealloc_lk in H |- *. rewrite E in H |- *. cbn [rbind] in H |- *. rewrite Ea in H |- *.
  destruct (freerange _ _ _) as [t|] eqn:Et; [|by vm_compute in Et].
  cbn [rbind postE] in H |- *. destruct H as (g2 & H & _). by eexists _, _, g2.
Defined.

Lemma loadlog_recovers_witness :
  exists b l1 d1 l2 d2 n r, logbarrier false (l_ex 16384 b) 1 ∅ = Ok (l1, d1) /\ flushlog l1 d1 = Ok (l2, d2) /\ loadlog n 1 l_fresh (l_hd l2) d2 = Ok r /\ a_free (l_a r) = [mkRange 65536 81920].
Proof.
  destruct (log_ex_ok 16384 ltac:(by left)) as (b & Hok).
  destruct (logappend_room false (l_ex 16384 b) (Z.shiftl 1 8) 0 LogSync ∅ (ghost_ex 16384)) as (l1 & g1 & E & _ & _ & Ea & _);
    [apply Hok|by apply append_ok_sync|by vm_compute|].
  assert (Hg : 0 <= 1 < 2 ^ 55) by done.
  pose proof (logbarrier_ok false (l_ex 16384 b) 1 ∅ (ghost_ex 16384) Hok Hg) as H.
  unfold logbarrier in H. rewrite E in H. destruct H as (g2 & extra & Hok1 & _).
  destruct (flushlog_ok l1 ∅ g2 Hok1) as (l2 & d2 & g3 & E2 & _).
  destruct (loadlog_recovers false (l_ex 16384 b) ∅ (ghost_ex 16384) 1 l1 ∅ l2 d2 l2 d2 l_fresh Hok Hg)
    as (n & Hn); [|exact E|exact E2|apply ls_refl|constructor; try done; split; done|done|].
  { repeat constructor. }
  destruct (Hn (S n)) as (r & Er & Ef & _); [lia|].
  exists b, l1, ∅, l2, d2, (S n), r. split; [exact E|]. split; [done|]. split; [done|].
  rewrite Ef, Ea. done.
Defined.
