(* ===== verification/Arenas.v ===== *)
(** * Choosing an arena (src/blk.c: [getarena], [pickarena], [blkalloc])

    The space of the device between the two superblocks is cut into arenas,
    one behind the other.  [getarena] finds the one an address is in,
    [pickarena] the one to try next for an allocation. *)
From S2P Require Import Prelude CInt Mem Data Hash Pack Blk Alloc Io Log.

(** ** Finding an arena *)

(** The loop; [b] is the address.  A probe outside the array is an error. *)
Fixpoint getarena_loop (fuel : nat) (ar : list Arena) (b lo hi : Z) : res Z :=
  match fuel with
  | O => Err Efuel
  | S fuel' =>
      let mid := Z.quot (hi + lo) 2 in
      let! a := znth ar mid in
      let alo := a_addr a in
      let ahi := alo + a_size a + 2 * Blksz in
      if b <? alo then getarena_loop fuel' ar b lo (mid - 1)
      else if ahi <? b then getarena_loop fuel' ar b (mid + 1) hi
      else Ok mid
  end.

(** The index of the arena; [sb0] and [sb1] are the superblocks' addresses. *)
Definition getarena (fuel : nat) (ar : list Arena) (sb0 sb1 b : Z) : res Z :=
  if b =? sb0 then Ok 0
  else if b =? sb1 then Ok (zlen ar - 1)
  else getarena_loop fuel ar b 0 (zlen ar).

(** The arenas lie next to each other. *)
Record contiguous (ar : list Arena) : Prop := {
  ct_next : forall i a a', ar !! i = Some a -> ar !! S i = Some a' ->
    a_addr a' = a_addr a + a_size a + 2 * Blksz;
  ct_size : Forall (fun a => 0 < a_size a) ar }.

Lemma contiguous_le ar i j a a' :
  contiguous ar -> (i < j)%nat -> ar !! i = Some a -> ar !! j = Some a' ->
  a_addr a + a_size a + 2 * Blksz <= a_addr a'.
Proof.
  intros [Hn Hs] Hij. revert a'. induction j as [|j IH]; intros a' Hi Hj; [lia|].
  destruct (decide (i = j)) as [->|Hne].
  - rewrite (Hn j a a') by done. lia.
  - destruct (lookup_lt_is_Some_2 ar j) as [c Hc].
    { apply lookup_lt_Some in Hj. lia. }
    pose proof (IH ltac:(lia) c Hi Hc). rewrite (Hn j c a' Hc Hj).
    rewrite Forall_lookup in Hs. pose proof (Hs _ _ Hc). assert (0 < Blksz) by done. lia.
Qed.

(** The address is in arena [i], its headers and its space. *)
Definition inside (a : Arena) (b : Z) : Prop := a_addr a <= b < a_addr a + a_size a + 2 * Blksz.

Lemma getarena_loop_spec ar b i a : contiguous ar -> ar !! i = Some a -> inside a b ->
  forall fuel lo hi, 0 <= lo <= Z.of_nat i -> Z.of_nat i <= hi <= zlen ar -> hi - lo < Z.of_nat fuel ->
  exists r, getarena_loop fuel ar b lo hi = Ok r /\
    (r = Z.of_nat i \/ (r = Z.of_nat i - 1 /\ b = a_addr a)).
Proof.
  intros Hc Ha Hin. assert (HB : 0 < Blksz) by done.
  assert (Hi : (i < length ar)%nat) by by eapply lookup_lt_Some.
  induction fuel as [|fuel IH]; intros lo hi Hlo Hhi Hf; [lia|]. cbn [getarena_loop].
  rewrite Z.quot_div_nonneg by lia. set (mid := (hi + lo) / 2).
  assert (Hm : lo <= mid <= hi /\ mid < zlen ar).
  { unfold mid, zlen in *. Z.to_euclidean_division_equations. lia. }
  destruct (znth_lt ar mid) as (c & -> & Hmid); [lia|]. cbn [rbind].
  destruct (Z.ltb_spec b (a_addr c)) as [H1|H1].
  - assert (Z.of_nat i < mid).
    { apply Z.nle_gt. intros Hle. destruct (decide (Z.to_nat mid = i)) as [E|E].
      - rewrite E, Ha in Hmid. injection Hmid as <-. destruct Hin. lia.
      - pose proof (contiguous_le ar (Z.to_nat mid) i c a Hc ltac:(lia) Hmid Ha) as Hl. destruct Hin.
        pose proof (ct_size _ Hc) as Hs. rewrite Forall_lookup in Hs. pose proof (Hs _ _ Hmid). lia. }
    apply IH; lia.
  - destruct (Z.ltb_spec (a_addr c + a_size c + 2 * Blksz) b) as [H2|H2].
    + assert (mid < Z.of_nat i).
      { apply Z.nle_gt. intros Hle. destruct (decide (Z.to_nat mid = i)) as [E|E].
        - rewrite E, Ha in Hmid. injection Hmid as <-. destruct Hin. lia.
        - pose proof (contiguous_le ar i (Z.to_nat mid) a c Hc ltac:(lia) Ha Hmid) as Hl. destruct Hin.
          pose proof (ct_size _ Hc) as Hs. rewrite Forall_lookup in Hs. pose proof (Hs _ _ Hmid). lia. }
      apply IH; lia.
    + exists mid. split; [done|].
      destruct (Z.lt_trichotomy mid (Z.of_nat i)) as [H|[H|H]]; [|by left|].
      * right. pose proof (contiguous_le ar (Z.to_nat mid) i c a Hc ltac:(lia) Hmid Ha) as Hl. destruct Hin.
        split; [|lia]. destruct (decide (mid = Z.of_nat i - 1)); [done|]. exfalso.
        destruct (lookup_lt_is_Some_2 ar (S (Z.to_nat mid))) as [e He]; [lia|].
        pose proof (ct_next _ Hc _ _ _ Hmid He) as En.
        pose proof (contiguous_le ar (S (Z.to_nat mid)) i e a Hc ltac:(lia) He Ha) as Hl2.
        pose proof (ct_size _ Hc) as Hs. rewrite Forall_lookup in Hs. pose proof (Hs _ _ He). lia.
      * exfalso. pose proof (contiguous_le ar i (Z.to_nat mid) a c Hc ltac:(lia) Ha Hmid). destruct Hin. lia.
Qed.

(** ** Picking an arena *)

(** [r] is [ainc(&fs->roundrobin)/2048] as a [uint]; the arithmetic is on
    [uint]. *)
Definition pickarena (narena ty hint tries r : Z) : res Z :=
  let! n :=
    if ty =? Tdat then
      if u32 (narena - 1) =? 0 then Err Eassert
      else Ok (u32 (u32 hint mod u32 (narena - 1) + r + 1))
    else Ok r in
  if u32 narena =? 0 then Err Eassert else Ok (u32 (n + tries) mod u32 narena).

(** The file system's arenas with their logs, and the counter. *)
Record Fsa := mkFsa { f_ar : list LArena; f_rr : Z; f_disk : Disk }.

(** The loop of [blkalloc].  [free i] says that the lock of arena [i] can be
    taken without waiting at that try; [fuel] is what is left of the
    [2*narena] tries.  The result is the arena and the block. *)
Fixpoint blkalloc_loop (fuel : nat) (usereserve : bool) (free : Z -> bool) (ty hint : Z) (seq : bool)
    (tries : Z) (f : Fsa) : res (Z * Z * Fsa) :=
  let rr := s32 (f_rr f + 1) in
  let! i := pickarena (zlen (f_ar f)) ty hint tries (u32 (Z.quot rr 2048)) in
  let f := mkFsa (f_ar f) rr (f_disk f) in
  if tries =? 2 * zlen (f_ar f) then Err Efull else
  match fuel with
  | O => Err Efuel
  | S fuel' =>
      let tries := tries + 1 in
      if (tries <? zlen (f_ar f)) && negb (free tries) then
        blkalloc_loop fuel' usereserve free ty hint seq tries f
      else
        let! a := znth (f_ar f) i in
        let! (b, a, d) := blkalloc_in usereserve a seq (f_disk f) in
        match b with
        | None => blkalloc_loop fuel' usereserve free ty hint seq tries f
        | Some b => Ok (i, b, mkFsa (<[Z.to_nat i := a]> (f_ar f)) rr d)
        end
  end.

Definition blkalloc (usereserve : bool) (free : Z -> bool) (ty hint : Z) (seq : bool) (f : Fsa)
  : res (Z * Z * Fsa) :=
  blkalloc_loop (Z.to_nat (2 * zlen (f_ar f))) usereserve free ty hint seq 0 f.

Lemma pickarena_ok narena ty hint tries r :
  2 <= narena < 2 ^ 31 -> exists i, pickarena narena ty hint tries r = Ok i /\ 0 <= i < narena.
Proof.
  intros Hn. unfold pickarena. rewrite (u32_small narena), (u32_small (narena - 1)) by lia.
  rewrite (proj2 (Z.eqb_neq (narena - 1) 0)), (proj2 (Z.eqb_neq narena 0)) by lia.
  destruct (ty =? Tdat); cbn [rbind]; (eexists; split; [done|]); apply Z.mod_pos_bound; lia.
Qed.

(** ** The invariant of all arenas *)

Record fsa_ok (f : Fsa) (gs : list Ghost) : Prop := {
  fo_n : 2 <= zlen (f_ar f) < 2 ^ 31;
  fo_contiguous : contiguous (l_a <$> f_ar f);
  fo_len : length gs = length (f_ar f);
  fo_log : forall i l g, f_ar f !! i = Some l -> gs !! i = Some g -> log_ok l (f_disk f) g }.

(** The logs of two arenas share no block. *)
Lemma arenas_disjoint ar i j l l' b :
  contiguous (l_a <$> ar) -> i <> j -> ar !! i = Some l -> ar !! j = Some l' ->
  blk_of (l_a l) b -> ~ blk_of (l_a l') b.
Proof.
  intros Hc Hij Hi Hj [H1 H2 _] [H3 H4 _]. assert (HB : 0 < Blksz) by done.
  destruct (Nat.lt_total i j) as [Hlt|[?|Hlt]]; [|done|].
  - pose proof (contiguous_le _ i j (l_a l) (l_a l') Hc Hlt) as H.
    rewrite !list_lookup_fmap, Hi, Hj in H. specialize (H eq_refl eq_refl). lia.
  - pose proof (contiguous_le _ j i (l_a l') (l_a l) Hc Hlt) as H.
    rewrite !list_lookup_fmap, Hi, Hj in H. specialize (H eq_refl eq_refl). lia.
Qed.

(** One arena changes. *)
Lemma fsa_ok_update f gs i l g l' d' g' rr :
  fsa_ok f gs -> f_ar f !! i = Some l -> gs !! i = Some g ->
  log_ok l' d' g' -> grows l (f_disk f) g l' d' g' ->
  fsa_ok (mkFsa (<[i := l']> (f_ar f)) rr d') (<[i := g']> gs).
Proof.
  intros [F1 F2 F3 F4] Hi Hg Hok [G1 G2 G3 G4 G5 G6].
  constructor; cbn [f_ar f_disk].
  - unfold zlen in *. by rewrite length_insert.
  - assert (E : forall j a, (l_a <$> <[i := l']> (f_ar f)) !! j = Some a ->
      exists a0, (l_a <$> f_ar f) !! j = Some a0 /\ a_addr a = a_addr a0 /\ a_size a = a_size a0).
    { intros j a. rewrite !list_lookup_fmap. destruct (decide (j = i)) as [->|Hne].
      - rewrite list_lookup_insert_eq by (by eapply lookup_lt_Some). intros [= <-].
        rewrite Hi. by exists (l_a l).
      - rewrite list_lookup_insert_ne by done. intros H. by exists a. }
    constructor.
    + intros j a a' Ha Ha'. destruct (E _ _ Ha) as (b & Hb & E1 & E2).
      destruct (E _ _ Ha') as (b' & Hb' & E3 & E4). rewrite E1, E2, E3. by eapply (ct_next _ F2 j).
    + apply Forall_lookup. intros j a Ha. destruct (E _ _ Ha) as (b & Hb & E1 & E2). rewrite E2.
      pose proof (ct_size _ F2) as Hs. rewrite Forall_lookup in Hs. by eapply Hs.
  - by rewrite !length_insert.
  - intros j m h. destruct (decide (j = i)) as [->|Hne].
    + rewrite !list_lookup_insert_eq by (rewrite ?F3; by eapply lookup_lt_Some). by intros [= <-] [= <-].
    + rewrite !list_lookup_insert_ne by done. intros Hm Hh. pose proof (F4 j m h Hm Hh) as Hokj.
      eapply log_ok_frame; [exact Hokj|]. intros x Hx. apply G6. intros Hx'.
      pose proof (ls_blk _ _ _ (lo_st _ _ _ Hokj) x Hx) as Hbj.
      pose proof (ls_blk _ _ _ (lo_st _ _ _ Hok) x Hx') as Hbi.
      apply (blk_of_same _ (l_a l)) in Hbi; [|congruence|congruence].
      by eapply (arenas_disjoint _ i j).
Qed.

Lemma fsa_ok_rr f gs rr : fsa_ok f gs -> fsa_ok (mkFsa (f_ar f) rr (f_disk f)) gs.
Proof. by intros []. Qed.

(** What [blkalloc] hands out: a block of arena [i] that was free there. *)
Record allocated (f : Fsa) (i b : Z) (f' : Fsa) (gs' : list Ghost) : Prop := {
  ad_ok : fsa_ok f' gs';
  ad_blk : exists l l', f_ar f !! Z.to_nat i = Some l /\ f_ar f' !! Z.to_nat i = Some l' /\
    blk_of (l_a l) b /\
    (forall x, b <= x < b + Blksz -> free_at (a_free (l_a l)) x /\ ~ free_at (a_free (l_a l')) x);
  ad_other : forall j, j <> Z.to_nat i -> f_ar f' !! j = f_ar f !! j;
  ad_log : forall j l g, f_ar f' !! j = Some l -> gs' !! j = Some g -> b ∉ log_addrs l g }.

Lemma blkalloc_loop_spec fuel usereserve free ty hint seq : forall tries f gs,
  fsa_ok f gs -> 0 <= tries -> tries + Z.of_nat fuel = 2 * zlen (f_ar f) ->
  postE full (blkalloc_loop fuel usereserve free ty hint seq tries f)
    (fun '(i, b, f') => exists gs', allocated f i b f' gs').
Proof.
  induction fuel as [|fuel IH]; intros tries f gs Hf Ht Hfu; cbn [blkalloc_loop];
    destruct (pickarena_ok (zlen (f_ar f)) ty hint tries (u32 (Z.quot (s32 (f_rr f + 1)) 2048)) (fo_n _ _ Hf))
      as (i & -> & Hi); cbn [rbind f_ar f_disk].
  { rewrite (proj2 (Z.eqb_eq _ _)) by lia. by left. }
  rewrite (proj2 (Z.eqb_neq _ _)) by lia.
  set (f1 := mkFsa (f_ar f) (s32 (f_rr f + 1)) (f_disk f)).
  assert (Hnext : postE full (blkalloc_loop fuel usereserve free ty hint seq (tries + 1) f1)
    (fun '(i, b, f') => exists gs', allocated f i b f' gs')).
  { eapply postE_mono; [apply (IH (tries + 1) f1 gs); [by apply fsa_ok_rr|lia|unfold f1; cbn [f_ar]; lia]|].
    intros [[j b] f'] (gs' & [A1 A2 A3 A4]). exists gs'. by constructor. }
  destruct ((tries + 1 <? zlen (f_ar f)) && negb (free (tries + 1))); [exact Hnext|].
  destruct (znth_lt (f_ar f) i Hi) as (l & -> & Hl). cbn [rbind].
  assert (Hg : exists g, gs !! Z.to_nat i = Some g).
  { apply lookup_lt_is_Some_2. rewrite (fo_len _ _ Hf). by eapply lookup_lt_Some. }
  destruct Hg as [g Hg].
  pose proof (blkalloc_in_ok usereserve l seq (f_disk f) g (fo_log _ _ Hf _ _ _ Hl Hg)) as H.
  destruct (blkalloc_in usereserve l seq (f_disk f)) as [[[[b|] l'] d']|e]; cbn [postE rbind] in *;
    [|exact Hnext|done].
  destruct H as (g' & Hok & Hgr & Hbo & Hx & Hnl). exists (<[Z.to_nat i := g']> gs).
  pose proof (fsa_ok_update f gs (Z.to_nat i) l g l' d' g' (s32 (f_rr f + 1)) Hf Hl Hg Hok Hgr) as Hf'.
  constructor; [done| | |].
  - exists l, l'. split; [done|]. split; [|done]. cbn [f_ar]. apply list_lookup_insert_eq.
    by eapply lookup_lt_Some.
  - intros j Hj. cbn [f_ar]. by rewrite list_lookup_insert_ne.
  - intros j m h Hm Hh. destruct (decide (j = Z.to_nat i)) as [->|Hne].
    + cbn [f_ar] in Hm. rewrite list_lookup_insert_eq in Hm by (by eapply lookup_lt_Some).
      rewrite list_lookup_insert_eq in Hh by (by eapply lookup_lt_Some). by simplify_eq.
    + intros Hin. pose proof (ls_blk _ _ _ (lo_st _ _ _ (fo_log _ _ Hf' _ _ _ Hm Hh)) b Hin) as Hbj.
      cbn [f_ar] in Hm. rewrite list_lookup_insert_ne in Hm by done.
      by apply (arenas_disjoint (f_ar f) (Z.to_nat i) j l m b (fo_contiguous _ _ Hf) (not_eq_sym Hne) Hl Hm Hbo).
Qed.

(** ** Theorems *)

(** [getarena] ends, never reads outside the array of arenas, and finds
    the arena an address is in; only for the first header of an arena it may
    answer the arena before. *)
Theorem getarena_correct ar sb0 sb1 b i a fuel :
  contiguous ar -> ar !! i = Some a -> inside a b -> b <> sb0 -> b <> sb1 -> zlen ar < Z.of_nat fuel ->
  exists r, getarena fuel ar sb0 sb1 b = Ok r /\
    (r = Z.of_nat i \/ (r = Z.of_nat i - 1 /\ b = a_addr a)).
Proof.
  intros Hc Ha Hin H0 H1 Hf. unfold getarena. rewrite (proj2 (Z.eqb_neq _ _) H0), (proj2 (Z.eqb_neq _ _) H1).
  pose proof (lookup_lt_Some _ _ _ Ha). apply (getarena_loop_spec ar b i a); unfold zlen in *; lia || done.
Qed.

(** The bounds test of [getarena] lets an arena reach one block too far:
    of three arenas, the header of the last one is taken for a block of the
    middle one. *)
Theorem getarena_header a0 a1 a2 sb0 sb1 :
  contiguous [a0; a1; a2] -> a_addr a2 <> sb0 -> a_addr a2 <> sb1 ->
  getarena 4 [a0; a1; a2] sb0 sb1 (a_addr a2) = Ok 1 /\ inside a2 (a_addr a2) /\
  ~ inside a1 (a_addr a2).
Proof.
  intros [Hn Hs] H0 H1. assert (HB : 0 < Blksz) by done.
  pose proof (Hn 1%nat a1 a2 eq_refl eq_refl) as E.
  rewrite Forall_lookup in Hs. pose proof (Hs 1%nat a1 eq_refl). pose proof (Hs 2%nat a2 eq_refl).
  split; [|unfold inside; lia].
  unfold getarena. rewrite (proj2 (Z.eqb_neq _ _) H0), (proj2 (Z.eqb_neq _ _) H1).
  cbn [getarena_loop]. change (znth [a0; a1; a2] (Z.quot (zlen [a0; a1; a2] + 0) 2)) with (Ok a1).
  cbn [rbind]. rewrite (proj2 (Z.ltb_ge _ _)), (proj2 (Z.ltb_ge _ _)) by lia. done.
Qed.

(** [narena] consecutive tries of [pickarena] reach every arena, as long
    as the [uint] sum does not wrap. *)
Theorem pickarena_covers narena ty hint r t0 i :
  2 <= narena < 2 ^ 31 -> 0 <= r -> 0 <= t0 -> 0 <= i < narena ->
  u32 hint mod (narena - 1) + r + 1 + t0 + narena < 2 ^ 32 ->
  exists t, t0 <= t < t0 + narena /\ pickarena narena ty hint t r = Ok i.
Proof.
  intros Hn Hr Ht Hi Hb. unfold pickarena. rewrite (u32_small narena), (u32_small (narena - 1)) by lia.
  rewrite (proj2 (Z.eqb_neq (narena - 1) 0)), (proj2 (Z.eqb_neq narena 0)) by lia.
  pose proof (Z.mod_pos_bound (u32 hint) (narena - 1) ltac:(lia)).
  assert (Hx : exists n, 0 <= n /\ n + t0 + narena < 2 ^ 32 /\
    (if ty =? Tdat then Ok (u32 (u32 hint mod (narena - 1) + r + 1)) else Ok r) = Ok n).
  { destruct (ty =? Tdat); [exists (u32 hint mod (narena - 1) + r + 1)|exists r].
    - rewrite (u32_small (u32 hint mod (narena - 1) + r + 1)) by lia. split; [lia|]. split; [lia|done].
    - split; [lia|]. split; [lia|done]. }
  destruct Hx as (n & Hn0 & Hn1 & E).
  exists (t0 + (i - (n + t0)) mod narena). pose proof (Z.mod_pos_bound (i - (n + t0)) narena ltac:(lia)).
  split; [lia|]. rewrite E. cbn [rbind]. rewrite u32_small by lia. f_equal.
  rewrite Z.add_assoc, Zplus_mod_idemp_r. replace (n + t0 + (i - (n + t0))) with i by lia.
  by apply Z.mod_small.
Qed.

(** C33: [blkalloc] ends.  It hands out a block that was free in the arena it
    is in and is free no longer, that no arena uses for its log, and it keeps
    the invariant of every arena and its log.  It fails only because of a
    full file system, whichever locks are taken. *)
Theorem blkalloc_correct usereserve free ty hint seq f gs :
  fsa_ok f gs ->
  postE full (blkalloc usereserve free ty hint seq f)
    (fun '(i, b, f') => exists gs', allocated f i b f' gs').
Proof.
  intros Hf. apply blkalloc_loop_spec with (gs := gs); [done|lia|].
  pose proof (zlen_nonneg (f_ar f)). lia.
Qed.

(** ** Witnesses *)

Definition arenas_ex : list Arena :=
  [larena_ex 16384; larena_ex 180224; mkArena 344064 131072 49152 0 []].

Lemma arenas_ex_contiguous : contiguous arenas_ex.
Proof.
  constructor; [|by repeat constructor].
  intros [|[|[|i]]] a a' Ha Ha'; cbn in Ha, Ha'; simplify_eq; done.
Qed.

Lemma getarena_correct_witness : getarena 4 arenas_ex 0 999999 200000 = Ok 1.
Proof.
  destruct (getarena_correct arenas_ex 0 999999 200000 1 (larena_ex 180224) 4 arenas_ex_contiguous eq_refl)
    as (r & E & H); [split; by vm_compute|done|done|done|].
  rewrite E. f_equal. vm_compute in E. congruence.
Defined.

Lemma getarena_header_witness : getarena 4 arenas_ex 0 999999 344064 = Ok 1.
Proof. apply (getarena_header _ _ _ 0 999999 arenas_ex_contiguous); done. Defined.

Lemma pickarena_covers_witness : exists t, 0 <= t < 8 /\ pickarena 8 Tdat 12345 t 3 = Ok 5.
Proof.
  destruct (pickarena_covers 8 Tdat 12345 3 0 5) as (t & Ht & E); [lia|lia|lia|lia|by vm_compute|].
  by exists t.
Defined.

Lemma blkalloc_correct_witness :
  exists f gs, fsa_ok f gs /\ postE full (blkalloc false (fun _ => true) Tleaf 0 false f)
    (fun '(i, b, f') => exists gs', allocated f i b f' gs').
Proof.
  destruct (log_ex_ok 16384 ltac:(by left)) as (b0 & H0).
  destruct (log_ex_ok 180224 ltac:(by right)) as (b1 & H1).
  exists (mkFsa [l_ex 16384 b0; l_ex 180224 b1] 0 ∅), [ghost_ex 16384; ghost_ex 180224].
  assert (Hf : fsa_ok (mkFsa [l_ex 16384 b0; l_ex 180224 b1] 0 ∅) [ghost_ex 16384; ghost_ex 180224]).
  { constructor; [done| |done|].
    - constructor; [|by repeat constructor].
      intros [|[|i]] a a' Ha Ha'; cbn in Ha, Ha'; simplify_eq; done.
    - intros [|[|i]] l g Hl Hg; cbn in Hl, Hg; simplify_eq; done. }
  split; [done|]. by apply (blkalloc_correct false (fun _ => true) Tleaf 0 false _ _ Hf).
Defined.
