(* ===== verification/Queue.v ===== *)
(** * The write queues (src/blk.c: [qcmp], [qput], [qpop]; src/fs.c:
    [wrbarrier], [wrwait])

    Every arena has a syncer that takes writes, frees and fences from a
    binary heap ordered by write generation, operation and address.  The heap
    is the list of its first [nheap] slots.  A call that would sleep (a full
    or an empty queue) returns [None] and is made again: the code stamps an
    entry with the generation before it sleeps, the model when the entry is
    stored, so an entry that waits for room while a barrier is passed has the
    older generation in the code and the newer one here. *)
From S2P Require Import Prelude CInt Mem Data Hash Pack Blk.

Definition Qnone : Z := 0.
Definition Qfence : Z := 1.
Definition Qwrite : Z := 2.
Definition Qfree : Z := 3.

Record Qent := mkQent { qe_qgen : Z; qe_bp : Bptr; qe_b : option Blk; qe_op : Z }.

Record Syncq := mkSyncq { q_heap : list Qent; q_heapsz : Z }.

Definition qcmp (a b : Qent) : Z :=
  if negb (qe_qgen a =? qe_qgen b) then (if qe_qgen a <? qe_qgen b then -1 else 1)
  else if negb (qe_op a =? qe_op b) then (if qe_op a <? qe_op b then -1 else 1)
  else if negb (bp_addr (qe_bp a) =? bp_addr (qe_bp b)) then
    (if bp_addr (qe_bp a) <? bp_addr (qe_bp b) then -1 else 1)
  else 0.

(** The loop of [qput]: the hole at [i] moves up; the result is its place. *)
Fixpoint sift_up (fuel : nat) (h : list Qent) (qe : Qent) (i : nat) : res (list Qent) :=
  match i with
  | O => Ok (<[O := qe]> h)
  | S i' =>
      match fuel with
      | O => Err Efuel
      | S fuel' =>
          let p := Nat.div2 i' in
          match h !! p with
          | None => Err Eoob
          | Some x => if qcmp qe x =? 1 then Ok (<[i := qe]> h)
                      else sift_up fuel' (<[i := x]> h) qe p
          end
      end
  end.

(** [qgen] is [fs->qgen] and [syncing] is [fs->syncing]. *)
Definition qput (qgen syncing : Z) (q : Syncq) (qe : Qent) : res (option Syncq) :=
  let! _ :=
    if (qe_op qe =? Qfree) || (qe_op qe =? Qwrite) then
      assert! Z.land (bp_addr (qe_bp qe)) (Blksz - 1) =? 0 in Ok tt
    else if qe_op qe =? Qfence then assert! 0 <? syncing in Ok tt
    else Err Eassert in
  let qe := mkQent qgen (qe_bp qe) (qe_b qe) (qe_op qe) in
  if zlen (q_heap q) =? q_heapsz q then Ok None
  else
    let! h := sift_up (length (q_heap q)) (q_heap q ++ [qe]) qe (length (q_heap q)) in
    Ok (Some (mkSyncq h (q_heapsz q))).

(** The smallest of slot [i], which holds [x], and its children. *)
Definition smallest (h : list Qent) (i : nat) (x : Qent) : nat * Qent :=
  let l := (2 * i + 1)%nat in
  let r := (2 * i + 2)%nat in
  let '(m, y) := match h !! l with
                 | Some z => if qcmp x z =? 1 then (l, z) else (i, x)
                 | None => (i, x)
                 end in
  match h !! r with
  | Some z => if qcmp y z =? 1 then (r, z) else (m, y)
  | None => (m, y)
  end.

(** The loop of [qpop]. *)
Fixpoint sift_down (fuel : nat) (h : list Qent) (i : nat) : res (list Qent) :=
  match fuel with
  | O => Err Efuel
  | S fuel' =>
      match h !! i with
      | None => Err Eoob
      | Some x =>
          let (m, y) := smallest h i x in
          if (m =? i)%nat then Ok h
          else sift_down fuel' (<[m := x]> (<[i := y]> h)) m
      end
  end.

(** The block of a popped entry is not queued any more. *)
Definition unqueue (e : Qent) : Qent :=
  mkQent (qe_qgen e) (qe_bp e)
    (option_map (fun b => mkBlk (b_type b) (b_nval b) (b_valsz b) (b_nbuf b) (b_bufsz b) (b_logsz b)
       (b_logh b) (b_logp b) (b_bp b) (setflag (b_flag b) 0 Bqueued) (b_buf b)) (qe_b e))
    (qe_op e).

Definition qpop (q : Syncq) : res (option (Qent * Syncq)) :=
  match q_heap q with
  | [] => Ok None
  | e :: t =>
      match last t with
      | None => Ok (Some (unqueue e, mkSyncq [] (q_heapsz q)))
      | Some z =>
          let! h := sift_down (length t) (<[O := z]> (take (length t) (q_heap q))) 0 in
          Ok (Some (unqueue e, mkSyncq h (q_heapsz q)))
      end
  end.

(** ** The order *)

Definition qle (a b : Qent) : Prop := qcmp a b <> 1.

Lemma qcmp_spec a b :
  (qcmp a b = 1 <->
    qe_qgen b < qe_qgen a \/ (qe_qgen a = qe_qgen b /\ (qe_op b < qe_op a \/
      (qe_op a = qe_op b /\ bp_addr (qe_bp b) < bp_addr (qe_bp a))))).
Proof.
  unfold qcmp. destruct (Z.eqb_spec (qe_qgen a) (qe_qgen b)); cbn [negb].
  2:{ destruct (Z.ltb_spec (qe_qgen a) (qe_qgen b)); split; lia. }
  destruct (Z.eqb_spec (qe_op a) (qe_op b)); cbn [negb].
  2:{ destruct (Z.ltb_spec (qe_op a) (qe_op b)); split; lia. }
  destruct (Z.eqb_spec (bp_addr (qe_bp a)) (bp_addr (qe_bp b))); cbn [negb]; [split; lia|].
  destruct (Z.ltb_spec (bp_addr (qe_bp a)) (bp_addr (qe_bp b))); split; lia.
Qed.

#[export] Instance qle_preorder : PreOrder qle.
Proof.
  split; [intros a|intros a b c]; unfold qle; rewrite ?qcmp_spec; lia.
Qed.

Lemma qle_total a b : qcmp a b = 1 -> qle b a.
Proof. unfold qle. rewrite !qcmp_spec. lia. Qed.

#[export] Instance qle_dec a b : Decision (qle a b).
Proof. unfold qle. apply _. Defined.

(** ** Heaps *)

Definition parent (j : nat) : nat := Nat.div2 (j - 1).

Definition heap (h : list Qent) : Prop :=
  forall j x y, (0 < j)%nat -> h !! parent j = Some x -> h !! j = Some y -> qle x y.

Lemma parent_lt j : (0 < j)%nat -> (parent j < j)%nat.
Proof.
  intros H. unfold parent. rewrite Nat.div2_div.
  pose proof (Nat.div_mod_eq (j - 1) 2). lia.
Qed.

Lemma parent_child i j : (0 < j)%nat -> parent j = i <-> j = (2 * i + 1)%nat \/ j = (2 * i + 2)%nat.
Proof.
  intros Hj. unfold parent. rewrite Nat.div2_div.
  pose proof (Nat.div_mod_eq (j - 1) 2). pose proof (Nat.mod_upper_bound (j - 1) 2). lia.
Qed.

(** Swapping two slots permutes the list. *)
Lemma swap_perm (l : list Qent) : forall i j x y,
  l !! i = Some x -> l !! j = Some y -> Permutation (<[i := y]> (<[j := x]> l)) l.
Proof.
  induction l as [|a l IH]; intros [|i] [|j] x y Hi Hj; cbn in *; try done.
  - by simplify_eq.
  - injection Hi as ->. rewrite <- (list_insert_id l j y Hj) at 2.
    clear IH. revert j Hj. induction l as [|b l IH]; intros [|j] Hj; cbn in *; try done.
    + injection Hj as ->. constructor.
    + rewrite perm_swap. rewrite (IH j Hj). apply perm_swap.
  - injection Hj as ->. clear IH. revert i Hi. induction l as [|b l IH]; intros [|i] Hi; cbn in *; try done.
    + injection Hi as ->. constructor.
    + rewrite perm_swap. rewrite (IH i Hi). apply perm_swap.
  - constructor. by apply IH.
Qed.

(** A heap but for the entry at [i], which may be too small for its place. *)
Record heap_up (a : list Qent) (i : nat) : Prop := {
  hu_other : forall j x y, (0 < j)%nat -> j <> i -> a !! parent j = Some x -> a !! j = Some y -> qle x y;
  hu_skip : (0 < i)%nat -> forall c x y, (0 < c)%nat -> parent c = i ->
    a !! parent i = Some x -> a !! c = Some y -> qle x y }.

Lemma heap_up_step a i x qe :
  (0 < i)%nat -> heap_up a i -> a !! i = Some qe -> a !! parent i = Some x -> qle qe x ->
  heap_up (<[parent i := qe]> (<[i := x]> a)) (parent i).
Proof.
  intros Hi [Ho Hs] Hq Hx Hle. pose proof (parent_lt i Hi) as Hp.
  assert (Hlen : (i < length a)%nat) by by eapply lookup_lt_Some.
  assert (Hget : forall j y, j <> parent i -> (<[parent i := qe]> (<[i := x]> a)) !! j = Some y ->
    (j = i /\ y = x) \/ (j <> i /\ a !! j = Some y)).
  { intros j y Hj. rewrite list_lookup_insert_ne by done.
    destruct (decide (j = i)) as [->|Hne]; [rewrite list_lookup_insert_eq by done|rewrite list_lookup_insert_ne by done].
    - intros [= <-]. by left.
    - by right. }
  assert (Hat : (<[parent i := qe]> (<[i := x]> a)) !! parent i = Some qe).
  { apply list_lookup_insert_eq. rewrite length_insert. lia. }
  split.
  - intros j u v Hj Hne Hu Hv. apply Hget in Hv; [|done].
    destruct (decide (parent j = parent i)) as [E|Hpp].
    + rewrite E, Hat in Hu. injection Hu as <-. destruct Hv as [[_ ->]|[Hji Hv]]; [done|].
      etrans; [exact Hle|]. eapply (Ho j); try done. by rewrite E.
    + apply Hget in Hu; [|done]. destruct Hv as [[-> ->]|[Hji Hv]]; [done|].
      destruct Hu as [[Epi ->]|[_ Hu]].
      * eapply (Hs Hi j); try done.
      * by eapply (Ho j).
  - intros Hpi c u v Hc Epc Hu Hv. pose proof (parent_lt _ Hpi) as Hpp. pose proof (parent_lt _ Hc).
    apply Hget in Hu; [|lia]. destruct Hu as [[? _]|[_ Hu]]; [lia|].
    assert (Hux : qle u x) by (eapply (Ho (parent i)); [done|lia|done|done]).
    apply Hget in Hv; [|lia]. destruct Hv as [[_ ->]|[Hci Hv]]; [done|].
    etrans; [exact Hux|]. eapply (Ho c); try done. by rewrite Epc.
Qed.

Lemma sift_up_spec fuel : forall h qe i,
  (i < length h)%nat -> (i <= fuel)%nat -> heap_up (<[i := qe]> h) i ->
  exists h', sift_up fuel h qe i = Ok h' /\ heap h' /\ Permutation h' (<[i := qe]> h).
Proof.
  induction fuel as [|fuel IH]; intros h qe i Hl Hf Hu.
  - destruct i; [|lia]. exists (<[O := qe]> h). split; [done|]. split; [|done].
    intros j x y Hj. apply (hu_other _ _ Hu); [done|lia].
  - destruct i as [|i'].
    { exists (<[O := qe]> h). split; [done|]. split; [|done].
      intros j x y Hj. apply (hu_other _ _ Hu); [done|lia]. }
    set (i := S i') in *. assert (Hi : (0 < i)%nat) by lia. pose proof (parent_lt i Hi) as Hp.
    assert (Ep : Nat.div2 i' = parent i) by (unfold parent, i; f_equal; lia).
    cbn [sift_up]. unfold i at 1. cbn [sift_up]. rewrite Ep.
    destruct (lookup_lt_is_Some_2 h (parent i)) as [x Hx]; [lia|]. rewrite Hx.
    assert (Hx' : (<[i := qe]> h) !! parent i = Some x) by (rewrite list_lookup_insert_ne by lia; done).
    assert (Hq' : (<[i := qe]> h) !! i = Some qe) by (by apply list_lookup_insert_eq).
    destruct (Z.eqb_spec (qcmp qe x) 1) as [Hc|Hc].
    + exists (<[i := qe]> h). split; [done|]. split; [|done].
      intros j u v Hj Hju Hjv. destruct (decide (j = i)) as [->|Hne].
      * rewrite Hx' in Hju. rewrite Hq' in Hjv. injection Hju as <-. injection Hjv as <-. by apply qle_total.
      * by eapply (hu_other _ _ Hu j).
    + pose proof (heap_up_step _ _ _ _ Hi Hu Hq' Hx' Hc) as Hu'. rewrite list_insert_insert_eq in Hu'.
      destruct (IH (<[i := x]> h) qe (parent i)) as (h' & E & Hh & HP); [rewrite length_insert; lia|lia|done|].
      exists h'. split; [done|]. split; [done|]. rewrite HP.
      pose proof (swap_perm (<[i := qe]> h) (parent i) i x qe Hx' Hq') as HS.
      by rewrite list_insert_insert_eq in HS.
Qed.

(** A heap but for the entry at [i], which may be too big for its place. *)
Record heap_down (a : list Qent) (i : nat) : Prop := {
  hd_other : forall j x y, (0 < j)%nat -> parent j <> i -> a !! parent j = Some x -> a !! j = Some y -> qle x y;
  hd_skip : (0 < i)%nat -> forall c x y, (0 < c)%nat -> parent c = i ->
    a !! parent i = Some x -> a !! c = Some y -> qle x y }.

Lemma heap_down_step a i m x y :
  heap_down a i -> a !! i = Some x -> (0 < m)%nat -> parent m = i -> a !! m = Some y -> qle y x ->
  (forall c z, (0 < c)%nat -> parent c = i -> a !! c = Some z -> qle y z) ->
  heap_down (<[m := x]> (<[i := y]> a)) m.
Proof.
  intros [Ho Hs] Hx Hm Epm Hy Hle Hmin. pose proof (parent_lt m Hm) as Hp. rewrite Epm in Hp.
  assert (Hlen : (m < length a)%nat) by by eapply lookup_lt_Some.
  assert (Hget : forall j z, j <> m -> (<[m := x]> (<[i := y]> a)) !! j = Some z ->
    (j = i /\ z = y) \/ (j <> i /\ a !! j = Some z)).
  { intros j z Hj. rewrite list_lookup_insert_ne by done.
    destruct (decide (j = i)) as [->|Hne];
      [rewrite list_lookup_insert_eq by lia|rewrite list_lookup_insert_ne by done].
    - intros [= <-]. by left.
    - by right. }
  assert (Hat : (<[m := x]> (<[i := y]> a)) !! m = Some x).
  { apply list_lookup_insert_eq. by rewrite length_insert. }
  split.
  - intros j u v Hj Hne Hu Hv. apply Hget in Hu; [|done].
    destruct (decide (j = m)) as [->|Hjm].
    + rewrite Hat in Hv. injection Hv as <-. destruct Hu as [[_ ->]|[? _]]; [done|]. by rewrite Epm in *.
    + apply Hget in Hv; [|done]. destruct Hu as [[Epj ->]|[Hpj Hu]].
      * destruct Hv as [[-> ->]|[_ Hv]]; [reflexivity|]. by eapply Hmin.
      * destruct Hv as [[-> ->]|[Hji Hv]].
        -- by eapply (Hs Hj m).
        -- by eapply (Ho j).
  - intros _ c u v Hc Epc Hu Hv. pose proof (parent_lt _ Hc). rewrite Epm in Hu.
    apply Hget in Hu; [|lia]. destruct Hu as [[_ ->]|[? _]]; [|done].
    apply Hget in Hv; [|lia]. destruct Hv as [[? _]|[_ Hv]]; [lia|].
    eapply (Ho c); [done|lia| |done]. by rewrite Epc.
Qed.

(** The smallest of [i] and its children. *)
Lemma sift_choice (h : list Qent) (i : nat) (x : Qent) :
  h !! i = Some x ->
  exists m y,
    smallest h i x = (m, y) /\
    h !! m = Some y /\ qle y x /\ (m = i \/ ((0 < m)%nat /\ parent m = i)) /\
    (forall c z, (0 < c)%nat -> parent c = i -> h !! c = Some z -> qle y z).
Proof.
  intros Hx. unfold smallest. cbv zeta.
  assert (H1 : exists m y, match h !! (2 * i + 1)%nat with
      | Some z => if qcmp x z =? 1 then ((2 * i + 1)%nat, z) else (i, x)
      | None => (i, x) end = (m, y) /\ h !! m = Some y /\ qle y x /\
      (m = i \/ m = (2 * i + 1)%nat) /\ (forall z, h !! (2 * i + 1)%nat = Some z -> qle y z)).
  { destruct (h !! (2 * i + 1)%nat) as [z|] eqn:Ez.
    - destruct (Z.eqb_spec (qcmp x z) 1) as [E|E].
      + exists (2 * i + 1)%nat, z. split; [done|]. split; [done|]. split; [by apply qle_total|].
        split; [by right|]. by intros w [= <-].
      + exists i, x. split; [done|]. split; [done|]. split; [reflexivity|]. split; [by left|].
        by intros w [= <-].
    - exists i, x. split; [done|]. split; [done|]. split; [reflexivity|]. split; [by left|]. done. }
  destruct H1 as (m & y & -> & Hm & Hle & Hmi & Hl).
  assert (Hpar : forall c, (0 < c)%nat -> parent c = i -> c = (2 * i + 1)%nat \/ c = (2 * i + 2)%nat).
  { intros c Hc. by apply parent_child. }
  assert (Hp1 : parent (2 * i + 1)%nat = i) by (apply parent_child; lia).
  assert (Hp2 : parent (2 * i + 2)%nat = i) by (apply parent_child; lia).
  destruct (h !! (2 * i + 2)%nat) as [z|] eqn:Ez.
  - destruct (Z.eqb_spec (qcmp y z) 1) as [E|E].
    + exists (2 * i + 2)%nat, z. apply qle_total in E. split; [done|]. split; [done|].
      split; [by etrans|]. split; [right; split; [lia|done]|].
      intros c w Hc Epc Hw. destruct (Hpar c Hc Epc) as [-> | ->].
      * etrans; [exact E|by apply Hl].
      * rewrite Ez in Hw. injection Hw as <-. reflexivity.
    + exists m, y. split; [done|]. split; [done|]. split; [done|]. split.
      * destruct Hmi as [->|Hmi]; [by left|right]. rewrite Hmi. split; [lia|done].
      * intros c w Hc Epc Hw. destruct (Hpar c Hc Epc) as [-> | ->]; [by apply Hl|].
        rewrite Ez in Hw. injection Hw as <-. exact E.
  - exists m, y. split; [done|]. split; [done|]. split; [done|]. split.
    + destruct Hmi as [->|Hmi]; [by left|right]. rewrite Hmi. split; [lia|done].
    + intros c w Hc Epc Hw. destruct (Hpar c Hc Epc) as [-> | ->]; [by apply Hl|]. by rewrite Ez in Hw.
Qed.

Lemma sift_down_spec fuel : forall h i,
  (i < length h)%nat -> (length h - i <= fuel)%nat -> heap_down h i ->
  exists h', sift_down fuel h i = Ok h' /\ heap h' /\ Permutation h' h.
Proof.
  induction fuel as [|fuel IH]; intros h i Hl Hf Hd; [lia|]. cbn [sift_down].
  destruct (lookup_lt_is_Some_2 h i Hl) as [x Hx]. rewrite Hx.
  destruct (sift_choice h i x Hx) as (m & y & -> & Hm & Hle & Hmi & Hmin).
  destruct (Nat.eqb_spec m i) as [->|Hne].
  - exists h. split; [done|]. split; [|done]. intros j u v Hj Hu Hv.
    destruct (decide (parent j = i)) as [Ep|Ep]; [|by eapply (hd_other _ _ Hd j)].
    rewrite Ep, Hm in Hu. injection Hu as <-. by eapply Hmin.
  - destruct Hmi as [?|[Hm0 Epm]]; [done|].
    pose proof (heap_down_step _ _ _ _ _ Hd Hx Hm0 Epm Hm Hle Hmin) as Hd'.
    assert (Hlen : (m < length h)%nat) by by eapply lookup_lt_Some.
    pose proof (parent_lt m Hm0).
    destruct (IH (<[m := x]> (<[i := y]> h)) m) as (h' & E' & Hh & HP); [|rewrite !length_insert; lia|done|].
    { by rewrite !length_insert. }
    exists h'. split; [done|]. split; [done|]. rewrite HP. by apply swap_perm.
Qed.

(** ** Operations on heaps *)

Lemma heap_snoc h qe : heap h -> heap_up (<[length h := qe]> (h ++ [qe])) (length h).
Proof.
  intros Hh. assert (E : <[length h := qe]> (h ++ [qe]) = h ++ [qe]).
  { apply list_insert_id. by rewrite lookup_app_r, Nat.sub_diag by lia. }
  rewrite E. split.
  - intros j x y Hj Hne Hx Hy.
    assert (Hjl : (j < length h)%nat).
    { apply lookup_lt_Some in Hy. rewrite length_app in Hy. simpl in Hy. lia. }
    pose proof (parent_lt j Hj). rewrite lookup_app_l in Hx, Hy by lia. by eapply (Hh j).
  - intros _ c x y Hc Ep _ Hy. exfalso. pose proof (parent_lt c Hc).
    apply lookup_lt_Some in Hy. rewrite length_app in Hy. simpl in Hy. lia.
Qed.

(** What an entry needs to be queued. *)
Definition qe_ok (syncing : Z) (qe : Qent) : Prop :=
  ((qe_op qe = Qfree \/ qe_op qe = Qwrite) /\ bp_addr (qe_bp qe) mod Blksz = 0) \/
  (qe_op qe = Qfence /\ 0 < syncing).

Definition stamped (qgen : Z) (qe : Qent) : Qent := mkQent qgen (qe_bp qe) (qe_b qe) (qe_op qe).

Lemma qput_spec qgen syncing q qe :
  heap (q_heap q) -> qe_ok syncing qe ->
  if zlen (q_heap q) =? q_heapsz q then qput qgen syncing q qe = Ok None
  else exists h, qput qgen syncing q qe = Ok (Some (mkSyncq h (q_heapsz q))) /\ heap h /\
    Permutation h (stamped qgen qe :: q_heap q).
Proof.
  intros Hh Hq. unfold qput.
  assert (E : (if (qe_op qe =? Qfree) || (qe_op qe =? Qwrite) then
      assert! Z.land (bp_addr (qe_bp qe)) (Blksz - 1) =? 0 in Ok tt
    else if qe_op qe =? Qfence then assert! 0 <? syncing in Ok tt
    else Err Eassert) = Ok tt).
  { destruct Hq as [[Hop Ha]|[-> Hs]].
    - replace ((qe_op qe =? Qfree) || (qe_op qe =? Qwrite)) with true by (by destruct Hop as [-> | ->]).
      change (Blksz - 1) with (Z.ones 14). rewrite Z.land_ones by lia. change (2 ^ 14) with Blksz. by rewrite Ha.
    - cbn. by rewrite (proj2 (Z.ltb_lt _ _) Hs). }
  rewrite E. cbn [rbind]. destruct (zlen (q_heap q) =? q_heapsz q); [done|].
  destruct (sift_up_spec (length (q_heap q)) (q_heap q ++ [stamped qgen qe]) (stamped qgen qe) (length (q_heap q)))
    as (h & E' & Hh' & HP); [rewrite length_app; simpl; lia|lia|by apply heap_snoc|].
  exists h. unfold stamped in E'. rewrite E'. split; [done|]. split; [done|]. rewrite HP.
  rewrite list_insert_id by (by rewrite lookup_app_r, Nat.sub_diag by lia).
  by rewrite Permutation_app_comm.
Qed.

Lemma heap_min h e : heap h -> h !! 0%nat = Some e -> forall j x, h !! j = Some x -> qle e x.
Proof.
  intros Hh He j. induction (lt_wf j) as [j _ IH]. intros x Hx. destruct j as [|j].
  - rewrite He in Hx. injection Hx as <-. reflexivity.
  - pose proof (parent_lt (S j) ltac:(lia)) as Hp.
    destruct (lookup_lt_is_Some_2 h (parent (S j))) as [y Hy].
    { apply lookup_lt_Some in Hx. lia. }
    etrans; [by eapply (IH (parent (S j)))|]. by eapply (Hh (S j)); [lia|..].
Qed.

Lemma heap_root e t z :
  heap (e :: t) -> heap_down (<[0%nat := z]> (take (length t) (e :: t))) 0.
Proof.
  intros Hh. split; [|lia]. intros j x y Hj Hp Hx Hy.
  rewrite list_lookup_insert_ne in Hx, Hy by lia.
  apply lookup_take_Some in Hx as [Hx _]. apply lookup_take_Some in Hy as [Hy _]. by eapply (Hh j).
Qed.

Lemma qpop_spec q :
  heap (q_heap q) ->
  match q_heap q with
  | [] => qpop q = Ok None
  | e :: t => exists h, qpop q = Ok (Some (unqueue e, mkSyncq h (q_heapsz q))) /\ heap h /\
      Permutation h t /\ Forall (qle e) t
  end.
Proof.
  intros Hh. unfold qpop. destruct (q_heap q) as [|e t] eqn:Eq; [done|].
  assert (Hmin : Forall (qle e) t).
  { apply Forall_lookup. intros i x Hx. by apply (heap_min _ _ Hh eq_refl (S i)). }
  destruct (last t) as [z|] eqn:Ez.
  2:{ apply last_None in Ez as ->. exists []. split; [done|]. split; [|done]. by intros [|j] x y _ _. }
  apply last_Some in Ez as [t' ->]. set (t := t' ++ [z]) in *.
  assert (Hlen : length t = S (length t')) by (unfold t; rewrite length_app; simpl; lia).
  assert (Et : <[0%nat := z]> (take (length t) (e :: t)) = z :: t').
  { rewrite Hlen. cbn. f_equal. unfold t. by rewrite take_app_length. }
  pose proof (heap_root e t z Hh) as Hd. rewrite Et in Hd |- *.
  destruct (sift_down_spec (length t) (z :: t') 0) as (h & E & Hh' & HP); [simpl; lia|simpl; lia|done|].
  rewrite E. cbn [rbind]. exists h. split; [done|]. split; [done|]. split; [|done].
  rewrite HP. unfold t. apply Permutation_cons_append.
Qed.

(** Take [n] entries. *)
Fixpoint drain (n : nat) (q : Syncq) : res (list Qent) :=
  match n with
  | O => Ok []
  | S n' =>
      let! r := qpop q in
      match r with
      | None => Ok []
      | Some (e, q) => let! es := drain n' q in Ok (e :: es)
      end
  end.

Lemma unqueue_le a b : qle (unqueue a) (unqueue b) <-> qle a b.
Proof. unfold qle. by rewrite !qcmp_spec. Qed.

Lemma drain_spec n : forall q, heap (q_heap q) -> length (q_heap q) = n ->
  exists l, drain n q = Ok l /\ Permutation l (unqueue <$> q_heap q) /\ StronglySorted qle l.
Proof.
  induction n as [|n IH]; intros q Hh Hl; cbn [drain].
  - exists []. split; [done|]. destruct (q_heap q); [|done]. split; [done|constructor].
  - pose proof (qpop_spec q Hh) as Hp. destruct (q_heap q) as [|e t] eqn:Eq; [done|].
    destruct Hp as (h & E & Hh' & HP & Hmin). rewrite E. cbn [rbind].
    destruct (IH (mkSyncq h (q_heapsz q)) Hh') as (l & El & HPl & HS).
    { cbn [q_heap]. rewrite (Permutation_length HP). simpl in Hl. lia. }
    rewrite El. cbn [rbind]. exists (unqueue e :: l). cbn [q_heap] in HPl. rewrite HP in HPl.
    split; [done|]. split; [cbn; by constructor|].
    constructor; [done|]. rewrite HPl. apply Forall_fmap. eapply Forall_impl; [exact Hmin|].
    intros x Hx. by apply unqueue_le.
Qed.

(** ** Theorems *)

(** [qput] refines insertion into a bag: unless the queue is full, when
    it waits, the heap order is kept and the entry, stamped with the current
    generation, is added. *)
Theorem qput_correct qgen syncing q qe :
  heap (q_heap q) -> qe_ok syncing qe ->
  if zlen (q_heap q) =? q_heapsz q then qput qgen syncing q qe = Ok None
  else exists h, qput qgen syncing q qe = Ok (Some (mkSyncq h (q_heapsz q))) /\ heap h /\
    Permutation h (mkQent qgen (qe_bp qe) (qe_b qe) (qe_op qe) :: q_heap q).
Proof. apply qput_spec. Qed.

(** [qpop] takes a smallest entry and keeps the heap.  So an entry of an
    older generation leaves the queue before any of a newer one; within one
    generation a fence leaves before the writes, and the writes before the
    frees, which is what keeps a block from being reused before it is
    written. *)
Theorem qpop_correct q e t :
  heap (q_heap q) -> q_heap q = e :: t ->
  exists h, qpop q = Ok (Some (unqueue e, mkSyncq h (q_heapsz q))) /\ heap h /\ Permutation h t /\
    Forall (fun x => qe_qgen e <= qe_qgen x /\
      (qe_qgen x = qe_qgen e -> qe_op e <= qe_op x /\
        (qe_op x = qe_op e -> bp_addr (qe_bp e) <= bp_addr (qe_bp x)))) h.
Proof.
  intros Hh E. pose proof (qpop_spec q Hh) as H. rewrite E in H.
  destruct H as (h & Ep & Hh' & HP & Hmin). exists h. split; [done|]. split; [done|]. split; [done|].
  rewrite HP. eapply Forall_impl; [exact Hmin|]. intros x Hx. unfold qle in Hx. rewrite qcmp_spec in Hx. lia.
Qed.

(** A syncer that drains its queue handles every entry once, in the order
    of [qcmp]. *)
Theorem drain_sorted q :
  heap (q_heap q) ->
  exists l, drain (length (q_heap q)) q = Ok l /\ Permutation l (unqueue <$> q_heap q) /\
    StronglySorted qle l.
Proof. intros Hh. by apply drain_spec. Qed.

(** ** Witnesses *)

Definition qent_ex (gen op addr : Z) : Qent := mkQent gen (mkBptr addr nohash (-1)) None op.
Definition queue_ex : Syncq := mkSyncq [qent_ex 1 Qwrite 0; qent_ex 2 Qfence 0; qent_ex 1 Qfree 16384] 8.

Lemma queue_ex_heap : heap (q_heap queue_ex).
Proof.
  intros [|[|[|j]]] x y Hj Hx Hy; try done; cbn in Hx, Hy; simplify_eq; by vm_compute.
Qed.

Lemma qput_correct_witness :
  exists h, qput 1 0 queue_ex (qent_ex 0 Qwrite 32768) = Ok (Some (mkSyncq h 8)) /\ heap h.
Proof.
  destruct (qput_correct 1 0 queue_ex (qent_ex 0 Qwrite 32768) queue_ex_heap) as (h & E & Hh & _).
  { left. split; [by right|done]. }
  by exists h.
Defined.

Lemma qpop_correct_witness :
  exists h, qpop queue_ex = Ok (Some (qent_ex 1 Qwrite 0, mkSyncq h 8)) /\ heap h.
Proof.
  destruct (qpop_correct queue_ex _ _ queue_ex_heap eq_refl) as (h & E & Hh & _). by exists h.
Defined.

Lemma drain_sorted_witness :
  exists l, drain 3 queue_ex = Ok l /\ l = [qent_ex 1 Qwrite 0; qent_ex 1 Qfree 16384; qent_ex 2 Qfence 0].
Proof.
  destruct (drain_sorted queue_ex queue_ex_heap) as (l & E & _). exists l. split; [exact E|].
  vm_compute in E. by injection E as <-.
Defined.
