(* ===== verification/Epoch.v ===== *)
(** * Deferred frees (src/blk.c: [limbo], [epochstart], [epochend],
    [epochwait], [epochclean])

    A block that is freed may still be read by a worker that found it before.
    It goes to a limbo list of the current epoch; [epochclean] moves the epoch
    on when every active worker has seen it, and frees the oldest list.  The
    threads run concurrently: an action is one atomic access of the C code,
    and the accesses happen in one order (sequential consistency).  Nothing
    bounds the time between two accesses of a thread: a worker may store an
    epoch in [epochstart] that it loaded many epochs ago.  The first loop of
    [epochclean], which does nothing but return or wait, is [CQuit] or no step.

    [li_pend] is not in the code: the workers that were active when [limbo]
    was called for the entry and have not left their epoch since, the ones
    that may still use it.  A worker that enters later does not find the entry
    any more. *)
From S2P Require Import Prelude CInt Mem Data.

Definition Eactive : Z := Z.shiftl 1 30.

Record Entry := mkEntry { li_op : Z; li_id : Z; li_pend : list nat }.

(** Where a worker is: outside; in [epochstart] after the load of the epoch;
    inside; in [limbo] after the load of the epoch. *)
Inductive wpc := WOut | WRead (ge : Z) | WIn | WPush (ge : Z) (x : Entry).

Record Worker := mkWorker { w_lepoch : Z; w_pc : wpc }.

(** Where a thread in [epochclean] is, with its [ge]: at [Again] of
    [epochwait]; before worker [i], with the epoch [epochwait] loaded; behind
    the second [epochwait]; behind the exchange of the list. *)
Inductive cpc := CIdle | CAgain (ge : Z) | CScan (ge ge' : Z) (i : nat) | CReady (ge : Z) | CSet (ge : Z).

Record Ep := mkEp {
  e_epoch : Z; e_limbo : list (list Entry); e_w : list Worker; e_c : list cpc; e_freed : list Entry }.

Definition busy (lepoch ge : Z) : bool :=
  negb (Z.land lepoch Eactive =? 0) && negb (lepoch =? Z.lor ge Eactive).

Definition active (w : Worker) : bool := negb (Z.land (w_lepoch w) Eactive =? 0).

Inductive act :=
  | AStart (w : nat)              (** [epochstart]: load the epoch *)
  | AEnter (w : nat)              (** [epochstart]: store [lepoch] *)
  | AEnd (w : nat)                (** [epochend] *)
  | ALimbo (w : nat) (op id : Z)  (** [limbo]: load the epoch *)
  | ARetry (w : nat)              (** [limbo]: the exchange fails, load again *)
  | APush (w : nat)               (** [limbo]: the exchange succeeds *)
  | CBegin (c : nat)              (** [epochclean]: load the epoch *)
  | CQuit (c : nat)               (** [epochclean]: return early *)
  | CLoad (c : nat)               (** [epochwait]: load the epoch *)
  | CCheck (c : nat)              (** [epochwait]: look at a worker *)
  | CTake (c : nat)               (** [epochclean]: exchange the list *)
  | CStore (c : nat).             (** [epochclean]: store the epoch *)

Definition is_active (ws : list Worker) (i : nat) : bool :=
  match ws !! i with Some w => active w | None => false end.

Definition actives (ws : list Worker) : list nat :=
  filter (fun i => is_active ws i = true) (seq 0 (length ws)).

Definition left_by (i : nat) (e : Entry) : Entry :=
  mkEntry (li_op e) (li_id e) (filter (fun j => j <> i) (li_pend e)).

(** Worker [i] does not use the entry any more that another one is adding. *)
Definition left_w (i : nat) (w : Worker) : Worker :=
  mkWorker (w_lepoch w) (match w_pc w with WPush ge x => WPush ge (left_by i x) | p => p end).

Definition bucket (s : Ep) (i : Z) : list Entry := default [] (e_limbo s !! Z.to_nat i).

Definition upd_w (s : Ep) (i : nat) (w : Worker) : Ep :=
  mkEp (e_epoch s) (e_limbo s) (<[i := w]> (e_w s)) (e_c s) (e_freed s).
Definition upd_c (s : Ep) (i : nat) (c : cpc) : Ep :=
  mkEp (e_epoch s) (e_limbo s) (e_w s) (<[i := c]> (e_c s)) (e_freed s).

(** One access; [None] when the thread is not there. *)
Definition estep (a : act) (s : Ep) : option Ep :=
  match a with
  | AStart i =>
      match e_w s !! i with
      | Some (mkWorker le WOut) => Some (upd_w s i (mkWorker le (WRead (e_epoch s))))
      | _ => None
      end
  | AEnter i =>
      match e_w s !! i with
      | Some (mkWorker le (WRead ge)) => Some (upd_w s i (mkWorker (Z.lor ge Eactive) WIn))
      | _ => None
      end
  | AEnd i =>
      match e_w s !! i with
      | Some (mkWorker le WIn) =>
          Some (mkEp (e_epoch s) ((fun l : list Entry => left_by i <$> l) <$> e_limbo s)
                  (<[i := mkWorker (Z.land le (Z.lnot Eactive)) WOut]> (left_w i <$> e_w s)) (e_c s) (e_freed s))
      | _ => None
      end
  | ALimbo i op id =>
      match e_w s !! i with
      | Some (mkWorker le WIn) => Some (upd_w s i (mkWorker le (WPush (e_epoch s) (mkEntry op id (actives (e_w s))))))
      | _ => None
      end
  | ARetry i =>
      match e_w s !! i with
      | Some (mkWorker le (WPush _ x)) => Some (upd_w s i (mkWorker le (WPush (e_epoch s) x)))
      | _ => None
      end
  | APush i =>
      match e_w s !! i with
      | Some (mkWorker le (WPush ge x)) =>
          let l := x :: bucket s ge in
          Some (mkEp (e_epoch s) (<[Z.to_nat ge := l]> (e_limbo s))
                  (<[i := mkWorker le WIn]> (e_w s)) (e_c s) (e_freed s))
      | _ => None
      end
  | CBegin c =>
      match e_c s !! c with
      | Some CIdle => Some (upd_c s c (CAgain (e_epoch s)))
      | _ => None
      end
  | CQuit c =>
      match e_c s !! c with
      | Some (CAgain _) => Some (upd_c s c CIdle)
      | _ => None
      end
  | CLoad c =>
      match e_c s !! c with
      | Some (CAgain ge) => Some (upd_c s c (CScan ge (e_epoch s) 0))
      | _ => None
      end
  | CCheck c =>
      match e_c s !! c with
      | Some (CScan ge ge' i) =>
          match e_w s !! i with
          | Some w => Some (upd_c s c (if busy (w_lepoch w) ge' then CAgain ge else CScan ge ge' (S i)))
          | None => Some (upd_c s c (CReady ge))
          end
      | _ => None
      end
  | CTake c =>
      match e_c s !! c with
      | Some (CReady ge) =>
          let b := (ge + 1) mod 3 in
          Some (mkEp (e_epoch s) (<[Z.to_nat b := []]> (e_limbo s)) (e_w s)
                  (<[c := CSet ge]> (e_c s)) (e_freed s ++ bucket s b))
      | _ => None
      end
  | CStore c =>
      match e_c s !! c with
      | Some (CSet ge) =>
          Some (mkEp ((ge + 1) mod 3) (e_limbo s) (e_w s) (<[c := CIdle]> (e_c s)) (e_freed s))
      | _ => None
      end
  end.

Fixpoint erun (l : list act) (s : Ep) : option Ep :=
  match l with
  | [] => Some s
  | a :: l' => match estep a s with Some s => erun l' s | None => None end
  end.

(** [n] workers and [m] threads that clean. *)
Definition einit (n m : nat) : Ep :=
  mkEp 0 [[]; []; []] (replicate n (mkWorker 0 WOut)) (replicate m CIdle) [].

(** ** The invariant for one cleaning thread *)

(** The worker's epoch word stands for the active epoch [e]. *)
Definition at_epoch (w : Worker) (e : Z) : Prop := w_lepoch w = Z.lor e Eactive /\ 0 <= e < 3.

Definition wok (w : Worker) : Prop :=
  match w_pc w with
  | WOut => active w = false
  | WRead ge => active w = false /\ 0 <= ge < 3
  | WIn => exists e, at_epoch w e
  | WPush ge _ => (exists e, at_epoch w e) /\ 0 <= ge < 3
  end.

Definition passed (c : cpc) (i : nat) : Prop :=
  match c with CScan _ _ k => (i < k)%nat | CReady _ | CSet _ => True | _ => False end.

Definition cok (g : Z) (old : list Entry) (c : cpc) : Prop :=
  match c with
  | CIdle => True
  | CAgain ge => ge = g
  | CScan ge ge' _ => ge = g /\ ge' = g
  | CReady ge => ge = g
  | CSet ge => ge = g /\ old = []
  end.

(** The epoch after [g]; its list is the oldest one. *)
Definition next (g : Z) : Z := (g + 1) mod 3.

(** Worker [j] has been active since the epoch was [b]: [b] is the current
    epoch; or the one before, and when the thread is past [j] then [j] has the
    current epoch; or the one before that, and [j] has the epoch in between
    and keeps the thread from passing. *)
Definition user (g : Z) (c : cpc) (ws : list Worker) (b : Z) (j : nat) : Prop :=
  exists w e, ws !! j = Some w /\ at_epoch w e /\
    (next b = g -> passed c j -> e = g) /\ (b = next g -> e = next (next g) /\ ~ passed c j).

Record einv (s : Ep) (c : cpc) : Prop := {
  ei_epoch : 0 <= e_epoch s < 3;
  ei_limbo : length (e_limbo s) = 3%nat;
  ei_c : e_c s = [c];
  ei_w i w : e_w s !! i = Some w -> wok w;
  ei_cok : cok (e_epoch s) (bucket s (next (e_epoch s))) c;
  ei_pend b x j : 0 <= b < 3 -> x ∈ bucket s b -> j ∈ li_pend x -> user (e_epoch s) c (e_w s) b j;
  ei_push i w ge x : e_w s !! i = Some w -> w_pc w = WPush ge x ->
    user (e_epoch s) c (e_w s) ge i /\ forall j, j ∈ li_pend x -> user (e_epoch s) c (e_w s) ge j;
  ei_freed : Forall (fun x => li_pend x = []) (e_freed s) }.

Lemma at_epoch_active w e : at_epoch w e -> active w = true.
Proof.
  intros [E He]. unfold active. rewrite E.
  assert (H : e = 0 \/ e = 1 \/ e = 2) by lia. by destruct H as [->|[-> | ->]].
Qed.

Lemma at_epoch_busy w e g : at_epoch w e -> 0 <= g < 3 -> busy (w_lepoch w) g = negb (e =? g).
Proof.
  intros [E He] Hg. rewrite E.
  assert (H : e = 0 \/ e = 1 \/ e = 2) by lia. assert (H' : g = 0 \/ g = 1 \/ g = 2) by lia.
  by destruct H as [->|[-> | ->]], H' as [->|[-> | ->]].
Qed.

Lemma at_epoch_fun w e e' : at_epoch w e -> at_epoch w e' -> e = e'.
Proof.
  intros [E He] [E' He']. rewrite E in E'.
  assert (H : e = 0 \/ e = 1 \/ e = 2) by lia. assert (H' : e' = 0 \/ e' = 1 \/ e' = 2) by lia.
  by destruct H as [->|[-> | ->]], H' as [->|[-> | ->]].
Qed.

Lemma wok_active w : wok w -> active w = true -> exists e, at_epoch w e.
Proof.
  unfold wok. destruct (w_pc w) as [|ge| |ge x]; intros H Ha; try done.
  - congruence.
  - destruct H. congruence.
  - by destruct H.
Qed.

Lemma elem_of_actives ws j : j ∈ actives ws <-> is_active ws j = true.
Proof.
  unfold actives. rewrite list_elem_of_filter, elem_of_seq. split; [by intros [? _]|].
  intros H. split; [done|]. unfold is_active in H. destruct (ws !! j) eqn:E; [|done].
  apply lookup_lt_Some in E. lia.
Qed.

Lemma next_range g : 0 <= next g < 3.
Proof. unfold next. apply Z.mod_pos_bound. lia. Qed.

Lemma next_cases g : 0 <= g < 3 -> next g <> g /\ next (next g) <> g /\ next (next g) <> next g /\
  next (next (next g)) = g.
Proof.
  intros Hg. assert (H : g = 0 \/ g = 1 \/ g = 2) by lia. by destruct H as [->|[-> | ->]].
Qed.

Lemma next_inj g h : 0 <= g < 3 -> 0 <= h < 3 -> next g = next h -> g = h.
Proof.
  intros Hg Hh E. rewrite <- (proj2 (proj2 (proj2 (next_cases g Hg)))), E. by apply next_cases.
Qed.

Lemma user_now g c ws j w e : ws !! j = Some w -> at_epoch w e -> 0 <= g < 3 -> user g c ws g j.
Proof. intros Hw He Hg. exists w, e. destruct (next_cases g Hg) as (N1 & _). split_and!; try done; intros E; congruence. Qed.

(** The epochs of the workers that matter are the same, and the thread is
    past no more of them. *)
Lemma user_mono g c ws c' ws' b j :
  user g c ws b j -> (forall w e, ws !! j = Some w -> at_epoch w e -> exists w', ws' !! j = Some w' /\ at_epoch w' e) ->
  (forall w e, ws !! j = Some w -> at_epoch w e -> passed c' j -> passed c j \/ e = g) -> 0 <= g < 3 -> user g c' ws' b j.
Proof.
  intros (w & e & Hw & He & H1 & H2) Hk Hp Hg. destruct (Hk w e Hw He) as (w' & Hw' & He'). exists w', e.
  destruct (next_cases g Hg) as (_ & N2 & _). split_and!; try done.
  - intros Hb Hps. destruct (Hp w e Hw He Hps); auto.
  - intros Hb. destruct (H2 Hb) as [-> Hn]. split; [done|]. intros Hps. by destruct (Hp _ _ Hw He Hps).
Qed.

(** *** Steps of a worker *)

Lemma insert_get (ws : list Worker) i w j v :
  <[i := w]> ws !! j = Some v -> (j = i /\ v = w) \/ (j <> i /\ ws !! j = Some v).
Proof.
  destruct (decide (j = i)) as [->|Hne].
  - intros H. pose proof (lookup_lt_Some _ _ _ H) as Hl. rewrite length_insert in Hl.
    rewrite list_lookup_insert_eq in H by done. injection H as <-. by left.
  - rewrite list_lookup_insert_ne by done. by right.
Qed.

(** A worker's step that leaves the lists alone; the worker keeps its epoch,
    if it had one. *)
Lemma einv_worker s c i w w' :
  einv s c -> e_w s !! i = Some w -> wok w' -> (forall e, at_epoch w e -> at_epoch w' e) ->
  (forall ge x, w_pc w' = WPush ge x ->
     user (e_epoch s) c (e_w s) ge i /\ forall j, j ∈ li_pend x -> user (e_epoch s) c (e_w s) ge j) ->
  einv (upd_w s i w') c.
Proof.
  intros [H0 H1 H2 H3 H4 H5 H6 H7] Hw Hok Hat Hpush.
  assert (Hu : forall b j, user (e_epoch s) c (e_w s) b j -> user (e_epoch s) c (<[i := w']> (e_w s)) b j).
  { intros b j Hj. eapply user_mono; [exact Hj| |by left|done]. intros v e Hv He. destruct (decide (j = i)) as [->|Hn].
    - rewrite Hw in Hv. injection Hv as <-. exists w'. rewrite list_lookup_insert_eq by by eapply lookup_lt_Some. auto.
    - exists v. by rewrite list_lookup_insert_ne. }
  constructor; cbn [upd_w e_epoch e_limbo e_w e_c e_freed]; try done.
  - intros j v [[-> ->]|[_ Hj]]%insert_get; [done|by eapply H3].
  - intros b x j Hb Hx Hj. by apply Hu, (H5 b x j).
  - intros j v ge x [[-> ->]|[_ Hj]]%insert_get Hpc.
    + destruct (Hpush ge x Hpc) as [U1 U2]. split; [by apply Hu|]. intros k Hk. by apply Hu, U2.
    + destruct (H6 j v ge x Hj Hpc) as [U1 U2]. split; [by apply Hu|]. intros k Hk. by apply Hu, U2.
Qed.

Lemma bucket_left s i b x ws :
  x ∈ bucket (mkEp (e_epoch s) ((fun l : list Entry => left_by i <$> l) <$> e_limbo s) ws (e_c s) (e_freed s)) b ->
  exists y, y ∈ bucket s b /\ x = left_by i y.
Proof.
  unfold bucket. cbn [e_limbo]. rewrite list_lookup_fmap.
  destruct (e_limbo s !! Z.to_nat b) as [l|]; cbn; [|by intros ?%elem_of_nil].
  intros (y & -> & Hy)%list_elem_of_fmap. eauto.
Qed.

Lemma left_pend i y j : j ∈ li_pend (left_by i y) -> j ∈ li_pend y /\ j <> i.
Proof. cbn [left_by li_pend]. rewrite list_elem_of_filter. tauto. Qed.

Lemma inactive_word e : 0 <= e < 3 -> Z.land (Z.land (Z.lor e Eactive) (Z.lnot Eactive)) Eactive = 0.
Proof. intros He. assert (H : e = 0 \/ e = 1 \/ e = 2) by lia. by destruct H as [->|[-> | ->]]. Qed.

Lemma left_w_ok i w : wok w -> wok (left_w i w).
Proof. by destruct w as [le []]. Qed.

(** A worker leaves, and uses nothing any more. *)
Lemma einv_end s c i le :
  einv s c -> e_w s !! i = Some (mkWorker le WIn) ->
  einv (mkEp (e_epoch s) ((fun l : list Entry => left_by i <$> l) <$> e_limbo s)
          (<[i := mkWorker (Z.land le (Z.lnot Eactive)) WOut]> (left_w i <$> e_w s)) (e_c s) (e_freed s)) c.
Proof.
  intros [H0 H1 H2 H3 H4 H5 H6 H7] Hw.
  destruct (H3 _ _ Hw) as (e0 & E0 & He0). cbn [w_lepoch] in E0. subst le.
  assert (Hina : active (mkWorker (Z.land (Z.lor e0 Eactive) (Z.lnot Eactive)) WOut) = false).
  { unfold active. cbn [w_lepoch]. by rewrite inactive_word. }
  set (ws := <[i := _]> _).
  assert (Hget : forall j v, ws !! j = Some v -> (j = i /\ v = mkWorker (Z.land (Z.lor e0 Eactive) (Z.lnot Eactive)) WOut) \/
    exists u, j <> i /\ e_w s !! j = Some u /\ v = left_w i u).
  { intros j v [?|[Hn Hj]]%insert_get; [by left|right]. rewrite list_lookup_fmap in Hj.
    destruct (e_w s !! j) as [u|]; [|done]. injection Hj as <-. by exists u. }
  assert (Hu : forall b j, j <> i -> user (e_epoch s) c (e_w s) b j -> user (e_epoch s) c ws b j).
  { intros b j Hn Hj. eapply user_mono; [exact Hj| |by left|done]. intros v e Hv He. exists (left_w i v). split; [|exact He].
    unfold ws. by rewrite list_lookup_insert_ne, list_lookup_fmap, Hv. }
  constructor; cbn [e_epoch e_w e_c e_freed]; try done.
  - cbn [e_limbo]. by rewrite length_fmap.
  - intros j v [[-> ->]|(u & _ & Hj & ->)]%Hget; [done|]. by eapply left_w_ok, H3.
  - unfold cok in *. destruct c; try done. destruct H4 as [-> H4]. split; [done|].
    unfold bucket in *. cbn [e_limbo]. rewrite list_lookup_fmap.
    destruct (e_limbo s !! _); [|done]. cbn in *. by subst.
  - intros b x j Hb (y & Hy & ->)%bucket_left [Hj Hne]%left_pend. by apply Hu, (H5 b y j).
  - intros j v ge x [[-> ->]|(u & Hn & Hj & ->)]%Hget Hpc; [done|]. unfold left_w in Hpc. cbn [w_pc] in Hpc.
    destruct (w_pc u) as [| | |ge' y] eqn:Eu; try done. injection Hpc as <- <-. destruct (H6 j u ge' y Hj Eu) as [U1 U2].
    split; [by apply Hu|]. intros k [Hk Hki]%left_pend. by apply Hu, U2.
Qed.

Lemma bucket_insert ep limbo ws cs fr (ge : Z) l b :
  length limbo = 3%nat -> 0 <= ge < 3 -> 0 <= b < 3 ->
  bucket (mkEp ep (<[Z.to_nat ge := l]> limbo) ws cs fr) b =
  if decide (b = ge) then l else bucket (mkEp ep limbo ws cs fr) b.
Proof.
  intros Hl Hg Hb. unfold bucket. cbn [e_limbo]. destruct (decide (b = ge)) as [->|Hne].
  - by rewrite list_lookup_insert_eq by lia.
  - by rewrite list_lookup_insert_ne by lia.
Qed.

(** A worker adds an entry; never to the oldest list once the thread has
    checked everybody, because it is active itself. *)
Lemma einv_push s c i le ge x :
  einv s c -> e_w s !! i = Some (mkWorker le (WPush ge x)) ->
  einv (mkEp (e_epoch s) (<[Z.to_nat ge := x :: bucket s ge]> (e_limbo s))
          (<[i := mkWorker le WIn]> (e_w s)) (e_c s) (e_freed s)) c.
Proof.
  intros I Hw. pose proof I as [H0 H1 H2 H3 H4 H5 H6 H7].
  destruct (H3 _ _ Hw) as [Hat Hr]. cbn [w_pc] in Hr. destruct (H6 _ _ _ _ Hw eq_refl) as [U1 U2].
  assert (I' : einv (upd_w s i (mkWorker le WIn)) c) by by apply (einv_worker s c i _ _ I Hw).
  assert (Hu : forall b j, user (e_epoch s) c (e_w s) b j -> user (e_epoch s) c (<[i := mkWorker le WIn]> (e_w s)) b j).
  { intros b j Hj. eapply user_mono; [exact Hj| |by left|done]. intros v e Hv He. destruct (decide (j = i)) as [->|Hn].
    - rewrite Hw in Hv. injection Hv as <-. eexists. rewrite list_lookup_insert_eq by by eapply lookup_lt_Some. by split.
    - exists v. by rewrite list_lookup_insert_ne. }
  assert (Hb : forall b, 0 <= b < 3 -> bucket (mkEp (e_epoch s) (<[Z.to_nat ge := x :: bucket s ge]> (e_limbo s))
      (<[i := mkWorker le WIn]> (e_w s)) (e_c s) (e_freed s)) b = if decide (b = ge) then x :: bucket s ge else bucket s b).
  { intros b Hb. by rewrite bucket_insert. }
  pose proof (next_range (e_epoch s)) as Hnr. destruct I' as [K0 K1 K2 K3 K4 K5 K6 K7].
  constructor; cbn [e_epoch e_w e_c e_freed]; try done.
  - cbn [e_limbo]. by rewrite length_insert.
  - rewrite Hb by done. destruct (decide (next (e_epoch s) = ge)) as [E|_]; [|done].
    destruct c as [| | | |ge']; try done. destruct U1 as (w & e & _ & _ & _ & U). by destruct (U (eq_sym E)) as [_ []].
  - intros b y j Hbr. rewrite Hb by done. destruct (decide (b = ge)) as [->|Hne]; [|by apply K5].
    intros [->|Hy]%elem_of_cons Hj; [by apply Hu, U2|by eapply K5].
Qed.

(** *** Steps of the cleaning thread *)

(** The checks may go further: past a worker that is not there, is not
    active, or has seen the epoch. *)
Lemma einv_cpc s c c' :
  einv s c -> cok (e_epoch s) (bucket s (next (e_epoch s))) c' ->
  (forall i w, passed c' i -> e_w s !! i = Some w ->
    passed c i \/ active w = false \/ at_epoch w (e_epoch s)) ->
  einv (mkEp (e_epoch s) (e_limbo s) (e_w s) [c'] (e_freed s)) c'.
Proof.
  intros [H0 H1 H2 H3 H4 H5 H6 H7] Hc Hp.
  assert (Hu : forall b j, user (e_epoch s) c (e_w s) b j -> user (e_epoch s) c' (e_w s) b j).
  { intros b j Hj. eapply user_mono; [exact Hj|eauto| |done]. intros v e Hv He Hps.
    destruct (Hp j v Hps Hv) as [?|[Ha|Ha]]; [by left|by rewrite (at_epoch_active _ _ He) in Ha|right]. by eapply at_epoch_fun. }
  constructor; try done; cbn [e_w e_epoch].
  - intros b x j Hb Hx Hj. by apply Hu, (H5 b x j).
  - intros i w ge x Hw Hpc. destruct (H6 i w ge x Hw Hpc) as [U1 U2]. split; [by apply Hu|]. intros j Hj. by apply Hu, U2.
Qed.

(** The oldest list has no users left when it is taken. *)
Lemma einv_take s c ge :
  einv s c -> c = CReady ge ->
  einv (mkEp (e_epoch s) (<[Z.to_nat (next ge) := []]> (e_limbo s)) (e_w s) [CSet ge]
          (e_freed s ++ bucket s (next ge))) (CSet ge).
Proof.
  intros [H0 H1 H2 H3 H4 H5 H6 H7] ->. cbn [cok] in H4. subst ge.
  pose proof (next_range (e_epoch s)) as Hnr.
  assert (Hb : forall b, 0 <= b < 3 -> bucket (mkEp (e_epoch s) (<[Z.to_nat (next (e_epoch s)) := []]> (e_limbo s))
      (e_w s) [CSet (e_epoch s)] (e_freed s ++ bucket s (next (e_epoch s)))) b =
      if decide (b = next (e_epoch s)) then [] else bucket s b).
  { intros b Hb. by rewrite bucket_insert. }
  constructor; try done; cbn [e_w e_epoch].
  - cbn [e_limbo]. by rewrite length_insert.
  - cbn [cok]. split; [done|]. by rewrite Hb, decide_True.
  - intros b x j Hbr. rewrite Hb by done. destruct (decide (b = next (e_epoch s))); [by intros ?%elem_of_nil|].
    by apply H5.
  - cbn [e_freed]. apply Forall_app. split; [done|]. apply Forall_forall. intros x Hx.
    destruct (li_pend x) as [|j l] eqn:E; [done|]. exfalso.
    destruct (H5 (next (e_epoch s)) x j) as (w & e & _ & _ & _ & U); [done|done|rewrite E; by left|].
    by destruct (U eq_refl) as [_ []].
Qed.

(** When the epoch moves on, every user of an entry of the last epoch has that
    epoch, and nobody uses or adds to the list of the new one. *)
Lemma user_store g ws b j : 0 <= g < 3 -> user g (CSet g) ws b j ->
  user (next g) CIdle ws b j /\ b <> next g.
Proof.
  intros Hg (w & e & Hw & He & H1 & H2). destruct (next_cases _ Hg) as (N1 & N2 & N3 & N4). split.
  - exists w, e. split_and!; try done. intros ->. split; [|by intros []]. rewrite N4. by apply H1.
  - intros Eb. by destruct (H2 Eb) as [_ []].
Qed.

(** The list of the previous epoch becomes the oldest. *)
Lemma einv_store s c ge :
  einv s c -> c = CSet ge ->
  einv (mkEp (next ge) (e_limbo s) (e_w s) [CIdle] (e_freed s)) CIdle.
Proof.
  intros [H0 H1 H2 H3 H4 H5 H6 H7] ->. cbn [cok] in H4. destruct H4 as [-> H4].
  pose proof (next_range (e_epoch s)) as Hnr.
  constructor; try done; cbn [e_w e_epoch].
  - intros b x j Hb Hx Hj. apply user_store; [done|]. by apply (H5 b x j).
  - intros i w ge x Hw Hpc. destruct (H6 i w ge x Hw Hpc) as [U1 U2]. split; [by apply user_store|].
    intros j Hj. by apply user_store, U2.
Qed.

(** ** Executions *)

Inductive ereach (n m : nat) : Ep -> Prop :=
  | er_init : ereach n m (einit n m)
  | er_step a s s' : ereach n m s -> estep a s = Some s' -> ereach n m s'.

Lemma einv_init n : einv (einit n 1) CIdle.
Proof.
  constructor; cbn [einit e_epoch e_limbo e_w e_c e_freed]; try done; try lia.
  - by intros i w [-> _]%lookup_replicate.
  - intros b x j Hb Hx. unfold bucket in Hx. cbn [e_limbo einit] in Hx.
    assert (H : b = 0 \/ b = 1 \/ b = 2) by lia.
    destruct H as [->|[-> | ->]]; by apply elem_of_nil in Hx.
  - by intros i w ge x [-> _]%lookup_replicate.
Qed.

(** [limbo] loads the epoch: every active worker may use the entry. *)
Lemma einv_limbo s c i le op id : einv s c -> e_w s !! i = Some (mkWorker le WIn) ->
  einv (upd_w s i (mkWorker le (WPush (e_epoch s) (mkEntry op id (actives (e_w s)))))) c.
Proof.
  intros I Ew. pose proof I as [H0 _ _ H3 _ _ _ _].
  assert (Hu : forall j, is_active (e_w s) j = true -> user (e_epoch s) c (e_w s) (e_epoch s) j).
  { intros j Ha. unfold is_active in Ha. destruct (e_w s !! j) as [w|] eqn:Ej; [|done].
    destruct (wok_active w (H3 _ _ Ej) Ha) as [e He]. by eapply user_now. }
  apply (einv_worker s c i _ _ I Ew); [by split; [apply (H3 _ _ Ew)|]|done|].
  intros ge x [= <- <-]. split; [|intros j Hj; by apply Hu, elem_of_actives].
  destruct (H3 _ _ Ew) as [e He]. by eapply user_now.
Qed.

(** The exchange fails: the epoch is loaded again. *)
Lemma einv_retry s c i le ge x : einv s c -> e_w s !! i = Some (mkWorker le (WPush ge x)) ->
  einv (upd_w s i (mkWorker le (WPush (e_epoch s) x))) c.
Proof.
  intros I Ew. pose proof I as [H0 _ _ H3 _ _ H6 _].
  assert (Hu : forall j, user (e_epoch s) c (e_w s) ge j -> user (e_epoch s) c (e_w s) (e_epoch s) j).
  { intros j (w & e & Hw & He & _). by eapply user_now. }
  apply (einv_worker s c i _ _ I Ew); [by split; [apply (H3 _ _ Ew)|]|done|].
  intros ge' x' [= <- <-]. destruct (H6 _ _ _ _ Ew eq_refl) as [U1 U2]. split; [by apply Hu|]. intros j Hj. by apply Hu, U2.
Qed.

(** A worker enters, with whatever epoch it has loaded. *)
Lemma einv_enter s c i le ge : einv s c -> e_w s !! i = Some (mkWorker le (WRead ge)) ->
  einv (upd_w s i (mkWorker (Z.lor ge Eactive) WIn)) c.
Proof.
  intros I Ew. destruct (ei_w _ _ I _ _ Ew) as [Hna Hr]. cbn [w_pc] in Hr.
  apply (einv_worker s c i _ _ I Ew); [by exists ge| |done].
  intros e He. by rewrite (at_epoch_active _ _ He) in Hna.
Qed.

Lemma estep_inv s c a s' : einv s c -> estep a s = Some s' -> exists c', einv s' c'.
Proof.
  intros I Hs. pose proof I as [H0 H1 H2 H3 H4 _ _ _].
  assert (Hc : forall i p, e_c s !! i = Some p -> i = 0%nat /\ p = c).
  { intros i p Hi. rewrite H2 in Hi. destruct i as [|i]; [|done]. injection Hi as <-. done. }
  assert (Hup : forall p, upd_c s 0 p = mkEp (e_epoch s) (e_limbo s) (e_w s) [p] (e_freed s)).
  { intros p. unfold upd_c. by rewrite H2. }
  destruct a as [i|i|i|i op id|i|i|i|i|i|i|i|i]; cbn [estep] in *.
  - destruct (e_w s !! i) as [[le []]|] eqn:Ew; try done. injection Hs as <-. exists c.
    apply (einv_worker s c i _ _ I Ew); [split; [apply (H3 _ _ Ew)|done]|done|done].
  - destruct (e_w s !! i) as [[le []]|] eqn:Ew; try done. injection Hs as <-. exists c. by eapply einv_enter.
  - destruct (e_w s !! i) as [[le []]|] eqn:Ew; try done. injection Hs as <-. exists c. by apply einv_end.
  - destruct (e_w s !! i) as [[le []]|] eqn:Ew; try done. injection Hs as <-. exists c. by apply einv_limbo.
  - destruct (e_w s !! i) as [[le []]|] eqn:Ew; try done. injection Hs as <-. exists c. by eapply einv_retry.
  - destruct (e_w s !! i) as [[le []]|] eqn:Ew; try done. injection Hs as <-. exists c. by apply einv_push.
  - destruct (e_c s !! i) as [[]|] eqn:Ec; try done. injection Hs as <-. destruct (Hc _ _ Ec) as [-> <-].
    rewrite Hup. eexists. by apply (einv_cpc s CIdle).
  - destruct (e_c s !! i) as [[]|] eqn:Ec; try done. injection Hs as <-. destruct (Hc _ _ Ec) as [-> <-].
    rewrite Hup. eexists. by eapply einv_cpc.
  - destruct (e_c s !! i) as [[]|] eqn:Ec; try done. injection Hs as <-. destruct (Hc _ _ Ec) as [-> <-].
    rewrite Hup. eexists. eapply einv_cpc; [done|done|]. intros j w Hp. cbn [passed] in Hp. lia.
  - destruct (e_c s !! i) as [[| |ge ge' k| |]|] eqn:Ec; try done. destruct (Hc _ _ Ec) as [-> <-].
    cbn [cok] in H4. destruct H4 as [-> ->].
    destruct (e_w s !! k) as [w|] eqn:Ew; injection Hs as <-; rewrite Hup.
    + destruct (busy (w_lepoch w) (e_epoch s)) eqn:Eb; eexists; (eapply einv_cpc; [done|done|]); [done|].
      intros j v Hp Hv. cbn [passed] in Hp. destruct (decide (j = k)) as [->|Hne]; [|left; cbn; lia].
      rewrite Ew in Hv. injection Hv as <-. right. destruct (active w) eqn:Ea; [|by left].
      right. destruct (wok_active w (H3 _ _ Ew) Ea) as [e He].
      rewrite (at_epoch_busy _ _ _ He H0) in Eb. apply negb_false_iff, Z.eqb_eq in Eb. by subst.
    + eexists. eapply einv_cpc; [done|done|]. intros j v _ Hv. left. cbn [passed].
      apply lookup_ge_None in Ew. apply lookup_lt_Some in Hv. lia.
  - destruct (e_c s !! i) as [[]|] eqn:Ec; try done. injection Hs as <-. destruct (Hc _ _ Ec) as [-> <-].
    rewrite H2. eexists. by apply (einv_take s _ ge I).
  - destruct (e_c s !! i) as [[]|] eqn:Ec; try done. injection Hs as <-. destruct (Hc _ _ Ec) as [-> <-].
    rewrite H2. eexists. by apply (einv_store s _ ge I).
Qed.

Lemma ereach_inv n s : ereach n 1 s -> exists c, einv s c.
Proof.
  induction 1 as [|a s s' _ [c I] Hs]; [exists CIdle; apply einv_init|]. by eapply estep_inv.
Qed.

Lemma erun_reach n m l : forall s s', ereach n m s -> erun l s = Some s' -> ereach n m s'.
Proof.
  induction l as [|a l IH]; intros s s' Hr He; cbn in He; [by injection He as <-|].
  destruct (estep a s) as [s1|] eqn:Es; [|done]. eapply IH; [|done]. by eapply er_step.
Qed.

(** ** Progress *)

(** One call of [epochclean] that nothing delays. *)
Definition clean_acts (n : nat) : list act :=
  [CBegin 0; CLoad 0] ++ replicate (S n) (CCheck 0) ++ [CTake 0; CStore 0].

Definition quiet (s : Ep) : Prop :=
  length (e_limbo s) = 3%nat /\ 0 <= e_epoch s < 3 /\ e_c s = [CIdle] /\
  Forall (fun w => active w = false) (e_w s).

Lemma erun_app l l' s : erun (l ++ l') s = match erun l s with Some s => erun l' s | None => None end.
Proof.
  revert s. induction l as [|a l IH]; intros s; [done|]. cbn [app erun]. destruct (estep a s); [apply IH|done].
Qed.

Lemma checks_pass n g : forall ep limbo ws fr k,
  Forall (fun w => active w = false) ws -> (k + n = length ws)%nat ->
  erun (replicate (S n) (CCheck 0)) (mkEp ep limbo ws [CScan g ep k] fr) =
    Some (mkEp ep limbo ws [CReady g] fr).
Proof.
  induction n as [|n IH]; intros ep limbo ws fr k Ha Hk; cbn [replicate erun estep e_c lookup list_lookup e_w].
  - rewrite lookup_ge_None_2 by lia. done.
  - destruct (lookup_lt_is_Some_2 ws k) as [w Hw]; [lia|]. rewrite Hw.
    assert (Hb : busy (w_lepoch w) ep = false).
    { rewrite Forall_lookup in Ha. specialize (Ha _ _ Hw). unfold busy. unfold active in Ha. by rewrite Ha. }
    rewrite Hb. unfold upd_c. cbn [e_epoch e_limbo e_w e_c e_freed].
    change (<[0%nat := CScan g ep (S k)]> [CScan g ep k]) with [CScan g ep (S k)]. apply IH; [done|lia].
Qed.

Lemma clean_once s :
  quiet s -> erun (clean_acts (length (e_w s))) s =
    Some (mkEp (next (e_epoch s)) (<[Z.to_nat (next (e_epoch s)) := []]> (e_limbo s)) (e_w s) [CIdle]
            (e_freed s ++ bucket s (next (e_epoch s)))).
Proof.
  destruct s as [ep limbo ws cs fr]. intros (Hl & He & Hc & Ha). cbn in Hl, He, Hc, Ha. subst cs.
  cbn [e_w e_epoch e_limbo e_freed]. unfold clean_acts. rewrite erun_app.
  change (erun [CBegin 0; CLoad 0] (mkEp ep limbo ws [CIdle] fr)) with
    (Some (mkEp ep limbo ws [CScan ep ep 0] fr)). cbv iota beta.
  by rewrite erun_app, checks_pass.
Qed.

Lemma erun_thrice l s s1 s2 s3 :
  erun l s = Some s1 -> erun l s1 = Some s2 -> erun l s2 = Some s3 ->
  erun (concat (replicate 3 l)) s = Some s3.
Proof.
  intros E1 E2 E3. cbn [replicate concat]. rewrite app_nil_r, erun_app, E1, erun_app, E2. exact E3.
Qed.

(** ** Theorems *)


(** C36: three calls of [epochclean] that no worker delays free everything
    that is in limbo, once, and leave the lists empty. *)
Theorem epoch_drains s :
  quiet s ->
  exists s', erun (concat (replicate 3 (clean_acts (length (e_w s))))) s = Some s' /\
    e_limbo s' = [[]; []; []] /\ e_epoch s' = e_epoch s /\
    Permutation (e_freed s') (e_freed s ++ concat (e_limbo s)).
Proof.
  intros Hq. assert (Hstep : forall s, quiet s -> quiet (mkEp (next (e_epoch s))
      (<[Z.to_nat (next (e_epoch s)) := []]> (e_limbo s)) (e_w s) [CIdle]
      (e_freed s ++ bucket s (next (e_epoch s))))).
  { intros s0 (Q1 & Q2 & Q3 & Q4). split; [by cbn; rewrite length_insert|].
    split; [apply next_range|]. by split. }
  eexists. split; [exact (erun_thrice _ _ _ _ _ (clean_once s Hq) (clean_once _ (Hstep s Hq))
    (clean_once _ (Hstep _ (Hstep s Hq))))|].
  cbn [e_limbo e_epoch e_freed].
  destruct Hq as (Hl & He & _ & _). destruct s as [ep limbo ws cs fr]. cbn in Hl, He |- *.
  destruct limbo as [|l0 [|l1 [|l2 [|]]]]; try done.
  assert (H : ep = 0 \/ ep = 1 \/ ep = 2) by lia.
  destruct H as [->|[-> | ->]]; cbn; (split; [done|]); (split; [done|]); unfold bucket; cbn;
    rewrite !app_nil_r, <- !app_assoc; apply Permutation_app_head.
  - rewrite app_assoc, (Permutation_app_comm (l1 ++ l2)). done.
  - rewrite (Permutation_app_comm l2). by rewrite <- app_assoc.
  - done.
Qed.

(** Two threads that clean at the same time free an entry that a worker still
    uses. *)
Definition race : list act :=
  [AStart 0; AEnter 0; AStart 1; AEnter 1;
   (* both cleaners pass the checks at epoch 0 *)
   CBegin 0; CLoad 0; CCheck 0; CCheck 0; CCheck 0;
   CBegin 1; CLoad 1; CCheck 1; CCheck 1; CCheck 1;
   (* the second one goes to epoch 1; both workers start again *)
   CTake 1; CStore 1; AEnd 0; AEnd 1; AStart 0; AEnter 0; AStart 1; AEnter 1;
   (* worker 0 frees an entry that worker 1 may be using *)
   ALimbo 0 0 7; APush 0; AEnd 0;
   (* the first cleaner frees the list of epoch 1 *)
   CTake 0].


(** C37: two threads in [epochclean] at the same time, which the callers do
    not rule out, can free a block that a worker is still using: the first
    one passes its checks, the second one moves the epoch on, and the first
    one then takes the list of the epoch that is now current. *)
Theorem epochclean_race :
  exists s, ereach 2 2 s /\ e_freed s = [mkEntry 0 7 [1%nat]].
Proof.
  destruct (erun race (einit 2 2)) as [s|] eqn:E; [|by vm_compute in E].
  exists s. split; [eapply erun_reach; [apply er_init|exact E]|].
  vm_compute in E. by injection E as <-.
Qed.

(** ** Witnesses *)

(** Worker 1 loads the epoch and enters two epochs later; worker 0 frees an
    entry; both leave; three rounds later it is freed. *)
Definition epoch_run : list act :=
  AStart 1 :: concat (replicate 2 (clean_acts 2)) ++
  [AEnter 1; AStart 0; AEnter 0; ALimbo 0 0 7; APush 0; AEnd 0; AEnd 1] ++ concat (replicate 3 (clean_acts 2)).


Lemma epoch_drains_witness :
  exists s', erun (concat (replicate 3 (clean_acts 1)))
      (mkEp 1 [[mkEntry 0 7 []]; []; []] [mkWorker 0 WOut] [CIdle] []) = Some s' /\ e_limbo s' = [[]; []; []].
Proof.
  destruct (epoch_drains (mkEp 1 [[mkEntry 0 7 []]; []; []] [mkWorker 0 WOut] [CIdle] [])) as (s' & E & Hl & _).
  { split; [done|]. split; [done|]. split; [done|]. by repeat constructor. }
  exists s'. split; [exact E|exact Hl].
Defined.
