(* ===== verification/Mst.v ===== *)
(** * Stateful code that can fail

    The handlers of src/fs.c change shared state and leave through
    [error(E)]; [waserror] is a handler that sees the state as it was when
    the error was raised.  A command therefore returns its result and the
    state in either case.  Failed assertions and undefined behaviour are not
    errors: no handler catches them. *)
From S2P Require Import Prelude.

Definition M (S A : Type) : Type := S -> res A * S.

Section mst.
Context {S : Type}.

Definition mret {A} (a : A) : M S A := fun s => (Ok a, s).
Definition mbind {A B} (m : M S A) (k : A -> M S B) : M S B :=
  fun s => match m s with (Ok a, s') => k a s' | (Err e, s') => (Err e, s') end.
Definition merror {A} (e : err) : M S A := fun s => (Err e, s).
Definition mlift {A} (r : res A) : M S A := fun s => (r, s).
Definition mget : M S S := fun s => (Ok s, s).
Definition mput (s : S) : M S unit := fun _ => (Ok tt, s).
Definition mmod (f : S -> S) : M S unit := fun s => (Ok tt, f s).

(** The outcomes that stop the program. *)
Definition is_crash (e : err) : bool :=
  bool_decide (e = Eassert) || bool_decide (e = Eoob) ||
  bool_decide (e = Euninit) || bool_decide (e = Estuck) || bool_decide (e = Efuel).

(** [if(waserror()){ h }] around [m]. *)
Definition mcatch {A} (m : M S A) (h : err -> M S A) : M S A :=
  fun s => match m s with
  | (Ok a, s') => (Ok a, s')
  | (Err e, s') => if is_crash e then (Err e, s') else h e s'
  end.

(** What a command establishes: [Q] when it returns, [E] when it fails. *)
Definition mpost {A} (m : M S A) (s : S) (E : err -> S -> Prop) (Q : A -> S -> Prop) : Prop :=
  match m s with (Ok a, s') => Q a s' | (Err e, s') => E e s' end.

Lemma mpost_ret {A} (a : A) s E Q : Q a s -> mpost (mret a) s E Q.
Proof. done. Qed.

Lemma mpost_bind {A B} (m : M S A) (k : A -> M S B) s E Q Q' :
  mpost m s E Q' -> (forall a s', Q' a s' -> mpost (k a) s' E Q) -> mpost (mbind m k) s E Q.
Proof.
  unfold mpost, mbind. destruct (m s) as [[a|e] s']; [|done]. intros H1 H2. exact (H2 a s' H1).
Qed.

Lemma mpost_mono {A} (m : M S A) s (E E' : err -> S -> Prop) (Q Q' : A -> S -> Prop) :
  mpost m s E Q -> (forall e s', E e s' -> E' e s') -> (forall a s', Q a s' -> Q' a s') ->
  mpost m s E' Q'.
Proof. unfold mpost. destruct (m s) as [[a|e] s']; auto. Qed.

Lemma mpost_lift {A} (r : res A) s (E : err -> S -> Prop) (Q : A -> S -> Prop) :
  postE (fun e => E e s) r (fun a => Q a s) -> mpost (mlift r) s E Q.
Proof. unfold mpost, mlift, postE. by destruct r. Qed.

Lemma mpost_lift_ok {A} (r : res A) a s (E : err -> S -> Prop) (Q : A -> S -> Prop) :
  r = Ok a -> Q a s -> mpost (mlift r) s E Q.
Proof. by intros ->. Qed.

Lemma mpost_catch {A} (m : M S A) h s (E E' : err -> S -> Prop) Q :
  mpost m s E' Q ->
  (forall e s', E' e s' -> if is_crash e then E e s' else mpost (h e) s' E Q) ->
  mpost (mcatch m h) s E Q.
Proof.
  unfold mpost, mcatch. destruct (m s) as [[a|e] s']; [done|]. intros H1 H2. specialize (H2 e s' H1).
  by destruct (is_crash e).
Qed.
(** ** Rules for a command at the head *)

Lemma mpost_mod {B} (f : S -> S) (k : unit -> M S B) s E Q :
  mpost (k tt) (f s) E Q -> mpost (mbind (mmod f) k) s E Q.
Proof. done. Qed.

Lemma mpost_get {B} (k : S -> M S B) s E Q : mpost (k s) s E Q -> mpost (mbind mget k) s E Q.
Proof. done. Qed.

Lemma mpost_retb {A B} (a : A) (k : A -> M S B) s E Q : mpost (k a) s E Q -> mpost (mbind (mret a) k) s E Q.
Proof. done. Qed.

Lemma mpost_liftb {A B} (r : res A) a (k : A -> M S B) s E Q :
  r = Ok a -> mpost (k a) s E Q -> mpost (mbind (mlift r) k) s E Q.
Proof. intros ->. done. Qed.

Lemma mbind_assoc {A B C} (m : M S A) (k : A -> M S B) (l : B -> M S C) s E Q :
  mpost (mbind m (fun a => mbind (k a) l)) s E Q -> mpost (mbind (mbind m k) l) s E Q.
Proof. unfold mpost, mbind. by destruct (m s) as [[a|e] s']. Qed.

Lemma mpost_eq {A} (m : M S A) s E Q r s' : m s = (Ok r, s') -> Q r s' -> mpost m s E Q.
Proof. unfold mpost. by intros ->. Qed.

Lemma mpost_eqb {A B} (m : M S A) (k : A -> M S B) s E Q r s' :
  m s = (Ok r, s') -> mpost (k r) s' E Q -> mpost (mbind m k) s E Q.
Proof. unfold mpost, mbind. by intros ->. Qed.
End mst.

(** A command on a part of the state. *)
Definition zoom {S T A} (get : S -> T) (set : T -> S -> S) (m : M T A) : M S A :=
  fun s => let '(r, t) := m (get s) in (r, set t s).

Lemma mpost_zoom {S T A} (get : S -> T) (set : T -> S -> S) (m : M T A) s
    (E : err -> S -> Prop) (Q : A -> S -> Prop) :
  mpost m (get s) (fun e t => E e (set t s)) (fun a t => Q a (set t s)) ->
  mpost (zoom get set m) s E Q.
Proof. unfold mpost, zoom. by destruct (m (get s)) as [[a|e] t]. Qed.

Notation "'let*' x := e 'in' k" := (mbind e (fun x => k))
  (at level 10, x pattern, e at level 100, k at level 200) : gefs_scope.
Notation "'do*' e 'in' k" := (mbind e (fun _ => k))
  (at level 10, e at level 100, k at level 200) : gefs_scope.
Notation "'guard*' b 'else' e 'in' k" := (if b then k else merror e)
  (at level 10, b at level 100, e at level 100, k at level 200) : gefs_scope.
Notation "'assert*' b 'in' k" := (if b then k else merror Eassert)
  (at level 10, b at level 100, k at level 200) : gefs_scope.

(** Step over the command at the head of the goal. *)
Ltac mstep := eapply mpost_bind; [|cbv beta].
