(* ===== verification/Kv.v ===== *)
(** * The message tree as its clients see it

    src/fs.c, src/snap.c and src/user.c use the tree of src/tree.c through
    [btlookup], [btupsert] and the scans.  [MsgTree] states what they rely
    on: the value of a key is what the messages for it make of it, in order
    ([Lookup.kvals], which is what [Lookup.fastupsert_lookup] and
    [Leaf.updateleaf_refines_merge] prove of the tree), a lookup copies the
    pair into the caller's buffer and asserts that it fits, and a scan delivers
    the pairs with a prefix in key order.  Every operation may also fail with
    an error of the layers below, [tree_err].  [btupsert] puts a batch into
    the tree in rounds, with a new root after each, so when it fails the
    tree, [tfail], may have taken some of the messages: of those for one key,
    the first ones.  The map of keys to pairs is the reference instance. *)
From S2P Require Import Prelude Data Keys Apply Upsert Lookup.

(** A message that can only leave a value of at most [n] bytes with its key. *)
Definition msg_fits (n : Z) (m : Msg) : Prop :=
  m_op m = Oinsert -> kvlen (kv_of_msg m) <= n.

Definition kv_le (a b : Kvp) : Prop := kle (kv_k a) (kv_k b).
Definition prefix_of_key (pfx : list Z) (kv : Kvp) : Prop := take (length pfx) (kv_k kv) = pfx.

Class MsgTree (T : Type) := {
  (** the descriptor, [*t] *)
  tdesc : T -> Tree;
  tget : T -> list Z -> Z -> res (option Kvp);
  tput : T -> list Msg -> res T;
  (** the tree that a [tput] that fails leaves *)
  tfail : T -> list Msg -> T;
  tscan : T -> list Z -> res (list Kvp);
  (** [updatesnap]: the same contents as a tree of its own *)
  tfork : T -> res T;
  tree_ok : T -> Prop;
  tval : T -> list Z -> option Kvp;
  (** every pair for the key that a lookup copies has at most that size *)
  tfits : T -> list Z -> Z -> Prop;
  tree_err : err -> Prop;
  tval_key t k kv : tree_ok t -> tval t k = Some kv -> kv_k kv = k;
  tfits_mono t k n n' : n <= n' -> tfits t k n -> tfits t k n';
  tgen_ok t : tree_ok t -> - 2 ^ 63 <= t_memgen (tdesc t) < 2 ^ 63;
  tget_ok t k n : tree_ok t -> tfits t k n -> postE tree_err (tget t k n) (fun r => r = tval t k);
  tget_big t k n kv : tree_ok t -> tval t k = Some kv -> n < kvlen kv ->
    postE (fun e => tree_err e \/ e = Eassert) (tget t k n) (fun _ => False);
  tput_ok t ms : tree_ok t ->
    (forall k, exists v, kvals (tval t k) (with_key k ms) Msgmax = Ok v) ->
    postE tree_err (tput t ms) (fun t' => tree_ok t' /\
      (forall k, kvals (tval t k) (with_key k ms) Msgmax = Ok (tval t' k)) /\
      (forall k n, tfits t k n -> Forall (msg_fits n) (with_key k ms) -> tfits t' k n));
  tfail_ok t ms : tree_ok t ->
    (forall k, exists v, kvals (tval t k) (with_key k ms) Msgmax = Ok v) ->
    tree_ok (tfail t ms) /\
    (forall k, exists n, kvals (tval t k) (take n (with_key k ms)) Msgmax = Ok (tval (tfail t ms) k)) /\
    (forall k n, tfits t k n -> Forall (msg_fits n) (with_key k ms) -> tfits (tfail t ms) k n);
  tfork_ok t : tree_ok t ->
    postE tree_err (tfork t) (fun t' => tree_ok t' /\ (forall k, tval t' k = tval t k) /\
      (forall k n, tfits t k n -> tfits t' k n));
  tscan_ok t pfx : tree_ok t ->
    postE tree_err (tscan t pfx) (fun l => StronglySorted kv_le l /\ NoDup l /\
      forall kv, kv ∈ l <-> tval t (kv_k kv) = Some kv /\ prefix_of_key pfx kv)
}.

(** A [tput] that fails has changed nothing, as when [btupsert] needs one
    round only. *)
Definition atomic (T : Type) `{!MsgTree T} : Prop := forall (t : T) (ms : list Msg), tfail t ms = t.

Lemma kval_step_fits vo m n v nbuf :
  kval_step vo m nbuf = Ok (Some v) -> (forall w, vo = Some w -> kv_k w = m_k m /\ kvlen w <= n) ->
  msg_fits n m -> kv_k v = m_k m /\ kvlen v <= n.
Proof.
  unfold kval_step, msg_fits. intros H Hw Hm. destruct vo as [w|].
  - destruct (Hw w eq_refl) as [Hk Hl]. bind_inv H as [ok u] E. destruct ok; [|done].
    injection H as <-. revert E. unfold apply.
    destruct (m_op m =? Odelete); [by destruct (_ =? 0)|]. destruct (_ || _); [done|].
    destruct (Z.eqb_spec (m_op m) Oinsert) as [Eo|_].
    { intros E. bind_inv E as c Ec. apply cpkvp_inv in Ec as [-> _]. injection E as <-. auto. }
    destruct (m_op m =? Owstat).
    { destruct (_ =? 0); [|done]. intros E. bind_inv E as c Ec. injection E as <-.
      apply statupdate_shape in Ec as [E1 E2]. unfold kvlen. rewrite E1, E2. auto. }
    destruct (_ || _); [|done]. intros E. bind_inv E as c Ec. injection E as <-.
    apply retag_shape in Ec as [E1 E2]. unfold kvlen. rewrite E1, E2. auto.
  - destruct (Z.eqb_spec (m_op m) Oinsert) as [Eo|_]; [|by destruct (_ || _)].
    bind_inv H as c Ec. apply cpkvp_inv in Ec as [-> _]. injection H as <-. auto.
Qed.

(** ** The reference instance *)

Definition Kvmap : Type := gmap (list Z) Kvp.

Definition put1 (m : Kvmap) (x : Msg) : res Kvmap :=
  let! v := kval_step (m !! m_k x) x Msgmax in
  Ok (match v with Some v => <[m_k x := v]> m | None => delete (m_k x) m end).

Fixpoint putall (m : Kvmap) (ms : list Msg) : res Kvmap :=
  match ms with
  | [] => Ok m
  | x :: ms' => let! m := put1 m x in putall m ms'
  end.

Definition map_get (m : Kvmap) (k : list Z) (n : Z) : res (option Kvp) :=
  match m !! k with
  | Some v => let! v := cpkvp v n in Ok (Some v)
  | None => Ok None
  end.

#[export] Instance kv_le_dec a b : Decision (kv_le a b).
Proof. unfold kv_le, kle. apply _. Defined.
#[export] Instance prefix_of_key_dec pfx kv : Decision (prefix_of_key pfx kv).
Proof. unfold prefix_of_key. apply _. Defined.

#[export] Instance kv_le_total : Total kv_le.
Proof. intros a b. unfold kv_le, kle. destruct (keycmpP (kv_k a) (kv_k b)); [left; lia|left; lia|].
  right. apply klt_kle in H. exact H. Qed.
#[export] Instance kv_le_trans : Transitive kv_le.
Proof. intros a b c. unfold kv_le. apply transitivity. Qed.

Definition map_scan (m : Kvmap) (pfx : list Z) : list Kvp :=
  merge_sort kv_le (filter (prefix_of_key pfx) ((map_to_list m).*2)).

Definition keyed (m : Kvmap) : Prop := forall k v, m !! k = Some v -> kv_k v = k.
Definition map_fits (m : Kvmap) (k : list Z) (n : Z) : Prop := forall v, m !! k = Some v -> kvlen v <= n.

Lemma map_get_ok m k n : map_fits m k n -> map_get m k n = Ok (m !! k).
Proof.
  unfold map_fits, map_get. destruct (m !! k) as [v|]; [|done]. intros H. by rewrite cpkvp_ok by auto.
Qed.

Lemma put1_ok m x v : keyed m -> kval_step (m !! m_k x) x Msgmax = Ok v ->
  exists m', put1 m x = Ok m' /\ keyed m' /\ m' !! m_k x = v /\
    (forall k, k <> m_k x -> m' !! k = m !! k) /\
    (forall n, map_fits m (m_k x) n -> msg_fits n x -> map_fits m' (m_k x) n).
Proof.
  intros Hm E. unfold put1. rewrite E. cbn [rbind].
  assert (Hv : forall w n, v = Some w -> map_fits m (m_k x) n -> msg_fits n x -> kv_k w = m_k x /\ kvlen w <= n).
  { intros w n -> Hf Hx. eapply kval_step_fits; [exact E| |done]. intros u Hu. split; [by apply Hm|by apply Hf]. }
  assert (Hk : forall w, v = Some w -> kv_k w = m_k x).
  { intros w ->. clear Hv.
    refine (proj1 (kval_step_fits _ _ (Z.max (match m !! m_k x with Some u => kvlen u | None => 0 end)
       (kvlen (kv_of_msg x))) _ _ E _ _)).
    - intros u Hu. split; [by apply Hm|]. rewrite Hu. lia.
    - intros _. lia. }
  destruct v as [w|]; cbv iota; (eexists; split; [done|]); (split; [|split; [|split]]).
  - intros k u Hu. apply lookup_insert_Some in Hu as [[<- <-]|[_ Hu]]; [by apply Hk|by apply Hm].
  - apply lookup_insert_eq.
  - intros k Hne. apply lookup_insert_ne. congruence.
  - intros n H1 H2 u Hu. apply lookup_insert_Some in Hu as [[_ <-]|[Hu _]]; [by apply (Hv w n)|done].
  - intros k u Hu. apply lookup_delete_Some in Hu as [_ Hu]. by apply Hm.
  - apply lookup_delete_eq.
  - intros k Hne. apply lookup_delete_ne. congruence.
  - intros n H1 H2 u Hu. by apply lookup_delete_Some in Hu as [? _].
Qed.

Lemma putall_ok ms : forall m, keyed m ->
  (forall k, exists v, kvals (m !! k) (with_key k ms) Msgmax = Ok v) ->
  exists m', putall m ms = Ok m' /\ keyed m' /\
    (forall k, kvals (m !! k) (with_key k ms) Msgmax = Ok (m' !! k)) /\
    (forall k n, map_fits m k n -> Forall (msg_fits n) (with_key k ms) -> map_fits m' k n).
Proof.
  induction ms as [|x ms IH]; intros m Hm Hv.
  { exists m. split; [done|]. split; [done|]. split; [done|]. by intros k n H _. }
  assert (Hx : exists v, kval_step (m !! m_k x) x Msgmax = Ok v).
  { destruct (Hv (m_k x)) as [v E]. unfold with_key in E. rewrite filter_cons_True in E by done.
    cbn [kvals] in E. bind_inv E as v1 E1. eauto. }
  destruct Hx as [v Ev]. destruct (put1_ok m x v Hm Ev) as (m1 & E1 & Hm1 & Hl & Hne & Hf).
  assert (Hstep : forall k, kvals (m !! k) (with_key k (x :: ms)) Msgmax = kvals (m1 !! k) (with_key k ms) Msgmax).
  { intros k. unfold with_key. destruct (decide (m_k x = k)) as [<-|Hk].
    - rewrite filter_cons_True by done. cbn [kvals]. by rewrite Ev, Hl.
    - rewrite filter_cons_False by done. by rewrite Hne by congruence. }
  destruct (IH m1 Hm1) as (m' & E' & Hm' & Hl' & Hf').
  { intros k. rewrite <- Hstep. apply Hv. }
  exists m'. cbn [putall]. rewrite E1. split; [done|]. split; [done|]. split.
  { intros k. by rewrite Hstep. }
  intros k n H1 H2. apply Hf'.
  - destruct (decide (m_k x = k)) as [<-|Hk].
    + apply Hf; [done|]. unfold with_key in H2. rewrite filter_cons_True in H2 by done.
      by apply Forall_cons in H2 as [? _].
    + intros u Hu. rewrite Hne in Hu by congruence. by apply H1.
  - unfold with_key in H2 |- *. destruct (decide (m_k x = k)) as [Hk|Hk].
    + rewrite filter_cons_True in H2 by done. by apply Forall_cons in H2 as [_ ?].
    + by rewrite filter_cons_False in H2 by done.
Qed.

Lemma map_scan_spec m pfx : keyed m ->
  StronglySorted kv_le (map_scan m pfx) /\ NoDup (map_scan m pfx) /\
  forall kv, kv ∈ map_scan m pfx <-> m !! kv_k kv = Some kv /\ prefix_of_key pfx kv.
Proof.
  intros Hm. unfold map_scan. split; [apply StronglySorted_merge_sort; apply _|].
  assert (Hin : forall kv : Kvp, kv ∈ (map_to_list m).*2 <-> m !! kv_k kv = Some kv).
  { intros kv. rewrite list_elem_of_fmap. split.
    - intros ([k v] & -> & H). apply elem_of_map_to_list in H. cbn. by rewrite (Hm _ _ H).
    - intros H. exists (kv_k kv, kv). split; [done|]. by apply elem_of_map_to_list. }
  split.
  - rewrite (merge_sort_Permutation kv_le). apply NoDup_filter.
    apply NoDup_fmap_2_strong; [|apply NoDup_map_to_list].
    intros [k1 v1] [k2 v2] H1 H2 E. cbn in E. subst v2.
    apply elem_of_map_to_list in H1, H2. rewrite <- (Hm _ _ H1), <- (Hm _ _ H2). done.
  - intros kv. rewrite (merge_sort_Permutation kv_le), list_elem_of_filter, Hin. tauto.
Qed.

#[export] Program Instance kvmap_tree : MsgTree Kvmap := {
  tdesc := fun _ => tree0;
  tget := map_get;
  tput := putall;
  tfail := fun t _ => t;
  tscan := fun m pfx => Ok (map_scan m pfx);
  tfork := fun m => Ok m;
  tree_ok := keyed;
  tval := fun m k => m !! k;
  tfits := map_fits;
  tree_err := fun _ => False }.
Next Obligation. intros t k kv Ht H. by apply Ht. Qed.
Next Obligation. intros t k n n' Hn H v Hv. specialize (H v Hv). lia. Qed.
Next Obligation. intros t _. cbn. lia. Qed.
Next Obligation. intros t k n _ Hf. by rewrite map_get_ok. Qed.
Next Obligation.
  intros t k n kv _ H Hlt. unfold map_get. rewrite H. unfold cpkvp. fold (kvlen kv).
  rewrite (proj2 (Z.leb_gt _ _)) by done. by right.
Qed.
Next Obligation.
  intros t ms Ht Hv. destruct (putall_ok ms t Ht Hv) as (m' & -> & H). done.
Qed.
Next Obligation. intros t ms Ht _. split; [done|]. split; [|done]. intros k. by exists 0%nat. Qed.
Next Obligation. done. Qed.
Next Obligation. intros t pfx Ht. by apply map_scan_spec. Qed.
