(* ===== verification/Entry.v ===== *)
(** * Directory entries in the tree (src/fs.c: [walk1], [findparent], [dkey],
    [touch], [filldumpdir])

    A directory entry is the pair under the key [Kent, parent, name]; a
    directory has a second pair, [Kup, qid path], that holds the key of its
    entry, the way to the parent.  The messages that change an entry are
    [Owstat]s with a mask of fields. *)
From S2P Require Import Prelude CInt Mem Data Keys Pack Apply Upsert Lookup Kv.

Definition entkey (up : Z) (name : list Z) : list Z :=
  (PACK8 Kent ++ PACK64 up) ++ PACK16 (zlen name) ++ name ++ [0].

Definition supkey (up : Z) : list Z := PACK8 Kup ++ PACK64 up.

Section entry.
Context {T : Type} `{!MsgTree T}.

(** The qid and the length, or nothing when the name is not there. *)
Definition walk1 (t : T) (up : Z) (name : list Z) : res (option (Qid * Z)) :=
  let! k := packdkey Keymax up (Some name) in
  let! r := tget t k Kvmax in
  match r with
  | None => Ok None
  | Some kv => let! d := kv2dir kv in Ok (Some (d_qid d, s64 (d_length d)))
  end.

(** [nbuf] is the size of the caller's buffer; gives the parent of [up] and
    the name [up] has in it. *)
Definition findparent (t : T) (up nbuf : Z) : res (Z * list Z) :=
  let! k := packsuper Keymax up in
  let! r := tget t k nbuf in
  match r with
  | None => Err Esrch
  | Some kv => unpackdkey (kv_v kv)
  end.
End entry.

Definition dkey (up : Z) (name : list Z) (nbuf : Z) : res (list Z) := packdkey nbuf up (Some name).

(** [touch], its message. *)
Definition touch_msg (k : list Z) : Msg := mkMsg Owstat k [0].

Definition Qdump : Z := 2 ^ 63.
Definition QTDIR : Z := 128.
Definition DMDIR : Z := 0x80000000.

(** [d] is the entry [name] of the directory [up]. *)
Definition entry {T} `{!MsgTree T} (t : T) (up : Z) (name : list Z) (d : Xdir) : Prop :=
  tval t (entkey up name) = Some (mkKvp (entkey up name) (dval_bytes d)) /\ wf_xdir d /\ d_name d = name.

Lemma entkey_kv2dir up d : wf_xdir d ->
  kv2dir (mkKvp (entkey up (d_name d)) (dval_bytes d)) = Ok d.
Proof. apply kv2dir_bytes. Qed.

Lemma entkey_not_dat up name q fb : entkey up name <> PACK8 Kdat ++ PACK64 q ++ PACK64 fb.
Proof. intros E. apply (f_equal head) in E. discriminate E. Qed.

Lemma zlen_entkey up name : zlen (entkey up name) = 12 + zlen name.
Proof. unfold entkey. autorewrite with zlen. change (zlen (PACK8 Kent)) with 1.
  change (zlen (PACK64 up)) with 8. change (zlen (PACK16 (zlen name))) with 2. lia. Qed.

(** ** What an [Owstat] message does to an entry *)

(** The fields that a message changes. *)
Record Wst := mkWst {
  ws_size : option Z; ws_mode : option Z; ws_mtime : option Z;
  ws_uid : option Z; ws_gid : option Z; ws_muid : option Z }.

Definition optf (flag : Z) (x : option Z) : Z := match x with Some _ => flag | None => 0 end.
Definition opt64 (x : option Z) : list Z := match x with Some v => PACK64 v | None => [] end.
Definition opt32 (x : option Z) : list Z := match x with Some v => PACK32 v | None => [] end.

Definition wst_op (w : Wst) : Z :=
  Z.lor (Z.lor (Z.lor (Z.lor (Z.lor (optf Owsize (ws_size w)) (optf Owmode (ws_mode w)))
    (optf Owmtime (ws_mtime w))) (optf Owuid (ws_uid w))) (optf Owgid (ws_gid w)))
    (optf Owmuid (ws_muid w)).

Definition wst_bytes (w : Wst) : list Z :=
  PACK8 (wst_op w) ++ opt64 (ws_size w) ++ opt32 (ws_mode w) ++ opt64 (ws_mtime w) ++
  opt32 (ws_uid w) ++ opt32 (ws_gid w) ++ opt32 (ws_muid w).

Definition upd_opt (f : Xdir -> Z -> Xdir) (g : Z -> Z) (x : option Z) (d : Xdir) : Xdir :=
  match x with Some v => f d (g v) | None => d end.

Definition wst_apply (w : Wst) (d : Xdir) : Xdir :=
  upd_opt set_muid s32 (ws_muid w) (upd_opt set_gid s32 (ws_gid w) (upd_opt set_uid s32 (ws_uid w)
    (upd_opt set_mtime s64 (ws_mtime w) (upd_opt set_mode u32 (ws_mode w)
      (upd_opt set_length u64 (ws_size w) (set_vers d (u32 (q_vers (d_qid d) + 1)))))))).

Definition is_given (x : option Z) : bool := match x with Some _ => true | None => false end.

Lemma wst_op_flags w :
  let op := wst_op w in
  negb (Z.land op Owsize =? 0) = is_given (ws_size w) /\ negb (Z.land op Owmode =? 0) = is_given (ws_mode w) /\
  negb (Z.land op Owmtime =? 0) = is_given (ws_mtime w) /\ negb (Z.land op Owatime =? 0) = false /\
  negb (Z.land op Owuid =? 0) = is_given (ws_uid w) /\ negb (Z.land op Owgid =? 0) = is_given (ws_gid w) /\
  negb (Z.land op Owmuid =? 0) = is_given (ws_muid w) /\ s8 (UNPACK8 (PACK8 op)) = op.
Proof. destruct w as [[] [] [] [] [] []]; vm_compute; done. Qed.

Lemma wstat64_opt v pre x post op flag f d p :
  negb (Z.land op flag =? 0) = is_given x -> v = pre ++ opt64 x ++ post -> p = zlen pre ->
  wstat64 v op flag f (d, p) = Ok (upd_opt f u64 x d, zlen (pre ++ opt64 x)).
Proof.
  intros E -> ->. unfold wstat64. rewrite E. destruct x as [x|]; cbn [is_given opt64 upd_opt].
  - rewrite rd64_eq, (rd_skip pre _ (zlen pre) 8 0) by lia. rewrite rd_head by done. cbn [rbind].
    rewrite UNPACK64_PACK64, zlen_app. done.
  - by rewrite app_nil_r.
Qed.

Lemma wstat32_opt v pre x post op flag f d p :
  negb (Z.land op flag =? 0) = is_given x -> v = pre ++ opt32 x ++ post -> p = zlen pre ->
  wstat32 v op flag f (d, p) = Ok (upd_opt f u32 x d, zlen (pre ++ opt32 x)).
Proof.
  intros E -> ->. unfold wstat32. rewrite E. destruct x as [x|]; cbn [is_given opt32 upd_opt].
  - rewrite rd32_eq, (rd_skip pre _ (zlen pre) 4 0) by lia. rewrite rd_head by done. cbn [rbind].
    rewrite UNPACK32_PACK32, zlen_app. done.
  - by rewrite app_nil_r.
Qed.

Lemma upd_opt_s64 f x d : upd_opt (fun d v => f d (s64 v)) u64 x d = upd_opt f s64 x d.
Proof. destruct x; [|done]. cbn. by rewrite s64_u64. Qed.
Lemma upd_opt_s32 f x d : upd_opt (fun d v => f d (s32 v)) u32 x d = upd_opt f s32 x d.
Proof. destruct x; [|done]. cbn. by rewrite s32_u32. Qed.

Lemma statupdate_wst k v d w :
  kv2dir (mkKvp k v) = Ok d -> zlen v = 61 ->
  statupdate (mkKvp k v) (mkMsg Owstat k (wst_bytes w)) =
    Ok (mkKvp k (dval_bytes (wst_apply w d))).
Proof.
  intros Ed Hv. unfold statupdate. cbn [m_v kv_v kv_k].
  assert (Hb : rd (wst_bytes w) 0 1 = Ok (PACK8 (wst_op w))) by (unfold wst_bytes; by rewrite rd_head).
  rewrite Hb. cbn [rbind]. rewrite Ed. cbn [rbind].
  destruct (wst_op_flags w) as (F1 & F2 & F3 & F4 & F5 & F6 & F7 & F8). rewrite F8.
  erewrite (wstat64_opt (wst_bytes w) (PACK8 (wst_op w)) (ws_size w) _ _ _ _ _ 1 F1 eq_refl eq_refl). cbn [rbind].
  erewrite (wstat32_opt (wst_bytes w) (PACK8 (wst_op w) ++ opt64 (ws_size w)) (ws_mode w) _ _ _ _ _ _ F2); [|
    unfold wst_bytes; by rewrite <- app_assoc|done]. cbn [rbind]. rewrite <- app_assoc.
  erewrite (wstat64_opt (wst_bytes w) (PACK8 (wst_op w) ++ opt64 (ws_size w) ++ opt32 (ws_mode w)) (ws_mtime w)
    _ _ _ _ _ _ F3); [|unfold wst_bytes; by rewrite <- !app_assoc|done].
  cbn [rbind]. rewrite <- !app_assoc.
  unfold wstat64 at 1. rewrite F4. cbn [rbind].
  erewrite (wstat32_opt (wst_bytes w) (PACK8 (wst_op w) ++ opt64 (ws_size w) ++ opt32 (ws_mode w) ++ opt64 (ws_mtime w))
    (ws_uid w) _ _ _ _ _ _ F5); [|unfold wst_bytes; by rewrite <- !app_assoc|done].
  cbn [rbind]. rewrite <- !app_assoc.
  erewrite (wstat32_opt (wst_bytes w) (PACK8 (wst_op w) ++ opt64 (ws_size w) ++ opt32 (ws_mode w) ++ opt64 (ws_mtime w)
    ++ opt32 (ws_uid w)) (ws_gid w) _ _ _ _ _ _ F6); [|unfold wst_bytes; by rewrite <- !app_assoc|done].
  cbn [rbind]. rewrite <- !app_assoc.
  erewrite (wstat32_opt (wst_bytes w) (PACK8 (wst_op w) ++ opt64 (ws_size w) ++ opt32 (ws_mode w) ++ opt64 (ws_mtime w)
    ++ opt32 (ws_uid w) ++ opt32 (ws_gid w)) (ws_muid w) [] _ _ _ _ _ F7);
    [|unfold wst_bytes; by rewrite <- !app_assoc, app_nil_r|done].
  cbn [rbind]. rewrite <- !app_assoc. fold (wst_bytes w). rewrite Z.eqb_refl. cbn [negb].
  rewrite packdval_ok by lia. cbn [rbind]. do 3 f_equal. unfold wst_apply.
  by rewrite !upd_opt_s32, upd_opt_s64.
Qed.

Lemma kvals_wst k v d w nbuf :
  kv2dir (mkKvp k v) = Ok d -> zlen v = 61 ->
  kval_step (Some (mkKvp k v)) (mkMsg Owstat k (wst_bytes w)) nbuf =
    Ok (Some (mkKvp k (dval_bytes (wst_apply w d)))).
Proof.
  intros Ed Hv. unfold kval_step, apply. cbn [m_op].
  change (Owstat =? Odelete) with false. change ((Owstat =? Oclearb) || (Owstat =? Oclobber)) with false.
  change (Owstat =? Oinsert) with false. change (Owstat =? Owstat) with true. cbn iota.
  cbn [kv_k m_k]. rewrite keycmp_refl. change (0 =? 0) with true. cbn iota.
  by rewrite (statupdate_wst k v d w Ed Hv).
Qed.

(** An insertion replaces whatever was there. *)
Lemma kval_insert vo k v nbuf : zlen k + zlen v <= nbuf ->
  kval_step vo (mkMsg Oinsert k v) nbuf = Ok (Some (mkKvp k v)).
Proof.
  intros H. unfold kval_step, apply. cbn [m_op].
  change (Oinsert =? Odelete) with false. change ((Oinsert =? Oclearb) || (Oinsert =? Oclobber)) with false.
  change (Oinsert =? Oinsert) with true. cbn iota. unfold kv_of_msg. cbn [m_k m_v].
  rewrite cpkvp_ok by done. by destruct vo.
Qed.

Lemma kval_clear vo k nbuf op : op = Oclearb \/ op = Oclobber ->
  kval_step vo (mkMsg op k []) nbuf = Ok None.
Proof. intros [-> | ->]; by destruct vo. Qed.

Lemma wf_upd_opt f g x d :
  (forall v d, wf_xdir d -> wf_xdir (f d (g v))) -> wf_xdir d -> wf_xdir (upd_opt f g x d).
Proof. destruct x; cbn; auto. Qed.

Lemma wf_wst w d : wf_xdir d -> wf_xdir (wst_apply w d).
Proof.
  intros Hd. unfold wst_apply. repeat apply wf_upd_opt.
  7: { pose proof (u32_range (q_vers (d_qid d) + 1)).
       destruct Hd as (? & ? & ? & ? & ? & ? & ? & ? & ? & ? & ? & ? & ?).
       unfold is_byte in *; repeat split; cbn -[u32 Z.pow]; (done || lia). }
  all: clear d Hd; intros v d (? & ? & ? & ? & ? & ? & ? & ? & ? & ? & ? & ? & ?).
  all: pose proof (u32_range v); pose proof (s32_range v); pose proof (s64_range v);
    pose proof (u64_range v); pose proof (u8_byte (Z.shiftr (u32 v) 24)).
  all: unfold is_byte in *; repeat split; cbn -[u32 s32 s64 u64 u8 Z.pow Z.shiftr]; (assumption || lia).
Qed.

Lemma wst_name w d : d_name (wst_apply w d) = d_name d.
Proof. by destruct w as [[] [] [] [] [] []]. Qed.
