(* ===== verification/File.v ===== *)
(** * File contents (src/fs.c: [readb], [writeb], [readfile], [fswrite], the
    clearing loop of [runsweep])

    A file is the set of data blocks whose pointers the tree holds under the
    keys [Kdat, qid path, offset], and a length in its directory entry.  A
    block that is not there reads as zeros.  The data blocks themselves are
    behind the interface [DataBlks]: allocation, reading and writing of raw
    blocks, as src/blk.c offers them.  A data block never changes once it is
    queued; its hash is in the pointer. *)
From S2P Require Import Prelude CInt Mem Data Keys Hash Pack Apply Upsert Lookup Mst Kv Entry.

(** ** What src/blk.c offers *)

Class DataBlks (D : Type) := {
  (** [newdblk]: the address of a block that was free and what its buffer
      happens to hold *)
  dnew : D -> Z -> bool -> res (Z * list Z * D);
  (** [enqueue] *)
  dput : D -> Z -> list Z -> D;
  (** [freebp] *)
  dfree : D -> Z -> D;
  (** [getblk(bp, GBraw)] *)
  draw : D -> Bptr -> res (list Z);
  (** the contents of the blocks in use *)
  dval : D -> Z -> option (list Z);
  blk_err : err -> Prop;
  dnew_ok d h s : postE blk_err (dnew d h s) (fun '(a, g, d') =>
    dval d a = None /\ 0 <= a < 2 ^ 63 /\ zlen g = Blksz /\
    dval d' a <> None /\ forall x, x <> a -> dval d' x = dval d x);
  dput_ok d a b x : dval (dput d a b) x = if decide (x = a) then Some b else dval d x;
  dfree_ok d a x : dval (dfree d a) x = if decide (x = a) then None else dval d x;
  draw_ok d bp b : dval d (bp_addr bp) = Some b -> postE blk_err (draw d bp) (fun b' => b' = b)
}.

Definition Max9p : Z := 32 * KiB.
Definition DMAPPEND : Z := 0x40000000.

(** [o & ~(Blksz-1)] and [o & (Blksz-1)] *)
Definition blkbase (o : Z) : Z := Z.land o (Z.lnot (Blksz - 1)).
Definition blkoff (o : Z) : Z := Z.land o (Blksz - 1).

(** The key of the block of file [q] at [fb]. *)
Definition datkey (q fb : Z) : list Z := PACK8 Kdat ++ PACK64 q ++ PACK64 fb.

Section file.
Context {T D : Type} `{!MsgTree T} `{!DataBlks D}.

(** The tree, the blocks and [length] of the open entry. *)
Record Fst := mkFst { f_tree : T; f_blks : D; f_len : Z }.

Definition set_tree (t : T) (s : Fst) : Fst := mkFst t (f_blks s) (f_len s).
Definition set_blks (d : D) (s : Fst) : Fst := mkFst (f_tree s) d (f_len s).
Definition set_len (n : Z) (s : Fst) : Fst := mkFst (f_tree s) (f_blks s) n.

Definition newdblk (h : Z) (seq : bool) : M Fst (Z * list Z) := fun s =>
  match dnew (f_blks s) h seq with
  | Ok (a, g, d) => (Ok (a, g), set_blks d s)
  | Err e => (Err e, s)
  end.

(** [upsert], on the tree of the mount [flag] belongs to.  A [btupsert] that
    fails may have put some of the messages into the tree. *)
Definition upsert (flag : Z) (ms : list Msg) : M Fst unit :=
  guard* negb (Z.land flag Lmut =? 0) else Erdonly in
  let* s := mget in
  let* t := if negb (t_nlbl (tdesc (f_tree s)) =? 1) || negb (t_nref (tdesc (f_tree s)) =? 0)
            then mlift (tfork (f_tree s)) else mret (f_tree s) in
  do* mmod (set_tree t) in
  let* t' := mcatch (mlift (tput t ms)) (fun e => do* mmod (set_tree (tfail t ms)) in merror e) in
  mmod (set_tree t').

(** ** Reading *)

(** The bytes that are stored at [d]. *)
Definition readb (s : Fst) (q o n sz : Z) : res (list Z) :=
  if sz <=? o then Ok [] else
  let fb := blkbase o in
  let fo := blkoff o in
  let n := if Blksz <? fo + n then Blksz - fo else n in
  let! r := tget (f_tree s) (datkey q fb) (Offksz + 32) in
  match r with
  | None => Ok (replicate (Z.to_nat n) 0)
  | Some kv =>
      let! bp := unpackbp (kv_v kv) (zlen (kv_v kv)) in
      let! b := draw (f_blks s) bp in
      rd b fo n
  end.

(** [while(c != 0)] *)
Fixpoint read_loop (fuel : nat) (s : Fst) (q o c len : Z) : res (list Z) :=
  match fuel with
  | O => Err Efuel
  | S fuel' =>
      if c =? 0 then Ok [] else
      let! p := readb s q o c (s64 len) in
      if zlen p =? 0 then Ok [] else
      let! r := read_loop fuel' s q (o + zlen p) (c - zlen p) len in
      Ok (p ++ r)
  end.

(** [readfile]; [len] is unsigned, so that the comparisons are too. *)
Definition readfile (s : Fst) (q offset count : Z) : res (list Z) :=
  let len := f_len s in
  if len <? u64 offset then Ok [] else
  let c := if len <? u64 (offset + count) then s64 (len - offset) else count in
  read_loop (S (Z.to_nat c)) s q offset c len.

(** ** Writing *)

(** [n] bytes at [p] go to offset [o]; gives the number written, the message
    and the pointer of the new block. *)
Definition writeb (q : Z) (p : list Z) (o n sz : Z) : M Fst (Z * Msg * Bptr) :=
  let fb := blkbase o in
  let fo := blkoff o in
  let* s := mget in
  let* (a, g) := newdblk q (Blksz <=? fo + n) in
  let* r := mlift (tget (f_tree s) (datkey q fb) Kvmax) in
  let* t := match r with
    | None => mret None
    | Some kv =>
        let* bp := mlift (unpackbp (kv_v kv) (zlen (kv_v kv))) in
        if (fb <? sz) && (negb (fo =? 0) || negb (n =? Blksz)) then
          let* s' := mget in
          let* b := mlift (draw (f_blks s') bp) in mret (Some b)
        else mret None
    end in
  let n := if Blksz <? fo + n then Blksz - fo else n in
  let* src := mlift (rd p 0 n) in
  let* buf := mlift (wr (match t with Some b => b | None => g end) fo src) in
  let* buf := match t with
    | Some _ => mret buf
    | None => mlift (
        let! buf := if 0 <? fo then wr buf 0 (replicate (Z.to_nat fo) 0) else Ok buf in
        if fo + n <? Blksz
        then wr buf (fo + n) (replicate (Z.to_nat (Blksz - fo - n)) 0)
        else Ok buf)
    end in
  let* h := mlift (blkhash buf) in
  let bp := mkBptr a h (t_memgen (tdesc (f_tree s))) in
  do* mmod (fun s => set_blks (dput (f_blks s) a buf) s) in
  mret (n, mkMsg Oinsert (datkey q fb) (bp_bytes bp), bp).

(** [nelem(kv)] *)
Definition nwrite : Z := Max9p / Blksz + 2.

Definition free_all (bps : list Bptr) : M Fst unit :=
  mmod (fun s => set_blks (foldl (fun d bp => dfree d (bp_addr bp)) (f_blks s) bps) s).

(** [for(i = 0; c != 0; i++)], with the messages and pointers made so far;
    gives the messages and the offset behind the last byte.  [rdonly] is
    [fs->rdonly]. *)
Fixpoint write_loop (fuel : nat) (rdonly : bool) (q : Z) (p : list Z) (o c sz : Z) (ms : list Msg) (bps : list Bptr)
  : M Fst (list Msg * Z) :=
  match fuel with
  | O => merror Efuel
  | S fuel' =>
      if c =? 0 then mret (ms, o) else
      assert* zlen ms <? nwrite in
      assert* (zlen ms =? 0) || (Z.rem o Blksz =? 0) in
      let* (n, m, bp) := mcatch (writeb q p o c sz)
        (fun e => if rdonly then merror e else do* free_all bps in merror e) in
      write_loop fuel' rdonly q (drop (Z.to_nat n) p) (o + n) (c - n) sz (ms ++ [m]) (bps ++ [bp])
  end.

(** The [Owstat] message for the entry with key [k]. *)
Definition write_stat (k : list Z) (len o mtime uid : Z) : Msg :=
  let grow := len <? u64 o in
  mkMsg Owstat k
    (PACK8 (Z.lor (Z.lor (if grow then Owsize else 0) Owmtime) Owmuid) ++
     (if grow then PACK64 o else []) ++ PACK64 mtime ++ PACK32 uid).

(** The part of [fswrite] behind its checks; [k] and [mode] are fields of the
    entry, [now] is the clock.  [o] and the count [w] grow together. *)
Definition fswrite (rdonly : bool) (flag q uid : Z) (k : list Z) (mode now offset : Z) (data : list Z) : M Fst Z :=
  let* s := mget in
  let len := f_len s in
  let o := if negb (Z.land mode DMAPPEND =? 0) then s64 len else offset in
  let* (ms, o') := write_loop (S (length data)) rdonly q data o (zlen data) (s64 len) [] [] in
  assert* zlen ms <? nwrite in
  do* mmod (set_len (if len <? u64 o' then u64 o' else len)) in
  do* upsert flag (ms ++ [write_stat k len o' now uid]) in
  mret (o' - o).

(** ** Clearing *)

(** [nelem(mb)] *)
Definition nclear : Z := Kvmax / Offksz.

(** The loop of [AOclear]; [ms] is the batch. *)
Fixpoint clear_loop (fuel : nat) (flag q off end_ : Z) (ms : list Msg) : M Fst unit :=
  match fuel with
  | O => merror Efuel
  | S fuel' =>
      if off <? end_ then
        let ms := ms ++ [mkMsg Oclearb (datkey q off) []] in
        if (nclear <=? zlen ms) || (end_ <=? off + Blksz) then
          do* upsert flag ms in clear_loop fuel' flag q (off + Blksz) end_ []
        else clear_loop fuel' flag q (off + Blksz) end_ ms
      else mret tt
  end.

Definition clear (flag q off end_ : Z) : M Fst unit :=
  clear_loop (S (Z.to_nat ((end_ - off + Blksz - 1) / Blksz))) flag q off end_ [].

(** ** Offsets and keys *)

Lemma Blksz_val : Blksz = 16384.
Proof. done. Qed.

Lemma blkoff_mod o : blkoff o = o mod Blksz.
Proof.
  unfold blkoff. change (Blksz - 1) with (Z.ones 14). rewrite Z.land_ones by lia. done.
Qed.

Lemma blkbase_eq o : blkbase o = o - o mod Blksz.
Proof.
  unfold blkbase. change (Blksz - 1) with (Z.ones 14).
  rewrite <- Z.ldiff_land, Z.ldiff_ones_r, Z.shiftl_mul_pow2, Z.shiftr_div_pow2 by lia.
  pose proof (Z.div_mod o (2 ^ 14) ltac:(lia)). change Blksz with (2 ^ 14). lia.
Qed.

Lemma blkoff_range o : 0 <= blkoff o < Blksz.
Proof. rewrite blkoff_mod. by apply Z.mod_pos_bound. Qed.

Lemma blk_split o : o = blkbase o + blkoff o.
Proof. rewrite blkbase_eq, blkoff_mod. lia. Qed.

Lemma blkbase_mult o : blkbase o mod Blksz = 0.
Proof.
  rewrite blkbase_eq. rewrite Zminus_mod, Z.mod_mod, Z.sub_diag by done. done.
Qed.

(** An aligned offset [fb] and a byte of its block. *)
Lemma blk_of fb j : fb mod Blksz = 0 -> 0 <= j < Blksz -> blkbase (fb + j) = fb /\ blkoff (fb + j) = j.
Proof.
  intros Hfb Hj. assert (E : (fb + j) mod Blksz = j).
  { rewrite Z.add_mod, Hfb, Z.add_0_l, Z.mod_mod by done. by apply Z.mod_small. }
  rewrite blkbase_eq, blkoff_mod, E. lia.
Qed.

Lemma blkbase_in o j : 0 <= j -> blkoff o + j < Blksz -> blkbase (o + j) = blkbase o.
Proof.
  intros Hj Hlt. rewrite (blk_split o) at 1. rewrite <- Z.add_assoc.
  pose proof (blkoff_range o). apply blk_of; [apply blkbase_mult|lia].
Qed.

Lemma blkoff_in o j : 0 <= j -> blkoff o + j < Blksz -> blkoff (o + j) = blkoff o + j.
Proof.
  intros Hj Hlt. rewrite (blk_split o) at 1. rewrite <- Z.add_assoc.
  pose proof (blkoff_range o). apply blk_of; [apply blkbase_mult|lia].
Qed.

Lemma blk_aligned o : o mod Blksz = 0 -> blkbase o = o /\ blkoff o = 0.
Proof. intros H. pose proof (blk_of o 0 H ltac:(done)) as [E1 E2]. by rewrite Z.add_0_r in E1, E2. Qed.

(** The last block of the largest offset is complete. *)
Lemma blkbase_top o : o < 2 ^ 63 -> blkbase o + Blksz <= 2 ^ 63.
Proof.
  intros Ho. rewrite blkbase_eq. pose proof (Z.div_mod o Blksz ltac:(done)) as E.
  pose proof (Z.div_lt_upper_bound o Blksz (2 ^ 49) ltac:(done) Ho). rewrite Blksz_val in *. lia.
Qed.

Lemma blkbase_range i : 0 <= i -> 0 <= blkbase i <= i.
Proof.
  intros Hi. rewrite blkbase_eq. pose proof (Z.mod_le i Blksz Hi ltac:(done)).
  pose proof (Z.mod_pos_bound i Blksz ltac:(done)). lia.
Qed.

Lemma aligned_le off i : off mod Blksz = 0 -> off <= i -> off <= blkbase i.
Proof.
  intros Ha Hi. rewrite blkbase_eq. pose proof (Z.div_mod i Blksz ltac:(done)).
  pose proof (Z.div_mod off Blksz ltac:(done)). pose proof (Z.div_le_mono off i Blksz ltac:(done) Hi).
  rewrite Blksz_val in *. lia.
Qed.

Lemma datkey_inj q q' fb fb' :
  datkey q fb = datkey q' fb' -> u64 q = u64 q' /\ u64 fb = u64 fb'.
Proof.
  unfold datkey. intros E. apply app_inj_1 in E as [_ E]; [|done].
  apply app_inj_1 in E as [E1 E2]; [|done]. split; by apply PACK64_inj.
Qed.

Lemma zlen_datkey q fb : zlen (datkey q fb) = Offksz.
Proof. done. Qed.

(** ** What a state stores *)

(** The contents of the block of [q] at [fb], and a byte of the file. *)
Definition fblk (s : Fst) (q fb : Z) : option (list Z) :=
  match tval (f_tree s) (datkey q fb) with
  | Some kv => match unpackbp (kv_v kv) (zlen (kv_v kv)) with
               | Ok bp => dval (f_blks s) (bp_addr bp)
               | Err _ => None
               end
  | None => None
  end.

Definition fbyte (s : Fst) (q i : Z) : Z :=
  match fblk s q (blkbase i) with
  | Some b => nth (Z.to_nat (blkoff i)) b 0
  | None => 0
  end.

Definition fbytes (s : Fst) (q o n : Z) : list Z := fbyte s q <$> seqZ o n.

(** The pair under a data key points to a block in use. *)
Definition ptr_ok (s : Fst) (kv : Kvp) : Prop :=
  exists bp b, unpackbp (kv_v kv) (zlen (kv_v kv)) = Ok bp /\
    dval (f_blks s) (bp_addr bp) = Some b /\ zlen b = Blksz.

Record data_ok (s : Fst) : Prop := {
  do_tree : tree_ok (f_tree s);
  do_fits q fb : tfits (f_tree s) (datkey q fb) (Offksz + Ptrsz);
  do_ptr q fb kv : tval (f_tree s) (datkey q fb) = Some kv -> ptr_ok s kv }.

(** Errors that the layers below may raise. *)
Definition low_err (e : err) : Prop := tree_err e \/ blk_err e.

Lemma fblk_len s q fb b : data_ok s -> fblk s q fb = Some b -> zlen b = Blksz.
Proof.
  intros Hs. unfold fblk. destruct (tval _ _) as [kv|] eqn:E; [|done].
  destruct (do_ptr s Hs _ _ _ E) as (bp & b' & -> & -> & Hl). by intros [= <-].
Qed.

Lemma fbytes_app s q o n m : 0 <= n -> 0 <= m ->
  fbytes s q o (n + m) = fbytes s q o n ++ fbytes s q (o + n) m.
Proof. intros. unfold fbytes. by rewrite seqZ_app, fmap_app by done. Qed.

Lemma zlen_fbytes s q o n : zlen (fbytes s q o n) = Z.max 0 n.
Proof. unfold zlen, fbytes. rewrite length_fmap, length_seqZ. lia. Qed.

(** Within one block. *)
Lemma fbytes_blk s q o n :
  data_ok s -> 0 <= n -> blkoff o + n <= Blksz ->
  fbytes s q o n =
    match fblk s q (blkbase o) with
    | Some b => take (Z.to_nat n) (drop (Z.to_nat (blkoff o)) b)
    | None => replicate (Z.to_nat n) 0
    end.
Proof.
  intros Hs Hn Hle. pose proof (blkoff_range o) as Ho. apply list_eq. intros j.
  destruct (decide (j < Z.to_nat n)%nat) as [Hj|Hj].
  - unfold fbytes. rewrite list_lookup_fmap, lookup_seqZ_lt by lia. cbn [fmap option_fmap option_map].
    unfold fbyte. rewrite (blkbase_in o), (blkoff_in o) by lia.
    destruct (fblk s q (blkbase o)) as [b|] eqn:E; [|by rewrite lookup_replicate_2].
    pose proof (fblk_len s q _ b Hs E) as Hl. unfold zlen in Hl.
    rewrite lookup_take_lt, lookup_drop by lia.
    rewrite Z2Nat.inj_add, Nat2Z.id by lia.
    destruct (lookup_lt_is_Some_2 b (Z.to_nat (blkoff o) + j)%nat) as [x Hx]; [lia|].
    rewrite Hx. f_equal. by apply nth_lookup_Some.
  - rewrite lookup_ge_None_2 by (unfold fbytes; rewrite length_fmap, length_seqZ; lia).
    symmetry. apply lookup_ge_None_2. destruct (fblk s q (blkbase o)).
    + rewrite length_take. lia.
    + rewrite length_replicate. lia.
Qed.

(** ** Reading *)

Lemma readb_ok s q o n sz :
  data_ok s -> 0 <= n -> o < sz ->
  postE low_err (readb s q o n sz) (fun p => p = fbytes s q o (Z.min n (Blksz - blkoff o))).
Proof.
  intros Hs Hn Ho. pose proof (blkoff_range o) as Hr. unfold readb.
  rewrite (proj2 (Z.leb_gt _ _)) by done. cbv zeta.
  set (n' := if Blksz <? blkoff o + n then _ else _).
  assert (En : n' = Z.min n (Blksz - blkoff o)) by (unfold n'; zif; lia).
  rewrite En. clearbody n'. clear En n'. set (n' := Z.min n (Blksz - blkoff o)).
  rewrite fbytes_blk by (done || lia).
  eapply postE_bind.
  { eapply postE_mono; [eapply postE_weaken; [|apply (tget_ok (f_tree s) (datkey q (blkbase o)))]|].
    - intros e He. by left.
    - apply Hs.
    - eapply tfits_mono; [|apply (do_fits s Hs)]. done.
    - intros r Hr'. exact Hr'. }
  intros r ->. unfold fblk. destruct (tval _ _) as [kv|] eqn:E; [|done].
  destruct (do_ptr s Hs _ _ _ E) as (bp & b & Eb & Ev & Hl). rewrite Eb, Ev. cbn [rbind].
  eapply postE_bind; [eapply postE_weaken; [|by apply draw_ok]; intros e He; by right|].
  intros b' ->. rewrite rd_in by lia. done.
Qed.

Lemma read_loop_ok fuel : forall s q o c len,
  data_ok s -> 0 <= c -> o + c <= s64 len -> c < Z.of_nat fuel ->
  postE low_err (read_loop fuel s q o c len) (fun p => p = fbytes s q o c).
Proof.
  induction fuel as [|fuel IH]; intros s q o c len Hs Hc Hle Hf; [lia|]. cbn [read_loop].
  destruct (Z.eqb_spec c 0) as [->|Hc0]; [done|].
  pose proof (blkoff_range o) as Hr.
  eapply postE_bind; [apply readb_ok; [done|done|lia]|]. intros p ->.
  set (n := Z.min c (Blksz - blkoff o)). rewrite zlen_fbytes.
  rewrite (proj2 (Z.eqb_neq _ 0)) by lia. rewrite (Z.max_r 0 n) by lia.
  eapply postE_bind; [apply IH; [done|lia|lia|lia]|].
  intros r ->. cbn. rewrite <- fbytes_app by lia. f_equal. lia.
Qed.

Lemma readfile_ok s q offset count :
  data_ok s -> 0 <= f_len s < 2 ^ 63 -> 0 <= offset < 2 ^ 63 -> 0 <= count < 2 ^ 32 ->
  postE low_err (readfile s q offset count)
    (fun p => p = fbytes s q offset (Z.min count (f_len s - offset))).
Proof.
  intros Hs Hl Ho Hc. unfold readfile. cbv zeta. rewrite !u64_small by lia.
  destruct (Z.ltb_spec (f_len s) offset).
  - cbn. unfold fbytes. rewrite seqZ_nil by lia. done.
  - set (c := if f_len s <? offset + count then _ else _).
    assert (Ec : c = Z.min count (f_len s - offset)).
    { unfold c. zif; [rewrite s64_small by lia|]; lia. }
    rewrite Ec. apply read_loop_ok; [done|lia|rewrite s64_small by lia; lia|lia].
Qed.

(** ** Writing one block *)

(** Allocation and queueing leave the tree, the length and the blocks in use
    as they are. *)
Definition ext (s s' : Fst) : Prop :=
  f_tree s' = f_tree s /\ f_len s' = f_len s /\
  forall a b, dval (f_blks s) a = Some b -> dval (f_blks s') a = Some b.

Lemma ext_refl s : ext s s.
Proof. done. Qed.
Lemma ext_trans s1 s2 s3 : ext s1 s2 -> ext s2 s3 -> ext s1 s3.
Proof. intros (E1 & E2 & H) (E3 & E4 & H'). repeat split; [congruence|congruence|auto]. Qed.

Lemma ext_ptr s s' kv : ext s s' -> ptr_ok s kv -> ptr_ok s' kv.
Proof. intros (_ & _ & H) (bp & b & E1 & E2 & E3). exists bp, b. auto. Qed.

Lemma ext_data s s' : ext s s' -> data_ok s -> data_ok s'.
Proof.
  intros He [H1 H2 H3]. pose proof He as (E1 & _ & _). split; rewrite ?E1; [done|done|].
  intros q fb kv E. eapply ext_ptr; [done|by eapply H3].
Qed.

Lemma ext_fblk s s' q fb : data_ok s -> ext s s' -> fblk s' q fb = fblk s q fb.
Proof.
  intros Hs (E1 & _ & H). unfold fblk. rewrite E1. destruct (tval _ _) as [kv|] eqn:E; [|done].
  destruct (do_ptr s Hs _ _ _ E) as (bp & b & -> & E2 & _). by rewrite E2, (H _ _ E2).
Qed.

Lemma ext_fbyte s s' q i : data_ok s -> ext s s' -> fbyte s' q i = fbyte s q i.
Proof. intros Hs He. unfold fbyte. by rewrite (ext_fblk s s'). Qed.

(** Nothing is stored behind the end. *)
Definition clean (s : Fst) (q n : Z) : Prop := forall i, n <= i < 2 ^ 63 -> fbyte s q i = 0.

(** The bytes of file [q] when [p] is written at [o]. *)
Definition wbyte (s : Fst) (q o : Z) (p : list Z) (i : Z) : Z :=
  if (o <=? i) && (i <? o + zlen p) then nth (Z.to_nat (i - o)) p 0 else fbyte s q i.

(** A block that holds the bytes [g] of a file from [fb] on. *)
Definition holds (b : list Z) (fb : Z) (g : Z -> Z) : Prop :=
  zlen b = Blksz /\ forall j, 0 <= j < Blksz -> nth (Z.to_nat j) b 0 = g (fb + j).

Lemma nth_wr b o src b' j :
  wr b o src = Ok b' -> 0 <= j < zlen b ->
  nth (Z.to_nat j) b' 0 =
    if (o <=? j) && (j <? o + zlen src) then nth (Z.to_nat (j - o)) src 0 else nth (Z.to_nat j) b 0.
Proof.
  intros (H1 & H2 & ->)%wr_inv Hj. unfold zlen in *.
  destruct (Z.leb_spec o j) as [Ho|Ho]; cbn [andb].
  - rewrite app_nth2 by (rewrite length_take; lia). rewrite length_take, Nat.min_l by lia.
    destruct (Z.ltb_spec j (o + Z.of_nat (length src))) as [Hlt|Hge].
    + rewrite app_nth1 by lia. f_equal. lia.
    + rewrite app_nth2 by lia. rewrite List.nth_skipn. f_equal. lia.
  - rewrite app_nth1 by (rewrite length_take; lia). rewrite List.nth_firstn. rewrite (proj2 (Nat.ltb_lt _ _)) by lia. done.
Qed.

Lemma nth_zeros n j : nth j (replicate n 0) 0 = 0.
Proof. revert j. induction n as [|n IH]; intros [|j]; cbn; auto. Qed.

(** The buffer of a block that was not loaded, zeroed around the new bytes. *)
Lemma zero_around g fo n (src buf : list Z) :
  zlen g = Blksz -> 0 <= fo -> 0 <= n -> fo + n <= Blksz -> zlen src = n -> wr g fo src = Ok buf ->
  postE (fun _ => False)
    (let! b := if 0 <? fo then wr buf 0 (replicate (Z.to_nat fo) 0) else Ok buf in
     if fo + n <? Blksz then wr b (fo + n) (replicate (Z.to_nat (Blksz - fo - n)) 0) else Ok b)
    (fun b => zlen b = Blksz /\ forall j, 0 <= j < Blksz ->
       nth (Z.to_nat j) b 0 = if (fo <=? j) && (j <? fo + n) then nth (Z.to_nat (j - fo)) src 0 else 0).
Proof.
  intros Hg Hfo Hn Hle Hsrc E.
  assert (Hl : zlen buf = Blksz) by (by rewrite (wr_zlen _ _ _ _ E)).
  eapply postE_bind with (Q := fun b => zlen b = Blksz /\ forall j, 0 <= j < fo + n ->
       nth (Z.to_nat j) b 0 = if fo <=? j then nth (Z.to_nat (j - fo)) src 0 else 0).
  - assert (Hb : forall j, 0 <= j < fo + n ->
       nth (Z.to_nat j) buf 0 = if fo <=? j then nth (Z.to_nat (j - fo)) src 0 else nth (Z.to_nat j) g 0).
    { intros j Hj. rewrite (nth_wr g fo src buf j E) by lia. rewrite Hsrc.
      destruct (Z.leb_spec fo j); cbn [andb]; [|done]. by rewrite (proj2 (Z.ltb_lt _ _)) by lia. }
    destruct (Z.ltb_spec 0 fo) as [H0|H0].
    + assert (Hz : zlen (replicate (Z.to_nat fo) 0) = fo) by (rewrite zlen_replicate; lia).
      destruct (wr_ok buf 0 (replicate (Z.to_nat fo) 0)) as (b & Eb & Hlb); [lia|lia|].
      rewrite Eb. cbn. split; [lia|]. intros j Hj. rewrite (nth_wr _ _ _ _ j Eb) by lia. rewrite Hz.
      rewrite (proj2 (Z.leb_le 0 j)) by lia. cbn [andb].
      destruct (Z.ltb_spec j (0 + fo)); destruct (Z.leb_spec fo j); try lia; [apply nth_zeros|].
      rewrite Hb by lia. by rewrite (proj2 (Z.leb_le fo j)) by lia.
    + cbn. split; [done|]. intros j Hj. rewrite Hb by done. by rewrite (proj2 (Z.leb_le fo j)) by lia.
  - intros b [Hlb Hb]. destruct (Z.ltb_spec (fo + n) Blksz) as [H0|H0].
    + assert (Hz : zlen (replicate (Z.to_nat (Blksz - fo - n)) 0) = Blksz - fo - n)
        by (rewrite zlen_replicate; lia).
      destruct (wr_ok b (fo + n) (replicate (Z.to_nat (Blksz - fo - n)) 0)) as (b' & Eb & Hlb'); [lia|lia|].
      rewrite Eb. cbn. split; [lia|]. intros j Hj. rewrite (nth_wr _ _ _ _ j Eb) by lia. rewrite Hz.
      destruct (Z.leb_spec (fo + n) j); cbn [andb].
      * rewrite (proj2 (Z.ltb_lt _ _)) by lia. rewrite nth_zeros.
        rewrite (proj2 (Z.ltb_ge j (fo + n))) by lia. by rewrite andb_false_r.
      * rewrite Hb by lia. rewrite (proj2 (Z.ltb_lt j (fo + n))) by lia. by rewrite andb_true_r.
    + cbn. split; [done|]. intros j Hj. rewrite Hb by lia.
      rewrite (proj2 (Z.ltb_lt j (fo + n))) by lia. by rewrite andb_true_r.
Qed.

(** What [writeb] leaves in the new block. *)
Definition new_block (s : Fst) (q o w : Z) (p b : list Z) : Prop :=
  zlen b = Blksz /\ forall j, 0 <= j < Blksz -> nth (Z.to_nat j) b 0 =
    if (blkoff o <=? j) && (j <? blkoff o + w) then nth (Z.to_nat (j - blkoff o)) p 0
    else fbyte s q (blkbase o + j).

Lemma fbyte_in s q o j : 0 <= j < Blksz ->
  fbyte s q (blkbase o + j) =
    match fblk s q (blkbase o) with Some b => nth (Z.to_nat j) b 0 | None => 0 end.
Proof.
  intros Hj. unfold fbyte. destruct (blk_of (blkbase o) j (blkbase_mult o) Hj) as [-> ->]. done.
Qed.

Lemma new_block_ok s q p o n sz (g src buf : list Z) (t : option (list Z)) (w : Z) :
  data_ok s -> clean s q sz -> 0 < n -> o < 2 ^ 63 -> zlen g = Blksz ->
  w = Z.min n (Blksz - blkoff o) -> w <= zlen p -> rd p 0 w = Ok src ->
  (t = None -> fblk s q (blkbase o) = None \/ sz <= blkbase o \/ (blkoff o = 0 /\ n = Blksz)) ->
  (forall b, t = Some b -> fblk s q (blkbase o) = Some b) ->
  wr (match t with Some b => b | None => g end) (blkoff o) src = Ok buf ->
  postE (fun _ => False)
    (match t with Some _ => Ok buf | None =>
       let! b := if 0 <? blkoff o then wr buf 0 (replicate (Z.to_nat (blkoff o)) 0) else Ok buf in
       if blkoff o + w <? Blksz
       then wr b (blkoff o + w) (replicate (Z.to_nat (Blksz - blkoff o - w)) 0) else Ok b end)
    (new_block s q o w p).
Proof.
  intros Hs Hc Hn Ho Hg Hw Hp Er Ht0 Ht Ew. pose proof (blkoff_range o) as Hfo.
  pose proof (blkbase_top o Ho) as Htop.
  assert (Hsrc : zlen src = w) by by eapply rd_zlen.
  assert (Hps : forall j, 0 <= j < w -> nth (Z.to_nat j) src 0 = nth (Z.to_nat j) p 0).
  { intros j Hj. apply rd_inv in Er as (_ & _ & _ & ->). change (Z.to_nat 0) with 0%nat. rewrite drop_0.
    rewrite List.nth_firstn. by rewrite (proj2 (Nat.ltb_lt _ _)) by lia. }
  destruct t as [b|].
  - specialize (Ht b eq_refl). pose proof (fblk_len s q _ b Hs Ht) as Hl. cbn. split.
    { by rewrite (wr_zlen _ _ _ _ Ew). }
    intros j Hj. rewrite (nth_wr _ _ _ _ j Ew) by lia. rewrite Hsrc.
    destruct (Z.leb_spec (blkoff o) j), (Z.ltb_spec j (blkoff o + w)); cbn [andb];
      try (by rewrite fbyte_in, Ht by done). rewrite Hps by lia. done.
  - eapply postE_mono; [apply (zero_around g (blkoff o) w src buf); [done|lia|lia|lia|exact Hsrc|exact Ew]|].
    intros b [Hlb Hb]. split; [done|]. intros j Hj. rewrite Hb by done.
    destruct (Z.leb_spec (blkoff o) j) as [H1|H1], (Z.ltb_spec j (blkoff o + w)) as [H2|H2]; cbn [andb];
      [by rewrite Hps by lia|symmetry..].
    all: destruct (Ht0 eq_refl) as [E|[E|[E1 E2]]]; [by rewrite fbyte_in, E by done|apply Hc; lia|lia].
Qed.

Lemma writeb_ok s q p o n sz :
  data_ok s -> clean s q sz -> 0 < n -> n <= zlen p -> o < 2 ^ 63 ->
  mpost (writeb q p o n sz) s (fun e s' => low_err e /\ ext s s')
    (fun '(w, m, bp) s' => w = Z.min n (Blksz - blkoff o) /\
       m = mkMsg Oinsert (datkey q (blkbase o)) (bp_bytes bp) /\ wf_bptr bp /\ ext s s' /\
       dval (f_blks s) (bp_addr bp) = None /\
       exists b, dval (f_blks s') (bp_addr bp) = Some b /\ new_block s q o w p b).
Proof.
  intros Hs Hc Hn Hp Ho. pose proof (blkoff_range o) as Hfo. unfold writeb. cbv zeta.
  eapply mpost_bind with (Q' := fun s1 s2 => s1 = s /\ s2 = s); [done|]. intros ? ? [-> ->].
  (* the new block *)
  eapply mpost_bind with (Q' := fun '(a, g) s' => dval (f_blks s) a = None /\ 0 <= a < 2 ^ 63 /\
     zlen g = Blksz /\ dval (f_blks s') a <> None /\ ext s s').
  { unfold mpost, newdblk. pose proof (dnew_ok (f_blks s) q (Blksz <=? blkoff o + n)) as Hd.
    destruct (dnew _ _ _) as [[[a g] d]|e]; cbn in Hd |- *.
    - destruct Hd as (H1 & H2 & H3 & H4 & H5). split; [done|]. split; [done|]. split; [done|].
      split; [done|]. split; [done|]. split; [done|]. cbn. intros x b Hx.
      rewrite H5; [done|congruence].
    - split; [by right|apply ext_refl]. }
  intros [a g] s1 (Ha & Har & Hg & Ha1 & He1).
  (* the old pointer *)
  eapply mpost_bind with (Q' := fun r s' => r = tval (f_tree s) (datkey q (blkbase o)) /\ s' = s1).
  { apply mpost_lift. eapply postE_weaken; [|eapply postE_mono; [apply tget_ok|]].
    - intros e He. split; [by left|done].
    - apply Hs.
    - eapply tfits_mono; [|apply (do_fits s Hs)]. done.
    - by intros r ->. }
  intros r s2 [-> ->].
  (* the old block *)
  eapply mpost_bind with (Q' := fun t s' => s' = s1 /\
    (t = None -> fblk s q (blkbase o) = None \/ sz <= blkbase o \/ (blkoff o = 0 /\ n = Blksz)) /\
    (forall b, t = Some b -> fblk s q (blkbase o) = Some b)).
  { destruct (tval (f_tree s) (datkey q (blkbase o))) as [kv|] eqn:Ekv.
    2:{ apply mpost_ret. split; [done|]. split; [|done]. intros _. left. unfold fblk. by rewrite Ekv. }
    destruct (do_ptr s Hs _ _ _ Ekv) as (bp & b & Eb & Ev & Hl).
    assert (Efb : fblk s q (blkbase o) = Some b) by (unfold fblk; by rewrite Ekv, Eb).
    eapply mpost_bind with (Q' := fun x s' => x = bp /\ s' = s1); [by apply mpost_lift_ok with bp|].
    intros ? ? [-> ->]. destruct ((blkbase o <? sz) && _) eqn:Ecnd.
    - eapply mpost_bind with (Q' := fun x s' => x = s1 /\ s' = s1); [done|]. intros ? ? [-> ->].
      eapply mpost_bind with (Q' := fun x s' => x = b /\ s' = s1).
      + apply mpost_lift. eapply postE_weaken; [|eapply postE_mono; [apply draw_ok|]].
        * intros e He. split; [by right|done].
        * by apply He1.
        * by intros ? ->.
      + intros ? ? [-> ->]. apply mpost_ret. split; [done|]. split; [done|]. by intros ? [= <-].
    - apply mpost_ret. split; [done|]. split; [|done]. intros _. right.
      apply andb_false_iff in Ecnd as [E|[E1 E2]%orb_false_iff]; zb; [left; lia|by right]. }
  intros t s2 (-> & Ht0 & Ht).
  set (w := if Blksz <? blkoff o + n then _ else _).
  assert (Hw : w = Z.min n (Blksz - blkoff o)) by (unfold w; zif; lia). clearbody w.
  destruct (rd_ok p 0 w) as (src & Er & Hsrc); [lia|lia|lia|].
  eapply mpost_bind with (Q' := fun x s' => x = src /\ s' = s1); [by apply mpost_lift_ok with src|].
  intros ? ? [-> ->].
  assert (Hlt : zlen (match t with Some b => b | None => g end) = Blksz).
  { destruct t as [b|]; [|done]. by eapply fblk_len, Ht. }
  destruct (wr_ok (match t with Some b => b | None => g end) (blkoff o) src) as (buf & Ew & _); [lia|lia|].
  eapply mpost_bind with (Q' := fun x s' => x = buf /\ s' = s1); [by apply mpost_lift_ok with buf|].
  intros ? ? [-> ->].
  eapply mpost_bind with (Q' := fun x s' => new_block s q o w p x /\ s' = s1).
  { pose proof (new_block_ok s q p o n sz g src buf t w Hs Hc Hn Ho Hg Hw ltac:(lia) Er Ht0 Ht Ew) as Hb.
    destruct t as [b|]; [done|]. apply mpost_lift. eapply postE_weaken; [|eapply postE_mono; [exact Hb|]]; done. }
  intros b s2 [Hb ->]. destruct (blkhash_ok b (proj1 Hb)) as (h & Eh & Hh).
  eapply mpost_bind with (Q' := fun x s' => x = h /\ s' = s1); [by apply mpost_lift_ok with h|].
  intros ? ? [-> ->]. set (bp := mkBptr a h _).
  eapply mpost_bind with (Q' := fun _ s' => s' = set_blks (dput (f_blks s1) a b) s1); [done|].
  intros _ ? ->. apply mpost_ret. split; [done|]. split; [done|].
  split. { split; [cbn; lia|]. split; [done|]. apply tgen_ok, Hs. }
  split.
  { destruct He1 as (E1 & E2 & E3). split; [done|]. split; [done|]. intros x c Hx. cbn.
    rewrite dput_ok. rewrite decide_False by congruence. auto. }
  split; [done|]. exists b. split; [|done]. cbn. by rewrite dput_ok, decide_True.
Qed.

(** ** The write loop *)

Definition ins_msg (q : Z) (x : Z * Bptr) : Msg :=
  mkMsg Oinsert (datkey q x.1) (bp_bytes x.2).

(** Blocks [ws] were written for the range from [o0] to [o]: in [s] they hold
    what the file will be, in [s0] their addresses were free. *)
Record pend (s0 s : Fst) (q o0 : Z) (p : list Z) (o : Z) (ws : list (Z * Bptr)) : Prop := {
  pd_ext : ext s0 s;
  pd_nodup : NoDup (fst <$> ws);
  pd_blk : Forall (fun x => 0 <= x.1 <= o /\ x.1 mod Blksz = 0 /\ wf_bptr x.2 /\
    dval (f_blks s0) (bp_addr x.2) = None /\
    exists b, dval (f_blks s) (bp_addr x.2) = Some b /\ holds b x.1 (wbyte s0 q o0 p)) ws;
  pd_all : forall i, o0 <= i < o -> blkbase i ∈ (fst <$> ws);
  pd_len : zlen ws * Blksz < o - blkbase o0 + Blksz }.

Lemma pend_nil s q o p : pend s s q o p o [].
Proof.
  split; [apply ext_refl|constructor|constructor|lia|]. rewrite (@zlen_nil (Z * Bptr)).
  pose proof (blkoff_range o). pose proof (blk_split o). lia.
Qed.

Lemma free_all_ok s0 s bps :
  ext s0 s -> Forall (fun bp => dval (f_blks s0) (bp_addr bp) = None) bps ->
  ext s0 (set_blks (foldl (fun d bp => dfree d (bp_addr bp)) (f_blks s) bps) s).
Proof.
  intros He Hb. revert s He. induction bps as [|bp bps IH]; intros s He.
  { by destruct s. }
  apply Forall_cons in Hb as [Hbp Hb]. cbn [foldl].
  apply (IH Hb (set_blks (dfree (f_blks s) (bp_addr bp)) s)).
  destruct He as (E1 & E2 & E3). split; [done|]. split; [done|]. intros a b Ha. cbn.
  rewrite dfree_ok, decide_False by congruence. auto.
Qed.

(** One more block. *)
Lemma pend_step s0 s s' q o0 p o ws w bp b :
  data_ok s0 -> pend s0 s q o0 p o ws -> 0 <= o0 <= o ->
  w = Z.min (o0 + zlen p - o) (Blksz - blkoff o) -> 0 < o0 + zlen p - o ->
  Forall (fun x => x.1 + Blksz <= o) ws -> (o = o0 \/ blkoff o = 0) ->
  zlen ws * Blksz = blkbase o - blkbase o0 ->
  ext s s' -> wf_bptr bp -> dval (f_blks s) (bp_addr bp) = None ->
  dval (f_blks s') (bp_addr bp) = Some b ->
  new_block s q o w (drop (Z.to_nat (o - o0)) p) b ->
  pend s0 s' q o0 p (o + w) (ws ++ [(blkbase o, bp)]).
Proof.
  intros Hs0 [H1 H2 H3 H4 H5] Ho Hw Hc Hlt Hal Hlen He Hwf Hfree Hb [Hlb Hnth].
  pose proof (blkoff_range o) as Hr. pose proof (blk_split o) as Hsp.
  assert (He0 : ext s0 s') by by eapply ext_trans. split.
  - done.
  - rewrite fmap_app. apply NoDup_app. split; [done|]. split; [|apply NoDup_singleton].
    intros x (y & -> & Hy)%list_elem_of_fmap E%list_elem_of_singleton.
    rewrite Forall_forall in Hlt. specialize (Hlt y Hy). cbn in *. lia.
  - apply Forall_app. split.
    + eapply Forall_impl; [exact H3|]. intros x (G1 & G2 & G3 & G4 & c & G5 & G6). cbn beta.
      split; [lia|]. split; [done|]. split; [done|]. split; [done|]. exists c. split; [|done].
      by apply He.
    + constructor; [|constructor]. cbn. split; [rewrite blkbase_eq in *; pose proof (Z.mod_le o Blksz ltac:(lia) ltac:(done)); lia|].
      split; [apply blkbase_mult|]. split; [done|]. split.
      { destruct (dval (f_blks s0) (bp_addr bp)) as [c|] eqn:E; [|done].
        destruct H1 as (_ & _ & H1). by rewrite (H1 _ _ E) in Hfree. }
      exists b. split; [done|]. split; [done|]. intros j Hj. rewrite Hnth by done. unfold wbyte.
      rewrite (ext_fbyte s0 s q _ Hs0 H1).
      destruct (Z.leb_spec (blkoff o) j) as [J1|J1], (Z.ltb_spec j (blkoff o + w)) as [J2|J2]; cbn [andb].
      * rewrite (proj2 (Z.leb_le _ _)), (proj2 (Z.ltb_lt _ _)) by lia. cbn [andb].
        rewrite List.nth_skipn. f_equal. lia.
      * rewrite (proj2 (Z.ltb_ge _ _)) by lia. by rewrite andb_false_r.
      * rewrite (proj2 (Z.leb_gt _ _)) by lia. done.
      * lia.
  - intros i Hi. rewrite fmap_app. apply elem_of_app.
    destruct (decide (i < o)) as [Hio|Hio]; [left; apply H4; lia|right].
    apply list_elem_of_singleton. replace i with (o + (i - o)) by lia. cbn. apply blkbase_in; lia.
  - rewrite zlen_app, zlen_cons, zlen_nil. pose proof (blkoff_range o0). pose proof (blk_split o0).
    destruct Hal as [-> |]; lia.
Qed.

Lemma write_loop_ok rdonly s0 q o0 p sz :
  data_ok s0 -> clean s0 q sz -> 0 <= o0 -> o0 + zlen p < 2 ^ 63 -> zlen p <= Max9p + 1 ->
  forall fuel o c ws s,
  c = o0 + zlen p - o -> 0 <= c < Z.of_nat fuel -> o0 <= o -> pend s0 s q o0 p o ws ->
  (c <> 0 -> Forall (fun x => x.1 + Blksz <= o) ws /\ (o = o0 /\ ws = [] \/ blkoff o = 0) /\
     zlen ws * Blksz = blkbase o - blkbase o0) ->
  mpost (write_loop fuel rdonly q (drop (Z.to_nat (o - o0)) p) o c sz (ins_msg q <$> ws) (snd <$> ws)) s
    (fun e s' => low_err e /\ ext s0 s')
    (fun '(ms, o') s' => o' = o0 + zlen p /\ exists ws', ms = ins_msg q <$> ws' /\
       pend s0 s' q o0 p o' ws' /\ zlen ws' < nwrite).
Proof.
  intros Hs0 Hcl Ho0 Hend Hmax. induction fuel as [|fuel IH]; intros o c ws s Hc Hf Hle Hp Hinv; [lia|].
  pose proof (blkoff_range o) as Hr. pose proof (blk_split o) as Hsp. pose proof (blkoff_range o0) as Hr0.
  pose proof (blk_split o0) as Hsp0. cbn [write_loop].
  assert (Hn : zlen ws < nwrite).
  { pose proof (pd_len _ _ _ _ _ _ _ Hp). change nwrite with 4. change Max9p with 32768 in Hmax.
    rewrite Blksz_val in *. lia. }
  destruct (Z.eqb_spec c 0) as [->|Hc0].
  { apply mpost_ret. split; [lia|]. exists ws. done. }
  destruct (Hinv Hc0) as (Hlt & Hal & Hlen). clear Hinv.
  replace (zlen (ins_msg q <$> ws)) with (zlen ws) by (unfold zlen; by rewrite length_fmap).
  rewrite (proj2 (Z.ltb_lt _ _)) by done.
  assert (Ha : (zlen ws =? 0) || (Z.rem o Blksz =? 0) = true).
  { destruct Hal as [[_ ->]|Hal]; [done|]. apply orb_true_iff. right. apply Z.eqb_eq.
    rewrite Z.rem_mod_nonneg by lia. by rewrite <- blkoff_mod. }
  rewrite Ha. clear Ha. pose proof (pd_ext _ _ _ _ _ _ _ Hp) as He.
  assert (Hs : data_ok s) by by eapply ext_data.
  assert (Hcs : clean s q sz) by (intros i Hi; rewrite (ext_fbyte s0 s) by done; by apply Hcl).
  set (p' := drop (Z.to_nat (o - o0)) p).
  assert (Hp' : zlen p' = c) by (unfold p', zlen in *; rewrite length_drop; lia).
  eapply mpost_bind.
  { eapply mpost_catch; [apply (writeb_ok s q p' o c sz); [done|done|lia|lia|lia]|].
    intros e s' [Hlow He']. assert (H0 : ext s0 s') by by eapply ext_trans.
    destruct (is_crash e); [done|]. destruct rdonly; [by split|].
    eapply mpost_bind with (Q' := fun _ s'' => ext s0 s''); [|intros _ s'' H''; by split].
    apply (free_all_ok s0 s'); [done|]. apply Forall_fmap.
    eapply Forall_impl; [apply (pd_blk _ _ _ _ _ _ _ Hp)|]. cbn. tauto. }
  intros [[w m] bp] s' (Hw & -> & Hwf & He' & Hfree & b & Hb & Hnb).
  assert (Hp2 : pend s0 s' q o0 p (o + w) (ws ++ [(blkbase o, bp)])).
  { apply (pend_step s0 s s' q o0 p o ws w bp b); try done; [lia|lia|].
    destruct Hal as [[? _]|?]; auto. }
  replace (drop (Z.to_nat w) p') with (drop (Z.to_nat (o + w - o0)) p)
    by (unfold p'; rewrite drop_drop; f_equal; lia).
  replace ((ins_msg q <$> ws) ++ [mkMsg Oinsert (datkey q (blkbase o)) (bp_bytes bp)])
    with (ins_msg q <$> (ws ++ [(blkbase o, bp)])) by (by rewrite fmap_app).
  replace ((snd <$> ws) ++ [bp]) with (snd <$> (ws ++ [(blkbase o, bp)])) by (by rewrite fmap_app).
  apply IH; [lia|lia|lia|done|]. intros Hc'. assert (Hw' : w = Blksz - blkoff o) by lia.
  split; [|split].
  - apply Forall_app. split; [eapply Forall_impl; [exact Hlt|]; cbn; lia|].
    constructor; [cbn; lia|constructor].
  - right. rewrite Hw'. replace (o + (Blksz - blkoff o)) with (blkbase o + 1 * Blksz) by lia.
    rewrite blkoff_mod, Z.mod_add by done. apply blkbase_mult.
  - rewrite zlen_app, zlen_cons, zlen_nil. rewrite Hw'.
    replace (o + (Blksz - blkoff o)) with (blkbase o + 1 * Blksz) by lia.
    destruct (blk_aligned (blkbase o + 1 * Blksz)) as [-> _]; [rewrite Z.mod_add by done; apply blkbase_mult|lia].
Qed.

(** ** The batch *)

Lemma with_key_none k ms : Forall (fun m => m_k m <> k) ms -> with_key k ms = [].
Proof.
  induction 1 as [|m ms Hm _ IH]; [done|]. unfold with_key. by rewrite filter_cons_False.
Qed.

Definition ukey (x : Z * Bptr) : Z := u64 x.1.

Lemma with_key_ins q ws x : NoDup (ukey <$> ws) -> x ∈ ws ->
  with_key (datkey q x.1) (ins_msg q <$> ws) = [ins_msg q x].
Proof.
  induction ws as [|y ws IH]; intros Hn Hx; [by apply elem_of_nil in Hx|].
  apply NoDup_cons in Hn as [Hy Hn].
  assert (Hne : forall z, z ∈ ws -> ukey z <> ukey y).
  { intros z Hz E. apply Hy. rewrite <- E. by apply list_elem_of_fmap_2. }
  unfold with_key in *. cbn [fmap list_fmap]. apply elem_of_cons in Hx as [->|Hx].
  - rewrite filter_cons_True by done. f_equal. apply with_key_none. apply Forall_fmap, Forall_forall.
    intros z Hz E. cbn in E. apply datkey_inj in E as [_ E]. by apply (Hne z).
  - rewrite filter_cons_False; [by apply IH|]. intros E. cbn in E. apply datkey_inj in E as [_ E].
    by apply (Hne x Hx).
Qed.

Lemma ukey_nodup ws : NoDup (fst <$> ws) -> Forall (fun y => 0 <= y.1 < 2 ^ 64) ws -> NoDup (ukey <$> ws).
Proof.
  intros Hn Hr. replace (ukey <$> ws) with (fst <$> ws); [done|].
  apply list_fmap_ext. intros i x Hx. symmetry. apply u64_small.
  by apply (Forall_lookup_1 _ _ _ _ Hr Hx).
Qed.

(** The same file for every reader. *)
Record view (s s' : Fst) : Prop := {
  vw_ok : tree_ok (f_tree s');
  vw_val k : tval (f_tree s') k = tval (f_tree s) k;
  vw_fits k n : tfits (f_tree s) k n -> tfits (f_tree s') k n;
  vw_blks a b : dval (f_blks s) a = Some b -> dval (f_blks s') a = Some b }.

Lemma ext_view s s' : tree_ok (f_tree s) -> ext s s' -> view s s'.
Proof. intros Ht (E1 & E2 & E3). split; rewrite ?E1; done. Qed.

Lemma view_trans s1 s2 s3 : view s1 s2 -> view s2 s3 -> view s1 s3.
Proof.
  intros [A1 A2 A3 A4] [B1 B2 B3 B4]. split; [done| |auto|auto]. intros k. by rewrite B2, A2.
Qed.

Lemma view_data s s' : data_ok s -> view s s' -> data_ok s'.
Proof.
  intros [H1 H2 H3] [V1 V2 V3 V4]. split; [done|auto|]. intros q fb kv. rewrite V2. intros E.
  destruct (H3 _ _ _ E) as (bp & b & E1 & E2 & E3). exists bp, b. auto.
Qed.

Lemma view_fbyte s s' q i : data_ok s -> view s s' -> fbyte s' q i = fbyte s q i.
Proof.
  intros Hs [V1 V2 V3 V4]. unfold fbyte, fblk. rewrite V2.
  destruct (tval _ _) as [kv|] eqn:E; [|done].
  destruct (do_ptr s Hs _ _ _ E) as (bp & b & -> & E2 & _). by rewrite E2, (V4 _ _ E2).
Qed.

(** What is left of the tree when [tput] fails: of the messages for each key
    the first ones have been applied. *)
Record partly (s s' : Fst) (ms : list Msg) : Prop := {
  py_ok : tree_ok (f_tree s');
  py_val k : exists n, kvals (tval (f_tree s) k) (take n (with_key k ms)) Msgmax = Ok (tval (f_tree s') k);
  py_fits k n : tfits (f_tree s) k n -> Forall (msg_fits n) (with_key k ms) -> tfits (f_tree s') k n;
  py_blks : f_blks s' = f_blks s;
  py_len : f_len s' = f_len s;
  py_atomic : atomic T -> view s s' }.

Lemma view_partly s s' ms : view s s' -> f_blks s' = f_blks s -> f_len s' = f_len s -> partly s s' ms.
Proof. intros [V1 V2 V3 V4] Eb El. split; [done| |auto|done|done|by split]. intros k. exists 0%nat. cbn. by rewrite V2. Qed.

Lemma upsert_ok flag ms s :
  tree_ok (f_tree s) -> (forall k, exists v, kvals (tval (f_tree s) k) (with_key k ms) Msgmax = Ok v) ->
  mpost (upsert flag ms) s
    (fun e s' => (e = Erdonly \/ tree_err e) /\ partly s s' ms)
    (fun _ s' => tree_ok (f_tree s') /\ f_blks s' = f_blks s /\ f_len s' = f_len s /\
       (forall k, kvals (tval (f_tree s) k) (with_key k ms) Msgmax = Ok (tval (f_tree s') k)) /\
       (forall k n, tfits (f_tree s) k n -> Forall (msg_fits n) (with_key k ms) -> tfits (f_tree s') k n)).
Proof.
  intros Ht Hv. unfold upsert.
  destruct (negb (Z.land flag Lmut =? 0)); [|split; [by left|]; by apply view_partly; [split|..]].
  eapply mpost_bind with (Q' := fun x s' => x = s /\ s' = s); [done|]. intros ? ? [-> ->].
  eapply mpost_bind with (Q' := fun t s' => s' = s /\ tree_ok t /\
    (forall k, tval t k = tval (f_tree s) k) /\ forall k n, tfits (f_tree s) k n -> tfits t k n).
  { destruct (_ || _); [|by apply mpost_ret].
    apply mpost_lift. eapply postE_weaken; [|eapply postE_mono; [by apply tfork_ok|]].
    - intros e He. split; [by right|]. by apply view_partly; [split|..].
    - intros t H. done. }
  intros t s' (-> & H1 & H2 & H3).
  eapply mpost_bind with (Q' := fun _ s' => s' = set_tree t s); [done|]. intros _ ? ->.
  eapply mpost_bind with (Q' := fun t' s' => s' = set_tree t s /\ tree_ok t' /\
    (forall k, kvals (tval t k) (with_key k ms) Msgmax = Ok (tval t' k)) /\
    (forall k n, tfits t k n -> Forall (msg_fits n) (with_key k ms) -> tfits t' k n)).
  { assert (Hv' : forall k, exists v, kvals (tval t k) (with_key k ms) Msgmax = Ok v) by (intros k; rewrite H2; apply Hv).
    destruct (tfail_ok t ms H1 Hv') as (F1 & F2 & F3).
    assert (V : view s (set_tree t s)) by by split.
    eapply (mpost_catch _ _ _ _ (fun e s' => tree_err e /\ s' = set_tree t s)).
    - apply mpost_lift. eapply postE_weaken; [|eapply postE_mono; [by apply tput_ok|]]; [by intros e He|].
      intros t' H. done.
    - intros e s' [He ->]. destruct (is_crash e); (split; [by right|]); [by apply view_partly|].
      split; try done; cbn; [intros k; rewrite <- H2; apply F2|auto|].
      intros Ha. split; cbn; rewrite ?(Ha t ms); [done|done|auto|done]. }
  intros t' s' (-> & H4 & H5 & H6). cbn. split; [done|]. split; [done|]. split; [done|]. split.
  - intros k. rewrite <- H2. apply H5.
  - auto.
Qed.

Definition write_wst (len o mtime uid : Z) : Wst :=
  mkWst (if len <? u64 o then Some o else None) None (Some mtime) None None (Some uid).

Lemma write_stat_wst k len o mtime uid :
  write_stat k len o mtime uid = mkMsg Owstat k (wst_bytes (write_wst len o mtime uid)).
Proof. unfold write_stat, write_wst. destruct (len <? u64 o); done. Qed.

(** The messages for a key in the batch of a write. *)
Lemma batch_keys q ws m k :
  NoDup (ukey <$> ws) -> (forall fb, m_k m <> datkey q fb) ->
  (exists x, x ∈ ws /\ k = datkey q x.1 /\ with_key k ((ins_msg q <$> ws) ++ [m]) = [ins_msg q x]) \/
  (Forall (fun x => datkey q x.1 <> k) ws /\
   with_key k ((ins_msg q <$> ws) ++ [m]) = if decide (k = m_k m) then [m] else []).
Proof.
  intros Hn Hm. rewrite with_key_app.
  destruct (decide (Exists (fun x => datkey q x.1 = k) ws)) as [Hx|Hx].
  - left. apply Exists_exists in Hx as (x & Hx & <-). exists x. split; [done|]. split; [done|].
    rewrite (with_key_ins q ws x) by done. rewrite (with_key_none _ [m]); [done|].
    constructor; [by apply Hm|constructor].
  - right. apply not_Exists_Forall in Hx; [|solve_decision]. split; [done|].
    rewrite (with_key_none k (ins_msg q <$> ws)).
    2:{ apply Forall_fmap. eapply Forall_impl; [exact Hx|]. done. }
    cbn [app]. case_decide as E.
    + subst k. unfold with_key. by rewrite filter_cons_True.
    + apply with_key_none. constructor; [congruence|constructor].
Qed.

Lemma ins_kvals vo q x : kvals vo [ins_msg q x] Msgmax = Ok (Some (mkKvp (datkey q x.1) (bp_bytes x.2))).
Proof. cbn [kvals]. unfold ins_msg. by rewrite kval_insert. Qed.

(** The tree after the batch. *)
Record batched (s s' : Fst) (q : Z) (ws : list (Z * Bptr)) (up : Z) (name : list Z) (d : Xdir) : Prop := {
  bt_in x : x ∈ ws -> tval (f_tree s') (datkey q x.1) = Some (mkKvp (datkey q x.1) (bp_bytes x.2));
  bt_out k : Forall (fun x => datkey q x.1 <> k) ws -> k <> entkey up name ->
    tval (f_tree s') k = tval (f_tree s) k;
  bt_ent : entry (f_tree s') up name d;
  bt_ok : tree_ok (f_tree s');
  bt_fits q fb : tfits (f_tree s') (datkey q fb) (Offksz + Ptrsz) }.

(** When only some of the batch is in the tree, each key has its old value or
    its new one. *)
Record half_batched (s s' : Fst) (q : Z) (ws : list (Z * Bptr)) (up : Z) (name : list Z) (d : Xdir) : Prop := {
  hb_val k : tval (f_tree s') k = tval (f_tree s) k \/
    (exists x, x ∈ ws /\ k = datkey q x.1 /\ tval (f_tree s') k = Some (mkKvp k (bp_bytes x.2))) \/
    (k = entkey up name /\ entry (f_tree s') up name d);
  hb_ok : tree_ok (f_tree s');
  hb_fits q fb : tfits (f_tree s') (datkey q fb) (Offksz + Ptrsz);
  hb_blks : f_blks s' = f_blks s;
  hb_atomic : atomic T -> view s s' }.

Lemma take_one {A} n (x : A) : take n [x] = [] \/ take n [x] = [x].
Proof. destruct n as [|n]; [by left|right]. by destruct n. Qed.

Lemma batch_fits q ws up name w s q' fb : data_ok s ->
  Forall (msg_fits (Offksz + Ptrsz)) (with_key (datkey q' fb) ((ins_msg q <$> ws) ++ [mkMsg Owstat (entkey up name) (wst_bytes w)])).
Proof.
  intros Hs. apply Forall_forall. intros m' Hm' Eo.
  apply list_elem_of_filter in Hm' as [Ek Hm']. apply elem_of_app in Hm' as [Hm'|Hm'].
  - apply list_elem_of_fmap in Hm' as (x & -> & _). done.
  - apply list_elem_of_singleton in Hm' as ->. done.
Qed.

Lemma partly_batch q ws up name d w s s' :
  data_ok s -> entry (f_tree s) up name d -> NoDup (ukey <$> ws) ->
  partly s s' ((ins_msg q <$> ws) ++ [mkMsg Owstat (entkey up name) (wst_bytes w)]) ->
  f_len s' = f_len s /\ half_batched s s' q ws up name (wst_apply w d).
Proof.
  intros Hs (Ee & Hwf & Hnm) Hn [P1 P2 P3 P4 P5 P6]. set (m := mkMsg _ _ _) in *.
  assert (Hm : forall fb, m_k m <> datkey q fb) by (intros fb; apply entkey_not_dat).
  assert (Hd : kv2dir (mkKvp (entkey up name) (dval_bytes d)) = Ok d) by (rewrite <- Hnm; by apply entkey_kv2dir).
  split; [done|]. split; [|done| |done|done].
  2:{ intros q' fb. apply P3; [apply Hs|]. by apply (batch_fits q ws up name w s). }
  intros k. destruct (P2 k) as [n E]. destruct (batch_keys q ws m k Hn Hm) as [(x & Hx & -> & Ew)|[_ Ew]]; rewrite Ew in E.
  - destruct (take_one n (ins_msg q x)) as [En|En]; rewrite En in E; [left; by injection E as <-|].
    right. left. exists x. split; [done|]. split; [done|]. rewrite ins_kvals in E. by injection E as <-.
  - case_decide as Ek; [|rewrite take_nil in E; left; by injection E as <-].
    destruct (take_one n m) as [En|En]; rewrite En in E; [left; by injection E as <-|].
    right. right. change (m_k m) with (entkey up name) in Ek. split; [done|]. rewrite Ek, Ee in E. cbn [kvals] in E.
    unfold m in E. rewrite (kvals_wst _ _ d w) in E by done. split; [by injection E as <-|].
    split; [by apply wf_wst|]. by rewrite wst_name.
Qed.

Lemma upsert_batch flag q ws up name d w s :
  data_ok s -> entry (f_tree s) up name d -> NoDup (ukey <$> ws) ->
  mpost (upsert flag ((ins_msg q <$> ws) ++ [mkMsg Owstat (entkey up name) (wst_bytes w)])) s
    (fun e s' => (e = Erdonly \/ tree_err e) /\ f_len s' = f_len s /\ half_batched s s' q ws up name (wst_apply w d))
    (fun _ s' => f_blks s' = f_blks s /\ f_len s' = f_len s /\ batched s s' q ws up name (wst_apply w d)).
Proof.
  intros Hs He Hn. pose proof He as (Ee & Hwf & Hnm). set (m := mkMsg _ _ _).
  assert (Hm : forall fb, m_k m <> datkey q fb) by (intros fb; apply entkey_not_dat).
  assert (Hd : kv2dir (mkKvp (entkey up name) (dval_bytes d)) = Ok d) by (rewrite <- Hnm; by apply entkey_kv2dir).
  assert (Hstep : kvals (tval (f_tree s) (entkey up name)) [m] Msgmax =
    Ok (Some (mkKvp (entkey up name) (dval_bytes (wst_apply w d))))).
  { rewrite Ee. cbn [kvals]. unfold m. by rewrite (kvals_wst _ _ d w). }
  eapply mpost_mono; [apply upsert_ok; [apply Hs|]|intros e s' [? ?]; split; [done|by apply partly_batch]|].
  { intros k. destruct (batch_keys q ws m k Hn Hm) as [(x & _ & _ & ->)|[_ ->]].
    - rewrite ins_kvals. eauto.
    - case_decide as E; [rewrite E; change (m_k m) with (entkey up name); rewrite Hstep|]; eauto. }
  intros _ s' (Ht & Hb & Hl & Hv & Hf). split; [done|]. split; [done|].
  assert (Hout : forall k, Forall (fun x => datkey q x.1 <> k) ws -> with_key k ((ins_msg q <$> ws) ++ [m]) =
     if decide (k = m_k m) then [m] else []).
  { intros k Hk. destruct (batch_keys q ws m k Hn Hm) as [(x & Hx & E & _)|[_ ->]]; [|done].
    rewrite Forall_forall in Hk. exfalso. by apply (Hk x Hx). }
  assert (Hne : Forall (fun x => datkey q x.1 <> entkey up name) ws).
  { apply Forall_forall. intros x _ E. by apply (entkey_not_dat up name q x.1). }
  split.
  - intros x Hx. pose proof (Hv (datkey q x.1)) as E.
    destruct (batch_keys q ws m (datkey q x.1) Hn Hm) as [(y & _ & Ey & Ew)|[Hall _]].
    + rewrite with_key_app, (with_key_ins q ws x Hn Hx) in E.
      rewrite (with_key_none _ [m]) in E by (constructor; [by apply Hm|constructor]).
      rewrite app_nil_r, ins_kvals in E. by injection E as <-.
    + rewrite Forall_forall in Hall. exfalso. by apply (Hall x Hx).
  - intros k Hk Hke. pose proof (Hv k) as E. rewrite Hout in E by done.
    rewrite decide_False in E by done. by injection E as <-.
  - pose proof (Hv (entkey up name)) as E. rewrite Hout in E by done.
    rewrite decide_True in E by done. rewrite Hstep in E. split; [by injection E as <-|].
    split; [by apply wf_wst|]. by rewrite wst_name.
  - done.
  - intros q' fb. apply Hf; [apply Hs|]. by apply (batch_fits q ws up name w s).
Qed.

(** The files after a batch of new blocks. *)
Section after.
Context (s0 s s' : Fst) (q o0 : Z) (p : list Z) (ws : list (Z * Bptr)) (up : Z) (name : list Z) (d : Xdir).
Context (Hs0 : data_ok s0) (Ho0 : 0 <= o0) (Hend : o0 + zlen p < 2 ^ 63)
  (Hp : pend s0 s q o0 p (o0 + zlen p) ws) (Hblk : f_blks s' = f_blks s)
  (Hb : batched s s' q ws up name d).

Lemma after_in x : x ∈ ws -> exists b, fblk s' q x.1 = Some b /\ holds b x.1 (wbyte s0 q o0 p) /\
  unpackbp (bp_bytes x.2) (zlen (bp_bytes x.2)) = Ok x.2 /\ dval (f_blks s') (bp_addr x.2) = Some b.
Proof.
  intros Hx. pose proof (pd_blk _ _ _ _ _ _ _ Hp) as Hall. rewrite Forall_forall in Hall.
  destruct (Hall x Hx) as (_ & _ & Hwf & _ & b & Hv & Hh). exists b.
  assert (E : unpackbp (bp_bytes x.2) (zlen (bp_bytes x.2)) = Ok x.2).
  { rewrite <- (app_nil_r (bp_bytes x.2)) at 1. by apply unpackbp_bytes. }
  split; [|rewrite Hblk; done].
  unfold fblk. rewrite (bt_in _ _ _ _ _ _ _ Hb x Hx). cbn [kv_v]. rewrite E, Hblk. done.
Qed.

Lemma after_tval k : Forall (fun x => datkey q x.1 <> k) ws -> k <> entkey up name ->
  tval (f_tree s') k = tval (f_tree s0) k.
Proof.
  intros H1 H2. rewrite (bt_out _ _ _ _ _ _ _ Hb) by done. by rewrite (proj1 (pd_ext _ _ _ _ _ _ _ Hp)).
Qed.

Lemma after_out q' fb : Forall (fun x => datkey q x.1 <> datkey q' fb) ws ->
  tval (f_tree s') (datkey q' fb) = tval (f_tree s0) (datkey q' fb) /\ fblk s' q' fb = fblk s0 q' fb.
Proof.
  intros Hall. assert (E : tval (f_tree s') (datkey q' fb) = tval (f_tree s0) (datkey q' fb)).
  { apply after_tval; [done|]. intros E. by apply (entkey_not_dat up name q' fb). }
  split; [done|]. unfold fblk. rewrite E. destruct (tval (f_tree s0) _) as [kv|] eqn:Ekv; [|done].
  destruct (do_ptr _ Hs0 _ _ _ Ekv) as (bp & b & -> & Ev & _). rewrite Ev, Hblk.
  apply (pd_ext _ _ _ _ _ _ _ Hp) in Ev. done.
Qed.

Lemma after_data : data_ok s'.
Proof.
  split; [apply Hb|apply Hb|]. intros q' fb kv Ekv.
  destruct (decide (Exists (fun x => datkey q x.1 = datkey q' fb) ws)) as [Hx|Hx].
  - apply Exists_exists in Hx as (x & Hx & Ek). rewrite <- Ek in Ekv.
    rewrite (bt_in _ _ _ _ _ _ _ Hb x Hx) in Ekv. injection Ekv as <-.
    destruct (after_in x Hx) as (b & _ & Hh & E1 & E2). exists x.2, b. split; [done|]. split; [done|]. apply Hh.
  - apply not_Exists_Forall in Hx; [|solve_decision]. destruct (after_out q' fb Hx) as [E _].
    rewrite E in Ekv. destruct (do_ptr _ Hs0 _ _ _ Ekv) as (bp & b & E1 & E2 & E3).
    exists bp, b. split; [done|]. split; [|done]. rewrite Hblk. by apply (pd_ext _ _ _ _ _ _ _ Hp).
Qed.

Lemma after_other q' i : u64 q' <> u64 q -> fbyte s' q' i = fbyte s0 q' i.
Proof.
  intros Hq. unfold fbyte. destruct (after_out q' (blkbase i)) as [_ ->]; [|done].
  apply Forall_forall. intros x _ E. apply datkey_inj in E as [E _]. congruence.
Qed.

Lemma after_byte i : 0 <= i < 2 ^ 63 -> fbyte s' q i = wbyte s0 q o0 p i.
Proof.
  intros Hi. pose proof (blkoff_range i) as Hr. pose proof (blk_split i) as Hsp.
  pose proof (Z.mod_le i Blksz ltac:(lia) ltac:(done)) as Hml. rewrite <- blkoff_mod in Hml.
  pose proof (pd_blk _ _ _ _ _ _ _ Hp) as Hall. rewrite Forall_forall in Hall.
  destruct (decide (Exists (fun x => datkey q x.1 = datkey q (blkbase i)) ws)) as [Hx|Hx].
  - apply Exists_exists in Hx as (x & Hx & Ek). apply datkey_inj in Ek as [_ Ek].
    destruct (Hall x Hx) as (Hx1 & _). rewrite !u64_small in Ek by lia.
    destruct (after_in x Hx) as (b & E1 & (_ & E2) & _). unfold fbyte. rewrite <- Ek, E1, E2 by done.
    f_equal. lia.
  - apply not_Exists_Forall in Hx; [|solve_decision]. unfold fbyte, wbyte.
    destruct (after_out q (blkbase i) Hx) as [_ ->].
    destruct ((o0 <=? i) && (i <? o0 + zlen p)) eqn:E; [|done]. exfalso. zb.
    assert (Hin : blkbase i ∈ (fst <$> ws)) by (apply (pd_all _ _ _ _ _ _ _ Hp); lia).
    apply list_elem_of_fmap in Hin as (x & E & Hin). rewrite Forall_forall in Hx.
    apply (Hx x Hin). by rewrite E.
Qed.
End after.

(** What a write leaves that failed when some of its batch was in the tree:
    each byte of the file is the old one or the new one, and so is the entry. *)
Record torn (s s' : Fst) (q o : Z) (p : list Z) (up : Z) (name : list Z) (d d' : Xdir) : Prop := {
  tn_data : data_ok s';
  tn_byte i : 0 <= i < 2 ^ 63 -> fbyte s' q i = fbyte s q i \/ fbyte s' q i = wbyte s q o p i;
  tn_other q' i : u64 q' <> u64 q -> fbyte s' q' i = fbyte s q' i;
  tn_keys k : k <> entkey up name -> (forall fb, k <> datkey q fb) -> tval (f_tree s') k = tval (f_tree s) k;
  tn_entry : entry (f_tree s') up name d \/ entry (f_tree s') up name d';
  tn_atomic : atomic T -> (forall k, tval (f_tree s') k = tval (f_tree s) k) /\ forall q' i, fbyte s' q' i = fbyte s q' i }.

Section half.
Context (s0 s s' : Fst) (q o0 : Z) (p : list Z) (ws : list (Z * Bptr)) (up : Z) (name : list Z) (d d' : Xdir).
Context (Hs0 : data_ok s0) (Ho0 : 0 <= o0) (Hend : o0 + zlen p < 2 ^ 63)
  (Hp : pend s0 s q o0 p (o0 + zlen p) ws) (He : entry (f_tree s0) up name d)
  (Hb : half_batched s s' q ws up name d').

Lemma half_blk q' fb :
  (tval (f_tree s') (datkey q' fb) = tval (f_tree s0) (datkey q' fb) /\ fblk s' q' fb = fblk s0 q' fb) \/
  exists x b, x ∈ ws /\ datkey q' fb = datkey q x.1 /\ fblk s' q' fb = Some b /\ holds b x.1 (wbyte s0 q o0 p) /\
    (forall kv, tval (f_tree s') (datkey q' fb) = Some kv -> ptr_ok s' kv).
Proof.
  destruct (pd_ext _ _ _ _ _ _ _ Hp) as (Ex1 & _ & Ex3).
  destruct (hb_val _ _ _ _ _ _ _ Hb (datkey q' fb)) as [E|[(x & Hx & Ek & E)|[Ek _]]].
  - left. rewrite Ex1 in E. split; [done|]. unfold fblk. rewrite E. destruct (tval (f_tree s0) _) as [kv|] eqn:Ekv; [|done].
    destruct (do_ptr _ Hs0 _ _ _ Ekv) as (bp & b & -> & Ev & _). by rewrite Ev, (hb_blks _ _ _ _ _ _ _ Hb), (Ex3 _ _ Ev).
  - right. pose proof (pd_blk _ _ _ _ _ _ _ Hp) as Hall. rewrite Forall_forall in Hall.
    destruct (Hall x Hx) as (_ & _ & Hwf & _ & b & Hv & Hh). exists x, b. split; [done|]. split; [done|].
    assert (Eu : unpackbp (bp_bytes x.2) (zlen (bp_bytes x.2)) = Ok x.2).
    { rewrite <- (app_nil_r (bp_bytes x.2)) at 1. by apply unpackbp_bytes. }
    unfold fblk. rewrite E. cbn [kv_v]. rewrite Eu, (hb_blks _ _ _ _ _ _ _ Hb). split; [done|]. split; [done|].
    intros kv [= <-]. exists x.2, b. cbn [kv_v]. rewrite (hb_blks _ _ _ _ _ _ _ Hb). split; [done|]. split; [done|]. apply Hh.
  - by apply eq_sym, entkey_not_dat in Ek.
Qed.

Lemma half_torn : torn s0 s' q o0 p up name d d'.
Proof.
  destruct (pd_ext _ _ _ _ _ _ _ Hp) as (Ex1 & _ & Ex3). split.
  - split; [apply Hb|apply Hb|]. intros q' fb kv Ekv. destruct (half_blk q' fb) as [[E _]|(x & b & _ & _ & _ & _ & Hk)]; [|by apply Hk].
    rewrite E in Ekv. destruct (do_ptr _ Hs0 _ _ _ Ekv) as (bp & b & E1 & E2 & E3). exists bp, b. split; [done|]. split; [|done].
    rewrite (hb_blks _ _ _ _ _ _ _ Hb). by apply Ex3.
  - intros i Hi. unfold fbyte at 1 3. destruct (half_blk q (blkbase i)) as [[_ ->]|(x & b & Hx & Ek & -> & [_ Hh] & _)]; [by left|right].
    pose proof (blkoff_range i) as Hr. pose proof (blk_split i) as Hsp. pose proof (blkbase_range i ltac:(lia)).
    pose proof (pd_blk _ _ _ _ _ _ _ Hp) as Hall. rewrite Forall_forall in Hall. destruct (Hall x Hx) as (Hx1 & _).
    apply datkey_inj in Ek as [_ Ek]. rewrite !u64_small in Ek by lia. rewrite Hh by done. f_equal. lia.
  - intros q' i Hq. unfold fbyte. destruct (half_blk q' (blkbase i)) as [[_ ->]|(x & b & _ & Ek & _)]; [done|].
    apply datkey_inj in Ek as [? _]. congruence.
  - intros k Hk1 Hk2. destruct (hb_val _ _ _ _ _ _ _ Hb k) as [E|[(x & _ & Ek & _)|[Ek _]]]; [congruence| |done].
    by destruct (Hk2 x.1).
  - destruct (hb_val _ _ _ _ _ _ _ Hb (entkey up name)) as [E|[(x & _ & Ek & _)|[_ ?]]]; [left| |by right].
    + destruct He as (E1 & E2 & E3). split; [by rewrite E, Ex1|done].
    + by apply entkey_not_dat in Ek.
  - intros Ha. assert (V : view s0 s').
    { eapply view_trans; [|exact (hb_atomic _ _ _ _ _ _ _ Hb Ha)]. apply ext_view; [apply Hs0|exact (pd_ext _ _ _ _ _ _ _ Hp)]. }
    split; [apply V|]. intros q' i. by apply view_fbyte.
Qed.
End half.

(** The offset a write starts at. *)
Definition start_at (s : Fst) (mode offset : Z) : Z :=
  if negb (Z.land mode DMAPPEND =? 0) then f_len s else offset.

Lemma fswrite_ok rdonly flag q uid up name d mode now offset p s :
  data_ok s -> clean s q (f_len s) -> entry (f_tree s) up name d -> d_length d = f_len s ->
  0 <= f_len s < 2 ^ 63 -> 0 <= offset -> start_at s mode offset + zlen p < 2 ^ 63 ->
  zlen p <= Max9p + 1 ->
  let d' := wst_apply (write_wst (f_len s) (start_at s mode offset + zlen p) now uid) d in
  mpost (fswrite rdonly flag q uid (entkey up name) mode now offset p) s
    (fun e s' => (e = Erdonly \/ low_err e) /\
       ((low_err e /\ f_len s' = f_len s /\ view s s') \/
        (f_len s' = Z.max (f_len s) (start_at s mode offset + zlen p) /\
         torn s s' q (start_at s mode offset) p up name d d')))
    (fun w s' => w = zlen p /\ data_ok s' /\
       f_len s' = Z.max (f_len s) (start_at s mode offset + zlen p) /\
       (forall i, 0 <= i < 2 ^ 63 -> fbyte s' q i = wbyte s q (start_at s mode offset) p i) /\
       (forall q' i, u64 q' <> u64 q -> fbyte s' q' i = fbyte s q' i) /\
       (forall k, k <> entkey up name -> (forall fb, k <> datkey q fb) ->
          tval (f_tree s') k = tval (f_tree s) k) /\
       entry (f_tree s') up name d' /\ d_length d' = f_len s').
Proof.
  intros Hs Hcl He Hdl Hlen Hoff Hend Hmax d'. set (o := start_at s mode offset) in *.
  assert (Ho : 0 <= o) by (unfold o, start_at; destruct (negb _); lia). pose proof (zlen_nonneg p) as Hp0.
  unfold fswrite. eapply mpost_bind with (Q' := fun x s' => x = s /\ s' = s); [done|].
  intros ? ? [-> ->]. cbv zeta. rewrite (s64_small (f_len s)) by lia.
  replace (if negb (Z.land mode DMAPPEND =? 0) then f_len s else offset) with o by done.
  assert (Ht : tree_ok (f_tree s)) by apply Hs.
  eapply mpost_bind.
  { eapply mpost_mono.
    - pose proof (write_loop_ok rdonly s q o p (f_len s) Hs Hcl Ho Hend Hmax (S (length p)) o (zlen p) [] s
        ltac:(lia) ltac:(unfold zlen in *; lia) ltac:(lia) (pend_nil s q o p)) as Hl.
      rewrite !Z.sub_diag in Hl. change (drop (Z.to_nat 0) p) with p in Hl. apply Hl.
      intros _. split; [constructor|]. split; [by left|done].
    - intros e s' [H1 H2]. split; [by right|]. left. split; [done|]. split; [apply H2|by apply ext_view].
    - intros a s' H. exact H. }
  intros [ms o'] s1 (-> & ws & -> & Hpd & Hnw).
  replace (zlen (ins_msg q <$> ws)) with (zlen ws) by (unfold zlen; by rewrite length_fmap).
  rewrite (proj2 (Z.ltb_lt _ _)) by done. rewrite (u64_small (o + zlen p)) by lia.
  set (n' := if f_len s <? o + zlen p then _ else _).
  assert (Hn' : n' = Z.max (f_len s) (o + zlen p)) by (unfold n'; zif; lia). clearbody n'.
  set (s1' := set_len n' s1).
  eapply mpost_bind with (Q' := fun _ s' => s' = s1'); [done|]. intros _ ? ->.
  pose proof (pd_ext _ _ _ _ _ _ _ Hpd) as Hx. pose proof Hx as (Ex1 & Ex2 & Ex3).
  assert (Hs1 : data_ok s1').
  { destruct (ext_data _ _ Hx Hs) as [A1 A2 A3]. by split. }
  assert (Hrng : Forall (fun y : Z * Bptr => 0 <= y.1 < 2 ^ 64) ws).
  { eapply Forall_impl; [apply (pd_blk _ _ _ _ _ _ _ Hpd)|]. cbn. intros x (? & _). lia. }
  rewrite write_stat_wst. set (w := write_wst _ _ _ _).
  eapply mpost_bind; [eapply mpost_mono; [apply (upsert_batch flag q ws up name d w s1' Hs1)|..]|].
  - unfold s1', set_len. cbn [f_tree]. by rewrite Ex1.
  - apply ukey_nodup; [|done]. apply (pd_nodup _ _ _ _ _ _ _ Hpd).
  - intros e s2 (H1 & E2 & H2). split; [destruct H1; [by left|right; by left]|]. right.
    split; [by rewrite E2|].
    assert (H2' : half_batched s1 s2 q ws up name (wst_apply w d)).
    { destruct H2 as [B1 B2 B3 B4 B5]. split; try done. intros Ha. destruct (B5 Ha) as [V1 V2 V3 V4]. by split. }
    exact (half_torn s s1 s2 q o p ws up name d d' Hs Hend Hpd He H2').
  - intros a s' H. exact H.
  - intros _ s2 (E1 & E2 & Hb). apply mpost_ret.
    assert (Hb' : batched s1 s2 q ws up name (wst_apply w d)).
    { destruct Hb as [B1 B2 B3 B4 B5]. by split. }
    split; [lia|]. split; [exact (after_data s s1 s2 q o p ws up name _ Hs Hpd E1 Hb')|]. split; [by rewrite E2|].
    split; [exact (after_byte s s1 s2 q o p ws up name _ Hs Hend Hpd E1 Hb')|].
    split; [exact (after_other s s1 s2 q o p ws up name _ Hs Hpd E1 Hb')|].
    split.
    { intros k K1 K2. apply (after_tval s s1 s2 q o p ws up name _ Hpd Hb'); [|done]. apply Forall_forall.
      intros x _ E. by apply (K2 x.1). }
    split; [apply Hb'|]. rewrite E2. cbn. rewrite Hn'.
    unfold d', write_wst. rewrite (u64_small (o + zlen p)) by lia.
    destruct (Z.ltb_spec (f_len s) (o + zlen p)); cbn; [rewrite u64_small by lia|]; lia.
Qed.

(** ** Clearing *)

Definition clr_msg (q o : Z) : Msg := mkMsg Oclearb (datkey q o) [].

(** [k] is a key that clearing from [off] to [end_] deletes. *)
Definition clr_key (q off end_ : Z) (k : list Z) : Prop :=
  exists j, 0 <= j /\ off + j * Blksz < end_ /\ k = datkey q (off + j * Blksz).

Lemma kvals_clear vo k ms nbuf : Forall (fun m => m = mkMsg Oclearb k []) ms ->
  kvals vo ms nbuf = Ok (match ms with [] => vo | _ => None end).
Proof.
  intros H. revert vo. induction H as [|m ms -> _ IH]; intros vo; [done|]. cbn [kvals].
  rewrite kval_clear by (by left). cbn [rbind]. rewrite IH. by destruct ms.
Qed.

Lemma with_key_clr q offs k : Forall (fun m => m = mkMsg Oclearb k []) (with_key k (clr_msg q <$> offs)).
Proof.
  apply Forall_forall. intros m (Hk & Hm)%list_elem_of_filter.
  apply list_elem_of_fmap in Hm as (o & -> & _). change (datkey q o = k) in Hk. by rewrite <- Hk.
Qed.

(** Some of the keys of a set may be gone, and nothing else has changed. *)
Record clearing (s s' : Fst) (P : list Z -> Prop) : Prop := {
  cg_ok : tree_ok (f_tree s');
  cg_blks : f_blks s' = f_blks s;
  cg_len : f_len s' = f_len s;
  cg_val k : tval (f_tree s') k = tval (f_tree s) k \/ (P k /\ tval (f_tree s') k = None);
  cg_fits q fb n : tfits (f_tree s) (datkey q fb) n -> tfits (f_tree s') (datkey q fb) n }.

(** All of them are gone. *)
Definition cleared (s s' : Fst) (P : list Z -> Prop) : Prop :=
  clearing s s' P /\ forall k, P k -> tval (f_tree s') k = None.

Lemma clearing_weaken s s' (P Q : list Z -> Prop) :
  (forall k, P k -> Q k) -> clearing s s' P -> clearing s s' Q.
Proof. intros H [C1 C2 C3 C4 C5]. split; [done|done|done| |done]. intros k. destruct (C4 k) as [|[? ?]]; auto. Qed.

Lemma clearing_trans s1 s2 s3 P : clearing s1 s2 P -> clearing s2 s3 P -> clearing s1 s3 P.
Proof.
  intros [C1 C2 C3 C4 C5] [D1 D2 D3 D4 D5]. split; [done|congruence|congruence| |auto].
  intros k. destruct (D4 k) as [->|?]; auto.
Qed.

Lemma clear_batch flag q offs s :
  tree_ok (f_tree s) ->
  mpost (upsert flag (clr_msg q <$> offs)) s
    (fun e s' => (e = Erdonly \/ tree_err e) /\ clearing s s' (fun k => exists o, o ∈ offs /\ k = datkey q o))
    (fun _ s' => cleared s s' (fun k => exists o, o ∈ offs /\ k = datkey q o)).
Proof.
  intros Ht.
  assert (Hv : forall k, kvals (tval (f_tree s) k) (with_key k (clr_msg q <$> offs)) Msgmax =
    Ok (match with_key k (clr_msg q <$> offs) with [] => tval (f_tree s) k | _ => None end)).
  { intros k. apply (kvals_clear _ k). apply with_key_clr. }
  assert (Hw : forall k, with_key k (clr_msg q <$> offs) = [] <-> ~ exists o, o ∈ offs /\ k = datkey q o).
  { intros k. split.
    - intros E (o & Ho & ->). assert (Hin : clr_msg q o ∈ with_key (datkey q o) (clr_msg q <$> offs)).
      { apply list_elem_of_filter. split; [done|]. by apply list_elem_of_fmap_2. }
      rewrite E in Hin. by apply elem_of_nil in Hin.
    - intros Hn. apply with_key_none, Forall_fmap, Forall_forall. intros o Ho E. apply Hn. by exists o. }
  eapply mpost_mono; [apply upsert_ok; [done|]; intros k; rewrite Hv; eauto|..].
  - intros e s' (H1 & [V1 V2 V3 V4 V5 _]). split; [done|]. split; [done|done|done| |].
    + intros k. destruct (V2 k) as [n E]. rewrite (kvals_clear _ k) in E.
      2:{ apply Forall_take, with_key_clr. }
      destruct (take n (with_key k (clr_msg q <$> offs))) as [|m l] eqn:En; [left; by injection E as <-|right].
      split; [|by injection E as <-]. destruct (decide (Exists (fun o => k = datkey q o) offs)) as [Hx|Hx]; [by apply Exists_exists in Hx|].
      destruct (Hw k) as [_ Hw']. rewrite Hw' in En; [by rewrite take_nil in En|]. by rewrite <- Exists_exists.
    + intros q' fb n Hf. apply V3; [done|]. eapply Forall_impl; [apply with_key_clr|]. by intros m ->.
  - intros _ s' (H1 & H2 & H3 & H4 & H5).
    assert (H6 : forall k, tval (f_tree s') k =
      match with_key k (clr_msg q <$> offs) with [] => tval (f_tree s) k | _ => None end).
    { intros k. pose proof (H4 k) as E. rewrite Hv in E. by injection E as <-. }
    assert (Hgone : forall k, (exists o, o ∈ offs /\ k = datkey q o) -> tval (f_tree s') k = None).
    { intros k Hk. rewrite H6. destruct (with_key k _) eqn:E; [|done]. by apply Hw in E. }
    split; [|exact Hgone]. split; [done|done|done| |].
    + intros k. destruct (decide (Exists (fun o => k = datkey q o) offs)) as [Hx|Hx].
      * right. apply Exists_exists in Hx. auto.
      * left. rewrite H6. destruct (Hw k) as [_ ->]; [done|]. by rewrite <- Exists_exists.
    + intros q' fb n Hf. apply H5; [done|]. eapply Forall_impl; [apply with_key_clr|].
      by intros m ->.
Qed.

Lemma clear_loop_ok q flag fuel : forall off end_ offs s,
  tree_ok (f_tree s) -> (1 <= fuel)%nat -> end_ - off <= (Z.of_nat fuel - 1) * Blksz ->
  (offs = [] \/ off < end_) ->
  let P k := (exists o, o ∈ offs /\ k = datkey q o) \/ clr_key q off end_ k in
  mpost (clear_loop fuel flag q off end_ (clr_msg q <$> offs)) s
    (fun e s' => (e = Erdonly \/ tree_err e) /\ clearing s s' P)
    (fun _ s' => cleared s s' P).
Proof.
  induction fuel as [|fuel IH]; intros off end_ offs s Ht Hf Hle Ho P; [lia|]. cbn [clear_loop].
  destruct (Z.ltb_spec off end_) as [Hlt|Hge].
  2:{ destruct Ho as [->|?]; [|lia]. apply mpost_ret. split; [by split; try done; left|].
      intros k [(o & Ho & _)|(j & J1 & J2 & _)]; [by apply elem_of_nil in Ho|].
      exfalso. pose proof (Z.mul_nonneg_nonneg j Blksz J1 ltac:(done)). lia. }
  assert (Hf' : (1 <= fuel)%nat) by (destruct fuel; [rewrite Blksz_val in *; lia|lia]).
  assert (Hle' : end_ - (off + Blksz) <= (Z.of_nat fuel - 1) * Blksz) by (rewrite Blksz_val in *; lia).
  replace ((clr_msg q <$> offs) ++ [mkMsg Oclearb (datkey q off) []])
    with (clr_msg q <$> (offs ++ [off])) by (by rewrite fmap_app).
  (* one key, then the rest *)
  assert (HP : forall k, P k <-> (exists o, o ∈ offs ++ [off] /\ k = datkey q o) \/ clr_key q (off + Blksz) end_ k).
  { intros k. unfold P. split.
    - intros [(o & Hin & ->)|(j & J1 & J2 & ->)].
      + left. exists o. split; [|done]. apply elem_of_app. by left.
      + destruct (decide (j = 0)) as [->|Hj].
        * left. exists off. split; [apply elem_of_app; right; by apply list_elem_of_singleton|]. f_equal. lia.
        * right. exists (j - 1). split; [lia|]. split; [lia|]. f_equal. lia.
    - intros [(o & [Hin|Hin]%elem_of_app & ->)|(j & J1 & J2 & ->)].
      + left. eauto.
      + apply list_elem_of_singleton in Hin as ->. right. exists 0. split; [lia|]. split; [lia|]. f_equal. lia.
      + right. exists (j + 1). split; [lia|]. split; [lia|]. f_equal. lia. }
  assert (Hk1 : forall k, (exists o, o ∈ offs ++ [off] /\ k = datkey q o) -> P k) by (intros; apply HP; auto).
  assert (Hk2 : forall k, (exists o, o ∈ [] /\ k = datkey q o) \/ clr_key q (off + Blksz) end_ k -> P k).
  { intros k [(o & Hin & _)|?]; [by apply elem_of_nil in Hin|]. apply HP. by right. }
  destruct (_ || _) eqn:Efl.
  - eapply mpost_bind; [eapply mpost_mono; [apply (clear_batch flag q (offs ++ [off]) s Ht)|..]|].
    + intros e s' [H1 H2]. split; [done|]. eapply clearing_weaken; [exact Hk1|exact H2].
    + intros a s' H. exact H.
    + intros _ s1 [C Cg]. apply (clearing_weaken _ _ _ P Hk1) in C.
      eapply mpost_mono; [apply (IH (off + Blksz) end_ [] s1); [apply C|done|done|by left]|..].
      * intros e s' [H1 H2]. split; [done|]. eapply clearing_trans; [exact C|].
        by apply (clearing_weaken _ _ _ P Hk2) in H2.
      * intros _ s' [C' Cg']. split.
        -- eapply clearing_trans; [exact C|]. by apply (clearing_weaken _ _ _ P Hk2) in C'.
        -- intros k Hk. apply HP in Hk as [Hk|Hk]; [|apply Cg'; by right].
           destruct (cg_val _ _ _ C' k) as [->|[_ ?]]; auto.
  - apply orb_false_iff in Efl as [_ Efl]. zb.
    eapply mpost_mono; [apply (IH (off + Blksz) end_ (offs ++ [off]) s); [done|done|done|right; lia]|..].
    + intros e s' [H1 H2]. split; [done|]. eapply clearing_weaken; [|exact H2]. intros k. apply HP.
    + intros _ s' [C' Cg']. split; [eapply clearing_weaken; [|exact C']; intros k; apply HP|].
      intros k Hk. by apply Cg', HP.
Qed.

(** A write in one block at a negative offset. *)
Lemma fswrite_negative rdonly flag q uid up name d mode now o p s :
  data_ok s -> clean s q (f_len s) -> entry (f_tree s) up name d -> 0 <= f_len s < 2 ^ 63 ->
  Z.land mode DMAPPEND = 0 -> - 2 ^ 63 <= o -> 0 < zlen p -> o + zlen p < 0 -> blkoff o + zlen p <= Blksz ->
  mpost (fswrite rdonly flag q uid (entkey up name) mode now o p) s
    (fun e _ => e = Erdonly \/ low_err e)
    (fun w s' => w = zlen p /\ f_len s' = 2 ^ 64 + o + zlen p).
Proof.
  intros Hs Hcl He Hlen Hmode Ho Hp Hend Hblk. pose proof (blkoff_range o) as Hr.
  assert (Ht : tree_ok (f_tree s)) by apply Hs.
  unfold fswrite. eapply mpost_bind with (Q' := fun x s' => x = s /\ s' = s); [done|].
  intros ? ? [-> ->]. cbv zeta. rewrite Hmode. cbn [negb Z.eqb]. rewrite (s64_small (f_len s)) by lia.
  eapply mpost_bind with (Q' := fun '(ms, o') s1 => o' = o + zlen p /\ f_len s1 = f_len s /\ view s s1 /\
    data_ok s1 /\ f_tree s1 = f_tree s /\ exists x, ms = [ins_msg q x]).
  { destruct (length p) as [|n] eqn:En; [unfold zlen in Hp; lia|].
    cbn [write_loop]. rewrite (proj2 (Z.eqb_neq _ 0)) by lia.
    change (zlen [] <? nwrite) with true. change (zlen [] =? 0) with true. cbn [orb].
    eapply mpost_bind.
    - eapply mpost_catch; [apply (writeb_ok s q p o (zlen p) (f_len s)); [done|done|lia|lia|lia]|].
      intros e s' [Hlow He']. destruct (is_crash e); [by right|]. destruct rdonly; by right.
    - intros [[w m] bp] s1 (Hw & -> & Hwf & He1 & _ & b & _). rewrite Hw, Z.min_l by lia.
      rewrite Z.sub_diag. cbn [app write_loop Z.eqb].
      all: apply mpost_ret; (split; [done|]); (split; [apply He1|]); (split; [by apply ext_view|]);
        (split; [by eapply ext_data|]); (split; [apply He1|]); by exists (blkbase o, bp). }
  intros [ms o'] s1 (-> & El & Hv & Hs1 & Et & x & ->).
  change (zlen [ins_msg q x] <? nwrite) with true. cbn iota.
  replace (u64 (o + zlen p)) with (2 ^ 64 + o + zlen p).
  2:{ unfold u64. rewrite <- (Z.mod_add (o + zlen p) 1 (2 ^ 64)) by lia. rewrite Z.mod_small by lia. lia. }
  rewrite (proj2 (Z.ltb_lt _ _)) by lia.
  eapply mpost_bind with (Q' := fun _ s' => s' = set_len (2 ^ 64 + o + zlen p) s1); [done|]. intros _ ? ->.
  rewrite write_stat_wst.
  eapply mpost_bind; [eapply mpost_mono;
    [apply (upsert_batch flag q [x] up name d (write_wst (f_len s) (o + zlen p) now uid) (set_len (2 ^ 64 + o + zlen p) s1))|..]|].
  - destruct Hs1; by split.
  - cbn [f_tree set_len]. by rewrite Et.
  - apply NoDup_singleton.
  - intros e s' [H1 _]. destruct H1; [by left|right; by left].
  - intros a s' H. exact H.
  - intros _ s2 (_ & E2 & _). apply mpost_ret. split; [lia|]. by rewrite E2.
Qed.

Lemma clearing_data s s' q off end_ :
  data_ok s -> clearing s s' (fun k => (exists o, o ∈ [] /\ k = datkey q o) \/ clr_key q off end_ k) ->
  data_ok s'.
Proof.
  intros Hs C'. pose proof (cg_blks _ _ _ C') as E. split; [apply C'| |].
  - intros q' fb. apply C', Hs.
  - intros q' fb kv Hkv. destruct (cg_val _ _ _ C' (datkey q' fb)) as [Ek|[_ Ek]]; [|congruence].
    rewrite Ek in Hkv. destruct (do_ptr s Hs _ _ _ Hkv) as (bp & b & E1 & E2 & E3).
    exists bp, b. by rewrite E.
Qed.

Lemma clear_ok flag q off end_ s :
  data_ok s -> 0 <= off ->
  mpost (clear flag q off end_) s
    (fun e s' => (e = Erdonly \/ tree_err e) /\ data_ok s')
    (fun _ s' => data_ok s' /\
       cleared s s' (fun k => (exists o, o ∈ [] /\ k = datkey q o) \/ clr_key q off end_ k)).
Proof.
  intros Hs Ho. unfold clear. set (x := (end_ - off + Blksz - 1) / Blksz).
  assert (Hx : end_ - off <= x * Blksz).
  { pose proof (Z.div_mod (end_ - off + Blksz - 1) Blksz ltac:(done)).
    pose proof (Z.mod_pos_bound (end_ - off + Blksz - 1) Blksz ltac:(done)).
    unfold x. rewrite Blksz_val in *. lia. }
  eapply mpost_mono; [apply (clear_loop_ok q flag (S (Z.to_nat x)) off end_ [] s);
    [apply Hs|lia|rewrite Blksz_val in *; lia|by left]|..].
  - intros e s' [H1 H2]. split; [done|]. by eapply clearing_data.
  - intros a s' H. split; [|done]. apply (clearing_data s s' q off end_ Hs). apply H.
Qed.

Lemma clr_key_dat q off end_ q' fb : 0 <= off -> end_ < 2 ^ 63 -> 0 <= fb < 2 ^ 63 ->
  clr_key q off end_ (datkey q' fb) ->
  u64 q' = u64 q /\ off <= fb < end_ /\ fb mod Blksz = off mod Blksz.
Proof.
  intros Ho He Hfb (j & Hj & Hlt & E). pose proof (Z.mul_nonneg_nonneg j Blksz Hj ltac:(done)).
  apply datkey_inj in E as [E1 E2]. rewrite !u64_small in E2 by lia.
  split; [done|]. split; [lia|]. rewrite E2. by apply Z.mod_add.
Qed.

Lemma clear_block q off end_ fb : off mod Blksz = 0 -> fb mod Blksz = 0 -> off <= fb < end_ ->
  clr_key q off end_ (datkey q fb).
Proof.
  intros Ho Hfb Hr. exists ((fb - off) / Blksz).
  assert (E : (fb - off) / Blksz * Blksz = fb - off).
  { pose proof (Z.div_mod (fb - off) Blksz ltac:(done)) as Hd.
    rewrite Zminus_mod, Ho, Hfb in Hd. change ((0 - 0) mod Blksz) with 0 in Hd. lia. }
  split; [apply Z.div_pos; [lia|done]|]. rewrite E. split; [lia|]. f_equal. lia.
Qed.

Lemma fblk_tval s s' q fb : f_blks s' = f_blks s ->
  tval (f_tree s') (datkey q fb) = tval (f_tree s) (datkey q fb) -> fblk s' q fb = fblk s q fb.
Proof. intros E1 E2. unfold fblk. by rewrite E1, E2. Qed.
End file.
Arguments Fst : clear implicits.

(** ** A map of blocks, the reference instance *)

Record Blkmap := mkBlkmap { bm_next : Z; bm_map : gmap Z (list Z) }.

Definition bm_new (d : Blkmap) (h : Z) (seq : bool) : res (Z * list Z * Blkmap) :=
  if (0 <=? bm_next d) && (bm_next d <? 2 ^ 62) && bool_decide (bm_map d !! bm_next d = None) then
    Ok (bm_next d, zbuf, mkBlkmap (bm_next d + Blksz) (<[bm_next d := zbuf]> (bm_map d)))
  else Err Efull.

#[export] Program Instance blkmap_blks : DataBlks Blkmap := {
  dnew := bm_new;
  dput := fun d a b => mkBlkmap (bm_next d) (<[a := b]> (bm_map d));
  dfree := fun d a => mkBlkmap (bm_next d) (delete a (bm_map d));
  draw := fun d bp => match bm_map d !! bp_addr bp with Some b => Ok b | None => Err Eio end;
  dval := fun d a => bm_map d !! a;
  blk_err := fun e => e = Efull }.
Next Obligation.
  intros d h s. unfold bm_new. destruct (_ && _) eqn:E; [|done]. zb.
  match goal with H : bool_decide _ = true |- _ => apply bool_decide_eq_true in H; rename H into Hn end.
  cbn. split; [done|]. split; [lia|]. split; [apply zlen_zbuf|].
  split; [by rewrite lookup_insert_eq|]. intros x Hx. by rewrite lookup_insert_ne by congruence.
Qed.
Next Obligation.
  intros d a b x. cbn. case_decide as E; [subst; apply lookup_insert_eq|apply lookup_insert_ne; congruence].
Qed.
Next Obligation.
  intros d a x. cbn. case_decide as E; [subst; apply lookup_delete_eq|apply lookup_delete_ne; congruence].
Qed.
Next Obligation. intros d bp b E. cbn in *. by rewrite E. Qed.

(** ** Theorems *)


(** The length is changed before the tree takes the write, and nothing
    puts it back.  A write behind the end of a file that may not be changed
    (its mount has no [Lmut]) always fails; when no lower layer fails it is
    refused by [upsert], and then the length in memory is that of the write
    while the tree has the old entry: a read of the file now answers with
    zeros behind the old end. *)
Theorem refused_write_grows {T D} `{!MsgTree T} `{!DataBlks D} rdonly flag q uid up name d mode now offset p (s : Fst T D) :
  data_ok s -> clean s q (f_len s) -> entry (f_tree s) up name d ->
  0 <= f_len s < 2 ^ 63 -> 0 <= offset -> start_at s mode offset + zlen p < 2 ^ 63 ->
  zlen p <= Max9p + 1 -> Z.land flag Lmut = 0 -> f_len s < start_at s mode offset + zlen p ->
  mpost (fswrite rdonly flag q uid (entkey up name) mode now offset p) s
    (fun e s' => low_err e \/
       (e = Erdonly /\ f_len s' = start_at s mode offset + zlen p /\ entry (f_tree s') up name d /\
        forall o count, f_len s <= o < 2 ^ 63 -> 0 <= count < 2 ^ 32 ->
          postE low_err (readfile s' q o count)
            (fun r => r = replicate (Z.to_nat (Z.min count (f_len s' - o))) 0)))
    (fun _ _ => False).
Proof.
  intros Hs Hcl He Hlen Hoff Hend Hmax Hflag Hgrow. set (o := start_at s mode offset) in *.
  assert (Ho : 0 <= o) by (unfold o, start_at; destruct (negb _); lia). pose proof (zlen_nonneg p) as Hp0.
  unfold fswrite. eapply mpost_bind with (Q' := fun x s' => x = s /\ s' = s); [done|].
  intros ? ? [-> ->]. cbv zeta. rewrite (s64_small (f_len s)) by lia.
  replace (if negb (Z.land mode DMAPPEND =? 0) then f_len s else offset) with o by done.
  eapply mpost_bind.
  { eapply mpost_mono.
    - pose proof (write_loop_ok rdonly s q o p (f_len s) Hs Hcl Ho Hend Hmax (S (length p)) o (zlen p) [] s
        ltac:(lia) ltac:(unfold zlen in *; lia) ltac:(lia) (pend_nil s q o p)) as Hl.
      rewrite !Z.sub_diag in Hl. change (drop (Z.to_nat 0) p) with p in Hl. apply Hl.
      intros _. split; [constructor|]. split; [by left|done].
    - intros e s' [H1 _]. by left.
    - intros a s' H. exact H. }
  intros [ms o'] s1 (-> & ws & -> & Hpd & Hnw).
  replace (zlen (ins_msg q <$> ws)) with (zlen ws) by (unfold zlen; by rewrite length_fmap).
  rewrite (proj2 (Z.ltb_lt _ _)) by done. rewrite (u64_small (o + zlen p)) by lia.
  rewrite (proj2 (Z.ltb_lt _ _)) by lia. apply mpost_mod.
  unfold upsert. rewrite Hflag. cbn [Z.eqb negb]. unfold mpost, mbind, merror. right. split; [done|]. split; [done|].
  pose proof (pd_ext _ _ _ _ _ _ _ Hpd) as Hx. pose proof Hx as (Ex1 & _). cbn [f_tree set_len f_len].
  split; [by rewrite Ex1|]. intros k count Hk Hc.
  assert (Hd : data_ok (set_len (o + zlen p) s1)) by (destruct (ext_data _ _ Hx Hs) as [A1 A2 A3]; by split).
  eapply postE_mono; [apply readfile_ok; [done|cbn; lia|lia|done]|]. intros r ->. cbn [f_len set_len].
  apply list_eq. intros j. unfold fbytes. rewrite list_lookup_fmap.
  destruct (decide (j < Z.to_nat (Z.min count (o + zlen p - k)))%nat) as [Hj|Hj].
  - rewrite lookup_seqZ_lt by lia. rewrite lookup_replicate_2 by done. cbn. f_equal.
    change (fbyte s1 q (k + Z.of_nat j) = 0). rewrite (ext_fbyte s s1 q _ Hs Hx). apply Hcl. lia.
  - rewrite lookup_seqZ_ge by lia. symmetry. apply lookup_ge_None_2. rewrite length_replicate. lia.
Qed.

(** C21: a read returns the bytes of the file from the offset on, as many as were
    asked for or as there are before the end: holes and block boundaries do
    not show. *)
Theorem readfile_correct {T D} `{!MsgTree T} `{!DataBlks D} (s : Fst T D) q offset count :
  data_ok s -> 0 <= f_len s < 2 ^ 63 -> 0 <= offset < 2 ^ 63 -> 0 <= count < 2 ^ 32 ->
  postE low_err (readfile s q offset count)
    (fun p => p = fbytes s q offset (Z.min count (f_len s - offset))).
Proof. intros. by apply readfile_ok. Qed.

(** C22: clearing from an aligned offset to the old end makes the file empty behind
    the offset and touches nothing else; it ends for every length. *)
Theorem clear_correct {T D} `{!MsgTree T} `{!DataBlks D} flag q off end_ (s : Fst T D) :
  data_ok s -> 0 <= off < 2 ^ 63 -> off mod Blksz = 0 -> end_ < 2 ^ 63 -> clean s q end_ ->
  mpost (clear flag q off end_) s
    (fun e s' => (e = Erdonly \/ tree_err e) /\ data_ok s')
    (fun _ s' => data_ok s' /\ clean s' q off /\
       (forall i, 0 <= i < off -> fbyte s' q i = fbyte s q i) /\
       (forall q' i, 0 <= i < 2 ^ 63 -> u64 q' <> u64 q -> fbyte s' q' i = fbyte s q' i) /\
       (forall k, (forall fb, k <> datkey q fb) -> tval (f_tree s') k = tval (f_tree s) k)).
Proof.
  intros Hs [Ho Ho'] Hal He Hc. eapply mpost_mono; [by apply clear_ok|done|].
  intros _ s' (Hs' & C' & Cg). split; [done|]. pose proof (cg_blks _ _ _ C') as Eb.
  assert (Hsame : forall q' i, 0 <= i < 2 ^ 63 -> u64 q' <> u64 q \/ i < off -> fbyte s' q' i = fbyte s q' i).
  { intros q' i Hi Hn. unfold fbyte. rewrite (fblk_tval s s'); [done|done|].
    destruct (cg_val _ _ _ C' (datkey q' (blkbase i))) as [E|[[(o & Hin & _)|Hk] _]];
      [done|by apply elem_of_nil in Hin|].
    pose proof (blkbase_range i ltac:(lia)). pose proof (blk_split i). pose proof (blkoff_range i).
    apply clr_key_dat in Hk as (Hq & Hr & _); [|lia|lia|lia]. destruct Hn as [Hn|Hn]; [done|lia]. }
  split; [|split; [intros i Hi; apply Hsame; [lia|right; lia]|split]].
  - intros i Hi. pose proof (blk_split i). pose proof (blkoff_range i). pose proof (blkbase_mult i).
    assert (Hoi : off <= blkbase i) by (apply aligned_le; [done|lia]). unfold fbyte.
    destruct (decide (blkbase i < end_)) as [Hie|Hie].
    + unfold fblk. rewrite (Cg (datkey q (blkbase i))); [done|]. right. by apply clear_block.
    + fold (fbyte s' q i). destruct (cg_val _ _ _ C' (datkey q (blkbase i))) as [E|[_ E]].
      * unfold fbyte. rewrite (fblk_tval s s') by done. fold (fbyte s q i). apply Hc. lia.
      * unfold fbyte, fblk. by rewrite E.
  - intros q' i Hi Hq. apply Hsame; [done|by left].
  - intros k Hk. destruct (cg_val _ _ _ C' k) as [E|[[(o & Hin & _)|(j & _ & _ & ->)] _]];
      [done|by apply elem_of_nil in Hin|by destruct (Hk (off + j * Blksz))].
Qed.

(** Shortening a file to a length that is not a multiple of the block size
    deletes nothing: the clearing that [fswstat] orders starts at the new
    length and never meets the key of a block.  When the file is made longer
    again, its old bytes are back. *)
Theorem truncate_exposes {T D} `{!MsgTree T} `{!DataBlks D} flag q n (s : Fst T D) :
  data_ok s -> 0 < n < f_len s -> f_len s < 2 ^ 63 -> n mod Blksz <> 0 ->
  mpost (clear flag q n (f_len s)) (set_len n s)
    (fun e _ => e = Erdonly \/ tree_err e)
    (fun _ s' => forall offset count, 0 <= offset < 2 ^ 63 -> 0 <= count < 2 ^ 32 ->
       postE low_err (readfile (set_len (f_len s) s') q offset count)
         (fun p => p = fbytes s q offset (Z.min count (f_len s - offset)))).
Proof.
  intros Hs Hn Hl Hal. assert (Hs1 : data_ok (set_len n s)) by (destruct Hs; by split).
  eapply mpost_mono; [apply (clear_ok flag q n (f_len s) (set_len n s)); [done|lia]|by intros e s' [? _]|].
  intros _ s' (Hs' & C' & _) offset count Ho Hc.
  assert (Hs2 : data_ok (set_len (f_len s) s')) by (destruct Hs'; by split).
  eapply postE_mono; [apply readfile_ok; [done|cbn; lia|done|done]|].
  intros p ->. cbn [f_len set_len]. unfold fbytes. apply list_fmap_ext. intros j i Hj.
  apply lookup_seqZ in Hj as [-> Hj]. unfold fbyte.
  rewrite (fblk_tval s (set_len (f_len s) s')); [done|apply (cg_blks _ _ _ C')|].
  destruct (cg_val _ _ _ C' (datkey q (blkbase (offset + Z.of_nat j)))) as [E|[[(o & Hin & _)|Hk] _]];
    [done|by apply elem_of_nil in Hin|].
  set (i := offset + Z.of_nat j) in *. pose proof (blkbase_range i ltac:(lia)).
  apply clr_key_dat in Hk as (_ & _ & Hk); [|lia|lia|lia]. rewrite blkbase_mult in Hk. congruence.
Qed.

(** Offsets are not checked: a write at a negative offset that succeeds makes
    the length, which is unsigned, larger than that of any file. *)
Theorem negative_offset {T D} `{!MsgTree T} `{!DataBlks D} rdonly flag q uid up name d mode now o p (s : Fst T D) :
  data_ok s -> clean s q (f_len s) -> entry (f_tree s) up name d -> 0 <= f_len s < 2 ^ 63 ->
  Z.land mode DMAPPEND = 0 -> - 2 ^ 63 <= o -> 0 < zlen p -> o + zlen p < 0 -> blkoff o + zlen p <= Blksz ->
  mpost (fswrite rdonly flag q uid (entkey up name) mode now o p) s
    (fun e _ => e = Erdonly \/ low_err e)
    (fun w s' => w = zlen p /\ 2 ^ 63 <= f_len s').
Proof.
  intros. eapply mpost_mono; [by eapply fswrite_negative|done|].
  intros w s' [-> ->]. split; [done|]. lia.
Qed.

(** ** Witnesses *)

(** A file [f] of ten bytes in an otherwise empty tree; its block holds three. *)
Definition ent_ex : Xdir := mkXdir 0 (mkQid 5 0 0) 420 0 0 10 1 1 1 [102].
Definition blk_ex : list Z := [7; 8; 9] ++ replicate (Z.to_nat 16381) 0.
Definition fs_ex : Fst Kvmap Blkmap :=
  mkFst (<[ datkey 5 0 := mkKvp (datkey 5 0) (bp_bytes (mkBptr 0 0 0)) ]>
           {[ entkey 0 [102] := mkKvp (entkey 0 [102]) (dval_bytes ent_ex) ]})
    (mkBlkmap Blksz {[ 0 := blk_ex ]}) 10.

Lemma fs_ex_dat q fb kv : tval (f_tree fs_ex) (datkey q fb) = Some kv ->
  datkey q fb = datkey 5 0 /\ kv = mkKvp (datkey 5 0) (bp_bytes (mkBptr 0 0 0)).
Proof.
  intros E. cbn [tval kvmap_tree f_tree fs_ex] in E.
  apply lookup_insert_Some in E as [[<- <-]|[_ E]]; [done|].
  apply lookup_singleton_Some in E as [E _]. by apply entkey_not_dat in E.
Qed.

Lemma zlen_blk_ex : zlen blk_ex = Blksz.
Proof. unfold blk_ex. rewrite zlen_app, zlen_replicate. done. Qed.

Lemma fs_ex_ok : data_ok fs_ex.
Proof.
  split.
  - intros k v Hk. cbn [f_tree fs_ex] in Hk. apply lookup_insert_Some in Hk as [[<- <-]|[_ Hk]]; [done|].
    by apply lookup_singleton_Some in Hk as [<- <-].
  - intros q fb v Hv. by apply fs_ex_dat in Hv as [_ ->].
  - intros q fb kv E. apply fs_ex_dat in E as [_ ->]. exists (mkBptr 0 0 0), blk_ex. split; [done|].
    split; [apply lookup_singleton_eq|apply zlen_blk_ex].
Qed.

Lemma fs_ex_clean : clean fs_ex 5 10.
Proof.
  intros i Hi. unfold fbyte, fblk. destruct (tval _ _) as [kv|] eqn:E; [|done].
  apply fs_ex_dat in E as [E ->]. apply datkey_inj in E as [_ E].
  pose proof (blkbase_range i ltac:(lia)). pose proof (blk_split i). rewrite !u64_small in E by lia.
  change (unpackbp _ _) with (Ok (mkBptr 0 0 0)). cbn [bp_addr].
  change (dval (f_blks fs_ex) 0) with (({[ 0 := blk_ex ]} : gmap Z (list Z)) !! 0).
  rewrite lookup_singleton_eq. unfold blk_ex. rewrite app_nth2 by (cbn [length]; lia). apply nth_zeros.
Qed.

Lemma fs_ex_entry : entry (f_tree fs_ex) 0 [102] ent_ex.
Proof.
  split; [|split; [|done]].
  - cbn [tval kvmap_tree f_tree fs_ex]. etrans; [apply lookup_insert_ne|apply lookup_singleton_eq].
    intros E. symmetry in E. by apply entkey_not_dat in E.
  - repeat split; cbn; try lia; try done. repeat constructor; lia.
Qed.


Lemma refused_write_grows_witness :
  mpost (fswrite false 0 5 1 (entkey 0 [102]) 420 77 100 [1]) fs_ex
    (fun _ s' => f_len s' = 101 /\ entry (f_tree s') 0 [102] ent_ex) (fun _ _ => False).
Proof.
  pose proof (refused_write_grows false 0 5 1 0 [102] ent_ex 420 77 100 [1] fs_ex fs_ex_ok fs_ex_clean fs_ex_entry
    ltac:(cbn; lia) ltac:(lia) ltac:(vm_compute; done) ltac:(vm_compute; discriminate) eq_refl ltac:(vm_compute; done)) as H.
  unfold mpost in *. destruct (fswrite _ _ _ _ _ _ _ _ _ fs_ex) as [[n|e] s'] eqn:E; [done|].
  destruct H as [[[]|H]|(_ & H & He & _)]; [|by split]. exfalso. cbn in H. subst e.
  vm_compute in E. discriminate E.
Defined.

Lemma readfile_correct_witness :
  postE low_err (readfile fs_ex 5 1 100) (fun p => p = fbytes fs_ex 5 1 9).
Proof. apply (readfile_correct fs_ex 5 1 100 fs_ex_ok); cbn; lia. Defined.

Lemma clear_correct_witness :
  mpost (clear Lmut 5 0 10) fs_ex (fun e _ => e = Erdonly \/ tree_err e) (fun _ s' => clean s' 5 0).
Proof.
  eapply mpost_mono; [apply (clear_correct Lmut 5 0 10 fs_ex fs_ex_ok); [lia|done|lia|apply fs_ex_clean]|..].
  - by intros e s' [? _].
  - by intros _ s' (_ & ? & _).
Defined.

Lemma truncate_exposes_witness :
  mpost (clear Lmut 5 1 10) (set_len 1 fs_ex) (fun e _ => e = Erdonly \/ tree_err e)
    (fun _ s' => postE low_err (readfile (set_len 10 s') 5 0 100) (fun p => p = fbytes fs_ex 5 0 10)).
Proof.
  eapply mpost_mono; [apply (truncate_exposes Lmut 5 1 fs_ex fs_ex_ok); [cbn; lia|cbn; lia|vm_compute; done]|done|].
  intros ? s' H. apply (H 0 100); lia.
Defined.

Lemma negative_offset_witness :
  mpost (fswrite false Lmut 5 1 (entkey 0 [102]) 420 77 (-16384) [7]) fs_ex
    (fun e _ => e = Erdonly \/ low_err e) (fun w s' => w = 1 /\ 2 ^ 63 <= f_len s').
Proof.
  apply (negative_offset false Lmut 5 1 0 [102] ent_ex 420 77 (-16384) [7] fs_ex fs_ex_ok fs_ex_clean fs_ex_entry);
    [cbn; lia|done|lia|done|done|vm_compute; discriminate].
Defined.
