(* ===== verification/Users.v ===== *)
(** * Users, groups and permissions (src/user.c; [ingroup], [groupleader],
    [mode2bits], [fsaccess], [okname] of src/fs.c; [showusers] of src/cons.c)

    The user table is parsed from /adm/users in two passes.  A C string is
    the list of its bytes without the terminator; a string that the code cuts
    in place with a NUL is split.  [realloc] does not clear the memory it
    adds, so the [lead] field of the ninth user and later ones is
    uninitialised until the second pass sets it: it is [None] in the model.
    [malloc] failures are not modelled, and names are cut at 127 bytes
    without regard to multi-byte runes. *)
From S2P Require Import Prelude CInt Mem Data.

Record User := mkUser {
  u_id : Z; u_lead : option Z; u_memb : list Z; u_name : list Z }.

#[export] Instance User_eq_dec : EqDecision User.
Proof. solve_decision. Defined.

(** ** The C library *)

(** The text before and after the first [c]: [strchr] and the cut. *)
Fixpoint strcut (c : Z) (p : list Z) : option (list Z * list Z) :=
  match p with
  | [] => None
  | x :: p' =>
      if x =? c then Some ([], p')
      else match strcut c p' with Some (a, b) => Some (x :: a, b) | None => None end
  end.

Fixpoint skip_space (p : list Z) : list Z :=
  match p with
  | c :: p' => if (c =? 32) || (c =? 9) then skip_space p' else p
  | [] => []
  end.

Definition hexdigit (c : Z) : option Z :=
  if (48 <=? c) && (c <=? 57) then Some (c - 48)
  else if (97 <=? c) && (c <=? 102) then Some (c - 97 + 10)
  else if (65 <=? c) && (c <=? 70) then Some (c - 65 + 10)
  else None.

(** The leading digits of a base, accumulated in a 32-bit [long]. *)
Fixpoint digits_of (base : Z) (n : Z) (p : list Z) : Z :=
  match p with
  | [] => n
  | c :: p' =>
      match hexdigit c with
      | Some d => if d <? base then digits_of base (s32 (n * base + d)) p' else n
      | None => n
      end
  end.

(** The number after the sign: octal and hexadecimal have a prefix. *)
Definition atol_num (p : list Z) : Z :=
  match p with
  | a :: b :: p' =>
      if a =? 48 then
        if (b =? 120) || (b =? 88) then digits_of 16 0 p' else digits_of 8 0 (b :: p')
      else digits_of 10 0 p
  | _ => digits_of 10 0 p
  end.

(** [atol]: blanks, a sign, then a decimal, octal (0...) or hexadecimal
    (0x...) number. *)
Definition atol (p : list Z) : Z :=
  let p := skip_space p in
  let '(neg, p) := match p with
                   | c :: p' => if c =? 45 then (true, skip_space p')
                                else if c =? 43 then (false, skip_space p') else (false, p)
                   | [] => (false, p)
                   end in
  let n := atol_num p in
  if neg then s32 (- n) else n.

(** [%d] *)
Fixpoint fmt_nat (fuel : nat) (n : Z) : list Z :=
  match fuel with
  | O => []
  | S fuel' => if n <? 10 then [48 + n] else fmt_nat fuel' (n / 10) ++ [48 + n mod 10]
  end.
Definition fmt_d (n : Z) : list Z :=
  if n <? 0 then 45 :: fmt_nat 11 (- n) else fmt_nat 11 n.

(** ** Lines and fields *)

(** The next line, cut to the buffer, and the text after it. *)
Definition readline (p : list Z) (nbuf : Z) : option (list Z * list Z) :=
  match strcut 10 p with
  | None => None
  | Some (l, rest) =>
      let n := zlen l + 1 in
      let n := if nbuf <=? n then nbuf - 1 else n in
      Some (take (Z.to_nat (n - 1)) l, rest)
  end.

(** The field at [*p] and the new [*p]. *)
Definition getfield (p : option (list Z)) (delim : Z) : option (list Z) * option (list Z) :=
  match p with
  | None => (None, None)
  | Some r => match strcut delim r with
              | Some (f, p') => (Some f, Some p')
              | None => (Some r, None)
              end
  end.

(** ** The table *)

Fixpoint name2user (us : list User) (name : list Z) : option User :=
  match us with
  | [] => None
  | u :: us' => if bool_decide (u_name u = name) then Some u else name2user us' name
  end.

Fixpoint uid2user (us : list User) (id : Z) : option User :=
  match us with
  | [] => None
  | u :: us' => if u_id u =? id then Some u else uid2user us' id
  end.

(** The loop of [parseusers] that has no [break]: the last match. *)
Definition lastuser (us : list User) (name : list Z) : option User :=
  foldl (fun r u => if bool_decide (u_name u = name) then Some u else r) None us.

(** [buf[8192]] *)
Definition linesz : Z := 8192.

Definition skipped (l : list Z) : bool :=
  match l with [] => true | c :: _ => c =? 35 end.

(** The first pass: ids and names.  [calloc] clears the first eight slots. *)
Fixpoint pass1 (fuel : nat) (pu : list Z) (us : list User) : res (list User) :=
  match fuel with
  | O => Err Efuel
  | S fuel' =>
      match readline pu linesz with
      | None => Ok us
      | Some (l, pu') =>
          if skipped l then pass1 fuel' pu' us
          else
            let '(f, p) := getfield (Some l) 58 in
            match f with
            | None => Err Esyntax
            | Some id =>
                let '(f, p) := getfield p 58 in
                match f with
                | None => Err Esyntax
                | Some name =>
                    pass1 fuel' pu'
                      (us ++ [mkUser (atol id) (if zlen us <? 8 then Some 0 else None) []
                                (take 127 name)])
                end
            end
      end
  end.

(** The members of a group, separated by commas. *)
Fixpoint members (fuel : nat) (us : list User) (f : option (list Z)) (grp : list Z)
  : res (list Z) :=
  match fuel with
  | O => Err Efuel
  | S fuel' =>
      let '(m, f) := getfield f 44 in
      match m with
      | None => Ok grp
      | Some [] => members fuel' us f grp
      | Some m =>
          match lastuser us m with
          | None => Err Enouser
          | Some u => members fuel' us f (grp ++ [u_id u])
          end
      end
  end.

(** [users[i]] with a new leader, or with new members. *)
Definition set_lead (us : list User) (i : nat) (id : Z) : res (list User) :=
  match us !! i with
  | Some u => Ok (<[i := mkUser (u_id u) (Some id) (u_memb u) (u_name u)]> us)
  | None => Err Eoob
  end.
Definition set_memb (us : list User) (i : nat) (grp : list Z) : res (list User) :=
  match us !! i with
  | Some u => Ok (<[i := mkUser (u_id u) (u_lead u) grp (u_name u)]> us)
  | None => Err Eoob
  end.

(** The second pass: leaders and members. *)
Fixpoint pass2 (fuel : nat) (pu : list Z) (us : list User) (i : nat) : res (list User) :=
  match fuel with
  | O => Err Efuel
  | S fuel' =>
      match readline pu linesz with
      | None => Ok us
      | Some (l, pu') =>
          if skipped l then pass2 fuel' pu' us i
          else
            let '(_, p) := getfield (Some l) 58 in
            let '(_, p) := getfield p 58 in
            let '(f, p) := getfield p 58 in
            match f with
            | None => Err Esyntax
            | Some f =>
                let! us := match f with
                           | [] => Ok us
                           | _ => match lastuser us f with
                                  | None => Err Enouser
                                  | Some u => set_lead us i (u_id u)
                                  end
                           end in
                let '(f, p) := getfield p 58 in
                match f with
                | None => Err Esyntax
                | Some f =>
                    let! grp := members (S (S (length f))) us (Some f) [] in
                    let! us := set_memb us i grp in
                    pass2 fuel' pu' us (S i)
                end
            end
      end
  end.

(** The new table, or the error that leaves the old one in place. *)
Definition parseusers (udata : list Z) : res (list User) :=
  let! us := pass1 (S (length udata)) udata [] in
  pass2 (S (length udata)) udata us 0.

(** ** Groups and permissions *)

(** The global ids, and the table. *)
Record Users := mkUsers { users : list User; noneid : Z; nogroupid : Z; admid : Z }.

(** The end of [loadusers]: the ids of the three special names. *)
Definition setids (us : Users) : Users :=
  let id name old := match name2user (users us) name with Some u => u_id u | None => old end in
  mkUsers (users us) (id [110; 111; 110; 101] (noneid us))
    (id [110; 111; 103; 114; 111; 117; 112] (nogroupid us)) (id [97; 100; 109] (admid us)).

Definition ingroup (us : Users) (uid gid : Z) : bool :=
  match uid2user (users us) uid, uid2user (users us) gid with
  | Some u, Some g =>
      if u_id u =? u_id g then true else existsb (fun m => u_id u =? m) (u_memb g)
  | _, _ => false
  end.

Definition groupleader (us : Users) (uid gid : Z) : res bool :=
  match uid2user (users us) gid with
  | None => Ok false
  | Some g =>
      match u_lead g with
      | None => Err Euninit
      | Some lead =>
          if lead =? 0 then Ok (existsb (fun m => m =? uid) (u_memb g))
          else Ok (uid =? lead)
      end
  end.

Definition DMREAD : Z := 4.
Definition DMWRITE : Z := 2.
Definition DMEXEC : Z := 1.
Definition DMDIR : Z := 0x80000000.
Definition OTRUNC : Z := 16.
Definition ORCLOSE : Z := 64.

Definition mode2bits (req : Z) : Z :=
  let r := Z.land req 15 in
  let m := if r =? 0 then DMREAD
           else if r =? 1 then DMWRITE
           else if r =? 2 then Z.lor DMREAD DMWRITE
           else if r =? 3 then Z.lor DMREAD DMEXEC
           else 0 in
  if negb (Z.land req OTRUNC =? 0) then Z.lor m DMWRITE else m.

(** [permit] and [uid] are fields of the fid. *)
Definition fsaccess (us : Users) (permit : bool) (uid fmode fuid fgid m : Z) : Z :=
  if permit then 0
  else if negb (uid =? noneid us) && (uid =? fuid) && (Z.land m (Z.shiftr fmode 6) =? m) then 0
  else if negb (uid =? noneid us) && ingroup us uid fgid && (Z.land m (Z.shiftr fmode 3) =? m) then 0
  else if (Z.land m fmode =? m) &&
          ((negb (Z.land fmode DMDIR =? 0) && (m =? DMEXEC)) || negb (ingroup us uid (nogroupid us)))
  then 0
  else -1.

(** [Maxname] *)
Definition Maxname : Z := Maxent - 1 - 9 - 1.

(** The loop of [okname], [i] bytes into the name. *)
Fixpoint okname_loop (fuel : nat) (name : list Z) : option err :=
  match fuel with
  | O => Some Elength
  | S fuel' =>
      match name with
      | [] => None
      | c :: name' => if (c <? 32) || (c =? 47) then Some Ename else okname_loop fuel' name'
      end
  end.

(** [None] when the name is good. *)
Definition okname (name : list Z) : option err :=
  match name with
  | [] => Some Ename
  | _ => if bool_decide (name = [46]) || bool_decide (name = [46; 46]) then Some Ename
         else okname_loop (Z.to_nat Maxname) name
  end.

(** ** src/cons.c: [showusers] *)

Definition unknown : list Z := [63; 63; 63].

Definition showname (us : list User) (id : Z) : list Z :=
  match uid2user us id with Some v => u_name v | None => unknown end.

Fixpoint showmembs (us : list User) (sep : list Z) (ms : list Z) : list Z :=
  match ms with
  | [] => []
  | m :: ms' => sep ++ showname us m ++ showmembs us [44] ms'
  end.

(** A table entry; an uninitialised leader cannot be shown. *)
Definition showuser (us : list User) (u : User) : res (list Z) :=
  match u_lead u with
  | None => Err Euninit
  | Some lead =>
      Ok (fmt_d (u_id u) ++ [58] ++ u_name u ++ [58] ++ showname us lead ++ [58] ++
          showmembs us [] (u_memb u) ++ [10])
  end.

Fixpoint showusers_loop (us l : list User) : res (list Z) :=
  match l with
  | [] => Ok []
  | u :: l' => let! s := showuser us u in let! r := showusers_loop us l' in Ok (s ++ r)
  end.

Definition showusers (us : list User) : res (list Z) := showusers_loop us us.

(** ** Formatting and reading numbers *)

Definition is_digit (c : Z) : Prop := 48 <= c <= 57.

Lemma fmt_nat_digits fuel n : 0 <= n -> Forall is_digit (fmt_nat fuel n).
Proof.
  revert n. induction fuel as [|fuel IH]; intros n Hn; cbn [fmt_nat]; [constructor|].
  destruct (Z.ltb_spec n 10); [repeat constructor; unfold is_digit; lia|].
  apply Forall_app. split; [apply IH, Z.div_pos; lia|]. repeat constructor; unfold is_digit.
  all: pose proof (Z.mod_pos_bound n 10); lia.
Qed.

Lemma hexdigit_dec d : 0 <= d < 10 -> hexdigit (48 + d) = Some d.
Proof.
  intros Hd. unfold hexdigit.
  rewrite (proj2 (Z.leb_le 48 (48 + d))), (proj2 (Z.leb_le (48 + d) 57)) by lia.
  cbn [andb]. f_equal. lia.
Qed.

(** The value of a string of decimal digits, appended to [n]. *)
Definition decval (n : Z) (p : list Z) : Z := foldl (fun n c => n * 10 + (c - 48)) n p.

Lemma decval_ge n p : 0 <= n -> Forall is_digit p -> n <= decval n p.
Proof.
  unfold decval. revert n. induction p as [|c p IH]; intros n Hn Hp; cbn [foldl]; [lia|].
  apply Forall_cons in Hp as [Hc Hp]. unfold is_digit in Hc.
  etrans; [|apply IH]; lia || done.
Qed.

Lemma digits_of_dec n p :
  0 <= n -> Forall is_digit p -> decval n p < 2 ^ 31 -> digits_of 10 n p = decval n p.
Proof.
  revert n. induction p as [|c p IH]; intros n Hn Hp Hlt; [done|].
  apply Forall_cons in Hp as [Hc Hp]. unfold is_digit in Hc. cbn [digits_of].
  replace c with (48 + (c - 48)) at 1 by lia. rewrite hexdigit_dec by lia.
  rewrite (proj2 (Z.ltb_lt _ _)) by lia. unfold decval in *. cbn [foldl] in *.
  pose proof (decval_ge (n * 10 + (c - 48)) p ltac:(lia) Hp) as Hge. unfold decval in Hge.
  rewrite s32_small by lia. apply IH; [lia|done|done].
Qed.

Lemma fmt_nat_val fuel n :
  0 <= n < 10 ^ Z.of_nat fuel -> decval 0 (fmt_nat fuel n) = n.
Proof.
  revert n. induction fuel as [|fuel IH]; intros n Hn.
  { rewrite Z.pow_0_r in Hn. cbn. lia. }
  cbn [fmt_nat]. destruct (Z.ltb_spec n 10); [cbn; lia|].
  unfold decval in *. rewrite foldl_app, IH.
  - cbn [foldl]. pose proof (Z.div_mod n 10 ltac:(lia)). lia.
  - rewrite Nat2Z.inj_succ, Z.pow_succ_r in Hn by lia.
    split; [apply Z.div_pos; lia|]. apply Z.div_lt_upper_bound; lia.
Qed.

(** A number of two digits or more does not start with a zero. *)
Lemma fmt_nat_head fuel n :
  0 <= n -> (0 < fuel)%nat -> exists c p, fmt_nat fuel n = c :: p /\ is_digit c /\ (c = 48 -> n < 10 \/ (fuel <= 1)%nat \/ n >= 10 ^ Z.of_nat fuel).
Proof.
  revert n. induction fuel as [|fuel IH]; intros n Hn Hf; [lia|]. cbn [fmt_nat].
  destruct (Z.ltb_spec n 10) as [Hlt|Hge].
  - exists (48 + n), []. split; [done|]. split; [unfold is_digit; lia|]. by left.
  - destruct fuel as [|fuel].
    + cbn. eexists _, []. split; [done|]. split; [|intros; right; left; lia].
      unfold is_digit. pose proof (Z.mod_pos_bound n 10). lia.
    + destruct (IH (n / 10)) as (c & p & E & Hc & Hz); [apply Z.div_pos; lia|lia|].
      rewrite E. exists c, (p ++ [48 + n mod 10]). split; [done|]. split; [done|].
      intros Hc0. cbn [fmt_nat] in E.
      destruct (Z.ltb_spec (n / 10) 10) as [Hlt'|Hge'].
      * injection E as E _. exfalso. assert (1 <= n / 10) by (apply Z.div_le_lower_bound; lia). lia.
      * right. destruct (Hz Hc0) as [?|[?|Hbig]]; [lia| |].
        -- destruct fuel; [|lia]. right. cbn. 
           assert (10 * (n / 10) <= n) by (apply Z.mul_div_le; lia). lia.
        -- right. rewrite Nat2Z.inj_succ, Z.pow_succ_r by lia.
           assert (10 * (n / 10) <= n) by (apply Z.mul_div_le; lia). lia.
Qed.

Lemma skip_space_digit c p : is_digit c -> skip_space (c :: p) = c :: p.
Proof.
  intros Hc. unfold is_digit in Hc. cbn [skip_space].
  replace (c =? 32) with false by (symmetry; apply Z.eqb_neq; lia).
  by replace (c =? 9) with false by (symmetry; apply Z.eqb_neq; lia).
Qed.

Lemma atol_digits n : 0 <= n < 2 ^ 31 -> atol_num (fmt_nat 11 n) = n.
Proof.
  intros Hn.
  assert (Hv : digits_of 10 0 (fmt_nat 11 n) = n).
  { rewrite digits_of_dec.
    - apply fmt_nat_val. change (10 ^ Z.of_nat 11) with 100000000000. lia.
    - lia.
    - apply fmt_nat_digits. lia.
    - rewrite fmt_nat_val; [lia|]. change (10 ^ Z.of_nat 11) with 100000000000. lia. }
  destruct (fmt_nat_head 11 n ltac:(lia) ltac:(lia)) as (c & p & E & Hc & Hz).
  destruct (Z.eq_dec c 48) as [->|Hne].
  - destruct (Hz eq_refl) as [Hlt|[?|Hbig]]; [|lia|].
    2:{ change (10 ^ Z.of_nat 11) with 100000000000 in Hbig. lia. }
    rewrite E in Hv |- *. cbn [fmt_nat] in E. rewrite (proj2 (Z.ltb_lt n 10)) in E by lia.
    injection E as E <-. exact Hv.
  - rewrite E in Hv |- *. unfold atol_num. destruct p as [|b p]; [exact Hv|].
    by rewrite (proj2 (Z.eqb_neq _ _) Hne).
Qed.

Lemma atol_fmt_d n : - 2 ^ 31 < n < 2 ^ 31 -> atol (fmt_d n) = n.
Proof.
  intros Hn. unfold atol, fmt_d. destruct (Z.ltb_spec n 0) as [Hneg|Hpos].
  - change (skip_space (45 :: fmt_nat 11 (- n))) with (45 :: fmt_nat 11 (- n)).
    cbn [Z.eqb Pos.eqb].
    destruct (fmt_nat_head 11 (- n) ltac:(lia) ltac:(lia)) as (c & p & E & Hc & _).
    rewrite E, skip_space_digit, <- E by done. cbv beta iota.
    rewrite atol_digits by lia. rewrite s32_small by lia. lia.
  - destruct (fmt_nat_head 11 n ltac:(lia) ltac:(lia)) as (c & p & E & Hc & _).
    rewrite E, skip_space_digit by done. unfold is_digit in Hc.
    replace (c =? 45) with false by (symmetry; apply Z.eqb_neq; lia).
    replace (c =? 43) with false by (symmetry; apply Z.eqb_neq; lia).
    rewrite <- E. cbv beta iota. apply atol_digits. lia.
Qed.

Lemma fmt_d_chars n : - 2 ^ 31 < n < 2 ^ 31 -> Forall (fun c => is_digit c \/ c = 45) (fmt_d n).
Proof.
  intros Hn. unfold fmt_d. destruct (Z.ltb_spec n 0).
  - constructor; [by right|]. eapply Forall_impl; [apply fmt_nat_digits; lia|]. auto.
  - eapply Forall_impl; [apply fmt_nat_digits; lia|]. auto.
Qed.

Lemma fmt_d_cons n : - 2 ^ 31 < n < 2 ^ 31 -> exists c p, fmt_d n = c :: p /\ c ≠ 35.
Proof.
  intros Hn. pose proof (fmt_d_chars n Hn) as Hc. unfold fmt_d in *.
  destruct (Z.ltb_spec n 0); [by eexists _, _|].
  destruct (fmt_nat_head 11 n ltac:(lia) ltac:(lia)) as (c & p & E & Hd & _). rewrite E in *.
  exists c, p. split; [done|]. unfold is_digit in Hd. lia.
Qed.

(** ** Cutting fields *)

Lemma strcut_app c a b : c ∉ a -> strcut c (a ++ c :: b) = Some (a, b).
Proof.
  induction a as [|x a IH]; intros Ha; cbn; [by rewrite Z.eqb_refl|].
  apply not_elem_of_cons in Ha as [Hx Ha].
  replace (x =? c) with false by (symmetry; apply Z.eqb_neq; congruence).
  by rewrite IH.
Qed.

Lemma strcut_none c a : c ∉ a -> strcut c a = None.
Proof.
  induction a as [|x a IH]; intros Ha; cbn; [done|].
  apply not_elem_of_cons in Ha as [Hx Ha].
  replace (x =? c) with false by (symmetry; apply Z.eqb_neq; congruence).
  by rewrite IH.
Qed.

Lemma getfield_app d a b : d ∉ a -> getfield (Some (a ++ d :: b)) d = (Some a, Some b).
Proof. intros Ha. cbn. by rewrite strcut_app. Qed.

Lemma getfield_last d a : d ∉ a -> getfield (Some a) d = (Some a, None).
Proof. intros Ha. cbn. by rewrite strcut_none. Qed.

Lemma readline_app l rest : 10 ∉ l -> zlen l < linesz - 1 ->
  readline (l ++ 10 :: rest) linesz = Some (l, rest).
Proof.
  intros Hl Hlen. unfold readline. rewrite strcut_app by done.
  replace (linesz <=? zlen l + 1) with false by (symmetry; apply Z.leb_gt; lia).
  do 2 f_equal. apply take_ge. unfold zlen. lia.
Qed.

(** ** Tables that can be printed and parsed *)

(** A name without separators that fits the name field. *)
Definition good_name (s : list Z) : Prop :=
  s ≠ [] /\ zlen s <= 127 /\ (10 ∉ s) /\ (58 ∉ s) /\ (44 ∉ s).

(** The user behind an id. *)
Definition known (us : list User) (id : Z) : Prop := exists u, u ∈ us /\ u_id u = id.

(** The entry of a user without the newline. *)
Definition entry (us : list User) (u : User) (lead : Z) : list Z :=
  fmt_d (u_id u) ++ 58 :: u_name u ++ 58 :: showname us lead ++ 58 :: showmembs us [] (u_memb u).

Record table_ok (us : list User) : Prop := {
  tb_names : NoDup (u_name <$> us);
  tb_user : forall u, u ∈ us -> good_name (u_name u) /\ - 2 ^ 31 < u_id u < 2 ^ 31 /\
    (exists lead, u_lead u = Some lead /\ known us lead /\ zlen (entry us u lead) < linesz - 1) /\
    Forall (known us) (u_memb u) }.

Lemma uid2user_known us id : known us id ->
  exists u, uid2user us id = Some u /\ u ∈ us /\ u_id u = id.
Proof.
  intros (u & Hu & E). induction us as [|v us IH]; [by apply not_elem_of_nil in Hu|].
  cbn. destruct (Z.eqb_spec (u_id v) id) as [Ev|Hne].
  - exists v. split; [done|]. split; [by left|done].
  - apply elem_of_cons in Hu as [->|Hu]; [done|].
    destruct (IH Hu) as (w & ? & ? & ?). exists w. split; [done|]. split; [by right|done].
Qed.

(** With distinct names the last user of a name is the only one. *)
Lemma lastuser_unique us u : NoDup (u_name <$> us) -> u ∈ us -> lastuser us (u_name u) = Some u.
Proof.
  unfold lastuser. intros Hnd Hu.
  assert (G : forall us r, (u_name u ∉ u_name <$> us) ->
    foldl (fun r v => if bool_decide (u_name v = u_name u) then Some v else r) r us = r).
  { intros us'. induction us' as [|v us' IH]; intros r Hn; [done|]. cbn in Hn |- *.
    apply not_elem_of_cons in Hn as [Hv Hn]. rewrite bool_decide_false by congruence. by apply IH. }
  generalize (@None User). induction us as [|v us IH]; intros r; [by apply not_elem_of_nil in Hu|].
  cbn in Hnd |- *. apply NoDup_cons in Hnd as [Hv Hnd].
  apply elem_of_cons in Hu as [->|Hu].
  - rewrite bool_decide_true by done. by apply G.
  - by apply IH.
Qed.

(** The name [showusers] prints for a known id leads back to the id. *)
Lemma showname_spec us id : table_ok us -> known us id ->
  good_name (showname us id) /\ exists u, lastuser us (showname us id) = Some u /\ u_id u = id.
Proof.
  intros [Hnd Hu] Hk. destruct (uid2user_known us id Hk) as (u & E & Hin & Eid).
  unfold showname. rewrite E. split; [by apply Hu|]. exists u. split; [|done].
  by apply lastuser_unique.
Qed.

(** ** Parsing what was printed *)

Definition sig_of (u : User) : Z * list Z := (u_id u, u_name u).

(** The searches see the ids and the names only. *)
Lemma lastuser_agree us us' s : sig_of <$> us' = sig_of <$> us ->
  u_id <$> lastuser us' s = u_id <$> lastuser us s.
Proof.
  unfold lastuser. intros E.
  assert (G : forall r r' : option User, u_id <$> r' = u_id <$> r ->
    u_id <$> foldl (fun r u => if bool_decide (u_name u = s) then Some u else r) r' us' =
    u_id <$> foldl (fun r u => if bool_decide (u_name u = s) then Some u else r) r us).
  { revert us' E. induction us as [|u us IH]; intros [|u' us'] E r r' Hr; try discriminate; [done|].
    cbn in E |- *. injection E as E1 E2 E. apply IH; [done|]. rewrite E2.
    destruct (bool_decide _); [|done]. cbn. by rewrite E1. }
  by apply G.
Qed.

Lemma showname_last us us' id : table_ok us -> known us id -> sig_of <$> us' = sig_of <$> us ->
  exists u, lastuser us' (showname us id) = Some u /\ u_id u = id.
Proof.
  intros Ht Hk E. destruct (showname_spec us id Ht Hk) as (_ & u & Hu & Hid).
  pose proof (lastuser_agree us us' (showname us id) E) as Ea. rewrite Hu in Ea.
  destruct (lastuser us' (showname us id)) as [v|]; [|done]. injection Ea as Ea.
  exists v. split; [done|congruence].
Qed.

Lemma members_ok us us' : table_ok us -> sig_of <$> us' = sig_of <$> us ->
  forall ms m grp fuel, known us m -> Forall (known us) ms -> (S (length ms) < fuel)%nat ->
  members fuel us' (Some (showname us m ++ showmembs us [44] ms)) grp = Ok (grp ++ m :: ms).
Proof.
  intros Ht E ms. induction ms as [|m' ms IH]; intros m grp fuel Hm Hms Hf;
    (destruct fuel as [|fuel]; [cbn in Hf; lia|]);
    destruct (showname_spec us m Ht Hm) as ((Hne & _ & _ & _ & H44) & _);
    destruct (showname_last us us' m Ht Hm E) as (u & Hu & Hid); cbn [showmembs].
  - rewrite app_nil_r. cbn [members]. rewrite getfield_last by done.
    destruct (showname us m) as [|c s] eqn:Es; [done|]. rewrite Hu, Hid.
    destruct fuel; [cbn in Hf; lia|]. done.
  - cbn [app members]. rewrite getfield_app by done.
    destruct (showname us m) as [|c s] eqn:Es; [done|]. rewrite Hu, Hid.
    apply Forall_cons in Hms as [Hm' Hms]. rewrite (IH m' (grp ++ [m]) fuel); [|done|done|cbn in Hf; lia].
    by rewrite <- app_assoc.
Qed.

Lemma showmembs_length us sep ms : table_ok us -> Forall (known us) ms ->
  (length ms <= length (showmembs us sep ms))%nat.
Proof.
  intros Ht Hms. revert sep. induction Hms as [|m ms Hm _ IH]; intros sep; cbn; [lia|].
  rewrite !length_app. destruct (showname_spec us m Ht Hm) as ((Hne & _) & _).
  specialize (IH [44]). destruct (showname us m); [done|]. cbn [length]. lia.
Qed.

Lemma members_all us us' ms : table_ok us -> sig_of <$> us' = sig_of <$> us -> Forall (known us) ms ->
  let f := showmembs us [] ms in members (S (S (length f))) us' (Some f) [] = Ok ms.
Proof.
  intros Ht E Hms. cbv zeta. pose proof (showmembs_length us [] ms Ht Hms) as Hl.
  destruct Hms as [|m ms Hm Hms]; [done|]. cbn [showmembs] in *. rewrite app_nil_l in *.
  rewrite (members_ok us us' Ht E ms m [] _ Hm Hms); [done|]. cbn [length] in Hl. lia.
Qed.

Lemma showmembs_chars us sep ms c : table_ok us -> Forall (known us) ms ->
  c = 10 \/ c = 58 -> c ∉ sep -> c ∉ showmembs us sep ms.
Proof.
  intros Ht Hms Hc. revert sep. induction Hms as [|m ms Hm _ IH]; intros sep Hs; cbn; [apply not_elem_of_nil|].
  destruct (showname_spec us m Ht Hm) as ((_ & _ & H10 & H58 & _) & _).
  rewrite !not_elem_of_app. split; [done|]. split; [by destruct Hc as [-> | ->]|].
  apply IH. rewrite not_elem_of_cons. split; [lia|apply not_elem_of_nil].
Qed.

Lemma fmt_d_not n c : - 2 ^ 31 < n < 2 ^ 31 -> c = 10 \/ c = 58 -> c ∉ fmt_d n.
Proof.
  intros Hn Hc Hin. pose proof (fmt_d_chars n Hn) as Hf. rewrite Forall_forall in Hf.
  specialize (Hf c Hin). unfold is_digit in Hf. lia.
Qed.

(** What the two passes find in a line of the output. *)
Lemma entry_fields us u lead : table_ok us -> u ∈ us -> u_lead u = Some lead ->
  let e := entry us u lead in
  readline (e ++ [10]) linesz = Some (e, []) /\
  (forall rest, readline (e ++ 10 :: rest) linesz = Some (e, rest)) /\
  skipped e = false /\
  getfield (Some e) 58 = (Some (fmt_d (u_id u)),
    Some (u_name u ++ 58 :: showname us lead ++ 58 :: showmembs us [] (u_memb u))) /\
  getfield (Some (u_name u ++ 58 :: showname us lead ++ 58 :: showmembs us [] (u_memb u))) 58 =
    (Some (u_name u), Some (showname us lead ++ 58 :: showmembs us [] (u_memb u))) /\
  getfield (Some (showname us lead ++ 58 :: showmembs us [] (u_memb u))) 58 =
    (Some (showname us lead), Some (showmembs us [] (u_memb u))) /\
  getfield (Some (showmembs us [] (u_memb u))) 58 = (Some (showmembs us [] (u_memb u)), None).
Proof.
  intros Ht Hu El. cbv zeta. destruct (tb_user us Ht u Hu) as (Hn & Hid & (l & El' & Hk & Hlen) & Hm).
  rewrite El in El'. injection El' as <-.
  destruct (showname_spec us lead Ht Hk) as ((_ & _ & L10 & L58 & _) & _).
  destruct Hn as (_ & _ & N10 & N58 & _).
  assert (H10 : 10 ∉ entry us u lead).
  { unfold entry. rewrite not_elem_of_app, not_elem_of_cons, not_elem_of_app, not_elem_of_cons,
      not_elem_of_app, not_elem_of_cons.
    pose proof (fmt_d_not (u_id u) 10 Hid ltac:(by left)).
    pose proof (showmembs_chars us [] (u_memb u) 10 Ht Hm ltac:(by left) ltac:(apply not_elem_of_nil)).
    repeat split; done. }
  split; [by apply readline_app|]. split; [intros rest; by apply readline_app|]. split.
  { destruct (fmt_d_cons (u_id u) Hid) as (c & p & E & Hc). unfold entry. rewrite E. cbn.
    by apply Z.eqb_neq. }
  split; [apply getfield_app; by apply fmt_d_not; [|right]|].
  split; [by apply getfield_app|]. split; [by apply getfield_app|].
  apply getfield_last, showmembs_chars; [done|done|by right|apply not_elem_of_nil].
Qed.

(** The lines of the users [l] of the table [us]. *)
Definition lead_of (u : User) : Z := default 0 (u_lead u).
Fixpoint text (us l : list User) : list Z :=
  match l with
  | [] => []
  | u :: l' => entry us u (lead_of u) ++ 10 :: text us l'
  end.

Lemma table_lead us u : table_ok us -> u ∈ us -> u_lead u = Some (lead_of u).
Proof.
  intros Ht Hu. destruct (tb_user us Ht u Hu) as (_ & _ & (l & E & _) & _).
  unfold lead_of. by rewrite E.
Qed.

Lemma showusers_text us l : table_ok us -> (forall u, u ∈ l -> u ∈ us) ->
  showusers_loop us l = Ok (text us l).
Proof.
  intros Ht. induction l as [|u l IH]; intros Hl; [done|]. cbn [showusers_loop text].
  unfold showuser. rewrite (table_lead us u Ht) by (apply Hl; by left). cbn [rbind].
  rewrite IH by (intros v Hv; apply Hl; by right). cbn [rbind].
  unfold entry. f_equal. by rewrite <- !app_assoc, <- !app_comm_cons, <- !app_assoc, <- !app_comm_cons, <- !app_assoc.
Qed.

Lemma text_length us l : (length l <= length (text us l))%nat.
Proof. induction l as [|u l IH]; cbn; [lia|]. rewrite length_app. cbn. lia. Qed.

(** The slot of a user after the first pass. *)
Definition blank (i : nat) (u : User) : User :=
  mkUser (u_id u) (if Z.of_nat i <? 8 then Some 0 else None) [] (u_name u).

Lemma pass1_ok us : table_ok us -> forall l acc fuel,
  (forall u, u ∈ l -> u ∈ us) -> (length l < fuel)%nat ->
  pass1 fuel (text us l) acc = Ok (acc ++ imap (fun i => blank (length acc + i)) l).
Proof.
  intros Ht l. induction l as [|u l IH]; intros acc fuel Hl Hf;
    (destruct fuel as [|fuel]; [cbn in Hf; lia|]); cbn [pass1 text].
  { cbn. by rewrite app_nil_r. }
  destruct (entry_fields us u (lead_of u) Ht ltac:(apply Hl; by left)
              ltac:(apply (table_lead us); [done|apply Hl; by left]))
    as (_ & Er & Es & E1 & E2 & _).
  rewrite Er, Es, E1, E2.
  destruct (tb_user us Ht u ltac:(apply Hl; by left)) as ((_ & Hlen & _) & Hid & _).
  rewrite IH; [|intros v Hv; apply Hl; by right|cbn in Hf; lia].
  f_equal. rewrite <- app_assoc. f_equal. cbn [imap app]. f_equal.
  - unfold blank. rewrite atol_fmt_d by done. rewrite Nat.add_0_r. f_equal.
    apply take_ge. unfold zlen in Hlen. lia.
  - apply imap_ext. intros i v _. cbn. f_equal. rewrite length_app. cbn. lia.
Qed.

Lemma insert_middle (pre post : list User) b b' :
  <[length pre := b']> (pre ++ b :: post) = pre ++ b' :: post.
Proof.
  rewrite insert_app_r_alt by lia. by rewrite Nat.sub_diag.
Qed.

Lemma lookup_middle (pre post : list User) b : (pre ++ b :: post) !! length pre = Some b.
Proof. by apply list_lookup_middle. Qed.

Lemma Forall2_sig bl l :
  Forall2 (fun b u => sig_of b = sig_of u) bl l -> sig_of <$> bl = sig_of <$> l.
Proof. induction 1 as [|b u bl l E _ IH]; [done|]. cbn [fmap list_fmap]. by rewrite E, IH. Qed.

Lemma imap_sig (f : nat -> User -> User) l : (forall i u, sig_of (f i u) = sig_of u) ->
  Forall2 (fun b u => sig_of b = sig_of u) (imap f l) l.
Proof.
  revert f. induction l as [|u l IH]; intros f Hf; [constructor|].
  cbn [imap]. constructor; [apply Hf|]. apply IH. intros. apply Hf.
Qed.

Lemma pass2_ok us : table_ok us -> forall l pre bl fuel,
  us = pre ++ l -> Forall2 (fun b u => sig_of b = sig_of u) bl l -> (length l < fuel)%nat ->
  pass2 fuel (text us l) (pre ++ bl) (length pre) = Ok us.
Proof.
  intros Ht l. induction l as [|u l IH]; intros pre bl fuel Eus Hbl Hf;
    (destruct fuel as [|fuel]; [cbn in Hf; lia|]); cbn [pass2 text].
  { apply Forall2_nil_inv_r in Hbl as ->. cbn. by rewrite Eus. }
  apply Forall2_cons_inv_r in Hbl as (b & bl' & Hb & Hbl & ->).
  assert (Hu : u ∈ us) by (rewrite Eus; apply elem_of_app; right; by left).
  pose proof (table_lead us u Ht Hu) as El.
  destruct (entry_fields us u (lead_of u) Ht Hu El) as (_ & Er & Es & E1 & E2 & E3 & E4).
  rewrite Er, Es, E1, E2, E3.
  destruct (tb_user us Ht u Hu) as (_ & _ & (lead & El' & Hk & _) & Hm).
  rewrite El in El'. injection El' as <-.
  assert (Hsig : forall x, sig_of x = sig_of u -> sig_of <$> (pre ++ x :: bl') = sig_of <$> us).
  { intros x Hx. rewrite Eus, !fmap_app. cbn. rewrite Hx. do 2 f_equal.
    by apply Forall2_sig. }
  destruct (showname_spec us (lead_of u) Ht Hk) as ((Hne & _) & _).
  destruct (showname_last us _ (lead_of u) Ht Hk (Hsig b Hb)) as (v & Hv & Hvid).
  destruct (showname us (lead_of u)) as [|c s] eqn:Ename; [done|]. rewrite Hv.
  unfold set_lead. rewrite lookup_middle. cbn [rbind]. rewrite insert_middle, E4, Hvid.
  injection Hb as Hid Hnm.
  pose proof (members_all us _ (u_memb u) Ht
    (Hsig (mkUser (u_id b) (Some (lead_of u)) (u_memb b) (u_name b)) ltac:(unfold sig_of; cbn; by rewrite Hid, Hnm)) Hm) as Em.
  cbv zeta in Em. rewrite Em. cbn [rbind]. unfold set_memb. rewrite lookup_middle. cbn [rbind].
  rewrite insert_middle. cbn [u_id u_lead u_name].
  replace (mkUser (u_id b) (Some (lead_of u)) (u_memb u) (u_name b)) with u
    by (rewrite Hid, Hnm, <- El; by destruct u).
  replace (pre ++ u :: bl') with ((pre ++ [u]) ++ bl') by (by rewrite <- app_assoc).
  replace (S (length pre)) with (length (pre ++ [u])) by (rewrite length_app; cbn; lia).
  apply IH; [by rewrite Eus, <- app_assoc|done|cbn in Hf; lia].
Qed.

(** ** Every accepted table *)

(** Members and leaders are ids of the table; a leader that the file leaves
    out is 0 or uninitialised. *)
Definition table_wf (us : list User) : Prop :=
  forall u, u ∈ us -> Forall (known us) (u_memb u) /\
    forall l, u_lead u = Some l -> l = 0 \/ known us l.

Lemma known_sig us us' id : sig_of <$> us' = sig_of <$> us -> known us id -> known us' id.
Proof.
  intros E (u & Hu & Eid).
  assert (Hin : sig_of u ∈ sig_of <$> us') by (rewrite E; by apply list_elem_of_fmap_2).
  apply list_elem_of_fmap in Hin as (v & Ev & Hv). exists v. split; [done|].
  injection Ev as Ev _. congruence.
Qed.

Lemma lastuser_in us s u : lastuser us s = Some u -> u ∈ us.
Proof.
  unfold lastuser.
  assert (G : forall l r, foldl (fun r v => if bool_decide (u_name v = s) then Some v else r) r l = Some u ->
    r = Some u \/ u ∈ l).
  { induction l as [|v l IH]; intros r E; [by left|]. cbn in E. apply IH in E as [E|E].
    - destruct (bool_decide _); [injection E as ->; right; by left|by left].
    - right. by right. }
  intros E. destruct (G us None E); done.
Qed.

Lemma members_known fuel us : forall f grp r,
  Forall (known us) grp -> members fuel us f grp = Ok r -> Forall (known us) r.
Proof.
  induction fuel as [|fuel IH]; intros f grp r Hg E; [done|]. cbn [members] in E.
  destruct (getfield f 44) as [[[|c m]|] f'].
  - by eapply IH.
  - destruct (lastuser us (c :: m)) as [u|] eqn:Eu; [|done]. eapply IH; [|exact E].
    apply Forall_app. split; [done|]. constructor; [|constructor]. exists u. split; [|done].
    by eapply lastuser_in.
  - by injection E as <-.
Qed.

Lemma set_slot (us : list User) (i : nat) u v : us !! i = Some u -> sig_of v = sig_of u ->
  sig_of <$> <[i := v]> us = sig_of <$> us.
Proof.
  intros Hu E. rewrite list_fmap_insert, E. apply list_insert_id. by rewrite list_lookup_fmap, Hu.
Qed.

Lemma table_wf_set (us : list User) (i : nat) u v : table_wf us -> us !! i = Some u -> sig_of v = sig_of u ->
  Forall (known us) (u_memb v) -> (forall l, u_lead v = Some l -> l = 0 \/ known us l) ->
  table_wf (<[i := v]> us).
Proof.
  intros Hwf Hu Es Hm Hl. pose proof (set_slot us i u v Hu Es) as Esig.
  assert (Hk : forall id, known us id -> known (<[i := v]> us) id) by (intros id; by apply known_sig).
  intros w Hw. apply list_elem_of_lookup in Hw as (j & Hj).
  assert (Hcase : w = v \/ w ∈ us).
  { destruct (decide (i = j)) as [->|Hne].
    - rewrite list_lookup_insert_eq in Hj by (by eapply lookup_lt_Some). injection Hj as <-. by left.
    - rewrite list_lookup_insert_ne in Hj by done. right. by eapply list_elem_of_lookup_2. }
  destruct Hcase as [->|Hw].
  - split; [by eapply Forall_impl|]. intros l E. destruct (Hl l E); auto.
  - destruct (Hwf w Hw) as [H1 H2]. split; [by eapply Forall_impl|]. intros l E. destruct (H2 l E); auto.
Qed.

Lemma pass1_wf fuel : forall pu us r, table_wf us -> pass1 fuel pu us = Ok r ->
  (forall u, u ∈ us -> u_memb u = [] /\ forall l, u_lead u = Some l -> l = 0) ->
  forall u, u ∈ r -> u_memb u = [] /\ forall l, u_lead u = Some l -> l = 0.
Proof.
  induction fuel as [|fuel IH]; intros pu us r Hwf E Hus; [done|]. cbn [pass1] in E.
  destruct (readline pu linesz) as [[l pu']|]; [|by injection E as <-].
  destruct (skipped l); [by eapply IH|].
  destruct (getfield (Some l) 58) as [[id|] p]; [|done].
  destruct (getfield p 58) as [[name|] p']; [|done].
  set (v := mkUser _ _ _ _) in E.
  assert (Hv : forall u, u ∈ us ++ [v] -> u_memb u = [] /\ forall l, u_lead u = Some l -> l = 0).
  { intros u [Hu| ->%list_elem_of_singleton]%elem_of_app; [by apply Hus|]. split; [done|].
    intros l'. cbn. destruct (_ <? _); congruence. }
  eapply IH; [|exact E|exact Hv]. intros u Hu. destruct (Hv u Hu) as [-> Hl]. split; [constructor|].
  intros l' E'. left. by apply Hl.
Qed.

Lemma pass2_wf fuel : forall pu us i r, table_wf us -> pass2 fuel pu us i = Ok r -> table_wf r.
Proof.
  induction fuel as [|fuel IH]; intros pu us i r Hwf E; [done|]. cbn [pass2] in E.
  destruct (readline pu linesz) as [[l pu']|]; [|by injection E as <-].
  destruct (skipped l); [by eapply IH|].
  destruct (getfield (Some l) 58) as [f0 p0]. destruct (getfield p0 58) as [f1 p1].
  destruct (getfield p1 58) as [[f|] p2]; [|done].
  bind_inv E as us1 E1.
  assert (Hwf1 : table_wf us1).
  { destruct f as [|c f]; [by injection E1 as <-|].
    destruct (lastuser us (c :: f)) as [u|] eqn:Eu; [|done]. unfold set_lead in E1.
    destruct (us !! i) as [v|] eqn:Ev; [|done]. injection E1 as <-.
    destruct (Hwf v) as [Hm _]; [by eapply list_elem_of_lookup_2|].
    eapply table_wf_set; [done|exact Ev|done|done|]. cbn. intros l' [= <-]. right.
    exists u. split; [by eapply lastuser_in|done]. }
  destruct (getfield p2 58) as [[g|] p3]; [|done].
  bind_inv E as grp E2. bind_inv E as us2 E3.
  apply members_known in E2; [|constructor].
  unfold set_memb in E3. destruct (us1 !! i) as [v|] eqn:Ev; [|done]. injection E3 as <-.
  destruct (Hwf1 v) as [_ Hl]; [by eapply list_elem_of_lookup_2|].
  eapply IH; [|exact E]. by eapply table_wf_set.
Qed.

(** ** Permissions *)

(** Membership as the table defines it. *)
Definition is_member (us : list User) (uid gid : Z) : Prop :=
  known us uid /\ exists g, uid2user us gid = Some g /\ (uid = gid \/ uid ∈ u_memb g).

Lemma uid2user_id us id u : uid2user us id = Some u -> u_id u = id /\ u ∈ us.
Proof.
  induction us as [|v us IH]; [done|]. cbn. destruct (Z.eqb_spec (u_id v) id).
  - intros [= <-]. split; [done|by left].
  - intros E. destruct (IH E). split; [done|by right].
Qed.

Lemma ingroup_spec us uid gid : ingroup us uid gid = true <-> is_member (users us) uid gid.
Proof.
  unfold ingroup, is_member. split.
  - destruct (uid2user (users us) uid) as [u|] eqn:Eu; [|done].
    destruct (uid2user (users us) gid) as [g|] eqn:Eg; [|done].
    apply uid2user_id in Eu as [Hu Hin]. pose proof (uid2user_id _ _ _ Eg) as [Hg _].
    intros E. split; [by exists u|]. exists g. split; [done|].
    destruct (Z.eqb_spec (u_id u) (u_id g)); [left; congruence|]. right.
    apply existsb_exists in E as (m & Hm & E). zb. rewrite list_elem_of_In. congruence.
  - intros [Hk (g & Eg & H)]. destruct (uid2user_known _ _ Hk) as (u & -> & _ & Hu). rewrite Eg.
    apply uid2user_id in Eg as [Hg _]. rewrite Hu, Hg.
    destruct (Z.eqb_spec uid gid); [done|]. destruct H as [?|H]; [done|].
    apply existsb_exists. exists uid. rewrite <- list_elem_of_In. split; [done|apply Z.eqb_refl].
Qed.

Lemma land_subset m f : Z.land m f = m <-> forall i, 0 <= i -> Z.testbit m i = true -> Z.testbit f i = true.
Proof.
  split.
  - intros E i Hi Hm. rewrite <- E, Z.land_spec in Hm. by apply andb_true_iff in Hm as [_ Hm].
  - intros H. apply Z.bits_inj'. intros i Hi. rewrite Z.land_spec.
    destruct (Z.testbit m i) eqn:E; [by rewrite H|done].
Qed.

(** All the bits of [m] are granted by [fmode] shifted down by [s]. *)
Definition grants (fmode s m : Z) : Prop :=
  forall i, 0 <= i -> Z.testbit m i = true -> Z.testbit fmode (i + s) = true.

Lemma grants_spec fmode s m : 0 <= s -> (Z.land m (Z.shiftr fmode s) =? m) = true <-> grants fmode s m.
Proof.
  intros Hs. rewrite Z.eqb_eq, land_subset. unfold grants.
  split; intros H i Hi Hm; specialize (H i Hi Hm); rewrite Z.shiftr_spec in * by done; done.
Qed.

(** The rule of the access check. *)
Definition may_access (us : Users) (permit : bool) (uid fmode fuid fgid m : Z) : Prop :=
  permit = true \/
  (uid ≠ noneid us /\ uid = fuid /\ grants fmode 6 m) \/
  (uid ≠ noneid us /\ is_member (users us) uid fgid /\ grants fmode 3 m) \/
  (grants fmode 0 m /\
   ((Z.land fmode DMDIR ≠ 0 /\ m = DMEXEC) \/ ~ is_member (users us) uid (nogroupid us))).

Lemma okname_loop_spec fuel name :
  okname_loop fuel name = None <-> (length name < fuel)%nat /\ Forall (fun c => 32 <= c /\ c ≠ 47) name.
Proof.
  revert name. induction fuel as [|fuel IH]; intros name; cbn [okname_loop]; [split; [done|lia]|].
  destruct name as [|c name]; [split; [split; [cbn; lia|constructor]|done]|].
  rewrite Forall_cons. cbn [length]. destruct ((c <? 32) || (c =? 47)) eqn:E.
  - split; [done|]. intros (_ & (H1 & H2) & _). apply orb_true_iff in E as [E|E]; zb; lia.
  - zb. rewrite IH. intuition lia.
Qed.

(** Nine users without leaders. *)
Definition nine_users : list Z :=
  concat ((fun i => [48 + i; 58; 96 + i; 58; 58; 10]) <$> [1; 2; 3; 4; 5; 6; 7; 8; 9]).

(** ** Theorems *)

(** C18: the user table that the console prints is parsed back to the same
    table, when names are free of separators and fit, and leaders and members
    are users of the table. *)
Theorem parse_showusers us s : table_ok us -> showusers us = Ok s -> parseusers s = Ok us.
Proof.
  intros Ht E. unfold showusers in E. rewrite (showusers_text us us Ht) in E by done.
  injection E as <-. unfold parseusers. pose proof (text_length us us) as Hl.
  rewrite (pass1_ok us Ht us []) by (done || lia). cbn [rbind app].
  apply (pass2_ok us Ht us [] _ _ eq_refl); [|lia].
  by apply imap_sig.
Qed.

(** A table that the parser accepts is closed: every member of a group and
    every leader that the file names is a user of the table. *)
Theorem parseusers_closed s us : parseusers s = Ok us -> table_wf us.
Proof.
  unfold parseusers. intros E. bind_inv E as us1 E1.
  eapply pass2_wf; [|exact E]. intros u Hu.
  destruct (pass1_wf _ _ _ _ ltac:(by intros v ?%not_elem_of_nil) E1 ltac:(by intros v ?%not_elem_of_nil) u Hu)
    as [-> Hl]. split; [constructor|]. intros l El. left. by apply Hl.
Qed.

(** The ninth user of a table, when it has no leader, keeps the bytes that
    [realloc] left in [lead], and [groupleader] reads them. *)
Theorem ninth_lead_uninit :
  exists us u, parseusers nine_users = Ok us /\ us !! 8%nat = Some u /\ u_lead u = None /\
    groupleader (mkUsers us 0 9999 (-1)) 1 9 = Err Euninit.
Proof. do 2 eexists. split; [vm_compute; reflexivity|]. repeat split; reflexivity. Qed.

(** C19: [fsaccess] grants a request exactly when the fid is exempt, or its user
    is not none and is the owner or a member of the group and the bits of
    that class are set, or the bits of everyone are set and the request is to
    search a directory or the user is not in nogroup; otherwise it is -1. *)
Theorem fsaccess_correct us permit uid fmode fuid fgid m :
  (fsaccess us permit uid fmode fuid fgid m = 0 <-> may_access us permit uid fmode fuid fgid m) /\
  (fsaccess us permit uid fmode fuid fgid m = 0 \/ fsaccess us permit uid fmode fuid fgid m = -1).
Proof.
  unfold fsaccess, may_access.
  pose proof (grants_spec fmode 6 m ltac:(lia)) as G6. pose proof (grants_spec fmode 3 m ltac:(lia)) as G3.
  pose proof (grants_spec fmode 0 m ltac:(lia)) as G0. rewrite Z.shiftr_0_r in G0.
  pose proof (ingroup_spec us uid fgid) as I1. pose proof (ingroup_spec us uid (nogroupid us)) as I2.
  rewrite <- G6, <- G3, <- G0, <- I1, <- I2.
  destruct permit; [by split; [tauto|left]|].
  destruct (Z.eqb_spec uid (noneid us)), (Z.eqb_spec uid fuid), (Z.eqb_spec (Z.land fmode DMDIR) 0),
    (Z.eqb_spec m DMEXEC), (ingroup us uid fgid), (ingroup us uid (nogroupid us)),
    (Z.land m (Z.shiftr fmode 6) =? m), (Z.land m (Z.shiftr fmode 3) =? m), (Z.land m fmode =? m);
    cbn [negb andb orb]; (split; [split|by auto]);
    first [ by intros [?|[(?&?&?)|[(?&?&?)|(?&[(?&?)|?])]]]
          | intros ?; first [done | by right; left | by right; right; left
                            | right; right; right; split; [done|]; by (left + right)] ].
Qed.

(** A name is accepted exactly when it is not empty, not [.] or [..], shorter
    than [Maxname] and free of control characters and slashes. *)
Theorem okname_spec name :
  okname name = None <->
  name ≠ [] /\ name ≠ [46] /\ name ≠ [46; 46] /\ zlen name < Maxname /\
  Forall (fun c => 32 <= c /\ c ≠ 47) name.
Proof.
  unfold okname. destruct name as [|c name]; [by split; [|intros [? _]]|].
  destruct (bool_decide (c :: name = [46])) eqn:E1; [apply bool_decide_eq_true in E1; by split; [|intros (_ & ? & _)]|].
  destruct (bool_decide (c :: name = [46; 46])) eqn:E2; [apply bool_decide_eq_true in E2; by split; [|intros (_ & _ & ? & _)]|].
  apply bool_decide_eq_false in E1, E2. cbn [orb]. rewrite okname_loop_spec. unfold zlen.
  split; [intros [H1 H2]; split; [done|]; split; [done|]; split; [done|]; split; [lia|done]|].
  intros (_ & _ & _ & H1 & H2). split; [lia|done].
Qed.

(** ** Witnesses *)

Definition adm_ex : User := mkUser (-1) (Some (-1)) [2] [97; 100; 109].
Definition bob_ex : User := mkUser 2 (Some (-1)) [] [98; 111; 98].

Lemma table_ex : table_ok [adm_ex; bob_ex].
Proof.
  constructor.
  - repeat constructor; set_solver.
  - intros u Hu. assert (Hk : forall id, id = -1 \/ id = 2 -> known [adm_ex; bob_ex] id).
    { intros id [-> | ->]; [exists adm_ex|exists bob_ex]; split; try done; set_solver. }
    apply elem_of_cons in Hu as [->|Hu%list_elem_of_singleton]; [|subst u];
      (split; [|split; [cbn; lia|split; [exists (-1); split; [done|]; split; [apply Hk; by left|vm_compute; done]|]]]).
    + repeat split; cbn; try done; try lia; set_solver.
    + repeat constructor. apply Hk. by right.
    + repeat split; cbn; try done; try lia; set_solver.
    + constructor.
Qed.

Lemma parse_showusers_witness :
  exists s, showusers [adm_ex; bob_ex] = Ok s /\ parseusers s = Ok [adm_ex; bob_ex].
Proof.
  eexists. split; [vm_compute; reflexivity|].
  apply (parse_showusers _ _ table_ex). vm_compute. reflexivity.
Defined.

Lemma parseusers_closed_witness :
  exists us, parseusers nine_users = Ok us /\ table_wf us.
Proof.
  eexists. split; [vm_compute; reflexivity|].
  apply (parseusers_closed nine_users). vm_compute. reflexivity.
Defined.
