(* ===== verification/Stat.v ===== *)
(** * Directory entries for 9P (src/pack.c: [dir2statbuf], [kv2statbuf])

    The entry format of the 9P protocol is little-endian and names users by
    name.  [convM2D] of the Plan 9 library, which src/fs.c uses to read the
    entry of a wstat request, is translated from its documentation. *)
From S2P Require Import Prelude CInt Mem Data Pack Users.

Definition PBIT8 (v : Z) : list Z := [u8 v].
Definition PBIT16 (v : Z) : list Z := [u8 v; u8 (Z.shiftr v 8)].
Definition PBIT32 (v : Z) : list Z := PBIT16 v ++ PBIT16 (Z.shiftr v 16).
Definition PBIT64 (v : Z) : list Z := PBIT32 v ++ PBIT32 (Z.shiftr v 32).

Definition STATFIXLEN : Z := 49.
Definition Nsec : Z := 1000 * 1000 * 1000.

(** A string with its length in front. *)
Definition pstr (s : list Z) : list Z := PBIT16 (zlen s) ++ s.

(** The times are rounded to seconds; division of C truncates. *)
Definition secs (t : Z) : Z := Z.quot (t + Nsec / 2) Nsec.

Definition stat_bytes (d : Xdir) (u g m : User) (sz : Z) : list Z :=
  PBIT16 (sz - 2) ++ PBIT16 (-1) ++ PBIT32 (-1) ++ PBIT8 (q_type (d_qid d)) ++
  PBIT32 (q_vers (d_qid d)) ++ PBIT64 (q_path (d_qid d)) ++ PBIT32 (d_mode d) ++
  PBIT32 (secs (d_atime d)) ++ PBIT32 (secs (d_mtime d)) ++ PBIT64 (d_length d) ++
  pstr (d_name d) ++ pstr (u_name u) ++ pstr (u_name g) ++ pstr (u_name m).

(** [None] stands for the result -1.  The second fallback assigns [u], so that
    [g] stays empty. *)
Definition dir2statbuf (us : Users) (d : Xdir) (nbuf : Z) : res (option (list Z)) :=
  let u := match uid2user (users us) (d_uid d) with
           | Some u => Some u
           | None => uid2user (users us) (noneid us)
           end in
  let g := uid2user (users us) (d_gid d) in
  let u := match g with Some _ => u | None => uid2user (users us) (nogroupid us) end in
  let m := match uid2user (users us) (d_muid d) with
           | Some m => Some m
           | None => uid2user (users us) (noneid us)
           end in
  match u, g, m with
  | Some u, Some g, Some m =>
      let sz := STATFIXLEN + zlen (d_name d) + zlen (u_name u) + zlen (u_name g) + zlen (u_name m) in
      if nbuf <? sz then Ok None else
      let p := stat_bytes d u g m sz in
      assert! zlen p =? sz in
      Ok (Some p)
  | _, _, _ => Err Eperm
  end.

Definition kv2statbuf (us : Users) (kv : Kvp) (nbuf : Z) : res (option (list Z)) :=
  let! d := kv2dir kv in dir2statbuf us d nbuf.

(** ** Reading an entry *)

(** The fields of [Dir] that src/fs.c uses. *)
Record Dir := mkDir {
  r_qid : Qid; r_mode : Z; r_mtime : Z; r_length : Z;
  r_name : list Z; r_uid : list Z; r_gid : list Z; r_muid : list Z }.

Definition GBIT16 (p : list Z) : Z := byte_at p 0 + 256 * byte_at p 1.
Definition GBIT32 (p : list Z) : Z := GBIT16 p + 65536 * GBIT16 (drop 2 p).
Definition GBIT64 (p : list Z) : Z := GBIT32 p + 2 ^ 32 * GBIT32 (drop 4 p).

(** A string and the bytes behind it; [None] when it does not fit. *)
Definition gstr (p : list Z) : option (list Z * list Z) :=
  if zlen p <? 2 then None
  else let n := GBIT16 p in
       let p := drop 2 p in
       if zlen p <? n then None else Some (take (Z.to_nat n) p, drop (Z.to_nat n) p).

(** [None] stands for the result 0. *)
Definition convM2D (p : list Z) : option Dir :=
  if zlen p <? 41 then None else
  let qtype := byte_at p 8 in
  let vers := GBIT32 (drop 9 p) in
  let path := GBIT64 (drop 13 p) in
  let mode := GBIT32 (drop 21 p) in
  let mtime := GBIT32 (drop 29 p) in
  let len := GBIT64 (drop 33 p) in
  match gstr (drop 41 p) with
  | Some (name, p) =>
    match gstr p with
    | Some (uid, p) =>
      match gstr p with
      | Some (gid, p) =>
        match gstr p with
        | Some (muid, p) =>
            if zlen p =? 0 then Some (mkDir (mkQid path vers qtype) mode mtime len name uid gid muid)
            else None
        | None => None
        end
      | None => None
      end
    | None => None
    end
  | None => None
  end.

(** ** Round trip *)

Lemma GBIT16_PBIT16 v r : GBIT16 (PBIT16 v ++ r) = u16 v.
Proof.
  unfold GBIT16, PBIT16, byte_at, u8, u16. cbn [app nth].
  rewrite Z.shiftr_div_pow2 by lia. change (2 ^ 8) with 256. change (2 ^ 16) with (256 * 256).
  rewrite Z.rem_mul_r by lia. lia.
Qed.

Lemma GBIT32_PBIT32 v r : GBIT32 (PBIT32 v ++ r) = u32 v.
Proof.
  unfold GBIT32, PBIT32. rewrite <- app_assoc, GBIT16_PBIT16.
  change (drop 2 (PBIT16 v ++ PBIT16 (Z.shiftr v 16) ++ r)) with (PBIT16 (Z.shiftr v 16) ++ r).
  rewrite GBIT16_PBIT16. unfold u16, u32. rewrite Z.shiftr_div_pow2 by lia.
  change (2 ^ 32) with (2 ^ 16 * 2 ^ 16). rewrite Z.rem_mul_r by lia. lia.
Qed.

Lemma GBIT64_PBIT64 v r : GBIT64 (PBIT64 v ++ r) = u64 v.
Proof.
  unfold GBIT64, PBIT64. rewrite <- app_assoc, GBIT32_PBIT32.
  change (drop 4 (PBIT32 v ++ PBIT32 (Z.shiftr v 32) ++ r)) with (PBIT32 (Z.shiftr v 32) ++ r).
  rewrite GBIT32_PBIT32. unfold u32, u64. rewrite Z.shiftr_div_pow2 by lia.
  change (2 ^ 64) with (2 ^ 32 * 2 ^ 32). rewrite Z.rem_mul_r by lia. lia.
Qed.

Lemma zlen_PBIT16 v : zlen (PBIT16 v) = 2. Proof. done. Qed.
Lemma zlen_PBIT32 v : zlen (PBIT32 v) = 4. Proof. done. Qed.
Lemma zlen_PBIT64 v : zlen (PBIT64 v) = 8. Proof. done. Qed.

Lemma zlen_pstr s : zlen (pstr s) = 2 + zlen s.
Proof. unfold pstr. by rewrite zlen_app. Qed.

Lemma gstr_pstr s r : zlen s < 2 ^ 16 -> gstr (pstr s ++ r) = Some (s, r).
Proof.
  intros Hs. pose proof (zlen_nonneg s). pose proof (zlen_nonneg r). unfold gstr.
  rewrite zlen_app, zlen_pstr, (proj2 (Z.ltb_ge _ 2)) by lia.
  unfold pstr. rewrite <- app_assoc, GBIT16_PBIT16.
  change (drop 2 (PBIT16 (zlen s) ++ s ++ r)) with (s ++ r). rewrite u16_small by lia.
  rewrite zlen_app, (proj2 (Z.ltb_ge _ _)) by lia. rewrite to_nat_zlen.
  by rewrite take_app_length, drop_app_length.
Qed.

Lemma zlen_stat_bytes d u g m sz :
  zlen (stat_bytes d u g m sz) =
    STATFIXLEN + zlen (d_name d) + zlen (u_name u) + zlen (u_name g) + zlen (u_name m).
Proof.
  unfold stat_bytes. rewrite !zlen_app, !zlen_pstr. rewrite !zlen_PBIT16, !zlen_PBIT32, !zlen_PBIT64.
  change (zlen (PBIT8 _)) with 1. unfold STATFIXLEN. lia.
Qed.

(** The users that [dir2statbuf] names. *)
Record stat_users (us : Users) (d : Xdir) (u g m : User) : Prop := {
  su_uid : uid2user (users us) (d_uid d) = Some u \/
    (uid2user (users us) (d_uid d) = None /\ uid2user (users us) (noneid us) = Some u);
  su_gid : uid2user (users us) (d_gid d) = Some g;
  su_muid : uid2user (users us) (d_muid d) = Some m \/
    (uid2user (users us) (d_muid d) = None /\ uid2user (users us) (noneid us) = Some m) }.

Lemma dir2statbuf_ok us d u g m nbuf : stat_users us d u g m ->
  let sz := STATFIXLEN + zlen (d_name d) + zlen (u_name u) + zlen (u_name g) + zlen (u_name m) in
  dir2statbuf us d nbuf = Ok (if nbuf <? sz then None else Some (stat_bytes d u g m sz)).
Proof.
  intros [Hu Hg Hm] sz. unfold dir2statbuf. rewrite Hg.
  assert (Eu : match uid2user (users us) (d_uid d) with Some u => Some u
     | None => uid2user (users us) (noneid us) end = Some u) by (destruct Hu as [->|[-> ->]]; done).
  assert (Em : match uid2user (users us) (d_muid d) with Some m => Some m
     | None => uid2user (users us) (noneid us) end = Some m) by (destruct Hm as [->|[-> ->]]; done).
  rewrite Eu, Em. fold sz. destruct (nbuf <? sz); [done|]. rewrite zlen_stat_bytes. fold sz.
  by rewrite Z.eqb_refl.
Qed.

Lemma convM2D_stat d u g m sz :
  wf_xdir d -> zlen (u_name u) < 2 ^ 16 -> zlen (u_name g) < 2 ^ 16 -> zlen (u_name m) < 2 ^ 16 ->
  convM2D (stat_bytes d u g m sz) =
    Some (mkDir (d_qid d) (d_mode d) (u32 (secs (d_mtime d))) (d_length d)
            (d_name d) (u_name u) (u_name g) (u_name m)).
Proof.
  intros (? & ? & ? & ? & ? & ? & ? & ? & ? & ? & ? & ? & ?) Hu Hg Hm. unfold convM2D.
  rewrite zlen_stat_bytes. unfold STATFIXLEN.
  pose proof (zlen_nonneg (d_name d)). pose proof (zlen_nonneg (u_name u)).
  pose proof (zlen_nonneg (u_name g)). pose proof (zlen_nonneg (u_name m)).
  rewrite (proj2 (Z.ltb_ge _ 41)) by lia. unfold stat_bytes.
  set (tl := pstr (d_name d) ++ _). set (ty := PBIT8 (q_type (d_qid d))).
  set (vs := PBIT32 (q_vers (d_qid d))). set (pa := PBIT64 (q_path (d_qid d))). set (md := PBIT32 (d_mode d)).
  set (mt := PBIT32 (secs (d_mtime d))). set (ln := PBIT64 (d_length d)).
  match goal with |- context [drop 41 ?p] => set (b := p) end.
  change (drop 41 b) with tl. change (drop 9 b) with (vs ++ pa ++ md ++ PBIT32 (secs (d_atime d)) ++ mt ++ ln ++ tl).
  change (drop 13 b) with (pa ++ md ++ PBIT32 (secs (d_atime d)) ++ mt ++ ln ++ tl).
  change (drop 21 b) with (md ++ PBIT32 (secs (d_atime d)) ++ mt ++ ln ++ tl).
  change (drop 29 b) with (mt ++ ln ++ tl). change (drop 33 b) with (ln ++ tl).
  change (byte_at b 8) with (u8 (q_type (d_qid d))).
  unfold vs, pa, md, mt, ln. rewrite !GBIT32_PBIT32, !GBIT64_PBIT64. unfold tl.
  rewrite !gstr_pstr by done. rewrite <- (app_nil_r (pstr (u_name m))), gstr_pstr by done.
  change (zlen [] =? 0) with true. cbn iota.
  rewrite !u64_small, (u32_small (q_vers _)), (u32_small (d_mode _)), u8_small by done.
  by destruct d as [? [] ? ? ? ? ? ? ? ?].
Qed.

(** ** Theorems *)

(** The entry that stat and directory reads send is decoded by the reader of
    wstat to the same qid, mode, length and name, to the names of the users,
    and to the modification time in seconds; it is not sent when the buffer is
    too small. *)
Theorem stat_roundtrip us d u g m nbuf :
  wf_xdir d -> stat_users us d u g m ->
  zlen (u_name u) < 2 ^ 16 -> zlen (u_name g) < 2 ^ 16 -> zlen (u_name m) < 2 ^ 16 ->
  let sz := STATFIXLEN + zlen (d_name d) + zlen (u_name u) + zlen (u_name g) + zlen (u_name m) in
  if nbuf <? sz then dir2statbuf us d nbuf = Ok None
  else exists p, dir2statbuf us d nbuf = Ok (Some p) /\ zlen p = sz /\
    convM2D p = Some (mkDir (d_qid d) (d_mode d) (u32 (secs (d_mtime d))) (d_length d)
                        (d_name d) (u_name u) (u_name g) (u_name m)).
Proof.
  intros Hd Hs Hu Hg Hm sz. rewrite (dir2statbuf_ok us d u g m) by done. fold sz.
  destruct (nbuf <? sz); [done|]. eexists. split; [done|].
  split; [apply zlen_stat_bytes|by apply convM2D_stat].
Qed.

(** An entry whose group is not in the user table cannot be shown, although
    the table has a user for that case: the fallback is assigned to the wrong
    variable. *)
Theorem stat_no_group us d nbuf :
  uid2user (users us) (d_gid d) = None -> dir2statbuf us d nbuf = Err Eperm.
Proof.
  intros Hg. unfold dir2statbuf. rewrite Hg. by destruct (uid2user (users us) (nogroupid us)).
Qed.

(** ** Witnesses *)

Definition us_ex : Users := mkUsers [mkUser 0 None [] [110]; mkUser 1 None [] [98]] 0 1 7.
Definition d_ex : Xdir := mkXdir 0 (mkQid 5 1 0) 420 0 1500000000 9 1 1 8 [102].

Lemma stat_roundtrip_witness :
  exists p, dir2statbuf us_ex d_ex 100 = Ok (Some p) /\ zlen p = 53 /\
    convM2D p = Some (mkDir (mkQid 5 1 0) 420 2 9 [102] [98] [98] [110]).
Proof.
  apply (stat_roundtrip us_ex d_ex (mkUser 1 None [] [98]) (mkUser 1 None [] [98]) (mkUser 0 None [] [110]) 100);
    [|split; [by left|done|by right]|done|done|done].
  repeat split; cbn; try lia; try done. repeat constructor; lia.
Defined.

Lemma stat_no_group_witness :
  dir2statbuf us_ex (mkXdir 0 (mkQid 5 1 0) 420 0 0 9 1 33 1 [102]) 100 = Err Eperm.
Proof. apply (stat_no_group us_ex (mkXdir 0 (mkQid 5 1 0) 420 0 0 9 1 33 1 [102]) 100). reflexivity. Defined.
