(* ===== verification/Chan.v ===== *)
(** * Message channels between the processes (src/fs.c: [mkchan], [chsend],
    [chrecv])

    A channel is a ring of [size] slots with a write and a read position,
    each under its own lock, and two counting semaphores.  A process that
    sends takes a token of [avail], stores its message, and gives a token to
    [count]; a process that receives does the opposite.  Each of these three
    stages is atomic (a successful compare-and-swap or [semacquire], a
    critical section, a [semrelease]) and the stages of different processes
    interleave: [kstep] is the step relation. *)
From stdpp Require Import relations.
From S2P Require Import Prelude.

Section chan.
Context {X : Type}.

(** [struct Chan]; the two positions are indices into [args]. *)
Record Chan := mkChan {
  ch_size : nat;
  ch_count : nat;
  ch_avail : nat;
  ch_rp : nat;
  ch_wp : nat;
  ch_args : list (option X) }.

(** [mallocz] clears the slots. *)
Definition mkchan (size : nat) : Chan := mkChan size 0 size 0 0 (replicate size None).

(** Taking a token of a semaphore: the fast path is a compare-and-swap of a
    positive value, the slow one is [semacquire], which waits for one. *)
Definition take_token (n : nat) : option nat :=
  match n with O => None | S n' => Some n' end.

(** [if(++p >= &c->args[c->size]) p = c->args;] *)
Definition advance (size p : nat) : nat := if decide (size <= S p)%nat then 0%nat else S p.

(** The stages of [chsend]. *)
Definition send_take (c : Chan) : option Chan :=
  match take_token (ch_avail c) with
  | Some n => Some (mkChan (ch_size c) (ch_count c) n (ch_rp c) (ch_wp c) (ch_args c))
  | None => None
  end.
Definition send_put (c : Chan) (m : X) : res Chan :=
  match ch_args c !! ch_wp c with
  | Some _ => Ok (mkChan (ch_size c) (ch_count c) (ch_avail c) (ch_rp c)
                    (advance (ch_size c) (ch_wp c)) (<[ch_wp c := Some m]> (ch_args c)))
  | None => Err Eoob
  end.
Definition send_give (c : Chan) : Chan :=
  mkChan (ch_size c) (S (ch_count c)) (ch_avail c) (ch_rp c) (ch_wp c) (ch_args c).

(** The stages of [chrecv]. *)
Definition recv_take (c : Chan) : option Chan :=
  match take_token (ch_count c) with
  | Some n => Some (mkChan (ch_size c) n (ch_avail c) (ch_rp c) (ch_wp c) (ch_args c))
  | None => None
  end.
Definition recv_get (c : Chan) : res (option X * Chan) :=
  match ch_args c !! ch_rp c with
  | Some a => Ok (a, mkChan (ch_size c) (ch_count c) (ch_avail c)
                       (advance (ch_size c) (ch_rp c)) (ch_wp c) (ch_args c))
  | None => Err Eoob
  end.
Definition recv_give (c : Chan) : Chan :=
  mkChan (ch_size c) (ch_count c) (S (ch_avail c)) (ch_rp c) (ch_wp c) (ch_args c).

(** One process alone: [chsend], then [chrecv]; [None] is waiting. *)
Definition chsend (c : Chan) (m : X) : option (res Chan) :=
  match send_take c with
  | None => None
  | Some c => Some (let! c := send_put c m in Ok (send_give c))
  end.
Definition chrecv (c : Chan) : option (res (option X * Chan)) :=
  match recv_take c with
  | None => None
  | Some c => Some (let! (a, c) := recv_get c in Ok (a, recv_give c))
  end.

(** ** Interleaving

    [k_send] are the messages of processes between the first two stages of
    [chsend], [k_sent] counts those before the third; [k_recv] and [k_rcvd]
    count the receivers.  [k_in] and [k_out] record what was stored and what
    was taken, in order. *)
Record Sys := mkSys {
  k_chan : Chan; k_send : list X; k_sent : nat; k_recv : nat; k_rcvd : nat;
  k_in : list X; k_out : list (option X) }.

Inductive kstep : Sys -> Sys -> Prop :=
  | k_send_take c c' s m ps ws rs ds i o :
      s = mkSys c ps ws rs ds i o -> send_take c = Some c' ->
      kstep s (mkSys c' (m :: ps) ws rs ds i o)
  | k_send_put c c' s m ps ps' ws rs ds i o :
      s = mkSys c ps ws rs ds i o -> Permutation ps (m :: ps') -> send_put c m = Ok c' ->
      kstep s (mkSys c' ps' (S ws) rs ds (i ++ [m]) o)
  | k_send_give c s ps ws rs ds i o :
      s = mkSys c ps (S ws) rs ds i o -> kstep s (mkSys (send_give c) ps ws rs ds i o)
  | k_recv_take c c' s ps ws rs ds i o :
      s = mkSys c ps ws rs ds i o -> recv_take c = Some c' ->
      kstep s (mkSys c' ps ws (S rs) ds i o)
  | k_recv_get c c' a s ps ws rs ds i o :
      s = mkSys c ps ws (S rs) ds i o -> recv_get c = Ok (a, c') ->
      kstep s (mkSys c' ps ws rs (S ds) i (o ++ [a]))
  | k_recv_give c s ps ws rs ds i o :
      s = mkSys c ps ws rs (S ds) i o -> kstep s (mkSys (recv_give c) ps ws rs ds i o).

Definition init (size : nat) : Sys := mkSys (mkchan size) [] 0 0 0 [] [].

(** ** The invariant: the ring holds what is in and not yet out *)

Record chan_ok (s : Sys) (n : nat) : Prop := {
  co_pos : (0 < n)%nat;
  co_size : ch_size (k_chan s) = n;
  co_len : length (ch_args (k_chan s)) = n;
  co_le : (length (k_out s) <= length (k_in s))%nat;
  co_avail : (ch_avail (k_chan s) + length (k_send s) + (length (k_in s) - length (k_out s)) + k_rcvd s = n)%nat;
  co_count : (ch_count (k_chan s) + k_recv s + k_sent s = length (k_in s) - length (k_out s))%nat;
  co_wp : ch_wp (k_chan s) = (length (k_in s) mod n)%nat;
  co_rp : ch_rp (k_chan s) = (length (k_out s) mod n)%nat;
  co_out : k_out s = Some <$> take (length (k_out s)) (k_in s);
  co_ring : forall j m, (length (k_out s) <= j)%nat -> k_in s !! j = Some m ->
    ch_args (k_chan s) !! (j mod n)%nat = Some (Some m) }.

Lemma advance_mod n k : (0 < n)%nat -> advance n (k mod n) = (S k mod n)%nat.
Proof.
  intros Hn. unfold advance. pose proof (Nat.mod_upper_bound k n ltac:(lia)) as Hk.
  pose proof (Nat.div_mod_eq k n) as E.
  destruct (decide (n <= S (k mod n))%nat) as [Hle|Hlt].
  - symmetry. replace (S k) with (S (k / n) * n)%nat by lia. by rewrite Nat.Div0.mod_mul.
  - symmetry. replace (S k) with (S (k mod n) + (k / n) * n)%nat by lia.
    rewrite Nat.Div0.mod_add. apply Nat.mod_small. lia.
Qed.

Lemma mod_distinct n j k : (0 < n)%nat -> (j < k)%nat -> (k < j + n)%nat -> (j mod n)%nat <> (k mod n)%nat.
Proof.
  intros Hn Hjk Hkn E. pose proof (Nat.div_mod_eq j n). pose proof (Nat.div_mod_eq k n).
  assert (Hd : (k - j = (k / n - j / n) * n)%nat) by nia. nia.
Qed.

Lemma chan_ok_init n : (0 < n)%nat -> chan_ok (init n) n.
Proof.
  intros Hn. constructor; cbn; try done; try lia.
  - by rewrite length_replicate.
  - by rewrite Nat.Div0.mod_0_l.
  - by rewrite Nat.Div0.mod_0_l.
Qed.

(** Storing a message: a token of [avail] means there is a free slot. *)
Lemma put_ok n c ps ps' ws rs ds i o m :
  chan_ok (mkSys c ps ws rs ds i o) n -> Permutation ps (m :: ps') ->
  exists c', send_put c m = Ok c' /\ chan_ok (mkSys c' ps' (S ws) rs ds (i ++ [m]) o) n.
Proof.
  intros [H1 H2 H3 H4 H5 H6 H7 H8 H9 H10] HP. cbn in *.
  apply Permutation_length in HP. cbn in HP.
  assert (Hlt : (ch_wp c < length (ch_args c))%nat).
  { rewrite H7, H3. apply Nat.mod_upper_bound. lia. }
  unfold send_put. destruct (lookup_lt_is_Some_2 _ _ Hlt) as [x ->].
  eexists. split; [done|]. constructor; cbn; rewrite ?length_app, ?length_insert; cbn; try done; try lia.
  - rewrite H2, H7, advance_mod by done. f_equal. lia.
  - rewrite H9 at 1. f_equal. rewrite take_app_le; [done|lia].
  - intros j x' Hj Hx. destruct (decide (j = length i)) as [->|Hne].
    + rewrite lookup_app_r, Nat.sub_diag in Hx by lia. injection Hx as <-.
      rewrite H7. rewrite list_lookup_insert_eq; [done|]. by rewrite <- H7.
    + rewrite lookup_app_l in Hx.
      2:{ apply lookup_lt_Some in Hx. rewrite length_app in Hx. cbn in Hx. lia. }
      rewrite list_lookup_insert_ne; [by apply H10|]. rewrite H7. apply not_eq_sym, mod_distinct.
      * done.
      * by apply lookup_lt_Some in Hx.
      * lia.
Qed.

(** Taking a message: a token of [count] means there is one. *)
Lemma get_ok n c ps ws rs ds i o :
  chan_ok (mkSys c ps ws (S rs) ds i o) n ->
  exists m c', i !! length o = Some m /\ recv_get c = Ok (Some m, c') /\
    chan_ok (mkSys c' ps ws rs (S ds) i (o ++ [Some m])) n.
Proof.
  intros [H1 H2 H3 H4 H5 H6 H7 H8 H9 H10]. cbn in *.
  destruct (lookup_lt_is_Some_2 i (length o)) as [m Hm]; [lia|].
  exists m. unfold recv_get. rewrite H8, (H10 (length o) m) by (done || lia).
  eexists. split; [done|]. split; [done|].
  assert (Hlt : (length o < length i)%nat) by (by apply lookup_lt_Some in Hm).
  constructor; cbn; rewrite ?length_app; cbn; try done; try lia.
  - rewrite H2, advance_mod by done. f_equal. lia.
  - rewrite Nat.add_1_r. erewrite take_S_r by exact Hm. rewrite fmap_app, <- H9. done.
  - intros j x Hj Hx. apply H10; [lia|done].
Qed.

Lemma kstep_ok n s s' : chan_ok s n -> kstep s s' -> chan_ok s' n.
Proof.
  intros H Hst. destruct Hst; subst s.
  - destruct H as [G1 G2 G3 G4 G5 G6 G7 G8 G9 G10]. cbn in *.
    unfold send_take, take_token in *. destruct (ch_avail c) eqn:E; [done|]. simplify_eq.
    constructor; cbn; done || lia.
  - destruct (put_ok n c ps ps' ws rs ds i o m H) as (c2 & E & G2); [done|]. by same_ok.
  - destruct H as [G1 G2 G3 G4 G5 G6 G7 G8 G9 G10]. cbn in *. constructor; cbn; done || lia.
  - destruct H as [G1 G2 G3 G4 G5 G6 G7 G8 G9 G10]. cbn in *.
    unfold recv_take, take_token in *. destruct (ch_count c) eqn:E; [done|]. simplify_eq.
    constructor; cbn; done || lia.
  - destruct (get_ok n c ps ws rs ds i o H) as (m & c2 & _ & E & G2). by same_ok.
  - destruct H as [G1 G2 G3 G4 G5 G6 G7 G8 G9 G10]. cbn in *. constructor; cbn; done || lia.
Qed.

Lemma reach_ok n s : (0 < n)%nat -> rtc kstep (init n) s -> chan_ok s n.
Proof.
  intros Hn Hr. pose proof (chan_ok_init n Hn) as H. induction Hr; [done|]. eauto using kstep_ok.
Qed.
End chan.
Arguments mkSys {X}.
Arguments Sys : clear implicits.
Arguments Chan : clear implicits.

(** ** Theorems *)

(** C32: however senders and receivers interleave, a channel is a bounded
    first-in first-out queue: what was received is a prefix of what was sent,
    at most [size] messages are on their way, a sender that has its token
    always finds a free slot, and a receiver that has its token takes the
    oldest message not yet received. *)
Theorem chan_fifo {X} (n : nat) (s : Sys X) :
  (0 < n)%nat -> rtc kstep (init n) s ->
  k_out s = Some <$> take (length (k_out s)) (k_in s) /\
  (length (k_out s) <= length (k_in s) <= length (k_out s) + n)%nat /\
  (forall m, m ∈ k_send s -> exists c', send_put (k_chan s) m = Ok c') /\
  ((0 < k_recv s)%nat -> exists m c', k_in s !! length (k_out s) = Some m /\
     recv_get (k_chan s) = Ok (Some m, c')).
Proof.
  intros Hn Hr. pose proof (reach_ok n s Hn Hr) as H. destruct s as [c ps ws rs ds i o].
  split; [apply (co_out _ _ H)|]. split; [|split].
  - pose proof (co_le _ _ H). pose proof (co_avail _ _ H). cbn in *. lia.
  - intros m (ps' & HP)%elem_of_Permutation.
    destruct (put_ok n c ps ps' ws rs ds i o m H HP) as (c' & E & _). cbn. eauto.
  - cbn. intros Hrs. destruct rs as [|rs]; [lia|].
    destruct (get_ok n c ps ws rs ds i o H) as (m & c' & E1 & E2 & _). eauto.
Qed.

(** ** Witnesses *)

Lemma chan_fifo_witness : exists s : Sys nat, rtc kstep (init 1) s /\ k_in s = [7%nat] /\
  k_out s = Some <$> take (length (k_out s)) (k_in s).
Proof.
  assert (Hr : rtc kstep (init 1)
    (mkSys (mkChan 1 0 0 0 0 [Some 7%nat]) [] 1 0 0 [7%nat] [])).
  { eapply rtc_l; [eapply (k_send_take _ _ _ 7%nat); reflexivity|].
    eapply rtc_l; [eapply (k_send_put _ _ _ 7%nat _ []); reflexivity|]. apply rtc_refl. }
  eexists. split; [exact Hr|]. split; [reflexivity|].
  exact (proj1 (chan_fifo 1 _ ltac:(lia) Hr)).
Defined.
