(* ===== verification/Srv.v ===== *)
(** * Fids, open entries and mounts (src/fs.c: [getdent], [getmount],
    [clunkmount], [clunkdent], [getfid], [putfid], [dupfid], [clunkfid],
    [freeamsg])

    A fid of a connection refers to a mount and to two open directory
    entries, its own and its parent's; entries are shared by all the fids of
    a mount that name the same file.  Every object counts its references and
    is freed with the last one.  The heap is explicit: objects have
    identities, a freed object is gone from its table, and using it again is
    undefined behaviour.  Commands run one at a time; the locks and the
    fields for debugging are left out. *)
From S2P Require Import Prelude CInt Mem Data Hash Pack Users Mst Kv Entry File.

Definition Nfidtab : Z := 1024.
Definition Ndtab : Z := 1024.
Definition NOFID : Z := 2 ^ 32 - 1.
Definition QTAUTH : Z := 8.

(** What src/snap.c offers: the tree a label names and the flags of the label,
    in the tree of snapshots. *)
Class Snapshots (T : Type) := { opensnap : T -> list Z -> res (option (T * Z)) }.

(** An open entry.  [de_name] is what the name points to, [None] when that is
    gone; [A] is the state of an authentication. *)
Record Dent (A : Type) := mkDent {
  de_x : Xdir; de_name : option (list Z); de_key : list Z; de_up : Z; de_ref : Z;
  de_gone : bool; de_trunc : bool; de_auth : option A }.
Arguments mkDent {A}. Arguments de_x {A}. Arguments de_name {A}. Arguments de_key {A}.
Arguments de_up {A}. Arguments de_ref {A}. Arguments de_gone {A}. Arguments de_trunc {A}. Arguments de_auth {A}.

(** A directory read in progress: the last key delivered, or the prefix. *)
Record Scn := mkScn {
  sc_pfx : list Z; sc_key : list Z; sc_first : bool; sc_done : bool; sc_over : option Kvp; sc_off : Z }.

Record Fid := mkFid {
  fd_mnt : option nat; fd_scan : option nat; fd_dent : nat; fd_dir : nat; fd_rclose : bool;
  fd_fid : Z; fd_qpath : Z; fd_pqpath : Z; fd_ref : Z; fd_mode : Z; fd_iounit : Z;
  fd_uid : Z; fd_duid : Z; fd_dgid : Z; fd_dmode : Z; fd_permit : bool; fd_fromdump : bool }.

Record Mount (T : Type) := mkMount {
  mt_name : list Z; mt_flag : Z; mt_root : T; mt_ref : Z; mt_dtab : gmap Z (list nat) }.
Arguments mkMount {T}. Arguments mt_name {T}. Arguments mt_flag {T}. Arguments mt_root {T}.
Arguments mt_ref {T}. Arguments mt_dtab {T}.

Record Conn := mkConn {
  cn_iounit : Z; cn_versioned : bool; cn_authok : bool; cn_hangup : bool; cn_ref : Z;
  cn_fidtab : gmap Z (list nat) }.

(** A request to the sweeper. *)
Inductive Amsg : Type :=
  | AOsync (halt : bool)
  | AOsnap (old new : list Z) (flag : Z) (del : bool)
  | AOclear (mnt : nat) (dent : option nat) (qpath off end_ : Z)
  | AOrclose (mnt : nat) (dent : nat) (qpath off end_ : Z).

(** An answer. *)
Inductive Reply : Type :=
  | Rversion (msize : Z) (known : bool)
  | Rauth (q : Qid)
  | Rattach (q : Qid)
  | Rwalk (qs : list Qid)
  | Ropen (q : Qid) (iounit : Z)
  | Rcreate (q : Qid) (iounit : Z)
  | Rread (data : list Z)
  | Rwrite (n : Z)
  | Rclunk
  | Rremove
  | Rstat (p : list Z)
  | Rwstat
  | Rflush
  | Rerror (e : err).

Section srv.
Context {T D A : Type} `{!MsgTree T} `{!DataBlks D} `{!Snapshots T}.

(** The globals of the server and its heap. *)
Record Fs := mkFs {
  g_users : Users; g_permissive : bool; g_noauth : bool; g_rdonly : bool;
  g_nextqid : Z; g_nextgen : Z; g_now : Z;
  g_blks : D; g_snap : T; g_dirty : bool;
  g_mnts : gmap nat (Mount T); g_mounts : list nat; g_snapmnt : nat;
  g_dents : gmap nat (Dent A); g_fids : gmap nat Fid; g_scans : gmap nat Scn;
  g_conns : gmap nat Conn; g_new : nat;
  g_out : list (Z * Reply); g_adm : list Amsg }.

Definition set_mnts (x : gmap nat (Mount T)) (s : Fs) : Fs :=
  mkFs (g_users s) (g_permissive s) (g_noauth s) (g_rdonly s) (g_nextqid s) (g_nextgen s) (g_now s)
    (g_blks s) (g_snap s) (g_dirty s) x (g_mounts s) (g_snapmnt s) (g_dents s) (g_fids s) (g_scans s)
    (g_conns s) (g_new s) (g_out s) (g_adm s).
Definition set_mounts (x : list nat) (s : Fs) : Fs :=
  mkFs (g_users s) (g_permissive s) (g_noauth s) (g_rdonly s) (g_nextqid s) (g_nextgen s) (g_now s)
    (g_blks s) (g_snap s) (g_dirty s) (g_mnts s) x (g_snapmnt s) (g_dents s) (g_fids s) (g_scans s)
    (g_conns s) (g_new s) (g_out s) (g_adm s).
Definition set_dents (x : gmap nat (Dent A)) (s : Fs) : Fs :=
  mkFs (g_users s) (g_permissive s) (g_noauth s) (g_rdonly s) (g_nextqid s) (g_nextgen s) (g_now s)
    (g_blks s) (g_snap s) (g_dirty s) (g_mnts s) (g_mounts s) (g_snapmnt s) x (g_fids s) (g_scans s)
    (g_conns s) (g_new s) (g_out s) (g_adm s).
Definition set_fids (x : gmap nat Fid) (s : Fs) : Fs :=
  mkFs (g_users s) (g_permissive s) (g_noauth s) (g_rdonly s) (g_nextqid s) (g_nextgen s) (g_now s)
    (g_blks s) (g_snap s) (g_dirty s) (g_mnts s) (g_mounts s) (g_snapmnt s) (g_dents s) x (g_scans s)
    (g_conns s) (g_new s) (g_out s) (g_adm s).
Definition set_scans (x : gmap nat Scn) (s : Fs) : Fs :=
  mkFs (g_users s) (g_permissive s) (g_noauth s) (g_rdonly s) (g_nextqid s) (g_nextgen s) (g_now s)
    (g_blks s) (g_snap s) (g_dirty s) (g_mnts s) (g_mounts s) (g_snapmnt s) (g_dents s) (g_fids s) x
    (g_conns s) (g_new s) (g_out s) (g_adm s).
Definition set_conns (x : gmap nat Conn) (s : Fs) : Fs :=
  mkFs (g_users s) (g_permissive s) (g_noauth s) (g_rdonly s) (g_nextqid s) (g_nextgen s) (g_now s)
    (g_blks s) (g_snap s) (g_dirty s) (g_mnts s) (g_mounts s) (g_snapmnt s) (g_dents s) (g_fids s)
    (g_scans s) x (g_new s) (g_out s) (g_adm s).
Definition set_new (x : nat) (s : Fs) : Fs :=
  mkFs (g_users s) (g_permissive s) (g_noauth s) (g_rdonly s) (g_nextqid s) (g_nextgen s) (g_now s)
    (g_blks s) (g_snap s) (g_dirty s) (g_mnts s) (g_mounts s) (g_snapmnt s) (g_dents s) (g_fids s)
    (g_scans s) (g_conns s) x (g_out s) (g_adm s).
Definition set_nextqid (x : Z) (s : Fs) : Fs :=
  mkFs (g_users s) (g_permissive s) (g_noauth s) (g_rdonly s) x (g_nextgen s) (g_now s)
    (g_blks s) (g_snap s) (g_dirty s) (g_mnts s) (g_mounts s) (g_snapmnt s) (g_dents s) (g_fids s)
    (g_scans s) (g_conns s) (g_new s) (g_out s) (g_adm s).
Definition set_gblks (x : D) (s : Fs) : Fs :=
  mkFs (g_users s) (g_permissive s) (g_noauth s) (g_rdonly s) (g_nextqid s) (g_nextgen s) (g_now s)
    x (g_snap s) (g_dirty s) (g_mnts s) (g_mounts s) (g_snapmnt s) (g_dents s) (g_fids s)
    (g_scans s) (g_conns s) (g_new s) (g_out s) (g_adm s).
Definition set_rdonly (x : bool) (s : Fs) : Fs :=
  mkFs (g_users s) (g_permissive s) (g_noauth s) x (g_nextqid s) (g_nextgen s) (g_now s)
    (g_blks s) (g_snap s) (g_dirty s) (g_mnts s) (g_mounts s) (g_snapmnt s) (g_dents s) (g_fids s)
    (g_scans s) (g_conns s) (g_new s) (g_out s) (g_adm s).
Definition set_dirty (x : bool) (s : Fs) : Fs :=
  mkFs (g_users s) (g_permissive s) (g_noauth s) (g_rdonly s) (g_nextqid s) (g_nextgen s) (g_now s)
    (g_blks s) (g_snap s) x (g_mnts s) (g_mounts s) (g_snapmnt s) (g_dents s) (g_fids s)
    (g_scans s) (g_conns s) (g_new s) (g_out s) (g_adm s).
Definition set_out (x : list (Z * Reply)) (s : Fs) : Fs :=
  mkFs (g_users s) (g_permissive s) (g_noauth s) (g_rdonly s) (g_nextqid s) (g_nextgen s) (g_now s)
    (g_blks s) (g_snap s) (g_dirty s) (g_mnts s) (g_mounts s) (g_snapmnt s) (g_dents s) (g_fids s)
    (g_scans s) (g_conns s) (g_new s) x (g_adm s).
Definition set_adm (x : list Amsg) (s : Fs) : Fs :=
  mkFs (g_users s) (g_permissive s) (g_noauth s) (g_rdonly s) (g_nextqid s) (g_nextgen s) (g_now s)
    (g_blks s) (g_snap s) (g_dirty s) (g_mnts s) (g_mounts s) (g_snapmnt s) (g_dents s) (g_fids s)
    (g_scans s) (g_conns s) (g_new s) (g_out s) x.

(** ** Objects *)

(** [*p], which must not have been freed. *)
Definition deref {B} (tab : Fs -> gmap nat B) (p : nat) : M Fs B :=
  fun s => match tab s !! p with Some x => (Ok x, s) | None => (Err Eoob, s) end.

Definition dent_at := deref g_dents.
Definition fid_at := deref g_fids.
Definition mnt_at := deref g_mnts.
Definition conn_at := deref g_conns.
Definition scan_at := deref g_scans.

Definition put_dent (p : nat) (x : Dent A) : M Fs unit := mmod (fun s => set_dents (<[p := x]> (g_dents s)) s).
Definition put_fid (p : nat) (x : Fid) : M Fs unit := mmod (fun s => set_fids (<[p := x]> (g_fids s)) s).
Definition put_mnt (p : nat) (x : Mount T) : M Fs unit := mmod (fun s => set_mnts (<[p := x]> (g_mnts s)) s).
Definition put_conn (p : nat) (x : Conn) : M Fs unit := mmod (fun s => set_conns (<[p := x]> (g_conns s)) s).
Definition put_scan (p : nat) (x : Scn) : M Fs unit := mmod (fun s => set_scans (<[p := x]> (g_scans s)) s).

(** [free(p)] of each kind. *)
Definition free_dent (p : nat) : M Fs unit :=
  do* dent_at p in mmod (fun s => set_dents (delete p (g_dents s)) s).
Definition free_fid (p : nat) : M Fs unit :=
  do* fid_at p in mmod (fun s => set_fids (delete p (g_fids s)) s).
Definition free_mnt (p : nat) : M Fs unit :=
  do* mnt_at p in mmod (fun s => set_mnts (delete p (g_mnts s)) s).
Definition free_scan (p : nat) : M Fs unit :=
  do* scan_at p in mmod (fun s => set_scans (delete p (g_scans s)) s).

Definition malloc : M Fs nat := fun s => (Ok (g_new s), set_new (S (g_new s)) s).

Definition dent_ref (n : Z) (x : Dent A) : Dent A :=
  mkDent (de_x x) (de_name x) (de_key x) (de_up x) (de_ref x + n) (de_gone x) (de_trunc x) (de_auth x).
Definition dent_set_x (d : Xdir) (x : Dent A) : Dent A :=
  mkDent d (de_name x) (de_key x) (de_up x) (de_ref x) (de_gone x) (de_trunc x) (de_auth x).
Definition dent_set_gone (b : bool) (x : Dent A) : Dent A :=
  mkDent (de_x x) (de_name x) (de_key x) (de_up x) (de_ref x) b (de_trunc x) (de_auth x).
Definition dent_set_trunc (b : bool) (x : Dent A) : Dent A :=
  mkDent (de_x x) (de_name x) (de_key x) (de_up x) (de_ref x) (de_gone x) b (de_auth x).
Definition dent_set_name (nm : option (list Z)) (k : list Z) (x : Dent A) : Dent A :=
  mkDent (de_x x) nm k (de_up x) (de_ref x) (de_gone x) (de_trunc x) (de_auth x).

Definition mnt_ref (n : Z) (x : Mount T) : Mount T :=
  mkMount (mt_name x) (mt_flag x) (mt_root x) (mt_ref x + n) (mt_dtab x).
Definition mnt_set_dtab (t : gmap Z (list nat)) (x : Mount T) : Mount T :=
  mkMount (mt_name x) (mt_flag x) (mt_root x) (mt_ref x) t.
Definition mnt_set_root (t : T) (x : Mount T) : Mount T :=
  mkMount (mt_name x) (mt_flag x) t (mt_ref x) (mt_dtab x).

(** [ainc] and [adec], which gives the new count. *)
Definition dent_inc (p : nat) : M Fs unit := let* x := dent_at p in put_dent p (dent_ref 1 x).
Definition dent_dec (p : nat) : M Fs Z :=
  let* x := dent_at p in do* put_dent p (dent_ref (-1) x) in mret (de_ref x - 1).
Definition mnt_inc (p : nat) : M Fs unit := let* x := mnt_at p in put_mnt p (mnt_ref 1 x).
Definition mnt_dec (p : nat) : M Fs Z :=
  let* x := mnt_at p in do* put_mnt p (mnt_ref (-1) x) in mret (mt_ref x - 1).

(** [if(p != nil)] *)
Definition when_some {B} (o : option B) (k : B -> M Fs unit) : M Fs unit :=
  match o with Some x => k x | None => mret tt end.

Definition chain (h : Z) (tab : gmap Z (list nat)) : list nat := default [] (tab !! h).

(** The first object of a chain that satisfies a test. *)
Fixpoint find_chain {B} (at_ : nat -> M Fs B) (test : B -> bool) (l : list nat) : M Fs (option nat) :=
  match l with
  | [] => mret None
  | p :: l' => let* x := at_ p in if test x then mret (Some p) else find_chain at_ test l'
  end.

(** ** Open entries *)

Definition dhash (path : Z) : Z := ihash path mod Ndtab.

(** The entry of [d], with one more reference; it is made when nobody has it
    open. *)
Definition getdent (mnt : nat) (pqid : Z) (d : Xdir) : M Fs nat :=
  let h := dhash (q_path (d_qid d)) in
  let* m := mnt_at mnt in
  let* r := find_chain dent_at (fun de => q_path (d_qid (de_x de)) =? q_path (d_qid d)) (chain h (mt_dtab m)) in
  match r with
  | Some p => do* dent_inc p in mret p
  | None =>
      let* k := mlift (packdkey Maxent pqid (Some (d_name d))) in
      let* p := malloc in
      do* put_dent p (mkDent d (Some (d_name d)) k pqid 1 false false None) in
      do* put_mnt mnt (mnt_set_dtab (<[h := p :: chain h (mt_dtab m)]> (mt_dtab m)) m) in
      mret p
  end.

(** [remove p l], and whether it was there. *)
Fixpoint unchain (p : nat) (l : list nat) : option (list nat) :=
  match l with
  | [] => None
  | q :: l' => if decide (q = p) then Some l'
               else match unchain p l' with Some r => Some (q :: r) | None => None end
  end.

Definition clunkdent (mnt : option nat) (p : nat) : M Fs unit :=
  let* de := dent_at p in
  if negb (Z.land (q_type (d_qid (de_x de))) QTAUTH =? 0) then
    let* n := dent_dec p in
    if n =? 0 then free_dent p else mret tt
  else
    match mnt with
    | None => merror Eoob
    | Some mp =>
        let* m := mnt_at mp in
        let* n := dent_dec p in
        if negb (n =? 0) then mret tt else
        let h := dhash (q_path (d_qid (de_x de))) in
        match unchain p (chain h (mt_dtab m)) with
        | None => merror Eassert
        | Some l =>
            do* put_mnt mp (mnt_set_dtab (<[h := l]> (mt_dtab m)) m) in
            free_dent p
        end
    end.

(** ** Mounts *)

Definition dump_name : list Z := [100; 117; 109; 112].

Definition getmount (name : list Z) : M Fs nat :=
  let* s := mget in
  if bool_decide (name = dump_name) then do* mnt_inc (g_snapmnt s) in mret (g_snapmnt s) else
  let* r := find_chain mnt_at (fun m => bool_decide (mt_name m = name)) (g_mounts s) in
  match r with
  | Some p => do* mnt_inc p in mret p
  | None =>
      let* r := mlift (opensnap (g_snap s) name) in
      match r with
      | None => merror Enosnap
      | Some (t, flg) =>
          let* p := malloc in
          do* put_mnt p (mkMount (take 63 name) flg t 1 ∅) in
          do* mmod (fun s => set_mounts (p :: g_mounts s) s) in
          mret p
      end
  end.

(** The mount is freed at once; the code hands it to the deferred frees
    ([limbo(DFmnt, mnt)]), for the workers that still look at it. *)
Definition clunkmount (p : nat) : M Fs unit :=
  let* n := mnt_dec p in
  if negb (n =? 0) then mret tt else
  let* s := mget in
  match unchain p (g_mounts s) with
  | None => merror Eassert
  | Some l => do* mmod (set_mounts l) in free_mnt p
  end.

(** ** Fids *)

Definition fhash (fid : Z) : Z := ihash fid mod Nfidtab.

Definition fid_ref (n : Z) (f : Fid) : Fid :=
  mkFid (fd_mnt f) (fd_scan f) (fd_dent f) (fd_dir f) (fd_rclose f) (fd_fid f) (fd_qpath f) (fd_pqpath f)
    (fd_ref f + n) (fd_mode f) (fd_iounit f) (fd_uid f) (fd_duid f) (fd_dgid f) (fd_dmode f)
    (fd_permit f) (fd_fromdump f).
Definition fid_set_scan (x : option nat) (f : Fid) : Fid :=
  mkFid (fd_mnt f) x (fd_dent f) (fd_dir f) (fd_rclose f) (fd_fid f) (fd_qpath f) (fd_pqpath f)
    (fd_ref f) (fd_mode f) (fd_iounit f) (fd_uid f) (fd_duid f) (fd_dgid f) (fd_dmode f)
    (fd_permit f) (fd_fromdump f).
Definition fid_set_rclose (x : bool) (f : Fid) : Fid :=
  mkFid (fd_mnt f) (fd_scan f) (fd_dent f) (fd_dir f) x (fd_fid f) (fd_qpath f) (fd_pqpath f)
    (fd_ref f) (fd_mode f) (fd_iounit f) (fd_uid f) (fd_duid f) (fd_dgid f) (fd_dmode f)
    (fd_permit f) (fd_fromdump f).
Definition fid_set_mode (x : Z) (f : Fid) : Fid :=
  mkFid (fd_mnt f) (fd_scan f) (fd_dent f) (fd_dir f) (fd_rclose f) (fd_fid f) (fd_qpath f) (fd_pqpath f)
    (fd_ref f) x (fd_iounit f) (fd_uid f) (fd_duid f) (fd_dgid f) (fd_dmode f)
    (fd_permit f) (fd_fromdump f).
Definition fid_set_uid (x : Z) (f : Fid) : Fid :=
  mkFid (fd_mnt f) (fd_scan f) (fd_dent f) (fd_dir f) (fd_rclose f) (fd_fid f) (fd_qpath f) (fd_pqpath f)
    (fd_ref f) (fd_mode f) (fd_iounit f) x (fd_duid f) (fd_dgid f) (fd_dmode f)
    (fd_permit f) (fd_fromdump f).

(** Where a fid is: mount, entries, qid paths and the owner of the directory. *)
Definition fid_move (mnt : option nat) (dent dir : nat) (q pq duid dgid dmode : Z) (f : Fid) : Fid :=
  mkFid mnt (fd_scan f) dent dir (fd_rclose f) (fd_fid f) q pq
    (fd_ref f) (fd_mode f) (fd_iounit f) (fd_uid f) duid dgid dmode (fd_permit f) (fd_fromdump f).

Definition getfid (c : nat) (fid : Z) : M Fs (option nat) :=
  let* cn := conn_at c in
  let* r := find_chain fid_at (fun f => fd_fid f =? fid) (chain (fhash fid) (cn_fidtab cn)) in
  match r with
  | None => mret None
  | Some p => let* f := fid_at p in do* put_fid p (fid_ref 1 f) in mret (Some p)
  end.

Definition putfid (p : nat) : M Fs unit :=
  let* f := fid_at p in
  do* put_fid p (fid_ref (-1) f) in
  if negb (fd_ref f - 1 =? 0) then mret tt else
  do* clunkdent (fd_mnt f) (fd_dent f) in
  do* clunkdent (fd_mnt f) (fd_dir f) in
  do* when_some (fd_mnt f) clunkmount in
  free_fid p.

(** The copy shares the scan of the original. *)
Definition dup_fields (new : Z) (f : Fid) : Fid :=
  mkFid (fd_mnt f) (fd_scan f) (fd_dent f) (fd_dir f) (fd_rclose f) new (fd_qpath f) (fd_pqpath f)
    2 (-1) (fd_iounit f) (fd_uid f) (fd_duid f) (fd_dgid f) (fd_dmode f) (fd_permit f) (fd_fromdump f).

(** [None] when the number is taken. *)
Definition dupfid (c : nat) (new : Z) (f : Fid) : M Fs (option nat) :=
  let h := fhash new in
  let* cn := conn_at c in
  let* r := find_chain fid_at (fun f => fd_fid f =? new) (chain h (cn_fidtab cn)) in
  match r with
  | Some _ => mret None
  | None =>
      let* p := malloc in
      do* put_fid p (dup_fields new f) in
      do* put_conn c (mkConn (cn_iounit cn) (cn_versioned cn) (cn_authok cn) (cn_hangup cn) (cn_ref cn)
                        (<[h := p :: chain h (cn_fidtab cn)]> (cn_fidtab cn))) in
      do* when_some (fd_mnt f) mnt_inc in
      do* dent_inc (fd_dent f) in
      do* dent_inc (fd_dir f) in
      mret (Some p)
  end.

(** Takes the fid out of the table; the request is for a fid opened to be
    removed on close. *)
Definition clunkfid (c : nat) (p : nat) : M Fs (option Amsg) :=
  let* f := fid_at p in
  let h := fhash (fd_fid f) in
  let* cn := conn_at c in
  match unchain p (chain h (cn_fidtab cn)) with
  | None => merror Eassert
  | Some l =>
      assert* negb (fd_ref f - 1 =? 0) in
      do* put_fid p (fid_ref (-1) f) in
      do* put_conn c (mkConn (cn_iounit cn) (cn_versioned cn) (cn_authok cn) (cn_hangup cn) (cn_ref cn)
                        (<[h := l]> (cn_fidtab cn))) in
      let* f := fid_at p in
      do* when_some (fd_scan f) (fun sc => do* free_scan sc in put_fid p (fid_set_scan None f)) in
      let* f := fid_at p in
      if negb (fd_rclose f) then mret None else
      do* put_fid p (fid_set_rclose false f) in
      let* de := dent_at (fd_dent f) in
      do* put_dent (fd_dent f) (dent_ref 1 (dent_set_gone true (dent_set_trunc true de))) in
      match fd_mnt f with
      | None => merror Eoob
      | Some m =>
          do* mnt_inc m in
          mret (Some (AOrclose m (fd_dent f) (fd_qpath f) 0 (d_length (de_x de))))
      end
  end.

Definition freeamsg (a : option Amsg) : M Fs unit :=
  match a with
  | Some (AOrclose m de _ _ _) => do* clunkdent (Some m) de in clunkmount m
  | Some (AOclear m de _ _ _) => do* when_some de (clunkdent (Some m)) in clunkmount m
  | _ => mret tt
  end.

(** ** Answers *)

Definition respond (tag : Z) (r : Reply) : M Fs unit := mmod (fun s => set_out (g_out s ++ [(tag, r)]) s).
Definition rerror (tag : Z) (e : err) : M Fs unit := respond tag (Rerror e).

(** [upsert(mnt, m, nm)] and the file operations on the tree of a mount, with
    the length of the entry [de]. *)
Definition file_get (m : Mount T) (len : Z) (s : Fs) : Fst T D := mkFst (mt_root m) (g_blks s) len.

(** Runs a command of [File] on the mount [mp]; the new length goes to the
    entry [dp]. *)
Definition on_file {B} (mp : nat) (dp : option nat) (cmd : M (Fst T D) B) : M Fs B :=
  fun s =>
    match g_mnts s !! mp with
    | None => (Err Eoob, s)
    | Some m =>
        match dp with
        | None =>
            let '(r, f) := cmd (mkFst (mt_root m) (g_blks s) 0) in
            (r, set_gblks (f_blks f) (set_mnts (<[mp := mnt_set_root (f_tree f) m]> (g_mnts s)) s))
        | Some p =>
            match g_dents s !! p with
            | None => (Err Eoob, s)
            | Some de =>
                let '(r, f) := cmd (mkFst (mt_root m) (g_blks s) (d_length (de_x de))) in
                (r, set_dents (<[p := dent_set_x (Apply.set_length (de_x de) (f_len f)) de]> (g_dents s))
                      (set_gblks (f_blks f) (set_mnts (<[mp := mnt_set_root (f_tree f) m]> (g_mnts s)) s)))
            end
        end
    end.

Definition upsert (mp : nat) (ms : list Msg) : M Fs unit :=
  let* m := mnt_at mp in on_file mp None (File.upsert (mt_flag m) ms).
End srv.
