(* ===== verification/Serve.v ===== *)
(** * The 9P requests (src/fs.c: the [fs*] handlers, [readdir], [readsnap],
    [runmutate], [runread], [runfs], [runsweep])

    One definition per handler, in the order of the code: what it looks up,
    which checks it makes in which order, what it sends to the tree and what
    it leaves behind when it fails.  Handlers of the mutator run one after
    the other; a wait for the sweeper lets the sweeper work off its queue,
    and is stuck when that does not help.  The authentication protocol is a
    parameter, and so are the requests of the sweeper that belong to
    snapshots and syncing. *)
From S2P Require Import Prelude CInt Mem Data Keys Hash Pack Apply Users Stat Mst Kv Entry File Srv.

Definition QTAPPEND : Z := 64.
Definition QTEXCL : Z := 32.
Definition QTTMP : Z := 4.
Definition DMEXCL : Z := 0x20000000.
Definition DMMOUNT : Z := 0x10000000.
Definition DMAUTH : Z := 0x08000000.
Definition DMTMP : Z := 0x04000000.
Definition Maxuname : Z := 64.
Definition Dpfxsz : Z := 9.
Definition STATMAX : Z := 65535.

(** The fields of [Fmsg]. *)
Record Fmsg := mkFmsg {
  m_conn : nat; m_type : Z; m_tag : Z; m_fid : Z; m_newfid : Z; m_afid : Z;
  m_version : list Z; m_msize : Z; m_uname : list Z; m_aname : list Z;
  m_wname : list (list Z); m_name : list Z; m_perm : Z; m_mode : Z;
  m_offset : Z; m_count : Z; m_data : list Z; m_stat : list Z }.

(** The answers of [auth_rpc]. *)
Inductive AuthRes : Type :=
  | ARdone (cuid : option (list Z))
  | ARok (arg : list Z)
  | ARphase
  | ARother.

Definition none_name : list Z := [110; 111; 110; 101].
Definition adm_name : list Z := [97; 100; 109].
Definition main_name : list Z := [109; 97; 105; 110].

Section serve.
Context {T D A : Type} `{!MsgTree T} `{!DataBlks D} `{!Snapshots T}.
Context (auth_new : option A) (auth_read : A -> AuthRes * A) (auth_write : A -> list Z -> bool * A).
Context (admin : Amsg -> M (@Fs T D A) unit).
(** what the stack holds where a variable is not initialised *)
Context (junk : Z).

#[local] Abbreviation Fs := (@Fs T D A).

(** ** The sweeper *)

(** [runsweep], one request. *)
Definition sweep_clear (m : nat) (de : option nat) (q off end_ : Z) : M Fs unit :=
  let* s := mget in
  if g_rdonly s then mret tt else
  mcatch
    (do* mmod (set_dirty true) in
     let* mt := mnt_at m in
     do* on_file m None (clear (mt_flag mt) q off end_) in
     when_some de (fun p => let* x := dent_at p in put_dent p (dent_set_trunc false x)))
    (fun _ => mmod (set_rdonly true)).

Definition sweep (a : Amsg) : M Fs unit :=
  do* match a with
  | AOclear m de q off end_ => sweep_clear m de q off end_
  | AOrclose m de q off end_ =>
      let* s := mget in
      if g_rdonly s then mret tt else
      let* x := dent_at de in
      do* upsert m (mkMsg Odelete (de_key x) [] ::
        if negb (Z.land (q_type (d_qid (de_x x))) QTDIR =? 0) then [mkMsg Oclobber (supkey q) []] else []) in
      sweep_clear m (Some de) q off end_
  | _ => admin a
  end in
  freeamsg (Some a).

(** The wait of [truncwait]: the sweeper works off its queue.  The requests
    run one at a time here, so when the queue is empty and the mark is still
    set, nobody is left who clears it; in the code another process could send
    the sweeper one more request for the file. *)
Fixpoint truncwait_loop (fuel : nat) (p : nat) : M Fs unit :=
  let* x := dent_at p in
  if negb (de_trunc x) then mret tt else
  match fuel with
  | O => merror Estuck
  | S fuel' =>
      let* s := mget in
      match g_adm s with
      | [] => merror Estuck
      | a :: l => do* mmod (set_adm l) in do* sweep a in truncwait_loop fuel' p
      end
  end.

Definition truncwait (p : nat) : M Fs unit :=
  let* s := mget in truncwait_loop (length (g_adm s)) p.

(** ** Set-up *)

(** The part in front of the first dot. *)
Fixpoint before_dot (p : list Z) : list Z :=
  match p with
  | [] => []
  | c :: p' => if c =? 46 then [] else c :: before_dot p'
  end.

Definition IOHDRSZ : Z := 24.
Definition version9 : list Z := [57; 80; 50; 48; 48; 48].

Definition fsversion (m : Fmsg) : M Fs unit :=
  let* c := conn_at (m_conn m) in
  let msize := Max9p + IOHDRSZ in
  if bool_decide (before_dot (m_version m) = version9) then
    let msize := if m_msize m <? msize then m_msize m else msize in
    do* put_conn (m_conn m) (mkConn msize true (cn_authok c) (cn_hangup c) (cn_ref c) (cn_fidtab c)) in
    respond (m_tag m) (Rversion msize true)
  else
    do* put_conn (m_conn m) (mkConn (cn_iounit c) false (cn_authok c) (cn_hangup c) (cn_ref c) (cn_fidtab c)) in
    respond (m_tag m) (Rversion msize false).

(** [authread]: the data it reads. *)
Definition authread (fp : nat) (count : Z) : M Fs (list Z) :=
  let* f := fid_at fp in
  let* de := dent_at (fd_dir f) in
  match de_auth de with
  | Some rpc =>
      if Z.land (q_type (d_qid (de_x de))) QTAUTH =? 0 then merror Etype else
      let '(r, rpc) := auth_read rpc in
      do* put_dent (fd_dir f) (mkDent (de_x de) (de_name de) (de_key de) (de_up de) (de_ref de) (de_gone de)
                                 (de_trunc de) (Some rpc)) in
      match r with
      | ARdone None => merror Eauthph
      | ARdone (Some cuid) =>
          let* s := mget in
          match name2user (users (g_users s)) cuid with
          | None => merror Enouser
          | Some u => do* put_fid fp (fid_set_uid (u_id u) f) in mret []
          end
      | ARok arg => if count <? zlen arg then merror Eauthd else mret arg
      | ARphase => merror Eauthph
      | ARother => merror Eauthp
      end
  | None => merror Etype
  end.

Definition authwrite (fp : nat) (data : list Z) : M Fs unit :=
  let* f := fid_at fp in
  let* de := dent_at (fd_dir f) in
  match de_auth de with
  | Some rpc =>
      if Z.land (q_type (d_qid (de_x de))) QTAUTH =? 0 then merror Etype else
      let '(ok, rpc) := auth_write rpc data in
      do* put_dent (fd_dir f) (mkDent (de_x de) (de_name de) (de_key de) (de_up de) (de_ref de) (de_gone de)
                                 (de_trunc de) (Some rpc)) in
      if ok then mret tt else merror Ebotch
  | None => merror Etype
  end.

(** A fid that is not in any table yet. *)
Definition fid0 (mnt : option nat) (de : nat) (q uid duid dgid dmode iounit : Z) (permit fromdump : bool) : Fid :=
  mkFid mnt None de de false NOFID q q 0 (-1) iounit uid duid dgid dmode permit fromdump.

Definition auth_dir (path : Z) : Xdir := mkXdir 0 (mkQid path 0 QTAUTH) 0 0 0 0 0 0 0 [].

Definition fsauth (m : Fmsg) : M Fs unit :=
  let* s := mget in
  if g_noauth s then rerror (m_tag m) Eauth else
  if bool_decide (m_uname m = none_name) then rerror (m_tag m) Enone else
  match auth_new with
  | None => rerror (m_tag m) Eio
  | Some rpc =>
      let path := g_nextqid s + 1 in
      do* mmod (set_nextqid path) in
      let* p := malloc in
      do* put_dent p (mkDent (auth_dir path) None [] 0 0 false false (Some rpc)) in
      let* c := conn_at (m_conn m) in
      let* nf := dupfid (m_conn m) (m_afid m) (fid0 None p path (-1) (-1) (-1) 384 (cn_iounit c) false false) in
      match nf with
      | None => do* rerror (m_tag m) Efid in free_dent p
      | Some nf => do* respond (m_tag m) (Rauth (mkQid path 0 QTAUTH)) in putfid nf
      end
  end.

Definition filldumpdir (nextgen : Z) : Xdir :=
  mkXdir 0 (mkQid Qdump (u32 nextgen) QTDIR) (Z.lor DMDIR 365) 0 0 0 (-1) (-1) (-1) [47].

(** The checks of the user and of the authentication; gives the user. *)
Definition attach_user (m : Fmsg) (aname : list Z) : M Fs Z :=
  let* s := mget in
  let n := if g_permissive s && bool_decide (aname = adm_name) then adm_name else m_uname m in
  match name2user (users (g_users s)) n with
  | None => merror Enouser
  | Some u =>
      let uid := u_id u in
      if negb (m_afid m =? NOFID) then
        let* af := getfid (m_conn m) (m_afid m) in
        match af with
        | None => merror Enofid
        | Some af =>
            do* authread af 0 in
            do* putfid af in
            let* f := fid_at af in
            if negb (fd_uid f =? uid) then merror Ebadu else
            let* c := conn_at (m_conn m) in
            do* put_conn (m_conn m) (mkConn (cn_iounit c) (cn_versioned c) true (cn_hangup c) (cn_ref c) (cn_fidtab c)) in
            mret uid
        end
      else if negb (g_noauth s) && (negb (uid =? noneid (g_users s)) ||
                negb (match g_conns s !! m_conn m with Some c => cn_authok c | None => false end))
      then merror Ebadu
      else mret uid
  end.

(** The entry of the root. *)
Definition attach_root (m : Fmsg) (mnt : nat) (uid : Z) : M Fs Xdir :=
  let* s := mget in
  if bool_decide (m_aname m = dump_name) then
    if uid =? noneid (g_users s) then merror Eperm else mret (filldumpdir (g_nextgen s))
  else
    let* k := mlift (packdkey Kvmax (-1) (Some [])) in
    let* mt := mnt_at mnt in
    let* r := mlift (tget (mt_root mt) k Kvmax) in
    match r with
    | None => merror Enosnap
    | Some kv => mlift (kv2dir kv)
    end.

(** The new fid and the answer; [de] and [mnt] belong to the caller. *)
Definition attach_fid (m : Fmsg) (aname : list Z) (mnt de : nat) (uid : Z) (d : Xdir) : M Fs unit :=
  let* s := mget in
  let* c := conn_at (m_conn m) in
  let pct := bool_decide (head (m_aname m) = Some 37) in
  if pct && negb (g_permissive s) && negb (ingroup (g_users s) uid (admid (g_users s))) then merror Eperm else
  let* nf := dupfid (m_conn m) (m_fid m)
    (fid0 (Some mnt) de (q_path (d_qid d)) uid (d_uid d) (d_gid d) (d_mode d) (cn_iounit c) pct
       (bool_decide (aname = dump_name))) in
  match nf with
  | None => merror Efid
  | Some nf => do* respond (m_tag m) (Rattach (d_qid d)) in putfid nf
  end.

Definition fsattach (m : Fmsg) : M Fs unit :=
  let aname := if bool_decide (head (m_aname m) = Some 37) then tail (m_aname m) else m_aname m in
  let aname := match aname with [] => main_name | _ => aname end in
  mcatch
    (let* mnt := getmount aname in
     do* mcatch
       (let* uid := attach_user m aname in
        let* d := attach_root m mnt uid in
        let* de := getdent mnt (-1) d in
        do* mcatch (attach_fid m aname mnt de uid d) (fun e => rerror (m_tag m) e) in
        clunkdent (Some mnt) de)
       (fun e => rerror (m_tag m) e) in
     clunkmount mnt)
    (fun e => rerror (m_tag m) e).

(** ** Walking *)

(** The variables of the loop of [fswalk]. *)
Record Walk := mkWalk {
  w_t : T; w_mnt : nat; w_up : Z; w_prev : Z; w_d : Xdir;
  w_duid : Z; w_dgid : Z; w_dmode : Z; w_qids : list Qid }.

(** One name; [false] stops the walk. *)
Definition walk_step (o : Fid) (name : list Z) (w : Walk) : M Fs (Walk * bool) :=
  let* s := mget in
  let d := w_d w in
  guard* zlen name <=? Maxname else Elength in
  if negb (fsaccess (g_users s) (fd_permit o) (fd_uid o) (d_mode d) (d_uid d) (d_gid d) DMEXEC =? 0)
  then mret (w, false) else
  if bool_decide (name = [46; 46]) && (w_up w =? -1) && fd_fromdump o then
    let d := filldumpdir (g_nextgen s) in
    mret (mkWalk (w_t w) (g_snapmnt s) (-1) (-1) d (w_duid w) (w_dgid w) (w_dmode w) (w_qids w ++ [d_qid d]), true)
  else
    let* (w, prev, name) :=
      if bool_decide (name = [46; 46]) then
        let* (prev, name) := mlift (findparent (w_t w) (w_up w) Maxent) in mret (w, prev, name)
      else if q_path (d_qid d) =? Qdump then
        let* mnt := getmount name in
        let* mt := mnt_at mnt in
        mret (mkWalk (mt_root mt) mnt (w_up w) (w_prev w) d (w_duid w) (w_dgid w) (w_dmode w) (w_qids w), -1, [])
      else mret (w, w_prev w, name) in
    let* k := mlift (dkey prev name Maxent) in
    let* r := mlift (tget (w_t w) k Kvmax) in
    match r with
    | None => mret (mkWalk (w_t w) (w_mnt w) prev prev d (d_uid d) (d_gid d) (d_mode d) (w_qids w), false)
    | Some kv =>
        let* d' := mlift (kv2dir kv) in
        mret (mkWalk (w_t w) (w_mnt w) prev (s64 (q_path (d_qid d'))) d' (d_uid d) (d_gid d) (d_mode d)
                (w_qids w ++ [d_qid d']), true)
    end.

Fixpoint walk_loop (o : Fid) (names : list (list Z)) (w : Walk) : M Fs Walk :=
  match names with
  | [] => mret w
  | name :: names' =>
      let* (w, ok) := walk_step o name w in
      if (ok : bool) then walk_loop o names' w else mret w
  end.

(** The entries of the file the walk came to and of its parent. *)
Definition walk_dents (w : Walk) : M Fs (nat * nat) :=
  let* dent := getdent (w_mnt w) (w_up w) (w_d w) in
  if w_up w =? -1 then
    let* dir := getdent (w_mnt w) (w_up w) (w_d w) in mret (dent, dir)
  else
    let* (upup, name) := mlift (findparent (w_t w) (w_up w) Maxent) in
    let* k := mlift (dkey upup name Maxent) in
    let* r := mlift (tget (w_t w) k Kvmax) in
    match r with
    | None => merror Eassert
    | Some kv =>
        let* d := mlift (kv2dir kv) in
        let* dir := getdent (w_mnt w) upup d in mret (dent, dir)
    end.

(** The fid [fp] goes to where the walk ended. *)
Definition walk_move (fp : nat) (w : Walk) : M Fs unit :=
  let* (dent, dir) := walk_dents w in
  let* f := fid_at fp in
  do* clunkdent (fd_mnt f) (fd_dent f) in
  do* clunkdent (fd_mnt f) (fd_dir f) in
  do* (if negb (bool_decide (fd_mnt f = Some (w_mnt w))) then
         do* when_some (fd_mnt f) clunkmount in mnt_inc (w_mnt w)
       else mret tt) in
  let* f := fid_at fp in
  put_fid fp (fid_move (Some (w_mnt w)) dent dir
    (match last (w_qids w) with Some q => s64 (q_path q) | None => fd_qpath f end)
    (w_up w) (w_duid w) (w_dgid w) (w_dmode w) f).

(** Behind the look-up of the fid [op]. *)
Definition walk_body (m : Fmsg) (op : nat) : M Fs unit :=
  let* o := fid_at op in
  if negb (fd_mode o =? -1) then merror Einuse else
  match fd_mnt o with
  | None => merror Eoob
  | Some mnt =>
      let* mt := mnt_at mnt in
      let* de := dent_at (fd_dent o) in
      let d := de_x de in
      let* w := walk_loop o (m_wname m)
        (mkWalk (mt_root mt) mnt (fd_pqpath o) (fd_qpath o) d (d_uid d) (d_gid d) (d_mode d) []) in
      let i := zlen (w_qids w) in
      let nw := zlen (m_wname m) in
      if (i =? 0) && negb (nw =? 0) then merror Esrch else
      let* (fp, duped) :=
        if negb (m_fid m =? m_newfid m) && (i =? nw) then
          let* r := dupfid (m_conn m) (m_newfid m) o in
          match r with None => merror Efid | Some p => mret (p, true) end
        else mret (op, false) in
      do* (if (0 <? i) && (i =? nw) then
             mcatch (walk_move fp w)
               (fun e => do* (if (duped : bool) then
                                let* ao := clunkfid (m_conn m) fp in
                                match ao with None => mret tt | Some _ => merror Eassert end
                              else mret tt) in merror e)
           else mret tt) in
      do* (if (duped : bool) then putfid op else mret tt) in
      do* putfid fp in
      respond (m_tag m) (Rwalk (w_qids w))
  end.

Definition fswalk (m : Fmsg) : M Fs unit :=
  let* r := getfid (m_conn m) (m_fid m) in
  match r with
  | None => rerror (m_tag m) Enofid
  | Some op => mcatch (walk_body m op) (fun e => do* rerror (m_tag m) e in putfid op)
  end.

(** ** Entries *)

Definition dent_dir (de : Dent A) : M Fs Xdir :=
  match de_name de with
  | None => merror Euninit
  | Some nm => mret (mkXdir (d_flag (de_x de)) (d_qid (de_x de)) (d_mode (de_x de)) (d_atime (de_x de))
      (d_mtime (de_x de)) (d_length (de_x de)) (d_uid (de_x de)) (d_gid (de_x de)) (d_muid (de_x de)) nm)
  end.

Definition fsstat (m : Fmsg) : M Fs unit :=
  let* r := getfid (m_conn m) (m_fid m) in
  match r with
  | None => rerror (m_tag m) Enofid
  | Some fp =>
      mcatch
        (let* f := fid_at fp in
         let* de := dent_at (fd_dent f) in
         let* d := dent_dir de in
         let* s := mget in
         let* r := mlift (dir2statbuf (g_users s) d STATMAX) in
         match r with
         | None => merror Efs
         | Some p => do* respond (m_tag m) (Rstat p) in putfid fp
         end)
        (fun e => do* rerror (m_tag m) e in putfid fp)
  end.

Definition fsclunk (m : Fmsg) : M Fs (option Amsg) :=
  let* r := getfid (m_conn m) (m_fid m) in
  match r with
  | None => do* rerror (m_tag m) Enofid in mret None
  | Some fp =>
      let* ao := clunkfid (m_conn m) fp in
      do* respond (m_tag m) Rclunk in
      do* putfid fp in
      mret ao
  end.

(** The message of [touch], after the version of the entry was raised. *)
Definition touch (p : nat) : M Fs Msg :=
  let* de := dent_at p in
  do* put_dent p (dent_set_x (set_vers (de_x de) (u32 (q_vers (d_qid (de_x de)) + 1))) de) in
  mret (touch_msg (de_key de)).

(** [candelete]: an error when the directory has an entry. *)
Definition candelete (f : Fid) : M Fs (option err) :=
  let* de := dent_at (fd_dent f) in
  if Z.land (q_type (d_qid (de_x de))) QTDIR =? 0 then mret None else
  match fd_mnt f with
  | None => merror Eoob
  | Some mnt =>
      let* mt := mnt_at mnt in
      let* pfx := mlift (packdkey Dpfxsz (fd_qpath f) None) in
      let* l := mlift (tscan (mt_root mt) pfx) in
      mret (match l with [] => None | _ => Some Enempty end)
  end.

(** ** Creating *)

Definition qid_type (perm : Z) : Z :=
  Z.lor (Z.lor (Z.lor (if negb (Z.land perm DMDIR =? 0) then QTDIR else 0)
    (if negb (Z.land perm DMAPPEND =? 0) then QTAPPEND else 0))
    (if negb (Z.land perm DMEXCL =? 0) then QTEXCL else 0))
    (if negb (Z.land perm DMTMP =? 0) then QTTMP else 0).

(** The permissions are limited by those of the directory. *)
Definition create_mode (perm dmode : Z) : Z :=
  let mask := if negb (Z.land perm DMDIR =? 0) then 511 else 438 in
  Z.land perm (Z.lor (Z.lnot mask) (Z.land dmode mask)).

(** The entry of the new file; [flag] is never set. *)
Definition create_dir (path now : Z) (perm dmode uid gid : Z) (name : list Z) : Xdir :=
  mkXdir (u64 junk) (mkQid path 0 (qid_type perm)) (create_mode perm dmode) now now 0 uid gid uid name.

(** The messages of a new entry [d] in the directory [up]. *)
Definition create_msgs (up : Z) (d : Xdir) (perm : Z) : res (list Msg) :=
  let! kv := dir2kv up d Kvmax in
  if negb (Z.land perm DMDIR =? 0) then
    let! k := packsuper Keymax (s64 (q_path (d_qid d))) in
    let! v := packdkey Inlmax up (Some (d_name d)) in
    Ok [mkMsg Oinsert (kv_k kv) (kv_v kv); mkMsg Oinsert k v]
  else Ok [mkMsg Oinsert (kv_k kv) (kv_v kv)].

Definition create_body (m : Fmsg) (fp : nat) : M Fs unit :=
  let* f := fid_at fp in
  if negb (fd_mode f =? -1) then rerror (m_tag m) Einuse else
  match fd_mnt f with
  | None => merror Eoob
  | Some mnt =>
      let* de := dent_at (fd_dent f) in
      let* mt := mnt_at mnt in
      let* r := mlift (walk1 (mt_root mt) (fd_qpath f) (m_name m)) in
      match r with
      | Some _ => rerror (m_tag m) Eexist
      | None =>
          let* s := mget in
          let x := de_x de in
          if fsaccess (g_users s) (fd_permit f) (fd_uid f) (d_mode x) (d_uid x) (d_gid x) DMWRITE =? -1
          then rerror (m_tag m) Eperm else
          let path := g_nextqid s + 1 in
          do* mmod (set_nextqid path) in
          let d := create_dir (u64 path) (g_now s) (m_perm m) (d_mode x) (fd_uid f) (d_gid x) (m_name m) in
          let* ms := mlift (create_msgs (fd_qpath f) d (m_perm m)) in
          let* t := touch (fd_dent f) in
          do* upsert mnt (ms ++ [t]) in
          let* p := getdent mnt (fd_qpath f) d in
          do* clunkdent (Some mnt) (fd_dent f) in
          let f' := fid_move (Some mnt) p (fd_dir f) path (fd_qpath f) (d_uid x) (d_gid x) (d_mode x)
                      (fid_set_mode (mode2bits (m_mode m)) f) in
          do* put_fid fp (if negb (Z.land (m_mode m) ORCLOSE =? 0) then fid_set_rclose true f' else f') in
          respond (m_tag m) (Rcreate (d_qid d) (fd_iounit f))
      end
  end.

Definition fscreate (m : Fmsg) : M Fs unit :=
  match okname (m_name m) with
  | Some e => rerror (m_tag m) e
  | None =>
      if negb (Z.land (m_perm m) (Z.lor DMMOUNT DMAUTH) =? 0) then rerror (m_tag m) Ebotch else
      let* r := getfid (m_conn m) (m_fid m) in
      match r with
      | None => rerror (m_tag m) Enofid
      | Some fp =>
          do* mcatch (create_body m fp) (fun e => rerror (m_tag m) e) in
          putfid fp
      end
  end.


(** ** Removing *)

Definition remove_checks (fp mnt : nat) (t : T) : M Fs unit :=
  let* f := fid_at fp in
  let* de := dent_at (fd_dent f) in
  if de_gone de then merror Ephase else
  let* r := mlift (tget t (de_key de) Kvmax) in
  match r with
  | None => merror Ephase
  | Some _ =>
      let* e := candelete f in
      match e with
      | Some e => merror e
      | None =>
          let* s := mget in
          if fsaccess (g_users s) (fd_permit f) (fd_uid f) (fd_dmode f) (fd_duid f) (fd_dgid f) DMWRITE =? -1
          then merror Eperm else mret tt
      end
  end.

(** Behind the checks; [ao] is the request for the sweeper made so far. *)
Definition remove_entry (m : Fmsg) (fp mnt : nat) : M Fs unit :=
  let* f := fid_at fp in
  let* de := dent_at (fd_dent f) in
  let isdir := negb (Z.land (q_type (d_qid (de_x de))) QTDIR =? 0) in
  let* t := touch (fd_dir f) in
  do* upsert mnt (mkMsg Odelete (de_key de) [0] ::
                  (if isdir then [mkMsg Oclobber (supkey (fd_qpath f)) []] else []) ++ [t]) in
  let* de := dent_at (fd_dent f) in
  do* put_dent (fd_dent f) (dent_set_gone true de) in
  respond (m_tag m) Rremove.

Definition fsremove (m : Fmsg) : M Fs (option Amsg) :=
  let* r := getfid (m_conn m) (m_fid m) in
  match r with
  | None => do* rerror (m_tag m) Enofid in mret None
  | Some fp =>
      let* f := fid_at fp in
      match fd_mnt f with
      | None => merror Eoob
      | Some mnt =>
          let* mt := mnt_at mnt in
          let* ao := clunkfid (m_conn m) fp in
          do* truncwait (fd_dent f) in
          let* ok := mcatch (do* remove_checks fp mnt (mt_root mt) in mret true)
            (fun e => do* rerror (m_tag m) e in do* freeamsg ao in mret false) in
          let* ao :=
            if ok then
              do* freeamsg ao in
              let* de := dent_at (fd_dent f) in
              let* ao := if negb (Z.land (q_type (d_qid (de_x de))) QTDIR =? 0) then mret None
                         else do* mnt_inc mnt in
                              mret (Some (AOclear mnt None (fd_qpath f) 0 (s64 (d_length (de_x de))))) in
              mcatch (do* remove_entry m fp mnt in mret ao)
                (fun e => do* rerror (m_tag m) e in do* freeamsg ao in mret None)
            else mret None in
          do* putfid fp in
          mret ao
      end
  end.

(** ** Opening *)

(** The entry as the tree has it. *)
Definition open_dir (fp mnt : nat) : M Fs Xdir :=
  let* f := fid_at fp in
  let* mt := mnt_at mnt in
  if negb (Z.land (fd_qpath f) Qdump =? 0) then
    let* s := mget in mret (filldumpdir (g_nextgen s))
  else
    let* de := dent_at (fd_dent f) in
    let* r := mlift (tget (mt_root mt) (de_key de) Kvmax) in
    match r with None => merror Esrch | Some kv => mlift (kv2dir kv) end.

Definition open_checks (m : Fmsg) (fp : nat) (d : Xdir) : M Fs unit :=
  let* f := fid_at fp in
  let* de := dent_at (fd_dent f) in
  if de_gone de then merror Ephase else
  if negb (Z.land (q_type (d_qid (de_x de))) QTEXCL =? 0) && negb (de_ref de =? 1) then merror Elocked else
  let* e := if negb (Z.land (m_mode m) ORCLOSE =? 0) then candelete f else mret None in
  match e with
  | Some e => merror e
  | None =>
      let* s := mget in
      if fsaccess (g_users s) (fd_permit f) (fd_uid f) (d_mode d) (d_uid d) (d_gid d) (mode2bits (m_mode m)) =? -1
      then merror Eperm
      else put_dent (fd_dent f) (dent_set_x (set_length (de_x de) (d_length d)) de)
  end.

(** The request that clears the blocks of [dp] from [off], with the references
    it holds; the entry is marked until that is done. *)
Definition clear_req (mnt dp : nat) (q off : Z) : M Fs Amsg :=
  let* de := dent_at dp in
  do* put_dent dp (dent_ref 1 (dent_set_trunc true de)) in
  do* mnt_inc mnt in
  mret (AOclear mnt (Some dp) q off (s64 (d_length (de_x de)))).

Definition open_trunc (fp mnt : nat) : M Fs Amsg :=
  let* f := fid_at fp in
  let* ao := clear_req mnt (fd_dent f) (fd_qpath f) 0 in
  mcatch
    (let* de := dent_at (fd_dent f) in
     let x := de_x de in
     do* put_dent (fd_dent f)
       (dent_set_x (set_length (set_vers (set_muid x (fd_uid f)) (u32 (q_vers (d_qid x) + 1))) 0) de) in
     do* upsert mnt [mkMsg Owstat (de_key de) (PACK8 (Z.lor Owsize Owmuid) ++ PACK64 0 ++ PACK32 (fd_uid f))] in
     mret ao)
    (fun e => do* freeamsg (Some ao) in merror e).

Definition open_body (m : Fmsg) (fp : nat) : M Fs (option Amsg) :=
  let* f := fid_at fp in
  let otrunc := negb (Z.land (m_mode m) OTRUNC =? 0) in
  do* (if otrunc then truncwait (fd_dent f) else mret tt) in
  match fd_mnt f with
  | None => merror Eoob
  | Some mnt =>
      let* d := open_dir fp mnt in
      do* open_checks m fp d in
      if negb (fd_mode f =? -1) then merror Einuse else
      let* de := dent_at (fd_dent f) in
      let* ao := if otrunc && (Z.land (d_mode (de_x de)) DMAPPEND =? 0)
                 then let* a := open_trunc fp mnt in mret (Some a) else mret None in
      let* f := fid_at fp in
      let f' := fid_set_mode (mode2bits (m_mode m)) f in
      do* put_fid fp (if negb (Z.land (m_mode m) ORCLOSE =? 0) then fid_set_rclose true f' else f') in
      do* respond (m_tag m) (Ropen (d_qid d) (fd_iounit f)) in
      mret ao
  end.

Definition fsopen (m : Fmsg) : M Fs (option Amsg) :=
  let* r := getfid (m_conn m) (m_fid m) in
  match r with
  | None => do* rerror (m_tag m) Enofid in mret None
  | Some fp =>
      let* ao := mcatch (open_body m fp) (fun e => do* rerror (m_tag m) e in mret None) in
      do* putfid fp in
      mret ao
  end.

(** ** Changing an entry *)

(** Whether the name changes. *)
Definition wstat_name (t : T) (de : Dent A) (name : list Z) : M Fs bool :=
  match name with
  | [] => mret false
  | _ =>
      if Maxname <? zlen name then merror Elength else
      match de_name de with
      | None => merror Euninit
      | Some nm =>
          if bool_decide (name = nm) then mret false else
          match okname name with
          | Some e => merror e
          | None =>
              let* r := mlift (walk1 t (de_up de) name) in
              match r with Some _ => merror Eexist | None => mret true end
          end
      end
  end.

Definition wstat_qid (d : Dir) (x : Xdir) : M Fs unit :=
  if negb (q_path (r_qid d) =? 2 ^ 64 - 1) || negb (q_vers (r_qid d) =? 2 ^ 32 - 1) then
    if negb (q_path (r_qid d) =? q_path (d_qid x)) then merror Ewstatp else
    if negb (q_vers (r_qid d) =? q_vers (d_qid x)) then merror Ewstatv else mret tt
  else mret tt.

(** The new length, and the request to the sweeper when it is smaller.  The
    entry has the new length from here on. *)
Definition wstat_size (fp mnt : nat) (d : Dir) : M Fs (option Z * option Amsg) :=
  let len := s64 (r_length d) in
  if len =? -1 then mret (None, None) else
  if len <? 0 then merror Ewstatl else
  let* f := fid_at fp in
  let* de := dent_at (fd_dent f) in
  if len =? d_length (de_x de) then mret (None, None) else
  let* ao := if len <? d_length (de_x de)
             then let* a := clear_req mnt (fd_dent f) (fd_qpath f) len in mret (Some a) else mret None in
  let* de := dent_at (fd_dent f) in
  do* put_dent (fd_dent f) (dent_set_x (set_length (de_x de) len) de) in
  mret (Some len, ao).

Definition wstat_mode (d : Dir) (x : Xdir) : res (option Z) :=
  if r_mode d =? 2 ^ 32 - 1 then Ok None else
  if negb (Z.land (Z.lxor (r_mode d) (d_mode x)) DMDIR =? 0) then Err Ewstatd else
  if negb (Z.land (r_mode d) (Z.lnot (Z.lor (Z.lor (Z.lor (Z.lor DMDIR DMAPPEND) DMEXCL) DMTMP) 511)) =? 0)
  then Err Ewstatb else
  Ok (if negb (r_mode d =? d_mode x) then Some (r_mode d) else None).

Definition wstat_mtime (d : Dir) (x : Xdir) : option Z :=
  if r_mtime d =? 2 ^ 32 - 1 then None else
  let t := r_mtime d * Nsec in
  if t =? d_mtime x then None else Some t.

(** The user or group [name], which is now [old]. *)
Definition wstat_id (us : Users) (name : list Z) (e : err) (old : Z) : res (option Z) :=
  match name with
  | [] => Ok None
  | _ =>
      if Maxuname <? zlen name then Err Elength else
      match name2user (users us) name with
      | None => Err e
      | Some u => Ok (if u_id u =? old then None else Some (u_id u))
      end
  end.

Definition wstat_perm (us : Users) (f : Fid) (x : Xdir) (rename : bool) (w : Wst) : res unit :=
  let own (e : err) : res unit :=
    if fd_permit f || (fd_uid f =? d_uid x) then Ok tt
    else let! l := groupleader us (fd_uid f) (d_gid x) in if l then Ok tt else Err e in
  if rename && (fsaccess us (fd_permit f) (fd_uid f) (fd_dmode f) (fd_duid f) (fd_dgid f) DMWRITE =? -1)
  then Err Eperm else
  if is_given (ws_size w) && (fsaccess us (fd_permit f) (fd_uid f) (d_mode x) (d_uid x) (d_gid x) DMWRITE =? -1)
  then Err Eperm else
  let! _ := if is_given (ws_mode w) || is_given (ws_mtime w) then own Ewstato else Ok tt in
  if is_given (ws_uid w) && negb (fd_permit f) then Err Ewstatu else
  match ws_gid w with
  | None => Ok tt
  | Some gid =>
      if fd_permit f then Ok tt else
      if (fd_uid f =? d_uid x) && ingroup us (fd_uid f) gid then Ok tt else
      let! l := groupleader us (fd_uid f) (d_gid x) in
      let! l' := if l then groupleader us (fd_uid f) gid else Ok false in
      if l' then Ok tt else Err Ewstatg
  end.

Definition set_name (d : Xdir) (name : list Z) : Xdir :=
  mkXdir (d_flag d) (d_qid d) (d_mode d) (d_atime d) (d_mtime d) (d_length d) (d_uid d) (d_gid d) (d_muid d) name.

(** The messages of a rename to [n]: the old key goes, and a directory's way
    to its parent follows. *)
Definition rename_msgs (k : list Z) (pq q : Z) (isdir : bool) (n : Xdir) : res (list Msg * list Z) :=
  let! kv := dir2kv pq n Kvmax in
  Ok ([mkMsg Oclobber k []; mkMsg Oinsert (kv_k kv) (kv_v kv)] ++
      (if isdir then [mkMsg Oinsert (supkey q) (kv_k kv)] else []), kv_k kv).

(** Behind the length; [x] is the entry with its old version and its new length. *)
Definition wstat_tail (m : Fmsg) (fp mnt : nat) (d : Dir) (rename : bool) (size : option Z) : M Fs unit :=
  let* f := fid_at fp in
  let* de := dent_at (fd_dent f) in
  let x := de_x de in
  let* s := mget in
  let us := g_users s in
  let* md := mlift (wstat_mode d x) in
  let* uid := mlift (wstat_id us (cstr (r_uid d)) Enouser (d_uid x)) in
  let* gid := mlift (wstat_id us (cstr (r_gid d)) Enogrp (d_gid x)) in
  let w := mkWst size md (wstat_mtime d x) uid gid (Some (fd_uid f)) in
  do* mlift (wstat_perm us f x rename w) in
  let n := wst_apply w x in
  do* (if rename && negb (de_gone de) then
         let n := set_name n (cstr (r_name d)) in
         let isdir := negb (Z.land (q_type (d_qid x)) QTDIR =? 0) in
         let* (ms, k) := mlift (rename_msgs (de_key de) (fd_pqpath f) (fd_qpath f) isdir n) in
         let* t := touch (fd_dir f) in
         do* upsert mnt (ms ++ [t]) in
         let* de := dent_at (fd_dent f) in
         put_dent (fd_dent f) (dent_set_name None k (dent_set_x n de))
       else
         do* upsert mnt [mkMsg Owstat (de_key de) (wst_bytes w)] in
         let* de := dent_at (fd_dent f) in
         put_dent (fd_dent f) (dent_set_x n de)) in
  respond (m_tag m) Rwstat.

Definition wstat_body (m : Fmsg) (fp : nat) : M Fs (option Amsg) :=
  let* f := fid_at fp in
  let* de := dent_at (fd_dent f) in
  if de_gone de then merror Ephase else
  if negb (Z.land (q_type (d_qid (de_x de))) QTAUTH =? 0) || negb (Z.land (q_path (d_qid (de_x de))) Qdump =? 0)
  then merror Emode else
  match convM2D (m_stat m), fd_mnt f with
  | None, _ => merror Edir
  | _, None => merror Eoob
  | Some d, Some mnt =>
      let* mt := mnt_at mnt in
      do* wstat_qid d (de_x de) in
      let* rename := wstat_name (mt_root mt) de (cstr (r_name d)) in
      let* (size, ao) := wstat_size fp mnt d in
      mcatch (do* wstat_tail m fp mnt d rename size in mret ao)
        (fun e => do* rerror (m_tag m) e in do* freeamsg ao in mret None)
  end.

Definition fswstat (m : Fmsg) : M Fs (option Amsg) :=
  let* r := getfid (m_conn m) (m_fid m) in
  match r with
  | None => do* rerror (m_tag m) Enofid in mret None
  | Some fp =>
      let* f := fid_at fp in
      do* truncwait (fd_dent f) in
      let* ao := mcatch (wstat_body m fp) (fun e => do* rerror (m_tag m) e in mret None) in
      do* putfid fp in
      mret ao
  end.

(** ** Reading *)

Definition scn_key (k : list Z) (sc : Scn) : Scn := mkScn (sc_pfx sc) k false (sc_done sc) None (sc_off sc).
Definition scn_end (sc : Scn) : Scn := mkScn (sc_pfx sc) (sc_key sc) false true (sc_over sc) (sc_off sc).
Definition scn_over (kv : Kvp) (sc : Scn) : Scn :=
  mkScn (sc_pfx sc) (sc_key sc) (sc_first sc) (sc_done sc) (Some kv) (sc_off sc).

(** The scan of a fid: a new one at the start; a scan at another place than
    the request is refused, but the place is never recorded. *)
Definition fid_scan (m : Fmsg) (fp : nat) (pfx : list Z) : M Fs nat :=
  let* f := fid_at fp in
  let new (old : option nat) :=
    let* p := malloc in
    do* put_scan p (mkScn pfx pfx true false None 0) in
    do* when_some old free_scan in
    let* f := fid_at fp in
    do* put_fid fp (fid_set_scan (Some p) f) in
    mret p in
  match fd_scan f with
  | None => new None
  | Some sp =>
      let* sc := scan_at sp in
      if negb (sc_off sc =? 0) && negb (sc_off sc =? m_offset m) then merror Edscan else
      if m_offset m =? 0 then new (Some sp) else mret sp
  end.

(** The pairs from where the scan stands. *)
Definition scan_rest (t : T) (sc : Scn) : res (list Kvp) :=
  let! l := tscan t (sc_pfx sc) in
  Ok (filter (fun kv => sc_first sc = true \/ keycmp (sc_key sc) (kv_k kv) < 0) l).

(** The loop over [btnext]: entries as long as they fit into [n] bytes. *)
Fixpoint read_entries (sp : nat) (l : list Kvp) (n : Z) : M Fs (list Z) :=
  let* sc := scan_at sp in
  match l with
  | [] => do* put_scan sp (scn_end sc) in mret []
  | kv :: l' =>
      do* put_scan sp (scn_key (kv_k kv) sc) in
      let* s := mget in
      let* r := mlift (kv2statbuf (g_users s) kv n) in
      match r with
      | None => do* put_scan sp (scn_over kv (scn_key (kv_k kv) sc)) in mret []
      | Some p => let* q := read_entries sp l' (n - zlen p) in mret (p ++ q)
      end
  end.

Definition readdir (m : Fmsg) (fp : nat) : M Fs (list Z) :=
  let* f := fid_at fp in
  match fd_mnt f with
  | None => merror Eoob
  | Some mnt =>
      let* mt := mnt_at mnt in
      let* pfx := mlift (packdkey Dpfxsz (fd_qpath f) None) in
      let* sp := fid_scan m fp pfx in
      let* sc := scan_at sp in
      if sc_done sc then mret [] else
      let* p := match sc_over sc with
        | None => mret []
        | Some kv =>
            let* s := mget in
            let* r := mlift (kv2statbuf (g_users s) kv (m_count m)) in
            match r with
            | None => merror Ebotch
            | Some p => do* put_scan sp (scn_key (sc_key sc) sc) in mret p
            end
        end in
      let* sc := scan_at sp in
      let* l := mlift (scan_rest (mt_root mt) sc) in
      let* q := read_entries sp l (m_count m - zlen p) in
      mret (p ++ q)
  end.

(** The list of the snapshots.  The names are copied over the literal ["/"];
    the early return leaves the error handler behind. *)
Definition readsnap (m : Fmsg) (fp : nat) : M Fs (list Z) :=
  let* sp := fid_scan m fp (PACK8 Klabel) in
  let* sc := scan_at sp in
  if sc_done sc then merror Eassert else
  match sc_over sc with
  | Some _ => merror Eoob
  | None =>
      let* s := mget in
      let* l := mlift (scan_rest (g_snap s) sc) in
      match l with
      | [] => do* put_scan sp (scn_end sc) in mret []
      | _ => merror Eoob
      end
  end.

Definition fsread (m : Fmsg) : M Fs unit :=
  let* r := getfid (m_conn m) (m_fid m) in
  match r with
  | None => rerror (m_tag m) Enofid
  | Some fp =>
      do* mcatch
        (let* f := fid_at fp in
         let* de := dent_at (fd_dent f) in
         let q := d_qid (de_x de) in
         let* data :=
           if negb (Z.land (q_type q) QTAUTH =? 0) then authread fp (m_count m)
           else if q_path q =? Qdump then readsnap m fp
           else if negb (Z.land (q_type q) QTDIR =? 0) then readdir m fp
           else match fd_mnt f with
                | None => merror Eoob
                | Some mnt =>
                    let* mt := mnt_at mnt in
                    let* s := mget in
                    mlift (File.readfile (mkFst (mt_root mt) (g_blks s) (d_length (de_x de)))
                             (fd_qpath f) (m_offset m) (m_count m))
                end in
         respond (m_tag m) (Rread data))
        (fun e => rerror (m_tag m) e) in
      putfid fp
  end.

(** ** Writing *)

(** The blocks and the entry of the open file [fp] with the entry [dp]; the
    entry has its new length and time before the tree does. *)
Definition write_file (m : Fmsg) (f : Fid) (mnt : nat) : M Fs Z :=
  let dp := fd_dent f in
  let* de := dent_at dp in
  let x := de_x de in
  let len := d_length x in
  let o := if negb (Z.land (d_mode x) DMAPPEND =? 0) then s64 len else m_offset m in
  let p := m_data m in
  let* s := mget in
  let* (ms, o') := on_file mnt (Some dp)
    (write_loop (S (length p)) (g_rdonly s) (fd_qpath f) p o (zlen p) (s64 len) [] []) in
  assert* zlen ms <? nwrite in
  let* s := mget in
  let* de := dent_at dp in
  do* put_dent dp (dent_set_x (set_mtime (set_length (de_x de) (if len <? u64 o' then u64 o' else len)) (g_now s)) de) in
  do* upsert mnt (ms ++ [write_stat (de_key de) len o' (g_now s) (fd_uid f)]) in
  mret (o' - o).

(** Behind the wait. *)
Definition write_body (m : Fmsg) (fp : nat) : M Fs unit :=
  let* f := fid_at fp in
  if Z.land (fd_mode f) DMWRITE =? 0 then merror Einuse else
  let* de := dent_at (fd_dent f) in
  if de_gone de then merror Ephase else
  if negb (Z.land (q_type (d_qid (de_x de))) QTAUTH =? 0) then
    do* authwrite fp (m_data m) in respond (m_tag m) (Rwrite (zlen (m_data m)))
  else
    match fd_mnt f with
    | None => merror Eoob
    | Some mnt => let* n := write_file m f mnt in respond (m_tag m) (Rwrite n)
    end.

Definition fsfswrite (m : Fmsg) : M Fs unit :=
  let* r := getfid (m_conn m) (m_fid m) in
  match r with
  | None => rerror (m_tag m) Enofid
  | Some fp =>
      let* f := fid_at fp in
      do* truncwait (fd_dent f) in
      do* mcatch (write_body m fp) (fun e => rerror (m_tag m) e) in
      putfid fp
  end.

(** ** Dispatch *)

Definition fsflush (m : Fmsg) : M Fs unit := respond (m_tag m) Rflush.

(** [chsend(fs->admchan, a)] *)
Definition send_adm (ao : option Amsg) : M Fs unit :=
  when_some ao (fun a => mmod (fun s => set_adm (g_adm s ++ [a]) s)).

Definition Tversion : Z := 100.
Definition Tauth : Z := 102.
Definition Tattach : Z := 104.
Definition Tflush : Z := 108.
Definition Twalk : Z := 110.
Definition Topen : Z := 112.
Definition Tcreate : Z := 114.
Definition Tread : Z := 116.
Definition Twrite : Z := 118.
Definition Tclunk : Z := 120.
Definition Tremove : Z := 122.
Definition Tstat : Z := 124.
Definition Twstat : Z := 126.

(** [runmutate], one message. *)
Definition runmutate (m : Fmsg) : M Fs unit :=
  let* s := mget in
  if g_rdonly s then
    if m_type m =? Tremove then
      let* r := getfid (m_conn m) (m_fid m) in
      match r with
      | None => rerror (m_tag m) Enofid
      | Some fp =>
          let* ao := clunkfid (m_conn m) fp in
          do* putfid fp in
          do* freeamsg ao in
          rerror (m_tag m) Erdonly
      end
    else rerror (m_tag m) Erdonly
  else
    do* mmod (set_dirty true) in
    let* ao :=
      if m_type m =? Tcreate then do* fscreate m in mret None
      else if m_type m =? Twrite then do* fsfswrite m in mret None
      else if m_type m =? Twstat then fswstat m
      else if m_type m =? Tremove then fsremove m
      else if m_type m =? Topen then fsopen m
      else merror Eassert in
    send_adm ao.

(** [runread], one message. *)
Definition runread (m : Fmsg) : M Fs unit :=
  if m_type m =? Tattach then fsattach m
  else if m_type m =? Twalk then fswalk m
  else if m_type m =? Tread then fsread m
  else if m_type m =? Tstat then fsstat m
  else if m_type m =? Topen then do* fsopen m in mret tt
  else mret tt.

(** Who handles a message. *)
Inductive Route : Type := Here | ToMutator | ToReader | Unknown.

Definition route (m : Fmsg) : Route :=
  let t := m_type m in
  if (t =? Tversion) || (t =? Tauth) || (t =? Tflush) || (t =? Tclunk) then Here
  else if (t =? Tcreate) || (t =? Twrite) || (t =? Twstat) || (t =? Tremove) then ToMutator
  else if (t =? Tattach) || (t =? Twalk) || (t =? Tread) || (t =? Tstat) then ToReader
  else if t =? Topen then
    if negb (Z.land (m_mode m) OTRUNC =? 0) || negb (Z.land (m_mode m) ORCLOSE =? 0) then ToMutator else ToReader
  else Unknown.

(** One message of a connection, handled to the end.  A client that does not
    start with a version is hung up. *)
Definition runfs (m : Fmsg) : M Fs unit :=
  let* c := conn_at (m_conn m) in
  if negb (m_type m =? Tversion) && negb (cn_versioned c) then
    put_conn (m_conn m) (mkConn (cn_iounit c) (cn_versioned c) (cn_authok c) true (cn_ref c) (cn_fidtab c))
  else
    match route m with
    | Here =>
        if m_type m =? Tversion then fsversion m
        else if m_type m =? Tauth then fsauth m
        else if m_type m =? Tflush then fsflush m
        else let* ao := fsclunk m in send_adm ao
    | ToMutator => runmutate m
    | ToReader => runread m
    | Unknown => rerror (m_tag m) Eimpl
    end.

(** ** Hanging up *)

(** The fids of one chain, first to last. *)
Fixpoint hangup_chain (fuel : nat) (c : nat) (h : Z) : M Fs unit :=
  match fuel with
  | O => merror Efuel
  | S fuel' =>
      let* cn := conn_at c in
      match chain h (cn_fidtab cn) with
      | [] => mret tt
      | p :: _ =>
          let* f := fid_at p in
          do* put_fid p (fid_ref 1 f) in
          let* ao := clunkfid c p in
          do* putfid p in
          do* send_adm ao in
          hangup_chain fuel' c h
      end
  end.

Fixpoint hangup_chains (c : nat) (hs : list Z) : M Fs unit :=
  match hs with
  | [] => mret tt
  | h :: hs' =>
      let* cn := conn_at c in
      do* hangup_chain (S (length (chain h (cn_fidtab cn)))) c h in hangup_chains c hs'
  end.

Definition putconn (c : nat) : M Fs unit :=
  let* cn := conn_at c in
  do* put_conn c (mkConn (cn_iounit cn) (cn_versioned cn) (cn_authok cn) (cn_hangup cn) (cn_ref cn - 1) (cn_fidtab cn)) in
  if negb (cn_ref cn - 1 =? 0) then mret tt else
  do* hangup_chains c (seqZ 0 Nfidtab) in
  mmod (fun s => set_conns (delete c (g_conns s)) s).

(** [newconn] *)
Definition newconn : M Fs nat :=
  let* p := malloc in
  do* put_conn p (mkConn Max9p false false false 1 ∅) in
  mret p.
End serve.
