(* ===== verification/ServeOk.v ===== *)
(** * What the 9P requests do (src/fs.c)

    The theorems about [Srv] and [Serve]. *)
From S2P Require Import Prelude CInt Mem Data Keys Hash Pack Apply Upsert Lookup Users Stat Mst Kv Entry File Srv Serve.

Section rules.
Context {T D A : Type} `{!MsgTree T} `{!DataBlks D} `{!Snapshots T}.
#[local] Abbreviation Fs := (@Fs T D A).
Implicit Types s : Fs.

(** ** Commands *)

Lemma mpost_deref {B C} (tab : Fs -> gmap nat B) p x (k : B -> M Fs C) s E Q :
  tab s !! p = Some x -> mpost (k x) s E Q -> mpost (mbind (deref tab p) k) s E Q.
Proof. intros H Hk. unfold mbind, deref, mpost. rewrite H. exact Hk. Qed.

Lemma mpost_deref_or {B C} (tab : Fs -> gmap nat B) p (k : B -> M Fs C) s (E : err -> Fs -> Prop) Q :
  E Eoob s -> (forall x, tab s !! p = Some x -> mpost (k x) s E Q) -> mpost (mbind (deref tab p) k) s E Q.
Proof. intros H Hk. unfold mbind, deref, mpost. destruct (tab s !! p) as [x|] eqn:Ex; [by apply Hk|done]. Qed.
End rules.

(** Runs the simple command at the head. *)
Ltac mgo :=
  cbv beta zeta;
  match goal with
  | |- mpost (mbind (mbind _ _) _) _ _ _ => apply mbind_assoc
  | |- mpost (mbind (dent_at _) _) _ _ _ => eapply (mpost_deref g_dents); [done|]
  | |- mpost (mbind (fid_at _) _) _ _ _ => eapply (mpost_deref g_fids); [done|]
  | |- mpost (mbind (mnt_at _) _) _ _ _ => eapply (mpost_deref g_mnts); [done|]
  | |- mpost (mbind (conn_at _) _) _ _ _ => eapply (mpost_deref g_conns); [done|]
  | |- mpost (mbind (scan_at _) _) _ _ _ => eapply (mpost_deref g_scans); [done|]
  | |- mpost (mbind (mmod _) _) _ _ _ => apply mpost_mod
  | |- mpost (mbind (put_dent _ _) _) _ _ _ => apply mpost_mod
  | |- mpost (mbind (put_fid _ _) _) _ _ _ => apply mpost_mod
  | |- mpost (mbind (put_mnt _ _) _) _ _ _ => apply mpost_mod
  | |- mpost (mbind (put_conn _ _) _) _ _ _ => apply mpost_mod
  | |- mpost (mbind (put_scan _ _) _) _ _ _ => apply mpost_mod
  | |- mpost (mbind mget _) _ _ _ => apply mpost_get
  | |- mpost (mbind (mret _) _) _ _ _ => apply mpost_retb
  end.

(** ** The fids of a connection *)

Section table.
Context {T D A : Type} `{!MsgTree T} `{!DataBlks D} `{!Snapshots T}.
#[local] Abbreviation Fs := (@Fs T D A).
Implicit Types s : Fs.

Definition has_fid s (fid : Z) (p : nat) : bool :=
  match g_fids s !! p with Some f => fd_fid f =? fid | None => false end.

(** The abstract table: the object a number names. *)
Definition fid_of s (c : nat) (fid : Z) : option nat :=
  match g_conns s !! c with
  | Some cn => List.find (has_fid s fid) (chain (fhash fid) (cn_fidtab cn))
  | None => None
  end.

(** Every chain holds live fids of its hash, each number once, and no object is newer
    than the heap. *)
Record fids_ok s (c : nat) (cn : Conn) : Prop := {
  fo_conn : g_conns s !! c = Some cn;
  fo_live h p : p ∈ chain h (cn_fidtab cn) -> exists f, g_fids s !! p = Some f /\ fhash (fd_fid f) = h;
  fo_uniq h p p' f f' : p ∈ chain h (cn_fidtab cn) -> p' ∈ chain h (cn_fidtab cn) ->
    g_fids s !! p = Some f -> g_fids s !! p' = Some f' -> fd_fid f = fd_fid f' -> p = p';
  fo_nodup h : NoDup (chain h (cn_fidtab cn));
  fo_new p f : g_fids s !! p = Some f -> (p < g_new s)%nat }.

Lemma find_chain_fids s fid l :
  (forall p, p ∈ l -> exists f, g_fids s !! p = Some f) ->
  find_chain fid_at (fun f => fd_fid f =? fid) l s = (Ok (List.find (has_fid s fid) l), s).
Proof.
  induction l as [|p l IH]; [done|]. intros H. destruct (H p) as [f Hf]; [left|].
  cbn [find_chain List.find]. unfold mbind, fid_at, deref, has_fid at 1. rewrite Hf.
  destruct (fd_fid f =? fid); [done|]. apply IH. intros q Hq. apply H. by right.
Qed.

Lemma find_in {B} (t : B -> bool) l x : List.find t l = Some x -> x ∈ l /\ t x = true.
Proof. intros H. apply find_some in H as [H1 H2]. by rewrite <- list_elem_of_In in H1. Qed.

Lemma find_out {B} (t : B -> bool) (l : list B) x : List.find t l = None -> x ∈ l -> t x = false.
Proof. intros H Hx. apply list_elem_of_In in Hx. by apply (find_none t l H). Qed.

Lemma has_fid_true s fid p : has_fid s fid p = true -> exists f, g_fids s !! p = Some f /\ fd_fid f = fid.
Proof. unfold has_fid. destruct (g_fids s !! p) as [f|]; [|done]. intros H. exists f. split; [done|lia]. Qed.

Lemma getfid_eq s c cn fid : fids_ok s c cn ->
  getfid c fid s =
    match fid_of s c fid with
    | Some p => match g_fids s !! p with
                | Some f => (Ok (Some p), set_fids (<[p := fid_ref 1 f]> (g_fids s)) s)
                | None => (Err Eoob, s)
                end
    | None => (Ok None, s)
    end.
Proof.
  intros H. unfold getfid, fid_of, mbind, conn_at, deref at 1. rewrite (fo_conn _ _ _ H).
  rewrite find_chain_fids.
  2: { intros p Hp. destruct (fo_live _ _ _ H _ _ Hp) as (f & Hf & _). eauto. }
  destruct (List.find _ _) as [p|]; [|done]. unfold fid_at, deref. by destruct (g_fids s !! p).
Qed.

(** The fids change, but not their numbers. *)
Definition same_nums (m m' : gmap nat Fid) : Prop :=
  forall p, fd_fid <$> (m' !! p) = fd_fid <$> (m !! p).

Lemma same_nums_put m p f f' : m !! p = Some f -> fd_fid f' = fd_fid f -> same_nums m (<[p := f']> m).
Proof.
  intros H E q. destruct (decide (p = q)) as [<-|Hne]; [by rewrite lookup_insert_eq, H; cbn; rewrite E|].
  by rewrite lookup_insert_ne by done.
Qed.

Lemma fids_ok_nums s s' c cn : fids_ok s c cn -> g_conns s' !! c = Some cn -> (g_new s <= g_new s')%nat ->
  same_nums (g_fids s) (g_fids s') -> fids_ok s' c cn /\ forall fid, fid_of s' c fid = fid_of s c fid.
Proof.
  intros H Hc Hn Hs.
  assert (Hf : forall p f', g_fids s' !! p = Some f' -> exists f, g_fids s !! p = Some f /\ fd_fid f = fd_fid f').
  { intros p f' E. pose proof (Hs p) as Hp. rewrite E in Hp. cbn in Hp.
    destruct (g_fids s !! p) as [f|]; [|done]. injection Hp as Hp. eauto. }
  assert (Hb : forall p f, g_fids s !! p = Some f -> exists f', g_fids s' !! p = Some f' /\ fd_fid f' = fd_fid f).
  { intros p f E. pose proof (Hs p) as Hp. rewrite E in Hp. cbn in Hp.
    destruct (g_fids s' !! p) as [f'|]; [|done]. injection Hp as Hp. eauto. }
  assert (Hh : forall fid p, has_fid s' fid p = has_fid s fid p).
  { intros fid p. unfold has_fid. pose proof (Hs p) as Hp.
    destruct (g_fids s !! p), (g_fids s' !! p); try done. cbn in Hp. injection Hp as ->. done. }
  split.
  - split; [done|..].
    + intros h p Hp. destruct (fo_live _ _ _ H _ _ Hp) as (f & E & <-). destruct (Hb p f E) as (f' & E' & Ef).
      exists f'. by rewrite Ef.
    + intros h p p' f f' Hp Hp' E E' Ef. destruct (Hf _ _ E) as (g & G & Eg). destruct (Hf _ _ E') as (g' & G' & Eg').
      apply (fo_uniq _ _ _ H h p p' g g'); congruence.
    + apply (fo_nodup _ _ _ H).
    + intros p f E. destruct (Hf _ _ E) as (g & G & _). pose proof (fo_new _ _ _ H _ _ G). lia.
  - intros fid. unfold fid_of. rewrite Hc, (fo_conn _ _ _ H).
    generalize (chain (fhash fid) (cn_fidtab cn)). induction l as [|p l IH]; [done|]. cbn. by rewrite Hh, IH.
Qed.
Lemma fid_of_iff s c cn fid p : fids_ok s c cn ->
  fid_of s c fid = Some p <->
  p ∈ chain (fhash fid) (cn_fidtab cn) /\ exists f, g_fids s !! p = Some f /\ fd_fid f = fid.
Proof.
  intros H. unfold fid_of. rewrite (fo_conn _ _ _ H). split.
  - intros E. apply find_in in E as [Hin E]. split; [done|]. by apply has_fid_true.
  - intros (Hin & f & E & Ef). destruct (List.find _ _) as [q|] eqn:Eq.
    + apply find_in in Eq as [Hq Eq]. apply has_fid_true in Eq as (g & Eg & Egf). f_equal.
      apply (fo_uniq _ _ _ H _ _ _ _ _ Hq Hin Eg E). congruence.
    + pose proof (find_out _ _ p Eq Hin) as Hn. unfold has_fid in Hn. rewrite E, Ef, Z.eqb_refl in Hn. done.
Qed.

Lemma option_ext {B} (o o' : option B) : (forall x, o = Some x <-> o' = Some x) -> o = o'.
Proof.
  intros H. destruct o as [x|].
  - symmetry. by apply H.
  - destruct o' as [y|]; [|done]. exfalso. by assert (None = Some y) by by apply H.
Qed.

Lemma chain_insert (h h' : Z) l (t : gmap Z (list nat)) :
  chain h (<[h' := l]> t) = if decide (h' = h) then l else chain h t.
Proof. unfold chain. case_decide as E; [by subst; rewrite lookup_insert_eq|by rewrite lookup_insert_ne]. Qed.

Lemma unchain_spec p l : p ∈ l -> exists l1 l2, l = l1 ++ p :: l2 /\ unchain p l = Some (l1 ++ l2).
Proof.
  induction l as [|q l IH]; intros H; [by apply not_elem_of_nil in H|]. cbn [unchain]. case_decide as E.
  - subst q. by exists [], l.
  - apply elem_of_cons in H as [->|H]; [done|]. destruct (IH H) as (l1 & l2 & -> & ->). by exists (q :: l1), l2.
Qed.

(** Every object a fid refers to is there. *)
Record fid_live s (f : Fid) : Prop := {
  fl_mnt mp : fd_mnt f = Some mp -> exists m, g_mnts s !! mp = Some m;
  fl_dent : exists de, g_dents s !! fd_dent f = Some de;
  fl_dir : exists de, g_dents s !! fd_dir f = Some de }.

Lemma incs_ok {C} s f (k : unit -> M Fs C) E Q : fid_live s f ->
  (forall s', g_fids s' = g_fids s -> g_conns s' = g_conns s -> g_new s' = g_new s -> mpost (k tt) s' E Q) ->
  mpost (do* when_some (fd_mnt f) mnt_inc in do* dent_inc (fd_dent f) in mbind (dent_inc (fd_dir f)) k) s E Q.
Proof.
  intros [Hm [d Hd] [e He]] Hk.
  assert (Hk' : forall s1, g_fids s1 = g_fids s -> g_conns s1 = g_conns s -> g_new s1 = g_new s ->
    g_dents s1 = g_dents s -> mpost (do* dent_inc (fd_dent f) in mbind (dent_inc (fd_dir f)) k) s1 E Q).
  { intros s1 E1 E2 E3 E4. rewrite <- E4 in Hd. unfold dent_inc at 1. repeat mgo.
    set (s2 := set_dents _ s1).
    assert (He' : exists e', g_dents s2 !! fd_dir f = Some e').
    { cbn. rewrite E4. destruct (decide (fd_dent f = fd_dir f)) as [->|Hne].
      - rewrite lookup_insert_eq. eauto.
      - rewrite lookup_insert_ne by done. eauto. }
    destruct He' as [e' He']. unfold dent_inc. apply mbind_assoc. eapply (mpost_deref g_dents); [exact He'|].
    mgo. by apply Hk. }
  destruct (fd_mnt f) as [mp|]; cbn [when_some]; [|mgo; by apply Hk'].
  destruct (Hm mp eq_refl) as [m Em]. unfold mnt_inc. mgo. eapply (mpost_deref g_mnts); [exact Em|]. mgo. by apply Hk'.
Qed.

Lemma dupfid_ok s c cn new f : fids_ok s c cn -> fid_live s f ->
  mpost (dupfid c new f) s (fun _ _ => False) (fun r s' =>
    match r with
    | None => s' = s /\ exists p, fid_of s c new = Some p
    | Some p => fid_of s c new = None /\ g_fids s !! p = None /\
        g_fids s' = <[p := dup_fields new f]> (g_fids s) /\
        (exists cn', fids_ok s' c cn') /\
        forall fid, fid_of s' c fid = if fid =? new then Some p else fid_of s c fid
    end).
Proof.
  intros H Hl. pose proof (fo_conn _ _ _ H) as Hc. unfold dupfid. mgo.
  eapply mpost_eqb.
  { apply find_chain_fids. intros p Hp. destruct (fo_live _ _ _ H _ _ Hp) as (g & Hg & _). eauto. }
  assert (Ef : fid_of s c new = List.find (has_fid s new) (chain (fhash new) (cn_fidtab cn))) by (unfold fid_of; by rewrite Hc).
  rewrite <- Ef. destruct (fid_of s c new) as [q|] eqn:Eq; [split; [done|eauto]|].
  set (p := g_new s).
  assert (Hp : g_fids s !! p = None).
  { destruct (g_fids s !! p) as [g|] eqn:E; [|done]. pose proof (fo_new _ _ _ H _ _ E). unfold p in *. lia. }
  apply (mpost_eqb malloc _ s _ _ p (set_new (S p) s)); [done|].
  do 2 mgo. apply incs_ok.
  { destruct Hl. by split. }
  intros s' Es Ec En. apply mpost_ret. cbn in Es, Ec, En. split; [done|]. split; [done|]. split; [done|].
  set (cn' := mkConn _ _ _ _ _ _) in Ec.
  assert (Hin : forall h q, q ∈ chain h (cn_fidtab cn') <-> q ∈ chain h (cn_fidtab cn) \/ (q = p /\ h = fhash new)).
  { intros h q. cbn [cn' cn_fidtab]. rewrite chain_insert. case_decide as E.
    - subst h. rewrite elem_of_cons. tauto.
    - split; [by left|]. intros [?|[_ ->]]; done. }
  assert (Hold : forall h q, q ∈ chain h (cn_fidtab cn) -> p <> q).
  { intros h q Hq ->. destruct (fo_live _ _ _ H _ _ Hq) as (g & Hg & _). congruence. }
  assert (H' : fids_ok s' c cn').
  { split.
    - rewrite Ec. apply lookup_insert_eq.
    - intros h q Hq. rewrite Es. apply Hin in Hq as [Hq|[-> ->]].
      + rewrite lookup_insert_ne by (by apply (Hold h)). by apply (fo_live _ _ _ H).
      + rewrite lookup_insert_eq. by exists (dup_fields new f).
    - assert (Hne : forall q g, q ∈ chain (fhash new) (cn_fidtab cn) -> g_fids s !! q = Some g -> fd_fid g <> new).
      { intros q g Hq Hg E. assert (Some q = None) as [=]. rewrite <- Eq. symmetry.
        apply (fid_of_iff s c cn new q H). split; [done|]. by exists g. }
      intros h q q' g g' Hq Hq'. rewrite Es.
      apply Hin in Hq as [Hq|[-> Eh]]; apply Hin in Hq' as [Hq'|[-> Eh']].
      + rewrite !lookup_insert_ne by (eapply Hold; eassumption). exact (fo_uniq _ _ _ H h _ _ _ _ Hq Hq').
      + subst h. rewrite lookup_insert_ne by (eapply Hold; eassumption). rewrite lookup_insert_eq.
        intros G [= <-] E. by apply (Hne q g) in Hq.
      + subst h. rewrite lookup_insert_eq, lookup_insert_ne by (eapply Hold; eassumption).
        intros [= <-] G E. cbn in E. by apply (Hne q' g') in Hq'.
      + done.
    - intros h. cbn [cn' cn_fidtab]. rewrite chain_insert. case_decide as E; [|apply (fo_nodup _ _ _ H)].
      constructor; [|apply (fo_nodup _ _ _ H)]. intros Hq. by apply Hold in Hq.
    - intros q g. rewrite Es, En. intros G. apply lookup_insert_Some in G as [[<- _]|[_ G]]; [lia|].
      pose proof (fo_new _ _ _ H _ _ G). unfold p. lia. }
  split; [eauto|].
  intros fid. apply option_ext. intros q. rewrite (fid_of_iff s' c cn' fid q H'), Hin, Es.
  destruct (Z.eqb_spec fid new) as [->|Hne].
  - split.
    + intros [[Hq|[-> _]] (g & G & E)]; [|done]. rewrite lookup_insert_ne in G by (eapply Hold; eassumption).
      exfalso. assert (Some q = None) as [=]. rewrite <- Eq. symmetry. apply (fid_of_iff s c cn new q H). eauto.
    + intros [= <-]. split; [by right|]. rewrite lookup_insert_eq. by eexists.
  - rewrite (fid_of_iff s c cn fid q H). split.
    + intros [[Hq|[-> _]] (g & G & E)].
      * rewrite lookup_insert_ne in G by (eapply Hold; eassumption). eauto.
      * rewrite lookup_insert_eq in G. injection G as <-. by cbn in E.
    + intros [Hq (g & G & E)]. split; [by left|]. exists g.
      by rewrite lookup_insert_ne by (eapply Hold; eassumption).
Qed.
(** What [clunkfid] frees must be there. *)
Record clunkable s (f : Fid) : Prop := {
  ck_ref : fd_ref f <> 1;
  ck_scan sc : fd_scan f = Some sc -> exists x, g_scans s !! sc = Some x;
  ck_rclose : fd_rclose f = true -> (exists de, g_dents s !! fd_dent f = Some de) /\
    exists mp m, fd_mnt f = Some mp /\ g_mnts s !! mp = Some m }.

(** The table without one of its fids. *)
Definition conn_chain (h : Z) (l : list nat) (cn : Conn) : Conn :=
  mkConn (cn_iounit cn) (cn_versioned cn) (cn_authok cn) (cn_hangup cn) (cn_ref cn) (<[h := l]> (cn_fidtab cn)).

Lemma unhook_ok s s' c cn p f l1 l2 : fids_ok s c cn -> g_fids s !! p = Some f ->
  chain (fhash (fd_fid f)) (cn_fidtab cn) = l1 ++ p :: l2 ->
  g_conns s' = <[c := conn_chain (fhash (fd_fid f)) (l1 ++ l2) cn]> (g_conns s) -> g_new s' = g_new s ->
  same_nums (g_fids s) (g_fids s') ->
  fids_ok s' c (conn_chain (fhash (fd_fid f)) (l1 ++ l2) cn) /\
  forall fid, fid_of s' c fid = if fid =? fd_fid f then None else fid_of s c fid.
Proof.
  intros H Hf El Ec En Hs. set (cn' := conn_chain _ _ _) in *. pose proof (fo_conn _ _ _ H) as Hc.
  assert (Hin : p ∈ chain (fhash (fd_fid f)) (cn_fidtab cn)) by (rewrite El; apply elem_of_app; right; left).
  assert (Hch : forall h q, q ∈ chain h (cn_fidtab cn') <-> q ∈ chain h (cn_fidtab cn) /\ q <> p).
  { intros h q. cbn [cn' conn_chain cn_fidtab]. rewrite chain_insert. case_decide as E.
    - subst h. pose proof (fo_nodup _ _ _ H (fhash (fd_fid f))) as Hn. rewrite El in Hn |- *.
      apply NoDup_app in Hn as (_ & N1 & N2). apply NoDup_cons in N2 as [N2 _].
      rewrite !elem_of_app, elem_of_cons. split.
      + intros [Hq|Hq]; (split; [tauto|]); intros ->; [|done]. apply (N1 p Hq). by left.
      + tauto.
    - split; [|tauto]. intros Hq. split; [done|]. intros ->. apply E.
      destruct (fo_live _ _ _ H _ _ Hq) as (g & G & <-). congruence. }
  assert (H1 : fids_ok s c cn -> fids_ok (set_conns (<[c := cn']> (g_conns s)) s) c cn').
  { intros [F1 F2 F3 F4 F5]. split; cbn.
    - apply lookup_insert_eq.
    - intros h q Hq. apply Hch in Hq as [Hq _]. by apply F2.
    - intros h q q' g g' Hq Hq'. apply Hch in Hq as [Hq _]. apply Hch in Hq' as [Hq' _].
      exact (F3 h q q' g g' Hq Hq').
    - intros h. rewrite chain_insert. case_decide as E; [|apply F4]. subst h.
      specialize (F4 (fhash (fd_fid f))). rewrite El in F4. apply NoDup_app in F4 as (N0 & N1 & N2).
      apply NoDup_cons in N2 as [N2 N3]. apply NoDup_app. split; [done|]. split; [|done].
      intros x X1 X2. apply (N1 x X1). by right.
    - done. }
  specialize (H1 H).
  destruct (fids_ok_nums _ s' c cn' H1) as [H2 Hfid].
  { rewrite Ec. apply lookup_insert_eq. }
  { rewrite En. done. }
  { done. }
  split; [done|]. intros fid. rewrite Hfid. apply option_ext. intros q.
  rewrite (fid_of_iff _ c cn' fid q H1), Hch. cbn. destruct (Z.eqb_spec fid (fd_fid f)) as [->|Hne].
  - split; [|done]. intros ((Hq & Hne) & g & G & E). exfalso. apply Hne.
    exact (fo_uniq _ _ _ H _ _ _ _ _ Hq Hin G Hf E).
  - rewrite (fid_of_iff s c cn fid q H). split; [tauto|]. intros [Hq (g & G & E)]. split; [|eauto].
    split; [done|]. intros ->. congruence.
Qed.

Lemma clunkfid_ok s c cn p f : fids_ok s c cn -> g_fids s !! p = Some f -> fid_of s c (fd_fid f) = Some p ->
  clunkable s f ->
  mpost (clunkfid c p) s (fun _ _ => False) (fun ao s' =>
    (ao = None <-> fd_rclose f = false) /\ (exists cn', fids_ok s' c cn') /\ same_nums (g_fids s) (g_fids s') /\
    forall fid, fid_of s' c fid = if fid =? fd_fid f then None else fid_of s c fid).
Proof.
  intros H Hf Hp [Hr Hsc Hrc]. pose proof (fo_conn _ _ _ H) as Hc. unfold clunkfid. do 2 mgo.
  pose proof (proj1 (fid_of_iff _ _ _ _ _ H) Hp) as [Hin _].
  destruct (unchain_spec _ _ Hin) as (l1 & l2 & El & ->).
  rewrite (proj2 (Z.eqb_neq (fd_ref f - 1) 0)) by lia. cbv iota. cbn [negb].
  assert (Hend : forall s' (ao : option Amsg), (ao = None <-> fd_rclose f = false) ->
    g_conns s' = <[c := mkConn (cn_iounit cn) (cn_versioned cn) (cn_authok cn) (cn_hangup cn) (cn_ref cn)
      (<[fhash (fd_fid f) := l1 ++ l2]> (cn_fidtab cn))]> (g_conns s) -> g_new s' = g_new s ->
    same_nums (g_fids s) (g_fids s') ->
    (ao = None <-> fd_rclose f = false) /\ (exists cn', fids_ok s' c cn') /\ same_nums (g_fids s) (g_fids s') /\
    (forall fid, fid_of s' c fid = if fid =? fd_fid f then None else fid_of s c fid)).
  { intros s' ao Hao Ec En Hs. split; [done|]. destruct (unhook_ok s s' c cn p f l1 l2 H Hf El Ec En Hs) as [H1 H2].
    eauto. }
  do 2 mgo. eapply (mpost_deref g_fids); [apply lookup_insert_eq|]. cbn [fd_scan fid_ref].
  match goal with |- mpost _ ?s0 _ _ => set (s1 := s0) end.
  assert (N1 : same_nums (g_fids s) (g_fids s1)) by by apply (same_nums_put _ p f).
  (* behind the scan *)
  assert (Hk : forall s2 f2, g_fids s2 !! p = Some f2 -> fd_rclose f2 = fd_rclose f -> fd_dent f2 = fd_dent f ->
    fd_mnt f2 = fd_mnt f -> fd_fid f2 = fd_fid f ->
    same_nums (g_fids s) (g_fids s2) -> g_conns s2 = g_conns s1 -> g_new s2 = g_new s -> g_dents s2 = g_dents s ->
    g_mnts s2 = g_mnts s ->
    mpost (let* f := fid_at p in
      if negb (fd_rclose f) then mret None else
      do* put_fid p (fid_set_rclose false f) in
      let* de := dent_at (fd_dent f) in
      do* put_dent (fd_dent f) (dent_ref 1 (dent_set_gone true (dent_set_trunc true de))) in
      match fd_mnt f with
      | None => merror Eoob
      | Some m => do* mnt_inc m in mret (Some (AOrclose m (fd_dent f) (fd_qpath f) 0 (d_length (de_x de))))
      end) s2 (fun _ _ => False) (fun ao s' =>
        (ao = None <-> fd_rclose f = false) /\ (exists cn', fids_ok s' c cn') /\ same_nums (g_fids s) (g_fids s') /\
        forall fid, fid_of s' c fid = if fid =? fd_fid f then None else fid_of s c fid)).
  { intros s2 f2 F1 F2 F3 F4 F5 N2 C2 W2 D2 M2. mgo. rewrite F2. destruct (fd_rclose f) eqn:Er; cbn [negb].
    - destruct Hrc as ((de & Hde) & mp & mt & Em & Hm); [done|]. rewrite <- D2 in Hde. rewrite <- M2 in Hm.
      rewrite F3, F4, Em. do 3 mgo. unfold mnt_inc. mgo. eapply (mpost_deref g_mnts); [exact Hm|]. mgo.
      apply mpost_ret, Hend; cbn; [done|by rewrite C2|by rewrite W2|].
      intros q. destruct (decide (p = q)) as [<-|Hne].
      + rewrite lookup_insert_eq. cbn. rewrite Hf. cbn. by rewrite F5.
      + rewrite lookup_insert_ne by done. apply N2.
    - apply mpost_ret, Hend; [done|by rewrite C2|by rewrite W2|done]. }
  destruct (fd_scan f) as [sc|] eqn:Es; cbn [when_some].
  - destruct (Hsc sc eq_refl) as [x Hx]. unfold free_scan. do 2 mgo.
    eapply (mpost_deref g_scans); [exact Hx|]. mgo. mgo.
    eapply Hk; cbn; [apply lookup_insert_eq|..]; try done.
    intros q. destruct (decide (p = q)) as [<-|Hne].
    + rewrite lookup_insert_eq, Hf. done.
    + rewrite !lookup_insert_ne by done. done.
  - mgo. eapply Hk; cbn; [apply lookup_insert_eq|..]; try done.
Qed.
(** ** Hanging up ends *)

Definition sub_fids s s' : Prop := forall p f', g_fids s' !! p = Some f' ->
  exists f, g_fids s !! p = Some f /\ fd_fid f = fd_fid f'.

Lemma sub_fids_refl s : sub_fids s s.
Proof. intros p f H. eauto. Qed.
Lemma sub_fids_trans s1 s2 s3 : sub_fids s1 s2 -> sub_fids s2 s3 -> sub_fids s1 s3.
Proof. intros H1 H2 p f E. destruct (H2 p f E) as (g & G & <-). by apply H1. Qed.
Lemma sub_fids_put s p f f' : g_fids s !! p = Some f -> fd_fid f' = fd_fid f ->
  sub_fids s (set_fids (<[p := f']> (g_fids s)) s).
Proof.
  intros H E q g G. cbn in G. apply lookup_insert_Some in G as [[<- <-]|[_ G]]; eauto.
Qed.

(** Leaves the connections alone, the numbers of the fids that stay, and needs no fuel. *)
Definition quiet_at {B} (m : M Fs B) s : Prop :=
  mpost m s (fun e _ => e <> Efuel) (fun _ s' => g_conns s' = g_conns s /\ sub_fids s s').
Definition quiet {B} (m : M Fs B) : Prop := forall s, quiet_at m s.

Lemma quiet_at_bind {B C} (m : M Fs B) (k : B -> M Fs C) s : quiet_at m s -> (forall b, quiet (k b)) -> quiet_at (mbind m k) s.
Proof.
  intros H1 H2. eapply mpost_bind; [apply H1|]. intros b s' (E1 & E2).
  eapply mpost_mono; [apply H2|done|]. cbv beta. intros c s2 (-> & E4). split; [done|]. by eapply sub_fids_trans.
Qed.
Lemma quiet_bind {B C} (m : M Fs B) (k : B -> M Fs C) : quiet m -> (forall b, quiet (k b)) -> quiet (mbind m k).
Proof. intros H1 H2 s. by apply quiet_at_bind. Qed.
Lemma quiet_ret {B} (b : B) : quiet (mret b).
Proof. intros s. split; [done|apply sub_fids_refl]. Qed.
Lemma quiet_err {B} e : e <> Efuel -> quiet (merror e : M Fs B).
Proof. by intros H s. Qed.
Lemma quiet_deref {B} (tab : Fs -> gmap nat B) p : quiet (deref tab p).
Proof. intros s. unfold quiet_at, mpost, deref. destruct (tab s !! p); [|done]. split; [done|apply sub_fids_refl]. Qed.
Lemma quiet_mod f : (forall s, g_conns (f s) = g_conns s /\ sub_fids s (f s)) -> quiet (mmod f).
Proof. intros H s. apply H. Qed.
Lemma quiet_get : quiet mget.
Proof. intros s. split; [done|apply sub_fids_refl]. Qed.

(** [p->... = ...] of a fid that was read before. *)
Lemma quiet_with {B} p (k : Fid -> M Fs B) :
  (forall f s, g_fids s !! p = Some f -> quiet_at (k f) s) -> quiet (mbind (fid_at p) k).
Proof.
  intros H s. unfold quiet_at, mpost, mbind, fid_at, deref. destruct (g_fids s !! p) as [f|] eqn:E; [|done].
  exact (H f s E).
Qed.
Lemma quiet_put {B} p f f' (k : unit -> M Fs B) s : g_fids s !! p = Some f -> fd_fid f' = fd_fid f -> quiet (k tt) ->
  quiet_at (mbind (put_fid p f') k) s.
Proof.
  intros H E Hk. apply quiet_at_bind; [|by intros []]. split; [done|]. by eapply sub_fids_put.
Qed.

Ltac quiet1 :=
  cbv zeta;
  match goal with
  | |- quiet (mbind _ _) => apply quiet_bind; [|intros ?]
  | |- quiet (deref _ _) => apply quiet_deref
  | |- quiet (dent_at _) => apply (quiet_deref g_dents)
  | |- quiet (mnt_at _) => apply (quiet_deref g_mnts)
  | |- quiet (scan_at _) => apply (quiet_deref g_scans)
  | |- quiet (conn_at _) => apply (quiet_deref g_conns)
  | |- quiet (fid_at _) => apply (quiet_deref g_fids)
  | |- quiet (mret _) => apply quiet_ret
  | |- quiet mget => apply quiet_get
  | |- quiet (merror _) => apply quiet_err; discriminate
  | |- quiet (put_dent _ _) => let s0 := fresh in apply quiet_mod; intros s0; split; [done|exact (sub_fids_refl s0)]
  | |- quiet (put_mnt _ _) => let s0 := fresh in apply quiet_mod; intros s0; split; [done|exact (sub_fids_refl s0)]
  | |- quiet (mmod _) => let s0 := fresh in apply quiet_mod; intros s0; split; [done|exact (sub_fids_refl s0)]
  | |- quiet (if ?b then _ else _) => destruct b
  | |- quiet (match ?x with _ => _ end) => destruct x
  | |- quiet (when_some ?o _) => destruct o; cbn [when_some]
  end.

Lemma quiet_clunkdent mp p : quiet (clunkdent mp p).
Proof. unfold clunkdent, dent_dec, free_dent. repeat quiet1. Qed.
Lemma quiet_clunkmount p : quiet (clunkmount p).
Proof. unfold clunkmount, mnt_dec, free_mnt. repeat quiet1. Qed.
Lemma quiet_send ao : quiet (send_adm ao).
Proof. unfold send_adm. repeat quiet1. Qed.

Lemma quiet_putfid p : quiet (putfid p).
Proof.
  unfold putfid. apply quiet_with. intros f s Hf. apply (quiet_put p f); [done|done|].
  repeat first [apply quiet_clunkdent | apply quiet_clunkmount | quiet1].
  unfold free_fid. apply quiet_bind; [quiet1|intros _]. apply quiet_mod. intros s1. split; [done|].
  intros q g G. cbn in G. apply lookup_delete_Some in G as [_ G]. eauto.
Qed.

(** The fids of a chain have its hash. *)
Definition hashed s (c : nat) : Prop := forall cn h p f, g_conns s !! c = Some cn ->
  p ∈ chain h (cn_fidtab cn) -> g_fids s !! p = Some f -> fhash (fd_fid f) = h.

Lemma hashed_sub s s' c : hashed s c -> g_conns s' = g_conns s -> sub_fids s s' -> hashed s' c.
Proof. intros H Ec Es cn h p f Hc Hp Hf. destruct (Es p f Hf) as (g & G & <-). rewrite Ec in Hc. by eapply H. Qed.

Lemma clunkfid_conns c p s :
  mpost (clunkfid c p) s (fun e _ => e <> Efuel) (fun _ s' => exists f cn l,
    g_fids s !! p = Some f /\ g_conns s !! c = Some cn /\
    unchain p (chain (fhash (fd_fid f)) (cn_fidtab cn)) = Some l /\
    g_conns s' = <[c := conn_chain (fhash (fd_fid f)) l cn]> (g_conns s) /\ sub_fids s s').
Proof.
  unfold clunkfid. apply (mpost_deref_or g_fids); [done|]. intros f Hf. cbv zeta.
  apply (mpost_deref_or g_conns); [done|]. intros cn Hc.
  destruct (unchain _ _) as [l|] eqn:Hl; [|done]. destruct (negb _); [|done]. do 2 mgo.
  match goal with |- mpost ?k ?s0 _ _ => assert (Hk : quiet_at k s0) end.
  { apply quiet_with. intros f1 s1 Hf1. apply quiet_at_bind.
    - destruct (fd_scan f1) as [sc|]; cbn [when_some]; [|apply quiet_ret].
      unfold free_scan, quiet_at. apply mbind_assoc, (mpost_deref_or g_scans); [done|]. intros x _. mgo.
      split; [done|]. exact (sub_fids_put s1 p f1 (fid_set_scan None f1) Hf1 eq_refl).
    - intros []. apply quiet_with. intros f2 s2 Hf2. destruct (negb _); [apply quiet_ret|].
      apply (quiet_put p f2); [done|done|]. unfold mnt_inc. repeat quiet1. }
  eapply mpost_mono; [exact Hk|done|]. cbv beta. intros _ s' (E1 & E2). exists f, cn, l.
  do 3 (split; [done|]). split; [exact E1|]. eapply sub_fids_trans; [|exact E2].
  intros q g G. cbn in G. apply lookup_insert_Some in G as [[<- <-]|[_ G]]; eauto.
Qed.

Lemma unchain_len p l l' : unchain p l = Some l' -> length l = S (length l') /\ forall q, q ∈ l' -> q ∈ l.
Proof.
  intros H. assert (Hp : p ∈ l).
  { revert l' H. induction l as [|q l IH]; [done|]. intros l'. cbn. case_decide as E; [subst; left|].
    destruct (unchain p l); [|done]. intros _. right. by eapply IH. }
  destruct (unchain_spec p l Hp) as (l1 & l2 & -> & E). rewrite E in H. injection H as <-.
  rewrite !length_app. cbn. split; [lia|]. intros q. rewrite !elem_of_app, elem_of_cons. tauto.
Qed.

(** The chains other than [h] are as they were, [h] is empty. *)
Lemma hangup_chain_ok c h fuel : forall s cn, hashed s c -> g_conns s !! c = Some cn ->
  (length (chain h (cn_fidtab cn)) < fuel)%nat ->
  mpost (hangup_chain fuel c h) s (fun e _ => e <> Efuel) (fun _ s' => hashed s' c /\ exists cn',
    g_conns s' !! c = Some cn' /\ chain h (cn_fidtab cn') = [] /\ cn_ref cn' = cn_ref cn /\
    forall h', h' <> h -> chain h' (cn_fidtab cn') = chain h' (cn_fidtab cn)).
Proof.
  induction fuel as [|fuel IH]; intros s cn Hh Hc Hlt; [lia|]. cbn [hangup_chain]. mgo.
  destruct (chain h (cn_fidtab cn)) as [|p l] eqn:El; [split; [done|]; exists cn; done|].
  apply (mpost_deref_or g_fids); [done|]. intros f Hf. mgo.
  match goal with |- mpost _ ?s0 _ _ => set (s1 := s0) end.
  assert (Hh1 : hashed s1 c) by (eapply hashed_sub; [exact Hh|done|by apply (sub_fids_put _ p f)]).
  assert (Hfh : fhash (fd_fid f) = h).
  { eapply Hh; [done| |done]. rewrite El. left. }
  eapply mpost_bind; [apply clunkfid_conns|]. cbv beta. intros ao s2 (f1 & cn1 & l1 & F1 & C1 & U1 & C2 & Sub2).
  cbn [s1 set_fids g_fids] in F1. rewrite lookup_insert_eq in F1. injection F1 as <-.
  cbn [s1 set_fids g_conns] in C1, C2. rewrite Hc in C1. injection C1 as <-.
  cbn [fid_ref fd_fid] in U1, C2. rewrite Hfh in U1, C2. rewrite El in U1.
  assert (Hh2 : hashed s2 c).
  { intros cn0 h0 q g Hc0 Hq Hg. rewrite C2, lookup_insert_eq in Hc0. injection Hc0 as <-.
    destruct (Sub2 q g Hg) as (g1 & G1 & <-). cbn [conn_chain cn_fidtab] in Hq. rewrite chain_insert in Hq.
    eapply (Hh1 cn); [done| |done]. case_decide as E; [|done]. subst h0. rewrite El.
    by apply (unchain_len p _ _ U1). }
  assert (Hq : forall B (m : M Fs B) (k : B -> M Fs unit) E Q, quiet m ->
    (forall b s3, hashed s3 c -> g_conns s3 = g_conns s2 -> mpost (k b) s3 E Q) ->
    (forall e s', e <> Efuel -> E e s') ->
    forall s3, hashed s3 c -> g_conns s3 = g_conns s2 -> mpost (mbind m k) s3 E Q).
  { intros B m k E Q Hm Hk HE s3 H3 E3. eapply mpost_bind; [eapply mpost_mono; [apply Hm|auto|]|].
    - intros b s4 H. exact H.
    - cbv beta. intros b s4 (E4 & S4). apply Hk; [by eapply hashed_sub|congruence]. }
  apply Hq; [apply quiet_putfid| |done|done|done]. intros _ s3 H3 E3.
  apply Hq; [apply quiet_send| |done|done|done]. intros _ s4 H4 E4.
  destruct (unchain_len p _ _ U1) as [Hlen _].
  eapply mpost_mono; [apply (IH s4 (conn_chain h l1 cn) H4)|..].
  - rewrite E4, C2. apply lookup_insert_eq.
  - cbn [conn_chain cn_fidtab]. rewrite chain_insert, decide_True by done. cbn in Hlen, Hlt. lia.
  - done.
  - intros _ s' (A1 & cn' & A2 & A3 & A4 & A5). split; [done|]. exists cn'. split; [done|]. split; [done|].
    split; [done|]. intros h' Hne. rewrite A5 by done. cbn [conn_chain cn_fidtab].
    by rewrite chain_insert, decide_False by done.
Qed.

Lemma hangup_chains_ok c hs : forall s cn, hashed s c -> g_conns s !! c = Some cn ->
  mpost (hangup_chains c hs) s (fun e _ => e <> Efuel) (fun _ s' => exists cn', g_conns s' !! c = Some cn' /\    (forall h, h ∈ hs -> chain h (cn_fidtab cn') = []) /\
    forall h, h ∉ hs -> chain h (cn_fidtab cn') = chain h (cn_fidtab cn)).
Proof.
  induction hs as [|h hs IH]; intros s cn Hh Hc; cbn [hangup_chains].
  { exists cn. split; [done|]. split; [|done]. intros h Hin. by apply not_elem_of_nil in Hin. }
  mgo. eapply mpost_bind; [apply (hangup_chain_ok c h _ s cn Hh Hc); lia|]. cbv beta.
  intros _ s1 (H1 & cn1 & C1 & E1 & _ & E2). eapply mpost_mono; [apply (IH s1 cn1 H1 C1)|done|].
  cbv beta. intros _ s' (cn' & C' & A1 & A2). exists cn'. split; [done|]. split.
  - intros h' Hin. apply elem_of_cons in Hin as [->|Hin]; [|by apply A1].
    destruct (decide (h ∈ hs)) as [Hin|Hin]; [by apply A1|]. by rewrite A2.
  - intros h' Hin. apply not_elem_of_cons in Hin as [Hne Hin]. rewrite A2 by done. by apply E2.
Qed.
End table.

(** ** Reading a directory *)

Section pages.
Context {T D A : Type} `{!MsgTree T} `{!DataBlks D} `{!Snapshots T}.
#[local] Abbreviation Fs := (@Fs T D A).
Implicit Types s : Fs.

Lemma filter_keep {B} (P : B -> Prop) `{forall x, Decision (P x)} l : Forall P l -> filter P l = l.
Proof. induction 1; [done|]. by rewrite filter_cons_True, IHForall. Qed.
Lemma filter_drop {B} (P : B -> Prop) `{forall x, Decision (P x)} l : Forall (fun x => ~ P x) l -> filter P l = [].
Proof. induction 1; [done|]. by rewrite filter_cons_False. Qed.

(** [p] is the entry [kv] as it is sent. *)
Definition stat_is (us : Users) (kv : Kvp) (p : list Z) : Prop :=
  forall n, kv2statbuf us kv n = Ok (if n <? zlen p then None else Some p).

Lemma stat_is_any us kv n p : kv2statbuf us kv n = Ok (Some p) -> stat_is us kv p.
Proof.
  unfold stat_is, kv2statbuf, dir2statbuf. intros H. bind_inv H as d Ed. rewrite Ed. cbn [rbind]. cbv zeta in H |- *.
  destruct (match uid2user (users us) (d_gid d) with Some _ => _ | None => _ end) as [u|]; [|done].
  destruct (uid2user (users us) (d_gid d)) as [g|]; [|done].
  destruct (match uid2user (users us) (d_muid d) with Some _ => _ | None => _ end) as [m|]; [|done].
  destruct (Z.ltb_spec n (STATFIXLEN + zlen (d_name d) + zlen (u_name u) + zlen (u_name g) + zlen (u_name m))); [done|].
  destruct (_ =? _) eqn:E in H; [|done]. injection H as <-. intros n'. rewrite E. zb. rewrite E. by destruct (_ <? _).
Qed.

Definition key_lt (a b : Kvp) : Prop := keycmp (kv_k a) (kv_k b) < 0.

(** The pairs of [l] behind the place of a scan. *)
Definition behind (sc : Scn) (l : list Kvp) : list Kvp :=
  filter (fun kv => sc_first sc = true \/ keycmp (sc_key sc) (kv_k kv) < 0) l.

(** What a scan has still to deliver. *)
Definition pending (all : list Kvp) (sc : Scn) : list Kvp :=
  if sc_done sc then []
  else match sc_over sc with Some kv => [kv] | None => [] end ++ behind sc all.

(** The entry that did not fit is one that was delivered by the scan. *)
Definition scan_ok (all : list Kvp) (sc : Scn) : Prop :=
  forall kv, sc_over sc = Some kv -> sc_first sc = false /\ kv ∈ all.

Lemma behind_after sc pre kv l : StronglySorted key_lt (pre ++ kv :: l) ->
  behind (scn_key (kv_k kv) sc) (pre ++ kv :: l) = l.
Proof.
  intros H. unfold behind. cbn [scn_key sc_first sc_key]. rewrite filter_app.
  assert (H1 : StronglySorted key_lt (kv :: l) /\ Forall (fun x => key_lt x kv) pre).
  { induction pre as [|x pre IH]; [done|]. cbn in H. apply StronglySorted_inv in H as [H Hx].
    destruct (IH H) as [H1 H2]. split; [done|]. constructor; [|done].
    rewrite Forall_forall in Hx. apply Hx. apply elem_of_app. right. left. }
  destruct H1 as [H1 H2]. apply StronglySorted_inv in H1 as [_ H1].
  rewrite (filter_drop _ pre), app_nil_l.
  - rewrite filter_cons_False.
    + apply filter_keep. eapply Forall_impl; [exact H1|]. intros x Hx. by right.
    + intros [?|Hk]; [done|]. rewrite keycmp_refl in Hk. lia.
  - eapply Forall_impl; [exact H2|]. intros x Hx [?|Hk]; [done|]. unfold key_lt in Hx.
    pose proof (keycmp_antisym (kv_k x) (kv_k kv)). lia.
Qed.

(** The pages: as many entries as fit, at least the first of the pending ones. *)
Lemma read_entries_ok sp us all eb l : forall s sc n pre,
  g_scans s !! sp = Some sc -> g_users s = us -> sc_done sc = false -> sc_over sc = None ->
  StronglySorted key_lt all -> all = pre ++ l -> behind sc all = l -> Forall (fun kv => stat_is us kv (eb kv)) l ->
  mpost (read_entries sp l n) s (fun _ _ => False) (fun data s' => exists k sc',
    s' = set_scans (<[sp := sc']> (g_scans s)) s /\ (k <= length l)%nat /\ data = mjoin (eb <$> take k l) /\
    pending all sc' = drop k l /\ scan_ok all sc' /\ sc_pfx sc' = sc_pfx sc /\ sc_off sc' = sc_off sc /\
    (forall kv, l !! k = Some kv -> n < zlen data + zlen (eb kv))).
Proof.
  induction l as [|kv l IH]; intros s sc n pre Hsc Hus Hd Ho Hall Epre Hb Hl; cbn [read_entries].
  { do 2 mgo. apply mpost_ret. exists 0%nat, (scn_end sc). cbn. repeat (split; [done|]).
    split; [intros kv Hkv; cbn in Hkv; congruence|]. repeat (split; [done|]). intros kv Hkv. discriminate Hkv. }
  apply Forall_cons in Hl as [Hkv Hl]. do 3 mgo. eapply mpost_liftb.
  { change (g_users (set_scans _ s)) with (g_users s). rewrite Hus. apply Hkv. }
  assert (Hb' : behind (scn_key (kv_k kv) sc) all = l) by (subst all; by apply behind_after).
  destruct (Z.ltb_spec n (zlen (eb kv))) as [Hlt|Hge].
  - mgo. apply mpost_ret. exists 0%nat, (scn_over kv (scn_key (kv_k kv) sc)). cbn.
    split; [by rewrite insert_insert_eq|]. split; [lia|]. split; [done|]. split.
    { unfold pending. cbn. rewrite Hd. cbn. by rewrite <- Hb'. }
    split.
    { intros kv' [= <-]. split; [done|]. subst all. apply elem_of_app. right. left. }
    do 2 (split; [done|]). intros kv' [= <-]. rewrite zlen_nil. lia.
  - eapply mpost_bind.
    { apply (IH _ (scn_key (kv_k kv) sc) (n - zlen (eb kv)) (pre ++ [kv])); try done.
      - cbn. apply lookup_insert_eq.
      - by rewrite <- app_assoc. }
    cbv beta. intros data s' (k & sc' & -> & Hk & -> & Hp & Hok & E1 & E2 & Hn). apply mpost_ret. exists (S k), sc'.
    split; [cbn; by rewrite insert_insert_eq|]. split; [cbn; lia|]. split; [done|]. do 4 (split; [done|]).
    intros kv' Hkv'. specialize (Hn kv' Hkv'). rewrite zlen_app. lia.
Qed.

Lemma scan_sorted (t : T) pfx all : tree_ok t -> tscan t pfx = Ok all -> StronglySorted key_lt all.
Proof.
  intros Ht E. pose proof (tscan_ok t pfx Ht) as H. rewrite E in H. cbn in H. destruct H as (Hs & Hn & Hin).
  assert (Hi : forall kv, kv ∈ all -> tval t (kv_k kv) = Some kv) by (intros kv Hkv; by apply Hin in Hkv as [? _]).
  clear Hin E. induction Hs as [|kv l Hs IH Hf]; [constructor|]. apply NoDup_cons in Hn as [Hn1 Hn2].
  constructor; [apply IH; [done|intros x Hx; apply Hi; by right]|].
  apply Forall_forall. intros x Hx. rewrite Forall_forall in Hf. specialize (Hf x Hx).
  unfold kv_le in Hf. apply kle_lt_eq in Hf as [Hf|Hf]; [unfold klt in Hf; unfold key_lt; lia|].
  exfalso. apply Hn1. assert (Some kv = Some x) as [= ->]; [|done].
  rewrite <- (Hi kv), <- (Hi x) by first [by left | by right]. by rewrite Hf.
Qed.

Lemma behind_suffix sc all : StronglySorted key_lt all -> exists pre, all = pre ++ behind sc all.
Proof.
  intros Hs. unfold behind. induction Hs as [|kv l Hs IH Hf]; [by exists []|].
  destruct (decide (sc_first sc = true \/ keycmp (sc_key sc) (kv_k kv) < 0)) as [H|H].
  - rewrite filter_cons_True by done. exists []. cbn. f_equal. symmetry. apply filter_keep.
    eapply Forall_impl; [exact Hf|]. intros x Hx. destruct H as [H|H]; [by left|right].
    unfold key_lt in Hx. pose proof (keycmp_cases (sc_key sc) (kv_k kv)). pose proof (keycmp_cases (kv_k kv) (kv_k x)).
    assert (klt (sc_key sc) (kv_k x)) as Hk by (eapply klt_trans; unfold klt; [instantiate (1 := kv_k kv)|]; lia).
    unfold klt in Hk. lia.
  - rewrite filter_cons_False by done. destruct IH as [pre IH]. exists (kv :: pre). cbn. by f_equal.
Qed.

Definition dir_pfx (q : Z) : list Z := PACK8 Kent ++ PACK64 q.

(** The entries the next page starts with. *)
Definition page_start s (f : Fid) (offset : Z) (all : list Kvp) : list Kvp :=
  match fd_scan f with
  | Some sp => if offset =? 0 then all
               else match g_scans s !! sp with Some sc => pending all sc | None => [] end
  | None => all
  end.

(** The scan of a fid, if it has one, is a scan of its directory. *)
Definition dir_scan s (f : Fid) (all : list Kvp) : Prop :=
  forall sp, fd_scan f = Some sp -> (sp < g_new s)%nat /\
    exists sc, g_scans s !! sp = Some sc /\ sc_pfx sc = dir_pfx (fd_qpath f) /\ sc_off sc = 0 /\ scan_ok all sc.

Lemma fid_scan_ok m fp f s all : g_fids s !! fp = Some f -> dir_scan s f all ->
  mpost (fid_scan m fp (dir_pfx (fd_qpath f))) s (fun _ _ => False) (fun sp s' => exists f' sc,
    g_fids s' !! fp = Some f' /\ fd_scan f' = Some sp /\ fd_qpath f' = fd_qpath f /\ (sp < g_new s')%nat /\
    g_scans s' !! sp = Some sc /\ sc_pfx sc = dir_pfx (fd_qpath f) /\ sc_off sc = 0 /\ scan_ok all sc /\
    pending all sc = page_start s f (m_offset m) all /\ g_mnts s' = g_mnts s /\ g_users s' = g_users s).
Proof.
  intros Hf Hd. unfold fid_scan. mgo. unfold page_start.
  set (sc0 := mkScn (dir_pfx (fd_qpath f)) (dir_pfx (fd_qpath f)) true false None 0).
  assert (Hnew : pending all sc0 = all /\ scan_ok all sc0).
  { split; [|done]. unfold pending. cbn. apply filter_keep, Forall_forall. intros; by left. }
  destruct Hnew as [Hn1 Hn2].
  assert (Hput : forall s1 p, p = g_new s -> g_fids s1 = g_fids s -> g_new s1 = S p -> g_scans s1 !! p = Some sc0 ->
    g_mnts s1 = g_mnts s -> g_users s1 = g_users s ->
    mpost (let* f := fid_at fp in do* put_fid fp (fid_set_scan (Some p) f) in mret p) s1 (fun _ _ => False)
    (fun sp s' => exists f' sc,
      g_fids s' !! fp = Some f' /\ fd_scan f' = Some sp /\ fd_qpath f' = fd_qpath f /\ (sp < g_new s')%nat /\
      g_scans s' !! sp = Some sc /\ sc_pfx sc = dir_pfx (fd_qpath f) /\ sc_off sc = 0 /\ scan_ok all sc /\
      pending all sc = all /\ g_mnts s' = g_mnts s /\ g_users s' = g_users s)).
  { intros s1 p -> E1 E2 E3 E4 E5. rewrite <- E1 in Hf. do 2 mgo. apply mpost_ret.
    exists (fid_set_scan (Some (g_new s)) f), sc0. cbn. rewrite lookup_insert_eq, E2. repeat (split; [done || lia|]). done. }
  destruct (fd_scan f) as [sp|] eqn:Es.
  - destruct (Hd sp Es) as (Hlt & sc & Hsc & Hp & Ho & Hok). mgo. rewrite Ho, Z.eqb_refl. cbn [negb andb].
    destruct (m_offset m =? 0).
    + apply (mpost_eqb malloc _ s _ _ (g_new s) (set_new (S (g_new s)) s)); [done|]. mgo. cbn [when_some].
      unfold free_scan. mgo. eapply (mpost_deref g_scans).
      { cbn. rewrite lookup_insert_ne by lia. done. }
      mgo. apply Hput; try done. cbn. rewrite lookup_delete_ne by lia. apply lookup_insert_eq.
    + apply mpost_ret. exists f, sc. rewrite Hsc. repeat (split; [done|]). done.
  - apply (mpost_eqb malloc _ s _ _ (g_new s) (set_new (S (g_new s)) s)); [done|]. mgo. cbn [when_some]. mgo.
    apply Hput; try done. cbn. apply lookup_insert_eq.
Qed.

Lemma readdir_ok m fp f mnt mt all eb s :
  g_fids s !! fp = Some f -> fd_mnt f = Some mnt -> g_mnts s !! mnt = Some mt ->
  tree_ok (mt_root mt) -> tscan (mt_root mt) (dir_pfx (fd_qpath f)) = Ok all ->
  Forall (fun kv => stat_is (g_users s) kv (eb kv)) all -> dir_scan s f all ->
  let start := page_start s f (m_offset m) all in
  mpost (readdir m fp) s
    (fun e _ => e = Ebotch /\ exists kv, head start = Some kv /\ m_count m < zlen (eb kv))
    (fun data s' => exists k f', (k <= length start)%nat /\
      data = mjoin (eb <$> take k start) /\
      (forall kv, start !! k = Some kv -> m_count m < zlen data + zlen (eb kv)) /\
      g_fids s' !! fp = Some f' /\ dir_scan s' f' all /\ fd_qpath f' = fd_qpath f /\
      (forall o, o <> 0 -> page_start s' f' o all = drop k start) /\ g_mnts s' = g_mnts s /\ g_users s' = g_users s).
Proof.
  intros Hf Hm Hmt Ht Hscan Heb Hd start. unfold readdir. mgo. rewrite Hm. mgo.
  eapply mpost_liftb; [reflexivity|]. fold (dir_pfx (fd_qpath f)).
  eapply mpost_bind.
  { eapply mpost_mono; [exact (fid_scan_ok m fp f s all Hf Hd)|by intros ? ? []|]. intros sp s' H. exact H. }
  cbv beta. intros sp s1 (f1 & sc & F1 & S1 & Q1 & L1 & C1 & P1 & O1 & K1 & St & M1 & U1). fold start in St.
  pose proof (scan_sorted _ _ _ Ht Hscan) as Hs.
  assert (Hdone : forall s2 sc2, g_fids s2 = g_fids s1 -> g_new s2 = g_new s1 -> g_scans s2 !! sp = Some sc2 ->
    sc_pfx sc2 = dir_pfx (fd_qpath f) -> sc_off sc2 = 0 -> scan_ok all sc2 ->
    dir_scan s2 f1 all /\ forall o, o <> 0 -> page_start s2 f1 o all = pending all sc2).
  { intros s2 sc2 E1 E2 E3 E4 E5 E6. split.
    - intros sp' E. rewrite S1 in E. injection E as <-. rewrite E2, Q1. split; [done|]. exists sc2. done.
    - intros o Ho. unfold page_start. rewrite S1, (proj2 (Z.eqb_neq o 0) Ho), E3. done. }
  mgo. destruct (sc_done sc) eqn:Ed.
  { apply mpost_ret. unfold pending in St. rewrite Ed in St. exists 0%nat, f1. rewrite <- St.
    split; [done|]. split; [done|]. split; [intros kv [=]|]. split; [done|].
    destruct (Hdone s1 sc) as [D1 D2]; try done. do 2 (split; [done|]). split; [|done].
    intros o Ho. rewrite D2 by done. unfold pending. by rewrite Ed. }
  (* from the entry that did not fit, if there is one *)
  assert (Hrest : forall s2 sc2 p0 l0, g_fids s2 = g_fids s1 -> g_new s2 = g_new s1 -> g_scans s2 !! sp = Some sc2 ->
    g_users s2 = g_users s1 -> g_mnts s2 = g_mnts s1 ->
    sc_pfx sc2 = dir_pfx (fd_qpath f) -> sc_off sc2 = 0 -> sc_done sc2 = false -> sc_over sc2 = None ->
    start = l0 ++ behind sc2 all -> p0 = mjoin (eb <$> l0) ->
    mpost (let* sc := scan_at sp in let* l := mlift (scan_rest (mt_root mt) sc) in
           let* q := read_entries sp l (m_count m - zlen p0) in mret (p0 ++ q)) s2
      (fun e _ => e = Ebotch /\ exists kv, head start = Some kv /\ m_count m < zlen (eb kv))
      (fun data s' => exists k f', (k <= length start)%nat /\ data = mjoin (eb <$> take k start) /\
        (forall kv, start !! k = Some kv -> m_count m < zlen data + zlen (eb kv)) /\
        g_fids s' !! fp = Some f' /\ dir_scan s' f' all /\ fd_qpath f' = fd_qpath f /\
        (forall o, o <> 0 -> page_start s' f' o all = drop k start) /\ g_mnts s' = g_mnts s /\ g_users s' = g_users s)).
  { intros s2 sc2 p0 l0 E1 E2 E3 E4 E5 E6 E7 E8 E9 El ->. mgo.
    apply (mpost_liftb _ (behind sc2 all)); [unfold scan_rest; rewrite E6, Hscan; done|].
    destruct (behind_suffix sc2 all Hs) as [pre Epre].
    assert (Hsub : Forall (fun kv => stat_is (g_users s) kv (eb kv)) (behind sc2 all)).
    { rewrite Epre in Heb. by apply Forall_app in Heb as [_ ?]. }
    eapply mpost_bind.
    { eapply mpost_mono; [apply (read_entries_ok sp (g_users s) all eb (behind sc2 all) s2 sc2 _ pre E3); try done; congruence| |].
      - intros ? ? [].
      - intros q s' H. exact H. }
    cbv beta. intros q s3 (k & sc3 & -> & Hk & -> & Hp & K3 & P3 & O3 & Hn). apply mpost_ret.
    exists (length l0 + k)%nat, f1. rewrite El. split; [rewrite length_app; lia|].
    rewrite take_app_add, fmap_app, join_app. split; [done|]. split.
    { intros kv Hkv. rewrite lookup_app_r in Hkv by lia. replace (length l0 + k - length l0)%nat with k in Hkv by lia.
      specialize (Hn kv Hkv). rewrite zlen_app. lia. }
    split; [cbn; by rewrite E1|].
    destruct (Hdone (set_scans (<[sp:=sc3]> (g_scans s2)) s2) sc3) as [D1 D2]; try done; try congruence.
    { apply lookup_insert_eq. }
    split; [done|]. split; [done|]. split; [|split; [exact (eq_trans E5 M1)|exact (eq_trans E4 U1)]].
    intros o Ho. rewrite D2 by done. rewrite Hp. by rewrite drop_app_add. }
  unfold pending in St. rewrite Ed in St. destruct (sc_over sc) as [kv|] eqn:Eo.
  - destruct (K1 kv Eo) as [Hfst Hin]. rewrite Forall_forall in Heb. pose proof (Heb kv Hin) as Hkv.
    do 3 mgo. eapply mpost_liftb; [rewrite U1; apply Hkv|].
    destruct (Z.ltb_spec (m_count m) (zlen (eb kv))) as [Hlt|Hge].
    { split; [done|]. exists kv. by rewrite <- St. }
    do 3 mgo. apply (Hrest _ (scn_key (sc_key sc) sc) (eb kv) [kv]); try done; [apply lookup_insert_eq|..].
    + rewrite <- St. cbn [app]. f_equal. unfold behind. cbn [scn_key sc_first sc_key]. apply list_filter_iff.
      intros x. rewrite Hfst. done.
    + cbn. by rewrite app_nil_r.
  - mgo. by apply (Hrest s1 sc [] []).

Qed.
End pages.

(** ** Theorems *)

(** C29: the hash table of a connection's fids is a partial map from numbers to
    objects: [getfid] finds the object of a number and takes a reference,
    [dupfid] adds a number that is free and refuses one that is taken, and
    [clunkfid] removes exactly the number of its fid. *)
Theorem fid_table {T D A} (s : @Fs T D A) c cn :
  fids_ok s c cn ->
  (forall fid, mpost (getfid c fid) s (fun _ _ => False) (fun r s' => r = fid_of s c fid /\
     (forall fid', fid_of s' c fid' = fid_of s c fid') /\ fids_ok s' c cn /\
     forall p f, r = Some p -> g_fids s !! p = Some f -> g_fids s' !! p = Some (fid_ref 1 f))) /\
  (forall new f, fid_live s f -> mpost (dupfid c new f) s (fun _ _ => False) (fun r s' =>
     (r = None <-> exists p, fid_of s c new = Some p) /\ (exists cn', fids_ok s' c cn') /\
     forall fid, fid_of s' c fid = match r with
       | Some p => if fid =? new then Some p else fid_of s c fid
       | None => fid_of s c fid end)) /\
  (forall p f, g_fids s !! p = Some f -> fid_of s c (fd_fid f) = Some p -> clunkable s f ->
     mpost (clunkfid c p) s (fun _ _ => False) (fun _ s' => (exists cn', fids_ok s' c cn') /\
       forall fid, fid_of s' c fid = if fid =? fd_fid f then None else fid_of s c fid)).
Proof.
  intros H. split; [|split].
  - intros fid. unfold mpost. rewrite (getfid_eq s c cn fid H).
    destruct (fid_of s c fid) as [p|] eqn:E; [|by split; [|split; [|split]]].
    pose proof (proj1 (fid_of_iff s c cn fid p H) E) as (_ & f & Hf & _). rewrite Hf.
    destruct (fids_ok_nums s (set_fids (<[p := fid_ref 1 f]> (g_fids s)) s) c cn H) as [H1 H2]; [apply H|done| |].
    { by apply (same_nums_put _ p f). }
    split; [done|]. split; [done|]. split; [done|]. intros p' f' [= <-] Hf'. cbn.
    rewrite lookup_insert_eq. congruence.
  - intros new f Hl. eapply mpost_mono; [exact (dupfid_ok s c cn new f H Hl)|done|]. cbv beta.
    intros [p|] s'.
    + intros (E & _ & _ & H1 & H2). split; [|done]. rewrite E. by split; [|intros [? [=]]].
    + intros [-> H1]. split; [done|]. split; [by exists cn|done].
  - intros p f Hf Hp Hc. eapply mpost_mono; [exact (clunkfid_ok s c cn p f H Hf Hp Hc)|done|].
    by intros ao s' (_ & H1 & _ & H2).
Qed.

(** C30: hanging up a connection comes to an end: the loop over each chain of fids
    is done when it is empty, whatever the state of the heap, and when the
    last reference goes and nothing is found broken, every number was
    clunked and the connection is gone. *)
Theorem hangup_ends {T D A} c cn (s : @Fs T D A) :
  hashed s c -> g_conns s !! c = Some cn -> cn_ref cn = 1 ->
  mpost (putconn c) s (fun e _ => e <> Efuel) (fun _ s' => exists s1, s' = set_conns (delete c (g_conns s1)) s1 /\
    forall fid, fid_of s1 c fid = None).
Proof.
  intros Hh Hc Hr. unfold putconn. do 2 mgo. rewrite Hr. change (negb (1 - 1 =? 0)) with false. cbv iota.
  match goal with |- mpost _ ?s0 _ _ => set (s0' := s0) end.
  eapply mpost_bind; [eapply (hangup_chains_ok c _ s0'); [|apply lookup_insert_eq]|].
  - intros cn0 h p f E Hp Hf. cbn in E. rewrite lookup_insert_eq in E. injection E as <-. by eapply Hh.
  - cbv beta. intros _ s1 (cn1 & C1 & E1 & _). unfold mpost, mmod. exists s1. split; [done|]. intros fid.
    unfold fid_of. rewrite C1, E1; [done|]. apply elem_of_seqZ. unfold fhash, Nfidtab.
    pose proof (Z.mod_pos_bound (ihash fid) 1024 ltac:(lia)). lia.
Qed.

(** C28: reading a directory delivers its entries page by page: a read returns whole
    entries, as many as fit, starting where the last one stopped, so that
    the pages together are all entries of the directory, each once and in
    the order of their keys; a read that has room for the next entry
    delivers it. *)
Theorem readdir_pages {T D A} `{!MsgTree T} m fp f mnt mt all eb (s : @Fs T D A) :
  g_fids s !! fp = Some f -> fd_mnt f = Some mnt -> g_mnts s !! mnt = Some mt ->
  tree_ok (mt_root mt) -> tscan (mt_root mt) (dir_pfx (fd_qpath f)) = Ok all ->
  Forall (fun kv => stat_is (g_users s) kv (eb kv)) all -> dir_scan s f all ->
  let start := page_start s f (m_offset m) all in
  StronglySorted key_lt all /\
  mpost (readdir m fp) s
    (fun e _ => e = Ebotch /\ exists kv, head start = Some kv /\ m_count m < zlen (eb kv))
    (fun data s' => exists k f', data = mjoin (eb <$> take k start) /\
      (forall kv, head start = Some kv -> zlen (eb kv) <= m_count m -> (0 < k)%nat) /\
      g_fids s' !! fp = Some f' /\ dir_scan s' f' all /\
      forall o, o <> 0 -> page_start s' f' o all = drop k start).
Proof.
  intros Hf Hm Hmt Ht Hscan Heb Hd start. split; [by eapply scan_sorted|].
  eapply mpost_mono; [exact (readdir_ok m fp f mnt mt all eb s Hf Hm Hmt Ht Hscan Heb Hd)|done|].
  cbv beta. intros data s' (k & f' & _ & -> & Hn & F1 & F2 & _ & F3 & _). fold start in Hn, F3 |- *.
  exists k, f'. split; [done|]. split; [|done]. intros kv Hkv Hfit. destruct k; [|lia].
  destruct start as [|kv' l]; [done|]. injection Hkv as ->. specialize (Hn kv eq_refl).
  change (mjoin (eb <$> take 0 (kv :: l))) with ([] : list Z) in Hn. rewrite zlen_nil in Hn. lia.
Qed.

(** ** Witnesses *)

(** A directory [d], qid 5, of the root, qid 0, with the files [f] and [g]. *)
Definition xroot : Xdir := mkXdir 0 (mkQid 0 0 QTDIR) (Z.lor DMDIR 493) 0 0 0 1 1 1 [].
Definition xd : Xdir := mkXdir 0 (mkQid 5 0 QTDIR) (Z.lor DMDIR 493) 0 0 0 1 1 1 [100].
Definition xf : Xdir := mkXdir 0 (mkQid 6 0 0) 0 0 0 10 1 1 1 [102].
Definition xg : Xdir := mkXdir 0 (mkQid 7 0 0) 420 0 0 0 1 1 1 [103].
Definition ent (up : Z) (d : Xdir) : Kvp := mkKvp (entkey up (d_name d)) (dval_bytes d).

Definition ns_ex : Kvmap :=
  list_to_map [(entkey (-1) [], ent (-1) xroot); (entkey 0 [100], ent 0 xd); (entkey 5 [102], ent 5 xf);
    (entkey 5 [103], ent 5 xg); (supkey 5, mkKvp (supkey 5) (entkey 0 [100]))].

Definition users_ex : Users := mkUsers [mkUser 0 None [] [110]; mkUser 1 None [] [98]; mkUser 2 None [] [99]] 0 0 0.

Definition dent_ex (up : Z) (d : Xdir) (ref : Z) : Dent unit :=
  mkDent d (Some (d_name d)) (entkey up (d_name d)) up ref false false None.

(** Fid 10 is on the directory, fid 11 on the file [f], not open and of a user who may not
    write it. *)
Definition fid_ex (n : Z) (dent dir : nat) (q pq uid : Z) : Fid :=
  mkFid (Some 0%nat) None dent dir false n q pq 2 (-1) 8192 uid 1 1 (Z.lor DMDIR 493) false false.

Definition srv_ex : @Fs Kvmap Blkmap unit :=
  mkFs users_ex false false false 8 9 1000 (mkBlkmap 0 ∅) ns_ex false
    {[ 0%nat := mkMount [109] Lmut ns_ex 3 (list_to_map [(dhash 0, [1%nat]); (dhash 5, [2%nat]); (dhash 6, [3%nat])]) ]}
    [0%nat] 0%nat
    (list_to_map [(1%nat, dent_ex (-1) xroot 1); (2%nat, dent_ex 0 xd 2); (3%nat, dent_ex 5 xf 1)])
    (list_to_map [(4%nat, fid_ex 10 2 1 5 0 1); (5%nat, fid_ex 11 3 2 6 5 2)]) ∅
    {[ 6%nat := mkConn 8192 true true false 1 (list_to_map [(fhash 10, [4%nat]); (fhash 11, [5%nat])]) ]}
    7 [] [].

Lemma lookup_ltm {K V} `{Countable K} (l : list (K * V)) k v : list_to_map (M := gmap K V) l !! k = Some v -> (k, v) ∈ l.
Proof. apply elem_of_list_to_map_2. Qed.

Lemma chain_ltm h p l : p ∈ chain h (list_to_map l) -> exists q, (h, q) ∈ l /\ p ∈ q.
Proof.
  unfold chain. destruct (list_to_map l !! h) as [q|] eqn:E; [|by intros ?%not_elem_of_nil].
  intros Hp. exists q. split; [by apply lookup_ltm|done].
Qed.

(** Case analysis on membership in a literal list. *)
Ltac in_cases H := repeat (apply elem_of_cons in H as [H|H]); try (exfalso; exact (not_elem_of_nil _ H)).

(** The components of an equation of pairs, without computing them. *)
Tactic Notation "pair_inv" hyp(H) := apply pair_equal_spec in H as [?E1 ?E2].

Lemma srv_ex_fids : fids_ok srv_ex 6 (mkConn 8192 true true false 1 (list_to_map [(fhash 10, [4%nat]); (fhash 11, [5%nat])])).
Proof.
  assert (Hc : forall h p, p ∈ chain h (list_to_map [(fhash 10, [4%nat]); (fhash 11, [5%nat])]) ->
    (h = fhash 10 /\ p = 4%nat) \/ (h = fhash 11 /\ p = 5%nat)).
  { intros h p Hp. apply chain_ltm in Hp as (q & Hq & Hp). in_cases Hq; pair_inv Hq; subst q;
    apply list_elem_of_singleton in Hp; [left|right]; by split. }
  split.
  - apply lookup_singleton_eq.
  - intros h p Hp. apply Hc in Hp as [[-> ->]|[-> ->]]; by eexists.
  - intros h p p' f f' Hp Hp'. apply Hc in Hp as [[-> ->]|[-> ->]]; apply Hc in Hp' as [[E ->]|[E ->]];
      [intros; reflexivity|vm_compute in E; discriminate E|vm_compute in E; discriminate E|intros; reflexivity].
  - intros h. cbn [cn_fidtab]. unfold chain. destruct (_ !! h) as [q|] eqn:E; [|constructor].
    apply lookup_ltm in E. in_cases E; pair_inv E; subst q; apply NoDup_singleton.
  - intros p f Hf. apply lookup_ltm in Hf. in_cases Hf; injection Hf as -> _; cbn; lia.
Qed.

Lemma fid_table_witness :
  mpost (getfid 6 11) srv_ex (fun _ _ => False) (fun r s' => r = Some 5%nat) /\
  mpost (dupfid 6 11 (fid_ex 10 2 1 5 0 1)) srv_ex (fun _ _ => False) (fun r _ => r = None).
Proof.
  destruct (fid_table srv_ex 6 _ srv_ex_fids) as (H1 & H2 & _). split.
  - eapply mpost_mono; [apply (H1 11)|done|]. intros r s' (-> & _). vm_compute. done.
  - eapply mpost_mono; [apply (H2 11 (fid_ex 10 2 1 5 0 1))|done|].
    + split; [intros mp [= <-]|..]; by eexists.
    + intros r s' (E & _). apply E. by exists 5%nat.
Defined.

Lemma hangup_ends_witness :
  mpost (putconn 6) srv_ex (fun e _ => e <> Efuel) (fun _ s' => exists s1, s' = set_conns (delete 6%nat (g_conns s1)) s1 /\
    fid_of s1 6 10 = None).
Proof.
  eapply mpost_mono; [apply (hangup_ends 6 (mkConn 8192 true true false 1 (list_to_map [(fhash 10, [4%nat]); (fhash 11, [5%nat])])) srv_ex)|done|].
  - intros cn h p f E Hp Hf. pose proof srv_ex_fids as H. pose proof (fo_conn _ _ _ H) as E'.
    rewrite E' in E. apply (inj Some) in E. subst cn. destruct (fo_live _ _ _ H _ _ Hp) as (g & Hg & Eg). congruence.
  - apply (fo_conn _ _ _ srv_ex_fids).
  - done.
  - intros _ s' (s1 & E & H). exists s1. by split.
Defined.

Lemma ns_ex_ok : tree_ok ns_ex.
Proof.
  intros k v Hk. apply lookup_ltm in Hk. in_cases Hk; injection Hk as -> ->; done.
Qed.

Lemma readdir_pages_witness :
  mpost (readdir (mkFmsg 6 116 1 10 0 0 [] 0 [] [] [] [] 0 0 0 60 [] []) 4) srv_ex (fun e _ => e = Ebotch)
    (fun data s' => exists k : nat, (0 < k)%nat /\ zlen data = 53 * Z.of_nat k).
Proof.
  destruct (readdir_pages (mkFmsg 6 116 1 10 0 0 [] 0 [] [] [] [] 0 0 0 60 [] []) 4 (fid_ex 10 2 1 5 0 1) 0
    (mkMount [109] Lmut ns_ex 3 (list_to_map [(dhash 0, [1%nat]); (dhash 5, [2%nat]); (dhash 6, [3%nat])]))
    [ent 5 xf; ent 5 xg] (fun kv => match kv2statbuf users_ex kv 1000 with Ok (Some p) => p | _ => [] end) srv_ex) as [_ H].
  - done.
  - done.
  - done.
  - apply ns_ex_ok.
  - vm_compute. done.
  - apply Forall_cons; split; [|apply Forall_cons; split; [|by apply Forall_nil]]; eapply (stat_is_any _ _ 1000); vm_compute; done.
  - intros sp [=].
  - eapply mpost_mono; [exact H|by intros e s' [-> _]|]. intros data s' (k & f' & -> & Hk & _).
    unfold page_start in Hk |- *. cbn [fd_scan fid_ex] in Hk |- *. specialize (Hk _ eq_refl).
    destruct k as [|[|k]].
    + exfalso. assert (0 < 0)%nat; [|lia]. apply Hk. vm_compute. discriminate.
    + exists 1%nat. split; [lia|]. vm_compute. done.
    + exists 2%nat. split; [lia|]. cbn [take]. rewrite take_nil. vm_compute. done.
Defined.
