(* ===== verification/Namespace.v ===== *)
(** * The name space (src/fs.c: [fscreate], [fsremove], [fswstat], [fswrite])

    What the requests that change the tree make of the entries, stated on the
    values of the tree's keys.  Every message of a request is for a key of
    its own, so each key is changed by one message. *)
From S2P Require Import Prelude CInt Mem Data Keys Hash Pack Apply Upsert Lookup Users Stat Mst Kv Entry File Srv Serve ServeOk.

(** ** Batches of messages *)

Lemma with_key_nodup ms k : NoDup (m_k <$> ms) ->
  (exists m, m ∈ ms /\ m_k m = k /\ with_key k ms = [m]) \/ ((k ∉ (m_k <$> ms)) /\ with_key k ms = []).
Proof.
  intros Hn. destruct (decide (k ∈ (m_k <$> ms))) as [Hin|Hout]; [left|right].
  - apply list_elem_of_fmap in Hin as (m & -> & Hin). exists m. split; [done|]. split; [done|].
    apply list_elem_of_split in Hin as (l1 & l2 & ->). rewrite fmap_app, fmap_cons in Hn.
    apply NoDup_app in Hn as (_ & H1 & H2). apply NoDup_cons in H2 as [H2 _].
    unfold with_key. rewrite filter_app, filter_cons_True by done.
    rewrite !filter_drop; [done|..]; apply Forall_forall; intros x Hx E.
    + apply H2. rewrite <- E. by apply list_elem_of_fmap_2.
    + apply (H1 (m_k m)); [|left]. rewrite <- E. by apply list_elem_of_fmap_2.
  - split; [done|]. unfold with_key. apply filter_drop, Forall_forall. intros x Hx E. apply Hout.
    rewrite <- E. by apply list_elem_of_fmap_2.
Qed.

Section ns.
Context {T D A : Type} `{!MsgTree T} `{!DataBlks D} `{!Snapshots T}.
#[local] Abbreviation Fs := (@Fs T D A).
Implicit Types s : Fs.

(** The state with another root for the mount [mp]. *)
Definition with_root (mp : nat) (m : Mount T) (t : T) s : Fs :=
  set_mnts (<[mp := mnt_set_root t m]> (g_mnts s)) s.

(** The same tree for every reader. *)
Definition same_tree (t t' : T) : Prop := tree_ok t' /\ (forall k, tval t' k = tval t k) /\
  forall k n, tfits t k n -> tfits t' k n.

(** [t'] has the value [val m] under the key of each message. *)
Definition put_vals (t t' : T) (ms : list Msg) (val : Msg -> option Kvp) : Prop :=
  (forall m, m ∈ ms -> tval t' (m_k m) = val m) /\
  forall k, k ∉ (m_k <$> ms) -> tval t' k = tval t k.

(** Some of the messages are in the tree: each key has its old value or its
    new one. *)
Definition half_vals (t t' : T) (ms : list Msg) (val : Msg -> option Kvp) : Prop :=
  tree_ok t' /\ (forall k, tval t' k = tval t k \/ exists m, m ∈ ms /\ m_k m = k /\ tval t' k = val m) /\
  (atomic T -> same_tree t t').

Lemma set_gblks_id s : set_gblks (g_blks s) s = s.
Proof. by destruct s. Qed.

(** One message for each key. *)
Lemma upsert_vals mp m ms val s :
  g_mnts s !! mp = Some m -> tree_ok (mt_root m) -> NoDup (m_k <$> ms) ->
  (forall x, x ∈ ms -> kval_step (tval (mt_root m) (m_k x)) x Msgmax = Ok (val x)) ->
  mpost (upsert mp ms) s
    (fun e s' => (e = Erdonly \/ tree_err e) /\ exists t', s' = with_root mp m t' s /\ half_vals (mt_root m) t' ms val)
    (fun _ s' => exists t', s' = with_root mp m t' s /\ tree_ok t' /\ put_vals (mt_root m) t' ms val /\
       forall k n, tfits (mt_root m) k n -> Forall (msg_fits n) (with_key k ms) -> tfits t' k n).
Proof.
  intros Hm Ht Hn Hv. unfold upsert.
  apply (mpost_deref g_mnts _ m); [done|]. unfold on_file, mpost. rewrite Hm.
  assert (Hk : forall k, kvals (tval (mt_root m) k) (with_key k ms) Msgmax =
    Ok (match with_key k ms with x :: _ => val x | [] => tval (mt_root m) k end)).
  { intros k. destruct (with_key_nodup ms k Hn) as [(x & Hx & <- & ->)|[_ ->]]; [|done].
    cbn [kvals]. by rewrite Hv. }
  pose proof (upsert_ok (mt_flag m) ms (mkFst (mt_root m) (g_blks s) 0) Ht) as Hu.
  unfold mpost in Hu. destruct (File.upsert _ ms _) as [[u|e] f].
  - destruct Hu as (U1 & U2 & _ & U4 & U5); [intros k; cbn; eauto|]. cbn in U2, U4, U5. rewrite U2. cbn [f_tree].
    exists (f_tree f). split; [unfold with_root; by destruct s|]. split; [done|]. split; [split|done].
    + intros x Hx. specialize (U4 (m_k x)). rewrite Hk in U4.
      destruct (with_key_nodup ms (m_k x) Hn) as [(y & Hy & E & Ew)|[Hout _]].
      * rewrite Ew in U4. injection U4 as U4. rewrite <- U4. f_equal.
        apply list_elem_of_lookup in Hx as [i Hi]. apply list_elem_of_lookup in Hy as [j Hj].
        assert (i = j) as ->; [|congruence]. apply (NoDup_lookup (m_k <$> ms) i j (m_k x) Hn);
          rewrite list_lookup_fmap; [by rewrite Hi|rewrite Hj; cbn; by rewrite E].
      * exfalso. apply Hout. by apply list_elem_of_fmap_2.
    + intros k Hk'. specialize (U4 k). rewrite Hk in U4.
      destruct (with_key_nodup ms k Hn) as [(y & Hy & E & _)|[_ Ew]].
      * exfalso. apply Hk'. rewrite <- E. by apply list_elem_of_fmap_2.
      * rewrite Ew in U4. by injection U4 as U4.
  - destruct Hu as (U1 & [U2 U3 _ U5 _ U6]); [intros k; cbn; eauto|]. split; [done|].
    cbn in U3, U5. rewrite U5. exists (f_tree f). split; [unfold with_root; by destruct s|]. split; [done|]. split.
    + intros k. destruct (U3 k) as [n E]. destruct (with_key_nodup ms k Hn) as [(x & Hx & Ek & Ew)|[_ Ew]]; rewrite Ew in E.
      * destruct (take_one n x) as [En|En]; rewrite En in E; [left; by injection E as <-|right]. exists x. split; [done|].
        split; [done|]. cbn [kvals] in E. rewrite <- Ek, Hv in E by done. rewrite Ek in E. by injection E as <-.
      * rewrite take_nil in E. left. by injection E as <-.
    + intros Ha. destruct (U6 Ha) as [V1 V2 V3 _]. by split.
Qed.
End ns.

(** ** Messages and keys *)

Definition wst0 : Wst := mkWst None None None None None None.

Lemma kval_touch k v d nbuf : kv2dir (mkKvp k v) = Ok d -> zlen v = 61 ->
  kval_step (Some (mkKvp k v)) (touch_msg k) nbuf = Ok (Some (mkKvp k (dval_bytes (wst_apply wst0 d)))).
Proof. exact (kvals_wst k v d wst0 nbuf). Qed.

Lemma kval_delete v k x nbuf : kv_k v = k -> kval_step (Some v) (mkMsg Odelete k x) nbuf = Ok None.
Proof.
  intros <-. unfold kval_step, apply. cbn [m_op m_k]. change (Odelete =? Odelete) with true. cbn iota.
  rewrite keycmp_refl. done.
Qed.

Lemma land_bound a b n : 0 <= n -> 0 <= a < 2 ^ n -> 0 <= Z.land a b < 2 ^ n.
Proof.
  intros Hn Ha. split; [apply Z.land_nonneg; lia|].
  assert (E : Z.land a b = Z.land a b mod 2 ^ n).
  { rewrite <- !Z.land_ones by done. rewrite <- Z.land_assoc, (Z.land_comm b), Z.land_assoc.
    rewrite (Z.land_ones a) by done. by rewrite Z.mod_small. }
  rewrite E. apply Z.mod_pos_bound. lia.
Qed.

Lemma entkey_not_sup up name q : entkey up name <> supkey q.
Proof. intros E. apply (f_equal head) in E. discriminate E. Qed.

Lemma qid_type_byte perm : is_byte (qid_type perm).
Proof.
  unfold qid_type, is_byte.
  destruct (negb (Z.land perm DMDIR =? 0)), (negb (Z.land perm DMAPPEND =? 0)), (negb (Z.land perm DMEXCL =? 0)),
    (negb (Z.land perm DMTMP =? 0)); vm_compute; split; congruence.
Qed.

(** ** Creating *)

Section create.
Context {T D A : Type} `{!MsgTree T} `{!DataBlks D} `{!Snapshots T}.
#[local] Abbreviation Fs := (@Fs T D A).
Implicit Types s : Fs.

(** The fid [fp] stands on the directory [d], the entry [dname] of [up], which
    the tree has. *)
Record on_entry s (fp : nat) (f : Fid) (mnt : nat) (mt : Mount T) (de : Dent A) (up : Z) (dname : list Z) (d : Xdir) : Prop := {
  oe_fid : g_fids s !! fp = Some f;
  oe_mnt : fd_mnt f = Some mnt;
  oe_mt : g_mnts s !! mnt = Some mt;
  oe_de : g_dents s !! fd_dent f = Some de;
  oe_key : de_key de = entkey up dname;
  oe_tree : tree_ok (mt_root mt);
  oe_entry : entry (mt_root mt) up dname d;
  oe_hook : fd_dent f ∈ chain (dhash (q_path (d_qid (de_x de)))) (mt_dtab mt);
  oe_auth : Z.land (q_type (d_qid (de_x de))) QTAUTH = 0;
  oe_live h p : p ∈ chain h (mt_dtab mt) -> exists x, g_dents s !! p = Some x;
  oe_new p x : g_dents s !! p = Some x -> (p < g_new s)%nat }.

Lemma find_chain_dents s q l : (forall p, p ∈ l -> exists x : Dent A, g_dents s !! p = Some x) ->
  (forall p (x : Dent A), p ∈ l -> g_dents s !! p = Some x -> q_path (d_qid (de_x x)) <> q) ->
  find_chain dent_at (fun de => q_path (d_qid (de_x de)) =? q) l s = (Ok None, s).
Proof.
  induction l as [|p l IH]; [done|]. intros H1 H2. destruct (H1 p) as [x Hx]; [left|].
  cbn [find_chain]. unfold mbind at 1, dent_at, deref. rewrite Hx.
  rewrite (proj2 (Z.eqb_neq _ q)) by (apply (H2 p); [left|done]). apply IH; intros; [apply H1|eapply H2; [|done]]; by right.
Qed.

(** An entry nobody has open is made. *)
Lemma getdent_new s mp m pq d : g_mnts s !! mp = Some m -> 12 + zlen (d_name d) <= Maxent ->
  (forall p, p ∈ chain (dhash (q_path (d_qid d))) (mt_dtab m) -> exists x, g_dents s !! p = Some x) ->
  (forall p x, g_dents s !! p = Some x -> q_path (d_qid (de_x x)) <> q_path (d_qid d)) ->
  getdent mp pq d s =
    (Ok (g_new s), set_mnts (<[mp := mnt_set_dtab (<[dhash (q_path (d_qid d)) :=
        g_new s :: chain (dhash (q_path (d_qid d))) (mt_dtab m)]> (mt_dtab m)) m]> (g_mnts s))
      (set_dents (<[g_new s := mkDent d (Some (d_name d)) (entkey pq (d_name d)) pq 1 false false None]> (g_dents s))
        (set_new (S (g_new s)) s))).
Proof.
  intros Hm Hl H1 H2. unfold getdent. cbv zeta. unfold mbind at 1, mnt_at, deref. rewrite Hm.
  unfold mbind at 1. rewrite find_chain_dents by eauto. unfold mbind at 1, mlift.
  rewrite (packdkey_eq _ _ _ Hl). done.
Qed.

Lemma unchain_ok p l : p ∈ l -> exists l', unchain p l = Some l'.
Proof. intros H. destruct (unchain_spec p l H) as (l1 & l2 & _ & ->). eauto. Qed.

(** What stays when an entry is released. *)
Record released s s' (p : nat) : Prop := {
  rl_dents q : q <> p -> g_dents s' !! q = g_dents s !! q;
  rl_mnts q : mt_root <$> g_mnts s' !! q = mt_root <$> g_mnts s !! q;
  rl_fids : g_fids s' = g_fids s; rl_out : g_out s' = g_out s; rl_qid : g_nextqid s' = g_nextqid s;
  rl_blks : g_blks s' = g_blks s }.

Lemma clunkdent_ok s mp m p de : g_mnts s !! mp = Some m -> g_dents s !! p = Some de ->
  Z.land (q_type (d_qid (de_x de))) QTAUTH = 0 -> p ∈ chain (dhash (q_path (d_qid (de_x de)))) (mt_dtab m) ->
  mpost (clunkdent (Some mp) p) s (fun _ _ => False) (fun _ s' => released s s' p).
Proof.
  intros Hm Hp Ha Hin. unfold clunkdent, dent_dec. mgo. rewrite Ha. cbn [Z.eqb negb]. do 6 mgo.
  destruct (negb (de_ref de - 1 =? 0)).
  { apply mpost_ret. split; try done. intros q Hq. cbn. by apply lookup_insert_ne. }
  destruct (unchain_ok _ _ Hin) as [l ->]. mgo. unfold free_dent. eapply (mpost_deref g_dents).
  { apply lookup_insert_eq. }
  unfold mpost. cbn. split; try done; cbn.
  - intros q Hq. rewrite lookup_delete_ne, lookup_insert_ne by done. done.
  - intros q. destruct (decide (mp = q)) as [<-|Hne]; [by rewrite lookup_insert_eq, Hm|by rewrite lookup_insert_ne].
Qed.

Definition new_ent (q : Z) (d : Xdir) : Msg := mkMsg Oinsert (entkey q (d_name d)) (dval_bytes d).
Definition new_sup (q : Z) (d : Xdir) : Msg := mkMsg Oinsert (supkey (q_path (d_qid d))) (entkey q (d_name d)).
Definition is_dir (perm : Z) : bool := negb (Z.land perm DMDIR =? 0).

Lemma create_msgs_ok up d perm : zlen (d_name d) < Maxname -> 0 <= q_path (d_qid d) < 2 ^ 63 ->
  create_msgs up d perm = Ok (new_ent up d :: if is_dir perm then [new_sup up d] else []).
Proof.
  intros Hl Hq. unfold Maxname, Maxent in Hl. unfold create_msgs.
  rewrite dir2kv_eq by (unfold Kvmax, Keymax, Maxent, Inlmax; lia). cbn [rbind]. fold (is_dir perm).
  rewrite s64_small by lia. destruct (is_dir perm); [|done].
  change (packsuper Keymax (q_path (d_qid d))) with (Ok (supkey (q_path (d_qid d)))). cbn [rbind].
  rewrite packdkey_eq by (unfold Inlmax; lia). done.
Qed.

Lemma wf_create junk path now perm dmode uid gid name :
  0 <= path < 2 ^ 63 -> - 2 ^ 63 <= now < 2 ^ 63 -> 0 <= perm < 2 ^ 32 -> - 2 ^ 31 <= uid < 2 ^ 31 ->
  - 2 ^ 31 <= gid < 2 ^ 31 -> okname name = None -> is_bytes name ->
  wf_xdir (create_dir junk path now perm dmode uid gid name) /\ zlen name < Maxname.
Proof.
  intros Hp Hn Hm Hu Hg Hok Hb. apply okname_spec in Hok as (_ & _ & _ & Hl & Hc). split; [|done].
  pose proof (u64_range junk). pose proof (land_bound perm (Z.lor (Z.lnot (if is_dir perm then 511 else 438))
    (Z.land dmode (if is_dir perm then 511 else 438))) 32 ltac:(lia) Hm).
  pose proof (qid_type_byte perm) as Hq. unfold Maxname, Maxent in Hl.
  unfold wf_xdir, create_dir, create_mode. cbn -[u64 Z.pow qid_type]. cbv zeta. fold (is_dir perm).
  do 3 (split; [lia|]). split; [done|]. do 7 (split; [lia|]). split; [|lia].
  unfold is_name. unfold is_bytes in Hb. rewrite Forall_forall in Hc. rewrite Forall_forall in Hb. apply Forall_forall. intros c Hin. specialize (Hc c Hin). specialize (Hb c Hin).
  unfold is_byte in Hb. lia.
Qed.
End create.

(** ** Theorems *)

Section claims.
Context {T D A : Type} `{!MsgTree T} `{!DataBlks D} `{!Snapshots T}.
#[local] Abbreviation Fs := (@Fs T D A).
Implicit Types s : Fs.

(** The tree of a mount has the same contents. *)
Definition tree_kept s s' (mnt : nat) (t : T) : Prop :=
  exists t', mt_root <$> g_mnts s' !! mnt = Some t' /\ same_tree t t'.

(** What a request that fails leaves of the tree of a mount: each key has the
    value it had, or the one that the request gives it, which [new] lists; when
    the tree takes all of a batch or nothing, it has the same contents. *)
Definition tree_left s s' (mnt : nat) (t : T) (new : list (list Z * option Kvp)) : Prop :=
  exists t', mt_root <$> g_mnts s' !! mnt = Some t' /\ tree_ok t' /\
    (forall k, tval t' k = tval t k \/ (k, tval t' k) ∈ new) /\ (atomic T -> same_tree t t').

Lemma tree_left_same s s' mnt mt new : mt_root <$> g_mnts s' !! mnt = Some (mt_root mt) -> tree_ok (mt_root mt) ->
  tree_left s s' mnt (mt_root mt) new.
Proof. intros E Ht. exists (mt_root mt). split; [done|]. split; [done|]. split; [by left|done]. Qed.

(** What a creation and a removal make of the keys. *)
Definition created (q : Z) (d : Xdir) (perm up : Z) (dname : list Z) (dd : Xdir) : list (list Z * option Kvp) :=
  [(entkey q (d_name d), Some (mkKvp (entkey q (d_name d)) (dval_bytes d)));
   (entkey up dname, Some (mkKvp (entkey up dname) (dval_bytes (wst_apply wst0 dd))))] ++
  (if is_dir perm then [(supkey (q_path (d_qid d)), Some (mkKvp (supkey (q_path (d_qid d))) (entkey q (d_name d))))] else []).
Definition removed (k : list Z) (q : Z) (isdir : bool) (pk : list Z) (dd : Xdir) : list (list Z * option Kvp) :=
  [(k, None); (pk, Some (mkKvp pk (dval_bytes (wst_apply wst0 dd))))] ++ (if isdir then [(supkey q, None)] else []).

Lemma half_created q d perm up dname dd (t t' : T) :
  half_vals t t' ((new_ent q d :: if is_dir perm then [new_sup q d] else []) ++ [touch_msg (entkey up dname)])
    (fun x => if decide (m_k x = entkey up dname) then Some (mkKvp (entkey up dname) (dval_bytes (wst_apply wst0 dd)))
              else Some (kv_of_msg x)) ->
  entkey q (d_name d) <> entkey up dname ->
  forall k, tval t' k = tval t k \/ (k, tval t' k) ∈ created q d perm up dname dd.
Proof.
  intros (_ & H & _) Hne k. destruct (H k) as [?|(m & Hm & <- & E)]; [by left|right]. rewrite E. unfold created.
  apply elem_of_app in Hm as [[->|Hm]%elem_of_cons|Hm].
  - rewrite decide_False by done. left.
  - destruct (is_dir perm); [|by apply not_elem_of_nil in Hm]. apply list_elem_of_singleton in Hm as ->.
    rewrite decide_False by (intros Ek; symmetry in Ek; by apply entkey_not_sup in Ek).
    apply elem_of_app. right. by apply list_elem_of_singleton.
  - apply list_elem_of_singleton in Hm as ->. rewrite decide_True by done. right. left.
Qed.

(** The creation itself, behind the checks. *)
Lemma create_vals q d perm up dname dd (t t' : T) :
  put_vals t t' ((new_ent q d :: if is_dir perm then [new_sup q d] else []) ++ [touch_msg (entkey up dname)])
    (fun x => if decide (m_k x = entkey up dname) then Some (mkKvp (entkey up dname) (dval_bytes (wst_apply wst0 dd)))
              else Some (kv_of_msg x)) ->
  entkey q (d_name d) <> entkey up dname -> wf_xdir d -> wf_xdir dd -> d_name dd = dname ->
  entry t' q (d_name d) d /\ entry t' up dname (wst_apply wst0 dd) /\
  (is_dir perm = true -> tval t' (supkey (q_path (d_qid d))) =
     Some (mkKvp (supkey (q_path (d_qid d))) (entkey q (d_name d)))) /\
  forall k, k <> entkey q (d_name d) -> k <> entkey up dname ->
    (is_dir perm = true -> k <> supkey (q_path (d_qid d))) -> tval t' k = tval t k.
Proof.
  intros [H1 H2] Hne Hd Hdd Hn. split; [|split; [|split]].
  - split; [|done]. specialize (H1 (new_ent q d) ltac:(left)). rewrite decide_False in H1 by done. done.
  - split; [|split; [by apply wf_wst|by rewrite wst_name]].
    specialize (H1 (touch_msg (entkey up dname))). rewrite decide_True in H1 by done. apply H1.
    apply elem_of_app. right. left.
  - intros Hp. rewrite Hp in H1. specialize (H1 (new_sup q d) ltac:(right; left)).
    rewrite decide_False in H1; [done|]. intros E. symmetry in E. by apply entkey_not_sup in E.
  - intros k K1 K2 K3. apply H2. rewrite fmap_app, fmap_cons, elem_of_app, elem_of_cons. intros [[?|Hk]|Hk]; [done| |].
    + destruct (is_dir perm); [|by apply not_elem_of_nil in Hk]. apply list_elem_of_singleton in Hk. by apply K3.
    + by apply list_elem_of_singleton in Hk.
Qed.

Lemma create_keys q d perm up dname : entkey q (d_name d) <> entkey up dname ->
  NoDup (m_k <$> ((new_ent q d :: if is_dir perm then [new_sup q d] else []) ++ [touch_msg (entkey up dname)])).
Proof.
  intros Hne. destruct (is_dir perm); cbn [app fmap list_fmap new_ent new_sup touch_msg m_k]; fold (@fmap list _).
  - apply NoDup_cons. split.
    { rewrite elem_of_cons, list_elem_of_singleton. intros [E|E]; [by apply entkey_not_sup in E|done]. }
    apply NoDup_cons. split; [|apply NoDup_singleton]. rewrite list_elem_of_singleton. intros E. symmetry in E.
    by apply entkey_not_sup in E.
  - apply NoDup_cons. split; [by rewrite list_elem_of_singleton|apply NoDup_singleton].
Qed.

Lemma create_steps q d perm up dname dd (t : T) x : tree_ok t -> entry t up dname dd ->
  entkey q (d_name d) <> entkey up dname -> zlen (d_name d) < Maxname ->
  x ∈ (new_ent q d :: if is_dir perm then [new_sup q d] else []) ++ [touch_msg (entkey up dname)] ->
  kval_step (tval t (m_k x)) x Msgmax =
    Ok (if decide (m_k x = entkey up dname) then Some (mkKvp (entkey up dname) (dval_bytes (wst_apply wst0 dd)))
        else Some (kv_of_msg x)).
Proof.
  intros Ht (He & Hwf & Hn) Hne Hl Hx. unfold Maxname, Maxent in Hl. rewrite elem_of_app, elem_of_cons in Hx.
  destruct Hx as [[->|Hx]|Hx].
  - rewrite decide_False by done. apply kval_insert. cbn [new_ent]. rewrite zlen_entkey, zlen_dval_bytes.
    unfold Msgmax, Kvmax, Kpmax, Keymax, Maxent, Inlmax. lia.
  - destruct (is_dir perm); [|by apply not_elem_of_nil in Hx]. apply list_elem_of_singleton in Hx as ->.
    rewrite decide_False by (intros E; symmetry in E; by apply entkey_not_sup in E).
    apply kval_insert. rewrite zlen_entkey. change (zlen (supkey _)) with 9.
    unfold Msgmax, Kvmax, Kpmax, Keymax, Maxent, Inlmax. lia.
  - apply list_elem_of_singleton in Hx as ->. rewrite decide_True by done. cbn [touch_msg m_k]. rewrite He.
    apply kval_touch; [|apply zlen_dval_bytes]. rewrite <- Hn. by apply entkey_kv2dir.
Qed.
End claims.

Section claims2.
Context {T D A : Type} `{!MsgTree T} `{!DataBlks D} `{!Snapshots T}.
#[local] Abbreviation Fs := (@Fs T D A).
Implicit Types s : Fs.

(** The tree fails for reasons of its own, or the mount is read only. *)
Definition tree_fails (e : err) : Prop := e = Erdonly \/ tree_err e.

Lemma walk1_absent (t : T) up name : tree_ok t -> zlen name < Maxname -> tval t (entkey up name) = None ->
  tfits t (entkey up name) Kvmax -> postE tree_err (walk1 t up name) (fun r => r = None).
Proof.
  intros Ht Hl Hn Hf. unfold Maxname, Maxent in Hl. unfold walk1.
  rewrite packdkey_eq by (unfold Keymax, Maxent; lia). cbn [rbind]. fold (entkey up name).
  eapply postE_bind; [by apply tget_ok|]. intros r ->. by rewrite Hn.
Qed.

End claims2.

(** ** Removing *)

Section claims3.
Context {T D A : Type} `{!MsgTree T} `{!DataBlks D} `{!Snapshots T}.
#[local] Abbreviation Fs := (@Fs T D A).
Implicit Types s : Fs.

(** The fid [fp] stands on the entry [name] of the directory [up], which is
    the entry [pname] of [pup]; the tree has both. *)
Record in_parent s (fp : nat) (f : Fid) (mnt : nat) (mt : Mount T) (de pde : Dent A) (up : Z) (name : list Z)
    (pup : Z) (pname : list Z) (d dd : Xdir) : Prop := {
  ip_fid : g_fids s !! fp = Some f;
  ip_mnt : fd_mnt f = Some mnt;
  ip_mt : g_mnts s !! mnt = Some mt;
  ip_de : g_dents s !! fd_dent f = Some de;
  ip_pde : g_dents s !! fd_dir f = Some pde;
  ip_two : fd_dent f <> fd_dir f;
  ip_key : de_key de = entkey up name;
  ip_pkey : de_key pde = entkey pup pname;
  ip_tree : tree_ok (mt_root mt);
  ip_entry : entry (mt_root mt) up name d;
  ip_pentry : entry (mt_root mt) pup pname dd;
  ip_keys : entkey up name <> entkey pup pname;
  ip_fits : tfits (mt_root mt) (entkey up name) Kvmax }.

Definition ent_is_dir (x : Xdir) : bool := negb (Z.land (q_type (d_qid x)) QTDIR =? 0).

(** Nothing in the tree is an entry of the directory [q]. *)
Definition empty_dir (t : T) (q : Z) : Prop :=
  forall kv, tval t (kv_k kv) = Some kv -> ~ prefix_of_key (dir_pfx q) kv.

Lemma remove_checks_ok s fp f mnt mt de pde up name pup pname d dd :
  in_parent s fp f mnt mt de pde up name pup pname d dd ->
  mpost (remove_checks fp mnt (mt_root mt)) s
    (fun e s' => s' = s /\ (tree_err e \/ e = Ephase /\ de_gone de = true \/
       e = Enempty /\ ent_is_dir (de_x de) = true /\ ~ empty_dir (mt_root mt) (fd_qpath f) \/
       e = Eperm /\ fsaccess (g_users s) (fd_permit f) (fd_uid f) (fd_dmode f) (fd_duid f) (fd_dgid f) DMWRITE = -1))
    (fun _ s' => s' = s /\ de_gone de = false /\
       (ent_is_dir (de_x de) = true -> empty_dir (mt_root mt) (fd_qpath f)) /\
       fsaccess (g_users s) (fd_permit f) (fd_uid f) (fd_dmode f) (fd_duid f) (fd_dgid f) DMWRITE <> -1).
Proof.
  intros [Hf Hm Hmt Hde Hpde Htwo Hk Hpk Ht He Hpe Hks Hfit]. unfold remove_checks. do 2 mgo.
  destruct (de_gone de) eqn:Eg; [split; [done|]; right; by left|]. rewrite Hk.
  eapply mpost_bind with (Q' := fun r s' => r = tval (mt_root mt) (entkey up name) /\ s' = s).
  { apply mpost_lift. eapply postE_weaken; [|eapply postE_mono; [by apply tget_ok|]].
    - intros e Ee. split; [done|]. by left.
    - by intros r ->. }
  intros r ? [-> ->]. destruct He as [He _]. rewrite He.
  eapply mpost_bind with (Q' := fun r s' => s' = s /\
    match r with
    | None => ent_is_dir (de_x de) = true -> empty_dir (mt_root mt) (fd_qpath f)
    | Some e => e = Enempty /\ ent_is_dir (de_x de) = true /\ ~ empty_dir (mt_root mt) (fd_qpath f)
    end).
  { unfold candelete. mgo. unfold ent_is_dir. destruct (_ =? 0) eqn:Ed; [by split|]. rewrite Hm. mgo.
    eapply mpost_liftb; [reflexivity|]. fold (dir_pfx (fd_qpath f)).
    eapply mpost_bind with (Q' := fun l s' => s' = s /\
      forall kv, kv ∈ l <-> tval (mt_root mt) (kv_k kv) = Some kv /\ prefix_of_key (dir_pfx (fd_qpath f)) kv).
    { apply mpost_lift. eapply postE_weaken; [|eapply postE_mono; [by apply tscan_ok|]].
      - intros e Ee. split; [done|]. by left.
      - intros l (_ & _ & H). done. }
    intros l ? (-> & Hl). apply mpost_ret. split; [done|]. destruct l as [|kv l].
    - intros _ kv Hkv Hp. apply (not_elem_of_nil kv). by apply Hl.
    - split; [done|]. split; [done|]. intros Hempty. destruct (proj1 (Hl kv) ltac:(left)) as [H1 H2].
      by apply (Hempty kv). }
  intros [e|] ? [-> H]; [split; [done|]; right; right; by left|]. mgo.
  destruct (Z.eqb_spec (fsaccess (g_users s) (fd_permit f) (fd_uid f) (fd_dmode f) (fd_duid f) (fd_dgid f) DMWRITE) (-1)).
  - split; [done|]. by right; right; right.
  - done.
Qed.

Definition remove_msgs (k : list Z) (q : Z) (isdir : bool) (pk : list Z) : list Msg :=
  mkMsg Odelete k [0] :: (if isdir then [mkMsg Oclobber (supkey q) []] else []) ++ [touch_msg pk].

Lemma remove_keys up name q isdir pup pname : entkey up name <> entkey pup pname ->
  NoDup (m_k <$> remove_msgs (entkey up name) q isdir (entkey pup pname)).
Proof.
  intros Hne. unfold remove_msgs. destruct isdir; cbn [app fmap list_fmap touch_msg m_k].
  - apply NoDup_cons. split.
    { rewrite elem_of_cons, list_elem_of_singleton. intros [E|E]; [by apply entkey_not_sup in E|done]. }
    apply NoDup_cons. split; [|apply NoDup_singleton]. rewrite list_elem_of_singleton. intros E. symmetry in E.
    by apply entkey_not_sup in E.
  - apply NoDup_cons. split; [by rewrite list_elem_of_singleton|apply NoDup_singleton].
Qed.

Lemma remove_steps (t : T) up name d q isdir pup pname dd x :
  entry t up name d -> entry t pup pname dd -> entkey up name <> entkey pup pname ->
  x ∈ remove_msgs (entkey up name) q isdir (entkey pup pname) ->
  kval_step (tval t (m_k x)) x Msgmax =
    Ok (if decide (m_k x = entkey pup pname) then Some (mkKvp (entkey pup pname) (dval_bytes (wst_apply wst0 dd)))
        else None).
Proof.
  intros (He & _) (Hp & Hwf & Hn) Hne Hx. unfold remove_msgs in Hx. rewrite elem_of_cons, elem_of_app in Hx.
  destruct Hx as [->|[Hx|Hx]].
  - rewrite decide_False by done. cbn [m_k]. rewrite He. by apply kval_delete.
  - destruct isdir; [|by apply not_elem_of_nil in Hx]. apply list_elem_of_singleton in Hx as ->.
    rewrite decide_False by (intros E; symmetry in E; by apply entkey_not_sup in E). apply kval_clear. by right.
  - apply list_elem_of_singleton in Hx as ->. rewrite decide_True by done. cbn [touch_msg m_k]. rewrite Hp.
    apply kval_touch; [|apply zlen_dval_bytes]. rewrite <- Hn. by apply entkey_kv2dir.
Qed.

Lemma half_removed k0 q isdir pk dd (t t' : T) :
  half_vals t t' (remove_msgs k0 q isdir pk)
    (fun x => if decide (m_k x = pk) then Some (mkKvp pk (dval_bytes (wst_apply wst0 dd))) else None) ->
  k0 <> pk -> pk <> supkey q ->
  forall k, tval t' k = tval t k \/ (k, tval t' k) ∈ removed k0 q isdir pk dd.
Proof.
  intros (_ & H & _) Hne Hs k. destruct (H k) as [?|(m & Hm & <- & E)]; [by left|right]. rewrite E. unfold removed, remove_msgs in *.
  apply elem_of_cons in Hm as [->|[Hm|Hm]%elem_of_app].
  - rewrite decide_False by done. left.
  - destruct isdir; [|by apply not_elem_of_nil in Hm]. apply list_elem_of_singleton in Hm as ->.
    rewrite decide_False by (intros Ek; by apply Hs). apply elem_of_app. right. by apply list_elem_of_singleton.
  - apply list_elem_of_singleton in Hm as ->. rewrite decide_True by done. right. left.
Qed.

End claims3.

(** ** Witnesses *)

Definition mt_ex : Mount Kvmap :=
  mkMount [109] Lmut ns_ex 3 (list_to_map [(dhash 0, [1%nat]); (dhash 5, [2%nat]); (dhash 6, [3%nat])]).

Lemma wf_ex d : d = xroot \/ d = xd \/ d = xf \/ d = xg -> wf_xdir d.
Proof. intros [->|[->|[->| ->]]]; repeat split; cbn; try lia; try done; repeat constructor; lia. Qed.

Lemma srv_ex_dents p x : g_dents srv_ex !! p = Some x ->
  (p < 7)%nat /\ (q_path (d_qid (de_x x)) = 0 \/ q_path (d_qid (de_x x)) = 5 \/ q_path (d_qid (de_x x)) = 6).
Proof. intros H. apply lookup_ltm in H. in_cases H; injection H as -> ->; (split; [cbn; lia|cbn; tauto]). Qed.

Lemma on_entry_ex : on_entry srv_ex 4 (fid_ex 10 2 1 5 0 1) 0 mt_ex (dent_ex 0 xd 2) 0 [100] xd.
Proof.
  split; try done.
  - apply ns_ex_ok.
  - split; [by vm_compute|]. split; [apply wf_ex; tauto|done].
  - apply list_elem_of_singleton. done.
  - intros h p Hp. apply chain_ltm in Hp as (q & Hq & Hp). in_cases Hq; pair_inv Hq; subst q;
      apply list_elem_of_singleton in Hp as ->; by eexists.
  - intros p x Hx. by apply srv_ex_dents in Hx as [? _].
Qed.

Definition create_ex : Fmsg := mkFmsg 6 114 1 10 0 0 [] 0 [] [] [] [104] 420 1 0 0 [] [].


Lemma in_parent_ex : in_parent srv_ex 5 (fid_ex 11 3 2 6 5 2) 0 mt_ex (dent_ex 5 xf 1) (dent_ex 0 xd 2) 5 [102] 0 [100] xf xd.
Proof.
  split; try done.
  - apply ns_ex_ok.
  - split; [by vm_compute|]. split; [apply wf_ex; tauto|done].
  - split; [by vm_compute|]. split; [apply wf_ex; tauto|done].
  - intros v Hv. vm_compute in Hv. injection Hv as <-. vm_compute. discriminate.
Qed.

