(* ===== verification/Access.v ===== *)
(** * Writing through a fid, and waiting for the sweeper (src/fs.c: [fswrite],
    [fswstat], [truncwait], [findparent])

    What a write request makes of a file, on top of [File], and two ways in
    which a request leaves the server unable to go on. *)
From S2P Require Import Prelude CInt Mem Data Keys Hash Pack Apply Upsert Lookup Users Stat Mst Kv Entry File Srv Serve ServeOk Namespace.

Section access.
Context {T D A : Type} `{!MsgTree T} `{!DataBlks D} `{!Snapshots T}.
#[local] Abbreviation Fs := (@Fs T D A).
Implicit Types s : Fs.

Lemma upsert_set_len flag ms (F : Fst T D) n :
  File.upsert flag ms (set_len n F) = (let '(r, F') := File.upsert flag ms F in (r, set_len n F')).
Proof.
  unfold File.upsert. destruct (negb _); [|done]. unfold mbind, mget, mret, mlift, mmod. cbn [f_tree set_len].
  destruct (_ || _); [destruct (tfork _) as [t|e]; [|done]|]; cbn; 
    unfold mcatch; [destruct (tput t ms)|destruct (tput _ ms)]; cbn; try destruct (is_crash _); done.
Qed.

Lemma upsert_len flag ms (F : Fst T D) : f_len (File.upsert flag ms F).2 = f_len F.
Proof.
  unfold File.upsert. destruct (negb _); [|done]. unfold mbind, mget, mret, mlift, mmod.
  destruct (_ || _); [destruct (tfork _) as [t|e]; [|done]|]; cbn; 
    unfold mcatch; [destruct (tput t ms)|destruct (tput _ ms)]; cbn; try destruct (is_crash _); done.
Qed.

(** The file a fid stands on, as [File] sees it. *)
Definition file_at s (mt : Mount T) (de : Dent A) : Fst T D := mkFst (mt_root mt) (g_blks s) (d_length (de_x de)).

(** The mount [mnt] has the tree and the blocks of [F], and everything else that answers
    and numbers go by is as it was. *)
Record holds_file s s' (mnt : nat) (F : Fst T D) : Prop := {
  hf_tree : mt_root <$> g_mnts s' !! mnt = Some (f_tree F);
  hf_blks : g_blks s' = f_blks F;
  hf_out : g_out s' = g_out s;
  hf_fids : g_fids s' = g_fids s }.

Lemma write_file_fswrite m f mnt mt de s :
  g_mnts s !! mnt = Some mt -> g_dents s !! fd_dent f = Some de ->
  match fswrite (g_rdonly s) (mt_flag mt) (fd_qpath f) (fd_uid f) (de_key de) (d_mode (de_x de)) (g_now s) (m_offset m) (m_data m)
          (file_at s mt de) with
  | (Ok n, F) => exists s' de', write_file m f mnt s = (Ok n, s') /\ holds_file s s' mnt F /\
      g_dents s' !! fd_dent f = Some de' /\ d_length (de_x de') = f_len F /\ d_mtime (de_x de') = g_now s
  | (Err e, F) => exists s', write_file m f mnt s = (Err e, s') /\ holds_file s s' mnt F
  end.
Proof.
  intros Hm Hd. unfold fswrite, write_file, Srv.upsert, on_file, dent_at, mnt_at, put_dent, deref, mmod, mget, mret, mbind.
  cbv beta zeta. rewrite Hd. cbv iota. rewrite Hm. cbv iota. rewrite Hd. fold (file_at s mt de).
  change (f_len (file_at s mt de)) with (d_length (de_x de)).
  destruct (write_loop _ _ _ _ _ _ _ _ _ (file_at s mt de)) as [[[ms o']|e] F1] eqn:El.
  2: { eexists. split; [done|]. split; try done. cbn. by rewrite lookup_insert_eq. }
  destruct (zlen ms <? nwrite).
  2: { eexists. split; [done|]. split; try done. cbn. by rewrite lookup_insert_eq. }
  cbn. pose proof (lookup_insert_eq (g_dents s) (fd_dent f) (dent_set_x (set_length (de_x de) (f_len F1)) de)) as E1.
  pose proof (lookup_insert_eq (g_mnts s) mnt (mnt_set_root (f_tree F1) mt)) as E2.
  rewrite E1. cbn. rewrite !E2. cbn. rewrite !E2. cbn.
  set (n' := if _ <? u64 o' then _ else _). set (wm := ms ++ _).
  change (mkFst (f_tree F1) (f_blks F1) 0) with (set_len 0 (mkFst (f_tree F1) (f_blks F1) n')).
  change (set_len n' F1) with (mkFst (f_tree F1) (f_blks F1) n').
  rewrite upsert_set_len. destruct (File.upsert _ wm _) as [[u|e] F] eqn:Eu.
  - eexists _, _. split; [done|]. split; [split; try done; cbn; by rewrite lookup_insert_eq|].
    split; [cbn; apply lookup_insert_eq|]. split; [|done]. cbn.
    pose proof (upsert_len (mt_flag mt) wm (mkFst (f_tree F1) (f_blks F1) n')) as Hn. rewrite Eu in Hn. cbn in Hn. done.
  - eexists. split; [done|]. split; try done. cbn. by rewrite lookup_insert_eq.
Qed.

(** ** A wait nobody ends *)

(** Releases one of several references. *)
Lemma clunkdent_dec s mp m p de : g_mnts s !! mp = Some m -> g_dents s !! p = Some de ->
  Z.land (q_type (d_qid (de_x de))) QTAUTH = 0 -> de_ref de <> 1 ->
  clunkdent (Some mp) p s = (Ok tt, set_dents (<[p := dent_ref (-1) de]> (g_dents s)) s).
Proof.
  intros Hm Hp Ha Hr. unfold clunkdent, dent_dec, dent_at, mnt_at, put_dent, deref, mmod, mret, mbind.
  rewrite Hp. cbn beta iota. rewrite Ha. change (negb (0 =? 0)) with false. cbn beta iota. rewrite Hm, Hp. cbn beta iota.
  by rewrite (proj2 (Z.eqb_neq (de_ref de - 1) 0)) by lia.
Qed.

Lemma clunkmount_dec s mp m : g_mnts s !! mp = Some m -> mt_ref m <> 1 ->
  clunkmount mp s = (Ok tt, set_mnts (<[mp := mnt_ref (-1) m]> (g_mnts s)) s).
Proof.
  intros Hm Hr. unfold clunkmount, mnt_dec, mnt_at, put_mnt, deref, mmod, mret, mbind.
  rewrite Hm. cbn beta iota. by rewrite (proj2 (Z.eqb_neq (mt_ref m - 1) 0)) by lia.
Qed.
End access.

(** ** Theorems *)


(** C27: the way from a directory to its parent is found when the directory's name
    has at most 235 bytes; a longer name is one that may be created, and makes
    the look-up fail its assertion about the size of the buffer. *)
Theorem findparent_bound {T} `{!MsgTree T} (t : T) q up name :
  tree_ok t -> (forall n, 21 + zlen name <= n -> tfits t (supkey q) n) -> 0 <= up < 2 ^ 63 -> is_name name -> zlen name < Maxname ->
  tval t (supkey q) = Some (mkKvp (supkey q) (entkey up name)) ->
  (zlen name <= 235 -> postE tree_err (findparent t q Maxent) (fun r => r = (up, name))) /\
  (235 < zlen name -> postE (fun e => tree_err e \/ e = Eassert) (findparent t q Maxent) (fun _ => False)).
Proof.
  intros Ht Hf Hu Hn Hl Hv.
  assert (Hlen : kvlen (mkKvp (supkey q) (entkey up name)) = 21 + zlen name).
  { unfold kvlen. cbn [kv_k kv_v]. rewrite zlen_entkey. change (zlen (supkey q)) with 9. lia. }
  unfold findparent. change (packsuper Keymax q) with (Ok (supkey q)). cbn [rbind]. split; intros Hs.
  - eapply postE_bind; [apply tget_ok; [done|apply Hf; unfold Maxent; lia]|]. intros r ->. rewrite Hv. cbn [kv_v].
    unfold Maxname, Maxent in Hl.
    rewrite (unpackdkey_packdkey (12 + zlen name) up name (entkey up name)); [done|lia|done|lia|lia|by apply packdkey_eq].
  - eapply postE_bind; [eapply tget_big; [done|exact Hv|]|by intros ? []]. rewrite Hlen. unfold Maxent. lia.
Qed.

(** What a wstat request asks for when it only gives a length. *)
Record only_length (d : Dir) : Prop := {
  ol_path : q_path (r_qid d) = 2 ^ 64 - 1; ol_vers : q_vers (r_qid d) = 2 ^ 32 - 1;
  ol_name : cstr (r_name d) = []; ol_mode : r_mode d = 2 ^ 32 - 1; ol_mtime : r_mtime d = 2 ^ 32 - 1;
  ol_uid : cstr (r_uid d) = []; ol_gid : cstr (r_gid d) = [] }.

(** C26: a wstat that shortens a file and is refused leaves the file marked as being
    truncated, with the new length in memory, while no request to clear it is
    queued: with an empty queue, the next request that waits for the
    truncation to be done waits for ever, unless another process sends the
    sweeper a request for this file. *)
Theorem refused_shrink_waits {T D A} `{!MsgTree T} `{!DataBlks D} (admin : Amsg -> M (@Fs T D A) unit)
    m fp f mnt mt (de : Dent A) d (s : @Fs T D A) :
  g_fids s !! fp = Some f -> fd_mnt f = Some mnt -> g_mnts s !! mnt = Some mt -> g_dents s !! fd_dent f = Some de ->
  de_gone de = false -> Z.land (q_type (d_qid (de_x de))) QTAUTH = 0 -> Z.land (q_path (d_qid (de_x de))) Qdump = 0 ->
  convM2D (m_stat m) = Some d -> only_length d -> 0 <= s64 (r_length d) < d_length (de_x de) ->
  fsaccess (g_users s) (fd_permit f) (fd_uid f) (d_mode (de_x de)) (d_uid (de_x de)) (d_gid (de_x de)) DMWRITE = -1 ->
  de_ref de <> 0 -> mt_ref mt <> 0 ->
  mpost (wstat_body m fp) s (fun _ _ => False) (fun ao s' => ao = None /\
    g_out s' = g_out s ++ [(m_tag m, Rerror Eperm)] /\ g_adm s' = g_adm s /\
    (exists de', g_dents s' !! fd_dent f = Some de' /\ de_trunc de' = true /\ de_ref de' = de_ref de /\
       d_length (de_x de') = s64 (r_length d)) /\
    (g_adm s = [] -> truncwait admin (fd_dent f) s' = (Err Estuck, s'))).
Proof.
  intros Hf Hm Hmt Hde Hg Ha Hdump Hd [O1 O2 O3 O4 O5 O6 O7] Hlen Hacc Hr1 Hr2.
  unfold wstat_body. do 2 mgo. rewrite Hg, Ha, Hdump, Hd, Hm. change (negb (0 =? 0)) with false. cbn [orb]. mgo.
  unfold wstat_qid, wstat_name. rewrite O1, O2, O3, !Z.eqb_refl. cbn [negb orb]. do 2 mgo.
  unfold wstat_size. cbv zeta. rewrite (proj2 (Z.eqb_neq (s64 (r_length d)) (-1))) by lia.
  rewrite (proj2 (Z.ltb_ge (s64 (r_length d)) 0)) by lia. do 4 mgo.
  rewrite (proj2 (Z.eqb_neq (s64 (r_length d)) _)) by lia. rewrite (proj2 (Z.ltb_lt (s64 (r_length d)) _)) by lia.
  unfold clear_req. do 4 mgo. unfold mnt_inc. do 2 mgo. do 7 mgo. eapply (mpost_deref g_dents); [apply lookup_insert_eq|].
  do 2 mgo.
  match goal with |- mpost _ ?s0 _ _ => set (s1 := s0) end.
  set (de1 := dent_set_x (set_length (de_x de) (s64 (r_length d))) (dent_ref 1 (dent_set_trunc true de))).
  assert (Hd1 : g_dents s1 !! fd_dent f = Some de1).
  { cbn. rewrite lookup_insert_eq. done. }
  assert (Hm1 : g_mnts s1 !! mnt = Some (mnt_ref 1 mt)) by (cbn; apply lookup_insert_eq).
  assert (Hf1 : g_fids s1 !! fp = Some f) by done.
  assert (Ht : wstat_tail m fp mnt d false (Some (s64 (r_length d))) s1 = (Err Eperm, s1)).
  { unfold wstat_tail, fid_at, dent_at, deref, mget, mlift, mbind. rewrite Hf1, Hd1. cbv zeta.
    unfold wstat_mode, wstat_id, wstat_mtime. rewrite O4, O5, O6, O7, !Z.eqb_refl. cbv iota beta.
    unfold wstat_perm. cbn [andb is_given ws_size de1 dent_set_x de_x set_length d_mode d_uid d_gid].
    change (g_users s1) with (g_users s). by rewrite Hacc. }
  unfold mpost, mcatch, mbind. unfold mret at 1. cbv beta iota. rewrite Ht. change (is_crash Eperm) with false. cbv iota.
  unfold freeamsg, rerror, respond, mmod. cbn [when_some]. unfold mbind.
  set (s2 := set_out _ s1).
  rewrite (clunkdent_dec s2 mnt (mnt_ref 1 mt) (fd_dent f) de1); [|done|done|done|cbn; lia].
  rewrite (clunkmount_dec _ mnt (mnt_ref 1 mt)); [|done|cbn; lia].
  cbn [mret]. split; [done|]. split; [done|]. split; [done|]. split.
  { exists (dent_ref (-1) de1). split; [cbn; apply lookup_insert_eq|]. split; [done|]. split; [cbn; lia|done]. }
  intros Hadm. unfold truncwait, mget, mbind. cbn [set_mnts g_adm set_dents s2 set_out s1]. rewrite Hadm. cbn [length truncwait_loop].
  unfold mbind, dent_at, deref. cbn [set_mnts g_dents set_dents]. rewrite lookup_insert_eq. done.
Qed.

(** ** Witnesses *)

Lemma ns_ex_dat q fb : tval (T := Kvmap) ns_ex (datkey q fb) = None.
Proof.
  destruct (tval (T := Kvmap) ns_ex (datkey q fb)) as [kv|] eqn:E; [|done]. apply lookup_ltm in E.
  in_cases E; apply (f_equal (fun x => head x.1)) in E; discriminate E.
Qed.

Definition write_ex : Fmsg := mkFmsg 6 118 1 11 0 0 [] 0 [] [] [] [] 0 0 4 3 [1; 2; 3] [].
Definition no_auth (a : unit) (p : list Z) : bool * unit := (true, a).


Definition long_ex : Kvmap := {[ supkey 5 := mkKvp (supkey 5) (entkey 0 (replicate 240 97)) ]}.

Lemma findparent_bound_witness : postE (fun e => e = Eassert) (findparent long_ex 5 Maxent) (fun _ => False).
Proof.
  eapply postE_weaken; [|apply (findparent_bound long_ex 5 0 (replicate 240 97))].
  - by intros e [[]| ->].
  - intros k v Hk. unfold long_ex in Hk. by apply lookup_singleton_Some in Hk as [<- <-].
  - intros n Hn v Hv. unfold long_ex in Hv. apply lookup_singleton_Some in Hv as [_ <-]. change (21 + 240 <= n) in Hn. vm_compute kvlen. lia.
  - lia.
  - apply Forall_replicate. lia.
  - done.
  - apply lookup_singleton_eq.
  - done.
Defined.

(** The length 4 for the file of 10 bytes. *)
Definition shrink_ex : Fmsg :=
  mkFmsg 6 126 1 11 0 0 [] 0 [] [] [] [] 0 0 0 0 []
    (PBIT16 47 ++ PBIT16 (-1) ++ PBIT32 (-1) ++ PBIT8 (-1) ++ PBIT32 (-1) ++ PBIT64 (-1) ++ PBIT32 (-1) ++
     PBIT32 (-1) ++ PBIT32 (-1) ++ PBIT64 4 ++ pstr [] ++ pstr [] ++ pstr [] ++ pstr []).
Definition no_admin (a : Amsg) : M (@Fs Kvmap Blkmap unit) unit := mret tt.

Lemma refused_shrink_waits_witness :
  mpost (wstat_body shrink_ex 5) srv_ex (fun _ _ => False) (fun ao s' => g_out s' = [(1, Rerror Eperm)] /\
    truncwait no_admin 3 s' = (Err Estuck, s')).
Proof.
  eapply mpost_mono; [apply (refused_shrink_waits no_admin shrink_ex 5 (fid_ex 11 3 2 6 5 2) 0 mt_ex (dent_ex 5 xf 1)
    (mkDir (mkQid (2 ^ 64 - 1) (2 ^ 32 - 1) 255) (2 ^ 32 - 1) (2 ^ 32 - 1) 4 [] [] [] []) srv_ex)|done|]; try done.
  intros ao s' (_ & H1 & _ & _ & H2). split; [done|]. by apply H2.
Defined.
