(* ===== verification/Dead.v ===== *)
(** * Deadlists (src/snap.c: [dlflush], [dlcachedel], [dlcacheget], [getdl],
    [putdl], [freedl], [mergedl], [reclaimblocks], [dlsync], [killblk])

    A block that a snapshot uses and its successor does not is on a deadlist
    of the successor, by the generation in which it was born.  A deadlist is
    a chain of log blocks; its ends are stored in the tree of snapshots and
    kept in a cache of [Dlist] objects while it grows.  The tree of snapshots
    is used through [MsgTree].  The block layer is explicit: the blocks by
    address, as [getblk] finds them, and the operations handed to the
    syncers, in order. *)
From S2P Require Import Prelude CInt Mem Data Keys Hash Pack Blk Io Log Queue Apply Upsert Lookup Mst Kv.

(** What [newblk(&fs->snap, Tdlist)] relies on: the allocator gives a block
    that is not in use, with whatever its buffer held. *)
Class SnapAlloc (B : Type) := {
  sa_new : B -> res (Z * list Z * B);
  sa_live : B -> Z -> Prop;
  sa_err : err -> Prop;
  sa_new_ok s : postE sa_err (sa_new s) (fun '(a, buf, s') =>
    ~ sa_live s a /\ 0 <= a < 2 ^ 63 /\ Z.land a (Blksz - 1) = 0 /\ zlen buf = Blksz /\
    forall x, sa_live s' x <-> sa_live s x \/ x = a) }.

(** [btupsert] on the tree of snapshots also gives up the blocks it
    replaces, with [killblk(&fs->snap, bp)]. *)
Class SnapTree (T : Type) `{!MsgTree T} := {
  skills : T -> list Msg -> list Bptr;
  skills_ok t ms : Forall (fun bp => 0 <= bp_addr bp < 2 ^ 63 /\ Z.land (bp_addr bp) (Blksz - 1) = 0) (skills t ms) }.

(** [Dlist]; [do_ins] is the block that takes the next entry. *)
Record Dlo := mkDlo { do_gen : Z; do_bgen : Z; do_hd : Bptr; do_tl : Bptr; do_ins : option Z }.

Definition to_dl (x : Dlo) : Dlist := mkDlist (do_gen x) (do_bgen x) (do_hd x) (do_tl x).
Definition of_dl (d : Dlist) : Dlo := mkDlo (dl_gen d) (dl_bgen d) (dl_hd d) (dl_tl d) None.
Definition do_set (x : Dlo) (hd tl : Bptr) (ins : option Z) : Dlo := mkDlo (do_gen x) (do_bgen x) hd tl ins.

(** What is handed to the block layer: an entry of the write queue, or a
    block written at once with [syncblk]. *)
Inductive Ioop : Type :=
  | IoQ (e : Qent)
  | IoSync (b : Blk).

(** A mount, as src/snap.c uses it: [root] is a tree object. *)
Record Smnt := mkSmnt { sm_name : list Z; sm_flag : Z; sm_root : nat }.

Definition dlkey (gen bgen : Z) : list Z := [Kdlist] ++ PACK64 gen ++ PACK64 bgen.
Definition kvmsg (op : Z) (kv : Kvp) : Msg := mkMsg op (kv_k kv) (kv_v kv).

Section dead.
Context {T B : Type} `{!MsgTree T} `{!SnapTree T} `{!SnapAlloc B}.

Record Sn := mkSn {
  sn_snap : T; sn_al : B; sn_blks : gmap Z Blk; sn_out : list Ioop; sn_qgen : Z;
  sn_snapdl : Dlo; sn_dls : gmap nat Dlo; sn_dlnew : nat; sn_dlcache : gmap Z (list nat);
  sn_lru : list nat; sn_dlcount : Z; sn_dlcmax : Z;
  sn_trees : gmap nat Tree; sn_tnew : nat; sn_mounts : list Smnt; sn_nextgen : Z; sn_limbo : list nat }.

Definition sn_set_snap (x : T) (s : Sn) : Sn :=
  mkSn x (sn_al s) (sn_blks s) (sn_out s) (sn_qgen s) (sn_snapdl s) (sn_dls s) (sn_dlnew s) (sn_dlcache s)
    (sn_lru s) (sn_dlcount s) (sn_dlcmax s) (sn_trees s) (sn_tnew s) (sn_mounts s) (sn_nextgen s) (sn_limbo s).
Definition sn_set_al (x : B) (s : Sn) : Sn :=
  mkSn (sn_snap s) x (sn_blks s) (sn_out s) (sn_qgen s) (sn_snapdl s) (sn_dls s) (sn_dlnew s) (sn_dlcache s)
    (sn_lru s) (sn_dlcount s) (sn_dlcmax s) (sn_trees s) (sn_tnew s) (sn_mounts s) (sn_nextgen s) (sn_limbo s).
Definition sn_set_blks (x : gmap Z Blk) (s : Sn) : Sn :=
  mkSn (sn_snap s) (sn_al s) x (sn_out s) (sn_qgen s) (sn_snapdl s) (sn_dls s) (sn_dlnew s) (sn_dlcache s)
    (sn_lru s) (sn_dlcount s) (sn_dlcmax s) (sn_trees s) (sn_tnew s) (sn_mounts s) (sn_nextgen s) (sn_limbo s).
Definition sn_set_out (x : list Ioop) (s : Sn) : Sn :=
  mkSn (sn_snap s) (sn_al s) (sn_blks s) x (sn_qgen s) (sn_snapdl s) (sn_dls s) (sn_dlnew s) (sn_dlcache s)
    (sn_lru s) (sn_dlcount s) (sn_dlcmax s) (sn_trees s) (sn_tnew s) (sn_mounts s) (sn_nextgen s) (sn_limbo s).
Definition sn_set_qgen (x : Z) (s : Sn) : Sn :=
  mkSn (sn_snap s) (sn_al s) (sn_blks s) (sn_out s) x (sn_snapdl s) (sn_dls s) (sn_dlnew s) (sn_dlcache s)
    (sn_lru s) (sn_dlcount s) (sn_dlcmax s) (sn_trees s) (sn_tnew s) (sn_mounts s) (sn_nextgen s) (sn_limbo s).
Definition sn_set_snapdl (x : Dlo) (s : Sn) : Sn :=
  mkSn (sn_snap s) (sn_al s) (sn_blks s) (sn_out s) (sn_qgen s) x (sn_dls s) (sn_dlnew s) (sn_dlcache s)
    (sn_lru s) (sn_dlcount s) (sn_dlcmax s) (sn_trees s) (sn_tnew s) (sn_mounts s) (sn_nextgen s) (sn_limbo s).
Definition sn_set_dls (x : gmap nat Dlo) (s : Sn) : Sn :=
  mkSn (sn_snap s) (sn_al s) (sn_blks s) (sn_out s) (sn_qgen s) (sn_snapdl s) x (sn_dlnew s) (sn_dlcache s)
    (sn_lru s) (sn_dlcount s) (sn_dlcmax s) (sn_trees s) (sn_tnew s) (sn_mounts s) (sn_nextgen s) (sn_limbo s).
Definition sn_set_dlnew (x : nat) (s : Sn) : Sn :=
  mkSn (sn_snap s) (sn_al s) (sn_blks s) (sn_out s) (sn_qgen s) (sn_snapdl s) (sn_dls s) x (sn_dlcache s)
    (sn_lru s) (sn_dlcount s) (sn_dlcmax s) (sn_trees s) (sn_tnew s) (sn_mounts s) (sn_nextgen s) (sn_limbo s).
Definition sn_set_dlcache (x : gmap Z (list nat)) (s : Sn) : Sn :=
  mkSn (sn_snap s) (sn_al s) (sn_blks s) (sn_out s) (sn_qgen s) (sn_snapdl s) (sn_dls s) (sn_dlnew s) x
    (sn_lru s) (sn_dlcount s) (sn_dlcmax s) (sn_trees s) (sn_tnew s) (sn_mounts s) (sn_nextgen s) (sn_limbo s).
Definition sn_set_lru (x : list nat) (s : Sn) : Sn :=
  mkSn (sn_snap s) (sn_al s) (sn_blks s) (sn_out s) (sn_qgen s) (sn_snapdl s) (sn_dls s) (sn_dlnew s) (sn_dlcache s)
    x (sn_dlcount s) (sn_dlcmax s) (sn_trees s) (sn_tnew s) (sn_mounts s) (sn_nextgen s) (sn_limbo s).
Definition sn_set_trees (x : gmap nat Tree) (s : Sn) : Sn :=
  mkSn (sn_snap s) (sn_al s) (sn_blks s) (sn_out s) (sn_qgen s) (sn_snapdl s) (sn_dls s) (sn_dlnew s) (sn_dlcache s)
    (sn_lru s) (sn_dlcount s) (sn_dlcmax s) x (sn_tnew s) (sn_mounts s) (sn_nextgen s) (sn_limbo s).
Definition sn_set_tnew (x : nat) (s : Sn) : Sn :=
  mkSn (sn_snap s) (sn_al s) (sn_blks s) (sn_out s) (sn_qgen s) (sn_snapdl s) (sn_dls s) (sn_dlnew s) (sn_dlcache s)
    (sn_lru s) (sn_dlcount s) (sn_dlcmax s) (sn_trees s) x (sn_mounts s) (sn_nextgen s) (sn_limbo s).
Definition sn_set_mounts (x : list Smnt) (s : Sn) : Sn :=
  mkSn (sn_snap s) (sn_al s) (sn_blks s) (sn_out s) (sn_qgen s) (sn_snapdl s) (sn_dls s) (sn_dlnew s) (sn_dlcache s)
    (sn_lru s) (sn_dlcount s) (sn_dlcmax s) (sn_trees s) (sn_tnew s) x (sn_nextgen s) (sn_limbo s).
Definition sn_set_nextgen (x : Z) (s : Sn) : Sn :=
  mkSn (sn_snap s) (sn_al s) (sn_blks s) (sn_out s) (sn_qgen s) (sn_snapdl s) (sn_dls s) (sn_dlnew s) (sn_dlcache s)
    (sn_lru s) (sn_dlcount s) (sn_dlcmax s) (sn_trees s) (sn_tnew s) (sn_mounts s) x (sn_limbo s).
Definition sn_set_limbo (x : list nat) (s : Sn) : Sn :=
  mkSn (sn_snap s) (sn_al s) (sn_blks s) (sn_out s) (sn_qgen s) (sn_snapdl s) (sn_dls s) (sn_dlnew s) (sn_dlcache s)
    (sn_lru s) (sn_dlcount s) (sn_dlcmax s) (sn_trees s) (sn_tnew s) (sn_mounts s) (sn_nextgen s) x.

(** ** Objects *)

(** [getblk]: the block as it is in memory or was written last. *)
Definition blk_at (a : Z) : M Sn Blk :=
  fun s => match sn_blks s !! a with Some b => (Ok b, s) | None => (Err Eio, s) end.
Definition put_blk (a : Z) (b : Blk) : M Sn unit := mmod (fun s => sn_set_blks (<[a := b]> (sn_blks s)) s).

(** A deadlist object; [None] is [&fs->snapdl]. *)
Definition dl_at (r : option nat) : M Sn Dlo :=
  fun s => match r with
  | None => (Ok (sn_snapdl s), s)
  | Some p => match sn_dls s !! p with Some x => (Ok x, s) | None => (Err Eoob, s) end
  end.
Definition put_dl (r : option nat) (x : Dlo) : M Sn unit :=
  match r with
  | None => mmod (sn_set_snapdl x)
  | Some p => mmod (fun s => sn_set_dls (<[p := x]> (sn_dls s)) s)
  end.

Definition emit (o : Ioop) : M Sn unit := mmod (fun s => sn_set_out (sn_out s ++ [o]) s).

(** [qput]: the generation is stamped as the entry is queued. *)
Definition queue (op : Z) (bp : Bptr) (b : option Blk) : M Sn unit :=
  assert* Z.land (bp_addr bp) (Blksz - 1) =? 0 in
  let* s := mget in emit (IoQ (mkQent (sn_qgen s) bp b op)).

(** [enqueue(b)], of the block at [a]. *)
Definition enqueue (a : Z) : M Sn Bptr :=
  let* b := blk_at a in
  assert* checkflag (b_flag b) Bdirty (Z.lor Bqueued Bstatic) in
  assert* 0 <=? bp_addr (b_bp b) in
  let* b := mlift (finalize b) in
  do* put_blk a b in
  do* queue Qwrite (b_bp b) (Some b) in
  mret (b_bp b).

(** [newblk(&fs->snap, Tdlist)] *)
Definition newdblk : M Sn Z :=
  fun s => match sa_new (sn_al s) with
  | Err e => (Err e, s)
  | Ok (a, buf, al) =>
      let b := initblk (set_buf blkz buf) a (t_memgen (tdesc (sn_snap s))) Tdlist in
      (Ok a, sn_set_blks (<[a := b]> (sn_blks s)) (sn_set_al al s))
  end.

Definition set_dirty (b : Blk) : Blk :=
  mkBlk (b_type b) (b_nval b) (b_valsz b) (b_nbuf b) (b_bufsz b) (b_logsz b) (b_logh b) (b_logp b) (b_bp b)
    (setflag (b_flag b) Bdirty 0) (b_buf b).

(** The second half of [killblk]: one more entry for the list [r]. *)
Definition add_dead (r : option nat) (bp : Bptr) : M Sn unit :=
  let* dl := dl_at r in
  let* full := match do_ins dl with
               | None => mret true
               | Some a => let* b := blk_at a in mret (Logspc - b_logsz b <? Logslop)
               end in
  do* (if (full : bool) then
         let* a := newdblk in
         let* b := blk_at a in
         do* match do_ins dl with Some a0 => do* enqueue a0 in mret tt | None => mret tt end in
         do* put_blk a (set_logp b (do_hd dl)) in
         put_dl r (do_set dl (b_bp b) (if bp_addr (do_tl dl) =? -1 then b_bp b else do_tl dl) (Some a))
       else mret tt) in
  let* dl := dl_at r in
  match do_ins dl with
  | None => merror Eoob
  | Some a =>
      let* b := blk_at a in
      let* b := mlift (logput b (bp_addr bp)) in
      put_blk a (set_dirty b)
  end.

Fixpoint killsnap (bps : list Bptr) : M Sn unit :=
  match bps with
  | [] => mret tt
  | bp :: bps' => do* add_dead None bp in killsnap bps'
  end.

(** [btupsert(&fs->snap, m, n)].  The [putdl] of [killblk] returns at once
    for [fs->snapdl], whose generation is -1.  The blocks that the rounds
    before a failing one put aside are not modelled. *)
Definition snapupsert (ms : list Msg) : M Sn unit :=
  let* s := mget in
  let* t := mcatch (mlift (tput (sn_snap s) ms))
    (fun e => do* mmod (sn_set_snap (tfail (sn_snap s) ms)) in merror e) in
  do* mmod (sn_set_snap t) in
  killsnap (skills (sn_snap s) ms).

(** ** The cache of deadlists *)

Definition dlhash (s : Sn) (gen bgen : Z) : Z :=
  Z.lxor (ihash (u64 gen)) (ihash (u64 bgen)) mod sn_dlcmax s.

Definition dlchain (s : Sn) (h : Z) : list nat := default [] (sn_dlcache s !! h).

(** The loop of [dlcacheget] and [dlcachedel]: the first object of a chain
    with these generations. *)
Fixpoint dlfind (dls : gmap nat Dlo) (ids : list nat) (gen bgen : Z) : res (option nat) :=
  match ids with
  | [] => Ok None
  | p :: ids' =>
      match dls !! p with
      | None => Err Eoob
      | Some x => if (do_gen x =? gen) && (do_bgen x =? bgen) then Ok (Some p) else dlfind dls ids' gen bgen
      end
  end.

(** The list [dlhead ... dltail] has no pointers; an object that is not on it
    has none either. *)
Definition dlcachedel (p : nat) (hdel : bool) : M Sn unit :=
  let* dl := dl_at (Some p) in
  do* (if hdel then
         let* s := mget in
         let h := dlhash s (do_gen dl) (do_bgen dl) in
         let* d := mlift (dlfind (sn_dls s) (dlchain s h) (do_gen dl) (do_bgen dl)) in
         match d with
         | Some q => mmod (sn_set_dlcache (<[h := filter (fun x => x <> q) (dlchain s h)]> (sn_dlcache s)))
         | None => mret tt
         end
       else mret tt) in
  mmod (fun s => sn_set_lru (filter (fun q => q <> p) (sn_lru s)) s).

Definition dlcacheget (gen bgen : Z) : M Sn (option nat) :=
  let* s := mget in
  let* d := mlift (dlfind (sn_dls s) (dlchain s (dlhash s gen bgen)) gen bgen) in
  match d with
  | Some p => do* dlcachedel p false in mret (Some p)
  | None => mret None
  end.

(** [bp.addr = -1] of a zeroed pointer. *)
Definition nilbp : Bptr := mkBptr (-1) 0 0.

Definition dlflush (r : option nat) : M Sn unit :=
  let* dl := dl_at r in
  match do_ins dl with
  | None => mret tt
  | Some a =>
      let* bp := enqueue a in
      let dl := do_set dl bp (if bp_addr (do_tl dl) =? bp_addr bp then bp else do_tl dl) None in
      do* put_dl r dl in
      if do_gen dl =? -1 then mret tt
      else
        let* kv := mlift (dlist2kv (to_dl dl) 512) in
        snapupsert [kvmsg Oinsert kv]
  end.

(** The handler of [getdl] frees the object, which nothing refers to. *)
Definition getdl (gen bgen : Z) : M Sn nat :=
  let* r := dlcacheget gen bgen in
  match r with
  | Some p => mret p
  | None =>
      let* s := mget in
      let* kv := mlift (tget (sn_snap s) (dlkey gen bgen) Dlkvpsz) in
      let* dl :=
        match kv with
        | Some kv => let* d := mlift (kv2dlist kv) in mret (of_dl d)
        | None =>
            let dl := mkDlo gen bgen nilbp nilbp None in
            let* kv := mlift (dlist2kv (to_dl dl) Dlkvpsz) in
            do* snapupsert [kvmsg Oinsert kv] in
            mret dl
        end in
      let* s := mget in
      let p := sn_dlnew s in
      let h := dlhash s gen bgen in
      do* mmod (fun s => sn_set_dlnew (S p) (sn_set_dls (<[p := dl]> (sn_dls s))
                 (sn_set_dlcache (<[h := p :: dlchain s h]> (sn_dlcache s)) s))) in
      mret p
  end.

(** The loop of [putdl], which evicts from the end of the list. *)
Fixpoint dlevict (fuel : nat) : M Sn unit :=
  let* s := mget in
  match last (sn_lru s) with
  | None => mret tt
  | Some dt =>
      if sn_dlcount s <? sn_dlcmax s then mret tt
      else
        match fuel with
        | O => merror Efuel
        | S fuel' =>
            do* dlflush (Some dt) in
            do* dlcachedel dt true in
            do* mmod (fun s => sn_set_dls (delete dt (sn_dls s)) s) in
            dlevict fuel'
        end
  end.

(** [None] is a null pointer. *)
Definition putdl (p : option nat) : M Sn unit :=
  match p with
  | None => merror Eoob
  | Some p =>
      let* dl := dl_at (Some p) in
      if do_gen dl =? -1 then mret tt
      else
        do* dlcachedel p false in
        let* s := mget in
        do* dlevict (length (sn_lru s)) in
        mmod (fun s => sn_set_lru (p :: sn_lru s) s)
  end.

(** ** Freeing a list *)

(** The entries of a block, queued to be freed; [n] is the number left. *)
Fixpoint free_entries (n : nat) (b : Blk) (o : Z) : M Sn unit :=
  match n with
  | O => mret tt
  | S n' =>
      let* v := mlift (rd64 (b_buf b) (data_off b + o)) in
      do* queue Qfree (mkBptr (s64 v) nohash (-1)) None in
      free_entries n' b (o + 8)
  end.

Fixpoint freedl_loop (fuel : nat) (bp : Bptr) (docontents : bool) : M Sn unit :=
  if bp_addr bp =? -1 then mret tt
  else
    match fuel with
    | O => merror Efuel
    | S fuel' =>
        let* b := blk_at (bp_addr bp) in
        do* (if docontents then free_entries (Z.to_nat (b_logsz b / 8)) b 0 else mret tt) in
        do* queue Qfree (b_bp b) None in
        freedl_loop fuel' (b_logp b) docontents
    end.

(** A chain has no more blocks than there are. *)
Definition freedl (dl : Dlo) (docontents : bool) : M Sn unit :=
  do* (if do_gen dl =? -1 then mret tt
       else let* kv := mlift (dlist2kv (to_dl dl) Kvmax) in snapupsert [kvmsg Odelete kv]) in
  let* s := mget in
  freedl_loop (size (sn_blks s)) (do_hd dl) docontents.

(** ** Merging *)

Definition clean_blk (b : Blk) : Blk :=
  mkBlk (b_type b) (b_nval b) (b_valsz b) (b_nbuf b) (b_bufsz b) (b_logsz b) (b_logh b) (b_logp b) (b_bp b)
    (setflag (b_flag b) 0 Bdirty) (b_buf b).

(** [finalize(b); syncblk(b)] of the block at [a]. *)
Definition write_now (a : Z) (b : Blk) : M Sn unit :=
  let* b := mlift (finalize b) in
  assert* checkflag (b_flag b) Bfinal 0 in
  assert* 0 <=? bp_addr (b_bp b) in
  do* put_blk a (clean_blk b) in
  emit (IoSync b).

(** [m] becomes part of [d]. *)
Definition mergeinto (d m : nat) : M Sn unit :=
  assert* negb (d =? m)%nat in
  let* dx := dl_at (Some d) in
  let* mx := dl_at (Some m) in
  do* (if bp_addr (do_hd dx) =? -1 then
         assert* negb (bool_decide (is_Some (do_ins dx))) in
         put_dl (Some d) (do_set dx (do_hd mx) (do_tl mx) (do_ins mx))
       else
         do* match do_ins mx with
             | Some a => do* enqueue a in put_dl (Some m) (do_set mx (do_hd mx) (do_tl mx) None)
             | None => mret tt
             end in
         let* b := blk_at (bp_addr (do_tl dx)) in
         assert* negb (bp_addr (do_hd dx) =? bp_addr (do_hd mx)) in
         write_now (bp_addr (do_tl dx)) (set_logp b (do_hd mx))) in
  let* dx := dl_at (Some d) in
  let* mx := dl_at (Some m) in
  let* kvm := mlift (dlist2kv (to_dl mx) Kvmax) in
  let* kvd := mlift (dlist2kv (to_dl dx) Kvmax) in
  snapupsert [kvmsg Odelete kvm; kvmsg Oinsert kvd].

(** The handler puts back [m], then [d]; either is null before its [getdl]
    has returned. *)
Definition mergedl (merge gen bgen : Z) : M Sn unit :=
  let* d := mcatch (getdl merge bgen) (fun e => do* putdl None in merror e) in
  let* m := mcatch (getdl gen bgen) (fun e => do* putdl None in merror e) in
  mcatch (do* mergeinto d m in do* putdl (Some m) in putdl (Some d))
    (fun e => do* putdl (Some m) in do* putdl (Some d) in merror e).

(** ** Reclaiming the blocks of a snapshot *)

(** The scan holds on to the nodes it entered with, so it delivers the pairs
    the tree had then. *)
Fixpoint reclaim_own (kvs : list Kvp) (succ prev : Z) : M Sn unit :=
  match kvs with
  | [] => mret tt
  | kv :: kvs' =>
      let* dl := mlift (kv2dlist kv) in
      do* (if negb (succ =? -1) && (dl_bgen dl <=? prev) then mergedl succ (dl_gen dl) (dl_bgen dl)
           else if dl_bgen dl <=? prev then mergedl prev (dl_gen dl) (dl_bgen dl)
           else freedl (of_dl dl) true) in
      reclaim_own kvs' succ prev
  end.

Fixpoint reclaim_succ (kvs : list Kvp) (prev : Z) : M Sn unit :=
  match kvs with
  | [] => mret tt
  | kv :: kvs' =>
      let* dl := mlift (kv2dlist kv) in
      do* (if prev <? dl_bgen dl then freedl (of_dl dl) true else mret tt) in
      reclaim_succ kvs' prev
  end.

Definition dlpfx (gen : Z) : list Z := [Kdlist] ++ PACK64 gen.

Definition reclaimblocks (gen succ prev : Z) : M Sn unit :=
  let* s := mget in
  let* kvs := mlift (tscan (sn_snap s) (dlpfx gen)) in
  do* reclaim_own kvs succ prev in
  if succ =? -1 then mret tt
  else
    let* s := mget in
    let* kvs := mlift (tscan (sn_snap s) (dlpfx succ)) in
    reclaim_succ kvs prev.

(** ** Synchronising and killing *)

Fixpoint dlflush_all (ps : list nat) : M Sn unit :=
  match ps with
  | [] => mret tt
  | p :: ps' => do* dlflush (Some p) in dlflush_all ps'
  end.

Definition dlsync : M Sn unit :=
  do* dlflush None in
  let* s := mget in
  dlflush_all (sn_lru s).

Definition killblk (t : Tree) (bp : Bptr) : M Sn unit :=
  if t_snap t then add_dead None bp
  else if t_base t <? bp_gen bp then
    let* p := getdl (t_memgen t) (bp_gen bp) in
    do* mcatch (add_dead (Some p) bp) (fun e => do* putdl (Some p) in merror e) in
    putdl (Some p)
  else mret tt.
End dead.
