(* ===== verification/DeadOk.v ===== *)
(** * What the deadlists hold (src/snap.c)

    The theorems about [Dead]. *)
From S2P Require Import Prelude CInt Mem Data Keys Hash Pack Blk Io Log Queue Apply Upsert Lookup Mst Kv Dead.

(** ** Lists of dead blocks

    A list is its log blocks, the newest first, each with its entries; the
    address kept as the tail; and whether a block is open for more. *)
Record Dval := mkDval { dv_segs : list (Z * list Z); dv_tl : Z; dv_open : bool }.
Definition dv_addrs (v : Dval) : list Z := (dv_segs v).*1.
Definition dv_dead (v : Dval) : list Z := concat (dv_segs v).*2.

Definition r64 (z : Z) : Prop := - 2 ^ 63 <= z < 2 ^ 63.
Definition addr_ok (a : Z) : Prop := 0 <= a < 2 ^ 63 /\ Z.land a (Blksz - 1) = 0.
Definition ents (es : list Z) : list Z := concat (PACK64 <$> es).

Record seg_ok (b : Blk) (a : Z) (es : list Z) : Prop := {
  sg_type : b_type b = Tdlist;
  sg_bp : bp_addr (b_bp b) = a /\ wf_bptr (b_bp b);
  sg_buf : zlen (b_buf b) = Blksz;
  sg_sz : b_logsz b = 8 * zlen es;
  sg_fit : b_logsz b <= Logspc;
  sg_logp : wf_bptr (b_logp b);
  sg_at : at_ (b_buf b) Loghdsz (ents es);
  sg_ents : Forall addr_ok es }.

Fixpoint dchain (bl : gmap Z Blk) (hd : Bptr) (l : list (Z * list Z)) : Prop :=
  match l with
  | [] => bp_addr hd = -1
  | (a, es) :: l' =>
      bp_addr hd = a /\ addr_ok a /\ exists b, bl !! a = Some b /\ seg_ok b a es /\ dchain bl (b_logp b) l'
  end.

Definition open_blk (b : Blk) : Prop := checkflag (b_flag b) Bdirty (Z.lor Bqueued Bstatic) = true.

(** The tail pointer is the address of the last block. *)
Definition tail_ok (v : Dval) : Prop := default (-1) (last (dv_addrs v)) = dv_tl v.

Record dmatch (bl : gmap Z Blk) (x : Dlo) (v : Dval) : Prop := {
  dm_chain : dchain bl (do_hd x) (dv_segs v);
  dm_hd : wf_bptr (do_hd x);
  dm_tl : wf_bptr (do_tl x) /\ bp_addr (do_tl x) = dv_tl v;
  dm_in : match dv_segs v with [] => dv_tl v = -1 | _ => dv_tl v ∈ dv_addrs v end;
  dm_ins : match do_ins x with
           | None => dv_open v = false
           | Some a => dv_open v = true /\ exists es r b, dv_segs v = (a, es) :: r /\ bl !! a = Some b /\ open_blk b
           end }.

Lemma zlen_ents8 es : zlen (ents es) = 8 * zlen es.
Proof.
  unfold ents. induction es as [|e es IH]; [done|]. rewrite fmap_cons, concat_cons, zlen_app, IH, zlen_cons.
  change (zlen (PACK64 e)) with 8. lia.
Qed.

Lemma ents_snoc es e : ents (es ++ [e]) = ents es ++ PACK64 e.
Proof. unfold ents. by rewrite fmap_app, concat_app, fmap_cons, concat_cons, fmap_nil, concat_nil, app_nil_r. Qed.

Lemma dchain_frame bl bl' l : forall hd,
  (forall a, a ∈ l.*1 -> bl' !! a = bl !! a) -> dchain bl hd l -> dchain bl' hd l.
Proof.
  induction l as [|[a es] l IH]; intros hd Hf; [done|]. cbn [dchain]. intros (H1 & H2 & b & H3 & H4 & H5).
  split; [done|]. split; [done|]. exists b. rewrite Hf by (cbn; left). split; [done|]. split; [done|].
  apply IH; [|done]. intros c Hc. apply Hf. cbn. by right.
Qed.

(** A block changes in place. *)
Lemma dchain_upd bl a b b' l : forall hd,
  bl !! a = Some b -> (forall es, seg_ok b a es -> seg_ok b' a es) -> b_logp b' = b_logp b ->
  dchain bl hd l -> dchain (<[a := b']> bl) hd l.
Proof.
  intros hd Hb Hs Hl. revert hd. induction l as [|[c es] l IH]; intros hd; [done|]. cbn [dchain].
  intros (H1 & H2 & x & H3 & H4 & H5). split; [done|]. split; [done|].
  destruct (decide (a = c)) as [<-|Hne].
  - exists b'. rewrite lookup_insert_eq. rewrite Hb in H3. injection H3 as <-.
    split; [done|]. split; [by apply Hs|]. rewrite Hl. by apply IH.
  - exists x. rewrite lookup_insert_ne by done. split; [done|]. split; [done|]. by apply IH.
Qed.

Lemma dchain_length bl l : forall hd, NoDup l.*1 -> dchain bl hd l -> (length l <= size bl)%nat.
Proof.
  intros hd Hn Hc. rewrite <- (length_fmap fst l). rewrite <- (size_list_to_set (C := gset Z)) by done.
  rewrite <- size_dom. apply subseteq_size. intros a Ha. apply elem_of_list_to_set in Ha.
  revert hd Hc Hn Ha. induction l as [|[c es] l IH]; intros hd Hc Hn Ha; [by apply not_elem_of_nil in Ha|].
  destruct Hc as (_ & _ & b & Hb & _ & Hc). cbn in Hn, Ha. apply NoDup_cons in Hn as [_ Hn].
  apply elem_of_cons in Ha as [-> |Ha]; [by apply elem_of_dom_2 in Hb|]. by eapply IH.
Qed.

Lemma open_dirty b : open_blk b -> open_blk (set_dirty b).
Proof.
  unfold open_blk, checkflag, set_dirty. cbn [b_flag]. rewrite !Z.eqb_eq. intros H.
  unfold setflag. change (Z.lnot 0) with (-1). rewrite Z.land_m1_r.
  rewrite Z.land_lor_distr_l, H. reflexivity.
Qed.

(** [finalize] keeps the entries of a block. *)
Lemma finalize_seg b a es :
  seg_ok b a es -> exists b', finalize b = Ok b' /\ seg_ok b' a es /\ b_logp b' = b_logp b /\
    (open_blk b -> open_blk b') /\ Z.testbit (b_flag b') 1 = true.
Proof.
  intros [Ht [Ha Hw] Hb Hs Hf Hl Hat He]. pose proof (zlen_nonneg es).
  destruct (finalize_ok b) as [b' E]; [done|lia|rewrite Ht; by apply list_elem_of_lookup_2 with 4%nat|].
  exists b'. split; [done|]. apply finalize_inv in E as (h & Eh & _ & Hz & Hfr & Eb & E1 & E2 & E3 & _).
  pose proof (zlen_header _ _ _ Eh) as Hh.
  destruct (blkhash_ok (b_buf b')) as (hh & E4 & Hr); [congruence|]. rewrite E4 in E3. injection E3 as E3.
  assert (Ef : b_flag b' = setflag (b_flag b) (Z.lor Bdirty Bfinal) 0) by by rewrite Eb.
  assert (Ep : b_logp b' = b_logp b) by by rewrite Eb.
  split; [|split; [done|split]].
  - split; rewrite ?Ep.
    + by rewrite Eb.
    + rewrite E1. split; [done|]. destruct Hw as (? & ? & ?). unfold wf_bptr. rewrite E1, E2, <- E3. done.
    + congruence.
    + rewrite Eb. done.
    + rewrite Eb. done.
    + done.
    + apply Hfr; [|done]. change Loghdsz with 36. lia.
    + done.
  - unfold open_blk, checkflag. rewrite Ef, !Z.eqb_eq. intros Ho. unfold setflag.
    change (Z.lnot 0) with (-1). rewrite Z.land_m1_r, Z.land_lor_distr_l, Ho. reflexivity.
  - rewrite Ef. unfold setflag. rewrite Z.lor_spec. change (Z.testbit (Z.lor Bdirty Bfinal) 1) with true.
    apply orb_true_r.
Qed.

(** One more entry. *)
Lemma logput_seg b a es e :
  seg_ok b a es -> Logslop <= Logspc - b_logsz b -> addr_ok e ->
  exists b', logput b e = Ok b' /\ seg_ok b' a (es ++ [e]) /\ b_logp b' = b_logp b /\ b_flag b' = b_flag b.
Proof.
  intros [Ht [Ha Hw] Hb Hs Hf Hl Hat He] Hr Hok. pose proof (zlen_nonneg es).
  change Logslop with 40 in *. change Logspc with 16348 in *.
  assert (Ed : data_off b = 36) by (unfold data_off; by rewrite Ht).
  unfold logput. rewrite Ed.
  destruct (wr_ok (b_buf b) (36 + b_logsz b) (PACK64 e)) as (buf & E & Hz);
    [lia|rewrite Hb; change (zlen (PACK64 e)) with 8; change Blksz with 16384; lia|].
  rewrite E. cbn [rbind]. eexists. split; [done|]. split; [|done].
  split; cbn [b_type b_bp b_buf b_logsz b_logp set_logsz set_buf]; try done.
  - congruence.
  - rewrite zlen_app, zlen_cons, zlen_nil. lia.
  - change Logspc with 16348. lia.
  - rewrite ents_snoc. apply at_app. split.
    + eapply wr_frame; [exact E|done|]. left. rewrite zlen_ents8. change Loghdsz with 36. lia.
    + apply wr_at in E. rewrite zlen_ents8. change Loghdsz with 36. by rewrite <- Hs.
  - apply Forall_app. split; [done|]. by apply Forall_singleton.
Qed.

Section dead.
Context {T B : Type} `{!MsgTree T} `{!SnapTree T} `{!SnapAlloc B}.
#[local] Abbreviation Sn := (@Sn T B).
#[local] Abbreviation key := (option (Z * Z)).
Implicit Types s : Sn.
Implicit Types (H : gmap key Dlo) (D : gmap key Dval).

Definition dl_err (e : err) : Prop := tree_err e \/ sa_err e.
Definition low (e : err) (s : Sn) : Prop := dl_err e.

(** The blocks that are queued to be freed. *)
Definition freed (o : Ioop) : list Z :=
  match o with IoQ e => if qe_op e =? Qfree then [bp_addr (qe_bp e)] else [] | IoSync _ => [] end.
Definition frees (l : list Ioop) : list Z := concat (freed <$> l).

Lemma frees_app l l' : frees (l ++ l') = frees l ++ frees l'.
Proof. unfold frees. by rewrite fmap_app, concat_app. Qed.

(** ** The blocks of the lists *)

Record blocks_ok s H D : Prop := {
  bk_match k v : D !! k = Some v -> exists x, H !! k = Some x /\ dmatch (sn_blks s) x v;
  bk_dom k x : H !! k = Some x -> is_Some (D !! k);
  bk_nodup k v : D !! k = Some v -> NoDup (dv_addrs v);
  bk_sep k k' v v' a : D !! k = Some v -> D !! k' = Some v' -> a ∈ dv_addrs v -> a ∈ dv_addrs v' -> k = k';
  bk_live k v a : D !! k = Some v -> a ∈ dv_addrs v -> sa_live (sn_al s) a }.

(** Everything but the blocks, the lists and the output. *)
Record fr s s' : Prop := {
  fr_qgen : sn_qgen s' = sn_qgen s;
  fr_dlnew : sn_dlnew s' = sn_dlnew s;
  fr_cache : sn_dlcache s' = sn_dlcache s;
  fr_lru : sn_lru s' = sn_lru s;
  fr_count : sn_dlcount s' = sn_dlcount s;
  fr_max : sn_dlcmax s' = sn_dlcmax s;
  fr_trees : sn_trees s' = sn_trees s;
  fr_tnew : sn_tnew s' = sn_tnew s;
  fr_mounts : sn_mounts s' = sn_mounts s;
  fr_nextgen : sn_nextgen s' = sn_nextgen s;
  fr_limbo : sn_limbo s' = sn_limbo s;
  fr_frees : frees (sn_out s') = frees (sn_out s) }.

#[export] Instance fr_pre : PreOrder fr.
Proof. split; [by split|]. intros s1 s2 s3 [] []. split; congruence. Qed.

Lemma blocks_eq s s' H D : sn_blks s' = sn_blks s -> sn_al s' = sn_al s -> blocks_ok s H D -> blocks_ok s' H D.
Proof.
  intros E1 E2 [H1 H2 H3 H4 H5]. split; rewrite ?E1, ?E2; done.
Qed.

(** The list [k] changes, in blocks that no other list has. *)
Lemma blocks_set s s' H D k x v :
  blocks_ok s H D ->
  (forall a, sa_live (sn_al s) a -> sa_live (sn_al s') a) ->
  (forall k' v0 a, k' <> k -> D !! k' = Some v0 -> a ∈ dv_addrs v0 ->
     sn_blks s' !! a = sn_blks s !! a /\ a ∉ dv_addrs v) ->
  dmatch (sn_blks s') x v -> NoDup (dv_addrs v) -> Forall (sa_live (sn_al s')) (dv_addrs v) ->
  blocks_ok s' (<[k := x]> H) (<[k := v]> D).
Proof.
  intros [H1 H2 H3 H4 H5] Hl Hfr Hm Hn Hlv. rewrite Forall_forall in Hlv. split.
  - intros k' v' Hv. apply lookup_insert_Some in Hv as [[<- <-]|[Hne Hv]].
    + exists x. by rewrite lookup_insert_eq.
    + destruct (H1 _ _ Hv) as (x' & E & [M1 M2 M3 M5 M4]). exists x'. rewrite lookup_insert_ne by done. split; [done|].
      split; [|done|done|done|].
      * eapply dchain_frame; [|exact M1]. intros a Ha. eapply Hfr; [apply not_eq_sym, Hne|exact Hv|exact Ha].
      * destruct (do_ins x') as [a|]; [|done]. destruct M4 as (Ho & es & r & b & Es & Hb & Hf). split; [done|].
        exists es, r, b. split; [done|]. split; [|done]. rewrite <- Hb. eapply Hfr; [apply not_eq_sym, Hne|exact Hv|].
        unfold dv_addrs. rewrite Es. cbn. left.
  - intros k' x' Hx. destruct (decide (k = k')) as [<-|Hne]; [by rewrite lookup_insert_eq|].
    rewrite lookup_insert_ne in Hx by done. rewrite lookup_insert_ne by done. by eapply H2.
  - intros k' v' Hv. apply lookup_insert_Some in Hv as [[<- <-]|[Hne Hv]]; [done|by eapply H3].
  - intros k1 k2 v1 v2 a E1 E2 Ha1 Ha2.
    apply lookup_insert_Some in E1 as [[<- <-]|[N1 E1]], E2 as [[<- <-]|[N2 E2]]; [done| | |by eapply H4].
    + exfalso. eapply Hfr; [apply not_eq_sym, N2|exact E2|exact Ha2|exact Ha1].
    + exfalso. eapply Hfr; [apply not_eq_sym, N1|exact E1|exact Ha1|exact Ha2].
  - intros k' v' a Hv Ha. apply lookup_insert_Some in Hv as [[<- <-]|[Hne Hv]]; [by apply Hlv|].
    apply Hl. by eapply H5.
Qed.

Lemma blocks_del s H D k : blocks_ok s H D -> blocks_ok s (delete k H) (delete k D).
Proof.
  intros [H1 H2 H3 H4 H5]. split.
  - intros k' v' [Hne Hv]%lookup_delete_Some. destruct (H1 _ _ Hv) as (x & E & M). exists x.
    by rewrite lookup_delete_ne.
  - intros k' x [Hne Hx]%lookup_delete_Some. rewrite lookup_delete_ne by done. by eapply H2.
  - intros k' v' [Hne Hv]%lookup_delete_Some. by eapply H3.
  - intros k1 k2 v1 v2 a [_ E1]%lookup_delete_Some [_ E2]%lookup_delete_Some. by eapply H4.
  - intros k' v' a [_ Hv]%lookup_delete_Some. by eapply H5.
Qed.

(** A block changes in place, with the same entries. *)
Lemma blocks_upd s s' H D a b b' :
  blocks_ok s H D -> sn_blks s !! a = Some b -> sn_blks s' = <[a := b']> (sn_blks s) -> sn_al s' = sn_al s ->
  (forall es, seg_ok b a es -> seg_ok b' a es) -> b_logp b' = b_logp b -> (open_blk b -> open_blk b') ->
  blocks_ok s' H D.
Proof.
  intros [H1 H2 H3 H4 H5] Hb Eb Ea Hs Hp Ho. split; rewrite ?Ea; try done.
  intros k v Hv. destruct (H1 _ _ Hv) as (x & E & [M1 M2 M3 M5 M4]). exists x. split; [done|]. rewrite Eb.
  split; [by eapply dchain_upd|done|done|done|].
  destruct (do_ins x) as [c|]; [|done]. destruct M4 as (Hop & es & r & b0 & Es & Hb0 & Hf). split; [done|].
  destruct (decide (a = c)) as [<-|Hne].
  - exists es, r, b'. rewrite lookup_insert_eq. rewrite Hb in Hb0. injection Hb0 as <-. auto.
  - exists es, r, b0. by rewrite lookup_insert_ne.
Qed.

(** ** Commands *)

Definition look s (r : option nat) : option Dlo :=
  match r with None => Some (sn_snapdl s) | Some p => sn_dls s !! p end.

(** Only the object [r] changed, to [x]. *)
Definition objs s s' (r : option nat) (x : Dlo) : Prop :=
  sn_snapdl s' = (match r with None => x | Some _ => sn_snapdl s end) /\
  sn_dls s' = (match r with None => sn_dls s | Some p => <[p := x]> (sn_dls s) end).

Lemma mpost_blk {C} a b (k : Blk -> M Sn C) s E Q :
  sn_blks s !! a = Some b -> mpost (k b) s E Q -> mpost (mbind (blk_at a) k) s E Q.
Proof. intros E1 Hk. unfold mpost, mbind, blk_at. rewrite E1. exact Hk. Qed.

Lemma mpost_dl {C} r x (k : Dlo -> M Sn C) s E Q :
  look s r = Some x -> mpost (k x) s E Q -> mpost (mbind (dl_at r) k) s E Q.
Proof.
  intros E1 Hk. unfold mpost, mbind, dl_at. destruct r as [p|]; cbn [look] in E1.
  - rewrite E1. exact Hk.
  - injection E1 as ->. exact Hk.
Qed.

Definition setl s (r : option nat) (x : Dlo) : Sn :=
  match r with None => sn_set_snapdl x s | Some p => sn_set_dls (<[p := x]> (sn_dls s)) s end.

Lemma mpost_putdl {C} r x (k : unit -> M Sn C) s E Q :
  mpost (k tt) (setl s r x) E Q -> mpost (mbind (put_dl r x) k) s E Q.
Proof. by destruct r. Qed.

Lemma look_setl s r x : look (setl s r x) r = Some x.
Proof. destruct r; cbn; [apply lookup_insert_eq|done]. Qed.

Lemma fr_setl s r x : fr s (setl s r x).
Proof. by destruct r; split. Qed.

Lemma objs_setl s r x : objs s (setl s r x) r x.
Proof. by destruct r; split. Qed.

Lemma objs_trans s s1 s2 r x x' : objs s s1 r x -> objs s1 s2 r x' -> objs s s2 r x'.
Proof.
  unfold objs. destruct r; intros [E1 E2] [E3 E4]; rewrite E3, E4, ?E1, ?E2; [|done]. by rewrite insert_insert_eq.
Qed.

Lemma objs_id s s' r x : look s r = Some x -> sn_dls s' = sn_dls s -> sn_snapdl s' = sn_snapdl s -> objs s s' r x.
Proof.
  unfold objs. destruct r as [p|]; cbn [look]; intros E -> ->; split; try done.
  - symmetry. by apply insert_id.
  - by injection E as <-.
Qed.

(** The result of [enqueue]: the block is final, and otherwise as it was. *)
Record enqueued s s' a b b' : Prop := {
  eq_blks : sn_blks s' = <[a := b']> (sn_blks s);
  eq_fr : fr s s';
  eq_al : sn_al s' = sn_al s;
  eq_snap : sn_snap s' = sn_snap s;
  eq_objs : sn_dls s' = sn_dls s /\ sn_snapdl s' = sn_snapdl s;
  eq_seg es : seg_ok b a es -> seg_ok b' a es;
  eq_logp : b_logp b' = b_logp b;
  eq_open : open_blk b' }.

Lemma enqueue_ok s a b es :
  sn_blks s !! a = Some b -> seg_ok b a es -> addr_ok a -> open_blk b ->
  mpost (enqueue a) s low (fun bp s' => exists b', enqueued s s' a b b' /\ bp = b_bp b').
Proof.
  intros Hb Hs [Ha1 Ha2] Ho. unfold enqueue. eapply mpost_blk; [exact Hb|].
  unfold open_blk in Ho. rewrite Ho. destruct (sg_bp _ _ _ Hs) as [Ebp _]. rewrite Ebp.
  rewrite (proj2 (Z.leb_le 0 a)) by lia.
  destruct (finalize_seg b a es Hs) as (b' & E & Hs' & Hp & Hop & _).
  eapply mpost_liftb; [exact E|]. apply mpost_mod. unfold queue.
  destruct (sg_bp _ _ _ Hs') as [Ebp' _]. rewrite Ebp', Ha2. change (0 =? 0) with true. cbv iota.
  apply mpost_mod. apply mpost_ret. exists b'. split; [|done].
  split; try done.
  - split; try done. cbn [sn_out sn_set_out]. rewrite frees_app. cbn. apply app_nil_r.
  - intros es' Hes'. destruct (finalize_seg b a es' Hes') as (b2 & E2 & Hs2 & _).
    rewrite E in E2. by injection E2 as <-.
  - by apply Hop.
Qed.

Lemma enqueued_blocks s s' a b b' H D :
  enqueued s s' a b b' -> sn_blks s !! a = Some b -> open_blk b -> blocks_ok s H D -> blocks_ok s' H D.
Proof. intros [] Hb Ho Hk. by eapply blocks_upd. Qed.

(** The head block of an open list. *)
Lemma open_head s H D k x v a :
  blocks_ok s H D -> H !! k = Some x -> D !! k = Some v -> do_ins x = Some a ->
  exists es r b, dv_segs v = (a, es) :: r /\ sn_blks s !! a = Some b /\ seg_ok b a es /\ addr_ok a /\
    open_blk b /\ dchain (sn_blks s) (b_logp b) r /\ bp_addr (do_hd x) = a.
Proof.
  intros Hk Hx Hv Hi. destruct (bk_match _ _ _ Hk _ _ Hv) as (x' & E & [M1 _ _ _ M4]).
  rewrite Hx in E. injection E as <-. rewrite Hi in M4. destruct M4 as (_ & es & r & b & Es & Hb & Ho).
  exists es, r, b. rewrite Es in M1. destruct M1 as (E1 & E2 & b' & E3 & E4 & E5). rewrite Hb in E3.
  by injection E3 as <-.
Qed.

Lemma blocks_fresh s s' H D a b :
  ~ sa_live (sn_al s) a -> sn_blks s' = <[a := b]> (sn_blks s) ->
  (forall x, sa_live (sn_al s) x -> sa_live (sn_al s') x) -> blocks_ok s H D -> blocks_ok s' H D.
Proof.
  intros Ha Eb Hl [H1 H2 H3 H4 H5].
  assert (Hne : forall k v c, D !! k = Some v -> c ∈ dv_addrs v -> sn_blks s' !! c = sn_blks s !! c).
  { intros k v c Hv Hc. rewrite Eb, lookup_insert_ne; [done|]. intros ->. apply Ha. by eapply H5. }
  split; try done; [|intros k v c Hv Hc; apply Hl; by eapply H5].
  intros k v Hv. destruct (H1 _ _ Hv) as (x & E & [M1 M2 M3 M5 M4]). exists x. split; [done|].
  split; [|done|done|done|].
  - eapply dchain_frame; [|exact M1]. intros c Hc. by eapply Hne.
  - destruct (do_ins x) as [c|]; [|done]. destruct M4 as (Ho & es & r & b0 & Es & Hb & Hf). split; [done|].
    exists es, r, b0. split; [done|]. split; [|done]. rewrite <- Hb. eapply Hne; [exact Hv|].
    unfold dv_addrs. rewrite Es. cbn. left.
Qed.

Lemma newdblk_ok s :
  tree_ok (sn_snap s) ->
  mpost newdblk s low (fun a s' => exists b, ~ sa_live (sn_al s) a /\ addr_ok a /\
    sn_blks s' = <[a := b]> (sn_blks s) /\ seg_ok b a [] /\ open_blk b /\
    (forall x, sa_live (sn_al s') x <-> sa_live (sn_al s) x \/ x = a) /\
    fr s s' /\ sn_snap s' = sn_snap s /\ sn_dls s' = sn_dls s /\ sn_snapdl s' = sn_snapdl s).
Proof.
  intros Ht. unfold newdblk, mpost. pose proof (sa_new_ok (sn_al s)) as H.
  destruct (sa_new (sn_al s)) as [[[a buf] al]|e]; cbn in H; [|by right].
  destruct H as (H1 & H2 & H3 & H4 & H5). eexists. split; [done|]. split; [done|]. split; [done|].
  split; [|split; [done|split; [done|split; [by split|done]]]].
  pose proof (tgen_ok _ Ht). split; cbn; try done.
  - split; [done|]. unfold wf_bptr. cbn. unfold nohash. lia.
  - split; [done|]. change Loghdsz with 36. change (zlen []) with 0. change Blksz with 16384 in H4.
    rewrite H4. split; [lia|done].
Qed.

(** The list of [r] has an open block with room. *)
Definition ready s s' H D (r : option nat) (k : key) (x : Dlo) (v : Dval) : Prop :=
  fr s s' /\ sn_snap s' = sn_snap s /\
  exists x1 v1 a es rest b, objs s s' r x1 /\ look s' r = Some x1 /\ do_gen x1 = do_gen x /\ do_bgen x1 = do_bgen x /\
    do_ins x1 = Some a /\ dv_segs v1 = (a, es) :: rest /\ sn_blks s' !! a = Some b /\ seg_ok b a es /\
    Logslop <= Logspc - b_logsz b /\
    blocks_ok s' (<[k := x1]> H) (<[k := v1]> D) /\ dv_dead v1 = dv_dead v /\ (tail_ok v -> tail_ok v1).

Lemma tail_cons a es v b :
  tail_ok v -> Forall addr_ok (dv_addrs v) ->
  tail_ok (mkDval ((a, es) :: dv_segs v) (if dv_tl v =? -1 then a else dv_tl v) b).
Proof.
  unfold tail_ok, dv_addrs. cbn [dv_segs dv_tl]. destruct (dv_segs v) as [|[c cs] l] eqn:E; cbn.
  - intros <- _. done.
  - intros <- Hf. fold (last (c :: l.*1)). change (match l.*1 with [] => Some c | _ => last (l.*1) end) with (last (c :: l.*1)).
    destruct (Z.eqb_spec (default (-1) (last (c :: l.*1))) (-1)) as [E1|]; [|done].
    exfalso. destruct (last (c :: l.*1)) as [z|] eqn:El; [|by apply last_None in El].
    apply last_Some in El as [l' El]. rewrite El in Hf. apply Forall_app in Hf as [_ Hf].
    apply Forall_cons in Hf as [[Hf _] _]. cbn in E1. lia.
Qed.

Lemma dchain_addrs bl l : forall hd, dchain bl hd l -> Forall addr_ok l.*1.
Proof.
  induction l as [|[a es] l IH]; intros hd; cbn; [by constructor|]. intros (_ & H & b & _ & _ & H2).
  constructor; [done|by eapply IH].
Qed.

Lemma new_ready s H D r k x v :
  look s r = Some x -> H !! k = Some x -> D !! k = Some v -> blocks_ok s H D -> tree_ok (sn_snap s) ->
  mpost (let* a := newdblk in
         let* b := blk_at a in
         do* match do_ins x with Some a0 => do* enqueue a0 in mret tt | None => mret tt end in
         do* put_blk a (set_logp b (do_hd x)) in
         put_dl r (do_set x (b_bp b) (if bp_addr (do_tl x) =? -1 then b_bp b else do_tl x) (Some a)))
    s low (fun _ s' => ready s s' H D r k x v).
Proof.
  intros Hx Hkx Hv Hk Ht. destruct (bk_match _ _ _ Hk _ _ Hv) as (x' & E & [M1 M2 M3 M5 M4]).
  rewrite Hkx in E. injection E as <-.
  eapply mpost_bind; [by apply newdblk_ok|]. cbv beta.
  intros a s1 (b & Ha & Hok & Eb & Hs & Ho & Hl & Hf & Esn & Ed & Esd).
  assert (Hk1 : blocks_ok s1 H D) by (eapply blocks_fresh; [done|done| |done]; intros z Hz; apply Hl; by left).
  eapply mpost_blk; [by rewrite Eb, lookup_insert_eq|].
  (* the old open block *)
  eapply (mpost_bind _ _ _ _ _ (fun _ s2 => fr s1 s2 /\ blocks_ok s2 H D /\ sn_al s2 = sn_al s1 /\
    sn_snap s2 = sn_snap s1 /\ sn_dls s2 = sn_dls s1 /\ sn_snapdl s2 = sn_snapdl s1)).
  { destruct (do_ins x) as [a0|] eqn:Ei; [|by apply mpost_ret].
    destruct (open_head _ _ _ _ _ _ _ Hk1 Hkx Hv Ei) as (es & rest & b0 & Es & Hb0 & Hs0 & Ha0 & Ho0 & _).
    eapply mpost_bind; [by eapply enqueue_ok|]. cbv beta. intros bp s2 (b0' & He & _). apply mpost_ret.
    pose proof (enqueued_blocks _ _ _ _ _ _ _ He Hb0 Ho0 Hk1). destruct He. by destruct eq_objs0. }
  intros _ s2 (Hf2 & Hk2 & Ea2 & Es2 & Ed2 & Esd2).
  apply mpost_mod. set (s3 := sn_set_blks (<[a := set_logp b (do_hd x)]> (sn_blks s2)) s2).
  set (x1 := do_set x (b_bp b) (if bp_addr (do_tl x) =? -1 then b_bp b else do_tl x) (Some a)).
  apply (mpost_eq _ _ _ _ tt (setl s3 r x1)); [by destruct r|].
  pose proof (fr_setl s3 r x1) as Hf3.
  assert (Hf4 : fr s s3).
  { transitivity s1; [done|]. transitivity s2; [done|]. by split. }
  destruct (sg_bp _ _ _ Hs) as [Ebp Hwbp]. pose proof (dchain_addrs _ _ _ M1) as Haddr.
  assert (Hnew : a ∉ dv_addrs v).
  { intros Hin. apply Ha. by eapply bk_live. }
  set (v1 := mkDval ((a, []) :: dv_segs v) (if dv_tl v =? -1 then a else dv_tl v) true).
  split; [by transitivity s3|]. split; [destruct r; cbn; congruence|].
  exists x1, v1, a, [], (dv_segs v), (set_logp b (do_hd x)).
  split. { eapply (objs_trans _ s3); [apply (objs_id _ _ _ x); cbn; [done|congruence..]|apply objs_setl]. }
  split; [apply look_setl|]. do 4 (split; [done|]).
  split; [destruct r; apply lookup_insert_eq|].
  split; [by destruct Hs; split|].
  split; [rewrite (sg_sz _ _ _ Hs : b_logsz (set_logp b (do_hd x)) = _); done|].
  split; [|split; [done|by intros; apply tail_cons]].
  eapply (blocks_set s2); [done|by destruct r| | | |].
  - intros k' v0 c Hne Hv0 Hc. split.
    + destruct r; cbn; rewrite lookup_insert_ne; try done; intros ->; apply Ha; by eapply (bk_live _ _ _ Hk).
    + unfold dv_addrs. cbn. rewrite not_elem_of_cons. split.
      * intros ->. apply Ha. by eapply (bk_live _ _ _ Hk).
      * intros Hc'. apply Hne. symmetry. by eapply (bk_sep _ _ _ Hk).
  - assert (Ebl : sn_blks (setl s3 r x1) = <[a := set_logp b (do_hd x)]> (sn_blks s2)) by by destruct r.
    rewrite Ebl.
    assert (M : dchain (sn_blks s2) (do_hd x) (dv_segs v)).
    { destruct (bk_match _ _ _ Hk2 _ _ Hv) as (x2 & E2 & [M _ _ _ _]). rewrite Hkx in E2. by injection E2 as <-. }
    split.
    + cbn [dv_segs v1 dchain x1 do_hd do_set]. split; [done|]. split; [done|]. exists (set_logp b (do_hd x)).
      split; [by rewrite lookup_insert_eq|]. split; [by destruct Hs; split|]. cbn [b_logp set_logp].
      eapply dchain_frame; [|exact M]. intros c Hc. rewrite lookup_insert_ne; [done|]. by intros ->.
    + done.
    + destruct M3 as [M3 M3']. cbn [x1 do_tl do_set v1 dv_tl]. rewrite M3'. by destruct (dv_tl v =? -1).
    + cbn [v1 dv_segs dv_tl]. unfold dv_addrs. cbn [v1 dv_segs fmap list_fmap fst].
      destruct (Z.eqb_spec (dv_tl v) (-1)); [left|]. destruct (dv_segs v) eqn:Ev; [done|]. right.
      unfold dv_addrs in M5. by rewrite Ev in M5.
    + cbn. split; [done|]. exists [], (dv_segs v), (set_logp b (do_hd x)). split; [done|].
      by rewrite lookup_insert_eq.
  - unfold dv_addrs. cbn. apply NoDup_cons. split; [done|by eapply bk_nodup].
  - assert (Eal : sn_al (setl s3 r x1) = sn_al s1) by (destruct r; cbn; done). rewrite Eal.
    unfold dv_addrs. cbn. constructor; [apply Hl; by right|]. apply Forall_forall. intros c Hc. apply Hl. left.
    by eapply bk_live.
Qed.

(** One more entry for an open list with room. *)
Lemma append_ok s H D r k x v a es rest b e :
  look s r = Some x -> H !! k = Some x -> D !! k = Some v -> blocks_ok s H D -> addr_ok e ->
  do_ins x = Some a -> dv_segs v = (a, es) :: rest -> sn_blks s !! a = Some b -> seg_ok b a es ->
  Logslop <= Logspc - b_logsz b ->
  mpost (let* dl := dl_at r in
         match do_ins dl with
         | None => merror Eoob
         | Some a => let* b := blk_at a in let* b := mlift (logput b e) in put_blk a (set_dirty b)
         end) s low (fun _ s' => fr s s' /\ sn_snap s' = sn_snap s /\ sn_dls s' = sn_dls s /\ sn_snapdl s' = sn_snapdl s /\
    exists v', blocks_ok s' H (<[k := v']> D) /\ dv_dead v' ≡ₚ e :: dv_dead v /\ (tail_ok v -> tail_ok v')).
Proof.
  intros Hx Hkx Hv Hk He Hi Es Hb Hs Hr. destruct (bk_match _ _ _ Hk _ _ Hv) as (x' & E & [M1 M2 M3 M5 M4]).
  rewrite Hkx in E. injection E as <-. rewrite Hi in M4.
  eapply mpost_dl; [exact Hx|]. rewrite Hi. eapply mpost_blk; [exact Hb|].
  destruct (logput_seg b a es e Hs Hr He) as (b' & Eb' & Hs' & Hp & Hfl).
  eapply mpost_liftb; [exact Eb'|].
  eapply mpost_eq; [reflexivity|]. split; [by split|]. do 3 (split; [done|]).
  exists (mkDval ((a, es ++ [e]) :: rest) (dv_tl v) true).
  assert (Ead : dv_addrs (mkDval ((a, es ++ [e]) :: rest) (dv_tl v) true) = dv_addrs v).
  { unfold dv_addrs. by rewrite Es. }
  split; [|split].
  - rewrite <- (insert_id H k x Hkx). eapply (blocks_set s); [done|done| | | |].
    + intros k' v0 c Hne Hv0 Hc. rewrite Ead.
      assert (Hc' : c ∉ dv_addrs v) by (intros Hc'; apply Hne; symmetry; by eapply (bk_sep _ _ _ Hk)).
      split; [|done]. cbn. rewrite lookup_insert_ne; [done|]. intros <-. apply Hc'. unfold dv_addrs. rewrite Es. left.
    + rewrite Es in M1. cbn [dchain] in M1. destruct M1 as (E1 & E2 & b0 & E3 & _ & E5). rewrite Hb in E3.
      injection E3 as <-. rewrite Es in M5. split; [|done|done| |].
      * cbn [dv_segs dchain]. split; [done|]. split; [done|]. exists (set_dirty b').
        cbn [sn_blks sn_set_blks]. rewrite lookup_insert_eq. split; [done|]. split; [by destruct Hs'; split|].
        cbn [b_logp set_dirty]. rewrite Hp. eapply dchain_frame; [|exact E5].
        intros c Hc. rewrite lookup_insert_ne; [done|]. intros <-.
        pose proof (bk_nodup _ _ _ Hk _ _ Hv) as Hn. unfold dv_addrs in Hn. rewrite Es in Hn.
        by apply NoDup_cons in Hn as [? _].
      * cbn [dv_segs dv_tl]. by rewrite Ead.
      * rewrite Hi. split; [done|]. exists (es ++ [e]), rest, (set_dirty b').
        cbn [sn_blks sn_set_blks]. rewrite lookup_insert_eq. split; [done|]. split; [done|]. apply open_dirty.
        destruct M4 as (_ & es1 & r1 & b1 & _ & Hb1 & Ho). rewrite Hb in Hb1. injection Hb1 as <-.
        unfold open_blk. by rewrite Hfl.
    + rewrite Ead. exact (bk_nodup _ _ _ Hk _ _ Hv).
    + rewrite Ead. apply Forall_forall. intros c Hc. exact (bk_live _ _ _ Hk _ _ _ Hv Hc).
  - unfold dv_dead. rewrite Es. cbn. rewrite <- app_assoc. cbn. by rewrite Permutation_middle.
  - unfold tail_ok. by rewrite Ead.
Qed.

Lemma add_dead_ok s H D r k x v bp :
  look s r = Some x -> H !! k = Some x -> D !! k = Some v -> blocks_ok s H D -> tree_ok (sn_snap s) ->
  addr_ok (bp_addr bp) ->
  mpost (add_dead r bp) s low (fun _ s' => fr s s' /\ sn_snap s' = sn_snap s /\
    exists x' v', objs s s' r x' /\ look s' r = Some x' /\ do_gen x' = do_gen x /\ do_bgen x' = do_bgen x /\
      is_Some (do_ins x') /\ blocks_ok s' (<[k := x']> H) (<[k := v']> D) /\
      dv_dead v' ≡ₚ bp_addr bp :: dv_dead v /\ (tail_ok v -> tail_ok v')).
Proof.
  intros Hx Hkx Hv Hk Ht He. unfold add_dead. eapply mpost_dl; [exact Hx|].
  assert (Hready : forall s', ready s s' H D r k x v ->
    mpost (let* dl := dl_at r in
         match do_ins dl with
         | None => merror Eoob
         | Some a => let* b := blk_at a in let* b := mlift (logput b (bp_addr bp)) in put_blk a (set_dirty b)
         end) s' low (fun _ s' => fr s s' /\ sn_snap s' = sn_snap s /\
    exists x' v', objs s s' r x' /\ look s' r = Some x' /\ do_gen x' = do_gen x /\ do_bgen x' = do_bgen x /\
      is_Some (do_ins x') /\ blocks_ok s' (<[k := x']> H) (<[k := v']> D) /\
      dv_dead v' ≡ₚ bp_addr bp :: dv_dead v /\ (tail_ok v -> tail_ok v'))).
  { intros s1 (Hf & Esn & x1 & v1 & a & es & rest & b & Ho & Hl & Eg & Ebg & Hi & Es & Hb & Hs & Hr & Hk1 & Ed & Htl).
    eapply mpost_mono;
      [apply (append_ok s1 (<[k := x1]> H) (<[k := v1]> D) r k x1 v1 a es rest b); rewrite ?lookup_insert_eq; done|done|].
    cbv beta. intros _ s2 (Hf2 & Esn2 & Ed2 & Esd2 & v' & Hk2 & Hd & Ht2). split; [by transitivity s1|].
    split; [congruence|]. exists x1, v'. split.
    { eapply objs_trans; [exact Ho|]. apply objs_id; [done|done|done]. }
    split; [destruct r; cbn in *; congruence|]. do 2 (split; [done|]). split; [by rewrite Hi|].
    rewrite insert_insert_eq in Hk2. split; [done|]. split; [by rewrite Hd, Ed|]. auto. }
  destruct (do_ins x) as [a|] eqn:Hi.
  - destruct (open_head _ _ _ _ _ _ _ Hk Hkx Hv Hi) as (es & rest & b & Es & Hb & Hs & _).
    apply mbind_assoc. eapply mpost_blk; [exact Hb|]. apply mpost_retb.
    destruct (Z.ltb_spec (Logspc - b_logsz b) Logslop) as [Hfull|Hroom].
    + eapply (mpost_bind _ _ _ _ _ (fun _ s1 => ready s s1 H D r k x v)); [|intros [] s1; apply Hready].
      pose proof (new_ready s H D r k x v Hx Hkx Hv Hk Ht) as Hn. rewrite Hi in Hn. exact Hn.
    + apply mpost_retb. apply Hready. split; [done|]. split; [done|].
      exists x, v, a, es, rest, b. split; [by apply objs_id|]. split; [done|]. do 2 (split; [done|]).
      split; [done|]. do 3 (split; [done|]). split; [done|].
      by rewrite !insert_id.
  - apply mpost_retb. eapply (mpost_bind _ _ _ _ _ (fun _ s1 => ready s s1 H D r k x v)); [|intros [] s1; apply Hready].
      pose proof (new_ready s H D r k x v Hx Hkx Hv Hk Ht) as Hn. rewrite Hi in Hn. exact Hn.
Qed.

(** What [btupsert] on the tree of snapshots does to the lists: it adds to
    the list of the snapshot tree itself. *)
Definition snaplist s s' H D : Prop :=
  fr s s' /\ sn_dls s' = sn_dls s /\ do_gen (sn_snapdl s') = -1 /\
  exists v, blocks_ok s' (<[None := sn_snapdl s']> H) (<[None := v]> D).

Lemma killsnap_ok bps : forall s H D v,
  H !! None = Some (sn_snapdl s) -> do_gen (sn_snapdl s) = -1 -> D !! None = Some v -> blocks_ok s H D ->
  tree_ok (sn_snap s) -> Forall (fun bp => addr_ok (bp_addr bp)) bps ->
  mpost (killsnap bps) s low (fun _ s' => sn_snap s' = sn_snap s /\ snaplist s s' H D).
Proof.
  induction bps as [|bp bps IH]; intros s H D v Hx Hg Hv Hk Ht Hb; cbn [killsnap].
  - apply mpost_ret. split; [done|]. split; [done|]. split; [done|]. split; [done|]. exists v. by rewrite !insert_id.
  - apply Forall_cons in Hb as [Hb1 Hb]. eapply mpost_bind; [by eapply (add_dead_ok s H D None None)|].
    cbv beta. intros _ s1 (Hf & Esn & x & v1 & [E1 E2] & _ & Eg & _ & _ & Hk1 & _). cbv beta iota in E1, E2.
    eapply mpost_mono;
      [eapply (IH s1 (<[None := x]> H) (<[None := v1]> D)); rewrite ?lookup_insert_eq, ?E1, ?Esn; try done; congruence|done|].
    cbv beta. intros _ s2 (Esn2 & Hf2 & Ed2 & Eg2 & v2 & Hk2). rewrite !insert_insert_eq in Hk2.
    split; [congruence|]. split; [by transitivity s1|]. split; [congruence|]. split; [done|]. by exists v2.
Qed.

Lemma snapupsert_ok s H D v ms :
  H !! None = Some (sn_snapdl s) -> do_gen (sn_snapdl s) = -1 -> D !! None = Some v -> blocks_ok s H D ->
  tree_ok (sn_snap s) ->
  (forall k, exists w, kvals (tval (sn_snap s) k) (with_key k ms) Msgmax = Ok w) ->
  mpost (snapupsert ms) s low (fun _ s' => snaplist s s' H D /\ tree_ok (sn_snap s') /\
    (forall k, kvals (tval (sn_snap s) k) (with_key k ms) Msgmax = Ok (tval (sn_snap s') k)) /\
    (forall k n, tfits (sn_snap s) k n -> Forall (msg_fits n) (with_key k ms) -> tfits (sn_snap s') k n)).
Proof.
  intros Hx Hg Hv Hk Ht Hms. unfold snapupsert. apply mpost_get.
  eapply (mpost_bind _ _ _ _ _ (fun t s' => s' = s /\ tree_ok t /\
    (forall k, kvals (tval (sn_snap s) k) (with_key k ms) Msgmax = Ok (tval t k)) /\
    (forall k n, tfits (sn_snap s) k n -> Forall (msg_fits n) (with_key k ms) -> tfits t k n))).
  { eapply (mpost_catch _ _ _ _ (fun e s' => low e s')).
    - apply mpost_lift. eapply postE_weaken; [|eapply postE_mono; [by apply tput_ok|]].
      + intros e He. by left.
      + cbv beta. intros t Hp. by split.
    - intros e s' He. by destruct (is_crash e). }
  intros t s1 (-> & Ht' & Hvals & Hfits). apply mpost_mod.
  eapply mpost_mono; [eapply (killsnap_ok _ (sn_set_snap t s) H D v); try done|done|].
  - by apply (blocks_eq s).
  - apply skills_ok.
  - cbv beta. intros _ s2 (Esn & Hf & Ed & Eg & w & Hk2). rewrite Esn. split; [|done].
    split; [|by repeat split; eauto]. transitivity (sn_set_snap t s); [by split|done].
Qed.

End dead.
