(* ===== verification/DeadTree.v ===== *)
(** * Deadlists and the tree of snapshots (src/snap.c)

    The ends of every list are stored in the tree of snapshots; the cache of
    [Dlist] objects may be ahead of it.  [ok] ties both to the lists; the
    lemmas show that [getdl], [putdl] and [mergedl] keep it. *)
From S2P Require Import Prelude CInt Mem Data Keys Hash Pack Blk Io Log Queue Apply Upsert Lookup Mst Kv Entry Dead DeadOk.

(** ** Keys and values of deadlists *)

Definition dlist_kv (g b : Z) (hd tl : Bptr) : Kvp := mkKvp (dlkey g b) (bp_bytes hd ++ bp_bytes tl).

Lemma zlen_bp24 bp : zlen (bp_bytes bp) = 24.
Proof. done. Qed.

Lemma zlen_dlkey g b : zlen (dlkey g b) = 17.
Proof. done. Qed.

Lemma kvlen_dlist g b hd tl : kvlen (dlist_kv g b hd tl) = Dlkvpsz.
Proof. done. Qed.

Lemma dlist2kv_eq d n : Dlkvpsz <= n -> dlist2kv d n = Ok (dlist_kv (dl_gen d) (dl_bgen d) (dl_hd d) (dl_tl d)).
Proof.
  intros Hn. change Dlkvpsz with 65 in Hn. unfold dlist2kv. change Dlkvpsz with 65.
  rewrite (proj2 (Z.leb_le _ _)) by lia. unfold packbp, dlist_kv.
  change (zlen ([Kdlist] ++ PACK64 (dl_gen d) ++ PACK64 (dl_bgen d))) with 17. change Ptrsz with 24.
  rewrite (proj2 (Z.leb_le 24 _)) by lia. cbn [rbind]. rewrite zlen_bp24.
  rewrite (proj2 (Z.leb_le 24 _)) by lia. done.
Qed.

Lemma kv2dlist_eq g b hd tl :
  r64 g -> r64 b -> wf_bptr hd -> wf_bptr tl -> kv2dlist (dlist_kv g b hd tl) = Ok (mkDlist g b hd tl).
Proof.
  unfold r64. intros Hg Hb Hhd Htl. unfold kv2dlist, dlist_kv. cbn [kv_k kv_v].
  rewrite (rd64_at (dlkey g b) 1 g).
  2:{ unfold dlkey. split; [lia|]. split; [done|]. reflexivity. }
  rewrite (rd64_at (dlkey g b) 9 b).
  2:{ unfold dlkey. split; [lia|]. split; [done|]. reflexivity. }
  cbn [rbind]. rewrite unpackbp_bytes; [|done|done]. cbn [rbind].
  change (drop 24 (bp_bytes hd ++ bp_bytes tl)) with (bp_bytes tl).
  pose proof (unpackbp_bytes tl [] (zlen (bp_bytes hd ++ bp_bytes tl) - Ptrsz) Htl ltac:(done)) as E.
  rewrite app_nil_r in E. rewrite E.
  cbn [rbind]. rewrite !s64_u64, !s64_small by lia. done.
Qed.

Lemma dlkey_inj g b g' b' : r64 g -> r64 b -> r64 g' -> r64 b' -> dlkey g b = dlkey g' b' -> g = g' /\ b = b'.
Proof.
  unfold r64. intros ? ? ? ? E. unfold dlkey in E. apply app_inj_1 in E as [_ E]; [|done].
  apply app_inj_1 in E as [E1 E2]; [|done]. apply PACK64_inj in E1, E2.
  apply (f_equal s64) in E1, E2. rewrite !s64_u64, !s64_small in E1, E2 by lia. done.
Qed.

Lemma kval_ins vo kv : kvlen kv <= Msgmax -> kval_step vo (kvmsg Oinsert kv) Msgmax = Ok (Some kv).
Proof. intros Hn. unfold kvmsg. rewrite kval_insert by done. by destruct kv. Qed.

Lemma kval_del w kv : kv_k w = kv_k kv -> kval_step (Some w) (kvmsg Odelete kv) Msgmax = Ok None.
Proof.
  intros E. unfold kval_step, apply, kvmsg. cbn [m_op m_k]. change (Odelete =? Odelete) with true. cbv iota.
  rewrite E, (proj2 (keycmp_eq _ _) eq_refl). done.
Qed.

(** The part of the tree of snapshots that is not about deadlists; the
    operations on deadlists leave it as it is. *)
Class Other := { ot_val : list Z -> option Kvp; ot_fits : list Z -> Z -> Prop }.

Section reclaim.
Context {T B : Type} `{!MsgTree T} `{!SnapTree T} `{!SnapAlloc B} {OT : Other}.
#[local] Abbreviation Sn := (@Sn T B).
#[local] Abbreviation key := (option (Z * Z)).
Implicit Types s : Sn.
Implicit Types (H : gmap key Dlo) (D : gmap key Dval).

(** ** The stored lists *)

Definition stored (t : T) (g b : Z) (x : Dlo) : Prop :=
  exists hd tl, tval t (dlkey g b) = Some (dlist_kv g b hd tl) /\ wf_bptr hd /\ wf_bptr tl /\
    (do_ins x = None -> hd = do_hd x /\ tl = do_tl x).

Record tree_part (t : T) H : Prop := {
  tp_ok : tree_ok t;
  tp_fits g b : r64 g -> r64 b -> tfits t (dlkey g b) Dlkvpsz;
  tp_keys k kv : tval t k = Some kv -> head k = Some Kdlist ->
    exists g b x, k = dlkey g b /\ H !! Some (g, b) = Some x;
  tp_list g b x : H !! Some (g, b) = Some x -> r64 g /\ r64 b /\ g <> -1 /\ do_gen x = g /\ do_bgen x = b;
  tp_stored g b x : H !! Some (g, b) = Some x -> stored t g b x;
  tp_other k : head k <> Some Kdlist -> tval t k = ot_val k;
  tp_ofits k n : head k <> Some Kdlist -> ot_fits k n -> tfits t k n }.

Lemma tree_none t H g b : tree_part t H -> r64 g -> r64 b -> H !! Some (g, b) = None -> tval t (dlkey g b) = None.
Proof.
  intros Ht Hg Hb Hn. destruct (tval t (dlkey g b)) as [kv|] eqn:E; [|done].
  destruct (tp_keys _ _ Ht _ _ E eq_refl) as (g' & b' & x & Ek & Hx).
  destruct (tp_list _ _ Ht _ _ _ Hx) as (? & ? & _). apply dlkey_inj in Ek as [-> ->]; try done. congruence.
Qed.

(** An upsert of messages about deadlists. *)
Lemma tree_upd t t' H H' ms :
  tree_part t H -> tree_ok t' ->
  (forall k, kvals (tval t k) (with_key k ms) Msgmax = Ok (tval t' k)) ->
  (forall k n, tfits t k n -> Forall (msg_fits n) (with_key k ms) -> tfits t' k n) ->
  Forall (fun m => exists g b, r64 g /\ r64 b /\ m_k m = dlkey g b) ms -> Forall (msg_fits Dlkvpsz) ms ->
  (forall g b, r64 g -> r64 b -> with_key (dlkey g b) ms = [] -> H' !! Some (g, b) = H !! Some (g, b)) ->
  (forall g b, r64 g -> r64 b -> with_key (dlkey g b) ms <> [] -> H' !! Some (g, b) = None -> tval t' (dlkey g b) = None) ->
  (forall g b x, H' !! Some (g, b) = Some x ->
     r64 g /\ r64 b /\ g <> -1 /\ do_gen x = g /\ do_bgen x = b /\
     (with_key (dlkey g b) ms <> [] -> stored t' g b x)) ->
  tree_part t' H'.
Proof.
  intros [H1 H2 H3 H4 H5 H6 H7] Ht Hv Hf Hms Hn Hsame Hgone Hnew. rewrite Forall_forall in Hms.
  assert (Ho : forall k, head k <> Some Kdlist -> with_key k ms = []).
  { intros k Hk. destruct (with_key k ms) as [|m l] eqn:E; [done|]. exfalso.
    assert (Hin : m ∈ with_key k ms) by (rewrite E; left). apply list_elem_of_filter in Hin as [<- Hin].
    destruct (Hms m Hin) as (g & b & _ & _ & Em). by rewrite Em in Hk. }
  split.
  - done.
  - intros g b Hg Hb. apply Hf; [by apply H2|]. apply Forall_forall. intros m Hm.
    rewrite Forall_forall in Hn. apply Hn. apply list_elem_of_filter in Hm. tauto.
  - intros k kv Hk Hh. destruct (with_key k ms) as [|m l] eqn:E.
    + specialize (Hv k). rewrite E in Hv. injection Hv as Hv. rewrite <- Hv in Hk.
      destruct (H3 _ _ Hk Hh) as (g & b & x & -> & Hx). destruct (H4 _ _ _ Hx) as (Hg & Hb & _).
      exists g, b, x. split; [done|]. by rewrite Hsame.
    + assert (Hin : m ∈ with_key k ms) by (rewrite E; left). apply list_elem_of_filter in Hin as [<- Hin].
      destruct (Hms m Hin) as (g & b & Hg & Hb & Em). rewrite Em in *. exists g, b.
      destruct (H' !! Some (g, b)) as [x|] eqn:Ex; [by exists x|]. rewrite Hgone in Hk; [done|done|done| |done].
      rewrite E. done.
  - intros g b x Hx. destruct (Hnew g b x Hx) as (? & ? & ? & ? & ? & _). done.
  - intros g b x Hx. destruct (Hnew g b x Hx) as (Hg & Hb & _ & _ & _ & Hst).
    destruct (with_key (dlkey g b) ms) as [|m l] eqn:E; [|by apply Hst].
    rewrite Hsame in Hx by done. destruct (H5 _ _ _ Hx) as (hd & tl & Ev & Hw).
    exists hd, tl. split; [|done]. specialize (Hv (dlkey g b)). rewrite E in Hv. injection Hv as <-. done.
  - intros k Hk. specialize (Hv k). rewrite Ho in Hv by done. injection Hv as <-. by apply H6.
  - intros k n Hk Hn'. apply Hf; [by apply H7|]. by rewrite Ho.
Qed.

(** ** The cache *)

Definition at_cache s (g b : Z) (o : option nat) : Prop :=
  dlfind (sn_dls s) (dlchain s (dlhash s g b)) g b = Ok o.

Record cache_part s H : Prop := {
  cp_none : H !! None = Some (sn_snapdl s) /\ do_gen (sn_snapdl s) = -1;
  cp_cached g b x : H !! Some (g, b) = Some x -> exists o, at_cache s g b o /\
    match o with Some p => sn_dls s !! p = Some x | None => do_ins x = None end;
  cp_chain h p : p ∈ dlchain s h -> is_Some (sn_dls s !! p);
  cp_new p : is_Some (sn_dls s !! p) -> (p < sn_dlnew s)%nat;
  cp_lru p : p ∈ sn_lru s -> is_Some (sn_dls s !! p);
  cp_count : sn_dlcount s < sn_dlcmax s }.

Record ok s H D : Prop := {
  ok_tree : tree_part (sn_snap s) H;
  ok_cache : cache_part s H;
  ok_blocks : blocks_ok s H D }.

(** What the operations on lists leave alone. *)
Record fr0 s s' : Prop := {
  f0_qgen : sn_qgen s' = sn_qgen s;
  f0_max : sn_dlcmax s' = sn_dlcmax s;
  f0_trees : sn_trees s' = sn_trees s;
  f0_tnew : sn_tnew s' = sn_tnew s;
  f0_mounts : sn_mounts s' = sn_mounts s;
  f0_nextgen : sn_nextgen s' = sn_nextgen s;
  f0_limbo : sn_limbo s' = sn_limbo s }.

#[export] Instance fr0_pre : PreOrder fr0.
Proof. split; [by split|]. intros s1 s2 s3 [] []. split; congruence. Qed.

Lemma fr_fr0 s s' : fr s s' -> fr0 s s'.
Proof. intros []. by split. Qed.

Lemma dlfind_some dls ids g b p : dlfind dls ids g b = Ok (Some p) ->
  p ∈ ids /\ exists x, dls !! p = Some x /\ do_gen x = g /\ do_bgen x = b.
Proof.
  induction ids as [|q ids IH]; cbn; [done|]. destruct (dls !! q) as [x|] eqn:E; [|done].
  destruct (Z.eqb_spec (do_gen x) g) as [Eg|]; cbn [andb]; [destruct (Z.eqb_spec (do_bgen x) b) as [Eb|]|].
  - intros [= <-]. split; [left|]. by exists x.
  - intros H. destruct (IH H) as [H1 H2]. split; [by right|done].
  - intros H. destruct (IH H) as [H1 H2]. split; [by right|done].
Qed.

Lemma dlfind_total dls ids g b : (forall p, p ∈ ids -> is_Some (dls !! p)) -> exists o, dlfind dls ids g b = Ok o.
Proof.
  induction ids as [|q ids IH]; intros Hs; cbn; [by eauto|].
  destruct (Hs q) as [x ->]; [left|]. destruct (_ && _); [by eauto|]. apply IH. intros p Hp. apply Hs. by right.
Qed.

(** Objects keep their generations. *)
Lemma dlfind_ext dls dls' ids g b :
  (forall p, p ∈ ids -> match dls !! p, dls' !! p with
     | Some x, Some y => do_gen y = do_gen x /\ do_bgen y = do_bgen x | None, None => True | _, _ => False end) ->
  dlfind dls' ids g b = dlfind dls ids g b.
Proof.
  induction ids as [|q ids IH]; intros Hs; cbn; [done|]. pose proof (Hs q ltac:(left)) as Hq.
  destruct (dls !! q) as [x|], (dls' !! q) as [y|]; try done. destruct Hq as [-> ->].
  destruct (_ && _); [done|]. apply IH. intros p Hp. apply Hs. by right.
Qed.

Lemma dlfind_upd (dls : gmap nat Dlo) ids g b p x y : dls !! p = Some x -> do_gen y = do_gen x -> do_bgen y = do_bgen x ->
  dlfind (<[p := y]> dls) ids g b = dlfind dls ids g b.
Proof.
  intros Hx Eg Eb. apply dlfind_ext. intros q _. destruct (decide (p = q)) as [<-|Hne].
  - by rewrite Hx, lookup_insert_eq.
  - rewrite lookup_insert_ne by done. by destruct (dls !! q).
Qed.

Lemma dlfind_new (dls : gmap nat Dlo) ids g b p y : p ∉ ids -> dlfind (<[p := y]> dls) ids g b = dlfind dls ids g b.
Proof.
  intros Hp. apply dlfind_ext. intros q Hq. rewrite lookup_insert_ne by (intros ->; done). by destruct (dls !! q).
Qed.

(** Two lists have two objects. *)
Lemma cached_key s g b p x : at_cache s g b (Some p) -> sn_dls s !! p = Some x -> do_gen x = g /\ do_bgen x = b.
Proof. intros H E. apply dlfind_some in H as (_ & y & Ey & H). congruence. Qed.

(** Fields the cache depends on. *)
Lemma cache_eq s s' H :
  sn_snapdl s' = sn_snapdl s -> sn_dls s' = sn_dls s -> sn_dlcache s' = sn_dlcache s ->
  sn_dlcmax s' = sn_dlcmax s -> sn_dlcount s' = sn_dlcount s -> sn_dlnew s' = sn_dlnew s ->
  (forall p, p ∈ sn_lru s' -> is_Some (sn_dls s !! p)) ->
  cache_part s H -> cache_part s' H.
Proof.
  intros E1 E2 E3 E4 E5 E6 Hl [H1 H2 H3 H4 H5 H6].
  assert (Ec : forall h, dlchain s' h = dlchain s h) by (intros; unfold dlchain; by rewrite E3).
  assert (Eh : forall g b, dlhash s' g b = dlhash s g b) by (intros; unfold dlhash; by rewrite E4).
  split; rewrite ?E1, ?E2, ?E4, ?E5, ?E6; try done.
  - intros g b x Hx. destruct (H2 _ _ _ Hx) as (o & Ho & Hm). exists o. unfold at_cache. by rewrite E2, Eh, Ec.
  - intros h p. rewrite Ec. apply H3.
Qed.

(** The object of a list changes, and what is said of the list with it. *)
Lemma cache_set s s' H r k x y :
  cache_part s H -> objs s s' r y -> fr s s' -> H !! k = Some x -> look s r = Some x ->
  match k with None => r = None /\ do_gen y = -1
  | Some (g, b) => (exists p, r = Some p /\ at_cache s g b (Some p)) /\ do_gen y = do_gen x /\ do_bgen y = do_bgen x end ->
  cache_part s' (<[k := y]> H).
Proof.
  intros [H1 H2 H3 H4 H5 H6] [O1 O2] Hfr Hx Hl Hk.
  destruct Hfr as [_ Fn Fc Fl Fct Fm _ _ _ _ _ _].
  assert (Ec : forall h, dlchain s' h = dlchain s h) by (intros; unfold dlchain; by rewrite Fc).
  assert (Eh : forall g b, dlhash s' g b = dlhash s g b) by (intros; unfold dlhash; by rewrite Fm).
  assert (Ed : forall p, is_Some (sn_dls s' !! p) <-> is_Some (sn_dls s !! p)).
  { intros p. rewrite O2. destruct r as [q|]; [|done]. cbn in Hl. destruct (decide (q = p)) as [<-|Hne].
    - rewrite lookup_insert_eq, Hl. done.
    - by rewrite lookup_insert_ne. }
  assert (Ef : forall ids g b, dlfind (sn_dls s') ids g b = dlfind (sn_dls s) ids g b).
  { intros ids g b. rewrite O2. destruct r as [q|]; [|done]. destruct k as [[g' b']|]; [|by destruct Hk].
    destruct Hk as (_ & Eg & Eb). by apply (dlfind_upd _ _ _ _ _ x). }
  split.
  - destruct k as [[g b]|].
    + destruct Hk as ((p & -> & _) & _). rewrite lookup_insert_ne by done. by rewrite O1.
    + destruct Hk as [-> Hy]. by rewrite lookup_insert_eq, O1.
  - intros g b z Hz. destruct (decide (k = Some (g, b))) as [->|Hne].
    + rewrite lookup_insert_eq in Hz. injection Hz as <-. destruct Hk as ((p & -> & Hc) & _). exists (Some p).
      unfold at_cache. rewrite Ef, Eh, Ec. split; [done|]. by rewrite O2, lookup_insert_eq.
    + rewrite lookup_insert_ne in Hz by done. destruct (H2 _ _ _ Hz) as (o & Ho & Hm). exists o.
      unfold at_cache. rewrite Ef, Eh, Ec. split; [done|]. destruct o as [q|]; [|done].
      rewrite O2. destruct r as [p|]; [|done]. rewrite lookup_insert_ne; [done|]. intros ->. apply Hne.
      destruct k as [[g' b']|]; [|by destruct Hk]. destruct Hk as ((p & [= <-] & Hc) & _).
      destruct (cached_key _ _ _ _ _ Hc Hm) as [<- <-]. by destruct (cached_key _ _ _ _ _ Ho Hm) as [<- <-].
  - intros h p. rewrite Ec. intros Hp. apply Ed. by eapply H3.
  - intros p Hp. rewrite Fn. apply H4. by apply Ed.
  - intros p. rewrite Fl. intros Hp. apply Ed. by apply H5.
  - by rewrite Fct, Fm.
Qed.

Lemma at_cache_set s s' r x y g b o :
  objs s s' r y -> fr s s' -> look s r = Some x -> do_gen y = do_gen x -> do_bgen y = do_bgen x ->
  at_cache s g b o -> at_cache s' g b o.
Proof.
  intros [_ O2] Hfr Hl Eg Eb. destruct Hfr as [_ _ Fc _ _ Fm _ _ _ _ _ _]. unfold at_cache, dlchain, dlhash. rewrite Fc, Fm, O2.
  destruct r as [q|]; [|done]. by rewrite (dlfind_upd _ _ _ _ _ x).
Qed.

(** ** Finding a list *)

Lemma dlcacheget_eq s g b o :
  at_cache s g b o ->
  dlcacheget g b s = (Ok o, match o with
    | Some p => sn_set_lru (filter (fun q => q <> p) (sn_lru s)) s | None => s end).
Proof.
  intros H. unfold dlcacheget, mbind, mget, mlift. unfold at_cache in H. rewrite H.
  destruct o as [p|]; [|done]. apply dlfind_some in H as (_ & x & Hx & _).
  unfold dlcachedel, mbind, dl_at. by rewrite Hx.
Qed.

(** A new object in front of its chain. *)
Definition put_new s (g b : Z) (x : Dlo) : Sn :=
  let p := sn_dlnew s in
  let h := dlhash s g b in
  sn_set_dlnew (S p) (sn_set_dls (<[p := x]> (sn_dls s))
    (sn_set_dlcache (<[h := p :: dlchain s h]> (sn_dlcache s)) s)).

Lemma put_new_find s H g b x g' b' o :
  cache_part s H -> do_gen x = g -> do_bgen x = b -> (g', b') <> (g, b) -> at_cache s g' b' o ->
  at_cache (put_new s g b x) g' b' o.
Proof.
  intros Hc Eg Eb Hne Ho. unfold at_cache in *.
  assert (Hnew : forall h, sn_dlnew s ∉ dlchain s h).
  { intros h Hin. pose proof (cp_new _ _ Hc _ (cp_chain _ _ Hc _ _ Hin)). lia. }
  unfold dlchain at 1. cbn [put_new sn_dlcache sn_set_dlnew sn_set_dls sn_set_dlcache sn_dls].
  change (dlhash (put_new s g b x) g' b') with (dlhash s g' b').
  destruct (decide (dlhash s g b = dlhash s g' b')) as [E|E].
  - rewrite E, lookup_insert_eq. cbn [default from_option id dlfind]. rewrite lookup_insert_eq, Eg, Eb.
    destruct (Z.eqb_spec g g') as [<-|]; cbn [andb]; [destruct (Z.eqb_spec b b') as [<-|]; [done|]|];
      rewrite dlfind_new by apply Hnew; done.
  - rewrite lookup_insert_ne by done. cbn [default from_option id]. rewrite dlfind_new by apply Hnew. done.
Qed.

Lemma put_new_cache s H g b x :
  cache_part s H -> do_gen x = g -> do_bgen x = b ->
  at_cache (put_new s g b x) g b (Some (sn_dlnew s)) /\ cache_part (put_new s g b x) (<[Some (g, b) := x]> H).
Proof.
  intros Hc Eg Eb.
  assert (Hfind : at_cache (put_new s g b x) g b (Some (sn_dlnew s))).
  { unfold at_cache. unfold dlchain at 1. cbn [put_new sn_dlcache sn_set_dlnew sn_set_dls sn_set_dlcache sn_dls].
    change (dlhash (put_new s g b x) g b) with (dlhash s g b). rewrite lookup_insert_eq.
    cbn [default from_option id dlfind]. rewrite lookup_insert_eq, Eg, Eb, !Z.eqb_refl. done. }
  split; [done|]. pose proof Hc as [H1 H2 H3 H4 H5 H6].
  assert (Hd : forall p, is_Some (sn_dls s !! p) -> is_Some (<[sn_dlnew s := x]> (sn_dls s) !! p)).
  { intros p Hp. destruct (decide (sn_dlnew s = p)) as [<-|]; [by rewrite lookup_insert_eq|].
    by rewrite lookup_insert_ne. }
  split; cbn [put_new sn_dls sn_set_dlnew sn_set_dls sn_set_dlcache sn_snapdl sn_lru sn_dlcount sn_dlcmax sn_dlnew].
  - by rewrite lookup_insert_ne.
  - intros g' b' y Hy. destruct (decide ((g', b') = (g, b))) as [[= -> ->]|Hne].
    + rewrite lookup_insert_eq in Hy. injection Hy as <-. exists (Some (sn_dlnew s)). split; [done|].
      apply lookup_insert_eq.
    + rewrite lookup_insert_ne in Hy by congruence. destruct (H2 _ _ _ Hy) as (o & Ho & Hm). exists o.
      split; [by eapply put_new_find|]. destruct o as [q|]; [|done]. rewrite lookup_insert_ne; [done|].
      intros <-. pose proof (H4 (sn_dlnew s) ltac:(by eexists)). lia.
  - intros h p Hp. unfold dlchain in Hp. cbn [put_new sn_dlcache sn_set_dlnew sn_set_dls sn_set_dlcache] in Hp.
    destruct (decide (dlhash s g b = h)) as [<-|Hne].
    + rewrite lookup_insert_eq in Hp. cbn in Hp. apply elem_of_cons in Hp as [-> |Hp]; [by rewrite lookup_insert_eq|].
      apply Hd. by eapply H3.
    + rewrite lookup_insert_ne in Hp by done. apply Hd. by eapply H3.
  - intros p Hp. destruct (decide (sn_dlnew s = p)) as [<-|Hne]; [lia|]. rewrite lookup_insert_ne in Hp by done.
    specialize (H4 p Hp). lia.
  - intros p Hp. apply Hd. by apply H5.
  - done.
Qed.

(** ** Storing lists *)

Lemma tree_part_ext t H H' :
  (forall g b, H' !! Some (g, b) = H !! Some (g, b)) -> tree_part t H -> tree_part t H'.
Proof.
  intros E [H1 H2 H3 H4 H5 H6 H7]. split; try done; [|intros g b x; rewrite E; eauto..].
  intros k kv Hk Hh. destruct (H3 k kv Hk Hh) as (g & b & x & Ek & Hx). exists g, b, x. by rewrite E.
Qed.

Lemma cache_del s H g b : cache_part s H -> cache_part s (delete (Some (g, b)) H).
Proof.
  intros [H1 H2 H3 H4 H5 H6]. split; try done.
  - by rewrite lookup_delete_ne.
  - intros g' b' x [_ Hx]%lookup_delete_Some. by apply H2.
Qed.

(** The state after an upsert about lists. *)
Definition upserted s s' H D : Prop :=
  fr s s' /\ sn_dls s' = sn_dls s /\
  exists H' D', ok s' H' D' /\ (forall gb, H' !! Some gb = H !! Some gb) /\ (forall gb, D' !! Some gb = D !! Some gb).

Lemma upsert_gen s Hb Db H D v ms :
  tree_ok (sn_snap s) -> cache_part s H -> blocks_ok s Hb Db -> Hb !! None = H !! None -> Db !! None = Some v ->
  (forall k, exists w, kvals (tval (sn_snap s) k) (with_key k ms) Msgmax = Ok w) ->
  (forall t', tree_ok t' -> (forall k, kvals (tval (sn_snap s) k) (with_key k ms) Msgmax = Ok (tval t' k)) ->
     (forall k n, tfits (sn_snap s) k n -> Forall (msg_fits n) (with_key k ms) -> tfits t' k n) -> tree_part t' H) ->
  mpost (snapupsert ms) s low (fun _ s' => fr s s' /\ sn_dls s' = sn_dls s /\
    exists w, blocks_ok s' (<[None := sn_snapdl s']> Hb) (<[None := w]> Db) /\
      tree_part (sn_snap s') (<[None := sn_snapdl s']> H) /\ cache_part s' (<[None := sn_snapdl s']> H)).
Proof.
  intros Ht Hc Hk Hn0 Hv Hms Hup. destruct (cp_none _ _ Hc) as [Hn Hg].
  eapply mpost_mono; [eapply (snapupsert_ok s Hb Db); try done; congruence|done|].
  cbv beta. intros _ s' ((Hf & Ed & Eg & w & Hk') & Ht' & Hvals & Hfits). split; [done|]. split; [done|].
  exists w. split; [done|]. split.
  - eapply tree_part_ext; [|by apply Hup]. intros g b. by rewrite lookup_insert_ne.
  - eapply (cache_set s s' H None None (sn_snapdl s)); done.
Qed.

Lemma upsert_raw s Hb Db H D v H0 ms :
  tree_part (sn_snap s) H0 -> cache_part s H -> blocks_ok s Hb Db -> Hb !! None = H !! None -> Db !! None = Some v ->
  (forall k, exists w, kvals (tval (sn_snap s) k) (with_key k ms) Msgmax = Ok w) ->
  (forall t', tree_ok t' -> (forall k, kvals (tval (sn_snap s) k) (with_key k ms) Msgmax = Ok (tval t' k)) ->
     (forall k n, tfits (sn_snap s) k n -> Forall (msg_fits n) (with_key k ms) -> tfits t' k n) -> tree_part t' H) ->
  mpost (snapupsert ms) s low (fun _ s' => fr s s' /\ sn_dls s' = sn_dls s /\
    exists w, blocks_ok s' (<[None := sn_snapdl s']> Hb) (<[None := w]> Db) /\
      tree_part (sn_snap s') (<[None := sn_snapdl s']> H) /\ cache_part s' (<[None := sn_snapdl s']> H)).
Proof. intros Ht Hc Hk Hn Hv Hms Hup. apply (upsert_gen s Hb Db H D v ms); try done. apply Ht. Qed.

(** An upsert of any messages, seen from the lists. *)
Lemma upsert_any s H D v ms :
  tree_ok (sn_snap s) -> cache_part s H -> blocks_ok s H D -> D !! None = Some v ->
  (forall k, exists w, kvals (tval (sn_snap s) k) (with_key k ms) Msgmax = Ok w) ->
  (forall t', tree_ok t' -> (forall k, kvals (tval (sn_snap s) k) (with_key k ms) Msgmax = Ok (tval t' k)) ->
     (forall k n, tfits (sn_snap s) k n -> Forall (msg_fits n) (with_key k ms) -> tfits t' k n) -> tree_part t' H) ->
  mpost (snapupsert ms) s low (fun _ s' => upserted s s' H D).
Proof.
  intros Ht Hc Hk Hv Hms Hup. eapply mpost_mono; [by eapply (upsert_gen s H D H D)|done|].
  cbv beta. intros _ s' (Hf & Ed & w & Hk' & Ht' & Hc'). split; [done|]. split; [done|].
  exists (<[None := sn_snapdl s']> H), (<[None := w]> D). split; [by split|].
  by split; intros gb; rewrite lookup_insert_ne.
Qed.

Lemma upsert_lists s H D v H0 ms :
  tree_part (sn_snap s) H0 -> cache_part s H -> blocks_ok s H D -> D !! None = Some v ->
  (forall k, exists w, kvals (tval (sn_snap s) k) (with_key k ms) Msgmax = Ok w) ->
  (forall t', tree_ok t' -> (forall k, kvals (tval (sn_snap s) k) (with_key k ms) Msgmax = Ok (tval t' k)) ->
     (forall k n, tfits (sn_snap s) k n -> Forall (msg_fits n) (with_key k ms) -> tfits t' k n) -> tree_part t' H) ->
  mpost (snapupsert ms) s low (fun _ s' => upserted s s' H D).
Proof. intros Ht Hc Hk Hv Hms Hup. apply (upsert_any s H D v ms); try done. apply Ht. Qed.

Lemma with_key_1 k m : with_key k [m] = if decide (m_k m = k) then [m] else [].
Proof. unfold with_key. rewrite filter_cons. by destruct (decide (m_k m = k)). Qed.

Lemma with_key_2 k m n : with_key k [m; n] = with_key k [m] ++ with_key k [n].
Proof. unfold with_key. by rewrite <- filter_app. Qed.

Lemma ins_fits g b hd tl : msg_fits Dlkvpsz (kvmsg Oinsert (dlist_kv g b hd tl)).
Proof. intros _. done. Qed.

Lemma del_fits n kv : msg_fits n (kvmsg Odelete kv).
Proof. by intros E. Qed.

Definition listed H (g b : Z) (x : Dlo) : Prop :=
  r64 g /\ r64 b /\ g <> -1 /\ do_gen x = g /\ do_bgen x = b /\ wf_bptr (do_hd x) /\ wf_bptr (do_tl x).

(** A list is stored. *)
Lemma upsert_ins s H H0 D v g b x :
  tree_part (sn_snap s) H0 -> cache_part s H -> blocks_ok s H D -> D !! None = Some v ->
  (forall gb, H !! Some gb = (<[Some (g, b) := x]> H0) !! Some gb) ->
  r64 g -> r64 b -> g <> -1 -> do_gen x = g -> do_bgen x = b -> wf_bptr (do_hd x) -> wf_bptr (do_tl x) ->
  mpost (snapupsert [kvmsg Oinsert (dlist_kv g b (do_hd x) (do_tl x))]) s low (fun _ s' => upserted s s' H D).
Proof.
  intros Ht Hc Hk Hv HH Hg Hb Hg1 Eg Eb Hhd Htl.
  assert (Hval : forall k, kvals (tval (sn_snap s) k) (with_key k [kvmsg Oinsert (dlist_kv g b (do_hd x) (do_tl x))]) Msgmax =
    Ok (if decide (dlkey g b = k) then Some (dlist_kv g b (do_hd x) (do_tl x)) else tval (sn_snap s) k)).
  { intros k. rewrite with_key_1. cbn [m_k kvmsg kv_k dlist_kv]. destruct (decide (dlkey g b = k)); [|done].
    cbn [kvals]. by rewrite kval_ins. }
  eapply upsert_lists; try done; [intros k; rewrite Hval; eauto|].
  intros t' Ht' Hv' Hf'. eapply tree_upd; try done.
  - constructor; [|constructor]. by exists g, b.
  - constructor; [apply ins_fits|constructor].
  - intros g' b' Hg' Hb' E. rewrite HH. rewrite lookup_insert_ne; [done|]. intros [= <- <-].
    rewrite with_key_1, decide_True in E; done.
  - intros g' b' Hg' Hb' E Hn. rewrite HH in Hn. rewrite with_key_1 in E. cbn [m_k kvmsg kv_k dlist_kv] in E.
    destruct (decide (dlkey g b = dlkey g' b')) as [Ek|]; [|done].
    apply dlkey_inj in Ek as [-> ->]; try done. by rewrite lookup_insert_eq in Hn.
  - intros g' b' y Hy. rewrite HH in Hy. apply lookup_insert_Some in Hy as [[[= <- <-] <-]|[Hne Hy]].
    + do 5 (split; [done|]). intros _. exists (do_hd x), (do_tl x). split; [|done].
      specialize (Hv' (dlkey g b)). rewrite Hval, decide_True in Hv' by done. by injection Hv' as <-.
    + destruct (tp_list _ _ Ht _ _ _ Hy) as (Hg' & Hb' & R). split; [done|]. split; [done|].
      do 2 (split; [apply R|]). split; [apply R|]. intros E. rewrite with_key_1 in E. cbn [m_k kvmsg kv_k dlist_kv] in E.
      destruct (decide (dlkey g b = dlkey g' b')) as [Ek|]; [|done].
      apply dlkey_inj in Ek as [-> ->]; done.
Qed.

(** A list goes away; its blocks are still there. *)
Lemma upsert_del s H D v g b x0 kv :
  ok s H D -> D !! None = Some v -> H !! Some (g, b) = Some x0 -> kv_k kv = dlkey g b ->
  mpost (snapupsert [kvmsg Odelete kv]) s low (fun _ s' => fr s s' /\ sn_dls s' = sn_dls s /\
    exists w, blocks_ok s' (<[None := sn_snapdl s']> H) (<[None := w]> D) /\
      tree_part (sn_snap s') (<[None := sn_snapdl s']> (delete (Some (g, b)) H)) /\
      cache_part s' (<[None := sn_snapdl s']> (delete (Some (g, b)) H))).
Proof.
  intros [Ht Hc Hk] Hv Hx0 Ekv. destruct (tp_list _ _ Ht _ _ _ Hx0) as (Hg & Hb & _).
  destruct (tp_stored _ _ Ht _ _ _ Hx0) as (hd & tl & Est & _).
  assert (Hval : forall k, kvals (tval (sn_snap s) k) (with_key k [kvmsg Odelete kv]) Msgmax =
    Ok (if decide (dlkey g b = k) then None else tval (sn_snap s) k)).
  { intros k. rewrite with_key_1. cbn [m_k kvmsg]. rewrite Ekv. destruct (decide (dlkey g b = k)) as [<-|]; [|done].
    cbn [kvals]. by rewrite Est, kval_del. }
  eapply (upsert_raw s H D _ D); try done; [by apply cache_del|by rewrite lookup_delete_ne|intros k; rewrite Hval; eauto|].
  intros t' Ht' Hv' Hf'. eapply tree_upd; try done.
  - constructor; [|constructor]. by exists g, b.
  - constructor; [apply del_fits|constructor].
  - intros g' b' Hg' Hb' E. rewrite lookup_delete_ne; [done|]. intros [= <- <-].
    rewrite with_key_1, decide_True in E; done.
  - intros g' b' Hg' Hb' E _. rewrite with_key_1 in E. cbn [m_k kvmsg] in E. rewrite Ekv in E.
    destruct (decide (dlkey g b = dlkey g' b')) as [Ek|]; [|done].
    specialize (Hv' (dlkey g' b')). rewrite Hval, decide_True in Hv' by done. by injection Hv' as <-.
  - intros g' b' y Hy. apply lookup_delete_Some in Hy as [Hne Hy].
    destruct (tp_list _ _ Ht _ _ _ Hy) as (Hg' & Hb' & R). split; [done|]. split; [done|].
    do 2 (split; [apply R|]). split; [apply R|]. intros E. rewrite with_key_1 in E. cbn [m_k kvmsg] in E. rewrite Ekv in E.
    destruct (decide (dlkey g b = dlkey g' b')) as [Ek|]; [|done].
    apply dlkey_inj in Ek as [-> ->]; done.
Qed.

(** One list goes away and another is stored. *)
Lemma upsert_move s H H0 D v g b x0 kv mg mb x :
  tree_part (sn_snap s) H0 -> cache_part s H -> blocks_ok s H D -> D !! None = Some v ->
  (forall gb, H !! Some gb = (<[Some (mg, mb) := x]> (delete (Some (g, b)) H0)) !! Some gb) ->
  H0 !! Some (g, b) = Some x0 -> kv_k kv = dlkey g b -> (mg, mb) <> (g, b) -> listed H mg mb x ->
  mpost (snapupsert [kvmsg Odelete kv; kvmsg Oinsert (dlist_kv mg mb (do_hd x) (do_tl x))]) s low
    (fun _ s' => upserted s s' H D).
Proof.
  intros Ht Hc Hk Hv HH Hx0 Ekv Hne (Hmg & Hmb & Hmg1 & Eg & Eb & Hhd & Htl).
  destruct (tp_list _ _ Ht _ _ _ Hx0) as (Hg & Hb & _).
  destruct (tp_stored _ _ Ht _ _ _ Hx0) as (hd & tl & Est & _).
  set (kvd := dlist_kv mg mb (do_hd x) (do_tl x)).
  assert (Hkn : dlkey g b <> dlkey mg mb).
  { intros E. apply dlkey_inj in E as [-> ->]; done. }
  assert (Hwk : forall k, with_key k [kvmsg Odelete kv; kvmsg Oinsert kvd] =
    (if decide (dlkey g b = k) then [kvmsg Odelete kv] else []) ++ (if decide (dlkey mg mb = k) then [kvmsg Oinsert kvd] else [])).
  { intros k. rewrite with_key_2, !with_key_1. cbn [m_k kvmsg]. by rewrite Ekv. }
  assert (Hval : forall k, kvals (tval (sn_snap s) k) (with_key k [kvmsg Odelete kv; kvmsg Oinsert kvd]) Msgmax =
    Ok (if decide (dlkey g b = k) then None else if decide (dlkey mg mb = k) then Some kvd else tval (sn_snap s) k)).
  { intros k. rewrite Hwk. destruct (decide (dlkey g b = k)) as [<-|].
    - rewrite decide_False by congruence. cbn [app kvals]. by rewrite Est, kval_del.
    - destruct (decide (dlkey mg mb = k)); [|done]. cbn [app kvals]. by rewrite kval_ins. }
  eapply upsert_lists; try done; [intros k; rewrite Hval; eauto|].
  intros t' Ht' Hv' Hf'. eapply tree_upd; try done.
  - constructor; [by exists g, b|]. constructor; [by exists mg, mb|constructor].
  - constructor; [apply del_fits|]. constructor; [apply ins_fits|constructor].
  - intros g' b' Hg' Hb' E. rewrite HH. rewrite Hwk in E. apply app_nil in E as [E1 E2].
    rewrite lookup_insert_ne, lookup_delete_ne; [done| |]; intros [= <- <-];
      [by rewrite decide_True in E1 by done|by rewrite decide_True in E2 by done].
  - intros g' b' Hg' Hb' E Hn. specialize (Hv' (dlkey g' b')). rewrite Hval in Hv'. rewrite HH in Hn.
    destruct (decide (dlkey g b = dlkey g' b')) as [|Hk1]; [by injection Hv' as <-|].
    rewrite Hwk, decide_False in E by done.
    destruct (decide (dlkey mg mb = dlkey g' b')) as [Ek|Hk2]; [|done].
    apply dlkey_inj in Ek as [-> ->]; try done. by rewrite lookup_insert_eq in Hn.
  - intros g' b' y Hy. rewrite HH in Hy. apply lookup_insert_Some in Hy as [[[= <- <-] <-]|[Hne1 Hy]].
    + do 5 (split; [done|]). intros _. exists (do_hd x), (do_tl x). split; [|done].
      specialize (Hv' (dlkey mg mb)). rewrite Hval, decide_False, decide_True in Hv' by done. by injection Hv' as <-.
    + apply lookup_delete_Some in Hy as [Hne2 Hy].
      destruct (tp_list _ _ Ht _ _ _ Hy) as (Hg' & Hb' & R). split; [done|]. split; [done|].
      do 2 (split; [apply R|]). split; [apply R|]. intros E. rewrite Hwk in E.
      rewrite !decide_False in E; [done| |]; intros Ek; apply dlkey_inj in Ek as [-> ->]; done.
Qed.

(** ** [getdl] *)

Definition dv0 : Dval := mkDval [] (-1) false.

(** The object of a list has been found or made. *)
Record got s s' H D (g b : Z) (p : nat) H' D' (x : Dlo) : Prop := {
  gt_ok : ok s' H' D';
  gt_x : H' !! Some (g, b) = Some x;
  gt_obj : sn_dls s' !! p = Some x;
  gt_cache : at_cache s' g b (Some p);
  gt_D gb : D' !! Some gb = (<[Some (g, b) := default dv0 (D !! Some (g, b))]> D) !! Some gb;
  gt_H gb : gb <> (g, b) -> H' !! Some gb = H !! Some gb;
  gt_fr : fr0 s s';
  gt_frees : frees (sn_out s') = frees (sn_out s);
  gt_other g' b' o : (g', b') <> (g, b) -> at_cache s g' b' o -> at_cache s' g' b' o }.

Lemma blocks_H s H H' D : (forall k, H' !! k = H !! k) -> blocks_ok s H D -> blocks_ok s H' D.
Proof. intros E. by rewrite (map_eq H' H E). Qed.

Lemma dv0_match bl g b : dmatch bl (mkDlo g b nilbp nilbp None) dv0.
Proof. split; cbn; try done. Qed.

(** The object of a list that has none yet. *)
Lemma got_new s s1 H D H1 D1 g b x :
  ok s1 H1 D1 -> at_cache s1 g b None -> H1 !! Some (g, b) = Some x -> do_gen x = g -> do_bgen x = b ->
  (forall gb, D1 !! Some gb = (<[Some (g, b) := default dv0 (D !! Some (g, b))]> D) !! Some gb) ->
  (forall gb, gb <> (g, b) -> H1 !! Some gb = H !! Some gb) ->
  fr0 s s1 -> frees (sn_out s1) = frees (sn_out s) ->
  (forall g' b' o, at_cache s g' b' o -> at_cache s1 g' b' o) ->
  got s (put_new s1 g b x) H D g b (sn_dlnew s1) H1 D1 x.
Proof.
  intros [Ht Hc Hk] Ho Hx Eg Eb HD HH Hf Hfr Hca.
  destruct (put_new_cache _ _ _ _ _ Hc Eg Eb) as [Hat Hc']. rewrite insert_id in Hc' by done.
  split; try done.
  - split; [done|done|by apply (blocks_eq s1)].
  - cbn. apply lookup_insert_eq.
  - transitivity s1; [done|by split].
  - intros g' b' o Hne Hg. eapply put_new_find; try done. by apply Hca.
Qed.

Lemma tree_wf s H D g b x : ok s H D -> H !! Some (g, b) = Some x -> listed H g b x.
Proof.
  intros [Ht _ Hk] Hx. destruct (tp_list _ _ Ht _ _ _ Hx) as (? & ? & ? & ? & ?).
  destruct (bk_dom _ _ _ Hk _ _ Hx) as [v Hv]. destruct (bk_match _ _ _ Hk _ _ Hv) as (y & E & [_ M1 [M2 _] _ _]).
  rewrite Hx in E. injection E as <-. done.
Qed.

Lemma cache_add s H g b x :
  cache_part s H -> at_cache s g b None -> do_ins x = None -> cache_part s (<[Some (g, b) := x]> H).
Proof.
  intros [H1 H2 H3 H4 H5 H6] Ho Hi. split; try done.
  - by rewrite lookup_insert_ne.
  - intros g' b' y [[[= <- <-] <-]|[Hne Hy]]%lookup_insert_Some; [by exists None|by apply H2].
Qed.

Lemma snap_list s H D : ok s H D -> exists v, D !! None = Some v.
Proof. intros [_ Hc Hk]. destruct (cp_none _ _ Hc) as [Hn _]. exact (bk_dom _ _ _ Hk _ _ Hn). Qed.

Lemma at_cache_eq s s' g b o :
  sn_dls s' = sn_dls s -> sn_dlcache s' = sn_dlcache s -> sn_dlcmax s' = sn_dlcmax s ->
  at_cache s g b o -> at_cache s' g b o.
Proof. intros E1 E2 E3. unfold at_cache, dlchain, dlhash. by rewrite E1, E2, E3. Qed.

Lemma getdl_ok s H D g b :
  ok s H D -> r64 g -> r64 b -> g <> -1 ->
  (H !! Some (g, b) = None -> at_cache s g b None) ->
  mpost (getdl g b) s low (fun p s' => exists H' D' x, got s s' H D g b p H' D' x).
Proof.
  intros [Ht Hc Hk] Hg Hb Hg1 Hnc.
  assert (Ho : exists o, at_cache s g b o) by (apply dlfind_total; intros p; apply (cp_chain _ _ Hc)).
  destruct Ho as [o Ho]. unfold getdl. eapply mpost_eqb; [by apply dlcacheget_eq|].
  destruct o as [p|].
  { (* in the cache *)
    apply mpost_ret. destruct (H !! Some (g, b)) as [x|] eqn:Hx.
    2:{ specialize (Hnc eq_refl). unfold at_cache in *. congruence. }
    destruct (cp_cached _ _ Hc _ _ _ Hx) as (o & Ho' & Hm). unfold at_cache in Ho, Ho'. rewrite Ho in Ho'.
    injection Ho' as <-. destruct (bk_dom _ _ _ Hk _ _ Hx) as [v Hv].
    exists H, D, x. split; try done.
    - split; [done| |by apply (blocks_eq s)]. apply (cache_eq s); try done. cbn. intros q Hq.
      apply list_elem_of_filter in Hq as [_ Hq]. by apply (cp_lru _ _ Hc).
    - intros gb. rewrite Hv. cbn. by rewrite insert_id. }
  apply mpost_get. eapply (mpost_bind _ _ _ _ _ (fun kv s' => s' = s /\ kv = tval (sn_snap s) (dlkey g b))).
  { apply mpost_lift. eapply postE_weaken; [|eapply postE_mono; [apply tget_ok; [apply Ht|by apply (tp_fits _ _ Ht)]|]].
    - intros e He. by left.
    - cbv beta. by intros kv ->. }
  intros kv s' [-> Ekv]. destruct (H !! Some (g, b)) as [x|] eqn:Hx.
  - (* stored *)
    destruct (tp_stored _ _ Ht _ _ _ Hx) as (hd & tl & Est & Hhd & Htl & Hin).
    destruct (tp_list _ _ Ht _ _ _ Hx) as (_ & _ & _ & Eg & Eb).
    destruct (cp_cached _ _ Hc _ _ _ Hx) as (o & Ho' & Hm). unfold at_cache in Ho, Ho'. rewrite Ho in Ho'.
    injection Ho' as <-. destruct (Hin Hm) as [-> ->]. rewrite Est in Ekv. subst kv.
    apply mbind_assoc. eapply mpost_liftb; [by apply kv2dlist_eq|]. apply mpost_retb. apply mpost_get, mpost_mod, mpost_ret.
    assert (Ex : of_dl (mkDlist g b (do_hd x) (do_tl x)) = x) by (destruct x; cbn in *; by subst).
    rewrite Ex. destruct (bk_dom _ _ _ Hk _ _ Hx) as [v Hv].
    exists H, D, x. apply (got_new s s); try done. intros gb. rewrite Hv. cbn. by rewrite insert_id.
  - (* made *)
    rewrite (tree_none _ _ _ _ Ht Hg Hb Hx) in Ekv. subst kv.
    set (x := mkDlo g b nilbp nilbp None). apply mbind_assoc.
    eapply mpost_liftb; [by apply dlist2kv_eq|]. apply mbind_assoc.
    destruct (snap_list _ _ _ (Build_ok _ _ _ Ht Hc Hk)) as [v Hv].
    assert (HD : D !! Some (g, b) = None).
    { destruct (D !! Some (g, b)) as [w|] eqn:E; [|done]. destruct (bk_match _ _ _ Hk _ _ E) as (y & Ey & _). congruence. }
    eapply mpost_bind.
    { eapply (upsert_ins s (<[Some (g, b) := x]> H) H (<[Some (g, b) := dv0]> D) v g b x); try done.
      - by apply cache_add.
      - apply (blocks_set s); try done; [|constructor].
        intros k' v0 a Hne Hv0 Ha. split; [done|]. apply not_elem_of_nil.
      - by rewrite lookup_insert_ne. }
    cbv beta. intros _ s1 (Hf & Ed & H1 & D1 & Hok & HH & HDD). apply mpost_retb, mpost_get, mpost_mod, mpost_ret.
    exists H1, D1, x. apply got_new; try done.
    + eapply at_cache_eq; [done|apply (fr_cache _ _ Hf)|apply (fr_max _ _ Hf)|done].
    + rewrite HH. apply lookup_insert_eq.
    + intros gb. by rewrite HDD, HD.
    + intros gb Hne. rewrite HH, lookup_insert_ne; [done|congruence].
    + by apply fr_fr0.
    + apply (fr_frees _ _ Hf).
    + intros g' b' o. apply at_cache_eq; [done|apply (fr_cache _ _ Hf)|apply (fr_max _ _ Hf)].
Qed.

(** ** [putdl] *)

Lemma putdl_eq s p x :
  sn_dls s !! p = Some x -> do_gen x <> -1 -> sn_dlcount s < sn_dlcmax s ->
  putdl (Some p) s = (Ok tt, sn_set_lru (p :: filter (fun q => q <> p) (sn_lru s)) s).
Proof.
  intros Hx Hg Hc. unfold putdl, mbind, dl_at. rewrite Hx. rewrite (proj2 (Z.eqb_neq _ _)) by done.
  unfold dlcachedel, mbind, dl_at. rewrite Hx. unfold mret, mmod, mget.
  set (s1 := sn_set_lru _ s).
  assert (E : dlevict (length (sn_lru s1)) s1 = (Ok tt, s1)); [|by rewrite E].
  assert (El : forall n, dlevict n s1 = (Ok tt, s1)); [|apply El].
  intros n. destruct n; cbn [dlevict]; unfold mbind, mget, mret;
    (destruct (last (sn_lru s1)); [|done]); by rewrite (proj2 (Z.ltb_lt (sn_dlcount s1) (sn_dlcmax s1))).
Qed.

Lemma ok_lru s H D l :
  ok s H D -> (forall p, p ∈ l -> is_Some (sn_dls s !! p)) -> ok (sn_set_lru l s) H D.
Proof. intros [Ht Hc Hk] Hl. split; [done|by apply (cache_eq s)|by apply (blocks_eq s)]. Qed.

(** The list goes back to the cache, whatever the caller does next. *)
Lemma mpost_put {C} s H D p x (k : unit -> M Sn C) E Q :
  ok s H D -> sn_dls s !! p = Some x -> do_gen x <> -1 ->
  (forall l, ok (sn_set_lru l s) H D -> mpost (k tt) (sn_set_lru l s) E Q) ->
  mpost (mbind (putdl (Some p)) k) s E Q.
Proof.
  intros Hok Hx Hg Hk. eapply mpost_eqb; [eapply putdl_eq; [done|done|apply Hok]|].
  apply Hk. apply ok_lru; [done|]. intros q [-> |Hq]%elem_of_cons; [by rewrite Hx|].
  apply list_elem_of_filter in Hq as [_ Hq]. by apply (cp_lru _ _ (ok_cache _ _ _ Hok)).
Qed.

(** ** Merging two lists *)

(** The blocks of a list up to the one at [a]. *)
Fixpoint upto (a : Z) (l : list (Z * list Z)) : list (Z * list Z) :=
  match l with
  | [] => []
  | x :: l' => if x.1 =? a then [x] else x :: upto a l'
  end.

(** The source is linked to the block that the tail pointer of the
    destination names: blocks after that one are lost. *)
Definition mergev (vd vm : Dval) : Dval :=
  match dv_segs vd with
  | [] => mkDval (dv_segs vm) (dv_tl vm) false
  | _ => mkDval (upto (dv_tl vd) (dv_segs vd) ++ dv_segs vm) (dv_tl vd) false
  end.

Lemma upto_split a l : a ∈ l.*1 -> exists l1 es l2, l = l1 ++ (a, es) :: l2 /\ upto a l = l1 ++ [(a, es)].
Proof.
  induction l as [|[c cs] l IH]; cbn; intros Hin; [by apply elem_of_nil in Hin|].
  destruct (Z.eqb_spec c a) as [->|Hne]; [by exists [], cs, l|].
  apply elem_of_cons in Hin as [->|Hin]; [done|]. destruct (IH Hin) as (l1 & es & l2 & -> & ->).
  by exists ((c, cs) :: l1), es, l2.
Qed.

Lemma upto_prefix a l : exists l2, l = upto a l ++ l2.
Proof.
  induction l as [|[c cs] l [l2 IH]]; [by exists []|]. cbn. destruct (c =? a); [by exists l|].
  exists l2. cbn. by rewrite <- IH.
Qed.

(** With a right tail pointer nothing is lost. *)
Lemma upto_tail v : NoDup (dv_addrs v) -> dv_segs v <> [] -> tail_ok v -> upto (dv_tl v) (dv_segs v) = dv_segs v.
Proof.
  unfold tail_ok, dv_addrs. intros Hn Hne Ht. destruct (exists_last Hne) as (l & [a es] & E). rewrite E in *.
  rewrite fmap_app in Ht. change ([(a, es)].*1) with [a] in Ht. rewrite last_snoc in Ht. cbn in Ht. subst a.
  clear Hne E. induction l as [|[c cs] l IH]; cbn; [by rewrite Z.eqb_refl|].
  cbn in Hn. apply NoDup_cons in Hn as [Hn1 Hn]. rewrite fmap_app in Hn1.
  rewrite (proj2 (Z.eqb_neq _ _)); [by rewrite IH|]. intros ->. apply Hn1, elem_of_app. right. left.
Qed.

(** Two lists have become one, in the list [(mg, b)]. *)
Record moved s s' H D (g mg b : Z) H' D' (v : Dval) : Prop := {
  mv_ok : ok s' H' D';
  mv_D gb : D' !! Some gb = (<[Some (mg, b) := v]> (delete (Some (g, b)) D)) !! Some gb;
  mv_H gb : gb <> (g, b) -> gb <> (mg, b) -> H' !! Some gb = H !! Some gb;
  mv_fr : fr0 s s';
  mv_frees : frees (sn_out s') = frees (sn_out s);
  mv_cache g' b' o : at_cache s g' b' o -> at_cache s' g' b' o }.

(** The two entries of the tree are brought up to date. *)
Lemma merge_store s0 s H D1 H0 D0 g mg b mx x v :
  tree_part (sn_snap s) H0 -> cache_part s (<[Some (mg, b) := x]> (delete (Some (g, b)) H0)) ->
  blocks_ok s (<[Some (mg, b) := x]> (delete (Some (g, b)) H0)) D1 ->
  H = <[Some (mg, b) := x]> (delete (Some (g, b)) H0) ->
  (forall gb, D1 !! Some gb = (<[Some (mg, b) := v]> (delete (Some (g, b)) D0)) !! Some gb) ->
  fr0 s0 s -> frees (sn_out s) = frees (sn_out s0) ->
  (forall g' b' o, at_cache s0 g' b' o -> at_cache s g' b' o) ->
  H0 !! Some (g, b) = Some mx -> mg <> g -> listed H mg b x ->
  mpost (snapupsert [kvmsg Odelete (dlist_kv g b (do_hd mx) (do_tl mx)); kvmsg Oinsert (dlist_kv mg b (do_hd x) (do_tl x))])
    s low (fun _ s' => exists H' D', moved s0 s' H0 D0 g mg b H' D' v /\ sn_dls s' = sn_dls s).
Proof.
  intros Ht Hc Hk -> HD Hf Hfr Hca Hm Hne Hl.
  assert (Hv : exists w, D1 !! None = Some w).
  { destruct (cp_none _ _ Hc) as [Hn _]. exact (bk_dom _ _ _ Hk _ _ Hn). }
  destruct Hv as [w Hv].
  eapply mpost_mono; [eapply (upsert_move s _ H0 D1 w g b mx _ mg b x); try done|done|].
  { by intros [= ->]. }
  cbv beta. intros _ s' (Hf' & Ed & H' & D' & Hok & HH & HDD). exists H', D'. split; [|done].
  split; [done| | | | |].
  - intros gb. by rewrite HDD.
  - intros gb N1 N2. rewrite HH, lookup_insert_ne, lookup_delete_ne; [done|congruence|congruence].
  - transitivity s; [done|by apply fr_fr0].
  - rewrite (fr_frees _ _ Hf'). done.
  - intros g' b' o Ho. eapply at_cache_eq; [done|apply (fr_cache _ _ Hf')|apply (fr_max _ _ Hf')|by apply Hca].
Qed.

Lemma dchain_link bl a es b b' l3 l2 l : forall hd,
  dchain bl hd (l ++ (a, es) :: l3) -> bl !! a = Some b -> (forall es, seg_ok b a es -> seg_ok b' a es) ->
  NoDup (l ++ (a, es) :: l3).*1 -> a ∉ l2.*1 -> dchain bl (b_logp b') l2 ->
  dchain (<[a := b']> bl) hd ((l ++ [(a, es)]) ++ l2).
Proof.
  induction l as [|[c cs] l IH]; intros hd Hc Hb Hs Hn H2 Hl2; cbn [app dchain] in *.
  - destruct Hc as (H3 & H4 & b0 & H5 & H6 & _). rewrite Hb in H5. injection H5 as <-.
    split; [done|]. split; [done|]. exists b'. rewrite lookup_insert_eq. split; [done|]. split; [by apply Hs|].
    eapply dchain_frame; [|done]. intros x Hx. rewrite lookup_insert_ne; [done|]. by intros ->.
  - destruct Hc as (H3 & H4 & b0 & H5 & H6 & H7). split; [done|]. split; [done|]. exists b0.
    cbn in Hn. apply NoDup_cons in Hn as [Hn1 Hn]. rewrite lookup_insert_ne.
    2:{ intros ->. apply Hn1. rewrite fmap_app. apply elem_of_app. right. left. }
    split; [done|]. split; [done|]. by apply IH.
Qed.

Lemma seg_logp b a es hd : seg_ok b a es -> wf_bptr hd -> seg_ok (set_logp b hd) a es.
Proof. intros [] Hw. by split. Qed.

Lemma mergev_addrs vd vm : dv_addrs (mergev vd vm) ⊆+ dv_addrs vd ++ dv_addrs vm.
Proof.
  unfold mergev, dv_addrs. destruct (dv_segs vd) as [|x l]; [done|]. cbn [dv_segs].
  destruct (upto_prefix (dv_tl vd) (x :: l)) as [l2 E]. rewrite E at 2. rewrite !fmap_app.
  apply submseteq_app; [|done]. apply submseteq_inserts_r. done.
Qed.

Lemma mergev_dead vd vm : NoDup (dv_addrs vd) -> (dv_segs vd <> [] -> tail_ok vd) ->
  dv_dead (mergev vd vm) = dv_dead vd ++ dv_dead vm.
Proof.
  intros Hn Ht. unfold mergev, dv_dead. pose proof (upto_tail vd Hn) as Hu. destruct (dv_segs vd) as [|x l]; [done|].
  cbn [dv_segs]. rewrite Hu by auto. by rewrite fmap_app, concat_app.
Qed.

(** Rearranged lists, in the same blocks. *)
Lemma blocks_merge s s' H D g mg b x v vd vm :
  blocks_ok s H D -> D !! Some (mg, b) = Some vd -> D !! Some (g, b) = Some vm -> mg <> g ->
  dv_addrs v ⊆+ dv_addrs vd ++ dv_addrs vm -> sn_al s' = sn_al s ->
  (forall a, (a ∉ dv_addrs vd) -> sn_blks s' !! a = sn_blks s !! a) -> dmatch (sn_blks s') x v ->
  blocks_ok s' (<[Some (mg, b) := x]> (delete (Some (g, b)) H)) (<[Some (mg, b) := v]> (delete (Some (g, b)) D)).
Proof.
  intros Hk Hd Hm Hne HP Ha Hb Hx.
  assert (Hno : forall k' v0 a, D !! k' = Some v0 -> k' <> Some (mg, b) -> k' <> Some (g, b) -> a ∈ dv_addrs v0 ->
    (a ∉ dv_addrs vd) /\ (a ∉ dv_addrs vm)).
  { intros k' v0 a Hv0 N1 N2 Hin. split; intros Hin'; [apply N1; exact (bk_sep _ _ _ Hk _ _ _ _ _ Hv0 Hd Hin Hin')|
      apply N2; exact (bk_sep _ _ _ Hk _ _ _ _ _ Hv0 Hm Hin Hin')]. }
  apply (blocks_set s); try done.
  - by apply blocks_del.
  - intros a. by rewrite Ha.
  - intros k' v0 a N1 [N2 Hv0]%lookup_delete_Some Hin. destruct (Hno k' v0 a) as [N3 N4]; try done.
    split; [by apply Hb|]. intros Hin'. apply (elem_of_submseteq _ _ _ Hin'), elem_of_app in HP. tauto.
  - assert (Hn : NoDup (dv_addrs vd ++ dv_addrs vm)).
    2:{ apply submseteq_Permutation in HP as [l HP]. rewrite HP in Hn. by apply NoDup_app in Hn as (? & _). }
    apply NoDup_app. split; [exact (bk_nodup _ _ _ Hk _ _ Hd)|].
    split; [|exact (bk_nodup _ _ _ Hk _ _ Hm)]. intros a H1 H2.
    pose proof (bk_sep _ _ _ Hk _ _ _ _ _ Hd Hm H1 H2) as E. by injection E.
  - rewrite Ha. apply Forall_forall. intros a Hin'. apply (elem_of_submseteq _ _ _ Hin'), elem_of_app in HP as [Hin|Hin];
      [exact (bk_live _ _ _ Hk _ _ _ Hd Hin)|exact (bk_live _ _ _ Hk _ _ _ Hm Hin)].
Qed.

Lemma dchain_mid bl a es l3 l : forall hd, dchain bl hd (l ++ (a, es) :: l3) ->
  exists b, bl !! a = Some b /\ seg_ok b a es /\ addr_ok a.
Proof.
  induction l as [|[c cs] l IH]; intros hd; cbn [app dchain]; intros (H3 & H4 & b & H5 & H6 & H7); [by exists b|].
  by eapply IH.
Qed.

Lemma check_final b : Z.testbit (b_flag b) 1 = true -> checkflag (b_flag b) Bfinal 0 = true.
Proof.
  intros Hb. unfold checkflag. apply Z.eqb_eq. change (Z.lor Bfinal 0) with (2 ^ 1). change Bfinal with (2 ^ 1).
  apply Z.bits_inj'. intros n Hn. rewrite Z.land_spec. destruct (Z.eq_dec n 1) as [->|Hne].
  - by rewrite Hb.
  - rewrite Z.pow2_bits_false by lia. apply andb_false_r.
Qed.

Lemma mergeinto_ok s H D d m g mg b dx mx vd vm :
  ok s H D -> sn_dls s !! d = Some dx -> sn_dls s !! m = Some mx ->
  at_cache s mg b (Some d) -> at_cache s g b (Some m) ->
  H !! Some (mg, b) = Some dx -> H !! Some (g, b) = Some mx ->
  D !! Some (mg, b) = Some vd -> D !! Some (g, b) = Some vm -> dv_open vd = false -> dv_open vm = false ->
  mg <> g ->
  mpost (mergeinto d m) s low (fun _ s' => exists H' D' x', moved s s' H D g mg b H' D' (mergev vd vm) /\
    sn_dls s' !! m = Some mx /\ sn_dls s' !! d = Some x' /\ do_gen x' = mg).
Proof.
  intros Hok Hdx Hmx Hcd Hcm Hd Hm Hvd Hvm Hod Hom Hne.
  pose proof Hok as [Ht Hc Hk].
  assert (Hdm : d <> m).
  { intros ->. rewrite Hdx in Hmx. injection Hmx as <-.
    destruct (cached_key _ _ _ _ _ Hcd Hdx) as [E1 _], (cached_key _ _ _ _ _ Hcm Hdx) as [E2 _]. congruence. }
  assert (Hmd : forall k x v, H !! k = Some x -> D !! k = Some v -> dmatch (sn_blks s) x v).
  { intros k x v Hx Hv. destruct (bk_match _ _ _ Hk _ _ Hv) as (x' & E & Mx). rewrite Hx in E. by injection E as <-. }
  pose proof (Hmd _ _ _ Hd Hvd) as [D1 D2 [D3 D3'] D5 D4].
  pose proof (Hmd _ _ _ Hm Hvm) as [M1 M2 [M3 M3'] M5 M4].
  assert (Hid : do_ins dx = None) by (destruct (do_ins dx); [destruct D4; congruence|done]).
  assert (Him : do_ins mx = None) by (destruct (do_ins mx); [destruct M4; congruence|done]).
  pose proof (tree_wf _ _ _ _ _ _ Hok Hd) as Ld. pose proof (tree_wf _ _ _ _ _ _ Hok Hm) as Lm.
  destruct Ld as (L1 & L2 & L3 & L4 & L5 & _). destruct Lm as (L6 & _ & L7 & L8 & L9 & _).
  unfold mergeinto. rewrite (proj2 (Nat.eqb_neq d m)) by done. cbn [negb].
  eapply mpost_dl; [exact Hdx|]. eapply mpost_dl; [exact Hmx|].
  set (H1 x := <[Some (mg, b) := x]> (delete (Some (g, b)) H)).
  set (D1' v := <[Some (mg, b) := v]> (delete (Some (g, b)) D)).
  (* what is left to do once the blocks are linked *)
  assert (Hrest : forall s1 x, fr s s1 -> sn_snap s1 = sn_snap s ->
    blocks_ok s1 (H1 x) (D1' (mergev vd vm)) -> objs s s1 (Some d) x -> do_gen x = mg -> do_bgen x = b ->
    wf_bptr (do_hd x) -> wf_bptr (do_tl x) ->
    mpost (let* dx := dl_at (Some d) in let* mx := dl_at (Some m) in
           let* kvm := mlift (dlist2kv (to_dl mx) Kvmax) in let* kvd := mlift (dlist2kv (to_dl dx) Kvmax) in
           snapupsert [kvmsg Odelete kvm; kvmsg Oinsert kvd]) s1 low
      (fun _ s' => exists H' D' x', moved s s' H D g mg b H' D' (mergev vd vm) /\
         sn_dls s' !! m = Some mx /\ sn_dls s' !! d = Some x' /\ do_gen x' = mg)).
  { intros s1 x Hf Esn Hk1 Ho Eg Eb Hw1 Hw2. pose proof Ho as [_ Ho'].
    eapply (mpost_dl (Some d) x); [cbn; by rewrite Ho', lookup_insert_eq|].
    eapply (mpost_dl (Some m) mx); [cbn; rewrite Ho', lookup_insert_ne; done|].
    eapply mpost_liftb; [by apply dlist2kv_eq|]. eapply mpost_liftb; [by apply dlist2kv_eq|].
    cbn [to_dl dl_gen dl_bgen dl_hd dl_tl]. rewrite L8, L9, Eg, Eb.
    eapply mpost_mono; [eapply (merge_store s s1 (H1 x) (D1' (mergev vd vm)) H D); try done|done|].
    - by rewrite Esn.
    - unfold H1. rewrite <- delete_insert_ne by (intros [= ->]; done). apply cache_del.
      eapply (cache_set s s1 H (Some d) _ dx x); try done.
      split; [by exists d|]. by rewrite L4, L5.
    - by apply fr_fr0.
    - apply (fr_frees _ _ Hf).
    - intros g' b' o. apply (at_cache_set s s1 (Some d) dx x); try done; congruence.
    - cbv beta. intros _ s' (H' & D' & Hmv & Ed). exists H', D', x. split; [done|]. rewrite Ed, Ho'.
      rewrite lookup_insert_eq, lookup_insert_ne by done. done. }
  destruct (dv_segs vd) as [|[c0 cs0] l0] eqn:Esd.
  - (* nothing in the destination: the list moves over *)
    cbn [dchain] in D1. rewrite D1. change (-1 =? -1) with true. cbv iota. rewrite Hid.
    cbn [bool_decide negb]. rewrite bool_decide_eq_false_2 by (by intros [? ?]). cbn [negb].
    apply mpost_putdl. apply (Hrest _ (do_set dx (do_hd mx) (do_tl mx) (do_ins mx))); try done.
    + eapply blocks_merge; try done; [apply mergev_addrs|]. unfold mergev. rewrite Esd. cbn.
      split; cbn; try done. by rewrite Him.
  - (* the tail of the destination is linked to the source *)
    pose proof D1 as (D1a & D1b & D1c). rewrite D1a. rewrite (proj2 (Z.eqb_neq c0 (-1))) by (destruct D1b; lia).
    rewrite Him. apply mbind_assoc, mpost_retb, mbind_assoc.
    unfold dv_addrs in D5. rewrite Esd in D5. destruct (upto_split _ _ D5) as (l & es & l3 & El & Eu).
    set (a := dv_tl vd) in *. rewrite <- Esd in El, Eu. rewrite <- Esd, El in D1.
    destruct (dchain_mid _ _ _ _ _ _ D1) as (bk & Hbk & Hseg & Ha).
    assert (Ea : bp_addr (do_tl dx) = a) by done.
    rewrite Ea. eapply mpost_blk; [exact Hbk|].
    assert (Hhd : c0 <> bp_addr (do_hd mx)).
    { intros E. destruct (dv_segs vm) as [|[c1 cs1] l1] eqn:Evm; cbn [dchain] in M1.
      - destruct D1b. lia.
      - destruct M1 as (E1 & _). assert (Hin : Some (mg, b) = Some (g, b)); [|by injection Hin].
        apply (bk_sep _ _ _ Hk _ _ _ _ c0 Hvd Hvm); unfold dv_addrs; rewrite ?Esd, ?Evm, ?E, ?E1; cbn; left. }
    rewrite (proj2 (Z.eqb_neq c0 _)) by done. cbn [negb].
    destruct (finalize_seg (set_logp bk (do_hd mx)) a es (seg_logp _ _ _ _ Hseg M2)) as (b' & Eb' & Hs' & Hp & _ & Hfin).
    unfold write_now. apply mbind_assoc. eapply mpost_liftb; [exact Eb'|].
    destruct (sg_bp _ _ _ Hs') as [Ebp _]. rewrite Ebp.
    rewrite (proj2 (Z.leb_le 0 a)) by (destruct Ha; lia). rewrite check_final by done.
    apply mbind_assoc, mpost_mod, mpost_mod. cbn [sn_out sn_set_blks].
    apply (Hrest _ dx); try done.
    + split; try done. cbn [sn_out sn_set_out]. rewrite frees_app. cbn. apply app_nil_r.
    + eapply (blocks_merge s); try done; [apply mergev_addrs| |].
      * intros c Hc'. cbn. rewrite lookup_insert_ne; [done|]. intros <-. apply Hc'. unfold dv_addrs.
        rewrite El, fmap_app. apply elem_of_app. right. left.
      * assert (Emv : mergev vd vm = mkDval ((l ++ [(a, es)]) ++ dv_segs vm) (dv_tl vd) false).
        { unfold mergev. rewrite <- Eu. by rewrite Esd. }
        rewrite Emv. split; [|done|done| |by rewrite Hid]; cbn [dv_segs].
        2:{ destruct ((l ++ [(a, es)]) ++ dv_segs vm) eqn:Enil; [by destruct l|]. rewrite <- Enil.
            unfold dv_addrs. cbn [dv_segs dv_tl]. rewrite !fmap_app, !elem_of_app. left. right. left. }
        eapply (dchain_link _ _ _ bk); try done.
        -- intros es' Hes'. destruct (finalize_seg _ a es' (seg_logp _ _ _ _ Hes' M2)) as (b2 & E2 & Hs2 & _).
           rewrite Eb' in E2. injection E2 as <-. by destruct Hs2.
        -- rewrite <- El. exact (bk_nodup _ _ _ Hk _ _ Hvd).
        -- intros Hin. assert (E : Some (mg, b) = Some (g, b)); [|by injection E].
           apply (bk_sep _ _ _ Hk _ _ _ _ a Hvd Hvm); [|done]. unfold dv_addrs. rewrite El, fmap_app.
           apply elem_of_app. right. left.
        -- cbn [clean_blk b_logp]. by rewrite Hp.
    + by apply objs_id.
Qed.

(** ** Errors on the way

    The handler of [mergedl] uses the two objects after any failure. *)

Definition alive (ps : list (nat * Z)) s : Prop :=
  sn_dlcount s < sn_dlcmax s /\ forall p g, (p, g) ∈ ps -> exists x, sn_dls s !! p = Some x /\ do_gen x = g.

Definition keeps {A} ps (m : M Sn A) : Prop :=
  forall s, alive ps s -> mpost m s (fun _ s' => alive ps s') (fun _ s' => alive ps s').

Lemma keeps_bind {A C} ps (m : M Sn A) (k : A -> M Sn C) :
  keeps ps m -> (forall a, keeps ps (k a)) -> keeps ps (mbind m k).
Proof. intros H1 H2 s Hs. eapply mpost_bind; [by apply H1|]. intros a s'. apply H2. Qed.

Lemma keeps_ret {A} ps (a : A) : keeps ps (mret a).
Proof. by intros s. Qed.
Lemma keeps_err {A} ps e : keeps ps (@merror Sn A e).
Proof. by intros s. Qed.
Lemma keeps_catch {A} ps (m : M Sn A) h : keeps ps m -> (forall e, keeps ps (h e)) -> keeps ps (mcatch m h).
Proof.
  intros Hm Hh s Hs. unfold mcatch. specialize (Hm s Hs). unfold mpost in *. destruct (m s) as [[a|e] s']; [done|].
  destruct (is_crash e); [done|]. by apply Hh.
Qed.
Lemma keeps_lift {A} ps (r : res A) : keeps ps (mlift r).
Proof. intros s Hs. unfold mpost, mlift. by destruct r. Qed.
Lemma keeps_mod ps (f : Sn -> Sn) : (forall s, alive ps s -> alive ps (f s)) -> keeps ps (mmod f).
Proof. intros H s Hs. by apply H. Qed.
Lemma keeps_get {C} ps (k : Sn -> M Sn C) : (forall s, keeps ps (k s)) -> keeps ps (mbind mget k).
Proof. intros H. apply keeps_bind; [by intros s|done]. Qed.
Lemma keeps_blk ps a : keeps ps (blk_at a).
Proof. intros s Hs. unfold mpost, blk_at. by destruct (sn_blks s !! a). Qed.
Lemma keeps_newdblk ps : keeps ps newdblk.
Proof. intros s Hs. unfold mpost, newdblk. by destruct (sa_new (sn_al s)) as [[[a buf] al]|e]. Qed.

(** Reading an object tells its generation. *)
Definition gen_of (ps : list (nat * Z)) (r : option nat) (x : Dlo) : Prop := forall p g, r = Some p -> (p, g) ∈ ps -> do_gen x = g.

Lemma keeps_dl {C} ps r (k : Dlo -> M Sn C) : (forall x, gen_of ps r x -> keeps ps (k x)) -> keeps ps (mbind (dl_at r) k).
Proof.
  intros Hk s Hs. unfold mpost, mbind, dl_at. destruct r as [p|].
  - destruct (sn_dls s !! p) as [x|] eqn:Ex; [|done]. apply Hk; [|done].
    intros q g [= <-] Hin. destruct Hs as [_ Hs]. destruct (Hs _ _ Hin) as (y & Ey & Eg). congruence.
  - by apply Hk.
Qed.

Lemma keeps_put ps r x : gen_of ps r x -> keeps ps (put_dl r x).
Proof.
  intros Hx. destruct r as [p|]; apply keeps_mod; [|done]. intros s [Hc Hs]. split; [done|]. cbn.
  intros q g Hin. destruct (decide (p = q)) as [<-|Hne].
  - exists x. rewrite lookup_insert_eq. split; [done|]. by eapply Hx.
  - rewrite lookup_insert_ne by done. by apply Hs.
Qed.

Ltac keep :=
  repeat match goal with
  | |- keeps _ (mret _) => apply keeps_ret
  | |- keeps _ (merror _) => apply keeps_err
  | |- keeps _ (mlift _) => apply keeps_lift
  | |- keeps _ (mcatch _ _) => apply keeps_catch; [|intros ?]
  | |- keeps _ (blk_at _) => apply keeps_blk
  | |- keeps _ newdblk => apply keeps_newdblk
  | |- keeps _ (mmod _) => apply keeps_mod; intros ? ?; done
  | |- keeps _ (put_dl _ _) => apply keeps_put; intros ? ? ? ?; cbn [do_set do_gen]; eauto; done
  | |- keeps _ (mbind mget _) => apply keeps_get; intros ?
  | |- keeps _ (mbind (dl_at _) _) => apply keeps_dl; intros ? ?
  | |- keeps _ (mbind _ _) => apply keeps_bind; [|intros ?]
  | |- keeps _ (if ?c then _ else _) => destruct c
  | |- keeps _ (match ?c with _ => _ end) => destruct c
  end.

Lemma keeps_enqueue ps a : keeps ps (enqueue a).
Proof. unfold enqueue, queue, put_blk, emit. keep. Qed.

Lemma keeps_add_dead ps r bp : keeps ps (add_dead r bp).
Proof. unfold add_dead, put_blk. pose proof (keeps_enqueue ps). keep; try done. Qed.

Lemma keeps_snapupsert ps ms : keeps ps (snapupsert ms).
Proof.
  unfold snapupsert. keep. generalize (skills (sn_snap s) ms). intros l.
  induction l as [|bp l IH]; cbn [killsnap]; [apply keeps_ret|]. apply keeps_bind; [apply keeps_add_dead|done].
Qed.

Lemma keeps_mergeinto ps d m : keeps ps (mergeinto d m).
Proof.
  unfold mergeinto, write_now, put_blk, emit. pose proof (keeps_enqueue ps). pose proof (keeps_snapupsert ps).
  keep; try done.
Qed.

Lemma mpost_and {A} (m : M Sn A) s (E1 E2 : err -> Sn -> Prop) (Q1 Q2 : A -> Sn -> Prop) :
  mpost m s E1 Q1 -> mpost m s E2 Q2 ->
  mpost m s (fun e s => E1 e s /\ E2 e s) (fun a s => Q1 a s /\ Q2 a s).
Proof. unfold mpost. by destruct (m s) as [[a|e] s']. Qed.

(** ** [mergedl] *)

(** A null pointer in the handler: the first [getdl] failed. *)
Definition lowx (e : err) s : Prop := dl_err e \/ e = Eoob.

Record merged s s' H D (g mg b : Z) H' D' (v : Dval) : Prop := {
  mg_ok : ok s' H' D';
  mg_D gb : D' !! Some gb = (<[Some (mg, b) := v]> (delete (Some (g, b)) D)) !! Some gb;
  mg_H gb : gb <> (g, b) -> gb <> (mg, b) -> H' !! Some gb = H !! Some gb;
  mg_fr : fr0 s s';
  mg_frees : frees (sn_out s') = frees (sn_out s);
  mg_cache g' b' o : (g', b') <> (mg, b) -> (g', b') <> (g, b) -> at_cache s g' b' o -> at_cache s' g' b' o }.

Lemma putdl_alive {C} ps s p g (k : unit -> M Sn C) E Q :
  alive ps s -> (p, g) ∈ ps -> g <> -1 ->
  (forall s', alive ps s' -> mpost (k tt) s' E Q) -> mpost (mbind (putdl (Some p)) k) s E Q.
Proof.
  intros [Hc Hs] Hin Hg Hk. destruct (Hs _ _ Hin) as (x & Hx & Eg).
  eapply mpost_eqb; [eapply putdl_eq; [exact Hx|congruence|done]|]. apply Hk. by split.
Qed.

Lemma get_or_crash {A C} (m : M Sn A) s (Q : A -> Sn -> Prop) (k : A -> M Sn C) (Q' : C -> Sn -> Prop) :
  mpost m s low Q -> (forall a s', Q a s' -> mpost (k a) s' lowx Q') ->
  mpost (mbind (mcatch m (fun e => do* putdl None in merror e)) k) s lowx Q'.
Proof.
  intros H Hk. eapply mpost_bind; [|exact Hk]. eapply mpost_catch; [exact H|]. cbv beta.
  intros e s' He. destruct (is_crash e); [by left|]. by right.
Qed.

Lemma mergedl_ok s H D g mg b vm :
  ok s H D -> D !! Some (g, b) = Some vm -> dv_open vm = false ->
  (forall vd, D !! Some (mg, b) = Some vd -> dv_open vd = false) ->
  (H !! Some (mg, b) = None -> at_cache s mg b None) -> r64 mg -> mg <> -1 -> mg <> g ->
  mpost (mergedl mg g b) s lowx (fun _ s' => exists H' D',
    merged s s' H D g mg b H' D' (mergev (default dv0 (D !! Some (mg, b))) vm)).
Proof.
  intros Hok Hvm Hom Hvd Hnc Hmg Hmg1 Hne.
  destruct (bk_match _ _ _ (ok_blocks _ _ _ Hok) _ _ Hvm) as (mx0 & Hmx0 & _).
  destruct (tree_wf _ _ _ _ _ _ Hok Hmx0) as (Hg & Hb & Hg1 & _).
  unfold mergedl. eapply get_or_crash; [by apply (getdl_ok s H D)|]. cbv beta.
  intros d s1 (H1 & D1 & dx & G1). pose proof (gt_ok _ _ _ _ _ _ _ _ _ _ G1) as Hok1.
  assert (Hnk : (g, b) <> (mg, b)) by congruence.
  assert (EH1 : H1 !! Some (g, b) = Some mx0) by by rewrite (gt_H _ _ _ _ _ _ _ _ _ _ G1).
  assert (ED1 : D1 !! Some (g, b) = Some vm).
  { rewrite (gt_D _ _ _ _ _ _ _ _ _ _ G1), lookup_insert_ne; congruence. }
  eapply get_or_crash; [apply (getdl_ok s1 H1 D1); try done; congruence|]. cbv beta.
  intros m s2 (H2 & D2 & mx & G2). pose proof (gt_ok _ _ _ _ _ _ _ _ _ _ G2) as Hok2.
  set (vd := default dv0 (D !! Some (mg, b))).
  assert (EH2 : H2 !! Some (mg, b) = Some dx).
  { rewrite (gt_H _ _ _ _ _ _ _ _ _ _ G2) by congruence. apply (gt_x _ _ _ _ _ _ _ _ _ _ G1). }
  assert (Ec2 : at_cache s2 mg b (Some d)).
  { apply (gt_other _ _ _ _ _ _ _ _ _ _ G2); [congruence|]. apply (gt_cache _ _ _ _ _ _ _ _ _ _ G1). }
  assert (Ed2 : sn_dls s2 !! d = Some dx).
  { destruct (cp_cached _ _ (ok_cache _ _ _ Hok2) _ _ _ EH2) as (o & Ho & Hm). unfold at_cache in *.
    rewrite Ec2 in Ho. by injection Ho as <-. }
  assert (EDv : D2 !! Some (mg, b) = Some vd).
  { rewrite (gt_D _ _ _ _ _ _ _ _ _ _ G2), lookup_insert_ne by congruence.
    rewrite (gt_D _ _ _ _ _ _ _ _ _ _ G1). apply lookup_insert_eq. }
  assert (EDm : D2 !! Some (g, b) = Some vm).
  { rewrite (gt_D _ _ _ _ _ _ _ _ _ _ G2), lookup_insert_eq, ED1. done. }
  assert (Hod : dv_open vd = false).
  { unfold vd. destruct (D !! Some (mg, b)) as [v|] eqn:Ev; [by apply Hvd|done]. }
  pose proof (gt_x _ _ _ _ _ _ _ _ _ _ G2) as EHm. pose proof (gt_obj _ _ _ _ _ _ _ _ _ _ G2) as Em2.
  set (ps := [(m, g); (d, mg)]).
  assert (Hal : alive ps s2).
  { split; [apply (cp_count _ _ (ok_cache _ _ _ Hok2))|]. intros p g' Hin. unfold ps in Hin.
    apply elem_of_cons in Hin as [E|E%list_elem_of_singleton]; injection E as -> ->.
    - exists mx. split; [done|]. by destruct (tree_wf _ _ _ _ _ _ Hok2 EHm) as (_ & _ & _ & ? & _).
    - exists dx. split; [done|]. by destruct (tree_wf _ _ _ _ _ _ Hok2 EH2) as (_ & _ & _ & ? & _). }
  eapply (mpost_catch _ _ _ _ (fun e s => low e s /\ alive ps s)).
  - eapply mpost_bind.
    { apply mpost_and; [eapply (mergeinto_ok s2 H2 D2 d m g mg b dx mx vd vm); try done|by apply keeps_mergeinto].
      apply (gt_cache _ _ _ _ _ _ _ _ _ _ G2). }
    cbv beta. intros _ s3 [(H3 & D3 & x3 & Hmv & Em3 & Ed3 & Eg3) _].
    destruct Hmv as [Hok3 HD3 HH3 Hfr3 Hfe3 Hc3].
    eapply mpost_put; [done|exact Em3| |].
    { destruct (tree_wf _ _ _ _ _ _ Hok2 EHm) as (_ & _ & _ & -> & _). done. }
    intros l Hok4. unfold mpost. rewrite (putdl_eq _ _ x3) by first [done|congruence|apply (cp_count _ _ (ok_cache _ _ _ Hok4))].
    exists H3, D3. split.
    + apply ok_lru; [done|]. intros p [-> |Hp]%elem_of_cons; [cbn; by rewrite Ed3|].
      apply list_elem_of_filter in Hp as [_ Hp]. by apply (cp_lru _ _ (ok_cache _ _ _ Hok4)).
    + intros gb. rewrite HD3. destruct (decide (gb = (mg, b))) as [->|N1]; [by rewrite !lookup_insert_eq|].
      rewrite !(lookup_insert_ne _ (Some (mg, b))) by congruence.
      destruct (decide (gb = (g, b))) as [->|N2]; [by rewrite !lookup_delete_eq|].
      rewrite !lookup_delete_ne by congruence. rewrite (gt_D _ _ _ _ _ _ _ _ _ _ G2), lookup_insert_ne by congruence.
      rewrite (gt_D _ _ _ _ _ _ _ _ _ _ G1), lookup_insert_ne by congruence. done.
    + intros gb N1 N2. rewrite HH3, (gt_H _ _ _ _ _ _ _ _ _ _ G2), (gt_H _ _ _ _ _ _ _ _ _ _ G1) by done. done.
    + transitivity s1; [apply G1|]. transitivity s2; [apply G2|]. transitivity s3; [done|by split].
    + change (sn_out (sn_set_lru _ (sn_set_lru l s3))) with (sn_out s3).
      rewrite Hfe3, (gt_frees _ _ _ _ _ _ _ _ _ _ G2). apply G1.
    + intros g' b' o N1 N2 Ho. apply (at_cache_eq s3); try done. apply Hc3.
      apply (gt_other _ _ _ _ _ _ _ _ _ _ G2); [done|]. by apply (gt_other _ _ _ _ _ _ _ _ _ _ G1).
  - cbv beta. intros e s3 [He Hal3]. destruct (is_crash e); [by left|].
    eapply (putdl_alive ps _ m g); [done|left|done|]. intros s4 Hal4.
    eapply (putdl_alive ps _ d mg); [done|right; left|done|]. intros s5 _. by left.
Qed.

End reclaim.
