(* ===== verification/DeadEx.v ===== *)
(** * An example system with deadlists

    Reference instances of the interfaces of [Dead] and a builder of states
    with given lists, for the witnesses. *)
From S2P Require Import Prelude CInt Mem Data Keys Hash Pack Blk Io Log Queue Apply Upsert Lookup Mst Kv Entry Dead DeadOk DeadTree.


(** An allocator that never takes a block back. *)
#[export] Program Instance counter_alloc : SnapAlloc Z := {
  sa_new n := if (0 <=? n) && (n <? 2 ^ 62) && (Z.land n (Blksz - 1) =? 0) then Ok (n, zbuf, n + Blksz) else Err Efull;
  sa_live n a := 0 <= a < n /\ Z.land a (Blksz - 1) = 0;
  sa_err e := e = Efull }.
Next Obligation.
  intros n. cbv beta. destruct ((0 <=? n) && (n <? 2 ^ 62) && (Z.land n (Blksz - 1) =? 0)) eqn:E; [|done]. zb. cbn. split; [lia|]. split; [lia|]. split; [done|].
  split; [apply zlen_zbuf|].
  assert (Hm : forall x, Z.land x (Blksz - 1) = x mod Blksz).
  { intros x. change (Blksz - 1) with (Z.ones 14). change Blksz with (2 ^ 14). by rewrite Z.land_ones. }
  intros x. rewrite !Hm in *. change Blksz with 16384 in *. split.
  - intros [Hx Hx']. destruct (Z.lt_ge_cases x n); [left; lia|]. right. Z.to_euclidean_division_equations. lia.
  - intros [?| ->]; lia.
Qed.

(** A map has no blocks to replace. *)
#[export] Program Instance kvmap_snap : SnapTree Kvmap := { skills _ _ := [] }.
Next Obligation. constructor. Qed.

(** A list of one block. *)
Record Lst := mkLst { ls_gen : Z; ls_birth : Z; ls_blk : Z; ls_ents : list Z }.

Definition lst_buf (l : Lst) : list Z :=
  replicate 36 0 ++ ents (ls_ents l) ++ replicate (Z.to_nat (Blksz - 36 - 8 * zlen (ls_ents l))) 0.
Definition lst_bp (l : Lst) : Bptr := mkBptr (ls_blk l) nohash (-1).
Definition lst_blk (l : Lst) : Blk :=
  mkBlk Tdlist 0 0 0 0 (8 * zlen (ls_ents l)) 0 Zb (lst_bp l) 0 (lst_buf l).
Definition lst_key (l : Lst) : Z * Z := (ls_gen l, ls_birth l).
Definition lst_dlo (l : Lst) : Dlo := mkDlo (ls_gen l) (ls_birth l) (lst_bp l) (lst_bp l) None.
Definition lst_val (l : Lst) : Dval := mkDval [(ls_blk l, ls_ents l)] (ls_blk l) false.

Definition ls_H (ls : list Lst) : gmap (option (Z * Z)) Dlo :=
  <[None := mkDlo (-1) 0 nilbp nilbp None]> (list_to_map ((fun l => (Some (lst_key l), lst_dlo l)) <$> ls)).
Definition ls_D (ls : list Lst) : gmap (option (Z * Z)) Dval :=
  <[None := dv0]> (list_to_map ((fun l => (Some (lst_key l), lst_val l)) <$> ls)).
Definition ls_tree (ls : list Lst) (ot : Kvmap) : Kvmap :=
  list_to_map ((fun l => (dlkey (ls_gen l) (ls_birth l), dlist_kv (ls_gen l) (ls_birth l) (lst_bp l) (lst_bp l))) <$> ls) ∪ ot.
Definition ls_blks (ls : list Lst) : gmap Z Blk := list_to_map ((fun l => (ls_blk l, lst_blk l)) <$> ls).

(** A system with these lists, none of them cached, and the pairs [ot] in
    the tree of snapshots. *)
Definition ls_state (ls : list Lst) (ot : Kvmap) (next : Z) : @Sn Kvmap Z :=
  mkSn (ls_tree ls ot) next (ls_blks ls) [] 0 (mkDlo (-1) 0 nilbp nilbp None) ∅ 0 ∅ [] 0 4 ∅ 0 [] 100 [].

Record lst_ok (next : Z) (l : Lst) : Prop := {
  lo_key : r64 (ls_gen l) /\ r64 (ls_birth l) /\ ls_gen l <> -1;
  lo_blk : addr_ok (ls_blk l) /\ ls_blk l < next;
  lo_ents : Forall addr_ok (ls_ents l) /\ zlen (ls_ents l) <= 2000 }.

Lemma lst_seg next l : lst_ok next l -> seg_ok (lst_blk l) (ls_blk l) (ls_ents l).
Proof.
  intros [_ [Ha _] [He Hl]]. pose proof (zlen_nonneg (ls_ents l)).
  split; cbn [lst_blk b_type b_bp b_buf b_logsz b_logp]; try done.
  - split; [done|]. unfold wf_bptr. cbn. unfold nohash. destruct Ha. lia.
  - unfold lst_buf. rewrite !zlen_app, !zlen_replicate, zlen_ents8. change Blksz with 16384. lia.
  - change Logspc with 16348. lia.
  - unfold lst_buf. change Loghdsz with 36. split; [lia|]. rewrite !zlen_app, !zlen_replicate, zlen_ents8. split; [lia|].
    rewrite drop_app_length'; [|by rewrite length_replicate]. by rewrite take_app_length.
Qed.

Lemma lst_map {K A} `{Countable K} (f : Lst -> K) (g : Lst -> A) (ls : list Lst) k x :
  NoDup (f <$> ls) ->
  (list_to_map ((fun l => (f l, g l)) <$> ls) : gmap K A) !! k = Some x <-> exists l, l ∈ ls /\ f l = k /\ g l = x.
Proof.
  intros Hn. rewrite <- elem_of_list_to_map.
  2:{ rewrite <- list_fmap_compose. exact Hn. }
  rewrite list_elem_of_fmap. split.
  - intros (l & [= -> ->] & Hl). by exists l.
  - intros (l & Hl & <- & <-). by exists l.
Qed.

Lemma NoDup_blk_eq (ls : list Lst) {A} (f : Lst -> A) l l' : NoDup (f <$> ls) -> l ∈ ls -> l' ∈ ls -> f l = f l' -> l = l'.
Proof.
  intros Hn Hl Hl' E. apply list_elem_of_lookup in Hl as [i Hi], Hl' as [j Hj].
  assert (i = j) as ->.
  { eapply NoDup_lookup; [exact Hn|rewrite list_lookup_fmap, Hi; reflexivity|]. rewrite list_lookup_fmap, Hj. cbn. by rewrite E. }
  congruence.
Qed.

Definition map_other (ot : Kvmap) : Other := {| ot_val k := ot !! k; ot_fits k n := map_fits ot k n |}.
Definition nolists (ot : Kvmap) : Prop := map_Forall (fun k v => head k <> Some Kdlist /\ kv_k v = k) ot.

Lemma ls_ok ls ot next (OT := map_other ot) :
  NoDup (lst_key <$> ls) -> NoDup (ls_blk <$> ls) -> Forall (lst_ok next) ls ->
  nolists ot ->
  ok (ls_state ls ot next) (ls_H ls) (ls_D ls).
Proof.
  intros Hk Hb Hl Hot. rewrite Forall_forall in Hl.
  assert (HSk : NoDup ((fun l => Some (lst_key l)) <$> ls)).
  { rewrite (list_fmap_compose lst_key Some). apply NoDup_fmap_2; [|done]. intros x y. congruence. }
  assert (Htk : NoDup ((fun l => dlkey (ls_gen l) (ls_birth l)) <$> ls)).
  { apply NoDup_fmap_2_strong; [|by eapply NoDup_fmap_1]. intros x y Hx Hy E.
    destruct (Hl _ Hx) as [(? & ? & _) _ _], (Hl _ Hy) as [(? & ? & _) _ _]. apply dlkey_inj in E as [E1 E2]; try done.
    apply (NoDup_blk_eq ls lst_key); try done. unfold lst_key. by rewrite E1, E2. }
  assert (HH : forall gb x, ls_H ls !! Some gb = Some x <-> exists l, l ∈ ls /\ lst_key l = gb /\ lst_dlo l = x).
  { intros gb x. unfold ls_H. rewrite lookup_insert_ne by done. rewrite (lst_map (fun l => Some (lst_key l))) by done.
    split; intros (l & ? & ? & ?); exists l; split; try done; split; congruence. }
  assert (HD : forall gb x, ls_D ls !! Some gb = Some x <-> exists l, l ∈ ls /\ lst_key l = gb /\ lst_val l = x).
  { intros gb x. unfold ls_D. rewrite lookup_insert_ne by done. rewrite (lst_map (fun l => Some (lst_key l))) by done.
    split; intros (l & ? & ? & ?); exists l; split; try done; split; congruence. }
  assert (HT : forall k kv, (ls_tree ls ot : gmap (list Z) Kvp) !! k = Some kv <->
    (exists l, l ∈ ls /\ dlkey (ls_gen l) (ls_birth l) = k /\
      dlist_kv (ls_gen l) (ls_birth l) (lst_bp l) (lst_bp l) = kv) \/ (head k <> Some Kdlist /\ (ot : gmap (list Z) Kvp) !! k = Some kv)).
  { intros k kv. unfold ls_tree. rewrite lookup_union_Some_raw. rewrite (lst_map (fun l => dlkey (ls_gen l) (ls_birth l))) by done.
    split.
    - intros [?|[_ Ho]]; [by left|]. right. split; [|done]. by destruct (Hot _ _ Ho).
    - intros [?|[Hh Ho]]; [by left|]. right. split; [|done]. apply not_elem_of_list_to_map_1.
      rewrite <- list_fmap_compose. intros (l & -> & _)%list_elem_of_fmap. by apply Hh. }
  split.
  - split; cbn.
    + intros k kv Hkv. apply HT in Hkv as [(l & _ & <- & <-)|[_ Ho]]; [done|by destruct (Hot _ _ Ho)].
    + intros g b _ _ kv Hkv. apply HT in Hkv as [(l & _ & _ & <-)|[Hh _]]; done.
    + intros k kv Hkv Hh. apply HT in Hkv as [(l & Hin & <- & <-)|[? _]]; [|done]. exists (ls_gen l), (ls_birth l), (lst_dlo l).
      split; [done|]. apply HH. by exists l.
    + intros g b x (l & Hin & [= <- <-] & <-)%HH. destruct (Hl _ Hin) as [(? & ? & ?) _ _]. done.
    + intros g b x (l & Hin & [= <- <-] & <-)%HH. exists (lst_bp l), (lst_bp l).
      destruct (lst_seg _ _ (Hl _ Hin)) as [_ [_ ?] _ _ _ _ _ _]. split; [|done]. apply HT. left. by exists l.
    + intros k Hh. change (ls_tree ls ot !! k = ot !! k). apply option_eq. intros kv. rewrite HT. split; [|by right].
      intros [(l & _ & <- & _)|[_ ?]]; [by destruct Hh|done].
    + intros k n Hh Hf kv Hkv. apply HT in Hkv as [(l & _ & <- & _)|[_ ?]]; [by destruct Hh|by apply Hf].
  - split; cbn; try done.
    + unfold ls_H. by rewrite lookup_insert_eq.
    + intros g b x (l & Hin & [= <- <-] & <-)%HH. exists None. unfold at_cache, dlchain. cbn. by rewrite lookup_empty.
    + intros h p. unfold dlchain. cbn. rewrite lookup_empty. cbn. by intros ?%elem_of_nil.
    + intros p. rewrite lookup_empty. by intros [? ?].
    + by intros p ?%elem_of_nil.
  - split.
    + intros [gb|] v Hv.
      * apply HD in Hv as (l & Hin & E & <-). exists (lst_dlo l). split; [apply HH; by exists l|].
        pose proof (lst_seg _ _ (Hl _ Hin)) as Hs. destruct (Hl _ Hin) as [_ [? _] _]. pose proof (sg_bp _ _ _ Hs) as [_ ?].
        split; cbn; try done; [|left].
        split; [done|]. split; [done|]. exists (lst_blk l). split; [|done].
        apply (lst_map ls_blk lst_blk ls); [done|]. by exists l.
      * unfold ls_D in Hv. rewrite lookup_insert_eq in Hv. injection Hv as <-. exists (mkDlo (-1) 0 nilbp nilbp None).
        unfold ls_H. rewrite lookup_insert_eq. split; [done|apply dv0_match].
    + intros [gb|] x Hx; [|unfold ls_D; by rewrite lookup_insert_eq]. apply HH in Hx as (l & Hin & E & _).
      exists (lst_val l). apply HD. by exists l.
    + intros [gb|] v Hv.
      * apply HD in Hv as (l & _ & _ & <-). apply NoDup_singleton.
      * unfold ls_D in Hv. rewrite lookup_insert_eq in Hv. injection Hv as <-. constructor.
    + assert (H0 : forall v, ls_D ls !! None = Some v -> v = dv0).
      { intros v Hv. unfold ls_D in Hv. rewrite lookup_insert_eq in Hv. by injection Hv as <-. }
      intros [gb|] [gb'|] v v' a Hv Hv' Ha Ha'; [|apply H0 in Hv' as ->; by apply elem_of_nil in Ha'|
        apply H0 in Hv as ->; by apply elem_of_nil in Ha|done].
      apply HD in Hv as (l & Hin & <- & <-), Hv' as (l' & Hin' & <- & <-).
      apply list_elem_of_singleton in Ha, Ha'. do 2 f_equal. apply (NoDup_blk_eq ls ls_blk); [done..|exact (eq_trans (eq_sym Ha) Ha')].
    + intros [gb|] v a Hv Ha.
      * apply HD in Hv as (l & Hin & _ & <-). apply list_elem_of_singleton in Ha as ->. destruct (Hl _ Hin) as [_ [[? ?] ?] _].
        cbn. split; [lia|done].
      * unfold ls_D in Hv. rewrite lookup_insert_eq in Hv. injection Hv as <-. by apply elem_of_nil in Ha.
Qed.

Lemma ls_lookup ls gb v : NoDup (lst_key <$> ls) ->
  ls_D ls !! Some gb = Some v <-> exists l, l ∈ ls /\ lst_key l = gb /\ lst_val l = v.
Proof.
  intros Hk. unfold ls_D. rewrite lookup_insert_ne by done. rewrite (lst_map (fun l => Some (lst_key l))).
  - split; intros (l & ? & ? & ?); exists l; split; try done; split; congruence.
  - rewrite (list_fmap_compose lst_key Some). apply NoDup_fmap_2; [|done]. intros x y. congruence.
Qed.

(** Block number [k] of the device. *)
Definition blkno (k : Z) : Z := Blksz * k.

Lemma ls_wf ls n :
  forallb (fun l => bool_decide (- 2 ^ 63 <= ls_gen l < 2 ^ 63) && bool_decide (- 2 ^ 63 <= ls_birth l < 2 ^ 63) &&
    negb (ls_gen l =? -1) && bool_decide (0 <= ls_blk l < 2 ^ 63) && (Z.land (ls_blk l) (Blksz - 1) =? 0) && (ls_blk l <? n) &&
    forallb (fun a => bool_decide (0 <= a < 2 ^ 63) && (Z.land a (Blksz - 1) =? 0)) (ls_ents l) &&
    (zlen (ls_ents l) <=? 2000)) ls = true -> Forall (lst_ok n) ls.
Proof.
  intros H. apply Forall_forall. intros l Hin. rewrite forallb_forall in H. specialize (H l (proj1 (list_elem_of_In _ _) Hin)).
  repeat (apply andb_true_iff in H as [H ?]). repeat match goal with E : bool_decide _ = true |- _ => apply bool_decide_eq_true in E end.
  zb. split; [done|done|]. split; [|done]. apply Forall_forall. intros a Ha.
  match goal with E : forallb _ _ = true |- _ => rewrite forallb_forall in E; specialize (E a (proj1 (list_elem_of_In _ _) Ha));
    apply andb_true_iff in E as [E1 E2] end.
  apply bool_decide_eq_true in E1. zb. done.
Qed.

