(* ===== verification/Reclaim.v ===== *)
(** * Killing blocks and reclaiming snapshots (src/snap.c)

    What [killblk], [freedl], [reclaimblocks] and [dlsync] do to the lists,
    and what that means for the blocks of a chain of snapshots. *)
From S2P Require Import Prelude CInt Mem Data Keys Hash Pack Blk Io Log Queue Apply Upsert Lookup Mst Kv Entry Dead DeadOk DeadTree DeadEx.

Section reclaim.
Context {T B : Type} `{!MsgTree T} `{!SnapTree T} `{!SnapAlloc B} {OT : Other}.
#[local] Abbreviation Sn := (@Sn T B).
#[local] Abbreviation key := (option (Z * Z)).
Implicit Types s : Sn.
Implicit Types (H : gmap key Dlo) (D : gmap key Dval).

(** ** Freeing a list *)

(** The entries and the blocks, in the order they are queued. *)
Definition freed_segs (l : list (Z * list Z)) : list Z := concat ((fun x => x.2 ++ [x.1]) <$> l).

Lemma freed_segs_perm v : freed_segs (dv_segs v) ≡ₚ dv_dead v ++ dv_addrs v.
Proof.
  unfold freed_segs, dv_dead, dv_addrs. induction (dv_segs v) as [|[a es] l IH]; [done|].
  cbn. rewrite IH. rewrite <- !app_assoc. apply Permutation_app_head. cbn. apply Permutation_middle.
Qed.

Lemma sn_out_set_out l l' s : sn_set_out l (sn_set_out l' s) = sn_set_out l s.
Proof. done. Qed.

Lemma free_entries_eq b es : forall pre s,
  at_ (b_buf b) Loghdsz (ents (pre ++ es)) -> b_type b = Tdlist -> Forall addr_ok es ->
  exists ops, free_entries (length es) b (8 * zlen pre) s = (Ok tt, sn_set_out (sn_out s ++ ops) s) /\
    frees ops = es.
Proof.
  induction es as [|e es IH]; intros pre s Hat Ht He.
  - exists []. rewrite app_nil_r. by destruct s.
  - apply Forall_cons in He as [[He1 He2] He]. cbn [length free_entries].
    assert (Hrd : rd64 (b_buf b) (data_off b + 8 * zlen pre) = Ok (u64 e)).
    { apply rd64_at. unfold data_off. rewrite Ht. change (hdsz Tdlist) with Loghdsz.
      unfold ents in Hat. rewrite fmap_app, concat_app, fmap_cons, concat_cons in Hat.
      apply at_app in Hat as [_ Hat]. apply at_app in Hat as [Hat _].
      change (concat (PACK64 <$> pre)) with (ents pre) in Hat. by rewrite zlen_ents8 in Hat. }
    unfold mbind, mlift. rewrite Hrd. rewrite s64_u64, s64_small by lia.
    unfold queue. cbn [bp_addr]. rewrite He2. change (0 =? 0) with true. cbv iota. unfold mbind, mget, emit, mmod.
    set (s1 := sn_set_out _ s).
    destruct (IH (pre ++ [e]) s1) as (ops & E & Ef); [by rewrite <- app_assoc|done|done|].
    replace (8 * zlen pre + 8) with (8 * zlen (pre ++ [e])) by (rewrite zlen_app, zlen_cons, zlen_nil; lia).
    rewrite E. eexists. split.
    + unfold s1. cbn [sn_out sn_set_out]. rewrite <- app_assoc. reflexivity.
    + rewrite frees_app, Ef. done.
Qed.

Lemma freedl_loop_eq l : forall fuel bp s,
  dchain (sn_blks s) bp l -> (length l <= fuel)%nat ->
  exists ops, freedl_loop fuel bp true s = (Ok tt, sn_set_out (sn_out s ++ ops) s) /\ frees ops = freed_segs l.
Proof.
  induction l as [|[a es] l IH]; intros fuel bp s Hc Hf.
  - cbn in Hc. exists []. rewrite app_nil_r. destruct fuel; cbn [freedl_loop]; rewrite Hc; by destruct s.
  - destruct Hc as (E1 & [Ha1 Ha2] & b & Hb & Hs & Hc). destruct fuel as [|fuel]; [cbn in Hf; lia|].
    cbn [freedl_loop]. rewrite E1, (proj2 (Z.eqb_neq a (-1))) by lia.
    unfold mbind at 1, blk_at at 1. rewrite Hb.
    replace (Z.to_nat (b_logsz b / 8)) with (length es).
    2:{ rewrite (sg_sz _ _ _ Hs), Z.mul_comm, Z.div_mul by lia. unfold zlen. lia. }
    destruct (free_entries_eq b es [] s) as (ops & E & Ef);
      [apply (sg_at _ _ _ Hs)|apply (sg_type _ _ _ Hs)|apply (sg_ents _ _ _ Hs)|].
    change (8 * zlen []) with 0 in E. unfold mbind at 1. rewrite E.
    destruct (sg_bp _ _ _ Hs) as [Ebp _]. unfold queue. rewrite Ebp, Ha2. change (0 =? 0) with true. cbv iota.
    unfold mbind, mget, emit, mmod. set (s1 := sn_set_out _ (sn_set_out _ s)).
    destruct (IH fuel (b_logp b) s1) as (ops' & E' & Ef'); [done|cbn in Hf; lia|].
    rewrite E'. eexists. split.
    + unfold s1. cbn [sn_out sn_set_out]. rewrite <- !app_assoc. reflexivity.
    + rewrite !frees_app, Ef, Ef'. unfold freed_segs. cbn. rewrite Ebp. by rewrite <- app_assoc.
Qed.

(** A list that nobody will read again. *)
Record gone s s' H D (g b : Z) H' D' (v : Dval) : Prop := {
  go_ok : ok s' H' D';
  go_D gb : D' !! Some gb = (delete (Some (g, b)) D) !! Some gb;
  go_H gb : gb <> (g, b) -> H' !! Some gb = H !! Some gb;
  go_fr : fr0 s s';
  go_frees : frees (sn_out s') = frees (sn_out s) ++ freed_segs (dv_segs v);
  go_cache g' b' o : at_cache s g' b' o -> at_cache s' g' b' o }.

Lemma freedl_ok s H D g b x v :
  ok s H D -> H !! Some (g, b) = Some x -> D !! Some (g, b) = Some v ->
  mpost (freedl (of_dl (mkDlist g b (do_hd x) (do_tl x))) true) s low
    (fun _ s' => exists H' D', gone s s' H D g b H' D' v).
Proof.
  intros Hok Hx Hv. destruct (tree_wf _ _ _ _ _ _ Hok Hx) as (Hg & Hb & Hg1 & Eg & Eb & _).
  destruct (snap_list _ _ _ Hok) as [v0 Hv0]. unfold freedl. cbn [of_dl do_gen dl_gen do_hd dl_hd].
  rewrite (proj2 (Z.eqb_neq g (-1))) by done.
  apply mbind_assoc. eapply mpost_liftb; [by apply dlist2kv_eq|].
  eapply mpost_bind; [by eapply (upsert_del s H D v0 g b x)|]. cbv beta.
  intros _ s1 (Hf & Ed & w & Hk & Ht & Hc). apply mpost_get.
  destruct (bk_match _ _ _ Hk (Some (g, b)) v) as (x' & Ex & [M1 _ _ _ _]); [by rewrite lookup_insert_ne|].
  rewrite lookup_insert_ne in Ex by done. rewrite Hx in Ex. injection Ex as <-.
  destruct (freedl_loop_eq (dv_segs v) (size (sn_blks s1)) (do_hd x) s1 M1) as (ops & E & Ef).
  { eapply dchain_length; [|exact M1]. apply (bk_nodup _ _ _ Hk (Some (g, b)) v). by rewrite lookup_insert_ne. }
  eapply mpost_eq; [exact E|].
  exists (<[None := sn_snapdl s1]> (delete (Some (g, b)) H)), (<[None := w]> (delete (Some (g, b)) D)).
  split.
  - split; [done|by apply (cache_eq s1); try done; apply (cp_lru _ _ Hc)|].
    apply (blocks_eq s1); [done|done|]. rewrite <- !delete_insert_ne by done. by apply blocks_del.
  - intros gb. by rewrite lookup_insert_ne.
  - intros gb Hne. rewrite lookup_insert_ne, lookup_delete_ne; [done|congruence|done].
  - transitivity s1; [by apply fr_fr0|by split].
  - cbn [sn_out sn_set_out]. by rewrite frees_app, Ef, (fr_frees _ _ Hf).
  - intros g' b' o Ho. apply (at_cache_eq s1); try done.
    eapply at_cache_eq; [done|apply (fr_cache _ _ Hf)|apply (fr_max _ _ Hf)|done].
Qed.

(** ** Scanning the lists of a generation *)

Definition kv_of H (g : Z) (kv : Kvp) (b : Z) : Prop :=
  exists x hd tl, H !! Some (g, b) = Some x /\ kv = dlist_kv g b hd tl /\ wf_bptr hd /\ wf_bptr tl /\
    (do_ins x = None -> hd = do_hd x /\ tl = do_tl x).

Lemma scan_lists t H g :
  tree_part t H -> r64 g ->
  postE tree_err (tscan t (dlpfx g)) (fun l => exists bs, Forall2 (kv_of H g) l bs /\ NoDup bs /\
    forall b, b ∈ bs <-> is_Some (H !! Some (g, b))).
Proof.
  intros Ht Hg. eapply postE_mono; [apply tscan_ok, Ht|]. cbv beta. intros l (_ & Hn & Hin).
  assert (Hkv : forall kv, kv ∈ l -> exists b, kv_of H g kv b).
  { intros kv Hkv. apply Hin in Hkv as [Hv Hp].
    destruct (tp_keys _ _ Ht _ _ Hv) as (g' & b & x & Ek & Hx).
    { unfold prefix_of_key, dlpfx in Hp. destruct (kv_k kv) as [|c r]; [done|].
      cbn in Hp. injection Hp as -> _. done. }
    destruct (tp_list _ _ Ht _ _ _ Hx) as (Hg' & Hb & _).
    assert (g' = g) as ->.
    { unfold prefix_of_key in Hp. rewrite Ek in Hp. apply (f_equal (drop 1)) in Hp.
      change (PACK64 g' = PACK64 g) in Hp. apply PACK64_inj in Hp.
      apply (f_equal s64) in Hp. rewrite !s64_u64, !s64_small in Hp by (unfold r64 in *; lia).
      done. }
    destruct (tp_stored _ _ Ht _ _ _ Hx) as (hd & tl & Est & Hw). exists b, x, hd, tl. split; [done|].
    rewrite Ek, Est in Hv. injection Hv as <-. done. }
  assert (Hbs : exists bs, Forall2 (kv_of H g) l bs).
  { clear Hin Hn. induction l as [|kv l IH]; [by exists []|]. destruct (Hkv kv ltac:(left)) as [b Hb].
    destruct IH as [bs Hbs]; [intros kv' Hk'; apply Hkv; by right|]. by exists (b :: bs); constructor. }
  destruct Hbs as [bs Hbs]. exists bs. split; [done|].
  assert (Hval : forall i kv b, l !! i = Some kv -> bs !! i = Some b -> kv_of H g kv b).
  { intros i kv b H1 H2. eapply Forall2_lookup_lr; done. }
  split.
  - apply NoDup_alt. intros i j b Hi Hj.
    destruct (lookup_lt_is_Some_2 l i) as [kv Hkvi]; [rewrite (Forall2_length _ _ _ Hbs); by eapply lookup_lt_Some|].
    destruct (lookup_lt_is_Some_2 l j) as [kv' Hkvj]; [rewrite (Forall2_length _ _ _ Hbs); by eapply lookup_lt_Some|].
    destruct (Hval _ _ _ Hkvi Hi) as (x & hd & tl & Hx & Ekv & _), (Hval _ _ _ Hkvj Hj) as (x' & hd' & tl' & Hx' & Ekv' & _).
    assert (kv = kv') as <-.
    { pose proof (proj1 (Hin kv) (list_elem_of_lookup_2 _ _ _ Hkvi)) as [V1 _].
      pose proof (proj1 (Hin kv') (list_elem_of_lookup_2 _ _ _ Hkvj)) as [V2 _].
      rewrite Ekv in V1 at 1. rewrite Ekv' in V2 at 1. cbn [kv_k dlist_kv] in V1, V2. congruence. }
    eapply NoDup_lookup; [exact Hn|exact Hkvi|exact Hkvj].
  - intros b. split.
    + intros Hb. apply list_elem_of_lookup in Hb as [i Hi].
      destruct (lookup_lt_is_Some_2 l i) as [kv Hkvi]; [rewrite (Forall2_length _ _ _ Hbs); by eapply lookup_lt_Some|].
      destruct (Hval _ _ _ Hkvi Hi) as (x & _ & _ & Hx & _). by exists x.
    + intros [x Hx]. destruct (tp_list _ _ Ht _ _ _ Hx) as (_ & Hb & _).
      destruct (tp_stored _ _ Ht _ _ _ Hx) as (hd & tl & Est & _).
      assert (Hl : dlist_kv g b hd tl ∈ l) by (apply Hin; split; [exact Est|reflexivity]).
      apply list_elem_of_lookup in Hl as [i Hi].
      destruct (lookup_lt_is_Some_2 bs i) as [b' Hb']; [rewrite <- (Forall2_length _ _ _ Hbs); by eapply lookup_lt_Some|].
      destruct (Hval _ _ _ Hi Hb') as (x' & hd' & tl' & Hx' & Ekv & _).
      assert (Ek : dlkey g b = dlkey g b') by exact (f_equal kv_k Ekv).
      destruct (tp_list _ _ Ht _ _ _ Hx') as (_ & Hb2 & _).
      apply dlkey_inj in Ek as [_ ->]; try done. by apply list_elem_of_lookup_2 with i.
Qed.

(** ** The lists of the snapshot that goes away *)

Definition own_freed D (G prev b : Z) : list Z :=
  if b <=? prev then [] else
  match D !! Some (G, b) with Some v => freed_segs (dv_segs v) | None => [] end.

Record reclaimed s s' H D (G tgt prev : Z) (bs : list Z) H' D' : Prop := {
  rc_ok : ok s' H' D';
  rc_own b : b ∈ bs -> D' !! Some (G, b) = None;
  rc_tgt b v : b ∈ bs -> b <= prev -> D !! Some (G, b) = Some v ->
    D' !! Some (tgt, b) = Some (mergev (default dv0 (D !! Some (tgt, b))) v);
  rc_rest g b : ~ (g = G /\ b ∈ bs) -> ~ (g = tgt /\ b ∈ bs /\ b <= prev) ->
    D' !! Some (g, b) = D !! Some (g, b) /\ H' !! Some (g, b) = H !! Some (g, b);
  rc_fr : fr0 s s';
  rc_frees : frees (sn_out s') = frees (sn_out s) ++ concat (own_freed D G prev <$> bs);
  rc_cache g b o : ~ (g = G /\ b ∈ bs) -> ~ (g = tgt /\ b ∈ bs) -> at_cache s g b o -> at_cache s' g b o }.

(** What the destination must be like. *)
Definition tgt_ok s H D (tgt b : Z) : Prop :=
  (forall v, D !! Some (tgt, b) = Some v -> dv_open v = false) /\ (H !! Some (tgt, b) = None -> at_cache s tgt b None).

Lemma kv_of_dl s H D g kv b v :
  ok s H D -> kv_of H g kv b -> D !! Some (g, b) = Some v -> dv_open v = false ->
  exists x, H !! Some (g, b) = Some x /\ kv2dlist kv = Ok (mkDlist g b (do_hd x) (do_tl x)).
Proof.
  intros Hok (x & hd & tl & Hx & -> & Hhd & Htl & Hi) Hv Ho. exists x. split; [done|].
  destruct (tree_wf _ _ _ _ _ _ Hok Hx) as (Hg & Hb & _).
  destruct (bk_match _ _ _ (ok_blocks _ _ _ Hok) _ _ Hv) as (x' & Ex & M). rewrite Hx in Ex. injection Ex as <-.
  pose proof (dm_ins _ _ _ M) as Hins. destruct (do_ins x) as [a|]; [destruct Hins; congruence|].
  destruct (Hi eq_refl) as [-> ->]. by apply kv2dlist_eq.
Qed.

Lemma reclaim_own_ok succ prev G tgt : tgt = (if succ =? -1 then prev else succ) -> tgt <> G -> tgt <> -1 -> r64 tgt ->
  forall kvs bs s H D, ok s H D -> Forall2 (kv_of H G) kvs bs -> NoDup bs ->
  (forall b v, b ∈ bs -> D !! Some (G, b) = Some v -> dv_open v = false) ->
  (forall b, b ∈ bs -> b <= prev -> tgt_ok s H D tgt b) ->
  mpost (reclaim_own kvs succ prev) s lowx (fun _ s' => exists H' D', reclaimed s s' H D G tgt prev bs H' D').
Proof.
  intros Et Hne Ht1 Htr. induction kvs as [|kv kvs IH]; intros bs s H D Hok Hkv Hn Hcl Htg.
  { apply Forall2_nil_inv_l in Hkv as ->. apply mpost_ret. exists H, D.
    split; try done; try (by intros ? ?%elem_of_nil); try (by intros ? ? ?%elem_of_nil).
    by rewrite app_nil_r. }
  apply Forall2_cons_inv_l in Hkv as (b & bs' & Hb & Hkv & ->). apply NoDup_cons in Hn as [Hnb Hn].
  pose proof Hb as (x0 & hd0 & tl0 & Hx0 & _).
  destruct (bk_dom _ _ _ (ok_blocks _ _ _ Hok) _ _ Hx0) as [v Hv].
  pose proof (Hcl b v ltac:(left) Hv) as Hov.
  destruct (kv_of_dl _ _ _ _ _ _ _ Hok Hb Hv Hov) as (x & Hx & Ekv).
  cbn [reclaim_own]. eapply mpost_liftb; [exact Ekv|]. cbn [dl_gen dl_bgen].
  (* the state after this list *)
  set (one := fun s1 H1 D1 => ok s1 H1 D1 /\ D1 !! Some (G, b) = None /\
    (b <= prev -> D1 !! Some (tgt, b) = Some (mergev (default dv0 (D !! Some (tgt, b))) v)) /\
    (forall g b', (g, b') <> (G, b) -> ~ (g = tgt /\ b' = b /\ b <= prev) ->
       D1 !! Some (g, b') = D !! Some (g, b') /\ H1 !! Some (g, b') = H !! Some (g, b')) /\
    fr0 s s1 /\ frees (sn_out s1) = frees (sn_out s) ++ own_freed D G prev b /\
    (forall g b' o, (g, b') <> (G, b) -> (g, b') <> (tgt, b) -> at_cache s g b' o -> at_cache s1 g b' o)).
  eapply (mpost_bind _ _ _ _ _ (fun _ s1 => exists H1 D1, one s1 H1 D1)).
  - assert (Hmerge : b <= prev -> mpost (mergedl tgt G b) s lowx (fun _ s1 => exists H1 D1, one s1 H1 D1)).
    { intros Hle. destruct (Htg b ltac:(left) Hle) as [Hcd Hnc].
      eapply mpost_mono; [by apply (mergedl_ok s H D G tgt b v)|done|].
      cbv beta. intros _ s1 (H1 & D1 & M). exists H1, D1. destruct M as [M1 M2 M3 M4 M5 M6].
      split; [done|]. split; [rewrite M2, lookup_insert_ne by congruence; apply lookup_delete_eq|].
      split; [intros _; rewrite M2; apply lookup_insert_eq|]. split; [|split; [done|split]].
      - intros g b' N1 N2. assert (N3 : (g, b') <> (tgt, b)) by (intros [= -> ->]; by apply N2).
        rewrite M2, lookup_insert_ne, lookup_delete_ne by congruence. split; [done|]. by apply M3.
      - unfold own_freed. rewrite (proj2 (Z.leb_le b prev)) by done. by rewrite app_nil_r.
      - intros g b' o N1 N2. by apply M6. }
    assert (Hfree : prev < b -> mpost (freedl (of_dl (mkDlist G b (do_hd x) (do_tl x))) true) s lowx
      (fun _ s1 => exists H1 D1, one s1 H1 D1)).
    { intros Hlt. eapply mpost_mono; [by apply (freedl_ok s H D G b x v)|by intros e s' He; left|].
      cbv beta. intros _ s1 (H1 & D1 & M). exists H1, D1. destruct M as [M1 M2 M3 M4 M5 M6].
      split; [done|]. split; [rewrite M2; apply lookup_delete_eq|]. split; [lia|]. split; [|split; [done|split]].
      - intros g b' N1 N2. rewrite M2, lookup_delete_ne by congruence. split; [done|]. by apply M3.
      - unfold own_freed. rewrite (proj2 (Z.leb_gt b prev)) by done. by rewrite Hv.
      - intros g b' o N1 N2. by apply M6. }
    destruct (Z.leb_spec b prev) as [Hle|Hlt].
    + destruct (Z.eqb_spec succ (-1)) as [E|E]; cbn [negb andb]; rewrite <- Et; by apply Hmerge.
    + rewrite andb_false_r. by apply Hfree.
  - cbv beta. intros _ s1 (H1 & D1 & Hok1 & O1 & O2 & O3 & O4 & O5 & O6).
    assert (Hin : forall b', b' ∈ bs' -> b' <> b) by (intros b' Hb' ->; done).
    assert (Hsame : forall g b', b' ∈ bs' -> D1 !! Some (g, b') = D !! Some (g, b') /\ H1 !! Some (g, b') = H !! Some (g, b')).
    { intros g b' Hb'. apply O3; [by intros [= -> ->]|]. intros (_ & -> & _). done. }
    eapply mpost_mono; [apply (IH bs' s1 H1 D1); try done|done|].
    + apply Forall2_same_length_lookup. split; [by eapply Forall2_length|]. intros i kv' b' Hi Hj.
      destruct (Forall2_lookup_lr _ _ _ _ _ _ Hkv Hi Hj) as (y & hd & tl & Hy & R).
      assert (Hb' : b' ∈ bs') by by apply list_elem_of_lookup_2 with i.
      exists y, hd, tl. split; [|done]. destruct (Hsame G b' Hb') as [_ ->]. done.
    + intros b' v' Hb'. destruct (Hsame G b' Hb') as [-> _]. apply Hcl. by right.
    + intros b' Hb' Hle. destruct (Htg b' ltac:(by right) Hle) as [T1 T2]. destruct (Hsame tgt b' Hb') as [E1 E2].
      split; [by rewrite E1|]. rewrite E2. intros Hno. apply O6; [congruence| |by apply T2].
      intros E. assert (b' = b) as -> by congruence. done.
    + cbv beta. intros _ s2 (H2 & D2 & R). exists H2, D2. destruct R as [R1 R2 R3 R4 R5 R6 R7]. split.
      * done.
      * intros b' [->|Hb']%elem_of_cons; [|by apply R2].
        destruct (R4 G b) as [-> _]; [by intros [_ ?]|by intros (? & _)|]. done.
      * intros b' w [->|Hb']%elem_of_cons Hle Hw.
        -- rewrite Hv in Hw. injection Hw as <-. destruct (R4 tgt b) as [-> _]; [by intros [? _]|by intros (_ & ? & _)|].
           by apply O2.
        -- destruct (Hsame G b' Hb') as [E1 _], (Hsame tgt b' Hb') as [E2 _]. rewrite <- E2. apply R3; [done|done|].
           by rewrite E1.
      * intros g b' N1 N2. destruct (R4 g b') as [-> ->].
        -- intros [-> Hb']. apply N1. split; [done|by right].
        -- intros (-> & Hb' & Hle). apply N2. split; [done|]. split; [by right|done].
        -- apply O3; [intros [= -> ->]; apply N1; split; [done|left]|].
           intros (-> & -> & Hle). apply N2. split; [done|]. split; [left|done].
      * by transitivity s1.
      * rewrite R6, O5. cbn. rewrite <- app_assoc. do 2 f_equal. f_equal. apply list_fmap_ext.
        intros i b' Hi. apply list_elem_of_lookup_2 in Hi. unfold own_freed. by destruct (Hsame G b' Hi) as [-> _].
      * intros g b' o N1 N2 Ho. apply R7.
        -- intros [-> Hb']. apply N1. split; [done|by right].
        -- intros [-> Hb']. apply N2. split; [done|by right].
        -- apply O6; [intros [= -> ->]; apply N1; split; [done|left]|intros [= -> ->]; apply N2; split; [done|left]|done].
Qed.

(** ** The lists of the successor *)

Record freed_succ s s' H D (S prev : Z) (bs : list Z) H' D' : Prop := {
  fs_ok : ok s' H' D';
  fs_gone b : b ∈ bs -> prev < b -> D' !! Some (S, b) = None;
  fs_rest g b : ~ (g = S /\ b ∈ bs /\ prev < b) -> D' !! Some (g, b) = D !! Some (g, b) /\ H' !! Some (g, b) = H !! Some (g, b);
  fs_fr : fr0 s s';
  fs_frees : frees (sn_out s') = frees (sn_out s) ++ concat (own_freed D S prev <$> bs);
  fs_cache g b o : at_cache s g b o -> at_cache s' g b o }.

Lemma reclaim_succ_ok prev S : forall kvs bs s H D, ok s H D -> Forall2 (kv_of H S) kvs bs -> NoDup bs ->
  (forall b v, b ∈ bs -> prev < b -> D !! Some (S, b) = Some v -> dv_open v = false) ->
  mpost (reclaim_succ kvs prev) s lowx (fun _ s' => exists H' D', freed_succ s s' H D S prev bs H' D').
Proof.
  induction kvs as [|kv kvs IH]; intros bs s H D Hok Hkv Hn Hcl.
  { apply Forall2_nil_inv_l in Hkv as ->. apply mpost_ret. exists H, D.
    split; try done; try (by intros ? ?%elem_of_nil). by rewrite app_nil_r. }
  apply Forall2_cons_inv_l in Hkv as (b & bs' & Hb & Hkv & ->). apply NoDup_cons in Hn as [Hnb Hn].
  pose proof Hb as (x0 & hd0 & tl0 & Hx0 & -> & Hhd0 & Htl0 & _).
  destruct (tree_wf _ _ _ _ _ _ Hok Hx0) as (HS & Hb64 & _).
  destruct (bk_dom _ _ _ (ok_blocks _ _ _ Hok) _ _ Hx0) as [v Hv].
  cbn [reclaim_succ]. eapply mpost_liftb; [by apply kv2dlist_eq|]. cbn [dl_gen dl_bgen].
  eapply (mpost_bind _ _ _ _ _ (fun _ s1 => exists H1 D1, ok s1 H1 D1 /\
    (prev < b -> D1 !! Some (S, b) = None) /\
    (forall g b', ~ (g = S /\ b' = b /\ prev < b) -> D1 !! Some (g, b') = D !! Some (g, b') /\ H1 !! Some (g, b') = H !! Some (g, b')) /\
    fr0 s s1 /\ frees (sn_out s1) = frees (sn_out s) ++ own_freed D S prev b /\
    (forall g b' o, at_cache s g b' o -> at_cache s1 g b' o))).
  - unfold own_freed. destruct (Z.ltb_spec prev b) as [Hlt|Hle].
    + rewrite (proj2 (Z.leb_gt b prev)), Hv by done.
      pose proof (Hcl b v ltac:(left) Hlt Hv) as Hov.
      destruct (kv_of_dl _ _ _ _ _ _ _ Hok Hb Hv Hov) as (x & Hx & Ekv).
      rewrite kv2dlist_eq in Ekv by done. injection Ekv as -> ->.
      eapply mpost_mono; [by apply (freedl_ok s H D S b x v)|by intros e s' He; left|].
      cbv beta. intros _ s1 (H1 & D1 & M). exists H1, D1. destruct M as [M1 M2 M3 M4 M5 M6].
      split; [done|]. split; [intros _; rewrite M2; apply lookup_delete_eq|]. split; [|split; [done|split; [done|done]]].
      intros g b' N1. assert (N2 : (g, b') <> (S, b)) by (intros [= -> ->]; by apply N1).
      rewrite M2, lookup_delete_ne by congruence. split; [done|]. by apply M3.
    + rewrite (proj2 (Z.leb_le b prev)) by done. apply mpost_ret. exists H, D.
      split; [done|]. split; [lia|]. split; [done|]. split; [done|]. by rewrite app_nil_r.
  - cbv beta. intros _ s1 (H1 & D1 & Hok1 & O2 & O3 & O4 & O5 & O6).
    assert (Hsame : forall g b', b' ∈ bs' -> D1 !! Some (g, b') = D !! Some (g, b') /\ H1 !! Some (g, b') = H !! Some (g, b')).
    { intros g b' Hb'. apply O3. intros (_ & -> & _). done. }
    eapply mpost_mono; [apply (IH bs' s1 H1 D1); try done|done|].
    + apply Forall2_same_length_lookup. split; [by eapply Forall2_length|]. intros i kv' b' Hi Hj.
      destruct (Forall2_lookup_lr _ _ _ _ _ _ Hkv Hi Hj) as (y & hd & tl & Hy & R).
      exists y, hd, tl. split; [|done]. destruct (Hsame S b') as [_ ->]; [by apply list_elem_of_lookup_2 with i|done].
    + intros b' v' Hb'. destruct (Hsame S b' Hb') as [-> _]. apply Hcl. by right.
    + cbv beta. intros _ s2 (H2 & D2 & R). exists H2, D2. destruct R as [R1 R2 R4 R5 R6 R7]. split.
      * done.
      * intros b' [->|Hb']%elem_of_cons Hlt; [|by apply R2].
        destruct (R4 S b) as [-> _]; [by intros (_ & ? & _)|]. by apply O2.
      * intros g b' N1. destruct (R4 g b') as [-> ->].
        -- intros (-> & Hb' & Hlt). apply N1. split; [done|]. split; [by right|done].
        -- apply O3. intros (-> & -> & Hlt). apply N1. split; [done|]. split; [left|done].
      * by transitivity s1.
      * rewrite R6, O5. cbn. rewrite <- app_assoc. do 2 f_equal. f_equal. apply list_fmap_ext.
        intros i b' Hi. apply list_elem_of_lookup_2 in Hi. unfold own_freed. by destruct (Hsame S b' Hi) as [-> _].
      * intros g b' o Ho. apply R7. by apply O6.
Qed.

(** ** [reclaimblocks] *)

(** The generations after [prev] in which something of a list was born. *)
Definition births D (g prev : Z) (bs : list Z) : Prop :=
  NoDup bs /\ forall b, b ∈ bs <-> prev < b /\ is_Some (D !! Some (g, b)).

Definition freed_list D (g b : Z) : list Z :=
  match D !! Some (g, b) with Some v => freed_segs (dv_segs v) | None => [] end.

Lemma births_high D g prev bs :
  NoDup bs -> (forall b, prev < b -> b ∈ bs <-> is_Some (D !! Some (g, b))) ->
  exists bs', births D g prev bs' /\ concat (own_freed D g prev <$> bs) = concat (freed_list D g <$> bs').
Proof.
  intros Hn Hb. exists (filter (fun b => prev < b) bs). split.
  - split; [by apply NoDup_filter|]. intros b. rewrite list_elem_of_filter. split.
    + intros [Hlt Hin]. split; [done|]. by apply Hb.
    + intros [Hlt Hs]. split; [done|]. by apply Hb.
  - clear Hn Hb. induction bs as [|b bs IH]; [done|]. rewrite filter_cons. cbn. rewrite IH. unfold own_freed at 1.
    destruct (Z.leb_spec b prev); [by rewrite decide_False by lia|]. by rewrite decide_True by lia.
Qed.

Lemma H_live s H D k : ok s H D -> is_Some (H !! k) <-> is_Some (D !! k).
Proof.
  intros Hok. split; intros [x Hx]; [exact (bk_dom _ _ _ (ok_blocks _ _ _ Hok) _ _ Hx)|].
  destruct (bk_match _ _ _ (ok_blocks _ _ _ Hok) _ _ Hx) as (y & Hy & _). by exists y.
Qed.

Definition closed D (g : Z) : Prop := forall b v, D !! Some (g, b) = Some v -> dv_open v = false.

(** The cache knows no list that is gone, up to the birth [prev]. *)
Definition nostale s D (g prev : Z) : Prop :=
  forall b, b <= prev -> D !! Some (g, b) = None -> r64 b -> at_cache s g b None.

Definition merged_list D (G S b : Z) : option Dval :=
  match D !! Some (G, b) with
  | Some v => Some (mergev (default dv0 (D !! Some (S, b))) v)
  | None => D !! Some (S, b)
  end.

(** With a successor. *)
Record reclaim_post s s' H D (G S prev : Z) H' D' : Prop := {
  rp_ok : ok s' H' D';
  rp_own b : D' !! Some (G, b) = None;
  rp_low b : b <= prev -> D' !! Some (S, b) = merged_list D G S b;
  rp_high b : prev < b -> D' !! Some (S, b) = None;
  rp_rest g b : g <> G -> g <> S -> D' !! Some (g, b) = D !! Some (g, b);
  rp_fr : fr0 s s';
  rp_frees : exists bg bs, births D G prev bg /\ births D S prev bs /\
    frees (sn_out s') ≡ₚ frees (sn_out s) ++ concat (freed_list D G <$> bg) ++ concat (freed_list D S <$> bs) }.

Lemma reclaimblocks_ok s H D G S prev :
  ok s H D -> closed D G -> closed D S -> nostale s D S prev -> r64 G -> r64 S -> S <> -1 -> S <> G ->
  mpost (reclaimblocks G S prev) s lowx (fun _ s' => exists H' D', reclaim_post s s' H D G S prev H' D').
Proof.
  intros Hok HG HS Hns HrG HrS HS1 Hne. unfold reclaimblocks. apply mpost_get.
  eapply (mpost_bind _ _ _ _ _ (fun kvs s' => s' = s /\ exists bs, Forall2 (kv_of H G) kvs bs /\ NoDup bs /\
    forall b, b ∈ bs <-> is_Some (H !! Some (G, b)))).
  { apply mpost_lift. eapply postE_weaken; [|eapply postE_mono; [by apply scan_lists; [apply Hok|]|]].
    - intros e He. by left; left.
    - cbv beta. by split. }
  intros kvs s0 (-> & bg & Hkv & Hn & Hbg).
  assert (HbG : forall b, b ∈ bg <-> is_Some (D !! Some (G, b))) by (intros b; by rewrite <- (H_live _ _ _ _ Hok)).
  eapply mpost_bind.
  { apply (reclaim_own_ok S prev G S); try done; [by rewrite (proj2 (Z.eqb_neq S (-1)))|by intros b v _; apply HG|].
    intros b Hb Hle. split; [apply HS|]. intros Hx. apply Hns; [done| |].
    { destruct (D !! Some (S, b)) eqn:E; [|done]. destruct (proj2 (H_live _ _ _ (Some (S, b)) Hok)) as [y Hy]; [by rewrite E|congruence]. }
    apply Hbg in Hb as [x Hx']. by destruct (tree_wf _ _ _ _ _ _ Hok Hx') as (_ & ? & _). }
  cbv beta. intros _ s1 (H1 & D1 & R). destruct R as [R1 R2 R3 R4 R5 R6 R7].
  rewrite (proj2 (Z.eqb_neq S (-1))) by done. apply mpost_get.
  eapply (mpost_bind _ _ _ _ _ (fun kvs s' => s' = s1 /\ exists bs, Forall2 (kv_of H1 S) kvs bs /\ NoDup bs /\
    forall b, b ∈ bs <-> is_Some (H1 !! Some (S, b)))).
  { apply mpost_lift. eapply postE_weaken; [|eapply postE_mono; [by apply scan_lists; [apply R1|]|]].
    - intros e He. by left; left.
    - cbv beta. by split. }
  intros kvs' s0 (-> & bs & Hkv' & Hn' & Hbs).
  assert (HbS : forall b, b ∈ bs <-> is_Some (D1 !! Some (S, b))) by (intros b; by rewrite <- (H_live _ _ _ _ R1)).
  assert (Hhigh : forall b, prev < b -> D1 !! Some (S, b) = D !! Some (S, b)).
  { intros b Hlt. apply R4; [by intros [? _]|]. intros (_ & _ & ?). lia. }
  assert (Hlow : forall b, b <= prev -> D1 !! Some (S, b) = merged_list D G S b).
  { intros b Hle. unfold merged_list. destruct (D !! Some (G, b)) as [v|] eqn:Ev.
    - apply R3; [|done|done]. apply HbG. by rewrite Ev.
    - apply R4; [by intros [? _]|]. intros (_ & Hb & _). apply HbG in Hb. rewrite Ev in Hb. by destruct Hb. }
  eapply mpost_mono; [apply (reclaim_succ_ok prev S kvs' bs s1 H1 D1); try done|done|].
  { intros b v _ Hlt Hv. rewrite Hhigh in Hv by done. by apply (HS b). }
  cbv beta. intros _ s2 (H2 & D2 & F). destruct F as [F1 F2 F3 F4 F5 F6]. exists H2, D2. split.
  - done.
  - intros b. destruct (F3 G b) as [-> _]; [by intros (-> & _)|].
    destruct (decide (b ∈ bg)) as [Hb|Hb]; [by apply R2|].
    destruct (R4 G b) as [-> _]; [by intros [_ ?]|by intros (? & _)|].
    destruct (D !! Some (G, b)) eqn:E; [|done]. exfalso. apply Hb, HbG. by rewrite E.
  - intros b Hle. destruct (F3 S b) as [-> _]; [by intros (_ & _ & ?); lia|]. by apply Hlow.
  - intros b Hlt. destruct (decide (b ∈ bs)) as [Hb|Hb]; [by apply F2|].
    destruct (F3 S b) as [-> _]; [by intros (_ & ? & _)|].
    destruct (D1 !! Some (S, b)) eqn:E; [|done]. exfalso. apply Hb, HbS. by rewrite E.
  - intros g b N1 N2. destruct (F3 g b) as [-> _]; [by intros (? & _)|].
    apply R4; [by intros [? _]|by intros (? & _)].
  - by transitivity s1.
  - destruct (births_high D G prev bg Hn) as (bg' & B1 & E1); [done|].
    destruct (births_high D S prev bs Hn') as (bs' & B2 & E2).
    { intros b Hlt. rewrite HbS. by rewrite Hhigh. }
    exists bg', bs'. split; [done|]. split; [done|]. rewrite F5, R6, <- app_assoc, E1, <- E2.
    do 2 apply Permutation_app_head. assert (E : own_freed D1 S prev <$> bs = own_freed D S prev <$> bs); [|by rewrite E].
    apply list_fmap_ext. intros i b _. unfold own_freed. destruct (Z.leb_spec b prev); [done|].
    by rewrite Hhigh.
Qed.

(** Without a successor the lists go to the predecessor. *)
Record tip_post s s' H D (G prev : Z) H' D' : Prop := {
  tp'_ok : ok s' H' D';
  tp'_own b : D' !! Some (G, b) = None;
  tp'_low b : b <= prev -> D' !! Some (prev, b) = merged_list D G prev b;
  tp'_high b : prev < b -> D' !! Some (prev, b) = D !! Some (prev, b);
  tp'_rest g b : g <> G -> g <> prev -> D' !! Some (g, b) = D !! Some (g, b);
  tp'_stale : nostale s' D' prev prev;
  tp'_frees : exists bg, births D G prev bg /\
    frees (sn_out s') = frees (sn_out s) ++ concat (freed_list D G <$> bg);
  tp'_fr : fr0 s s' }.

Lemma reclaim_tip_ok s H D G prev :
  ok s H D -> closed D G -> closed D prev -> nostale s D prev prev -> r64 G -> r64 prev -> prev <> -1 -> prev <> G ->
  mpost (reclaimblocks G (-1) prev) s lowx (fun _ s' => exists H' D', tip_post s s' H D G prev H' D').
Proof.
  intros Hok HG HS Hns HrG HrS HS1 Hne. unfold reclaimblocks. apply mpost_get.
  eapply (mpost_bind _ _ _ _ _ (fun kvs s' => s' = s /\ exists bs, Forall2 (kv_of H G) kvs bs /\ NoDup bs /\
    forall b, b ∈ bs <-> is_Some (H !! Some (G, b)))).
  { apply mpost_lift. eapply postE_weaken; [|eapply postE_mono; [by apply scan_lists; [apply Hok|]|]].
    - intros e He. by left; left.
    - cbv beta. by split. }
  intros kvs s0 (-> & bg & Hkv & Hn & Hbg).
  assert (HbG : forall b, b ∈ bg <-> is_Some (D !! Some (G, b))) by (intros b; by rewrite <- (H_live _ _ _ _ Hok)).
  eapply mpost_bind.
  { apply (reclaim_own_ok (-1) prev G prev); try done; [by intros b v _; apply HG|].
    intros b Hb Hle. split; [apply HS|]. intros Hx. apply Hns; [done| |].
    { destruct (D !! Some (prev, b)) eqn:E; [|done]. destruct (proj2 (H_live _ _ _ (Some (prev, b)) Hok)) as [y Hy]; [by rewrite E|congruence]. }
    apply Hbg in Hb as [x Hx']. by destruct (tree_wf _ _ _ _ _ _ Hok Hx') as (_ & ? & _). }
  cbv beta. intros _ s1 (H1 & D1 & R). destruct R as [R1 R2 R3 R4 R5 R6 R7].
  change (-1 =? -1) with true. cbv iota. apply mpost_ret. exists H1, D1. split.
  - done.
  - intros b. destruct (decide (b ∈ bg)) as [Hb|Hb]; [by apply R2|].
    destruct (R4 G b) as [-> _]; [by intros [_ ?]|by intros (? & _)|].
    destruct (D !! Some (G, b)) eqn:E; [|done]. exfalso. apply Hb, HbG. by rewrite E.
  - intros b Hle. unfold merged_list. destruct (D !! Some (G, b)) as [v|] eqn:Ev.
    + apply R3; [|done|done]. apply HbG. by rewrite Ev.
    + apply R4; [by intros [? _]|]. intros (_ & Hb & _). apply HbG in Hb. rewrite Ev in Hb. by destruct Hb.
  - intros b Hlt. apply R4; [by intros [? _]|]. intros (_ & _ & ?). lia.
  - intros g b N1 N2. apply R4; [by intros [? _]|by intros (? & _)].
  - intros b Hle Hn' Hb. assert (Hb' : b ∉ bg).
    { intros Hin. destruct (proj1 (HbG b) Hin) as [v Hv]. by rewrite (R3 b v) in Hn'. }
    apply R7; [by intros [? _]|by intros [_ ?]|]. apply Hns; [done| |done].
    destruct (R4 prev b) as [E _]; [by intros [? _]|by intros (_ & ? & _)|]. by rewrite <- E.
  - destruct (births_high D G prev bg Hn) as (bg' & B1 & E1); [done|]. exists bg'. split; [done|]. by rewrite R6, E1.
  - done.
Qed.

(** ** What the lists are for *)

(** The lists of the snapshot [g] hold, each once and by birth, the blocks
    born until its predecessor [pr] that [pr] uses and it does not, and
    blocks born later that it does not use any more.  A block born before the
    tree was forked, at [base], is on none of them. *)
Record exact (R : Z -> gset Z) (birth : Z -> Z) D (base pr g : Z) : Prop := {
  ex_nodup b v : D !! Some (g, b) = Some v -> NoDup (dv_dead v);
  ex_birth b v a : D !! Some (g, b) = Some v -> a ∈ dv_dead v -> birth a = b;
  ex_base b : b <= base -> D !! Some (g, b) = None;
  ex_in b a : base < b <= pr ->
    (exists v, D !! Some (g, b) = Some v /\ a ∈ dv_dead v) <-> a ∈ R pr /\ (a ∉ R g) /\ birth a = b;
  ex_new b v a : pr < b -> D !! Some (g, b) = Some v -> a ∈ dv_dead v -> b <= g /\ (a ∉ R g) }.

(** [G] comes after [P]: what it uses is not from the future, and the old
    blocks it uses are those of [P]. *)
Record derived (R : Z -> gset Z) (birth : Z -> Z) (P G : Z) : Prop := {
  dr_born a : a ∈ R G -> birth a <= G;
  dr_old a : a ∈ R G -> birth a <= P -> a ∈ R P }.

Definition deads D (g : Z) (bs : list Z) : list Z := concat ((fun b => from_option dv_dead [] (D !! Some (g, b))) <$> bs).
Definition listblks D (g : Z) (bs : list Z) : list Z := concat ((fun b => from_option dv_addrs [] (D !! Some (g, b))) <$> bs).

Lemma freed_list_perm D g bs : concat (freed_list D g <$> bs) ≡ₚ deads D g bs ++ listblks D g bs.
Proof.
  unfold deads, listblks. induction bs as [|b bs IH]; [done|]. rewrite !fmap_cons, !concat_cons, IH.
  unfold freed_list at 1. destruct (D !! Some (g, b)) as [v|]; cbn [from_option]; [|done].
  rewrite freed_segs_perm. rewrite <- !app_assoc. apply Permutation_app_head.
  rewrite !app_assoc. apply Permutation_app_tail. apply Permutation_app_comm.
Qed.

Lemma in_concat_fmap {A C} (f : A -> list C) l x : x ∈ concat (f <$> l) <-> exists a, a ∈ l /\ x ∈ f a.
Proof.
  induction l as [|a l IH]; cbn.
  - split; [by intros ?%elem_of_nil|by intros (? & ?%elem_of_nil & _)].
  - rewrite elem_of_app, IH. split.
    + intros [?|(b & ? & ?)]; [exists a; split; [left|done]|exists b; split; [by right|done]].
    + intros (b & [->|?]%elem_of_cons & ?); [by left|right; by exists b].
Qed.

Lemma NoDup_concat_key {A C} (f : A -> list C) (key : C -> A) l :
  NoDup l -> (forall a, a ∈ l -> NoDup (f a)) -> (forall a x, a ∈ l -> x ∈ f a -> key x = a) -> NoDup (concat (f <$> l)).
Proof.
  induction l as [|a l IH]; intros Hn Hf Hk; cbn; [constructor|]. apply NoDup_cons in Hn as [Ha Hn]. apply NoDup_app.
  split; [apply Hf; left|]. split.
  - intros x Hx Hin. apply in_concat_fmap in Hin as (b & Hb & Hxb).
    rewrite <- (Hk a x ltac:(left) Hx), (Hk b x ltac:(by right) Hxb) in Ha. done.
  - apply IH; [done| |]; intros; [apply Hf; by right|apply Hk; [by right|done]].
Qed.

Lemma in_deads D g prev bs a : births D g prev bs ->
  a ∈ deads D g bs <-> exists b v, prev < b /\ D !! Some (g, b) = Some v /\ a ∈ dv_dead v.
Proof.
  intros [_ Hb]. unfold deads. rewrite in_concat_fmap. split.
  - intros (b & Hin & Ha). apply Hb in Hin as [Hlt [v Hv]]. rewrite Hv in Ha. by exists b, v.
  - intros (b & v & Hlt & Hv & Ha). exists b. split; [apply Hb; split; [done|by exists v]|]. by rewrite Hv.
Qed.

Lemma NoDup_deads R birth D base pr g prev bs : exact R birth D base pr g -> births D g prev bs -> NoDup (deads D g bs).
Proof.
  intros [E1 E2 _ _ _] [Hn Hb]. apply (NoDup_concat_key _ birth); [done| |].
  - intros b Hin. apply Hb in Hin as [_ [v Hv]]. rewrite Hv. by eapply E1.
  - intros b a Hin Ha. apply Hb in Hin as [_ [v Hv]]. rewrite Hv in Ha. by apply (E2 b v a).
Qed.

Definition dead_at D (g b : Z) : list Z := from_option dv_dead [] (D !! Some (g, b)).

Lemma in_dead_at D g b a : a ∈ dead_at D g b <-> exists v, D !! Some (g, b) = Some v /\ a ∈ dv_dead v.
Proof.
  unfold dead_at. destruct (D !! Some (g, b)) as [v|]; cbn.
  - split; [by exists v|by intros (w & [= <-] & ?)].
  - split; [by intros ?%elem_of_nil|by intros (w & ? & _)].
Qed.

Lemma merged_dead s H D G S b v :
  ok s H D -> (forall w, D !! Some (S, b) = Some w -> tail_ok w) -> merged_list D G S b = Some v ->
  dv_dead v = dead_at D S b ++ dead_at D G b.
Proof.
  intros Hok Ht. unfold merged_list, dead_at. destruct (D !! Some (G, b)) as [vm|] eqn:Em.
  - intros [= <-]. destruct (D !! Some (S, b)) as [vd|] eqn:Ed; cbn.
    + apply mergev_dead; [exact (bk_nodup _ _ _ (ok_blocks _ _ _ Hok) _ _ Ed)|intros _; by apply Ht].
    + apply (mergev_dead dv0 vm); [constructor|done].
  - intros ->. cbn. by rewrite app_nil_r.
Qed.

(** Merging keeps the lists exact. *)
Lemma exact_merge R birth D D' base P G S s H :
  ok s H D -> derived R birth P G -> derived R birth G S -> P <= G ->
  exact R birth D base P G -> exact R birth D base G S ->
  (forall b v, b <= P -> D !! Some (S, b) = Some v -> tail_ok v) ->
  (forall b, b <= P -> D' !! Some (S, b) = merged_list D G S b) ->
  (forall b, P < b -> D' !! Some (S, b) = None) -> exact R birth D' base P S.
Proof.
  intros Hok [_ T2] [_ T4] HPG HG HS Ht Hlow Hhigh.
  assert (Hdead : forall b v, D' !! Some (S, b) = Some v -> b <= P /\ dv_dead v = dead_at D S b ++ dead_at D G b).
  { intros b v Hv. destruct (Z.le_gt_cases b P) as [Hle|Hlt]; [|by rewrite Hhigh in Hv]. split; [done|].
    rewrite Hlow in Hv by done. eapply merged_dead; [done| |done]. intros w. by apply Ht. }
  assert (HinG : forall b a, base < b <= P -> a ∈ dead_at D G b <-> a ∈ R P /\ (a ∉ R G) /\ birth a = b).
  { intros b a Hb. rewrite in_dead_at. by apply (ex_in _ _ _ _ _ _ HG). }
  assert (HinS : forall b a, base < b <= P -> a ∈ dead_at D S b <-> a ∈ R G /\ (a ∉ R S) /\ birth a = b).
  { intros b a Hb. rewrite in_dead_at. apply (ex_in _ _ _ _ _ _ HS). lia. }
  assert (Hbase : forall b, b <= base -> D' !! Some (S, b) = None).
  { intros b Hb. destruct (Z.le_gt_cases b P); [|by apply Hhigh]. rewrite Hlow by done. unfold merged_list.
    by rewrite (ex_base _ _ _ _ _ _ HG), (ex_base _ _ _ _ _ _ HS). }
  split.
  - intros b v Hv. destruct (Hdead _ _ Hv) as [Hle E]. destruct (Z.le_gt_cases b base); [by rewrite Hbase in Hv|].
    rewrite E. apply NoDup_app. split; [|split].
    + unfold dead_at. destruct (D !! Some (S, b)) eqn:E'; cbn; [by eapply (ex_nodup _ _ _ _ _ _ HS)|constructor].
    + intros a Ha1 Ha2. apply HinS in Ha1; [|lia]. apply HinG in Ha2; [|lia]. tauto.
    + unfold dead_at. destruct (D !! Some (G, b)) eqn:E'; cbn; [by eapply (ex_nodup _ _ _ _ _ _ HG)|constructor].
  - intros b v a Hv Ha. destruct (Hdead _ _ Hv) as [Hle E]. rewrite E, elem_of_app, !in_dead_at in Ha.
    destruct Ha as [(w & Hw & Ha)|(w & Hw & Ha)]; [by eapply (ex_birth _ _ _ _ _ _ HS)|by eapply (ex_birth _ _ _ _ _ _ HG)].
  - done.
  - intros b a Hb. transitivity (a ∈ dead_at D S b ++ dead_at D G b).
    + split.
      * intros (v & Hv & Ha). destruct (Hdead _ _ Hv) as [_ E]. by rewrite <- E.
      * intros Ha. destruct (merged_list D G S b) as [v|] eqn:Em.
        -- exists v. rewrite Hlow by lia. split; [done|]. erewrite merged_dead; [done|done| |done]. intros w. apply Ht. lia.
        -- exfalso. revert Em Ha. unfold merged_list, dead_at. destruct (D !! Some (G, b)); [done|]. intros ->. cbn. by intros ?%elem_of_nil.
    + rewrite elem_of_app, HinS, HinG by done. split.
      * intros [(A1 & A2 & A3)|(A1 & A2 & A3)]; [split; [apply T2; [done|lia]|done]|].
        split; [done|]. split; [|done]. intros A4. apply A2, T4; [done|lia].
      * intros (A1 & A2 & A3). destruct (decide (a ∈ R G)); tauto.
  - intros b v a Hb Hv. by rewrite Hhigh in Hv.
Qed.

Definition lists s D : Prop := exists H, ok s H D.

(** What deleting a snapshot with a successor leaves. *)
Record unsnapped s s' D (R : Z -> gset Z) (birth : Z -> Z) (base P G S : Z) D' (dead blks : list Z) : Prop := {
  us_lists : lists s' D';
  us_exact : exact R birth D' base P S;
  us_gone b : D' !! Some (G, b) = None;
  us_rest g b : g <> G -> g <> S -> D' !! Some (g, b) = D !! Some (g, b);
  us_frees : frees (sn_out s') ≡ₚ frees (sn_out s) ++ dead ++ blks;
  us_nodup : NoDup dead;
  us_unused a : a ∈ dead -> (a ∉ R P) /\ (a ∉ R S);
  us_all a : a ∈ R G -> (a ∉ R P) -> (a ∉ R S) -> a ∈ dead;
  us_in a : a ∈ dead ++ blks <-> exists g b v, (g = G \/ g = S) /\ P < b /\ D !! Some (g, b) = Some v /\
    (a ∈ dv_dead v \/ a ∈ dv_addrs v);
  us_fr : fr0 s s' }.

Lemma reclaim_full s D R birth base P G S :
  lists s D -> closed D G -> closed D S -> nostale s D S P -> r64 G -> r64 S -> S <> -1 -> S <> G -> base <= P <= G ->
  (forall a, a ∈ R P -> birth a <= P) -> derived R birth P G -> derived R birth G S -> exact R birth D base P G -> exact R birth D base G S ->
  (forall b v, b <= P -> D !! Some (S, b) = Some v -> tail_ok v) ->
  mpost (reclaimblocks G S P) s lowx (fun _ s' => exists D' dead blks, unsnapped s s' D R birth base P G S D' dead blks).
Proof.
  intros [H Hok] HG HS Hns HrG HrS HS1 Hne Hbase HP HdG HdS HeG HeS Htl.
  eapply mpost_mono; [by apply (reclaimblocks_ok s H D G S P)|done|].
  cbv beta. intros _ s' (H' & D' & [R1 R2 R3 R4 R5 R7 (bg & bs & Bg & Bs & R6)]).
  exists D', (deads D G bg ++ deads D S bs), (listblks D G bg ++ listblks D S bs).
  assert (InG : forall a, a ∈ deads D G bg -> P < birth a <= G /\ (a ∉ R G)).
  { intros a Ha. apply (in_deads _ _ _ _ _ Bg) in Ha as (b & v & Hlt & Hv & Ha).
    pose proof (ex_birth _ _ _ _ _ _ HeG _ _ _ Hv Ha). destruct (ex_new _ _ _ _ _ _ HeG _ _ _ Hlt Hv Ha). split; [lia|done]. }
  assert (InS : forall a, a ∈ deads D S bs -> P < birth a /\ (a ∉ R S) /\ (birth a <= G -> a ∈ R G)).
  { intros a Ha. apply (in_deads _ _ _ _ _ Bs) in Ha as (b & v & Hlt & Hv & Ha).
    pose proof (ex_birth _ _ _ _ _ _ HeS _ _ _ Hv Ha). split; [lia|]. destruct (Z.le_gt_cases b G) as [Hle|Hgt].
    - destruct (proj1 (ex_in _ _ _ _ _ _ HeS b a ltac:(lia))) as (A1 & A2 & _); [by exists v|]. done.
    - destruct (ex_new _ _ _ _ _ _ HeS _ _ _ Hgt Hv Ha). split; [done|lia]. }
  split.
  - by exists H'.
  - apply (exact_merge R birth D D' base P G S s H); try done; lia.
  - done.
  - done.
  - rewrite R6, !freed_list_perm. rewrite <- !app_assoc. apply Permutation_app_head.
    rewrite !app_assoc. apply Permutation_app_tail. rewrite <- !app_assoc. apply Permutation_app_head, Permutation_app_comm.
  - apply NoDup_app. split; [by eapply NoDup_deads|]. split; [|by eapply NoDup_deads].
    intros a H1 H2. destruct (InG _ H1) as [? Hn]. destruct (InS _ H2) as (_ & _ & Hi). apply Hn, Hi. lia.
  - intros a Ha. assert (Hlt : P < birth a) by (apply elem_of_app in Ha as [Ha|Ha]; [apply InG in Ha|apply InS in Ha]; tauto).
    split; [intros A; pose proof (HP _ A); lia|]. apply elem_of_app in Ha as [Ha|Ha].
    + destruct (InG _ Ha) as [? Hn]. intros A. apply Hn, (dr_old _ _ _ _ HdS); [done|lia].
    + apply (InS _ Ha).
  - intros a A1 A2 A3. apply elem_of_app. right. apply (in_deads _ _ _ _ _ Bs).
    assert (Hlt : P < birth a).
    { destruct (Z.lt_ge_cases P (birth a)) as [|Hle]; [done|]. exfalso. apply A2. by apply (dr_old _ _ _ _ HdG). }
    pose proof (dr_born _ _ _ _ HdG _ A1) as HaG.
    destruct (proj2 (ex_in _ _ _ _ _ _ HeS (birth a) a ltac:(lia))) as (v & Hv & Ha); [done|]. by exists (birth a), v.
  - intros a. rewrite !elem_of_app, (in_deads _ _ _ _ _ Bg), (in_deads _ _ _ _ _ Bs). unfold listblks.
    rewrite !in_concat_fmap. split.
    + intros [[(b & v & ? & ? & ?)|(b & v & ? & ? & ?)]|[(b & Hb & Ha)|(b & Hb & Ha)]];
        [exists G, b, v; auto|exists S, b, v; auto|apply Bg in Hb as [Hlt [v Hv]]|apply Bs in Hb as [Hlt [v Hv]]];
        rewrite Hv in Ha; [exists G|exists S]; exists b, v; auto.
    + intros (g & b & v & [-> | ->] & Hlt & Hv & [Ha|Ha]).
      * left. left. by exists b, v.
      * right. left. exists b. rewrite Hv. split; [|done]. apply Bg. split; [done|by exists v].
      * left. right. by exists b, v.
      * right. right. exists b. rewrite Hv. split; [|done]. apply Bs. split; [done|by exists v].
  - done.
Qed.

End reclaim.

(** ** Theorems *)


(** C13: deleting a snapshot that has no successor hands its lists to its
    predecessor [P], which still uses the blocks on them.  When the snapshot
    [Q] before [P] is deleted next, those blocks are freed although [P] uses
    them. *)
Theorem reclaim_tip_frees {T B} `{!MsgTree T} `{!SnapTree T} `{!SnapAlloc B} {OT : Other} (s : @Sn T B) D R birth base Q0 Q P G a :
  lists s D -> closed D Q -> closed D P -> closed D G -> nostale s D P P -> r64 Q -> r64 P -> r64 G -> P <> -1 ->
  P <> G -> P <> Q -> G <> Q -> exact R birth D base P G -> Q0 <= P -> base <= Q0 ->
  a ∈ R P -> (a ∉ R G) -> Q0 < birth a <= P ->
  mpost (do* reclaimblocks G (-1) P in reclaimblocks Q P Q0) s lowx (fun _ s' => a ∈ frees (sn_out s')).
Proof.
  intros [H Hok] HQ HP HG Hns HrQ HrP HrG HP1 Hne HPQ HGQ HeG HQP Hbase Ha Hna Hlt.
  destruct (proj2 (ex_in _ _ _ _ _ _ HeG (birth a) a ltac:(lia))) as (v & Hv & Hin); [done|].
  eapply mpost_bind; [by apply (reclaim_tip_ok s H D G P)|]. cbv beta.
  intros _ s1 (H1 & D1 & [R1 R2 R3 R4 R5 R6 _ _]).
  assert (Hm : D1 !! Some (P, birth a) = Some (mergev (default dv0 (D !! Some (P, birth a))) v)).
  { rewrite R3 by lia. unfold merged_list. by rewrite Hv. }
  eapply mpost_mono; [apply (reclaimblocks_ok s1 H1 D1 Q P Q0); try done|done|].
  - intros b w Hw. rewrite R5 in Hw by congruence. by apply (HQ b).
  - intros b w Hw. destruct (Z.le_gt_cases b P) as [Hle|Hgt].
    + rewrite R3 in Hw by done. unfold merged_list in Hw. destruct (D !! Some (G, b)); [|by apply (HP b)].
      injection Hw as <-. unfold mergev. by destruct (dv_segs _).
    + rewrite R4 in Hw by done. by apply (HP b).
  - intros b Hle. apply R6. lia.
  - cbv beta. intros _ s2 (H2 & D2 & [_ _ _ _ _ _ (bg & bs & _ & Bs & F)]). rewrite F, !elem_of_app.
    right. right. apply in_concat_fmap. exists (birth a). split; [apply Bs; split; [lia|by eexists]|].
    unfold freed_list. rewrite Hm, freed_segs_perm, elem_of_app. left. unfold mergev, dv_dead.
    destruct (dv_segs (default dv0 _)); [done|]. cbn [dv_segs]. rewrite fmap_app, concat_app. apply elem_of_app. by right.
Qed.

Lemma upto_app a l l' : a ∈ l.*1 -> upto a (l ++ l') = upto a l.
Proof.
  induction l as [|[c cs] l IH]; cbn; [by intros ?%elem_of_nil|]. intros Hin. destruct (Z.eqb_spec c a); [done|].
  f_equal. apply IH. by apply elem_of_cons in Hin as [->|?].
Qed.

(** [mergedl] does not move the tail of the list it appends to.  The
    second list that is merged into a list is linked over the first: what
    was on the first is then on no list, and it is never freed. *)
Theorem merge_twice_leaks {T B} `{!MsgTree T} `{!SnapTree T} `{!SnapAlloc B} {OT : Other} (s : @Sn T B) D S G1 G2 b v v1 v2 :
  lists s D -> D !! Some (S, b) = Some v -> D !! Some (G1, b) = Some v1 -> D !! Some (G2, b) = Some v2 ->
  dv_open v = false -> dv_open v1 = false -> dv_open v2 = false -> dv_segs v <> [] -> tail_ok v ->
  S <> G1 -> S <> G2 -> G1 <> G2 ->
  mpost (do* mergedl S G1 b in mergedl S G2 b) s lowx (fun _ s' => exists D' w, lists s' D' /\
    D' !! Some (S, b) = Some w /\ dv_dead w = dv_dead v ++ dv_dead v2 /\
    (forall gb, gb <> (S, b) -> D' !! Some gb = (delete (Some (G2, b)) (delete (Some (G1, b)) D)) !! Some gb) /\
    frees (sn_out s') = frees (sn_out s)).
Proof.
  intros [H Hok] Hv H1 H2 O O1 O2 Hne Ht N1 N2 N3.
  destruct (proj2 (H_live _ _ _ (Some (S, b)) Hok)) as [x Hx]; [by rewrite Hv|].
  destruct (tree_wf _ _ _ _ _ _ Hok Hx) as (HS & _ & HS1 & _).
  eapply mpost_bind.
  { apply (mergedl_ok s H D G1 S b v1); try done; congruence. }
  cbv beta. intros _ s1 (E1 & D1 & [M1 M2 _ _ M5 _]). rewrite Hv in M2. cbn [default from_option id] in M2.
  assert (Hw : D1 !! Some (S, b) = Some (mergev v v1)) by (rewrite M2; apply lookup_insert_eq).
  destruct (proj2 (H_live _ _ _ (Some (S, b)) M1)) as [x1 Hx1]; [by rewrite Hw|].
  eapply mpost_mono; [apply (mergedl_ok s1 E1 D1 G2 S b v2); try done|done|].
  - by rewrite M2, lookup_insert_ne, lookup_delete_ne by congruence.
  - intros w Hw'. rewrite Hw in Hw'. injection Hw' as <-. unfold mergev. by destruct (dv_segs v).
  - congruence.
  - cbv beta. intros _ s2 (E2 & D2 & [K1 K2 _ _ K5 _]). rewrite Hw in K2. cbn [default from_option id] in K2.
    exists D2, (mergev (mergev v v1) v2). split; [by exists E2|]. split; [rewrite K2; apply lookup_insert_eq|].
    pose proof (bk_nodup _ _ _ (ok_blocks _ _ _ Hok) _ _ Hv) as Hn.
    destruct (bk_match _ _ _ (ok_blocks _ _ _ Hok) _ _ Hv) as (x' & _ & Mx). pose proof (dm_in _ _ _ Mx) as Hin.
    split; [|split].
    + pose proof (upto_tail v Hn Hne Ht) as Hu. unfold mergev at 2. unfold dv_addrs in Hin.
      destruct (dv_segs v) as [|y l] eqn:El; [done|]. unfold mergev, dv_dead. cbn [dv_segs dv_tl]. rewrite Hu in *. cbn [app dv_segs].
      change (y :: l ++ dv_segs v1) with ((y :: l) ++ dv_segs v1). rewrite upto_app by done. rewrite Hu.
      by rewrite El, fmap_app, concat_app.
    + intros gb Hgb. rewrite K2, lookup_insert_ne by congruence.
      destruct (decide (gb = (G2, b))) as [->|]; [by rewrite !lookup_delete_eq|].
      rewrite !(lookup_delete_ne _ (Some (G2, b))) by congruence. by rewrite M2, lookup_insert_ne by congruence.
    + by rewrite K5, M5.
Qed.

(** ** Witnesses *)

Lemma ls_closed ls g : NoDup (lst_key <$> ls) -> closed (ls_D ls) g.
Proof. intros Hk b v (l & _ & _ & <-)%ls_lookup; done. Qed.

Lemma ls_nostale ls ot n g p : nostale (ls_state ls ot n) (ls_D ls) g p.
Proof. intros b _ _ _. unfold at_cache, dlchain. cbn. by rewrite lookup_empty. Qed.

Lemma ls_exact R birth base ls pr g :
  NoDup (lst_key <$> ls) ->
  Forall (fun l => ls_gen l = g -> NoDup (ls_ents l) /\ base < ls_birth l <= g /\
    Forall (fun a => (ls_birth l <= pr -> a ∈ R pr) /\ (a ∉ R g) /\ birth a = ls_birth l) (ls_ents l)) ls ->
  (forall a, a ∈ R pr -> (a ∉ R g) -> base < birth a <= pr -> exists l, l ∈ ls /\ lst_key l = (g, birth a) /\ a ∈ ls_ents l) ->
  exact R birth (ls_D ls) base pr g.
Proof.
  intros Hk Hl Ha. rewrite Forall_forall in Hl.
  assert (Hd : forall l, dv_dead (lst_val l) = ls_ents l) by (intros l; unfold dv_dead; cbn; apply app_nil_r).
  assert (He : forall b v a, ls_D ls !! Some (g, b) = Some v -> a ∈ dv_dead v ->
    base < b <= g /\ (b <= pr -> a ∈ R pr) /\ (a ∉ R g) /\ birth a = b).
  { intros b v a (l & Hin & [= Eg <-] & <-)%ls_lookup Hv; [|done]. rewrite Hd in Hv.
    destruct (Hl l Hin Eg) as (_ & Hb & Hf). rewrite Forall_forall in Hf. split; [lia|by apply Hf]. }
  split.
  - intros b v (l & Hin & [= <- _] & <-)%ls_lookup; [|done]. rewrite Hd. by apply Hl.
  - intros b v a Hv Hin. by apply (He b v a).
  - intros b Hb. destruct (ls_D ls !! Some (g, b)) eqn:E; [|done]. exfalso.
    apply ls_lookup in E as (l & Hin & [= Eg <-] & _); [|done]. destruct (Hl l Hin Eg). lia.
  - intros b a Hb. split.
    + intros (v & Hv & Hin). destruct (He _ _ _ Hv Hin) as (_ & Hp & Hr). split; [apply Hp; lia|done].
    + intros (A1 & A2 & <-). destruct (Ha a A1 A2) as (l & Hin & E & Hv); [lia|]. exists (lst_val l). rewrite Hd.
      split; [|done]. apply ls_lookup; [done|]. by exists l.
  - intros b v a Hb Hv Hin. destruct (He _ _ _ Hv Hin) as (? & _ & ? & _). split; [lia|done].
Qed.

(** Three snapshots, of generations 5, 8 and 12: block 10 is used by the
    first two, block 11 only by the second, block 12 only by the first; block
    14 was born and died on the way to the third. *)
Definition snap_R (g : Z) : gset Z :=
  if g =? 5 then {[blkno 10; blkno 12; blkno 13]} else if g =? 8 then {[blkno 10; blkno 11; blkno 13]} else {[blkno 13]}.
Definition snap_birth (a : Z) : Z :=
  if a =? blkno 11 then 7 else if a =? blkno 12 then 2 else if a =? blkno 14 then 9 else 3.
Definition snap_ls : list Lst :=
  [mkLst 12 3 (blkno 1) [blkno 10]; mkLst 12 7 (blkno 2) [blkno 11]; mkLst 8 2 (blkno 3) [blkno 12]; mkLst 12 9 (blkno 4) [blkno 14]].

Lemma snap_lists ls ot n (OT := map_other ot) :
  bool_decide (NoDup (lst_key <$> ls)) && bool_decide (NoDup (ls_blk <$> ls)) = true ->
  Forall (lst_ok n) ls -> nolists ot -> lists (ls_state ls ot n) (ls_D ls).
Proof.
  intros H Hw Ho. apply andb_true_iff in H as [H1 H2]. apply bool_decide_eq_true in H1, H2.
  exists (ls_H ls). by apply ls_ok.
Qed.

Lemma nolists_empty : nolists ∅.
Proof. apply map_Forall_empty. Qed.

#[local] Instance other0 : Other := map_other ∅.

Ltac in_set :=
  repeat match goal with
  | H : _ ∈ _ ∪ _ |- _ => apply elem_of_union in H as [H|H]
  | H : _ ∈ {[_]} |- _ => apply elem_of_singleton in H; subst
  end.

Ltac by_decide := refine (proj1 (bool_decide_eq_true _) _); vm_compute; reflexivity.

Lemma snap_derived : (forall a, a ∈ snap_R 5 -> snap_birth a <= 5) /\ derived snap_R snap_birth 5 8 /\ derived snap_R snap_birth 8 12.
Proof.
  change (snap_R 5) with ({[blkno 10; blkno 12; blkno 13]} : gset Z).
  split; [|split; split]; change (snap_R 5) with ({[blkno 10; blkno 12; blkno 13]} : gset Z);
    change (snap_R 8) with ({[blkno 10; blkno 11; blkno 13]} : gset Z); change (snap_R 12) with ({[blkno 13]} : gset Z);
    intros a Ha; in_set; try by vm_compute; try (intros _; set_unfold; tauto).
Qed.

Lemma snap_nodup : NoDup (lst_key <$> snap_ls).
Proof. by_decide. Qed.

Ltac ents1 := split; [apply NoDup_singleton|]; split; [done|]; apply Forall_singleton;
  split; [intros _; first [done|by_decide]|split; [by_decide|done]].

Lemma snap_exact_G : exact snap_R snap_birth (ls_D snap_ls) 0 5 8.
Proof.
  apply ls_exact; [apply snap_nodup| |].
  - repeat (apply Forall_cons; split); try done; try (by constructor). intros _. ents1.
  - intros a Ha Hn _. change (snap_R 5) with ({[blkno 10; blkno 12; blkno 13]} : gset Z) in Ha.
    change (snap_R 8) with ({[blkno 10; blkno 11; blkno 13]} : gset Z) in Hn.
    in_set; [exfalso; apply Hn; set_unfold; auto| |exfalso; apply Hn; set_unfold; auto].
    exists (mkLst 8 2 (blkno 3) [blkno 12]). split; [right; right; left|]. split; [done|left].
Qed.

Lemma snap_exact_S : exact snap_R snap_birth (ls_D snap_ls) 0 8 12.
Proof.
  apply ls_exact; [apply snap_nodup| |].
  - repeat (apply Forall_cons; split); try done; try (by constructor); intros _; [ents1|ents1|].
    split; [apply NoDup_singleton|]. split; [done|]. apply Forall_singleton. split; [done|]. split; [by_decide|done].
  - intros a Ha Hn _. change (snap_R 8) with ({[blkno 10; blkno 11; blkno 13]} : gset Z) in Ha.
    change (snap_R 12) with ({[blkno 13]} : gset Z) in Hn.
    in_set; [exists (mkLst 12 3 (blkno 1) [blkno 10])|exists (mkLst 12 7 (blkno 2) [blkno 11])|by exfalso; apply Hn, elem_of_singleton].
    + split; [left|]. split; [done|left].
    + split; [right; left|]. split; [done|left].
Qed.


(** Block 10, born at 4, is used by snapshot 5 and not by its successor 8,
    the last one. *)
Definition tip_R (g : Z) : gset Z := if g =? 5 then {[blkno 10]} else ∅.
Definition tip_ls : list Lst := [mkLst 8 4 (blkno 1) [blkno 10]].

Lemma tip_nodup : NoDup (lst_key <$> tip_ls).
Proof. by_decide. Qed.

Lemma tip_exact : exact tip_R (fun _ => 4) (ls_D tip_ls) 0 5 8.
Proof.
  apply ls_exact; [apply tip_nodup| |].
  - apply Forall_singleton. intros _. ents1.
  - intros a Ha _ _. change (tip_R 5) with ({[blkno 10]} : gset Z) in Ha. in_set.
    exists (mkLst 8 4 (blkno 1) [blkno 10]). split; [left|]. split; [done|left].
Qed.

Lemma reclaim_tip_frees_witness :
  mpost (do* reclaimblocks 8 (-1) 5 in reclaimblocks 3 5 1) (ls_state tip_ls ∅ (blkno 20)) lowx
    (fun _ s' => blkno 10 ∈ frees (sn_out s')) /\ blkno 10 ∈ tip_R 5.
Proof.
  split; [|by_decide].
  apply (reclaim_tip_frees (ls_state tip_ls ∅ (blkno 20)) (ls_D tip_ls) tip_R (fun _ => 4) 0 1 3 5 8 (blkno 10)).
  - apply snap_lists; [done|by apply ls_wf|apply nolists_empty].
  - apply ls_closed, tip_nodup.
  - apply ls_closed, tip_nodup.
  - apply ls_closed, tip_nodup.
  - apply ls_nostale.
  - done.
  - done.
  - done.
  - done.
  - done.
  - done.
  - done.
  - apply tip_exact.
  - done.
  - done.
  - by_decide.
  - by_decide.
  - done.
Defined.

(** Three snapshots that each have a list of the blocks born at 3. *)
Definition twice_ls : list Lst :=
  [mkLst 12 3 (blkno 1) [blkno 10]; mkLst 8 3 (blkno 2) [blkno 11]; mkLst 5 3 (blkno 3) [blkno 12]].

Lemma twice_lookup l : l ∈ twice_ls -> ls_D twice_ls !! Some (lst_key l) = Some (lst_val l).
Proof. intros Hin. apply ls_lookup; [by_decide|]. by exists l. Qed.

Lemma merge_twice_leaks_witness :
  mpost (do* mergedl 12 8 3 in mergedl 12 5 3) (ls_state twice_ls ∅ (blkno 20)) lowx (fun _ s' => exists D' w,
    lists s' D' /\ D' !! Some (12, 3) = Some w /\ dv_dead w = [blkno 10; blkno 12] /\ frees (sn_out s') = []).
Proof.
  eapply mpost_mono; [eapply (merge_twice_leaks (ls_state twice_ls ∅ (blkno 20)) (ls_D twice_ls) 12 8 5 3
    (lst_val (mkLst 12 3 (blkno 1) [blkno 10])) (lst_val (mkLst 8 3 (blkno 2) [blkno 11]))
    (lst_val (mkLst 5 3 (blkno 3) [blkno 12])))|done|].
  - apply snap_lists; [done|by apply ls_wf|apply nolists_empty].
  - apply (twice_lookup (mkLst 12 3 (blkno 1) [blkno 10])). left.
  - apply (twice_lookup (mkLst 8 3 (blkno 2) [blkno 11])). right. left.
  - apply (twice_lookup (mkLst 5 3 (blkno 3) [blkno 12])). right. right. left.
  - done.
  - done.
  - done.
  - done.
  - done.
  - done.
  - done.
  - done.
  - cbv beta. intros _ s' (D' & w & H1 & H2 & H3 & _ & H4). exists D', w. done.
Defined.
