(* ===== verification/Kill.v ===== *)
(** * Killed blocks and synchronising the deadlists

    [killblk] and [dlsync] of src/snap.c keep the deadlists of [Dead]; which
    of them are open, and where. *)
From S2P Require Import Prelude CInt Mem Data Keys Hash Pack Blk Io Log Queue Apply Upsert Lookup Mst Kv Entry Dead DeadOk DeadTree DeadEx Reclaim.

Section kill.
Context {T B : Type} `{!MsgTree T} `{!SnapTree T} `{!SnapAlloc B} {OT : Other}.
#[local] Abbreviation Sn := (@Sn T B).
#[local] Abbreviation key := (option (Z * Z)).
Implicit Types s : Sn.
Implicit Types (H : gmap key Dlo) (D : gmap key Dval).

(** ** Open objects

    An object with an open block is on the list of the cache, from where
    [dlsync] writes it out.  The operations open no other object than the one
    [killblk] adds to. *)

Definition settled s : Prop := forall p x, sn_dls s !! p = Some x -> do_ins x = None.

Definition pres {A} (P : Sn -> Prop) (m : M Sn A) : Prop :=
  forall s, P s -> mpost m s (fun _ _ => True) (fun _ s' => P s').

Lemma pres_bind {A C} P (m : M Sn A) (k : A -> M Sn C) : pres P m -> (forall a, pres P (k a)) -> pres P (mbind m k).
Proof. intros H1 H2 s Hs. eapply mpost_bind; [by apply H1|]. intros a s'. apply H2. Qed.
Lemma pres_ret {A} P (a : A) : pres P (mret a).
Proof. by intros s. Qed.
Lemma pres_err {A} P e : pres P (@merror Sn A e).
Proof. by intros s. Qed.
Lemma pres_lift {A} P (r : res A) : pres P (mlift r).
Proof. intros s Hs. unfold mpost, mlift. by destruct r. Qed.
Lemma pres_catch {A} P (m : M Sn A) h e0 : (forall e, h e = (do* mmod e0 in merror e)) -> pres P m -> pres P (mcatch m h).
Proof.
  intros Hh Hm s Hs. unfold mcatch. specialize (Hm s Hs). unfold mpost in *. destruct (m s) as [[a|e] s']; [done|].
  destruct (is_crash e); [done|]. by rewrite Hh.
Qed.
Lemma pres_mod P (f : Sn -> Sn) : (forall s, P s -> P (f s)) -> pres P (mmod f).
Proof. intros H s Hs. by apply H. Qed.
Lemma pres_get {C} P (k : Sn -> M Sn C) : (forall s, P s -> mpost (k s) s (fun _ _ => True) (fun _ s' => P s')) -> pres P (mbind mget k).
Proof. intros H s Hs. apply mpost_get. by apply H. Qed.
Lemma pres_getk {C} P (k : Sn -> M Sn C) : (forall s, pres P (k s)) -> pres P (mbind mget k).
Proof. intros H. apply pres_get. intros s. apply H. Qed.
Lemma pres_blk P a : pres P (blk_at a).
Proof. intros s Hs. unfold mpost, blk_at. by destruct (sn_blks s !! a). Qed.
Lemma pres_dl P r : pres P (dl_at r).
Proof. intros s Hs. unfold mpost, dl_at. destruct r as [p|]; [|done]. by destruct (sn_dls s !! p). Qed.

(** The objects and the list of the cache. *)
Definition objs_of s : gmap nat Dlo * list nat := (sn_dls s, sn_lru s).

Lemma pres_newdblk o : pres (fun s => objs_of s = o) newdblk.
Proof. intros s Hs. unfold mpost, newdblk. by destruct (sa_new (sn_al s)) as [[[a buf] al]|e]. Qed.

Ltac pres_step :=
  match goal with
  | |- pres _ (mret _) => apply pres_ret
  | |- pres _ (merror _) => apply pres_err
  | |- pres _ (mlift _) => apply pres_lift
  | |- pres _ (mcatch _ _) => eapply pres_catch; [intros ?; reflexivity|]
  | |- pres _ (blk_at _) => apply pres_blk
  | |- pres _ (dl_at _) => apply pres_dl
  | |- pres _ newdblk => apply pres_newdblk
  | |- pres _ (mmod _) => apply pres_mod; intros ? ?; done
  | |- pres _ (put_dl None _) => apply pres_mod; intros ? ?; done
  | |- pres _ (mbind mget _) => apply pres_getk; intros ?
  | |- pres _ (mbind _ _) => apply pres_bind; [|intros ?]
  | |- pres _ (if ?c then _ else _) => destruct c
  | |- pres _ (match ?c with _ => _ end) => destruct c
  end.

Lemma pres_enqueue o a : pres (fun s => objs_of s = o) (enqueue a).
Proof. unfold enqueue, queue, put_blk, emit. repeat pres_step. Qed.

Lemma pres_snapupsert o ms : pres (fun s => objs_of s = o) (snapupsert ms).
Proof.
  unfold snapupsert. repeat pres_step. generalize (skills (sn_snap s) ms). intros l.
  induction l as [|bp l IH]; cbn [killsnap]; [apply pres_ret|]. apply pres_bind; [|done].
  unfold add_dead, put_blk. pose proof (pres_enqueue o). repeat (pres_step || done).
Qed.

Lemma dlcacheget_objs s g b :
  mpost (dlcacheget g b) s (fun _ _ => True) (fun r s' => at_cache s g b r /\ sn_dls s' = sn_dls s /\
    match r with Some p => sn_lru s' = filter (fun q => q <> p) (sn_lru s) | None => s' = s end).
Proof.
  unfold dlcacheget. apply mpost_get.
  eapply (mpost_bind _ _ _ _ _ (fun r s' => s' = s /\ at_cache s g b r)).
  { unfold mpost, mlift, at_cache. destruct (dlfind _ _ _ _); done. }
  intros r s' [-> Hr]. destruct r as [p|]; [|by apply mpost_ret].
  unfold dlcachedel. unfold mpost, mbind, dl_at, mmod, mret, mget. destruct (sn_dls s !! p); [|done]. done.
Qed.

Definition opened_only s s' : Prop :=
  forall q y, sn_dls s' !! q = Some y -> is_Some (do_ins y) -> sn_dls s !! q = Some y.

Lemma getdl_objs s g b :
  mpost (getdl g b) s (fun _ _ => True) (fun p s' => (forall q, at_cache s g b (Some q) -> p = q) /\
    opened_only s s' /\ forall q, q ∈ sn_lru s -> q = p \/ q ∈ sn_lru s').
Proof.
  unfold getdl. eapply mpost_bind; [apply dlcacheget_objs|]. cbv beta. intros r s1 (Hr & Hd & Hl).
  assert (Hq : forall q, at_cache s g b (Some q) -> r = Some q).
  { intros q. unfold at_cache in *. rewrite Hr. congruence. }
  destruct r as [p|].
  { apply mpost_ret. split; [intros q Hq'; apply Hq in Hq'; congruence|]. split; [intros q y; by rewrite Hd|].
    intros q Hin. destruct (decide (q = p)); [by left|right]. rewrite Hl. by apply list_elem_of_filter. }
  subst s1. apply mpost_get.
  eapply (mpost_bind _ _ _ _ _ (fun _ s' => s' = s)); [unfold mpost, mlift; by destruct (tget _ _ _)|]. intros kv s' ->.
  eapply (mpost_bind _ _ _ _ _ (fun dl s' => do_ins dl = None /\ objs_of s' = objs_of s)).
  { destruct kv as [kv|].
    - eapply (mpost_bind _ _ _ _ _ (fun _ s' => s' = s)); [unfold mpost, mlift; by destruct (kv2dlist _)|]. by intros d s' ->.
    - eapply (mpost_bind _ _ _ _ _ (fun _ s' => s' = s)); [unfold mpost, mlift; by destruct (dlist2kv _ _)|]. intros d s' ->.
      eapply mpost_bind; [by apply (pres_snapupsert (objs_of s))|]. cbv beta. by intros _ s' Ho. }
  cbv beta. intros dl s1 [Hi Ho]. unfold objs_of in Ho. injection Ho as Ed El.
  apply mpost_get, mpost_mod, mpost_ret. cbn. split; [intros q Hq'; by apply Hq in Hq'|]. split.
  - intros q y Hy Hi'. cbn in Hy. apply lookup_insert_Some in Hy as [[_ <-]|[_ Hy]]; [rewrite Hi in Hi'; by destruct Hi'|]. congruence.
  - intros q Hin. right. by rewrite El.
Qed.

(** Everything a client needs to know: the lists, and where open ones are. *)
Definition lru_ok s H : Prop :=
  forall p x, sn_dls s !! p = Some x -> is_Some (do_ins x) ->
    p ∈ sn_lru s /\ exists g b, H !! Some (g, b) = Some x /\ at_cache s g b (Some p).
Definition sys s D : Prop := exists H, ok s H D /\ lru_ok s H.

Lemma settled_lru s H : settled s -> lru_ok s H.
Proof. intros Hs p x Hx Hi. rewrite (Hs _ _ Hx) in Hi. by destruct Hi. Qed.

(** ** [killblk] *)

(** The list of [k] has one more entry. *)
Record killed s s' D (k : key) (a : Z) D' : Prop := {
  kl_sys : sys s' D';
  kl_list : exists v, D' !! k = Some v /\ dv_dead v ≡ₚ a :: dv_dead (default dv0 (D !! k)) /\
    (tail_ok (default dv0 (D !! k)) -> tail_ok v);
  kl_rest gb : k <> Some gb -> D' !! Some gb = D !! Some gb;
  kl_fr : fr0 s s';
  kl_frees : frees (sn_out s') = frees (sn_out s) }.

Lemma cached_at s H D g b x p :
  ok s H D -> H !! Some (g, b) = Some x -> at_cache s g b (Some p) -> sn_dls s !! p = Some x.
Proof.
  intros Hok Hx Hc. destruct (cp_cached _ _ (ok_cache _ _ _ Hok) _ _ _ Hx) as (o & Ho & Hm).
  unfold at_cache in *. rewrite Hc in Ho. by injection Ho as <-.
Qed.

(** An open list may be ahead of what is stored. *)
Lemma tree_open t H g b x y :
  tree_part t H -> H !! Some (g, b) = Some x -> do_gen y = do_gen x -> do_bgen y = do_bgen x -> is_Some (do_ins y) ->
  tree_part t (<[Some (g, b) := y]> H).
Proof.
  intros [H1 H2 H3 H4 H5 H6 H7] Hx Eg Eb [a Ha]. split; try done.
  - intros k kv Hk Hh. destruct (H3 _ _ Hk Hh) as (g' & b' & z & -> & Hz). exists g', b'.
    destruct (decide (Some (g, b) = Some (g', b'))) as [[= -> ->]|Hne].
    + exists y. by rewrite lookup_insert_eq.
    + exists z. by rewrite lookup_insert_ne.
  - intros g' b' z [[[= <- <-] <-]|[_ Hz]]%lookup_insert_Some; [|by apply H4].
    destruct (H4 _ _ _ Hx) as (? & ? & ? & ? & ?). by rewrite Eg, Eb.
  - intros g' b' z [[[= <- <-] <-]|[_ Hz]]%lookup_insert_Some; [|by apply H5].
    destruct (H5 _ _ _ Hx) as (hd & tl & E & W1 & W2 & _). exists hd, tl. rewrite Ha. done.
Qed.

(** An entry for a cached list. *)
Lemma add_dead_list s H D g b x v p bp :
  ok s H D -> H !! Some (g, b) = Some x -> D !! Some (g, b) = Some v -> at_cache s g b (Some p) ->
  addr_ok (bp_addr bp) ->
  mpost (add_dead (Some p) bp) s low (fun _ s' => exists x' v',
    ok s' (<[Some (g, b) := x']> H) (<[Some (g, b) := v']> D) /\
    dv_dead v' ≡ₚ bp_addr bp :: dv_dead v /\ (tail_ok v -> tail_ok v') /\ fr s s' /\
    objs s s' (Some p) x' /\ do_gen x' = g /\ (forall g' b' o, at_cache s g' b' o -> at_cache s' g' b' o)).
Proof.
  intros Hok Hx Hv Hat Ha. pose proof (cached_at _ _ _ _ _ _ _ Hok Hx Hat) as Hp. pose proof Hok as [Ht Hc Hk].
  destruct (tree_wf _ _ _ _ _ _ Hok Hx) as (_ & _ & _ & Eg & Eb & _).
  eapply mpost_mono; [by eapply (add_dead_ok s H D (Some p) _ x v); try done; apply Ht|done|].
  cbv beta. intros _ s' (Hf & Esn & x' & v' & Ho & Hl & E1 & E2 & Hi & Hk' & Hd & Htl).
  exists x', v'. split; [|split; [done|split; [done|split; [done|split; [done|split; [congruence|]]]]]].
  - split; [rewrite Esn; by eapply tree_open|eapply (cache_set s s' H (Some p)); try done; split; [by exists p|done]|done].
  - intros g' b' o. by apply (at_cache_set s s' (Some p) x x').
Qed.

(** The lists after an entry for the list of the snapshot tree. *)
Lemma killblk_snap s D t bp :
  sys s D -> t_snap t = true -> addr_ok (bp_addr bp) ->
  mpost (killblk t bp) s lowx (fun _ s' => exists D', killed s s' D None (bp_addr bp) D').
Proof.
  intros (H & Hok & Hl) E Ha. unfold killblk. rewrite E.
  destruct (cp_none _ _ (ok_cache _ _ _ Hok)) as [Hn Hgen]. destruct (snap_list _ _ _ Hok) as [v Hv].
  pose proof Hok as [Ht Hc Hk].
  eapply mpost_mono; [by eapply (add_dead_ok s H D None None); try done; apply Ht|by intros e s' He; left|].
  cbv beta. intros _ s' (Hf & Esn & x' & v' & Ho & Hlk & E1 & E2 & Hi & Hk' & Hd & Htl).
  exists (<[None := v']> D). split.
  - exists (<[None := x']> H). split.
    + split; [|eapply (cache_set s s' H None); try done; split; [done|congruence]|done].
      rewrite Esn. eapply tree_part_ext; [|done]. intros g b. by rewrite lookup_insert_ne.
    + pose proof Ho as [_ Ed]. intros p y Hy Hi'. rewrite Ed in Hy. destruct (Hl p y Hy Hi') as (Hin & g & b & HH & Hat).
      split; [by rewrite (fr_lru _ _ Hf)|]. exists g, b. rewrite lookup_insert_ne by done. split; [done|].
      by eapply (at_cache_set s s' None).
  - exists v'. rewrite lookup_insert_eq, Hv. done.
  - intros gb _. by rewrite lookup_insert_ne.
  - by apply fr_fr0.
  - apply (fr_frees _ _ Hf).
Qed.

Lemma killblk_ok s D t bp :
  sys s D -> addr_ok (bp_addr bp) -> r64 (t_memgen t) -> r64 (bp_gen bp) -> t_memgen t <> -1 ->
  nostale s D (t_memgen t) (bp_gen bp) ->
  mpost (killblk t bp) s lowx (fun _ s' =>
    if t_snap t then exists D', killed s s' D None (bp_addr bp) D'
    else if t_base t <? bp_gen bp then exists D', killed s s' D (Some (t_memgen t, bp_gen bp)) (bp_addr bp) D'
    else s' = s).
Proof.
  intros Hsys Ha Hm Hg Hm1 Hns. destruct (t_snap t) eqn:Esnap; [by apply killblk_snap|].
  destruct Hsys as (H & Hok & Hlru). unfold killblk. rewrite Esnap.
  destruct (t_base t <? bp_gen bp); [|by apply mpost_ret].
  set (g := t_memgen t) in *. set (b := bp_gen bp) in *.
  eapply mpost_bind.
  { eapply mpost_mono; [apply mpost_and; [apply (getdl_ok s H D g b); try done|apply getdl_objs]|by intros e s' [He _]; left|by intros a s' HQ; exact HQ].
    intros Hx. apply Hns; [lia| |done]. destruct (D !! Some (g, b)) eqn:E; [|done].
    destruct (proj2 (H_live _ _ _ (Some (g, b)) Hok)) as [y Hy]; [by rewrite E|congruence]. }
  cbv beta. intros p s1 ((H1 & D1 & x & G1) & Op & Oo & Ol). pose proof (gt_ok _ _ _ _ _ _ _ _ _ _ G1) as Hok1.
  assert (HD1 : D1 !! Some (g, b) = Some (default dv0 (D !! Some (g, b)))).
  { rewrite (gt_D _ _ _ _ _ _ _ _ _ _ G1). apply lookup_insert_eq. }
  destruct (tree_wf _ _ _ _ _ _ Hok1 (gt_x _ _ _ _ _ _ _ _ _ _ G1)) as (_ & _ & _ & Eg & _).
  eapply (mpost_bind _ _ _ _ _ (fun _ s2 => exists x' v', ok s2 (<[Some (g, b) := x']> H1) (<[Some (g, b) := v']> D1) /\
    dv_dead v' ≡ₚ bp_addr bp :: dv_dead (default dv0 (D !! Some (g, b))) /\
    (tail_ok (default dv0 (D !! Some (g, b))) -> tail_ok v') /\ fr s1 s2 /\
    objs s1 s2 (Some p) x' /\ do_gen x' = g /\ (forall g' b' o, at_cache s1 g' b' o -> at_cache s2 g' b' o))).
  - eapply (mpost_catch _ _ _ _ (fun e s => low e s /\ alive [(p, g)] s)).
    + eapply mpost_mono; [apply mpost_and;
        [by apply (add_dead_list s1 H1 D1 g b x (default dv0 (D !! Some (g, b))) p); try done; apply G1|
         apply (keeps_add_dead [(p, g)])]|done|by intros a s' [HQ _]].
      split; [apply (cp_count _ _ (ok_cache _ _ _ Hok1))|]. intros q g' [= -> ->]%list_elem_of_singleton.
      exists x. split; [apply (gt_obj _ _ _ _ _ _ _ _ _ _ G1)|done].
    + cbv beta. intros e s' [He Hal]. destruct (is_crash e); [by left|].
      eapply (putdl_alive [(p, g)]); [done|left|done|]. intros s3 _. by left.
  - cbv beta. intros _ s2 (x' & v' & Hok2 & Hd & Htl & Hf & [_ Ho] & Eg' & Hat). cbn in Ho.
    assert (Hx' : sn_dls s2 !! p = Some x') by (rewrite Ho; apply lookup_insert_eq).
    unfold mpost. rewrite (putdl_eq _ _ x') by first [done|congruence|apply (cp_count _ _ (ok_cache _ _ _ Hok2))].
    exists (<[Some (g, b) := v']> D1). split.
    + exists (<[Some (g, b) := x']> H1). split.
      { apply ok_lru; [done|]. intros q [-> |Hq]%elem_of_cons; [by rewrite Hx'|].
        apply list_elem_of_filter in Hq as [_ Hq]. by apply (cp_lru _ _ (ok_cache _ _ _ Hok2)). }
      intros q y Hy Hi. cbn in Hy |- *. rewrite Ho in Hy. apply lookup_insert_Some in Hy as [[<- <-]|[Hne Hy]].
      { split; [left|]. exists g, b. rewrite lookup_insert_eq. split; [done|]. apply (Hat g b (Some p)), G1. }
      pose proof (Oo _ _ Hy Hi) as Hy0. destruct (Hlru _ _ Hy0 Hi) as (Hin & g' & b' & HH & Hc).
      assert (Hgb : (g', b') <> (g, b)) by (intros [= -> ->]; apply Hne; by apply Op).
      split.
      * right. apply list_elem_of_filter. split; [done|]. rewrite (fr_lru _ _ Hf). by destruct (Ol q Hin) as [->|].
      * exists g', b'. rewrite lookup_insert_ne by congruence. rewrite (gt_H _ _ _ _ _ _ _ _ _ _ G1) by done.
        split; [done|]. apply (Hat g' b' (Some q)). by apply (gt_other _ _ _ _ _ _ _ _ _ _ G1).
    + exists v'. rewrite lookup_insert_eq. done.
    + intros gb Hne. rewrite lookup_insert_ne by done. rewrite (gt_D _ _ _ _ _ _ _ _ _ _ G1). by rewrite lookup_insert_ne.
    + transitivity s1; [apply G1|]. transitivity s2; [by apply fr_fr0|by split].
    + change (sn_out (sn_set_lru _ s2)) with (sn_out s2). rewrite (fr_frees _ _ Hf). apply G1.
Qed.

(** ** [dlsync] *)

Definition close (v : Dval) : Dval := mkDval (dv_segs v) (dv_tl v) false.

(** The open block is queued and the list refers to its final pointer. *)
Definition flushed_dl (x : Dlo) (bp : Bptr) : Dlo :=
  do_set x bp (if bp_addr (do_tl x) =? bp_addr bp then bp else do_tl x) None.

Lemma flush_blocks s s' H D r k x v a b b' :
  blocks_ok s H D -> H !! k = Some x -> D !! k = Some v -> do_ins x = Some a ->
  sn_blks s !! a = Some b -> open_blk b -> enqueued s s' a b b' -> seg_ok b' a (from_option snd [] (head (dv_segs v))) ->
  blocks_ok (setl s' r (flushed_dl x (b_bp b'))) (<[k := flushed_dl x (b_bp b')]> H) (<[k := close v]> D).
Proof.
  intros Hk Hx Hv Hi Hb Ho He Hs'. pose proof (enqueued_blocks _ _ _ _ _ _ _ He Hb Ho Hk) as Hk'.
  destruct (bk_match _ _ _ Hk' _ _ Hv) as (x' & E & [M1 M2 [M3 M3'] M5 M4]). rewrite Hx in E. injection E as <-.
  rewrite Hi in M4. destruct M4 as (_ & es & r' & b0 & Es & _ & _). rewrite Es in M1.
  destruct (sg_bp _ _ _ Hs') as [Ebp Hwf].
  apply (blocks_set s'); try done; try (by destruct r).
  - intros k' v0 c Hne Hv0 Hc. split; [by destruct r|]. intros Hc'. apply Hne. symmetry.
    exact (bk_sep _ _ _ Hk _ _ _ _ _ Hv Hv0 Hc' Hc).
  - assert (Ebl : sn_blks (setl s' r (flushed_dl x (b_bp b'))) = sn_blks s') by by destruct r. rewrite Ebl.
    split; cbn [flushed_dl do_set do_hd do_tl do_ins close dv_segs dv_tl dv_open]; try done.
    + rewrite Es. destruct M1 as (M1a & M1b). split; [done|]. done.
    + destruct (Z.eqb_spec (bp_addr (do_tl x)) (bp_addr (b_bp b'))) as [E|E]; [|done]. split; [done|]. congruence.
  - exact (bk_nodup _ _ _ Hk _ _ Hv).
  - apply Forall_forall. intros c Hc. assert (Eal : sn_al (setl s' r (flushed_dl x (b_bp b'))) = sn_al s) by (destruct r; apply He).
    rewrite Eal. exact (bk_live _ _ _ Hk _ _ _ Hv Hc).
Qed.

(** What [dlflush] does to a list in use, or to the list of the snap tree. *)
Record flushed s s' H D (k : key) H' D' : Prop := {
  fl_ok : ok s' H' D';
  fl_D k' v : D !! k' = Some v -> exists w, D' !! k' = Some w /\
    (k' = None \/ if decide (k' = k) then w = close v else w = v);
  fl_dom gb : D !! Some gb = None -> D' !! Some gb = None;
  fl_H gb : Some gb <> k -> H' !! Some gb = H !! Some gb;
  fl_dls p x : sn_dls s !! p = Some x -> exists y, sn_dls s' !! p = Some y /\ (do_ins y = None \/ y = x);
  fl_only : opened_only s s';
  fl_fr : fr s s';
  fl_cache g b o : at_cache s g b o -> at_cache s' g b o }.

Lemma dlflush_list s H D g b x p :
  ok s H D -> H !! Some (g, b) = Some x -> at_cache s g b (Some p) ->
  mpost (dlflush (Some p)) s low (fun _ s' => exists H' D', flushed s s' H D (Some (g, b)) H' D').
Proof.
  intros Hok Hx Hat. pose proof (cached_at _ _ _ _ _ _ _ Hok Hx Hat) as Hp. pose proof Hok as [Ht Hc Hk].
  destruct (bk_dom _ _ _ Hk _ _ Hx) as [v Hv]. unfold dlflush. eapply mpost_dl; [exact Hp|].
  destruct (do_ins x) as [a|] eqn:Hi.
  2:{ apply mpost_ret. exists H, D. assert (Hcl : close v = v).
      { destruct (bk_match _ _ _ Hk _ _ Hv) as (x' & E & M). rewrite Hx in E. injection E as <-.
        pose proof (dm_ins _ _ _ M) as Hm. rewrite Hi in Hm. destruct v; cbn in *. by subst. }
      split; try done.
      - intros k' w Hw. exists w. split; [done|]. right. destruct (decide (k' = Some (g, b))) as [->|]; [congruence|done].
      - intros q y Hy. exists y. by split; [|right].
    - by intros q y. }
  destruct (open_head _ _ _ _ _ _ _ Hk Hx Hv Hi) as (es & r & bk & Es & Hb & Hs & Ha & Ho & _).
  destruct (tree_wf _ _ _ _ _ _ Hok Hx) as (Hg & Hb64 & Hg1 & Eg & Eb & _).
  eapply mpost_bind; [by eapply enqueue_ok|]. cbv beta. intros bp s1 (b' & He & ->).
  pose proof (eq_seg _ _ _ _ _ He _ Hs) as Hs'. destruct (sg_bp _ _ _ Hs') as [Ebp Hwf].
  apply mpost_putdl. fold (flushed_dl x (b_bp b')). set (y := flushed_dl x (b_bp b')).
  change (do_gen y) with (do_gen x). rewrite (proj2 (Z.eqb_neq (do_gen x) (-1))) by congruence.
  eapply mpost_liftb; [by apply dlist2kv_eq|].
  change (dlist_kv (dl_gen (to_dl y)) (dl_bgen (to_dl y)) (dl_hd (to_dl y)) (dl_tl (to_dl y)))
    with (dlist_kv (do_gen x) (do_bgen x) (do_hd y) (do_tl y)). rewrite Eg, Eb.
  set (s2 := setl s1 (Some p) y).
  assert (Hf2 : fr s s2) by (transitivity s1; [apply (eq_fr _ _ _ _ _ He)|apply fr_setl]).
  assert (Ho2 : objs s s2 (Some p) y).
  { destruct (eq_objs _ _ _ _ _ He) as [O1 O2]. unfold objs, s2. cbn. by rewrite O1, O2. }
  assert (Hk2 : blocks_ok s2 (<[Some (g, b) := y]> H) (<[Some (g, b) := close v]> D)).
  { eapply (flush_blocks s s1 H D (Some p)); try done. by rewrite Es. }
  assert (Hc2 : cache_part s2 (<[Some (g, b) := y]> H)).
  { eapply (cache_set s s2 H (Some p)); try done. split; [by exists p|done]. }
  destruct (snap_list _ _ _ Hok) as [v0 Hv0].
  destruct (bk_match _ _ _ Hk2 (Some (g, b)) (close v)) as (y' & Ey & [_ W1 [W2 _] _ _]); [apply lookup_insert_eq|].
  rewrite lookup_insert_eq in Ey. injection Ey as <-.
  eapply mpost_mono; [eapply (upsert_ins s2 _ H _ v0 g b y); try done|done|].
  - unfold s2. cbn. by rewrite (eq_snap _ _ _ _ _ He).
  - by rewrite lookup_insert_ne.
  - cbv beta. intros _ s3 (Hf3 & Ed3 & H3 & D3 & Hok3 & HH & HD). exists H3, D3. split.
    + done.
    + intros k' w Hw. destruct k' as [gb|].
      * destruct (decide (Some gb = Some (g, b))) as [[= ->]|Hne].
        -- exists (close w). rewrite HD, lookup_insert_eq. split; [congruence|]. right. done.
        -- exists w. rewrite HD, lookup_insert_ne by done. split; [done|]. by right.
      * destruct (snap_list _ _ _ Hok3) as [w' Hw']. exists w'. split; [done|by left].
    + intros gb Hn. rewrite HD. rewrite lookup_insert_ne; [done|]. intros [= <-]. congruence.
    + intros gb Hne. rewrite HH. by rewrite lookup_insert_ne.
    + intros q z Hz. rewrite Ed3. destruct Ho2 as [_ ->]. destruct (decide (p = q)) as [<-|Hne].
      * exists y. rewrite lookup_insert_eq. by split; [|left].
      * exists z. rewrite lookup_insert_ne by done. by split; [|right].
    + intros q z Hz Hi'. rewrite Ed3 in Hz. destruct Ho2 as [_ E]. rewrite E in Hz.
      apply lookup_insert_Some in Hz as [[_ <-]|[_ Hz]]; [by destruct Hi'|done].
    + by transitivity s2.
    + intros g' b1 o Hat'. eapply at_cache_eq; [done|apply (fr_cache _ _ Hf3)|apply (fr_max _ _ Hf3)|].
      by apply (at_cache_set s s2 (Some p) x y).
Qed.

Lemma dlflush_snap s H D :
  ok s H D ->
  mpost (dlflush None) s low (fun _ s' => exists H', ok s' H' (match D !! None with Some v => <[None := close v]> D | None => D end) /\
    (forall gb, H' !! Some gb = H !! Some gb) /\ sn_dls s' = sn_dls s /\ fr s s' /\
    (forall g b o, at_cache s g b o -> at_cache s' g b o)).
Proof.
  intros Hok. pose proof Hok as [Ht Hc Hk]. destruct (cp_none _ _ Hc) as [Hn Hg]. destruct (snap_list _ _ _ Hok) as [v Hv].
  rewrite Hv. unfold dlflush. eapply (mpost_dl None); [done|].
  destruct (do_ins (sn_snapdl s)) as [a|] eqn:Hi.
  2:{ apply mpost_ret. exists H. split; [|done]. rewrite insert_id; [done|]. rewrite Hv. f_equal.
      destruct (bk_match _ _ _ Hk _ _ Hv) as (x' & E & M). rewrite Hn in E. injection E as <-.
      pose proof (dm_ins _ _ _ M) as Hm. rewrite Hi in Hm. destruct v; cbn in *. by subst. }
  destruct (open_head _ _ _ _ _ _ _ Hk Hn Hv Hi) as (es & r & bk & Es & Hb & Hs & Ha & Ho & _).
  eapply mpost_bind; [by eapply enqueue_ok|]. cbv beta. intros bp s1 (b' & He & ->).
  pose proof (eq_seg _ _ _ _ _ He _ Hs) as Hs'. destruct (sg_bp _ _ _ Hs') as [Ebp Hwf].
  apply mpost_putdl. fold (flushed_dl (sn_snapdl s) (b_bp b')). set (y := flushed_dl (sn_snapdl s) (b_bp b')).
  change (do_gen y) with (do_gen (sn_snapdl s)). rewrite Hg. change (-1 =? -1) with true. cbv iota. apply mpost_ret.
  set (s2 := setl s1 None y). destruct (eq_objs _ _ _ _ _ He) as [O1 O2].
  assert (Hf2 : fr s s2) by (transitivity s1; [apply (eq_fr _ _ _ _ _ He)|apply (fr_setl s1 None)]).
  exists (<[None := y]> H). split; [|split; [intros gb; by rewrite lookup_insert_ne|split; [done|split; [done|]]]].
  - split.
    + eapply tree_part_ext; [intros g b; by rewrite lookup_insert_ne|]. unfold s2. cbn. by rewrite (eq_snap _ _ _ _ _ He).
    + eapply (cache_set s s2 H None); done.
    + eapply (flush_blocks s s1 H D None); try done. by rewrite Es.
  - intros g b o Hat. eapply at_cache_eq; [exact O1|apply (fr_cache _ _ Hf2)|apply (fr_max _ _ Hf2)|done].
Qed.

(** An object with an open block belongs to a list in use. *)
Definition inuse s H (p : nat) : Prop :=
  forall x, sn_dls s !! p = Some x -> is_Some (do_ins x) -> exists g b, H !! Some (g, b) = Some x /\ at_cache s g b (Some p).

(** Every list with an open block is on the list of the cache. *)
Definition onlru H (ps : list nat) s : Prop :=
  forall g b x, H !! Some (g, b) = Some x -> is_Some (do_ins x) -> exists p, p ∈ ps /\ at_cache s g b (Some p).

Lemma close_open s H D gb x v : ok s H D -> H !! gb = Some x -> D !! gb = Some v -> do_ins x = None -> close v = v.
Proof.
  intros Hok Hx Hv Hi. destruct (bk_match _ _ _ (ok_blocks _ _ _ Hok) _ _ Hv) as (x' & E & M). rewrite Hx in E. injection E as <-.
  pose proof (dm_ins _ _ _ M) as Hm. rewrite Hi in Hm. destruct v; cbn in *. by subst.
Qed.

Lemma dlflush_all_ok ps : forall s H D,
  ok s H D -> (forall p, p ∈ ps -> is_Some (sn_dls s !! p) /\ inuse s H p) -> onlru H ps s ->
  mpost (dlflush_all ps) s low (fun _ s' => exists H' D', ok s' H' D' /\ fr s s' /\
    (forall gb, D' !! Some gb = close <$> D !! Some gb) /\ opened_only s s' /\
    (forall g b o, at_cache s g b o -> at_cache s' g b o)).
Proof.
  induction ps as [|p ps IH]; intros s H D Hok Hp Hlru; cbn [dlflush_all].
  { apply mpost_ret. exists H, D. split; [done|]. split; [done|]. split; [|split; [by intros q y|done]].
    intros [g b]. destruct (D !! Some (g, b)) as [v|] eqn:Hv; [|done].
    destruct (proj2 (H_live _ _ _ (Some (g, b)) Hok)) as [x Hx]; [by rewrite Hv|]. cbn. f_equal. symmetry.
    eapply close_open; [done|exact Hx|done|]. destruct (do_ins x) eqn:Hi; [|done].
    destruct (Hlru g b x Hx) as (q & Hq & _); [by rewrite Hi|]. by apply elem_of_nil in Hq. }
  destruct (Hp p) as [[x Hx] Hu]; [left|].
  destruct (do_ins x) as [a|] eqn:Hi.
  - destruct (Hu x Hx) as (g & b & HH & Hat); [by rewrite Hi|].
    eapply mpost_bind; [by eapply (dlflush_list s H D g b x p)|]. cbv beta. intros _ s1 (H1 & D1 & F).
    destruct F as [F1 F2 F3 F4 F5 Fo F6 F7].
    assert (Hp1 : forall y, sn_dls s1 !! p = Some y -> do_ins y = None).
    { intros y Hy. pose proof (F7 _ _ _ Hat) as Hat1. destruct (proj1 (H_live _ _ _ (Some (g, b)) Hok)) as [v Hv]; [by rewrite HH|].
      destruct (F2 _ _ Hv) as (w & Hw & [?|E]); [done|]. rewrite decide_True in E by done. subst w.
      destruct (proj2 (H_live _ _ _ (Some (g, b)) F1)) as [y1 Hy1]; [by rewrite Hw|].
      pose proof (cached_at _ _ _ _ _ _ _ F1 Hy1 Hat1) as Ey. rewrite Hy in Ey. injection Ey as <-.
      destruct (bk_match _ _ _ (ok_blocks _ _ _ F1) _ _ Hw) as (x' & E & M). rewrite Hy1 in E. injection E as <-.
      pose proof (dm_ins _ _ _ M) as Hm. destruct (do_ins y); [by destruct Hm|done]. }
    eapply mpost_mono; [apply (IH s1 H1 D1 F1)|done|].
    + intros q Hq. destruct (Hp q ltac:(by right)) as [[z Hz] Huq]. destruct (F5 _ _ Hz) as (y & Hy & Hor).
      split; [by rewrite Hy|]. intros y' Hy' Hi'. rewrite Hy in Hy'. injection Hy' as <-.
      destruct Hor as [E| ->]; [rewrite E in Hi'; by destruct Hi'|]. destruct (Huq z Hz Hi') as (g' & b' & HH' & Hat').
      exists g', b'. split; [|by apply F7]. rewrite F4; [done|]. intros [= -> ->].
      rewrite HH in HH'. injection HH' as <-. pose proof (F7 _ _ _ Hat) as A1. pose proof (F7 _ _ _ Hat') as A2.
      unfold at_cache in A1, A2. rewrite A1 in A2. injection A2 as ->. rewrite (Hp1 _ Hy) in Hi'. by destruct Hi'.
    + intros g' b' y Hy Hi'. destruct (decide ((g', b') = (g, b))) as [[= -> ->]|Hne].
      * exfalso. pose proof (F7 _ _ _ Hat) as Hat1. pose proof (cached_at _ _ _ _ _ _ _ F1 Hy Hat1) as Ey.
        rewrite (Hp1 _ Ey) in Hi'. by destruct Hi'.
      * rewrite F4 in Hy by congruence. destruct (Hlru _ _ _ Hy Hi') as (q & Hq & Hat').
        exists q. split; [|by apply F7]. apply elem_of_cons in Hq as [->|Hq]; [|done]. exfalso. apply Hne.
        pose proof (cached_at _ _ _ _ _ _ _ Hok Hy Hat') as E1. destruct (cached_key _ _ _ _ _ Hat' E1) as [<- <-].
        by destruct (cached_key _ _ _ _ _ Hat E1) as [<- <-].
    + cbv beta. intros _ s2 (H2 & D2 & Hok2 & Hf2 & HD2 & Ho2 & Hc2). exists H2, D2. split; [done|]. split; [by transitivity s1|].
      split; [|split; [intros q y Hy Hi'; exact (Fo _ _ (Ho2 _ _ Hy Hi') Hi')|intros g1 b1 o1 Hat1; apply Hc2, F7, Hat1]].
      intros gb. rewrite HD2. destruct (D !! Some gb) as [v|] eqn:Hv; [|by rewrite F3].
      destruct (F2 _ _ Hv) as (w & -> & [?|E]); [done|]. cbn. destruct (decide (Some gb = Some (g, b))); by subst.
  - eapply (mpost_eqb _ _ _ _ _ tt s); [unfold dlflush, mbind, dl_at; by rewrite Hx, Hi|].
    apply (IH s H D); [done|intros q Hq; apply Hp; by right|]. intros g b y Hy Hi'. destruct (Hlru _ _ _ Hy Hi') as (q & Hq & Hat).
    exists q. split; [|done]. apply elem_of_cons in Hq as [->|Hq]; [|done]. exfalso.
    pose proof (cached_at _ _ _ _ _ _ _ Hok Hy Hat) as E. rewrite Hx in E. injection E as <-. rewrite Hi in Hi'. by destruct Hi'.
Qed.

Lemma dlsync_ok s D :
  sys s D ->
  mpost dlsync s low (fun _ s' => exists D', lists s' D' /\ settled s' /\ fr0 s s' /\ frees (sn_out s') = frees (sn_out s) /\
    (forall gb, D' !! Some gb = close <$> D !! Some gb) /\ (forall g b o, at_cache s g b o -> at_cache s' g b o)).
Proof.
  intros (H & Hok & Hlru). unfold dlsync. eapply mpost_bind; [by apply dlflush_snap|]. cbv beta.
  intros _ s1 (H1 & Hok1 & HH & Ed & Hf & Hca). apply mpost_get. rewrite (fr_lru _ _ Hf).
  destruct (snap_list _ _ _ Hok) as [v Hv]. rewrite Hv in Hok1.
  eapply mpost_mono; [eapply dlflush_all_ok; [exact Hok1| |]|done|].
  - intros p Hp. rewrite Ed. split; [by apply (cp_lru _ _ (ok_cache _ _ _ Hok))|]. intros x Hx Hi. rewrite Ed in Hx.
    destruct (Hlru p x Hx Hi) as (_ & g & b & Hg & Hat). exists g, b. rewrite HH. split; [done|by apply Hca].
  - intros g b x Hx Hi. rewrite HH in Hx.
    destruct (cp_cached _ _ (ok_cache _ _ _ Hok) _ _ _ Hx) as ([p|] & Hat & Hp); [|rewrite Hp in Hi; by destruct Hi].
    destruct (Hlru p x Hp Hi) as [Hin _]. exists p. split; [done|by apply Hca].
  - cbv beta. intros _ s2 (H2 & D2 & Hok2 & Hf2 & HD2 & Ho & Hc2). exists D2.
    assert (HD : forall gb, D2 !! Some gb = close <$> D !! Some gb).
    { intros gb. rewrite HD2. by rewrite lookup_insert_ne. }
    split; [by exists H2|]. split.
    { intros p y Hy. destruct (do_ins y) eqn:Hi; [|done]. exfalso.
      assert (Hi' : is_Some (do_ins y)) by by rewrite Hi. pose proof (Ho _ _ Hy Hi') as Hy1. rewrite Ed in Hy1.
      destruct (Hlru p y Hy1 Hi') as (_ & g & b & Hg & Hat). apply Hca, Hc2 in Hat.
      destruct (proj1 (H_live _ _ _ (Some (g, b)) Hok)) as [w Hw]; [by rewrite Hg|].
      pose proof (HD (g, b)) as E. rewrite Hw in E. cbn in E.
      destruct (bk_match _ _ _ (ok_blocks _ _ _ Hok2) _ _ E) as (x' & Hx' & M).
      pose proof (cached_at _ _ _ _ _ _ _ Hok2 Hx' Hat) as Ex. rewrite Hy in Ex. injection Ex as <-.
      pose proof (dm_ins _ _ _ M) as Hm. rewrite Hi in Hm. by destruct Hm. }
    split; [transitivity s1; by apply fr_fr0|]. split; [by rewrite (fr_frees _ _ Hf2), (fr_frees _ _ Hf)|]. split; [done|].
    intros g b o Hat. by apply Hc2, Hca.
Qed.

(** ** Nothing open stays so *)

Lemma settled_objs {A} (m : M Sn A) : (forall o, pres (fun s => objs_of s = o) m) -> pres settled m.
Proof.
  intros H s Hs. eapply mpost_mono; [by apply (H (objs_of s))|done|]. cbv beta. intros a s' E p x Hx.
  unfold objs_of in E. injection E as Ed _. rewrite Ed in Hx. by apply (Hs p).
Qed.

Lemma settled_put p x : do_ins x = None -> pres settled (put_dl (Some p) x).
Proof. intros Hi. apply pres_mod. intros s Hs q y Hy. cbn in Hy. apply lookup_insert_Some in Hy as [[_ <-]|[_ Hy]]; [done|by apply (Hs q)]. Qed.

Lemma settled_dl {C} p (k : Dlo -> M Sn C) :
  (forall x, do_ins x = None -> pres settled (k x)) -> pres settled (mbind (dl_at (Some p)) k).
Proof.
  intros Hk s Hs. unfold mpost, mbind, dl_at. destruct (sn_dls s !! p) as [x|] eqn:Ex; [|done].
  apply Hk; [by apply (Hs p)|done].
Qed.

Definition never {A} (m : M Sn A) : Prop := forall s, mpost m s (fun _ _ => True) (fun _ _ => False).

Lemma never_bind {A C} (m : M Sn A) (k : A -> M Sn C) : (forall a, never (k a)) -> never (mbind m k).
Proof. intros H s. eapply (mpost_bind _ _ _ _ _ (fun _ _ => True)); [unfold mpost; by destruct (m s) as [[]]|]. intros a s' _. apply H. Qed.
Lemma never_err {A} e : never (@merror Sn A e).
Proof. by intros s. Qed.

Lemma settled_catch {A} (m : M Sn A) h : pres settled m -> (forall e, never (h e)) -> pres settled (mcatch m h).
Proof.
  intros Hm Hh s Hs. pose proof (Hm s Hs) as H. unfold mpost, mcatch in *. destruct (m s) as [[a|e] s']; [done|].
  destruct (is_crash e); [done|]. specialize (Hh e s'). unfold mpost in Hh. by destruct (h e s') as [[]].
Qed.

Lemma settled_enqueue a : pres settled (enqueue a).
Proof. apply settled_objs. intros o. apply pres_enqueue. Qed.
Lemma settled_upsert ms : pres settled (snapupsert ms).
Proof. apply settled_objs. intros o. apply pres_snapupsert. Qed.

Ltac settle :=
  repeat match goal with
  | |- pres settled (enqueue _) => apply settled_enqueue
  | |- pres settled (snapupsert _) => apply settled_upsert
  | |- pres settled (put_dl (Some _) _) => apply settled_put; done
  | |- pres settled (mbind (dl_at (Some _)) _) => apply settled_dl; intros ? ?
  | |- pres settled (mcatch _ _) => apply settled_catch; [|intros ?; apply never_bind; intros ?; try (apply never_bind; intros ?); apply never_err]
  | |- _ => pres_step
  end.

Lemma settled_dlflush p : pres settled (dlflush (Some p)).
Proof. unfold dlflush. apply settled_dl. intros x ->. apply pres_ret. Qed.

Lemma settled_cachedel p hdel : pres settled (dlcachedel p hdel).
Proof. unfold dlcachedel. settle. Qed.

Lemma settled_putdl p : pres settled (putdl p).
Proof.
  destruct p as [p|]; cbn [putdl]; [|apply pres_err]. pose proof (settled_cachedel p false).
  settle; [done|]. generalize (length (sn_lru s)). intros n. clear s.
  induction n as [|n IH]; cbn [dlevict]; settle; try apply settled_dlflush; try apply settled_cachedel; try done.
  apply pres_mod. intros s' Hs q y Hy. cbn in Hy. apply lookup_delete_Some in Hy as [_ Hy]. by apply (Hs q).
Qed.

Lemma settled_getdl g b : pres settled (getdl g b).
Proof.
  unfold getdl. apply pres_bind.
  { unfold dlcacheget. settle. apply settled_cachedel. }
  intros [p|]; [apply pres_ret|]. apply pres_getk. intros s0. apply pres_bind; [settle|]. intros kv.
  intros s Hs. eapply (mpost_bind _ _ _ _ _ (fun dl s' => do_ins dl = None /\ settled s')).
  { destruct kv as [kv|].
    - eapply (mpost_bind _ _ _ _ _ (fun _ s' => s' = s)); [unfold mpost, mlift; by destruct (kv2dlist _)|]. by intros d s' ->.
    - eapply (mpost_bind _ _ _ _ _ (fun _ s' => s' = s)); [unfold mpost, mlift; by destruct (dlist2kv _ _)|]. intros d s' ->.
      eapply mpost_bind; [by apply settled_upsert|]. cbv beta. intros u s' Hs'. by split. }
  intros dl s1 [Hi Hs1]. apply mpost_get, mpost_mod, mpost_ret. intros q y Hy. cbn in Hy.
  apply lookup_insert_Some in Hy as [[_ <-]|[_ Hy]]; [done|by apply (Hs1 q)].
Qed.

Lemma settled_mergedl mg g b : pres settled (mergedl mg g b).
Proof.
  unfold mergedl. pose proof (settled_getdl mg b). pose proof (settled_getdl g b). settle; try done; try apply settled_putdl.
  unfold mergeinto, write_now, put_blk, emit. settle.
Qed.

Lemma settled_freedl dl : pres settled (freedl dl true).
Proof.
  unfold freedl. settle. generalize (size (sn_blks s)) (do_hd dl). intros n. induction n as [|n IH]; intros bp; cbn [freedl_loop]; settle.
  - generalize (Z.to_nat (b_logsz a0 / 8)) 0. intros k. induction k as [|k IHk]; intros o; cbn [free_entries]; unfold queue, emit; settle. done.
  - unfold queue, emit. settle.
  - done.
Qed.

Lemma settled_reclaim g succ prev : pres settled (reclaimblocks g succ prev).
Proof.
  unfold reclaimblocks. apply pres_getk. intros s0. apply pres_bind; [settle|]. intros kvs. apply pres_bind.
  - clear s0. induction kvs as [|kv kvs IH]; cbn [reclaim_own]; settle; try apply settled_mergedl; try apply settled_freedl; done.
  - intros _. settle. clear kvs. match goal with |- pres _ (reclaim_succ ?k _) => induction k as [|kv kvs IH] end; cbn [reclaim_succ]; settle;
      try apply settled_freedl; done.
Qed.

End kill.

(** ** Theorems *)

(** C31: [killblk] adds the block to exactly one list: to the list of the
    snapshot tree for a block of that tree, and for a block that was born
    after the tree was forked to the tree's list of that birth.  A block the
    tree shares with the tree it was forked from is left alone: the other
    tree frees it. *)
Theorem killblk_correct {T B} `{!MsgTree T} `{!SnapTree T} `{!SnapAlloc B} {OT : Other} (s : @Sn T B) D t bp :
  sys s D -> addr_ok (bp_addr bp) -> r64 (t_memgen t) -> r64 (bp_gen bp) -> t_memgen t <> -1 ->
  nostale s D (t_memgen t) (bp_gen bp) ->
  mpost (killblk t bp) s lowx (fun _ s' =>
    if t_snap t then exists D', killed s s' D None (bp_addr bp) D'
    else if t_base t <? bp_gen bp then exists D', killed s s' D (Some (t_memgen t, bp_gen bp)) (bp_addr bp) D'
    else s' = s).
Proof. apply killblk_ok. Qed.

(** ** Witnesses *)

Lemma ls_settled ls ot n : settled (ls_state ls ot n).
Proof. intros p x Hx. cbn in Hx. by rewrite lookup_empty in Hx. Qed.

Lemma ls_sys ls ot n (OT := map_other ot) :
  bool_decide (NoDup (lst_key <$> ls)) && bool_decide (NoDup (ls_blk <$> ls)) = true ->
  Forall (lst_ok n) ls -> nolists ot -> sys (ls_state ls ot n) (ls_D ls).
Proof.
  intros H1 H2 H3. destruct (snap_lists ls ot n H1 H2 H3) as [H HH]. exists H. split; [done|apply settled_lru, ls_settled].
Qed.

#[local] Instance other1 : Other := map_other ∅.

(** A tree of memory generation 12 that was forked at 5. *)
Definition snap_tree : Tree := mkTree false 1 12 1 0 1 1 0 (mkBptr 0 0 0) 11 8 (-1) 5.

Lemma killblk_correct_witness :
  mpost (killblk snap_tree (mkBptr (blkno 10) 0 7)) (ls_state snap_ls ∅ (blkno 20)) lowx (fun _ s' =>
    exists D', killed (ls_state snap_ls ∅ (blkno 20)) s' (ls_D snap_ls) (Some (12, 7)) (blkno 10) D').
Proof.
  eapply mpost_mono; [apply (killblk_correct (ls_state snap_ls ∅ (blkno 20)) (ls_D snap_ls))|done|].
  - apply ls_sys; [done|by apply ls_wf|apply nolists_empty].
  - done.
  - done.
  - done.
  - done.
  - apply ls_nostale.
  - cbv beta. intros _ s' H. exact H.
Defined.
