(* ===== verification/Snap.v ===== *)
(** * Labels and snapshots (src/snap.c: [delsnap], [tagsnap], [updatesnap],
    [opensnap], [closesnap]; src/fs.c: [snapfs])

    The tree of snapshots maps a label to a generation and a generation to
    the descriptor of a tree with its neighbours in the list of snapshots and
    the numbers of its labels and successors.  A mounted tree is an object in
    memory, reached through the [root] of its mount; it has counts of its
    own.  The state is that of [Dead]. *)
From S2P Require Import Prelude CInt Mem Data Keys Hash Pack Blk Io Log Queue Apply Upsert Lookup Mst Kv Entry Srv Serve Dead DeadOk DeadTree.

Definition empty_name : list Z := [101; 109; 112; 116; 121].

(** The names of labels that may be neither made nor removed. *)
Definition reserved (name : list Z) : bool :=
  bool_decide (name = dump_name) || bool_decide (name = empty_name) || bool_decide (name = adm_name).

Definition snapkey (gen : Z) : list Z := [Ksnap] ++ PACK64 gen.
Definition lblkey (name : list Z) : list Z := [Klabel] ++ name.

Definition t_set_memref (t : Tree) (x : Z) : Tree :=
  mkTree (t_snap t) x (t_memgen t) (t_dirty t) (t_nref t) (t_nlbl t) (t_ht t) (t_flag t) (t_bp t) (t_gen t)
    (t_pred t) (t_succ t) (t_base t).
Definition t_set_dirty (t : Tree) (x : Z) : Tree :=
  mkTree (t_snap t) (t_memref t) (t_memgen t) x (t_nref t) (t_nlbl t) (t_ht t) (t_flag t) (t_bp t) (t_gen t)
    (t_pred t) (t_succ t) (t_base t).
Definition t_set_pred (t : Tree) (x : Z) : Tree :=
  mkTree (t_snap t) (t_memref t) (t_memgen t) (t_dirty t) (t_nref t) (t_nlbl t) (t_ht t) (t_flag t) (t_bp t) (t_gen t)
    x (t_succ t) (t_base t).
Definition t_set_succ (t : Tree) (x : Z) : Tree :=
  mkTree (t_snap t) (t_memref t) (t_memgen t) (t_dirty t) (t_nref t) (t_nlbl t) (t_ht t) (t_flag t) (t_bp t) (t_gen t)
    (t_pred t) x (t_base t).

(** What [opensnap] makes of the stored descriptor. *)
Definition t_open (t : Tree) (memgen : Z) : Tree :=
  mkTree (t_snap t) 1 memgen (t_dirty t) (t_nref t) (t_nlbl t) (t_ht t) (t_flag t) (t_bp t) (t_gen t)
    (t_pred t) (t_succ t) (t_base t).

(** The tree [updatesnap] makes of [o], and the one [tagsnap] forks from [t]. *)
Definition t_next (o : Tree) (pred memgen : Z) : Tree :=
  mkTree false 1 memgen 0 0 1 (t_ht o) 0 (t_bp o) (t_memgen o) pred (-1) (t_base o).
Definition t_fork (t : Tree) (gen memgen : Z) : Tree :=
  mkTree false 1 memgen 0 0 1 (t_ht t) 0 (t_bp t) gen (t_gen t) (-1) (t_gen t).

Section snap.
Context {T B : Type} `{!MsgTree T} `{!SnapTree T} `{!SnapAlloc B}.
#[local] Abbreviation Sn := (@Sn T B).

Definition tree_at (p : nat) : M Sn Tree :=
  fun s => match sn_trees s !! p with Some t => (Ok t, s) | None => (Err Eoob, s) end.
Definition put_tree (p : nat) (t : Tree) : M Sn unit := mmod (fun s => sn_set_trees (<[p := t]> (sn_trees s)) s).
Definition new_tree (t : Tree) : M Sn nat :=
  let* s := mget in
  do* mmod (fun s => sn_set_tnew (S (sn_tnew s)) (sn_set_trees (<[sn_tnew s := t]> (sn_trees s)) s)) in
  mret (sn_tnew s).

(** [aincv(&fs->nextgen, 1)], the value after. *)
Definition newgen : M Sn Z :=
  let* s := mget in
  do* mmod (sn_set_nextgen (sn_nextgen s + 1)) in
  mret (sn_nextgen s + 1).

Definition closesnap (p : nat) : M Sn unit :=
  let* t := tree_at p in
  do* put_tree p (t_set_memref t (t_memref t - 1)) in
  if t_memref t - 1 =? 0 then mmod (fun s => sn_set_limbo (sn_limbo s ++ [p]) s) else mret tt.

(** The object and the flags of the label; [broke] in the handler's scope. *)
Definition opensnap (label : list Z) : M Sn (option (nat * Z)) :=
  let* k := mlift (packlbl Kvmax label) in
  let* s := mget in
  let* kv := mlift (tget (sn_snap s) k Kvmax) in
  match kv with
  | None => mret None
  | Some kv =>
      assert* zlen (kv_v kv) =? 1 + 8 + 4 in
      let* gen := mlift (rd64 (kv_v kv) 1) in
      let* flg := mlift (rd32 (kv_v kv) (1 + 8)) in
      let* k := mlift (packsnap Kvmax (s64 gen)) in
      let* s := mget in
      let* kv := mlift (tget (sn_snap s) k Kvmax) in
      match kv with
      | None => merror Efs
      | Some kv =>
          let* t := mlift (unpacktree (kv_v kv) (zlen (kv_v kv))) in
          let* memgen := newgen in
          let* p := new_tree (t_open t memgen) in
          mret (Some (p, flg))
      end
  end.

(** The loop over the mounts in [delsnap]. *)
Fixpoint relink (ms : list Smnt) (p : nat) : M Sn unit :=
  match ms with
  | [] => mret tt
  | m :: ms' =>
      let* t := tree_at p in
      let* r := tree_at (sm_root m) in
      do* (if t_gen r =? t_succ t then put_tree (sm_root m) (t_set_pred r (t_pred t)) else mret tt) in
      let* t := tree_at p in
      let* r := tree_at (sm_root m) in
      do* (if t_gen r =? t_pred t then put_tree (sm_root m) (t_set_succ r (t_succ t)) else mret tt) in
      relink ms' p
  end.

(** The messages that take a tree out of the list of snapshots. *)
Definition unlink_msgs (t : Tree) (succ : Z) : res (list Msg) :=
  let! kv := retag2kv (t_pred t) succ 0 0 Kvmax in
  let! ms := if negb (t_succ t =? -1) then let! kv := retag2kv (t_succ t) (t_pred t) 0 0 Kvmax in Ok [kvmsg Oreprev kv]
             else Ok [] in
  let! k := packsnap Kvmax (t_gen t) in
  Ok (kvmsg Orelink kv :: ms ++ [mkMsg Odelete k []]).

(** The label goes; the count only goes down in memory. *)
Definition unlabel (p : nat) (name : option (list Z)) : M Sn (list Msg) :=
  match name with
  | None => mret []
  | Some name =>
      if reserved name then merror Ename
      else
        let* k := mlift (packlbl Kvmax name) in
        let* t := tree_at p in
        do* put_tree p (set_counts t (t_nlbl t - 1) (t_nref t)) in
        mret [mkMsg Odelete k []]
  end.

(** The last label is gone and there is at most one successor. *)
Definition deltree (t : Tree) : bool := (t_nlbl t =? 0) && (t_nref t <=? 1).

Definition delsnap (p : nat) (succ : Z) (name : option (list Z)) : M Sn unit :=
  let* m1 := unlabel p name in
  let* t := tree_at p in
  let* m2 := if deltree t then mlift (unlink_msgs t succ) else mret [] in
  do* dlsync in
  do* snapupsert (m1 ++ m2) in
  if deltree t then
    do* reclaimblocks (t_gen t) succ (t_pred t) in
    let* s := mget in
    relink (sn_mounts s) p
  else mret tt.

Definition tagsnap (p : nat) (name : list Z) (flg : Z) : M Sn unit :=
  if reserved name then merror Ename
  else
    let* t := tree_at p in
    if negb (Z.land flg Lmut =? 0) then
      let* gen := newgen in
      let* memgen := newgen in
      let n := t_fork t gen memgen in
      do* put_tree p (set_counts t (t_nlbl t) (t_nref t + 1)) in
      let* kv1 := mlift (retag2kv (t_gen t) (t_succ t) 0 1 Kvmax) in
      let* kv2 := mlift (lbl2kv name gen flg Kvmax) in
      let* kv3 := mlift (tree2kv n Kvmax) in
      snapupsert [kvmsg Orelink kv1; kvmsg Oinsert kv2; kvmsg Oinsert kv3]
    else
      do* put_tree p (set_counts t (t_nlbl t + 1) (t_nref t)) in
      let* kv1 := mlift (retag2kv (t_gen t) (t_succ t) 1 0 Kvmax) in
      do* put_tree p (set_counts (t_set_pred t (t_gen t)) (t_nlbl t + 2) (t_nref t)) in
      let* kv2 := mlift (lbl2kv name (t_gen t) flg Kvmax) in
      snapupsert [kvmsg Orelink kv1; kvmsg Oinsert kv2].

(** [*r = t], the root of the mount [i]. *)
Definition set_root (i : nat) (p : nat) : M Sn unit :=
  mmod (fun s => sn_set_mounts (alter (fun m => mkSmnt (sm_name m) (sm_flag m) p) i (sn_mounts s)) s).

(** [r] is the root of the mount [i]; the new object is handed out when it
    becomes visible. *)
Definition updatesnap (i : nat) (p : nat) (lbl : list Z) (flg : Z) : M Sn unit :=
  let* o := tree_at p in
  if t_dirty o =? 0 then mret tt
  else
    do* put_tree p (set_counts o (t_nlbl o - 1) (t_nref o + 1)) in
    let* memgen := newgen in
    let last := (t_nlbl o - 1 =? 0) && (t_nref o + 1 =? 1) in
    let t := t_next o (if last then t_pred o else t_gen o) memgen in
    let* kv1 := mlift (if last then retag2kv (t_pred t) (t_gen t) 0 0 Kvmax
                       else retag2kv (t_pred t) (t_gen t) (-1) 1 Kvmax) in
    let* kv2 := mlift (tree2kv t Kvmax) in
    let* kv3 := mlift (lbl2kv lbl (t_gen t) flg Kvmax) in
    do* snapupsert [kvmsg Orelink kv1; kvmsg Oinsert kv2; kvmsg Oinsert kv3] in
    let* o := tree_at p in
    do* put_tree p (t_set_dirty o 0) in
    do* (if last then delsnap p (t_gen t) None else mret tt) in
    do* closesnap p in
    let* q := new_tree t in
    set_root i q.

(** ** [snapfs] of src/fs.c

    The tree that is to be swept is handed back; the handler hands back
    nothing. *)

Fixpoint find_mount (ms : list Smnt) (i : nat) (name : list Z) : option (nat * Smnt) :=
  match ms with
  | [] => None
  | m :: ms' => if bool_decide (name = sm_name m) then Some (i, m) else find_mount ms' (S i) name
  end.

Definition hold_tree (p : nat) : M Sn unit :=
  let* t := tree_at p in put_tree p (t_set_memref t (t_memref t + 1)).

(** The tree to work on, and whether it is mounted. *)
Definition snap_src (old : list Z) : M Sn (option (nat * bool)) :=
  let* s := mget in
  match find_mount (sn_mounts s) 0 old with
  | Some (i, m) =>
      do* updatesnap i (sm_root m) (sm_name m) (sm_flag m) in
      let* s := mget in
      match sn_mounts s !! i with
      | None => merror Eoob
      | Some m => do* hold_tree (sm_root m) in mret (Some (sm_root m, true))
      end
  | None =>
      let* r := opensnap old in
      mret (match r with Some (p, _) => Some (p, false) | None => None end)
  end.

Definition snapfs (old new : list Z) (delete : bool) (flag : Z) : M Sn (option nat) :=
  let* r := snap_src old in
  match r with
  | None => mret None
  | Some (p, mounted) =>
      if delete then
        if (mounted : bool) then mret None
        else
          let* t := tree_at p in
          let* tp := if (t_nlbl t =? 1) && (t_nref t <=? 1) && (t_succ t =? -1)
                     then do* hold_tree p in mret (Some p) else mret None in
          do* delsnap p (t_succ t) (Some old) in
          do* closesnap p in
          mret tp
      else
        let* n := opensnap new in
        match n with
        | Some (q, _) => do* closesnap q in mret None
        | None =>
            do* tagsnap p new flag in
            do* closesnap p in
            mret None
        end
  end.
End snap.
