(* ===== verification/SnapOk.v ===== *)
(** * The tree of snapshots as two maps

    What [Snap] stores in the tree of snapshots, as a map from generations to
    descriptors and one from labels to generations, with an operation for
    each message the code sends; a batch of messages does what the
    operations do one after the other. *)
From S2P Require Import Prelude CInt Mem Data Keys Hash Pack Blk Io Log Queue Apply Upsert Lookup Mst Kv Entry Dead DeadOk DeadTree DeadEx Reclaim Kill Snap.

Abbreviation Vmap := (gmap Z Tree).
Abbreviation Lmap := (gmap (list Z) (Z * Z)).

Definition treekv (g : Z) (t : Tree) : Kvp := mkKvp (snapkey g) (tree_bytes t).
Definition lblkv (name : list Z) (g f : Z) : Kvp := mkKvp (lblkey name) ([Ksnap] ++ PACK64 g ++ PACK32 f).

(** The operations on the two maps. *)
Inductive Vop : Type :=
  | VLink (g succ dl dr : Z)     (** [Orelink] *)
  | VPrev (g pred : Z)           (** [Oreprev] *)
  | VTree (t : Tree)
  | VLbl (name : list Z) (g f : Z)
  | VDel (g : Z)
  | VUnlbl (name : list Z).

Definition retagkv (g link dl dr : Z) : Kvp := mkKvp (snapkey g) (PACK64 link ++ PACK8 dl ++ PACK8 dr).

Definition vmsg (o : Vop) : Msg :=
  match o with
  | VLink g succ dl dr => kvmsg Orelink (retagkv g succ dl dr)
  | VPrev g pred => kvmsg Oreprev (retagkv g pred 0 0)
  | VTree t => kvmsg Oinsert (treekv (t_gen t) t)
  | VLbl name g f => kvmsg Oinsert (lblkv name g f)
  | VDel g => mkMsg Odelete (snapkey g) []
  | VUnlbl name => mkMsg Odelete (lblkey name) []
  end.

Definition vlink (t : Tree) (succ dl dr : Z) : Tree := set_counts (t_set_succ t succ) (t_nlbl t + dl) (t_nref t + dr).

Definition vstep (o : Vop) (V : Vmap) (L : Lmap) : option (Vmap * Lmap) :=
  match o with
  | VLink g succ dl dr => t ← V !! g; Some (<[g := vlink t succ dl dr]> V, L)
  | VPrev g pred => t ← V !! g; Some (<[g := t_set_pred t pred]> V, L)
  | VTree t => Some (<[t_gen t := disk_tree t]> V, L)
  | VLbl name g f => Some (V, <[name := (g, f)]> L)
  | VDel g => _ ← V !! g; Some (delete g V, L)
  | VUnlbl name => _ ← L !! name; Some (V, delete name L)
  end.

Fixpoint vsteps (os : list Vop) (V : Vmap) (L : Lmap) : option (Vmap * Lmap) :=
  match os with
  | [] => Some (V, L)
  | o :: os' => '(V, L) ← vstep o V L; vsteps os' V L
  end.

(** What an operation needs beyond its target. *)
Definition vok (o : Vop) (V : Vmap) : Prop :=
  match o with
  | VLink g succ dl dr => r64 succ /\ - 2 ^ 7 <= dl < 2 ^ 7 /\ - 2 ^ 7 <= dr < 2 ^ 7 /\
      forall t, V !! g = Some t -> 0 <= t_nlbl t + dl < 2 ^ 31 /\ 0 <= t_nref t + dr < 2 ^ 31
  | VPrev g pred => r64 pred
  | VTree t => wf_tree t /\ 0 <= t_nlbl t /\ 0 <= t_nref t
  | VLbl name g f => r64 g /\ 0 <= f < 2 ^ 32 /\ zlen name + 14 <= Kvmax
  | VDel g => True
  | VUnlbl name => True
  end.

(** The part of the tree that is not about deadlists holds the two maps. *)
Record snaps (OT : Other) (V : Vmap) (L : Lmap) : Prop := {
  sp_tree g t : V !! g = Some t ->
    r64 g /\ wf_tree t /\ disk_tree t = t /\ t_gen t = g /\ 0 <= t_nlbl t /\ 0 <= t_nref t /\
    ot_val (snapkey g) = Some (treekv g t);
  sp_notree g : r64 g -> V !! g = None -> ot_val (snapkey g) = None;
  sp_lbl name g f : L !! name = Some (g, f) -> ot_val (lblkey name) = Some (lblkv name g f) /\ r64 g /\ 0 <= f < 2 ^ 32;
  sp_nolbl name : L !! name = None -> ot_val (lblkey name) = None;
  sp_fits g : ot_fits (snapkey g) Kvmax;
  sp_lfits name : ot_fits (lblkey name) Kvmax }.

(** ** One message *)

Definition ot_put (OT : Other) (m : Msg) (v : option Kvp) : Other :=
  {| ot_val k := if decide (k = m_k m) then v else ot_val k;
     ot_fits k n := ot_fits k n /\ (k = m_k m -> msg_fits n m) |}.

Inductive ot_run : Other -> list Msg -> Other -> Prop :=
  | run_nil OT : ot_run OT [] OT
  | run_cons OT m v ms OT' :
      head (m_k m) <> Some Kdlist -> kval_step (@ot_val OT (m_k m)) m Msgmax = Ok v ->
      ot_run (ot_put OT m v) ms OT' -> ot_run OT (m :: ms) OT'.

Lemma ot_run_vals OT ms OT' k : ot_run OT ms OT' ->
  kvals (@ot_val OT k) (with_key k ms) Msgmax = Ok (@ot_val OT' k) /\
  (forall n, @ot_fits OT' k n -> @ot_fits OT k n /\ Forall (msg_fits n) (with_key k ms)) /\
  (head k = Some Kdlist -> with_key k ms = []).
Proof.
  induction 1 as [OT|OT m v ms OT' Hh Hv Hr (IH1 & IH2 & IH3)].
  { done. }
  unfold with_key in *. rewrite filter_cons. cbn in IH1, IH2. destruct (decide (m_k m = k)) as [<-|Hne].
  - rewrite decide_True in IH1 by done. split; [|split].
    + cbn. by rewrite Hv.
    + intros n Hn. destruct (IH2 n Hn) as [[H1 H2] H3]. split; [done|]. constructor; [by apply H2|done].
    + intros E. by destruct Hh.
  - rewrite decide_False in IH1 by congruence. split; [done|]. split; [|done].
    intros n Hn. destruct (IH2 n Hn) as [[H1 _] H3]. done.
Qed.

Lemma snapkey_inj g g' : r64 g -> r64 g' -> snapkey g = snapkey g' -> g = g'.
Proof.
  unfold r64. intros ? ? E. unfold snapkey in E. apply app_inj_1 in E as [_ E]; [|done].
  apply PACK64_inj in E. apply (f_equal s64) in E. by rewrite !s64_u64, !s64_small in E by lia.
Qed.

Lemma snap_lbl g name : snapkey g <> lblkey name.
Proof. done. Qed.
Lemma lbl_snap g name : lblkey name <> snapkey g.
Proof. done. Qed.

Ltac nokey := let E := fresh in intros E; first [by apply snap_lbl in E|by apply lbl_snap in E].

Lemma vlink_wf t succ dl dr : wf_tree t -> disk_tree t = t -> r64 succ ->
  0 <= t_nlbl t + dl < 2 ^ 31 -> 0 <= t_nref t + dr < 2 ^ 31 ->
  wf_tree (vlink t succ dl dr) /\ disk_tree (vlink t succ dl dr) = vlink t succ dl dr.
Proof. destruct t. unfold wf_tree, disk_tree, vlink, set_counts, t_set_succ, r64. cbn. intros Hw E ? ? ?. injection E as E1 E2 E3 E4. subst. split; [|done].
  repeat match goal with H : _ /\ _ |- _ => destruct H end. split_and?; first [done|lia]. Qed.

Lemma unpacktree_disk t : wf_tree t -> disk_tree t = t -> unpacktree (tree_bytes t) (zlen (tree_bytes t)) = Ok t.
Proof.
  intros Hw E. rewrite <- (app_nil_r (tree_bytes t)) at 1. rewrite unpacktree_bytes; [by rewrite E|done|].
  by rewrite zlen_tree_bytes.
Qed.

Lemma s8_u8 z : - 2 ^ 7 <= z < 2 ^ 7 -> s8 (u8 z) = z.
Proof. intros H. unfold s8, u8. rewrite swrap_mod by lia. apply swrap_small; [lia|]. exact H. Qed.

Lemma rd_retag link dl dr : r64 link -> - 2 ^ 7 <= dl < 2 ^ 7 -> - 2 ^ 7 <= dr < 2 ^ 7 ->
  let v := PACK64 link ++ PACK8 dl ++ PACK8 dr in
  (exists l, rd64 v 0 = Ok l /\ s64 l = link) /\ (exists x, rd v 8 1 = Ok x /\ s8 (UNPACK8 x) = dl) /\
  (exists x, rd v 9 1 = Ok x /\ s8 (UNPACK8 x) = dr).
Proof.
  intros Hl Hdl Hdr v. split; [|split].
  - eexists. split; [rewrite (rd64_at v 0 link); [done|by split]|]. rewrite s64_u64. by apply s64_small.
  - exists (PACK8 dl). split; [by apply (rd_at_n v 8 1)|]. rewrite UNPACK8_PACK8. by apply s8_u8.
  - exists (PACK8 dr). split; [by apply (rd_at_n v 9 1)|]. rewrite UNPACK8_PACK8. by apply s8_u8.
Qed.

(** The two ways to change a descriptor. *)
Lemma kval_retag op g t link dl dr :
  op = Orelink \/ op = Oreprev -> wf_tree t -> disk_tree t = t -> r64 link ->
  - 2 ^ 7 <= dl < 2 ^ 7 -> - 2 ^ 7 <= dr < 2 ^ 7 ->
  0 <= t_nlbl t + dl < 2 ^ 31 -> 0 <= t_nref t + dr < 2 ^ 31 ->
  kval_step (Some (treekv g t)) (kvmsg op (retagkv g link dl dr)) Msgmax =
    Ok (Some (treekv g (set_counts (set_link op t link) (t_nlbl t + dl) (t_nref t + dr)))).
Proof.
  intros Hop Hw Ed Hl Hdl Hdr Hnl Hnr. unfold kval_step, apply, kvmsg. cbn [m_op m_k kv_k treekv retagkv].
  assert ((op =? Odelete) = false /\ (op =? Oclearb) || (op =? Oclobber) = false /\ (op =? Oinsert) = false /\
    (op =? Owstat) = false /\ (op =? Orelink) || (op =? Oreprev) = true) as (-> & -> & -> & -> & ->) by by destruct Hop; subst op.
  unfold retag. cbn [treekv retagkv kv_k kv_v m_v m_op m_k]. rewrite unpacktree_disk by done. cbn [rbind].
  destruct (rd_retag link dl dr Hl Hdl Hdr) as ((l & -> & El) & (x & -> & Ex) & (y & -> & Ey)). cbn [rbind].
  rewrite El, Ex, Ey.
  assert (En : t_nlbl (set_link op t link) = t_nlbl t /\ t_nref (set_link op t link) = t_nref t) by done.
  destruct En as [-> ->]. rewrite !s32_small by lia.
  rewrite (proj2 (Z.leb_le 0 _)), (proj2 (Z.leb_le 0 _)) by lia. cbn [andb].
  change (zlen (PACK64 link ++ PACK8 dl ++ PACK8 dr) =? 10) with true. cbv iota.
  unfold packtree. rewrite zlen_tree_bytes. change (Treesz <=? Treesz) with true. cbn [rbind].
  rewrite (skipn_all2 (tree_bytes t)); [by rewrite app_nil_r|].
  pose proof (zlen_tree_bytes t). unfold zlen in *. lia.
Qed.

Lemma kval_delkey kv k : kv_k kv = k -> kval_step (Some kv) (mkMsg Odelete k []) Msgmax = Ok None.
Proof. intros <-. unfold kval_step, apply. cbn. by rewrite (proj2 (keycmp_eq _ _) eq_refl). Qed.

Lemma disk_disk t : disk_tree (disk_tree t) = disk_tree t.
Proof. done. Qed.

(** The message of an operation does to the tree what the operation does to
    the two maps. *)
Lemma snaps_step OT V L o V' L' :
  snaps OT V L -> vok o V -> vstep o V L = Some (V', L') ->
  exists v, head (m_k (vmsg o)) <> Some Kdlist /\ kval_step (@ot_val OT (m_k (vmsg o))) (vmsg o) Msgmax = Ok v /\
    snaps (ot_put OT (vmsg o) v) V' L'.
Proof.
  intros [S1 S2 S3 S4 S5 S6] Hok Hs.
  assert (Htree : forall g t (V'' : Vmap) m, m_k m = snapkey g -> r64 g -> msg_fits Kvmax m ->
    V'' = <[g := t]> V -> wf_tree t -> disk_tree t = t -> t_gen t = g -> 0 <= t_nlbl t -> 0 <= t_nref t ->
    snaps (ot_put OT m (Some (treekv g t))) V'' L).
  { intros g t V'' m Em Hg Hf -> Hw Ed Eg Hl Hr. split; cbn; rewrite ?Em.
    - intros g' t' [[<- <-]|[Hne Ht']]%lookup_insert_Some; [by rewrite decide_True by done|].
      destruct (S1 _ _ Ht') as (? & ? & ? & ? & ? & ? & ?). rewrite decide_False; [done|]. intros E. by apply snapkey_inj in E.
    - intros g' Hg' [Hn Hne]%lookup_insert_None. rewrite decide_False; [by apply S2|]. intros E. by apply snapkey_inj in E.
    - intros name g' f Hn. rewrite decide_False by nokey. by apply S3.
    - intros name Hn. rewrite decide_False by nokey. by apply S4.
    - intros g'. split; [apply S5|done].
    - intros name. split; [apply S6|done]. }
  destruct o as [g succ dl dr|g pred|t|name g f|g|name]; cbn [vstep] in Hs.
  - destruct (V !! g) as [t|] eqn:Et; [|done]. injection Hs as <- <-. destruct Hok as (Hsu & Hdl & Hdr & Hc).
    destruct (S1 _ _ Et) as (Hg & Hw & Ed & Eg & Hl & Hr & Ev). destruct (Hc t Et) as [Hcl Hcr].
    exists (Some (treekv g (vlink t succ dl dr))). split; [done|]. cbn [vmsg]. split.
    + change (m_k (kvmsg Orelink (retagkv g succ dl dr))) with (snapkey g). rewrite Ev. apply (kval_retag Orelink g t succ dl dr); try done. by left.
    + destruct (vlink_wf t succ dl dr) as [Hw' Ed']; [done..|]. apply Htree; try done; unfold vlink; cbn; lia.
  - destruct (V !! g) as [t|] eqn:Et; [|done]. injection Hs as <- <-.
    destruct (S1 _ _ Et) as (Hg & Hw & Ed & Eg & Hl & Hr & Ev).
    exists (Some (treekv g (t_set_pred t pred))). split; [done|]. cbn [vmsg]. split.
    + change (m_k (kvmsg Oreprev (retagkv g pred 0 0))) with (snapkey g). rewrite Ev.
      assert (0 <= t_nlbl t < 2 ^ 31 /\ 0 <= t_nref t < 2 ^ 31) as [? ?] by (unfold wf_tree in Hw; lia).
      etransitivity; [apply (kval_retag Oreprev g t pred 0 0); [by right|done|done|done|lia..]|]. rewrite !Z.add_0_r. done.
    + apply Htree; try done. { unfold wf_tree in *. cbn. cbn in Hok. unfold r64 in Hok. destruct_and?. split_and?; first [done|lia]. }
      unfold disk_tree in *. cbn. destruct t; cbn in *. injection Ed as E1 E2 E3 E4. by subst.
  - injection Hs as <- <-. destruct Hok as (Hw & Hl & Hr).
    assert (Hfit : kvlen (treekv (t_gen t) t) = 81) by (unfold kvlen; cbn [treekv kv_v kv_k]; by rewrite zlen_tree_bytes).
    exists (Some (treekv (t_gen t) t)). split; [done|]. split.
    + cbn [vmsg]. apply kval_ins. rewrite Hfit. done.
    + change (treekv (t_gen t) t) with (treekv (t_gen t) (disk_tree t)). apply Htree; try done.
      unfold wf_tree in Hw. unfold r64. lia.
  - injection Hs as <- <-. destruct Hok as (Hg & Hf & Hn).
    assert (Hfit : kvlen (lblkv name g f) <= Kvmax).
    { unfold kvlen, lblkv, lblkey. cbn [kv_k kv_v]. rewrite !zlen_app. change (zlen (PACK64 g)) with 8. change (zlen (PACK32 f)) with 4.
      change (zlen [Klabel]) with 1. change (zlen [Ksnap]) with 1. lia. }
    exists (Some (lblkv name g f)). split; [done|]. split.
    + cbn [vmsg]. apply kval_ins. change Msgmax with (1 + Kvmax). lia.
    + split; cbn.
      * intros g' t' Ht'. rewrite decide_False by nokey. by apply S1.
      * intros g' Hg' Hn'. rewrite decide_False by nokey. by apply S2.
      * intros n' g' f' [[<- [= <- <-]]|[Hne Hl']]%lookup_insert_Some; [by rewrite decide_True by done|].
        rewrite decide_False by (intros [= ?]; congruence). by apply S3.
      * intros n' [Hl' Hne]%lookup_insert_None. rewrite decide_False by (intros [= ?]; congruence). by apply S4.
      * intros g'. split; [apply S5|]. nokey.
      * intros n'. split; [apply S6|]. intros _ _. exact Hfit.
  - destruct (V !! g) as [t|] eqn:Et; [|done]. injection Hs as <- <-.
    destruct (S1 _ _ Et) as (Hg & Hw & Ed & Eg & Hl & Hr & Ev).
    exists None. split; [done|]. cbn [vmsg m_k]. split; [rewrite Ev; by apply kval_delkey|]. split; cbn.
    + intros g' t' [Hne Ht']%lookup_delete_Some. destruct (S1 _ _ Ht') as (? & ? & ? & ? & ? & ? & ?).
      rewrite decide_False; [done|]. intros E. by apply snapkey_inj in E.
    + intros g' Hg' Hn. case_decide as Hne; [done|]. apply S2; [done|].
      apply lookup_delete_None in Hn as [->|Hn]; [by destruct Hne|done].
    + intros name g' f Hn. rewrite decide_False by nokey. by apply S3.
    + intros name Hn. rewrite decide_False by nokey. by apply S4.
    + intros g'. split; [apply S5|done].
    + intros name. split; [apply S6|done].
  - destruct (L !! name) as [[g f]|] eqn:El; [|done]. injection Hs as <- <-.
    destruct (S3 _ _ _ El) as (Ev & _). exists None. split; [done|]. cbn [vmsg m_k]. split; [rewrite Ev; by apply kval_delkey|].
    split; cbn.
    + intros g' t' Ht'. rewrite decide_False by nokey. by apply S1.
    + intros g' Hg' Hn'. rewrite decide_False by nokey. by apply S2.
    + intros n' g' f' [Hne Hl']%lookup_delete_Some. rewrite decide_False by (intros [= ?]; congruence). by apply S3.
    + intros n' Hn. case_decide as Hne; [done|]. apply S4.
      apply lookup_delete_None in Hn as [->|Hn]; [by destruct Hne|done].
    + intros g'. split; [apply S5|done].
    + intros n'. split; [apply S6|done].
Qed.

(** The same for a batch. *)
Fixpoint voks (os : list Vop) (V : Vmap) (L : Lmap) : Prop :=
  match os with
  | [] => True
  | o :: os' => vok o V /\ match vstep o V L with Some (V, L) => voks os' V L | None => False end
  end.

Lemma snaps_run os : forall OT V L V' L',
  snaps OT V L -> voks os V L -> vsteps os V L = Some (V', L') ->
  exists OT', ot_run OT (vmsg <$> os) OT' /\ snaps OT' V' L'.
Proof.
  induction os as [|o os IH]; intros OT V L V' L' Hs Hok Hv.
  { injection Hv as <- <-. exists OT. split; [constructor|done]. }
  cbn [vsteps voks] in *. destruct Hok as [Ho Hok]. destruct (vstep o V L) as [[V1 L1]|] eqn:E; [|done].
  cbn in Hv. destruct (snaps_step _ _ _ _ _ _ Hs Ho E) as (v & Hh & Hk & Hs1).
  destruct (IH _ _ _ _ _ Hs1 Hok Hv) as (OT' & Hr & Hs'). exists OT'. split; [|done]. by econstructor.
Qed.

Section snap.
Context {T B : Type} `{!MsgTree T} `{!SnapTree T} `{!SnapAlloc B}.
#[local] Abbreviation Sn := (@Sn T B).
#[local] Abbreviation key := (option (Z * Z)).
Implicit Types s : Sn.
Implicit Types (H : gmap key Dlo) (D : gmap key Dval) (V : Vmap) (L : Lmap).

(** ** The whole state *)

Definition snapsys s D V L : Prop := exists OT, sys (OT:=OT) s D /\ snaps OT V L.
(** Between two operations on lists; the open lists are of no concern. *)
Definition snaplists s D V L : Prop := exists OT, lists (OT:=OT) s D /\ snaps OT V L.

Lemma tree_part_run OT OT' t t' H ms :
  tree_part (OT:=OT) t H -> ot_run OT ms OT' -> tree_ok t' ->
  (forall k, kvals (tval t k) (with_key k ms) Msgmax = Ok (tval t' k)) ->
  (forall k n, tfits t k n -> Forall (msg_fits n) (with_key k ms) -> tfits t' k n) ->
  tree_part (OT:=OT') t' H.
Proof.
  intros [H1 H2 H3 H4 H5 H6 H7] Hr Ht Hv Hf.
  assert (Hd : forall k, head k = Some Kdlist -> with_key k ms = [] /\ tval t' k = tval t k).
  { intros k Hk. destruct (ot_run_vals _ _ _ k Hr) as (_ & _ & E). specialize (E Hk). split; [done|].
    specialize (Hv k). rewrite E in Hv. by injection Hv as <-. }
  split; try done.
  - intros g b Hg Hb. apply Hf; [by apply H2|]. by rewrite (proj1 (Hd (dlkey g b) eq_refl)).
  - intros k kv Hk Hh. rewrite (proj2 (Hd k Hh)) in Hk. by apply H3 in Hk.
  - intros g b x Hx. destruct (H5 _ _ _ Hx) as (hd & tl & E & Hw). exists hd, tl. by rewrite (proj2 (Hd (dlkey g b) eq_refl)).
  - intros k Hk. destruct (ot_run_vals _ _ _ k Hr) as (E & _). specialize (Hv k). rewrite H6 in Hv by done. congruence.
  - intros k n Hk Hn. destruct (ot_run_vals _ _ _ k Hr) as (_ & E & _). destruct (E n Hn) as [E1 E2].
    apply Hf; [by apply H7|done].
Qed.

(** What a batch of messages about snapshots leaves alone. *)
Record vsame s s' : Prop := {
  vs_fr : fr0 s s';
  vs_lru : sn_lru s' = sn_lru s;
  vs_dls : sn_dls s' = sn_dls s;
  vs_cache g b o : at_cache s g b o -> at_cache s' g b o;
  vs_frees : frees (sn_out s') = frees (sn_out s) }.

Lemma upsert_vops OT s H D V L os V' L' :
  ok (OT:=OT) s H D -> snaps OT V L -> voks os V L -> vsteps os V L = Some (V', L') ->
  mpost (snapupsert (vmsg <$> os)) s low (fun _ s' => vsame s s' /\ exists OT' H' D', ok (OT:=OT') s' H' D' /\
    snaps OT' V' L' /\ (forall gb, H' !! Some gb = H !! Some gb) /\ (forall gb, D' !! Some gb = D !! Some gb)).
Proof.
  intros Hok Hs Ho Hv. destruct (snaps_run _ _ _ _ _ _ Hs Ho Hv) as (OT' & Hr & Hs').
  pose proof Hok as [Ht Hc Hk]. destruct (snap_list _ _ _ Hok) as [v Hvn].
  assert (Hval : forall k, head k <> Some Kdlist -> tval (sn_snap s) k = @ot_val OT k) by apply Ht.
  eapply mpost_mono; [apply (upsert_any (OT:=OT') s H D v); try done; [apply Ht| |]|done|].
  - intros k. destruct (ot_run_vals _ _ _ k Hr) as (E & _ & Ek).
    destruct (decide (head k = Some Kdlist)) as [Hh|Hh]; [rewrite Ek by done; by eexists|rewrite Hval by done; by eexists].
  - intros t' Ht' Hvs Hf. by eapply (tree_part_run OT).
  - cbv beta. intros _ s' (Hf & Ed & H' & D' & Hok' & HH & HD). split.
    + split; [by apply fr_fr0|apply Hf|done| |apply Hf]. intros g b o. apply at_cache_eq; [done|apply Hf|apply Hf].
    + exists OT', H', D'. done.
Qed.

Lemma upsert_snapsys s D V L os V' L' :
  snapsys s D V L -> voks os V L -> vsteps os V L = Some (V', L') ->
  mpost (snapupsert (vmsg <$> os)) s low (fun _ s' => vsame s s' /\ exists D', snapsys s' D' V' L' /\
    forall gb, D' !! Some gb = D !! Some gb).
Proof.
  intros (OT & (H & Hok & Hl) & Hs) Ho Hv. eapply mpost_mono; [by eapply upsert_vops|done|].
  cbv beta. intros _ s' (Hsm & OT' & H' & D' & Hok' & Hs' & HH & HD). split; [done|]. exists D'. split; [|done].
  exists OT'. split; [|done]. exists H'. split; [done|]. intros p x Hx Hi. rewrite (vs_dls _ _ Hsm) in Hx.
  destruct (Hl p x Hx Hi) as (Hin & g & b & Hg & Hat). rewrite (vs_lru _ _ Hsm). split; [done|].
  exists g, b. rewrite HH. split; [done|]. by apply (vs_cache _ _ Hsm).
Qed.

(** ** The parts of the state the lists do not know *)

(** The same but for the tree objects, the mounts, the counters and limbo. *)
Record heapeq s s' : Prop := {
  he_snap : sn_snap s' = sn_snap s; he_al : sn_al s' = sn_al s; he_blks : sn_blks s' = sn_blks s;
  he_out : sn_out s' = sn_out s; he_dl : sn_snapdl s' = sn_snapdl s; he_dls : sn_dls s' = sn_dls s;
  he_new : sn_dlnew s' = sn_dlnew s; he_cache : sn_dlcache s' = sn_dlcache s; he_lru : sn_lru s' = sn_lru s;
  he_count : sn_dlcount s' = sn_dlcount s; he_max : sn_dlcmax s' = sn_dlcmax s }.

#[export] Instance heapeq_pre : PreOrder heapeq.
Proof. split; [by split|]. intros s1 s2 s3 [] []. split; congruence. Qed.

Lemma ok_heap OT s s' H D : heapeq s s' -> ok (OT:=OT) s H D -> ok (OT:=OT) s' H D.
Proof.
  intros [E1 E2 E3 E4 E5 E6 E7 E8 E9 E10 E11] [Ht [C1 C2 C3 C4 C5 C6] [K1 K2 K3 K4 K5]].
  assert (Ec : forall h, dlchain s' h = dlchain s h) by (intros h; unfold dlchain; by rewrite E8).
  assert (Ea : forall g b o, at_cache s' g b o <-> at_cache s g b o).
  { intros g b o. unfold at_cache, dlhash. by rewrite Ec, E6, E11. }
  split.
  - by rewrite E1.
  - split.
    + by rewrite E5.
    + intros g b x Hx. destruct (C2 _ _ _ Hx) as (o & Ho & Hm). exists o. rewrite Ea, E6. done.
    + intros h p. rewrite Ec, E6. apply C3.
    + intros p. rewrite E6, E7. apply C4.
    + intros p. rewrite E9, E6. apply C5.
    + by rewrite E10, E11.
  - split; try done.
    + intros k v Hv. rewrite E3. by apply K1.
    + intros k v a. rewrite E2. apply K5.
Qed.

Lemma at_cache_heap s s' g b o : heapeq s s' -> at_cache s g b o -> at_cache s' g b o.
Proof. intros []. by apply at_cache_eq. Qed.

Lemma sys_heap OT s s' D : heapeq s s' -> sys (OT:=OT) s D -> sys (OT:=OT) s' D.
Proof.
  intros He (H & Hok & Hl). exists H. split; [by apply (ok_heap _ s)|]. intros p x Hx Hi.
  rewrite (he_dls _ _ He) in Hx. rewrite (he_lru _ _ He). destruct (Hl p x Hx Hi) as (Hin & g & b & Hg & Hat).
  split; [done|]. exists g, b. split; [done|]. by apply (at_cache_heap s).
Qed.

Lemma snapsys_heap s s' D V L : heapeq s s' -> snapsys s D V L -> snapsys s' D V L.
Proof. intros He (OT & Hs & Hv). exists OT. split; [by apply (sys_heap _ s)|done]. Qed.

Lemma nostale_heap s s' D g p : heapeq s s' -> nostale s D g p -> nostale s' D g p.
Proof. intros He Hn b Hb HD Hr. eapply at_cache_heap; [done|]. by apply Hn. Qed.

Lemma mpost_tree {C} p t (k : Tree -> M Sn C) s E Q :
  sn_trees s !! p = Some t -> mpost (k t) s E Q -> mpost (mbind (tree_at p) k) s E Q.
Proof. intros Ht Hk. unfold mpost, mbind, tree_at. rewrite Ht. exact Hk. Qed.

Lemma mpost_newgen {C} (k : Z -> M Sn C) s E Q :
  mpost (k (sn_nextgen s + 1)) (sn_set_nextgen (sn_nextgen s + 1) s) E Q -> mpost (mbind newgen k) s E Q.
Proof. done. Qed.
Lemma mpost_newtree {C} t (k : nat -> M Sn C) s E Q :
  mpost (k (sn_tnew s)) (sn_set_tnew (S (sn_tnew s)) (sn_set_trees (<[sn_tnew s := t]> (sn_trees s)) s)) E Q ->
  mpost (mbind (new_tree t) k) s E Q.
Proof. done. Qed.

Lemma retag2kv_eq g link dl dr : retag2kv g link dl dr Kvmax = Ok (retagkv g link dl dr).
Proof. done. Qed.

Lemma lbl2kv_eq name g f : zlen name + 14 <= Kvmax -> lbl2kv name g f Kvmax = Ok (lblkv name g f).
Proof. intros Hn. unfold lbl2kv. rewrite (proj2 (Z.leb_le _ _)) by lia. done. Qed.

Lemma tree2kv_eq t : tree2kv t Kvmax = Ok (treekv (t_gen t) t).
Proof. done. Qed.

(** ** Removing a tree from the list: the mounts *)

Definition relinked (t r : Tree) : Tree :=
  let r := if t_gen r =? t_succ t then t_set_pred r (t_pred t) else r in
  if t_gen r =? t_pred t then t_set_succ r (t_succ t) else r.

Lemma relinked_idem t r : relinked t (relinked t r) = relinked t r.
Proof.
  unfold relinked. destruct (t_gen r =? t_succ t) eqn:E1; cbn [t_set_pred t_gen];
    destruct (t_gen r =? t_pred t) eqn:E2; cbn [t_set_pred t_set_succ t_gen]; rewrite ?E1, ?E2; cbn [t_set_pred t_set_succ t_gen];
    rewrite ?E1, ?E2; done.
Qed.

Lemma relinked_self t : t_gen t <> t_succ t -> t_gen t <> t_pred t -> relinked t t = t.
Proof.
  intros H1 H2. unfold relinked. apply Z.eqb_neq in H1, H2. rewrite H1. cbn zeta. by rewrite H2.
Qed.

Lemma relink_step s p t q r :
  sn_trees s !! p = Some t -> sn_trees s !! q = Some r -> t_gen t <> t_succ t -> t_gen t <> t_pred t ->
  forall C (k : unit -> M Sn C) E Q, mpost (k tt) (sn_set_trees (<[q := relinked t r]> (sn_trees s)) s) E Q ->
  mpost (let* t := tree_at p in let* r := tree_at q in
    do* (if t_gen r =? t_succ t then put_tree q (t_set_pred r (t_pred t)) else mret tt) in
    let* t := tree_at p in let* r := tree_at q in
    do* (if t_gen r =? t_pred t then put_tree q (t_set_succ r (t_succ t)) else mret tt) in k tt) s E Q.
Proof.
  intros Hp Hq Hs Hpr C k E Q Hk. eapply mpost_tree; [done|]. eapply mpost_tree; [done|].
  assert (Hself : forall x, sn_trees s !! q = Some x -> sn_set_trees (<[q := x]> (sn_trees s)) s = s).
  { intros x Hx. rewrite insert_id by done. by destruct s. }
  unfold relinked in Hk. destruct (Z.eqb_spec (t_gen r) (t_succ t)) as [E1|E1].
  - assert (Hqp : q <> p) by (intros ->; congruence).
    apply mpost_mod. eapply (mpost_tree p t); [cbn; by rewrite lookup_insert_ne|].
    eapply (mpost_tree q (t_set_pred r (t_pred t))); [cbn; apply lookup_insert_eq|]. cbn [t_set_pred t_gen] in *.
    destruct (Z.eqb_spec (t_gen r) (t_pred t)) as [E2|E2].
    + apply mpost_mod. cbn. by rewrite insert_insert_eq.
    + by apply mpost_retb.
  - apply mpost_retb. eapply mpost_tree; [done|]. eapply mpost_tree; [done|].
    destruct (Z.eqb_spec (t_gen r) (t_pred t)) as [E2|E2].
    + by apply mpost_mod.
    + apply mpost_retb. by rewrite Hself in Hk.
Qed.

(** The trees after the loop over the mounts. *)
Definition relink_trees (t : Tree) (ms : list Smnt) (tr : gmap nat Tree) : gmap nat Tree :=
  map_imap (fun q r => Some (if decide (q ∈ sm_root <$> ms) then relinked t r else r)) tr.

Lemma relink_trees_lookup t ms tr q :
  relink_trees t ms tr !! q = (fun r => if decide (q ∈ sm_root <$> ms) then relinked t r else r) <$> tr !! q.
Proof. unfold relink_trees. rewrite map_lookup_imap. by destruct (tr !! q). Qed.

Lemma relink_mounts ms : forall s p t,
  sn_trees s !! p = Some t -> t_gen t <> t_succ t -> t_gen t <> t_pred t ->
  Forall (fun m => is_Some (sn_trees s !! sm_root m)) ms ->
  mpost (relink ms p) s (fun _ _ => False) (fun _ s' => s' = sn_set_trees (relink_trees t ms (sn_trees s)) s).
Proof.
  induction ms as [|m ms IH]; intros s p t Hp Hs Hpr Hm; cbn [relink].
  { apply mpost_ret. assert (E : relink_trees t [] (sn_trees s) = sn_trees s); [|rewrite E; by destruct s].
    apply map_eq. intros q. rewrite relink_trees_lookup. by destruct (sn_trees s !! q). }
  apply Forall_cons in Hm as [[r Hr] Hm].
  assert (Hp' : forall tr, tr = <[sm_root m := relinked t r]> (sn_trees s) -> tr !! p = Some t).
  { intros tr ->. apply lookup_insert_Some. destruct (decide (sm_root m = p)) as [E|]; [left|by right].
    split; [done|]. rewrite E in Hr. assert (r = t) as -> by congruence. by apply relinked_self. }
  apply (relink_step s p t (sm_root m) r Hp Hr Hs Hpr _ (fun _ => relink ms p)).
  eapply mpost_mono; [eapply (IH _ p t); try done|done|].
  - cbn. by apply Hp'.
  - eapply Forall_impl; [exact Hm|]. intros m' [r' Hr']. cbn. apply lookup_insert_is_Some.
    destruct (decide (sm_root m = sm_root m')); [by left|right; split; [done|by exists r']].
  - cbv beta. intros _ s' ->. cbn.
    assert (E : forall a b, a = b -> sn_set_trees a (sn_set_trees (<[sm_root m := relinked t r]> (sn_trees s)) s) = sn_set_trees b s) by (by intros a b ->).
    apply E. apply map_eq. intros q. rewrite !relink_trees_lookup. cbn.
    destruct (decide (sm_root m = q)) as [<-|Hne].
    + rewrite lookup_insert_eq, Hr. cbn. f_equal. rewrite (decide_True (P := sm_root m ∈ _ :: _)) by left.
      destruct (decide _); [apply relinked_idem|done].
    + rewrite lookup_insert_ne by done. destruct (sn_trees s !! q) as [x|]; [|done]. cbn. f_equal.
      destruct (decide (q ∈ sm_root <$> ms)) as [Hin|Hin].
      * by rewrite decide_True by by right.
      * rewrite decide_False; [done|]. intros [E'|]%elem_of_cons; congruence.
Qed.

(** ** [delsnap] *)

(** What the removal of [G] between [P] and [S] leaves of the lists; [D] is
    as it was before, with open lists. *)
Record deleted (out out' : list Ioop) D (R : Z -> gset Z) (birth : Z -> Z) (base P G S : Z) D' (dead blks : list Z) : Prop := {
  de_exact : exact R birth D' base P S;
  de_gone b : D' !! Some (G, b) = None;
  de_rest g b : g <> G -> g <> S -> D' !! Some (g, b) = close <$> D !! Some (g, b);
  de_frees : frees out' ≡ₚ frees out ++ dead ++ blks;
  de_nodup : NoDup dead;
  de_unused a : a ∈ dead -> (a ∉ R P) /\ (a ∉ R S);
  de_all a : a ∈ R G -> (a ∉ R P) -> (a ∉ R S) -> a ∈ dead;
  de_in a : a ∈ dead ++ blks <-> exists g b v, (g = G \/ g = S) /\ P < b /\ D !! Some (g, b) = Some v /\
    (a ∈ dv_dead v \/ a ∈ dv_addrs v) }.

Lemma exact_close R birth D D' base pr g :
  (forall gb, D' !! Some gb = close <$> D !! Some gb) -> exact R birth D base pr g -> exact R birth D' base pr g.
Proof.
  intros E [E1 E2 E3 E4 E5].
  assert (Hv : forall b v, D' !! Some (g, b) = Some v -> exists w, D !! Some (g, b) = Some w /\ dv_dead v = dv_dead w).
  { intros b v. rewrite E. intros (w & -> & Hw)%fmap_Some. exists w. split; [done|]. by rewrite Hw. }
  split.
  - intros b v (w & Hw & ->)%Hv. by eapply E1.
  - intros b v a (w & Hw & ->)%Hv. by apply E2.
  - intros b Hb. by rewrite E, E3.
  - intros b a Hb. rewrite <- E4 by done. split.
    + intros (v & (w & Hw & ->)%Hv & Ha). by exists w.
    + intros (w & Hw & Ha). exists (close w). by rewrite E, Hw.
  - intros b v a Hb (w & Hw & ->)%Hv. by apply E5.
Qed.

(** The conditions on the lists under which the removal is right. *)
Record removable s D (R : Z -> gset Z) (birth : Z -> Z) (base P G S : Z) : Prop := {
  rm_r64 : r64 G /\ r64 S /\ S <> -1 /\ S <> G;
  rm_base : base <= P <= G;
  rm_stale : nostale s D S P;
  rm_born a : a ∈ R P -> birth a <= P;
  rm_PG : derived R birth P G;
  rm_GS : derived R birth G S;
  rm_exG : exact R birth D base P G;
  rm_exS : exact R birth D base G S;
  rm_tail b v : b <= P -> D !! Some (S, b) = Some v -> tail_ok v }.

Lemma exact_ext R birth D D' base pr g :
  (forall gb, D' !! Some gb = D !! Some gb) -> exact R birth D base pr g -> exact R birth D' base pr g.
Proof.
  intros E [E1 E2 E3 E4 E5]. split; intros b; rewrite E; [apply E1|apply E2|apply E3|apply E4|apply E5].
Qed.

Lemma removable_ext s s' D D' R birth base P G S :
  (forall gb, D' !! Some gb = D !! Some gb) -> (forall g b o, at_cache s g b o -> at_cache s' g b o) ->
  removable s D R birth base P G S -> removable s' D' R birth base P G S.
Proof.
  intros HD Hc [M1 M2 M3 M4 M5 M6 M7 M8 M9]. split; try done.
  - intros b Hb Hn Hr. apply Hc, M3; try done. by rewrite <- HD.
  - by apply (exact_ext R birth D).
  - by apply (exact_ext R birth D).
  - intros b v Hb. rewrite HD. by apply M9.
Qed.

Lemma reclaim_closed OT s s0 D D1 R birth base P G S :
  lists (OT:=OT) s D1 -> settled s -> (forall gb, D1 !! Some gb = close <$> D !! Some gb) ->
  (forall g b o, at_cache s0 g b o -> at_cache s g b o) -> frees (sn_out s) = frees (sn_out s0) ->
  removable s0 D R birth base P G S ->
  mpost (reclaimblocks G S P) s lowx (fun _ s' => settled s' /\ fr0 s s' /\ exists D' dead blks,
    lists (OT:=OT) s' D' /\ deleted (sn_out s0) (sn_out s') D R birth base P G S D' dead blks).
Proof.
  intros Hl Hset HD Hca Hfr [(R1 & R2 & R3 & R4) Hb Hst Hbo HPG HGS HeG HeS Ht].
  assert (Hcl : forall g, closed D1 g).
  { intros g b v. rewrite HD. intros (w & _ & ->)%fmap_Some. done. }
  eapply mpost_mono; [apply mpost_and; [apply (reclaim_full s D1 R birth base P G S); try done|apply (settled_reclaim G S P s Hset)]|by intros e s' [? _]|].
  - intros b Hle Hn Hr. apply Hca, Hst; try done. rewrite HD in Hn. by apply fmap_None in Hn.
  - by apply (exact_close R birth D).
  - by apply (exact_close R birth D).
  - intros b v Hle. rewrite HD. intros (w & Hw & ->)%fmap_Some. by apply (Ht b w).
  - cbv beta. intros _ s' [(D' & dead & blks & [U1 U2 U3 U4 U5 U6 U7 U8 U9 U10]) Hs]. split; [done|]. split; [done|].
    exists D', dead, blks. split; [done|]. split; try done.
    + intros g b N1 N2. by rewrite U4, HD.
    + by rewrite U5, Hfr.
    + intros a. rewrite U9. split; intros (g & b & v & Hg & Hlt & Hv & Ha).
      * rewrite HD in Hv. apply fmap_Some in Hv as (w & Hw & ->). by exists g, b, w.
      * exists g, b, (close v). by rewrite HD, Hv.
Qed.

(** The operations of [delsnap] on the two maps; [t] is the tree without
    the label. *)
Definition unlink_ops (t : Tree) (succ : Z) : list Vop :=
  VLink (t_pred t) succ 0 0 :: (if negb (t_succ t =? -1) then [VPrev (t_succ t) (t_pred t)] else []) ++ [VDel (t_gen t)].

Lemma unlink_msgs_eq t succ : unlink_msgs t succ = Ok (vmsg <$> unlink_ops t succ).
Proof. unfold unlink_msgs, unlink_ops. rewrite !retag2kv_eq. cbn [rbind]. by destruct (negb (t_succ t =? -1)). Qed.

Definition lbl_ops (name : option (list Z)) : list Vop := match name with Some n => [VUnlbl n] | None => [] end.
Definition lbl_count (name : option (list Z)) : Z := match name with Some _ => 1 | None => 0 end.
Definition name_ok (name : list Z) : Prop := reserved name = false /\ zlen name + 14 <= Kvmax.

Lemma unlabel_ok s p t name :
  sn_trees s !! p = Some t -> (forall n, name = Some n -> name_ok n) ->
  mpost (unlabel p name) s (fun _ _ => False) (fun ms s' => ms = vmsg <$> lbl_ops name /\
    s' = sn_set_trees (<[p := set_counts t (t_nlbl t - lbl_count name) (t_nref t)]> (sn_trees s)) s).
Proof.
  intros Hp Hn. destruct name as [n|]; cbn [unlabel lbl_ops lbl_count].
  - destruct (Hn n eq_refl) as [-> Hl]. unfold packlbl. eapply mpost_liftb; [by rewrite (proj2 (Z.leb_le _ _)) by lia|].
    eapply mpost_tree; [done|]. apply mpost_mod, mpost_ret. done.
  - apply mpost_ret. split; [done|]. rewrite Z.sub_0_r. rewrite insert_id; [by destruct s|]. rewrite Hp. by destruct t.
Qed.

(** Everything but the trees. *)
Record rest_same s s' : Prop := {
  rs_tnew : sn_tnew s' = sn_tnew s; rs_mounts : sn_mounts s' = sn_mounts s;
  rs_nextgen : sn_nextgen s' = sn_nextgen s; rs_limbo : sn_limbo s' = sn_limbo s }.

Lemma dlsync_snaps s D V L :
  snapsys s D V L ->
  mpost dlsync s low (fun _ s' => exists D', snapsys s' D' V L /\ settled s' /\ fr0 s s' /\ frees (sn_out s') = frees (sn_out s) /\
    (forall gb, D' !! Some gb = close <$> D !! Some gb) /\ (forall g b o, at_cache s g b o -> at_cache s' g b o)).
Proof.
  intros (OT & Hs & Hv). eapply mpost_mono; [by apply (dlsync_ok (OT:=OT))|done|].
  cbv beta. intros _ s' (D' & (H & Hok) & Hset & Hf & Hfr & HD & Hc). exists D'. split; [|done].
  exists OT. split; [|done]. exists H. split; [done|]. by apply settled_lru.
Qed.

(** A tree that stays: only the label goes. *)
Lemma delsnap_stays s D V L p t succ name V' L' :
  snapsys s D V L -> sn_trees s !! p = Some t -> (forall n, name = Some n -> name_ok n) ->
  let t' := set_counts t (t_nlbl t - lbl_count name) (t_nref t) in
  deltree t' = false -> voks (lbl_ops name) V L -> vsteps (lbl_ops name) V L = Some (V', L') ->
  mpost (delsnap p succ name) s low (fun _ s' => rest_same s s' /\ sn_trees s' = <[p := t']> (sn_trees s) /\
    frees (sn_out s') = frees (sn_out s) /\ settled s' /\
    exists D', snapsys s' D' V' L' /\ forall gb, D' !! Some gb = close <$> D !! Some gb).
Proof.
  intros Hs Hp Hn t' Hdel Ho Hv. unfold delsnap.
  eapply mpost_bind; [eapply mpost_mono; [by apply unlabel_ok|done|intros a s' HQ; exact HQ]|]. cbv beta.
  intros m1 s1 [-> E1]. fold t' in E1. assert (He : heapeq s s1) by (subst s1; by split).
  assert (Hs1 : snapsys s1 D V L) by by apply (snapsys_heap s).
  eapply (mpost_tree p t'); [subst s1; apply lookup_insert_eq|]. rewrite Hdel. apply mpost_retb.
  eapply mpost_bind; [by apply dlsync_snaps|]. cbv beta. intros _ s2 (D2 & Hs2 & Hset & Hf & Hfr & HD & _).
  rewrite app_nil_r. eapply mpost_bind; [by apply (upsert_snapsys s2 D2 V L _ V' L')|]. cbv beta.
  intros _ s3 (Hsm & D3 & Hs3 & HD3). apply mpost_ret. destruct Hsm as [F1 F2 F3 F4 F5].
  split; [|split; [|split; [|split]]].
  - destruct F1, Hf. subst s1. cbn in *. split; congruence.
  - destruct F1, Hf. subst s1. cbn in *. congruence.
  - rewrite F5, Hfr. by subst s1.
  - intros q x Hx. rewrite F3 in Hx. by apply (Hset q).
  - exists D3. split; [done|]. intros gb. by rewrite HD3, HD.
Qed.

(** A tree that goes; [X] is what becomes of the lists. *)
Lemma delsnap_goes s D V L (p : nat) (t : Tree) (S : Z) (name : option (list Z)) V' L' (X : list Ioop -> gmap key Dval -> Prop) :
  snapsys s D V L -> sn_trees s !! p = Some t -> (forall n, name = Some n -> name_ok n) ->
  let t' := set_counts t (t_nlbl t - lbl_count name) (t_nref t) in
  deltree t' = true -> voks (lbl_ops name ++ unlink_ops t' S) V L -> vsteps (lbl_ops name ++ unlink_ops t' S) V L = Some (V', L') ->
  (forall OT s1 D1, lists (OT:=OT) s1 D1 -> settled s1 -> (forall gb, D1 !! Some gb = close <$> D !! Some gb) ->
     (forall g b o, at_cache s g b o -> at_cache s1 g b o) -> frees (sn_out s1) = frees (sn_out s) ->
     mpost (reclaimblocks (t_gen t) S (t_pred t)) s1 lowx (fun _ s' => settled s' /\ fr0 s1 s' /\
       exists D', lists (OT:=OT) s' D' /\ X (sn_out s') D')) ->
  t_gen t <> t_succ t -> t_gen t <> t_pred t ->
  Forall (fun m => is_Some (sn_trees s !! sm_root m)) (sn_mounts s) ->
  mpost (delsnap p S name) s lowx (fun _ s' => rest_same s s' /\
    sn_trees s' = relink_trees t' (sn_mounts s) (<[p := t']> (sn_trees s)) /\ settled s' /\
    exists D', snapsys s' D' V' L' /\ X (sn_out s') D').
Proof.
  intros Hs Hp Hn t' Hdel Ho Hv Hrm Hsu Hpr Hm. unfold delsnap.
  eapply mpost_bind; [eapply mpost_mono; [by apply unlabel_ok|done|intros a s' HQ; exact HQ]|]. cbv beta.
  intros m1 s1 [-> E1]. fold t' in E1. assert (He : heapeq s s1) by (subst s1; by split).
  assert (Hs1 : snapsys s1 D V L) by by apply (snapsys_heap s).
  eapply (mpost_tree p t'); [subst s1; apply lookup_insert_eq|]. rewrite Hdel, unlink_msgs_eq. eapply mpost_liftb; [done|].
  eapply mpost_bind; [eapply mpost_mono; [by apply dlsync_snaps|by intros e s' ?; left|intros a s' HQ; exact HQ]|]. cbv beta. intros _ s2 (D2 & (OT & (H2 & Hok2 & Hl2) & Hsn) & Hset & Hf & Hfr & HD & Hc).
  rewrite <- fmap_app. eapply mpost_bind; [eapply mpost_mono; [by apply (upsert_vops OT s2 H2 D2 V L _ V' L')|by intros e s' ?; left|intros a s' HQ; exact HQ]|].
  cbv beta. intros _ s3 ([F1 F2 F3 F4 F5] & OT' & H3 & D3 & Hok3 & Hsn3 & HH3 & HD3).
  assert (Hset3 : settled s3) by (intros q x Hx; rewrite F3 in Hx; by apply (Hset q)).
  change (t_pred t') with (t_pred t). change (t_gen t') with (t_gen t).
  eapply mpost_bind.
  { apply (Hrm OT' s3 D3); try done.
    - by exists H3.
    - intros gb. by rewrite HD3, HD.
    - intros g b o Hat. apply F4, Hc. by apply (at_cache_heap s).
    - rewrite F5, Hfr. by subst s1. }
  cbv beta. intros _ s4 (Hset4 & Hf4 & D4 & (H4 & Hok4) & HX). apply mpost_get.
  assert (Etr : sn_trees s4 = <[p := t']> (sn_trees s)) by (destruct Hf4, F1, Hf; subst s1; cbn in *; congruence).
  assert (Emo : sn_mounts s4 = sn_mounts s) by (destruct Hf4, F1, Hf; subst s1; cbn in *; congruence).
  rewrite Emo. eapply mpost_mono; [apply (relink_mounts (sn_mounts s) s4 p t'); try done|done|].
  - rewrite Etr. apply lookup_insert_eq.
  - rewrite Etr. eapply Forall_impl; [exact Hm|]. intros m Hr. apply lookup_insert_is_Some'. by right.
  - cbv beta. intros _ s5 ->. split; [|split; [|split; [done|]]].
    + destruct Hf4, F1, Hf. subst s1. cbn in *. split; cbn; congruence.
    + cbn. by rewrite Etr.
    + exists D4. split; [|done].
      exists OT'. split; [|done]. exists H4. split; [by apply (ok_heap _ s4)|]. by apply settled_lru.
Qed.

(** Between two neighbours. *)
Lemma reclaim_between s D R birth base P G S :
  removable s D R birth base P G S ->
  forall OT s1 D1, lists (OT:=OT) s1 D1 -> settled s1 -> (forall gb, D1 !! Some gb = close <$> D !! Some gb) ->
  (forall g b o, at_cache s g b o -> at_cache s1 g b o) -> frees (sn_out s1) = frees (sn_out s) ->
  mpost (reclaimblocks G S P) s1 lowx (fun _ s' => settled s' /\ fr0 s1 s' /\
    exists D', lists (OT:=OT) s' D' /\ exists dead blks, deleted (sn_out s) (sn_out s') D R birth base P G S D' dead blks).
Proof.
  intros Hrm OT s1 D1 H1 H2 H3 H4 H5. eapply mpost_mono; [by apply (reclaim_closed OT s1 s D D1 R birth base P G S)|done|].
  cbv beta. intros _ s' (A1 & A2 & D' & dead & blks & A3 & A4). split; [done|]. split; [done|]. exists D'. split; [done|]. by exists dead, blks.
Qed.

(** At the end of the list. *)
Lemma reclaim_end s D P G :
  nostale s D P P -> r64 G -> r64 P -> P <> -1 -> P <> G ->
  forall OT s1 D1, lists (OT:=OT) s1 D1 -> settled s1 -> (forall gb, D1 !! Some gb = close <$> D !! Some gb) ->
  (forall g b o, at_cache s g b o -> at_cache s1 g b o) -> frees (sn_out s1) = frees (sn_out s) ->
  mpost (reclaimblocks G (-1) P) s1 lowx (fun _ s' => settled s' /\ fr0 s1 s' /\
    exists D', lists (OT:=OT) s' D' /\ True).
Proof.
  intros Hst RG RP P1 PG OT s1 D1 [H Hok] H2 HD H4 H5.
  assert (Hcl : forall g, closed D1 g).
  { intros g b v. rewrite HD. intros (w & _ & ->)%fmap_Some. done. }
  eapply mpost_mono; [apply mpost_and; [apply (reclaim_tip_ok s1 H D1 G P); try done|apply (settled_reclaim G (-1) P s1 H2)]|by intros e s' [? _]|].
  - intros b Hle Hn Hr. apply H4, Hst; try done. rewrite HD in Hn. by apply fmap_None in Hn.
  - cbv beta. intros _ s' [(H' & D' & [R1 _ _ _ _ _ _ Rf]) Hs]. split; [done|]. split; [done|]. exists D'. split; [by exists H'|done].
Qed.

(** ** [tagsnap] *)

Definition tag_ops (t : Tree) (name : list Z) (f : Z) : list Vop :=
  [VLink (t_gen t) (t_succ t) 1 0; VLbl name (t_gen t) f].
Definition fork_ops (t : Tree) (name : list Z) (f gen memgen : Z) : list Vop :=
  [VLink (t_gen t) (t_succ t) 0 1; VLbl name gen f; VTree (t_fork t gen memgen)].

Lemma tagsnap_label s D V L p t name f V' L' :
  snapsys s D V L -> sn_trees s !! p = Some t -> name_ok name -> Z.land f Lmut = 0 ->
  voks (tag_ops t name f) V L -> vsteps (tag_ops t name f) V L = Some (V', L') ->
  mpost (tagsnap p name f) s low (fun _ s' => rest_same s s' /\
    sn_trees s' = <[p := set_counts (t_set_pred t (t_gen t)) (t_nlbl t + 2) (t_nref t)]> (sn_trees s) /\
    frees (sn_out s') = frees (sn_out s) /\
    exists D', snapsys s' D' V' L' /\ forall gb, D' !! Some gb = D !! Some gb).
Proof.
  intros Hs Hp [Hr Hn] Hf Ho Hv. unfold tagsnap. rewrite Hr. eapply mpost_tree; [done|]. rewrite Hf.
  change (negb (0 =? 0)) with false. cbv iota. apply mpost_mod. eapply mpost_liftb; [apply retag2kv_eq|].
  apply mpost_mod. eapply mpost_liftb; [by apply lbl2kv_eq|].
  set (s1 := sn_set_trees _ _). assert (He : heapeq s s1) by by split.
  eapply mpost_mono; [apply (upsert_snapsys s1 D V L (tag_ops t name f) V' L'); try done; by apply (snapsys_heap s)|done|].
  cbv beta. intros _ s' ([[] _ _ _ F5] & D' & Hs' & HD). unfold s1 in *. cbn in *. split; [split; congruence|].
  split; [rewrite f0_trees; apply insert_insert_eq|]. split; [done|]. by exists D'.
Qed.

Lemma tagsnap_fork s D V L p t name f V' L' :
  snapsys s D V L -> sn_trees s !! p = Some t -> name_ok name -> Z.land f Lmut <> 0 ->
  let gen := sn_nextgen s + 1 in
  voks (fork_ops t name f gen (gen + 1)) V L -> vsteps (fork_ops t name f gen (gen + 1)) V L = Some (V', L') ->
  mpost (tagsnap p name f) s low (fun _ s' =>
    sn_tnew s' = sn_tnew s /\ sn_mounts s' = sn_mounts s /\ sn_limbo s' = sn_limbo s /\ sn_nextgen s' = gen + 1 /\
    sn_trees s' = <[p := set_counts t (t_nlbl t) (t_nref t + 1)]> (sn_trees s) /\
    frees (sn_out s') = frees (sn_out s) /\ (forall g b o, at_cache s g b o -> at_cache s' g b o) /\
    exists D', snapsys s' D' V' L' /\ forall gb, D' !! Some gb = D !! Some gb).
Proof.
  intros Hs Hp [Hr Hn] Hf gen Ho Hv. unfold tagsnap. rewrite Hr. eapply mpost_tree; [done|].
  rewrite (proj2 (Z.eqb_neq _ 0)) by done. cbn [negb]. apply mpost_newgen, mpost_newgen.
  apply mpost_mod. eapply mpost_liftb; [apply retag2kv_eq|]. eapply mpost_liftb; [by apply lbl2kv_eq|].
  eapply mpost_liftb; [apply tree2kv_eq|].
  set (s1 := sn_set_trees _ _). assert (He : heapeq s s1) by by split.
  eapply mpost_mono; [apply (upsert_snapsys s1 D V L (fork_ops t name f gen (gen + 1)) V' L'); try done; by apply (snapsys_heap s)|done|].
  cbv beta. intros _ s' ([[] _ _ Fc F5] & D' & Hs' & HD). unfold s1 in *. cbn in *.
  do 3 (split; [congruence|]). split; [rewrite f0_nextgen; unfold gen; lia|]. split; [congruence|]. split; [done|].
  split; [intros g b o Hat; by apply Fc, (at_cache_heap s)|]. by exists D'.
Qed.

(** ** [updatesnap] *)

Definition upd_ops (o : Tree) (lbl : list Z) (f memgen : Z) (last : bool) : list Vop :=
  let t := t_next o (if last then t_pred o else t_gen o) memgen in
  [VLink (t_pred t) (t_gen t) (if last then 0 else -1) (if last then 0 else 1); VTree t; VLbl lbl (t_gen t) f].

(** The old object gives up its reference, the mount gets the new one. *)
Definition swap_root (i p q : nat) (o t : Tree) s : Sn :=
  sn_set_mounts (alter (fun m => mkSmnt (sm_name m) (sm_flag m) q) i (sn_mounts s))
    (sn_set_tnew (S q) (sn_set_trees (<[q := t]> (<[p := t_set_memref o (t_memref o - 1)]> (sn_trees s)))
      (if t_memref o - 1 =? 0 then sn_set_limbo (sn_limbo s ++ [p]) s else s))).

Lemma swap_root_ok s i p o t :
  sn_trees s !! p = Some o ->
  mpost (do* closesnap p in let* q := new_tree t in set_root i q) s (fun _ _ => False)
    (fun _ s' => s' = swap_root i p (sn_tnew s) o t s).
Proof.
  intros Hp. unfold closesnap, swap_root. eapply (mpost_bind _ _ _ _ _ (fun _ s' => s' =
    (if t_memref o - 1 =? 0 then sn_set_limbo (sn_limbo s ++ [p]) else id)
      (sn_set_trees (<[p := t_set_memref o (t_memref o - 1)]> (sn_trees s)) s))).
  - eapply mpost_tree; [done|]. apply mpost_mod. destruct (t_memref o - 1 =? 0); done.
  - intros _ s1 ->. apply mpost_newtree. destruct (t_memref o - 1 =? 0); done.
Qed.

Lemma updatesnap_clean s i p o lbl f : sn_trees s !! p = Some o -> t_dirty o = 0 -> updatesnap i p lbl f s = (Ok tt, s).
Proof. intros Hp Hd. unfold updatesnap, mbind, tree_at. by rewrite Hp, Hd. Qed.

Lemma swap_nextgen s i p q o t : sn_nextgen (swap_root i p q o t s) = sn_nextgen s.
Proof. unfold swap_root. by destruct (_ =? 0). Qed.

Lemma heapeq_swap s i p q o t : heapeq s (swap_root i p q o t s).
Proof. unfold swap_root. destruct (_ =? 0); by split. Qed.

(** The new generation, before the old one is taken out. *)
Lemma updatesnap_head s D V L p o lbl f V1 L1 last {C} (k : Z -> M Sn C) (E : err -> Sn -> Prop) Q :
  snapsys s D V L -> sn_trees s !! p = Some o -> zlen lbl + 14 <= Kvmax -> (forall e s', low e s' -> E e s') ->
  (t_nlbl o - 1 =? 0) && (t_nref o + 1 =? 1) = last ->
  let o' := set_counts o (t_nlbl o - 1) (t_nref o + 1) in
  let t := t_next o (if last then t_pred o else t_gen o) (sn_nextgen s + 1) in
  let ops := upd_ops o lbl f (sn_nextgen s + 1) last in
  voks ops V L -> vsteps ops V L = Some (V1, L1) ->
  (forall s1 D1, snapsys s1 D1 V1 L1 -> (forall gb, D1 !! Some gb = D !! Some gb) ->
     (forall g b c, at_cache s g b c -> at_cache s1 g b c) ->
     sn_trees s1 = <[p := t_set_dirty o' 0]> (sn_trees s) -> sn_tnew s1 = sn_tnew s -> sn_mounts s1 = sn_mounts s ->
     sn_limbo s1 = sn_limbo s -> sn_nextgen s1 = sn_nextgen s + 1 -> frees (sn_out s1) = frees (sn_out s) ->
     mpost (k (sn_nextgen s + 1)) s1 E Q) ->
  mpost (do* put_tree p o' in let* memgen := newgen in
    let last := (t_nlbl o - 1 =? 0) && (t_nref o + 1 =? 1) in
    let t := t_next o (if last then t_pred o else t_gen o) memgen in
    let* kv1 := mlift (if last then retag2kv (t_pred t) (t_gen t) 0 0 Kvmax else retag2kv (t_pred t) (t_gen t) (-1) 1 Kvmax) in
    let* kv2 := mlift (tree2kv t Kvmax) in
    let* kv3 := mlift (lbl2kv lbl (t_gen t) f Kvmax) in
    do* snapupsert [kvmsg Orelink kv1; kvmsg Oinsert kv2; kvmsg Oinsert kv3] in
    let* o := tree_at p in
    do* put_tree p (t_set_dirty o 0) in k memgen) s E Q.
Proof.
  intros Hs Hp Hn HE Hlast o' t ops Ho Hv Hk. apply mpost_mod, mpost_newgen. cbn zeta. rewrite Hlast. fold t.
  eapply (mpost_liftb _ (retagkv (t_pred t) (t_gen t) (if last then 0 else -1) (if last then 0 else 1))).
  { destruct last; apply retag2kv_eq. }
  eapply mpost_liftb; [apply tree2kv_eq|]. eapply mpost_liftb; [by apply lbl2kv_eq|].
  set (s0 := sn_set_nextgen _ _). assert (He : heapeq s s0) by by split.
  eapply mpost_bind.
  { eapply mpost_mono; [apply (upsert_snapsys s0 D V L ops V1 L1); try done; by apply (snapsys_heap s)|done|intros a s' HQ; exact HQ]. }
  cbv beta. intros _ s1 ([F _ _ Fc F5] & D1 & Hs1 & HD). destruct F as [_ _ F1 F2 F3 F4 F6]. unfold s0 in *. cbn in F1, F2, F3, F4, F6, F5.
  eapply (mpost_tree p o'); [rewrite F1; apply lookup_insert_eq|]. apply mpost_mod.
  set (s2 := sn_set_trees (<[p:=t_set_dirty o' 0]> (sn_trees s1)) s1). assert (He2 : heapeq s1 s2) by by split.
  apply (Hk s2 D1); try done.
  - by apply (snapsys_heap s1).
  - unfold s2. cbn. rewrite F1. apply insert_insert_eq.
Qed.

(** The old generation stays: it has another label or another successor. *)
Lemma updatesnap_keeps s D V L i p o lbl f V' L' :
  snapsys s D V L -> sn_trees s !! p = Some o -> t_dirty o <> 0 -> zlen lbl + 14 <= Kvmax ->
  (t_nlbl o - 1 =? 0) && (t_nref o + 1 =? 1) = false ->
  let o' := t_set_dirty (set_counts o (t_nlbl o - 1) (t_nref o + 1)) 0 in
  let t := t_next o (t_gen o) (sn_nextgen s + 1) in
  let ops := upd_ops o lbl f (sn_nextgen s + 1) false in
  voks ops V L -> vsteps ops V L = Some (V', L') ->
  mpost (updatesnap i p lbl f) s low (fun _ s' => sn_nextgen s' = sn_nextgen s + 1 /\
    (exists s1, s' = swap_root i p (sn_tnew s) o' t s1 /\ sn_trees s1 = <[p := o']> (sn_trees s) /\
       sn_mounts s1 = sn_mounts s /\ sn_limbo s1 = sn_limbo s) /\
    frees (sn_out s') = frees (sn_out s) /\
    exists D', snapsys s' D' V' L' /\ forall gb, D' !! Some gb = D !! Some gb).
Proof.
  intros Hs Hp Hd Hn Hlast o' t ops Ho Hv. unfold updatesnap. eapply mpost_tree; [done|].
  rewrite (proj2 (Z.eqb_neq _ 0)) by done.
  apply (updatesnap_head s D V L p o lbl f V' L' false
    (fun memgen => do* (if (t_nlbl o - 1 =? 0) && (t_nref o + 1 =? 1) then delsnap p (t_memgen o) None else mret tt) in
      do* closesnap p in
      let* q := new_tree (t_next o (if (t_nlbl o - 1 =? 0) && (t_nref o + 1 =? 1) then t_pred o else t_gen o) memgen) in
      set_root i q)); try done.
  rewrite Hlast.
  intros s1 D1 Hs1 HD Hc E1 E2 E3 E4 E5 E6. apply mpost_retb.
  eapply mpost_mono; [apply (swap_root_ok s1 i p o' t); rewrite E1; apply lookup_insert_eq|done|].
  cbv beta. intros _ s' ->. pose proof (heapeq_swap s1 i p (sn_tnew s1) o' t) as He. rewrite E2 in *.
  split; [by rewrite swap_nextgen, E5|]. split; [by exists s1|].
  split; [by rewrite (he_out _ _ He)|]. exists D1. split; [by apply (snapsys_heap s1)|done].
Qed.

(** The old generation had no other label and no successor: it goes. *)
Lemma updatesnap_goes s D V L i p o lbl f V1 L1 V' L' R birth base :
  snapsys s D V L -> sn_trees s !! p = Some o -> t_dirty o <> 0 -> zlen lbl + 14 <= Kvmax ->
  t_nlbl o = 1 -> t_nref o = 0 -> t_succ o = -1 -> t_gen o <> -1 -> t_gen o <> t_pred o ->
  let o' := t_set_dirty (set_counts o (t_nlbl o - 1) (t_nref o + 1)) 0 in
  let t := t_next o (t_pred o) (sn_nextgen s + 1) in
  let ops := upd_ops o lbl f (sn_nextgen s + 1) true in
  voks ops V L -> vsteps ops V L = Some (V1, L1) ->
  voks (unlink_ops o' (t_memgen o)) V1 L1 -> vsteps (unlink_ops o' (t_memgen o)) V1 L1 = Some (V', L') ->
  removable s D R birth base (t_pred o) (t_gen o) (t_memgen o) ->
  Forall (fun m => is_Some (sn_trees s !! sm_root m)) (sn_mounts s) ->
  mpost (updatesnap i p lbl f) s lowx (fun _ s' => sn_nextgen s' = sn_nextgen s + 1 /\
    (exists s1, s' = swap_root i p (sn_tnew s) o' t s1 /\
       sn_trees s1 = relink_trees o' (sn_mounts s) (<[p := o']> (sn_trees s)) /\
       sn_mounts s1 = sn_mounts s /\ sn_limbo s1 = sn_limbo s) /\
    exists D' dead blks, snapsys s' D' V' L' /\ deleted (sn_out s) (sn_out s') D R birth base (t_pred o) (t_gen o) (t_memgen o) D' dead blks).
Proof.
  intros Hs Hp Hd Hn Hnl Hnr Hsu Hg1 Hpr o' t ops Ho Hv Ho' Hv' Hrm Hm. unfold updatesnap. eapply mpost_tree; [done|].
  rewrite (proj2 (Z.eqb_neq _ 0)) by done.
  assert (Hlast : (t_nlbl o - 1 =? 0) && (t_nref o + 1 =? 1) = true) by by rewrite Hnl, Hnr.
  apply (updatesnap_head s D V L p o lbl f V1 L1 true
    (fun memgen => do* (if (t_nlbl o - 1 =? 0) && (t_nref o + 1 =? 1) then delsnap p (t_memgen o) None else mret tt) in
      do* closesnap p in
      let* q := new_tree (t_next o (if (t_nlbl o - 1 =? 0) && (t_nref o + 1 =? 1) then t_pred o else t_gen o) memgen) in
      set_root i q)); try done.
  { intros e s' He. by left. }
  rewrite Hlast.
  intros s1 D1 Hs1 HD Hc E1 E2 E3 E4 E5 E6. fold o' in E1.
  assert (Hp1 : sn_trees s1 !! p = Some o') by (rewrite E1; apply lookup_insert_eq).
  assert (Eo : set_counts o' (t_nlbl o' - 0) (t_nref o') = o') by (unfold o'; cbn; by rewrite Z.sub_0_r).
  assert (Edel : deltree o' = true) by (unfold deltree, o'; cbn; by rewrite Hnl, Hnr).
  eapply mpost_bind.
  { pose proof (delsnap_goes s1 D1 V1 L1 p o' (t_memgen o) None V' L' (fun out D' =>
      exists dead blks, deleted (sn_out s1) out D1 R birth base (t_pred o) (t_gen o) (t_memgen o) D' dead blks)) as Hg. cbv zeta in Hg.
    cbn [lbl_count lbl_ops app] in Hg. rewrite Eo in Hg. apply Hg; try done; clear Hg.
    - apply reclaim_between. by apply (removable_ext s s1 D D1).
    - cbn. by rewrite Hsu.
    - rewrite E3. eapply Forall_impl; [exact Hm|]. intros m Hr. rewrite E1. apply lookup_insert_is_Some'. by right. }
  cbv beta. intros _ s2 ([R1 R2 R3 R4] & Etr & Hset & D' & Hs2 & dead & blks & Hdel).
  change (t_pred o') with (t_pred o) in *. change (t_gen o') with (t_gen o) in *.
  eapply mpost_mono; [apply (swap_root_ok s2 i p o' t)|done|].
  { rewrite Etr, relink_trees_lookup, lookup_insert_eq. cbn. f_equal. destruct (decide _); [|done]. apply relinked_self; [by cbn; rewrite Hsu|done]. }
  cbv beta. intros _ s' ->. pose proof (heapeq_swap s2 i p (sn_tnew s2) o' t) as He. rewrite R1, E2 in *.
  split; [by rewrite swap_nextgen, R3, E5|]. split.
  { exists s2. split; [done|]. split; [by rewrite Etr, E3, E1, insert_insert_eq|]. split; congruence. }
  exists D', dead, blks. split; [by apply (snapsys_heap s2)|]. destruct Hdel as [X1 X2 X3 X4 X5 X6 X7 X8]. split; try done.
  - intros g b N1 N2. by rewrite X3, HD.
  - rewrite (he_out _ _ He). by rewrite X4, E6.
  - intros a. rewrite X8. by setoid_rewrite HD.
Qed.
End snap.
