(* ===== verification/Snaplist.v ===== *)
(** * The list of snapshots

    [Snap] keeps the snapshots of a tree in a doubly linked list through
    their generations.  Taking, labelling, opening and removing them, on the
    list; what the counts of labels and successors get wrong. *)
From S2P Require Import Prelude CInt Mem Data Keys Hash Pack Blk Io Log Queue Apply Upsert Lookup Mst Kv Entry Dead DeadOk DeadTree DeadEx Reclaim Kill Snap SnapOk.

(** ** Linked generations *)

(** The generations [l] in a row; [prev] comes before the first, [next]
    after the last. *)
Fixpoint line (V : Vmap) (prev : option Z) (l : list Z) (next : Z) : Prop :=
  match l with
  | [] => True
  | g :: l' => exists t, V !! g = Some t /\ (forall p, prev = Some p -> t_pred t = p) /\
      t_succ t = default next (head l') /\ line V (Some g) l' next
  end.

Lemma line_app V l1 l2 next : forall prev,
  line V prev (l1 ++ l2) next <->
  line V prev l1 (default next (head l2)) /\ line V (match last l1 with Some g => Some g | None => prev end) l2 next.
Proof.
  induction l1 as [|g l1 IH]; intros prev; cbn [app line].
  { cbn. tauto. }
  assert (El : match last (g :: l1) with Some g' => Some g' | None => prev end =
    match last l1 with Some g' => Some g' | None => Some g end).
  { rewrite last_cons. by destruct (last l1). }
  assert (Eh : default next (head (l1 ++ l2)) = default (default next (head l2)) (head l1)) by by destruct l1.
  rewrite El. split.
  - intros (t & H1 & H2 & H3 & H4). apply IH in H4 as [H4 H5]. split; [|done]. exists t. by rewrite <- Eh.
  - intros [(t & H1 & H2 & H3 & H4) H5]. exists t. rewrite Eh. split; [done|]. split; [done|]. split; [done|]. by apply IH.
Qed.

(** Only the links of the generations of the list matter. *)
Definition links (V : Vmap) (g : Z) : option (Z * Z) := (fun t => (t_pred t, t_succ t)) <$> V !! g.

Lemma line_links V V' l next : forall prev,
  (forall g, g ∈ l -> links V' g = links V g) -> line V prev l next -> line V' prev l next.
Proof.
  induction l as [|g l IH]; intros prev Hl; [done|]. intros (t & H1 & H2 & H3 & H4).
  pose proof (Hl g ltac:(left)) as E. unfold links in E. rewrite H1 in E. cbn in E.
  destruct (V' !! g) as [t'|] eqn:Et; [|done]. injection E as E1 E2. exists t'. rewrite E1, E2. split; [done|]. split; [done|].
  split; [done|]. apply IH; [|done]. intros g' Hg'. apply Hl. by right.
Qed.

Lemma links_insert_ne V g t g' : g' <> g -> links (<[g := t]> V) g' = links V g'.
Proof. intros Hn. unfold links. by rewrite lookup_insert_ne. Qed.
Lemma links_insert V g t : links (<[g := t]> V) g = Some (t_pred t, t_succ t).
Proof. unfold links. by rewrite lookup_insert_eq. Qed.
Lemma links_delete_ne V g g' : g' <> g -> links (delete g V) g' = links V g'.
Proof. intros Hn. unfold links. by rewrite lookup_delete_ne. Qed.

(** What the removal of [G] between [P] and [S] does. *)
Definition unlinked (V : Vmap) (P G S : Z) (vP vS : Tree) : Vmap :=
  delete G (<[S := t_set_pred vS P]> (<[P := vlink vP S 0 0]> V)).

Lemma line_unlink V l1 P G S l2 vP vS :
  NoDup (l1 ++ P :: G :: S :: l2) -> line V None (l1 ++ P :: G :: S :: l2) (-1) ->
  V !! P = Some vP -> V !! S = Some vS ->
  line (unlinked V P G S vP vS) None (l1 ++ P :: S :: l2) (-1).
Proof.
  intros Hn Hl HP HS. apply NoDup_app in Hn as (Hn1 & Hn2 & Hn3).
  apply NoDup_cons in Hn3 as [NP Hn3]. apply NoDup_cons in Hn3 as [NG Hn3]. apply NoDup_cons in Hn3 as [NS _].
  rewrite !not_elem_of_cons in *. apply line_app in Hl as [H1 H2]. cbn [head default] in H1.
  destruct H2 as (tP & EP & PP & SP & tG & EG & _ & _ & tS & ES & PS & SS & H2).
  assert (tP = vP) as -> by congruence. assert (tS = vS) as -> by congruence.
  assert (Hf : forall g, g <> P -> g <> G -> g <> S -> links (unlinked V P G S vP vS) g = links V g).
  { intros g N1 N2 N3. unfold unlinked. by rewrite links_delete_ne, !links_insert_ne. }
  destruct NP as (N1 & N2 & N3). destruct NG as [N4 N5].
  apply line_app. cbn [head default line]. split; [|exists (vlink vP S 0 0); split; [|split; [done|split; [done|]]]].
  - eapply line_links; [|exact H1]. intros g Hg. specialize (Hn2 g Hg). rewrite !not_elem_of_cons in Hn2.
    destruct Hn2 as (? & ? & ? & _). by apply Hf.
  - unfold unlinked. rewrite lookup_delete_ne by congruence. rewrite lookup_insert_ne by congruence. by rewrite lookup_insert_eq.
  - exists (t_set_pred vS P). split; [|split; [|split; [done|]]].
    + unfold unlinked. rewrite lookup_delete_ne by congruence. by rewrite lookup_insert_eq.
    + intros p [= <-]. done.
    + eapply line_links; [|exact H2]. intros g Hg. apply Hf; intros ->; done.
Qed.

(** A new generation at the end of the list. *)
Lemma line_snoc V l g g' v t :
  NoDup (l ++ [g; g']) -> line V None (l ++ [g]) (-1) -> V !! g = Some v -> t_succ v = -1 ->
  t_gen t = g' -> t_pred t = g -> t_succ t = -1 ->
  forall dl dr, line (<[g' := disk_tree t]> (<[g := vlink v g' dl dr]> V)) None (l ++ [g; g']) (-1).
Proof.
  intros Hn Hl Hv Hs Eg Ep Es dl dr. apply NoDup_app in Hn as (Hn1 & Hn2 & Hn3).
  apply NoDup_cons in Hn3 as [NG _]. apply not_elem_of_cons in NG as [NG _].
  apply line_app in Hl as [H1 (tg & E & P & _)]. cbn in H1. assert (tg = v) as -> by congruence.
  apply line_app. cbn [head default line]. split; [|exists (vlink v g' dl dr); split; [|split; [done|split; [done|]]]].
  - eapply line_links; [|exact H1]. intros x Hx. specialize (Hn2 x Hx). rewrite !not_elem_of_cons in Hn2.
    destruct Hn2 as (? & ? & _). by rewrite !links_insert_ne.
  - rewrite lookup_insert_ne by done. by rewrite lookup_insert_eq.
  - exists (disk_tree t). rewrite lookup_insert_eq. split; [done|]. split; [by intros p [= <-]|]. by rewrite <- Es.
Qed.

(** ** The operations on the two maps *)

Lemma snaps_tree OT V L g t : snaps OT V L -> V !! g = Some t ->
  r64 g /\ wf_tree t /\ disk_tree t = t /\ t_gen t = g /\ 0 <= t_nlbl t < 2 ^ 31 /\ 0 <= t_nref t < 2 ^ 31.
Proof. intros Hs Ht. destruct (sp_tree _ _ _ Hs _ _ Ht) as (? & Hw & ? & ? & ? & ? & _). unfold wf_tree in Hw. split_and?; done || lia. Qed.

Lemma wf_links t : wf_tree t -> r64 (t_gen t) /\ r64 (t_pred t) /\ r64 (t_succ t) /\ r64 (t_base t).
Proof. unfold wf_tree, r64. tauto. Qed.

Lemma unlink_steps OT V L0 L t P G S vP vG vS :
  snaps OT V L0 -> t_pred t = P -> t_gen t = G -> (t_succ t = S \/ t_succ t = -1 /\ t_pred vS = P) -> S <> -1 ->
  V !! P = Some vP -> V !! G = Some vG -> V !! S = Some vS -> P <> G -> P <> S -> G <> S ->
  voks (unlink_ops t S) V L /\ vsteps (unlink_ops t S) V L = Some (unlinked V P G S vP vS, L).
Proof.
  intros Hs EP EG ES S1 HP HG HS N1 N2 N3. unfold unlink_ops. rewrite EP, EG.
  destruct (snaps_tree _ _ _ _ _ Hs HP) as (RP & _ & _ & _ & LP & NP). destruct (snaps_tree _ _ _ _ _ Hs HS) as (RS & _ & _ & _ & _).
  assert (HS' : (<[P := vlink vP S 0 0]> V) !! S = Some vS) by by rewrite lookup_insert_ne.
  assert (Hok : vok (VLink P S 0 0) V).
  { split; [done|]. split; [done|]. split; [done|]. intros x Hx. assert (x = vP) as -> by congruence. lia. }
  destruct ES as [ES|[ES Ep]]; rewrite ES.
  - rewrite (proj2 (Z.eqb_neq S (-1))) by done. cbn [negb app voks vsteps vstep]. rewrite HP. cbn [base.mbind option_bind].
    rewrite HS'. cbn. rewrite lookup_insert_ne, lookup_insert_ne, HG by done. cbn. done.
  - change (negb (-1 =? -1)) with false. cbn [app voks vsteps vstep]. rewrite HP. cbn [base.mbind option_bind].
    rewrite lookup_insert_ne, HG by done. cbn. split; [done|]. do 2 f_equal. unfold unlinked. f_equal.
    symmetry. rewrite <- (insert_id (<[P := vlink vP S 0 0]> V) S vS HS') at 2. f_equal. rewrite <- Ep. by destruct vS.
Qed.

Definition updated (V : Vmap) (t vP : Tree) (dl dr : Z) : Vmap :=
  <[t_gen t := disk_tree t]> (<[t_pred t := vlink vP (t_gen t) dl dr]> V).

Lemma upd_steps OT V L o lbl f mg (last : bool) vP :
  snaps OT V L -> let t := t_next o (if last then t_pred o else t_gen o) mg in
  V !! t_pred t = Some vP -> wf_tree o -> r64 (t_memgen o) -> 0 <= f < 2 ^ 32 -> zlen lbl + 14 <= Kvmax ->
  (last = false -> 1 <= t_nlbl vP /\ t_nref vP + 1 < 2 ^ 31) ->
  voks (upd_ops o lbl f mg last) V L /\
  vsteps (upd_ops o lbl f mg last) V L =
    Some (updated V t vP (if last then 0 else -1) (if last then 0 else 1), <[lbl := (t_memgen o, f)]> L).
Proof.
  intros Hs t HP Hw Hm Hf Hn Hl. unfold upd_ops. fold t. destruct (snaps_tree _ _ _ _ _ Hs HP) as (RP & WP & _ & _ & LP & NP).
  assert (Hwt : wf_tree t).
  { unfold wf_tree, t, t_next in *. cbn. unfold wf_tree in WP. unfold r64 in *. destruct_and!. split_and?; done || (destruct last; cbn; lia) || lia. }
  cbn [voks vsteps vstep]. rewrite HP. cbn [base.mbind option_bind]. split; [|done].
  split; [split; [done|split; [by destruct last|split; [by destruct last|]]]|].
  { intros x Hx. assert (x = vP) as -> by congruence. destruct last; [lia|]. specialize (Hl eq_refl). lia. }
  split; [done|]. split; [done|done].
Qed.

Lemma tag_steps OT V L t name f v :
  snaps OT V L -> V !! t_gen t = Some v -> r64 (t_succ t) -> t_nlbl v + 1 < 2 ^ 31 -> 0 <= f < 2 ^ 32 -> zlen name + 14 <= Kvmax ->
  voks (tag_ops t name f) V L /\
  vsteps (tag_ops t name f) V L = Some (<[t_gen t := vlink v (t_succ t) 1 0]> V, <[name := (t_gen t, f)]> L).
Proof.
  intros Hs Hv Hsu Hl Hf Hn. destruct (snaps_tree _ _ _ _ _ Hs Hv) as (RP & WP & _ & _ & LP & NP).
  unfold tag_ops. cbn [voks vsteps vstep]. rewrite Hv. cbn [base.mbind option_bind]. split; [|done].
  split; [|done]. split; [done|]. split; [done|]. split; [done|]. intros x Hx. assert (x = v) as -> by congruence. lia.
Qed.

Definition forked (V : Vmap) (t n v : Tree) : Vmap := <[t_gen n := disk_tree n]> (<[t_gen t := vlink v (t_succ t) 0 1]> V).

Lemma fork_steps OT V L t name f gen mg v :
  snaps OT V L -> V !! t_gen t = Some v -> wf_tree t -> r64 gen -> t_nref v + 1 < 2 ^ 31 -> 0 <= f < 2 ^ 32 -> zlen name + 14 <= Kvmax ->
  voks (fork_ops t name f gen mg) V L /\
  vsteps (fork_ops t name f gen mg) V L = Some (forked V t (t_fork t gen mg) v, <[name := (gen, f)]> L).
Proof.
  intros Hs Hv Hw Hg Hl Hf Hn. destruct (snaps_tree _ _ _ _ _ Hs Hv) as (RP & WP & _ & _ & LP & NP).
  assert (Hwn : wf_tree (t_fork t gen mg)).
  { unfold wf_tree, t_fork in *. cbn. unfold r64 in *. destruct_and!. split_and?; done || lia. }
  unfold fork_ops. cbn [voks vsteps vstep]. rewrite Hv. cbn [base.mbind option_bind]. split; [|done].
  split; [|done]. destruct (wf_links _ Hw) as (_ & _ & ? & _). split; [done|]. split; [done|]. split; [done|].
  intros x Hx. assert (x = v) as -> by congruence. lia.
Qed.

Section snap.
Context {T B : Type} `{!MsgTree T} `{!SnapTree T} `{!SnapAlloc B}.
#[local] Abbreviation Sn := (@Sn T B).
#[local] Abbreviation key := (option (Z * Z)).
Implicit Types s : Sn.
Implicit Types (D : gmap key Dval) (V : Vmap) (L : Lmap).

(** ** [opensnap] *)

(** A new tree object. *)
Definition with_tree (t : Tree) s : Sn :=
  sn_set_tnew (S (sn_tnew s)) (sn_set_trees (<[sn_tnew s := t]> (sn_trees s)) (sn_set_nextgen (sn_nextgen s + 1) s)).

Lemma heapeq_with t s : heapeq s (with_tree t s).
Proof. by split. Qed.

Lemma snap_get s D V L k : snapsys s D V L -> (exists g, k = snapkey g) \/ (exists n, k = lblkey n) ->
  postE tree_err (tget (sn_snap s) k Kvmax) (fun r => r = tval (sn_snap s) k).
Proof.
  intros (OT & (H & Hok & _) & Hs) Hk. pose proof (ok_tree _ _ _ Hok) as Ht.
  apply tget_ok; [apply Ht|]. apply (tp_ofits _ _ Ht); destruct Hk as [[g ->]|[n ->]]; try done.
  - apply (sp_fits _ _ _ Hs).
  - apply (sp_lfits _ _ _ Hs).
Qed.

Lemma snap_val s D V L : snapsys s D V L ->
  (forall g t, V !! g = Some t -> tval (sn_snap s) (snapkey g) = Some (treekv g t)) /\
  (forall n, tval (sn_snap s) (lblkey n) = match L !! n with Some (g, f) => Some (lblkv n g f) | None => None end).
Proof.
  intros (OT & (H & Hok & _) & Hs). pose proof (ok_tree _ _ _ Hok) as Ht. split.
  - intros g t Hv. rewrite (tp_other _ _ Ht) by done. by destruct (sp_tree _ _ _ Hs _ _ Hv) as (_ & _ & _ & _ & _ & _ & ->).
  - intros n. rewrite (tp_other _ _ Ht) by done. destruct (L !! n) as [[g f]|] eqn:E.
    + by destruct (sp_lbl _ _ _ Hs _ _ _ E) as [-> _].
    + by apply (sp_nolbl _ _ _ Hs).
Qed.

Lemma lblkv_read n g f : r64 g -> 0 <= f < 2 ^ 32 ->
  zlen (kv_v (lblkv n g f)) = 13 /\ (exists x, rd64 (kv_v (lblkv n g f)) 1 = Ok x /\ s64 x = g) /\ rd32 (kv_v (lblkv n g f)) 9 = Ok f.
Proof.
  intros Hg Hf. split; [done|]. split.
  - exists (u64 g). split; [apply (rd64_at _ 1 g); by split|]. rewrite s64_u64. by apply s64_small.
  - unfold rd32. rewrite (rd_at_n _ 9 4 (PACK32 f)); [|done|by split]. cbn [rbind]. f_equal.
    rewrite UNPACK32_PACK32. apply Z.mod_small. done.
Qed.

Lemma opensnap_ok s D V L label :
  snapsys s D V L -> zlen label + 1 <= Kvmax -> (forall g f, L !! label = Some (g, f) -> is_Some (V !! g)) ->
  mpost (opensnap label) s (fun e _ => tree_err e) (fun r s' =>
    match L !! label with
    | None => r = None /\ s' = s
    | Some (g, f) => exists v, V !! g = Some v /\ r = Some (sn_tnew s, f) /\ s' = with_tree (t_open v (sn_nextgen s + 1)) s
    end).
Proof.
  intros Hs Hn Hl. destruct (snap_val _ _ _ _ Hs) as [HV HL]. unfold opensnap, packlbl.
  eapply mpost_liftb; [by rewrite (proj2 (Z.leb_le _ _)) by lia|]. change ([Klabel] ++ label) with (lblkey label).
  apply mpost_get. eapply (mpost_bind _ _ _ _ _ (fun r s' => s' = s /\ r = tval (sn_snap s) (lblkey label))).
  { apply mpost_lift. eapply postE_mono; [eapply snap_get; [done|right; by eexists]|]. cbv beta. by intros r ->. }
  intros r s1 [-> ->]. rewrite HL. destruct (L !! label) as [[g f]|] eqn:El; [|by apply mpost_ret].
  destruct Hs as (OT & Hsys & Hsn). destruct (sp_lbl _ _ _ Hsn _ _ _ El) as (_ & Hg & Hf).
  destruct (Hl g f eq_refl) as [v Hv]. destruct (lblkv_read label g f Hg Hf) as (E1 & (x & E2 & E2') & E3).
  rewrite E1. change (13 =? 1 + 8 + 4) with true. cbv iota. eapply mpost_liftb; [exact E2|]. eapply mpost_liftb; [exact E3|].
  rewrite E2'. eapply (mpost_liftb _ (snapkey g)); [done|]. apply mpost_get.
  eapply (mpost_bind _ _ _ _ _ (fun r s' => s' = s /\ r = tval (sn_snap s) (snapkey g))).
  { apply mpost_lift. eapply postE_mono; [eapply (snap_get s D V L); [by exists OT|left; by eexists]|]. cbv beta. by intros r ->. }
  intros r s2 [-> ->]. rewrite (HV _ _ Hv). destruct (sp_tree _ _ _ Hsn _ _ Hv) as (_ & Hw & Ed & _).
  eapply mpost_liftb; [by apply unpacktree_disk|]. apply mpost_newgen, mpost_newtree, mpost_ret. by exists v.
Qed.
(** ** One request on a snapshot that is not mounted *)

Definition closed_tree (p : nat) (t : Tree) s : Sn :=
  (if t_memref t - 1 =? 0 then sn_set_limbo (sn_limbo s ++ [p]) else id)
    (sn_set_trees (<[p := t_set_memref t (t_memref t - 1)]> (sn_trees s)) s).

Lemma closesnap_ok s p t : sn_trees s !! p = Some t ->
  mpost (closesnap p) s (fun _ _ => False) (fun _ s' => s' = closed_tree p t s).
Proof.
  intros Hp. unfold closesnap, closed_tree. eapply mpost_tree; [done|]. apply mpost_mod. by destruct (t_memref t - 1 =? 0).
Qed.

Lemma heapeq_closed p t s : heapeq s (closed_tree p t s).
Proof. unfold closed_tree. destruct (t_memref t - 1 =? 0); by split. Qed.

Lemma closed_proj p t s :
  sn_trees (closed_tree p t s) = <[p := t_set_memref t (t_memref t - 1)]> (sn_trees s) /\
  sn_mounts (closed_tree p t s) = sn_mounts s /\ sn_nextgen (closed_tree p t s) = sn_nextgen s /\
  sn_tnew (closed_tree p t s) = sn_tnew s /\ sn_out (closed_tree p t s) = sn_out s.
Proof. unfold closed_tree. by destruct (t_memref t - 1 =? 0). Qed.

Definition unmounted s (name : list Z) : Prop := find_mount (sn_mounts s) 0 name = None.

(** Every mount has a tree, and the numbers of trees are fresh. *)
Record heap_ok s : Prop := {
  hp_mounts : Forall (fun m => is_Some (sn_trees s !! sm_root m)) (sn_mounts s);
  hp_fresh p : is_Some (sn_trees s !! p) -> (p < sn_tnew s)%nat }.

Lemma snap_src_ok s D V L old G f v :
  snapsys s D V L -> unmounted s old -> zlen old + 14 <= Kvmax -> L !! old = Some (G, f) -> V !! G = Some v ->
  mpost (snap_src old) s (fun e _ => tree_err e) (fun r s' =>
    r = Some (sn_tnew s, false) /\ s' = with_tree (t_open v (sn_nextgen s + 1)) s).
Proof.
  intros Hs Hu Hn Hl Hv. unfold snap_src. apply mpost_get. rewrite Hu.
  eapply mpost_bind; [apply (opensnap_ok s D V L); [done|lia|]|].
  { intros g f' E. rewrite Hl in E. injection E as <- <-. by exists v. }
  cbv beta. rewrite Hl. intros r s1 (v' & Hv' & -> & ->). apply mpost_ret. rewrite Hv in Hv'. by injection Hv' as <-.
Qed.

Lemma with_tree_at t s : sn_trees (with_tree t s) !! sn_tnew s = Some t.
Proof. apply lookup_insert_eq. Qed.

Lemma open_counts v mg n : set_counts (t_open v mg) (t_nlbl (t_open v mg) - n) (t_nref (t_open v mg)) =
  t_open (set_counts v (t_nlbl v - n) (t_nref v)) mg.
Proof. done. Qed.

(** Taking away a label that is not the last one. *)
Lemma unlabel_more s D V L n G f v :
  snapsys s D V L -> unmounted s n -> name_ok n -> L !! n = Some (G, f) -> V !! G = Some v -> 2 <= t_nlbl v ->
  mpost (snapfs n [] true 0) s low (fun r s' => r = None /\ sn_mounts s' = sn_mounts s /\
    exists D', snapsys s' D' V (delete n L)).
Proof.
  intros Hs Hu [Hr Hn] Hl Hv H2. unfold snapfs.
  eapply mpost_bind; [eapply mpost_mono; [by apply (snap_src_ok s D V L n G f v)|by intros e s' He; left|intros a s' HQ; exact HQ]|].
  cbv beta. intros r s1 [-> ->]. cbv iota. set (t := t_open v (sn_nextgen s + 1)). set (s1 := with_tree t s).
  assert (Hs1 : snapsys s1 D V L) by (apply (snapsys_heap s); [apply heapeq_with|done]).
  eapply (mpost_tree (sn_tnew s) t); [apply with_tree_at|].
  assert (E : (t_nlbl t =? 1) = false) by (apply Z.eqb_neq; cbn; lia). rewrite E. cbn [andb].
  apply mpost_retb. eapply mpost_bind.
  { apply (delsnap_stays s1 D V L (sn_tnew s) t (t_succ t) (Some n) V (delete n L)); try done.
    - apply with_tree_at.
    - intros n' [= <-]. done.
    - unfold deltree. cbn. destruct (Z.eqb_spec (t_nlbl v - 1) 0); [lia|done].
    - cbn. by rewrite Hl.
    - cbn. by rewrite Hl. }
  cbv beta. intros _ s2 ([R1 R2 R3 R4] & Etr & _ & _ & D2 & Hs2 & _).
  eapply mpost_bind; [eapply mpost_mono; [apply closesnap_ok; rewrite Etr; apply lookup_insert_eq|done|intros a s' HQ; exact HQ]|].
  cbv beta. intros _ s3 ->. apply mpost_ret. split; [done|].
  destruct (closed_proj (sn_tnew s) (set_counts t (t_nlbl t - lbl_count (Some n)) (t_nref t)) s2) as (_ & -> & _).
  split; [by rewrite R2|]. exists D2. eapply snapsys_heap; [apply heapeq_closed|done].
Qed.

(** A fork of an unmounted snapshot. *)
Lemma fork_ok s D V L old new G f0 f v :
  snapsys s D V L -> unmounted s old -> name_ok new -> zlen old + 14 <= Kvmax -> L !! old = Some (G, f0) -> V !! G = Some v ->
  L !! new = None -> Z.land f Lmut <> 0 -> 0 <= f < 2 ^ 32 -> r64 (sn_nextgen s + 2) -> t_nref v + 1 < 2 ^ 31 ->
  mpost (snapfs old new false f) s low (fun r s' => r = None /\ sn_mounts s' = sn_mounts s /\ sn_nextgen s' = sn_nextgen s + 3 /\
    (heap_ok s -> heap_ok s') /\ frees (sn_out s') = frees (sn_out s) /\ (forall g b o, at_cache s g b o -> at_cache s' g b o) /\
    exists D', snapsys s' D' (forked V v (t_fork v (sn_nextgen s + 2) (sn_nextgen s + 3)) v) (<[new := (sn_nextgen s + 2, f)]> L) /\
      (forall gb, D' !! Some gb = D !! Some gb)).
Proof.
  intros Hs Hu Hn Hn' Hl Hv Hnew Hf Hf' Hg Hc. unfold snapfs. pose proof Hn as [_ Hn2].
  eapply mpost_bind; [eapply mpost_mono; [by apply (snap_src_ok s D V L old G f0 v)|by intros e s' He; left|intros a s' HQ; exact HQ]|].
  cbv beta. intros r s1 [-> ->]. cbv iota. set (t := t_open v (sn_nextgen s + 1)). set (s1 := with_tree t s).
  assert (Hs1 : snapsys s1 D V L) by (apply (snapsys_heap s); [apply heapeq_with|done]).
  eapply mpost_bind.
  { eapply mpost_mono; [apply (opensnap_ok s1 D V L new); [done|lia|by rewrite Hnew]|by intros e s' He; left|intros a s' HQ; exact HQ]. }
  cbv beta. rewrite Hnew. intros r s2 [-> ->].
  pose proof Hs1 as (OT & Hsys & Hsn). destruct (sp_tree _ _ _ Hsn _ _ Hv) as (RG & Wv & Ev & EG & _).
  assert (Hsteps : voks (fork_ops t new f (sn_nextgen s1 + 1) (sn_nextgen s1 + 1 + 1)) V L /\
    vsteps (fork_ops t new f (sn_nextgen s1 + 1) (sn_nextgen s1 + 1 + 1)) V L =
      Some (forked V t (t_fork t (sn_nextgen s1 + 1) (sn_nextgen s1 + 1 + 1)) v, <[new := (sn_nextgen s1 + 1, f)]> L)).
  { apply (fork_steps OT); try done; [cbn; by rewrite EG|]. unfold s1. cbn. by replace (sn_nextgen s + 1 + 1) with (sn_nextgen s + 2) by lia. }
  destruct Hsteps as [Ho Hst]. eapply mpost_bind; [by apply (tagsnap_fork s1 D V L (sn_tnew s) t new f _ _ Hs1 (with_tree_at t s) Hn Hf Ho Hst)|].
  cbv beta. intros _ s3 (T1 & T2 & T3 & T4 & T5 & T6 & T7 & D3 & Hs3 & HD3).
  eapply mpost_bind; [eapply mpost_mono; [apply closesnap_ok; rewrite T5; apply lookup_insert_eq|done|intros a s' HQ; exact HQ]|].
  cbv beta. intros _ s4 ->. apply mpost_ret. split; [done|].
  destruct (closed_proj (sn_tnew s) (set_counts t (t_nlbl t) (t_nref t + 1)) s3) as (P1 & P2 & P3 & P4 & P5).
  split; [by rewrite P2, T2|]. split; [rewrite P3, T4; unfold s1; cbn; lia|]. split; [|split; [by rewrite P5, T6|split; [|]]].
  - intros [Q1 Q2]. split.
    + rewrite P1, P2, T2, T5. cbn. eapply Forall_impl; [exact Q1|]. intros m Hm. do 3 (apply lookup_insert_is_Some'; right). done.
    + intros q. rewrite P1, P4, T1, T5. cbn. intros [x Hx]. repeat (apply lookup_insert_Some in Hx as [[<- _]|[_ Hx]]; [lia|]).
      pose proof (Q2 q ltac:(by exists x)). lia.
  - intros g b o Hat. eapply at_cache_heap; [apply heapeq_closed|]. by apply T7, (at_cache_heap s).
  - exists D3. split; [|done]. eapply snapsys_heap; [apply heapeq_closed|].
    unfold s1 in Hs3. cbn in Hs3. replace (sn_nextgen s + 1 + 1) with (sn_nextgen s + 2) in Hs3 by lia.
    replace (sn_nextgen s + 2 + 1) with (sn_nextgen s + 3) in Hs3 by lia. exact Hs3.
Qed.

(** Taking away the last label of a tree with no successor in the list: the
    tree is handed out to be swept. *)
Lemma delete_last s D V L n P G f v vP :
  snapsys s D V L -> unmounted s n -> name_ok n -> L !! n = Some (G, f) -> V !! G = Some v -> V !! P = Some vP ->
  t_nlbl v = 1 -> t_nref v <= 1 -> t_succ v = -1 -> t_pred v = P -> P <> -1 -> G <> -1 -> P <> G -> nostale s D P P -> heap_ok s ->
  mpost (snapfs n [] true 0) s lowx (fun r s' => r = Some (sn_tnew s) /\
    (exists t, sn_trees s' !! sn_tnew s = Some t /\ t_bp t = t_bp v /\ t_pred t = P /\ t_gen t = G) /\
    exists D', snapsys s' D' (delete G (<[P := vlink vP (-1) 0 0]> V)) (delete n L)).
Proof.
  intros Hs Hu [Hr Hn] Hl Hv HP H1 H2 Hsu Hpr P1 G1 PG Hst [Q1 Q2]. unfold snapfs.
  eapply mpost_bind; [eapply mpost_mono; [by apply (snap_src_ok s D V L n G f v)|by intros e s' He; left; left|intros a s' HQ; exact HQ]|].
  cbv beta. intros r s1 [-> ->]. cbv iota. set (t := t_open v (sn_nextgen s + 1)). set (s1 := with_tree t s).
  pose proof Hs as (OT & Hsys & Hsn). destruct (sp_tree _ _ _ Hsn _ _ Hv) as (RG & Wv & Ev & EG & _).
  destruct (sp_tree _ _ _ Hsn _ _ HP) as (RP & WP & EP & EGP & LP & NP & _).
  eapply (mpost_tree (sn_tnew s) t); [apply with_tree_at|].
  assert (E : (t_nlbl t =? 1) && (t_nref t <=? 1) && (t_succ t =? -1) = true).
  { unfold t. cbn. rewrite H1, Hsu. by rewrite (proj2 (Z.leb_le (t_nref v) 1) H2). }
  rewrite E. set (t1 := t_set_memref t (t_memref t + 1)).
  eapply (mpost_bind _ _ _ _ _ (fun r s' => r = Some (sn_tnew s) /\ s' = sn_set_trees (<[sn_tnew s := t1]> (sn_trees s1)) s1)).
  { unfold hold_tree. eapply (mpost_bind _ _ _ _ _ (fun _ s' => s' = sn_set_trees (<[sn_tnew s := t1]> (sn_trees s1)) s1)).
    - eapply mpost_tree; [apply with_tree_at|]. done.
    - intros _ s' ->. by apply mpost_ret. }
  intros r s2 [-> ->]. set (s2 := sn_set_trees _ _).
  assert (He : heapeq s s2) by (transitivity s1; [apply heapeq_with|by split]).
  assert (Hs2 : snapsys s2 D V L) by by apply (snapsys_heap s).
  assert (Hp2 : sn_trees s2 !! sn_tnew s = Some t1) by apply lookup_insert_eq.
  assert (Hsteps : voks (lbl_ops (Some n) ++ unlink_ops (set_counts t1 (t_nlbl t1 - 1) (t_nref t1)) (-1)) V L /\
    vsteps (lbl_ops (Some n) ++ unlink_ops (set_counts t1 (t_nlbl t1 - 1) (t_nref t1)) (-1)) V L =
      Some (delete G (<[P := vlink vP (-1) 0 0]> V), delete n L)).
  { unfold unlink_ops. cbn. rewrite Hl, Hsu, Hpr, EG. cbn. rewrite HP. cbn. rewrite lookup_insert_ne, Hv by done. cbn.
    split; [|done]. split; [done|]. split; [|done]. split; [done|]. split; [done|]. split; [done|].
    intros x [= <-]. unfold wf_tree in WP. lia. }
  destruct Hsteps as [Ho Hvs]. change (t_succ t) with (t_succ v). rewrite Hsu.
  assert (Esu : t_succ t1 = -1) by exact Hsu. assert (Epr : t_pred t1 = P) by exact Hpr. assert (Egn : t_gen t1 = G) by exact EG.
  eapply mpost_bind.
  { apply (delsnap_goes s2 D V L (sn_tnew s) t1 (-1) (Some n) (delete G (<[P := vlink vP (-1) 0 0]> V)) (delete n L) (fun _ _ => True) Hs2 Hp2); try exact Ho; try exact Hvs.
    - intros n' [= <-]. done.
    - unfold deltree. cbn. rewrite H1. by rewrite (proj2 (Z.leb_le (t_nref v) 1) H2).
    - rewrite Epr, Egn. by apply reclaim_end.
    - by rewrite Egn, Esu.
    - by rewrite Egn, Epr.
    - cbn. eapply Forall_impl; [exact Q1|]. intros m Hm. do 2 (apply lookup_insert_is_Some'; right). done. }
  cbv beta. intros _ s3 ([R1 R2 R3 R4] & Etr & _ & D3 & Hs3 & _).
  set (t2 := set_counts t1 (t_nlbl t1 - lbl_count (Some n)) (t_nref t1)) in *.
  assert (Hp3 : sn_trees s3 !! sn_tnew s = Some t2).
  { rewrite Etr, relink_trees_lookup, lookup_insert_eq. cbn [fmap option_fmap option_map]. f_equal. destruct (decide _); [|done].
    apply relinked_self; change (t_gen t2) with (t_gen t1); [change (t_succ t2) with (t_succ t1)|change (t_pred t2) with (t_pred t1)]; congruence. }
  eapply mpost_bind; [eapply mpost_mono; [by apply closesnap_ok|done|intros a s' HQ; exact HQ]|].
  cbv beta. intros _ s4 ->. apply mpost_ret. split; [done|].
  destruct (closed_proj (sn_tnew s) t2 s3) as (-> & _). split.
  - exists (t_set_memref t2 (t_memref t2 - 1)). rewrite lookup_insert_eq. done.
  - exists D3. eapply snapsys_heap; [apply heapeq_closed|done].
Qed.
End snap.

(** ** Theorems *)

(** C14: removing the only label of a snapshot between two others takes it out
    of the list, links its neighbours, and leaves every other snapshot and
    label as it was.  The deadlists of the successor are then exact for the
    new predecessor, and what is queued to be freed is used by neither
    neighbour and contains every block only the removed snapshot used. *)
Theorem delsnap_correct {T B} `{!MsgTree T} `{!SnapTree T} `{!SnapAlloc B} (s : @Sn T B) D V L l1 l2 P G S p t name f R birth base :
  snapsys s D V L -> line V None (l1 ++ P :: G :: S :: l2) (-1) -> NoDup (l1 ++ P :: G :: S :: l2) -> heap_ok s ->
  sn_trees s !! p = Some t -> V !! G = Some (disk_tree t) -> t_nlbl t = 1 -> t_nref t <= 1 ->
  L !! name = Some (G, f) -> name_ok name -> removable s D R birth base P G S ->
  mpost (delsnap p (t_succ t) (Some name)) s lowx (fun _ s' => exists D' V' dead blks,
    snapsys s' D' V' (delete name L) /\ line V' None (l1 ++ P :: S :: l2) (-1) /\ V' !! G = None /\
    (forall g, g <> P -> g <> G -> g <> S -> V' !! g = V !! g) /\
    deleted (sn_out s) (sn_out s') D R birth base P G S D' dead blks).
Proof.
  intros Hs Hl Hn [Q1 Q2] Hp HG Hnl Hnr Hlb Hok Hrm. pose proof Hl as Hl0.
  apply line_app in Hl as [_ (vP & HP & _ & _ & tG & HG' & PG & SG & vS & HS & _)].
  rewrite HG in HG'. injection HG' as <-. specialize (PG P eq_refl). cbn in PG, SG.
  pose proof Hs as (OT & _ & Hsn). destruct (snaps_tree _ _ _ _ _ Hsn HG) as (RG & _ & _ & EG & _).
  change (t_gen (disk_tree t)) with (t_gen t) in EG.
  pose proof Hn as (_ & _ & Hn3)%NoDup_app. apply NoDup_cons in Hn3 as [NP Hn3]. apply NoDup_cons in Hn3 as [NG _].
  rewrite !not_elem_of_cons in NP. rewrite not_elem_of_cons in NG. destruct NP as (N1 & N2 & _), NG as (N3 & _).
  set (t' := set_counts t (t_nlbl t - 1) (t_nref t)).
  destruct (unlink_steps OT V L (delete name L) t' P G S vP (disk_tree t) vS) as [Ho Hv]; try done.
  { by left. }
  { by destruct (rm_r64 _ _ _ _ _ _ _ _ Hrm) as (_ & _ & ? & _). }
  assert (Hx : voks (lbl_ops (Some name) ++ unlink_ops t' S) V L /\
    vsteps (lbl_ops (Some name) ++ unlink_ops t' S) V L = Some (unlinked V P G S vP vS, delete name L)).
  { cbn [lbl_ops app voks vsteps vstep]. rewrite Hlb. cbn [base.mbind option_bind]. done. }
  destruct Hx as [Ho' Hv']. rewrite SG. cbn [default head].
  eapply mpost_mono; [eapply (delsnap_goes s D V L p t S (Some name) _ _ (fun out D' =>
    exists dead blks, deleted (sn_out s) out D R birth base P G S D' dead blks) Hs Hp); try exact Ho'; try exact Hv'; try done|done|].
  - intros n' [= <-]. done.
  - unfold deltree. cbn. rewrite Hnl. by rewrite (proj2 (Z.leb_le (t_nref t) 1) Hnr).
  - rewrite EG, PG. by apply reclaim_between.
  - by rewrite EG, SG.
  - rewrite EG, PG. congruence.
  - cbv beta. intros _ s' (_ & _ & _ & D' & Hs' & dead & blks & Hd). exists D', (unlinked V P G S vP vS), dead, blks.
    split; [done|]. split; [by apply line_unlink|]. split; [by apply lookup_delete_eq|]. split; [|done].
    intros g M1 M2 M3. unfold unlinked. rewrite lookup_delete_ne by congruence. by rewrite !lookup_insert_ne by congruence.
Qed.

(** C15: taking a snapshot of a changed tree whose last generation [G] has no
    other label replaces [G] by the next generation, with the tree as it is
    now: the label and the mount follow, [G] is gone, and its blocks are
    reclaimed like those of a removed snapshot. *)
Theorem updatesnap_replaces {T B} `{!MsgTree T} `{!SnapTree T} `{!SnapAlloc B} (s : @Sn T B) D V L l P G S i p o lbl f R birth base :
  snapsys s D V L -> line V None (l ++ [P; G]) (-1) -> NoDup (l ++ [P; G; S]) -> heap_ok s ->
  sn_trees s !! p = Some o -> t_dirty o <> 0 -> wf_tree o -> t_gen o = G -> t_memgen o = S -> t_pred o = P -> t_succ o = -1 ->
  t_nlbl o = 1 -> t_nref o = 0 -> G <> -1 -> zlen lbl + 14 <= Kvmax -> 0 <= f < 2 ^ 32 -> removable s D R birth base P G S ->
  mpost (updatesnap i p lbl f) s lowx (fun _ s' => exists D' V' t dead blks,
    snapsys s' D' V' (<[lbl := (S, f)]> L) /\ line V' None (l ++ [P; S]) (-1) /\ V' !! G = None /\ V' !! S = Some (disk_tree t) /\
    sn_trees s' !! sn_tnew s = Some t /\ t_gen t = S /\ t_bp t = t_bp o /\ t_ht t = t_ht o /\ t_dirty t = 0 /\
    (forall m, sn_mounts s !! i = Some m -> sn_mounts s' !! i = Some (mkSmnt (sm_name m) (sm_flag m) (sn_tnew s))) /\
    deleted (sn_out s) (sn_out s') D R birth base P G S D' dead blks).
Proof.
  intros Hs Hl Hn [Q1 Q2] Hp Hd Hw EG ES EP Esu Hnl Hnr G1 Hlbl Hf Hrm. pose proof Hl as Hl0.
  apply line_app in Hl as [H0 (vP & HP & Hprev & _ & vG & HG & PG & _)].
  pose proof Hs as (OT & _ & Hsn). destruct (rm_r64 _ _ _ _ _ _ _ _ Hrm) as (RG & RS & S1 & SG).
  pose proof Hn as (_ & Hn2 & Hn3)%NoDup_app. apply NoDup_cons in Hn3 as [NP Hn3].
  rewrite !not_elem_of_cons in NP. destruct NP as (N1 & N2 & _).
  set (o' := t_set_dirty (set_counts o (t_nlbl o - 1) (t_nref o + 1)) 0).
  set (t := t_next o (t_pred o) (sn_nextgen s + 1)).
  destruct (upd_steps OT V L o lbl f (sn_nextgen s + 1) true vP Hsn) as [Ho1 Hv1]; [cbn; by rewrite EP|done|by rewrite ES|done|done|done|].
  cbv iota in Hv1. fold t in Hv1. set (V1 := updated V t vP 0 0) in *.
  assert (Ht : t_gen t = S /\ t_pred t = P) by done. destruct Ht as [Et1 Et2].
  assert (HP1 : V1 !! P = Some (vlink vP S 0 0)).
  { unfold V1, updated. rewrite Et1, Et2. rewrite lookup_insert_ne by congruence. by rewrite lookup_insert_eq. }
  assert (HS1 : V1 !! S = Some (disk_tree t)) by (unfold V1, updated; rewrite Et1; apply lookup_insert_eq).
  assert (HG1 : V1 !! G = Some vG).
  { unfold V1, updated. rewrite Et1, Et2. by rewrite !lookup_insert_ne by congruence. }
  destruct (snaps_run _ _ _ _ _ _ Hsn Ho1 Hv1) as (OT1 & _ & Hsn1). set (V' := unlinked V1 P G S (vlink vP S 0 0) (disk_tree t)).
  set (L1 := <[lbl := (t_memgen o, f)]> L) in *.
  destruct (unlink_steps OT1 V1 L1 L1 o' P G S (vlink vP S 0 0) vG (disk_tree t) Hsn1) as [Ho2 Hv2]; try done.
  { right. done. }
  eapply mpost_mono; [apply (updatesnap_goes s D V L i p o lbl f V1 L1 V' L1 R birth base Hs Hp Hd Hlbl Hnl Hnr Esu); try done|done|].
  - by rewrite EG.
  - rewrite EG, EP. congruence.
  - by rewrite ES.
  - by rewrite ES.
  - by rewrite EP, EG, ES.
  - cbv beta. intros _ s' (_ & (s1 & -> & E1 & E2 & _) & D' & dead & blks & Hs' & Hdel). rewrite EP, EG, ES in Hdel.
    assert (HS' : V' !! S = Some (disk_tree t)).
    { unfold V', unlinked. rewrite lookup_delete_ne by congruence. rewrite lookup_insert_eq. f_equal. by rewrite <- EP. }
    exists D', V', t, dead, blks. unfold L1 in Hs'. rewrite ES in Hs'. split; [done|]. split; [|split; [apply lookup_delete_eq|split; [done|]]].
    + apply line_app. cbn [head default line]. split.
      * eapply line_links; [|exact H0]. intros g Hg. specialize (Hn2 g Hg). rewrite !not_elem_of_cons in Hn2.
        destruct Hn2 as (? & ? & ? & _). unfold V', unlinked. rewrite links_delete_ne, !links_insert_ne by done.
        unfold V1, updated. rewrite Et1, Et2. by rewrite !links_insert_ne.
      * exists (vlink (vlink vP S 0 0) S 0 0). split; [|split; [exact Hprev|split; [done|]]].
        -- unfold V', unlinked. rewrite lookup_delete_ne by congruence. rewrite lookup_insert_ne by congruence. by rewrite lookup_insert_eq.
        -- exists (disk_tree t). split; [done|]. split; [by intros x [= <-]; rewrite <- EP|done].
    + unfold swap_root.
      split; [cbn; apply lookup_insert_eq|].
      split; [done|].
      split; [done|].
      split; [done|].
      split; [done|].
      split; [|done].
      intros m Hm. cbn. by rewrite E2, list_lookup_alter, decide_True, Hm by done.
Qed.

(** C34: the stored number of labels does not go down when a label is removed
    and another one is left.  After the last of two labels is removed in the
    same way the snapshot is still stored, with two labels it does not have,
    and nothing refers to it: its blocks are never reclaimed. *)
Theorem second_label_stays {T B} `{!MsgTree T} `{!SnapTree T} `{!SnapAlloc B} (s : @Sn T B) D V L n1 n2 G f1 f2 v :
  snapsys s D V L -> n1 <> n2 -> name_ok n1 -> name_ok n2 -> unmounted s n1 -> unmounted s n2 ->
  L !! n1 = Some (G, f1) -> L !! n2 = Some (G, f2) -> (forall n f, L !! n = Some (G, f) -> n = n1 \/ n = n2) ->
  V !! G = Some v -> t_nlbl v = 2 ->
  mpost (do* snapfs n1 [] true 0 in snapfs n2 [] true 0) s low (fun r s' => r = None /\ exists D' L',
    snapsys s' D' V L' /\ V !! G = Some v /\ forall n f, L' !! n <> Some (G, f)).
Proof.
  intros Hs Hne Hk1 Hk2 Hu1 Hu2 Hl1 Hl2 Hall Hv Hn.
  eapply mpost_bind; [by apply (unlabel_more s D V L n1 G f1 v); [..|lia]|]. cbv beta. intros r s1 (_ & Hm & D1 & Hs1).
  eapply mpost_mono; [apply (unlabel_more s1 D1 V (delete n1 L) n2 G f2 v); try done|done|].
  - unfold unmounted. by rewrite Hm.
  - by rewrite lookup_delete_ne.
  - lia.
  - cbv beta. intros r' s2 (-> & _ & D2 & Hs2). split; [done|]. exists D2, (delete n2 (delete n1 L)). split; [done|]. split; [done|].
    intros n f. rewrite !lookup_delete_Some. intros (E2 & E1 & Hl). by destruct (Hall n f Hl).
Qed.

(** C35: a snapshot that was only forked counts its fork as its one successor
    and can be deleted.  The request hands its tree out to be swept: all
    blocks of its own, those born after its predecessor [P], are freed.  The
    fork is the same tree, with the same root. *)
Theorem forked_tip_swept {T B} `{!MsgTree T} `{!SnapTree T} `{!SnapAlloc B} (s : @Sn T B) D V L old new P G f0 f v vP :
  snapsys s D V L -> heap_ok s -> unmounted s old -> name_ok old -> name_ok new -> old <> new ->
  L !! old = Some (G, f0) -> L !! new = None -> V !! G = Some v -> V !! P = Some vP ->
  t_nlbl v = 1 -> t_nref v = 0 -> t_succ v = -1 -> t_pred v = P -> P <> -1 -> G <> -1 -> P <> G -> nostale s D P P ->
  Z.land f Lmut <> 0 -> 0 <= f < 2 ^ 32 -> r64 (sn_nextgen s + 2) -> sn_nextgen s + 2 <> G -> sn_nextgen s + 2 <> P ->
  mpost (do* snapfs old new false f in snapfs old [] true 0) s
    (fun e s' => lowx e s') (fun r s' => exists q t u D' V' L',
      r = Some q /\ sn_trees s' !! q = Some t /\ t_gen t = G /\ t_pred t = P /\
      snapsys s' D' V' L' /\ L' !! new = Some (sn_nextgen s + 2, f) /\ V' !! (sn_nextgen s + 2) = Some u /\
      t_bp u = t_bp t /\ t_base u = G /\ V' !! G = None).
Proof.
  intros Hs Hh Hu Hk1 Hk2 Hne Hl Hnew Hv HP Hnl Hnr Hsu Hpr P1 G1 PG Hst Hf Hf' Hr64 N1 N2. pose proof Hk1 as [_ Hk1'].
  pose proof Hs as (OT & _ & Hsn). destruct (snaps_tree _ _ _ _ _ Hsn Hv) as (RG & _ & _ & EG & _).
  eapply mpost_bind; [eapply mpost_mono; [by apply (fork_ok s D V L old new G f0 f v); [..|lia]|by intros e s' He; left|intros a s' HQ; exact HQ]|].
  cbv beta. intros r s1 (-> & Hm & Hng & Hh1 & _ & Hc & D1 & Hs1 & HD).
  set (g := sn_nextgen s + 2) in *. set (n := t_fork v g (sn_nextgen s + 3)) in *. set (V1 := forked V v n v) in *.
  assert (En : t_gen n = g) by done.
  assert (HG1 : V1 !! G = Some (vlink v (-1) 0 1)).
  { unfold V1, forked. rewrite En, EG, Hsu. rewrite lookup_insert_ne by done. by rewrite lookup_insert_eq. }
  assert (HP1 : V1 !! P = Some vP).
  { unfold V1, forked. rewrite En, EG. by rewrite !lookup_insert_ne by congruence. }
  eapply mpost_mono; [apply (delete_last s1 D1 V1 (<[new := (g, f)]> L) old P G f0 (vlink v (-1) 0 1) vP); try done|done|].
  - unfold unmounted. by rewrite Hm.
  - by rewrite lookup_insert_ne.
  - cbn. lia.
  - cbn. lia.
  - intros b Hb Hn Hr. apply Hc, Hst; try done. by rewrite <- HD.
  - by apply Hh1.
  - cbv beta. intros r s2 (-> & (t & Ht & Eb & Ep & Eg) & D2 & Hs2).
    exists (sn_tnew s1), t, (disk_tree n), D2, (delete G (<[P := vlink vP (-1) 0 0]> V1)), (delete old (<[new := (g, f)]> L)). split; [done|]. do 3 (split; [done|]). split; [exact Hs2|].
    split; [by rewrite lookup_delete_ne, lookup_insert_eq|]. split; [|split; [by rewrite Eb|split; [done|apply lookup_delete_eq]]].
    rewrite lookup_delete_ne, lookup_insert_ne by congruence. unfold V1, forked. rewrite En. apply lookup_insert_eq.
Qed.

(** C16: a label that is put on a snapshot opens the same tree afterwards, and
    changes no other label. *)
Theorem label_opens {T B} `{!MsgTree T} `{!SnapTree T} `{!SnapAlloc B} (s : @Sn T B) D V L old new G f0 f v :
  snapsys s D V L -> unmounted s old -> name_ok new -> zlen old + 14 <= Kvmax ->
  L !! old = Some (G, f0) -> L !! new = None -> V !! G = Some v -> Z.land f Lmut = 0 -> 0 <= f < 2 ^ 32 -> t_nlbl v + 1 < 2 ^ 31 ->
  mpost (do* snapfs old new false f in opensnap new) s low (fun r s' => exists q t D' V',
    r = Some (q, f) /\ sn_trees s' !! q = Some t /\ t_gen t = G /\ t_bp t = t_bp v /\ t_ht t = t_ht v /\ t_base t = t_base v /\
    snapsys s' D' V' (<[new := (G, f)]> L) /\ links V' G = links V G /\ forall g, g <> G -> V' !! g = V !! g).
Proof.
  intros Hs Hu Hk Hn' Hl Hnew Hv Hf Hf' Hc. pose proof Hk as [_ Hn].
  pose proof Hs as (OT & _ & Hsn). destruct (snaps_tree _ _ _ _ _ Hsn Hv) as (RG & Wv & _ & EG & _).
  set (V1 := <[G := vlink v (t_succ v) 1 0]> V). set (L1 := <[new := (G, f)]> L).
  eapply (mpost_bind _ _ _ _ _ (fun _ s1 => exists D1, snapsys s1 D1 V1 L1)).
  - unfold snapfs.
    eapply mpost_bind; [eapply mpost_mono; [by apply (snap_src_ok s D V L old G f0 v)|by intros e s' He; left|intros a s' HQ; exact HQ]|].
    cbv beta. intros r s1 [-> ->]. cbv iota. set (t := t_open v (sn_nextgen s + 1)). set (s1 := with_tree t s).
    assert (Hs1 : snapsys s1 D V L) by (apply (snapsys_heap s); [apply heapeq_with|done]).
    eapply mpost_bind.
    { eapply mpost_mono; [apply (opensnap_ok s1 D V L new); [done|lia|by rewrite Hnew]|by intros e s' He; left|intros a s' HQ; exact HQ]. }
    cbv beta. rewrite Hnew. intros r s2 [-> ->].
    assert (Et : t_gen t = G) by exact EG. destruct (wf_links _ Wv) as (_ & _ & Rs & _).
    destruct (tag_steps OT V L t new f v) as [Ho Hst]; try done; [by rewrite Et|]. rewrite Et in Hst.
    eapply mpost_bind; [by apply (tagsnap_label s1 D V L (sn_tnew s) t new f V1 L1 Hs1 (with_tree_at t s))|].
    cbv beta. intros _ s3 (_ & Etr & _ & D3 & Hs3 & _).
    eapply mpost_bind; [eapply mpost_mono; [apply closesnap_ok; rewrite Etr; apply lookup_insert_eq|done|intros a s' HQ; exact HQ]|].
    cbv beta. intros _ s4 ->. apply mpost_ret. exists D3. eapply snapsys_heap; [apply heapeq_closed|done].
  - intros _ s1 (D1 & Hs1). assert (HV : V1 !! G = Some (vlink v (t_succ v) 1 0)) by apply lookup_insert_eq.
    assert (HL : L1 !! new = Some (G, f)) by apply lookup_insert_eq.
    eapply mpost_mono; [apply (opensnap_ok s1 D1 V1 L1 new); [done|lia|]|by intros e s' He; left|].
    + intros g f' E. rewrite HL in E. injection E as <- <-. by exists (vlink v (t_succ v) 1 0).
    + cbv beta. rewrite HL. intros r s2 (v' & Hv' & -> & ->). rewrite HV in Hv'. injection Hv' as <-.
      exists (sn_tnew s1), (t_open (vlink v (t_succ v) 1 0) (sn_nextgen s1 + 1)), D1, V1. split; [done|].
      split; [apply with_tree_at|]. do 4 (split; [done|]). split; [apply (snapsys_heap s1); [apply heapeq_with|done]|].
      split; [unfold V1; rewrite links_insert; unfold links; by rewrite Hv|]. intros g Hg. unfold V1. by rewrite lookup_insert_ne.
Qed.

(** ** Witnesses *)


(** A tree of snapshots with the descriptors [vs] and the labels [lbls]. *)
Definition vs_kv (t : Tree) : list Z * Kvp := (snapkey (t_gen t), treekv (t_gen t) (disk_tree t)).
Definition lb_kv (l : list Z * (Z * Z)) : list Z * Kvp := (lblkey l.1, lblkv l.1 l.2.1 l.2.2).
Definition vl_ot (vs : list Tree) (lbls : list (list Z * (Z * Z))) : Kvmap := list_to_map ((vs_kv <$> vs) ++ (lb_kv <$> lbls)).
Definition vl_V (vs : list Tree) : Vmap := list_to_map ((fun t => (t_gen t, disk_tree t)) <$> vs).

Record vl_ok (vs : list Tree) (lbls : list (list Z * (Z * Z))) : Prop := {
  vl_gens : NoDup (t_gen <$> vs);
  vl_trees : Forall (fun t => wf_tree t /\ 0 <= t_nlbl t /\ 0 <= t_nref t) vs;
  vl_names : NoDup (lbls.*1);
  vl_lbls : Forall (fun l => r64 l.2.1 /\ 0 <= l.2.2 < 2 ^ 32 /\ zlen l.1 + 14 <= Kvmax) lbls }.

Section example.
Variables (vs : list Tree) (lbls : list (list Z * (Z * Z))).
Hypothesis Hok : vl_ok vs lbls.

Lemma vl_r64 t : t ∈ vs -> r64 (t_gen t).
Proof. intros Hin. pose proof (vl_trees _ _ Hok) as Hf. rewrite Forall_forall in Hf. by destruct (Hf t Hin) as ((? & _)%wf_links & _). Qed.

Lemma vl_keys : NoDup (((vs_kv <$> vs) ++ (lb_kv <$> lbls)).*1).
Proof.
  rewrite fmap_app, <- !list_fmap_compose. apply NoDup_app. split; [|split].
  - eapply (NoDup_fmap_2_strong (fst ∘ vs_kv)); [|eapply (NoDup_fmap_1 t_gen), Hok].
    intros x y Hx Hy E%snapkey_inj; [|by apply vl_r64..].
    apply list_elem_of_lookup in Hx as [i Hi], Hy as [j Hj]. assert (i = j) as ->; [|congruence].
    eapply NoDup_lookup; [apply (vl_gens _ _ Hok)|rewrite list_lookup_fmap, Hi; reflexivity|]. rewrite list_lookup_fmap, Hj. cbn. by rewrite E.
  - intros k (t & -> & _)%list_elem_of_fmap (l & E & _)%list_elem_of_fmap. done.
  - change (NoDup ((lblkey ∘ fst) <$> lbls)). rewrite list_fmap_compose. apply NoDup_fmap_2; [|apply Hok].
    intros x y E. by injection E.
Qed.

Lemma vl_lookup k kv : (vl_ot vs lbls : gmap (list Z) Kvp) !! k = Some kv <->
  (exists t, t ∈ vs /\ vs_kv t = (k, kv)) \/ (exists l, l ∈ lbls /\ lb_kv l = (k, kv)).
Proof.
  unfold vl_ot. rewrite <- elem_of_list_to_map by apply vl_keys. rewrite elem_of_app, !list_elem_of_fmap.
  split; (intros [(x & ? & ?)|(x & ? & ?)]; [left|right]; by exists x).
Qed.

Lemma vl_V_lookup g t : vl_V vs !! g = Some t <-> exists t', t' ∈ vs /\ t_gen t' = g /\ disk_tree t' = t.
Proof.
  unfold vl_V. rewrite <- elem_of_list_to_map.
  2:{ rewrite <- list_fmap_compose. apply (vl_gens _ _ Hok). }
  rewrite list_elem_of_fmap. split; [intros (x & [= -> ->] & ?); by exists x|intros (x & ? & <- & <-); by exists x].
Qed.

Lemma vl_L_lookup n g f : (list_to_map lbls : Lmap) !! n = Some (g, f) <-> (n, (g, f)) ∈ lbls.
Proof. rewrite <- elem_of_list_to_map; [done|apply Hok]. Qed.

Lemma vl_snaps : snaps (map_other (vl_ot vs lbls)) (vl_V vs) (list_to_map lbls).
Proof.
  pose proof (vl_trees _ _ Hok) as Ht. pose proof (vl_lbls _ _ Hok) as Hl. rewrite Forall_forall in Ht; rewrite Forall_forall in Hl.
  assert (Hfit : forall k, ot_fits (Other:=map_other (vl_ot vs lbls)) k Kvmax).
  { intros k kv [(t & Hin & [= <- <-])|(l & Hin & [= <- <-])]%vl_lookup.
    - unfold kvlen. cbn [treekv kv_k kv_v]. by rewrite zlen_tree_bytes.
    - destruct (Hl _ Hin) as (_ & _ & Hz). unfold kvlen, lblkv, lblkey. cbn [kv_k kv_v]. rewrite !zlen_app.
      change (zlen [Klabel]) with 1. change (zlen [Ksnap] + (zlen (PACK64 l.2.1) + zlen (PACK32 l.2.2))) with 13. lia. }
  split; try (intros; apply Hfit).
  - intros g t (t' & Hin & <- & <-)%vl_V_lookup. destruct (Ht _ Hin) as (Hw & ? & ?). split; [by apply vl_r64|].
    split; [exact Hw|]. do 4 (split; [done|]). apply vl_lookup. left. by exists t'.
  - intros g Hg Hn. apply option_eq. intros kv. split; [|done]. intros [(t & Hin & E)|(l & _ & E)]%vl_lookup; apply (f_equal fst) in E; [|done].
    exfalso. apply (snapkey_inj _ _ (vl_r64 _ Hin) Hg) in E. assert (vl_V vs !! g = Some (disk_tree t)); [|congruence].
    apply vl_V_lookup. by exists t.
  - intros n g f Hin%vl_L_lookup. destruct (Hl _ Hin) as (? & ? & _). split; [|done].
    apply vl_lookup. right. by exists (n, (g, f)).
  - intros n Hn. apply option_eq. intros kv. split; [|done]. intros [(t & _ & E)|([n' [g f]] & Hin & E)]%vl_lookup; [done|].
    apply (f_equal fst) in E. injection E as ->. apply vl_L_lookup in Hin. congruence.
Qed.

Lemma vl_nolists : nolists (vl_ot vs lbls).
Proof. intros k kv [(t & _ & [= <- <-])|(l & _ & [= <- <-])]%vl_lookup; done. Qed.

Lemma vl_sys ls n : 
  bool_decide (NoDup (lst_key <$> ls)) && bool_decide (NoDup (ls_blk <$> ls)) = true -> Forall (lst_ok n) ls ->
  snapsys (ls_state ls (vl_ot vs lbls) n) (ls_D ls) (vl_V vs) (list_to_map lbls).
Proof. intros H1 H2. exists (map_other (vl_ot vs lbls)). split; [apply ls_sys; [done|done|apply vl_nolists]|apply vl_snaps]. Qed.
End example.

(** Snapshots 5, 8 and 12, labelled a, b and c. *)
Definition ex_tree (gen pred succ base memgen dirty nlbl nref : Z) : Tree :=
  mkTree false 1 memgen dirty nref nlbl 1 0 (mkBptr 0 0 0) gen pred succ base.
Definition ex_state ls vs lbls (trees : list Tree) (mounts : list Smnt) : @Sn Kvmap Z :=
  sn_set_mounts mounts (sn_set_tnew (length trees) (sn_set_trees (map_seq 0 trees) (ls_state ls (vl_ot vs lbls) (blkno 20)))).
Definition ex_a : list Z := [97].
Definition ex_b : list Z := [98].
Definition ex_c : list Z := [99].

Lemma ex_sys ls vs lbls trees mounts :
  bool_decide (NoDup (lst_key <$> ls)) && bool_decide (NoDup (ls_blk <$> ls)) = true -> Forall (lst_ok (blkno 20)) ls ->
  vl_ok vs lbls -> snapsys (ex_state ls vs lbls trees mounts) (ls_D ls) (vl_V vs) (list_to_map lbls).
Proof. intros H1 H2 H3. apply (snapsys_heap (ls_state ls (vl_ot vs lbls) (blkno 20))); [by split|by apply vl_sys]. Qed.

Lemma ex_stale ls vs lbls trees mounts g p : nostale (ex_state ls vs lbls trees mounts) (ls_D ls) g p.
Proof. intros b _ _ _. unfold at_cache, dlchain. cbn. by rewrite lookup_empty. Qed.

Lemma ex_heap ls vs lbls (l : list Tree) mounts :
  Forall (fun m => is_Some (l !! sm_root m)) mounts ->
  heap_ok (ex_state ls vs lbls l mounts).
Proof.
  intros Hm. split; cbn.
  - eapply Forall_impl; [exact Hm|]. intros m Hr. by rewrite lookup_map_seq_0.
  - intros p Hp. rewrite lookup_map_seq_0 in Hp. by apply lookup_lt_is_Some.
Qed.

Lemma snap_removable vs lbls trees mounts :
  removable (ex_state snap_ls vs lbls trees mounts) (ls_D snap_ls) snap_R snap_birth 0 5 8 12.
Proof.
  destruct snap_derived as (B1 & B2 & B3). split; try done.
  - apply snap_exact_G.
  - apply snap_exact_S.
  - intros b v _ (l & _ & _ & <-)%ls_lookup; [done|apply snap_nodup].
Qed.

(** The first parts of [vl_ok], by evaluation. *)
Lemma vl_ok_dec vs lbls :
  bool_decide (NoDup (t_gen <$> vs)) && bool_decide (NoDup (lbls.*1)) = true ->
  Forall (fun t => wf_tree t /\ 0 <= t_nlbl t /\ 0 <= t_nref t) vs ->
  Forall (fun l => r64 l.2.1 /\ 0 <= l.2.2 < 2 ^ 32 /\ zlen l.1 + 14 <= Kvmax) lbls -> vl_ok vs lbls.
Proof. intros H H2 H3. apply andb_true_iff in H as [H1 H4]. apply bool_decide_eq_true in H1, H4. by split. Qed.

Definition del_vs : list Tree := [ex_tree 5 1 8 0 0 0 1 1; ex_tree 8 5 12 0 0 0 1 1; ex_tree 12 8 (-1) 0 0 0 1 0].
Definition del_lbls : list (list Z * (Z * Z)) := [(ex_a, (5, 0)); (ex_b, (8, 0)); (ex_c, (12, 0))].
Definition del_state : @Sn Kvmap Z := ex_state snap_ls del_vs del_lbls [ex_tree 8 5 12 0 20 0 1 1] [].

Lemma del_vl_ok : vl_ok del_vs del_lbls.
Proof.
  apply vl_ok_dec; [done| |]; repeat (apply Forall_cons; split); try (by constructor); try done.
Qed.

Lemma delsnap_correct_witness :
  mpost (delsnap 0 12 (Some ex_b)) del_state lowx (fun _ s' => exists D' V' dead blks,
    snapsys s' D' V' (delete ex_b (list_to_map del_lbls)) /\ line V' None [5; 12] (-1) /\ V' !! 8 = None /\
    deleted [] (sn_out s') (ls_D snap_ls) snap_R snap_birth 0 5 8 12 D' dead blks).
Proof.
  eapply mpost_mono; [apply (delsnap_correct del_state (ls_D snap_ls) (vl_V del_vs) (list_to_map del_lbls) [] [] 5 8 12 0
    (ex_tree 8 5 12 0 20 0 1 1) ex_b 0 snap_R snap_birth 0)|done|].
  - apply ex_sys; [done|by apply ls_wf|apply del_vl_ok].
  - cbn [app line]. do 3 (eexists; split; [vm_compute; reflexivity|]; split; [by intros p [= <-]|]; split; [done|]). done.
  - by_decide.
  - by apply ex_heap.
  - done.
  - vm_compute. reflexivity.
  - done.
  - done.
  - vm_compute. reflexivity.
  - done.
  - apply snap_removable.
  - cbv beta. intros _ s' (D' & V' & dead & blks & H1 & H2 & H3 & _ & H4). by exists D', V', dead, blks.
Defined.

(** A changed tree, mounted, on top of snapshot 8. *)
Definition upd_vs : list Tree := [ex_tree 5 1 8 0 0 0 1 1; ex_tree 8 5 (-1) 0 0 0 1 0].
Definition upd_lbls : list (list Z * (Z * Z)) := [(ex_a, (5, 0)); (ex_b, (8, 0))].
Definition upd_state : @Sn Kvmap Z := ex_state snap_ls upd_vs upd_lbls [ex_tree 8 5 (-1) 0 12 1 1 0] [mkSmnt ex_b 0 0].

Lemma upd_vl_ok : vl_ok upd_vs upd_lbls.
Proof.
  apply vl_ok_dec; [done| |]; repeat (apply Forall_cons; split); try (by constructor); try done.
Qed.

Lemma updatesnap_replaces_witness :
  mpost (updatesnap 0 0 ex_b 0) upd_state lowx (fun _ s' => exists D' V' t dead blks,
    snapsys s' D' V' (<[ex_b := (12, 0)]> (list_to_map upd_lbls)) /\ line V' None [5; 12] (-1) /\ V' !! 8 = None /\
    V' !! 12 = Some (disk_tree t) /\ sn_mounts s' !! 0%nat = Some (mkSmnt ex_b 0 1) /\
    deleted [] (sn_out s') (ls_D snap_ls) snap_R snap_birth 0 5 8 12 D' dead blks).
Proof.
  eapply mpost_mono; [apply (updatesnap_replaces upd_state (ls_D snap_ls) (vl_V upd_vs) (list_to_map upd_lbls) [] 5 8 12 0 0
    (ex_tree 8 5 (-1) 0 12 1 1 0) ex_b 0 snap_R snap_birth 0)|done|].
  - apply ex_sys; [done|by apply ls_wf|apply upd_vl_ok].
  - cbn [app line]. do 2 (eexists; split; [vm_compute; reflexivity|]; split; [by intros p [= <-]|]; split; [done|]). done.
  - by_decide.
  - apply ex_heap. apply Forall_singleton. by eexists.
  - done.
  - done.
  - done.
  - done.
  - done.
  - done.
  - done.
  - done.
  - done.
  - done.
  - done.
  - done.
  - apply snap_removable.
  - cbv beta. intros _ s' (D' & V' & t & dead & blks & H1 & H2 & H3 & H4 & _ & _ & _ & _ & _ & H5 & H6).
    exists D', V', t, dead, blks. split; [done|]. split; [done|]. split; [done|]. split; [done|]. split; [exact (H5 _ eq_refl)|done].
Defined.

(** Snapshot 5 with two labels. *)
Definition two_vs : list Tree := [ex_tree 5 1 (-1) 0 0 0 2 0].
Definition two_lbls : list (list Z * (Z * Z)) := [(ex_a, (5, 0)); (ex_b, (5, 0))].
Definition two_state : @Sn Kvmap Z := ex_state [] two_vs two_lbls [] [].

Lemma two_vl_ok : vl_ok two_vs two_lbls.
Proof.
  apply vl_ok_dec; [done| |]; repeat (apply Forall_cons; split); try (by constructor); try done.
Qed.

Lemma second_label_stays_witness :
  mpost (do* snapfs ex_a [] true 0 in snapfs ex_b [] true 0) two_state low (fun r s' => r = None /\ exists D' L',
    snapsys s' D' (vl_V two_vs) L' /\ is_Some (vl_V two_vs !! 5) /\ forall n f, L' !! n <> Some (5, f)).
Proof.
  eapply mpost_mono; [apply (second_label_stays two_state (ls_D []) (vl_V two_vs) (list_to_map two_lbls) ex_a ex_b 5 0 0
    (disk_tree (ex_tree 5 1 (-1) 0 0 0 2 0)))|done|].
  - apply ex_sys; [done|by constructor|apply two_vl_ok].
  - done.
  - done.
  - done.
  - done.
  - done.
  - vm_compute. reflexivity.
  - vm_compute. reflexivity.
  - intros n f Hn. apply (vl_L_lookup _ _ two_vl_ok) in Hn.
    repeat (apply elem_of_cons in Hn as [Hn|Hn]; [injection Hn as -> _; auto|]). by apply elem_of_nil in Hn.
  - vm_compute. reflexivity.
  - done.
  - cbv beta. intros r s' (-> & D' & L' & H1 & H2 & H3). split; [done|]. exists D', L'. split; [done|]. split; [by eexists|done].
Defined.

(** Snapshots 3 and 5, the second labelled b. *)
Definition fork_vs : list Tree := [ex_tree 3 1 5 0 0 0 1 1; ex_tree 5 3 (-1) 0 0 0 1 0].
Definition fork_lbls : list (list Z * (Z * Z)) := [(ex_a, (3, 0)); (ex_b, (5, 0))].
Definition fork_state : @Sn Kvmap Z := ex_state [] fork_vs fork_lbls [] [].

Lemma fork_vl_ok : vl_ok fork_vs fork_lbls.
Proof.
  apply vl_ok_dec; [done| |]; repeat (apply Forall_cons; split); try (by constructor); try done.
Qed.

Lemma forked_tip_swept_witness :
  mpost (do* snapfs ex_b ex_c false Lmut in snapfs ex_b [] true 0) fork_state lowx (fun r s' => exists q t u D' V' L',
    r = Some q /\ sn_trees s' !! q = Some t /\ t_gen t = 5 /\ t_pred t = 3 /\ snapsys s' D' V' L' /\
    L' !! ex_c = Some (102, Lmut) /\ V' !! 102 = Some u /\ t_bp u = t_bp t /\ t_base u = 5 /\ V' !! 5 = None).
Proof.
  eapply mpost_mono; [apply (forked_tip_swept fork_state (ls_D []) (vl_V fork_vs) (list_to_map fork_lbls) ex_b ex_c 3 5 0 Lmut
    (disk_tree (ex_tree 5 3 (-1) 0 0 0 1 0)) (disk_tree (ex_tree 3 1 5 0 0 0 1 1)))|done|].
  - apply ex_sys; [done|by constructor|apply fork_vl_ok].
  - by apply (ex_heap [] fork_vs fork_lbls []).
  - done.
  - done.
  - done.
  - done.
  - vm_compute. reflexivity.
  - vm_compute. reflexivity.
  - vm_compute. reflexivity.
  - vm_compute. reflexivity.
  - done.
  - done.
  - done.
  - done.
  - done.
  - done.
  - done.
  - apply ex_stale.
  - done.
  - done.
  - done.
  - done.
  - done.
  - cbv beta. intros r s' H. exact H.
Defined.

Lemma label_opens_witness :
  mpost (do* snapfs ex_b ex_c false 0 in opensnap ex_c) fork_state low (fun r s' => exists q t D' V',
    r = Some (q, 0) /\ sn_trees s' !! q = Some t /\ t_gen t = 5 /\ snapsys s' D' V' (<[ex_c := (5, 0)]> (list_to_map fork_lbls))).
Proof.
  eapply mpost_mono; [apply (label_opens fork_state (ls_D []) (vl_V fork_vs) (list_to_map fork_lbls) ex_b ex_c 5 0 0
    (disk_tree (ex_tree 5 3 (-1) 0 0 0 1 0)))|done|].
  - apply ex_sys; [done|by constructor|apply fork_vl_ok].
  - done.
  - done.
  - done.
  - vm_compute. reflexivity.
  - vm_compute. reflexivity.
  - vm_compute. reflexivity.
  - done.
  - done.
  - done.
  - cbv beta. intros r s' (q & t & D' & V' & H1 & H2 & H3 & _ & _ & _ & H4 & _). by exists q, t, D', V'.
Defined.
