(* ===== verification/Sync.v ===== *)
(** * Bringing a snapshot to the disk (src/fs.c: [wrbarrier], [wrwait],
    [sync]; src/blk.c: [enqueue], [runsync])

    A sync packs the superblock and the headers of the arenas in memory and
    queues them in three groups, with a barrier between the groups: the first
    headers of the arenas, the two superblocks, the second headers.  The
    syncer takes the queue apart in the order of [qcmp] while other threads
    queue more.  The sync is the list of its actions; each is one atomic
    step.  Left out: [cacheins] and [holdblk] of [enqueue] and [dropblk] of
    the syncer (in [Cache]), the error handlers, which only print, and the
    trace calls. *)
From S2P Require Import Prelude CInt Mem Data Hash Pack Super Blk Alloc Io Log Arenas Queue.

(** The superblocks are at 0 and [ss_sb1]; [ss_bufs] is the memory of the
    blocks, by address: the block pointer of a queue entry is the address in
    it.  [ss_dl] is the local [dl]. *)
Record Ss := mkSs {
  ss_fs : Gefs; ss_fsa : Fsa; ss_sb1 : Z; ss_bufs : gmap Z Blk; ss_q : list Syncq; ss_syncing : Z;
  ss_dl : option (Bptr * Bptr) }.

Definition ss_set_fs (x : Gefs) (s : Ss) : Ss :=
  mkSs x (ss_fsa s) (ss_sb1 s) (ss_bufs s) (ss_q s) (ss_syncing s) (ss_dl s).
Definition ss_set_fsa (x : Fsa) (s : Ss) : Ss :=
  mkSs (ss_fs s) x (ss_sb1 s) (ss_bufs s) (ss_q s) (ss_syncing s) (ss_dl s).
Definition ss_set_bufs (x : gmap Z Blk) (s : Ss) : Ss :=
  mkSs (ss_fs s) (ss_fsa s) (ss_sb1 s) x (ss_q s) (ss_syncing s) (ss_dl s).
Definition ss_set_q (x : list Syncq) (s : Ss) : Ss :=
  mkSs (ss_fs s) (ss_fsa s) (ss_sb1 s) (ss_bufs s) x (ss_syncing s) (ss_dl s).
Definition ss_set_syncing (x : Z) (s : Ss) : Ss :=
  mkSs (ss_fs s) (ss_fsa s) (ss_sb1 s) (ss_bufs s) (ss_q s) x (ss_dl s).
Definition ss_set_dl (x : option (Bptr * Bptr)) (s : Ss) : Ss :=
  mkSs (ss_fs s) (ss_fsa s) (ss_sb1 s) (ss_bufs s) (ss_q s) (ss_syncing s) x.

Definition ss_disk (s : Ss) : Disk := f_disk (ss_fsa s).
Definition ss_set_disk (d : Disk) (s : Ss) : Ss :=
  ss_set_fsa (mkFsa (f_ar (ss_fsa s)) (f_rr (ss_fsa s)) d) s.
Definition ss_qgen (s : Ss) : Z := g_qgen (ss_fs s).
Definition arenas (s : Ss) : list Arena := l_a <$> f_ar (ss_fsa s).

Definition set_qgen (fi : Gefs) (x : Z) : Gefs :=
  mkGefs (g_blksz fi) (g_bufspc fi) (g_narena fi) (g_snap_ht fi) (g_snap_bp fi) (g_dl_hd fi) (g_dl_tl fi)
    (g_dl_gen fi) (g_flag fi) (g_nextqid fi) (g_nextgen fi) x (g_arenabp fi).
Definition set_dlbps (fi : Gefs) (hd tl : Bptr) : Gefs :=
  mkGefs (g_blksz fi) (g_bufspc fi) (g_narena fi) (g_snap_ht fi) (g_snap_bp fi) hd tl
    (g_dl_gen fi) (g_flag fi) (g_nextqid fi) (g_nextgen fi) (g_qgen fi) (g_arenabp fi).
Definition set_arenabp (fi : Gefs) (x : list Bptr) : Gefs :=
  mkGefs (g_blksz fi) (g_bufspc fi) (g_narena fi) (g_snap_ht fi) (g_snap_bp fi) (g_dl_hd fi) (g_dl_tl fi)
    (g_dl_gen fi) (g_flag fi) (g_nextqid fi) (g_nextgen fi) (g_qgen fi) x.

Definition wrbarrier (s : Ss) : Ss := ss_set_fs (set_qgen (ss_fs s) (ss_qgen s + 1)) s.

Definition blk_at (a : Z) (s : Ss) : res Blk :=
  match ss_bufs s !! a with Some b => Ok b | None => Err Eoob end.
Definition put_at (a : Z) (b : Blk) (s : Ss) : Ss := ss_set_bufs (<[a := b]> (ss_bufs s)) s.

(** [qput] into the queue of the arena of [addr], [&fs->syncq[i%fs->nsyncers]];
    [None] sleeps. *)
Definition queue_of (s : Ss) (addr : Z) : res nat :=
  let! i := getarena (S (S (length (arenas s)))) (arenas s) 0 (ss_sb1 s) addr in
  if (length (ss_q s) =? 0)%nat then Err Eassert else Ok (Z.to_nat i mod length (ss_q s))%nat.

Definition put_ent (i : nat) (qe : Qent) (s : Ss) : res (option Ss) :=
  match ss_q s !! i with
  | None => Err Eoob
  | Some q =>
      let! r := qput (ss_qgen s) (ss_syncing s) q qe in
      Ok (match r with None => None | Some q => Some (ss_set_q (<[i := q]> (ss_q s)) s) end)
  end.

Definition enqueue (a : Z) (s : Ss) : res (option Ss) :=
  let! b := blk_at a s in
  assert! checkflag (b_flag b) Bdirty (Z.lor Bqueued Bstatic) in
  assert! 0 <=? bp_addr (b_bp b) in
  let! b := finalize b in
  let! i := queue_of s (bp_addr (b_bp b)) in
  put_ent i (mkQent 0 (b_bp b) (Some b) Qwrite) (put_at a b s).

(** [qe.op = Qfree] of [epochclean] and [freedl]. *)
Definition put_free (bp : Bptr) (s : Ss) : res (option Ss) :=
  let! i := queue_of s (bp_addr bp) in
  put_ent i (mkQent 0 bp None Qfree) s.

(** ** Pass 0 *)

(** [packarena(h->data, ...); finalize(h)] *)
Definition put_hdr (p : list Z) (a : Z) (s : Ss) : res Ss :=
  let! b := blk_at a s in
  let! buf := wr (b_buf b) (data_off b) p in
  let! b := finalize (set_buf b buf) in
  Ok (put_at a b s).

Definition put_super (a : Z) (s : Ss) : res Ss :=
  let! b := blk_at a s in
  let! buf := packsb (b_buf b) Blksz (ss_fs s) in
  let! b := finalize (set_buf b buf) in
  Ok (put_at a b s).

Definition arena_hdr (l : LArena) : AHdr := mkAHdr (l_hd l) (a_size (l_a l)) (a_used (l_a l)).

Definition pack_arena (us : bool) (i : nat) (s : Ss) : res Ss :=
  match f_ar (ss_fsa s) !! i with
  | None => Err Eoob
  | Some l =>
      let! (l, d) := logbarrier us l (ss_qgen s) (ss_disk s) in
      let! (l, d) := flushlog l d in
      let s := ss_set_fsa (mkFsa (<[i := l]> (f_ar (ss_fsa s))) (f_rr (ss_fsa s)) d) s in
      let! p := packarena Blksz (arena_hdr l) in
      let! s := put_hdr p (a_addr (l_a l)) s in
      let! s := put_hdr p (a_addr (l_a l) + Blksz) s in
      let! h0 := blk_at (a_addr (l_a l)) s in
      if zlen (g_arenabp (ss_fs s)) <=? Z.of_nat i then Err Eoob
      else Ok (ss_set_fs (set_arenabp (ss_fs s) (<[i := b_bp h0]> (g_arenabp (ss_fs s)))) s)
  end.

Fixpoint pack_arenas (us : bool) (idx : list nat) (s : Ss) : res Ss :=
  match idx with
  | [] => Ok s
  | i :: idx' => let! s := pack_arena us i s in pack_arenas us idx' s
  end.

(** After [updatesnap] (in [Snap]) and [dlsync] (in [Dead]). *)
Definition pack (us : bool) (s : Ss) : res Ss :=
  let fi := ss_fs s in
  let s := ss_set_dl (Some (g_dl_hd fi, g_dl_tl fi)) (ss_set_fs (set_dlbps fi Zb Zb) s) in
  let! s := pack_arenas us (seq 0 (length (f_ar (ss_fsa s)))) s in
  assert! bp_addr (g_dl_hd (ss_fs s)) =? -1 in
  let! s := put_super 0 s in
  put_super (ss_sb1 s) s.

(** ** The sync *)

Inductive Sact : Type :=
  | ABar                (** [wrbarrier] *)
  | APack               (** under the mutation lock, once the trees are updated *)
  | AEnq (a : Z)        (** [enqueue] of the header or superblock at [a] *)
  | ASyncing            (** [fs->syncing = fs->nsyncers] *)
  | AFence (i : nat)
  | AWait
  | AFree.              (** [freedl(&dl, 1)], in [Dead]: what it queues are steps [st_freed] *)

#[export] Instance sact_eq_dec : EqDecision Sact.
Proof. solve_decision. Defined.

Definition headers (s : Ss) : list Z := a_addr <$> arenas s.
Definition footers (s : Ss) : list Z := (fun a => a_addr a + Blksz) <$> arenas s.

Definition wrwait (n : nat) : list Sact := ABar :: ASyncing :: (AFence <$> seq 0 n) ++ [ABar; AWait].

(** What comes after pass 0. *)
Definition passes (s : Ss) : list Sact :=
  (AEnq <$> headers s) ++ ABar :: AEnq 0 :: AEnq (ss_sb1 s) :: ABar ::
  (AEnq <$> footers s) ++ wrwait (length (ss_q s)) ++ [AFree].

Definition sync (s : Ss) : list Sact := ABar :: APack :: passes s.

Definition fence : Qent := mkQent 0 (mkBptr 0 nohash (-1)) None Qfence.

Definition run_act (us : bool) (a : Sact) (s : Ss) : res (option Ss) :=
  match a with
  | ABar => Ok (Some (wrbarrier s))
  | APack => let! s := pack us s in Ok (Some s)
  | AEnq a => enqueue a s
  | ASyncing => Ok (Some (ss_set_syncing (Z.of_nat (length (ss_q s))) s))
  | AFence i => put_ent i fence s
  | AWait => Ok (if ss_syncing s =? 0 then Some s else None)
  | AFree => Ok (Some (ss_set_dl None s))
  end.

(** ** The syncer *)

(** The end of [qpop]: the block of the entry is not queued any more. *)
Definition clear_queued (e : Qent) (s : Ss) : Ss :=
  match qe_b e with
  | None => s
  | Some _ => ss_set_bufs (alter (fun b => set_flag b 0 Bqueued) (bp_addr (qe_bp e)) (ss_bufs s)) s
  end.

(** [qpop] on queue [i]. *)
Definition pop_ent (i : nat) (s : Ss) : res (option (Qent * Ss)) :=
  match ss_q s !! i with
  | None => Err Eoob
  | Some q =>
      let! r := qpop q in
      Ok (match r with
          | None => None
          | Some (e, q) => Some (e, clear_queued e (ss_set_q (<[i := q]> (ss_q s)) s))
          end)
  end.

(** The body of the loop. *)
Definition handle_ent (us : bool) (e : Qent) (s : Ss) : res Ss :=
  if qe_op e =? Qfree then
    assert! match qe_b e with None => true | Some _ => false end in
    let! i := getarena (S (S (length (arenas s)))) (arenas s) 0 (ss_sb1 s) (bp_addr (qe_bp e)) in
    let! l := znth (f_ar (ss_fsa s)) i in
    let! (l, d) := blkdealloc_lk us l (bp_addr (qe_bp e)) (ss_disk s) in
    Ok (ss_set_fsa (mkFsa (<[Z.to_nat i := l]> (f_ar (ss_fsa s))) (f_rr (ss_fsa s)) d) s)
  else if qe_op e =? Qfence then Ok (ss_set_syncing (ss_syncing s - 1) s)
  else if qe_op e =? Qwrite then
    let! b := blk_at (bp_addr (qe_bp e)) s in
    if checkflag (b_flag b) Bfreed Bstatic then Ok s
    else
      let! (b, d) := syncblk b (ss_disk s) in
      Ok (ss_set_disk d (put_at (bp_addr (qe_bp e)) b s))
  else Err Eassert.

Definition runsync (us : bool) (i : nat) (s : Ss) : res (option Ss) :=
  let! r := pop_ent i s in
  match r with
  | None => Ok None
  | Some (e, s) => let! s := handle_ent us e s in Ok (Some s)
  end.

(** ** Everybody together *)

Definition statics (s : Ss) : list Z := 0 :: ss_sb1 s :: headers s ++ footers s.

(** What the arenas are, without what is free in them. *)
Definition geom (f : Fsa) : list (Z * Z) := (fun l => (a_addr (l_a l), a_size (l_a l))) <$> f_ar f.

(** Same arenas, same superblocks. *)
Definition same_place (s s' : Ss) : Prop := geom (ss_fsa s') = geom (ss_fsa s) /\ ss_sb1 s' = ss_sb1 s.

Definition hdrs (a : Arena) : list Z := [a_addr a; a_addr a + Blksz].

(** The headers are not free and not in the log. *)
Definition hdr_safe (l : LArena) (g : Ghost) : Prop :=
  forall h, h ∈ hdrs (l_a l) -> (h ∉ log_addrs l g) /\ ~ free_at (a_free (l_a l)) h.

Definition logs_safe (f : Fsa) : Prop :=
  exists gs, fsa_ok f gs /\ forall i l g, f_ar f !! i = Some l -> gs !! i = Some g -> hdr_safe l g.

(** Arenas stay what they are, and what is durable in their logs stays so. *)
Definition keeps (f f' : Fsa) : Prop :=
  forall i l g, f_ar f !! i = Some l -> log_ok l (f_disk f) g -> hdr_safe l g ->
    exists l' g', f_ar f' !! i = Some l' /\ log_ok l' (f_disk f') g' /\ hdr_safe l' g' /\
      g_dur g `prefix_of` g_dur g' /\ l_hd l' = l_hd l.

(** A block that may be freed: it is in use, not by the log, and no header. *)
Definition freeable (s : Ss) (b : Z) : Prop :=
  forall i l, getarena (S (S (length (arenas s)))) (arenas s) 0 (ss_sb1 s) b = Ok (Z.of_nat i) ->
    f_ar (ss_fsa s) !! i = Some l ->
    blk_of (l_a l) b /\ disjoint_range (a_free (l_a l)) b Blksz /\ ~ log_owns l (ss_disk s) b /\ b ∉ hdrs (l_a l).

(** What the head of a queue may be: a block that may be freed, or a block
    to write that no log uses. *)
Definition head_ok (s : Ss) (e : Qent) : Prop :=
  (qe_op e = Qfree -> freeable s (bp_addr (qe_bp e))) /\
  (qe_op e = Qwrite -> (bp_addr (qe_bp e) ∉ statics s) ->
     forall l, l ∈ f_ar (ss_fsa s) -> ~ log_owns l (ss_disk s) (bp_addr (qe_bp e))).

(** What the other threads do to the rest: anything, but the blocks of the
    sync, the generation and the queue are its own. *)
Record mutated (s s' : Ss) : Prop := {
  mu_place : same_place s s';
  mu_q : ss_q s' = ss_q s;
  mu_syncing : ss_syncing s' = ss_syncing s;
  mu_qgen : ss_qgen s' = ss_qgen s;
  mu_bufs a : a ∈ statics s -> ss_bufs s' !! a = ss_bufs s !! a;
  mu_self a b : ss_bufs s' !! a = Some b -> bp_addr (b_bp b) = a;
  mu_disk a : a ∈ statics s -> ss_disk s' !! a = ss_disk s !! a;
  mu_logs : logs_safe (ss_fsa s');
  mu_keeps : keeps (ss_fsa s) (ss_fsa s') }.

(** The sync at [pc], the syncers, and the other threads, which queue blocks
    to write and blocks to free. *)
Inductive sstep (us : bool) : Ss * list Sact -> Ss * list Sact -> Prop :=
  | st_act a pc s s' : run_act us a s = Ok (Some s') -> sstep us (s, a :: pc) (s', pc)
  | st_syncer i pc s s' :
      (forall q e t, ss_q s !! i = Some q -> q_heap q = e :: t -> head_ok s e) ->
      runsync us i s = Ok (Some s') -> sstep us (s, pc) (s', pc)
  | st_write a pc s s' : (a ∉ statics s) -> enqueue a s = Ok (Some s') -> sstep us (s, pc) (s', pc)
  | st_freed bp pc s s' : put_free bp s = Ok (Some s') -> sstep us (s, pc) (s', pc)
  | st_mutate pc s s' : mutated s s' -> sstep us (s, pc) (s', pc).
