(* ===== verification/SyncOk.v ===== *)
(** * What is on the disk during a sync

    The invariant of [Sync]: the arenas' logs stay off the headers, the
    entries of the queue carry the generation of their group, and the disk
    holds the old or the new image of every header and superblock. *)
From stdpp Require Import relations.
From S2P Require Import Prelude CInt Mem Data Hash Pack Super Blk Alloc Io Log Arenas Queue Sync.

(** ** Headers and superblocks *)

(** The arenas lie between the superblocks. *)
Record layout (s : Ss) : Prop := {
  ly_contiguous : contiguous (arenas s);
  ly_lo a : a ∈ arenas s -> Blksz <= a_addr a;
  ly_hi a : a ∈ arenas s -> a_addr a + a_size a + 2 * Blksz <= ss_sb1 s;
  ly_sb1 : 0 < ss_sb1 s }.

(** The group of a block of the sync. *)
Definition group (s : Ss) (a : Z) : Z :=
  if decide (a ∈ headers s) then 0 else if decide (a = 0 \/ a = ss_sb1 s) then 1 else 2.

Lemma layout_arena s a : layout s -> a ∈ arenas s ->
  0 < a_addr a /\ a_addr a + 2 * Blksz < ss_sb1 s /\ 0 < a_size a.
Proof.
  intros [Hc Hl Hh _] Ha. pose proof (ct_size _ Hc) as Hs. rewrite Forall_forall in Hs.
  specialize (Hl a Ha). specialize (Hh a Ha). specialize (Hs a Ha). change Blksz with 16384 in *. lia.
Qed.

(** Two headers of two arenas are apart. *)
Lemma layout_apart s a a' i j : layout s -> arenas s !! i = Some a -> arenas s !! j = Some a' -> i <> j ->
  a_addr a <> a_addr a' /\ a_addr a <> a_addr a' + Blksz /\ a_addr a + Blksz <> a_addr a'.
Proof.
  intros [Hc _ _ _] Hi Hj Hn. pose proof (ct_size _ Hc) as Hs. rewrite Forall_lookup in Hs.
  pose proof (Hs _ _ Hi). pose proof (Hs _ _ Hj). change Blksz with 16384 in *.
  destruct (Nat.lt_total i j) as [Hlt|[?|Hlt]]; [|done|].
  - pose proof (contiguous_le _ _ _ _ _ Hc Hlt Hi Hj). change Blksz with 16384 in *. lia.
  - pose proof (contiguous_le _ _ _ _ _ Hc Hlt Hj Hi). change Blksz with 16384 in *. lia.
Qed.

Lemma elem_headers s h : h ∈ headers s <-> exists a, a ∈ arenas s /\ h = a_addr a.
Proof. unfold headers. rewrite list_elem_of_fmap. split; intros (a & ? & ?); by exists a. Qed.
Lemma elem_footers s h : h ∈ footers s <-> exists a, a ∈ arenas s /\ h = a_addr a + Blksz.
Proof. unfold footers. rewrite list_elem_of_fmap. split; intros (a & ? & ?); by exists a. Qed.

Lemma header_footer s h : layout s -> h ∈ headers s -> h ∈ footers s -> False.
Proof.
  intros Hl (a & Ha & ->)%elem_headers (a' & Ha' & E)%elem_footers.
  apply list_elem_of_lookup in Ha as [i Hi], Ha' as [j Hj]. destruct (decide (i = j)) as [->|Hn].
  - assert (a = a') as -> by congruence. change Blksz with 16384 in E. lia.
  - destruct (layout_apart _ _ _ _ _ Hl Hi Hj Hn) as (_ & ? & _). done.
Qed.

Lemma group_header s a : a ∈ headers s -> group s a = 0.
Proof. intros H. unfold group. by rewrite decide_True. Qed.
Lemma group_super s a : layout s -> a = 0 \/ a = ss_sb1 s -> group s a = 1.
Proof.
  intros Hl Ha. unfold group. rewrite decide_False, decide_True; [done|done|].
  intros (x & Hx & E)%elem_headers. destruct (layout_arena _ _ Hl Hx) as (? & ? & _). change Blksz with 16384 in *. lia.
Qed.
Lemma group_footer s a : layout s -> a ∈ footers s -> group s a = 2.
Proof.
  intros Hl Ha. unfold group. rewrite decide_False by (intros ?; by eapply header_footer).
  rewrite decide_False; [done|]. apply elem_footers in Ha as (x & Hx & ->).
  destruct (layout_arena _ _ Hl Hx) as (? & ? & _). change Blksz with 16384 in *. lia.
Qed.

Lemma headers_nodup s : layout s -> NoDup (headers s).
Proof.
  intros Hl. apply NoDup_fmap_2_strong.
  - intros x y Hx Hy E. apply list_elem_of_lookup in Hx as [i Hi], Hy as [j Hj].
    destruct (decide (i = j)) as [->|Hn]; [congruence|]. by destruct (layout_apart _ _ _ _ _ Hl Hi Hj Hn).
  - apply NoDup_alt. intros i j x Hi Hj. destruct (decide (i = j)) as [|Hn]; [done|].
    by destruct (layout_apart _ _ _ _ _ Hl Hi Hj Hn).
Qed.

Lemma footers_nodup s : layout s -> NoDup (footers s).
Proof.
  intros Hl. unfold footers. rewrite (list_fmap_compose a_addr (fun x => x + Blksz)).
  apply NoDup_fmap_2; [|by apply headers_nodup]. intros x y. lia.
Qed.

Lemma elem_statics s a : a ∈ statics s <-> a = 0 \/ a = ss_sb1 s \/ a ∈ headers s \/ a ∈ footers s.
Proof. unfold statics. by rewrite !elem_of_cons, elem_of_app. Qed.

Lemma geom_headers s : headers s = fst <$> geom (ss_fsa s).
Proof. unfold headers, arenas, geom. by rewrite <- !list_fmap_compose. Qed.
Lemma geom_footers s : footers s = (fun p => p.1 + Blksz) <$> geom (ss_fsa s).
Proof. unfold footers, arenas, geom. by rewrite <- !list_fmap_compose. Qed.

#[export] Instance same_place_preorder : PreOrder same_place.
Proof. split; [done|]. intros x y z [E1 E2] [E3 E4]. split; congruence. Qed.

Lemma same_headers s s' : same_place s s' -> headers s' = headers s /\ footers s' = footers s /\ statics s' = statics s.
Proof. intros [E1 E2]. unfold statics. rewrite !geom_headers, !geom_footers. by rewrite E1, E2. Qed.

Lemma same_group s s' a : same_place s s' -> group s' a = group s a.
Proof. intros Hs. destruct (same_headers _ _ Hs) as (E & _ & _). destruct Hs as [_ E2]. unfold group. by rewrite E, E2. Qed.

Lemma same_lookup s s' i a : same_place s s' -> arenas s' !! i = Some a ->
  exists a0, arenas s !! i = Some a0 /\ a_addr a = a_addr a0 /\ a_size a = a_size a0.
Proof.
  intros [E _] Ha. unfold arenas in Ha. rewrite list_lookup_fmap in Ha. assert (H : geom (ss_fsa s) !! i = Some (a_addr a, a_size a)).
  { rewrite <- E. unfold geom. rewrite list_lookup_fmap. destruct (f_ar (ss_fsa s') !! i); [|done].
    cbn in *. congruence. }
  unfold geom in H. rewrite list_lookup_fmap in H. unfold arenas. rewrite list_lookup_fmap. destruct (f_ar (ss_fsa s) !! i) as [l|]; [|done].
  cbn in *. injection H as E1 E2. exists (l_a l). by rewrite E1, E2.
Qed.

Lemma same_layout s s' : same_place s s' -> layout s -> layout s'.
Proof.
  intros Hp [[Hn Hs] Hl Hh H1].
  assert (He : forall a, a ∈ arenas s' -> exists a0, a0 ∈ arenas s /\ a_addr a = a_addr a0 /\ a_size a = a_size a0).
  { intros a Ha. apply list_elem_of_lookup in Ha as [i Hi]. destruct (same_lookup _ _ _ _ Hp Hi) as (a0 & H0 & E).
    exists a0. split; [by eapply list_elem_of_lookup_2|done]. }
  split; [split| | |].
  - intros i a a' Ha Ha'. destruct (same_lookup _ _ _ _ Hp Ha) as (b & Hb & -> & ->).
    destruct (same_lookup _ _ _ _ Hp Ha') as (b' & Hb' & -> & _). by eapply (Hn i).
  - apply Forall_forall. intros a Ha. destruct (He a Ha) as (b & Hb & _ & ->). rewrite Forall_forall in Hs. by apply Hs.
  - intros a Ha. destruct (He a Ha) as (b & Hb & -> & _). by apply Hl.
  - intros a Ha. destruct (He a Ha) as (b & Hb & -> & ->). destruct Hp as [_ ->]. by apply Hh.
  - by destruct Hp as [_ ->].
Qed.

(** ** The logs keep off the headers *)

Lemma logbarrier_free us l gen d g l' d' :
  log_ok l d g -> 0 <= gen < 2 ^ 55 -> logbarrier us l gen d = Ok (l', d') ->
  a_addr (l_a l') = a_addr (l_a l) /\ a_size (l_a l') = a_size (l_a l) /\
  forall x, free_at (a_free (l_a l')) x -> free_at (a_free (l_a l)) x.
Proof.
  intros [Hs Hok Hp Hr] Hg E.
  pose proof (logappend_ok us l (Z.shiftl gen 8) 0 LogSync d g Hs (append_ok_sync _ gen Hg) Hp Hok) as H.
  unfold logbarrier in E. rewrite E in H. destruct H as (g' & extra & [_ _ _ A4 _ _ _]).
  destruct (chained_spec _ _ _ _ Hok A4) as (_ & C2 & C3 & _ & C5). done.
Qed.

Lemma hdr_safe_grows l d g l' d' g' :
  hdr_safe l g -> grows l d g l' d' g' ->
  (forall h, h ∈ hdrs (l_a l) -> free_at (a_free (l_a l')) h -> free_at (a_free (l_a l)) h) -> hdr_safe l' g'.
Proof.
  intros Hs [_ _ G3 G4 _ _] Hf h Hh. unfold hdrs in Hh. rewrite G4 in Hh. destruct (Hs h Hh) as [H1 H2]. split.
  - intros Hx. by apply G3 in Hx as [?|?].
  - intros Hx. by apply H2, Hf.
Qed.

(** The headers of all arenas and the superblocks are no log blocks. *)
Lemma static_not_log s i l l' d' g' a :
  layout s -> f_ar (ss_fsa s) !! i = Some l -> a_addr (l_a l') = a_addr (l_a l) -> a_size (l_a l') = a_size (l_a l) ->
  log_ok l' d' g' -> hdr_safe l' g' -> a ∈ statics s -> a ∉ log_addrs l' g'.
Proof.
  intros Hly Hi E1 E2 Hok Hsafe Ha Hin. pose proof (ly_contiguous _ Hly) as Hc.
  pose proof (ls_blk _ _ _ (lo_st _ _ _ Hok) a Hin) as Hb. apply (blk_of_same _ (l_a l)) in Hb; [|done|done].
  assert (Harena : forall j m, f_ar (ss_fsa s) !! j = Some m -> l_a m ∈ arenas s).
  { intros j m Hj. apply list_elem_of_fmap. exists m. split; [done|by eapply list_elem_of_lookup_2]. }
  destruct (layout_arena _ _ Hly (Harena _ _ Hi)) as (La & Lb & Lc). pose proof (ly_hi _ Hly _ (Harena _ _ Hi)) as Lh.
  assert (Hh : forall x, x ∈ arenas s -> a = a_addr x \/ a = a_addr x + Blksz -> False).
  { intros x Hx Ex. apply list_elem_of_fmap in Hx as (m & -> & Hm). apply list_elem_of_lookup in Hm as [j Hj].
    destruct (decide (j = i)) as [->|Hn].
    - assert (m = l) as -> by congruence. destruct (Hsafe a) as [H1 _]; [|done]. unfold hdrs. rewrite E1. set_unfold. tauto.
    - assert (Hbm : blk_of (l_a m) a).
      { destruct (layout_arena _ _ Hly (Harena _ _ Hj)) as (_ & _ & ?). unfold blkfloor.
        change Blksz with 16384 in *. split; change Blksz with 16384; [lia|lia|]. destruct Ex as [->| ->].
        - unfold blkfloor. change Blksz with 16384. rewrite Z.sub_diag, Z.div_0_l by lia. lia.
        - unfold blkfloor. change Blksz with 16384. rewrite Z.add_simpl_l, Z.div_same by lia. lia. }
      by apply (arenas_disjoint (f_ar (ss_fsa s)) j i m l a Hc). }
  destruct Hb as [B1 B2 _]. apply elem_statics in Ha as [->|[->|[Ha|Ha]]].
  - change Blksz with 16384 in *. lia.
  - change Blksz with 16384 in *. lia.
  - apply elem_headers in Ha as (x & Hx & Ex). by apply (Hh x); [|left].
  - apply elem_footers in Ha as (x & Hx & Ex). by apply (Hh x); [|right].
Qed.

(** A block that is in no log is written. *)
Lemma logs_write s x buf rr :
  layout s -> logs_safe (ss_fsa s) ->
  ((x ∉ statics s) -> forall l, l ∈ f_ar (ss_fsa s) -> ~ log_owns l (ss_disk s) x) ->
  logs_safe (mkFsa (f_ar (ss_fsa s)) rr (<[x := buf]> (ss_disk s))).
Proof.
  intros Hly (gs & Hf & Hsafe) Hx. exists gs. split; [|done]. destruct Hf as [F1 F2 F3 F4]. split; try done.
  intros i l g Hi Hg. pose proof (F4 i l g Hi Hg) as Hok. eapply log_ok_frame; [exact Hok|]. intros y Hy. cbn.
  apply lookup_insert_ne. intros <-. destruct (decide (x ∈ statics s)) as [Hs|Hs].
  - by apply (static_not_log s i l l (ss_disk s) g x Hly Hi eq_refl eq_refl Hok (Hsafe i l g Hi Hg)).
  - apply (Hx Hs l); [by eapply list_elem_of_lookup_2|]. by exists g.
Qed.

(** One arena's log moves on. *)
Lemma logs_step s gs i l g l' d' g' rr :
  layout s -> fsa_ok (ss_fsa s) gs -> (forall j m h, f_ar (ss_fsa s) !! j = Some m -> gs !! j = Some h -> hdr_safe m h) ->
  f_ar (ss_fsa s) !! i = Some l -> gs !! i = Some g -> log_ok l' d' g' -> grows l (ss_disk s) g l' d' g' ->
  (forall h, h ∈ hdrs (l_a l) -> free_at (a_free (l_a l')) h -> free_at (a_free (l_a l)) h) ->
  let f' := mkFsa (<[i := l']> (f_ar (ss_fsa s))) rr d' in
  logs_safe f' /\ geom f' = geom (ss_fsa s) /\ forall a, a ∈ statics s -> d' !! a = ss_disk s !! a.
Proof.
  intros Hly Hf Hsafe Hi Hg Hok Hgr Hfr f'.
  assert (Hsafe' : hdr_safe l' g') by by eapply hdr_safe_grows; [by eapply Hsafe|..].
  assert (Hil : (i < length (f_ar (ss_fsa s)))%nat) by by eapply lookup_lt_Some.
  assert (Hg' : geom f' = geom (ss_fsa s)).
  { unfold geom, f'. cbn [f_ar]. rewrite list_fmap_insert. apply list_insert_id. rewrite list_lookup_fmap, Hi. cbn.
    by rewrite (gr_addr _ _ _ _ _ _ Hgr), (gr_size _ _ _ _ _ _ Hgr). }
  split; [|split; [done|]].
  - exists (<[i := g']> gs). split; [by eapply fsa_ok_update|]. intros j m h. unfold f'. cbn [f_ar].
    destruct (decide (j = i)) as [->|Hn].
    + rewrite !list_lookup_insert_eq by (rewrite ?(fo_len _ _ Hf); done). by intros [= <-] [= <-].
    + rewrite !list_lookup_insert_ne by done. apply Hsafe.
  - intros a Ha. apply (gr_disk _ _ _ _ _ _ Hgr).
    by apply (static_not_log s i l l' d' g' a Hly Hi (gr_addr _ _ _ _ _ _ Hgr) (gr_size _ _ _ _ _ _ Hgr)).
Qed.

(** ** The blocks of a sync in memory *)

Record sblk (a : Z) (b : Blk) : Prop := {
  sk_addr : bp_addr (b_bp b) = a;
  sk_type : b_type b = Tarena \/ b_type b = Tsuper;
  sk_len : zlen (b_buf b) = Blksz;
  sk_logsz : 0 <= b_logsz b <= Logspc;
  sk_wf : wf_bptr (b_bp b);
  sk_flags i : i = 2 \/ i = 4 \/ i = 6 -> Z.testbit (b_flag b) i = false }.

(** With its header. *)
Definition packed (b : Blk) : Prop := at_ (b_buf b) 0 (PACK16 (b_type b)).

Lemma wr_same m o bs : at_ m o bs -> wr m o bs = Ok m.
Proof.
  intros H. pose proof (at_zlen _ _ _ H) as [H1 H2]. rewrite wr_in by done. f_equal.
  apply rd_at in H. apply rd_inv in H as (_ & _ & _ & H). rewrite to_nat_zlen in H.
  transitivity (take (Z.to_nat o) m ++ take (length bs) (drop (Z.to_nat o) m) ++ drop (Z.to_nat o + length bs) m).
  { by rewrite <- H. }
  rewrite <- drop_drop, take_drop. apply take_drop.
Qed.

Lemma header_static b lh : b_type b = Tarena \/ b_type b = Tsuper -> header_bytes b lh = Ok (PACK16 (b_type b)).
Proof. intros H. unfold header_bytes. destruct H as [-> | ->]; reflexivity. Qed.

Lemma finalize_packed b b' : b_type b = Tarena \/ b_type b = Tsuper -> packed b -> finalize b = Ok b' -> b_buf b' = b_buf b.
Proof.
  intros Ht Hp H. unfold finalize in H. bind_inv H as logh El. bind_inv H as h Eh. bind_inv H as buf Eb.
  bind_inv H as hash Ehs. injection H as <-. rewrite (header_static b _ Ht) in Eh. injection Eh as <-.
  rewrite (wr_same _ _ _ Hp) in Eb. by injection Eb as <-.
Qed.

Lemma finalize_static a b b' : sblk a b -> finalize b = Ok b' ->
  sblk a b' /\ packed b' /\ b_type b' = b_type b /\ (packed b -> b_buf b' = b_buf b) /\
  b_flag b' = setflag (b_flag b) (Z.lor Bdirty Bfinal) 0.
Proof.
  intros [K1 K2 K3 K4 KW K5] H. pose proof (fun Hp => finalize_packed b b' K2 Hp H) as Hsame.
  apply finalize_inv in H as (h & Eh & Ha & Hl & _ & Eb & Ead & Eg & Ehh & _).
  rewrite (header_static b _ K2) in Eh. injection Eh as <-.
  assert (Et : b_type b' = b_type b) by exact (f_equal b_type Eb).
  assert (Ef : b_flag b' = setflag (b_flag b) (Z.lor Bdirty Bfinal) 0) by exact (f_equal b_flag Eb).
  split; [|split; [|split; [done|split; [done|done]]]].
  - split; [by rewrite Ead|by rewrite Et|by rewrite Hl|exact (eq_rect_r (fun z => 0 <= z <= Logspc) K4 (f_equal b_logsz Eb))| |].
    { destruct (blkhash_ok (b_buf b')) as (x & Ex & Hx); [congruence|]. rewrite Ehh in Ex. injection Ex as <-.
      destruct KW as (W1 & _ & W3). unfold wf_bptr. by rewrite Ead, Eg. }
    intros i Hi. rewrite Ef, setflag_bit by lia. rewrite (K5 i Hi). destruct Hi as [->|[->| ->]]; reflexivity.
  - unfold packed. by rewrite Et.
Qed.

(** What pass 0 keeps. *)
Record packing (s s' : Ss) : Prop := {
  pg_place : same_place s s';
  pg_q : ss_q s' = ss_q s;
  pg_syncing : ss_syncing s' = ss_syncing s;
  pg_qgen : ss_qgen s' = ss_qgen s;
  pg_disk a : a ∈ statics s -> ss_disk s' !! a = ss_disk s !! a;
  pg_bufs a : (a ∉ statics s) -> ss_bufs s' !! a = ss_bufs s !! a;
  pg_dl : ss_dl s' = ss_dl s }.

#[export] Instance packing_preorder : PreOrder packing.
Proof.
  split; [intros s; by split|]. intros x y z [A1 A2 A3 A4 A5 A6 A7] [B1 B2 B3 B4 B5 B6 B7].
  destruct (same_headers _ _ A1) as (_ & _ & E). split; try congruence; [by etrans| |].
  - intros a Ha. rewrite B5; [by apply A5|]. by rewrite E.
  - intros a Ha. rewrite B6; [by apply A6|]. by rewrite E.
Qed.

Definition dirty (b : Blk) : Prop := Z.testbit (b_flag b) 0 = true.

(** Every header and superblock is in memory; those of [l] are packed. *)
Definition blocks (s : Ss) (l : list Z) : Prop :=
  forall a, a ∈ statics s -> exists b, ss_bufs s !! a = Some b /\ sblk a b /\ (a ∈ l -> packed b /\ dirty b).

Lemma put_packed s s' l a b b0 :
  a ∈ statics s -> sblk a b -> finalize b = Ok b0 -> blocks s l -> s' = put_at a b0 s ->
  packing s s' /\ ss_fsa s' = ss_fsa s /\ ss_fs s' = ss_fs s /\ blocks s' (a :: l).
Proof.
  intros Ha Hb Hf Hl ->. destruct (finalize_static _ _ _ Hb Hf) as (Hb0 & Hp & _ & _ & Hfl).
  assert (Hd : dirty b0).
  { unfold dirty. rewrite Hfl, setflag_bit by done. change (Z.testbit (Z.lor Bdirty Bfinal) 0) with true. apply orb_true_r. }
  split; [split; try done; cbn|split; [done|split; [done|]]].
  - intros x Hx. by rewrite lookup_insert_ne by congruence.
  - intros x Hx. cbn. destruct (decide (x = a)) as [->|Hn].
    + exists b0. by rewrite lookup_insert_eq.
    + rewrite lookup_insert_ne by done. destruct (Hl x Hx) as (b1 & H1 & H2 & H3). exists b1. split; [done|]. split; [done|].
      intros [?|Hin]%elem_of_cons; [done|by apply H3].
Qed.

Lemma sblk_buf a b buf : sblk a b -> zlen buf = Blksz -> sblk a (set_buf b buf).
Proof. intros [K1 K2 K3 K4 KW K5] Hl. by split. Qed.

Lemma put_hdr_ok p a s s' l : put_hdr p a s = Ok s' -> a ∈ statics s -> blocks s l ->
  packing s s' /\ ss_fsa s' = ss_fsa s /\ ss_fs s' = ss_fs s /\ blocks s' (a :: l).
Proof.
  unfold put_hdr, blk_at. intros H Ha Hl. destruct (Hl a Ha) as (b & Hb & Hk & _). rewrite Hb in H. cbn [rbind] in H.
  bind_inv H as buf Ew. bind_inv H as b0 Ef. injection H as <-.
  eapply (put_packed s _ l a (set_buf b buf) b0); try done. apply sblk_buf; [done|]. apply wr_zlen in Ew. rewrite Ew. apply Hk.
Qed.

Lemma put_super_ok a s s' l : put_super a s = Ok s' -> a ∈ statics s -> blocks s l ->
  packing s s' /\ ss_fsa s' = ss_fsa s /\ ss_fs s' = ss_fs s /\ blocks s' (a :: l).
Proof.
  unfold put_super, blk_at. intros H Ha Hl. destruct (Hl a Ha) as (b & Hb & Hk & _). rewrite Hb in H. cbn [rbind] in H.
  bind_inv H as buf Ew. bind_inv H as b0 Ef. injection H as <-.
  eapply (put_packed s _ l a (set_buf b buf) b0); try done. apply sblk_buf; [done|].
  unfold packsb in Ew. inv_ok. destruct (zlen _ <? _); [done|]. bind_inv Ew as h Eh. apply wr_zlen in Ew. rewrite Ew. apply Hk.
Qed.

(** ** Pass 0 *)

(** The barrier in the log and its flush. *)
Lemma log_barrier_ok us i s l l1 d1 l2 d2 :
  layout s -> logs_safe (ss_fsa s) -> 0 <= ss_qgen s < 2 ^ 55 -> f_ar (ss_fsa s) !! i = Some l ->
  logbarrier us l (ss_qgen s) (ss_disk s) = Ok (l1, d1) -> flushlog l1 d1 = Ok (l2, d2) ->
  let s' := ss_set_fsa (mkFsa (<[i := l2]> (f_ar (ss_fsa s))) (f_rr (ss_fsa s)) d2) s in
  packing s s' /\ logs_safe (ss_fsa s') /\ ss_bufs s' = ss_bufs s /\ ss_fs s' = ss_fs s /\ a_addr (l_a l2) = a_addr (l_a l).
Proof.
  intros Hly (gs & Hf & Hsafe) Hg Hi E1 E2.
  assert (exists g, gs !! i = Some g) as [g Hgi].
  { apply lookup_lt_is_Some_2. rewrite (fo_len _ _ Hf). by eapply lookup_lt_Some. }
  pose proof (fo_log _ _ Hf _ _ _ Hi Hgi) as Hok. pose proof (logbarrier_ok us l (ss_qgen s) (ss_disk s) g Hok Hg) as H1.
  destruct (logbarrier_free _ _ _ _ _ _ _ Hok Hg E1) as (Ea & Es & Hfr).
  rewrite E1 in H1. destruct H1 as (g1 & extra & Hok1 & Hgr1 & _).
  destruct (logs_step s gs i l g l1 d1 g1 (f_rr (ss_fsa s)) Hly Hf Hsafe Hi Hgi Hok1 Hgr1) as (Hs1 & Hg1 & Hd1); [by intros h _; apply Hfr|].
  set (s1 := ss_set_fsa (mkFsa (<[i := l1]> (f_ar (ss_fsa s))) (f_rr (ss_fsa s)) d1) s).
  assert (Hp1 : same_place s s1) by by split.
  pose proof (same_layout _ _ Hp1 Hly) as Hly1.
  assert (Hil : (i < length (f_ar (ss_fsa s)))%nat) by by eapply lookup_lt_Some.
  assert (Hi1 : f_ar (ss_fsa s1) !! i = Some l1) by by apply list_lookup_insert_eq.
  destruct Hs1 as (gs1 & Hf1 & Hsafe1).
  assert (exists g', gs1 !! i = Some g') as [g1' Hgi1].
  { apply lookup_lt_is_Some_2. rewrite (fo_len _ _ Hf1). by eapply lookup_lt_Some. }
  pose proof (fo_log _ _ Hf1 _ _ _ Hi1 Hgi1) as Hok1'.
  destruct (flushlog_ok l1 d1 g1' Hok1') as (l2' & d2' & g2 & E2' & Hok2 & Hgr2 & _ & _ & Ela).
  rewrite E2 in E2'. injection E2' as <- <-.
  destruct (logs_step s1 gs1 i l1 g1' l2 d2 g2 (f_rr (ss_fsa s)) Hly1 Hf1 Hsafe1 Hi1 Hgi1 Hok2 Hgr2) as (Hs2 & Hg2 & Hd2).
  { intros h _. by rewrite Ela. }
  cbn [s1 ss_set_fsa ss_fsa f_ar] in Hs2, Hg2. rewrite list_insert_insert_eq in Hs2, Hg2.
  intros s'. split; [|split; [exact Hs2|split; [done|split; [done|by rewrite Ela]]]]. split; try done.
  - split; [|done]. cbn [s' ss_set_fsa ss_fsa]. rewrite Hg2. exact Hg1.
  - intros a Ha. cbn. rewrite Hd2; [by apply Hd1|]. by destruct (same_headers _ _ Hp1) as (_ & _ & ->).
Qed.

Lemma blocks_same s s' l : same_place s s' -> ss_bufs s' = ss_bufs s -> blocks s l -> blocks s' l.
Proof. intros Hp Hb Hl a Ha. destruct (same_headers _ _ Hp) as (_ & _ & E). rewrite E in Ha. rewrite Hb. by apply Hl. Qed.

Lemma arena_statics s i l : f_ar (ss_fsa s) !! i = Some l ->
  a_addr (l_a l) ∈ headers s /\ a_addr (l_a l) + Blksz ∈ footers s.
Proof.
  intros Hi. assert (l_a l ∈ arenas s) by (apply list_elem_of_fmap; exists l; split; [done|by eapply list_elem_of_lookup_2]).
  split; [apply elem_headers|apply elem_footers]; by exists (l_a l).
Qed.

Lemma packing_arenabp s x : packing s (ss_set_fs (set_arenabp (ss_fs s) x) s).
Proof. by split. Qed.

Lemma pack_arena_ok us i s s' l : pack_arena us i s = Ok s' ->
  layout s -> logs_safe (ss_fsa s) -> 0 <= ss_qgen s < 2 ^ 55 -> blocks s l ->
  packing s s' /\ logs_safe (ss_fsa s') /\ exists la, f_ar (ss_fsa s) !! i = Some la /\
    blocks s' (a_addr (l_a la) + Blksz :: a_addr (l_a la) :: l).
Proof.
  intros H Hly Hsafe Hg Hl. unfold pack_arena in H. destruct (f_ar (ss_fsa s) !! i) as [la|] eqn:Hi; [|done].
  bind_inv H as r E1. destruct r as [l1 d1]. bind_inv H as r E2. destruct r as [l2 d2].
  destruct (log_barrier_ok us i s la l1 d1 l2 d2 Hly Hsafe Hg Hi E1 E2) as (P0 & Hsafe' & Eb & Ef & Ea).
  set (s0 := ss_set_fsa _ s) in *. rewrite Ea in H. destruct (arena_statics _ _ _ Hi) as [Ha Hb].
  bind_inv H as p Ep. bind_inv H as s1 E3. bind_inv H as s2 E4. bind_inv H as h0 E5.
  destruct (_ <=? _); [done|]. injection H as <-.
  destruct (same_headers _ _ (pg_place _ _ P0)) as (_ & _ & Est).
  assert (Hst : forall x, x ∈ headers s \/ x ∈ footers s -> x ∈ statics s) by (intros x Hx; apply elem_statics; tauto).
  destruct (put_hdr_ok _ _ _ _ l E3) as (P1 & F1 & _ & L1); [rewrite Est; apply Hst; by left|by apply (blocks_same s); [apply P0|..]|].
  destruct (same_headers _ _ (pg_place _ _ P1)) as (_ & _ & Est1).
  destruct (put_hdr_ok _ _ _ _ (a_addr (l_a la) :: l) E4) as (P2 & F2 & _ & L2); [rewrite Est1, Est; apply Hst; by right|exact L1|].
  split; [|split].
  - etrans; [exact P0|]. etrans; [exact P1|]. etrans; [exact P2|]. apply packing_arenabp.
  - cbn. by rewrite F2, F1.
  - exists la. split; [done|]. eapply blocks_same; [| |exact L2]; done.
Qed.

Lemma pack_arenas_ok us idx : forall s s' l, pack_arenas us idx s = Ok s' ->
  layout s -> logs_safe (ss_fsa s) -> 0 <= ss_qgen s < 2 ^ 55 -> blocks s l ->
  packing s s' /\ logs_safe (ss_fsa s') /\ exists l', blocks s' l' /\ (forall x, x ∈ l -> x ∈ l') /\
    forall i a, i ∈ idx -> arenas s !! i = Some a -> a_addr a ∈ l' /\ a_addr a + Blksz ∈ l'.
Proof.
  induction idx as [|i idx IH]; intros s s' l H Hly Hsafe Hg Hl; cbn [pack_arenas] in H.
  { injection H as <-. split; [done|]. split; [done|]. exists l. split; [done|]. split; [done|]. by intros i a ?%elem_of_nil. }
  bind_inv H as s1 E. destruct (pack_arena_ok _ _ _ _ l E Hly Hsafe Hg Hl) as (P1 & Hs1 & la & Hi & L1).
  destruct (IH _ _ _ H (same_layout _ _ (pg_place _ _ P1) Hly) Hs1 ltac:(by rewrite (pg_qgen _ _ P1)) L1) as (P2 & Hs2 & l' & L2 & Hin & Hl').
  split; [by etrans|]. split; [done|]. exists l'. split; [done|]. split.
  - intros x Hx. apply Hin. right. by right.
  - intros j a [->|Hj]%elem_of_cons Ha.
    + unfold arenas in Ha. rewrite list_lookup_fmap, Hi in Ha. injection Ha as <-.
      split; apply Hin; [right; left|left].
    + assert (exists a', arenas s1 !! j = Some a' /\ a_addr a' = a_addr a) as (a' & Ha' & <-).
      { assert (Hsp : same_place s1 s) by (destruct P1 as [[? ?] _ _ _ _ _ _]; by split).
        destruct (same_lookup _ _ _ _ Hsp Ha) as (a' & Ha' & -> & _). by exists a'. }
      by apply (Hl' j).
Qed.

Lemma pack_ok us s s' : pack us s = Ok s' ->
  layout s -> logs_safe (ss_fsa s) -> 0 <= ss_qgen s < 2 ^ 55 -> blocks s [] ->
  same_place s s' /\ ss_q s' = ss_q s /\ ss_syncing s' = ss_syncing s /\ ss_qgen s' = ss_qgen s /\
  (forall a, a ∈ statics s -> ss_disk s' !! a = ss_disk s !! a) /\
  (forall a, (a ∉ statics s) -> ss_bufs s' !! a = ss_bufs s !! a) /\
  logs_safe (ss_fsa s') /\ blocks s' (statics s).
Proof.
  intros H Hly Hsafe Hg Hl. unfold pack in H. set (s0 := ss_set_dl _ _) in *.
  bind_inv H as s1 E1. destruct (bp_addr (g_dl_hd (ss_fs s1)) =? -1); [|done]. bind_inv H as s2 E2.
  assert (P0 : same_place s s0) by by split.
  destruct (pack_arenas_ok us _ s0 s1 [] E1) as (P1 & Hs1 & l1 & L1 & _ & Hl1); [by apply (same_layout s)|done|done|by apply (blocks_same s)|].
  destruct (same_headers _ _ (pg_place _ _ P1)) as (_ & _ & Est1). change (statics s0) with (statics s) in Est1.
  destruct (put_super_ok _ _ _ l1 E2) as (P2 & F2 & _ & L2); [rewrite Est1; apply elem_statics; tauto|done|].
  destruct (same_headers _ _ (pg_place _ _ P2)) as (_ & _ & Est2).
  destruct (put_super_ok _ _ _ (0 :: l1) H) as (P3 & F3 & _ & L3); [apply elem_statics; tauto|exact L2|].
  assert (P : packing s0 s') by (etrans; [exact P1|]; etrans; [exact P2|exact P3]).
  destruct P as [Q1 Q2 Q3 Q4 Q5 Q6 Q7].
  split; [by etrans|]. do 3 (split; [done|]). split; [exact Q5|]. split; [exact Q6|]. split; [by rewrite F3, F2|].
  assert (E3 : ss_sb1 s2 = ss_sb1 s) by (destruct (pg_place _ _ P1) as [_ ?], (pg_place _ _ P2) as [_ ?]; by transitivity (ss_sb1 s1)).
  destruct (same_headers _ _ (pg_place _ _ P3)) as (_ & _ & Est3).
  intros a Ha. destruct (L3 a) as (b & H1 & H2 & H3); [exact Ha|]. rewrite Est3, Est2, Est1 in Ha.
  exists b. split; [done|]. split; [done|]. intros _. apply H3.
  assert (Hidx : forall x, x ∈ arenas s0 -> a_addr x ∈ l1 /\ a_addr x + Blksz ∈ l1).
  { intros x Hx. apply list_elem_of_lookup in Hx as [i Hi]. apply (Hl1 i); [|done]. apply elem_of_seq.
    apply lookup_lt_Some in Hi. unfold arenas in Hi. rewrite length_fmap in Hi. lia. }
  apply elem_statics in Ha as [->|[->|[Ha|Ha]]].
  - right. left.
  - rewrite E3. left.
  - right. right. apply elem_headers in Ha as (x & Hx & ->). by apply Hidx.
  - right. right. apply elem_footers in Ha as (x & Hx & ->). by apply Hidx.
Qed.

(** ** Freeing a block *)

Lemma dealloc_free us l b d g l' d' :
  log_ok l d g -> blk_of (l_a l) b -> disjoint_range (a_free (l_a l)) b Blksz -> blkdealloc_lk us l b d = Ok (l', d') ->
  forall x, free_at (a_free (l_a l')) x -> free_at (a_free (l_a l)) x \/ b <= x < b + Blksz.
Proof.
  intros [Hs Hok Hp Hr] Hb Hd E. unfold blkdealloc_lk in E.
  pose proof (logappend_ok us l b Blksz LogFree d g Hs (append_ok_blk _ LogFree b Hp Hb ltac:(by right)) Hp Hok) as H.
  bind_inv E as r E1. destruct r as [l1 d1]. rewrite E1 in H. destruct H as (g' & extra & [_ _ _ A4 _ _ _]).
  destruct (chained_spec _ _ _ _ Hok A4) as (C1 & C2 & C3 & _ & C5). bind_inv E as t E2. injection E as <- <-.
  destruct (freerange_spec (a_addr (l_a l1) - 1) (a_free (l_a l1)) b Blksz (ao_ranges _ C1)) as (t' & E & _ & Hx & _);
    [destruct Hb; lia|done|done|by intros x Hx Hf%C5; apply (Hd x)|].
  rewrite E2 in E. injection E as <-. intros x Hf. cbn in Hf. apply Hx in Hf as [Hf|Hf]; [left; by apply C5|by right].
Qed.

Lemma blk_apart a b h : blk_of a b -> 0 < a_size a -> h ∈ hdrs a -> h <> b -> ~ b <= h < b + Blksz.
Proof.
  intros [B1 _ B2] _ Hh Hn Hx. assert (Hf : blkfloor (a_addr a) h = h).
  { unfold hdrs in Hh. unfold blkfloor. change Blksz with 16384 in *. set_unfold in Hh. destruct Hh as [->|[->|[]]].
    - rewrite Z.sub_diag, Z.div_0_l by lia. lia.
    - rewrite Z.add_simpl_l, Z.div_same by lia. lia. }
  unfold blkfloor in *. change Blksz with 16384 in *. Z.to_euclidean_division_equations. lia.
Qed.

Lemma dealloc_ok us i s b l l' d' :
  layout s -> logs_safe (ss_fsa s) -> f_ar (ss_fsa s) !! i = Some l ->
  blk_of (l_a l) b -> disjoint_range (a_free (l_a l)) b Blksz -> ~ log_owns l (ss_disk s) b -> (b ∉ hdrs (l_a l)) ->
  blkdealloc_lk us l b (ss_disk s) = Ok (l', d') ->
  let f' := mkFsa (<[i := l']> (f_ar (ss_fsa s))) (f_rr (ss_fsa s)) d' in
  logs_safe f' /\ geom f' = geom (ss_fsa s) /\ forall a, a ∈ statics s -> d' !! a = ss_disk s !! a.
Proof.
  intros Hly (gs & Hf & Hsafe) Hi Hb Hd Ho Hh E.
  assert (exists g, gs !! i = Some g) as [g Hgi].
  { apply lookup_lt_is_Some_2. rewrite (fo_len _ _ Hf). by eapply lookup_lt_Some. }
  pose proof (fo_log _ _ Hf _ _ _ Hi Hgi) as Hok.
  pose proof (blkdealloc_lk_ok us l b (ss_disk s) g Hok Hb Hd) as H. rewrite E in H.
  destruct H as (g' & Hok' & Hgr & _); [intros Hin; apply Ho; by exists g|].
  assert (Hla : l_a l ∈ arenas s) by (apply list_elem_of_fmap; exists l; split; [done|by eapply list_elem_of_lookup_2]).
  destruct (layout_arena _ _ Hly Hla) as (_ & _ & Hsz).
  eapply logs_step; try done. intros h Hin Hf'. destruct (dealloc_free _ _ _ _ _ _ _ Hok Hb Hd E h Hf') as [?|Hx]; [done|].
  exfalso. eapply blk_apart; try done. by intros ->.
Qed.

(** ** The queue *)

Definition qheap (s : Ss) : list Qent := match ss_q s with [q] => q_heap q | _ => [] end.

Definition is_write (a : Z) (e : Qent) : Prop := qe_op e = Qwrite /\ bp_addr (qe_bp e) = a.
Definition is_fence (e : Qent) : Prop := qe_op e = Qfence.
#[export] Instance is_write_dec a e : Decision (is_write a e) := _.
#[export] Instance is_fence_dec e : Decision (is_fence e) := _.

Definition nwrites (a : Z) (h : list Qent) : nat := length (filter (is_write a) h).
Definition nfences (h : list Qent) : nat := length (filter is_fence h).

#[export] Instance nwrites_perm a : Proper (Permutation ==> eq) (nwrites a).
Proof. intros h h' Hp. unfold nwrites. by rewrite Hp. Qed.
#[export] Instance nfences_perm : Proper (Permutation ==> eq) nfences.
Proof. intros h h' Hp. unfold nfences. by rewrite Hp. Qed.

Lemma nwrites_cons a e h : nwrites a (e :: h) = ((if decide (is_write a e) then 1 else 0) + nwrites a h)%nat.
Proof. unfold nwrites. rewrite filter_cons. by destruct (decide _). Qed.
Lemma nfences_cons e h : nfences (e :: h) = ((if decide (is_fence e) then 1 else 0) + nfences h)%nat.
Proof. unfold nfences. rewrite filter_cons. by destruct (decide _). Qed.
Lemma nwrites_none a h e : nwrites a h = 0%nat -> e ∈ h -> ~ is_write a e.
Proof. intros Hz Hin Hw. apply length_zero_iff_nil in Hz. assert (e ∈ filter (is_write a) h) by (by apply list_elem_of_filter). rewrite Hz in *. by eapply elem_of_nil. Qed.
Lemma nwrites_some a h : nwrites a h <> 0%nat -> exists e, e ∈ h /\ is_write a e.
Proof.
  unfold nwrites. intros Hn. destruct (filter (is_write a) h) as [|e t] eqn:E; [done|].
  exists e. assert (Hin : e ∈ filter (is_write a) h) by (rewrite E; left). apply list_elem_of_filter in Hin as [? ?]. done.
Qed.
Lemma nfences_none h e : nfences h = 0%nat -> e ∈ h -> ~ is_fence e.
Proof. intros Hz Hin Hw. apply length_zero_iff_nil in Hz. assert (e ∈ filter is_fence h) by (by apply list_elem_of_filter). rewrite Hz in *. by eapply elem_of_nil. Qed.

(** One queue, in order. *)
Definition qok (s : Ss) : Prop := exists q, ss_q s = [q] /\ heap (q_heap q).

Lemma qput_inv qgen sy q qe q' : qput qgen sy q qe = Ok (Some q') -> heap (q_heap q) ->
  heap (q_heap q') /\ q_heap q' ≡ₚ stamped qgen qe :: q_heap q.
Proof.
  intros H Hh. assert (Hok : qe_ok sy qe).
  { unfold qput in H. apply rbind_ok in H as ([] & H & _). unfold qe_ok.
    destruct (Z.eqb_spec (qe_op qe) Qfree) as [E|_], (Z.eqb_spec (qe_op qe) Qwrite) as [E'|_]; cbn [orb] in H.
    all: try (left; split; [by auto|]; destruct (Z.eqb_spec (Z.land (bp_addr (qe_bp qe)) (Blksz - 1)) 0) as [Ez|]; [|done];
      change (Blksz - 1) with (Z.ones 14) in Ez; rewrite Z.land_ones in Ez by lia; exact Ez).
    destruct (Z.eqb_spec (qe_op qe) Qfence) as [E|_]; [|done]. destruct (Z.ltb_spec 0 sy); [|done]. by right. }
  pose proof (qput_spec qgen sy q qe Hh Hok) as Hs. destruct (zlen _ =? _); [congruence|].
  destruct Hs as (h & E & Hh' & Hp). rewrite E in H. by injection H as <-.
Qed.

Lemma put_ent_ok i qe s s' : put_ent i qe s = Ok (Some s') -> qok s ->
  qok s' /\ qheap s' ≡ₚ stamped (ss_qgen s) qe :: qheap s /\ s' = ss_set_q (ss_q s') s.
Proof.
  unfold put_ent. intros H (q & Eq & Hh). destruct (ss_q s !! i) as [q0|] eqn:Ei; [|done].
  apply rbind_ok in H as (r & E & H). destruct r as [q'|]; [|by injection H]. injection H as <-.
  rewrite Eq in Ei. destruct i; [|done]. injection Ei as <-. destruct (qput_inv _ _ _ _ _ E Hh) as [Hh' Hp].
  rewrite Eq. split; [by exists q'|]. split; [|done]. unfold qheap. cbn. by rewrite Eq.
Qed.

(** ** The program of the sync *)

(** [pc] is run when [n] barriers of the passes are done. *)
Fixpoint wf_pc (s : Ss) (n : Z) (pc : list Sact) : Prop :=
  match pc with
  | [] => True
  | a :: pc' => match a with
      | ABar => wf_pc s (n + 1) pc'
      | APack => False
      | AEnq x => wf_pc s n pc' /\ x ∈ statics s /\ group s x = n /\ (AEnq x ∉ pc') /\ (x = ss_sb1 s -> AEnq 0 ∉ pc')
      | ASyncing => wf_pc s n pc' /\ AFence 0 ∈ pc'
      | AFence i => wf_pc s n pc' /\ i = 0%nat /\ n = 3 /\ (AFence 0 ∉ pc') /\ (ASyncing ∉ pc') /\ AWait ∈ pc'
      | AWait => wf_pc s n pc' /\ (AFence 0 ∉ pc')
      | AFree => wf_pc s n pc'
      end
  end.

Lemma wf_pc_enq s pc : forall n x, wf_pc s n pc -> AEnq x ∈ pc -> n <= group s x /\ x ∈ statics s.
Proof.
  induction pc as [|a pc IH]; intros n x Hw Hin; [by apply elem_of_nil in Hin|].
  apply elem_of_cons in Hin as [<-|Hin].
  - destruct Hw as (_ & Hs & Hg & _). split; [lia|done].
  - destruct a; cbn in Hw; destruct_and?; try done; try by eapply IH.
    destruct (IH (n + 1) x) as [? ?]; [done|done|]. split; [lia|done].
Qed.

Lemma wf_pc_nopack s pc : forall n, wf_pc s n pc -> APack ∉ pc.
Proof.
  induction pc as [|a pc IH]; intros n Hw; [by intros ?%elem_of_nil|]. intros [<-|Hin]%elem_of_cons; [done|].
  destruct a; cbn in Hw; destruct_and?; try done; by eapply IH.
Qed.

Lemma wf_enqs s n l pc : NoDup l -> (forall x, x ∈ l -> x ∈ statics s /\ group s x = n /\ (AEnq x ∉ pc) /\ x <> ss_sb1 s) ->
  wf_pc s n pc -> wf_pc s n ((AEnq <$> l) ++ pc).
Proof.
  intros Hn Hl Hw. induction Hn as [|x l Hx Hn IH]; [done|]. cbn [fmap list_fmap app wf_pc].
  destruct (Hl x ltac:(left)) as (H1 & H2 & H3 & H4). split; [apply IH; intros y Hy; apply Hl; by right|].
  split; [done|]. split; [done|]. split; [|done].
  intros [(y & [= <-] & Hy)%list_elem_of_fmap|?]%elem_of_app; done.
Qed.

Lemma wf_passes s : layout s -> length (ss_q s) = 1%nat -> wf_pc s 0 (passes s).
Proof.
  intros Hl Hq. unfold passes, wrwait. rewrite Hq. cbn [seq fmap list_fmap app].
  assert (Hne : forall x, x ∈ headers s \/ x ∈ footers s -> x <> 0 /\ x <> ss_sb1 s).
  { intros x Hx. assert (exists a, a ∈ arenas s /\ (x = a_addr a \/ x = a_addr a + Blksz)) as (a & Ha & Ex).
    { destruct Hx as [(a & ? & ->)%elem_headers|(a & ? & ->)%elem_footers]; exists a; tauto. }
    destruct (layout_arena _ _ Hl Ha) as (? & ? & _). change Blksz with 16384 in *. lia. }
  pose proof (ly_sb1 _ Hl) as H1.
  set (t3 := [ABar; ASyncing; AFence 0; ABar; AWait; AFree]).
  assert (W3 : wf_pc s 2 ((AEnq <$> footers s) ++ t3)).
  { apply wf_enqs; [by apply footers_nodup| |].
    - intros x Hx. split; [apply elem_statics; tauto|]. split; [by apply group_footer|]. split; [|apply Hne; by right].
      unfold t3. set_unfold. intuition congruence.
    - unfold t3. cbn. set_unfold. intuition (congruence || lia). }
  assert (Hnf : forall x, x ∉ footers s -> AEnq x ∉ (AEnq <$> footers s) ++ t3).
  { intros x Hx [(y & [= <-] & Hy)%list_elem_of_fmap|Hin]%elem_of_app; [done|]. unfold t3 in Hin. set_unfold in Hin. intuition congruence. }
  assert (N0 : 0 ∉ footers s) by (intros Hx; by destruct (Hne 0 ltac:(by right))).
  assert (N1 : ss_sb1 s ∉ footers s) by (intros Hx; by destruct (Hne (ss_sb1 s) ltac:(by right))).
  apply wf_enqs; [by apply headers_nodup| |].
  - intros x Hx. destruct (Hne x ltac:(by left)) as [X0 X1]. split; [apply elem_statics; tauto|]. split; [by apply group_header|]. split; [|done].
    rewrite !elem_of_cons. intros [?|[[= E]|[[= E]|[?|Hin]]]]; try done. revert Hin. apply Hnf.
    intros Hf. by eapply header_footer.
  - change (wf_pc s 0 (ABar :: ?t)) with (wf_pc s (0 + 1) t). cbn [wf_pc].
    split; [split; [exact W3|]|].
    + split; [apply elem_statics; tauto|]. split; [rewrite group_super; [lia|done|tauto]|]. split; [|intros _].
      * rewrite elem_of_cons. intros [?|Hin]; [done|]. by apply Hnf in Hin.
      * rewrite elem_of_cons. intros [?|Hin]; [done|]. by apply Hnf in Hin.
    + split; [apply elem_statics; tauto|]. split; [rewrite group_super; [lia|done|tauto]|]. split; [|lia].
      rewrite !elem_of_cons. intros [[= E]|[?|Hin]]; [lia|done|]. by apply Hnf in Hin.
Qed.

(** ** The invariant *)

(** The disk has the new image of [a]. *)
Definition has_new (s1 s : Ss) (a : Z) : Prop := ss_disk s !! a = b_buf <$> ss_bufs s1 !! a.

(** [s1] is the state after pass 0; [n] barriers later. *)
Record phase (s1 s : Ss) (pc : list Sact) (n : Z) : Prop := {
  ph_place : same_place s1 s;
  ph_logs : logs_safe (ss_fsa s);
  ph_q : qok s;
  ph_gen : ss_qgen s = ss_qgen s1 + n;
  ph_pc : wf_pc s1 n pc;
  ph_le : Forall (fun e => qe_qgen e <= ss_qgen s) (qheap s);
  ph_self a b : ss_bufs s !! a = Some b -> bp_addr (b_bp b) = a;
  ph_buf a : a ∈ statics s1 -> exists b b1, ss_bufs s !! a = Some b /\ sblk a b /\ packed b /\
    ss_bufs s1 !! a = Some b1 /\ b_buf b = b_buf b1;
  ph_todo a : AEnq a ∈ pc -> nwrites a (qheap s) = 0%nat /\ ss_disk s !! a = ss_disk s1 !! a;
  ph_done a : a ∈ statics s1 -> (AEnq a ∉ pc) -> group s1 a <= n /\
    ((nwrites a (qheap s) = 1%nat /\ ss_disk s !! a = ss_disk s1 !! a /\
      Forall (fun e => is_write a e -> qe_qgen e = ss_qgen s1 + group s1 a) (qheap s)) \/
     (nwrites a (qheap s) = 0%nat /\ has_new s1 s a /\
      Forall (fun e => ss_qgen s1 + group s1 a <= qe_qgen e) (qheap s)));
  ph_sb : AEnq 0 ∈ pc -> AEnq (ss_sb1 s1) ∈ pc;
  ph_sb1 : (AEnq (ss_sb1 s1) ∉ pc) -> nwrites (ss_sb1 s1) (qheap s) = 0%nat -> nwrites 0 (qheap s) = 0%nat;
  ph_fence : AFence 0 ∈ pc -> nfences (qheap s) = 0%nat /\ AWait ∈ pc /\ (ASyncing ∈ pc \/ ss_syncing s = 1);
  ph_syncing : ASyncing ∈ pc -> AFence 0 ∈ pc;
  ph_fenced : (AFence 0 ∉ pc) -> 3 <= n /\
    ((nfences (qheap s) = 1%nat /\ ss_syncing s = 1 /\ Forall (fun e => is_fence e -> ss_qgen s1 + 3 <= qe_qgen e) (qheap s)) \/
     (nfences (qheap s) = 0%nat /\ ss_syncing s = 0 /\ Forall (fun e => ss_qgen s1 + 3 <= qe_qgen e) (qheap s)));
  ph_wait : (AWait ∉ pc) -> (AFence 0 ∉ pc) /\ nfences (qheap s) = 0%nat }.

(** ** One step *)

(** Everything but the queue and the program may change, but for the images. *)
Lemma phase_env s1 s s' pc n :
  phase s1 s pc n -> same_place s s' -> logs_safe (ss_fsa s') -> ss_q s' = ss_q s -> ss_syncing s' = ss_syncing s ->
  ss_qgen s' = ss_qgen s -> (forall a b, ss_bufs s' !! a = Some b -> bp_addr (b_bp b) = a) ->
  (forall a b, a ∈ statics s1 -> ss_bufs s !! a = Some b -> sblk a b -> packed b ->
     exists b', ss_bufs s' !! a = Some b' /\ sblk a b' /\ packed b' /\ b_buf b' = b_buf b) ->
  (forall a, a ∈ statics s1 -> ss_disk s' !! a = ss_disk s !! a) -> phase s1 s' pc n.
Proof.
  intros Hp E1 E2 E3 E4 E5 E6 E7 E8. assert (Eh : qheap s' = qheap s) by (unfold qheap; by rewrite E3).
  destruct Hp. split; rewrite ?Eh, ?E4, ?E5; try done.
  - by etrans.
  - unfold qok. by rewrite E3.
  - intros a Ha. destruct (ph_buf0 a Ha) as (b & b1 & H1 & H2 & H3 & H4 & H5).
    destruct (E7 a b Ha H1 H2 H3) as (b' & F1 & F2 & F3 & F4). exists b', b1. by rewrite F4.
  - intros a Ha. rewrite E8; [by apply ph_todo0|]. by apply (wf_pc_enq _ _ _ _ ph_pc0 Ha).
  - intros a Ha Hn. unfold has_new. rewrite E8 by done. by apply ph_done0.
Qed.

Lemma Forall_perm_cons {P : Qent -> Prop} h h' e : h ≡ₚ e :: h' -> Forall P h -> P e /\ Forall P h'.
Proof. intros Hp Hf. rewrite Hp in Hf. by apply Forall_cons. Qed.

Lemma phase_push s1 s s' pc n e :
  phase s1 s pc n -> qok s' -> qheap s' ≡ₚ e :: qheap s -> s' = ss_set_q (ss_q s') s -> qe_qgen e = ss_qgen s ->
  (forall a, a ∈ statics s1 -> ~ is_write a e) -> ~ is_fence e -> phase s1 s' pc n.
Proof.
  intros [] Hq Hh Es Eg Hw Hf.
  assert (Ew : forall a, a ∈ statics s1 -> nwrites a (qheap s') = nwrites a (qheap s)).
  { intros a Ha. rewrite Hh, nwrites_cons, decide_False by by apply Hw. done. }
  assert (Ef : nfences (qheap s') = nfences (qheap s)) by by rewrite Hh, nfences_cons, decide_False.
  assert (H0 : 0 ∈ statics s1 /\ ss_sb1 s1 ∈ statics s1) by (split; apply elem_statics; tauto). destruct H0 as [H0 H1].
  assert (Hd : ss_qgen s' = ss_qgen s /\ ss_syncing s' = ss_syncing s /\ ss_bufs s' = ss_bufs s /\ ss_fsa s' = ss_fsa s) by by rewrite Es.
  destruct Hd as (D1 & D2 & D3 & D4). assert (D5 : ss_disk s' = ss_disk s) by (unfold ss_disk; by rewrite D4).
  split; rewrite ?Ef, ?D1, ?D2, ?D3, ?D4, ?D5; try done.
  - destruct ph_place0 as [P1 P2]. split; [by rewrite D4|]. by rewrite Es.
  - rewrite Hh. constructor; [lia|done].
  - intros a Ha. destruct (wf_pc_enq _ _ _ _ ph_pc0 Ha) as [_ Hs]. rewrite Ew by done. by apply ph_todo0.
  - intros a Ha Hn. destruct (ph_done0 a Ha Hn) as (Hle & [(A1 & A2 & A3)|(A1 & A2 & A3)]); (split; [done|]); rewrite Ew by done.
    + left. split; [done|]. split; [done|]. rewrite Hh. constructor; [|done]. by intros ?%Hw.
    + right. split; [done|]. split; [unfold has_new in *; by rewrite D5|]. rewrite Hh. constructor; [lia|done].
  - rewrite !Ew by done. done.
  - intros Hn. destruct (ph_fenced0 Hn) as (Hle & [(A1 & A2 & A3)|(A1 & A2 & A3)]); (split; [done|]).
    + left. split; [done|]. split; [done|]. rewrite Hh. by constructor.
    + right. split; [done|]. split; [done|]. rewrite Hh. constructor; [lia|done].
Qed.

Lemma phase_pop s1 s s' pc n e :
  layout s1 -> phase s1 s pc n -> qok s' -> qheap s ≡ₚ e :: qheap s' -> Forall (qle e) (qheap s') ->
  ss_syncing s' = ss_syncing s - (if decide (is_fence e) then 1 else 0) -> ss_qgen s' = ss_qgen s ->
  same_place s s' -> logs_safe (ss_fsa s') -> (forall a b, ss_bufs s' !! a = Some b -> bp_addr (b_bp b) = a) ->
  (forall a b, a ∈ statics s1 -> ss_bufs s !! a = Some b -> sblk a b -> packed b ->
     exists b', ss_bufs s' !! a = Some b' /\ sblk a b' /\ packed b' /\ b_buf b' = b_buf b) ->
  (forall a, a ∈ statics s1 -> if decide (is_write a e) then has_new s1 s' a else ss_disk s' !! a = ss_disk s !! a) ->
  phase s1 s' pc n.
Proof.
  intros Hly [] Hq Hh Hmin Esy Eg Epl Hlog Hself Hbuf Hdisk.
  assert (H0 : 0 ∈ statics s1 /\ ss_sb1 s1 ∈ statics s1) by (split; apply elem_statics; tauto). destruct H0 as [H0 H1].
  assert (Ew : forall a, nwrites a (qheap s) = ((if decide (is_write a e) then 1 else 0) + nwrites a (qheap s'))%nat)
    by (intros a; by rewrite Hh, nwrites_cons).
  assert (Ef : nfences (qheap s) = ((if decide (is_fence e) then 1 else 0) + nfences (qheap s'))%nat) by by rewrite Hh, nfences_cons.
  assert (Hgen : forall x, qe_qgen e = x -> Forall (fun e' => x <= qe_qgen e') (qheap s')).
  { intros x <-. eapply Forall_impl; [exact Hmin|]. intros y Hy. unfold qle in Hy. rewrite qcmp_spec in Hy. lia. }
  assert (Hkeep : forall a, a ∈ statics s1 -> nwrites a (qheap s) = 0%nat ->
    nwrites a (qheap s') = 0%nat /\ ss_disk s' !! a = ss_disk s !! a).
  { intros a Ha Hz. specialize (Hdisk a Ha). rewrite Ew in Hz. destruct (decide (is_write a e)); [done|]. by split; [lia|]. }
  split; try done.
  - by etrans.
  - by rewrite Eg.
  - rewrite Eg. by apply (Forall_perm_cons _ _ _ Hh).
  - intros a Ha. destruct (ph_buf0 a Ha) as (b & b1 & B1 & B2 & B3 & B4 & B5).
    destruct (Hbuf a b Ha B1 B2 B3) as (b' & F1 & F2 & F3 & F4). exists b', b1. by rewrite F4.
  - intros a Ha. destruct (wf_pc_enq _ _ _ _ ph_pc0 Ha) as [_ Hs]. destruct (ph_todo0 a Ha) as [A1 A2].
    destruct (Hkeep a Hs A1) as [-> ->]. done.
  - intros a Ha Hn. destruct (ph_done0 a Ha Hn) as (Hle & [(A1 & A2 & A3)|(A1 & A2 & A3)]); (split; [done|]).
    + specialize (Hdisk a Ha). destruct (Forall_perm_cons _ _ _ Hh A3) as [Ae A3']. rewrite Ew in A1.
      destruct (decide (is_write a e)) as [Hw|Hw].
      * right. split; [lia|]. split; [done|]. by apply Hgen, Ae.
      * left. split; [lia|]. split; [by rewrite Hdisk|done].
    + right. destruct (Hkeep a Ha A1) as [-> Ed]. split; [done|]. unfold has_new in *. rewrite Ed. split; [done|].
      by apply (Forall_perm_cons _ _ _ Hh).
  - intros Hn Hz. rewrite Ew in ph_sb2. destruct (decide (is_write (ss_sb1 s1) e)) as [Hw|Hw].
    2:{ rewrite Ew in ph_sb2. specialize (ph_sb2 Hn Hz). lia. }
    destruct (nwrites 0 (qheap s')) as [|k] eqn:E0; [done|exfalso].
    destruct (nwrites_some 0 (qheap s')) as (e0 & Hin & Hw0); [by rewrite E0|].
    assert (Hn0 : AEnq 0 ∉ pc).
    { intros Hin0. destruct (ph_todo0 0 Hin0) as [Hz0 _]. rewrite Ew, E0 in Hz0. lia. }
    assert (G0 : qe_qgen e0 = ss_qgen s1 + 1).
    { destruct (ph_done0 0 H0 Hn0) as (_ & [(_ & _ & A3)|(A1 & _)]); [|rewrite Ew, E0 in A1; lia].
      destruct (Forall_perm_cons _ _ _ Hh A3) as [_ A3']. rewrite Forall_forall in A3'. rewrite (A3' e0 Hin Hw0).
      by rewrite group_super by tauto. }
    assert (G1 : qe_qgen e = ss_qgen s1 + 1).
    { destruct (ph_done0 _ H1 Hn) as (_ & [(_ & _ & A3)|(A1 & _)]); [|rewrite Ew, decide_True in A1 by done; lia].
      destruct (Forall_perm_cons _ _ _ Hh A3) as [Ae _]. rewrite (Ae Hw). by rewrite group_super by tauto. }
    rewrite Forall_forall in Hmin. specialize (Hmin e0 Hin). unfold qle in Hmin. rewrite qcmp_spec in Hmin.
    destruct Hw as [O1 Aw1], Hw0 as [O0 Aw0]. pose proof (ly_sb1 _ Hly). apply Hmin. right. split; [lia|]. right. split; [congruence|lia].
  - intros Hin. destruct (ph_fence0 Hin) as (F0 & A1 & A2). rewrite Ef in F0. rewrite Esy. destruct (decide (is_fence e)); [done|].
    split; [lia|]. split; [done|]. by rewrite Z.sub_0_r.
  - intros Hn. destruct (ph_fenced0 Hn) as (Hle & [(A1 & A2 & A3)|(A1 & A2 & A3)]); (split; [done|]).
    + destruct (Forall_perm_cons _ _ _ Hh A3) as [Ae A3']. rewrite Ef in A1. rewrite Esy. destruct (decide (is_fence e)) as [Hfe|Hfe].
      * right. split; [lia|]. split; [lia|]. eapply Forall_impl; [by apply Hgen|]. cbv beta. specialize (Ae Hfe). lia.
      * left. split; [lia|]. split; [lia|done].
    + rewrite Ef in A1. rewrite Esy. destruct (decide (is_fence e)); [done|]. right. split; [lia|]. split; [lia|].
      by apply (Forall_perm_cons _ _ _ Hh).
  - intros Hn. destruct (ph_wait0 Hn) as [A1 A2]. rewrite Ef in A2. split; [done|lia].
Qed.

Lemma enqueue_inv a s s' : enqueue a s = Ok (Some s') -> qok s ->
  exists b b0, ss_bufs s !! a = Some b /\ finalize b = Ok b0 /\ qok s' /\ s' = ss_set_q (ss_q s') (put_at a b0 s) /\
    qheap s' ≡ₚ mkQent (ss_qgen s) (b_bp b0) (Some b0) Qwrite :: qheap s.
Proof.
  unfold enqueue, blk_at. intros H Hq. destruct (ss_bufs s !! a) as [b|]; [|done]. cbn [rbind] in H.
  destruct (checkflag _ _ _); [|done]. destruct (0 <=? _); [|done].
  apply rbind_ok in H as (b0 & Ef & H). apply rbind_ok in H as (i & _ & H).
  destruct (put_ent_ok _ _ _ _ H) as (Hq' & Hh & Es); [exact Hq|].
  exists b, b0. split; [done|]. split; [done|]. split; [done|]. split; [done|]. exact Hh.
Qed.

Lemma finalize_addr b b0 : finalize b = Ok b0 -> bp_addr (b_bp b0) = bp_addr (b_bp b).
Proof. intros H. apply finalize_inv in H as (? & _ & _ & _ & _ & _ & E & _). exact E. Qed.

(** The finalised block in memory. *)
Lemma phase_put s1 s pc n a b b0 :
  phase s1 s pc n -> ss_bufs s !! a = Some b -> finalize b = Ok b0 -> phase s1 (put_at a b0 s) pc n.
Proof.
  intros Hp Hb Hf. eapply phase_env; try done; [apply Hp| |].
  - intros x c Hx. cbn in Hx. destruct (decide (x = a)) as [->|Hn].
    + rewrite lookup_insert_eq in Hx. injection Hx as <-. rewrite (finalize_addr _ _ Hf). by apply (ph_self _ _ _ _ Hp).
    + rewrite lookup_insert_ne in Hx by done. by apply (ph_self _ _ _ _ Hp).
  - intros x c Hx Hc Hk Hpk. cbn. destruct (decide (x = a)) as [->|Hn].
    + rewrite Hb in Hc. injection Hc as ->. destruct (finalize_static _ _ _ Hk Hf) as (K1 & K2 & _ & K3 & _).
      exists b0. rewrite lookup_insert_eq. by split_and?; [|..|apply K3].
    + exists c. by rewrite lookup_insert_ne.
Qed.

Lemma phase_write s1 s s' pc n a :
  phase s1 s pc n -> (a ∉ statics s) -> enqueue a s = Ok (Some s') -> phase s1 s' pc n.
Proof.
  intros Hp Ha H. destruct (enqueue_inv _ _ _ H (ph_q _ _ _ _ Hp)) as (b & b0 & Hb & Hf & Hq & Es & Hh).
  pose proof (phase_put _ _ _ _ _ _ _ Hp Hb Hf) as Hp'.
  eapply (phase_push _ _ _ _ _ _ Hp' Hq Hh Es); [done| |done].
  intros x Hx [_ Ex]. cbn in Ex. rewrite (finalize_addr _ _ Hf), (ph_self _ _ _ _ Hp _ _ Hb) in Ex. subst x.
  apply Ha. by destruct (same_headers _ _ (ph_place _ _ _ _ Hp)) as (_ & _ & ->).
Qed.

Lemma phase_freed s1 s s' pc n bp : phase s1 s pc n -> put_free bp s = Ok (Some s') -> phase s1 s' pc n.
Proof.
  intros Hp H. unfold put_free in H. apply rbind_ok in H as (i & _ & H).
  destruct (put_ent_ok _ _ _ _ H (ph_q _ _ _ _ Hp)) as (Hq & Hh & Es).
  eapply (phase_push _ _ _ _ _ _ Hp Hq Hh Es); [done| |done]. by intros x _ [? _].
Qed.

Lemma elem_cons_ne {A} (x y : A) l : x <> y -> x ∈ y :: l <-> x ∈ l.
Proof. rewrite elem_of_cons. tauto. Qed.

Lemma phase_enq s1 s s' pc n x :
  phase s1 s (AEnq x :: pc) n -> enqueue x s = Ok (Some s') -> phase s1 s' pc n.
Proof.
  intros Hp0 H. destruct (enqueue_inv _ _ _ H (ph_q _ _ _ _ Hp0)) as (b & b0 & Hb & Hf & Hq & Es & Hh).
  pose proof (phase_put _ _ _ _ _ _ _ Hp0 Hb Hf) as Hp. set (e := mkQent _ _ _ _) in Hh.
  assert (Ead : bp_addr (qe_bp e) = x) by (cbn; by rewrite (finalize_addr _ _ Hf), (ph_self _ _ _ _ Hp0 _ _ Hb)).
  set (s0 := put_at x b0 s) in *. change (qheap s) with (qheap s0) in Hh.
  assert (Eg : qe_qgen e = ss_qgen s0 /\ qe_op e = Qwrite) by done. destruct Eg as [Eg Eop].
  clearbody s0 e. clear Hp0 Hb Hf b b0 H. destruct Hp. pose proof ph_pc0 as (W1 & W2 & W3 & W4 & W5).
  assert (Hwx : forall a, is_write a e <-> a = x) by (intros a; unfold is_write; split; [intros [? ?]|intros ->]; [congruence|done]).
  assert (Ew : forall a, a <> x -> nwrites a (qheap s') = nwrites a (qheap s0)).
  { intros a Ha. rewrite Hh, nwrites_cons, decide_False; [done|]. by intros ?%Hwx. }
  assert (Ef : nfences (qheap s') = nfences (qheap s0)).
  { rewrite Hh, nfences_cons, decide_False; [done|]. unfold is_fence. by rewrite Eop. }
  assert (Hd : ss_qgen s' = ss_qgen s0 /\ ss_syncing s' = ss_syncing s0 /\ ss_bufs s' = ss_bufs s0 /\ ss_fsa s' = ss_fsa s0) by by rewrite Es.
  destruct Hd as (D1 & D2 & D3 & D4). assert (D5 : ss_disk s' = ss_disk s0) by (unfold ss_disk; by rewrite D4).
  destruct (ph_todo0 x ltac:(left)) as [Z0 Z1].
  assert (Hin : forall b, AEnq b ∈ pc -> b <> x) by (intros b Hb ->; done).
  split; rewrite ?Ef, ?D1, ?D2, ?D3, ?D4, ?D5; try done.
  - destruct ph_place0 as [P1 P2]. split; [by rewrite D4|]. by rewrite Es.
  - rewrite Hh. constructor; [lia|done].
  - intros a Ha. rewrite Ew by by apply Hin. apply ph_todo0. by right.
  - intros a Ha Hn. destruct (decide (a = x)) as [->|Hne].
    + split; [lia|]. left. rewrite Hh, nwrites_cons, decide_True by by apply Hwx. split; [lia|]. split; [done|].
      constructor; [lia|]. apply Forall_forall. intros y Hy Hw. by destruct (nwrites_none _ _ _ Z0 Hy).
    + destruct (ph_done0 a Ha) as (Hle & [(A1 & A2 & A3)|(A1 & A2 & A3)]); [by rewrite elem_cons_ne by congruence|..];
        (split; [done|]); rewrite Ew by done.
      * left. split; [done|]. split; [done|]. rewrite Hh. constructor; [|done]. by intros ?%Hwx.
      * right. split; [done|]. split; [unfold has_new in *; by rewrite D5|]. rewrite Hh. constructor; [lia|done].
  - intros Hi. assert (Hi' : AEnq (ss_sb1 s1) ∈ AEnq x :: pc) by (apply ph_sb0; by right).
    apply elem_of_cons in Hi' as [[= E]|?]; [|done]. by destruct (W5 (eq_sym E)).
  - intros Hn Hz. destruct (decide (x = ss_sb1 s1)) as [->|Hne].
    + rewrite Hh, nwrites_cons, decide_True in Hz by by apply Hwx. lia.
    + rewrite Ew in Hz by done. assert (Hn' : AEnq (ss_sb1 s1) ∉ AEnq x :: pc) by (rewrite elem_cons_ne by congruence; done).
      destruct (decide (x = 0)) as [->|Hne0]; [by destruct Hn'; apply ph_sb0; left|]. rewrite Ew by done. by apply ph_sb2.
  - intros Hi. rewrite <- (elem_cons_ne _ (AEnq x)) in Hi by done. destruct (ph_fence0 Hi) as (F1 & F2 & F3).
    rewrite !elem_cons_ne in F2, F3 by done. done.
  - intros Hi. rewrite <- (elem_cons_ne _ (AEnq x)) in Hi by done. apply ph_syncing0 in Hi. by rewrite elem_cons_ne in Hi.
  - intros Hn. rewrite <- (elem_cons_ne _ (AEnq x)) in Hn by done.
    destruct (ph_fenced0 Hn) as (Hle & [(A1 & A2 & A3)|(A1 & A2 & A3)]); (split; [done|]).
    + left. split; [done|]. split; [done|]. rewrite Hh. constructor; [|done]. unfold is_fence. by rewrite Eop.
    + right. split; [done|]. split; [done|]. rewrite Hh. constructor; [lia|done].
  - intros Hn. rewrite <- (elem_cons_ne _ (AEnq x)) in Hn by done. destruct (ph_wait0 Hn) as [A1 A2]. by rewrite elem_cons_ne in A1.
Qed.

(** The actions that queue nothing. *)
Definition passive (a : Sact) : Prop := match a with ABar | ASyncing | AWait | AFree => True | _ => False end.

Lemma phase_skip s1 s s' a pc n n' :
  phase s1 s (a :: pc) n -> passive a -> wf_pc s1 n' pc -> n <= n' -> ss_qgen s' = ss_qgen s1 + n' ->
  ss_fsa s' = ss_fsa s -> ss_sb1 s' = ss_sb1 s -> ss_bufs s' = ss_bufs s -> ss_q s' = ss_q s ->
  (AFence 0 ∈ pc -> AWait ∈ pc /\ (ASyncing ∈ pc \/ ss_syncing s' = 1)) -> ((AFence 0 ∉ pc) -> ss_syncing s' = ss_syncing s) ->
  ((AWait ∉ pc) -> (AFence 0 ∉ pc) /\ nfences (qheap s) = 0%nat) -> (ASyncing ∈ pc -> AFence 0 ∈ pc) -> phase s1 s' pc n'.
Proof.
  intros Hp Ha Hw Hn Eg Ea E1 Eb Eq Hf Hs Hwt Hsy.
  assert (Hne : forall x, AEnq x <> a) by by intros x <-. assert (Hnf : AFence 0 <> a) by by intros <-.
  assert (Hx : forall x, AEnq x ∈ a :: pc <-> AEnq x ∈ pc) by (intros x; by apply elem_cons_ne).
  assert (Hfx : AFence 0 ∈ a :: pc <-> AFence 0 ∈ pc) by by apply elem_cons_ne.
  assert (Eh : qheap s' = qheap s) by (unfold qheap; by rewrite Eq).
  assert (Ed : ss_disk s' = ss_disk s) by (unfold ss_disk; by rewrite Ea).
  destruct Hp. split; rewrite ?Eh, ?Ea, ?Eb, ?Ed; try done.
  - destruct ph_place0. split; [by rewrite Ea|by rewrite E1].
  - unfold qok. by rewrite Eq.
  - eapply Forall_impl; [exact ph_le0|]. cbv beta. lia.
  - intros x Hi. apply ph_todo0. by apply Hx.
  - intros x Hi Hnx. destruct (ph_done0 x Hi) as [Hle Hd]; [by rewrite Hx|]. split; [lia|]. unfold has_new in *. by rewrite Ed.
  - intros Hi. by apply Hx, ph_sb0, Hx.
  - intros Hi. apply ph_sb2. by rewrite Hx.
  - intros Hi. destruct (Hf Hi). split; [|done]. by apply ph_fence0, Hfx.
  - intros Hi. rewrite (Hs Hi). destruct ph_fenced0 as [Hle Hd]; [by rewrite Hfx|]. split; [lia|done].
Qed.

Lemma phase_bar s1 s pc n : phase s1 s (ABar :: pc) n -> phase s1 (wrbarrier s) pc (n + 1).
Proof.
  intros Hp. eapply (phase_skip _ _ (wrbarrier s)); try done; [by apply Hp|lia| | | |].
  - change (ss_qgen (wrbarrier s)) with (ss_qgen s + 1). rewrite (ph_gen _ _ _ _ Hp). lia.
  - intros Hi. destruct (ph_fence _ _ _ _ Hp) as (_ & F2 & F3); [by right|]. by rewrite !elem_cons_ne in F2, F3.
  - intros Hn. destruct (ph_wait _ _ _ _ Hp) as [A1 A2]; [by rewrite elem_cons_ne|]. by rewrite elem_cons_ne in A1.
  - intros Hi. assert (H : AFence 0 ∈ ABar :: pc) by (apply (ph_syncing _ _ _ _ Hp); by right). by rewrite elem_cons_ne in H.
Qed.

Lemma phase_start s1 s pc n : phase s1 s (ASyncing :: pc) n -> phase s1 (ss_set_syncing 1 s) pc n.
Proof.
  intros Hp. destruct (ph_pc _ _ _ _ Hp) as [W1 W2].
  eapply (phase_skip _ _ (ss_set_syncing 1 s)); try done; [apply Hp| |].
  - intros Hi. destruct (ph_fence _ _ _ _ Hp) as (_ & F2 & _); [by right|]. rewrite elem_cons_ne in F2 by done. split; [done|by right].
  - intros Hn. destruct (ph_wait _ _ _ _ Hp) as [A1 A2]; [by rewrite elem_cons_ne|]. by rewrite elem_cons_ne in A1.
Qed.

Lemma phase_wait s1 s pc n : phase s1 s (AWait :: pc) n -> ss_syncing s = 0 -> phase s1 s pc n.
Proof.
  intros Hp Hs. destruct (ph_pc _ _ _ _ Hp) as [W1 W2].
  eapply (phase_skip _ _ s); try done; [apply Hp| |].
  - intros _. split; [done|]. destruct (ph_fenced _ _ _ _ Hp) as [_ [(_ & A2 & _)|(A1 & _)]]; [by rewrite elem_cons_ne|lia|done].
  - intros Hi. assert (H : AFence 0 ∈ AWait :: pc) by (apply (ph_syncing _ _ _ _ Hp); by right). by rewrite elem_cons_ne in H.
Qed.

Lemma phase_free s1 s pc n : phase s1 s (AFree :: pc) n -> phase s1 (ss_set_dl None s) pc n.
Proof.
  intros Hp. eapply (phase_skip _ _ (ss_set_dl None s)); try done; [by apply Hp|apply Hp| | |].
  - intros Hi. destruct (ph_fence _ _ _ _ Hp) as (_ & F2 & F3); [by right|]. by rewrite !elem_cons_ne in F2, F3.
  - intros Hn. destruct (ph_wait _ _ _ _ Hp) as [A1 A2]; [by rewrite elem_cons_ne|]. by rewrite elem_cons_ne in A1.
  - intros Hi. assert (H : AFence 0 ∈ AFree :: pc) by (apply (ph_syncing _ _ _ _ Hp); by right). by rewrite elem_cons_ne in H.
Qed.

Lemma phase_fence s1 s s' pc n i :
  phase s1 s (AFence i :: pc) n -> put_ent i fence s = Ok (Some s') -> phase s1 s' pc n.
Proof.
  intros Hp H. destruct (put_ent_ok _ _ _ _ H (ph_q _ _ _ _ Hp)) as (Hq & Hh & Es). set (e := stamped _ _) in Hh.
  assert (Ee : qe_qgen e = ss_qgen s /\ is_fence e /\ forall a, ~ is_write a e).
  { split; [done|]. split; [done|]. by intros a [? _]. }
  destruct Ee as (Eg & Efe & Ewe). clearbody e. destruct Hp. pose proof ph_pc0 as (W1 & -> & W3 & W4 & W5 & W6).
  assert (Ew : forall a, nwrites a (qheap s') = nwrites a (qheap s)).
  { intros a. rewrite Hh, nwrites_cons, decide_False by by apply Ewe. done. }
  assert (Hd : ss_qgen s' = ss_qgen s /\ ss_syncing s' = ss_syncing s /\ ss_bufs s' = ss_bufs s /\ ss_fsa s' = ss_fsa s) by by rewrite Es.
  destruct Hd as (D1 & D2 & D3 & D4). assert (D5 : ss_disk s' = ss_disk s) by (unfold ss_disk; by rewrite D4).
  destruct (ph_fence0 ltac:(left)) as (F1 & F2 & F3).
  assert (Esy : ss_syncing s = 1) by (destruct F3 as [F3|F3]; [by rewrite elem_cons_ne in F3|done]).
  assert (Ef : nfences (qheap s') = 1%nat) by (rewrite Hh, nfences_cons, decide_True by done; lia).
  split; rewrite ?D1, ?D2, ?D3, ?D4, ?D5, ?Ef; try done.
  - destruct ph_place0 as [P1 P2]. split; [by rewrite D4|]. by rewrite Es.
  - rewrite Hh. constructor; [lia|done].
  - intros a Ha. rewrite Ew. apply ph_todo0. by right.
  - intros a Ha Hn. rewrite Ew. destruct (ph_done0 a Ha) as (Hle & [(A1 & A2 & A3)|(A1 & A2 & A3)]); [by rewrite elem_cons_ne|..]; (split; [done|]).
    + left. split; [done|]. split; [done|]. rewrite Hh. constructor; [|done]. by intros ?%Ewe.
    + right. split; [done|]. split; [unfold has_new in *; by rewrite D5|]. rewrite Hh. constructor; [lia|done].
  - intros Hi. rewrite <- (elem_cons_ne _ (AFence 0)) in Hi by done. apply ph_sb0 in Hi. by rewrite elem_cons_ne in Hi.
  - rewrite !Ew. intros Hn. rewrite <- (elem_cons_ne _ (AFence 0)) in Hn by done. by apply ph_sb2.
  - intros _. split; [lia|]. left. split; [done|]. split; [done|]. rewrite Hh. constructor; [intros _; lia|].
    apply Forall_forall. intros y Hy Hfy. by destruct (nfences_none _ _ F1 Hy).
Qed.


(** ** The syncer *)

Lemma sblk_flag a b c : sblk a b -> packed b ->
  sblk a (set_flag b 0 c) /\ packed (set_flag b 0 c) /\ b_buf (set_flag b 0 c) = b_buf b.
Proof.
  intros [K1 K2 K3 K4 KW K5] Hp. split; [|done]. split; [done|done|done|done|done|]. intros i Hi.
  change (Z.testbit (setflag (b_flag b) 0 c) i = false). rewrite setflag_bit, (K5 i Hi), Z.bits_0 by lia. reflexivity.
Qed.

Lemma syncblk_inv b d b' d' : syncblk b d = Ok (b', d') ->
  b' = set_flag b 0 Bdirty /\ d' = <[bp_addr (b_bp b) := b_buf b]> d.
Proof. unfold syncblk. intros H. inv_ok. done. Qed.

Lemma freed_bit f : checkflag f Bfreed Bstatic = true -> Z.testbit f 2 = true.
Proof.
  unfold checkflag. intros E%Z.eqb_eq. apply (f_equal (fun z => Z.testbit z 2)) in E. rewrite Z.land_spec in E.
  destruct (Z.testbit f 2); [done|]. discriminate E.
Qed.

Lemma pop_ent_inv i s e s' : pop_ent i s = Ok (Some (e, s')) -> qok s ->
  exists q e0 t, ss_q s !! i = Some q /\ q_heap q = e0 :: t /\ e = unqueue e0 /\ qok s' /\
    qheap s ≡ₚ e0 :: qheap s' /\ Forall (qle e0) (qheap s') /\ ss_fsa s' = ss_fsa s /\ ss_fs s' = ss_fs s /\
    ss_sb1 s' = ss_sb1 s /\ ss_syncing s' = ss_syncing s /\
    (ss_bufs s' = ss_bufs s \/ ss_bufs s' = alter (fun b => set_flag b 0 Bqueued) (bp_addr (qe_bp e0)) (ss_bufs s)).
Proof.
  unfold pop_ent. intros H (q & Eq & Hh). destruct (ss_q s !! i) as [q0|] eqn:Ei; [|done].
  rewrite Eq in Ei. destruct i; [|done]. injection Ei as <-. pose proof (qpop_spec q Hh) as Hs.
  assert (Ehs : qheap s = q_heap q) by (unfold qheap; by rewrite Eq).
  destruct (q_heap q) as [|e0 t] eqn:Et; [by rewrite Hs in H|]. destruct Hs as (h & E & Hh' & Hp & Hmin). rewrite E in H.
  cbn [rbind] in H. injection H as <- <-. exists q, e0, t. rewrite Eq.
  set (s' := clear_queued _ _).
  assert (Es : ss_q s' = [mkSyncq h (q_heapsz q)] /\ ss_fsa s' = ss_fsa s /\ ss_fs s' = ss_fs s /\ ss_sb1 s' = ss_sb1 s /\
    ss_syncing s' = ss_syncing s /\
    (ss_bufs s' = ss_bufs s \/ ss_bufs s' = alter (fun b => set_flag b 0 Bqueued) (bp_addr (qe_bp e0)) (ss_bufs s))).
  { unfold s', clear_queued. destruct (qe_b (unqueue e0)); do 5 (split; [done|]); [by right|by left]. }
  destruct Es as (Q1 & Q2 & Q3 & Q4 & Q5 & Q6).
  assert (Eh' : qheap s' = h) by (unfold qheap; by rewrite Q1).
  split; [done|]. split; [done|]. split; [done|]. split; [by exists (mkSyncq h (q_heapsz q))|].
  rewrite Ehs, Eh'. split; [by rewrite Hp|]. split; [by rewrite Hp|]. done.
Qed.

Lemma queue_flag s s' x s1 :
  (ss_bufs s' = ss_bufs s \/ ss_bufs s' = alter (fun b => set_flag b 0 Bqueued) x (ss_bufs s)) ->
  (forall a b, ss_bufs s !! a = Some b -> bp_addr (b_bp b) = a) ->
  (forall a b, ss_bufs s' !! a = Some b -> bp_addr (b_bp b) = a) /\
  (forall a b, a ∈ statics s1 -> ss_bufs s !! a = Some b -> sblk a b -> packed b ->
     exists b', ss_bufs s' !! a = Some b' /\ sblk a b' /\ packed b' /\ b_buf b' = b_buf b).
Proof.
  intros [E|E] Hself; rewrite E; split.
  - done.
  - intros a b _ Hb Hk Hp. by exists b.
  - intros a b Hb. apply lookup_alter_Some in Hb as [(<- & c & Hc & ->)|[_ Hb]]; [|by apply Hself]. exact (Hself _ _ Hc).
  - intros a b _ Hb Hk Hp. destruct (decide (x = a)) as [->|Hn].
    + exists (set_flag b 0 Bqueued). rewrite lookup_alter_eq, Hb. split; [done|]. by apply sblk_flag.
    + exists b. by rewrite lookup_alter_ne.
Qed.

Lemma phase_syncer us s1 s s' pc n i :
  layout s1 -> phase s1 s pc n ->
  (forall q e t, ss_q s !! i = Some q -> q_heap q = e :: t -> head_ok s e) ->
  runsync us i s = Ok (Some s') -> phase s1 s' pc n.
Proof.
  intros Hly Hp Hfr H. unfold runsync in H. apply rbind_ok in H as (r & Er & H). destruct r as [[e sp]|]; [|done].
  apply rbind_ok in H as (sx & Eh & H). injection H as ->.
  destruct (pop_ent_inv _ _ _ _ Er (ph_q _ _ _ _ Hp)) as (q & e0 & t & Hq & Ht & -> & Hqok & Hperm & Hmin & Ef & Efs & E1 & Esy & Eb).
  destruct (queue_flag s sp _ s1 Eb (ph_self _ _ _ _ Hp)) as [Hself Hbuf].
  assert (Hpl : same_place s sp) by (split; [by rewrite Ef|done]).
  pose proof (same_layout _ _ (ph_place _ _ _ _ Hp) Hly) as Hlys. pose proof (same_layout _ _ Hpl Hlys) as Hlysp.
  assert (Est : statics sp = statics s1).
  { destruct (same_headers _ _ (ph_place _ _ _ _ Hp)) as (_ & _ & <-). by destruct (same_headers _ _ Hpl) as (_ & _ & ->). }
  assert (Ed : ss_disk sp = ss_disk s) by (unfold ss_disk; by rewrite Ef).
  assert (Eg : ss_qgen sp = ss_qgen s) by (unfold ss_qgen; by rewrite Efs).
  unfold handle_ent in Eh. change (qe_op (unqueue e0)) with (qe_op e0) in Eh. change (qe_bp (unqueue e0)) with (qe_bp e0) in Eh.
  destruct (Z.eqb_spec (qe_op e0) Qfree) as [Eo|Nf]; [|destruct (Z.eqb_spec (qe_op e0) Qfence) as [Eo|Nc];
    [|destruct (Z.eqb_spec (qe_op e0) Qwrite) as [Eo|]; [|done]]].
  - destruct (match qe_b (unqueue e0) with None => true | Some _ => false end); [|done].
    apply rbind_ok in Eh as (x & Eg' & Eh). apply rbind_ok in Eh as (l & El & Eh). apply rbind_ok in Eh as ([l' d'] & Ede & Eh).
    injection Eh as <-. apply znth_ok in El as [Hx0 Hl]. rewrite <- (Z2Nat.id x Hx0) in Eg'.
    assert (Hfx : freeable sp (bp_addr (qe_bp e0))).
    { intros j m. unfold arenas. rewrite Ef, E1, Ed. apply (Hfr q e0 t Hq Ht). done. }
    destruct (Hfx _ _ Eg' Hl) as (B1 & B2 & B3 & B4).
    assert (Hls : logs_safe (ss_fsa sp)) by (rewrite Ef; apply Hp).
    destruct (dealloc_ok us _ sp _ l l' d' Hlysp Hls Hl B1 B2 B3 B4 Ede) as (R1 & R2 & R3).
    assert (Nw : forall a, ~ is_write a e0) by (intros a [Ow _]; rewrite Eo in Ow; done).
    assert (Nfe : ~ is_fence e0) by (unfold is_fence; by rewrite Eo).
    eapply (phase_pop s1 s _ pc n e0 Hly Hp); [exact Hqok|exact Hperm|exact Hmin| |exact Eg| |exact R1|exact Hself|exact Hbuf|].
    + rewrite decide_False by done. cbn. lia.
    + split; [rewrite <- Ef; exact R2|done].
    + intros a Ha. rewrite decide_False by apply Nw. cbn. rewrite R3 by by rewrite Est. by rewrite Ed.
  - injection Eh as <-.
    assert (Nw : forall a, ~ is_write a e0) by (intros a [Ow _]; rewrite Eo in Ow; done).
    eapply (phase_pop s1 s _ pc n e0 Hly Hp); [exact Hqok|exact Hperm|exact Hmin| |exact Eg|exact Hpl| |exact Hself|exact Hbuf|].
    + rewrite decide_True by done. cbn. lia.
    + cbn. rewrite Ef. apply Hp.
    + intros a Ha. rewrite decide_False by apply Nw. change (ss_disk sp !! a = ss_disk s !! a). by rewrite Ed.
  - assert (Nfe : ~ is_fence e0) by done. set (x := bp_addr (qe_bp e0)) in *.
    unfold blk_at in Eh. destruct (ss_bufs sp !! x) as [b|] eqn:Hb; [|done]. cbn [rbind] in Eh.
    assert (Hx : forall a, is_write a e0 <-> a = x) by (intros a; unfold is_write; split; [by intros [_ <-]|by intros ->]).
    assert (Hst : forall a, a ∈ statics s1 -> is_write a e0 -> exists b1, sblk a b /\ packed b /\ ss_bufs s1 !! a = Some b1 /\ b_buf b = b_buf b1).
    { intros a Ha ->%Hx. destruct (ph_buf _ _ _ _ Hp x Ha) as (b0 & b1 & B1 & B2 & B3 & B4 & B5).
      destruct (Hbuf x b0 Ha B1 B2 B3) as (b' & F1 & F2 & F3 & F4). rewrite Hb in F1. injection F1 as <-.
      exists b1. rewrite F4. done. }
    destruct (checkflag (b_flag b) Bfreed Bstatic) eqn:Ec.
    + injection Eh as <-. apply freed_bit in Ec.
      eapply (phase_pop s1 s _ pc n e0 Hly Hp); [exact Hqok|exact Hperm|exact Hmin| |exact Eg|exact Hpl| |exact Hself|exact Hbuf|].
      * rewrite decide_False by done. lia.
      * rewrite Ef. apply Hp.
      * intros a Ha. destruct (decide (is_write a e0)) as [Hw|Hw]; [|by rewrite Ed].
        destruct (Hst a Ha Hw) as (b1 & [_ _ _ _ _ K5] & _). rewrite K5 in Ec by auto. done.
    + apply rbind_ok in Eh as ([b' d'] & Esb & Eh). injection Eh as <-. apply syncblk_inv in Esb as [-> ->].
      assert (Eba : bp_addr (b_bp b) = x) by by apply Hself.
      eapply (phase_pop s1 s _ pc n e0 Hly Hp); [exact Hqok|exact Hperm|exact Hmin| |exact Eg| | | | |].
      * rewrite decide_False by done. cbn. lia.
      * split; [by cbn; rewrite Ef|done].
      * rewrite Eba. apply (logs_write sp); [done|rewrite Ef; apply Hp|]. intros Hnx l Hl. rewrite Ed.
        apply (Hfr q e0 t Hq Ht); [done| |by rewrite <- Ef].
        destruct (same_headers _ _ Hpl) as (_ & _ & Es). by rewrite <- Es.
      * intros a c Hc. cbn in Hc. destruct (decide (a = x)) as [->|Hn].
        -- rewrite lookup_insert_eq in Hc. by injection Hc as <-.
        -- rewrite lookup_insert_ne in Hc by done. by apply Hself.
      * intros a c Ha Hc Hk Hpk. cbn. destruct (Hbuf a c Ha Hc Hk Hpk) as (c' & F1 & F2 & F3 & F4).
        destruct (decide (a = x)) as [->|Hn].
        -- rewrite Hb in F1. injection F1 as <-. exists (set_flag b 0 Bdirty). rewrite lookup_insert_eq, <- F4.
           split; [done|]. by apply sblk_flag.
        -- exists c'. by rewrite lookup_insert_ne.
      * intros a Ha. destruct (decide (is_write a e0)) as [Hw|Hw].
        -- destruct (Hst a Ha Hw) as (b1 & _ & _ & H1 & H2). apply Hx in Hw as ->. unfold has_new, ss_disk. cbn.
           by rewrite Eba, lookup_insert_eq, H1, H2.
        -- unfold ss_disk. cbn. rewrite Eba, lookup_insert_ne; [by rewrite Ef|]. intros ->. by apply Hw, Hx.
Qed.
