(* ===== verification/Crash.v ===== *)
(** * A crash at any point

    What the disk holds while a sync runs: one of the two superblocks always
    has a header in every arena that was written for it, and when it is the
    new one, everything that was queued before it was packed is written.
    Every run of a sync alone with its syncer ends. *)
From stdpp Require Import relations.
From S2P Require Import Prelude CInt Mem Data Hash Pack Super Blk Alloc Io Log Arenas Queue Sync SyncOk.

(** Between two syncs: everything of the last one is on the disk. *)
Record rested (s : Ss) : Prop := {
  rs_layout : layout s;
  rs_logs : logs_safe (ss_fsa s);
  rs_q : qok s;
  rs_syncing : ss_syncing s = 0;
  rs_le : Forall (fun e => qe_qgen e <= ss_qgen s) (qheap s);
  rs_self a b : ss_bufs s !! a = Some b -> bp_addr (b_bp b) = a;
  rs_blocks a : a ∈ statics s -> exists b, ss_bufs s !! a = Some b /\ sblk a b /\ packed b /\ ss_disk s !! a = Some (b_buf b);
  rs_idle a : a ∈ statics s -> nwrites a (qheap s) = 0%nat;
  rs_nofence : nfences (qheap s) = 0%nat }.

Lemma passes_statics s a : a ∈ statics s -> AEnq a ∈ passes s.
Proof.
  intros Ha. unfold passes. rewrite !elem_of_app, !elem_of_cons, !elem_of_app.
  apply elem_statics in Ha as [->|[->|[Ha|Ha]]]; [by right; right; left|by right; right; right; left| |].
  - left. apply list_elem_of_fmap. by exists a.
  - right. right. right. right. right. left. apply list_elem_of_fmap. by exists a.
Qed.

Lemma passes_wait s a : a ∈ wrwait (length (ss_q s)) -> a ∈ passes s.
Proof. intros Ha. unfold passes. rewrite !elem_of_app, !elem_of_cons, !elem_of_app. tauto. Qed.

Lemma phase_init us s0 s1 :
  rested s0 -> 0 <= ss_qgen s0 < 2 ^ 55 -> pack us s0 = Ok s1 -> layout s1 /\ phase s1 s1 (passes s1) 0.
Proof.
  intros [Hly Hlog Hq Hsy Hle Hself Hbl Hid Hnf] Hg Hp.
  destruct (pack_ok us s0 s1 Hp Hly Hlog Hg) as (P1 & P2 & P3 & P4 & P5 & P6 & P7 & P8).
  { intros a Ha. destruct (Hbl a Ha) as (b & H1 & H2 & _). exists b. split; [done|]. split; [done|]. by intros ?%elem_of_nil. }
  assert (Eh : qheap s1 = qheap s0) by (unfold qheap; by rewrite P2).
  destruct (same_headers _ _ P1) as (_ & _ & Est). pose proof (same_layout _ _ P1 Hly) as Hly1. split; [done|].
  assert (Hq1 : qok s1) by (unfold qok; by rewrite P2).
  assert (Hn : length (ss_q s1) = 1%nat) by (destruct Hq1 as (q & -> & _); done).
  assert (Hw : forall a, a ∈ [ASyncing; AFence 0; AWait] -> a ∈ passes s1).
  { intros a Ha. apply passes_wait. rewrite Hn. unfold wrwait. cbn [seq fmap list_fmap app]. set_unfold. tauto. }
  split; rewrite ?Eh; try done.
  - lia.
  - by apply wf_passes.
  - by rewrite P4.
  - intros a b Hb. destruct (decide (a ∈ statics s0)) as [Hs|Hs].
    + destruct (P8 a) as (c & Hc & Hk & _); [by rewrite Est|]. rewrite Hc in Hb. injection Hb as <-. apply Hk.
    + rewrite P6 in Hb by done. by apply Hself.
  - intros a Ha. destruct (P8 a Ha) as (b & H1 & H2 & H3). exists b, b. destruct (H3 ltac:(by rewrite <- Est)) as [? _]. done.
  - intros a Ha. destruct (wf_pc_enq s1 (passes s1) 0 a) as [_ Hs]; [by apply wf_passes|done|]. rewrite Est in Hs. split; [by apply Hid|done].
  - intros a Ha Hni. by destruct Hni; apply passes_statics.
  - intros _. apply passes_statics, elem_statics. tauto.
  - intros Hni. by destruct Hni; apply passes_statics, elem_statics; auto.
  - intros _. split; [done|]. split; [apply Hw; set_unfold; tauto|]. left. apply Hw. set_unfold. tauto.
  - intros _. apply Hw. set_unfold. tauto.
  - intros Hni. destruct Hni. apply Hw. set_unfold. tauto.
  - intros Hni. destruct Hni. apply Hw. set_unfold. tauto.
Qed.

Lemma phase_step us s1 s pc s' pc' n :
  layout s1 -> sstep us (s, pc) (s', pc') -> phase s1 s pc n -> exists n', phase s1 s' pc' n'.
Proof.
  intros Hly Hst Hp. inversion Hst as [a ? ? ? H|i ? ? ? Hh H|a ? ? ? Ha H|bp ? ? ? H|? ? ? Hm]; subst.
  - destruct a; cbn [run_act] in H.
    + injection H as <-. exists (n + 1). by apply phase_bar.
    + by destruct (ph_pc _ _ _ _ Hp).
    + exists n. by eapply phase_enq.
    + injection H as <-. exists n. destruct (ph_q _ _ _ _ Hp) as (q & -> & _). by apply phase_start.
    + exists n. by eapply phase_fence.
    + destruct (Z.eqb_spec (ss_syncing s) 0); [|done]. injection H as <-. exists n. by apply phase_wait.
    + injection H as <-. exists n. by apply phase_free.
  - exists n. by eapply phase_syncer.
  - exists n. by eapply phase_write.
  - exists n. by eapply phase_freed.
  - exists n. destruct Hm as [M1 M2 M3 M4 M5 M6 M7 M8 M9].
    destruct (same_headers _ _ (ph_place _ _ _ _ Hp)) as (_ & _ & Est).
    eapply phase_env; try done.
    + intros a b Ha Hb Hk Hpk. exists b. by rewrite M5 by by rewrite Est.
    + intros a Ha. apply M7. by rewrite Est.
Qed.

Lemma phase_steps us s1 x y : layout s1 -> rtc (sstep us) x y ->
  forall n, phase s1 x.1 x.2 n -> exists n', phase s1 y.1 y.2 n'.
Proof.
  intros Hly. induction 1 as [x|[s pc] [s' pc'] y Hst _ IH]; intros n Hp; [by exists n|].
  destruct (phase_step us s1 s pc s' pc' n Hly Hst Hp) as [n' Hp']. by apply (IH n').
Qed.

(** Queued and taken out of the queue again. *)
Definition written (s : Ss) (pc : list Sact) (a : Z) : Prop := (AEnq a ∉ pc) /\ nwrites a (qheap s) = 0%nat.
#[export] Instance written_dec s pc a : Decision (written s pc a) := _.

(** A block of the sync is as it was or as it will be. *)
Lemma phase_image s1 s pc n a : phase s1 s pc n -> a ∈ statics s1 ->
  if decide (written s pc a) then has_new s1 s a /\ Forall (fun e => ss_qgen s1 + group s1 a <= qe_qgen e) (qheap s)
  else ss_disk s !! a = ss_disk s1 !! a.
Proof.
  intros Hp Ha. destruct (decide (written s pc a)) as [[Hi Hz]|Hw].
  - destruct (ph_done _ _ _ _ Hp a Ha Hi) as (_ & [(? & _)|(_ & ?)]); [lia|done].
  - destruct (decide (AEnq a ∈ pc)) as [Hi|Hi]; [by apply (ph_todo _ _ _ _ Hp)|].
    destruct (ph_done _ _ _ _ Hp a Ha Hi) as (_ & [(_ & ? & _)|(? & _)]); [done|by destruct Hw].
Qed.

(** What is written has the groups before it written. *)
Lemma phase_before s1 s pc n a b : phase s1 s pc n -> a ∈ statics s1 -> b ∈ statics s1 -> group s1 a < group s1 b ->
  written s pc b -> written s pc a.
Proof.
  intros Hp Ha Hb Hlt Hwb. pose proof (phase_image _ _ _ _ b Hp Hb) as Hf. rewrite decide_True in Hf by done. destruct Hf as [_ Hf].
  destruct Hwb as [Hi Hz]. destruct (ph_done _ _ _ _ Hp b Hb Hi) as (Hle & _).
  assert (Hia : AEnq a ∉ pc).
  { intros Hia. destruct (wf_pc_enq _ _ _ _ (ph_pc _ _ _ _ Hp) Hia). lia. }
  split; [done|]. destruct (ph_done _ _ _ _ Hp a Ha Hia) as (_ & [(A1 & _ & A3)|(? & _)]); [exfalso|done].
  destruct (nwrites_some a (qheap s)) as (e & Hin & Hw); [by rewrite A1|].
  rewrite Forall_forall in A3. rewrite Forall_forall in Hf. pose proof (A3 e Hin Hw). pose proof (Hf e Hin). lia.
Qed.

Lemma phase_sb1 s1 s pc n : layout s1 -> phase s1 s pc n -> written s pc (ss_sb1 s1) -> written s pc 0.
Proof.
  intros Hly Hp [Hi Hz]. assert (Hi0 : AEnq 0 ∉ pc) by by intros ?%(ph_sb _ _ _ _ Hp).
  split; [done|]. by apply (ph_sb1 _ _ _ _ Hp).
Qed.

(** C6: at every moment of a sync, whatever the other threads do, the disk
    holds for every header and superblock either the image of the last sync
    or that of this one.  Either the old superblocks and all second headers
    are still there; or the first superblock is new, and then all first
    headers are, nothing that was queued before the snapshot was taken is
    still in the queue, and the second superblock is new unless all second
    headers are old.  So a crash leaves a superblock with a matching header in
    every arena. *)
Theorem crash_consistent us s0 s1 s pc :
  rested s0 -> 0 <= ss_qgen s0 < 2 ^ 55 -> pack us s0 = Ok s1 -> rtc (sstep us) (s1, passes s1) (s, pc) ->
  let old a := ss_disk s !! a = b_buf <$> ss_bufs s0 !! a in
  let new a := ss_disk s !! a = b_buf <$> ss_bufs s1 !! a in
  (forall a, a ∈ statics s0 -> old a \/ new a) /\
  ((old 0 /\ old (ss_sb1 s0) /\ forall f, f ∈ footers s0 -> old f) \/
   (new 0 /\ (forall h, h ∈ headers s0 -> new h) /\ Forall (fun e => ss_qgen s0 < qe_qgen e) (qheap s) /\
    (new (ss_sb1 s0) \/ (old (ss_sb1 s0) /\ forall f, f ∈ footers s0 -> old f)))).
Proof.
  intros Hr Hg Hpk Hst old new. destruct (phase_init us s0 s1 Hr Hg Hpk) as [Hly Hp0].
  destruct (phase_steps us s1 _ _ Hly Hst 0 Hp0) as (n & Hp). cbn [fst snd] in Hp.
  destruct Hr as [Hly0 Hlog Hq Hsy Hle Hself Hbl Hid Hnf].
  destruct (pack_ok us s0 s1 Hpk Hly0 Hlog Hg) as (P1 & _ & _ & P4 & P5 & _ & _ & _).
  { intros a Ha. destruct (Hbl a Ha) as (b & H1 & H2 & _). exists b. split; [done|]. split; [done|]. by intros ?%elem_of_nil. }
  destruct (same_headers _ _ P1) as (Eh & Ef & Est). destruct P1 as [_ E1].
  assert (Hold : forall a, a ∈ statics s0 -> ss_disk s !! a = ss_disk s1 !! a -> old a).
  { intros a Ha E. unfold old. rewrite E, P5 by done. by destruct (Hbl a Ha) as (b & -> & _ & _ & ->). }
  assert (Himg : forall a, a ∈ statics s0 -> if decide (written s pc a)
    then new a /\ Forall (fun e => ss_qgen s1 + group s1 a <= qe_qgen e) (qheap s) else old a).
  { intros a Ha. pose proof (phase_image _ _ _ _ a Hp ltac:(by rewrite Est)) as H. destruct (decide _); [done|by apply Hold]. }
  assert (S0 : 0 ∈ statics s0 /\ ss_sb1 s0 ∈ statics s0) by (split; apply elem_statics; tauto). destruct S0 as [S0 S1].
  assert (G0 : group s1 0 = 1 /\ group s1 (ss_sb1 s0) = 1) by (rewrite <- E1; split; apply group_super; tauto). destruct G0 as [G0 G1].
  (* a second header that is written means written superblocks *)
  assert (Hfoot : forall x f, x ∈ statics s0 -> group s1 x = 1 -> ~ written s pc x -> f ∈ footers s0 -> old f).
  { intros x f Hx Gx Hnx Hf. assert (Hfs : f ∈ statics s0) by (apply elem_statics; tauto).
    pose proof (Himg f Hfs) as H. destruct (decide (written s pc f)) as [Hw|]; [|done]. destruct Hnx.
    apply (phase_before s1 s pc n x f Hp); rewrite ?Est; try done. rewrite Gx, group_footer; [lia|done|by rewrite Ef]. }
  split; [intros a Ha; pose proof (Himg a Ha) as H; destruct (decide _); [right; apply H|by left]|].
  pose proof (Himg 0 S0) as H0. pose proof (Himg _ S1) as H1.
  destruct (decide (written s pc 0)) as [W0|W0].
  - right. destruct H0 as [N0 F0]. split; [done|]. split; [|split].
    + intros h Hh. assert (Hhs : h ∈ statics s0) by (apply elem_statics; tauto). pose proof (Himg h Hhs) as H.
      rewrite decide_True in H; [by apply H|]. apply (phase_before s1 s pc n h 0 Hp); rewrite ?Est; try done.
      rewrite G0, group_header; [lia|by rewrite Eh].
    + eapply Forall_impl; [exact F0|]. cbv beta. lia.
    + destruct (decide (written s pc (ss_sb1 s0))) as [W1|W1]; [left; apply H1|]. right. split; [done|]. intros f Hf. by eapply Hfoot.
  - left. split; [done|]. split; [|intros f Hf; by eapply (Hfoot 0)].
    rewrite decide_False in H1; [done|]. intros Hw. apply W0. rewrite <- E1 in Hw. by eapply phase_sb1.
Qed.

Lemma flushed us s0 s1 s pc :
  rested s0 -> 0 <= ss_qgen s0 < 2 ^ 55 -> pack us s0 = Ok s1 -> rtc (sstep us) (s1, passes s1) (s, pc) -> (AWait ∉ pc) ->
  rested s /\ (forall a, a ∈ statics s0 -> ss_disk s !! a = b_buf <$> ss_bufs s1 !! a) /\ ss_qgen s0 < ss_qgen s.
Proof.
  intros Hr Hg Hpk Hst Hnw. destruct (phase_init us s0 s1 Hr Hg Hpk) as [Hly Hp0].
  destruct (phase_steps us s1 _ _ Hly Hst 0 Hp0) as (n & Hp). cbn [fst snd] in Hp.
  destruct Hr as [Hly0 Hlog Hq Hsy Hle Hself Hbl Hid Hnf].
  destruct (pack_ok us s0 s1 Hpk Hly0 Hlog Hg) as (P1 & _ & _ & P4 & _).
  { intros a Ha. destruct (Hbl a Ha) as (b & H1 & H2 & _). exists b. split; [done|]. split; [done|]. by intros ?%elem_of_nil. }
  destruct (same_headers _ _ P1) as (Eh & Ef & Est).
  pose proof (ph_place _ _ _ _ Hp) as Hpl. destruct (same_headers _ _ Hpl) as (_ & _ & Ess).
  destruct (ph_wait _ _ _ _ Hp Hnw) as [Hnf' Hz]. destruct (ph_fenced _ _ _ _ Hp Hnf') as (Hle3 & [(A1 & _)|(_ & Hs0 & Hge)]); [lia|].
  assert (Hgr : forall a, a ∈ statics s1 -> group s1 a <= 2).
  { intros a _. unfold group. repeat case_decide; lia. }
  assert (Hall : forall a, a ∈ statics s1 -> nwrites a (qheap s) = 0%nat /\ has_new s1 s a).
  { intros a Ha. assert (Hi : AEnq a ∉ pc).
    { intros Hi. destruct (wf_pc_enq _ _ _ _ (ph_pc _ _ _ _ Hp) Hi) as [Hn _]. specialize (Hgr a Ha). lia. }
    destruct (ph_done _ _ _ _ Hp a Ha Hi) as (_ & [(A1 & _ & A3)|(? & ? & _)]); [exfalso|done].
    destruct (nwrites_some a (qheap s)) as (e & Hin & Hw); [by rewrite A1|].
    rewrite Forall_forall in A3. rewrite Forall_forall in Hge. pose proof (A3 e Hin Hw). pose proof (Hge e Hin). specialize (Hgr a Ha). lia. }
  split; [split|split].
  - by apply (same_layout s1).
  - apply Hp.
  - apply Hp.
  - done.
  - apply Hp.
  - apply Hp.
  - intros a Ha. rewrite Ess in Ha. destruct (ph_buf _ _ _ _ Hp a Ha) as (b & b1 & B1 & B2 & B3 & B4 & B5).
    exists b. split; [done|]. split; [done|]. split; [done|]. destruct (Hall a Ha) as [_ Hn]. unfold has_new in Hn. by rewrite Hn, B4, B5.
  - intros a Ha. rewrite Ess in Ha. by apply Hall.
  - done.
  - intros a Ha. apply Hall. by rewrite Est.
  - rewrite (ph_gen _ _ _ _ Hp), P4. lia.
Qed.

(** C8: when [wrwait] returns, every header and superblock on the disk is the
    one of this sync, and the next sync starts as this one did. *)
Theorem sync_flushes us s0 s1 s pc :
  rested s0 -> 0 <= ss_qgen s0 < 2 ^ 55 -> pack us s0 = Ok s1 -> rtc (sstep us) (s1, passes s1) (s, pc) -> (AWait ∉ pc) ->
  rested s /\ (forall a, a ∈ statics s0 -> ss_disk s !! a = b_buf <$> ss_bufs s1 !! a) /\ ss_qgen s0 < ss_qgen s.
Proof. apply flushed. Qed.

(** ** Nothing gets stuck *)

(** The open log block has room for one more entry without a new block. *)
Definition log_room (l : LArena) : Prop :=
  exists tl, l_tl l = Some tl /\ b_logsz (logbuf l tl) < Logspc - Logslop.

(** What pass 0 needs of the superblock's fields. *)
Record sb_ready (s : Ss) : Prop := {
  sr_n : g_narena (ss_fs s) < 512;
  sr_table : zlen (g_arenabp (ss_fs s)) = g_narena (ss_fs s);
  sr_arenas : zlen (f_ar (ss_fsa s)) = g_narena (ss_fs s) }.

Lemma logbarrier_room us l gen d g : log_ok l d g -> 0 <= gen < 2 ^ 55 -> log_room l ->
  exists l' d', logbarrier us l gen d = Ok (l', d').
Proof.
  intros [Hs _ _ _] Hg (tl & Htl & Hz).
  destruct (logappend_room us l (Z.shiftl gen 8) 0 LogSync d g Hs (append_ok_sync _ gen Hg)) as (l' & g' & E & _).
  - pose proof (ls_tl _ _ _ Hs) as Ht. rewrite Htl in Ht. injection Ht as ->. by rewrite <- (lr_logsz _ _ (ls_tail _ _ _ Hs)).
  - by exists l', d.
Qed.

Lemma finalize_total a b : sblk a b -> exists b', finalize b = Ok b'.
Proof. intros [_ Ht Hl Hz _]. apply finalize_ok; [done|done|]. set_unfold. destruct Ht as [-> | ->]; tauto. Qed.

Lemma put_hdr_total p a s l : blocks s l -> a ∈ statics s -> zlen p = 32 -> exists s', put_hdr p a s = Ok s'.
Proof.
  intros Hl Ha Hp. destruct (Hl a Ha) as (b & Hb & Hk & _). unfold put_hdr, blk_at. rewrite Hb. cbn [rbind].
  destruct (wr_ok (b_buf b) (data_off b) p) as (buf & Ew & Hbuf).
  - unfold data_off. destruct (sk_type _ _ Hk) as [-> | ->]; done.
  - rewrite Hp, (sk_len _ _ Hk). unfold data_off. destruct (sk_type _ _ Hk) as [-> | ->]; done.
  - rewrite Ew. cbn [rbind]. destruct (finalize_total a (set_buf b buf)) as (b' & ->); [|by eexists].
    apply sblk_buf; [done|]. apply wr_zlen in Ew. rewrite Ew. apply Hk.
Qed.

Lemma put_super_total a s l : blocks s l -> a ∈ statics s -> g_narena (ss_fs s) < 512 ->
  zlen (g_arenabp (ss_fs s)) = g_narena (ss_fs s) -> exists s', put_super a s = Ok s'.
Proof.
  intros Hl Ha Hn Hz. destruct (Hl a Ha) as (b & Hb & Hk & _). unfold put_super, blk_at. rewrite Hb. cbn [rbind].
  assert (exists buf, packsb (b_buf b) Blksz (ss_fs s) = Ok buf) as (buf & Ew).
  { unfold packsb. rewrite Z.eqb_refl, (proj2 (Z.ltb_lt _ _) Hn), Hz, Z.ltb_irrefl.
    set (p := sb_head (ss_fs s) ++ _). destruct (bufhash_ok p) as (h & -> & _). cbn [rbind].
    destruct (wr_ok (b_buf b) 0 (p ++ PACK64 h)) as (buf & Ew & _); [done| |by exists buf].
    unfold p. rewrite !zlen_app, zlen_sb_head, zlen_ah_table, zlen_PACK64, (sk_len _ _ Hk).
    change Blksz with 16384. pose proof (zlen_nonneg (g_arenabp (ss_fs s))).
    assert (zlen (take (Z.to_nat (g_narena (ss_fs s))) (g_arenabp (ss_fs s))) <= g_narena (ss_fs s)); [|lia].
    unfold zlen in *. rewrite length_take. lia. }
  rewrite Ew. cbn [rbind]. destruct (finalize_total a (set_buf b buf)) as (b' & ->); [|by eexists].
  apply sblk_buf; [done|]. unfold packsb in Ew. inv_ok. destruct (zlen _ <? _); [done|]. bind_inv Ew as h Eh.
  apply wr_zlen in Ew. rewrite Ew. apply Hk.
Qed.

(** One arena, and the fields of the superblock that change. *)
Lemma pack_arena_total us i s l la :
  layout s -> logs_safe (ss_fsa s) -> 0 <= ss_qgen s < 2 ^ 55 -> blocks s l -> f_ar (ss_fsa s) !! i = Some la -> log_room la ->
  Z.of_nat i < zlen (g_arenabp (ss_fs s)) ->
  exists s' x l', pack_arena us i s = Ok s' /\ ss_fs s' = set_arenabp (ss_fs s) x /\ zlen x = zlen (g_arenabp (ss_fs s)) /\
    f_ar (ss_fsa s') = <[i := l']> (f_ar (ss_fsa s)).
Proof.
  intros Hly Hsafe Hg Hl Hi Hroom Hz. unfold pack_arena. rewrite Hi. destruct Hsafe as (gs & Hf & Hsf).
  assert (exists g, gs !! i = Some g) as [g Hgi].
  { apply lookup_lt_is_Some_2. rewrite (fo_len _ _ Hf). by eapply lookup_lt_Some. }
  pose proof (fo_log _ _ Hf _ _ _ Hi Hgi) as Hok.
  destruct (logbarrier_room us la (ss_qgen s) (ss_disk s) g Hok Hg Hroom) as (l1 & d1 & E1).
  pose proof (logbarrier_ok us la (ss_qgen s) (ss_disk s) g Hok Hg) as Hb. rewrite E1 in Hb |- *. cbn [rbind postE] in Hb |- *.
  destruct Hb as (g1 & extra & Hok1 & _). destruct (flushlog_ok l1 d1 g1 Hok1) as (l2 & d2 & g2 & E2 & _).
  rewrite E2. cbn [rbind].
  destruct (log_barrier_ok us i s la l1 d1 l2 d2 Hly ltac:(by exists gs) Hg Hi E1 E2) as (P0 & _ & Eb & Ef & Ea).
  set (s0 := ss_set_fsa _ s) in *. rewrite Ea. destruct (arena_statics _ _ _ Hi) as [Ha1 Ha2].
  unfold packarena. change (Arenasz <=? Blksz) with true. cbn [rbind]. set (p := PACK64 _ ++ _).
  assert (Hp : zlen p = 32) by done. clearbody p.
  destruct (same_headers _ _ (pg_place _ _ P0)) as (_ & _ & Est).
  assert (Hb0 : blocks s0 l) by (apply (blocks_same s); [apply P0|done|done]).
  destruct (put_hdr_total p (a_addr (l_a la)) s0 l Hb0) as (s1 & E3); [by rewrite Est; apply elem_statics; auto|done|].
  rewrite E3. cbn [rbind].
  destruct (put_hdr_ok _ _ _ _ l E3) as (P1 & F1 & G1 & L1); [by rewrite Est; apply elem_statics; auto|done|].
  destruct (same_headers _ _ (pg_place _ _ P1)) as (_ & _ & Est1).
  destruct (put_hdr_total p (a_addr (l_a la) + Blksz) s1 _ L1) as (s2 & E4); [by rewrite Est1, Est; apply elem_statics; auto|done|].
  rewrite E4. cbn [rbind].
  destruct (put_hdr_ok _ _ _ _ (a_addr (l_a la) :: l) E4) as (P2 & F2 & G2 & L2); [by rewrite Est1, Est; apply elem_statics; auto|exact L1|].
  destruct (same_headers _ _ (pg_place _ _ P2)) as (_ & _ & Est2).
  destruct (L2 (a_addr (l_a la))) as (h0 & Hh0 & _); [by rewrite Est2, Est1, Est; apply elem_statics; auto|].
  unfold blk_at. rewrite Hh0. cbn [rbind]. assert (Efs : ss_fs s2 = ss_fs s) by exact (eq_trans G2 (eq_trans G1 Ef)).
  rewrite Efs, (proj2 (Z.leb_gt _ _) Hz). eexists _, _, _. split; [done|]. cbn. split; [done|]. split.
  - unfold zlen. by rewrite length_insert.
  - by rewrite F2, F1.
Qed.

Lemma pack_arenas_total us idx : forall s l,
  layout s -> logs_safe (ss_fsa s) -> 0 <= ss_qgen s < 2 ^ 55 -> blocks s l -> NoDup idx ->
  (forall i, i ∈ idx -> Z.of_nat i < zlen (g_arenabp (ss_fs s)) /\ exists la, f_ar (ss_fsa s) !! i = Some la /\ log_room la) ->
  exists s' x, pack_arenas us idx s = Ok s' /\ ss_fs s' = set_arenabp (ss_fs s) x /\ zlen x = zlen (g_arenabp (ss_fs s)).
Proof.
  induction idx as [|i idx IH]; intros s l Hly Hsafe Hg Hl Hn Hi; cbn [pack_arenas].
  { exists s, (g_arenabp (ss_fs s)). split; [done|]. split; [by destruct (ss_fs s)|done]. }
  apply NoDup_cons in Hn as [Hni Hn]. destruct (Hi i ltac:(left)) as (Hz & la & Hla & Hr).
  destruct (pack_arena_total us i s l la Hly Hsafe Hg Hl Hla Hr Hz) as (s1 & x & l' & E & Ef & Ex & Ea). rewrite E. cbn [rbind].
  destruct (pack_arena_ok _ _ _ _ l E Hly Hsafe Hg Hl) as (P1 & Hs1 & la' & _ & L1).
  destruct (IH s1 _ (same_layout _ _ (pg_place _ _ P1) Hly) Hs1 ltac:(by rewrite (pg_qgen _ _ P1)) L1 Hn) as (s2 & y & E2 & Ef2 & Ey).
  - intros j Hj. destruct (Hi j ltac:(by right)) as (Hzj & lj & Hlj & Hrj). split.
    + rewrite Ef. cbn. by rewrite Ex.
    + exists lj. rewrite Ea, list_lookup_insert_ne by by intros <-. done.
  - exists s2, y. split; [done|]. split; [by rewrite Ef2, Ef|]. rewrite Ey, Ef. cbn. exact Ex.
Qed.

Lemma pack_total us s :
  layout s -> logs_safe (ss_fsa s) -> 0 <= ss_qgen s < 2 ^ 55 -> blocks s [] -> sb_ready s ->
  (forall l, l ∈ f_ar (ss_fsa s) -> log_room l) -> exists s', pack us s = Ok s'.
Proof.
  intros Hly Hsafe Hg Hl [R1 R2 R3] Hr. unfold pack. set (s0 := ss_set_dl _ _).
  assert (P0 : same_place s s0) by by split.
  assert (Hl0 : blocks s0 []) by by apply (blocks_same s).
  destruct (pack_arenas_total us (seq 0 (length (f_ar (ss_fsa s0)))) s0 []) as (s1 & x & E & Ef & Ex);
    [by apply (same_layout s)|done|done|done|apply NoDup_seq| |].
  { intros i Hi%elem_of_seq. change (g_arenabp (ss_fs s0)) with (g_arenabp (ss_fs s)). change (ss_fsa s0) with (ss_fsa s) in *.
    split; [unfold zlen in *; lia|]. destruct (lookup_lt_is_Some_2 (f_ar (ss_fsa s)) i) as [la Hla]; [lia|].
    exists la. split; [done|]. apply Hr. by eapply list_elem_of_lookup_2. }
  rewrite E. cbn [rbind]. rewrite Ef. change (bp_addr (g_dl_hd (set_arenabp (ss_fs s0) x)) =? -1) with true. cbv iota.
  destruct (pack_arenas_ok us _ s0 s1 [] E) as (P1 & _ & l1 & L1 & _); [by apply (same_layout s)|done|done|done|].
  assert (Hn1 : g_narena (ss_fs s1) < 512 /\ zlen (g_arenabp (ss_fs s1)) = g_narena (ss_fs s1)).
  { rewrite Ef. cbn. split; [done|]. by rewrite Ex. }
  destruct Hn1 as [Hn1 Hn2].
  destruct (put_super_total 0 s1 l1 L1) as (s2 & E2); [apply elem_statics; auto|done|done|]. rewrite E2. cbn [rbind].
  destruct (put_super_ok _ _ _ l1 E2) as (P2 & _ & F2 & L2); [apply elem_statics; auto|done|].
  apply (put_super_total _ s2 _ L2); [apply elem_statics; auto|by rewrite F2|by rewrite F2].
Qed.

Definition final (b : Blk) : Prop := Z.testbit (b_flag b) 1 = true.

(** A sync that runs alone with its syncer, after pass 0: what is queued is
    its own, and what it still has to queue may be queued. *)
Record going (s1 s : Ss) (pc : list Sact) : Prop := {
  gn_phase : exists n, phase s1 s pc n;
  gn_q : exists q, ss_q s = [q] /\ heap (q_heap q) /\ 0 < q_heapsz q;
  gn_dirty a : AEnq a ∈ pc -> exists b, ss_bufs s !! a = Some b /\ dirty b;
  gn_heap : Forall (fun e => is_fence e \/
    exists a b, a ∈ statics s1 /\ is_write a e /\ ss_bufs s !! a = Some b /\ final b) (qheap s) }.

Definition aligned_statics (s : Ss) : Prop := forall a, a ∈ statics s -> 0 <= a /\ a mod Blksz = 0.

Lemma queue_of_ok s a : layout s -> a ∈ statics s -> length (ss_q s) = 1%nat -> queue_of s a = Ok 0%nat.
Proof.
  intros Hl Ha Hq. unfold queue_of. rewrite Hq.
  assert (exists i, getarena (S (S (length (arenas s)))) (arenas s) 0 (ss_sb1 s) a = Ok i) as (i & ->).
  { destruct (decide (a = 0)) as [->|N0]; [by eexists|]. destruct (decide (a = ss_sb1 s)) as [->|N1].
    { unfold getarena. rewrite Z.eqb_refl. destruct (ss_sb1 s =? 0); by eexists. }
    assert (exists x, x ∈ arenas s /\ inside x a) as (x & Hx & Hin).
    { apply elem_statics in Ha as [?|[?|[(x & Hx & ->)%elem_headers|(x & Hx & ->)%elem_footers]]]; [done|done|exists x..]; (split; [done|]);
        destruct (layout_arena _ _ Hl Hx) as (_ & _ & ?); unfold inside; change Blksz with 16384; lia. }
    apply list_elem_of_lookup in Hx as [j Hj].
    destruct (getarena_correct (arenas s) 0 (ss_sb1 s) a j x (S (S (length (arenas s)))) (ly_contiguous _ Hl) Hj Hin N0 N1) as (r & -> & _);
      [unfold zlen; lia|]. by eexists. }
  cbn [rbind]. by rewrite Nat.mod_1_r.
Qed.

Lemma head_static s e : is_write (bp_addr (qe_bp e)) e -> bp_addr (qe_bp e) ∈ statics s -> head_ok s e.
Proof. intros [E _] Ha. split; [by rewrite E|done]. Qed.

Lemma head_fence s e : is_fence e -> head_ok s e.
Proof. unfold is_fence. intros E. split; rewrite E; done. Qed.

Lemma dirty_flags a b : sblk a b -> dirty b -> checkflag (b_flag b) Bdirty (Z.lor Bqueued Bstatic) = true.
Proof.
  intros Hk Hd. unfold checkflag. apply Z.eqb_eq. change (Z.lor Bdirty (Z.lor Bqueued Bstatic)) with 81. change Bdirty with 1.
  apply Z.bits_inj'. intros i Hi. rewrite Z.land_spec.
  pose proof (sk_flags _ _ Hk 4 ltac:(auto)) as H4. pose proof (sk_flags _ _ Hk 6 ltac:(auto)) as H6.
  destruct (decide (i = 0)) as [->|N0]; [by rewrite Hd|]. destruct (decide (i = 4)) as [->|N4]; [by rewrite H4|].
  destruct (decide (i = 6)) as [->|N6]; [by rewrite H6|].
  change 81 with (Z.lor (2 ^ 0) (Z.lor (2 ^ 4) (2 ^ 6))). rewrite !Z.lor_spec, !Z.pow2_bits_false by done.
  change 1 with (2 ^ 0). rewrite Z.pow2_bits_false by done. by rewrite andb_false_r.
Qed.

Lemma final_check b : final b -> checkflag (b_flag b) Bfinal 0 = true.
Proof.
  intros Hb. unfold checkflag. rewrite Z.lor_0_r. apply Z.eqb_eq, Z.bits_inj'. intros i Hi. rewrite Z.land_spec. change Bfinal with (2 ^ 1).
  destruct (decide (i = 1)) as [->|Hn]; [by rewrite Hb|rewrite Z.pow2_bits_false by done; by rewrite andb_false_r].
Qed.

(** Taking the dirty or the queued mark off. *)
Lemma final_setflag b c : final b -> Z.testbit c 1 = false -> final (set_flag b 0 c).
Proof.
  unfold final. intros Hb Hc. change (Z.testbit (setflag (b_flag b) 0 c) 1 = true). by rewrite setflag_bit, Hb, Hc by done.
Qed.

Lemma finalize_final a b b0 : sblk a b -> finalize b = Ok b0 -> final b0.
Proof.
  intros Hk Hf. destruct (finalize_static _ _ _ Hk Hf) as (_ & _ & _ & _ & E). unfold final. rewrite E, setflag_bit by done.
  change (Z.testbit (Z.lor Bdirty Bfinal) 1) with true. apply orb_true_r.
Qed.

(** What may be put is put, or the queue is full. *)
Lemma put_runs s q qe : ss_q s = [q] -> heap (q_heap q) -> qe_ok (ss_syncing s) qe ->
  (zlen (q_heap q) = q_heapsz q /\ put_ent 0 qe s = Ok None) \/
  exists h, put_ent 0 qe s = Ok (Some (ss_set_q [mkSyncq h (q_heapsz q)] s)) /\ heap h /\
    h ≡ₚ stamped (ss_qgen s) qe :: q_heap q.
Proof.
  intros Hq Hh Hok. unfold put_ent. rewrite Hq. cbn [lookup list_lookup].
  pose proof (qput_spec (ss_qgen s) (ss_syncing s) q qe Hh Hok) as Hs. destruct (Z.eqb_spec (zlen (q_heap q)) (q_heapsz q)) as [E|_].
  - left. split; [done|]. by rewrite Hs.
  - right. destruct Hs as (h & E & Hh' & Hp). exists h. by rewrite E.
Qed.

(** [enqueue] of a block of the sync. *)
Lemma enq_runs s1 s pc a q : layout s1 -> aligned_statics s1 -> going s1 s (AEnq a :: pc) -> ss_q s = [q] -> heap (q_heap q) ->
  (zlen (q_heap q) = q_heapsz q /\ enqueue a s = Ok None) \/
  exists b0 h, enqueue a s = Ok (Some (ss_set_q [mkSyncq h (q_heapsz q)] (put_at a b0 s))) /\ final b0 /\ heap h /\
    h ≡ₚ mkQent (ss_qgen s) (b_bp b0) (Some b0) Qwrite :: q_heap q /\ bp_addr (b_bp b0) = a /\ a ∈ statics s1.
Proof.
  intros Hly Hal [(n & Hp) _ Hd _] Hq Hh.
  destruct (wf_pc_enq _ _ _ _ (ph_pc _ _ _ _ Hp) ltac:(left)) as [_ Ha]. destruct (Hal a Ha) as [Ha0 Ham].
  destruct (ph_buf _ _ _ _ Hp a Ha) as (b & b1 & Hb & Hk & _). destruct (Hd a ltac:(left)) as (b' & Hb' & Hdir).
  rewrite Hb in Hb'. injection Hb' as <-.
  destruct (same_headers _ _ (ph_place _ _ _ _ Hp)) as (_ & _ & Est).
  pose proof (same_layout _ _ (ph_place _ _ _ _ Hp) Hly) as Hlys.
  destruct (finalize_total a b Hk) as (b0 & Hf). destruct (finalize_static _ _ _ Hk Hf) as (Hk0 & _).
  unfold enqueue, blk_at. rewrite Hb. cbn [rbind]. rewrite (dirty_flags a b Hk Hdir), (sk_addr _ _ Hk), (proj2 (Z.leb_le _ _) Ha0), Hf.
  cbn [rbind]. rewrite (sk_addr _ _ Hk0), queue_of_ok by (rewrite ?Est, ?Hq; done). cbn [rbind].
  destruct (put_runs (put_at a b0 s) q (mkQent 0 (b_bp b0) (Some b0) Qwrite) Hq Hh) as [[E1 E2]|(h & E & Hh' & Hp')].
  - left. split; [by right|]. cbn. by rewrite (sk_addr _ _ Hk0).
  - left. done.
  - right. exists b0, h. split; [exact E|]. split; [exact (finalize_final a b b0 Hk Hf)|]. split; [done|]. split; [exact Hp'|].
    by rewrite (sk_addr _ _ Hk0).
Qed.

Lemma dirty_flag b c : dirty b -> Z.testbit c 0 = false -> dirty (set_flag b 0 c).
Proof.
  unfold dirty. intros Hb Hc. change (Z.testbit (setflag (b_flag b) 0 c) 0 = true). by rewrite setflag_bit, Hb, Hc by done.
Qed.

(** What the syncer does to the blocks when it handles [e]. *)
Definition marks (s s' : Ss) (e : Qent) : Prop := forall x b, ss_bufs s !! x = Some b ->
  exists b', ss_bufs s' !! x = Some b' /\ (final b -> final b') /\ (~ is_write x e -> dirty b -> dirty b').

Lemma clear_marks s q e e0 : qe_bp e = qe_bp e0 ->
  marks s (clear_queued e (ss_set_q q s)) e0 /\
  forall a b, ss_bufs s !! a = Some b -> sblk a b -> packed b ->
    exists b', ss_bufs (clear_queued e (ss_set_q q s)) !! a = Some b' /\ sblk a b' /\ (final b -> final b').
Proof.
  intros Ee. unfold marks, clear_queued. destruct (qe_b e) as [bq|]; cbn [ss_set_bufs ss_set_q ss_bufs].
  - split; intros x b Hb; [|intros Hk Hpk]; (destruct (decide (bp_addr (qe_bp e) = x)) as [<-|Hn];
      [rewrite lookup_alter_eq, Hb; exists (set_flag b 0 Bqueued); split; [done|]|rewrite lookup_alter_ne by done; by exists b]).
    + split; [intros Hf; by apply final_setflag|intros _ Hd; by apply dirty_flag].
    + split; [by apply sblk_flag|]. intros Hf. by apply final_setflag.
  - split; intros x b Hb; [|intros Hk Hpk]; by exists b.
Qed.

(** The syncer takes the first entry and handles it. *)
Lemma syncer_runs us s1 s pc : going s1 s pc -> aligned_statics s1 -> qheap s <> [] ->
  exists s' e q h, runsync us 0 s = Ok (Some s') /\ ss_q s = [q] /\ ss_q s' = [mkSyncq h (q_heapsz q)] /\
    heap h /\ qheap s ≡ₚ e :: h /\ head_ok s e /\ (exists t, q_heap q = e :: t) /\ marks s s' e.
Proof.
  intros [(n & Hp) (q & Hq & Hh & Hz) _ Hall] Hal Hne. pose proof (qpop_spec q Hh) as Hs.
  assert (Ehs : qheap s = q_heap q) by (unfold qheap; by rewrite Hq). rewrite Ehs in Hne, Hall |- *.
  destruct (q_heap q) as [|e t] eqn:Eq; [done|]. destruct Hs as (h & E & Hh' & HP & _).
  destruct (clear_marks s [mkSyncq h (q_heapsz q)] (unqueue e) e eq_refl) as [Hm Hsb].
  set (sp := clear_queued (unqueue e) (ss_set_q [mkSyncq h (q_heapsz q)] s)) in *.
  assert (Ep : pop_ent 0 s = Ok (Some (unqueue e, sp))).
  { unfold pop_ent. rewrite Hq. cbn [lookup list_lookup]. by rewrite E. }
  assert (Eqp : ss_q sp = [mkSyncq h (q_heapsz q)]) by (unfold sp, clear_queued; by destruct (qe_b (unqueue e))).
  apply Forall_cons in Hall as [He _]. unfold runsync. rewrite Ep. cbn [rbind]. unfold handle_ent.
  change (qe_op (unqueue e)) with (qe_op e). change (qe_bp (unqueue e)) with (qe_bp e).
  destruct He as [Hfe|(a & b & Ha & [Ho Ex] & Hb & Hfin)].
  - pose proof (head_fence s e Hfe) as Hok. unfold is_fence in Hfe. rewrite Hfe. change (Qfence =? Qfree) with false.
    change (Qfence =? Qfence) with true. cbv iota. cbn [rbind]. eexists _, e, q, h. do 4 (split; [done|]).
    split; [by rewrite HP|]. split; [done|]. split; [by exists t|exact Hm].
  - destruct (ph_buf _ _ _ _ Hp a Ha) as (c & _ & Hc & Hk & Hpk & _). rewrite Hb in Hc. injection Hc as <-.
    destruct (Hsb a b Hb Hk Hpk) as (b' & Hb' & Hk' & Hf'). specialize (Hf' Hfin). destruct (Hal a Ha) as [Ha0 _].
    rewrite Ho. change (Qwrite =? Qfree) with false. change (Qwrite =? Qfence) with false.
    change (Qwrite =? Qwrite) with true. cbv iota. rewrite Ex. unfold blk_at. rewrite Hb'. cbn [rbind].
    destruct (checkflag (b_flag b') Bfreed Bstatic) eqn:Ec; [apply freed_bit in Ec; rewrite (sk_flags _ _ Hk') in Ec by auto; done|].
    unfold syncblk. rewrite (final_check _ Hf'), (sk_addr _ _ Hk'), (proj2 (Z.leb_le _ _) Ha0). cbn [rbind].
    eexists _, e, q, h. do 4 (split; [done|]). split; [by rewrite HP|].
    split; [|split; [by exists t|]].
    { apply head_static; [by split|]. rewrite Ex. by destruct (same_headers _ _ (ph_place _ _ _ _ Hp)) as (_ & _ & ->). }
    intros x d Hd. cbn. destruct (decide (x = a)) as [->|Hn].
    + rewrite lookup_insert_eq. eexists. split; [done|]. split; [intros _; by apply (final_setflag b' Bdirty)|].
      intros Hnw. by destruct Hnw.
    + rewrite lookup_insert_ne by done. exact (Hm x d Hd).
Qed.

(** ** Every run of a sync *)

(** The sync and its syncer, and nobody else. *)
Inductive alone (us : bool) : Ss * list Sact -> Ss * list Sact -> Prop :=
  | al_act a pc s s' : run_act us a s = Ok (Some s') -> alone us (s, a :: pc) (s', pc)
  | al_syncer i pc s s' : runsync us i s = Ok (Some s') -> alone us (s, pc) (s', pc).

(** The next action, or the syncer, runs into a failed assertion or out of
    an array. *)
Definition failing (us : bool) (x : Ss * list Sact) : Prop :=
  (exists a pc e, x.2 = a :: pc /\ run_act us a x.1 = Err e) \/
  (exists i e, (i < length (ss_q x.1))%nat /\ runsync us i x.1 = Err e).

(** Steps that are left: an action queues at most one entry. *)
Definition todo (x : Ss * list Sact) : nat := 2 * length x.2 + length (qheap x.1).

Lemma marks_heap s1 s s' e h : marks s s' e ->
  Forall (fun e => is_fence e \/ exists a b, a ∈ statics s1 /\ is_write a e /\ ss_bufs s !! a = Some b /\ final b) h ->
  Forall (fun e => is_fence e \/ exists a b, a ∈ statics s1 /\ is_write a e /\ ss_bufs s' !! a = Some b /\ final b) h.
Proof.
  intros Hm Hf. eapply Forall_impl; [exact Hf|]. intros x [?|(a & b & Ha & Hw & Hb & Hbf)]; [by left|right].
  destruct (Hm a b Hb) as (b' & ? & Hk & _). exists a, b'. auto.
Qed.

Lemma alone_syncer us s1 s s' pc i : layout s1 -> aligned_statics s1 -> going s1 s pc -> runsync us i s = Ok (Some s') ->
  sstep us (s, pc) (s', pc) /\ going s1 s' pc /\ (todo (s', pc) < todo (s, pc))%nat.
Proof.
  intros Hly Hal Hg Hr. pose proof Hg as [(n & Hp) (q0 & Hq0 & _ & Hz) Hd Hall].
  assert (i = 0%nat) as ->.
  { unfold runsync, pop_ent in Hr. rewrite Hq0 in Hr. by destruct i. }
  assert (Hne : qheap s <> []).
  { unfold qheap. rewrite Hq0. intros En. unfold runsync, pop_ent, qpop in Hr. rewrite Hq0 in Hr. cbn [lookup list_lookup] in Hr.
    by rewrite En in Hr. }
  destruct (syncer_runs us s1 s pc Hg Hal Hne) as (t & e & q & h & E & Hq & Hq' & Hh & HP & Hok & (tl & Etl) & Hm).
  rewrite Hr in E. injection E as <-. rewrite Hq in Hq0. injection Hq0 as <-.
  assert (Hst : sstep us (s, pc) (s', pc)).
  { apply (st_syncer us 0); [|exact Hr]. intros q1 e1 t1. rewrite Hq. intros [= <-]. rewrite Etl. by intros [= <- <-]. }
  assert (Eh : qheap s' = h) by (unfold qheap; by rewrite Hq'). split; [done|]. split; [split|].
  - destruct (phase_step us s1 _ _ _ _ n Hly Hst Hp) as (n' & Hp'). by exists n'.
  - by exists (mkSyncq h (q_heapsz q)).
  - intros a Ha. destruct (Hd a Ha) as (b & Hb & Hbd). destruct (Hm a b Hb) as (b' & Hb' & _ & Hkeep). exists b'. split; [done|].
    apply Hkeep; [|done]. eapply nwrites_none; [apply (ph_todo _ _ _ _ Hp a Ha)|]. rewrite HP. left.
  - rewrite Eh. eapply marks_heap; [exact Hm|]. rewrite HP in Hall. by apply Forall_cons in Hall as [_ ?].
  - unfold todo. cbn [fst snd]. rewrite Eh, HP. cbn. lia.
Qed.

(** An action that puts nothing into the queue. *)
Lemma alone_passive s1 s s' pc a : going s1 s (a :: pc) -> (exists n, phase s1 s' pc n) -> ss_q s' = ss_q s -> ss_bufs s' = ss_bufs s ->
  going s1 s' pc /\ (todo (s', pc) < todo (s, a :: pc))%nat.
Proof.
  intros [_ Hq Hd Hall] Hp Eq Eb. assert (Eh : qheap s' = qheap s) by (unfold qheap; by rewrite Eq). split; [split|].
  - done.
  - by rewrite Eq.
  - intros x Hx. rewrite Eb. apply Hd. by right.
  - by rewrite Eh, Eb.
  - unfold todo. cbn. rewrite Eh. lia.
Qed.

Lemma alone_act us s1 s s' pc a : layout s1 -> aligned_statics s1 -> going s1 s (a :: pc) -> run_act us a s = Ok (Some s') ->
  sstep us (s, a :: pc) (s', pc) /\ going s1 s' pc /\ (todo (s', pc) < todo (s, a :: pc))%nat.
Proof.
  intros Hly Hal Hg Hr. pose proof Hg as [(n & Hp) (q & Hq & Hh & Hz) Hd Hall].
  assert (Hst : sstep us (s, a :: pc) (s', pc)) by by apply st_act. split; [done|].
  assert (Hp' : exists n', phase s1 s' pc n') by by eapply phase_step. pose proof (ph_pc _ _ _ _ Hp) as Hpc.
  destruct a; cbn [run_act] in Hr; try by (eapply alone_passive; [exact Hg|exact Hp'|..]; first [by injection Hr as <-|by destruct (ss_syncing s =? 0); [injection Hr as <-|]]).
  - done.
  - destruct (enq_runs s1 s pc a q Hly Hal Hg Hq Hh) as [[_ E]|(b0 & h & E & Hf & Hh' & HP & Ead & Ha)]; [congruence|].
    rewrite Hr in E. injection E as ->. destruct Hpc as (_ & _ & _ & Hna & _). set (e := mkQent _ _ _ _) in HP.
    assert (Hm : forall x b, ss_bufs s !! x = Some b -> exists b', <[a := b0]> (ss_bufs s) !! x = Some b' /\ (final b -> final b')).
    { intros x b Hb. destruct (decide (x = a)) as [->|Hn]; [exists b0; by rewrite lookup_insert_eq|exists b; by rewrite lookup_insert_ne]. }
    split; [split|].
    + done.
    + by exists (mkSyncq h (q_heapsz q)).
    + intros x Hx. destruct (Hd x ltac:(by right)) as (b & Hb & Hbd). exists b. split; [|done]. cbn.
      rewrite lookup_insert_ne; [done|]. by intros ->.
    + unfold qheap in Hall. rewrite Hq in Hall. change (qheap _) with h. rewrite HP. apply Forall_cons. split.
      * right. exists a, b0. split; [done|]. split; [by split|]. split; [|done]. apply lookup_insert_eq.
      * eapply Forall_impl; [exact Hall|]. intros x [?|(y & b & Hy & Hw & Hb & Hbf)]; [by left|right].
        destruct (Hm y b Hb) as (b' & Hb' & Hk). exists y, b'. auto.
    + unfold todo. cbn [fst snd]. change (qheap (ss_set_q _ _)) with h. rewrite HP. unfold qheap. rewrite Hq. cbn. lia.
  - destruct (put_ent_ok _ _ _ _ Hr) as (_ & HP & Es); [by exists q|]. set (e := stamped _ _) in HP.
    unfold put_ent in Hr. destruct (ss_q s !! i) as [q0|] eqn:Ei; [|done]. rewrite Hq in Ei. destruct i; [|done]. injection Ei as <-.
    bind_inv Hr as r Er. destruct r as [q'|]; [|done]. injection Hr as Hr.
    assert (Eq' : ss_q s' = [q']) by (rewrite <- Hr; cbn; by rewrite Hq). rewrite Eq' in Es.
    destruct (qput_inv _ _ _ _ _ Er Hh) as [Hh' _].
    assert (Ez : q_heapsz q' = q_heapsz q).
    { unfold qput in Er. apply rbind_ok in Er as (u & _ & Er). destruct (zlen _ =? _); [done|]. bind_inv Er as h0 Eh0. by injection Er as <-. }
    split; [split|].
    + done.
    + exists q'. rewrite Ez. done.
    + intros x Hx. rewrite Es. apply Hd. by right.
    + rewrite HP. apply Forall_cons. split; [by left|]. by rewrite Es.
    + unfold todo. cbn [fst snd]. rewrite HP. cbn. lia.
Qed.

(** Nothing fails, and nothing waits for ever. *)
Lemma alone_lives us s1 s pc : layout s1 -> aligned_statics s1 -> going s1 s pc ->
  ~ failing us (s, pc) /\ ((exists y, alone us (s, pc) y) \/ (pc = [] /\ qheap s = [])).
Proof.
  intros Hly Hal Hg. pose proof Hg as [(n & Hp) (q & Hq & Hh & Hz) Hd Hall].
  assert (Ehs : qheap s = q_heap q) by (unfold qheap; by rewrite Hq).
  assert (Hsy : qheap s <> [] -> exists s', runsync us 0 s = Ok (Some s')).
  { intros Hne. destruct (syncer_runs us s1 s pc Hg Hal Hne) as (s' & _ & _ & _ & E & _). by exists s'. }
  assert (Hput : forall qe, qe_ok (ss_syncing s) qe -> (exists r, put_ent 0 qe s = Ok (Some r)) \/ (put_ent 0 qe s = Ok None /\ qheap s <> [])).
  { intros qe Hok. destruct (put_runs s q qe Hq Hh Hok) as [[E1 E2]|(h & E & _)]; [right|left; by eexists]. split; [done|].
    rewrite Ehs. intros En. rewrite En in E1. unfold zlen in E1. cbn in E1. lia. }
  pose proof (ph_pc _ _ _ _ Hp) as Hpc.
  assert (Hact : forall a pc', pc = a :: pc' -> (exists r, run_act us a s = Ok (Some r)) \/ (run_act us a s = Ok None /\ qheap s <> [])).
  { intros a pc' ->. destruct a; cbn [run_act]; try done; try (left; by eexists).
    - destruct (enq_runs s1 s pc' a q Hly Hal Hg Hq Hh) as [[E1 E2]|(b0 & h & E & _)]; [right|left; by eexists]. split; [done|].
      rewrite Ehs. intros En. rewrite En in E1. unfold zlen in E1. cbn in E1. lia.
    - destruct Hpc as (_ & -> & _). apply Hput. right. split; [done|].
      destruct (ph_fence _ _ _ _ Hp ltac:(left)) as (_ & _ & [F3|F3]); [|by rewrite F3].
      pose proof (ph_pc _ _ _ _ Hp) as (_ & _ & _ & _ & W5 & _). by rewrite elem_cons_ne in F3.
    - destruct Hpc as [_ Hnf]. destruct (ph_fenced _ _ _ _ Hp) as (_ & [(A1 & _)|(_ & A2 & _)]); [by rewrite elem_cons_ne| |].
      + destruct (ss_syncing s =? 0); [left; by eexists|right]. split; [done|]. intros En. by rewrite En in A1.
      + left. rewrite A2. by eexists. }
  split.
  - intros [(a & pc' & e & Epc & E)|(i & e & Hi & E)]; cbn [fst snd] in *.
    + destruct (Hact a pc' Epc) as [[r Hr]|[Hr _]]; congruence.
    + rewrite Hq in Hi. destruct i; [|cbn in Hi; lia]. destruct (decide (qheap s = [])) as [En|Hne].
      * unfold runsync, pop_ent, qpop in E. rewrite Hq in E. cbn [lookup list_lookup] in E. rewrite Ehs in En. by rewrite En in E.
      * destruct (Hsy Hne) as [s' E']. congruence.
  - destruct pc as [|a pc'].
    + destruct (decide (qheap s = [])) as [En|Hne]; [by right|left]. destruct (Hsy Hne) as [s' E']. eexists. by eapply al_syncer.
    + left. destruct (Hact a pc' eq_refl) as [[r Hr]|[_ Hne]]; [eexists; by apply al_act|].
      destruct (Hsy Hne) as [s' E']. eexists. by eapply al_syncer.
Qed.

Definition idle (s : Ss) : Prop := exists q, ss_q s = [q] /\ q_heap q = [] /\ 0 < q_heapsz q.

Lemma rested_blocks s : rested s -> blocks s [].
Proof.
  intros Hr a Ha. destruct (rs_blocks _ Hr a Ha) as (b & H1 & H2 & _). exists b. split; [done|]. split; [done|].
  by intros ?%elem_of_nil.
Qed.

Lemma pack_going us s0 s1 : rested s0 -> 0 <= ss_qgen s0 < 2 ^ 55 -> idle s0 -> pack us s0 = Ok s1 -> going s1 s1 (passes s1).
Proof.
  intros Hr Hg (q & Hq & He & Hz) Hpk. destruct (phase_init us s0 s1 Hr Hg Hpk) as [Hly Hp].
  destruct (pack_ok us s0 s1 Hpk (rs_layout _ Hr) (rs_logs _ Hr) Hg (rested_blocks _ Hr)) as (P1 & P2 & _ & _ & _ & _ & _ & P8).
  destruct (same_headers _ _ P1) as (_ & _ & Est). split.
  - by exists 0.
  - exists q. rewrite P2, He. split; [done|]. split; [|done]. intros j x y _ Hx. by destruct (parent j).
  - intros a Ha. destruct (wf_pc_enq _ _ _ _ (ph_pc _ _ _ _ Hp) Ha) as [_ Hs].
    destruct (P8 a Hs) as (b & H1 & _ & H3). exists b. split; [done|]. apply H3. by rewrite <- Est.
  - unfold qheap. by rewrite P2, Hq, He.
Qed.

(** Along a run, the steps done and the steps left are bounded. *)
Lemma alone_run us s1 s pc : layout s1 -> aligned_statics s1 -> going s1 s pc ->
  forall k y, nsteps (alone us) k (s, pc) y ->
    rtc (sstep us) (s, pc) y /\ going s1 y.1 y.2 /\ (k + todo y <= todo (s, pc))%nat.
Proof.
  intros Hly Hal Hg k. revert s pc Hg. induction k as [|k IH]; intros s pc Hg y Hy; inversion Hy as [|? ? z ? Hz Hzy]; subst.
  - split; [done|]. split; [done|]. lia.
  - assert (sstep us (s, pc) z /\ going s1 z.1 z.2 /\ (todo z < todo (s, pc))%nat) as (S1 & S2 & S3).
    { inversion Hz; subst; [by eapply alone_act|by eapply alone_syncer]. }
    destruct z as [t pt]. destruct (IH t pt S2 y Hzy) as (R1 & R2 & R3). split; [by eapply rtc_l|]. split; [done|]. lia.
Qed.

(** So it can be run to its end. *)
Lemma alone_ends us s1 s pc : layout s1 -> aligned_statics s1 -> going s1 s pc ->
  exists s', rtc (sstep us) (s, pc) (s', []) /\ going s1 s' [] /\ qheap s' = [].
Proof.
  intros Hly Hal. remember (todo (s, pc)) as m eqn:Em. revert s pc Em. induction (lt_wf m) as [m _ IH]. intros s pc -> Hg.
  destruct (alone_lives us s1 s pc Hly Hal Hg) as (_ & [([t pt] & Hy)|[-> He]]); [|by exists s].
  destruct (alone_run us s1 s pc Hly Hal Hg 1 (t, pt)) as (R1 & R2 & R3); [by apply nsteps_once|].
  destruct (IH (todo (t, pt)) ltac:(lia) t pt eq_refl R2) as (s' & S1 & S2 & S3). exists s'. split; [by etrans|done].
Qed.

Lemma rested_bar s : rested s -> rested (wrbarrier s).
Proof.
  intros []. split; try done; [by apply (same_layout s)|]. eapply Forall_impl; [exact rs_le0|].
  intros e He. change (ss_qgen (wrbarrier s)) with (ss_qgen s + 1). change (qe_qgen e <= ss_qgen s) in He. lia.
Qed.

(** Before pass 0 there is one way to go. *)
Lemma alone_first us s a pc y : idle s -> alone us (s, a :: pc) y -> exists s', run_act us a s = Ok (Some s') /\ y = (s', pc).
Proof.
  intros (q & Hq & He & _) Hy. inversion Hy as [? ? ? s' Hr|i ? ? s' Hr]; subst; [by exists s'|].
  unfold runsync, pop_ent, qpop in Hr. rewrite Hq in Hr. destruct i; [|done]. cbn [lookup list_lookup] in Hr. by rewrite He in Hr.
Qed.

Lemma idle_syncer us s i e : idle s -> (i < length (ss_q s))%nat -> runsync us i s <> Err e.
Proof.
  intros (q & Hq & He & _) Hi Hr. unfold runsync, pop_ent, qpop in Hr. rewrite Hq in Hi, Hr. destruct i; [|cbn in Hi; lia].
  cbn [lookup list_lookup] in Hr. by rewrite He in Hr.
Qed.

Lemma idle_todo s pc : idle s -> todo (s, pc) = (2 * length pc)%nat.
Proof. intros (q & Hq & He & _). unfold todo, qheap. cbn [fst snd]. rewrite Hq, He. cbn. lia. Qed.

Lemma nsteps_cases {A} (R : relation A) k (x z : A) : nsteps R k x z ->
  (k = 0%nat /\ z = x) \/ exists j y, k = S j /\ R x y /\ nsteps R j y z.
Proof. intros H. inversion H as [|j ? y ? H1 H2]; subst; [by left|right]. by exists j, y. Qed.

(** The state after pass 0. *)
Lemma sync_packs us s : rested s -> 0 <= ss_qgen s < 2 ^ 55 - 1 -> idle s -> sb_ready s ->
  (forall l, l ∈ f_ar (ss_fsa s) -> log_room l) -> aligned_statics s ->
  exists s1, pack us (wrbarrier s) = Ok s1 /\ layout s1 /\ aligned_statics s1 /\ going s1 s1 (passes s1) /\
    passes s = passes s1 /\ idle s1.
Proof.
  intros Hr Hg Hi Hsb Hroom Hal. pose proof (rested_bar s Hr) as Hr0. set (s0 := wrbarrier s) in *.
  assert (Hg0 : 0 <= ss_qgen s0 < 2 ^ 55) by (change (ss_qgen s0) with (ss_qgen s + 1); lia).
  assert (R0 : sb_ready s0) by by destruct Hsb.
  destruct (pack_total us s0 (rs_layout _ Hr0) (rs_logs _ Hr0) Hg0 (rested_blocks _ Hr0) R0 Hroom) as (s1 & Hpk).
  pose proof (pack_going us s0 s1 Hr0 Hg0 Hi Hpk) as Hgo. destruct (phase_init us s0 s1 Hr0 Hg0 Hpk) as [Hly _].
  destruct (pack_ok us s0 s1 Hpk (rs_layout _ Hr0) (rs_logs _ Hr0) Hg0 (rested_blocks _ Hr0)) as (P1 & P2 & _).
  destruct (same_headers _ _ P1) as (Eh & Ef & Est). exists s1. do 2 (split; [done|]).
  split; [intros a Ha; rewrite Est in Ha; by apply Hal|]. split; [done|]. split.
  - unfold passes. rewrite Eh, Ef, P2. by destruct P1 as [_ ->].
  - unfold idle. by rewrite P2.
Qed.

(** C9: every run of a sync ends, and ends well.  The sync starts between
    two syncs with an empty queue (of any size above 0), the room in the open
    log blocks and the superblock that the barrier needs, the headers on
    block boundaries, and nobody but its syncer runs beside it.  However the
    two interleave, a run has at most twice as many steps as the sync has
    actions; no assertion fails on the way; while the sync has something left
    to do or the queue to write, some step is possible; and when neither is
    the case the next sync can start. *)
Theorem sync_completes us s k s' pc :
  rested s -> 0 <= ss_qgen s < 2 ^ 55 - 1 -> idle s -> sb_ready s -> (forall l, l ∈ f_ar (ss_fsa s) -> log_room l) ->
  aligned_statics s -> nsteps (alone us) k (s, sync s) (s', pc) ->
  (k <= 2 * length (sync s))%nat /\ ~ failing us (s', pc) /\
  ((exists y, alone us (s', pc) y) \/ (pc = [] /\ rested s' /\ idle s')).
Proof.
  intros Hr Hg Hi Hsb Hroom Hal Hk. destruct (sync_packs us s Hr Hg Hi Hsb Hroom Hal) as (s1 & Hpk & Hly & Hal1 & Hgo & Epc & Hi1).
  set (s0 := wrbarrier s) in *. assert (Hi0 : idle s0) by exact Hi.
  assert (Hpack : run_act us APack s0 = Ok (Some s1)) by (cbn [run_act]; by rewrite Hpk).
  assert (Hone : forall t a pt r, idle t -> run_act us a t = Ok (Some r) ->
    ~ failing us (t, a :: pt) /\ exists y, alone us (t, a :: pt) y).
  { intros t a pt r Ht E. split; [|eexists; by apply al_act].
    intros [(b & pb & e & [= <- <-] & E')|(i & e & Hlt & E')]; [cbn [fst] in E'; congruence|]. by eapply (idle_syncer us t i e). }
  unfold sync in *. destruct (nsteps_cases _ _ _ _ Hk) as [[-> [= -> ->]]|(j & y1 & -> & H1 & Hk1)].
  { destruct (Hone s ABar (APack :: passes s) s0 Hi eq_refl) as [F1 F2]. split; [lia|]. split; [done|by left]. }
  destruct (alone_first us s ABar _ y1 Hi H1) as (t1 & E1 & ->). injection E1 as <-.
  destruct (nsteps_cases _ _ _ _ Hk1) as [[-> [= -> ->]]|(j2 & y2 & -> & H2 & Hk2)].
  { destruct (Hone s0 APack (passes s) s1 Hi0 Hpack) as [F1 F2]. split; [cbn; lia|]. split; [done|by left]. }
  destruct (alone_first us s0 APack _ y2 Hi0 H2) as (t2 & E2 & ->). rewrite Hpack in E2. injection E2 as <-.
  rewrite Epc in *. destruct (alone_run us s1 s1 (passes s1) Hly Hal1 Hgo _ _ Hk2) as (R1 & R2 & R3). cbn [fst snd] in R2.
  rewrite (idle_todo s1 _ Hi1) in R3. destruct (alone_lives us s1 s' pc Hly Hal1 R2) as (L1 & L2).
  split; [cbn; lia|]. split; [done|]. destruct L2 as [L2|[-> He]]; [by left|right]. split; [done|]. split.
  - apply (flushed us s0 s1 s' []); [by apply rested_bar|change (ss_qgen s0) with (ss_qgen s + 1); lia|done|done|by intros ?%elem_of_nil].
  - destruct R2 as [_ (q & Hq & _ & Hz) _ _]. exists q. split; [done|]. split; [|done]. unfold qheap in He. by rewrite Hq in He.
Qed.

(** ** Witnesses

    Two small arenas between superblocks at 0 and 344064. *)

Definition static_ex (ty a : Z) : Blk := mkBlk ty 0 0 0 0 0 0 (nobp (-1)) (nobp a) 0 (PACK16 ty ++ replicate (Z.to_nat (Blksz - 2)) 0).
Definition bufs_ex : gmap Z Blk :=
  list_to_map [(0, static_ex Tsuper 0); (344064, static_ex Tsuper 344064); (16384, static_ex Tarena 16384);
    (180224, static_ex Tarena 180224); (32768, static_ex Tarena 32768); (196608, static_ex Tarena 196608)].
Definition fsa_ex (b0 b1 : Blk) : Fsa := mkFsa [l_ex 16384 b0; l_ex 180224 b1] 0 (b_buf <$> bufs_ex).
Definition fs_ex : Gefs :=
  mkGefs Blksz Bufspc 2 0 (nobp 49152) (nobp (-1)) (nobp (-1)) 1 0 1 1 5 [nobp 16384; nobp 180224].
Definition ss_ex (b0 b1 : Blk) : Ss := mkSs fs_ex (fsa_ex b0 b1) 344064 bufs_ex [mkSyncq [] 64] 0 None.

Lemma statics_ex b0 b1 : statics (ss_ex b0 b1) = [0; 344064; 16384; 180224; 32768; 196608].
Proof. done. Qed.

Lemma bufs_ex_block a b : bufs_ex !! a = Some b ->
  (a ∈ [0; 344064] /\ b = static_ex Tsuper a) \/ (a ∈ [16384; 180224; 32768; 196608] /\ b = static_ex Tarena a).
Proof.
  unfold bufs_ex. intros H. apply elem_of_list_to_map_2 in H. set_unfold in H.
  repeat (destruct H as [[= -> ->]|H]; [set_unfold; tauto|]). done.
Qed.

Lemma static_ex_sblk a b : bufs_ex !! a = Some b -> sblk a b /\ packed b.
Proof.
  intros Hb. assert (Ha : 0 <= a < 2 ^ 20).
  { apply bufs_ex_block in Hb. set_unfold in Hb. lia. }
  assert (Hty : exists ty, b = static_ex ty a /\ (ty = Tarena \/ ty = Tsuper)).
  { destruct (bufs_ex_block a b Hb) as [[_ ->]|[_ ->]]; eexists; auto. }
  destruct Hty as (ty & -> & Hty). split; [split; try done|].
  - unfold wf_bptr. cbn [static_ex b_bp nobp bp_addr bp_hash bp_gen]. unfold nohash. lia.
  - intros i _. apply Z.bits_0.
  - unfold packed, at_. destruct Hty as [-> | ->]; by vm_compute.
Qed.

Lemma log_ex_tail base b d : log_ok (l_ex base b) d (ghost_ex base) -> tailaddr (l_ex base b) (ghost_ex base) = base + 32768.
Proof.
  intros Hok. pose proof (ls_sealed _ _ _ (lo_st _ _ _ Hok)) as Hs. by inversion Hs.
Qed.

Lemma log_ex_room base b d : ex_base base -> log_ok (l_ex base b) d (ghost_ex base) -> log_room (l_ex base b).
Proof.
  intros Hb Hok. exists (g_tl (ghost_ex base)). split; [done|]. rewrite (lr_logsz _ _ (ls_tail _ _ _ (lo_st _ _ _ Hok))).
  by destruct Hb as [-> | ->].
Qed.

Lemma log_ex_safe base b d : ex_base base -> log_ok (l_ex base b) d (ghost_ex base) -> hdr_safe (l_ex base b) (ghost_ex base).
Proof.
  intros Hb Hok h Hh. unfold log_addrs. rewrite (log_ex_tail _ _ _ Hok). cbn [l_ex l_a larena_ex a_free].
  rewrite free_at_cons, free_at_nil. cbn [ar_off ar_len]. unfold hdrs in Hh. cbn in Hh. change Blksz with 16384 in Hh.
  set_unfold in Hh. split; [intros ->%list_elem_of_singleton; lia|lia].
Qed.

Lemma log_ex_frame base b : ex_base base -> log_ok (l_ex base b) ∅ (ghost_ex base) ->
  log_ok (l_ex base b) (b_buf <$> bufs_ex) (ghost_ex base).
Proof.
  intros Hb Hok. eapply log_ok_frame; [exact Hok|]. unfold log_addrs. rewrite (log_ex_tail _ _ _ Hok).
  intros x ->%list_elem_of_singleton. rewrite lookup_empty, lookup_fmap.
  destruct (bufs_ex !! (base + 32768)) eqn:E; [|done]. apply bufs_ex_block in E. set_unfold in E. destruct Hb as [-> | ->]; lia.
Qed.

Lemma ss_ex_rested : exists b0 b1, rested (ss_ex b0 b1) /\ (forall l, l ∈ f_ar (fsa_ex b0 b1) -> log_room l) /\
  log_ok (l_ex 16384 b0) (b_buf <$> bufs_ex) (ghost_ex 16384) /\ log_ok (l_ex 180224 b1) (b_buf <$> bufs_ex) (ghost_ex 180224).
Proof.
  destruct (log_ex_ok 16384 ltac:(by left)) as (b0 & H0). destruct (log_ex_ok 180224 ltac:(by right)) as (b1 & H1).
  apply log_ex_frame in H0; [|by left]. apply log_ex_frame in H1; [|by right]. exists b0, b1.
  assert (Hc : contiguous [larena_ex 16384; larena_ex 180224]).
  { constructor; [|by repeat constructor]. intros [|[|i]] a a' Ha Ha'; cbn in Ha, Ha'; simplify_eq; done. }
  split; [|split; [|done]].
  2:{ intros l Hl. cbn in Hl. set_unfold in Hl. destruct Hl as [->|[->|[]]];
        [apply (log_ex_room 16384 b0 _ ltac:(by left) H0)|apply (log_ex_room 180224 b1 _ ltac:(by right) H1)]. }
  split; try done.
  - split; try done; intros a Ha; cbn in Ha; set_unfold in Ha; by destruct Ha as [->|[->|[]]].
  - exists [ghost_ex 16384; ghost_ex 180224]. split; [split; [done|exact Hc|done|]|].
    + intros [|[|i]] l g Hl Hg; cbn in Hl, Hg; simplify_eq; done.
    + intros [|[|i]] l g Hl Hg; cbn in Hl, Hg; simplify_eq; [apply (log_ex_safe 16384 b0 _ ltac:(by left) H0)|apply (log_ex_safe 180224 b1 _ ltac:(by right) H1)].
  - exists (mkSyncq [] 64). split; [done|]. intros j x y _ Hx. by destruct (parent j).
  - intros a b Hb. cbn in Hb. by destruct (bufs_ex_block a b Hb) as [[_ ->]|[_ ->]].
  - intros a Ha. assert (exists b, bufs_ex !! a = Some b) as [b Hb].
    { rewrite statics_ex in Ha. set_unfold in Ha.
      repeat (destruct Ha as [->|Ha]; [eexists; reflexivity|]). done. }
    exists b. split; [done|]. destruct (static_ex_sblk a b Hb) as [F1 F2]. split; [done|]. split; [done|].
    change (ss_disk _) with (b_buf <$> bufs_ex). by rewrite lookup_fmap, Hb.
Qed.

Lemma pack_ex : exists b0 b1 s1, rested (ss_ex b0 b1) /\ pack false (ss_ex b0 b1) = Ok s1.
Proof.
  destruct ss_ex_rested as (b0 & b1 & Hr & Hroom & _).
  destruct (pack_total false (ss_ex b0 b1) (rs_layout _ Hr) (rs_logs _ Hr)) as (s1 & Hp);
    [done|by apply rested_blocks|done|done|by exists b0, b1, s1].
Qed.

Lemma crash_consistent_witness : exists b0 b1 s1, pack false (ss_ex b0 b1) = Ok s1 /\
  (ss_disk s1 !! 0 = b_buf <$> bufs_ex !! 0 \/ ss_disk s1 !! 0 = b_buf <$> ss_bufs s1 !! 0).
Proof.
  destruct pack_ex as (b0 & b1 & s1 & Hr & Hp). exists b0, b1, s1. split; [done|].
  destruct (crash_consistent false (ss_ex b0 b1) s1 s1 (passes s1) Hr ltac:(done) Hp ltac:(done)) as [H _].
  apply (H 0). rewrite statics_ex. left.
Defined.

(** A complete run. *)
Lemma run_ex b0 b1 s1 : rested (ss_ex b0 b1) -> pack false (ss_ex b0 b1) = Ok s1 ->
  exists s, rtc (sstep false) (s1, passes s1) (s, []) /\ qheap s = [].
Proof.
  intros Hr Hp.
  pose proof (pack_going false (ss_ex b0 b1) s1 Hr ltac:(done) ltac:(by exists (mkSyncq [] 64)) Hp) as Hrd.
  destruct (phase_init false (ss_ex b0 b1) s1 Hr ltac:(done) Hp) as [Hly _].
  destruct (pack_ok false _ s1 Hp (rs_layout _ Hr) (rs_logs _ Hr) ltac:(done) (rested_blocks _ Hr)) as (P1 & _).
  destruct (same_headers _ _ P1) as (_ & _ & Est).
  destruct (alone_ends false s1 s1 (passes s1) Hly) as (s & Hst & _ & He); [|done|by exists s].
  intros a Ha. rewrite Est, statics_ex in Ha. set_unfold in Ha. repeat (destruct Ha as [->|Ha]; [done|]). done.
Qed.

Lemma sync_flushes_witness : exists b0 b1 s1 s, pack false (ss_ex b0 b1) = Ok s1 /\
  rtc (sstep false) (s1, passes s1) (s, []) /\ rested s.
Proof.
  destruct pack_ex as (b0 & b1 & s1 & Hr & Hp). destruct (run_ex b0 b1 s1 Hr Hp) as (s & Hst & _).
  exists b0, b1, s1, s. split; [done|]. split; [done|].
  apply (sync_flushes false (ss_ex b0 b1) s1 s []); try done. by intros ?%elem_of_nil.
Defined.

(** A sync of two arenas, after its first step: no run has more than 32. *)
Lemma sync_completes_witness : exists b0 b1, let s := ss_ex b0 b1 in
  nsteps (alone false) 1 (s, sync s) (wrbarrier s, APack :: passes s) /\ length (sync s) = 16%nat /\
  ~ failing false (wrbarrier s, APack :: passes s) /\ exists y, alone false (wrbarrier s, APack :: passes s) y.
Proof.
  destruct ss_ex_rested as (b0 & b1 & Hr & Hroom & _). exists b0, b1. intros s.
  assert (Hst : nsteps (alone false) 1 (s, sync s) (wrbarrier s, APack :: passes s)) by (apply nsteps_once; by apply al_act).
  split; [exact Hst|]. split; [done|].
  destruct (sync_completes false s 1 (wrbarrier s) (APack :: passes s) Hr) as (_ & F & [L|[E _]]); try done.
  - by exists (mkSyncq [] 64).
  - intros a Ha. unfold s in Ha. rewrite statics_ex in Ha. set_unfold in Ha. repeat (destruct Ha as [->|Ha]; [done|]). done.
Defined.
