(* ===== verification/Load.v ===== *)
(** * Loading a file system (src/load.c: [loadarena], [loadfs])

    A load reads both superblocks, takes the first that is intact, reads both
    headers of every arena and replays the logs.  The cache is empty: every
    block is read into a buffer fresh from [cachepluck].  Opening the snapshot
    "adm" and reading the users from it, with which [loadfs] ends, are in
    [Snap] and [File]; [sysfatal] and [exits] end the program like an error
    that nobody catches. *)
From S2P Require Import Prelude CInt Mem Data Hash Pack Super Blk Alloc Io Log Arenas Mst.

(** [if(!waserror()){ ...; poperror(); }] *)
Definition soft {A} (r : res A) : res (option A) :=
  match r with
  | Ok a => Ok (Some a)
  | Err e => if is_crash e then Err e else Ok None
  end.

(** [getblk] of a block that is not cached. *)
Definition getblk (bp : Bptr) (flg : Z) (d : Disk) : res Blk :=
  let! b := readblk blkz bp flg d in
  Ok (mkBlk (b_type b) (b_nval b) (b_valsz b) (b_nbuf b) (b_bufsz b) (b_logsz b) (b_logh b) (b_logp b)
        (mkBptr (bp_addr (b_bp b)) (bp_hash (b_bp b)) (bp_gen bp)) (b_flag b) (b_buf b)).

(** A log buffer: [cachepluck] and the assignments to it. *)
Definition new_logbuf : Blk :=
  mkBlk 0 0 0 0 0 0 0 (mkBptr 0 0 0) (mkBptr (-1) nohash (-1)) (setflag 0 Bstatic 0) zbuf.

Definition or_getblk (h : option Blk) (bp : Bptr) (d : Disk) : res Blk :=
  match h with Some b => Ok b | None => getblk bp GBnochk d end.

(** The arena, [h0] and [h1]. *)
Definition loadarena (hd : Bptr) (d : Disk) : res (LArena * Blk * Blk) :=
  let tl := mkBptr (bp_addr hd + Blksz) (bp_hash hd) (bp_gen hd) in
  let! h0 := soft (getblk hd GBsoftchk d) in
  let! h1 := soft (getblk tl GBsoftchk d) in
  match (match h0 with Some _ => h0 | None => h1 end) with
  | None => Err Efs
  | Some b =>
      let! h0 := or_getblk h0 hd d in
      let! h1 := or_getblk h1 tl d in
      let! p := rd (b_buf b) (data_off b) Arenasz in
      let! a := unpackarena p Arenasz in
      Ok (mkLArena (mkArena (bp_addr (b_bp h0)) (ah_size a) (ah_size a) 0 []) new_logbuf new_logbuf None
            (ah_loghd a) 0 0, h0, h1)
  end.

Definition KiB : Z := 1024.
Definition MiB : Z := 1024 * 1024.

Definition reserve (size : Z) : Z :=
  let r := Z.quot size 1024 in
  let r := if r <? 512 * KiB then 512 * KiB else r in
  if 8 * MiB <? r then 8 * MiB else r.

Definition set_reserve (l : LArena) : LArena :=
  let a := l_a l in
  set_arena l (mkArena (a_addr a) (a_size a) (a_used a) (reserve (a_size a)) (a_free a)).

Fixpoint load_arenas (bps : list Bptr) (d : Disk) : res (list (LArena * Blk * Blk)) :=
  match bps with
  | [] => Ok []
  | bp :: bps' =>
      let! (l, h0, h1) := loadarena bp d in
      let! r := load_arenas bps' d in
      Ok ((set_reserve l, h0, h1) :: r)
  end.

Fixpoint load_logs (fuel : nat) (qgen : Z) (ls : list LArena) (d : Disk) : res (list LArena) :=
  match ls with
  | [] => Ok []
  | l :: ls' =>
      let! l := loadlog fuel qgen l (l_hd l) d in
      let! r := load_logs fuel qgen ls' d in
      Ok (l :: r)
  end.

(** The address of the second superblock on a device of [len] bytes. *)
Definition sb1_addr (len : Z) : Z := len - Z.rem len Blksz - Blksz.

(** The superblock fields and both blocks; [fi] is the state before. *)
Definition load_super (fi : Gefs) (len : Z) (d : Disk) : res (Gefs * Blk * Blk) :=
  let! sb0 := getblk (mkBptr 0 nohash (-1)) GBnochk d in
  let! sb1 := getblk (mkBptr (sb1_addr len) nohash (-1)) GBnochk d in
  let! r := soft (unpacksb fi (b_buf sb0) Blksz) in
  match r with
  | Some fi => Ok (fi, sb0, sb1)
  | None => let! fi := unpacksb fi (b_buf sb1) Blksz in Ok (fi, sb0, sb1)
  end.

Record Loaded := mkLoaded {
  ld_fs : Gefs; ld_sb0 : Blk; ld_sb1 : Blk; ld_heads : list (Blk * Blk); ld_fsa : Fsa }.

(** [fuel] bounds the blocks of a log. *)
Definition loadfs (fuel : nat) (fi : Gefs) (len : Z) (d : Disk) : res Loaded :=
  let! (fi, sb0, sb1) := load_super fi len d in
  let! r := load_arenas (g_arenabp fi) d in
  let! ls := load_logs fuel (g_qgen fi) ((fun x => x.1.1) <$> r) d in
  Ok (mkLoaded fi sb0 sb1 ((fun x => (x.1.2, x.2)) <$> r) (mkFsa ls 0 d)).

(** ** Reading headers and superblocks *)

(** A block of the type [ty] that is no log block, pivot or leaf. *)
Lemma getblk_static ty bp flg d buf :
  ty = Tarena \/ ty = Tsuper -> Z.land flg GBraw = 0 -> d !! bp_addr bp = Some buf -> zlen buf = Blksz ->
  at_ buf 0 (PACK16 ty) ->
  exists b, getblk bp flg d = Ok b /\ b_buf b = buf /\ b_type b = ty /\ bp_addr (b_bp b) = bp_addr bp.
Proof.
  intros Ht Hf Hd Hl Ha. unfold getblk, readblk, pread. rewrite Hd, Hl. cbn [rbind].
  change (Blksz =? Blksz) with true. cbv iota. cbn [rbind]. rewrite Hf. change (0 =? 0) with true. cbn [negb].
  assert (Et : rd16 buf 0 = Ok (u16 ty)).
  { unfold rd16. rewrite (rd_at_n buf 0 2 (PACK16 ty) eq_refl Ha). cbn [rbind]. by rewrite UNPACK16_PACK16. }
  rewrite Et. cbn [rbind]. assert (Es : s16 (u16 ty) = ty) by by destruct Ht as [-> | ->].
  rewrite Es. unfold readhdr.
  assert (Ex : (ty =? Tdat) || (ty =? Tsuper) || (ty =? Tarena) = true) by by destruct Ht as [-> | ->].
  rewrite Ex. cbn [rbind]. unfold blksums. cbn [b_type b_buf].
  assert (Ey : (ty =? Tlog) || (ty =? Tdlist) = false) by by destruct Ht as [-> | ->].
  rewrite Ey. destruct (blkhash_ok buf Hl) as (h & -> & _). cbn [rbind].
  assert (Ez : (Z.land (cnot flg) GBnochk =? 0) = true) by (unfold cnot; by destruct (flg =? 0)).
  rewrite Ez. cbn [negb andb rbind]. by eexists.
Qed.

Lemma unpackarena_size a r :
  -2 ^ 63 <= bp_addr (ah_loghd a) < 2 ^ 63 -> -2 ^ 63 <= ah_size a < 2 ^ 63 ->
  exists h u, unpackarena (ahdr_bytes a ++ r) Arenasz = Ok (mkAHdr (mkBptr (bp_addr (ah_loghd a)) h (-1)) (ah_size a) u).
Proof.
  intros H1 H2. unfold unpackarena, ahdr_bytes. rewrite Z.leb_refl, !rd64_eq, <- !app_assoc.
  rd_field. autorewrite with unpack. fits. by eexists _, _.
Qed.
