(* ===== verification/Recover.v ===== *)
(** * Loading after a crash

    The disk that a sync leaves at any moment after its first superblock was
    written is loaded to the file system that was packed: the fields of the
    superblock, and the free ranges of every arena as of its barrier. *)
From stdpp Require Import relations.
From S2P Require Import Prelude CInt Mem Data Hash Pack Super Blk Alloc Io Log Arenas Queue Sync SyncOk Crash Load.

(** ** The durable logs *)

#[export] Instance keeps_preorder : PreOrder keeps.
Proof.
  split.
  - intros f i l g Hi Hok Hs. by exists l, g.
  - intros f1 f2 f3 H1 H2 i l g Hi Hok Hs. destruct (H1 i l g Hi Hok Hs) as (l' & g' & Hi' & Hok' & Hs' & Hp & Eh).
    destruct (H2 i l' g' Hi' Hok' Hs') as (l2 & g2 & Hi2 & Hok2 & Hs2 & Hp2 & Eh2). exists l2, g2.
    split; [done|]. split; [done|]. split; [done|]. split; [by etrans|congruence].
Qed.

(** The disk changes away from the logs. *)
Lemma keeps_frame f f' : f_ar f' = f_ar f ->
  (forall i l g x, f_ar f !! i = Some l -> log_ok l (f_disk f) g -> hdr_safe l g -> x ∈ log_addrs l g ->
     f_disk f' !! x = f_disk f !! x) -> keeps f f'.
Proof.
  intros Ea Hx i l g Hi Hok Hs. exists l, g. rewrite Ea. split; [done|]. split; [|done].
  eapply log_ok_frame; [exact Hok|]. intros x Hin. by apply (Hx i l g).
Qed.

(** What happens in one arena leaves the logs of the others alone. *)
Lemma other_frame s i j l m l' d' g g' h :
  layout s -> f_ar (ss_fsa s) !! i = Some l -> log_ok l' d' g' -> grows l (ss_disk s) g l' d' g' ->
  j <> i -> f_ar (ss_fsa s) !! j = Some m -> log_ok m (ss_disk s) h -> log_ok m d' h.
Proof.
  intros Hly Hi Hok' Hg Hne Hj Hok. eapply log_ok_frame; [exact Hok|]. intros x Hx.
  apply (gr_disk _ _ _ _ _ _ Hg). intros Hx'. pose proof (ls_blk _ _ _ (lo_st _ _ _ Hok) x Hx) as Hbj.
  pose proof (ls_blk _ _ _ (lo_st _ _ _ Hok') x Hx') as Hbi.
  apply (blk_of_same _ (l_a l)) in Hbi; [|symmetry; apply Hg|symmetry; apply Hg].
  by eapply (arenas_disjoint (f_ar (ss_fsa s)) i j); [apply (ly_contiguous _ Hly)|..].
Qed.

(** One arena moves on. *)
Lemma keeps_update s i l l' d' rr :
  layout s -> f_ar (ss_fsa s) !! i = Some l ->
  (forall g, log_ok l (ss_disk s) g -> hdr_safe l g ->
     exists g', log_ok l' d' g' /\ hdr_safe l' g' /\ grows l (ss_disk s) g l' d' g') ->
  (exists g, log_ok l (ss_disk s) g /\ hdr_safe l g) ->
  keeps (ss_fsa s) (mkFsa (<[i := l']> (f_ar (ss_fsa s))) rr d').
Proof.
  intros Hly Hi Hl' (g0 & Hok0 & Hs0) j m h Hj Hok Hs. cbn [f_ar f_disk].
  assert (Hil : (i < length (f_ar (ss_fsa s)))%nat) by by eapply lookup_lt_Some.
  destruct (decide (j = i)) as [->|Hne].
  - assert (m = l) as -> by congruence. destruct (Hl' h Hok Hs) as (g' & Hok' & Hs' & Hg). exists l', g'.
    rewrite list_lookup_insert_eq by done. split; [done|]. split; [done|]. split; [done|]. split; apply Hg.
  - exists m, h. rewrite list_lookup_insert_ne by done. split; [done|]. split; [|done].
    destruct (Hl' g0 Hok0 Hs0) as (g' & Hok' & _ & Hg). by eapply (other_frame s i j l m).
Qed.

(** A block is freed. *)
Lemma dealloc_keeps us i s b l l' d' rr :
  layout s -> logs_safe (ss_fsa s) -> f_ar (ss_fsa s) !! i = Some l ->
  blk_of (l_a l) b -> disjoint_range (a_free (l_a l)) b Blksz -> ~ log_owns l (ss_disk s) b -> (b ∉ hdrs (l_a l)) ->
  blkdealloc_lk us l b (ss_disk s) = Ok (l', d') ->
  keeps (ss_fsa s) (mkFsa (<[i := l']> (f_ar (ss_fsa s))) rr d').
Proof.
  intros Hly (gs & Hf & Hsafe) Hi Hb Hd Ho Hh E.
  assert (Hla : l_a l ∈ arenas s) by (apply list_elem_of_fmap; exists l; split; [done|by eapply list_elem_of_lookup_2]).
  destruct (layout_arena _ _ Hly Hla) as (_ & _ & Hsz).
  apply (keeps_update s i l); [done|done| |].
  - intros g Hok Hs. pose proof (blkdealloc_lk_ok us l b (ss_disk s) g Hok Hb Hd) as H. rewrite E in H.
    destruct H as (g' & Hok' & Hgr & _); [intros Hin; apply Ho; by exists g|]. exists g'. split; [done|]. split; [|done].
    eapply hdr_safe_grows; [done..|]. intros h Hin Hf'.
    destruct (dealloc_free _ _ _ _ _ _ _ Hok Hb Hd E h Hf') as [?|Hx]; [done|]. exfalso. eapply blk_apart; try done. by intros ->.
  - assert (exists g, gs !! i = Some g) as [g Hgi].
    { apply lookup_lt_is_Some_2. rewrite (fo_len _ _ Hf). by eapply lookup_lt_Some. }
    exists g. split; [by apply (fo_log _ _ Hf i)|by apply (Hsafe i)].
Qed.

(** A block is written that no log uses. *)
Lemma write_keeps s x buf rr :
  layout s -> ((x ∉ statics s) -> forall l, l ∈ f_ar (ss_fsa s) -> ~ log_owns l (ss_disk s) x) ->
  keeps (ss_fsa s) (mkFsa (f_ar (ss_fsa s)) rr (<[x := buf]> (ss_disk s))).
Proof.
  intros Hly Hx. apply keeps_frame; [done|]. intros i l g y Hi Hok Hs Hy. cbn. apply lookup_insert_ne. intros ->.
  destruct (decide (y ∈ statics s)) as [Hst|Hst].
  - by apply (static_not_log s i l l (ss_disk s) g y Hly Hi eq_refl eq_refl Hok Hs).
  - apply (Hx Hst l); [by eapply list_elem_of_lookup_2|]. by exists g.
Qed.

Lemma syncer_keeps us s s' i :
  layout s -> logs_safe (ss_fsa s) -> qok s -> (forall a b, ss_bufs s !! a = Some b -> bp_addr (b_bp b) = a) ->
  (forall q e t, ss_q s !! i = Some q -> q_heap q = e :: t -> head_ok s e) ->
  runsync us i s = Ok (Some s') -> keeps (ss_fsa s) (ss_fsa s').
Proof.
  intros Hly Hls Hqk Hself0 Hfr H. unfold runsync in H. apply rbind_ok in H as (r & Er & H). destruct r as [[e sp]|]; [|done].
  apply rbind_ok in H as (sx & Eh & H). injection H as ->.
  destruct (pop_ent_inv _ _ _ _ Er Hqk) as (q & e0 & t & Hq & Ht & -> & _ & _ & _ & Ef & Efs & E1 & _ & Eb).
  destruct (queue_flag s sp _ s Eb Hself0) as [Hself _].
  assert (Ed : ss_disk sp = ss_disk s) by (unfold ss_disk; by rewrite Ef).
  assert (Hpl : same_place s sp) by (split; [by rewrite Ef|done]). pose proof (same_layout _ _ Hpl Hly) as Hlysp.
  unfold handle_ent in Eh. change (qe_op (unqueue e0)) with (qe_op e0) in Eh. change (qe_bp (unqueue e0)) with (qe_bp e0) in Eh.
  destruct (Z.eqb_spec (qe_op e0) Qfree) as [Eo|Nf]; [|destruct (Z.eqb_spec (qe_op e0) Qfence) as [Eo|Nc];
    [|destruct (Z.eqb_spec (qe_op e0) Qwrite) as [Eo|]; [|done]]].
  - destruct (match qe_b (unqueue e0) with None => true | Some _ => false end); [|done].
    apply rbind_ok in Eh as (x & Eg' & Eh). apply rbind_ok in Eh as (l & El & Eh). apply rbind_ok in Eh as ([l' d'] & Ede & Eh).
    injection Eh as <-. apply znth_ok in El as [Hx0 Hl]. rewrite <- (Z2Nat.id x Hx0) in Eg'.
    assert (Hfx : freeable sp (bp_addr (qe_bp e0))).
    { intros j m. unfold arenas. rewrite Ef, E1, Ed. apply (Hfr q e0 t Hq Ht). done. }
    destruct (Hfx _ _ Eg' Hl) as (B1 & B2 & B3 & B4). rewrite <- Ef. eapply (dealloc_keeps us _ sp); try done. by rewrite Ef.
  - injection Eh as <-. cbn. by rewrite Ef.
  - set (x := bp_addr (qe_bp e0)) in *. unfold blk_at in Eh. destruct (ss_bufs sp !! x) as [b|] eqn:Hb; [|done]. cbn [rbind] in Eh.
    destruct (checkflag (b_flag b) Bfreed Bstatic).
    + injection Eh as <-. by rewrite Ef.
    + apply rbind_ok in Eh as ([b' d'] & Esb & Eh). injection Eh as <-. apply syncblk_inv in Esb as [-> ->].
      rewrite (Hself _ _ Hb). rewrite <- Ef. apply (write_keeps sp); [done|]. intros Hnx l Hl. rewrite Ed.
      apply (Hfr q e0 t Hq Ht); [done| |by rewrite <- Ef]. destruct (same_headers _ _ Hpl) as (_ & _ & Es). by rewrite <- Es.
Qed.

Lemma step_keeps us s1 s pc s' pc' n :
  layout s1 -> phase s1 s pc n -> sstep us (s, pc) (s', pc') -> keeps (ss_fsa s) (ss_fsa s').
Proof.
  intros Hly Hp Hst. pose proof (same_layout _ _ (ph_place _ _ _ _ Hp) Hly) as Hlys.
  assert (Hput : forall i qe t, put_ent i qe t = Ok (Some s') -> qok t -> ss_fsa t = ss_fsa s -> keeps (ss_fsa s) (ss_fsa s')).
  { intros i qe t H Hq <-. destruct (put_ent_ok _ _ _ _ H Hq) as (_ & _ & ->). done. }
  inversion Hst as [a ? ? ? H|i ? ? ? Hh H|a ? ? ? Ha H|bp ? ? ? H|? ? ? Hm]; subst.
  - destruct a; cbn [run_act] in H.
    + by injection H as <-.
    + by destruct (ph_pc _ _ _ _ Hp).
    + destruct (enqueue_inv _ _ _ H (ph_q _ _ _ _ Hp)) as (b & b0 & _ & _ & _ & -> & _). done.
    + by injection H as <-.
    + by eapply Hput; [|apply Hp|].
    + destruct (ss_syncing s =? 0); [|done]. by injection H as <-.
    + by injection H as <-.
  - eapply syncer_keeps; try done; apply Hp.
  - destruct (enqueue_inv _ _ _ H (ph_q _ _ _ _ Hp)) as (b & b0 & _ & _ & _ & -> & _). done.
  - unfold put_free in H. apply rbind_ok in H as (i & _ & H). by eapply Hput; [|apply Hp|].
  - apply Hm.
Qed.

Lemma steps_keep us s1 x y : layout s1 -> rtc (sstep us) x y -> forall n, phase s1 x.1 x.2 n -> keeps (ss_fsa x.1) (ss_fsa y.1).
Proof.
  intros Hly. induction 1 as [x|[s pc] [s' pc'] y Hst _ IH]; intros n Hp; [done|].
  destruct (phase_step us s1 s pc s' pc' n Hly Hst Hp) as [n' Hp'].
  etrans; [by eapply step_keeps|by apply (IH n')].
Qed.

(** ** What pass 0 packs *)

(** Before: the log has no barrier of this generation yet. *)
Definition unbarred (gen : Z) (s : Ss) (i : nat) : Prop :=
  exists l g b, f_ar (ss_fsa s) !! i = Some l /\ log_ok l (ss_disk s) g /\ hdr_safe l g /\
    Forall (fun e => stops gen e = false) (g_all g) /\
    ss_bufs s !! a_addr (l_a l) = Some b /\ b_type b = Tarena.

(** What a load finds of the log up to the barrier. *)
Definition recorded (gen : Z) (l : LArena) (g : Ghost) : Prop :=
  exists es, cut gen (g_dur g) = (es, true) /\ replay es ([], a_size (l_a l)) = Ok (a_free (l_a l), a_used (l_a l)).

(** After: the barrier is durable, and the header says where the log is. *)
Definition barred (gen : Z) (s : Ss) (i : nat) : Prop :=
  exists l g b, f_ar (ss_fsa s) !! i = Some l /\ log_ok l (ss_disk s) g /\ hdr_safe l g /\ recorded gen l g /\
    ss_bufs s !! a_addr (l_a l) = Some b /\ b_type b = Tarena /\ bp_addr (b_bp b) = a_addr (l_a l) /\ wf_bptr (b_bp b) /\
    at_ (b_buf b) 2 (ahdr_bytes (arena_hdr l)) /\ g_arenabp (ss_fs s) !! i = Some (b_bp b).

Lemma put_hdr_img p a s s' b : put_hdr p a s = Ok s' -> ss_bufs s !! a = Some b -> sblk a b -> b_type b = Tarena ->
  exists b', s' = put_at a b' s /\ b_type b' = Tarena /\ bp_addr (b_bp b') = a /\ wf_bptr (b_bp b') /\ at_ (b_buf b') 2 p.
Proof.
  intros H Hb Hk Ht. unfold put_hdr, blk_at in H. rewrite Hb in H. cbn [rbind] in H.
  bind_inv H as buf Ew. bind_inv H as b' Ef. injection H as <-. exists b'.
  assert (Hk1 : sblk a (set_buf b buf)) by (apply sblk_buf; [done|]; apply wr_zlen in Ew; rewrite Ew; apply Hk).
  destruct (finalize_static _ _ _ Hk1 Ef) as (Hk' & _ & Et & _ & _). split; [done|]. split; [by rewrite Et|].
  split; [apply Hk'|]. split; [apply Hk'|].
  apply finalize_inv in Ef as (h & Eh & _ & _ & Hfr & _). rewrite (header_static _ _ (sk_type _ _ Hk1)) in Eh. injection Eh as <-.
  apply Hfr; [done|]. apply wr_at in Ew. unfold data_off in Ew. rewrite Ht in Ew. exact Ew.
Qed.

(** The barrier of one arena is durable; the other logs are as they were. *)
Lemma flush_recorded us i s l l1 d1 l2 d2 g :
  layout s -> f_ar (ss_fsa s) !! i = Some l -> log_ok l (ss_disk s) g -> hdr_safe l g -> 0 <= ss_qgen s < 2 ^ 55 ->
  Forall (fun e => stops (ss_qgen s) e = false) (g_all g) ->
  logbarrier us l (ss_qgen s) (ss_disk s) = Ok (l1, d1) -> flushlog l1 d1 = Ok (l2, d2) ->
  (exists g2, log_ok l2 d2 g2 /\ hdr_safe l2 g2 /\ recorded (ss_qgen s) l2 g2) /\
  (forall j m h, j <> i -> f_ar (ss_fsa s) !! j = Some m -> log_ok m (ss_disk s) h -> log_ok m d2 h).
Proof.
  intros Hly Hi Hok Hs Hg Hns Eb Ef. pose proof (logbarrier_ok us l (ss_qgen s) (ss_disk s) g Hok Hg) as H. rewrite Eb in H.
  destruct H as (g1 & extra & Hok1 & Hgr1 & Hall & Hex). destruct (logbarrier_free _ _ _ _ _ _ _ Hok Hg Eb) as (Ea & Es & Hfr).
  destruct (flushlog_ok l1 d1 g1 Hok1) as (x & y & g2 & E & Hok2 & Hgr2 & _ & Hdur & Ela).
  rewrite Ef in E. injection E as <- <-. split.
  - exists g2. split; [done|]. split.
    { eapply hdr_safe_grows; [|exact Hgr2|intros h _; by rewrite Ela]. eapply hdr_safe_grows; [done|exact Hgr1|]. intros h _. apply Hfr. }
    exists (g_all g ++ extra). split.
    + rewrite Hdur, Hall, app_assoc. change [barrier (ss_qgen s)] with (barrier (ss_qgen s) :: []). apply cut_barrier; [|lia].
      apply Forall_app. split; [done|]. eapply Forall_impl; [exact Hex|]. intros e He. unfold stops. by rewrite He.
    + rewrite Ela. pose proof (lo_replay _ _ _ Hok1) as Hr1. rewrite Hall, app_assoc, replay_app in Hr1. bind_inv Hr1 as t E.
      rewrite E. cbn [replay] in Hr1. unfold replay1, barrier in Hr1. cbn [le_op] in Hr1.
      change (LogSync =? LogSync) with true in Hr1. cbn [rbind] in Hr1. done.
  - intros j m h Hne Hj Hm. pose proof (other_frame s i j l m l1 d1 g g1 h Hly Hi Hok1 Hgr1 Hne Hj Hm) as Hm1.
    set (s1 := ss_set_fsa (mkFsa (<[i := l1]> (f_ar (ss_fsa s))) (f_rr (ss_fsa s)) d1) s).
    assert (Hil : (i < length (f_ar (ss_fsa s)))%nat) by by eapply lookup_lt_Some.
    apply (other_frame s1 i j l1 m l2 d2 g1 g2 h); try done.
    + apply (same_layout s); [|done]. split; [|done]. unfold geom. cbn. rewrite list_fmap_insert.
      apply list_insert_id. rewrite list_lookup_fmap, Hi. cbn. by rewrite Ea, Es.
    + by apply list_lookup_insert_eq.
    + cbn. by rewrite list_lookup_insert_ne.
Qed.

Lemma put_hdr_at p a s s' : put_hdr p a s = Ok s' -> exists b', s' = put_at a b' s.
Proof. unfold put_hdr. intros H. bind_inv H as b Eb. bind_inv H as buf Ew. bind_inv H as b' Ef. injection H as <-. by exists b'. Qed.

(** [pack_arena] on the state. *)
Lemma pack_arena_inv us i s s' la : pack_arena us i s = Ok s' -> f_ar (ss_fsa s) !! i = Some la ->
  exists l1 d1 l2 d2 b1 b2, logbarrier us la (ss_qgen s) (ss_disk s) = Ok (l1, d1) /\ flushlog l1 d1 = Ok (l2, d2) /\
    let f := mkFsa (<[i := l2]> (f_ar (ss_fsa s))) (f_rr (ss_fsa s)) d2 in
    let a := a_addr (l_a l2) in
    put_hdr (ahdr_bytes (arena_hdr l2)) a (ss_set_fsa f s) = Ok (put_at a b1 (ss_set_fsa f s)) /\
    (Z.of_nat i < zlen (g_arenabp (ss_fs s))) /\
    s' = ss_set_fs (set_arenabp (ss_fs s) (<[i := b_bp b1]> (g_arenabp (ss_fs s))))
           (put_at (a + Blksz) b2 (put_at a b1 (ss_set_fsa f s))).
Proof.
  intros H Hi. unfold pack_arena in H. rewrite Hi in H.
  bind_inv H as r E1. destruct r as [l1 d1]. bind_inv H as r E2. destruct r as [l2 d2].
  bind_inv H as p Ep. unfold packarena in Ep. change (Arenasz <=? Blksz) with true in Ep.
  change (Ok (ahdr_bytes (arena_hdr l2)) = Ok p) in Ep. injection Ep as <-.
  bind_inv H as s1 E3. bind_inv H as s2 E4. destruct (put_hdr_at _ _ _ _ E3) as (b1 & ->).
  destruct (put_hdr_at _ _ _ _ E4) as (b2 & ->). exists l1, d1, l2, d2, b1, b2. split; [done|]. split; [done|]. split; [exact E3|].
  unfold blk_at in H. set (a := a_addr (l_a l2)) in *.
  set (s2 := put_at (a + Blksz) b2 _) in *. assert (Eb : ss_bufs s2 !! a = Some b1).
  { change (ss_bufs s2) with (<[a + Blksz := b2]> (<[a := b1]> (ss_bufs s))).
    rewrite lookup_insert_ne by (change Blksz with 16384; lia). by rewrite lookup_insert_eq. }
  rewrite Eb in H. cbn [rbind] in H. change (ss_fs s2) with (ss_fs s) in H.
  destruct (Z.leb_spec (zlen (g_arenabp (ss_fs s))) (Z.of_nat i)); [done|]. injection H as <-. done.
Qed.

Lemma recorded_hd gen l g g' : recorded gen l g -> g_dur g = g_dur g' -> recorded gen l g'.
Proof. intros (es & H1 & H2) E. exists es. by rewrite <- E. Qed.

Lemma pack_arena_img us i s s' l0 :
  pack_arena us i s = Ok s' -> layout s -> logs_safe (ss_fsa s) -> 0 <= ss_qgen s < 2 ^ 55 -> blocks s l0 -> unbarred (ss_qgen s) s i ->
  barred (ss_qgen s) s' i /\
  (forall j, j <> i -> unbarred (ss_qgen s) s j -> unbarred (ss_qgen s) s' j) /\
  (forall j, j <> i -> barred (ss_qgen s) s j -> barred (ss_qgen s) s' j).
Proof.
  intros H Hly Hls Hg Hl (la & g & b & Hi & Hok & Hs & Hns & Hb & Hbt).
  destruct (pack_arena_inv us i s s' la H Hi) as (l1 & d1 & l2 & d2 & b1 & b2 & E1 & E2 & E3 & Hz & ->).
  destruct (flush_recorded us i s la l1 d1 l2 d2 g Hly Hi Hok Hs Hg Hns E1 E2) as [(g2 & Hok2 & Hs2 & Hrec) Hoth].
  destruct (log_barrier_ok us i s la l1 d1 l2 d2 Hly Hls Hg Hi E1 E2) as (_ & _ & _ & _ & Ea).
  assert (Hil : (i < length (f_ar (ss_fsa s)))%nat) by by eapply lookup_lt_Some.
  destruct (arena_statics _ _ _ Hi) as [Ha _]. assert (Hst : a_addr (l_a la) ∈ statics s) by (apply elem_statics; tauto).
  destruct (Hl _ Hst) as (b' & Hb' & Hk & _). rewrite Hb in Hb'. injection Hb' as <-.
  destruct (put_hdr_img _ _ _ _ b E3) as (b1' & Eb1 & T1 & T2 & T3 & T4); [by rewrite Ea|by rewrite Ea|done|].
  assert (b1' = b1) as ->.
  { apply (f_equal ss_bufs) in Eb1. cbn in Eb1. apply (f_equal (fun m => m !! a_addr (l_a l2))) in Eb1.
    rewrite !lookup_insert_eq in Eb1. congruence. }
  set (s' := ss_set_fs _ _).
  assert (Q : ss_disk s' = d2 /\ f_ar (ss_fsa s') = <[i:=l2]> (f_ar (ss_fsa s)) /\
    ss_bufs s' = <[a_addr (l_a l2) + Blksz := b2]> (<[a_addr (l_a l2) := b1]> (ss_bufs s)) /\
    g_arenabp (ss_fs s') = <[i := b_bp b1]> (g_arenabp (ss_fs s))) by done.
  destruct Q as (Q1 & Q2 & Q3 & Q4). clearbody s'.
  assert (Hj : forall j m, j <> i -> f_ar (ss_fsa s) !! j = Some m -> ss_bufs s' !! a_addr (l_a m) = ss_bufs s !! a_addr (l_a m)).
  { intros j m Hne Hm. assert (Hap : forall k n, f_ar (ss_fsa s) !! k = Some n -> arenas s !! k = Some (l_a n)).
    { intros k n Hn. unfold arenas. by rewrite list_lookup_fmap, Hn. }
    destruct (layout_apart _ _ _ _ _ Hly (Hap _ _ Hm) (Hap _ _ Hi) Hne) as (N1 & N2 & N3).
    rewrite Q3, Ea, !lookup_insert_ne by done. done. }
  split; [|split].
  - exists l2, g2, b1. rewrite Q1, Q2, Q3, Q4, list_lookup_insert_eq by done. do 4 (split; [done|]).
    split; [|split; [done|split; [done|split; [done|split; [done|]]]]].
    + rewrite lookup_insert_ne by (change Blksz with 16384; lia). by rewrite lookup_insert_eq.
    + apply list_lookup_insert_eq. unfold zlen in Hz. lia.
  - intros j Hne (m & h & c & U1 & U2 & U3 & U4 & U5 & U6). exists m, h, c. rewrite Q1, Q2, list_lookup_insert_ne by done.
    split; [done|]. split; [by apply (Hoth j)|]. split; [done|]. split; [done|]. split; [|done]. by rewrite (Hj j).
  - intros j Hne (m & h & c & U1 & U2 & U3 & U4 & U5 & U6 & U7 & U8 & U9 & U10). exists m, h, c.
    rewrite Q1, Q2, Q4, !list_lookup_insert_ne by done.
    split; [done|]. split; [by apply (Hoth j)|]. split; [done|]. split; [done|]. split; [|done]. by rewrite (Hj j).
Qed.

(** The superblocks are not touched. *)
Lemma pack_arena_supers us i s s' l a :
  pack_arena us i s = Ok s' -> layout s -> logs_safe (ss_fsa s) -> 0 <= ss_qgen s < 2 ^ 55 -> blocks s l ->
  (a ∉ headers s) -> (a ∉ footers s) -> ss_bufs s' !! a = ss_bufs s !! a.
Proof.
  intros H Hly Hls Hg Hl Nh Nf. destruct (pack_arena_ok us i s s' l H Hly Hls Hg Hl) as (_ & _ & la & Hi & _).
  destruct (pack_arena_inv us i s s' la H Hi) as (l1 & d1 & l2 & d2 & b1 & b2 & E1 & E2 & E3 & Hz & ->).
  destruct (log_barrier_ok us i s la l1 d1 l2 d2 Hly Hls Hg Hi E1 E2) as (_ & _ & _ & _ & Ea).
  destruct (arena_statics _ _ _ Hi) as [Ha Hb]. rewrite <- Ea in Ha, Hb.
  transitivity ((<[a_addr (l_a l2) + Blksz := b2]> (<[a_addr (l_a l2) := b1]> (ss_bufs s))) !! a); [done|].
  rewrite !lookup_insert_ne; [done|by intros <-|by intros <-].
Qed.

Lemma pack_arenas_supers us idx : forall s s' l a,
  pack_arenas us idx s = Ok s' -> layout s -> logs_safe (ss_fsa s) -> 0 <= ss_qgen s < 2 ^ 55 -> blocks s l ->
  (a ∉ headers s) -> (a ∉ footers s) -> ss_bufs s' !! a = ss_bufs s !! a.
Proof.
  induction idx as [|i idx IH]; intros s s' l a H Hly Hls Hg Hl Nh Nf; cbn [pack_arenas] in H; [by injection H as <-|].
  bind_inv H as s1 E. destruct (pack_arena_ok us i s s1 l E Hly Hls Hg Hl) as (P1 & Hs1 & la & _ & L1).
  destruct (same_headers _ _ (pg_place _ _ P1)) as (Eh & Ef & _).
  rewrite (IH s1 s' _ a H (same_layout _ _ (pg_place _ _ P1) Hly) Hs1 ltac:(by rewrite (pg_qgen _ _ P1)) L1); [|by rewrite Eh|by rewrite Ef].
  by eapply pack_arena_supers.
Qed.

Lemma pack_arenas_img us idx : forall s s' l,
  pack_arenas us idx s = Ok s' -> layout s -> logs_safe (ss_fsa s) -> 0 <= ss_qgen s < 2 ^ 55 -> blocks s l -> NoDup idx ->
  (forall i, i ∈ idx -> unbarred (ss_qgen s) s i) ->
  (forall i, i ∈ idx -> barred (ss_qgen s) s' i) /\ (forall j, (j ∉ idx) -> barred (ss_qgen s) s j -> barred (ss_qgen s) s' j).
Proof.
  induction idx as [|i idx IH]; intros s s' l H Hly Hls Hg Hl Hn Hu; cbn [pack_arenas] in H.
  { injection H as <-. split; [by intros i ?%elem_of_nil|done]. }
  bind_inv H as s1 E. apply NoDup_cons in Hn as [Hni Hn].
  destruct (pack_arena_img us i s s1 l E Hly Hls Hg Hl (Hu i ltac:(left))) as (B1 & B2 & B3).
  destruct (pack_arena_ok us i s s1 l E Hly Hls Hg Hl) as (P1 & Hs1 & la & _ & L1). pose proof (pg_qgen _ _ P1) as Eg.
  destruct (IH s1 s' _ H (same_layout _ _ (pg_place _ _ P1) Hly) Hs1 ltac:(by rewrite Eg) L1 Hn) as [C1 C2].
  { intros j Hj. rewrite Eg. apply B2; [by intros ->|]. apply Hu. by right. }
  rewrite Eg in C1, C2. split.
  - intros j [->|Hj]%elem_of_cons; [by apply C2|by apply C1].
  - intros j [Hne Hj]%not_elem_of_cons Hb. apply C2; [done|]. by apply B3.
Qed.

Lemma put_super_img a s s' : put_super a s = Ok s' ->
  exists b p b', ss_bufs s !! a = Some b /\ packsb (b_buf b) Blksz (ss_fs s) = Ok p /\
    finalize (set_buf b p) = Ok b' /\ s' = put_at a b' s.
Proof.
  unfold put_super, blk_at. intros H. destruct (ss_bufs s !! a) as [b|]; [|done]. cbn [rbind] in H.
  bind_inv H as p Ew. bind_inv H as b' Ef. injection H as <-. by exists b, p, b'.
Qed.

(** The magic of a superblock starts with its type. *)
Lemma packsb_type p0 fi p : packsb p0 Blksz fi = Ok p -> at_ p 0 (PACK16 Tsuper).
Proof.
  unfold packsb. rewrite Z.eqb_refl. destruct (_ <? 512); [|done]. destruct (_ <? _); [done|].
  set (q := sb_head fi ++ _). destruct (bufhash_ok q) as (h & -> & _). cbn [rbind]. intros H%wr_at.
  unfold q, sb_head in H. rewrite <- !app_assoc in H. apply at_app in H as [H _].
  change sb_magic with (PACK16 Tsuper ++ [102; 115; 57; 46; 48; 48]) in H. by apply at_app in H as [H _].
Qed.

Lemma put_super_barred gen a b' s i : (a ∉ headers s) -> barred gen s i -> barred gen (put_at a b' s) i.
Proof.
  intros Ha (m & h & c & U1 & U2 & U3 & U4 & U5 & U). exists m, h, c. split; [done|]. split; [done|]. split; [done|]. split; [done|].
  split; [|done]. change (ss_bufs (put_at a b' s)) with (<[a := b']> (ss_bufs s)). rewrite lookup_insert_ne; [done|].
  intros ->. apply Ha. by destruct (arena_statics _ _ _ U1).
Qed.

(** The state after pass 0: every arena is barred, and the first superblock
    is that of the state. *)
Lemma pack_img us s s' :
  pack us s = Ok s' -> layout s -> logs_safe (ss_fsa s) -> 0 <= ss_qgen s < 2 ^ 55 -> blocks s [] ->
  (forall i, (i < length (f_ar (ss_fsa s)))%nat -> unbarred (ss_qgen s) s i) ->
  (exists b0, ss_bufs s !! 0 = Some b0 /\ b_type b0 = Tsuper) ->
  (forall i, (i < length (f_ar (ss_fsa s)))%nat -> barred (ss_qgen s) s' i) /\
  exists p0 b, ss_bufs s' !! 0 = Some b /\ packsb p0 Blksz (ss_fs s') = Ok (b_buf b).
Proof.
  intros H Hly Hls Hg Hl Hu (b0 & Hb0 & Ht0).
  destruct (pack_ok us s s' H Hly Hls Hg Hl) as (Psame & _). destruct (same_headers _ _ Psame) as (Eh & _ & _).
  unfold pack in H. set (s0 := ss_set_dl _ _) in *.
  bind_inv H as s1 E1. destruct (bp_addr (g_dl_hd (ss_fs s1)) =? -1); [|done]. bind_inv H as s2 E2.
  assert (Hly0 : layout s0) by (by apply (same_layout s)). assert (Hl0 : blocks s0 []) by (by apply (blocks_same s)).
  destruct (pack_arenas_ok us _ s0 s1 [] E1 Hly0 Hls Hg Hl0) as (P1 & Hs1 & l1 & L1 & _).
  destruct (pack_arenas_img us _ s0 s1 [] E1 Hly0 Hls Hg Hl0 (NoDup_seq _ _)) as [C1 _].
  { intros i Hi%elem_of_seq. change (unbarred (ss_qgen s) s0 i) with (unbarred (ss_qgen s) s i). apply Hu.
    change (f_ar (ss_fsa s0)) with (f_ar (ss_fsa s)) in Hi. lia. }
  change (ss_qgen s0) with (ss_qgen s) in C1. change (f_ar (ss_fsa s0)) with (f_ar (ss_fsa s)) in C1.
  destruct (same_headers _ _ (pg_place _ _ P1)) as (Eh1 & _ & Est1). change (headers s0) with (headers s) in Eh1.
  change (statics s0) with (statics s) in Est1.
  destruct (put_super_img _ _ _ E2) as (c & p & c' & Hc & Ep & Ef & ->).
  destruct (put_super_img _ _ _ H) as (e & q & e' & He & Eq & Eg & ->).
  assert (N0 : (0 ∉ headers s) /\ (ss_sb1 s ∉ headers s) /\ ss_sb1 s <> 0).
  { pose proof (ly_sb1 _ Hly). split; [|split; [|lia]].
    - intros (x & Hx & E)%elem_headers. destruct (layout_arena _ _ Hly Hx). lia.
    - intros (x & Hx & E)%elem_headers. destruct (layout_arena _ _ Hly Hx). change Blksz with 16384 in *. lia. }
  destruct N0 as (N0 & N1 & N2). assert (Esb : ss_sb1 s1 = ss_sb1 s) by apply (pg_place _ _ P1).
  change (ss_sb1 (put_at 0 c' s1)) with (ss_sb1 s1) in *. split.
  - intros i Hi. apply put_super_barred; [change (headers (put_at 0 c' s1)) with (headers s1); by rewrite Eh1, Esb|].
    apply put_super_barred; [by rewrite Eh1|]. apply C1, elem_of_seq. lia.
  - exists (b_buf c), c'. split.
    + transitivity ((<[ss_sb1 s1 := e']> (<[0 := c']> (ss_bufs s1))) !! 0); [done|].
      rewrite lookup_insert_ne by by rewrite Esb. by rewrite lookup_insert_eq.
    + change (ss_fs _) with (ss_fs s1). rewrite Ep. f_equal. symmetry.
      assert (Ec : ss_bufs s1 !! 0 = ss_bufs s !! 0).
      { apply (pack_arenas_supers us _ s0 s1 [] 0 E1 Hly0 Hls Hg Hl0 N0). intros (x & Hx & E)%elem_footers.
        destruct (layout_arena _ _ Hly Hx). change Blksz with 16384 in *. lia. }
      rewrite Hc, Hb0 in Ec. injection Ec as ->. rewrite (finalize_packed (set_buf b0 p) c'); [done|by right| |done].
      unfold packed. change (b_type (set_buf b0 p)) with (b_type b0). rewrite Ht0. by eapply packsb_type.
Qed.

(** What the superblock says after pass 0. *)
Lemma pack_arenas_fs us idx : forall s s', pack_arenas us idx s = Ok s' ->
  exists x, ss_fs s' = set_arenabp (ss_fs s) x /\ length x = length (g_arenabp (ss_fs s)).
Proof.
  induction idx as [|i idx IH]; intros s s' H; cbn [pack_arenas] in H.
  { injection H as <-. exists (g_arenabp (ss_fs s)). split; [by destruct (ss_fs s)|done]. }
  bind_inv H as s1 E. assert (exists la, f_ar (ss_fsa s) !! i = Some la) as [la Hi].
  { unfold pack_arena in E. destruct (f_ar (ss_fsa s) !! i) as [la|]; [by exists la|done]. }
  destruct (pack_arena_inv us i s s1 la E Hi) as (l1 & d1 & l2 & d2 & b1 & b2 & _ & _ & _ & _ & ->).
  destruct (IH _ _ H) as (x & Ex & Hx). exists x. split; [exact Ex|]. rewrite Hx. cbn. by rewrite length_insert.
Qed.

Lemma pack_fs us s s' : pack us s = Ok s' ->
  exists x, ss_fs s' = set_arenabp (set_dlbps (ss_fs s) Zb Zb) x /\ length x = length (g_arenabp (ss_fs s)).
Proof.
  unfold pack. set (s0 := ss_set_dl _ _). intros H. bind_inv H as s1 E1.
  destruct (bp_addr (g_dl_hd (ss_fs s1)) =? -1); [|done]. bind_inv H as s2 E2.
  destruct (pack_arenas_fs us _ _ _ E1) as (x & Ex & Hx). destruct (put_super_img _ _ _ E2) as (? & ? & ? & _ & _ & _ & ->).
  destruct (put_super_img _ _ _ H) as (? & ? & ? & _ & _ & _ & ->). by exists x.
Qed.

(** ** The load *)

(** What a log gives back, for a log that kept its barrier. *)
Lemma loadlog_recorded gen l l' g d l0 :
  log_ok l' d g -> recorded gen l g -> l_tl l0 = None -> a_free (l_a l0) = [] -> a_used (l_a l0) = a_size (l_a l) ->
  checkflag (b_flag (l_b0 l0)) Bstatic Bcached = true -> 0 <= b_logh (l_b0 l0) < 2 ^ 64 ->
  bp_addr (l_hd l0) = bp_addr (l_hd l') -> forall fuel, (length (g_ess g) < fuel)%nat ->
  exists r, loadlog fuel gen l0 (l_hd l0) d = Ok r /\ a_free (l_a r) = a_free (l_a l) /\ a_used (l_a r) = a_used (l_a l).
Proof.
  intros Hok (es & Hc & Hr) Ht Hf Hu Hfl Hlh Hhd fuel Hfu.
  destruct (loadlog_spec gen d _ _ _ _ (ls_sealed _ _ _ (lo_st _ _ _ Hok)) (g_esp g) l0 (l_hd l0)
    (a_free (l_a l)) (a_used (l_a l)) fuel) as (r & Er & ? & ? & _); try done.
  - apply Hok.
  - change (concat (g_ess g) ++ g_esp g) with (g_dur g). by rewrite Hc.
  - change (concat (g_ess g) ++ g_esp g) with (g_dur g). by rewrite Hc, Hf, Hu.
  - by exists r.
Qed.

(** The log only moves on. *)
Lemma recorded_keeps gen l g g' : recorded gen l g -> g_dur g `prefix_of` g_dur g' ->
  cut gen (g_dur g') = cut gen (g_dur g).
Proof. intros (es & Hc & _) [p ->]. by rewrite cut_app, Hc. Qed.

(** A static block as it is on the disk. *)
Definition on_disk (d : Disk) (a : Z) (b : Blk) : Prop := d !! a = Some (b_buf b) /\ sblk a b /\ packed b.

Lemma on_disk_getblk d a b bp flg : on_disk d a b -> bp_addr bp = a -> Z.land flg GBraw = 0 ->
  exists c, getblk bp flg d = Ok c /\ b_buf c = b_buf b /\ b_type c = b_type b /\ bp_addr (b_bp c) = a.
Proof.
  intros (Hd & Hk & Hp) <- Hf. destruct (getblk_static (b_type b) bp flg d (b_buf b)) as (c & E & H1 & H2 & H3); try done.
  - destruct (sk_type _ _ Hk); auto.
  - apply Hk.
  - by exists c.
Qed.

Definition hd_fits (l : LArena) : Prop :=
  -2 ^ 63 <= bp_addr (l_hd l) < 2 ^ 63 /\ -2 ^ 63 <= a_size (l_a l) < 2 ^ 63.

Lemma hd_bounds l d g : log_ok l d g -> hd_fits l.
Proof.
  unfold hd_fits.
  intros [Hs _ [P1 P2 _] _]. pose proof (ls_sealed _ _ _ Hs) as Hse. pose proof (ls_blk _ _ _ Hs) as Hblk.
  assert (Hx : bp_addr (l_hd l) ∈ tailaddr l g :: g_addrs g) by (inversion Hse; subst; [left|right; left]).
  destruct (Hblk _ Hx) as [B1 B2 _]. change Blksz with 16384 in *. lia.
Qed.

Lemma loadarena_ok hd d l b f :
  hd_fits l -> on_disk d (bp_addr hd) b -> b_type b = Tarena -> at_ (b_buf b) 2 (ahdr_bytes (arena_hdr l)) ->
  on_disk d (bp_addr hd + Blksz) f ->
  exists l0 h0 h1, loadarena hd d = Ok (l0, h0, h1) /\ l_a l0 = mkArena (bp_addr hd) (a_size (l_a l)) (a_size (l_a l)) 0 [] /\
    l_tl l0 = None /\ l_b0 l0 = new_logbuf /\ bp_addr (l_hd l0) = bp_addr (l_hd l).
Proof.
  intros [Hh Hz] Hb Ht Hat Hf. unfold loadarena.
  destruct (on_disk_getblk d _ b hd GBsoftchk Hb eq_refl eq_refl) as (h0 & E0 & B0 & T0 & A0).
  destruct (on_disk_getblk d _ f (mkBptr (bp_addr hd + Blksz) (bp_hash hd) (bp_gen hd)) GBsoftchk Hf eq_refl eq_refl) as (h1 & E1 & B1 & T1 & A1).
  rewrite E0, E1. cbn [soft rbind or_getblk]. unfold data_off. rewrite T0, Ht, B0. change (hdsz Tarena) with 2.
  assert (Hrd : rd (b_buf b) 2 Arenasz = Ok (ahdr_bytes (arena_hdr l))) by (by apply rd_at_n).
  rewrite Hrd. cbn [rbind]. destruct (unpackarena_size (arena_hdr l) [] Hh Hz) as (h & u & Eu). rewrite app_nil_r in Eu.
  rewrite Eu. cbn [rbind]. eexists _, _, _. split; [done|]. cbn. by rewrite A0.
Qed.

(** The same space. *)
Record recovered (l r : LArena) : Prop := {
  rc_addr : a_addr (l_a r) = a_addr (l_a l);
  rc_size : a_size (l_a r) = a_size (l_a l);
  rc_free : a_free (l_a r) = a_free (l_a l);
  rc_used : a_used (l_a r) = a_used (l_a l) }.

Lemma loadlog_place fuel : forall q l bp d r, loadlog fuel q l bp d = Ok r ->
  a_addr (l_a r) = a_addr (l_a l) /\ a_size (l_a r) = a_size (l_a l).
Proof.
  induction fuel as [|fuel IH]; intros q l bp d r H; [done|]. cbn [loadlog] in H.
  destruct (checkflag _ _ _); [|done]. bind_inv H as b Eb. bind_inv H as x Ex. destruct x as [[stop t] u].
  destruct stop as [i|].
  - destruct (l_tl _); by injection H as <-.
  - destruct (_ =? -1); [by injection H as <-|]. by apply IH in H.
Qed.

(** The arenas of the superblock [bps], one by one. *)
Lemma load_all gen d bps ls :
  Forall2 (fun bp l => exists l' g b f, log_ok l' d g /\ recorded gen l g /\ l_hd l' = l_hd l /\ hd_fits l /\ bp_addr bp = a_addr (l_a l) /\
    on_disk d (bp_addr bp) b /\ b_type b = Tarena /\ at_ (b_buf b) 2 (ahdr_bytes (arena_hdr l)) /\
    on_disk d (bp_addr bp + Blksz) f) bps ls ->
  exists r n, load_arenas bps d = Ok r /\ forall fuel, (n < fuel)%nat ->
    exists rs, load_logs fuel gen ((fun x => x.1.1) <$> r) d = Ok rs /\ Forall2 recovered ls rs.
Proof.
  induction 1 as [|bp l bps ls (l' & g & b & f & Hok & Hrec & Hhd & Hfit & Ha & Hb & Ht & Hat & Hf) _ (r & n & E & IH)].
  { exists [], 0%nat. split; [done|]. intros fuel _. by exists []. }
  destruct (loadarena_ok bp d l b f Hfit Hb Ht Hat Hf) as (l0 & h0 & h1 & El & La & Lt & Lb & Lh).
  exists ((set_reserve l0, h0, h1) :: r), (Nat.max (length (g_ess g)) n). split.
  { cbn [load_arenas]. rewrite El. cbn [rbind]. by rewrite E. }
  intros fuel Hfu. destruct (IH fuel ltac:(lia)) as (rs & Ers & Hrs).
  destruct (loadlog_recorded gen l l' g d (set_reserve l0) Hok Hrec) with (fuel := fuel) as (x & Ex & X1 & X2).
  - exact Lt.
  - cbn. by rewrite La.
  - cbn. by rewrite La.
  - change (l_b0 (set_reserve l0)) with (l_b0 l0). by rewrite Lb.
  - change (l_b0 (set_reserve l0)) with (l_b0 l0). by rewrite Lb.
  - rewrite Hhd. exact Lh.
  - lia.
  - exists (x :: rs). split.
    + cbn [fmap list_fmap load_logs fst snd]. rewrite Ex. cbn [rbind]. by rewrite Ers.
    + constructor; [|done]. destruct (loadlog_place _ _ _ _ _ _ Ex) as [P1 P2].
      split; [rewrite P1|rewrite P2|done|done]; cbn; by rewrite La.
Qed.

(** ** Recovery *)

(** What the file system must be for its disk to be loaded: the superblock
    fits, headers and superblocks are what they should be, and the logs have
    no barrier of the generation that is packed. *)
Record loadable (s : Ss) : Prop := {
  lb_wf : wf_gefs (ss_fs s);
  lb_n : g_narena (ss_fs s) = zlen (f_ar (ss_fsa s)) /\ g_narena (ss_fs s) < 256;
  lb_sb0 : exists b, ss_bufs s !! 0 = Some b /\ b_type b = Tsuper;
  lb_logs i : (i < length (f_ar (ss_fsa s)))%nat -> unbarred (ss_qgen s) s i }.

Lemma lb_len fi : wf_gefs fi -> zlen (g_arenabp fi) = g_narena fi.
Proof. by intros (_ & H & _). Qed.

Lemma wf_repack fi x : wf_gefs fi -> length x = length (g_arenabp fi) -> Forall wf_bptr x ->
  wf_gefs (set_arenabp (set_dlbps fi Zb Zb) x).
Proof.
  intros (H1 & H2 & H3 & H4 & H5 & H6 & H7 & H8 & H9 & H10 & H11) Hx Hw.
  assert (Hz : wf_bptr Zb) by (unfold wf_bptr, Zb, nohash; cbn; lia).
  refine (conj H1 (conj _ (conj H3 (conj H4 (conj Hz (conj Hz (conj H7 (conj H8 (conj H9 (conj H10 Hw)))))))))).
  cbn [set_arenabp g_arenabp set_dlbps g_narena]. unfold zlen in *. by rewrite Hx.
Qed.

(** Every static block is readable at any time. *)
Lemma phase_on_disk us s0 s1 s pc n a :
  rested s0 -> 0 <= ss_qgen s0 < 2 ^ 55 -> pack us s0 = Ok s1 -> phase s1 s pc n -> a ∈ statics s0 ->
  exists b, on_disk (ss_disk s) a b /\ (written s pc a -> ss_bufs s1 !! a = Some b).
Proof.
  intros Hr Hg Hpk Hp Ha.
  destruct (pack_ok us s0 s1 Hpk (rs_layout _ Hr) (rs_logs _ Hr) Hg (rested_blocks _ Hr)) as (P1 & _ & _ & _ & P5 & _ & _ & P8).
  destruct (same_headers _ _ P1) as (_ & _ & Est). assert (Ha1 : a ∈ statics s1) by by rewrite Est.
  pose proof (phase_image _ _ _ _ a Hp Ha1) as H. destruct (decide (written s pc a)) as [Hw|Hw].
  - destruct H as [Hn _]. destruct (P8 a Ha1) as (b & H1 & H2 & H3). destruct (H3 Ha) as [H4 _].
    exists b. unfold has_new in Hn. rewrite H1 in Hn. done.
  - destruct (rs_blocks _ Hr a Ha) as (b & H1 & H2 & H3 & H4). exists b. split; [|done]. split; [|done].
    by rewrite H, P5.
Qed.

(** The arenas of the new superblock, as the disk has them. *)
Lemma barred_recorded us s0 s1 s pc n :
  rested s0 -> 0 <= ss_qgen s0 < 2 ^ 55 -> pack us s0 = Ok s1 -> loadable s0 -> phase s1 s pc n ->
  keeps (ss_fsa s1) (ss_fsa s) -> written s pc 0 -> forall i l, f_ar (ss_fsa s1) !! i = Some l ->
  exists bp, g_arenabp (ss_fs s1) !! i = Some bp /\ wf_bptr bp /\ exists l' g b f, f_ar (ss_fsa s) !! i = Some l' /\
    log_ok l' (ss_disk s) g /\ recorded (ss_qgen s0) l g /\ l_hd l' = l_hd l /\ hd_fits l /\ bp_addr bp = a_addr (l_a l) /\
    on_disk (ss_disk s) (bp_addr bp) b /\ b_type b = Tarena /\ at_ (b_buf b) 2 (ahdr_bytes (arena_hdr l)) /\
    on_disk (ss_disk s) (bp_addr bp + Blksz) f.
Proof.
  intros Hr Hg Hpk [Hwf Hn Hsb Hlg] Hp Hk Hw i l Hi. set (gen := ss_qgen s0) in *.
  destruct (pack_ok us s0 s1 Hpk (rs_layout _ Hr) (rs_logs _ Hr) Hg (rested_blocks _ Hr)) as (P1 & _).
  destruct (same_headers _ _ P1) as (Eh & _ & Est).
  destruct (pack_img us s0 s1 Hpk (rs_layout _ Hr) (rs_logs _ Hr) Hg (rested_blocks _ Hr) Hlg Hsb) as [Hb _].
  assert (Hlen : length (f_ar (ss_fsa s1)) = length (f_ar (ss_fsa s0))).
  { destruct P1 as [E _]. apply (f_equal length) in E. unfold geom in E. by rewrite !length_fmap in E. }
  destruct (Hb i) as (l2 & g & b & U1 & U2 & U3 & U4 & U5 & U6 & U7 & U8 & U9 & U10).
  { rewrite <- Hlen. by eapply lookup_lt_Some. }
  assert (l2 = l) as -> by congruence. destruct (Hk i l g Hi U2 U3) as (l' & g' & K1 & K2 & _ & K4 & K5).
  destruct (arena_statics _ _ _ Hi) as [Sh Sf]. pose proof (same_layout _ _ P1 (rs_layout _ Hr)) as Hly.
  assert (S1 : a_addr (l_a l) ∈ statics s1) by (apply elem_statics; tauto).
  assert (S2 : a_addr (l_a l) + Blksz ∈ statics s0) by (rewrite <- Est; apply elem_statics; tauto).
  assert (S3 : 0 ∈ statics s1) by (apply elem_statics; tauto).
  destruct (phase_on_disk us s0 s1 s pc n (a_addr (l_a l)) Hr Hg Hpk Hp ltac:(by rewrite <- Est)) as (c & Hc & Hcw).
  destruct (phase_on_disk us s0 s1 s pc n _ Hr Hg Hpk Hp S2) as (f & Hf & _).
  assert (Hwh : written s pc (a_addr (l_a l))).
  { apply (phase_before s1 s pc n _ 0 Hp); try done. rewrite (group_header s1 _ Sh), (group_super s1 0 Hly) by tauto. lia. }
  rewrite (Hcw Hwh) in U5. injection U5 as ->. exists (b_bp b). rewrite U7. split; [done|]. split; [done|].
  exists l', g', b, f. split; [done|]. split; [done|]. split; [|split; [done|split; [by eapply hd_bounds|done]]].
  destruct U4 as (es & C1 & C2). exists es. rewrite (recorded_keeps gen l g g'); [done|by exists es|done].
Qed.

(** C7: a crash at any moment after the first superblock of a sync is on the
    disk: the disk loads, to the superblock that was packed and to arenas
    with the space that was free when the barrier was set, whatever the other
    threads have allocated, freed and written since. *)
Theorem crash_recovers us s0 s1 s pc fi len :
  rested s0 -> loadable s0 -> 0 <= ss_qgen s0 < 2 ^ 55 -> ss_sb1 s0 = sb1_addr len ->
  pack us s0 = Ok s1 -> rtc (sstep us) (s1, passes s1) (s, pc) -> written s pc 0 ->
  exists n, forall fuel, (n < fuel)%nat -> exists r, loadfs fuel fi len (ss_disk s) = Ok r /\
    ld_fs r = sb_loaded fi (ss_fs s1) /\ Forall2 recovered (f_ar (ss_fsa s1)) (f_ar (ld_fsa r)).
Proof.
  intros Hr Hlb Hg Hsb1 Hpk Hst Hw. destruct (phase_init us s0 s1 Hr Hg Hpk) as [Hly Hp0].
  destruct (phase_steps us s1 _ _ Hly Hst 0 Hp0) as (n & Hp). pose proof (steps_keep us s1 _ _ Hly Hst 0 Hp0) as Hk.
  cbn [fst snd] in Hp, Hk. pose proof (barred_recorded us s0 s1 s pc n Hr Hg Hpk Hlb Hp Hk Hw) as Har.
  destruct Hlb as [Hwf [Hn Hn256] Hsb Hlg].
  destruct (pack_ok us s0 s1 Hpk (rs_layout _ Hr) (rs_logs _ Hr) Hg (rested_blocks _ Hr)) as ([Ege Esb] & _ & _ & Egen & _).
  assert (P1 : same_place s0 s1) by done. destruct (same_headers _ _ P1) as (_ & _ & Est).
  destruct (pack_img us s0 s1 Hpk (rs_layout _ Hr) (rs_logs _ Hr) Hg (rested_blocks _ Hr) Hlg Hsb) as [_ (p0 & b0 & Hb0 & Epk)].
  destruct (pack_fs us s0 s1 Hpk) as (x & Ex & Hx).
  assert (Hlen : length (f_ar (ss_fsa s1)) = length (f_ar (ss_fsa s0))).
  { apply (f_equal length) in Ege. unfold geom in Ege. by rewrite !length_fmap in Ege. }
  pose proof (lb_len _ Hwf) as Hz. assert (Hw1 : wf_gefs (ss_fs s1)).
  { rewrite Ex in Har |- *. apply wf_repack; [done|lia|]. apply Forall_lookup. intros i bp Hi. cbn in Har.
    destruct (lookup_lt_is_Some_2 (f_ar (ss_fsa s1)) i) as [l Hl].
    { apply lookup_lt_Some in Hi. unfold zlen in *. lia. }
    destruct (Har i l Hl) as (bp' & H1 & H2 & _). congruence. }
  assert (Hd0 : exists b, on_disk (ss_disk s) 0 b /\ b_buf b = b_buf b0).
  { destruct (phase_on_disk us s0 s1 s pc n 0 Hr Hg Hpk Hp) as (b & Hb & Hbw); [apply elem_statics; tauto|].
    exists b. split; [done|]. specialize (Hbw Hw). congruence. }
  destruct Hd0 as (c0 & Hc0 & Ec0).
  destruct (phase_on_disk us s0 s1 s pc n (ss_sb1 s0) Hr Hg Hpk Hp) as (c1 & Hc1 & _); [apply elem_statics; tauto|].
  rewrite Hsb1 in Hc1.
  destruct (on_disk_getblk _ _ _ (mkBptr 0 nohash (-1)) GBnochk Hc0 eq_refl eq_refl) as (x0 & X0 & Y0 & _).
  destruct (on_disk_getblk _ _ _ (mkBptr (sb1_addr len) nohash (-1)) GBnochk Hc1 eq_refl eq_refl) as (x1 & X1 & _).
  assert (Eu : unpacksb fi (b_buf x0) Blksz = Ok (sb_loaded fi (ss_fs s1))).
  { rewrite Y0, Ec0. pose proof (lb_len _ Hw1) as Hz1.
    destruct (packsb_inv _ _ _ Epk Hz1) as (h & Eh & Hh & Hn5 & y & ->).
    rewrite (unpacksb_packed fi (ss_fs s1) h y Hw1 Hh Eh Hn5).
    rewrite Ex. change (g_narena (set_arenabp _ x)) with (g_narena (ss_fs s0)). by rewrite (proj2 (Z.ltb_lt _ _) Hn256). }
  destruct (load_all (ss_qgen s1) (ss_disk s) (no_gen <$> g_arenabp (ss_fs s1)) (f_ar (ss_fsa s1))) as (r & m & Er & Hm).
  { apply Forall2_same_length_lookup_2.
    - rewrite length_fmap. rewrite Ex. cbn. unfold zlen in *. lia.
    - intros i bp l Hbp Hl. destruct (Har i l Hl) as (bp' & H1 & _ & l' & g & b & f & _ & H2).
      rewrite list_lookup_fmap, H1 in Hbp. injection Hbp as <-. exists l', g, b, f. rewrite Egen. exact H2. }
  exists m. intros fuel Hfu. destruct (Hm fuel Hfu) as (rs & Ers & Hrs).
  eexists. split.
  - unfold loadfs, load_super. rewrite X0, X1. cbn [rbind]. rewrite Eu. cbn [soft rbind].
    change (g_arenabp (sb_loaded fi (ss_fs s1))) with (no_gen <$> g_arenabp (ss_fs s1)).
    rewrite Er. cbn [rbind]. change (g_qgen (sb_loaded fi (ss_fs s1))) with (ss_qgen s1). by rewrite Ers.
  - done.
Qed.

(** ** Witness *)

Lemma loadable_ex b0 b1 : log_ok (l_ex 16384 b0) (b_buf <$> bufs_ex) (ghost_ex 16384) ->
  log_ok (l_ex 180224 b1) (b_buf <$> bufs_ex) (ghost_ex 180224) -> loadable (ss_ex b0 b1).
Proof.
  intros H0 H1. split.
  - unfold wf_gefs, wf_bptr, nohash. cbn. unfold nohash. repeat split; try lia.
    repeat constructor; cbn; unfold nohash; lia.
  - done.
  - by exists (static_ex Tsuper 0).
  - intros [|[|i]] Hi; [| |cbn in Hi; lia].
    + exists (l_ex 16384 b0), (ghost_ex 16384), (static_ex Tarena 16384).
      repeat (split; [done || apply (log_ex_safe 16384 b0 _ ltac:(by left) H0) || by repeat constructor|]). done.
    + exists (l_ex 180224 b1), (ghost_ex 180224), (static_ex Tarena 180224).
      repeat (split; [done || apply (log_ex_safe 180224 b1 _ ltac:(by right) H1) || by repeat constructor|]). done.
Qed.

Lemma crash_recovers_witness : exists b0 b1 s1 s r fuel, pack false (ss_ex b0 b1) = Ok s1 /\
  loadfs fuel fs_ex 360448 (ss_disk s) = Ok r /\ ld_fs r = sb_loaded fs_ex (ss_fs s1).
Proof.
  destruct ss_ex_rested as (b0 & b1 & Hr & Hroom & H0 & H1).
  destruct (pack_total false (ss_ex b0 b1) (rs_layout _ Hr) (rs_logs _ Hr)) as (s1 & Hp);
    [done|by apply rested_blocks|done|done|].
  destruct (run_ex b0 b1 s1 Hr Hp) as (s & Hst & Hq).
  destruct (crash_recovers false (ss_ex b0 b1) s1 s [] fs_ex 360448 Hr (loadable_ex b0 b1 H0 H1)) as (n & Hn); try done.
  { split; [by intros ?%elem_of_nil|by rewrite Hq]. }
  destruct (Hn (S n)) as (r & E & F & _); [lia|]. by exists b0, b1, s1, s, r, (S n).
Defined.
