(* ===== verification/Port.v ===== *)
(** * The portable storage layer: data and formats (src/gefs_storage.h,
    src/gefs_storage.c)

    The POSIX port is a second program for the same kind of image: it shares
    no code with the file system of the other files.  Its byte macros, its key
    order and its slotted blocks are the same, so [PACKn]/[UNPACKn], [keycmp],
    [Xdir], [Kvp], [Msg] and [Blk] are used again; its formats are translated
    here.  A packer returns the bytes from the buffer pointer to the pointer
    the C function returns, or [None] for [NULL]. *)
From S2P Require Import Prelude CInt Mem Data Keys Hash Pack Super Blk.

(** ** Constants that differ from dat.h *)

Definition GEFS_TLOG : Z := 4.
Definition GEFS_TDLIST : Z := 5.
Definition GEFS_TARENA : Z := 6.

Definition GEFS_QTDIR : Z := 0x80.
Definition GEFS_QTSYMLINK : Z := 0x02.
Definition GEFS_QTFILE : Z := 0x00.
Definition GEFS_DMDIR : Z := 0x80000000.

(** ** Results *)

(** The negative error numbers that are returned; [ENULL] is the plain -1. *)
Inductive Errno : Type :=
  | EPERM | ENOENT | EIO | ENOMEM | EEXIST | ENOTDIR | EISDIR | EINVAL | ENOSPC | EROFS
  | ENOTEMPTY | ENULL.

#[export] Instance Errno_eq_dec : EqDecision Errno.
Proof. solve_decision. Defined.

(** A function that returns a negative error number or a result. *)
Inductive ret (A : Type) : Type :=
  | Done (a : A)
  | Fail (e : Errno).
Arguments Done {A} a.
Arguments Fail {A} e.

(** ** Data *)

Record GefsTree := mkGefsTree {
  pt_nref : Z; pt_nlbl : Z; pt_ht : Z; pt_flag : Z; pt_bp : Bptr;
  pt_gen : Z; pt_pred : Z; pt_succ : Z; pt_base : Z }.

Record GefsSuper := mkGefsSuper {
  ps_blksz : Z; ps_bufspc : Z; ps_narena : Z; ps_snap : GefsTree;
  ps_flag : Z; ps_nextqid : Z; ps_nextgen : Z; ps_qgen : Z; ps_arenabp : list Bptr }.

#[export] Instance GefsTree_eq_dec : EqDecision GefsTree.
Proof. solve_decision. Defined.

(** [memset(t, 0, sizeof *t)] *)
Definition bp0 : Bptr := mkBptr 0 0 0.
Definition gtree0 : GefsTree := mkGefsTree 0 0 0 0 bp0 0 0 0 0.

Definition gt_set_root (t : GefsTree) (bp : Bptr) (ht : Z) : GefsTree :=
  mkGefsTree (pt_nref t) (pt_nlbl t) ht (pt_flag t) bp (pt_gen t) (pt_pred t) (pt_succ t) (pt_base t).

(** ** Serialisation *)

(** [gefs_unpackstr(p, e, &s)]: the string and the bytes after it. *)
Definition gefs_unpackstr (p : list Z) : res (option (list Z * list Z)) :=
  if zlen p <? 3 then Ok None else
  let! n := rd16 p 0 in
  if zlen p <? n + 3 then Ok None else
  let! t := rd p (n + 2) 1 in
  if negb (UNPACK8 t =? 0) then Ok None else
  Ok (Some (cstr (drop 2 p), drop (Z.to_nat (3 + n)) p)).

Definition gefs_packstr (sz : Z) (s : list Z) : option (list Z) :=
  let n := zlen s in
  if sz <? n + 3 then None else Some (PACK16 n ++ s ++ [0]).

(** The tag and the parent are written without a look at [sz]. *)
Definition gefs_packdkey (sz up : Z) (name : option (list Z)) : res (option (list Z)) :=
  let! p := emit sz (PACK8 Kent ++ PACK64 up) in
  match name with
  | None => Ok (Some p)
  | Some s =>
      match gefs_packstr (sz - 9) s with
      | Some q => Ok (Some (p ++ q))
      | None => Ok None
      end
  end.

(** The parent is stored before the tag is looked at; the name is [name]
    even when [gefs_unpackstr] fails and leaves it unassigned. *)
Definition gefs_unpackdkey (p : list Z) : res (option (Z * list Z)) :=
  if zlen p <? 9 then Ok None else
  let! key := rd p 0 1 in
  let! up := rd64 p 1 in
  if negb (UNPACK8 key =? Kent) then Ok None else
  let! r := gefs_unpackstr (drop 9 p) in
  match r with Some (name, _) => Ok (Some (s64 up, name)) | None => Err Euninit end.

(** The test of the end pointer comes after the writes. *)
Definition gefs_packdval (sz : Z) (d : Xdir) : res (list Z) := emit sz (dval_bytes d).

(** A name that does not unpack leaves [d->name] null, which every caller
    treats like the empty name; the length of the value is not looked at. *)
Definition gefs_kv2dir (kv : Kvp) : res Xdir :=
  let! s := gefs_unpackstr (drop 9 (kv_k kv)) in
  let name := match s with Some (name, _) => name | None => [] end in
  let v := kv_v kv in
  let! flag := rd64 v 0 in
  let! path := rd64 v 8 in
  let! vers := rd32 v 16 in
  let! type := rd v 20 1 in
  let! mode := rd32 v 21 in
  let! atime := rd64 v 25 in
  let! mtime := rd64 v 33 in
  let! length := rd64 v 41 in
  let! uid := rd32 v 49 in
  let! gid := rd32 v 53 in
  let! muid := rd32 v 57 in
  Ok (mkXdir flag (mkQid path vers (UNPACK8 type)) mode (s64 atime) (s64 mtime)
        length (s32 uid) (s32 gid) (s32 muid) name).

Definition gefs_packlbl (sz : Z) (name : list Z) : option (list Z) :=
  if sz <? zlen name + 1 then None else Some ([Klabel] ++ name).

Definition gefs_packsnap (sz id : Z) : option (list Z) :=
  if sz <? Snapsz then None else Some ([Ksnap] ++ PACK64 id).

Definition gefs_packbp (sz : Z) (bp : Bptr) : option (list Z) :=
  if sz <? Ptrsz then None else Some (bp_bytes bp).

(** The size is ignored. *)
Definition gefs_unpackbp (p : list Z) : res Bptr :=
  let! addr := rd64 p 0 in
  let! hash := rd64 p 8 in
  let! gen := rd64 p 16 in
  Ok (mkBptr (s64 addr) hash (s64 gen)).

Definition gefs_unpacktree (p : list Z) (sz : Z) : res (option GefsTree) :=
  if sz <? Treesz then Ok None else
  let! nref := rd32 p 0 in
  let! nlbl := rd32 p 4 in
  let! ht := rd32 p 8 in
  let! flag := rd32 p 12 in
  let! gen := rd64 p 16 in
  let! pred := rd64 p 24 in
  let! succ := rd64 p 32 in
  let! base := rd64 p 40 in
  let! addr := rd64 p 48 in
  let! hash := rd64 p 56 in
  let! bgen := rd64 p 64 in
  Ok (Some (mkGefsTree (s32 nref) (s32 nlbl) (s32 ht) flag (mkBptr (s64 addr) hash (s64 bgen))
              (s64 gen) (s64 pred) (s64 succ) (s64 base))).

(** The descriptor that [gefs_sync_fs], [gefs_create_snapshot] and
    [packtree] of src/gefs_ream.c write field by field. *)
Definition gtree_bytes (t : GefsTree) : list Z :=
  PACK32 (pt_nref t) ++ PACK32 (pt_nlbl t) ++ PACK32 (pt_ht t) ++ PACK32 (pt_flag t) ++
  PACK64 (pt_gen t) ++ PACK64 (pt_pred t) ++ PACK64 (pt_succ t) ++ PACK64 (pt_base t) ++
  bp_bytes (pt_bp t).

(** ** The superblock *)

(** The arena table is read like in src/pack.c. *)
Definition gefs_unpacksb (p0 : list Z) (sz : Z) : res (ret GefsSuper) :=
  if negb (sz =? Blksz) then Ok (Fail ENULL) else
  let! magic := rd p0 0 8 in
  if negb (bool_decide (magic = sb_magic)) then Ok (Fail ENULL) else
  let! blksz := rd32 p0 8 in
  let! bufspc := rd32 p0 12 in
  let! narena := rd32 p0 16 in
  let! ht := rd32 p0 20 in
  let! saddr := rd64 p0 24 in
  let! shash := rd64 p0 32 in
  let! flag := rd64 p0 72 in
  let! nextqid := rd64 p0 80 in
  let! nextgen := rd64 p0 88 in
  let! qgen := rd64 p0 96 in
  let narena := s32 narena in
  if (narena <=? 0) || (512 <? narena) then Ok (Fail ENULL) else
  let! arenabp := rd_arenabp p0 104 (Z.to_nat narena) in
  let n := 104 + 16 * narena in
  let! body := rd p0 0 n in
  let! xh := gefs_bufhash body n in
  let! dh := rd64 p0 n in
  if negb (dh =? xh) then Ok (Fail EINVAL) else
  Ok (Done (mkGefsSuper (s32 blksz) (s32 bufspc) narena
              (gt_set_root gtree0 (mkBptr (s64 saddr) shash (-1)) (s32 ht))
              flag nextqid nextgen qgen arenabp)).

(** Everything before the arena table; the deadlist of the snapshot tree is
    always empty. *)
Definition gsb_head (sb : GefsSuper) : list Z :=
  sb_magic ++ PACK32 (ps_blksz sb) ++ PACK32 (ps_bufspc sb) ++ PACK32 (ps_narena sb) ++
  PACK32 (pt_ht (ps_snap sb)) ++
  PACK64 (bp_addr (pt_bp (ps_snap sb))) ++ PACK64 (bp_hash (pt_bp (ps_snap sb))) ++
  PACK64 (-1) ++ PACK64 nohash ++ PACK64 (-1) ++ PACK64 nohash ++
  PACK64 (ps_flag sb) ++ PACK64 (ps_nextqid sb) ++ PACK64 (ps_nextgen sb) ++ PACK64 (ps_qgen sb).

(** The buffer is zeroed first; the arena table has to have [narena]
    entries and to fit. *)
Definition pack_sb_block (sz : Z) (sb : GefsSuper) : res (option (list Z)) :=
  if sz <? Blksz then Ok None else
  if zlen (ps_arenabp sb) <? ps_narena sb then Err Eoob else
  let p := gsb_head sb ++ ah_table (take (Z.to_nat (ps_narena sb)) (ps_arenabp sb)) in
  let! xh := gefs_bufhash p (zlen p) in
  let! buf := wr zbuf 0 (p ++ PACK64 xh) in
  Ok (Some buf).

(** ** Keys *)

(** [gefs_keycmp] is [keycmp] of src/tree.c with the tests in another
    order. *)
Definition gefs_keycmp (a b : list Z) : Z :=
  let n := if zlen a <? zlen b then length a else length b in
  let c := memcmp a b n in
  if negb (c =? 0) then (if c <? 0 then -1 else 1)
  else if zlen a <? zlen b then -1
  else if zlen b <? zlen a then 1
  else 0.

Lemma gefs_keycmp_eq a b : gefs_keycmp a b = keycmp a b.
Proof. done. Qed.

Definition gefs_cpkvp (src : Kvp) (nbuf : Z) : res Kvp :=
  assert! zlen (kv_k src) + zlen (kv_v src) <=? nbuf in Ok src.

(** [st_mode] of a file. *)
Definition S_IFDIR : Z := 0x4000.
Definition S_IFLNK : Z := 0xA000.
Definition S_IFREG : Z := 0x8000.

Definition gefs_mode_to_posix (gefs_mode qid_type : Z) : Z :=
  let m :=
    if negb (Z.land qid_type GEFS_QTDIR =? 0) || negb (Z.land gefs_mode GEFS_DMDIR =? 0)
    then S_IFDIR
    else if negb (Z.land qid_type GEFS_QTSYMLINK =? 0) then S_IFLNK
    else S_IFREG in
  Z.lor m (Z.land gefs_mode 0x1ff).

(** ** Facts *)

Definition wf_gtree (t : GefsTree) : Prop :=
  - 2 ^ 31 <= pt_nref t < 2 ^ 31 /\ - 2 ^ 31 <= pt_nlbl t < 2 ^ 31 /\
  - 2 ^ 31 <= pt_ht t < 2 ^ 31 /\ 0 <= pt_flag t < 2 ^ 32 /\ wf_bptr (pt_bp t) /\
  - 2 ^ 63 <= pt_gen t < 2 ^ 63 /\ - 2 ^ 63 <= pt_pred t < 2 ^ 63 /\
  - 2 ^ 63 <= pt_succ t < 2 ^ 63 /\ - 2 ^ 63 <= pt_base t < 2 ^ 63.

Lemma gefs_unpackbp_bytes bp r : wf_bptr bp -> gefs_unpackbp (bp_bytes bp ++ r) = Ok bp.
Proof.
  intros (? & ? & ?). destruct bp. unfold gefs_unpackbp, bp_bytes. rewrite !rd64_eq, <- !app_assoc.
  unpack_fields. by fits.
Qed.

Lemma zlen_gtree_bytes t : zlen (gtree_bytes t) = Treesz.
Proof. done. Qed.

Lemma gefs_unpacktree_bytes t r sz :
  wf_gtree t -> Treesz <= sz -> gefs_unpacktree (gtree_bytes t ++ r) sz = Ok (Some t).
Proof.
  intros (? & ? & ? & ? & (? & ? & ?) & ? & ? & ? & ?) Hsz.
  unfold gefs_unpacktree. rewrite (proj2 (Z.ltb_ge _ _)) by done.
  unfold gtree_bytes, bp_bytes. rewrite <- !app_assoc.
  unpack_fields. fits. by destruct t as [? ? ? ? [] ? ? ? ?].
Qed.

(** The string and entry formats are those of src/pack.c. *)
Lemma gefs_unpackstr_ok p s r : unpackstr p = Ok (s, r) -> gefs_unpackstr p = Ok (Some (s, r)).
Proof.
  unfold unpackstr, gefs_unpackstr. intros H. rewrite Z.ltb_antisym.
  destruct (3 <=? zlen p); [|done]. cbn [negb].
  bind_inv H as n E. rewrite E. cbn [rbind]. destruct (zlen p <? n + 3); [done|].
  bind_inv H as t Et. rewrite Et. cbn [rbind]. destruct (negb (UNPACK8 t =? 0)); [done|].
  by injection H as <- <-.
Qed.

Lemma gefs_packdkey_ok sz up s :
  12 + zlen s <= sz -> gefs_packdkey sz up (Some s) =
    Ok (Some ((PACK8 Kent ++ PACK64 up) ++ PACK16 (zlen s) ++ s ++ [0])).
Proof.
  intros Hsz. pose proof (zlen_nonneg s). unfold gefs_packdkey, emit, gefs_packstr.
  change (zlen (PACK8 Kent ++ PACK64 up)) with 9. rewrite (proj2 (Z.leb_le 9 sz)) by lia.
  cbn [rbind]. by rewrite (proj2 (Z.ltb_ge _ _)) by lia.
Qed.

Lemma gefs_packdval_ok sz d : 61 <= sz -> gefs_packdval sz d = Ok (dval_bytes d).
Proof. apply packdval_ok. Qed.

(** The key of the entry [name] in the directory [up]. *)
Definition ent_key (up : Z) (name : list Z) : list Z :=
  (PACK8 Kent ++ PACK64 up) ++ PACK16 (zlen name) ++ name ++ [0].

Lemma gefs_kv2dir_bytes up d :
  wf_xdir d -> gefs_kv2dir (mkKvp (ent_key up (d_name d)) (dval_bytes d)) = Ok d.
Proof.
  intros (? & ? & ? & Ht & ? & ? & ? & ? & ? & ? & ? & Hn & Hl).
  unfold gefs_kv2dir, ent_key. cbn [kv_k kv_v].
  change (drop 9 ((PACK8 Kent ++ PACK64 up) ++ PACK16 (zlen (d_name d)) ++ d_name d ++ [0]))
    with (PACK16 (zlen (d_name d)) ++ d_name d ++ [0]).
  rewrite (gefs_unpackstr_ok _ (d_name d) []).
  2:{ rewrite <- (app_nil_r (PACK16 _ ++ _ ++ [0])). by apply unpackstr_pack. }
  cbn [rbind]. unfold dval_bytes, is_byte in *.
  unpack_fields. fits. by destruct d as [? [] ? ? ? ? ? ? ? ?].
Qed.

(** ** The superblock survives a write and a read *)

Definition wf_gsuper (sb : GefsSuper) : Prop :=
  - 2 ^ 31 <= ps_blksz sb < 2 ^ 31 /\ - 2 ^ 31 <= ps_bufspc sb < 2 ^ 31 /\
  - 2 ^ 31 <= ps_narena sb < 2 ^ 31 /\ zlen (ps_arenabp sb) = ps_narena sb /\
  - 2 ^ 31 <= pt_ht (ps_snap sb) < 2 ^ 31 /\ wf_bptr (pt_bp (ps_snap sb)) /\
  0 <= ps_flag sb < 2 ^ 64 /\ 0 <= ps_nextqid sb < 2 ^ 64 /\
  0 <= ps_nextgen sb < 2 ^ 64 /\ 0 <= ps_qgen sb < 2 ^ 64 /\ Forall wf_bptr (ps_arenabp sb).

(** What a load gives back: of the snapshot tree only the root and the
    height are stored, and no generation is. *)
Definition gsb_loaded (sb : GefsSuper) : GefsSuper :=
  mkGefsSuper (ps_blksz sb) (ps_bufspc sb) (ps_narena sb)
    (gt_set_root gtree0 (no_gen (pt_bp (ps_snap sb))) (pt_ht (ps_snap sb)))
    (ps_flag sb) (ps_nextqid sb) (ps_nextgen sb) (ps_qgen sb) (no_gen <$> ps_arenabp sb).

Lemma zlen_gsb_head sb : zlen (gsb_head sb) = 104.
Proof. done. Qed.

Lemma pack_sb_block_inv sb p :
  pack_sb_block Blksz sb = Ok (Some p) -> zlen (ps_arenabp sb) = ps_narena sb ->
  exists h, gefs_bufhash (gsb_head sb ++ ah_table (ps_arenabp sb)) (104 + 16 * ps_narena sb) = Ok h /\
    exists r, p = (gsb_head sb ++ ah_table (ps_arenabp sb)) ++ PACK64 h ++ r.
Proof.
  unfold pack_sb_block. intros H Hl. rewrite Z.ltb_irrefl, Hl, Z.ltb_irrefl in H.
  rewrite (take_ge (ps_arenabp sb)) in H by (unfold zlen in Hl; lia).
  set (q := gsb_head sb ++ ah_table (ps_arenabp sb)) in *.
  assert (Hq : zlen q = 104 + 16 * ps_narena sb).
  { unfold q. rewrite zlen_app, zlen_ah_table, zlen_gsb_head. lia. }
  bind_inv H as h Eh. bind_inv H as b Eb. injection H as ->.
  exists h. rewrite <- Hq. split; [done|].
  apply wr_inv in Eb as (_ & _ & ->). cbn [Z.to_nat]. rewrite take_0. cbn [app].
  eexists. rewrite <- app_assoc. done.
Qed.

(** Read [n] bytes at a literal offset of the fixed part. *)
Ltac gsb_read o n :=
  match goal with
  | Hr : forall o n bs, rd (gsb_head ?sb) o n = Ok bs -> _ |- _ =>
      erewrite (Hr o n) by (unfold gsb_head; rd_field; reflexivity)
  end; cbn [rbind].

Lemma gefs_bufhash_ok src : exists h, gefs_bufhash src (zlen src) = Ok h /\ 0 <= h < 2 ^ 64.
Proof. apply metrohash64_aux. Qed.

Lemma gefs_unpacksb_packed sb h r :
  wf_gsuper sb -> 0 <= h < 2 ^ 64 ->
  gefs_bufhash (gsb_head sb ++ ah_table (ps_arenabp sb)) (104 + 16 * ps_narena sb) = Ok h ->
  gefs_unpacksb ((gsb_head sb ++ ah_table (ps_arenabp sb)) ++ PACK64 h ++ r) Blksz =
  if (ps_narena sb <=? 0) || (512 <? ps_narena sb) then Ok (Fail ENULL)
  else Ok (Done (gsb_loaded sb)).
Proof.
  intros (? & ? & ? & Hl & ? & (? & ? & ?) & ? & ? & ? & ? & Ha) Hh Eh.
  set (p := (gsb_head sb ++ ah_table (ps_arenabp sb)) ++ PACK64 h ++ r).
  assert (Hq : zlen (gsb_head sb ++ ah_table (ps_arenabp sb)) = 104 + 16 * ps_narena sb).
  { rewrite zlen_app, zlen_ah_table, zlen_gsb_head. lia. }
  assert (Ep : p = gsb_head sb ++ ah_table (ps_arenabp sb) ++ PACK64 h ++ r)
    by (unfold p; by rewrite <- !app_assoc).
  assert (Hr : forall o n bs, rd (gsb_head sb) o n = Ok bs -> rd p o n = Ok bs).
  { intros. rewrite Ep. by apply rd_app_in. }
  assert (Et : rd_arenabp p 104 (Z.to_nat (ps_narena sb)) = Ok (no_gen <$> ps_arenabp sb)).
  { rewrite Ep, <- Hl, to_nat_zlen. by apply rd_arenabp_table. }
  assert (Eb : rd p 0 (104 + 16 * ps_narena sb) = Ok (gsb_head sb ++ ah_table (ps_arenabp sb)))
    by (by apply rd_head).
  assert (Ec : rd p (104 + 16 * ps_narena sb) 8 = Ok (PACK64 h)).
  { unfold p. rewrite (rd_skip _ _ _ _ 0) by lia. by apply rd_head. }
  unfold gefs_unpacksb. rewrite Z.eqb_refl. cbn [negb]. rewrite !rd64_eq, !rd32_eq.
  gsb_read 0 8. rewrite bool_decide_true by done. cbn [negb].
  gsb_read 8 4. gsb_read 12 4. gsb_read 16 4. gsb_read 20 4. gsb_read 24 8. gsb_read 32 8.
  gsb_read 72 8. gsb_read 80 8. gsb_read 88 8. gsb_read 96 8.
  autorewrite with unpack. fits.
  destruct ((ps_narena sb <=? 0) || (512 <? ps_narena sb)) eqn:En; [done|].
  rewrite Et. cbn [rbind]. rewrite Eb. cbn [rbind]. rewrite Eh. cbn [rbind].
  rewrite rd64_eq, Ec. cbn [rbind]. rewrite UNPACK64_PACK64, u64_small by lia.
  rewrite Z.eqb_refl. cbn [negb].
  fits. done.
Qed.

(** A superblock that the port packs, the port accepts: it loads the
    root and the height of the snapshot tree, the counters and the arena
    table, without the generations; a superblock without arenas or with more
    than 512 is packed but refused. *)
Theorem gefs_unpacksb_pack sb p :
  wf_gsuper sb -> pack_sb_block Blksz sb = Ok (Some p) ->
  gefs_unpacksb p Blksz =
  if (ps_narena sb <=? 0) || (512 <? ps_narena sb) then Ok (Fail ENULL)
  else Ok (Done (gsb_loaded sb)).
Proof.
  intros Hw Hp. pose proof Hw as (_ & _ & _ & Hl & _).
  destruct (pack_sb_block_inv _ _ Hp Hl) as (h & Eh & r & ->).
  apply gefs_unpacksb_packed; [done| |done].
  destruct (gefs_bufhash_ok (gsb_head sb ++ ah_table (ps_arenabp sb))) as (h' & E' & ?).
  rewrite zlen_app, zlen_ah_table, zlen_gsb_head in E'. rewrite Hl, Eh in E'. by injection E' as ->.
Qed.

Definition gsb_ex : GefsSuper :=
  mkGefsSuper 16384 8187 1 (gt_set_root gtree0 (mkBptr 32768 7 1) 1) 0 5 6 7 [mkBptr 16384 3 1].

Lemma gefs_unpacksb_pack_witness :
  exists p, pack_sb_block Blksz gsb_ex = Ok (Some p) /\
    gefs_unpacksb p Blksz = Ok (Done (gsb_loaded gsb_ex)).
Proof.
  assert (Hw : wf_gsuper gsb_ex).
  { unfold wf_gsuper, wf_bptr. cbn. repeat split; try lia. repeat constructor; cbn; lia. }
  assert (Hp : exists p, pack_sb_block Blksz gsb_ex = Ok (Some p)).
  { unfold pack_sb_block. change (Blksz <? Blksz) with false.
    change (zlen (ps_arenabp gsb_ex) <? ps_narena gsb_ex) with false. cbv iota zeta.
    destruct (gefs_bufhash_ok
      (gsb_head gsb_ex ++ ah_table (take (Z.to_nat (ps_narena gsb_ex)) (ps_arenabp gsb_ex))))
      as (h & -> & _). cbn [rbind].
    match goal with |- context [wr zbuf 0 ?q] =>
      destruct (wr_ok zbuf 0 q) as (b & E & _) end;
      [lia|rewrite zlen_zbuf; vm_compute; discriminate|].
    exists b. by rewrite E. }
  destruct Hp as [p Hp]. exists p. split; [done|].
  exact (gefs_unpacksb_pack gsb_ex p Hw Hp).
Defined.
