(* ===== verification/PortCache.v ===== *)
(** * The block cache of the port (src/gefs_storage.c: [gefs_getblk] and its
    neighbours)

    The context of the port: the image behind the file descriptor, the
    superblock, the cache, the two trees and the arenas.  A block is a cell
    of a heap with its reference count; the hash chains and the list in order
    of use hold heap addresses, in the order in which the C pointers link the
    blocks.  Memory for a new block is never refused. *)
From S2P Require Import Prelude CInt Mem Data Hash Pack Super Blk Mst Port.

(** ** The image *)

(** The bytes of the file. *)
Record Img := mkImg { im_size : Z; im_byte : Z -> Z }.

Definition img_bytes (d : Img) (off n : Z) : list Z := im_byte d <$> seqZ off n.

(** [pread] of one block: [None] for an error or a short read. *)
Definition pread (d : Img) (off : Z) : option (list Z) :=
  if (0 <=? off) && (off + Blksz <=? im_size d) then Some (img_bytes d off Blksz) else None.

(** [pwrite] of a block; a write past the end makes the file longer, and a
    negative offset is an error that nobody looks at. *)
Definition pwrite (d : Img) (off : Z) (buf : list Z) : Img :=
  if off <? 0 then d else
  mkImg (Z.max (im_size d) (off + zlen buf))
    (fun a => if (off <=? a) && (a <? off + zlen buf) then byte_at buf (Z.to_nat (a - off))
              else if a <? im_size d then im_byte d a else 0).

(** ** The context *)

Record GBlk := mkGBlk { gb_blk : Blk; gb_ref : Z }.

Record GefsCache := mkGefsCache {
  gc_heap : gmap nat GBlk; gc_new : nat;
  gc_lru : list nat; gc_tab : gmap Z (list nat);
  gc_count : Z; gc_max : Z }.

Record GefsArena := mkGefsArena {
  ga_hdaddr : Z; ga_size : Z; ga_used : Z; ga_loghd : Bptr; ga_free : list (Z * Z) }.

Record GefsCtx := mkGefsCtx {
  gx_img : Img; gx_sb : GefsSuper; gx_cache : GefsCache;
  gx_snap : GefsTree; gx_active : GefsTree;
  gx_arenas : list GefsArena; gx_dirty : bool; gx_readonly : bool }.

Definition set_cache (c : GefsCache) (x : GefsCtx) : GefsCtx :=
  mkGefsCtx (gx_img x) (gx_sb x) c (gx_snap x) (gx_active x) (gx_arenas x) (gx_dirty x) (gx_readonly x).
Definition set_img (d : Img) (x : GefsCtx) : GefsCtx :=
  mkGefsCtx d (gx_sb x) (gx_cache x) (gx_snap x) (gx_active x) (gx_arenas x) (gx_dirty x) (gx_readonly x).
Definition set_sb (sb : GefsSuper) (x : GefsCtx) : GefsCtx :=
  mkGefsCtx (gx_img x) sb (gx_cache x) (gx_snap x) (gx_active x) (gx_arenas x) (gx_dirty x) (gx_readonly x).
Definition set_snap (t : GefsTree) (x : GefsCtx) : GefsCtx :=
  mkGefsCtx (gx_img x) (gx_sb x) (gx_cache x) t (gx_active x) (gx_arenas x) (gx_dirty x) (gx_readonly x).
Definition set_active (t : GefsTree) (x : GefsCtx) : GefsCtx :=
  mkGefsCtx (gx_img x) (gx_sb x) (gx_cache x) (gx_snap x) t (gx_arenas x) (gx_dirty x) (gx_readonly x).
Definition set_arenas (l : list GefsArena) (x : GefsCtx) : GefsCtx :=
  mkGefsCtx (gx_img x) (gx_sb x) (gx_cache x) (gx_snap x) (gx_active x) l (gx_dirty x) (gx_readonly x).
Definition set_dirty (b : bool) (x : GefsCtx) : GefsCtx :=
  mkGefsCtx (gx_img x) (gx_sb x) (gx_cache x) (gx_snap x) (gx_active x) (gx_arenas x) b (gx_readonly x).

(** ** The cache *)

Definition gefs_cache_init (max_blocks : Z) : GefsCache :=
  mkGefsCache ∅ 0 [] ∅ 0 (if 0 <? max_blocks then max_blocks else 2048).

Definition GEFS_NBUCKETS : Z := 1024.

Definition cache_hash (addr : Z) : Z :=
  let x := u64 addr in
  let x := mul64 (Z.lxor x (Z.shiftr x 30)) 0xbf58476d1ce4e5b9 in
  let x := mul64 (Z.lxor x (Z.shiftr x 27)) 0x94d049bb133111eb in
  let x := Z.lxor x (Z.shiftr x 31) in
  u32 (x mod GEFS_NBUCKETS).

Definition gbucket (c : GefsCache) (h : Z) : list nat := default [] (gc_tab c !! h).

Definition set_heap (m : gmap nat GBlk) (c : GefsCache) : GefsCache :=
  mkGefsCache m (gc_new c) (gc_lru c) (gc_tab c) (gc_count c) (gc_max c).
Definition set_lru (l : list nat) (c : GefsCache) : GefsCache :=
  mkGefsCache (gc_heap c) (gc_new c) l (gc_tab c) (gc_count c) (gc_max c).

(** [*b]: a pointer to freed memory is not followed. *)
Definition gload (c : GefsCache) (i : nat) : res GBlk :=
  match gc_heap c !! i with Some b => Ok b | None => Err Eoob end.

Definition gstore (i : nat) (b : GBlk) (c : GefsCache) : GefsCache :=
  set_heap (<[i := b]> (gc_heap c)) c.

(** The list without the first occurrence of [i]. *)
Fixpoint unlink (i : nat) (l : list nat) : list nat :=
  match l with
  | [] => []
  | j :: l' => if decide (j = i) then l' else j :: unlink i l'
  end.

Definition lru_top (i : nat) (c : GefsCache) : GefsCache :=
  if bool_decide (head (gc_lru c) = Some i) then c else set_lru (i :: unlink i (gc_lru c)) c.

Definition lru_remove (i : nat) (c : GefsCache) : GefsCache := set_lru (unlink i (gc_lru c)) c.

(** The first block of the chain with the address. *)
Fixpoint find_addr (c : GefsCache) (l : list nat) (addr : Z) : res (option nat) :=
  match l with
  | [] => Ok None
  | i :: l' =>
      let! b := gload c i in
      if bp_addr (b_bp (gb_blk b)) =? addr then Ok (Some i) else find_addr c l' addr
  end.

(** From the tail of the list on: the first block without references. *)
Fixpoint find_victim (c : GefsCache) (l : list nat) : res (option nat) :=
  match l with
  | [] => Ok None
  | i :: l' =>
      let! b := gload c i in
      if 0 <? gb_ref b then find_victim c l' else Ok (Some i)
  end.

Definition evict (c : GefsCache) : res GefsCache :=
  let! v := find_victim c (reverse (gc_lru c)) in
  match v with
  | None => Ok c
  | Some i =>
      let! b := gload c i in
      let vh := cache_hash (bp_addr (b_bp (gb_blk b))) in
      let c := mkGefsCache (gc_heap c) (gc_new c) (gc_lru c)
                 (<[vh := unlink i (gbucket c vh)]> (gc_tab c)) (gc_count c) (gc_max c) in
      let c := lru_remove i c in
      Ok (mkGefsCache (delete i (gc_heap c)) (gc_new c) (gc_lru c) (gc_tab c)
            (gc_count c - 1) (gc_max c))
  end.

(** [b->data - b->buf] of a block that was read. *)
Definition gdata (ty : Z) : Z :=
  if ty =? Tleaf then Leafhdsz else if ty =? Tpivot then Pivhdsz else 0.

(** The fields of a block that was read into [buf]; the others are zero. *)
Definition load_hdr (bp : Bptr) (buf : list Z) : res Blk :=
  let! ty := rd16 buf 0 in
  let ty := s16 ty in
  let blk nval valsz nbuf bufsz := mkBlk ty nval valsz nbuf bufsz 0 0 bp0 bp 0 buf in
  if (ty =? Tleaf) || (ty =? Tpivot) then
    let! nval := rd16 buf 2 in
    let! valsz := rd16 buf 4 in
    if ty =? Tpivot then
      let! nbuf := rd16 buf 6 in
      let! bufsz := rd16 buf 8 in
      Ok (blk (s16 nval) (s16 valsz) (s16 nbuf) (s16 bufsz))
    else Ok (blk (s16 nval) (s16 valsz) 0 0)
  else Ok (blk 0 0 0 0).

(** A new block at the head of its chain and of the list; the chain is not
    searched for a block with the same address. *)
Definition cache_ins (b : GBlk) (c : GefsCache) : nat * GefsCache :=
  let i := gc_new c in
  let h := cache_hash (bp_addr (b_bp (gb_blk b))) in
  (i, mkGefsCache (<[i := b]> (gc_heap c)) (S i) (i :: gc_lru c)
        (<[h := i :: gbucket c h]> (gc_tab c)) (gc_count c + 1) (gc_max c)).

(** [gefs_getblk] on the cache: [None] is [NULL]. *)
Definition getblk_cache (d : Img) (bp : Bptr) (c : GefsCache) : res (option nat * GefsCache) :=
  let! hit := find_addr c (gbucket c (cache_hash (bp_addr bp))) (bp_addr bp) in
  match hit with
  | Some i =>
      let! b := gload c i in
      Ok (Some i, lru_top i (gstore i (mkGBlk (gb_blk b) (gb_ref b + 1)) c))
  | None =>
      let! c := if gc_max c <=? gc_count c then evict c else Ok c in
      match pread d (bp_addr bp) with
      | None => Ok (None, c)
      | Some buf =>
          let! b := load_hdr bp buf in
          let (i, c) := cache_ins (mkGBlk b 1) c in
          Ok (Some i, c)
      end
  end.

(** Run a function of the cache. *)
Definition on_cache {A} (f : GefsCache -> res (A * GefsCache)) : M GefsCtx A :=
  fun x => match f (gx_cache x) with
  | Ok (a, c) => (Ok a, set_cache c x)
  | Err e => (Err e, x)
  end.

Definition gefs_getblk (bp : Bptr) : M GefsCtx (option nat) :=
  let* x := mget in on_cache (getblk_cache (gx_img x) bp).

Definition gefs_holdblk (i : nat) : M GefsCtx nat :=
  on_cache (fun c => let! b := gload c i in Ok (i, gstore i (mkGBlk (gb_blk b) (gb_ref b + 1)) c)).

Definition gefs_dropblk (i : nat) : M GefsCtx unit :=
  on_cache (fun c =>
    let! b := gload c i in
    let ref := gb_ref b - 1 in
    Ok (tt, gstore i (mkGBlk (gb_blk b) (if ref <? 0 then 0 else ref)) c)).

(** The block behind a pointer. *)
Definition gread (i : nat) : M GefsCtx Blk :=
  let* x := mget in let* b := mlift (gload (gx_cache x) i) in mret (gb_blk b).

(** Every block on the list is freed and the cache is zeroed. *)
Definition gefs_cache_free (x : GefsCtx) : GefsCtx :=
  set_cache (mkGefsCache ∅ (gc_new (gx_cache x)) [] ∅ 0 0) x.

(** ** The cache is transparent

    Every cached block has the bytes of the image at its address, and no two
    have the same address; the chains and the list hold exactly the blocks of
    the heap.  Then reading a block gives the bytes of the image, and takes no
    block away from who holds it. *)

(** A block agrees with the image: its bytes do, and its header was read from
    them.  [D] are the addresses that are exempt: the data blocks that were
    written and not read, and the headers that are written past the cache. *)
Definition blk_img (d : Img) (D : gset Z) (b : Blk) : Prop :=
  bp_addr (b_bp b) ∈ D \/
  (pread d (bp_addr (b_bp b)) = Some (b_buf b) /\ load_hdr (b_bp b) (b_buf b) = Ok b).

Definition gb_addr (b : GBlk) : Z := bp_addr (b_bp (gb_blk b)).

Record cache_ok (d : Img) (D : gset Z) (c : GefsCache) : Prop := {
  co_img : forall i b, gc_heap c !! i = Some b -> blk_img d D (gb_blk b) /\ 0 <= gb_ref b;
  co_new : forall i, is_Some (gc_heap c !! i) -> (i < gc_new c)%nat;
  co_uniq : forall i j b b', gc_heap c !! i = Some b -> gc_heap c !! j = Some b' ->
    gb_addr b = gb_addr b' -> i = j;
  co_lru : NoDup (gc_lru c) /\ forall i, i ∈ gc_lru c <-> is_Some (gc_heap c !! i);
  co_tab : forall h, NoDup (gbucket c h) /\ forall i, i ∈ gbucket c h <->
    exists b, gc_heap c !! i = Some b /\ cache_hash (gb_addr b) = h;
  co_count : gc_count c = zlen (gc_lru c) }.

Lemma elem_of_unlink i j l : NoDup l -> j ∈ unlink i l <-> j ∈ l /\ j <> i.
Proof.
  induction 1 as [|a l Ha Hl IH]; cbn [unlink]; [set_solver|].
  destruct (decide (a = i)) as [->|Hai].
  - split; [intros Hj; split; [by right|]; by intros ->|].
    intros [Hj Hne]. by apply elem_of_cons in Hj as [->|Hj].
  - rewrite !elem_of_cons, IH. naive_solver.
Qed.

Lemma NoDup_unlink i l : NoDup l -> NoDup (unlink i l).
Proof.
  induction 1 as [|a l Ha Hl IH]; cbn [unlink]; [constructor|].
  destruct (decide (a = i)); [done|]. constructor; [|done].
  by rewrite elem_of_unlink by done; intros [? _].
Qed.

Lemma length_unlink i l : i ∈ l -> S (length (unlink i l)) = length l.
Proof.
  induction l as [|a l IH]; [by intros ?%elem_of_nil|]. intros Hi. cbn [unlink length].
  destruct (decide (a = i)) as [->|Hne]; [done|]. cbn [length]. rewrite IH; [done|].
  apply elem_of_cons in Hi as [->|?]; done.
Qed.

Lemma gbucket_insert m n l t k x h h' v :
  gbucket (mkGefsCache m n l (<[h := v]> t) k x) h' =
  if decide (h = h') then v else default [] (t !! h').
Proof. unfold gbucket. cbn. rewrite lookup_insert. by case_decide. Qed.

(** Looking up a chain. *)
Lemma find_addr_spec c l addr :
  (forall i, i ∈ l -> is_Some (gc_heap c !! i)) ->
  (exists i b, find_addr c l addr = Ok (Some i) /\ i ∈ l /\
     gc_heap c !! i = Some b /\ gb_addr b = addr) \/
  (find_addr c l addr = Ok None /\
     forall i b, i ∈ l -> gc_heap c !! i = Some b -> gb_addr b <> addr).
Proof.
  induction l as [|j l IH]; intros Hl; cbn [find_addr].
  { right. split; [done|]. by intros i b ?%elem_of_nil. }
  destruct (Hl j) as [b Hb]; [by left|]. unfold gload. rewrite Hb. cbn [rbind].
  fold (gb_addr b). destruct (Z.eqb_spec (gb_addr b) addr) as [He|Hne].
  - left. exists j, b. split; [done|]. split; [by left|]. done.
  - destruct IH as [(i & b' & ? & ? & ?)|[E Hn]]; [by intros; apply Hl; right| |].
    + left. exists i, b'. split; [done|]. split; [by right|done].
    + right. split; [done|]. intros i b' [->|Hi]%elem_of_cons Hb'; [by simplify_eq|by eapply Hn].
Qed.

Lemma find_victim_spec c l :
  (forall i, i ∈ l -> is_Some (gc_heap c !! i)) ->
  (exists i b, find_victim c l = Ok (Some i) /\ i ∈ l /\ gc_heap c !! i = Some b /\ gb_ref b <= 0) \/
  find_victim c l = Ok None.
Proof.
  induction l as [|j l IH]; intros Hl; cbn [find_victim]; [by right|].
  destruct (Hl j) as [b Hb]; [by left|]. unfold gload. rewrite Hb. cbn [rbind].
  destruct (Z.ltb_spec 0 (gb_ref b)) as [Hr|Hr].
  - destruct IH as [(i & b' & ? & ? & ?)|E]; [by intros; apply Hl; right| |by right].
    left. exists i, b'. split; [done|]. split; [by right|done].
  - left. exists j, b. split; [done|]. split; [by left|done].
Qed.

(** [i] is held: it will not be freed. *)
Definition held (c : GefsCache) (i : nat) (b : Blk) : Prop :=
  exists r, gc_heap c !! i = Some (mkGBlk b r) /\ 0 < r.

(** The blocks that are held stay. *)
Definition keeps (c c' : GefsCache) : Prop := forall i b, held c i b -> held c' i b.

#[export] Instance keeps_preorder : PreOrder keeps.
Proof. split; [by intros c i b|]. intros c1 c2 c3 H1 H2 i b Hb. by apply H2, H1. Qed.

Lemma set_ref_ok d D c i b r :
  cache_ok d D c -> gc_heap c !! i = Some b -> 0 <= r ->
  cache_ok d D (gstore i (mkGBlk (gb_blk b) r) c).
Proof.
  intros [H1 H2 H3 H4 H5 H6] Hb Hr. set (b' := mkGBlk (gb_blk b) r).
  assert (Hlk : forall j x, <[i := b']> (gc_heap c) !! j = Some x ->
    exists y, gc_heap c !! j = Some y /\ gb_blk x = gb_blk y).
  { intros j x. rewrite lookup_insert. case_decide as E; [|by exists x].
    subst j. intros [= <-]. by exists b. }
  assert (Hdom : forall j, is_Some (<[i := b']> (gc_heap c) !! j) <-> is_Some (gc_heap c !! j)).
  { intros j. rewrite lookup_insert. case_decide as E; [|done]. subst j. rewrite Hb. done. }
  split; cbn.
  - intros j x. rewrite lookup_insert. case_decide as E; [|by apply H1].
    intros [= <-]. split; [apply (H1 _ _ Hb)|done].
  - intros j Hj%Hdom. by apply H2.
  - intros j k x y (x' & Hx & Ex)%Hlk (y' & Hy & Ey)%Hlk Ha. unfold gb_addr in *.
    rewrite Ex, Ey in Ha. by eapply H3.
  - split; [apply H4|]. intros j. rewrite Hdom. apply H4.
  - intros h. split; [apply H5|]. intros j. etransitivity; [apply H5|]. split.
    + intros (x & Hx & Hh). rewrite lookup_insert. case_decide as E; [|by exists x].
      subst j. exists b'. split; [done|]. by simplify_eq.
    + intros (x & (y & Hy & E)%Hlk & Hh). exists y. split; [done|].
      unfold gb_addr in *. by rewrite <- E.
  - done.
Qed.

Lemma lru_top_ok d D c i : cache_ok d D c -> is_Some (gc_heap c !! i) -> cache_ok d D (lru_top i c).
Proof.
  intros [H1 H2 H3 [H4 H4'] H5 H6] Hi. unfold lru_top.
  destruct (bool_decide_reflect (head (gc_lru c) = Some i)); [by split|].
  apply H4' in Hi as Hi'. split; cbn; try done.
  - split.
    + constructor; [|by apply NoDup_unlink]. rewrite elem_of_unlink by done. by intros [_ ?].
    + intros j. rewrite elem_of_cons, elem_of_unlink by done. rewrite <- H4'.
      destruct (decide (j = i)) as [->|]; naive_solver.
  - rewrite H6. unfold zlen. cbn [length]. by rewrite length_unlink.
Qed.

Lemma heap_lru_top i c : gc_heap (lru_top i c) = gc_heap c.
Proof. unfold lru_top. by destruct (bool_decide _). Qed.

Lemma evict_ok d D c :
  cache_ok d D c -> exists c', evict c = Ok c' /\ cache_ok d D c' /\ keeps c c' /\
    (forall i b, gc_heap c' !! i = Some b -> gc_heap c !! i = Some b).
Proof.
  intros H. unfold evict. pose proof H as [H1 H2 H3 [H4 H4'] H5 H6].
  destruct (find_victim_spec c (reverse (gc_lru c))) as [(i & b & -> & Hi & Hb & Hr)| ->].
  { intros i Hi. rewrite elem_of_reverse in Hi. by apply H4'. }
  2:{ exists c. by split; [|split; [|split]]. }
  cbn [rbind]. unfold gload. rewrite Hb. cbn [rbind]. fold (gb_addr b).
  rewrite elem_of_reverse in Hi.
  eexists. split; [done|]. unfold lru_remove. cbn. split; [split; cbn|split].
  - intros j x [_ Hx]%lookup_delete_Some. by eapply H1.
  - intros j [x [_ Hx]%lookup_delete_Some]. by apply H2.
  - intros j k x y [_ Hx]%lookup_delete_Some [_ Hy]%lookup_delete_Some. by eapply H3.
  - split; [by apply NoDup_unlink|]. intros j. rewrite elem_of_unlink, H4' by done.
    rewrite lookup_delete_is_Some. naive_solver.
  - intros h. rewrite !gbucket_insert. case_decide as E.
    + subst h. destruct (H5 (cache_hash (gb_addr b))) as [Hn Hm].
      split; [by apply NoDup_unlink|]. intros j. rewrite elem_of_unlink by done.
      rewrite (Hm j). split.
      * intros [(x & Hx & Eh) Hne]. exists x. split; [|done]. by rewrite lookup_delete_ne.
      * intros (x & [Hne Hx]%lookup_delete_Some & Eh). split; [by exists x|done].
    + fold (gbucket c h). destruct (H5 h) as [Hn Hm]. split; [done|]. intros j. rewrite (Hm j). split.
      * intros (x & Hx & Eh). exists x. split; [|done]. rewrite lookup_delete_ne; [done|].
        intros ->. rewrite Hb in Hx. injection Hx as <-. done.
      * intros (x & [Hne Hx]%lookup_delete_Some & Eh). by exists x.
  - rewrite H6. unfold zlen. pose proof (length_unlink _ _ Hi). lia.
  - intros j x (r & Hx & Hr'). exists r. split; [|done]. cbn. rewrite lookup_delete_ne; [done|].
    intros ->. rewrite Hb in Hx. injection Hx as ->. cbn in Hr. lia.
  - by intros j x [_ Hx]%lookup_delete_Some.
Qed.

Lemma cache_ins_ok d D c b i c' :
  cache_ok d D c -> blk_img d D (gb_blk b) -> 0 <= gb_ref b ->
  (forall j x, gc_heap c !! j = Some x -> gb_addr x <> gb_addr b) ->
  cache_ins b c = (i, c') ->
  cache_ok d D c' /\ keeps c c' /\ gc_heap c' !! i = Some b.
Proof.
  intros [H1 H2 H3 [H4 H4'] H5 H6] Hd Hr0 Hf [= <- <-].
  assert (Hn : gc_heap c !! gc_new c = None).
  { apply eq_None_not_Some. intros Hi%H2. lia. }
  assert (Hne : forall j, is_Some (gc_heap c !! j) -> gc_new c <> j).
  { intros j Hj E. rewrite <- E, Hn in Hj. by destruct Hj. }
  split; [split; cbn|split].
  - intros j x. rewrite lookup_insert. case_decide; [by intros [= <-]|by apply H1].
  - intros j. rewrite lookup_insert. case_decide; [lia|]. intros Hj%H2. lia.
  - intros j k x y. rewrite !lookup_insert. do 2 case_decide; subst; try done.
    + intros [= <-] Hy E. exfalso. by eapply Hf.
    + intros Hx [= <-] E. exfalso. by eapply Hf.
    + apply H3.
  - split.
    + constructor; [|done]. rewrite H4', Hn. by intros [? ?].
    + intros j. rewrite elem_of_cons, H4', lookup_insert. case_decide; [subst; naive_solver|].
      split; [|by right]. by intros [->|?].
  - intros h. rewrite !gbucket_insert. fold (gb_addr b) in *. case_decide as E.
    + destruct (H5 (cache_hash (gb_addr b))) as [Hd1 Hm].
      split; [constructor; [|done]|].
      * intros (x & Hx & _)%Hm. by rewrite Hn in Hx.
      * intros j. rewrite elem_of_cons, (Hm j), lookup_insert. split.
        -- intros [->|(x & Hx & Eh)]; [exists b; by rewrite decide_True|].
           exists x. rewrite decide_False by (apply Hne; by rewrite Hx). by subst h.
        -- intros (x & Hx & Eh). case_decide; [by left|]. right. exists x. by subst h.
    + fold (gbucket c h). destruct (H5 h) as [Hd1 Hm]. split; [done|]. intros j. rewrite (Hm j), lookup_insert. split.
      * intros (x & Hx & Eh). exists x. by rewrite decide_False by (apply Hne; by rewrite Hx).
      * intros (x & Hx & Eh). case_decide; [|by exists x]. injection Hx as <-. by destruct E.
  - rewrite H6, zlen_cons. lia.
  - intros j x (r & Hx & Hr). exists r. split; [|done]. cbn.
    rewrite lookup_insert, decide_False; [done|]. apply Hne. by rewrite Hx.
  - cbn. by rewrite lookup_insert, decide_True.
Qed.

Lemma load_hdr_shape bp buf :
  zlen buf = Blksz -> exists b, load_hdr bp buf = Ok b /\ b_bp b = bp /\ b_buf b = buf.
Proof.
  intros Hl. assert (Hr : forall o, 0 <= o <= 8 -> exists v, rd16 buf o = Ok v).
  { intros o Ho. destruct (rd_ok buf o 2) as (q & E & _); [lia|lia|rewrite Hl; change Blksz with 16384; lia|].
    exists (UNPACK16 q). unfold rd16. by rewrite E. }
  unfold load_hdr. destruct (Hr 0) as [ty ->]; [lia|]. cbn [rbind].
  destruct (Hr 2) as [x2 ->]; [lia|]. destruct (Hr 4) as [x4 ->]; [lia|].
  destruct (Hr 6) as [x6 ->]; [lia|]. destruct (Hr 8) as [x8 ->]; [lia|]. cbn [rbind].
  destruct (_ || _); [destruct (_ =? Tpivot)|]; eexists; (split; [done|]); done.
Qed.

Lemma pread_zlen d off buf : pread d off = Some buf -> zlen buf = Blksz.
Proof.
  unfold pread, img_bytes. destruct (_ && _); [|done]. intros E. apply (inj Some) in E as <-.
  rewrite zlen_fmap. unfold zlen. rewrite length_seqZ. apply Z2Nat.id. by vm_compute.
Qed.

Lemma keeps_set_ref c i b r :
  gc_heap c !! i = Some b -> gb_ref b <= r -> keeps c (gstore i (mkGBlk (gb_blk b) r) c).
Proof.
  intros Hb Hr j x (q & Hx & Hq). unfold held. cbn. rewrite lookup_insert. case_decide as E.
  - subst j. rewrite Hb in Hx. injection Hx as ->. cbn in *. exists r. split; [done|lia].
  - by exists q.
Qed.

Lemma keeps_heap c c' : gc_heap c' = gc_heap c -> keeps c c'.
Proof. intros E j x (q & Hx & Hq). exists q. by rewrite E. Qed.

(** Some block of the cache has the address [a]. *)
Definition cached (c : GefsCache) (a : Z) : Prop :=
  exists i b, gc_heap c !! i = Some b /\ gb_addr b = a.

Lemma cached_set_ref c i b r a :
  gc_heap c !! i = Some b -> cached (gstore i (mkGBlk (gb_blk b) r) c) a -> cached c a.
Proof.
  intros Hb (j & y & Hy & Ha). cbn in Hy. rewrite lookup_insert in Hy. case_decide as E.
  - injection Hy as <-. by exists i, b.
  - by exists j, y.
Qed.

(** Reading a block: the answer depends on the image only. *)
Lemma getblk_cache_ok d D c bp :
  cache_ok d D c -> exists r c', getblk_cache d bp c = Ok (r, c') /\ cache_ok d D c' /\ keeps c c' /\
    (forall a, cached c' a -> a = bp_addr bp \/ cached c a) /\
    match r with
    | Some i => exists b, held c' i b /\ bp_addr (b_bp b) = bp_addr bp /\ blk_img d D b
    | None => pread d (bp_addr bp) = None
    end.
Proof.
  intros H. unfold getblk_cache.
  destruct (co_tab _ _ _ H (cache_hash (bp_addr bp))) as [_ Hb].
  destruct (find_addr_spec c (gbucket c (cache_hash (bp_addr bp))) (bp_addr bp))
    as [(i & b & -> & Hi & Eb & Ha)|[-> Hn]].
  { intros i (b & Hi & _)%Hb. by rewrite Hi. }
  - cbn [rbind]. unfold gload. rewrite Eb. cbn [rbind].
    destruct (co_img _ _ _ H _ _ Eb) as [Hbi Hb0].
    eexists (Some i), _. split; [done|]. split; [apply lru_top_ok|split; [|split]].
    + apply set_ref_ok; [done|done|lia].
    + cbn. by rewrite lookup_insert, decide_True.
    + etrans; [apply (keeps_set_ref c i b (gb_ref b + 1)); [done|lia]|].
      apply keeps_heap, heap_lru_top.
    + intros a Hc. right. apply (cached_set_ref c i b (gb_ref b + 1)); [done|].
      unfold cached in *. by rewrite heap_lru_top in Hc.
    + exists (gb_blk b). split; [|done].
      eexists. rewrite heap_lru_top. cbn. rewrite lookup_insert, decide_True by done.
      split; [done|lia].
  - cbn [rbind].
    assert (Hc : exists c1, (if gc_max c <=? gc_count c then evict c else Ok c) = Ok c1 /\
      cache_ok d D c1 /\ keeps c c1 /\ (forall a, cached c1 a -> cached c a) /\
      forall j x, gc_heap c1 !! j = Some x -> gb_addr x <> bp_addr bp).
    { assert (Hno : forall j x, gc_heap c !! j = Some x -> gb_addr x <> bp_addr bp).
      { intros j x Hx Ha. apply (Hn j x); [|done|done]. apply Hb. exists x. by rewrite Ha. }
      destruct (gc_max c <=? gc_count c); [|by exists c].
      destruct (evict_ok d D c H) as (c1 & E & H1 & Hk & Hs). exists c1.
      split; [done|]. split; [done|]. split; [done|]. split.
      - intros a (j & y & Hy%Hs & Ha). by exists j, y.
      - intros j x Hx%Hs. by eapply Hno. }
    destruct Hc as (c1 & -> & H1 & Hk & Hca & Hno). cbn [rbind].
    destruct (pread d (bp_addr bp)) as [buf|] eqn:Ep.
    2:{ exists None, c1. do 3 (split; [done|]). split; [|done]. intros a Ha. right. auto. }
    destruct (load_hdr_shape bp buf) as (b & E & Ebp & Ebuf); [by eapply pread_zlen|].
    rewrite E. cbn [rbind]. destruct (cache_ins _ c1) as [i c2] eqn:Ei.
    assert (Hbi : blk_img d D b).
    { right. rewrite Ebp, Ebuf. done. }
    destruct (cache_ins_ok d D c1 (mkGBlk b 1) i c2) as (H2 & Hk2 & Hi); [done|done|done| |done|].
    { unfold gb_addr at 2. cbn. rewrite Ebp. done. }
    exists (Some i), c2. split; [done|]. split; [done|]. split; [by etrans|]. split.
    { intros a (j & y & Hy & Ha). injection Ei as <- <-. cbn in Hy. rewrite lookup_insert in Hy.
      case_decide; [injection Hy as <-; left; rewrite <- Ha; unfold gb_addr; cbn; by rewrite Ebp|].
      right. apply Hca. by exists j, y. }
    exists b. split; [by exists 1|]. by rewrite Ebp.
Qed.
