(* ===== verification/PortTree.v ===== *)
(** * Lookups and scans of the port (src/gefs_storage.c)

    [gefs_getval] to [gefs_btexit].  A [Kvp] of the C code points into a
    block or into the caller's buffer; here it is the bytes.  The pair a
    search was never able to load is [None]. *)
From S2P Require Import Prelude CInt Mem Data Keys Pack Blk Search Apply Mst Port PortCache.

(** ** Values and messages of a block *)

(** [b->data - b->buf] *)
Definition gdata_off (b : Blk) : Z := gdata (b_type b).

Definition gefs_getval (b : Blk) (i : Z) : res Kvp :=
  assert! (0 <=? i) && (i <? b_nval b) in
  let d := gdata_off b in
  let! o := rd16 (b_buf b) (d + 2 * i) in
  let! nk := rd16 (b_buf b) (d + o) in
  let! k := rd (b_buf b) (d + o + 2) nk in
  let! nv := rd16 (b_buf b) (d + o + 2 + nk) in
  let! v := rd (b_buf b) (d + o + 2 + nk + 2) (s16 nv) in
  Ok (mkKvp k v).

Definition gefs_getmsg (b : Blk) (i : Z) : res Msg :=
  assert! b_type b =? Tpivot in
  assert! (0 <=? i) && (i <? b_nbuf b) in
  let d := gdata_off b in
  let! o := rd16 (b_buf b) (d + Pivspc + 2 * i) in
  let! op := rd (b_buf b) (d + Pivspc + o) 1 in
  let! nk := rd16 (b_buf b) (d + Pivspc + o + 1) in
  let! k := rd (b_buf b) (d + Pivspc + o + 1 + 2) nk in
  let! nv := rd16 (b_buf b) (d + Pivspc + o + 1 + 2 + nk) in
  let! v := rd (b_buf b) (d + Pivspc + o + 1 + 2 + nk + 2) (s16 nv) in
  Ok (mkMsg (s8 (UNPACK8 op)) k v).

(** The loop of both searches: the leftmost of equal keys. *)
Fixpoint gsearch_loop (fuel : nat) (get : Z -> res (list Z)) (k : list Z)
    (lo hi ri : Z) : res (Z * Z) :=
  if hi <? lo then Ok (lo, ri) else
  match fuel with
  | O => Err Efuel
  | S fuel' =>
      let mid := (hi + lo) / 2 in
      let! cmp := get mid in
      let r := gefs_keycmp k cmp in
      if r =? -1 then gsearch_loop fuel' get k lo (mid - 1) ri
      else if r =? 0 then gsearch_loop fuel' get k lo (mid - 1) mid
      else gsearch_loop fuel' get k (mid + 1) hi ri
  end.

(** The index, [*same], and [*rp] when it is written. *)
Definition gblksearch (b : Blk) (k : list Z) : res (Z * bool * option Kvp) :=
  let! (lo, ri) := gsearch_loop (Z.to_nat (b_nval b))
    (fun mid => let! cmp := gefs_getval b mid in Ok (kv_k cmp)) k 0 (b_nval b - 1) (-1) in
  let (ri, same) := if ri =? -1 then (lo - 1, false) else (ri, true) in
  if 0 <=? ri then let! kv := gefs_getval b ri in Ok (ri, same, Some kv)
  else Ok (ri, same, None).

Definition gbufsearch (b : Blk) (k : list Z) : res (Z * bool * option Msg) :=
  let! (lo, ri) := gsearch_loop (Z.to_nat (b_nbuf b))
    (fun mid => let! cmp := gefs_getmsg b mid in Ok (m_k cmp)) k 0 (b_nbuf b - 1) (-1) in
  let (ri, same) := if ri =? -1 then (lo - 1, false) else (ri, true) in
  if 0 <=? ri then let! m := gefs_getmsg b ri in Ok (ri, same, Some m)
  else Ok (ri, same, None).

(** ** Applying a message *)

Definition gset_mode (d : Xdir) (v : Z) : Xdir :=
  mkXdir (d_flag d) (d_qid d) v (d_atime d) (d_mtime d) (d_length d) (d_uid d) (d_gid d)
    (d_muid d) (d_name d).

(** The mask takes four bytes; the version stays. *)
Definition gstatupdate (kv : Kvp) (m : Msg) : res Kvp :=
  let v := m_v m in
  let! d := gefs_kv2dir kv in
  let! f := rd32 v 0 in
  let! st := wstat64 v f Owsize set_length (d, 4) in
  let! st := wstat32 v f Owmode gset_mode st in
  let! st := wstat64 v f Owmtime (fun d x => set_mtime d (s64 x)) st in
  let! st := wstat64 v f Owatime (fun d x => set_atime d (s64 x)) st in
  let! st := wstat32 v f Owuid (fun d x => set_uid d (s32 x)) st in
  let! st := wstat32 v f Owgid (fun d x => set_gid d (s32 x)) st in
  let! (d, p) := wstat32 v f Owmuid (fun d x => set_muid d (s32 x)) st in
  let! w := gefs_packdval (zlen (kv_v kv)) d in
  Ok (mkKvp (kv_k kv) (w ++ drop 61 (kv_v kv))).

(** An insertion does not look at the pair; the other operations read its
    key first. *)
Definition gapply_msg (r : option Kvp) (m : Msg) (nbuf : Z) : res (bool * option Kvp) :=
  let op := m_op m in
  if (op =? Odelete) || (op =? Oclearb) || (op =? Oclobber) then Ok (false, r)
  else if op =? Oinsert then let! kv := gefs_cpkvp (kv_of_msg m) nbuf in Ok (true, Some kv)
  else if op =? Owstat then
    match r with
    | None => Err Euninit
    | Some kv =>
        if gefs_keycmp (kv_k kv) (m_k m) =? 0
        then let! kv := gstatupdate kv m in Ok (true, Some kv)
        else Ok (true, Some kv)
    end
  else Ok (true, r).

(** ** [gefs_btlookup] *)

(** The blocks below the root: the walk stops where there is no child, or
    the child cannot be read, and the rest of the array stays null. *)
Fixpoint gload_path (n : nat) (b : nat) (k : list Z) (r : option Kvp)
  : M GefsCtx (list (option nat) * option Kvp) :=
  match n with
  | O => mret ([], r)
  | S n' =>
      let* pb := gread b in
      let* (ri, same, e) := mlift (gblksearch pb k) in
      let r := match e with Some e => Some e | None => r end in
      if ri =? -1 then mret (replicate n None, r) else
      match r with
      | None => merror Euninit
      | Some kv =>
          let* bp := mlift (gefs_unpackbp (kv_v kv)) in
          let* c := gefs_getblk bp in
          match c with
          | None => mret (replicate n None, r)
          | Some c =>
              let* (p, r) := gload_path n' c k r in
              mret (Some c :: p, r)
          end
      end
  end.

(** The later messages with the key: [for(j++; j < p[i]->nbuf; j++)]. *)
Fixpoint gapply_more (fuel : nat) (b : Blk) (k : list Z) (j : Z) (ok : bool) (r : option Kvp)
    (nbuf : Z) : res (bool * option Kvp) :=
  if negb (j <? b_nbuf b) then Ok (ok, r) else
  match fuel with
  | O => Err Efuel
  | S fuel' =>
      let! m := gefs_getmsg b j in
      if negb (gefs_keycmp k (m_k m) =? 0) then Ok (ok, r) else
      let! (ok, r) := gapply_msg r m nbuf in
      gapply_more fuel' b k (j + 1) ok r nbuf
  end.

(** One level of the buffers. *)
Definition gapply_level (b : Blk) (k : list Z) (ok : bool) (r : option Kvp) (nbuf : Z)
  : res (bool * option Kvp) :=
  let! (j, same, m) := gbufsearch b k in
  if (j <? 0) || negb same then Ok (ok, r) else
  match m with
  | None => Err Euninit
  | Some m =>
      let! (ok, r) := if ok || (m_op m =? Oinsert) then gapply_msg r m nbuf else Ok (ok, r) in
      gapply_more (Z.to_nat (b_nbuf b)) b k (j + 1) ok r nbuf
  end.

(** From the level above the leaf to the root. *)
Fixpoint gapply_levels (l : list (option nat)) (k : list Z) (ok : bool) (r : option Kvp)
    (nbuf : Z) : M GefsCtx (bool * option Kvp) :=
  match l with
  | [] => mret (ok, r)
  | None :: l' => gapply_levels l' k ok r nbuf
  | Some i :: l' =>
      let* b := gread i in
      let* (ok, r) := mlift (gapply_level b k ok r nbuf) in
      gapply_levels l' k ok r nbuf
  end.

Fixpoint gdropblks (l : list (option nat)) : M GefsCtx unit :=
  match l with
  | [] => mret tt
  | None :: l' => gdropblks l'
  | Some i :: l' => do* gefs_dropblk i in gdropblks l'
  end.

(** The result and the pair [*r], which is only meant when the result is
    true; a height of 0 writes [p[0]] outside the array, a negative one asks
    for more memory than there is. *)
Definition gefs_btlookup (t : GefsTree) (k : list Z) (nbuf : Z) : M GefsCtx (bool * option Kvp) :=
  let h := pt_ht t in
  let* b := gefs_getblk (pt_bp t) in
  match b with
  | None => mret (false, None)
  | Some b =>
      if h <? 0 then do* gefs_dropblk b in mret (false, None) else
      if h =? 0 then merror Eoob else
      do* gefs_holdblk b in
      let* (p, r) := gload_path (Z.to_nat h - 1) b k None in
      let p := Some b :: p in
      let* (ok, r) :=
        match last p with
        | Some (Some leaf) =>
            let* lb := gread leaf in
            let* (ri, same, e) := mlift (gblksearch lb k) in
            mret (same, match e with Some e => Some e | None => r end)
        | _ => mret (false, r)
        end in
      let* r :=
        match ok, r with
        | true, Some e => let* e := mlift (gefs_cpkvp e nbuf) in mret (Some e)
        | true, None => merror Euninit
        | false, _ => mret r
        end in
      let* (ok, r) := gapply_levels (tail (reverse p)) k ok r nbuf in
      do* gdropblks p in
      do* gefs_dropblk b in
      mret (ok, r)
  end.

(** ** Scans *)

Record GefsScanp := mkGefsScanp { gp_bi : Z; gp_vi : Z; gp_b : option nat }.

(** [r] of [gefs_btnext] is always [&s->kv]. *)
Record GefsScan := mkGefsScan {
  gs_first : bool; gs_donescan : bool; gs_ht : Z; gs_kv : Kvp; gs_pfx : list Z;
  gs_path : list GefsScanp }.

Definition gefs_btnewscan (pfx : list Z) : GefsScan :=
  mkGefsScan true false 0 (mkKvp pfx []) pfx [].

Definition gs_done (s : GefsScan) (p : list GefsScanp) : GefsScan :=
  mkGefsScan (gs_first s) true (gs_ht s) (gs_kv s) (gs_pfx s) p.

(** Skip the messages with the key [k] from index [i]. *)
Fixpoint gskip_same (fuel : nat) (b : Blk) (k : list Z) (i : Z) : res Z :=
  if negb (i <? b_nbuf b) then Ok i else
  match fuel with
  | O => Err Efuel
  | S fuel' =>
      let! c := gefs_getmsg b i in
      if negb (gefs_keycmp k (m_k c) =? 0) then Ok i else gskip_same fuel' b k (i + 1)
  end.

(** The place in the buffer where the scan starts. *)
Definition genter_buf (b : Blk) (k : list Z) (first : bool) : res Z :=
  let! (bi, same, om) := gbufsearch b k in
  if bi =? -1 then Ok 0
  else if negb same || negb first then
    match om with
    | Some m => gskip_same (Z.to_nat (b_nbuf b)) b (m_k m) bi
    | None => Err Euninit
    end
  else Ok bi.

(** The loop of [gefs_btenter] over [n] levels from the block [b] on; [own]
    says that the level holds the pointer.  Below a leaf the loop goes on with
    the same leaf, on levels that hold nothing. *)
Fixpoint genter_loop (n : nat) (b : nat) (own : bool) (k : list Z) (first : bool)
  : M GefsCtx (list GefsScanp) :=
  match n with
  | O => mret []
  | S n' =>
      let* pb := gread b in
      let* (vi, same, ov) := mlift (gblksearch pb k) in
      let here bi vi := mkGefsScanp bi vi (if own then Some b else None) in
      if b_type pb =? Tpivot then
        let* (vi, ov) :=
          if vi =? -1 then let* v := mlift (gefs_getval pb 0) in mret (0, Some v)
          else mret (vi, ov) in
        let* bi := mlift (genter_buf pb k first) in
        match ov with
        | None => merror Euninit
        | Some v =>
            let* bp := mlift (gefs_unpackbp (kv_v v)) in
            let* c := gefs_getblk bp in
            match n', c with
            | O, _ | _, None => merror Eoob
            | _, Some c =>
                let* p := genter_loop n' c true k first in mret (here bi vi :: p)
            end
        end
      else
        let vi := if (vi =? -1) || negb same || negb first then vi + 1 else vi in
        let* p := genter_loop n' b false k first in mret (here 0 vi :: p)
  end.

Definition gefs_btenter (t : GefsTree) (s : GefsScan) : M GefsCtx GefsScan :=
  if gs_donescan s then mret s else
  let s := mkGefsScan (gs_first s) false (pt_ht t) (gs_kv s) (gs_pfx s) (gs_path s) in
  let* b := gefs_getblk (pt_bp t) in
  match b with
  | None => mret (gs_done s (gs_path s))
  | Some b =>
      if pt_ht t <? 0 then do* gefs_dropblk b in mret (gs_done s []) else
      if pt_ht t =? 0 then merror Eoob else
      let* p := genter_loop (Z.to_nat (pt_ht t)) b true (kv_k (gs_kv s)) (gs_first s) in
      mret (mkGefsScan false false (pt_ht t) (gs_kv s) (gs_pfx s) p)
  end.

Definition gat (p : list GefsScanp) (i : nat) : res GefsScanp :=
  match p !! i with Some x => Ok x | None => Err Eoob end.

(** [p[i].b->...]: a null pointer is not followed. *)
Definition gat_blk (p : list GefsScanp) (i : nat) : M GefsCtx (GefsScanp * Blk) :=
  let* x := mlift (gat p i) in
  match gp_b x with
  | None => merror Eoob
  | Some b => let* pb := gread b in mret (x, pb)
  end.

Definition gstep_vi (x : GefsScanp) : GefsScanp := mkGefsScanp (gp_bi x) (gp_vi x + 1) (gp_b x).
Definition gstep_bi (x : GefsScanp) : GefsScanp := mkGefsScanp (gp_bi x + 1) (gp_vi x) (gp_b x).

(** The loop from the leaf up: leave the blocks that are used up; [None] at
    the end of the scan. *)
Fixpoint gback_up (i : nat) (p : list GefsScanp) (start : nat)
  : M GefsCtx (option nat * list GefsScanp) :=
  let* x := mlift (gat p i) in
  let* more :=
    match gp_b x with
    | None => mret false
    | Some b =>
        let* pb := gread b in
        mret ((gp_vi x <? b_nval pb) || ((b_type pb =? Tpivot) && (gp_bi x <? b_nbuf pb)))
    end in
  if more then mret (Some start, p) else
  match i with
  | O => mret (None, p)
  | S i' =>
      do* (match gp_b x with Some b => gefs_dropblk b | None => mret tt end) in
      gback_up i' (alter gstep_vi i' (<[i := mkGefsScanp 0 0 None]> p)) i
  end.

(** [for(i = start; i < h; i++)]; [false] when a block cannot be read. *)
Fixpoint gload_down (n i : nat) (p : list GefsScanp) : M GefsCtx (bool * list GefsScanp) :=
  match n with
  | O => mret (true, p)
  | S n' =>
      let* (x, pb) := gat_blk p (i - 1) in
      let* kv := mlift (gefs_getval pb (gp_vi x)) in
      let* bp := mlift (gefs_unpackbp (kv_v kv)) in
      let* c := gefs_getblk bp in
      let p := alter (fun y => mkGefsScanp (gp_bi y) (gp_vi y) c) i p in
      match c with
      | None => mret (false, p)
      | Some _ => gload_down n' (S i) p
      end
  end.

(** The smallest key of the buffers above the leaf. *)
Fixpoint gmin_msg (n : nat) (p : list GefsScanp) (m : Msg) (src : option nat)
  : M GefsCtx (Msg * option nat) :=
  match n with
  | O => mret (m, src)
  | S i =>
      let* x := mlift (gat p i) in
      match gp_b x with
      | None => gmin_msg i p m src
      | Some b =>
          let* pb := gread b in
          if gp_bi x =? b_nbuf pb then gmin_msg i p m src else
          let* y := mlift (gefs_getmsg pb (gp_bi x)) in
          if gefs_keycmp (m_k y) (m_k m) <? 0 then gmin_msg i p y (Some i)
          else gmin_msg i p m src
      end
  end.

(** The messages of one level that have the key of [r]. *)
Fixpoint gnext_level (fuel : nat) (b : Blk) (j : Z) (ok : bool) (r : Kvp) : res (Z * bool * Kvp) :=
  if negb (j <? b_nbuf b) then Ok (j, ok, r) else
  match fuel with
  | O => Err Efuel
  | S fuel' =>
      let! m := gefs_getmsg b j in
      if negb (gefs_keycmp (kv_k r) (m_k m) =? 0) then Ok (j, ok, r) else
      let! (ok, r') := gapply_msg (Some r) m Kvmax in
      match r' with
      | Some r => gnext_level fuel' b (j + 1) ok r
      | None => Err Euninit
      end
  end.

Fixpoint gnext_levels (n : nat) (p : list GefsScanp) (ok : bool) (r : Kvp)
  : M GefsCtx (list GefsScanp * bool * Kvp) :=
  match n with
  | O => mret (p, ok, r)
  | S i =>
      let* x := mlift (gat p i) in
      match gp_b x with
      | None => gnext_levels i p ok r
      | Some b =>
          let* pb := gread b in
          let* (j, ok, r) := mlift (gnext_level (Z.to_nat (b_nbuf pb)) pb (gp_bi x) ok r) in
          gnext_levels i (<[i := mkGefsScanp j (gp_vi x) (Some b)]> p) ok r
      end
  end.

Definition ghas_prefix (pfx k : list Z) : bool :=
  (zlen pfx <=? zlen k) && (memcmp k pfx (length pfx) =? 0).

(** The answer and the scan; each turn of the loop uses up an entry or a
    message, so a fuel of their number is enough. *)
Fixpoint gefs_btnext (fuel : nat) (s : GefsScan) : M GefsCtx (bool * GefsScan) :=
  match fuel with
  | O => merror Efuel
  | S fuel' =>
      if gs_donescan s then mret (false, s) else
      let h := Z.to_nat (gs_ht s) in
      let* (start, p) := gback_up (h - 1) (gs_path s) h in
      match start with
      | None => mret (false, gs_done s p)
      | Some start =>
          let* (x, xb) := gat_blk p (start - 1) in
          let* (loaded, p, m, src) :=
            if gp_vi x <? b_nval xb then
              let* (loaded, p) := gload_down (h - start) start p in
              if (loaded : bool) then
                let* (y, yb) := gat_blk p (h - 1) in
                let* kv := mlift (gefs_getval yb (gp_vi y)) in
                mret (true, p, mkMsg Oinsert (kv_k kv) (kv_v kv), None)
              else mret (false, p, mkMsg 0 [] [], None)
            else
              let* m := mlift (gefs_getmsg xb (gp_bi x)) in
              mret (true, p, m, Some (start - 1)%nat) in
          if negb loaded then mret (false, gs_done s p) else
          let* (m, src) := gmin_msg (h - 1) p m src in
          if negb (ghas_prefix (gs_pfx s) (m_k m)) then mret (false, gs_done s p) else
          let* r := mlift (gefs_cpkvp (kv_of_msg m) Kvmax) in
          let p := match src with
                   | None => alter gstep_vi (h - 1)%nat p
                   | Some i => alter gstep_bi i p
                   end in
          let* (p, ok, r) := gnext_levels (h - 1) p true r in
          let s := mkGefsScan (gs_first s) (gs_donescan s) (gs_ht s) r (gs_pfx s) p in
          if (ok : bool) then mret (true, s) else gefs_btnext fuel' s
      end
  end.

Definition gefs_btexit (s : GefsScan) : M GefsCtx unit := gdropblks (gp_b <$> gs_path s).
