(* ===== verification/PortTreeOk.v ===== *)
(** * Lookups of the port find the same values (src/gefs_storage.c)

    The searches of the port are those of src/tree.c, so that the
    representation lemmas of Search.v hold for them; a lookup through the
    cache follows the path of the key in the image, and for plain messages
    (insertions, deletions and clears) it answers what [btlookup] answers. *)
From S2P Require Import Prelude CInt Mem Data Keys Pack Blk Search Apply Leaf Lookup Mst Port PortCache PortTree.

(** ** The searches are those of src/tree.c *)

Definition is_tree (b : Blk) : Prop := b_type b = Tleaf \/ b_type b = Tpivot.

Lemma gdata_off_eq b : is_tree b -> gdata_off b = data_off b.
Proof. by intros [H|H]; unfold gdata_off, data_off; rewrite H. Qed.

Lemma gefs_getval_eq b i : is_tree b -> gefs_getval b i = getval b i.
Proof. intros H. unfold gefs_getval, getval. by rewrite gdata_off_eq. Qed.

Lemma gefs_getmsg_eq b i : gefs_getmsg b i = getmsg b i.
Proof.
  unfold gefs_getmsg, getmsg. destruct (Z.eqb_spec (b_type b) Tpivot) as [E|]; [|done].
  rewrite gdata_off_eq; [done|]. by right.
Qed.

Lemma gsearch_loop_eq fuel get get' k lo hi ri :
  (forall i, get i = get' i) ->
  gsearch_loop fuel get k lo hi ri = search_loop fuel get' k lo hi ri.
Proof.
  intros Hg. revert lo hi ri. induction fuel as [|fuel IH]; intros lo hi ri; [done|].
  cbn [gsearch_loop search_loop]. destruct (hi <? lo); [done|]. rewrite Hg.
  destruct (get' ((hi + lo) / 2)) as [cmp|]; [|done]. cbn [rbind]. rewrite gefs_keycmp_eq.
  by repeat destruct (_ =? _).
Qed.

Lemma gblksearch_eq b k : is_tree b -> gblksearch b k = blksearch b k.
Proof.
  intros H. unfold gblksearch, blksearch.
  rewrite (gsearch_loop_eq _ _ (fun mid => let! cmp := getval b mid in Ok (kv_k cmp)))
    by (intros i; by rewrite gefs_getval_eq).
  destruct (search_loop _ _ _ _ _ _) as [[lo ri]|]; [|done]. cbn [rbind].
  destruct (if ri =? -1 then _ else _) as [ri' same]. by rewrite gefs_getval_eq.
Qed.

Lemma gbufsearch_eq b k : gbufsearch b k = bufsearch b k.
Proof.
  unfold gbufsearch, bufsearch.
  rewrite (gsearch_loop_eq _ _ (fun mid => let! cmp := getmsg b mid in Ok (m_k cmp)))
    by (intros i; by rewrite gefs_getmsg_eq).
  destruct (search_loop _ _ _ _ _ _) as [[lo ri]|]; [|done]. cbn [rbind].
  destruct (if ri =? -1 then _ else _) as [ri' same]. by rewrite gefs_getmsg_eq.
Qed.

Lemma vals_repr_tree b vs : vals_repr b vs -> is_tree b.
Proof. by intros []. Qed.

(** ** Plain messages *)

Definition plain (m : Msg) : Prop :=
  m_op m = Oinsert \/ m_op m = Odelete \/ m_op m = Oclearb \/ m_op m = Oclobber.

(** A plain message decides the value of its key. *)
Definition gval_step (vo : option Kvp) (m : Msg) : option Kvp :=
  if m_op m =? Oinsert then Some (kv_of_msg m) else None.

Definition gvals (vo : option Kvp) (ms : list Msg) : option Kvp := foldl gval_step vo ms.

Definition msg_fits (nbuf : Z) (m : Msg) : Prop := zlen (m_k m) + zlen (m_v m) <= nbuf.

(** On plain messages the reference of [btlookup] says the same, where it
    does not stop at a deletion of nothing. *)
Lemma kvals_plain ms : forall vo nbuf vo',
  Forall plain ms -> kvals vo ms nbuf = Ok vo' -> vo' = gvals vo ms.
Proof.
  induction ms as [|m ms IH]; intros vo nbuf vo' Hp Hv.
  { by injection Hv as ->. }
  apply Forall_cons in Hp as [Hm Hp]. cbn [kvals] in Hv. bind_inv Hv as v1 E1.
  apply (IH _ _ _ Hp) in Hv as ->. cbn [gvals foldl]. f_equal.
  unfold gval_step. unfold kval_step in E1. destruct vo as [v|].
  - bind_inv E1 as [ok w] Ea. unfold apply in Ea.
    destruct Hm as [E|[E|[E|E]]]; rewrite E in *; cbn in Ea |- *.
    + bind_inv Ea as u Ec. unfold cpkvp in Ec. inv_ok. done.
    + inv_ok. done.
    + inv_ok. done.
    + inv_ok. done.
  - destruct Hm as [E|[E|[E|E]]]; rewrite E in *; cbn in E1 |- *; try done.
    + bind_inv E1 as u Ec. unfold cpkvp in Ec. inv_ok. done.
    + by injection E1.
    + by injection E1.
Qed.

Lemma gapply_msg_plain r m nbuf :
  plain m -> msg_fits nbuf m -> exists ok r', gapply_msg r m nbuf = Ok (ok, r') /\
    forall vo, agree (gval_step vo m) ok r'.
Proof.
  intros Hp Hf. unfold gapply_msg, gval_step.
  destruct Hp as [E|[E|[E|E]]]; rewrite E; cbn; try (by eexists _, _).
  unfold gefs_cpkvp. cbn [kv_of_msg kv_k kv_v]. rewrite (proj2 (Z.leb_le _ _)) by done.
  by eexists _, _.
Qed.

(** The run of the key's messages in one buffer. *)
Lemma gapply_more_ok b ms k nbuf : forall mk fuel pre post vo ok r,
  msgs_repr b ms -> ms = pre ++ mk ++ post -> Forall (fun m => m_k m = k) mk ->
  Forall plain mk -> Forall (msg_fits nbuf) mk ->
  Forall (fun m => klt k (m_k m)) post -> (length mk + 1 <= fuel)%nat ->
  agree vo ok r ->
  exists ok' r', gapply_more fuel b k (zlen pre) ok r nbuf = Ok (ok', r') /\
    agree (gvals vo mk) ok' r'.
Proof.
  induction mk as [|m mk IH]; intros fuel pre post vo ok r Hb E Hk Hpl Hfi Hp Hf Ha;
    (destruct fuel as [|fuel]; [simpl in Hf; lia|]); cbn [gapply_more].
  - rewrite (mr_nbuf _ _ Hb), E. cbn [app].
    destruct post as [|p post].
    + rewrite app_nil_r, Z.ltb_irrefl. by exists ok, r.
    + rewrite zlen_app, zlen_cons. pose proof (zlen_nonneg post).
      rewrite (proj2 (Z.ltb_lt _ _)) by lia. cbn [negb].
      assert (Hg : getmsg b (zlen pre) = Ok p).
      { apply (getmsg_repr b ms (length pre)); [done|]. rewrite E. cbn [app].
        by rewrite lookup_app_r, Nat.sub_diag by lia. }
      rewrite gefs_getmsg_eq, Hg. cbn [rbind]. apply Forall_cons in Hp as [Hp _].
      rewrite gefs_keycmp_eq.
      destruct (Z.eqb_spec (keycmp k (m_k p)) 0) as [Hc|]; [|by exists ok, r].
      apply keycmp_eq in Hc. rewrite <- Hc in Hp. exfalso. by eapply klt_irrefl.
  - apply Forall_cons in Hk as [Hk Hks]. apply Forall_cons in Hpl as [Hm Hpl].
    apply Forall_cons in Hfi as [Hmf Hfi].
    rewrite (mr_nbuf _ _ Hb), E, zlen_app. cbn [app]. rewrite zlen_cons.
    pose proof (zlen_nonneg (mk ++ post)). rewrite (proj2 (Z.ltb_lt _ _)) by lia. cbn [negb].
    assert (Hg : getmsg b (zlen pre) = Ok m).
    { apply (getmsg_repr b ms (length pre)); [done|]. rewrite E. cbn [app].
      by rewrite lookup_app_r, Nat.sub_diag by lia. }
    rewrite gefs_getmsg_eq, Hg. cbn [rbind]. rewrite gefs_keycmp_eq, Hk, keycmp_refl.
    cbn [Z.eqb negb].
    destruct (gapply_msg_plain r m nbuf Hm Hmf) as (ok1 & r1 & -> & Ha1). cbn [rbind].
    replace (zlen pre + 1) with (zlen (pre ++ [m])) by (rewrite zlen_app; done).
    eapply (IH fuel (pre ++ [m]) post); try done.
    + rewrite <- app_assoc. by rewrite E.
    + simpl in Hf. lia.
Qed.

Lemma gapply_level_ok b ms k vo ok r nbuf :
  msgs_repr b ms -> StronglySorted mkle ms -> agree vo ok r ->
  Forall plain (with_key k ms) -> Forall (msg_fits nbuf) (with_key k ms) ->
  exists ok' r', gapply_level b k ok r nbuf = Ok (ok', r') /\
    agree (gvals vo (with_key k ms)) ok' r'.
Proof.
  intros Hb Hs Ha Hpl Hfi. unfold gapply_level.
  destruct (bufsearch_repr b ms k Hb (ksorted_mkeys _ Hs)) as (j & same & Hf & E & Hj).
  rewrite gbufsearch_eq, E. cbn [rbind]. destruct (sorted_split k ms Hs) as (pre & post & Em & H1 & H2).
  rewrite Em in Hf. apply found_split in Hf; [|done|apply with_key_all|done].
  destruct same.
  2:{ rewrite orb_true_r. rewrite Hf. by exists ok, r. }
  destruct Hf as [-> Hne]. rewrite orb_false_r.
  pose proof (zlen_nonneg pre). rewrite (proj2 (Z.ltb_ge _ _)), (proj2 (Z.leb_le _ _)) by lia.
  pose proof (with_key_all k ms) as Hall.
  destruct (with_key k ms) as [|m mk] eqn:Ew; [done|]. clear Hne.
  rewrite to_nat_zlen.
  assert (Hm : ms !! length pre = Some m) by (rewrite Em; by rewrite lookup_app_r, Nat.sub_diag by lia).
  rewrite Hm. apply Forall_cons in Hall as [Hk Hall]. apply Forall_cons in Hpl as [Hpm Hpl].
  apply Forall_cons in Hfi as [Hmf Hfi].
  assert (Hfirst : exists ok1 r1,
    (if ok || (m_op m =? Oinsert) then gapply_msg r m nbuf else Ok (ok, r)) = Ok (ok1, r1) /\
    agree (gval_step vo m) ok1 r1).
  { destruct (ok || (m_op m =? Oinsert)) eqn:Eok.
    - destruct (gapply_msg_plain r m nbuf Hpm Hmf) as (ok1 & r1 & -> & Ha1). by exists ok1, r1.
    - apply orb_false_iff in Eok as [-> Ei]. exists false, r. split; [done|].
      unfold gval_step. by rewrite Ei. }
  destruct Hfirst as (ok1 & r1 & -> & Ha1). cbn [rbind gvals foldl].
  replace (zlen pre + 1) with (zlen (pre ++ [m])) by (rewrite zlen_app; done).
  eapply (gapply_more_ok b ms k nbuf mk _ (pre ++ [m]) post); try done.
  - rewrite <- app_assoc. by rewrite Em.
  - rewrite (mr_nbuf _ _ Hb), to_nat_zlen, Em, !length_app. simpl. lia.
Qed.

(** ** Commands on the cache *)

Lemma mbind_eq {S A B} (m : M S A) (k : A -> M S B) s a s' :
  m s = (Ok a, s') -> mbind m k s = k a s'.
Proof. unfold mbind. by intros ->. Qed.

Lemma mbind_lift {S A B} (r : res A) (k : A -> M S B) s a :
  r = Ok a -> mbind (mlift r) k s = k a s.
Proof. by intros ->. Qed.

Section Ctx.
Context (x : GefsCtx) (D : gset Z).

(** The context with another cache. *)
Local Abbreviation at_c c := (set_cache c x).
Local Abbreviation img := (gx_img x).

Lemma gefs_getblk_ok c bp :
  cache_ok img D c -> exists r c', gefs_getblk bp (at_c c) = (Ok r, at_c c') /\
    cache_ok img D c' /\ keeps c c' /\
    (forall a, cached c' a -> a = bp_addr bp \/ cached c a) /\
    match r with
    | Some i => exists b, held c' i b /\ bp_addr (b_bp b) = bp_addr bp /\ blk_img img D b
    | None => pread img (bp_addr bp) = None
    end.
Proof.
  intros H. destruct (getblk_cache_ok _ _ _ bp H) as (r & c' & E & ? & ? & ? & ?).
  exists r, c'. split; [|done]. unfold gefs_getblk, mbind, mget, on_cache. cbn. by rewrite E.
Qed.

Lemma gread_ok c i b : held c i b -> gread i (at_c c) = (Ok b, at_c c).
Proof.
  intros (r & E & _). unfold gread, mbind, mget, mlift, gload. cbn. by rewrite E.
Qed.

Lemma gefs_holdblk_ok c i b :
  cache_ok img D c -> held c i b -> exists c', gefs_holdblk i (at_c c) = (Ok i, at_c c') /\
    cache_ok img D c' /\ keeps c c'.
Proof.
  intros H (r & E & Hr). eexists. unfold gefs_holdblk, on_cache, gload. cbn. rewrite E. cbn.
  split; [done|]. split.
  - by apply (set_ref_ok _ _ _ i (mkGBlk b r)); [done|done|cbn; lia].
  - by apply (keeps_set_ref c i (mkGBlk b r)); [done|cbn; lia].
Qed.

(** A drop never frees; it can take away the last reference. *)
Lemma gefs_dropblk_ok c i :
  cache_ok img D c -> is_Some (gc_heap c !! i) -> exists c',
    gefs_dropblk i (at_c c) = (Ok tt, at_c c') /\ cache_ok img D c' /\
    forall j, is_Some (gc_heap c !! j) -> is_Some (gc_heap c' !! j).
Proof.
  intros H [b E]. unfold gefs_dropblk, on_cache, gload. cbn. rewrite E. cbn.
  eexists. split; [done|]. split.
  - apply set_ref_ok; [done|done|]. destruct (Z.ltb_spec (gb_ref b - 1) 0); lia.
  - intros j Hj. cbn. rewrite lookup_insert. by case_decide.
Qed.

Lemma gdropblks_ok l : forall c,
  cache_ok img D c -> (forall i, Some i ∈ l -> is_Some (gc_heap c !! i)) -> exists c',
    gdropblks l (at_c c) = (Ok tt, at_c c') /\ cache_ok img D c' /\
    forall j, is_Some (gc_heap c !! j) -> is_Some (gc_heap c' !! j).
Proof.
  induction l as [|[i|] l IH]; intros c H Hl; cbn [gdropblks].
  - by exists c.
  - destruct (gefs_dropblk_ok c i H (Hl i ltac:(by left))) as (c1 & E1 & H1 & K1).
    rewrite (mbind_eq _ _ _ _ _ E1).
    destruct (IH c1 H1) as (c2 & E2 & H2 & K2); [intros j Hj; by apply K1, Hl; right|].
    exists c2. split; [done|]. split; [done|auto].
  - apply IH; [done|]. intros i Hi. by apply Hl; right.
Qed.

Lemma held_some c i b : held c i b -> is_Some (gc_heap c !! i).
Proof. intros (r & -> & _). done. Qed.

(** ** Trees in the image *)

(** The block at [bp], as it is read. *)
Definition tstored (bp : Bptr) (b : Blk) : Prop :=
  pread img (bp_addr bp) = Some (b_buf b) /\ load_hdr bp (b_buf b) = Ok b /\ bp_addr bp ∉ D.

(** Two blocks with the same contents. *)
Definition blk_same_data (b b' : Blk) : Prop :=
  b_type b = b_type b' /\ b_nval b = b_nval b' /\ b_valsz b = b_valsz b' /\
  b_nbuf b = b_nbuf b' /\ b_bufsz b = b_bufsz b' /\ b_buf b = b_buf b'.

Lemma load_hdr_same bp bp' buf b b' :
  load_hdr bp buf = Ok b -> load_hdr bp' buf = Ok b' -> blk_same_data b b'.
Proof.
  unfold load_hdr. intros H H'. bind_inv H as ty E. rewrite E in H'. cbn [rbind] in H'.
  destruct (_ || _); [|by simplify_eq].
  bind_inv H as nval E1. rewrite E1 in H'. cbn [rbind] in H'.
  bind_inv H as valsz E2. rewrite E2 in H'. cbn [rbind] in H'.
  destruct (_ =? Tpivot); [|by simplify_eq].
  bind_inv H as nbuf E3. rewrite E3 in H'. cbn [rbind] in H'.
  bind_inv H as bufsz E4. rewrite E4 in H'. cbn [rbind] in H'. by simplify_eq.
Qed.

Lemma vals_repr_data b b' vs : blk_same_data b b' -> vals_repr b vs -> vals_repr b' vs.
Proof.
  intros (E1 & E2 & E3 & E4 & E5 & E6) [H1 H2 H3 H4 H5].
  split; unfold data_off in *; rewrite <- ?E1, <- ?E2, <- ?E3, <- ?E6; done.
Qed.

Lemma msgs_repr_data b b' ms : blk_same_data b b' -> msgs_repr b ms -> msgs_repr b' ms.
Proof.
  intros (E1 & E2 & E3 & E4 & E5 & E6) [H1 H2 H3 H4 H5 H6].
  split; unfold data_off in *; rewrite <- ?E1, <- ?E4, <- ?E5, <- ?E6; done.
Qed.

Lemma pivot_ok_data b b' vs ms : blk_same_data b b' -> pivot_ok b vs ms -> pivot_ok b' vs ms.
Proof.
  intros E [H1 H2 H3 H4]. split; [by eapply vals_repr_data|by eapply msgs_repr_data|done|done].
Qed.

(** Reading a block of a tree. *)
Lemma getblk_tree c bp b :
  cache_ok img D c -> tstored bp b -> exists i b' c',
    gefs_getblk bp (at_c c) = (Ok (Some i), at_c c') /\ cache_ok img D c' /\ keeps c c' /\
    held c' i b' /\ blk_same_data b b' /\
    (forall a, cached c' a -> a = bp_addr bp \/ cached c a).
Proof.
  intros H (Hp & Hl & HD).
  destruct (gefs_getblk_ok c bp H) as ([i|] & c' & E & Hc & Hk & Hca & Hr); [|by rewrite Hp in Hr].
  destruct Hr as (b' & Hh & Ha & [Hd|[Hi Hl']]); [by rewrite Ha in Hd|].
  exists i, b', c'. do 4 (split; [done|]).
  rewrite Ha, Hp in Hi. injection Hi as Hi.
  rewrite <- Hi in Hl'. split; [by eapply load_hdr_same|done].
Qed.

(** [gpath k n bp mss vo]: in the tree of height [n] at [bp] the key [k]
    meets the buffers [mss], from the root, and its leaf has [vo] for it. *)
Inductive gpath (k : list Z) : nat -> Bptr -> list (list Msg) -> option Kvp -> Prop :=
  | gp_leaf bp b vs ri same :
      tstored bp b -> vals_repr b vs -> ksorted (vkeys vs) -> found (vkeys vs) k ri same ->
      gpath k 1 bp [] (if same then vs !! Z.to_nat ri else None)
  | gp_down n bp b vs ms ri same e bp' mss vo :
      tstored bp b -> pivot_ok b vs ms -> found (vkeys vs) k ri same -> 0 <= ri ->
      vs !! Z.to_nat ri = Some e -> gefs_unpackbp (kv_v e) = Ok bp' ->
      gpath k (S n) bp' mss vo ->
      gpath k (S (S n)) bp (ms :: mss) vo
  | gp_off n bp b vs ms same :
      tstored bp b -> pivot_ok b vs ms -> found (vkeys vs) k (-1) same ->
      gpath k (S (S n)) bp [ms] None.

(** The array [p] that the walk fills, over the cache [c]. *)
Inductive gloads (c : GefsCache) (k : list Z)
  : list (option nat) -> list (list Msg) -> option Kvp -> Prop :=
  | gl_leaf i b vs ri same :
      held c i b -> vals_repr b vs -> ksorted (vkeys vs) -> found (vkeys vs) k ri same ->
      gloads c k [Some i] [] (if same then vs !! Z.to_nat ri else None)
  | gl_down i b vs ms p ps mss vo :
      held c i b -> pivot_ok b vs ms -> gloads c k (p :: ps) mss vo ->
      gloads c k (Some i :: p :: ps) (ms :: mss) vo
  | gl_off i b vs ms n :
      held c i b -> pivot_ok b vs ms -> gloads c k (Some i :: replicate (S n) None) [ms] None.

Lemma gloads_keeps c c' k p mss vo : keeps c c' -> gloads c k p mss vo -> gloads c' k p mss vo.
Proof.
  intros Hk. induction 1 as [i b vs ri same Hh|i b vs ms p ps mss vo Hh|i b vs ms n Hh].
  - by eapply gl_leaf; [apply Hk| | |].
  - by eapply gl_down; [apply Hk| |].
  - by eapply gl_off; [apply Hk|].
Qed.

Lemma gloads_some c k p mss vo : gloads c k p mss vo ->
  forall i, Some i ∈ p -> is_Some (gc_heap c !! i).
Proof.
  induction 1 as [i b vs ri same Hh|i b vs ms p ps mss vo Hh _ _ IH|i b vs ms n Hh]; intros j Hj.
  - apply list_elem_of_singleton in Hj as [= ->]. by eapply held_some.
  - apply elem_of_cons in Hj as [[= ->]|Hj]; [by eapply held_some|auto].
  - apply elem_of_cons in Hj as [[= ->]|Hj]; [by eapply held_some|].
    apply elem_of_replicate in Hj as [? _]. done.
Qed.

(** The walk down fills the array with held blocks. *)
Lemma gload_path_ok k n bp mss vo : gpath k n bp mss vo -> forall c i b0 b r,
  cache_ok img D c -> tstored bp b0 -> held c i b -> blk_same_data b0 b ->
  exists p r' c', gload_path (n - 1) i k r (at_c c) = (Ok (p, r'), at_c c') /\
    cache_ok img D c' /\ keeps c c' /\ gloads c' k (Some i :: p) mss vo.
Proof.
  assert (Hsame : forall bp b b', tstored bp b -> tstored bp b' -> b = b').
  { intros bp' b b' (E1 & E2 & _) (E1' & E2' & _). rewrite E1 in E1'. injection E1' as E.
    rewrite <- E in E2'. rewrite E2 in E2'. by injection E2'. }
  induction 1 as [bp b1 vs ri same Ht Hv Hs Hf
    | n bp b1 vs ms ri same e bp' mss vo Ht Hp Hf Hri He Hbp Hg IH
    | n bp b1 vs ms same Ht Hp Hf]; intros c i b0 b r H Ht0 Hh Hd;
    rewrite (Hsame _ _ _ Ht0 Ht) in Hd; clear b0 Ht0.
  - exists [], r, c. cbn [Nat.sub gload_path]. do 3 (split; [done|]).
    eapply gl_leaf; try done. by eapply vals_repr_data.
  - apply (pivot_ok_data _ _ _ _ Hd) in Hp.
    replace (S (S n) - 1)%nat with (S n) by lia. cbn [gload_path].
    rewrite (mbind_eq _ _ _ _ _ (gread_ok c i b Hh)).
    destruct (blksearch_repr b vs k (po_vals _ _ _ Hp) (po_vsorted _ _ _ Hp)) as (ri' & same' & Hf' & E & _).
    destruct (found_unique _ _ _ _ _ _ Hf Hf') as [<- <-].
    rewrite (proj2 (Z.leb_le _ _) Hri), He in E.
    rewrite <- gblksearch_eq in E by (eapply vals_repr_tree, Hp).
    rewrite (mbind_lift _ _ _ _ E), (proj2 (Z.eqb_neq _ _)) by lia.
    rewrite (mbind_lift _ _ _ _ Hbp).
    assert (Hb' : exists b', tstored bp' b').
    { inversion Hg; by eexists. }
    destruct Hb' as [b' Hb'].
    destruct (getblk_tree c bp' b' H Hb') as (j & b2 & c2 & E2 & H2 & K2 & Hh2 & Hd2 & _).
    rewrite (mbind_eq _ _ _ _ _ E2).
    destruct (IH c2 j b' b2 (Some e) H2 Hb' Hh2 Hd2) as (p & r' & c3 & E3 & H3 & K3 & Hl3).
    replace (S n - 1)%nat with n in E3 by lia. rewrite (mbind_eq _ _ _ _ _ E3).
    exists (Some j :: p), r', c3. split; [done|]. split; [done|]. split; [by etrans|].
    eapply gl_down; [by apply K3, K2|done|done].
  - apply (pivot_ok_data _ _ _ _ Hd) in Hp.
    replace (S (S n) - 1)%nat with (S n) by lia. cbn [gload_path].
    rewrite (mbind_eq _ _ _ _ _ (gread_ok c i b Hh)).
    destruct (blksearch_repr b vs k (po_vals _ _ _ Hp) (po_vsorted _ _ _ Hp)) as (ri' & same' & Hf' & E & _).
    destruct (found_unique _ _ _ _ _ _ Hf Hf') as [<- <-].
    rewrite <- gblksearch_eq in E by (eapply vals_repr_tree, Hp).
    rewrite (mbind_lift _ _ _ _ E). cbn [Z.eqb Pos.eqb].
    exists (None :: replicate n None), r, c. split; [done|]. split; [done|]. split; [done|].
    by eapply (gl_off c k i b vs ms n).
Qed.

(** The search of the leaf and the buffers, from the bottom up. *)
Definition gleaf_step (p : list (option nat)) (k : list Z) (r : option Kvp) (nbuf : Z)
  : M GefsCtx (bool * option Kvp) :=
  let* (ok, r) :=
    match last p with
    | Some (Some leaf) =>
        let* lb := gread leaf in
        let* (ri, same, e) := mlift (gblksearch lb k) in
        mret (same, match e with Some e => Some e | None => r end)
    | _ => mret (false, r)
    end in
  let* r :=
    match ok, r with
    | true, Some e => let* e := mlift (gefs_cpkvp e nbuf) in mret (Some e)
    | true, None => merror Euninit
    | false, _ => mret r
    end in
  mret (ok, r).

Lemma gapply_levels_app ps ps' k ok r nbuf c a :
  gapply_levels ps k ok r nbuf (at_c c) = (Ok a, at_c c) ->
  gapply_levels (ps ++ ps') k ok r nbuf (at_c c) = gapply_levels ps' k a.1 a.2 nbuf (at_c c).
Proof.
  revert ok r. induction ps as [|[i|] ps IH]; intros ok r E.
  - cbn in E. by injection E as <-.
  - cbn [app gapply_levels] in *. unfold mbind at 1. unfold mbind at 1 in E.
    destruct (gread i (at_c c)) as [[b|e] s] eqn:Eb; [|done].
    assert (s = at_c c) as ->.
    { unfold gread, mbind, mget, mlift, mret in Eb. destruct (gload _ _); by injection Eb. }
    unfold mbind, mlift in *. destruct (gapply_level b k ok r nbuf) as [[ok1 r1]|]; [|done].
    by apply IH.
  - by apply IH.
Qed.

Lemma gapply_levels_none n k ok r nbuf s :
  gapply_levels (replicate n None) k ok r nbuf s = (Ok (ok, r), s).
Proof. induction n; done. Qed.

Lemma gapply_one c i b k vo ok r nbuf ms ps :
  held c i b -> msgs_repr b ms -> StronglySorted mkle ms -> agree vo ok r ->
  Forall plain (with_key k ms) -> Forall (msg_fits nbuf) (with_key k ms) ->
  exists a, gapply_levels (Some i :: ps) k ok r nbuf (at_c c) =
    gapply_levels ps k a.1 a.2 nbuf (at_c c) /\ agree (gvals vo (with_key k ms)) a.1 a.2.
Proof.
  intros Hh Hb Hs Ha Hpl Hfi. cbn [gapply_levels].
  destruct (gapply_level_ok b ms k vo ok r nbuf Hb Hs Ha Hpl Hfi) as (ok1 & r1 & E & Ha1).
  exists (ok1, r1). split; [|done]. rewrite (mbind_eq _ _ _ _ _ (gread_ok c i b Hh)).
  unfold mbind, mlift. by rewrite E.
Qed.

Lemma last_off n : last (None :: replicate n (@None nat)) = Some None.
Proof. induction n as [|n IH]; [done|exact IH]. Qed.

(** The leaf and then the levels above it. *)
Lemma gloads_apply c k p mss vo nbuf r :
  gloads c k p mss vo ->
  Forall plain (path_msgs k mss) -> Forall (msg_fits nbuf) (path_msgs k mss) ->
  (forall v, vo = Some v -> kvlen v <= nbuf) ->
  exists a b, gleaf_step p k r nbuf (at_c c) = (Ok a, at_c c) /\
    gapply_levels (tail (reverse p)) k a.1 a.2 nbuf (at_c c) = (Ok b, at_c c) /\
    agree (gvals vo (path_msgs k mss)) b.1 b.2.
Proof.
  intros Hl Hpl Hfi Hsz. induction Hl as [i b vs ri same Hh Hv Hs Hf
    | i b vs ms p ps mss vo Hh Hp _ IH | i b vs ms n Hh Hp].
  - unfold gleaf_step. cbn [last].
    destruct (blksearch_repr b vs k Hv Hs) as (ri' & same' & Hf' & E & Hri).
    destruct (found_unique _ _ _ _ _ _ Hf Hf') as [<- <-].
    rewrite <- gblksearch_eq in E by (by eapply vals_repr_tree).
    unfold mbind at 1. rewrite (mbind_eq _ _ _ _ _ (gread_ok c i b Hh)), (mbind_lift _ _ _ _ E).
    cbn [mret]. destruct same.
    + destruct Hf as (n & _ & -> & Hk). rewrite Nat2Z.id in *.
      rewrite (proj2 (Z.leb_le _ _)) by lia.
      unfold vkeys in Hk. apply list_lookup_fmap_Some in Hk as (v & Ek & Hx). rewrite Hx.
      assert (Ec : gefs_cpkvp v nbuf = Ok v) by (apply cpkvp_ok; by apply Hsz).
      unfold mbind at 1. rewrite (mbind_lift _ _ _ _ Ec).
      by exists (true, Some v), (true, Some v).
    + eexists (false, _), (false, _). by split.
  - rewrite path_msgs_cons in Hpl, Hfi |- *.
    apply Forall_app in Hpl as [Hpl1 Hpl2]. apply Forall_app in Hfi as [Hfi1 Hfi2].
    destruct (IH Hpl1 Hfi1 Hsz) as (a1 & b1 & E1 & E2 & Ha).
    destruct (gapply_one c i b k _ b1.1 b1.2 nbuf ms [] Hh (po_msgs _ _ _ Hp) (po_msorted _ _ _ Hp) Ha Hpl2 Hfi2)
      as (a2 & E3 & Ha2).
    exists a1, a2. split; [done|]. split.
    + rewrite tail_reverse_cons, (gapply_levels_app _ _ _ _ _ _ _ b1 E2), E3.
      cbn. by rewrite <- surjective_pairing.
    + unfold gvals in *. by rewrite foldl_app.
  - rewrite path_msgs_cons in Hpl, Hfi |- *. change (path_msgs k []) with (@nil Msg) in *. cbn [app] in *.
    destruct (gapply_one c i b k None false r nbuf ms [] Hh (po_msgs _ _ _ Hp) (po_msorted _ _ _ Hp) eq_refl Hpl Hfi)
      as (a2 & E3 & Ha2).
    exists (false, r), a2. split; [|split; [|done]].
    + unfold gleaf_step. cbn [replicate]. change (last (Some i :: None :: replicate n None)) with
        (last (None :: replicate n (@None nat))). by rewrite last_off.
    + rewrite reverse_cons, reverse_replicate. cbn [replicate app tail].
      rewrite (gapply_levels_app _ _ _ _ _ _ _ (false, r) (gapply_levels_none n k false r nbuf _)).
      cbn [fst snd]. rewrite E3. cbn. by rewrite <- surjective_pairing.
Qed.

(** The whole look-up, in a context whose cache agrees with the image. *)
Lemma gefs_btlookup_aux c t k n mss vo nbuf :
  cache_ok img D c -> pt_ht t = Z.of_nat n -> gpath k n (pt_bp t) mss vo ->
  Forall plain (path_msgs k mss) -> Forall (msg_fits nbuf) (path_msgs k mss) ->
  (forall v, vo = Some v -> kvlen v <= nbuf) ->
  exists ok r c', gefs_btlookup t k nbuf (at_c c) = (Ok (ok, r), at_c c') /\
    cache_ok img D c' /\ agree (gvals vo (path_msgs k mss)) ok r.
Proof.
  intros H Hht Hg Hpl Hfi Hsz.
  assert (Hn : (1 <= n)%nat) by (inversion Hg; lia).
  assert (Hb : exists b, tstored (pt_bp t) b) by (inversion Hg; by eexists).
  destruct Hb as [b0 Hb0].
  destruct (getblk_tree c _ _ H Hb0) as (i & b & c1 & E1 & H1 & K1 & Hh1 & Hd1 & _).
  destruct (gefs_holdblk_ok c1 i b H1 Hh1) as (c2 & E2 & H2 & K2).
  destruct (gload_path_ok k n _ mss vo Hg c2 i b0 b None H2 Hb0 (K2 _ _ Hh1) Hd1)
    as (p & r & c3 & E3 & H3 & K3 & Hl).
  destruct (gloads_apply c3 k (Some i :: p) mss vo nbuf r Hl Hpl Hfi Hsz)
    as ([ok1 r1] & [ok2 r2] & E4 & E5 & Ha).
  destruct (gdropblks_ok (Some i :: p) c3 H3 (gloads_some _ _ _ _ _ Hl)) as (c4 & E6 & H4 & K4).
  destruct (gefs_dropblk_ok c4 i H4) as (c5 & E7 & H5 & _).
  { apply K4. eapply held_some, K3, K2, Hh1. }
  exists ok2, r2, c5. split; [|done]. unfold gefs_btlookup. rewrite (mbind_eq _ _ _ _ _ E1).
  rewrite Hht, (proj2 (Z.ltb_ge _ _)), (proj2 (Z.eqb_neq _ _)), Nat2Z.id by lia.
  rewrite (mbind_eq _ _ _ _ _ E2), (mbind_eq _ _ _ _ _ E3).
  assert (Hfin : (let* (ok, r) := gleaf_step (Some i :: p) k r nbuf in
    let* (ok, r) := gapply_levels (tail (reverse (Some i :: p))) k ok r nbuf in
    do* gdropblks (Some i :: p) in do* gefs_dropblk i in mret (ok, r)) (at_c c3) = (Ok (ok2, r2), at_c c5)).
  { rewrite (mbind_eq _ _ _ _ _ E4), (mbind_eq _ _ _ _ _ E5), (mbind_eq _ _ _ _ _ E6).
    by rewrite (mbind_eq _ _ _ _ _ E7). }
  rewrite <- Hfin. unfold gleaf_step. clear. unfold mbind.
  destruct (match last (Some i :: p) with Some (Some _) => _ | _ => _ end) as [[[ok1 r1]|] s]; [|done].
  destruct ok1, r1 as [e|]; try done. unfold mlift. by destruct (gefs_cpkvp e nbuf).
Qed.
End Ctx.
