(* ===== verification/PortWrite.v ===== *)
(** * Writing through the port (src/gefs_storage.c: [gefs_alloc_blk] to
    [gefs_sync_fs])

    Every change of a tree reads the root block, merges the batch into it and
    writes one new leaf, which becomes the whole tree.  Nothing is ever freed,
    and the allocation logs are not written. *)
From S2P Require Import Prelude CInt Mem Data Keys Hash Pack Super Blk Mst Port PortCache PortTree.

(** ** Blocks *)

(** The first free range of the first arena that has one. *)
Fixpoint galloc_loop (l : list GefsArena) : option (Z * list GefsArena) :=
  match l with
  | [] => None
  | a :: l' =>
      match ga_free a with
      | [] =>
          match galloc_loop l' with
          | Some (addr, l') => Some (addr, a :: l')
          | None => None
          end
      | (off, len) :: r =>
          let free := if len - Blksz =? 0 then r else (off + Blksz, len - Blksz) :: r in
          Some (off, mkGefsArena (ga_hdaddr a) (ga_size a) (ga_used a + Blksz) (ga_loghd a) free :: l')
      end
  end.

(** [None] is the result -1. *)
Definition gefs_alloc_blk : M GefsCtx (option Z) :=
  let* x := mget in
  if gx_readonly x || (ps_narena (gx_sb x) <=? 0) then mret None else
  match galloc_loop (gx_arenas x) with
  | None => mret None
  | Some (addr, l) => do* mmod (fun x => set_dirty true (set_arenas l x)) in mret (Some addr)
  end.

Definition is_logblk (b : Blk) : bool := (b_type b =? GEFS_TDLIST) || (b_type b =? GEFS_TLOG).

(** The header; a log or deadlist block gets its own pointer where the
    pointer to the next block is read. *)
Definition gheader_bytes (b : Blk) (logh : Z) : list Z :=
  let ty := b_type b in
  if ty =? Tdat then [] else
  PACK16 ty ++
  (if ty =? Tpivot then
     PACK16 (b_nval b) ++ PACK16 (b_valsz b) ++ PACK16 (b_nbuf b) ++ PACK16 (b_bufsz b)
   else if ty =? Tleaf then PACK16 (b_nval b) ++ PACK16 (b_valsz b)
   else if is_logblk b then PACK16 (b_logsz b) ++ PACK64 logh ++ bp_bytes (b_bp b)
   else []).

(** Fill in the header and the hash; [doff] is [b->data - b->buf]. *)
Definition blk_finalize (doff : Z) (b : Blk) : res Blk :=
  let! logh :=
    if is_logblk b then let! q := rd (b_buf b) doff (b_logsz b) in gefs_bufhash q (b_logsz b)
    else Ok 0 in
  let! buf := wr (b_buf b) 0 (gheader_bytes b logh) in
  let! hash :=
    if is_logblk b then let! q := rd buf doff (b_logsz b) in gefs_bufhash q (b_logsz b)
    else gefs_bufhash buf Blksz in
  Ok (mkBlk (b_type b) (b_nval b) (b_valsz b) (b_nbuf b) (b_bufsz b) (b_logsz b) (b_logh b)
        (b_logp b) (mkBptr (bp_addr (b_bp b)) hash (bp_gen (b_bp b))) (b_flag b) buf).

Definition blk_finalize_and_write (doff : Z) (b : Blk) : M GefsCtx Blk :=
  let* b := mlift (blk_finalize doff b) in
  do* mmod (fun x => set_img (pwrite (gx_img x) (bp_addr (b_bp b)) (b_buf b)) x) in
  mret b.

(** No look at the room that is left: an entry that does not fit is written
    over the table and then in front of the data. *)
Definition blk_setval (b : Blk) (kv : Kvp) : res Blk :=
  let spc := if b_type b =? Tleaf then Leafspc else Pivspc in
  let valsz := s16 (b_valsz b + (2 + zlen (kv_k kv) + 2 + zlen (kv_v kv))) in
  let off := spc - valsz in
  let d := gdata_off b in
  let! buf := wr (b_buf b) (d + 2 * b_nval b) (PACK16 off) in
  let! buf := wr buf (d + off) (kv_bytes kv) in
  Ok (set_vals (set_buf b buf) (s16 (b_nval b + 1)) valsz).

(** ** [gefs_btupsert] *)

(** The tree that is changed: [&ctx->active_tree] or [&ctx->snap_tree]. *)
Inductive tsel : Type := TActive | TSnap.

Definition get_tree (w : tsel) (x : GefsCtx) : GefsTree :=
  match w with TActive => gx_active x | TSnap => gx_snap x end.
Definition set_tree (w : tsel) (t : GefsTree) (x : GefsCtx) : GefsCtx :=
  match w with TActive => set_active t x | TSnap => set_snap t x end.

(** The sort of the batch is the insertion sort of src/tree.c. *)
Fixpoint gsift (m : list Msg) (j : nat) : list Msg :=
  match j with
  | O => m
  | S j' =>
      match m !! j', m !! j with
      | Some a, Some b =>
          if gefs_keycmp (m_k a) (m_k b) <=? 0 then m
          else gsift (<[j' := b]> (<[j := a]> m)) j'
      | _, _ => m
      end
  end.

Definition gsort (m : list Msg) : list Msg := foldl gsift m (seq 1 (length m - 1)).

(** The merge from entry [i] of the old root on, into the new block. *)
Fixpoint gmerge_loop (fuel : nat) (root : Blk) (i : Z) (msgs : list Msg) (nb : Blk) : res Blk :=
  match fuel with
  | O => if (i <? b_nval root) || negb (zlen msgs =? 0) then Err Efuel else Ok nb
  | S fuel' =>
      match i <? b_nval root, msgs with
      | false, [] => Ok nb
      | true, [] =>
          let! old := gefs_getval root i in
          let! nb := blk_setval nb old in gmerge_loop fuel' root (i + 1) [] nb
      | false, m :: msgs =>
          let! nb := if m_op m =? Oinsert then blk_setval nb (kv_of_msg m) else Ok nb in
          gmerge_loop fuel' root i msgs nb
      | true, m :: msgs' =>
          let! old := gefs_getval root i in
          let cmp := gefs_keycmp (kv_k old) (m_k m) in
          if cmp <? 0 then
            let! nb := blk_setval nb old in gmerge_loop fuel' root (i + 1) msgs nb
          else if cmp =? 0 then
            let! nb :=
              if m_op m =? Oinsert then blk_setval nb (kv_of_msg m)
              else if m_op m =? Owstat then
                let! kv := gefs_cpkvp old Inlmax in
                let! kv := gstatupdate kv m in
                blk_setval nb kv
              else Ok nb in
            gmerge_loop fuel' root (i + 1) msgs' nb
          else
            let! nb := if m_op m =? Oinsert then blk_setval nb (kv_of_msg m) else Ok nb in
            gmerge_loop fuel' root i msgs' nb
      end
  end.

(** A zeroed leaf at [addr]. *)
Definition new_leaf (addr gen : Z) : Blk :=
  mkBlk Tleaf 0 0 0 0 0 0 bp0 (mkBptr addr 0 gen) 0 zbuf.

Definition gefs_btupsert (w : tsel) (msgs : list Msg) : M GefsCtx (ret unit) :=
  let* x := mget in
  if gx_readonly x || (zlen msgs <=? 0) then mret (Fail EROFS) else
  let* root := gefs_getblk (pt_bp (get_tree w x)) in
  match root with
  | None => mret (Fail EIO)
  | Some root =>
      let* new_addr := gefs_alloc_blk in
      match new_addr with
      | None => do* gefs_dropblk root in mret (Fail ENOSPC)
      | Some addr =>
          let* rb := gread root in
          let* nb := mlift (gmerge_loop (Z.to_nat (b_nval rb) + length msgs) rb 0 (gsort msgs)
                              (new_leaf addr (pt_gen (get_tree w x)))) in
          let* nb := blk_finalize_and_write Leafhdsz nb in
          do* mmod (fun x => set_tree w (gt_set_root (get_tree w x) (b_bp nb) 1) x) in
          do* mmod (fun x =>
            if pt_gen (get_tree w x) =? pt_gen (gx_active x)
            then set_active (gt_set_root (gx_active x) (b_bp nb) 1) x else x) in
          let* _ := on_cache (fun c => Ok (cache_ins (mkGBlk nb 1) c)) in
          do* gefs_dropblk root in
          do* mmod (set_dirty true) in
          mret (Done tt)
      end
  end.

(** ** [gefs_sync_fs] *)

(** The header block of an arena; the data starts behind the type. *)
Definition arena_blk (a : GefsArena) : res Blk :=
  let! buf := wr zbuf 2 (PACK64 (ga_size a) ++ PACK64 (ga_used a) ++ PACK64 0 ++ PACK64 0 ++
                         bp_bytes (ga_loghd a)) in
  Ok (mkBlk GEFS_TARENA 0 0 0 0 0 0 bp0 (mkBptr (ga_hdaddr a) 0 0) 0 buf).

Definition sb_set_arenabp (i : nat) (bp : Bptr) (sb : GefsSuper) : GefsSuper :=
  mkGefsSuper (ps_blksz sb) (ps_bufspc sb) (ps_narena sb) (ps_snap sb) (ps_flag sb)
    (ps_nextqid sb) (ps_nextgen sb) (ps_qgen sb) (<[i := bp]> (ps_arenabp sb)).
Definition sb_set_snap (t : GefsTree) (sb : GefsSuper) : GefsSuper :=
  mkGefsSuper (ps_blksz sb) (ps_bufspc sb) (ps_narena sb) t (ps_flag sb)
    (ps_nextqid sb) (ps_nextgen sb) (ps_qgen sb) (ps_arenabp sb).

(** The headers of the arenas [i], [i + 1], ... *)
Fixpoint put_arenas (i : nat) (l : list GefsArena) : M GefsCtx unit :=
  match l with
  | [] => mret tt
  | a :: l' =>
      let* h0 := mlift (arena_blk a) in
      let* h0 := blk_finalize_and_write 2 h0 in
      do* mmod (fun x => set_sb (sb_set_arenabp i (b_bp h0) (gx_sb x)) x) in
      put_arenas (S i) l'
  end.

(** The descriptor of the active tree, stored under its generation. *)
Definition snap_msg (t : GefsTree) : Msg := mkMsg Oinsert ([Ksnap] ++ PACK64 (pt_gen t)) (gtree_bytes t).

(** What [gefs_btupsert] answers is not looked at. *)
Definition gefs_sync_fs : M GefsCtx (ret unit) :=
  let* x := mget in
  if gx_readonly x || negb (gx_dirty x) then mret (Done tt) else
  let* _ := gefs_btupsert TSnap [snap_msg (gx_active x)] in
  let* x := mget in
  do* put_arenas 0 (take (Z.to_nat (ps_narena (gx_sb x))) (gx_arenas x)) in
  do* mmod (fun x => set_sb (sb_set_snap (gx_snap x) (gx_sb x)) x) in
  let* x := mget in
  let* sbbuf := mlift (pack_sb_block Blksz (gx_sb x)) in
  match sbbuf with
  | None => merror Eoob
  | Some buf =>
      do* mmod (fun x => set_img (pwrite (gx_img x) 0 buf) x) in
      do* mmod (fun x =>
        let fsize := im_size (gx_img x) in
        if Blksz <? fsize then set_img (pwrite (gx_img x) (fsize - Blksz) buf) x else x) in
      do* mmod (set_dirty false) in
      mret (Done tt)
  end.
