(* ===== verification/PortWriteOk.v ===== *)
(** * What an update of the port does (src/gefs_storage.c: [gefs_btupsert])

    The new leaf holds the merge of the entries of the old root and the
    batch: for a tree of one leaf that is what the batch means; a tree that
    is higher loses everything below its root. *)
From S2P Require Import Prelude CInt Mem Data Keys Hash Pack Super Blk Search Apply Leaf Lookup Mst Port PortCache PortTree PortTreeOk PortWrite.

(** ** Blocks *)

(** A leaf of [gefs_btupsert]: the fields nobody sets are zero. *)
Definition is_new (b : Blk) : Prop :=
  b = mkBlk Tleaf (b_nval b) (b_valsz b) 0 0 0 0 bp0 (b_bp b) 0 (b_buf b).

Lemma blk_setval_repr b vs kv :
  vals_repr b vs -> is_new b ->
  2 * (zlen vs + 1) + b_valsz b + kvsz kv <= Leafspc ->
  exists b', blk_setval b kv = Ok b' /\ vals_repr b' (vs ++ [kv]) /\ is_new b' /\
    b_bp b' = b_bp b /\ b_valsz b' = b_valsz b + kvsz kv.
Proof.
  intros Hb Hn Hroom. assert (Ht : b_type b = Tleaf) by by rewrite Hn.
  destruct (setval_repr b vs kv Hb) as (b' & E & Hb' & _ & Hs & _).
  { unfold val_spc. by rewrite Ht. }
  exists b'. unfold setval in E. unfold blk_setval.
  rewrite gdata_off_eq by (by left).
  change (if b_type b =? Tleaf then Leafspc else Pivspc) with (val_spc (b_type b)).
  match type of E with (if ?c then _ else _) = _ => destruct c; [|done] end.
  match type of E with (if ?c then _ else _) = _ => destruct c; [|done] end.
  cbv zeta in E |- *. rewrite E. split; [done|]. split; [done|].
  bind_inv E as buf1 E1. bind_inv E as buf2 E2. apply Ok_inj in E as <-.
  split; [|by split]. unfold is_new in *. rewrite Hn. done.
Qed.

Lemma new_leaf_repr addr gen : vals_repr (new_leaf addr gen) [].
Proof.
  split; cbn [new_leaf b_type b_buf b_nval b_valsz]; [by left|apply zlen_zbuf|done|done|].
  apply region_nil; [done|done|]. rewrite zlen_zbuf. vm_compute. discriminate.
Qed.

(** Writing the header leaves the entries. *)
Lemma blk_finalize_leaf b vs :
  vals_repr b vs -> is_new b -> exists b', blk_finalize Leafhdsz b = Ok b' /\ vals_repr b' vs /\
    is_new b' /\ load_hdr (b_bp b') (b_buf b') = Ok b' /\
    bp_addr (b_bp b') = bp_addr (b_bp b) /\ bp_gen (b_bp b') = bp_gen (b_bp b) /\
    0 <= bp_hash (b_bp b') < 2 ^ 64.
Proof.
  intros Hb Hn. pose proof Hb as [_ Hl Hnv Hs Hr].
  assert (Ht : b_type b = Tleaf) by by rewrite Hn.
  set (h := PACK16 Tleaf ++ PACK16 (b_nval b) ++ PACK16 (b_valsz b)).
  assert (El : is_logblk b = false) by (unfold is_logblk; by rewrite Ht).
  assert (Ehd : gheader_bytes b 0 = h) by (unfold gheader_bytes; by rewrite Ht).
  unfold blk_finalize. rewrite El. cbn [rbind]. rewrite Ehd.
  destruct (wr_ok (b_buf b) 0 h) as (buf & E & Lb); [done|rewrite Hl; vm_compute; discriminate|].
  rewrite E. cbn [rbind].
  destruct (gefs_bufhash_ok buf) as (hash & Eh & Hh). rewrite Lb, Hl in Eh. rewrite Eh. cbn [rbind].
  eexists. split; [done|].
  pose proof (rg_room _ _ _ _ Hr) as Hroom. pose proof (val_spc_bound (b_type b)) as Hbd.
  pose proof (total_nonneg (kv_bytes <$> vs)). pose proof (zlen_nonneg vs) as Hz.
  rewrite zlen_fmap in Hroom.
  split; [|split; [|split; [|done]]].
  - split; cbn [b_type b_nval b_valsz b_buf]; [by left|by rewrite Lb|done|done|].
    unfold data_off in *. cbn [b_type]. rewrite Ht in Hr |- *.
    apply (region_frame _ _ _ _ _ Hr); [done|]. intros o bs Ho1 Ho2 Ha.
    eapply wr_frame; [exact E|done|]. right. change (0 + zlen h) with 6.
    change (hdsz Tleaf) with 6 in Ho1. lia.
  - unfold is_new. cbn [b_nval b_valsz b_bp b_buf]. rewrite Hn. done.
  - cbn [b_bp b_buf].
    pose proof (wr_at _ _ _ _ E) as Ha. unfold h in Ha.
    rewrite !at_app in Ha. destruct Ha as (A0 & A2 & A4).
    rewrite zlen_PACK16 in A2, A4. rewrite zlen_PACK16 in A4.
    change (0 + 2) with 2 in A2. change (0 + 2 + 2) with 4 in A4.
    assert (Hr0 : forall o v, at_ buf o (PACK16 v) -> rd16 buf o = Ok (u16 v)).
    { intros o v. apply rd16_at. }
    unfold load_hdr. rewrite (Hr0 _ _ A0). cbn [rbind].
    rewrite s16_u16. change (s16 Tleaf) with Tleaf.
    change ((Tleaf =? Tleaf) || (Tleaf =? Tpivot)) with true.
    change (Tleaf =? Tpivot) with false. cbv iota zeta.
    rewrite (Hr0 _ _ A2), (Hr0 _ _ A4). cbn [rbind].
    rewrite !s16_u16, !s16_small by lia. rewrite Hn. cbn. done.
Qed.

(** ** The merge *)

(** The entries of the new leaf, for plain messages. *)
Definition gputs (m : Msg) : list Kvp := if m_op m =? Oinsert then [kv_of_msg m] else [].

Fixpoint gmerge (vs : list Kvp) (ms : list Msg) {struct ms} : list Kvp :=
  match ms with
  | [] => vs
  | m :: ms' =>
      (fix go (vs : list Kvp) : list Kvp :=
         match vs with
         | [] => gputs m ++ gmerge [] ms'
         | v :: vs' =>
             let cmp := gefs_keycmp (kv_k v) (m_k m) in
             if cmp <? 0 then v :: go vs'
             else if cmp =? 0 then gputs m ++ gmerge vs' ms'
             else gputs m ++ gmerge (v :: vs') ms'
         end) vs
  end.

Lemma gmerge_cons v vs m ms :
  gmerge (v :: vs) (m :: ms) =
  let cmp := gefs_keycmp (kv_k v) (m_k m) in
  if cmp <? 0 then v :: gmerge vs (m :: ms)
  else if cmp =? 0 then gputs m ++ gmerge vs ms
  else gputs m ++ gmerge (v :: vs) ms.
Proof. done. Qed.

Lemma gmerge_nil m ms : gmerge [] (m :: ms) = gputs m ++ gmerge [] ms.
Proof. done. Qed.

(** The room of the entries of a leaf. *)
Definition leaf_room (vs : list Kvp) : Z := 2 * zlen vs + total (kv_bytes <$> vs).

Lemma leaf_room_app a b : leaf_room (a ++ b) = leaf_room a + leaf_room b.
Proof. unfold leaf_room. rewrite zlen_app, fmap_app, total_app. lia. Qed.
Lemma leaf_room_nonneg a : 0 <= leaf_room a.
Proof. unfold leaf_room. pose proof (zlen_nonneg a). pose proof (total_nonneg (kv_bytes <$> a)). lia. Qed.
Lemma leaf_room_one v : leaf_room [v] = 2 + kvsz v.
Proof.
  unfold leaf_room. change (total (kv_bytes <$> [v])) with (zlen (kv_bytes v) + 0).
  rewrite zlen_kv_bytes. change (zlen [v]) with 1. lia.
Qed.

(** One entry more, when the final leaf has room. *)
Lemma setval_step b acc v rest :
  vals_repr b acc -> is_new b -> leaf_room (acc ++ v :: rest) <= Leafspc ->
  exists b', blk_setval b v = Ok b' /\ vals_repr b' (acc ++ [v]) /\ is_new b' /\ b_bp b' = b_bp b.
Proof.
  intros Hb Hn Hr.
  change (v :: rest) with ([v] ++ rest) in Hr. rewrite !leaf_room_app, leaf_room_one in Hr.
  pose proof (leaf_room_nonneg rest).
  destruct (blk_setval_repr b acc v Hb Hn) as (b' & E & Hb' & Hn' & Hbp & _).
  { rewrite (vr_valsz _ _ Hb). unfold leaf_room in *. lia. }
  by exists b'.
Qed.

Lemma gputs_step b acc m rest :
  plain m -> vals_repr b acc -> is_new b -> leaf_room (acc ++ gputs m ++ rest) <= Leafspc ->
  exists b', (if m_op m =? Oinsert then blk_setval b (kv_of_msg m) else Ok b) = Ok b' /\
    vals_repr b' (acc ++ gputs m) /\ is_new b' /\ b_bp b' = b_bp b.
Proof.
  intros _ Hb Hn Hr. unfold gputs in *. destruct (m_op m =? Oinsert).
  - by apply (setval_step b acc (kv_of_msg m) rest).
  - exists b. by rewrite app_nil_r.
Qed.

(** The loop writes the merge, whatever it has written before. *)
Lemma gmerge_loop_ok root vs : vals_repr root vs -> forall fuel pre rest ms nb acc,
  vs = pre ++ rest -> Forall plain ms -> (length rest + length ms <= fuel)%nat ->
  vals_repr nb acc -> is_new nb -> leaf_room (acc ++ gmerge rest ms) <= Leafspc ->
  exists nb', gmerge_loop fuel root (zlen pre) ms nb = Ok nb' /\
    vals_repr nb' (acc ++ gmerge rest ms) /\ is_new nb' /\ b_bp nb' = b_bp nb.
Proof.
  intros Hroot. induction fuel as [|fuel IH]; intros pre rest ms nb acc Evs Hpl Hf Hnb Hn Hr.
  { destruct rest, ms; try (simpl in Hf; lia). cbn [gmerge_loop].
    rewrite (vr_nval _ _ Hroot), Evs, app_nil_r, Z.ltb_irrefl. cbn [orb negb].
    exists nb. rewrite app_nil_r. done. }
  cbn [gmerge_loop].
  assert (Hlt : (zlen pre <? b_nval root) = match rest with [] => false | _ => true end).
  { rewrite (vr_nval _ _ Hroot), Evs, zlen_app. destruct rest as [|v rest].
    - apply Z.ltb_ge. unfold zlen. simpl. lia.
    - apply Z.ltb_lt. rewrite zlen_cons. pose proof (zlen_nonneg rest). lia. }
  rewrite Hlt. destruct rest as [|v rest].
  - destruct ms as [|m ms]; [by exists nb; rewrite app_nil_r|].
    apply Forall_cons in Hpl as [Hm Hpl]. rewrite gmerge_nil in Hr |- *.
    destruct (gputs_step nb acc m (gmerge [] ms) Hm Hnb Hn Hr) as (b1 & -> & H1 & N1 & B1). cbn [rbind].
    rewrite app_assoc in Hr |- *.
    destruct (IH pre [] ms b1 (acc ++ gputs m)) as (b2 & E2 & H2 & N2 & B2); try done.
    { simpl in Hf |- *. lia. }
    exists b2. split; [done|]. split; [done|]. split; [done|]. by rewrite B2.
  - assert (Hg : gefs_getval root (zlen pre) = Ok v).
    { rewrite gefs_getval_eq by (by eapply vals_repr_tree). apply (getval_repr root vs (length pre)); [done|].
      by rewrite Evs, lookup_app_r, Nat.sub_diag by lia. }
    assert (Hstep : forall ms, Forall plain ms -> (length rest + length ms <= fuel)%nat ->
      leaf_room (acc ++ v :: gmerge rest ms) <= Leafspc ->
      exists nb', (let! nb := blk_setval nb v in gmerge_loop fuel root (zlen pre + 1) ms nb) = Ok nb' /\
        vals_repr nb' (acc ++ v :: gmerge rest ms) /\ is_new nb' /\ b_bp nb' = b_bp nb).
    { intros ms' Hp' Hf' Hr'. destruct (setval_step nb acc v _ Hnb Hn Hr') as (b1 & -> & H1 & N1 & B1).
      cbn [rbind]. replace (zlen pre + 1) with (zlen (pre ++ [v])) by (rewrite zlen_app; done).
      change (v :: gmerge rest ms') with ([v] ++ gmerge rest ms') in *. rewrite app_assoc in Hr' |- *.
      destruct (IH (pre ++ [v]) rest ms' b1 (acc ++ [v])) as (b2 & E2 & H2 & N2 & B2); try done.
      { by rewrite <- app_assoc. }
      exists b2. split; [done|]. split; [done|]. split; [done|]. by rewrite B2. }
    destruct ms as [|m ms].
    { rewrite Hg. cbn [rbind]. apply (Hstep []); [done|simpl in *; lia|done]. }
    rewrite Hg. cbn [rbind]. rewrite gmerge_cons in Hr |- *. cbv zeta in Hr |- *.
    pose proof Hpl as Hpl'. apply Forall_cons in Hpl' as [Hm Hpl2].
    destruct (gefs_keycmp (kv_k v) (m_k m) <? 0) eqn:Ec.
    { apply (Hstep (m :: ms)); [done|simpl in *; lia|done]. }
    destruct (gefs_keycmp (kv_k v) (m_k m) =? 0) eqn:Ec0.
    + destruct (gputs_step nb acc m _ Hm Hnb Hn Hr) as (b1 & E1 & H1 & N1 & B1).
      assert (Ew : (if m_op m =? Oinsert then blk_setval nb (kv_of_msg m)
        else if m_op m =? Owstat then
          let! kv := gefs_cpkvp v Inlmax in let! kv := gstatupdate kv m in blk_setval nb kv
        else Ok nb) = Ok b1).
      { rewrite <- E1. destruct Hm as [E|[E|[E|E]]]; rewrite E; done. }
      rewrite Ew. cbn [rbind]. rewrite app_assoc in Hr |- *.
      replace (zlen pre + 1) with (zlen (pre ++ [v])) by (rewrite zlen_app; done).
      destruct (IH (pre ++ [v]) rest ms b1 (acc ++ gputs m)) as (b2 & E2 & H2 & N2 & B2); try done.
      { by rewrite <- app_assoc. }
      { simpl in *; lia. }
      exists b2. split; [done|]. split; [done|]. split; [done|]. by rewrite B2.
    + destruct (gputs_step nb acc m _ Hm Hnb Hn Hr) as (b1 & -> & H1 & N1 & B1). cbn [rbind].
      rewrite app_assoc in Hr |- *.
      destruct (IH pre (v :: rest) ms b1 (acc ++ gputs m)) as (b2 & E2 & H2 & N2 & B2); try done.
      { simpl in *; lia. }
      exists b2. split; [done|]. split; [done|]. split; [done|]. by rewrite B2.
Qed.

(** ** What the merge means *)

Definition kvlt (a b : Kvp) : Prop := klt (kv_k a) (kv_k b).
Definition mklt (a b : Msg) : Prop := klt (m_k a) (m_k b).

(** The value of a key, and the message for a key. *)
Fixpoint kget (vs : list Kvp) (k : list Z) : option Kvp :=
  match vs with
  | [] => None
  | v :: vs' => if decide (kv_k v = k) then Some v else kget vs' k
  end.

Fixpoint mfind (ms : list Msg) (k : list Z) : option Msg :=
  match ms with
  | [] => None
  | m :: ms' => if decide (m_k m = k) then Some m else mfind ms' k
  end.

Lemma kget_none vs k : Forall (fun v => kv_k v <> k) vs -> kget vs k = None.
Proof. induction 1 as [|v vs Hv _ IH]; [done|]. cbn [kget]. by rewrite decide_False. Qed.
Lemma mfind_none ms k : Forall (fun m => m_k m <> k) ms -> mfind ms k = None.
Proof. induction 1 as [|m ms Hm _ IH]; [done|]. cbn [mfind]. by rewrite decide_False. Qed.

Lemma kget_app_gputs m rest k :
  kget (gputs m ++ rest) k =
  if decide (m_k m = k) then (if m_op m =? Oinsert then Some (kv_of_msg m) else kget rest k)
  else kget rest k.
Proof.
  unfold gputs. destruct (m_op m =? Oinsert); cbn [app kget kv_of_msg kv_k]; by case_decide.
Qed.

(** Every key of the merge is a key of one of the two. *)
Lemma gmerge_forall (P : list Z -> Prop) ms : forall vs,
  Forall (fun v => P (kv_k v)) vs -> Forall (fun m => P (m_k m)) ms ->
  Forall (fun v => P (kv_k v)) (gmerge vs ms).
Proof.
  assert (Hputs : forall m, P (m_k m) -> Forall (fun v => P (kv_k v)) (gputs m)).
  { intros m Hm. unfold gputs. destruct (_ =? _); [by constructor|constructor]. }
  induction ms as [|m ms IHm]; intros vs Hv Hm; [done|].
  apply Forall_cons in Hm as [Hm Hms].
  induction Hv as [|v vs Hv Hvs IHv].
  - rewrite gmerge_nil. apply Forall_app. split; [auto|]. by apply IHm.
  - rewrite gmerge_cons. cbv zeta. destruct (_ <? 0); [by constructor|].
    destruct (_ =? 0); apply Forall_app; (split; [by auto|]); apply IHm; try done. by constructor.
Qed.

Lemma sorted_gputs m rest :
  StronglySorted kvlt rest -> Forall (fun v => klt (m_k m) (kv_k v)) rest ->
  StronglySorted kvlt (gputs m ++ rest).
Proof. unfold gputs. destruct (_ =? _); [|done]. by constructor. Qed.

Lemma gmerge_sorted ms : forall vs,
  StronglySorted kvlt vs -> StronglySorted mklt ms -> StronglySorted kvlt (gmerge vs ms).
Proof.
  induction ms as [|m ms IHm]; intros vs Hv Hm; [done|].
  apply StronglySorted_cons in Hm as [Hm Hms].
  assert (Hbelow : forall vs, Forall (fun v => klt (m_k m) (kv_k v)) vs ->
    Forall (fun v => klt (m_k m) (kv_k v)) (gmerge vs ms)).
  { intros ws Hw. by apply (gmerge_forall (fun k => klt (m_k m) k)). }
  induction Hv as [|v vs Hv IHv Hvs].
  - rewrite gmerge_nil. apply sorted_gputs; [apply IHm; [constructor|done]|].
    apply Hbelow. constructor.
  - rewrite gmerge_cons. cbv zeta. rewrite gefs_keycmp_eq.
    destruct (keycmpP (kv_k v) (m_k m)) as [Hc|Hc|Hc]; cbn [Z.ltb Z.eqb Z.compare].
    + constructor; [done|]. apply (gmerge_forall (fun k => klt (kv_k v) k)); [done|].
      constructor; [done|]. eapply Forall_impl; [exact Hm|]. intros m' Hm'. by eapply klt_trans.
    + apply sorted_gputs; [by apply IHm|]. apply Hbelow. eapply Forall_impl; [exact Hvs|].
      intros w Hw. unfold kvlt in Hw. by rewrite <- Hc.
    + apply sorted_gputs; [apply IHm; [by constructor|done]|]. apply Hbelow. constructor; [done|].
      eapply Forall_impl; [exact Hvs|]. intros w Hw. by eapply klt_trans.
Qed.

Lemma klt_forall_ne {A} (f : A -> list Z) (l : list A) k :
  Forall (fun a => klt k (f a)) l -> Forall (fun a => f a <> k) l.
Proof. intros H. eapply Forall_impl; [exact H|]. cbv beta. intros a Ha E. rewrite E in Ha. by eapply klt_irrefl. Qed.

(** For a batch without two messages for one key the merge is the update. *)
Lemma gmerge_get k ms : forall vs,
  StronglySorted kvlt vs -> StronglySorted mklt ms ->
  kget (gmerge vs ms) k =
  match mfind ms k with Some m => gval_step (kget vs k) m | None => kget vs k end.
Proof.
  induction ms as [|m ms IHm]; intros vs Hv Hm; [done|].
  apply StronglySorted_cons in Hm as [Hm Hms].
  pose proof (mfind_none ms (m_k m) (klt_forall_ne _ _ _ Hm)) as Hnone.
  induction Hv as [|v vs Hv IHv Hvs].
  - rewrite gmerge_nil, kget_app_gputs, IHm by (done || constructor). cbn [mfind kget].
    case_decide as E; [|done]. unfold gval_step. rewrite <- E, Hnone. by destruct (m_op m =? Oinsert).
  - pose proof (klt_forall_ne kv_k vs _ Hvs) as Hvne.
    rewrite gmerge_cons. cbv zeta. rewrite gefs_keycmp_eq.
    destruct (keycmpP (kv_k v) (m_k m)) as [Hc|Hc|Hc]; cbn [Z.ltb Z.eqb Z.compare].
    + cbn [kget]. destruct (decide (kv_k v = k)) as [E|E]; [|exact IHv].
      rewrite (mfind_none (m :: ms)); [done|]. apply klt_forall_ne. rewrite <- E. constructor; [done|].
      eapply Forall_impl; [exact Hm|]. intros m' Hm'. by eapply klt_trans.
    + rewrite kget_app_gputs, IHm by done. cbn [mfind kget]. rewrite Hc.
      case_decide as E; [|done]. unfold gval_step.
      rewrite <- E, Hnone, (kget_none vs) by (by rewrite <- Hc). by destruct (m_op m =? Oinsert).
    + rewrite kget_app_gputs, IHm by (done || by constructor). cbn [mfind].
      case_decide as E; [|done]. unfold gval_step.
      assert (Hno : kget (v :: vs) k = None).
      { apply kget_none, klt_forall_ne. rewrite <- E. constructor; [done|].
        eapply Forall_impl; [exact Hvs|]. intros w Hw. by eapply klt_trans. }
      rewrite Hno, <- E, Hnone. by destruct (m_op m =? Oinsert).
Qed.

(** The search of a leaf is [kget]. *)
Lemma found_kget vs k ri same :
  StronglySorted kvlt vs -> found (vkeys vs) k ri same ->
  (if same then vs !! Z.to_nat ri else None) = kget vs k.
Proof.
  intros Hs (n & (Hn & Hlow & _) & Hf). destruct same.
  - destruct Hf as [-> Hk]. rewrite Nat2Z.id.
    unfold vkeys in Hk. apply list_lookup_fmap_Some in Hk as (v & -> & Hv). rewrite Hv.
    clear Hn Hs. revert n Hv Hlow. induction vs as [|w vs IH]; intros n Hv Hlow; [done|].
    cbn [kget]. destruct n as [|n].
    + injection Hv as ->. by rewrite decide_True.
    + assert (Hw : klt (kv_k w) (kv_k v)) by (apply (Hlow 0%nat); [done|lia]).
      rewrite decide_False by (intros E; rewrite E in Hw; by eapply klt_irrefl).
      apply (IH n); [done|]. intros i y Hy Hi. apply (Hlow (S i)); [done|lia].
  - destruct Hf as [_ Hk]. symmetry. apply kget_none. rewrite Forall_forall. intros v Hv E.
    apply Hk. unfold vkeys. rewrite <- E. by apply list_elem_of_fmap_2.
Qed.

Lemma kvlt_ksorted vs : StronglySorted kvlt vs -> ksorted (vkeys vs).
Proof.
  induction 1 as [|v vs Hs IH Hv]; [constructor|]. cbn. constructor; [done|].
  apply Forall_fmap. eapply Forall_impl; [exact Hv|]. intros w Hw. by apply klt_kle.
Qed.

(** The sort of a batch is that of src/tree.c. *)
Lemma gsift_eq m j : gsift m j = sift m j.
Proof.
  revert m. induction j as [|j IH]; intros m; [done|]. cbn [gsift sift].
  destruct (m !! j) as [a|]; [|done]. destruct (m !! S j) as [b|]; [|done].
  rewrite gefs_keycmp_eq. destruct (keycmp (m_k a) (m_k b) <=? 0); [done|apply IH].
Qed.

Lemma gsort_eq m : gsort m = stablesort m.
Proof.
  unfold gsort, stablesort. generalize (seq 1 (length m - 1)). intros l. revert m.
  induction l as [|j l IH]; intros m; [done|]. cbn [foldl]. by rewrite gsift_eq, IH.
Qed.

(** A batch with at most one message for a key. *)
Definition distinct_keys (ms : list Msg) : Prop := NoDup (m_k <$> ms).

Lemma gsort_strict ms : distinct_keys ms -> StronglySorted mklt (gsort ms).
Proof.
  intros Hd. rewrite gsort_eq. pose proof (stablesort_sorted ms) as Hs.
  assert (Hn : distinct_keys (stablesort ms)).
  { unfold distinct_keys. by rewrite (stablesort_perm ms). }
  unfold distinct_keys in Hn. revert Hs Hn. generalize (stablesort ms). clear.
  induction l as [|m l IH]; intros Hs Hn; [constructor|].
  apply StronglySorted_cons in Hs as [Hm Hs]. cbn in Hn. apply NoDup_cons in Hn as [Hk Hn].
  constructor; [by apply IH|]. rewrite Forall_forall in Hm |- *. intros m' Hm'.
  unfold mklt. destruct (keycmpP (m_k m) (m_k m')) as [?|E|Hc]; [done| |].
  - exfalso. apply Hk. rewrite E. by apply list_elem_of_fmap_2.
  - exfalso. apply (klt_not_kle _ _ Hc). by apply Hm.
Qed.

Lemma mfind_elem ms m k : distinct_keys ms -> m ∈ ms -> m_k m = k -> mfind ms k = Some m.
Proof.
  unfold distinct_keys. induction ms as [|a ms IH]; intros Hn Hm Hk; [by apply elem_of_nil in Hm|].
  cbn in Hn. apply NoDup_cons in Hn as [Ha Hn]. cbn [mfind].
  apply elem_of_cons in Hm as [->|Hm]; [by rewrite decide_True|].
  rewrite decide_False; [by apply IH|]. intros E. apply Ha. rewrite E, <- Hk. by apply list_elem_of_fmap_2.
Qed.

Lemma mfind_perm ms ms' k : distinct_keys ms -> Permutation ms ms' -> mfind ms k = mfind ms' k.
Proof.
  intros Hd Hp. assert (Hd' : distinct_keys ms') by (unfold distinct_keys; by rewrite <- Hp).
  destruct (mfind ms' k) as [m|] eqn:E.
  - assert (m ∈ ms' /\ m_k m = k) as [Hm Hk].
    { clear -E. induction ms' as [|a ms' IH]; [done|]. cbn [mfind] in E.
      case_decide; [injection E as <-; by split; [left|]|]. destruct (IH E). by split; [right|]. }
    apply mfind_elem; [done|by rewrite Hp|done].
  - apply mfind_none, Forall_forall. intros m Hm Hk. rewrite Hp in Hm.
    by rewrite (mfind_elem ms' m k Hd' Hm Hk) in E.
Qed.

Lemma gsort_mfind ms k : distinct_keys ms -> mfind (gsort ms) k = mfind ms k.
Proof. intros Hd. symmetry. apply mfind_perm; [done|]. by rewrite gsort_eq, stablesort_perm. Qed.

(** ** Reading what was written *)

(** Two blocks of the image that do not overlap. *)
Definition apart (a b : Z) : Prop := a + Blksz <= b \/ b + Blksz <= a.

Lemma img_bytes_lookup d off n i :
  0 <= i < n -> img_bytes d off n !! Z.to_nat i = Some (im_byte d (off + i)).
Proof.
  intros Hi. unfold img_bytes. rewrite list_lookup_fmap, lookup_seqZ_lt by lia.
  cbn. by rewrite Z2Nat.id by lia.
Qed.

Lemma pread_pwrite_same d off buf :
  0 <= off -> zlen buf = Blksz -> pread (pwrite d off buf) off = Some buf.
Proof.
  intros Ho Hl. unfold pread, pwrite. rewrite (proj2 (Z.ltb_ge off 0)) by done.
  cbn [im_size]. rewrite Hl, (proj2 (Z.leb_le 0 off)), (proj2 (Z.leb_le _ (Z.max _ _))) by lia.
  cbn [andb]. f_equal. apply list_eq_same_length with (length buf); [done| |].
  { unfold img_bytes. rewrite length_fmap, length_seqZ. unfold zlen in Hl. lia. }
  intros i x y Hi Hx Hy. pose proof (lookup_lt_Some _ _ _ Hy).
  rewrite <- (Nat2Z.id i), img_bytes_lookup in Hx by (unfold zlen in Hl; lia).
  injection Hx as <-. cbn [im_byte].
  rewrite (proj2 (Z.leb_le _ _)), (proj2 (Z.ltb_lt _ _)) by (unfold zlen in *; lia). cbn [andb].
  replace (off + Z.of_nat i - off) with (Z.of_nat i) by lia. rewrite Nat2Z.id.
  unfold byte_at. by apply nth_lookup_Some.
Qed.

Lemma pread_pwrite_apart d off buf off' buf' :
  zlen buf = Blksz -> apart off off' -> pread d off' = Some buf' ->
  pread (pwrite d off buf) off' = Some buf'.
Proof.
  intros Hl Ha Hr. unfold pwrite. destruct (Z.ltb_spec off 0); [done|].
  unfold pread in *. cbn [im_size]. rewrite Hl.
  destruct ((0 <=? off') && (off' + Blksz <=? im_size d)) eqn:E; [|done]. zb.
  rewrite (proj2 (Z.leb_le 0 off')), (proj2 (Z.leb_le _ (Z.max _ _))) by lia. cbn [andb].
  rewrite <- Hr. f_equal. unfold img_bytes. apply list_fmap_ext. intros i x Hx.
  apply lookup_seqZ in Hx as [-> Hi]. cbn [im_byte].
  assert ((off <=? off' + Z.of_nat i) && (off' + Z.of_nat i <? off + Blksz) = false) as ->.
  { apply andb_false_iff. unfold apart in Ha. destruct Ha; [right; apply Z.ltb_ge|left; apply Z.leb_gt]; lia. }
  by rewrite (proj2 (Z.ltb_lt _ _)) by lia.
Qed.

Lemma cache_ok_pwrite d D c off buf :
  zlen buf = Blksz -> cache_ok d D c -> (forall a, cached c a -> a ∈ D \/ apart off a) ->
  cache_ok (pwrite d off buf) D c.
Proof.
  intros Hl [H1 H2 H3 H4 H5 H6] Ha. split; try done. intros i b Hb.
  destruct (H1 i b Hb) as [[HD|[Hp Hh]] Hr]; (split; [|done]); [by left|].
  destruct (Ha (gb_addr b)) as [HD|Hap]; [by exists i, b|by left|].
  right. split; [|done]. by apply pread_pwrite_apart.
Qed.

(** ** The context of an update *)

Definition ctx_ok (D : gset Z) (x : GefsCtx) : Prop := cache_ok (gx_img x) D (gx_cache x).

(** The tree [w] of the context has the root [rb] with the entries [vs], and
    the allocator gives out a block that is not in use. *)
Record upsert_pre (w : tsel) (D : gset Z) (x : GefsCtx) (rb : Blk) (vs : list Kvp)
    (addr : Z) (l : list GefsArena) : Prop := {
  up_cache : ctx_ok D x;
  up_rw : gx_readonly x = false /\ 0 < ps_narena (gx_sb x);
  up_root : tstored x D (pt_bp (get_tree w x)) rb;
  up_vals : vals_repr rb vs;
  up_alloc : galloc_loop (gx_arenas x) = Some (addr, l);
  up_addr : 0 <= addr /\ addr ∉ D;
  up_fresh : apart addr (bp_addr (pt_bp (get_tree w x))) /\
    forall a, cached (gx_cache x) a -> apart addr a }.

(** The tree is one leaf with the entries [vs'], at the new block; all other
    blocks of the image are as before. *)
Record upsert_post (w : tsel) (D : gset Z) (x : GefsCtx) (vs' : list Kvp)
    (addr : Z) (l : list GefsArena) (x' : GefsCtx) : Prop := {
  uq_cache : ctx_ok D x';
  uq_leaf : exists b, tstored x' D (pt_bp (get_tree w x')) b /\ vals_repr b vs';
  uq_bp : bp_addr (pt_bp (get_tree w x')) = addr /\
    bp_gen (pt_bp (get_tree w x')) = pt_gen (get_tree w x) /\
    0 <= bp_hash (pt_bp (get_tree w x')) < 2 ^ 64;
  uq_tree : get_tree w x' = gt_set_root (get_tree w x) (pt_bp (get_tree w x')) 1;
  uq_active : gx_active x' = if pt_gen (get_tree w x) =? pt_gen (gx_active x)
    then gt_set_root (gx_active x) (pt_bp (get_tree w x')) 1 else gx_active x;
  uq_snap : w = TActive -> gx_snap x' = gx_snap x;
  uq_rest : gx_sb x' = gx_sb x /\ gx_arenas x' = l /\ gx_dirty x' = true /\
    gx_readonly x' = gx_readonly x;
  uq_img : forall a buf, apart addr a -> pread (gx_img x) a = Some buf ->
    pread (gx_img x') a = Some buf;
  uq_size : im_size (gx_img x') = Z.max (im_size (gx_img x)) (addr + Blksz) }.

Lemma set_cache_id x : set_cache (gx_cache x) x = x.
Proof. by destruct x. Qed.

Lemma gefs_alloc_blk_ok x addr l :
  gx_readonly x = false -> 0 < ps_narena (gx_sb x) -> galloc_loop (gx_arenas x) = Some (addr, l) ->
  gefs_alloc_blk x = (Ok (Some addr), set_dirty true (set_arenas l x)).
Proof.
  intros H1 H2 H3. unfold gefs_alloc_blk, mbind, mget, mmod, mret.
  by rewrite H1, (proj2 (Z.leb_gt _ _)), H3 by done.
Qed.

(** The new block, in the cache and on the image. *)
Lemma insert_written d D c nb i c' :
  cache_ok d D c -> 0 <= bp_addr (b_bp nb) -> zlen (b_buf nb) = Blksz ->
  load_hdr (b_bp nb) (b_buf nb) = Ok nb -> (forall a, cached c a -> apart (bp_addr (b_bp nb)) a) ->
  cache_ins (mkGBlk nb 1) c = (i, c') ->
  cache_ok (pwrite d (bp_addr (b_bp nb)) (b_buf nb)) D c' /\ keeps c c'.
Proof.
  intros H Ha Hl Hh Hf Ei.
  destruct (cache_ins_ok (pwrite d (bp_addr (b_bp nb)) (b_buf nb)) D c (mkGBlk nb 1) i c')
    as (H1 & H2 & _); try done.
  - apply cache_ok_pwrite; [done|done|]. right. auto.
  - right. split; [by apply pread_pwrite_same|done].
  - intros j y Hy E. specialize (Hf (gb_addr y) ltac:(by exists j, y)).
    rewrite E in Hf. unfold gb_addr, apart in Hf. cbn in Hf. change Blksz with 16384 in Hf. lia.
Qed.

Lemma gread_at x i b : held (gx_cache x) i b -> gread i x = (Ok b, x).
Proof. intros H. rewrite <- (set_cache_id x). by apply gread_ok. Qed.

(** The merged leaf, with its header. *)
Lemma merged_leaf rb vs ms addr gen :
  vals_repr rb vs -> Forall plain ms -> leaf_room (gmerge vs (gsort ms)) <= Leafspc ->
  exists nb nb', gmerge_loop (Z.to_nat (b_nval rb) + length ms) rb 0 (gsort ms) (new_leaf addr gen) = Ok nb /\
    blk_finalize Leafhdsz nb = Ok nb' /\ vals_repr nb' (gmerge vs (gsort ms)) /\
    load_hdr (b_bp nb') (b_buf nb') = Ok nb' /\ bp_addr (b_bp nb') = addr /\
    bp_gen (b_bp nb') = gen /\ 0 <= bp_hash (b_bp nb') < 2 ^ 64.
Proof.
  intros Hrb Hpl Hroom.
  assert (Hlen : length (gsort ms) = length ms) by (rewrite gsort_eq; apply stablesort_length).
  destruct (gmerge_loop_ok rb vs Hrb (Z.to_nat (b_nval rb) + length ms) [] vs (gsort ms)
    (new_leaf addr gen) []) as (nb & Em & Hnb & Hn & Hbp); try done.
  { rewrite gsort_eq, stablesort_perm. done. }
  { rewrite (vr_nval _ _ Hrb), Hlen. unfold zlen. lia. }
  { apply new_leaf_repr. }
  destruct (blk_finalize_leaf nb _ Hnb Hn) as (nb' & Ef & Hnb' & _ & Hh & Ha & Hg & Hr).
  exists nb, nb'. do 4 (split; [done|]). by rewrite Ha, Hg, Hbp.
Qed.

Lemma mbind_mod {S A} (f : S -> S) (k : unit -> M S A) s : mbind (mmod f) k s = k tt (f s).
Proof. done. Qed.

(** The end of [gefs_btupsert], from the loaded root on. *)
Definition upsert_tail (w : tsel) (root : nat) (nb : Blk) : M GefsCtx (ret unit) :=
  do* mmod (fun x => set_tree w (gt_set_root (get_tree w x) (b_bp nb) 1) x) in
  do* mmod (fun x =>
    if pt_gen (get_tree w x) =? pt_gen (gx_active x)
    then set_active (gt_set_root (gx_active x) (b_bp nb) 1) x else x) in
  let* _ := on_cache (fun c => Ok (cache_ins (mkGBlk nb 1) c)) in
  do* gefs_dropblk root in
  do* mmod (set_dirty true) in
  mret (Done tt).

Lemma upsert_tail_ok w D x root nb vs' :
  cache_ok (gx_img x) D (gx_cache x) -> (exists b, held (gx_cache x) root b) ->
  0 <= bp_addr (b_bp nb) -> bp_addr (b_bp nb) ∉ D ->
  bp_gen (b_bp nb) = pt_gen (get_tree w x) -> 0 <= bp_hash (b_bp nb) < 2 ^ 64 ->
  vals_repr nb vs' -> load_hdr (b_bp nb) (b_buf nb) = Ok nb ->
  (forall a, cached (gx_cache x) a -> apart (bp_addr (b_bp nb)) a) ->
  exists x', upsert_tail w root nb (set_img (pwrite (gx_img x) (bp_addr (b_bp nb)) (b_buf nb)) x) = (Ok (Done tt), x') /\
    upsert_post w D x vs' (bp_addr (b_bp nb)) (gx_arenas x) x'.
Proof.
  intros H [b Hh] Ha HD Hgen Hhash Hv Hl Hf. set (d := pwrite (gx_img x) (bp_addr (b_bp nb)) (b_buf nb)).
  pose proof (vr_len _ _ Hv) as Hlen.
  destruct (cache_ins (mkGBlk nb 1) (gx_cache x)) as [i c2] eqn:Ei.
  destruct (insert_written _ _ _ _ _ _ H Ha Hlen Hl Hf Ei) as [H2 K2].
  destruct (K2 _ _ Hh) as (r & Hr & Hr0). fold d in H2.
  set (c3 := gstore root (mkGBlk b (if r - 1 <? 0 then 0 else r - 1)) c2).
  assert (H3 : cache_ok d D c3).
  { apply (set_ref_ok _ _ _ root (mkGBlk b r)); [done|done|]. destruct (Z.ltb_spec (r - 1) 0); lia. }
  assert (Hsz : im_size d = Z.max (im_size (gx_img x)) (bp_addr (b_bp nb) + Blksz)).
  { unfold d, pwrite. rewrite (proj2 (Z.ltb_ge _ 0)) by done. cbn [im_size]. by rewrite Hlen. }
  assert (Ht : forall y, gx_img y = d -> tstored y D (b_bp nb) nb).
  { intros y Ey. split; [rewrite Ey; by apply pread_pwrite_same|done]. }
  unfold upsert_tail. rewrite !mbind_mod.
  set (y := set_tree w _ (set_img d x)).
  set (z := if _ =? _ then _ else y).
  assert (Ez : gx_cache z = gx_cache x).
  { unfold z, y. destruct (_ =? _), w; done. }
  assert (E1 : on_cache (fun c => Ok (cache_ins (mkGBlk nb 1) c)) z = (Ok i, set_cache c2 z)).
  { unfold on_cache. by rewrite Ez, Ei. }
  assert (E2 : gefs_dropblk root (set_cache c2 z) = (Ok tt, set_cache c3 z)).
  { unfold gefs_dropblk, on_cache, gload. cbn [gx_cache set_cache]. by rewrite Hr. }
  rewrite (mbind_eq _ _ _ _ _ E1), (mbind_eq _ _ _ _ _ E2), mbind_mod.
  eexists. split; [done|]. unfold z, y. destruct w; cbn.
  - rewrite Z.eqb_refl. split; cbn; try done; [by exists nb; split; [apply Ht|]|by rewrite Z.eqb_refl|].
    intros a buf Hap Hrd. by apply pread_pwrite_apart.
  - destruct (pt_gen (gx_snap x) =? pt_gen (gx_active x)) eqn:Eg;
      (split; cbn; try done; [by exists nb; split; [apply Ht|]|by rewrite Eg|];
       intros a buf Hap Hrd; by apply pread_pwrite_apart).
Qed.

(** A whole update. *)
Lemma gefs_btupsert_ok w D x rb vs addr l ms :
  upsert_pre w D x rb vs addr l -> ms <> [] -> Forall plain ms ->
  leaf_room (gmerge vs (gsort ms)) <= Leafspc ->
  exists x', gefs_btupsert w ms x = (Ok (Done tt), x') /\
    upsert_post w D x (gmerge vs (gsort ms)) addr l x'.
Proof.
  intros [Hc [Hrw Hna] Hroot Hv Hal [Ha HD] [Hf1 Hf2]] Hne Hpl Hroom.
  destruct (getblk_tree x D (gx_cache x) _ _ Hc Hroot) as (i & rb' & c1 & E1 & H1 & K1 & Hh & Hd & Hca).
  rewrite set_cache_id in E1.
  set (x1 := set_cache c1 x) in *. set (x2 := set_dirty true (set_arenas l x1)).
  pose proof (gefs_alloc_blk_ok x1 addr l Hrw Hna Hal) as E2.
  pose proof (gread_at x2 i rb' Hh) as E3.
  destruct (merged_leaf rb' vs ms addr (pt_gen (get_tree w x))) as (nb & nb' & E4 & E5 & Hnb & Hl & Hba & Hbg & Hbh);
    [by eapply vals_repr_data|done|done|].
  destruct (upsert_tail_ok w D x2 i nb' (gmerge vs (gsort ms))) as (x' & E6 & Hpost); try done.
  { by exists rb'. }
  { by rewrite Hba. }
  { by rewrite Hba. }
  { intros a Hca'. rewrite Hba. destruct (Hca a Hca') as [->|?]; [done|by apply Hf2]. }
  exists x'. rewrite Hba in *. split.
  - unfold gefs_btupsert. unfold mbind at 1, mget. rewrite Hrw. cbn [orb].
    assert ((zlen ms <=? 0) = false) as ->.
    { apply Z.leb_gt. destruct ms; [done|]. rewrite zlen_cons. pose proof (zlen_nonneg ms). lia. }
    rewrite (mbind_eq _ _ _ _ _ E1), (mbind_eq _ _ _ _ _ E2).
    rewrite (mbind_eq _ _ _ _ _ E3), (mbind_lift _ _ _ _ E4).
    assert (E7 : blk_finalize_and_write Leafhdsz nb x2 =
      (Ok nb', set_img (pwrite (gx_img x2) (bp_addr (b_bp nb')) (b_buf nb')) x2)).
    { unfold blk_finalize_and_write. by rewrite (mbind_lift _ _ _ _ E5), mbind_mod. }
    rewrite (mbind_eq _ _ _ _ _ E7), Hba. exact E6.
  - destruct Hpost. by split; destruct w.
Qed.
