(* ===== verification/PortOpen.v ===== *)
(** * Opening, snapshots and closing in the port (src/gefs_storage.c:
    [load_arena] to [gefs_opensnap], [gefs_create_snapshot],
    [gefs_delete_snapshot]) *)
From S2P Require Import Prelude CInt Mem Data Keys Pack Super Blk Mst Port PortCache PortTree PortWrite.

(** ** The free lists *)

(** The log operations of this file, which are not those of src/dat.h. *)
Definition LOG_FREE : Z := 0.
Definition LOG_ALLOC : Z := 1.
Definition LOG_FREE1 : Z := 2.
Definition LOG_ALLOC1 : Z := 3.

(** Take a range out of the first free range that holds it. *)
Fixpoint free_take (off len : Z) (l : list (Z * Z)) : list (Z * Z) :=
  match l with
  | [] => []
  | (o, n) :: l' =>
      if (o <=? off) && (off + len <=? o + n) then
        if (off =? o) && (len =? n) then l'
        else if off =? o then (o + len, n - len) :: l'
        else if off + len =? o + n then (o, n - len) :: l'
        else (o, off - o) :: (off + len, o + n - (off + len)) :: l'
      else (o, n) :: free_take off len l'
  end.

(** The entries of one log block from offset [i] of [lp = b->data] on. *)
Fixpoint load_log_blk (fuel : nat) (b : Blk) (logsz i : Z) (l : list (Z * Z))
  : res (list (Z * Z)) :=
  if negb (i <? logsz) then Ok l else
  match fuel with
  | O => Err Efuel
  | S fuel' =>
      let lp := gdata_off b in
      let! ent := rd64 (b_buf b) (lp + i) in
      let op := Z.land ent 0xff in
      let off := s64 (Z.land ent (Z.lnot 0xff)) in
      let wide := (op =? LOG_FREE) || (op =? LOG_ALLOC) in
      let step := if wide then 16 else 8 in
      let! len := if wide then let! x := rd64 (b_buf b) (lp + i + 8) in Ok (s64 x) else Ok Blksz in
      let l :=
        if (op =? LOG_FREE) || (op =? LOG_FREE1) then (off, len) :: l
        else if (op =? LOG_ALLOC) || (op =? LOG_ALLOC1) then free_take off len l
        else l in
      load_log_blk fuel' b logsz (i + step) l
  end.

(** The chain of log blocks; nothing stops a chain that comes back. *)
Fixpoint load_log (fuel : nat) (bp : Bptr) (l : list (Z * Z)) : M GefsCtx (list (Z * Z)) :=
  if bp_addr bp =? -1 then mret l else
  match fuel with
  | O => merror Efuel
  | S fuel' =>
      let* b := gefs_getblk bp in
      match b with
      | None => mret l
      | Some i =>
          let* b := gread i in
          let* logsz := mlift (rd16 (b_buf b) 2) in
          let* p := mlift (rd (b_buf b) 12 Ptrsz) in
          let* next_bp := mlift (gefs_unpackbp p) in
          let* l := mlift (load_log_blk (Z.to_nat logsz) b logsz 0 l) in
          do* gefs_dropblk i in
          load_log fuel' next_bp l
      end
  end.

(** The header is read from [h0->data], which for an arena block is the
    start of the buffer. *)
Definition load_arena (fuel : nat) (h0_bp : Bptr) : M GefsCtx GefsArena :=
  let* h0 := gefs_getblk h0_bp in
  match h0 with
  | None => mret (mkGefsArena 0 0 0 bp0 [])
  | Some i =>
      let* h0 := gread i in
      let d := gdata_off h0 in
      let* size := mlift (rd64 (b_buf h0) d) in
      let* used := mlift (rd64 (b_buf h0) (d + 8)) in
      let* p := mlift (rd (b_buf h0) (d + 32) Ptrsz) in
      let* loghd := mlift (gefs_unpackbp p) in
      do* gefs_dropblk i in
      let* l := load_log fuel loghd [] in
      mret (mkGefsArena (bp_addr h0_bp) (s64 size) (s64 used) loghd l)
  end.

Fixpoint load_arenas (fuel : nat) (l : list Bptr) : M GefsCtx unit :=
  match l with
  | [] => mret tt
  | bp :: l' =>
      let* a := load_arena fuel bp in
      do* mmod (fun x => set_arenas (gx_arenas x ++ [a]) x) in
      load_arenas fuel l'
  end.

(** ** Snapshots *)

(** [gefs_opensnap]: the tree and the flags. *)
Definition gefs_opensnap (label : list Z) : M GefsCtx (ret (GefsTree * Z)) :=
  match gefs_packlbl Kvmax label with
  | None => mret (Fail EINVAL)
  | Some k =>
      let* x := mget in
      let* (ok, kv) := gefs_btlookup (gx_snap x) k Kvmax in
      if negb ok then mret (Fail ENOENT) else
      match kv with
      | None => merror Euninit
      | Some kv =>
          if zlen (kv_v kv) <? 1 + 8 + 4 then mret (Fail EIO) else
          let* gen := mlift (rd64 (kv_v kv) 1) in
          let* flg := mlift (rd32 (kv_v kv) 9) in
          match gefs_packsnap Kvmax (s64 gen) with
          | None => merror Eoob
          | Some k =>
              let* x := mget in
              let* (ok, kv) := gefs_btlookup (gx_snap x) k Kvmax in
              if negb ok then mret (Fail EIO) else
              match kv with
              | None => merror Euninit
              | Some kv =>
                  let* t := mlift (gefs_unpacktree (kv_v kv) (zlen (kv_v kv))) in
                  match t with
                  | None => mret (Fail EIO)
                  | Some t => mret (Done (t, s32 flg))
                  end
              end
          end
      end
  end.

(** "main" and "empty" *)
Definition lbl_main : list Z := [109; 97; 105; 110].
Definition lbl_empty : list Z := [101; 109; 112; 116; 121].
Definition lbl_adm : list Z := [97; 100; 109].

(** The superblock at the start, or else the one in the last block. *)
Definition open_super (img : Img) : res (ret GefsSuper) :=
  match pread img 0 with
  | None => Ok (Fail EIO)
  | Some sbbuf =>
      let! r := gefs_unpacksb sbbuf Blksz in
      match r with
      | Done sb => Ok (Done sb)
      | Fail _ =>
          let fsize := im_size img in
          if Blksz <? fsize then
            match pread img (fsize - Blksz) with
            | None => Ok (Fail EINVAL)
            | Some sbbuf =>
                let! r := gefs_unpacksb sbbuf Blksz in
                match r with Done sb => Ok (Done sb) | Fail _ => Ok (Fail EINVAL) end
            end
          else Ok (Fail EINVAL)
      end
  end.

(** [img] is the opened file, [readonly] says that it could only be opened
    for reading; the error of [open] itself is that of the system. *)
Definition gefs_fs_open (fuel : nat) (img : Img) (readonly : bool) : res (ret GefsCtx) :=
  let! r := open_super img in
  match r with
  | Fail e => Ok (Fail e)
  | Done sb =>
      let x := mkGefsCtx img sb (gefs_cache_init 4096) gtree0 gtree0 [] false readonly in
      let open_trees : M GefsCtx unit :=
        do* load_arenas fuel (ps_arenabp sb) in
        do* mmod (set_snap (ps_snap sb)) in
        let* r := gefs_opensnap lbl_main in
        match r with
        | Done (t, _) => mmod (set_active t)
        | Fail _ =>
            let* r := gefs_opensnap lbl_empty in
            match r with
            | Done (t, _) => mmod (set_active t)
            | Fail _ => mmod (fun x => set_active (gx_snap x) x)
            end
        end in
      match open_trees x with (Ok _, x) => Ok (Done x) | (Err e, _) => Err e end
  end.

(** The changes are written, then everything is freed. *)
Definition gefs_fs_close : M GefsCtx unit :=
  let* x := mget in
  do* (if gx_dirty x && negb (gx_readonly x) then let* _ := gefs_sync_fs in mret tt else mret tt) in
  mmod (fun x => gefs_cache_free (set_arenas [] x)).

Definition sb_set_nextgen (g : Z) (sb : GefsSuper) : GefsSuper :=
  mkGefsSuper (ps_blksz sb) (ps_bufspc sb) (ps_narena sb) (ps_snap sb) (ps_flag sb)
    (ps_nextqid sb) g (ps_qgen sb) (ps_arenabp sb).

(** The two messages of a new snapshot of [t]: its label and its tree. *)
Definition snap_msgs (name : list Z) (t : GefsTree) (new_gen flags : Z) : option (list Msg) :=
  match gefs_packlbl Keymax name, gefs_packsnap Keymax new_gen with
  | Some k1, Some k2 =>
      let new_snap := mkGefsTree 0 1 (pt_ht t) 0 (pt_bp t) (s64 new_gen) (pt_gen t) (-1) 0 in
      Some [mkMsg Oinsert k1 ([Ksnap] ++ PACK64 new_gen ++ PACK32 flags);
            mkMsg Oinsert k2 (gtree_bytes new_snap)]
  | _, _ => None
  end.

(** A name that does not fit gives a key from a null pointer. *)
Definition gefs_create_snapshot (snap_name : list Z) (mutable_flag : bool) : M GefsCtx (ret unit) :=
  let* x := mget in
  if gx_readonly x then mret (Fail EROFS) else
  let flags := Z.lor Ltsnap (if mutable_flag then Lmut else 0) in
  let new_gen := ps_nextgen (gx_sb x) in
  do* mmod (fun x => set_sb (sb_set_nextgen (u64 (new_gen + 1)) (gx_sb x)) x) in
  match snap_msgs snap_name (gx_active x) new_gen flags with
  | None => merror Eoob
  | Some msgs =>
      let* r := gefs_btupsert TSnap msgs in
      match r with
      | Fail e => mret (Fail e)
      | Done _ => let* _ := gefs_sync_fs in mret (Done tt)
      end
  end.

(** Only the label goes; the tree stays in the list of snapshots. *)
Definition gefs_delete_snapshot (snap_name : list Z) : M GefsCtx (ret unit) :=
  let* x := mget in
  if gx_readonly x then mret (Fail EROFS) else
  if bool_decide (snap_name = lbl_main) || bool_decide (snap_name = lbl_adm) ||
     bool_decide (snap_name = lbl_empty) then mret (Fail EPERM) else
  match gefs_packlbl Keymax snap_name with
  | None => merror Eoob
  | Some k =>
      let* r := gefs_btupsert TSnap [mkMsg Odelete k []] in
      match r with
      | Fail e => mret (Fail e)
      | Done _ => let* _ := gefs_sync_fs in mret (Done tt)
      end
  end.
