(* ===== verification/PortFs.v ===== *)
(** * Files and directories of the port (src/gefs_storage.c: [gefs_walk1] to
    [gefs_read_file], [gefs_create_file] to [gefs_utimens_entry])

    Paths are byte strings without a zero.  The buffers of the C code cut a
    path after 1023 bytes and a name after 255.  The clock and the ids of the
    process are parameters. *)
From S2P Require Import Prelude CInt Mem Data Keys Pack Super Blk Apply Mst Port PortCache PortTree PortWrite PortOpen.

(** ** Paths *)

Definition slash : Z := 47.

(** The elements between slashes ([strtok_r]). *)
Fixpoint tokens (p : list Z) (cur : list Z) : list (list Z) :=
  match p with
  | [] => if decide (cur = []) then [] else [cur]
  | c :: p' =>
      if c =? slash then
        if decide (cur = []) then tokens p' [] else cur :: tokens p' []
      else tokens p' (cur ++ [c])
  end.

(** The index of the last slash ([strrchr]). *)
Fixpoint last_slash (p : list Z) (i : nat) (r : option nat) : option nat :=
  match p with
  | [] => r
  | c :: p' => last_slash p' (S i) (if c =? slash then Some i else r)
  end.

(** The directory and the name of a path, as they fit the buffers. *)
Definition split_path (path : list Z) : option (list Z * list Z) :=
  match last_slash path 0 None with
  | None => None
  | Some O => Some ([slash], take 255 (drop 1 path))
  | Some i => Some (take 1023 (take i path), take 255 (drop (S i) path))
  end.

(** ** Look-ups *)

(** [gefs_walk1]: the directory entry, or the error. *)
Definition gefs_walk1 (t : GefsTree) (pqid : Z) (name : list Z) : M GefsCtx (ret Xdir) :=
  let* k := mlift (gefs_packdkey Keymax pqid (Some name)) in
  match k with
  | None => mret (Fail EINVAL)
  | Some k =>
      let* (ok, kv) := gefs_btlookup t k Kvmax in
      if negb ok then mret (Fail ENOENT) else
      match kv with
      | None => merror Euninit
      | Some kv => let* d := mlift (gefs_kv2dir kv) in mret (Done d)
      end
  end.

(** [*d] after a call: the last entry that was found. *)
Definition walk_to (d : Xdir) (r : ret Xdir) : option Errno * Xdir :=
  match r with Done d' => (None, d') | Fail e => (Some e, d) end.

Fixpoint walk_elems (t : GefsTree) (cur_qid : Z) (l : list (list Z)) (d : Xdir)
  : M GefsCtx (option Errno * Xdir) :=
  match l with
  | [] => mret (None, d)
  | elem :: l' =>
      if decide (elem = [46]) then walk_elems t cur_qid l' d else
      let* r := gefs_walk1 t cur_qid elem in
      match walk_to d r with
      | (Some e, d) => mret (Some e, d)
      | (None, d) => walk_elems t (s64 (q_path (d_qid d))) l' d
      end
  end.

(** [gefs_walk_path(ctx, t, path, &d)]: the error and [d], which was [d]
    before. *)
Definition gefs_walk_path (t : GefsTree) (path : list Z) (d : Xdir)
  : M GefsCtx (option Errno * Xdir) :=
  let* r := gefs_walk1 t (-1) [] in
  match walk_to d r with
  | (Some e, d) => mret (Some e, d)
  | (None, d) =>
      if decide (path = [slash]) then mret (None, d) else
      walk_elems t (s64 (q_path (d_qid d))) (tokens (take 1023 path) []) d
  end.

(** ** Directories *)

(** The key prefix of the entries of a directory. *)
Definition ent_prefix (qid : Z) : list Z := PACK8 Kent ++ PACK64 qid.

(** The entries that have a name are given to the callback, until it
    answers [true]; [A] is the state behind its argument. *)
Fixpoint list_loop {A} (fuel : nat) (s : GefsScan) (callback : Xdir -> A -> bool * A) (a : A)
  : M GefsCtx (GefsScan * A) :=
  match fuel with
  | O => merror Efuel
  | S fuel' =>
      let* (more, s) := gefs_btnext fuel' s in
      if negb more then mret (s, a) else
      let* d := mlift (gefs_kv2dir (gs_kv s)) in
      if decide (d_name d = []) then list_loop fuel' s callback a else
      let (stop, a) := callback d a in
      if (stop : bool) then mret (s, a) else list_loop fuel' s callback a
  end.

Definition gefs_list_dir {A} (fuel : nat) (t : GefsTree) (qid_path : Z)
    (callback : Xdir -> A -> bool * A) (a : A) : M GefsCtx A :=
  let s := gefs_btnewscan (ent_prefix qid_path) in
  let* s := gefs_btenter t s in
  let* (s, a) := list_loop fuel s callback a in
  do* gefs_btexit s in
  mret a.

(** ** Contents *)

Definition dat_key (qid off : Z) : list Z := [Kdat] ++ PACK64 qid ++ PACK64 off.

(** The bytes of one block: those behind [b->data], which is inside of the
    block when the contents begin like the header of a leaf or a pivot. *)
Definition read_part (t : GefsTree) (d : Xdir) (blk_off in_off n : Z) : M GefsCtx (list Z) :=
  let hole := replicate (Z.to_nat n) 0 in
  let* (ok, kv) := gefs_btlookup t (dat_key (q_path (d_qid d)) blk_off) Kvmax in
  if negb ok then mret hole else
  match kv with
  | None => merror Euninit
  | Some kv =>
      let* bp := mlift (gefs_unpackbp (kv_v kv)) in
      let* b := gefs_getblk bp in
      match b with
      | None => mret hole
      | Some i =>
          let* b := gread i in
          let* q := mlift (rd (b_buf b) (gdata_off b + in_off) n) in
          do* gefs_dropblk i in
          mret q
      end
  end.

Fixpoint read_loop (fuel : nat) (t : GefsTree) (d : Xdir) (size offset : Z) (acc : list Z)
  : M GefsCtx (list Z) :=
  if size <=? 0 then mret acc else
  match fuel with
  | O => merror Efuel
  | S fuel' =>
      let blk_off := u64 offset / Blksz * Blksz in
      let in_off := u64 offset mod Blksz in
      let to_read := Z.min (Blksz - in_off) size in
      let* q := read_part t d blk_off in_off to_read in
      read_loop fuel' t d (size - to_read) (s64 (offset + to_read)) (acc ++ q)
  end.

(** The bytes that were read; the offset is signed and compared with the
    length as a signed number, the end as an unsigned one. *)
Definition gefs_read_file (t : GefsTree) (d : Xdir) (size offset : Z) : M GefsCtx (list Z) :=
  if s64 (d_length d) <=? offset then mret [] else
  let size := if d_length d <? u64 (offset + size) then u64 (d_length d - offset) else size in
  read_loop (Z.to_nat (size / Blksz) + 2) t d size offset [].

Section Fs.
(** [time(NULL)], [getuid()] and [getgid()]. *)
Context (time uid gid : Z).

Definition nanos : Z := s64 (time * 1000000000).

(** An insertion of the entry [name]; a name that does not fit gives a key
    that starts at [kbuf] and ends at a null pointer. *)
Definition ent_msg (pqid : Z) (name : list Z) (d : Xdir) : res Msg :=
  let! k := gefs_packdkey Keymax pqid (Some name) in
  match k with
  | None => Err Eoob
  | Some k => let! v := gefs_packdval Inlmax d in Ok (mkMsg Oinsert k v)
  end.

Definition del_msg (pqid : Z) (name : list Z) : res Msg :=
  let! k := gefs_packdkey Keymax pqid (Some name) in
  match k with
  | None => Err Eoob
  | Some k => Ok (mkMsg Odelete k [])
  end.

(** The key of the way back to the parent. *)
Definition up_key (qid : Z) : list Z := [Kup] ++ PACK64 qid.

Definition up_msg (qid pqid : Z) (name : list Z) : res Msg :=
  let! v := gefs_packdkey Inlmax pqid (Some name) in
  match v with
  | None => Err Eoob
  | Some v => Ok (mkMsg Oinsert (up_key qid) v)
  end.

Definition sb_set_nextqid (q : Z) (sb : GefsSuper) : GefsSuper :=
  mkGefsSuper (ps_blksz sb) (ps_bufspc sb) (ps_narena sb) (ps_snap sb) (ps_flag sb)
    q (ps_nextgen sb) (ps_qgen sb) (ps_arenabp sb).

(** [ctx->sb.nextqid++] *)
Definition next_qid : M GefsCtx Z :=
  let* x := mget in
  let q := ps_nextqid (gx_sb x) in
  do* mput (set_sb (sb_set_nextqid (u64 (q + 1)) (gx_sb x)) x) in
  mret q.

Definition zero_dir : Xdir := mkXdir 0 (mkQid 0 0 0) 0 0 0 0 0 0 0 [].

(** A fresh entry. *)
Definition new_dir (qid type mode : Z) (name : list Z) : Xdir :=
  mkXdir 0 (mkQid qid 0 type) (u32 mode) nanos nanos 0 (s32 uid) (s32 gid) (s32 uid) name.

(** Walk a path in the active tree. *)
Definition walk_active (path : list Z) (d : Xdir) : M GefsCtx (option Errno * Xdir) :=
  let* x := mget in gefs_walk_path (gx_active x) path d.
Definition walk1_active (pqid : Z) (name : list Z) : M GefsCtx (ret Xdir) :=
  let* x := mget in gefs_walk1 (gx_active x) pqid name.

(** The start of every creation: the parent and the name. *)
Definition open_parent (path : list Z) (k : Xdir -> list Z -> M GefsCtx (ret Xdir))
  : M GefsCtx (ret Xdir) :=
  match split_path path with
  | None => mret (Fail EINVAL)
  | Some (parent_path, name) =>
      let* (e, pdir) := walk_active parent_path zero_dir in
      match e with Some e => mret (Fail e) | None => k pdir name end
  end.

Definition exists_in (pdir : Xdir) (name : list Z) : M GefsCtx bool :=
  let* r := walk1_active (s64 (q_path (d_qid pdir))) name in
  mret match r with Done _ => true | Fail _ => false end.

Definition qid_of (d : Xdir) : Z := q_path (d_qid d).

Definition gefs_create_file (path : list Z) (mode : Z) : M GefsCtx (ret Xdir) :=
  open_parent path (fun pdir name =>
    let* e := exists_in pdir name in
    if e then mret (Fail EEXIST) else
    let* q := next_qid in
    let ndir := new_dir q GEFS_QTFILE (Z.land mode 0x1ff) name in
    let* m := mlift (ent_msg (qid_of pdir) name ndir) in
    let* r := gefs_btupsert TActive [m] in
    mret match r with Fail e => Fail e | Done _ => Done ndir end).

Definition gefs_create_dir (path : list Z) (mode : Z) : M GefsCtx (ret Xdir) :=
  open_parent path (fun pdir name =>
    let* e := exists_in pdir name in
    if e then mret (Fail EEXIST) else
    let* q := next_qid in
    let ndir := new_dir q GEFS_QTDIR (Z.lor GEFS_DMDIR (Z.land mode 0x1ff)) name in
    let* m0 := mlift (ent_msg (qid_of pdir) name ndir) in
    let* m1 := mlift (up_msg q (qid_of pdir) name) in
    let* r := gefs_btupsert TActive [m0; m1] in
    mret match r with Fail e => Fail e | Done _ => Done ndir end).

(** ** Writing *)

(** One block: the old contents, the new bytes over them, written to a new
    place; [None] when there is no space. *)
Definition write_block (qid blk_off in_off : Z) (data : list Z) : M GefsCtx (option Blk) :=
  let* x := mget in
  let* (ok, kv) := gefs_btlookup (gx_active x) (dat_key qid blk_off) Kvmax in
  let* buf :=
    if negb ok then mret zbuf else
    match kv with
    | None => merror Euninit
    | Some kv =>
        let* old_bp := mlift (gefs_unpackbp (kv_v kv)) in
        let* old_b := gefs_getblk old_bp in
        match old_b with
        | None => mret zbuf
        | Some i => let* b := gread i in do* gefs_dropblk i in mret (b_buf b)
        end
    end in
  let* baddr := gefs_alloc_blk in
  match baddr with
  | None => mret None
  | Some addr =>
      let* x := mget in
      let* buf := mlift (wr buf in_off data) in
      let b := mkBlk Tdat 0 0 0 0 0 0 bp0 (mkBptr addr 0 (pt_gen (gx_active x))) 0 buf in
      let* b := blk_finalize_and_write 0 b in
      let* _ := on_cache (fun c => Ok (cache_ins (mkGBlk b 1) c)) in
      mret (Some b)
  end.

(** The loop over the blocks: the result of each update of the tree is not
    looked at. *)
Fixpoint write_loop (fuel : nat) (qid : Z) (data : list Z) (cur_off : Z)
  : M GefsCtx (ret Z) :=
  if zlen data <=? 0 then mret (Done cur_off) else
  match fuel with
  | O => merror Efuel
  | S fuel' =>
      let blk_off := u64 cur_off / Blksz * Blksz in
      let in_off := u64 cur_off mod Blksz in
      let to_write := Z.min (Blksz - in_off) (zlen data) in
      let* b := write_block qid blk_off in_off (take (Z.to_nat to_write) data) in
      match b with
      | None => mret (Fail ENOSPC)
      | Some b =>
          let* _ := gefs_btupsert TActive [mkMsg Oinsert (dat_key qid blk_off) (bp_bytes (b_bp b))] in
          write_loop fuel' qid (drop (Z.to_nat to_write) data) (s64 (cur_off + to_write))
      end
  end.

(** The number of bytes, which is all of them, or the error. *)
Definition gefs_write_file (path : list Z) (data : list Z) (offset : Z) : M GefsCtx (ret Z) :=
  let* (e, d) := walk_active path zero_dir in
  match e with
  | Some e => mret (Fail e)
  | None =>
      match split_path path with
      | None => mret (Fail EINVAL)
      | Some (parent_path, name) =>
          let* (e, pdir) := walk_active parent_path zero_dir in
          match e with
          | Some e => mret (Fail e)
          | None =>
              let* r := write_loop (Z.to_nat (zlen data / Blksz) + 2) (qid_of d) data offset in
              match r with
              | Fail e => mret (Fail e)
              | Done cur_off =>
                  let* (_, pdir) := walk_active parent_path pdir in
                  let* r := walk1_active (s64 (qid_of pdir)) name in
                  let d := snd (walk_to d r) in
                  let d := if s64 (d_length d) <? cur_off then set_length d (u64 cur_off) else d in
                  let d := set_vers (set_mtime d nanos) (u32 (q_vers (d_qid d) + 1)) in
                  let* m := mlift (ent_msg (qid_of pdir) name d) in
                  let* _ := gefs_btupsert TActive [m] in
                  mret (Done (zlen data))
              end
          end
      end
  end.

Definition set_qtype (d : Xdir) (ty : Z) : Xdir :=
  mkXdir (d_flag d) (mkQid (q_path (d_qid d)) (q_vers (d_qid d)) ty) (d_mode d) (d_atime d)
    (d_mtime d) (d_length d) (d_uid d) (d_gid d) (d_muid d) (d_name d).

(** An entry with the name is overwritten. *)
Definition gefs_create_symlink (target linkpath : list Z) : M GefsCtx (ret Xdir) :=
  open_parent linkpath (fun pdir name =>
    let* q := next_qid in
    let ndir := new_dir q GEFS_QTSYMLINK 0x1ff name in
    let* m := mlift (ent_msg (qid_of pdir) name ndir) in
    let* r := gefs_btupsert TActive [m] in
    match r with
    | Fail e => mret (Fail e)
    | Done _ =>
        let* written := gefs_write_file linkpath target 0 in
        match written with
        | Fail e => mret (Fail e)
        | Done _ =>
            let* (_, pdir) := walk_active (fst (default ([], []) (split_path linkpath))) pdir in
            let* r := walk1_active (s64 (qid_of pdir)) name in
            let ndir := set_qtype (snd (walk_to ndir r)) GEFS_QTSYMLINK in
            let* m := mlift (ent_msg (qid_of pdir) name ndir) in
            let* r := gefs_btupsert TActive [m] in
            mret match r with Fail e => Fail e | Done _ => Done ndir end
        end
    end).

(** ** Changes of one entry *)

(** The frame of the functions that change an entry in place: [check] is
    done on the entry, and [msgs] makes the batch. *)
Definition change_entry (path : list Z) (check : Xdir -> M GefsCtx (option Errno))
    (msgs : Xdir -> Xdir -> list Z -> res (list Msg)) : M GefsCtx (ret unit) :=
  let* (e, d) := walk_active path zero_dir in
  match e with
  | Some e => mret (Fail e)
  | None =>
      let* e := check d in
      match e with
      | Some e => mret (Fail e)
      | None =>
          match split_path path with
          | None => mret (Fail EINVAL)
          | Some (parent_path, name) =>
              let* (e, pdir) := walk_active parent_path zero_dir in
              match e with
              | Some e => mret (Fail e)
              | None =>
                  let* ms := mlift (msgs d pdir name) in
                  gefs_btupsert TActive ms
              end
          end
      end
  end.

(** The entry [f d], with the next version. *)
Definition restat (f : Xdir -> Xdir) (d pdir : Xdir) (name : list Z) : res (list Msg) :=
  let d := f d in
  let d := set_vers d (u32 (q_vers (d_qid d) + 1)) in
  let! m := ent_msg (qid_of pdir) name d in
  Ok [m].

Definition no_check (d : Xdir) : M GefsCtx (option Errno) := mret None.

(** The blocks behind the new length stay. *)
Definition gefs_truncate_file (path : list Z) (new_size : Z) : M GefsCtx (ret unit) :=
  change_entry path no_check (restat (fun d => set_mtime (set_length d (u64 new_size)) nanos)).

Definition gefs_chmod_entry (path : list Z) (mode : Z) : M GefsCtx (ret unit) :=
  change_entry path no_check
    (restat (fun d => gset_mode d (Z.lor (Z.land (d_mode d) (u32 (Z.lnot 0x1ff))) (Z.land mode 0x1ff)))).

Definition gefs_chown_entry (path : list Z) (nuid ngid : Z) : M GefsCtx (ret unit) :=
  change_entry path no_check
    (restat (fun d =>
       let d := if nuid =? u32 (-1) then d else set_uid d (s32 nuid) in
       if ngid =? u32 (-1) then d else set_gid d (s32 ngid))).

(** [tv] is the two pairs of seconds and nanoseconds, or null. *)
Definition gefs_utimens_entry (path : list Z) (tv : option ((Z * Z) * (Z * Z))) : M GefsCtx (ret unit) :=
  change_entry path no_check
    (restat (fun d =>
       match tv with
       | Some ((s0, n0), (s1, n1)) =>
           set_mtime (set_atime d (s64 (s0 * 1000000000 + n0))) (s64 (s1 * 1000000000 + n1))
       | None => set_mtime (set_atime d nanos) nanos
       end)).

Definition gefs_unlink_entry (path : list Z) : M GefsCtx (ret unit) :=
  change_entry path
    (fun d => mret (if negb (Z.land (q_type (d_qid d)) GEFS_QTDIR =? 0) then Some EISDIR else None))
    (fun d pdir name => let! m := del_msg (qid_of pdir) name in Ok [m]).

(** The directory has no entry with a name. *)
Definition rmdir_check (fuel : nat) (d : Xdir) : M GefsCtx (option Errno) :=
  if (Z.land (q_type (d_qid d)) GEFS_QTDIR =? 0) && (Z.land (d_mode d) GEFS_DMDIR =? 0)
  then mret (Some ENOTDIR) else
  let* x := mget in
  let* has_entries := gefs_list_dir fuel (gx_active x) (qid_of d) (fun _ _ => (true, true)) false in
  mret (if has_entries then Some ENOTEMPTY else None).

Definition gefs_rmdir_entry (fuel : nat) (path : list Z) : M GefsCtx (ret unit) :=
  change_entry path (rmdir_check fuel)
    (fun d pdir name =>
       let! m := del_msg (qid_of pdir) name in
       Ok [m; mkMsg Odelete (up_key (qid_of d)) []]).

(** The entry moves; the way back of a directory to its parent stays. *)
Definition gefs_rename_entry (oldpath newpath : list Z) : M GefsCtx (ret unit) :=
  let* (e, d) := walk_active oldpath zero_dir in
  match e with
  | Some e => mret (Fail e)
  | None =>
      match split_path oldpath, split_path newpath with
      | Some (old_ppath, old_name), Some (new_ppath, new_name) =>
          let* (e, old_pdir) := walk_active old_ppath zero_dir in
          match e with
          | Some e => mret (Fail e)
          | None =>
              let* (e, new_pdir) := walk_active new_ppath zero_dir in
              match e with
              | Some e => mret (Fail e)
              | None =>
                  let* m0 := mlift (del_msg (qid_of old_pdir) old_name) in
                  let d := set_vers d (u32 (q_vers (d_qid d) + 1)) in
                  let* m1 := mlift (ent_msg (qid_of new_pdir) new_name d) in
                  gefs_btupsert TActive [m0; m1]
              end
          end
      | _, _ => mret (Fail EINVAL)
      end
  end.
End Fs.
