(* ===== verification/PortReam.v ===== *)
(** * Formatting with the port (src/gefs_ream.c)

    [setval], [finalize_blk], [dir2kv], [packtree] and [packsb] of this file
    repeat functions of src/gefs_storage.c line by line, and are those of
    PortWrite.v and Port.v; the rest of the formatter is translated here.  The
    messages to the terminal are left out, and a failing write is not looked
    at. *)
From S2P Require Import Prelude CInt Mem Data Keys Pack Super Blk Mst Port PortCache PortTree PortWrite PortOpen.

Definition Qmainroot : Z := 0.
Definition Qadmroot : Z := 1.
Definition Qadmuser : Z := 2.
Definition Nreamqid : Z := 3.

Definition LOG_SYNC : Z := 4.

Definition fillxdir (qid : Z) (name : list Z) (type mode : Z) (length : Z) : Xdir :=
  mkXdir 0 (mkQid qid 0 type) mode 0 0 length (-1) (-1) 0 name.

(** A key that does not fit is a null pointer that nobody looks at. *)
Definition packed {A} (o : option A) : res A :=
  match o with Some a => Ok a | None => Err Eoob end.

Definition rdir2kv (upqid : Z) (d : Xdir) : res Kvp :=
  let! k := gefs_packdkey Keymax upqid (Some (d_name d)) in
  let! k := packed k in
  let! v := gefs_packdval Inlmax d in
  Ok (mkKvp k v).

(** The entry that leads from a root to its parent. *)
Definition rootup (qid : Z) : res Kvp :=
  let! v := gefs_packdkey Inlmax (-1) (Some []) in
  let! v := packed v in
  Ok (mkKvp ([Kup] ++ PACK64 qid) v).

Fixpoint setvals (b : Blk) (l : list Kvp) : res Blk :=
  match l with
  | [] => Ok b
  | kv :: l' => let! b := blk_setval b kv in setvals b l'
  end.

Definition initroot (r : Blk) : res Blk :=
  let! e1 := rdir2kv (-1) (fillxdir Qmainroot [] GEFS_QTDIR (Z.lor GEFS_DMDIR 0x1fd) 0) in
  let! e2 := rootup Qmainroot in
  setvals r [e1; e2].

(** "users" *)
Definition name_users : list Z := [117; 115; 101; 114; 115].

Definition initadm (r u : Blk) (nu : Z) : res Blk :=
  let e1 := mkKvp ([Kdat] ++ PACK64 Qadmuser ++ PACK64 0) (bp_bytes (b_bp u)) in
  let! e2 := rdir2kv Qadmroot (fillxdir Qadmuser name_users GEFS_QTFILE 0x1b4 nu) in
  let! e3 := rdir2kv (-1) (fillxdir Qadmroot [] GEFS_QTDIR (Z.lor GEFS_DMDIR 0x1fd) 0) in
  let! e4 := rootup Qadmroot in
  setvals r [e1; e2; e3; e4].

Definition rlbl2kv (name : list Z) (id flags : Z) : res Kvp :=
  let! k := packed (gefs_packlbl Keymax name) in
  Ok (mkKvp k ([Ksnap] ++ PACK64 id ++ PACK32 flags)).

(** The descriptor of snapshot [id], which gets the generation [gen]. *)
Definition snap2kv (id gen nref succ : Z) (bp : Bptr) : res Kvp :=
  let! k := packed (gefs_packsnap Keymax id) in
  Ok (mkKvp k (gtree_bytes (mkGefsTree nref 1 1 0 bp gen 0 succ 0))).

(** [nextgen] is used up three times. *)
Definition snap_entries (r a : Bptr) (nextgen : Z) : res (list Kvp) :=
  let! l1 := rlbl2kv lbl_adm 1 (Z.lor Lmut Ltsnap) in
  let! l2 := rlbl2kv lbl_empty 0 0 in
  let! l3 := rlbl2kv lbl_main 2 (Z.lor Lmut Ltsnap) in
  let! s0 := snap2kv 0 nextgen 2 2 r in
  let! s1 := snap2kv 1 (nextgen + 1) 0 (-1) a in
  let! s2 := snap2kv 2 (nextgen + 2) 0 (-1) r in
  Ok [l1; l2; l3; s0; s1; s2].

Definition initsnap (s : Blk) (r a : Bptr) (nextgen : Z) : res Blk :=
  let! l := snap_entries r a nextgen in setvals s l.

(** [write_blk] *)
Definition write_blk (doff : Z) (b : Blk) (d : Img) : res (Blk * Img) :=
  let! b := blk_finalize doff b in
  Ok (b, pwrite d (bp_addr (b_bp b)) (b_buf b)).

(** ** Arenas *)

(** The first log block of an arena. *)
Definition ream_log (logaddr asz : Z) : res Blk :=
  let body := PACK64 (Z.lor logaddr LOG_FREE) ++ PACK64 (asz - 2 * Blksz) ++
              PACK64 (Z.lor logaddr LOG_ALLOC) ++ PACK64 Blksz ++ PACK64 LOG_SYNC in
  let! buf := wr zbuf Loghdsz body in
  Ok (mkBlk GEFS_TLOG 0 0 0 0 (zlen body) 0 bp0 (mkBptr logaddr 0 (-1)) 0 buf).

Definition ream_arena (hdaddr asz : Z) (d : Img) : res (Bptr * Img) :=
  let! lb := ream_log (hdaddr + 2 * Blksz) asz in
  let! (lb, d) := write_blk Loghdsz lb d in
  let! h0 := arena_blk (mkGefsArena hdaddr asz Blksz (b_bp lb) []) in
  let! (h0, d) := write_blk 2 h0 d in
  let! h1 := arena_blk (mkGefsArena (hdaddr + Blksz) asz Blksz (b_bp lb) []) in
  let! (h1, d) := write_blk 2 h1 d in
  Ok (b_bp h0, d).

Fixpoint ream_arenas (n : nat) (off asz : Z) (d : Img) : res (list Bptr * Img) :=
  match n with
  | O => Ok ([], d)
  | S n' =>
      let! (bp, d) := ream_arena off asz d in
      let! (l, d) := ream_arenas n' (off + (asz + 2 * Blksz)) asz d in
      Ok (bp :: l, d)
  end.

(** ** The whole image *)

(** "-1:adm::", "\n0:none::\n1:", ":", ":\n" around the user's name, cut at
    255 bytes. *)
Definition users_tab (username : list Z) : list Z :=
  take 255 ([45; 49; 58; 97; 100; 109; 58; 58] ++ username ++
    [10; 48; 58; 110; 111; 110; 101; 58; 58; 10; 49; 58] ++ username ++ [58] ++ username ++ [58; 10]).

Definition MiB : Z := 1024 * 1024.
Definition TiB4 : Z := 4096 * 1024 * 1024 * 1024.

(** The usable size, the number of arenas and their size. *)
Definition ream_usable (size : Z) : Z := size - size mod Blksz - 2 * Blksz.
Definition ream_narena (sz : Z) : Z :=
  let n := s32 (u64 (sz + TiB4 - 1) / TiB4) in
  let n := if n <? 8 then 8 else n in
  if 32 <? n then 32 else n.
Definition ream_asz (sz narena : Z) : Z :=
  let asz := Z.quot sz narena in asz - Z.rem asz Blksz - 2 * Blksz.

(** A zeroed superblock block with the packed superblock. *)
Definition super_blk (addr : Z) (sb : GefsSuper) : res Blk :=
  let! buf := pack_sb_block Blksz sb in
  let! buf := packed buf in
  Ok (mkBlk Tsuper 0 0 0 0 0 0 bp0 (mkBptr addr 0 0) 0 buf).

(** [main]: [None] when the image is too small. *)
Definition gefs_ream (img : Img) (username : list Z) : res (option Img) :=
  let size := im_size img in
  if size <? 128 * MiB + Blksz then Ok None else
  let sz := ream_usable size in
  let narena := ream_narena sz in
  let asz := ream_asz sz narena in
  let! (arenabp, d) := ream_arenas (Z.to_nat narena) Blksz asz img in
  let! mb := initroot (new_leaf (4 * Blksz) 0) in
  let! (mb, d) := write_blk Leafhdsz mb d in
  let utab := users_tab username in
  let! ubuf := wr zbuf 0 utab in
  let! (ub, d) := write_blk 0 (mkBlk Tdat 0 0 0 0 0 0 bp0 (mkBptr (6 * Blksz) 0 0) 0 ubuf) d in
  let! ab := initadm (new_leaf (5 * Blksz) 0) ub (zlen utab) in
  let! (ab, d) := write_blk Leafhdsz ab d in
  let nextgen := 1 in
  let! tb := initsnap (new_leaf (7 * Blksz) 0) (b_bp mb) (b_bp ab) nextgen in
  let! (tb, d) := write_blk Leafhdsz tb d in
  let sb := mkGefsSuper Blksz Bufspc narena (gt_set_root gtree0 (b_bp tb) 1) 0 Nreamqid
              (nextgen + 3) 0 arenabp in
  let! sb0 := super_blk 0 sb in
  let! (_, d) := write_blk 0 sb0 d in
  let! sb1 := super_blk (sz + Blksz) sb in
  let! (_, d) := write_blk 0 sb1 d in
  Ok (Some d).
