(* ===== verification/PortOk.v ===== *)
(** * The port on whole trees

    What look-ups find after an update, and where the port does not do what
    the file system does. *)
From S2P Require Import Prelude CInt Mem Data Keys Hash Pack Super Blk Search Apply Leaf Lookup Mst Port PortCache PortTree PortTreeOk PortWrite PortWriteOk PortOpen PortFs.

(** ** Trees of one leaf *)

(** The tree [w] of the context is one leaf with the entries [vs]. *)
Definition is_leaf_tree (D : gset Z) (w : tsel) (x : GefsCtx) (vs : list Kvp) : Prop :=
  pt_ht (get_tree w x) = 1 /\ StronglySorted kvlt vs /\
  exists b, tstored x D (pt_bp (get_tree w x)) b /\ vals_repr b vs.

Lemma agree_det vo ok r : agree vo ok r ->
  match vo with Some v => ok = true /\ r = Some v | None => ok = false end.
Proof. done. Qed.

(** Looking up a key of a leaf. *)
Lemma leaf_lookup D w x vs k nbuf :
  ctx_ok D x -> is_leaf_tree D w x vs -> (forall v, kget vs k = Some v -> kvlen v <= nbuf) ->
  exists ok r c', gefs_btlookup (get_tree w x) k nbuf x = (Ok (ok, r), set_cache c' x) /\
    cache_ok (gx_img x) D c' /\ agree (kget vs k) ok r.
Proof.
  intros Hc (Hh & Hs & b & Ht & Hv) Hsz.
  destruct (blksearch_repr b vs k Hv (kvlt_ksorted _ Hs)) as (ri & same & Hf & _).
  pose proof (gp_leaf x D k _ b vs ri same Ht Hv (kvlt_ksorted _ Hs) Hf) as Hg.
  rewrite (found_kget vs k ri same Hs Hf) in Hg.
  destruct (gefs_btlookup_aux x D (gx_cache x) (get_tree w x) k 1 [] (kget vs k) nbuf)
    as (ok & r & c' & E & Hc' & Ha); try done; try by constructor.
  rewrite set_cache_id in E. by exists ok, r, c'.
Qed.

(** ** Theorems *)

(** A look-up of the port follows the path of the key through the
    image, whatever is cached, and finds the value of the leaf changed by the
    buffered messages, which are insertions, deletions and clears; where
    [btlookup] of src/tree.c has an answer on the same blocks, the port has
    the same.  The cache agrees with the image afterwards. *)
Theorem gefs_btlookup_correct D x t k n mss vo nbuf :
  ctx_ok D x -> pt_ht t = Z.of_nat n -> gpath x D k n (pt_bp t) mss vo ->
  Forall plain (path_msgs k mss) -> Forall (msg_fits nbuf) (path_msgs k mss) ->
  (forall v, vo = Some v -> kvlen v <= nbuf) ->
  exists ok r c', gefs_btlookup t k nbuf x = (Ok (ok, r), set_cache c' x) /\
    ctx_ok D (set_cache c' x) /\ agree (gvals vo (path_msgs k mss)) ok r /\
    forall vo', kvals vo (path_msgs k mss) nbuf = Ok vo' -> agree vo' ok r.
Proof.
  intros Hc Hh Hg Hp Hf Hs.
  destruct (gefs_btlookup_aux x D (gx_cache x) t k n mss vo nbuf Hc Hh Hg Hp Hf Hs)
    as (ok & r & c' & E & Hc' & Ha).
  rewrite set_cache_id in E. exists ok, r, c'. do 3 (split; [done|]).
  intros vo' Hk. by rewrite (kvals_plain _ _ _ _ Hp Hk).
Qed.

(** The result of an update, as a leaf tree. *)
Lemma upsert_leaf_tree w D x vs' addr l x' :
  upsert_post w D x vs' addr l x' -> StronglySorted kvlt vs' -> is_leaf_tree D w x' vs'.
Proof.
  intros H Hs. split; [by rewrite (uq_tree _ _ _ _ _ _ _ H)|]. split; [done|].
  exact (uq_leaf _ _ _ _ _ _ _ H).
Qed.

(** An update of a tree of one leaf succeeds when the merge fits a leaf
    and a block is free, and afterwards every key has the value that the
    batch gives it, or its old value when the batch says nothing about it;
    the other blocks of the image stay as they are. *)
Theorem gefs_btupsert_merges w D x rb vs addr l ms nbuf :
  upsert_pre w D x rb vs addr l -> StronglySorted kvlt vs -> ms <> [] ->
  Forall plain ms -> distinct_keys ms -> leaf_room (gmerge vs (gsort ms)) <= Leafspc ->
  Forall (fun v => kvlen v <= nbuf) vs -> Forall (msg_fits nbuf) ms ->
  exists x', gefs_btupsert w ms x = (Ok (Done tt), x') /\ ctx_ok D x' /\
    (forall a buf, apart addr a -> pread (gx_img x) a = Some buf -> pread (gx_img x') a = Some buf) /\
    forall k, exists ok r x2, gefs_btlookup (get_tree w x') k nbuf x' = (Ok (ok, r), x2) /\
      agree (match mfind ms k with Some m => gval_step (kget vs k) m | None => kget vs k end) ok r.
Proof.
  intros Hpre Hs Hne Hpl Hd Hroom Hvs Hms.
  destruct (gefs_btupsert_ok w D x rb vs addr l ms Hpre Hne Hpl Hroom) as (x' & E & Hpost).
  exists x'. split; [done|]. split; [apply Hpost|]. split; [apply Hpost|]. intros k.
  pose proof (gsort_strict ms Hd) as Hss.
  pose proof (upsert_leaf_tree _ _ _ _ _ _ _ Hpost (gmerge_sorted _ _ Hs Hss)) as Ht.
  assert (Hget : kget (gmerge vs (gsort ms)) k =
    match mfind ms k with Some m => gval_step (kget vs k) m | None => kget vs k end).
  { rewrite (gmerge_get k (gsort ms) vs Hs Hss). by rewrite gsort_mfind. }
  destruct (leaf_lookup D w x' _ k nbuf (uq_cache _ _ _ _ _ _ _ Hpost) Ht) as (ok & r & c' & El & _ & Ha).
  - rewrite Hget. intros v Hv. destruct (mfind ms k) as [m|] eqn:Em.
    + unfold gval_step in Hv. destruct (m_op m =? Oinsert); [|done]. injection Hv as <-.
      assert (Hm : m ∈ ms).
      { clear -Em. induction ms as [|a ms IH]; [done|]. cbn [mfind] in Em.
        case_decide; [injection Em as <-; by left|right; auto]. }
      rewrite Forall_forall in Hms. by apply Hms.
    + assert (Hv' : v ∈ vs).
      { clear -Hv. induction vs as [|a vs IH]; [done|]. cbn [kget] in Hv.
        case_decide; [injection Hv as <-; by left|right; auto]. }
      rewrite Forall_forall in Hvs. by apply Hvs.
  - exists ok, r, (set_cache c' x'). split; [done|]. by rewrite <- Hget.
Qed.

(** C39: an update of a tree that is higher than one leaf keeps the entries
    of the root block only: a key that a look-up finds, in a leaf below the
    root and with no message for it on the way, that is not one of the
    separators of the root and that the batch does not mention, is gone
    afterwards, and the update reports success.  The batch consists of
    insertions, deletions and clears of distinct keys, what remains fits a
    leaf, and the allocator has a block that is not in use. *)
Theorem gefs_btupsert_flattens D x rb vs addr l ms k n mss v nbuf :
  upsert_pre TActive D x rb vs addr l -> StronglySorted kvlt vs -> ms <> [] ->
  Forall plain ms -> distinct_keys ms -> leaf_room (gmerge vs (gsort ms)) <= Leafspc ->
  pt_ht (gx_active x) = Z.of_nat n -> gpath x D k n (pt_bp (gx_active x)) mss (Some v) ->
  path_msgs k mss = [] -> kvlen v <= nbuf -> kget vs k = None -> mfind ms k = None ->
  exists c1 x' r x2,
    gefs_btlookup (gx_active x) k nbuf x = (Ok (true, Some v), set_cache c1 x) /\
    gefs_btupsert TActive ms x = (Ok (Done tt), x') /\
    gefs_btlookup (gx_active x') k nbuf x' = (Ok (false, r), x2).
Proof.
  intros Hpre Hs Hne Hpl Hd Hroom Hh Hg Hmss Hsz Hk Hm.
  destruct (gefs_btlookup_correct D x (gx_active x) k n mss (Some v) nbuf (up_cache _ _ _ _ _ _ _ Hpre) Hh Hg)
    as (ok & r & c1 & E1 & _ & Ha & _); [by rewrite Hmss|by rewrite Hmss|by intros ? [= <-]|].
  rewrite Hmss in Ha. destruct Ha as [-> ->].
  destruct (gefs_btupsert_ok TActive D x rb vs addr l ms Hpre Hne Hpl Hroom) as (x' & E2 & Hpost).
  pose proof (gsort_strict ms Hd) as Hss.
  pose proof (upsert_leaf_tree _ _ _ _ _ _ _ Hpost (gmerge_sorted _ _ Hs Hss)) as Ht.
  assert (Hget : kget (gmerge vs (gsort ms)) k = None).
  { by rewrite (gmerge_get k (gsort ms) vs Hs Hss), gsort_mfind, Hm. }
  destruct (leaf_lookup D TActive x' _ k nbuf (uq_cache _ _ _ _ _ _ _ Hpost) Ht) as (ok & r & c' & El & _ & Ha').
  { by rewrite Hget. }
  rewrite Hget in Ha'. cbn in Ha'. subst ok. by exists c1, x', r, (set_cache c' x').
Qed.

(** ** Witnesses

    An image with a tree of height two: a root with one entry above a leaf
    with one entry, and a free block for the update. *)

(** Blocks with given contents, as they are read from the image. *)
Lemma leaf_on_image bp vs :
  leaf_room vs <= Leafspc -> exists b, load_hdr bp (b_buf b) = Ok b /\ vals_repr b vs.
Proof.
  intros Hr. destruct (leaf_exists vs Hr) as (b & [_ Hl Hn Hs Hg] & Ht).
  unfold data_off in Hg. rewrite Ht in Hg.
  destruct (blk_finalize_leaf (mkBlk Tleaf (b_nval b) (b_valsz b) 0 0 0 0 bp0 bp 0 (b_buf b)) vs)
    as (b' & _ & Hv & _ & Eh & _); [split; try done; by left|done|].
  destruct (load_hdr bp (b_buf b')) as [b2|e] eqn:E2.
  - pose proof (load_hdr_same _ _ _ _ _ Eh E2) as Hd. exists b2.
    split; [|by eapply vals_repr_data]. destruct Hd as (_ & _ & _ & _ & _ & <-). done.
  - exfalso. unfold load_hdr in Eh, E2.
    bind_inv Eh as ty E. rewrite E in E2. cbn [rbind] in E2. destruct (_ || _); [|done].
    bind_inv Eh as n1 E1. rewrite E1 in E2. cbn [rbind] in E2.
    bind_inv Eh as n2 E3. rewrite E3 in E2. cbn [rbind] in E2.
    destruct (_ =? Tpivot); [|done].
    bind_inv Eh as n4 E4. rewrite E4 in E2. cbn [rbind] in E2.
    bind_inv Eh as n5 E5. rewrite E5 in E2. done.
Qed.

Lemma pivot_on_image bp vs :
  2 * zlen vs + total (kv_bytes <$> vs) <= Pivspc ->
  exists b, load_hdr bp (b_buf b) = Ok b /\ vals_repr b vs /\ msgs_repr b [].
Proof.
  intros Hr. destruct (pivot_exists vs []) as (b & [_ Hl Hn Hs Hg] & _ & Ht); [done|done|done|].
  set (h := PACK16 Tpivot ++ PACK16 (b_nval b) ++ PACK16 (b_valsz b) ++ PACK16 0 ++ PACK16 0).
  destruct (wr_ok (b_buf b) 0 h) as (buf & E & Lb); [done|rewrite Hl; vm_compute; discriminate|].
  pose proof (wr_at _ _ _ _ E) as Ha. unfold h in Ha. rewrite !at_app, !zlen_PACK16 in Ha.
  destruct Ha as (A0 & A2 & A4 & A6 & A8).
  pose proof (rg_room _ _ _ _ Hg) as Hroom. pose proof (val_spc_bound (b_type b)) as Hbd.
  pose proof (total_nonneg (kv_bytes <$> vs)). pose proof (zlen_nonneg vs). rewrite zlen_fmap in Hroom.
  exists (mkBlk Tpivot (b_nval b) (b_valsz b) 0 0 0 0 bp0 bp 0 buf). cbn [b_buf]. split; [|split].
  - unfold load_hdr. rewrite (rd16_at _ _ _ A0). cbn [rbind]. rewrite s16_u16.
    change (s16 Tpivot) with Tpivot. change ((Tpivot =? Tleaf) || (Tpivot =? Tpivot)) with true.
    change (Tpivot =? Tpivot) with true. cbv iota zeta.
    rewrite (rd16_at _ _ _ A2 : rd16 buf 2 = _), (rd16_at _ _ _ A4 : rd16 buf 4 = _),
      (rd16_at _ _ _ A6 : rd16 buf 6 = _), (rd16_at _ _ _ A8 : rd16 buf 8 = _). cbn [rbind].
    rewrite !s16_u16, (s16_small (b_nval b)), (s16_small (b_valsz b)) by lia. done.
  - split; cbn [b_type b_nval b_valsz b_buf]; [by right|by rewrite Lb|done|done|].
    unfold data_off in *. cbn [b_type]. rewrite Ht in Hg.
    apply (region_frame _ _ _ _ _ Hg); [done|]. intros o bs Ho1 Ho2 Hat.
    eapply wr_frame; [exact E|done|]. right. change (0 + zlen h) with 10.
    change (hdsz Tpivot) with 10 in Ho1. lia.
  - split; cbn [b_type b_buf b_nbuf b_bufsz]; [done|by rewrite Lb|done|done|done|].
    apply region_nil; [vm_compute; discriminate|done|]. rewrite Lb, Hl. vm_compute. discriminate.
Qed.

Definition img_ex (leaf root : Blk) : Img :=
  pwrite (pwrite (mkImg 0 (fun _ => 0)) 65536 (b_buf leaf)) 81920 (b_buf root).

(** The leaf and the root are at their addresses, the block at 131072 is
    free and nothing is cached. *)
Definition ctx_ex (ht : Z) (bp : Bptr) (leaf root : Blk) : GefsCtx :=
  mkGefsCtx (img_ex leaf root) (mkGefsSuper 0 0 1 gtree0 0 0 0 0 []) (gefs_cache_init 8)
    gtree0 (gt_set_root gtree0 bp ht) [mkGefsArena 0 0 0 bp0 [(131072, 65536)]] false false.

Definition port_leaf : list Kvp := [mkKvp [2; 5] [7]].
Definition port_msgs : list Msg := [mkMsg Oinsert [2; 9] [1]].

Lemma ctx_ex_ok ht bp leaf root : ctx_ok ∅ (ctx_ex ht bp leaf root).
Proof.
  split; cbn [ctx_ex gx_cache gefs_cache_init gc_heap gc_lru gc_new gc_tab gc_count].
  - done.
  - by intros i [? ?].
  - done.
  - split; [constructor|]. intros i. split; [by intros ?%elem_of_nil|by intros [? ?]].
  - intros h. change (gbucket _ h) with (@nil nat). split; [constructor|]. intros i.
    split; [by intros ?%elem_of_nil|by intros (? & ? & _)].
  - done.
Qed.

Lemma img_ex_leaf leaf root :
  zlen (b_buf leaf) = Blksz -> zlen (b_buf root) = Blksz ->
  pread (img_ex leaf root) 65536 = Some (b_buf leaf) /\
  pread (img_ex leaf root) 81920 = Some (b_buf root).
Proof.
  intros Hl Hr. split.
  - apply pread_pwrite_apart; [done|right; vm_compute; discriminate|by apply pread_pwrite_same].
  - by apply pread_pwrite_same.
Qed.

Lemma ctx_ex_stored ht leaf root :
  load_hdr leaf_bp (b_buf leaf) = Ok leaf -> load_hdr root_bp (b_buf root) = Ok root ->
  zlen (b_buf leaf) = Blksz -> zlen (b_buf root) = Blksz -> forall bp,
  tstored (ctx_ex ht bp leaf root) ∅ leaf_bp leaf /\ tstored (ctx_ex ht bp leaf root) ∅ root_bp root.
Proof.
  intros L1 L2 Hl Hr bp. destruct (img_ex_leaf leaf root Hl Hr) as [P1 P2].
  split; (split; [done|split; [done|apply not_elem_of_empty]]).
Qed.

Lemma ctx_ex_pre ht bp leaf root rb vs :
  tstored (ctx_ex ht bp leaf root) ∅ bp rb -> vals_repr rb vs -> bp_addr bp < 98304 ->
  upsert_pre TActive ∅ (ctx_ex ht bp leaf root) rb vs 131072
    [mkGefsArena 0 0 Blksz bp0 [(131072 + Blksz, 65536 - Blksz)]].
Proof.
  intros Ht Hv Hb. split; [apply ctx_ex_ok|done|done|done|done|split; [done|apply not_elem_of_empty]|].
  split; [right; cbn [get_tree ctx_ex gx_active gt_set_root pt_bp]; change Blksz with 16384; lia|].
  intros a (i & b & Hi & _). done.
Qed.

(** The two blocks, with the path of the key of the leaf. *)
Lemma ctx_ex_tree : exists leaf root, let x := ctx_ex 2 root_bp leaf root in
  tstored x ∅ root_bp root /\ vals_repr root root_vs /\
  tstored x ∅ leaf_bp leaf /\ vals_repr leaf port_leaf /\
  gpath x ∅ [2; 5] 2 root_bp [[]] (Some (mkKvp [2; 5] [7])).
Proof.
  destruct (leaf_on_image leaf_bp port_leaf) as (leaf & L1 & V1); [vm_compute; discriminate|].
  destruct (pivot_on_image root_bp root_vs) as (root & L2 & V2 & M2); [vm_compute; discriminate|].
  destruct (ctx_ex_stored 2 leaf root L1 L2 (vr_len _ _ V1) (vr_len _ _ V2) root_bp) as [T1 T2].
  exists leaf, root. do 4 (split; [done|]).
  apply (gp_down _ _ _ 0 root_bp root root_vs [] 0 false (mkKvp [2; 4] (bp_bytes leaf_bp)) leaf_bp); try done.
  - split; [done|done|repeat constructor|constructor].
  - exists 1%nat. split; [|split; [done|]].
    + split; [done|]. split; intros [|i] y Hy Hi; [|done|lia|done]. injection Hy as <-. by vm_compute.
    + intros [E|E]%elem_of_cons; [done|by apply elem_of_nil in E].
  - apply (gp_leaf _ _ _ leaf_bp leaf port_leaf 0 true); [done|done|repeat constructor|].
    exists 0%nat. split; [|split; [done|done]].
    split; [cbn; lia|]. split; intros [|i] y Hy Hi; [lia|lia| |done].
    injection Hy as <-. vm_compute. discriminate.
Qed.

Lemma port_msgs_ok : Forall plain port_msgs /\ distinct_keys port_msgs.
Proof. split; [repeat constructor; by left|]. repeat constructor. intros ?%elem_of_nil. done. Qed.

Lemma gefs_btlookup_correct_witness : exists x t r c',
  gefs_btlookup t [2; 5] 100 x = (Ok (true, Some r), set_cache c' x) /\ kv_v r = [7].
Proof.
  destruct ctx_ex_tree as (leaf & root & T2 & V2 & T1 & V1 & Hg).
  set (x := ctx_ex 2 root_bp leaf root) in *.
  destruct (gefs_btlookup_correct ∅ x (gx_active x) [2; 5] 2 [[]] (Some (mkKvp [2; 5] [7])) 100
    (ctx_ex_ok _ _ _ _) eq_refl Hg) as (ok & r & c' & E & _ & [-> ->] & _);
    [constructor|constructor|by intros v [= <-]|].
  exists x, (gx_active x), (mkKvp [2; 5] [7]), c'. split; [exact E|reflexivity].
Defined.

Lemma gefs_btupsert_flattens_witness : exists x c1 x' r x2,
  gefs_btlookup (gx_active x) [2; 5] 100 x = (Ok (true, Some (mkKvp [2; 5] [7])), set_cache c1 x) /\
  gefs_btupsert TActive port_msgs x = (Ok (Done tt), x') /\
  gefs_btlookup (gx_active x') [2; 5] 100 x' = (Ok (false, r), x2).
Proof.
  destruct ctx_ex_tree as (leaf & root & T2 & V2 & T1 & V1 & Hg).
  set (x := ctx_ex 2 root_bp leaf root) in *.
  destruct port_msgs_ok as [Hp Hd].
  destruct (gefs_btupsert_flattens ∅ x root root_vs 131072 [mkGefsArena 0 0 Blksz bp0 [(131072 + Blksz, 65536 - Blksz)]]
    port_msgs [2; 5] 2 [[]] (mkKvp [2; 5] [7]) 100) as (c1 & x' & r & x2 & E).
  - exact (ctx_ex_pre 2 root_bp leaf root root root_vs T2 V2 eq_refl).
  - repeat constructor.
  - discriminate.
  - exact Hp.
  - exact Hd.
  - vm_compute. discriminate.
  - reflexivity.
  - exact Hg.
  - reflexivity.
  - vm_compute. discriminate.
  - reflexivity.
  - reflexivity.
  - exists x, c1, x', r, x2. exact E.
Defined.

(** The tree of one leaf. *)
Lemma gefs_btupsert_merges_witness : exists x x' ok r x2,
  gefs_btupsert TActive port_msgs x = (Ok (Done tt), x') /\
  gefs_btlookup (gx_active x') [2; 9] 100 x' = (Ok (ok, r), x2) /\
  ok = true /\ r = Some (mkKvp [2; 9] [1]).
Proof.
  destruct (leaf_on_image leaf_bp port_leaf) as (leaf & L1 & V1); [vm_compute; discriminate|].
  destruct (pivot_on_image root_bp root_vs) as (root & L2 & V2 & _); [vm_compute; discriminate|].
  destruct (ctx_ex_stored 1 leaf root L1 L2 (vr_len _ _ V1) (vr_len _ _ V2) leaf_bp) as [T1 _].
  destruct port_msgs_ok as [Hp Hd].
  destruct (gefs_btupsert_merges TActive ∅ (ctx_ex 1 leaf_bp leaf root) leaf port_leaf 131072
    [mkGefsArena 0 0 Blksz bp0 [(131072 + Blksz, 65536 - Blksz)]] port_msgs 100) as (x' & E & _ & _ & Hk).
  - exact (ctx_ex_pre 1 leaf_bp leaf root leaf port_leaf T1 V1 eq_refl).
  - repeat constructor.
  - discriminate.
  - exact Hp.
  - exact Hd.
  - vm_compute. discriminate.
  - repeat constructor. vm_compute. discriminate.
  - repeat constructor. unfold msg_fits. vm_compute. discriminate.
  - destruct (Hk [2; 9]) as (ok & r & x2 & El & -> & ->).
    exists (ctx_ex 1 leaf_bp leaf root), x', true, (Some (mkKvp [2; 9] [1])), x2.
    repeat split; [exact E|exact El].
Defined.
